(* ===== verification/_CoqProject ===== *)
-Q . S2P
Prelude.v
GoStr.v
Store.v
MemCache.v
MemCacheSpec.v
Deps.v
Claims.v
ApiToken.v
ApiTokenSpec.v
Clients.v
Roles.v
RolesSpec.v
Signer.v
SignerSpec.v
SubjectKind.v
IdentitySpec.v
Dcr.v
Url.v
Consent.v
DcrSpec.v
Events.v
Mint.v
AuthCode.v
MintSpec.v
Refresh.v
RefreshSpec.v
Login.v
LoginSpec.v
SessionGrants.v
GrantsSpec.v
Gate.v
GateSpec.v
OAuth2.v
OAuth2Spec.v
ConsentFlow.v
OAuth2TokenSpec.v
Denial.v
Capability.v
CapabilitySpec.v
PatHandlers.v
Register.v
PatHandlersSpec.v
Rewrite.v
Binding.v
BindingSpec.v
Valkey.v
ValkeySpec.v
Names.v
NamesSpec.v
Functions.v
Mux.v
FunctionsSpec.v
Proxy.v
ProxySpec.v
OpenApi.v
OpenApiSpec.v
Sniffer.v
Languages.v
Response.v
ResponseSpec.v
Feedback.v
FeedbackSpec.v
Pages.v
PagesSpec.v
ServeMux.v
Routes.v
RoutesSpec.v
Host.v
HostSpec.v
Cluster.v
Deploy.v
DeploySpec.v
Pipeline.v
PipelineSpec.v
Packages.v
PackagesSpec.v
InternalHost.v
InternalHostSpec.v
Publish.v
PublishSpec.v
