(* ===== verification/Prelude.v ===== *)
(** * host-manager, verified

    host-manager serves a site described by Kubernetes resources: its pages,
    the functions proxied behind it, and the OAuth2 authorization server that
    logs its users in, mints and rotates tokens, registers clients and decides
    what a bearer may do. This library models that program, translated from
    the Go sources under src/internal, and proves what keeps it right.

    ** How the program is put together

    Everything that must be remembered between requests sits in caches
    (internal/cache), each reached through the [cache.Cache] interface, over
    memory or over a Valkey server. Above the caches stand the token manager
    (auth/apitoken), the client registry and subject kinds, the roles, the
    signer (internal/sign) and the exchanger (auth/exchange.go), which turns a
    login, a code or a refresh token into a token set. The endpoints of
    auth/oauth2.go and of internal/host use the exchanger. A request reaches
    them through the host handler: authentication (auth/middleware.go), the
    feedback middleware, then a mux rebuilt on every change from the store of
    pages and the list of functions, whose handlers gate a page or proxy a
    function. Beside them run the controllers (internal/controller), which bring
    the cluster to what the resources ask for: a function's source generated,
    its image built, the function deployed and observed, and the packages a
    host's pages import installed and packed into an image.

    ** Files

    Shared:
    - Prelude (this file): the result monad of fallible Go code, tactics, hint
      database and the list and map lemmas the components share.
    - GoStr: the operations of [strings] and [strconv] the code uses. Url: the
      parts of net/url and of http/http.go on origins and return paths. Mux and
      ServeMux: [http.ServeMux], its path cleaning and matching, and its
      patterns and conflicts.
    - Deps: what is outside src/ (JSON, hashing, time layouts, PASETO and the
      like), one class per package with its documented behaviour as laws, and a
      concrete instance of each for the witnesses. A package only one component
      uses has its class in that component's file.

    Caches:
    - Store: the [cache.Cache] interface as a class of operations ([CacheOps])
      and a class of laws ([CacheLaws]); its reference model is a finite map
      from keys to a value and an expiry. Components that keep state are
      written and verified against the interface.
    - MemCache, MemCacheSpec: cache/memory.go in full: segments, recency list,
      lookup over two generations, eviction, the reaper, the manager with
      [Cycle], [GetCache] and [ScanGenerations]. MemCacheSpec discharges
      [CacheLaws] for the uncycled caches by a simulation.
    - Valkey, ValkeySpec: cache/valkey.go as the commands it sends, refined to
      the same store with other clients of the server in between.

    Identity and tokens (internal/auth, internal/sign):
    - Claims (context.go), Clients (client_registry.go), Roles and RolesSpec
      (roles.go), Signer and SignerSpec (sign/sign.go), SubjectKind and
      IdentitySpec (subject_kind.go, binding_key.go, subject_revocation.go,
      authorization.go), ApiToken and ApiTokenSpec (apitoken/apitoken.go), Dcr,
      Consent and DcrSpec (dcr/), Events (event_dispatcher.go, event_hook.go).
    - exchange.go: Mint, AuthCode and MintSpec (client resolution, scopes,
      codes), Login and LoginSpec (the logins and the token exchange), Refresh
      and RefreshSpec (redemption, replay and logout, with refreshgrace.go, as
      a concurrent state machine).
    - SessionGrants, GrantsSpec (session_grants.go), Gate, GateSpec
      (middleware.go, resource_metadata.go).
    - OAuth2, OAuth2Spec, ConsentFlow, OAuth2TokenSpec (oauth2.go,
      oauth2_consent.go, oidc_login.go, authorize_request.go).
    - Denial (denial/denial.go, host/check.go, host/whoami.go).

    The host (internal/host and what it calls):
    - Capability, CapabilitySpec (mint_token.go, capabilities.go, transfer.go);
      PatHandlers (apitoken.go), Register (register.go, register_limiter.go),
      PatHandlersSpec of both and of Denial.
    - Rewrite (rewrite.go, rewrite/), Binding (binding.go), BindingSpec of both.
    - Names, NamesSpec (resource_names.go); Functions, FunctionsSpec, Proxy,
      ProxySpec (proxy.go, oauth2_resources.go, protected_resource.go).
    - OpenApi, OpenApiSpec (openapi/); Sniffer (sniffer/), Feedback
      (feedback.go), FeedbackSpec of both.
    - Languages (languages of http/http.go, translations.go); Response,
      ResponseSpec (ew.go, caching and security headers, error pages).
    - Pages, PagesSpec (page/, page.go, navigation.go, textpage.go); Routes,
      RoutesSpec (the rebuild of host.go and addHandlerAndRegister of
      handlers.go); Host, HostSpec (the rest of host.go).

    The controllers (internal/controller and what they call): each pass is a
    function from the resource, its status and what the API server answers (a
    record of answers) to the requests made, the status left and how it ends.
    - Cluster: outcomes, conditions, references, Jobs and pods
      (resolver_common.go, reference_namespaces.go, job/), builders and the
      kpack Image (build/). Deploy: the deployer Job, the observer, the
      generator Job (deploy/, generate/). Pipeline: the reconcile of a function
      (kdexfunction_controller.go). DeploySpec and PipelineSpec prove them.
    - Packages, PackagesSpec: the reconcile of package references, the packaging
      Job and what is read back from an image's layers
      (kdexinternalpackagereferences_controller.go, packages_verify.go,
      importmap_select.go, oci_layers.go, packref/).
    - InternalHost, InternalHostSpec: the reconcile of the host itself
      (kdexinternalhost_controller.go, utils.go), written in a monad of its
      own; its proofs go by what each part of a pass keeps ([along]).
    - Publish, PublishSpec: the reconciles of pages, rewrite pages, utility
      pages and translations (kdexpage_controller.go, kdexpage_rewrite.go,
      kdexinternalutilitypage_controller.go, kdexinternaltranslation_controller.go)
      in the same monad; their proofs go by a pass reading nothing of the
      status it was given ([blind]).

    ** What the theorems show

    - Caches: the in-memory cache and the Valkey cache refine one abstract
      store; every cache of a manager stays well formed; counters and bounds.
    - Sessions: with any number of redemptions, retries, logouts and logins
      interleaved at the granularity of cache calls, each of which may fail
      before or after it took effect, a refresh token is rotated at most once
      and a replay only repeats the winner's answer; every request ends; a
      rotation carries the session forward; a refused token is restored exactly
      when it should be; a logout ends the session. Grants are fresh once
      their generation is bumped.
    - Codes, mints and endpoints: a code is issued only for a session and what
      its user consented to, and redeemed once, by its client, at its redirect,
      with its verifier; tokens leave the token endpoint only for a valid
      grant; a callback is bound to its browser; scopes and reserved claims
      are the server's.
    - API tokens and capabilities: accepted tokens are authentic and in force,
      minted ones validate, revoked ones never do; a capability only narrows;
      its uses are spent.
    - Identity: what passes the middleware is authentic; removed clients stay
      refused; the veto, the binding key and the revocation check fail closed;
      roles are exactly those bound; the signer's own claims survive.
    - Functions: whatever is forwarded passed its gate with the requirements
      of its operation, at a path made of the segments the gate read, under
      credentials made for that function only.
    - Pages: the tree shown is exact and leads nowhere the caller is refused; a
      refused caller is sent only where it can go; the digest caches are keyed
      by decides the tree.
    - Routes: a rebuild loses no route in silence and does not depend on the
      order of its inputs.
    - Responses: an error page carries only the host's own headers; what is
      not an error passes through unchanged; a 304 confirms the same variant.
    - Controllers: in a cluster that does what is asked a function gets ready,
      and then its passes write nothing; over any edits and answers its status
      never claims a URL or an executable it has not; a build is of the
      revision pinned, no function is lent the host manager's rights, and Jobs
      are deleted for a reason. A packages image recorded as verified holds its
      pins, its verification reports exactly what is missing, and a generation
      is built once. The host is handed to its handler last, over backends that
      run at paths claimed once, and is Ready only then; an Ingress and an
      HTTPRoute route alike; a pass over what it wrote writes nothing. A page is
      served exactly as its status says, the same whatever order Go walks a
      map in (its scripts' order aside), a rewrite page only for what the host
      serves itself; a repeated pass over it writes nothing.

    ** Conventions

    - Strings are byte strings; a Go [map] is a [gmap] and, where Go iterates
      over one, the model says which order it takes or proves that none matters.
    - Times are nanoseconds since the epoch in [Z], [time.Duration] likewise;
      Unix seconds are written out with [unix] and [of_unix]. A handler reads
      the clock once per cache call it makes.
    - A mutex-protected operation is a function from state to state; a request
      that makes several cache calls and competes with others is a program
      counter and a step function ([Refresh], [SessionGrants]); elsewhere a
      boolean per call ([up]) says whether the cache answered. The one lock the
      host may take twice is a state of its own ([Host]).
    - Logging and metrics are left out. Error values keep the classes the code
      tests with [errors.Is], and their texts where callers see them.
    - Fuel: a redemption takes at most twelve steps, which [requests_terminate]
      proves (ten replay attempts and one check on either side); an eviction
      loop runs at most once per element of the map it shrinks; a page tree is
      no deeper than there are pages ([tree_fuel_enough]); a listing is followed
      for one page more than it has names ([paging_lists_all]); the redirects an
      alias follows are bounded by the code's own constant. The controllers
      need none: a pass is a composition of matches.

    ** Not modelled

    How the internal host's controller builds the authentication (an answer
    there; its parts are modelled), its sniffer in development mode and its
    sweep of stranded revocations, the watches of every controller, the
    navigation fragments, the favicon, the documents
    of the discovery, JWKS, schema and state endpoints, LDAP and HTTP
    credential lookups, start-up and flags. Library code (golang-jwt, PASETO, CEL, AES-GCM, net/url's parser,
    x/text, kin-openapi, bcrypt) appears only as such classes, templates as
    functions. *)
From stdpp Require Export base tactics decidable option list gmap strings sorting.
From Stdlib Require Export ZArith Lia.
From Stdlib Require Import Ascii String.

#[global] Open Scope Z_scope.

(** * Scopes, databases and tactics *)

Declare Scope go_scope.
Delimit Scope go_scope with go.
#[global] Open Scope go_scope.

Create HintDb go.
Create Rewrite HintDb go.

(** * Fallible code: Go's [(T, error)] *)

(** [Err e] is a non-nil error; the value Go returns beside it is never read
    by the modelled callers unless the model says so explicitly. *)
Inductive result (E A : Type) : Type :=
| Ok (a : A)
| Err (e : E).
Arguments Ok {E A} a.
Arguments Err {E A} e.

#[global] Instance result_ret {E} : MRet (result E) := fun A a => Ok a.
#[global] Instance result_bind {E} : MBind (result E) := fun A B f r =>
  match r with Ok a => f a | Err e => Err e end.

#[global] Instance result_eq_dec {E A} `{EqDecision E, EqDecision A} :
  EqDecision (result E A).
Proof. solve_decision. Defined.

(** * Time *)

(** An instant is the number of nanoseconds since the Unix epoch, a duration a
    number of nanoseconds. *)
Definition nanosecond : Z := 1.
Definition millisecond : Z := 1000000.
Definition second : Z := 1000000000.
Definition minute : Z := 60 * second.
Definition hour : Z := 60 * minute.

(** [t.Unix()]: whole seconds, rounded towards the past. *)
Definition unix (t : Z) : Z := t / second.

(** [time.Unix(s, 0)]. *)
Definition of_unix (s : Z) : Z := s * second.

(** [a.After(b)]. *)
Definition after (a b : Z) : bool := b <? a.
Arguments after : simpl never.

(** The range of [time.Duration], an int64 of nanoseconds. *)
Definition minDuration : Z := - 2 ^ 63.
Definition maxDuration : Z := 2 ^ 63 - 1.

(** [a.Sub(b)], which saturates. *)
Definition time_sub (a b : Z) : Z := Z.max minDuration (Z.min maxDuration (a - b)).

Lemma time_sub_bounds a b : minDuration <= time_sub a b <= maxDuration.
Proof. unfold time_sub, minDuration, maxDuration. lia. Qed.

Lemma time_sub_exact a b :
  minDuration <= a - b <= maxDuration -> time_sub a b = a - b.
Proof. unfold time_sub. lia. Qed.

Lemma after_spec a b : after a b = true <-> b < a.
Proof. unfold after. apply Z.ltb_lt. Qed.

Lemma after_false a b : after a b = false <-> a <= b.
Proof. unfold after. apply Z.ltb_ge. Qed.

Lemma unix_mono a b : a <= b -> unix a <= unix b.
Proof. intros H. unfold unix, second. apply Z.div_le_mono; lia. Qed.

Lemma unix_of_unix s : unix (of_unix s) = s.
Proof. unfold unix, of_unix, second. apply Z.div_mul. lia. Qed.

(** * Machine integers *)

(** The value an int64 computation leaves: two's complement, 64 bits. *)
Definition int64_wrap (z : Z) : Z := (z + 2 ^ 63) mod 2 ^ 64 - 2 ^ 63.

Lemma int64_wrap_id z : - 2 ^ 63 <= z < 2 ^ 63 -> int64_wrap z = z.
Proof. intros H. unfold int64_wrap. rewrite Z.mod_small; lia. Qed.

Lemma int64_wrap_bounds z : - 2 ^ 63 <= int64_wrap z < 2 ^ 63.
Proof. unfold int64_wrap. pose proof (Z.mod_pos_bound (z + 2 ^ 63) (2 ^ 64)). lia. Qed.

(** [t.UnixMilli()]. *)
Definition unix_milli (t : Z) : Z := t / millisecond.

(** * Tactics *)

(** Splits the conjunctions, existentials and equations of the context. *)
Ltac crush_ctx :=
  repeat match goal with
  | H : _ /\ _ |- _ => destruct H
  | H : exists _, _ |- _ => destruct H
  | H : Some _ = Some _ |- _ => injection H as H; try subst
  | H : Ok _ = Ok _ |- _ => injection H as H; try subst
  | H : Err _ = Err _ |- _ => injection H as H; try subst
  | H : (_, _) = (_, _) |- _ => injection H as H; try subst
  | H : Ok _ = Err _ |- _ => discriminate H
  | H : Err _ = Ok _ |- _ => discriminate H
  end.

(** Turns the boolean comparisons of the context into propositions. *)
Ltac bool_to_prop :=
  repeat match goal with
  | H : after _ _ = true |- _ => apply after_spec in H
  | H : after _ _ = false |- _ => apply after_false in H
  | H : (_ <? _) = true |- _ => apply Z.ltb_lt in H
  | H : (_ <? _) = false |- _ => apply Z.ltb_ge in H
  | H : (_ <=? _) = true |- _ => apply Z.leb_le in H
  | H : (_ <=? _) = false |- _ => apply Z.leb_gt in H
  | H : (_ =? _) = true |- _ => apply Z.eqb_eq in H
  | H : (_ =? _) = false |- _ => apply Z.eqb_neq in H
  | H : (_ && _)%bool = true |- _ => apply andb_true_iff in H as [? ?]
  | H : (_ || _)%bool = false |- _ => apply orb_false_iff in H as [? ?]
  | H : negb _ = true |- _ => apply negb_true_iff in H
  | H : negb _ = false |- _ => apply negb_false_iff in H
  | H : bool_decide _ = true |- _ => apply bool_decide_eq_true in H
  | H : bool_decide _ = false |- _ => apply bool_decide_eq_false in H
  end.

(** Case analysis on every match of the goal, closing the easy branches. *)
Ltac cases := repeat (case_match; simplify_eq/=; try done).

(** * Options *)

(** The truthiness of a Go comma-ok read. *)
Definition found {A} (o : option A) : bool :=
  match o with Some _ => true | None => false end.

Lemma found_true {A} (o : option A) : found o = true <-> is_Some o.
Proof. destruct o; simpl; split; intros H; try done; by destruct H. Qed.

(** * Lists *)

(** [slices.Contains]. *)
Definition contains_elem `{EqDecision A} (l : list A) (x : A) : bool :=
  bool_decide (x ∈ l).

Lemma contains_elem_spec `{EqDecision A} (l : list A) x :
  contains_elem l x = true <-> x ∈ l.
Proof. apply bool_decide_eq_true. Qed.

(** Keeps, in order and without duplicates, the elements of [l] that satisfy
    [p]: the loop [for x in l { if p(x) && !slices.Contains(kept, x) {...} }]
    with [kept] the elements already appended. *)
Fixpoint keep_distinct `{EqDecision A} (p : A -> bool) (kept l : list A) : list A :=
  match l with
  | [] => kept
  | x :: l =>
      if (p x && negb (contains_elem kept x))%bool
      then keep_distinct p (kept ++ [x]) l
      else keep_distinct p kept l
  end.

Section KeepDistinct.
Context `{EqDecision A} (p : A -> bool).

Lemma elem_of_keep_distinct l : forall kept x,
  x ∈ keep_distinct p kept l <-> x ∈ kept \/ (x ∈ l /\ p x = true).
Proof.
  induction l as [|y l IH]; intros kept x; simpl.
  { rewrite elem_of_nil. tauto. }
  rewrite elem_of_cons. destruct (p y) eqn:Hy; simpl.
  - destruct (contains_elem kept y) eqn:Hc; simpl; rewrite IH.
    + apply contains_elem_spec in Hc. split; [tauto|].
      intros [?|[[->|?] ?]]; tauto.
    + rewrite elem_of_app, list_elem_of_singleton.
      split; [intros [[?| ->]|?]; tauto|]. intros [?|[[->|?] ?]]; tauto.
  - rewrite IH. split; [tauto|]. intros [?|[[->|?] ?]]; [tauto|congruence|tauto].
Qed.

Lemma NoDup_keep_distinct l : forall kept,
  NoDup kept -> NoDup (keep_distinct p kept l).
Proof.
  induction l as [|y l IH]; intros kept Hnd; simpl; [done|].
  destruct (p y); simpl; [|by apply IH].
  destruct (contains_elem kept y) eqn:Hc; simpl; [by apply IH|].
  apply IH, NoDup_app. split_and!; [done| |apply NoDup_singleton].
  intros x Hx ->%list_elem_of_singleton.
  apply contains_elem_spec in Hx. congruence.
Qed.

(** On a duplicate-free list all of whose elements pass, the loop is a copy. *)
Lemma keep_distinct_id l : forall kept,
  NoDup (kept ++ l) -> (forall x, x ∈ l -> p x = true) ->
  keep_distinct p kept l = kept ++ l.
Proof.
  induction l as [|y l IH]; intros kept Hnd Hp; simpl; [by rewrite app_nil_r|].
  rewrite (Hp y) by left. simpl.
  destruct (contains_elem kept y) eqn:Hc; simpl.
  - apply contains_elem_spec in Hc. apply NoDup_app in Hnd as (_ & Hd & _).
    exfalso. apply (Hd y Hc). left.
  - rewrite IH, <- app_assoc; [done|by rewrite <- app_assoc|].
    intros x Hx. apply Hp. by right.
Qed.
End KeepDistinct.

Lemma filter_none {A} (P : A -> Prop) `{!forall x, Decision (P x)} l : Forall (fun x => ~ P x) l -> filter P l = [].
Proof. induction 1 as [|x l Hx _ IH]; [done|]. by rewrite filter_cons_False, IH. Qed.

Lemma NoDup_fst_filter {A B} (P : A * B -> Prop) `{forall x, Decision (P x)} l :
  NoDup l.*1 -> NoDup (filter P l).*1.
Proof.
  induction l as [|x l IH]; simpl; [done|]. rewrite NoDup_cons. intros [Hx Hl].
  rewrite filter_cons. case_decide; simpl; [|by apply IH].
  apply NoDup_cons. split; [|by apply IH]. intros Hin. apply Hx.
  apply list_elem_of_fmap in Hin as (y & -> & Hy).
  apply list_elem_of_filter in Hy as [_ Hy]. by apply list_elem_of_fmap_2.
Qed.

(** A pair list without repeated first components is a partial function. *)
Lemma NoDup_fst_inj {A B} (l : list (A * B)) a b b' :
  NoDup l.*1 -> (a, b) ∈ l -> (a, b') ∈ l -> b = b'.
Proof.
  induction l as [|[x y] l IH]; simpl; [by intros _ ?%elem_of_nil|].
  rewrite NoDup_cons, !elem_of_cons. intros [Hx Hl] [?|H1] [?|H2]; simplify_eq; try done.
  - exfalso. apply Hx. apply (list_elem_of_fmap_2 fst) in H2. done.
  - exfalso. apply Hx. apply (list_elem_of_fmap_2 fst) in H1. done.
  - by apply IH.
Qed.

#[export] Hint Resolve unix_mono NoDup_fst_filter : go.
#[export] Hint Rewrite unix_of_unix : go.
