(* ===== verification/GoStr.v ===== *)
(** The operations of Go's [strings] and [strconv] packages that host-manager
    uses, on byte strings (Rocq's [string] is a list of bytes, as Go's is).

    [Fields], [TrimSpace] and [EqualFold] treat the ASCII space characters and
    letters; the code applies them to scopes, header values and host names it
    has already confined to ASCII, or compares them with an ASCII literal. *)
From S2P Require Import Prelude.
From Stdlib Require Import Ascii String DecimalString DecimalZ.
From Stdlib Require DecimalFacts.

#[global] Arguments String.append !_ _ /.
#[local] Open Scope string_scope.

(** * Prefixes, suffixes, substrings *)

(** [strings.HasPrefix]. *)
Fixpoint HasPrefix (s p : string) : bool :=
  match p, s with
  | "", _ => true
  | String a p, String b s => (Ascii.eqb a b && HasPrefix s p)%bool
  | String _ _, "" => false
  end.

(** [strings.CutPrefix]: the rest, when the prefix is there. *)
Fixpoint CutPrefix (s p : string) : option string :=
  match p, s with
  | "", _ => Some s
  | String a p, String b s => if Ascii.eqb a b then CutPrefix s p else None
  | String _ _, "" => None
  end.

(** [strings.TrimPrefix]. *)
Definition TrimPrefix (s p : string) : string := default s (CutPrefix s p).

(** [strings.HasSuffix]. *)
Fixpoint HasSuffix (s p : string) : bool :=
  (String.eqb s p ||
   match s with "" => false | String _ s => HasSuffix s p end)%bool.

(** [strings.TrimSuffix]. *)
Fixpoint TrimSuffix (s p : string) : string :=
  if String.eqb s p then ""
  else match s with "" => "" | String c s => String c (TrimSuffix s p) end.

(** [strings.Contains]. *)
Fixpoint Contains (s sub : string) : bool :=
  (HasPrefix s sub ||
   match s with "" => false | String _ s => Contains s sub end)%bool.

(** [s] holds the byte [c]: [strings.Contains(s, "c")], [strings.IndexByte]. *)
Fixpoint has_byte (c : ascii) (s : string) : bool :=
  match s with "" => false | String d s => (Ascii.eqb c d || has_byte c s)%bool end.

(** [strings.ContainsAny]. *)
Fixpoint ContainsAny (s chars : string) : bool :=
  match s with
  | "" => false
  | String c s => (has_byte c chars || ContainsAny s chars)%bool
  end.

(** Every byte of [s] satisfies [p]. *)
Fixpoint all_bytes (p : ascii -> bool) (s : string) : bool :=
  match s with "" => true | String c s => (p c && all_bytes p s)%bool end.

(** * Splitting and joining *)

(** [strings.Split(s, sep)] for a one-byte separator: never empty, and the
    segments hold no separator. *)
Fixpoint Split (sep : ascii) (s : string) : list string :=
  match s with
  | "" => [""]
  | String c s =>
      if Ascii.eqb c sep then "" :: Split sep s
      else match Split sep s with
           | [] => [String c ""]
           | seg :: segs => String c seg :: segs
           end
  end.

(** [strings.Join]. *)
Fixpoint Join (l : list string) (sep : string) : string :=
  match l with
  | [] => ""
  | [s] => s
  | s :: l => s ++ sep ++ Join l sep
  end.

Definition is_space (c : ascii) : bool :=
  let n := N_of_ascii c in
  ((n =? 32) || ((9 <=? n) && (n <=? 13)))%N%bool.

(** [strings.Fields]: the maximal runs of non-space bytes. *)
Fixpoint fields_from (cur : string) (s : string) : list string :=
  match s with
  | "" => if String.eqb cur "" then [] else [cur]
  | String c s =>
      if is_space c
      then (if String.eqb cur "" then [] else [cur]) ++ fields_from "" s
      else fields_from (cur ++ String c "") s
  end%list.
Definition Fields (s : string) : list string := fields_from "" s.

Fixpoint trim_left (p : ascii -> bool) (s : string) : string :=
  match s with
  | "" => ""
  | String c s' => if p c then trim_left p s' else s
  end.

Fixpoint trim_right (p : ascii -> bool) (s : string) : string :=
  match s with
  | "" => ""
  | String c s =>
      match trim_right p s with
      | "" => if p c then "" else String c ""
      | s' => String c s'
      end
  end.

(** [strings.TrimSpace]. *)
Definition TrimSpace (s : string) : string := trim_right is_space (trim_left is_space s).

Definition lower_byte (c : ascii) : ascii :=
  let n := N_of_ascii c in
  if ((65 <=? n) && (n <=? 90))%N%bool then ascii_of_N (n + 32) else c.

(** [strings.ToLower] on ASCII. *)
Fixpoint ToLower (s : string) : string :=
  match s with "" => "" | String c s => String (lower_byte c) (ToLower s) end.

(** [strings.EqualFold] on ASCII. *)
Definition EqualFold (s t : string) : bool := String.eqb (ToLower s) (ToLower t).

(** * [strconv] *)

Definition int64_min : Z := - 2 ^ 63.
Definition int64_max : Z := 2 ^ 63 - 1.

Definition in_int64 (z : Z) : bool := ((int64_min <=? z)%Z && (z <=? int64_max)%Z)%bool.

(** [strconv.FormatInt(z, 10)]. *)
Definition FormatInt (z : Z) : string := NilZero.string_of_int (Z.to_int z).

(** [strconv.ParseInt(s, 10, 64)]: an optional sign, at least one digit and
    nothing else, in range. *)
Definition ParseInt (s : string) : option Z :=
  z ← match s with
      | "" => None
      | String c s' =>
          if Ascii.eqb c "+" then Z.of_uint <$> NilZero.uint_of_string s'
          else Z.of_int <$> NilZero.int_of_string s
      end;
  if in_int64 z then Some z else None.

(** * Lemmas *)

Lemma append_nil_r s : s ++ "" = s.
Proof. induction s as [|c s IH]; simpl; [done|by rewrite IH]. Qed.

Lemma append_assoc s t u : (s ++ t) ++ u = s ++ (t ++ u).
Proof. induction s as [|c s IH]; simpl; [done|by rewrite IH]. Qed.

Lemma length_append s t : String.length (s ++ t) = (String.length s + String.length t)%nat.
Proof. induction s as [|c s IH]; cbn; [done|]. by rewrite IH. Qed.

Lemma all_bytes_append p s t : all_bytes p (s ++ t) = (all_bytes p s && all_bytes p t)%bool.
Proof. induction s as [|c s IH]; cbn; [done|]. by rewrite IH, andb_assoc. Qed.

(** A separator the tails do not hold splits uniquely. *)
Lemma append_sep_inj c a b a' b' :
  has_byte c b = false -> has_byte c b' = false ->
  a ++ String c "" ++ b = a' ++ String c "" ++ b' -> a = a' /\ b = b'.
Proof.
  assert (forall x y, has_byte c (x ++ String c "" ++ y) = true) as Hin.
  { induction x as [|d x IH]; intros y; simpl; [by rewrite Ascii.eqb_refl|].
    specialize (IH y). simpl in IH. rewrite IH. apply orb_true_r. }
  intros Hb Hb'. revert a'. induction a as [|d a IH]; intros [|d' a'] Heq; simpl in Heq.
  - by injection Heq as ->.
  - injection Heq as -> Heq. pose proof (Hin a' b') as Hc. simpl in Hc. congruence.
  - injection Heq as -> Heq. pose proof (Hin a b) as Hc. simpl in Hc. congruence.
  - injection Heq as -> Heq. apply IH in Heq as [-> ->]. done.
Qed.

Lemma HasPrefix_spec s p : HasPrefix s p = true <-> exists t, s = p ++ t.
Proof.
  revert s. induction p as [|a p IH]; intros s.
  - split; [exists s; done|by destruct s].
  - destruct s as [|b s]; simpl; [split; [done|by intros [? ?]]|].
    rewrite andb_true_iff, Ascii.eqb_eq, IH. split.
    + intros (-> & t & ->). by exists t.
    + intros [t Ht]. injection Ht as -> ->. eauto.
Qed.

Lemma CutPrefix_spec s p t : CutPrefix s p = Some t <-> s = p ++ t.
Proof.
  revert s. induction p as [|a p IH]; intros s.
  - destruct s; simpl; split; congruence.
  - destruct s as [|b s]; simpl; [done|].
    destruct (Ascii.eqb_spec a b) as [->|Hab]; [rewrite IH|]; split; congruence.
Qed.

Lemma CutPrefix_append p t : CutPrefix (p ++ t) p = Some t.
Proof. by apply CutPrefix_spec. Qed.

Lemma TrimPrefix_append p t : TrimPrefix (p ++ t) p = t.
Proof. unfold TrimPrefix. by rewrite CutPrefix_append. Qed.

Lemma HasPrefix_append p t : HasPrefix (p ++ t) p = true.
Proof. apply HasPrefix_spec. eauto. Qed.

Lemma has_byte_append c s t : has_byte c (s ++ t) = (has_byte c s || has_byte c t)%bool.
Proof. induction s as [|d s IH]; simpl; [done|]. by rewrite IH, orb_assoc. Qed.

Lemma has_byte_HasPrefix c s t : HasPrefix s (t ++ String c "") = true -> has_byte c s = true.
Proof.
  rewrite HasPrefix_spec. intros [u ->]. rewrite !has_byte_append. simpl.
  rewrite Ascii.eqb_refl. by destruct (has_byte c t).
Qed.

Lemma Contains_eq s sub :
  Contains s sub =
  (HasPrefix s sub || match s with "" => false | String _ s => Contains s sub end)%bool.
Proof. by destruct s. Qed.

Lemma Contains_spec s sub : Contains s sub = true <-> exists a b, s = a ++ sub ++ b.
Proof.
  induction s as [|c s IH]; rewrite Contains_eq, orb_true_iff, HasPrefix_spec.
  - split; [intros [[t Ht]|?]; [by exists "", t|done]|].
    intros (a & b & H). destruct a; [left; by exists b|done].
  - rewrite IH. split.
    + intros [[t Ht]|(a & b & Ht)]; [exists "", t; done|].
      exists (String c a), b. by rewrite Ht.
    + intros (a & b & H). destruct a as [|d a]; [left; exists b; done|].
      right. injection H as -> ->. eauto.
Qed.

Lemma Contains_byte c s : Contains s (String c "") = has_byte c s.
Proof.
  induction s as [|d s IH]; [done|]. simpl. rewrite IH. by destruct (Ascii.eqb c d), s.
Qed.

Lemma Split_cons sep s : exists seg segs, Split sep s = seg :: segs.
Proof.
  induction s as [|c s IH]; simpl; [eauto|].
  destruct (Ascii.eqb c sep); [eauto|].
  destruct IH as (seg & segs & ->). eauto.
Qed.

(** [Split] is the inverse of [Join]: Go's [strings.Join(strings.Split(s, sep), sep) == s]. *)
Lemma Join_Split sep s : Join (Split sep s) (String sep "") = s.
Proof.
  induction s as [|c s IH]; simpl; [done|].
  destruct (Split_cons sep s) as (seg & segs & Hs). rewrite Hs in *.
  destruct (Ascii.eqb_spec c sep) as [->|Hne].
  - simpl in *. by rewrite IH.
  - destruct segs; simpl in *; by rewrite IH.
Qed.

Lemma Split_no_sep sep s seg : seg ∈ Split sep s -> has_byte sep seg = false.
Proof.
  revert seg. induction s as [|c s IH]; intros seg; simpl.
  - intros ->%list_elem_of_singleton. done.
  - destruct (Ascii.eqb_spec c sep) as [->|Hne].
    + rewrite elem_of_cons. intros [->|?]; [done|by apply IH].
    + destruct (Split_cons sep s) as (x & xs & Hs). rewrite Hs in *.
      rewrite elem_of_cons. intros [->|?].
      * simpl. rewrite (IH x) by set_solver.
        destruct (Ascii.eqb_spec sep c); [congruence|done].
      * apply IH. set_solver.
Qed.

Lemma int_of_FormatInt z : NilZero.int_of_string (FormatInt z) = Some (Z.to_int z).
Proof.
  apply NilZero.isi; destruct z as [|p|p]; simpl; try done;
    intros [=H]; by apply (DecimalPos.Unsigned.to_uint_nonnil p).
Qed.

Lemma ParseInt_FormatInt z : in_int64 z = true -> ParseInt (FormatInt z) = Some z.
Proof.
  intros Hz. unfold ParseInt. pose proof (int_of_FormatInt z) as Hi.
  destruct (FormatInt z) as [|c s]; [done|].
  destruct (Ascii.eqb_spec c "+") as [->|Hc].
  { simpl in Hi. by destruct (NilEmpty.uint_of_string s). }
  rewrite Hi. simpl. by rewrite of_to, Hz.
Qed.

Lemma ParseInt_in_int64 s z : ParseInt s = Some z -> in_int64 z = true.
Proof. unfold ParseInt. intros (y & _ & Hy)%bind_Some. by case_match; simplify_eq. Qed.

#[export] Hint Rewrite append_nil_r append_assoc CutPrefix_append TrimPrefix_append
  HasPrefix_append has_byte_append : go.
