(* ===== verification/Store.v ===== *)
(** What [cache.Cache] promises its callers (src/internal/cache/cache.go), as a
    class of operations and two classes of laws.

    Every store of security state (revocations, the client registry, refresh
    tokens, codes, use counters, consents, registered clients) is created
    [Uncycled], and is used through this interface. Two classes of laws describe
    it over a map from keys to a value and an expiry: [CacheLaws] for the stores
    created without a bound (the revocations and the client registry), and
    [CacheSafe] for those that may evict an entry to make room for another (all
    the others: a class is bounded to 1000 items unless its options say
    otherwise). [MemCacheSpec] discharges both for the in-memory backend. *)
From S2P Require Import Prelude GoStr.

#[local] Open Scope string_scope.

(** * Options *)

(** [SetOptions]. *)
Record SetOptions := mkSetOptions { so_TTL : option Z; so_NoExpiry : bool }.

Definition noOptions : SetOptions := mkSetOptions None false.

(** A [SetOption] is a function on the options; [applySetOptions] runs them in
    order over the zero value. *)
Definition SetOption := SetOptions -> SetOptions.

Definition applySetOptions (opts : list SetOption) : SetOptions :=
  foldl (fun o opt => opt o) noOptions opts.

Definition WithTTL (ttl : Z) : SetOption :=
  fun o => mkSetOptions (Some ttl) (so_NoExpiry o).

Definition WithoutExpiry : SetOption :=
  fun o => mkSetOptions (so_TTL o) true.

(** [time.Date(9999, 1, 1, 0, 0, 0, 0, time.UTC)]. *)
Definition neverExpires : Z := 253370764800 * second.

(** The expiry a [Set] made at [now] gives its entry, over a cache whose
    default TTL is [dttl]. *)
Definition expiry_of (now dttl : Z) (o : SetOptions) : Z :=
  if so_NoExpiry o then neverExpires else now + default dttl (so_TTL o).

(** * The abstract store *)

(** A value and its expiry; the entry is live up to and including its expiry
    ([time.Now().After(entry.expiry)] is the expiry test). *)
Abbreviation store := (gmap string (string * Z)).

Definition st_get (now : Z) (k : string) (s : store) : option string :=
  '(v, e) ← s !! k; if after now e then None else Some v.

(** A live entry is removed; an expired one is left for the reaper. *)
Definition st_getdel (now : Z) (k : string) (s : store) : option string * store :=
  match st_get now k s with
  | Some v => (Some v, delete k s)
  | None => (None, s)
  end.

Definition st_set (now dttl : Z) (k v : string) (o : SetOptions) (s : store) : store :=
  <[k := (v, expiry_of now dttl o)]> s.

Definition UpdateFunc := string -> bool -> string * bool.

Definition st_update (now dttl : Z) (k : string) (fn : UpdateFunc) (o : SetOptions)
    (s : store) : bool * store :=
  let '(next, write) := fn (default "" (st_get now k s)) (found (st_get now k s)) in
  (write, if write then st_set now dttl k next o s else s).

(** The remaining count and success; the expiry is kept. *)
Definition st_decr (now : Z) (k : string) (s : store) : Z * bool * store :=
  match s !! k with
  | Some (v, e) =>
      if after now e then (-1, false, s) else
      match ParseInt v with
      | Some n => if n <=? 0 then (-1, false, s)
                  else (n - 1, true, <[k := (FormatInt (n - 1), e)]> s)
      | None => (-1, false, s)
      end
  | None => (-1, false, s)
  end%Z.

(** * The interface *)

Class CacheOps (S : Type) := {
  cTTL : S -> Z;
  cGet : Z -> string -> S -> option string * S;
  cGetAndDelete : Z -> string -> S -> option string * S;
  cDelete : string -> S -> S;
  cSet : Z -> string -> string -> list SetOption -> S -> S;
  cUpdate : Z -> string -> UpdateFunc -> list SetOption -> S -> bool * S;
  cDecrementIfPositive : Z -> string -> S -> Z * bool * S;
}.

(** What holds of every uncycled cache, bounded or not: a write stores its
    entry, and may lose others. *)
Class CacheSafe (S : Type) `{CacheOps S} := {
  cabs : S -> store;
  cGet_val now k s : (cGet now k s).1 = st_get now k (cabs s);
  cGet_abs now k s : cabs (cGet now k s).2 = cabs s;
  cGetAndDelete_val now k s : (cGetAndDelete now k s).1 = (st_getdel now k (cabs s)).1;
  cGetAndDelete_abs now k s : cabs (cGetAndDelete now k s).2 = (st_getdel now k (cabs s)).2;
  cDelete_abs k s : cabs (cDelete k s) = delete k (cabs s);
  cSet_at now k v opts s :
    cabs (cSet now k v opts s) !! k = Some (v, expiry_of now (cTTL s) (applySetOptions opts));
  cSet_sub now k v opts s :
    cabs (cSet now k v opts s) ⊆ st_set now (cTTL s) k v (applySetOptions opts) (cabs s);
  cUpdate_val now k fn opts s :
    (cUpdate now k fn opts s).1 =
    (st_update now (cTTL s) k fn (applySetOptions opts) (cabs s)).1;
  cUpdate_at now k fn opts s :
    cabs (cUpdate now k fn opts s).2 !! k =
    (st_update now (cTTL s) k fn (applySetOptions opts) (cabs s)).2 !! k;
  cUpdate_sub now k fn opts s :
    cabs (cUpdate now k fn opts s).2 ⊆
    (st_update now (cTTL s) k fn (applySetOptions opts) (cabs s)).2;
  cDecr_val now k s : (cDecrementIfPositive now k s).1 = (st_decr now k (cabs s)).1;
  cDecr_abs now k s : cabs (cDecrementIfPositive now k s).2 = (st_decr now k (cabs s)).2;
}.

(** What holds of the unbounded ones: nothing is lost. *)
Class CacheLaws (S : Type) `{CacheOps S} := {
  CacheLaws_safe :: CacheSafe S;
  cSet_abs now k v opts s :
    cabs (cSet now k v opts s) = st_set now (cTTL s) k v (applySetOptions opts) (cabs s);
  cUpdate_abs now k fn opts s :
    cabs (cUpdate now k fn opts s).2 =
    (st_update now (cTTL s) k fn (applySetOptions opts) (cabs s)).2;
}.

(** What a write leaves of another key. *)
Lemma cSet_other {St} `{CacheSafe St} now k v opts s k' x :
  k' <> k -> cabs (cSet now k v opts s) !! k' = Some x -> cabs s !! k' = Some x.
Proof.
  intros Hne Hx. pose proof (lookup_weaken _ _ _ _ Hx (cSet_sub now k v opts s)) as Hw.
  unfold st_set in Hw. by rewrite lookup_insert_ne in Hw.
Qed.

Lemma cSet_none {St} `{CacheSafe St} now k v opts s k' :
  k' <> k -> cabs s !! k' = None -> cabs (cSet now k v opts s) !! k' = None.
Proof.
  intros Hne Hn. destruct (cabs (cSet now k v opts s) !! k') eqn:Hs; [|done].
  apply cSet_other in Hs; congruence.
Qed.

(** The entry just written is read back until it expires. *)
Lemma cSet_live {St} `{CacheSafe St} now k v opts s now' :
  now' <= expiry_of now (cTTL s) (applySetOptions opts) ->
  st_get now' k (cabs (cSet now k v opts s)) = Some v.
Proof.
  intros Hle. unfold st_get. rewrite cSet_at. simpl. by rewrite (proj2 (after_false _ _)).
Qed.

(** What a caller sees of key [k] at [now], without the recency update. *)
Definition peek {St} `{CacheOps St} (now : Z) (k : string) (s : St) : option string :=
  (cGet now k s).1.

Create Rewrite HintDb store.
#[export] Hint Rewrite @cGet_val @cGet_abs @cGetAndDelete_val @cGetAndDelete_abs
  @cDelete_abs @cSet_abs @cUpdate_val @cUpdate_abs @cDecr_val @cDecr_abs : store.

(** * Lemmas on the abstract store *)

Lemma st_get_delete now k s : st_get now k (delete k s) = None.
Proof. unfold st_get. by rewrite lookup_delete_eq. Qed.

Lemma st_get_delete_ne now k k' s : k <> k' -> st_get now k (delete k' s) = st_get now k s.
Proof. intros Hne. unfold st_get. by rewrite lookup_delete_ne. Qed.

Lemma st_get_set_ne now t d k k' v o s :
  k <> k' -> st_get now k (st_set t d k' v o s) = st_get now k s.
Proof. intros Hne. unfold st_get, st_set. by rewrite lookup_insert_ne. Qed.

Lemma st_get_set now t d k v o s :
  st_get now k (st_set t d k v o s) =
  if after now (expiry_of t d o) then None else Some v.
Proof. unfold st_get, st_set. by rewrite lookup_insert_eq. Qed.

(** A value set without expiry, or with a positive TTL, is read back until
    that expiry. *)
Lemma st_get_set_live now t d k v o s :
  now <= expiry_of t d o -> st_get now k (st_set t d k v o s) = Some v.
Proof. intros H. rewrite st_get_set. apply after_false in H. by rewrite H. Qed.

(** Expiry only takes entries away. *)
Lemma st_get_anti now now' k s v :
  now <= now' -> st_get now' k s = Some v -> st_get now k s = Some v.
Proof.
  unfold st_get. intros Hle. destruct (s !! k) as [[w e]|]; simpl; [|done].
  destruct (after now' e) eqn:H1, (after now e) eqn:H2; try done. bool_to_prop. lia.
Qed.

(** * Observational equality *)

(** Two stores no reader can tell apart from [now] on: an expired entry and an
    absent one are the same. *)
Definition obs_eq (now : Z) (s s' : store) : Prop :=
  forall t k, now <= t -> st_get t k s = st_get t k s'.

#[global] Instance obs_eq_equiv now : Equivalence (obs_eq now).
Proof.
  split; unfold obs_eq.
  - done.
  - intros s s' H t k Ht. by rewrite H.
  - intros s s' s'' H1 H2 t k Ht. by rewrite H1, H2.
Qed.

#[global] Instance st_get_proper now k : Proper (obs_eq now ==> eq) (st_get now k).
Proof. intros s s' H. apply H. lia. Qed.

#[global] Instance delete_obs_proper now k :
  Proper (obs_eq now ==> obs_eq now) (delete k : store -> store).
Proof.
  intros s s' H t k' Ht. destruct (decide (k' = k)) as [->|Hne].
  - by rewrite !st_get_delete.
  - rewrite !st_get_delete_ne by done. by apply H.
Qed.

#[global] Instance st_set_proper now t d k v o :
  Proper (obs_eq now ==> obs_eq now) (st_set t d k v o).
Proof.
  intros s s' H t' k' Ht. destruct (decide (k' = k)) as [->|Hne].
  - by rewrite !st_get_set.
  - rewrite !st_get_set_ne by done. by apply H.
Qed.

#[global] Instance st_getdel_proper now k :
  Proper (obs_eq now ==> prod_relation eq (obs_eq now)) (st_getdel now k).
Proof.
  intros s s' H. unfold st_getdel. rewrite <- (st_get_proper now k s s' H).
  destruct (st_get now k s); split; simpl; try done. by rewrite H.
Qed.

#[global] Instance st_update_proper now d k fn o :
  Proper (obs_eq now ==> prod_relation eq (obs_eq now)) (st_update now d k fn o).
Proof.
  intros s s' H. unfold st_update. rewrite <- (st_get_proper now k s s' H).
  destruct (fn _ _) as [next write]. destruct write; split; simpl; try done. by rewrite H.
Qed.

(** What is live is the same, expiry included. *)
Lemma obs_eq_live now s s' k v e :
  obs_eq now s s' -> s !! k = Some (v, e) -> now <= e -> s' !! k = Some (v, e).
Proof.
  intros H Hk Hle.
  assert (forall t, now <= t -> t <= e -> st_get t k s' = Some v) as Hlive.
  { intros t H1 H2. rewrite <- (H t k H1). unfold st_get. rewrite Hk. simpl.
    apply after_false in H2. by rewrite H2. }
  pose proof (Hlive e Hle ltac:(lia)) as He.
  pose proof (H (e + 1) k ltac:(lia)) as Hd.
  unfold st_get in He, Hd. rewrite Hk in Hd. simpl in Hd.
  rewrite (proj2 (after_spec (e + 1) e)) in Hd by lia.
  destruct (s' !! k) as [[v' e']|]; simpl in *; [|done].
  destruct (after e e') eqn:H1; [done|]. destruct (after (e + 1) e') eqn:H2; [|done].
  bool_to_prop. assert (e' = e) by lia. congruence.
Qed.

Lemma obs_eq_delete_expired now s k v e :
  s !! k = Some (v, e) -> after now e = true -> obs_eq now (delete k s) s.
Proof.
  intros Hk Ha t k' Ht. destruct (decide (k' = k)) as [->|?]; [|by apply st_get_delete_ne].
  rewrite st_get_delete. unfold st_get. rewrite Hk. simpl. bool_to_prop.
  by rewrite (proj2 (after_spec t e)) by lia.
Qed.

Lemma obs_eq_later now now' s s' : now <= now' -> obs_eq now s s' -> obs_eq now' s s'.
Proof. intros Hle H t k Ht. apply H. lia. Qed.

Lemma st_decr_none now k s : st_get now k s = None -> st_decr now k s = (-1, false, s)%Z.
Proof.
  unfold st_get, st_decr. destruct (s !! k) as [[v e]|]; simpl; [|done].
  by destruct (after now e).
Qed.

#[global] Instance st_decr_proper now k :
  Proper (obs_eq now ==> prod_relation eq (obs_eq now)) (st_decr now k).
Proof.
  intros s s' H. destruct (st_get now k s) as [w|] eqn:Hg.
  - unfold st_get in Hg. destruct (s !! k) as [[v e]|] eqn:Hk; simpl in Hg; [|done].
    destruct (after now e) eqn:Ha; [done|]. simplify_eq.
    pose proof (obs_eq_live _ _ _ _ _ _ H Hk ltac:(by apply after_false)) as Hk'.
    unfold st_decr. rewrite Hk, Hk', Ha. destruct (ParseInt w) as [n|]; [|by split].
    destruct (n <=? 0)%Z; [by split|]. split; simpl; [done|].
    intros t k' Ht. unfold st_get. destruct (decide (k' = k)) as [->|Hne].
    + by rewrite !lookup_insert_eq.
    + rewrite !lookup_insert_ne by done. by apply H.
  - rewrite st_decr_none by done.
    rewrite (H now k) in Hg by lia. rewrite st_decr_none by done. by split.
Qed.

(** * Requests *)

(** The requests a client makes of a store, and the answers it reads. *)
Inductive request :=
| RGet (now : Z) (k : string)
| RGetAndDelete (now : Z) (k : string)
| RDelete (now : Z) (k : string)
| RSet (now : Z) (k v : string) (opts : list SetOption)
| RUpdate (now : Z) (k : string) (fn : UpdateFunc) (opts : list SetOption)
| RDecrement (now : Z) (k : string).

Inductive answer :=
| AValue (v : option string)
| AUnit
| AWrote (b : bool)
| ACount (n : Z) (ok : bool).

Definition request_time (r : request) : Z :=
  match r with
  | RGet t _ | RGetAndDelete t _ | RDelete t _ | RSet t _ _ _ | RUpdate t _ _ _
  | RDecrement t _ => t
  end.

(** The abstract store's answer, over the default TTL [dttl]. *)
Definition store_serve (dttl : Z) (r : request) (s : store) : answer * store :=
  match r with
  | RGet t k => (AValue (st_get t k s), s)
  | RGetAndDelete t k => let '(v, s) := st_getdel t k s in (AValue v, s)
  | RDelete _ k => (AUnit, delete k s)
  | RSet t k v opts => (AUnit, st_set t dttl k v (applySetOptions opts) s)
  | RUpdate t k fn opts => let '(b, s) := st_update t dttl k fn (applySetOptions opts) s in (AWrote b, s)
  | RDecrement t k => let '(n, ok, s) := st_decr t k s in (ACount n ok, s)
  end.

#[global] Instance store_serve_proper dttl r :
  Proper (obs_eq (request_time r) ==> prod_relation eq (obs_eq (request_time r)))
    (store_serve dttl r).
Proof.
  intros s s' H. destruct r; simpl in *.
  - split; simpl; [f_equal; by apply st_get_proper|done].
  - destruct (st_getdel_proper now k s s' H) as [Hv Hs].
    destruct (st_getdel now k s), (st_getdel now k s'); simpl in *. subst. by split.
  - split; simpl; [done|]. by apply delete_obs_proper.
  - split; simpl; [done|]. by apply st_set_proper.
  - destruct (st_update_proper now dttl k fn (applySetOptions opts) s s' H) as [Hv Hs].
    destruct (st_update _ _ _ _ _ s), (st_update _ _ _ _ _ s'); simpl in *. subst. by split.
  - destruct (st_decr_proper now k s s' H) as [Hv Hs].
    destruct (st_decr now k s) as [[n ok] s1], (st_decr now k s') as [[n' ok'] s1'].
    simpl in *. simplify_eq. by split.
Qed.

(** * The reference instance: the abstract store itself *)

Record mapStore := MapStore { ms_ttl : Z; ms_map : store }.

#[global] Instance mapStore_ops : CacheOps mapStore := {
  cTTL := ms_ttl;
  cGet now k s := (st_get now k (ms_map s), s);
  cGetAndDelete now k s :=
    let '(v, m) := st_getdel now k (ms_map s) in (v, MapStore (ms_ttl s) m);
  cDelete k s := MapStore (ms_ttl s) (delete k (ms_map s));
  cSet now k v opts s :=
    MapStore (ms_ttl s) (st_set now (ms_ttl s) k v (applySetOptions opts) (ms_map s));
  cUpdate now k fn opts s :=
    let '(w, m) := st_update now (ms_ttl s) k fn (applySetOptions opts) (ms_map s) in
    (w, MapStore (ms_ttl s) m);
  cDecrementIfPositive now k s :=
    let '(r, m) := st_decr now k (ms_map s) in (r, MapStore (ms_ttl s) m);
}.

#[global] Instance mapStore_safe : CacheSafe mapStore.
Proof.
  refine {| cabs := ms_map |}; intros; simpl; try done; try by case_match.
  unfold st_set. apply lookup_insert_eq.
Defined.

#[global] Instance mapStore_laws : CacheLaws mapStore.
Proof. refine {| CacheLaws_safe := mapStore_safe |}; intros; simpl; try done; by case_match. Defined.

Definition emptyStore (ttl : Z) : mapStore := MapStore ttl ∅.
