(* ===== verification/MemCache.v ===== *)
(** The in-memory cache and its manager (src/internal/cache/memory.go).

    The mutex of a cache makes each of its operations atomic, so an operation
    is a function on the cache's state. [time.Now()] is read once per
    operation and passed in. The recency list ([container/list]) is a list of
    (element identity, key) pairs, most recent first: a Go [*list.Element] is
    its identity, allocated from [c_nextElement], and [Remove] and
    [MoveToFront] of an element no longer in the list do nothing, as in Go. *)
From S2P Require Import Prelude GoStr Store.

#[local] Open Scope string_scope.

(** * State *)

Record memoryCacheEntry := mkEntry {
  e_element : option nat;
  e_expiry : Z;
  e_key : string;
  e_value : string;
}.

Abbreviation segment := (gmap string memoryCacheEntry).

Record InMemoryCache := mkCache {
  c_class : string;
  c_currentChecksum : string;
  c_host : string;
  c_lru : list (nat * string);
  c_maxItems : Z;
  c_segments : gmap string segment;
  c_ttl : Z;
  c_uncycled : bool;
  c_updateChan : option Z;
  c_nextElement : nat;
}.

#[global] Instance entry_eq_dec : EqDecision memoryCacheEntry.
Proof. solve_decision. Defined.

Definition set_lru l c := mkCache (c_class c) (c_currentChecksum c) (c_host c) l
  (c_maxItems c) (c_segments c) (c_ttl c) (c_uncycled c) (c_updateChan c) (c_nextElement c).
Definition set_segments s c := mkCache (c_class c) (c_currentChecksum c) (c_host c) (c_lru c)
  (c_maxItems c) s (c_ttl c) (c_uncycled c) (c_updateChan c) (c_nextElement c).

(** * The recency list *)

Definition lru_remove (e : option nat) (l : list (nat * string)) : list (nat * string) :=
  match e with Some i => filter (fun x => x.1 <> i) l | None => l end.

Definition lru_move_front (e : option nat) (l : list (nat * string)) : list (nat * string) :=
  match e with
  | Some i => filter (fun x => x.1 = i) l ++ filter (fun x => x.1 <> i) l
  | None => l
  end.

(** * Segments *)

(** [c.segments[gen][key]]. *)
Definition entry_at (c : InMemoryCache) (gen key : string) : option memoryCacheEntry :=
  c_segments c !! gen ≫= (fun seg => seg !! key).

(** [delete(c.segments[gen], key)]. *)
Definition delete_entry (gen key : string) (c : InMemoryCache) : InMemoryCache :=
  set_segments (alter (delete key) gen (c_segments c)) c.

(** [c.segments[gen][key] = e], the segment being there. *)
Definition put_entry (gen key : string) (e : memoryCacheEntry) (c : InMemoryCache) : InMemoryCache :=
  set_segments (alter (insert key e) gen (c_segments c)) c.

(** The generations, in one of the orders Go's [range c.segments] may take. *)
Definition generations (c : InMemoryCache) : list string := (map_to_list (c_segments c)).*1.

(** The first generation of [gens] other than the current one holding [key]. *)
Fixpoint first_other (gens : list string) (key : string) (c : InMemoryCache)
    : option (string * memoryCacheEntry) :=
  match gens with
  | [] => None
  | gen :: gens =>
      if decide (gen = c_currentChecksum c) then first_other gens key c
      else match entry_at c gen key with
           | Some e => Some (gen, e)
           | None => first_other gens key c
           end
  end.

(** * Lookups *)

(** What [lookupLocked] does with the entry it found in generation [gen]. *)
Definition lookup_entry (now : Z) (key : string) (evict isCurrent : bool)
    (gen : string) (e : memoryCacheEntry) (c : InMemoryCache)
    : (string * bool * bool) * InMemoryCache :=
  if after now (e_expiry e) then (("", false, true), c)
  else if evict
  then ((e_value e, true, isCurrent),
        delete_entry gen key (set_lru (lru_remove (e_element e) (c_lru c)) c))
  else ((e_value e, true, isCurrent), set_lru (lru_move_front (e_element e) (c_lru c)) c).

(** [lookupLocked], the [range] over the other generations taken in the order
    [gens]. *)
Definition lookupLocked_in (gens : list string) (now : Z) (key : string) (evict : bool)
    (c : InMemoryCache) : (string * bool * bool) * InMemoryCache :=
  match entry_at c (c_currentChecksum c) key with
  | Some e => lookup_entry now key evict true (c_currentChecksum c) e c
  | None =>
      match first_other gens key c with
      | Some (gen, e) => lookup_entry now key evict false gen e c
      | None => (("", false, true), c)
      end
  end.

Definition lookupLocked (now : Z) (key : string) (evict : bool) (c : InMemoryCache) :=
  lookupLocked_in (generations c) now key evict c.

Definition Get (now : Z) (key : string) (c : InMemoryCache) := lookupLocked now key false c.

Definition GetAndDelete (now : Z) (key : string) (c : InMemoryCache) := lookupLocked now key true c.

(** * Delete *)

Definition delete_in (key : string) (c : InMemoryCache) (gen : string) : InMemoryCache :=
  match entry_at c gen key with
  | Some e => delete_entry gen key (set_lru (lru_remove (e_element e) (c_lru c)) c)
  | None => c
  end.

Definition Delete (key : string) (c : InMemoryCache) : InMemoryCache :=
  foldl (delete_in key) c (generations c).

(** * Decrement *)

(** [tryDecrementEntry] on generation [gen]: the count, success, and whether
    the lookup terminated there. *)
Definition tryDecrementEntry (now : Z) (gen key : string) (c : InMemoryCache)
    : (Z * bool * bool) * InMemoryCache :=
  match entry_at c gen key with
  | None => ((-1, false, false), c)
  | Some e =>
      if after now (e_expiry e) then ((-1, false, false), c) else
      match ParseInt (e_value e) with
      | None => ((-1, false, true), c)
      | Some n =>
          if n <=? 0 then ((-1, false, true), c) else
          let n := n - 1 in
          ((n, true, true),
           set_lru (lru_move_front (e_element e) (c_lru c))
             (put_entry gen key
                (mkEntry (e_element e) (e_expiry e) (e_key e) (FormatInt n)) c))
      end
  end%Z.

Fixpoint decrement_others (gens : list string) (now : Z) (key : string) (c : InMemoryCache)
    : (Z * bool) * InMemoryCache :=
  match gens with
  | [] => ((-1, false)%Z, c)
  | gen :: gens =>
      if decide (gen = c_currentChecksum c) then decrement_others gens now key c
      else match tryDecrementEntry now gen key c with
           | ((n, ok, true), c') => ((n, ok), c')
           | ((_, _, false), _) => decrement_others gens now key c
           end
  end.

Definition DecrementIfPositive (now : Z) (key : string) (c : InMemoryCache)
    : (Z * bool) * InMemoryCache :=
  match tryDecrementEntry now (c_currentChecksum c) key c with
  | ((n, ok, true), c') => ((n, ok), c')
  | ((_, _, false), _) => decrement_others (generations c) now key c
  end.

(** * Writes *)

(** [c.lru.Back()] is removed and its key deleted from every generation. *)
Definition evict_back (c : InMemoryCache) : InMemoryCache :=
  match last (c_lru c) with
  | Some (i, evictKey) =>
      set_segments (delete evictKey <$> c_segments c)
        (set_lru (lru_remove (Some i) (c_lru c)) c)
  | None => c
  end.

Definition ensure_segment (gen : string) (c : InMemoryCache) : InMemoryCache :=
  match c_segments c !! gen with
  | Some _ => c
  | None => set_segments (<[gen := ∅]> (c_segments c)) c
  end.

Definition push_entry (key value : string) (exp : Z) (c : InMemoryCache) : InMemoryCache :=
  let i := c_nextElement c in
  put_entry (c_currentChecksum c) key (mkEntry (Some i) exp key value)
    (mkCache (c_class c) (c_currentChecksum c) (c_host c) ((i, key) :: c_lru c)
       (c_maxItems c) (c_segments c) (c_ttl c) (c_uncycled c) (c_updateChan c) (S i)).

Definition setLocked (now : Z) (key value : string) (o : SetOptions) (c : InMemoryCache)
    : InMemoryCache :=
  let c := ensure_segment (c_currentChecksum c) c in
  let exp := expiry_of now (c_ttl c) o in
  match entry_at c (c_currentChecksum c) key with
  | Some e =>
      put_entry (c_currentChecksum c) key (mkEntry (e_element e) exp (e_key e) value)
        (set_lru (lru_move_front (e_element e) (c_lru c)) c)
  | None =>
      let c := if ((0 <? c_maxItems c) && (c_maxItems c <=? Z.of_nat (length (c_lru c))))%Z%bool
               then evict_back c else c in
      push_entry key value exp c
  end.

(** [Set] (a keyword here). *)
Definition Set_ (now : Z) (key value : string) (opts : list SetOption) (c : InMemoryCache) :=
  setLocked now key value (applySetOptions opts) c.

(** [Update]: [fn] sees the live entry of the current generation only. *)
Definition Update (now : Z) (key : string) (fn : UpdateFunc) (opts : list SetOption)
    (c : InMemoryCache) : bool * InMemoryCache :=
  let '(current, found) :=
    match entry_at c (c_currentChecksum c) key with
    | Some e => if after now (e_expiry e) then ("", false) else (e_value e, true)
    | None => ("", false)
    end in
  let '(next, write) := fn current found in
  (write, if write then setLocked now key next (applySetOptions opts) c else c).

(** * The reaper *)

Definition live_entry (now : Z) (e : memoryCacheEntry) : Prop := after now (e_expiry e) = false.

#[global] Instance live_entry_dec now e : Decision (live_entry now e).
Proof. unfold live_entry. apply _. Defined.

Definition expired_elements (now : Z) (c : InMemoryCache) : list nat :=
  map_to_list (c_segments c) ≫= (fun '(_, seg) =>
    omap (fun '(_, e) => if after now (e_expiry e) then e_element e else None)
      (map_to_list (seg : segment))).

Definition reap (now : Z) (c : InMemoryCache) : InMemoryCache :=
  set_segments (filter (fun x => live_entry now x.2) <$> c_segments c)
    (set_lru (filter (fun x => x.1 ∉ expired_elements now c) (c_lru c)) c).

(** One turn of [startReaper]'s select: a tick, or a new interval received
    from [updateChan] (which the turn empties). Either one reaps. *)
Inductive reaper_event := Tick | NewInterval.

Definition startReaper_turn (now : Z) (ev : reaper_event) (interval : Z) (c : InMemoryCache)
    : Z * InMemoryCache :=
  match ev, c_updateChan c with
  | NewInterval, Some newInterval =>
      (newInterval,
       reap now (mkCache (c_class c) (c_currentChecksum c) (c_host c) (c_lru c) (c_maxItems c)
                   (c_segments c) (c_ttl c) (c_uncycled c) None (c_nextElement c)))
  | NewInterval, None => (interval, c)
  | Tick, _ => (interval, reap now c)
  end.

(** * Generations *)

Definition initialGeneration : string := "0".
Definition SurvivingGeneration : string := initialGeneration.
Definition minTTL : Z := 1 * millisecond.

Definition generationFor (uncycled : bool) (current : string) : string :=
  if uncycled then SurvivingGeneration else current.

Definition keep_generations (P : string -> bool) (m : gmap string segment) : gmap string segment :=
  filter (fun x => P x.1 = true) m.

(** The body of [Cycle]'s loop, on one cache. *)
Definition cycle_cache (checksum : string) (force : bool) (c : InMemoryCache) : InMemoryCache :=
  if (c_uncycled c || (negb force && String.eqb (c_currentChecksum c) checksum))%bool then c else
  let oldChecksum := c_currentChecksum c in
  let c := mkCache (c_class c) checksum (c_host c) (c_lru c) (c_maxItems c) (c_segments c)
             (c_ttl c) (c_uncycled c) (c_updateChan c) (c_nextElement c) in
  let c := ensure_segment checksum c in
  set_segments
    (keep_generations
       (fun g => if force then String.eqb g checksum
                 else (String.eqb g checksum || String.eqb g oldChecksum)%bool)
       (c_segments c)) c.

(** * The manager *)

Record InMemoryCacheManager := mkManager {
  m_caches : gmap string InMemoryCache;
  m_currentChecksum : string;
  m_host : string;
  m_ttl : Z;
}.

(** [NewCacheManager] with no address: the in-memory manager. *)
Definition NewCacheManager (host : string) (ttl : option Z) : InMemoryCacheManager :=
  mkManager ∅ initialGeneration host (default (24 * hour) ttl).

Definition Cycle (checksum : string) (force : bool) (m : InMemoryCacheManager)
    : InMemoryCacheManager :=
  mkManager (cycle_cache checksum force <$> m_caches m) checksum (m_host m) (m_ttl m).

(** [CacheOptions]. *)
Record CacheOptions := mkOptions {
  o_MaxItems : option Z; o_TTL : option Z; o_Uncycled : bool }.

(** [GetCache] on a class that exists: its scope, its bound and its TTL follow
    the options. A new TTL is offered to the reaper without blocking. *)
Definition adjust_cache (current : string) (opts : CacheOptions) (c : InMemoryCache)
    : InMemoryCache :=
  let c := if Bool.eqb (c_uncycled c) (o_Uncycled opts) then c else
    let cur := generationFor (o_Uncycled opts) current in
    mkCache (c_class c) cur (c_host c) (c_lru c) (c_maxItems c)
      (keep_generations (fun g => String.eqb g cur) (c_segments c))
      (c_ttl c) (o_Uncycled opts) (c_updateChan c) (c_nextElement c) in
  let maxItems := default (c_maxItems c) (o_MaxItems opts) in
  let newTTL := match o_TTL opts with
    | Some t => if (negb (c_ttl c =? t) && (minTTL <=? t))%Z%bool then Some t else None
    | None => None
    end in
  let updateChan := match newTTL, c_updateChan c with
    | Some t, None => Some t
    | _, ch => ch
    end in
  mkCache (c_class c) (c_currentChecksum c) (c_host c) (c_lru c) maxItems (c_segments c)
    (default (c_ttl c) newTTL) (c_uncycled c) updateChan (c_nextElement c).

(** [GetCache] on a class that does not exist. *)
Definition new_cache (m : InMemoryCacheManager) (class : string) (opts : CacheOptions)
    : InMemoryCache :=
  let ttl := match o_TTL opts with
    | Some t => if (minTTL <=? t)%Z then t else m_ttl m
    | None => m_ttl m
    end in
  mkCache class (generationFor (o_Uncycled opts) (m_currentChecksum m)) (m_host m) []
    (default 1000 (o_MaxItems opts)) ∅ ttl (o_Uncycled opts) None 0.

Definition GetCache (class : string) (opts : CacheOptions) (m : InMemoryCacheManager)
    : InMemoryCacheManager :=
  let c := match m_caches m !! class with
    | Some c => adjust_cache (m_currentChecksum m) opts c
    | None => new_cache m class opts
    end in
  mkManager (<[class := c]> (m_caches m)) (m_currentChecksum m) (m_host m) (m_ttl m).

(** [Entry], as [ScanGenerations] reports it. *)
Record Entry := mkScanEntry {
  sc_Generation : string; sc_Key : string; sc_TTL : Z; sc_Value : string }.

Definition scan_entries (now : Z) (c : InMemoryCache) : list Entry :=
  map_to_list (c_segments c) ≫= (fun '(gen, seg) =>
    omap (fun '(k, e) =>
      if after now (e_expiry e) then None
      else Some (mkScanEntry gen k (time_sub (e_expiry e) now) (e_value e)))
    (map_to_list (seg : segment))).

(** [ScanGenerations]: [fn] runs on each entry, over a state of its own, until
    it fails. *)
Definition ScanGenerations {E St} (now : Z) (class : string)
    (fn : Entry -> St -> result E St) (m : InMemoryCacheManager) (st : St) : result E St :=
  match m_caches m !! class with
  | None => Ok st
  | Some c => foldl (fun acc e => acc ≫= fn e) (Ok st) (scan_entries now c)
  end.

(** * The invariant *)

(** Every entry's element is in the recency list under the entry's key, no two
    entries share one, there are at most two generations, and a cache of the
    surviving scope has only the surviving one. The recency list may hold
    elements no entry refers to: [Cycle] drops a generation without touching
    the list. *)
Record wf (c : InMemoryCache) : Prop := {
  wf_nodup : NoDup (c_lru c).*1;
  wf_fresh i k : (i, k) ∈ c_lru c -> (i < c_nextElement c)%nat;
  wf_entry g k e : entry_at c g k = Some e ->
    e_key e = k /\ exists i, e_element e = Some i /\ (i, k) ∈ c_lru c;
  wf_inj g g' k k' e e' :
    entry_at c g k = Some e -> entry_at c g' k' = Some e' ->
    e_element e = e_element e' -> g = g' /\ k = k';
  wf_two : exists prev, forall g, is_Some (c_segments c !! g) ->
    g = c_currentChecksum c \/ g = prev;
  wf_uncycled : c_uncycled c = true ->
    c_currentChecksum c = SurvivingGeneration /\
    forall g, is_Some (c_segments c !! g) -> g = SurvivingGeneration;
}.

(** [c'] holds no entry [c] does not, up to values and expiries, and still
    lists the elements of the entries it holds. *)
Record shrinks (c c' : InMemoryCache) : Prop := {
  sh_nodup : NoDup (c_lru c').*1;
  sh_lru x : x ∈ c_lru c' -> x ∈ c_lru c;
  sh_entry g k e : entry_at c' g k = Some e ->
    exists e0, entry_at c g k = Some e0 /\ e_element e = e_element e0 /\ e_key e = e_key e0 /\
      (forall i, e_element e = Some i -> (i, k) ∈ c_lru c -> (i, k) ∈ c_lru c');
  sh_dom g : is_Some (c_segments c' !! g) -> is_Some (c_segments c !! g);
  sh_cur : c_currentChecksum c' = c_currentChecksum c;
  sh_unc : c_uncycled c' = c_uncycled c;
  sh_next : (c_nextElement c <= c_nextElement c')%nat;
  sh_bounds : c_maxItems c' = c_maxItems c /\ c_ttl c' = c_ttl c;
}.

Lemma shrinks_wf c c' : shrinks c c' -> wf c -> wf c'.
Proof.
  intros S W. split.
  - apply S.
  - intros i k Hin. apply (sh_lru _ _ S), (wf_fresh _ W) in Hin. pose proof (sh_next _ _ S). lia.
  - intros g k e He. destruct (sh_entry _ _ S _ _ _ He) as (e0 & He0 & Hel & Hk & Hl).
    destruct (wf_entry _ W _ _ _ He0) as (? & i & Hi & Hin).
    split; [congruence|]. exists i. split; [congruence|]. apply Hl; congruence.
  - intros g g' k k' e e' He He' Heq.
    destruct (sh_entry _ _ S _ _ _ He) as (e0 & He0 & ? & _).
    destruct (sh_entry _ _ S _ _ _ He') as (e0' & He0' & ? & _).
    apply (wf_inj _ W g g' k k' e0 e0'); congruence.
  - destruct (wf_two _ W) as [prev Hp]. exists prev. intros g Hg.
    rewrite (sh_cur _ _ S). by apply Hp, (sh_dom _ _ S).
  - rewrite (sh_unc _ _ S), (sh_cur _ _ S). intros Hu.
    destruct (wf_uncycled _ W Hu) as [? Hd]. split; [done|]. intros g Hg.
    by apply Hd, (sh_dom _ _ S).
Qed.

Lemma shrinks_refl c : wf c -> shrinks c c.
Proof. intros W. split; eauto 6. apply W. Qed.

(** * Lemmas on the pieces of state *)

Lemma elem_of_lru_move_front x e l : x ∈ lru_move_front e l <-> x ∈ l.
Proof.
  destruct e as [i|]; [|done]. simpl.
  rewrite elem_of_app, !list_elem_of_filter. destruct (decide (x.1 = i)); tauto.
Qed.

Lemma NoDup_lru_move_front e l : NoDup l.*1 -> NoDup (lru_move_front e l).*1.
Proof.
  destruct e as [i|]; [|done]. simpl. by rewrite filter_app_complement.
Qed.

Lemma length_lru_move_front e l : length (lru_move_front e l) = length l.
Proof. destruct e as [i|]; [|done]. simpl. by rewrite filter_app_complement. Qed.

Lemma elem_of_lru_remove x e l :
  x ∈ lru_remove e l <-> x ∈ l /\ forall i, e = Some i -> x.1 <> i.
Proof.
  destruct e as [i|]; simpl; [|naive_solver].
  rewrite list_elem_of_filter. naive_solver.
Qed.

Lemma NoDup_lru_remove e l : NoDup l.*1 -> NoDup (lru_remove e l).*1.
Proof. destruct e as [i|]; simpl; auto with go. Qed.

Lemma entry_at_alter f gen c g k :
  entry_at (set_segments (alter f gen (c_segments c)) c) g k =
  if decide (g = gen) then c_segments c !! gen ≫= (fun seg => f seg !! k)
  else entry_at c g k.
Proof.
  unfold entry_at. simpl. rewrite lookup_alter. case_decide; subst.
  - rewrite decide_True by done. by destruct (c_segments c !! g).
  - by rewrite decide_False.
Qed.

Lemma entry_at_delete_entry gen key c g k :
  entry_at (delete_entry gen key c) g k =
  if decide (g = gen /\ k = key) then None else entry_at c g k.
Proof.
  unfold delete_entry. rewrite entry_at_alter. unfold entry_at.
  destruct (decide (g = gen)) as [->|], (decide (k = key)) as [->|];
    destruct (c_segments c !! gen) as [seg|] eqn:Hs;
    repeat case_decide; try tauto; simpl; rewrite ?Hs; simpl; try done.
  - by rewrite lookup_delete_eq.
  - by rewrite lookup_delete_ne.
Qed.

Lemma entry_at_put_entry gen key e c g k :
  entry_at (put_entry gen key e c) g k =
  if decide (g = gen /\ k = key) then (fun _ => e) <$> c_segments c !! gen
  else entry_at c g k.
Proof.
  unfold put_entry. rewrite entry_at_alter. unfold entry_at.
  destruct (decide (g = gen)) as [->|], (decide (k = key)) as [->|];
    destruct (c_segments c !! gen) as [seg|] eqn:Hs;
    repeat case_decide; try tauto; simpl; rewrite ?Hs; simpl; try done.
  - by rewrite lookup_insert_eq.
  - by rewrite lookup_insert_ne.
Qed.

Lemma entry_at_set_lru l c g k : entry_at (set_lru l c) g k = entry_at c g k.
Proof. done. Qed.

Lemma entry_at_segment c g k e : entry_at c g k = Some e -> is_Some (c_segments c !! g).
Proof. unfold entry_at. destruct (c_segments c !! g); [eauto|done]. Qed.

Lemma first_other_spec gens key c g e :
  first_other gens key c = Some (g, e) ->
  g ∈ gens /\ g <> c_currentChecksum c /\ entry_at c g key = Some e.
Proof.
  induction gens as [|x gens IH]; simpl; [done|].
  case_decide as Hc; [intros H; destruct (IH H) as (?&?&?); split_and!; [by right|done..]|].
  destruct (entry_at c x key) eqn:He; intros H; simplify_eq.
  - split_and!; [by left|done..].
  - destruct (IH H) as (?&?&?). split_and!; [by right|done..].
Qed.

Lemma elem_of_generations c g : g ∈ generations c <-> is_Some (c_segments c !! g).
Proof.
  unfold generations. rewrite list_elem_of_fmap. split.
  - intros ([x seg] & -> & H%elem_of_map_to_list). simpl. eauto.
  - intros [seg H]. exists (g, seg). by rewrite elem_of_map_to_list.
Qed.

(** * Every operation shrinks, or adds one entry *)

Lemma shrinks_trans c1 c2 c3 : shrinks c1 c2 -> shrinks c2 c3 -> shrinks c1 c3.
Proof.
  intros S T. split.
  - apply T.
  - intros x Hx. by apply S, T.
  - intros g k e He. destruct (sh_entry _ _ T _ _ _ He) as (e1 & He1 & ? & ? & Hl1).
    destruct (sh_entry _ _ S _ _ _ He1) as (e0 & He0 & ? & ? & Hl0).
    exists e0. split_and!; [done|congruence|congruence|].
    intros i Hi Hin. apply Hl1; [done|]. apply Hl0; congruence.
  - intros g Hg. by apply S, T.
  - by rewrite (sh_cur _ _ T), (sh_cur _ _ S).
  - by rewrite (sh_unc _ _ T), (sh_unc _ _ S).
  - pose proof (sh_next _ _ T). pose proof (sh_next _ _ S). lia.
  - destruct (sh_bounds _ _ T), (sh_bounds _ _ S). split; congruence.
Qed.

Lemma shrinks_move_front e c : wf c -> shrinks c (set_lru (lru_move_front e (c_lru c)) c).
Proof.
  intros W. split; simpl; try done.
  - apply NoDup_lru_move_front, W.
  - intros x. by rewrite elem_of_lru_move_front.
  - intros g k e0. rewrite entry_at_set_lru. intros He. exists e0. split_and!; try done.
    intros i _ Hin. by apply elem_of_lru_move_front.
Qed.

(** Removing an entry together with its element. *)
Lemma shrinks_remove gen key e c :
  wf c -> entry_at c gen key = Some e ->
  shrinks c (delete_entry gen key (set_lru (lru_remove (e_element e) (c_lru c)) c)).
Proof.
  intros W He. split; simpl; try done.
  - apply NoDup_lru_remove, W.
  - intros x [? _]%elem_of_lru_remove. done.
  - intros g k e0. rewrite entry_at_delete_entry. case_decide as Hd; [done|].
    rewrite entry_at_set_lru. intros He0. exists e0. split_and!; try done.
    intros i Hi Hin. apply elem_of_lru_remove. split; [done|]. simpl. intros j Hj ->.
    apply Hd. by apply (wf_inj _ W g gen k key e0 e); [..|congruence].
  - intros g. by rewrite lookup_alter_is_Some.
Qed.

(** Rewriting an entry in place keeps its element and key. *)
Lemma shrinks_put gen key e e' c :
  wf c -> entry_at c gen key = Some e -> e_element e' = e_element e -> e_key e' = e_key e ->
  shrinks c (put_entry gen key e' c).
Proof.
  intros W He Hel Hk. split; simpl; try done.
  - apply W.
  - intros g k e0. rewrite entry_at_put_entry. case_decide as Hd.
    + destruct Hd as [-> ->]. destruct (entry_at_segment _ _ _ _ He) as [seg ->].
      simpl. intros [= <-]. exists e. split_and!; try done.
    + intros He0. exists e0. split_and!; done.
  - intros g. by rewrite lookup_alter_is_Some.
Qed.

Lemma shrinks_lookup_entry now key evict cur gen e c :
  wf c -> entry_at c gen key = Some e ->
  shrinks c (lookup_entry now key evict cur gen e c).2.
Proof.
  intros W He. unfold lookup_entry. repeat case_match; simpl.
  - by apply shrinks_refl.
  - by apply shrinks_remove.
  - by apply shrinks_move_front.
Qed.

Lemma shrinks_lookup_in gens now key evict c :
  wf c -> shrinks c (lookupLocked_in gens now key evict c).2.
Proof.
  intros W. unfold lookupLocked_in. destruct (entry_at c _ key) eqn:He.
  - by apply shrinks_lookup_entry.
  - destruct (first_other gens key c) as [[g e]|] eqn:Hf; [|by apply shrinks_refl].
    apply first_other_spec in Hf as (_ & _ & Hf). by apply shrinks_lookup_entry.
Qed.

Lemma shrinks_tryDecrement now gen key c :
  wf c -> shrinks c (tryDecrementEntry now gen key c).2.
Proof.
  intros W. unfold tryDecrementEntry. destruct (entry_at c gen key) as [e|] eqn:He;
    [|by apply shrinks_refl]. repeat case_match; simpl; try by apply shrinks_refl.
  assert (shrinks c (put_entry gen key (mkEntry (e_element e) (e_expiry e) (e_key e)
    (FormatInt (z - 1))) c)) as S by by eapply shrinks_put.
  eapply shrinks_trans; [exact S|].
  exact (shrinks_move_front (e_element e) _ (shrinks_wf _ _ S W)).
Qed.

Lemma shrinks_decrement_others gens now key c :
  wf c -> shrinks c (decrement_others gens now key c).2.
Proof.
  intros W. induction gens as [|g gens IH]; simpl; [by apply shrinks_refl|].
  case_decide; [done|]. pose proof (shrinks_tryDecrement now g key c W) as S.
  by destruct (tryDecrementEntry now g key c) as [[[n ok] []] c'].
Qed.

Lemma shrinks_Decrement now key c : wf c -> shrinks c (DecrementIfPositive now key c).2.
Proof.
  intros W. unfold DecrementIfPositive.
  pose proof (shrinks_tryDecrement now (c_currentChecksum c) key c W) as S.
  destruct (tryDecrementEntry _ _ _ _) as [[[n ok] []] c']; [done|].
  by apply shrinks_decrement_others.
Qed.

Lemma shrinks_Delete key c : wf c -> shrinks c (Delete key c).
Proof.
  intros W. unfold Delete. revert W. generalize (generations c) as gens.
  intros gens. revert c. induction gens as [|g gens IH]; intros c W; simpl.
  { by apply shrinks_refl. }
  assert (shrinks c (delete_in key c g)) as S.
  { unfold delete_in. destruct (entry_at c g key) eqn:He; [|by apply shrinks_refl].
    by apply shrinks_remove. }
  eapply shrinks_trans; [exact S|]. apply IH. by eapply shrinks_wf.
Qed.

Lemma entry_at_evict_back c g k e :
  entry_at (evict_back c) g k = Some e -> entry_at c g k = Some e.
Proof.
  unfold evict_back. destruct (last (c_lru c)) as [[i ek]|]; [|done].
  unfold entry_at. simpl. rewrite lookup_fmap.
  destruct (c_segments c !! g) as [seg|]; simpl; [|done].
  intros H%lookup_delete_Some. tauto.
Qed.

Lemma shrinks_evict_back c : wf c -> shrinks c (evict_back c).
Proof.
  intros W. unfold evict_back. destruct (last (c_lru c)) as [[i ek]|] eqn:Hlast;
    [|by apply shrinks_refl].
  apply last_Some_elem_of in Hlast.
  split; simpl; try done.
  - apply (NoDup_lru_remove (Some i)), W.
  - intros x [_ Hx]%list_elem_of_filter. done.
  - intros g k e. unfold entry_at. simpl. rewrite lookup_fmap.
    destruct (c_segments c !! g) as [seg|] eqn:Hg; simpl; [|done].
    intros [Hne He]%lookup_delete_Some. exists e. split_and!; [done..|].
    intros j Hj Hin. apply list_elem_of_filter. split; [|done]. simpl. intros ->.
    apply Hne. by apply (NoDup_fst_inj (c_lru c) i); [apply W|..].
  - intros g. rewrite lookup_fmap. by destruct (c_segments c !! g).
Qed.

Lemma entry_at_ensure_segment gen c g k : entry_at (ensure_segment gen c) g k = entry_at c g k.
Proof.
  unfold ensure_segment. destruct (c_segments c !! gen) eqn:Hg; [done|].
  unfold entry_at. simpl. rewrite lookup_insert. case_decide; [subst; by rewrite Hg|done].
Qed.

(** [wf] only needs the current generation of a cache that is given its
    current segment. *)
Lemma wf_ensure_segment c : wf c -> wf (ensure_segment (c_currentChecksum c) c).
Proof.
  intros W. set (c' := ensure_segment _ c).
  assert (c_lru c' = c_lru c /\ c_currentChecksum c' = c_currentChecksum c /\
    c_uncycled c' = c_uncycled c /\ c_nextElement c' = c_nextElement c) as (Hl & Hc & Hu & Hn).
  { unfold c', ensure_segment. by destruct (c_segments c !! _). }
  assert (forall g, is_Some (c_segments c' !! g) ->
    g = c_currentChecksum c \/ is_Some (c_segments c !! g)) as Hd.
  { intros g. unfold c', ensure_segment. destruct (c_segments c !! c_currentChecksum c); [by right|].
    simpl. rewrite lookup_insert. case_decide; [by left|by right]. }
  split; rewrite ?Hl, ?Hc, ?Hu, ?Hn.
  - apply W.
  - intros i k. apply W.
  - intros g k e. unfold c'. rewrite entry_at_ensure_segment. apply W.
  - intros g g' k k' e e'. unfold c'. rewrite !entry_at_ensure_segment. apply W.
  - destruct (wf_two _ W) as [prev Hp]. exists prev. intros g Hg.
    apply Hd in Hg as [->|Hg]; [by left|]. by apply Hp.
  - intros Hunc. destruct (wf_uncycled _ W Hunc) as [H1 H2]. split; [done|].
    intros g Hg. apply Hd in Hg as [->|Hg]; [done|by apply H2].
Qed.

Lemma wf_push_entry key v exp c :
  wf c -> is_Some (c_segments c !! c_currentChecksum c) ->
  entry_at c (c_currentChecksum c) key = None -> wf (push_entry key v exp c).
Proof.
  intros W [seg Hseg] Hnone. unfold push_entry.
  set (i := c_nextElement c). set (c1 := mkCache _ _ _ _ _ _ _ _ _ _).
  assert (forall g k e, entry_at (put_entry (c_currentChecksum c) key
    (mkEntry (Some i) exp key v) c1) g k = Some e ->
    (g = c_currentChecksum c /\ k = key /\ e = mkEntry (Some i) exp key v) \/
    entry_at c g k = Some e) as Hat.
  { intros g k e. rewrite entry_at_put_entry. case_decide as Hd; [|by right].
    destruct Hd as [-> ->]. simpl. rewrite Hseg. simpl. intros [= <-]. by left. }
  assert (forall k, (i, k) ∉ c_lru c) as Hfresh.
  { intros k Hin. apply (wf_fresh _ W) in Hin. unfold i in Hin. lia. }
  split; simpl.
  - apply NoDup_cons. split; [|apply W]. intros ([j k] & -> & Hin)%list_elem_of_fmap.
    by apply Hfresh in Hin.
  - intros j k [[=]|Hin]%elem_of_cons; [subst; unfold i; lia|].
    apply (wf_fresh _ W) in Hin. lia.
  - intros g k e He. apply Hat in He as [(-> & -> & ->)|He]; simpl.
    + split; [done|]. exists i. split; [done|]. by left.
    + destruct (wf_entry _ W _ _ _ He) as (? & j & ? & ?). split; [done|].
      exists j. split; [done|]. by right.
  - intros g g' k k' e e' He He' Heq.
    apply Hat in He as [(-> & -> & ->)|He]; apply Hat in He' as [(-> & -> & ->)|He'];
      simpl in *; [done|..|by apply (wf_inj _ W g g' k k' e e')].
    + destruct (wf_entry _ W _ _ _ He') as (_ & j & Hj & Hin).
      exfalso. apply (Hfresh k'). congruence.
    + destruct (wf_entry _ W _ _ _ He) as (_ & j & Hj & Hin).
      exfalso. apply (Hfresh k). congruence.
  - destruct (wf_two _ W) as [prev Hp]. exists prev. intros g.
    rewrite lookup_alter_is_Some. apply Hp.
  - intros Hu. destruct (wf_uncycled _ W Hu) as [? Hd]. split; [done|].
    intros g. rewrite lookup_alter_is_Some. apply Hd.
Qed.

Lemma ensure_segment_is_Some c :
  is_Some (c_segments (ensure_segment (c_currentChecksum c) c) !! c_currentChecksum c).
Proof.
  unfold ensure_segment. destruct (c_segments c !! c_currentChecksum c) eqn:H; [eauto|].
  simpl. rewrite lookup_insert_eq. eauto.
Qed.

Lemma ensure_segment_fields gen c :
  c_currentChecksum (ensure_segment gen c) = c_currentChecksum c /\
  c_ttl (ensure_segment gen c) = c_ttl c /\
  c_maxItems (ensure_segment gen c) = c_maxItems c /\
  c_lru (ensure_segment gen c) = c_lru c /\
  c_uncycled (ensure_segment gen c) = c_uncycled c /\
  c_nextElement (ensure_segment gen c) = c_nextElement c.
Proof. unfold ensure_segment. by destruct (c_segments c !! gen). Qed.

Lemma evict_back_fields c :
  c_currentChecksum (evict_back c) = c_currentChecksum c /\
  c_ttl (evict_back c) = c_ttl c /\
  c_maxItems (evict_back c) = c_maxItems c /\
  c_uncycled (evict_back c) = c_uncycled c /\
  (forall g, is_Some (c_segments (evict_back c) !! g) <-> is_Some (c_segments c !! g)).
Proof.
  unfold evict_back. destruct (last (c_lru c)) as [[i k]|]; split_and!; try done.
  intros g. simpl. rewrite lookup_fmap. by rewrite fmap_is_Some.
Qed.

Lemma wf_setLocked now key v o c : wf c -> wf (setLocked now key v o c).
Proof.
  intros W. unfold setLocked.
  pose proof (wf_ensure_segment c W) as W1. pose proof (ensure_segment_is_Some c) as Hs.
  destruct (ensure_segment_fields (c_currentChecksum c) c) as (Hcur & _).
  set (c1 := ensure_segment (c_currentChecksum c) c) in *. rewrite Hcur.
  destruct (entry_at c1 (c_currentChecksum c) key) as [e|] eqn:He.
  - eapply shrinks_wf; [|by apply (shrinks_wf _ _ (shrinks_move_front (e_element e) c1 W1))].
    eapply shrinks_put; [|exact He|done..].
    by apply (shrinks_wf _ _ (shrinks_move_front (e_element e) c1 W1)).
  - case_match.
    + destruct (evict_back_fields c1) as (Hc & _ & _ & _ & Hd).
      apply wf_push_entry; [by apply (shrinks_wf _ _ (shrinks_evict_back _ W1))|..];
        rewrite Hc, Hcur; [by apply Hd|].
      destruct (entry_at (evict_back c1) _ _) eqn:H1; [|done].
      apply entry_at_evict_back in H1. congruence.
    + apply wf_push_entry; rewrite ?Hcur; done.
Qed.

Lemma wf_Update now key fn opts c : wf c -> wf (Update now key fn opts c).2.
Proof.
  intros W. unfold Update. repeat case_match; simplify_eq/=; try done; by apply wf_setLocked.
Qed.

Lemma entry_at_reap now c g k :
  entry_at (reap now c) g k =
  match entry_at c g k with
  | Some e => if after now (e_expiry e) then None else Some e
  | None => None
  end.
Proof.
  unfold reap, entry_at. simpl. rewrite lookup_fmap.
  destruct (c_segments c !! g) as [seg|]; simpl; [|done].
  rewrite map_lookup_filter. destruct (seg !! k) as [e|]; simpl; [|done].
  unfold live_entry. case_guard as Hl; simpl in *; [by rewrite Hl|].
  by destruct (after now (e_expiry e)).
Qed.

Lemma elem_of_expired now c i :
  i ∈ expired_elements now c <->
  exists g k e, entry_at c g k = Some e /\ after now (e_expiry e) = true /\ e_element e = Some i.
Proof.
  unfold expired_elements. rewrite list_elem_of_bind. split.
  - intros ([g seg] & Hi & Hg). apply elem_of_map_to_list in Hg.
    apply list_elem_of_omap in Hi as ([k e] & Hk & Hi). apply elem_of_map_to_list in Hk.
    exists g, k, e. unfold entry_at. rewrite Hg. simpl. by destruct (after now (e_expiry e)).
  - intros (g & k & e & He & Ha & Hi). unfold entry_at in He.
    destruct (c_segments c !! g) as [seg|] eqn:Hg; [|done]. simpl in He.
    exists (g, seg). rewrite elem_of_map_to_list. split; [|done].
    apply list_elem_of_omap. exists (k, e). rewrite elem_of_map_to_list. by rewrite Ha.
Qed.

Lemma shrinks_reap now c : wf c -> shrinks c (reap now c).
Proof.
  intros W. split; simpl; try done.
  - apply NoDup_fst_filter, W.
  - intros x [_ Hx]%list_elem_of_filter. done.
  - intros g k e. rewrite entry_at_reap. destruct (entry_at c g k) as [e0|] eqn:He; [|done].
    destruct (after now (e_expiry e0)) eqn:Ha; [done|]. intros [= <-].
    exists e0. split_and!; [done..|]. intros i Hi Hin. apply list_elem_of_filter.
    split; [|done]. simpl. rewrite elem_of_expired. intros (g' & k' & e' & He' & Ha' & Hi').
    destruct (wf_inj _ W g g' k k' e0 e') as [-> ->]; congruence.
  - intros g. rewrite lookup_fmap, fmap_is_Some. done.
Qed.

(** [wf] reads neither the bounds, the TTL nor the reaper's channel. *)
Lemma wf_ext c c' :
  c_lru c' = c_lru c -> c_currentChecksum c' = c_currentChecksum c ->
  c_segments c' = c_segments c -> c_uncycled c' = c_uncycled c ->
  c_nextElement c' = c_nextElement c -> wf c -> wf c'.
Proof.
  intros Hl Hc Hs Hu Hn W.
  assert (forall g k, entry_at c' g k = entry_at c g k) as Hat.
  { intros g k. unfold entry_at. by rewrite Hs. }
  split; rewrite ?Hl, ?Hc, ?Hs, ?Hu, ?Hn; try apply W; setoid_rewrite Hat; apply W.
Qed.

(** Keeping some generations of a cache, and moving it to one of them. *)
Lemma wf_move_generation c c' P cur :
  wf c -> c_lru c' = c_lru c -> c_nextElement c' = c_nextElement c ->
  c_currentChecksum c' = cur ->
  c_segments c' = keep_generations P (c_segments c) ->
  (exists prev, forall g, P g = true -> g = cur \/ g = prev) ->
  (c_uncycled c' = true -> cur = SurvivingGeneration /\
     forall g, P g = true -> g = SurvivingGeneration) ->
  wf c'.
Proof.
  intros W Hl Hn Hc Hs Htwo Hunc.
  assert (forall g, is_Some (c_segments c' !! g) -> P g = true /\ is_Some (c_segments c !! g)) as Hd.
  { intros g [seg Hg]. rewrite Hs in Hg. unfold keep_generations in Hg.
    apply map_lookup_filter_Some in Hg as [? HP]. eauto. }
  assert (forall g k e, entry_at c' g k = Some e -> entry_at c g k = Some e) as Hat.
  { intros g k e. unfold entry_at. rewrite Hs. unfold keep_generations.
    destruct (filter _ _ !! g) as [seg|] eqn:Hg; simpl; [|done].
    apply map_lookup_filter_Some in Hg as [-> _]. done. }
  split; rewrite ?Hl, ?Hn, ?Hc.
  - apply W.
  - apply W.
  - intros g k e He%Hat. by apply (wf_entry _ W g).
  - intros g g' k k' e e' He%Hat He'%Hat. by apply (wf_inj _ W).
  - destruct Htwo as [prev Hp]. exists prev. intros g [Hg _]%Hd. by apply Hp.
  - intros Hu. destruct (Hunc Hu) as [? Hg]. split; [done|]. intros g [HP _]%Hd. by apply Hg.
Qed.

Lemma wf_cycle_cache checksum force c : wf c -> wf (cycle_cache checksum force c).
Proof.
  intros W. unfold cycle_cache. case_match eqn:Hskip; [done|].
  apply orb_false_iff in Hskip as [Hu _].
  set (c1 := mkCache _ checksum _ _ _ _ _ _ _ _).
  destruct (ensure_segment_fields checksum c1) as (Hc & _ & _ & Hl & Hu' & Hn).
  (* The segments after the move are those kept of [c] plus, perhaps, a fresh
     empty one. *)
  assert (forall g k, entry_at (ensure_segment checksum c1) g k = entry_at c g k) as Hat.
  { intros g k. by rewrite entry_at_ensure_segment. }
  assert (forall P g k e, entry_at (set_segments (keep_generations P
    (c_segments (ensure_segment checksum c1))) (ensure_segment checksum c1)) g k = Some e ->
    entry_at c g k = Some e) as Hsub.
  { intros P g k e. rewrite <- (Hat g k). unfold entry_at, keep_generations. simpl.
    destruct (filter _ _ !! g) as [seg|] eqn:Hg; simpl; [|done].
    apply map_lookup_filter_Some in Hg as [-> _]. done. }
  split; simpl; rewrite ?Hc, ?Hl, ?Hu', ?Hn; simpl.
  - apply W.
  - apply W.
  - intros g k e He%Hsub. by apply (wf_entry _ W g).
  - intros g g' k k' e e' He%Hsub He'%Hsub. by apply (wf_inj _ W).
  - exists (c_currentChecksum c). intros g [seg Hg].
    apply map_lookup_filter_Some in Hg as [_ HP]. simpl in HP.
    destruct force; rewrite ?orb_true_iff, ?String.eqb_eq in HP; tauto.
  - by rewrite Hu.
Qed.

Lemma wf_adjust_cache current opts c : wf c -> wf (adjust_cache current opts c).
Proof.
  intros W. unfold adjust_cache. destruct (Bool.eqb _ _) eqn:He.
  - eapply wf_ext; [..|exact W]; done.
  - eapply wf_move_generation with (c := c); [done..|simpl|simpl].
    + exists "". intros g ->%String.eqb_eq. by left.
    + intros Hu. unfold generationFor. rewrite Hu. split; [done|]. by intros g ->%String.eqb_eq.
Qed.

Lemma wf_new_cache m class opts : wf (new_cache m class opts).
Proof.
  split; simpl.
  - apply NoDup_nil_2.
  - by intros i k ?%elem_of_nil.
  - unfold entry_at. simpl. intros g k e. by rewrite lookup_empty.
  - unfold entry_at. simpl. intros g g' k k' e e'. by rewrite lookup_empty.
  - exists "". intros g. rewrite lookup_empty. by intros [? ?].
  - intros ->. split; [done|]. intros g. rewrite lookup_empty. by intros [? ?].
Qed.

(** * Runs *)

(** One operation on a cache, or one turn of its reaper. *)
Inductive cache_op :=
| OpGet (now : Z) (k : string)
| OpGetAndDelete (now : Z) (k : string)
| OpDelete (k : string)
| OpDecrement (now : Z) (k : string)
| OpSet (now : Z) (k v : string) (opts : list SetOption)
| OpUpdate (now : Z) (k : string) (fn : UpdateFunc) (opts : list SetOption)
| OpReaper (now : Z) (ev : reaper_event) (interval : Z)
| OpCycle (checksum : string) (force : bool)
| OpGetCache (current : string) (opts : CacheOptions).

Definition cache_do (c : InMemoryCache) (op : cache_op) : InMemoryCache :=
  match op with
  | OpGet now k => (Get now k c).2
  | OpGetAndDelete now k => (GetAndDelete now k c).2
  | OpDelete k => Delete k c
  | OpDecrement now k => (DecrementIfPositive now k c).2
  | OpSet now k v opts => Set_ now k v opts c
  | OpUpdate now k fn opts => (Update now k fn opts c).2
  | OpReaper now ev i => (startReaper_turn now ev i c).2
  | OpCycle checksum force => cycle_cache checksum force c
  | OpGetCache current opts => adjust_cache current opts c
  end.

Definition cache_run (ops : list cache_op) (c : InMemoryCache) : InMemoryCache :=
  foldl cache_do c ops.

(** The caches a manager can hold. *)
Definition reachable (c : InMemoryCache) : Prop :=
  exists m class opts ops, c = cache_run ops (new_cache m class opts).

Lemma wf_reaper_turn now ev i c : wf c -> wf (startReaper_turn now ev i c).2.
Proof.
  intros W. unfold startReaper_turn. repeat case_match; simpl; try done.
  - exact (shrinks_wf _ _ (shrinks_reap now _ W) W).
  - set (c1 := mkCache _ _ _ _ _ _ _ _ _ _).
    assert (wf c1) as W1 by by apply (wf_ext c).
    exact (shrinks_wf _ _ (shrinks_reap now _ W1) W1).
Qed.

Lemma wf_cache_do c op : wf c -> wf (cache_do c op).
Proof.
  intros W. destruct op; simpl.
  - exact (shrinks_wf _ _ (shrinks_lookup_in _ now k false _ W) W).
  - exact (shrinks_wf _ _ (shrinks_lookup_in _ now k true _ W) W).
  - exact (shrinks_wf _ _ (shrinks_Delete k _ W) W).
  - exact (shrinks_wf _ _ (shrinks_Decrement now k _ W) W).
  - by apply wf_setLocked.
  - by apply wf_Update.
  - by apply wf_reaper_turn.
  - by apply wf_cycle_cache.
  - by apply wf_adjust_cache.
Qed.

Lemma wf_cache_run ops c : wf c -> wf (cache_run ops c).
Proof.
  unfold cache_run. revert c.
  induction ops as [|op ops IH]; intros c W; simpl; [done|]. by apply IH, wf_cache_do.
Qed.

Lemma reachable_wf_aux c : reachable c -> wf c.
Proof. intros (m & class & opts & ops & ->). apply wf_cache_run, wf_new_cache. Qed.

(** * Managers *)

Inductive manager_op :=
| MGetCache (class : string) (opts : CacheOptions)
| MCycle (checksum : string) (force : bool)
| MCache (class : string) (op : cache_op).

Definition manager_do (m : InMemoryCacheManager) (op : manager_op) : InMemoryCacheManager :=
  match op with
  | MGetCache class opts => GetCache class opts m
  | MCycle checksum force => Cycle checksum force m
  | MCache class op =>
      mkManager (alter (fun c => cache_do c op) class (m_caches m)) (m_currentChecksum m)
        (m_host m) (m_ttl m)
  end.

Definition manager_run (ops : list manager_op) (m : InMemoryCacheManager) : InMemoryCacheManager :=
  foldl manager_do m ops.

Lemma manager_wf_step m op :
  map_Forall (fun _ c => wf c) (m_caches m) ->
  map_Forall (fun _ c => wf c) (m_caches (manager_do m op)).
Proof.
  intros W. destruct op; simpl.
  - apply map_Forall_insert_2; [|done]. destruct (m_caches m !! class) eqn:Hc.
    + apply wf_adjust_cache. by eapply (W class).
    + apply wf_new_cache.
  - intros k c. rewrite lookup_fmap. destruct (m_caches m !! k) eqn:Hc; simpl; [|done].
    intros [= <-]. apply wf_cycle_cache. by eapply (W k).
  - intros k c. rewrite lookup_alter. case_decide as Hk; subst.
    + destruct (m_caches m !! k) eqn:Hc; simpl; [|done]. intros [= <-].
      apply wf_cache_do. by eapply (W k).
    + apply W.
Qed.

(** * Lookups under the invariant *)

(** Under the invariant at most one generation besides the current one holds a
    key, so the order of the [range] does not matter. *)
Lemma first_other_iff gens key c g e :
  wf c ->
  (first_other gens key c = Some (g, e) <->
   g ∈ gens /\ g <> c_currentChecksum c /\ entry_at c g key = Some e).
Proof.
  intros W. split; [apply first_other_spec|]. intros (Hin & Hne & He).
  destruct (wf_two _ W) as [prev Hp].
  assert (forall g', g' <> c_currentChecksum c -> is_Some (entry_at c g' key) -> g' = g) as Huniq.
  { intros g' Hg' [e' He']. destruct (Hp g') as [?|?]; [by eapply entry_at_segment|done|].
    destruct (Hp g) as [?|?]; [by eapply entry_at_segment|done|congruence]. }
  induction gens as [|x gens IH]; simpl; [by apply elem_of_nil in Hin|].
  case_decide as Hc.
  - apply IH. apply elem_of_cons in Hin as [->|?]; [done|done].
  - destruct (entry_at c x key) as [ex|] eqn:Hx.
    + assert (x = g) as -> by (apply Huniq; [done|eauto]). congruence.
    + apply IH. apply elem_of_cons in Hin as [->|?]; [congruence|done].
Qed.

Lemma first_other_perm gens gens' key c :
  wf c -> gens ≡ₚ gens' -> first_other gens key c = first_other gens' key c.
Proof.
  intros W HP. destruct (first_other gens key c) as [[g e]|] eqn:H1.
  - symmetry. apply first_other_iff; [done|]. apply first_other_iff in H1; [|done].
    by rewrite <- HP.
  - destruct (first_other gens' key c) as [[g e]|] eqn:H2; [|done].
    apply first_other_iff in H2; [|done]. rewrite <- HP in H2.
    apply first_other_iff in H2; [congruence|done].
Qed.

(** An uncycled cache has no other generation. *)
Lemma first_other_uncycled gens key c :
  wf c -> c_uncycled c = true -> first_other gens key c = None.
Proof.
  intros W Hu. destruct (wf_uncycled _ W Hu) as [Hc Hd].
  destruct (first_other gens key c) as [[g e]|] eqn:H; [|done].
  apply first_other_spec in H as (_ & Hne & He). exfalso. apply Hne.
  rewrite Hc. by apply Hd, (entry_at_segment _ _ _ _ He).
Qed.

Lemma entry_at_uncycled c g k e :
  wf c -> c_uncycled c = true -> entry_at c g k = Some e -> g = c_currentChecksum c.
Proof.
  intros W Hu He. destruct (wf_uncycled _ W Hu) as [-> Hd].
  by apply Hd, (entry_at_segment _ _ _ _ He).
Qed.

Lemma lookup_uncycled gens now key evict c :
  wf c -> c_uncycled c = true ->
  lookupLocked_in gens now key evict c =
  match entry_at c (c_currentChecksum c) key with
  | Some e => lookup_entry now key evict true (c_currentChecksum c) e c
  | None => (("", false, true), c)
  end.
Proof. intros W Hu. unfold lookupLocked_in. by rewrite first_other_uncycled. Qed.

(** * Absent keys stay absent *)

(** [op] may write [key]. *)
Definition writes (key : string) (op : cache_op) : bool :=
  match op with
  | OpSet _ k _ _ | OpUpdate _ k _ _ => String.eqb k key
  | _ => false
  end.

Definition absent (key : string) (c : InMemoryCache) : Prop :=
  forall g, entry_at c g key = None.

Lemma absent_shrinks key c c' : shrinks c c' -> absent key c -> absent key c'.
Proof.
  intros S A g. destruct (entry_at c' g key) eqn:He; [|done].
  destruct (sh_entry _ _ S _ _ _ He) as (e0 & He0 & _). by rewrite A in He0.
Qed.

Lemma entry_at_keep P c g k e :
  entry_at (set_segments (keep_generations P (c_segments c)) c) g k = Some e ->
  entry_at c g k = Some e.
Proof.
  unfold entry_at, keep_generations. simpl.
  destruct (filter _ _ !! g) as [seg|] eqn:Hg; simpl; [|done].
  apply map_lookup_filter_Some in Hg as [-> _]. done.
Qed.

Lemma absent_setLocked key now k v o c :
  k <> key -> absent key c -> absent key (setLocked now k v o c).
Proof.
  intros Hne A g. unfold setLocked.
  assert (forall g', entry_at (ensure_segment (c_currentChecksum c) c) g' key = None) as A1.
  { intros g'. rewrite entry_at_ensure_segment. apply A. }
  set (c1 := ensure_segment _ c) in *. clearbody c1.
  destruct (entry_at c1 _ k).
  - rewrite entry_at_put_entry. rewrite decide_False by naive_solver. apply A1.
  - unfold push_entry. rewrite entry_at_put_entry. rewrite decide_False by naive_solver.
    case_match; [|apply A1].
    match goal with |- ?X = None => change X with (entry_at (evict_back c1) g key) end.
    destruct (entry_at (evict_back c1) g key) eqn:He; [|done].
    apply entry_at_evict_back in He. by rewrite A1 in He.
Qed.

Lemma absent_cache_do key c op :
  wf c -> writes key op = false -> absent key c -> absent key (cache_do c op).
Proof.
  intros W Hw A. destruct op; simpl in *.
  - exact (absent_shrinks _ _ _ (shrinks_lookup_in _ now k false _ W) A).
  - exact (absent_shrinks _ _ _ (shrinks_lookup_in _ now k true _ W) A).
  - exact (absent_shrinks _ _ _ (shrinks_Delete k _ W) A).
  - exact (absent_shrinks _ _ _ (shrinks_Decrement now k _ W) A).
  - apply String.eqb_neq in Hw. by apply absent_setLocked.
  - apply String.eqb_neq in Hw. unfold Update.
    repeat case_match; simplify_eq/=; try done; by apply absent_setLocked.
  - unfold startReaper_turn. repeat case_match; simpl; try done;
      intros g; rewrite entry_at_reap.
    + by rewrite A.
    + match goal with |- context [entry_at ?x g key] =>
        change (entry_at x g key) with (entry_at c g key) end. by rewrite A.
  - unfold cycle_cache. case_match; [done|]. intros g.
    match goal with |- ?X = None => destruct X eqn:He; [|done] end.
    apply entry_at_keep in He. rewrite entry_at_ensure_segment in He.
    rewrite <- (A g). exact (eq_sym He).
  - intros g. unfold adjust_cache. destruct (Bool.eqb _ _); [apply A|].
    match goal with |- ?X = None => destruct X eqn:He; [|done] end.
    rewrite <- (A g). symmetry. exact (entry_at_keep _ c g key _ He).
Qed.

Lemma absent_cache_run key ops c :
  wf c -> Forall (fun op => writes key op = false) ops -> absent key c ->
  absent key (cache_run ops c).
Proof.
  unfold cache_run. revert c.
  induction ops as [|op ops IH]; intros c W Hf A; simpl; [done|].
  apply Forall_cons in Hf as [Ho Hf].
  apply IH; [by apply wf_cache_do|done|by apply absent_cache_do].
Qed.

Lemma absent_lookup key gens now evict c :
  absent key c -> lookupLocked_in gens now key evict c = (("", false, true), c).
Proof.
  intros A. unfold lookupLocked_in. rewrite A.
  destruct (first_other gens key c) as [[g e]|] eqn:H; [|done].
  apply first_other_spec in H as (_ & _ & He). by rewrite A in He.
Qed.

Lemma getdel_uncycled_absent now key c v b :
  wf c -> c_uncycled c = true ->
  (GetAndDelete now key c).1 = (v, true, b) -> absent key (GetAndDelete now key c).2.
Proof.
  intros W Hu. unfold GetAndDelete, lookupLocked. rewrite lookup_uncycled by done.
  destruct (entry_at c _ key) as [e|] eqn:He; [|done].
  unfold lookup_entry. case_match; [done|]. simpl. intros _ g.
  rewrite entry_at_delete_entry. case_decide as Hd; [done|].
  rewrite entry_at_set_lru. destruct (entry_at c g key) eqn:Hg; [|done].
  apply (entry_at_uncycled _ _ _ _ W Hu) in Hg. naive_solver.
Qed.

(** * Reading what was written *)

Lemma entry_at_setLocked now key v o c :
  exists e, entry_at (setLocked now key v o c) (c_currentChecksum c) key = Some e /\
    e_value e = v /\ e_expiry e = expiry_of now (c_ttl c) o.
Proof.
  unfold setLocked. destruct (ensure_segment_fields (c_currentChecksum c) c) as (Hc & Ht & _).
  pose proof (ensure_segment_is_Some c) as [seg Hs].
  set (c1 := ensure_segment _ c) in *. rewrite Hc, Ht.
  destruct (entry_at c1 (c_currentChecksum c) key).
  - rewrite entry_at_put_entry, decide_True by done. simpl. rewrite Hs. simpl. eauto.
  - match goal with |- context [if ?b then evict_back _ else _] => destruct b end;
      unfold push_entry; rewrite entry_at_put_entry.
    + destruct (evict_back_fields c1) as (Hc' & _ & _ & _ & Hd).
      rewrite Hc', Hc, decide_True by done. simpl.
      destruct (Hd (c_currentChecksum c)) as [_ Hd']. destruct Hd' as [seg' ->]; [eauto|].
      simpl. eauto.
    + rewrite Hc, decide_True by done. simpl. rewrite Hs. simpl. eauto.
Qed.

Lemma setLocked_current now key v o c :
  c_currentChecksum (setLocked now key v o c) = c_currentChecksum c.
Proof.
  unfold setLocked. destruct (ensure_segment_fields (c_currentChecksum c) c) as (Hc & _).
  set (c1 := ensure_segment _ c) in *. destruct (entry_at c1 _ key); simpl; [done|].
  case_match; [|done]. by rewrite (proj1 (evict_back_fields c1)).
Qed.

Lemma Get_current now key c e :
  entry_at c (c_currentChecksum c) key = Some e -> now <= e_expiry e ->
  (Get now key c).1 = (e_value e, true, true).
Proof.
  intros He Hl. unfold Get, lookupLocked, lookupLocked_in. rewrite He.
  unfold lookup_entry. apply after_false in Hl. by rewrite Hl.
Qed.

(** * Counting down *)

Lemma decrement_uncycled now key c :
  wf c -> c_uncycled c = true ->
  DecrementIfPositive now key c =
  let '((n, ok, _), c') := tryDecrementEntry now (c_currentChecksum c) key c in ((n, ok), c').
Proof.
  intros W Hu. unfold DecrementIfPositive, tryDecrementEntry.
  assert (decrement_others (generations c) now key c = ((-1, false)%Z, c)) as Ho.
  { pose proof (wf_uncycled _ W Hu) as [Hc Hd].
    assert (forall gens, (forall g, g ∈ gens -> g ∈ generations c) ->
      decrement_others gens now key c = ((-1, false)%Z, c)) as Hgen; [|by apply Hgen].
    intros gens Hg. induction gens as [|g gens IH]; simpl; [done|].
    rewrite decide_True; [apply IH; intros; apply Hg; by right|].
    rewrite Hc. apply Hd, elem_of_generations, Hg. by left. }
  repeat case_match; simplify_eq; try done.
Qed.

Lemma tryDecrement_positive now gen key c e n :
  entry_at c gen key = Some e -> now <= e_expiry e ->
  e_value e = FormatInt n -> in_int64 n = true -> 0 < n ->
  exists c', tryDecrementEntry now gen key c = ((n - 1, true, true), c') /\
    entry_at c' gen key = Some (mkEntry (e_element e) (e_expiry e) (e_key e) (FormatInt (n - 1))) /\
    c_uncycled c' = c_uncycled c /\ c_currentChecksum c' = c_currentChecksum c.
Proof.
  intros He Hl Hv Hi Hn. unfold tryDecrementEntry. rewrite He.
  apply after_false in Hl. rewrite Hl, Hv, ParseInt_FormatInt by done.
  rewrite (proj2 (Z.leb_gt _ _)) by lia. eexists. split_and!; [done| |done..].
  rewrite entry_at_set_lru, entry_at_put_entry, decide_True by done.
  destruct (entry_at_segment _ _ _ _ He) as [seg ->]. done.
Qed.

Lemma tryDecrement_zero now gen key c e :
  entry_at c gen key = Some e -> e_value e = FormatInt 0 ->
  exists h, tryDecrementEntry now gen key c = ((-1, false, h)%Z, c).
Proof.
  intros He Hv. unfold tryDecrementEntry. rewrite He, Hv, ParseInt_FormatInt by done.
  destruct (after now (e_expiry e)); eauto.
Qed.

(** The answers of the calls made at the times [ts]. *)
Fixpoint decrement_run (ts : list Z) (key : string) (c : InMemoryCache) : list (Z * bool) :=
  match ts with
  | [] => []
  | t :: ts => let '(r, c') := DecrementIfPositive t key c in r :: decrement_run ts key c'
  end.

(** What [len] uses of a counter at [n] must answer. *)
Fixpoint countdown (n len : nat) : list (Z * bool) :=
  match len with
  | O => []
  | S len => match n with
             | O => (-1, false)%Z :: countdown O len
             | S n => (Z.of_nat n, true) :: countdown n len
             end
  end.

Lemma decrement_run_countdown ts : forall key c e n,
  wf c -> c_uncycled c = true -> entry_at c (c_currentChecksum c) key = Some e ->
  e_value e = FormatInt (Z.of_nat n) -> in_int64 (Z.of_nat n) = true ->
  Forall (fun t => t <= e_expiry e) ts ->
  decrement_run ts key c = countdown n (length ts).
Proof.
  induction ts as [|t ts IH]; intros key c e n W Hu He Hv Hi Hts; [done|].
  apply Forall_cons in Hts as [Ht Hts]. simpl decrement_run.
  pose proof (shrinks_Decrement t key c W) as S. revert S.
  rewrite decrement_uncycled by done. destruct n as [|n].
  - destruct (tryDecrement_zero t _ _ _ _ He Hv) as [h ->]. intros _. simpl.
    f_equal. by apply (IH key c e 0%nat).
  - destruct (tryDecrement_positive t _ key c e (Z.of_nat (S n)) He Ht Hv Hi) as
      (c' & -> & He' & Hu' & Hc'); [lia|]. simpl. intros S. f_equal; [f_equal; lia|].
    eapply IH; [by eapply shrinks_wf|congruence|by rewrite Hc'| | |done].
    + simpl. f_equal. lia.
    + unfold in_int64, int64_min, int64_max in *. simpl. bool_to_prop.
      apply andb_true_intro. split; apply Z.leb_le; lia.
Qed.

(** * Capacity *)

Definition total_entries (c : InMemoryCache) : nat :=
  length (map_to_list (c_segments c) ≫= (fun '(g, seg) => (map_to_list (seg : segment)).*2)).

Lemma total_entries_le_lru c : wf c -> (total_entries c <= length (c_lru c))%nat.
Proof.
  intros W. unfold total_entries.
  set (pairs := map_to_list (c_segments c) ≫= (fun '(g, seg) =>
    (fun '(k, e) => (e_element e, k)) <$> map_to_list (seg : segment))).
  assert (length (map_to_list (c_segments c) ≫= (fun '(g, seg) =>
    (map_to_list (seg : segment)).*2)) = length pairs) as ->.
  { unfold pairs. induction (map_to_list (c_segments c)) as [|[g seg] l IH]; [done|].
    rewrite !bind_cons, !length_app, !length_fmap. by rewrite IH. }
  assert (NoDup pairs) as Hnd.
  { unfold pairs. apply NoDup_bind; [| |apply NoDup_map_to_list].
    - intros [g seg] [g' seg'] x Hg Hg' Hx Hx'.
      apply elem_of_map_to_list in Hg, Hg'.
      apply list_elem_of_fmap in Hx as ([k e] & -> & Hk).
      apply list_elem_of_fmap in Hx' as ([k' e'] & Heq & Hk').
      apply elem_of_map_to_list in Hk, Hk'. injection Heq as Heq ->.
      destruct (wf_inj _ W g g' k' k' e e') as [-> _];
        unfold entry_at; rewrite ?Hg, ?Hg'; simpl; congruence.
    - intros [g seg] Hg. apply elem_of_map_to_list in Hg.
      apply (NoDup_fmap_1 snd). rewrite <- list_fmap_compose.
      erewrite list_fmap_ext; [apply (NoDup_fst_map_to_list seg)|]. by intros ? [k e] _. }
  rewrite <- (length_fmap (fun x => (Some x.1, x.2)) (c_lru c)).
  apply submseteq_length, NoDup_submseteq; [done|].
  intros x ([g seg] & Hx & Hg)%list_elem_of_bind. apply elem_of_map_to_list in Hg.
  apply list_elem_of_fmap in Hx as ([k e] & -> & Hk). apply elem_of_map_to_list in Hk.
  destruct (wf_entry _ W g k e) as (_ & i & -> & Hin).
  { unfold entry_at. rewrite Hg. done. }
  apply (list_elem_of_fmap_2 (fun x => (Some x.1, x.2))) in Hin. done.
Qed.

Lemma length_lru_shrinks c c' : shrinks c c' -> (length (c_lru c') <= length (c_lru c))%nat.
Proof.
  intros S. apply submseteq_length, NoDup_submseteq; [|apply S].
  apply (NoDup_fmap_1 fst), S.
Qed.

Lemma last_in_lru (l : list (nat * string)) x : last l = Some x -> x ∈ l.
Proof. apply last_Some_elem_of. Qed.

Lemma length_evict_back c :
  c_lru c <> [] -> (length (c_lru (evict_back c)) < length (c_lru c))%nat.
Proof.
  intros Hne. unfold evict_back.
  destruct (last (c_lru c)) as [[i k]|] eqn:Hl; [|by apply last_None in Hl].
  apply last_in_lru in Hl. simpl. apply length_filter_lt with (x := (i, k)); [done|].
  simpl. naive_solver.
Qed.

(** A write keeps the list within the bound. *)
Lemma length_setLocked now key v o c :
  0 < c_maxItems c -> Z.of_nat (length (c_lru c)) <= c_maxItems c ->
  Z.of_nat (length (c_lru (setLocked now key v o c))) <= c_maxItems c.
Proof.
  intros Hpos Hle. unfold setLocked.
  destruct (ensure_segment_fields (c_currentChecksum c) c) as (Hc & _ & Hm & Hl & _).
  set (c1 := ensure_segment _ c) in *.
  destruct (entry_at c1 _ key); simpl.
  - by rewrite length_lru_move_front, Hl.
  - rewrite Hm. destruct (_ && _)%bool eqn:Hfull; simpl.
    + bool_to_prop. rewrite Hl in *.
      assert (length (c_lru (evict_back c1)) < length (c_lru c1))%nat.
      { apply length_evict_back. rewrite Hl. destruct (c_lru c); simpl in *; [lia|done]. }
      rewrite Hl in *. lia.
    + apply andb_false_iff in Hfull as [Hf|Hf]; bool_to_prop; [lia|]. rewrite Hl in *. lia.
Qed.

Lemma setLocked_maxItems now key v o c : c_maxItems (setLocked now key v o c) = c_maxItems c.
Proof.
  unfold setLocked. destruct (ensure_segment_fields (c_currentChecksum c) c) as (_ & _ & Hm & _).
  set (c1 := ensure_segment _ c) in *. destruct (entry_at c1 _ key); simpl; [done|].
  destruct (_ && _)%bool; [|done]. by rewrite (proj1 (proj2 (proj2 (evict_back_fields c1)))).
Qed.

Definition is_GetCache (op : cache_op) : bool :=
  match op with OpGetCache _ _ => true | _ => false end.

Definition bounded (c : InMemoryCache) : Prop := Z.of_nat (length (c_lru c)) <= c_maxItems c.

Lemma bounded_shrinks c c' : shrinks c c' -> bounded c -> bounded c'.
Proof.
  intros S. unfold bounded. rewrite (proj1 (sh_bounds _ _ S)).
  pose proof (length_lru_shrinks _ _ S). lia.
Qed.

Lemma bounded_cache_do c op :
  wf c -> is_GetCache op = false -> 0 < c_maxItems c -> bounded c ->
  c_maxItems (cache_do c op) = c_maxItems c /\ bounded (cache_do c op).
Proof.
  intros W Hop Hpos B. destruct op; simpl in *; try discriminate.
  - pose proof (shrinks_lookup_in (generations c) now k false c W) as S.
    split; [apply (sh_bounds _ _ S)|exact (bounded_shrinks _ _ S B)].
  - pose proof (shrinks_lookup_in (generations c) now k true c W) as S.
    split; [apply (sh_bounds _ _ S)|exact (bounded_shrinks _ _ S B)].
  - pose proof (shrinks_Delete k c W) as S.
    split; [apply (sh_bounds _ _ S)|exact (bounded_shrinks _ _ S B)].
  - pose proof (shrinks_Decrement now k c W) as S.
    split; [apply (sh_bounds _ _ S)|exact (bounded_shrinks _ _ S B)].
  - split; [apply setLocked_maxItems|]. unfold bounded, Set_. rewrite setLocked_maxItems.
    by apply length_setLocked.
  - unfold Update. repeat case_match; simplify_eq/=; try done;
      (split; [apply setLocked_maxItems|]); unfold bounded;
      rewrite setLocked_maxItems; by apply length_setLocked.
  - pose proof (shrinks_reap now c W) as S. unfold startReaper_turn.
    pose proof (length_lru_shrinks _ _ S) as Hl. unfold bounded in *.
    repeat case_match; simpl; try done; (split; [done|]);
      (etransitivity; [|exact B]); apply Nat2Z.inj_le; exact Hl.
  - unfold cycle_cache. case_match; [done|].
    match goal with |- context [ensure_segment ?s ?x] =>
      destruct (ensure_segment_fields s x) as (_ & _ & Hm & Hl & _) end.
    unfold bounded. simpl. rewrite Hm, Hl. done.
Qed.
