(* ===== verification/MemCacheSpec.v ===== *)
(** What the in-memory cache (MemCache) promises: it implements the store
    interface (Store) for the uncycled, unbounded caches the security state
    lives in, whatever its reaper does meanwhile; a cached value is redeemed
    once; counters count down; bounded caches stay bounded; a cycle keeps one
    previous generation. The last part shows what the two generations of a
    cycled cache do not promise. *)
From S2P Require Import Prelude GoStr Store MemCache.

#[local] Open Scope string_scope.

(** * Abstraction *)

(** What an uncycled cache stores: its one generation. *)
Definition abs (c : InMemoryCache) : store :=
  (fun e => (e_value e, e_expiry e)) <$> default ∅ (c_segments c !! c_currentChecksum c).

(** The caches of security state: uncycled, with a bound on their items or
    without one. *)
Record uncycled (c : InMemoryCache) : Prop := {
  un_wf : wf c;
  un_uncycled : c_uncycled c = true;
}.

Record plain (c : InMemoryCache) : Prop := {
  pl_wf : wf c;
  pl_uncycled : c_uncycled c = true;
  pl_unbounded : c_maxItems c <= 0;
}.

Definition serve_value (r : (string * bool * bool) * InMemoryCache)
    : option string * InMemoryCache :=
  let '((v, ok, _), c) := r in ((if ok then Some v else None), c).

(** A request served by the cache. *)
Definition mem_serve (r : request) (c : InMemoryCache) : answer * InMemoryCache :=
  match r with
  | RGet t k => let '(v, c) := serve_value (Get t k c) in (AValue v, c)
  | RGetAndDelete t k => let '(v, c) := serve_value (GetAndDelete t k c) in (AValue v, c)
  | RDelete _ k => (AUnit, Delete k c)
  | RSet t k v opts => (AUnit, Set_ t k v opts c)
  | RUpdate t k fn opts => let '(b, c) := Update t k fn opts c in (AWrote b, c)
  | RDecrement t k => let '((n, ok), c) := DecrementIfPositive t k c in (ACount n ok, c)
  end.

(** A request, or a turn of the cache's reaper or a cycle of the manager
    between two requests. *)
Inductive mem_event :=
| EvRequest (r : request)
| EvReaper (now : Z) (ev : reaper_event) (interval : Z)
| EvCycle (now : Z) (checksum : string) (force : bool).

Definition event_time (e : mem_event) : Z :=
  match e with
  | EvRequest r => request_time r
  | EvReaper t _ _ | EvCycle t _ _ => t
  end.

Fixpoint mem_answers (evs : list mem_event) (c : InMemoryCache) : list answer :=
  match evs with
  | [] => []
  | EvRequest r :: evs => let '(a, c) := mem_serve r c in a :: mem_answers evs c
  | EvReaper t ev i :: evs => mem_answers evs (startReaper_turn t ev i c).2
  | EvCycle _ checksum force :: evs => mem_answers evs (cycle_cache checksum force c)
  end.

Fixpoint store_answers (dttl : Z) (evs : list mem_event) (s : store) : list answer :=
  match evs with
  | [] => []
  | EvRequest r :: evs => let '(a, s) := store_serve dttl r s in a :: store_answers dttl evs s
  | EvReaper _ _ _ :: evs | EvCycle _ _ _ :: evs => store_answers dttl evs s
  end.

(** The times of [evs] never step back below [t]. *)
Fixpoint monotone_from (t : Z) (evs : list mem_event) : Prop :=
  match evs with
  | [] => True
  | e :: evs => t <= event_time e /\ monotone_from (event_time e) evs
  end.

(** * One operation *)

Lemma lookup_abs c k :
  abs c !! k = (fun e => (e_value e, e_expiry e)) <$> entry_at c (c_currentChecksum c) k.
Proof.
  unfold abs, entry_at. rewrite lookup_fmap.
  destruct (c_segments c !! c_currentChecksum c); [done|]. cbn. by rewrite lookup_empty.
Qed.

Lemma abs_ext c c' :
  (forall k, (fun e => (e_value e, e_expiry e)) <$> entry_at c' (c_currentChecksum c') k =
             (fun e => (e_value e, e_expiry e)) <$> entry_at c (c_currentChecksum c) k) ->
  abs c' = abs c.
Proof. intros H. apply map_eq. intros k. by rewrite !lookup_abs. Qed.

Lemma plain_uncycled c : plain c -> uncycled c.
Proof. intros [W U _]. by split. Qed.

Lemma uncycled_shrinks c c' : shrinks c c' -> uncycled c -> uncycled c'.
Proof. intros S [W U]. split; [by eapply shrinks_wf|by rewrite (sh_unc _ _ S)]. Qed.

Lemma plain_shrinks c c' : shrinks c c' -> plain c -> plain c'.
Proof.
  intros S [W U B]. split; [by eapply shrinks_wf|by rewrite (sh_unc _ _ S)|].
  by rewrite (proj1 (sh_bounds _ _ S)).
Qed.

Lemma lookup_refines now k evict c :
  uncycled c ->
  let r := serve_value (lookupLocked now k evict c) in
  r.1 = st_get now k (abs c) /\
  abs r.2 = if evict then (st_getdel now k (abs c)).2 else abs c.
Proof.
  intros [W U]. unfold lookupLocked. rewrite lookup_uncycled by done.
  unfold st_getdel, st_get. rewrite lookup_abs.
  destruct (entry_at c (c_currentChecksum c) k) as [e|] eqn:He; simpl; [|by destruct evict].
  unfold lookup_entry. destruct (after now (e_expiry e)); simpl; [by destruct evict|].
  destruct evict; simpl; split; try done.
  apply map_eq. intros k'. rewrite lookup_abs, lookup_delete, lookup_abs. simpl.
  rewrite entry_at_delete_entry, entry_at_set_lru. repeat case_decide; try done; naive_solver.
Qed.

Lemma foldl_delete_in_entry gens k : forall c g k',
  entry_at (foldl (delete_in k) c gens) g k' =
  if decide (g ∈ gens /\ k' = k) then None else entry_at c g k'.
Proof.
  induction gens as [|x gens IH]; intros c g k'; cbn [foldl].
  { rewrite decide_False; [done|]. by intros [?%elem_of_nil _]. }
  assert (entry_at (delete_in k c x) g k' =
    if decide (g = x /\ k' = k) then None else entry_at c g k') as Hd.
  { unfold delete_in. destruct (entry_at c x k) as [e|] eqn:He.
    - rewrite entry_at_delete_entry. by repeat case_decide.
    - case_decide as H; [|done]. destruct H as [-> ->]. done. }
  rewrite IH, Hd. repeat case_decide; rewrite ?elem_of_cons in *; try tauto.
Qed.

Lemma foldl_delete_in_cur k gens : forall c,
  c_currentChecksum (foldl (delete_in k) c gens) = c_currentChecksum c.
Proof.
  induction gens as [|x gens IH]; intros c; simpl; [done|]. rewrite IH.
  unfold delete_in. by destruct (entry_at c x k).
Qed.

Lemma abs_Delete k c : abs (Delete k c) = delete k (abs c).
Proof.
  apply map_eq. intros k'. unfold Delete.
  rewrite lookup_abs, foldl_delete_in_cur, foldl_delete_in_entry, lookup_delete, lookup_abs.
  destruct (decide (k = k')) as [->|].
  - destruct (entry_at c (c_currentChecksum c) k') eqn:He; [|by case_decide].
    rewrite decide_True; [done|]. split; [|done].
    by apply elem_of_generations, (entry_at_segment _ _ _ _ He).
  - by rewrite decide_False by naive_solver.
Qed.

Lemma abs_setLocked now k v o c :
  c_maxItems c <= 0 -> abs (setLocked now k v o c) = st_set now (c_ttl c) k v o (abs c).
Proof.
  intros B. apply map_eq. intros k'. unfold st_set.
  rewrite lookup_abs, setLocked_current, lookup_insert, lookup_abs.
  destruct (decide (k = k')) as [<-|Hne].
  - destruct (entry_at_setLocked now k v o c) as (e & -> & <- & <-). done.
  - f_equal. unfold setLocked.
    destruct (ensure_segment_fields (c_currentChecksum c) c) as (Hc & _ & Hm & _).
    rewrite <- (entry_at_ensure_segment (c_currentChecksum c) c).
    set (c1 := ensure_segment _ c) in *.
    destruct (entry_at c1 _ k).
    + rewrite entry_at_put_entry, decide_False by naive_solver. done.
    + rewrite Hm, (proj2 (Z.ltb_ge 0 (c_maxItems c))) by done. simpl.
      unfold push_entry. rewrite entry_at_put_entry, decide_False by naive_solver. done.
Qed.

(** A write to a bounded cache may drop another entry, and does nothing else. *)
Lemma abs_setLocked_sub now k v o c :
  abs (setLocked now k v o c) !! k = Some (v, expiry_of now (c_ttl c) o) /\
  abs (setLocked now k v o c) ⊆ st_set now (c_ttl c) k v o (abs c).
Proof.
  assert (abs (setLocked now k v o c) !! k = Some (v, expiry_of now (c_ttl c) o)) as Hk.
  { rewrite lookup_abs, setLocked_current.
    destruct (entry_at_setLocked now k v o c) as (e & -> & <- & <-). done. }
  split; [done|]. apply map_subseteq_spec. intros k' x. unfold st_set.
  destruct (decide (k' = k)) as [->|Hne]; [by rewrite Hk, lookup_insert_eq|].
  rewrite lookup_insert_ne by done. rewrite !lookup_abs, setLocked_current.
  intros (e & He & ->)%fmap_Some. apply fmap_Some. exists e. split; [|done].
  unfold setLocked in He. rewrite <- (entry_at_ensure_segment (c_currentChecksum c) c).
  destruct (ensure_segment_fields (c_currentChecksum c) c) as (Hc & _).
  set (c1 := ensure_segment _ c) in *. rewrite Hc in He.
  destruct (entry_at c1 _ k) as [e0|].
  - rewrite entry_at_put_entry, decide_False in He by naive_solver. done.
  - destruct (_ && _)%bool.
    + unfold push_entry in He. rewrite entry_at_put_entry, decide_False in He by naive_solver.
      by eapply entry_at_evict_back.
    + unfold push_entry in He. by rewrite entry_at_put_entry, decide_False in He by naive_solver.
Qed.

Lemma setLocked_fields now k v o c :
  c_uncycled (setLocked now k v o c) = c_uncycled c /\
  c_ttl (setLocked now k v o c) = c_ttl c.
Proof.
  unfold setLocked. destruct (ensure_segment_fields (c_currentChecksum c) c) as (_ & Ht & _ & _ & Hu & _).
  set (c1 := ensure_segment _ c) in *. destruct (entry_at c1 _ k); simpl; [done|].
  destruct (_ && _)%bool; [|done]. destruct (evict_back_fields c1) as (_ & Ht' & _ & Hu' & _).
  simpl. split; congruence.
Qed.

Lemma plain_setLocked now k v o c : plain c -> plain (setLocked now k v o c).
Proof.
  intros [W U B]. destruct (setLocked_fields now k v o c) as [Hu _]. split.
  - by apply wf_setLocked.
  - congruence.
  - by rewrite setLocked_maxItems.
Qed.

Lemma uncycled_setLocked now k v o c : uncycled c -> uncycled (setLocked now k v o c).
Proof.
  intros [W U]. destruct (setLocked_fields now k v o c) as [Hu _].
  split; [by apply wf_setLocked|congruence].
Qed.

(** What [Update]'s callback is shown. *)
Lemma Update_current now k fn opts c :
  Update now k fn opts c =
  let '(next, write) := fn (default "" (st_get now k (abs c))) (found (st_get now k (abs c))) in
  (write, if write then setLocked now k next (applySetOptions opts) c else c).
Proof.
  unfold Update, st_get. rewrite lookup_abs.
  destruct (entry_at c (c_currentChecksum c) k) as [e|]; simpl; [|done].
  by destruct (after now (e_expiry e)).
Qed.

Lemma Update_refines now k fn opts c :
  plain c ->
  (Update now k fn opts c).1 = (st_update now (c_ttl c) k fn (applySetOptions opts) (abs c)).1 /\
  abs (Update now k fn opts c).2 =
    (st_update now (c_ttl c) k fn (applySetOptions opts) (abs c)).2 /\
  plain (Update now k fn opts c).2 /\ c_ttl (Update now k fn opts c).2 = c_ttl c.
Proof.
  intros P. rewrite Update_current. unfold st_update.
  destruct (fn _ _) as [next write]. simpl. split; [done|]. destruct write; [|done].
  split_and!; [by apply abs_setLocked, P|by apply plain_setLocked|].
  apply setLocked_fields.
Qed.

Lemma Decrement_refines now k c :
  uncycled c ->
  (DecrementIfPositive now k c).1 = (st_decr now k (abs c)).1 /\
  abs (DecrementIfPositive now k c).2 = (st_decr now k (abs c)).2.
Proof.
  intros [W U]. rewrite decrement_uncycled by done. unfold tryDecrementEntry, st_decr.
  rewrite lookup_abs. destruct (entry_at c _ k) as [e|] eqn:He; simpl; [|done].
  destruct (after now (e_expiry e)); [done|]. destruct (ParseInt (e_value e)) as [n|]; [|done].
  destruct (n <=? 0)%Z; simpl; [done|]. split; [done|].
  apply map_eq. intros k'. rewrite lookup_abs, lookup_insert. unfold put_entry. simpl.
  rewrite entry_at_set_lru.
  match goal with |- context [entry_at ?x ?g k'] =>
    change x with (put_entry g k (mkEntry (e_element e) (e_expiry e) (e_key e)
      (FormatInt (n - 1))) c) end.
  rewrite entry_at_put_entry, lookup_abs. destruct (decide (k = k')) as [<-|].
  - rewrite decide_True by done. by destruct (entry_at_segment _ _ _ _ He) as [seg ->].
  - by rewrite decide_False by naive_solver.
Qed.

Lemma reap_refines now c :
  obs_eq now (abs (reap now c)) (abs c).
Proof.
  intros t k Ht. unfold st_get. rewrite !lookup_abs, entry_at_reap. simpl.
  destruct (entry_at c (c_currentChecksum c) k) as [e|]; simpl; [|done].
  destruct (after now (e_expiry e)) eqn:Ha; [|done]. simpl. bool_to_prop.
  by rewrite (proj2 (after_spec t (e_expiry e))) by lia.
Qed.

Lemma reaper_turn_refines now ev i c :
  plain c ->
  obs_eq now (abs (startReaper_turn now ev i c).2) (abs c) /\
  plain (startReaper_turn now ev i c).2 /\
  c_ttl (startReaper_turn now ev i c).2 = c_ttl c.
Proof.
  intros P. destruct (pl_wf _ P) as [W1 W2 W3 W4 W5 W6].
  assert (plain (reap now c)) as Pr by by eapply plain_shrinks; [apply shrinks_reap, P|].
  unfold startReaper_turn. destruct ev; [|destruct (c_updateChan c)]; simpl.
  - split_and!; [apply reap_refines|done|done].
  - set (c1 := mkCache _ _ _ _ _ _ _ _ _ _).
    assert (plain c1) as P1.
    { split; [|apply P..]. by apply (wf_ext c); [..|apply P]. }
    split_and!; [exact (reap_refines now c1)| |done].
    by eapply plain_shrinks; [apply shrinks_reap, P1|].
  - done.
Qed.

(** One request: the same answer, the same abstract state. *)
Lemma mem_serve_refines r c :
  plain c ->
  (mem_serve r c).1 = (store_serve (c_ttl c) r (abs c)).1 /\
  abs (mem_serve r c).2 = (store_serve (c_ttl c) r (abs c)).2 /\
  plain (mem_serve r c).2 /\ c_ttl (mem_serve r c).2 = c_ttl c.
Proof.
  intros P. destruct r as [t k|t k|t k|t k v opts|t k fn opts|t k]; simpl.
  - destruct (lookup_refines t k false c (plain_uncycled _ P)) as [H1 H2].
    pose proof (shrinks_lookup_in (generations c) t k false c (pl_wf _ P)) as S.
    unfold Get, lookupLocked in *. destruct (lookupLocked_in _ _ _ _ _) as [[[v ok] b] c'].
    simpl in *. split_and!; [by f_equal|done|by eapply plain_shrinks|apply S].
  - destruct (lookup_refines t k true c (plain_uncycled _ P)) as [H1 H2].
    pose proof (shrinks_lookup_in (generations c) t k true c (pl_wf _ P)) as S.
    unfold GetAndDelete, lookupLocked in *.
    destruct (lookupLocked_in _ _ _ _ _) as [[[v ok] b] c']. simpl in *.
    assert (st_get t k (abs c) = (st_getdel t k (abs c)).1) as Hg.
    { unfold st_getdel. by destruct (st_get t k (abs c)). }
    destruct (st_getdel t k (abs c)). simpl in *.
    split_and!; [f_equal; congruence|done|by eapply plain_shrinks|apply S].
  - pose proof (shrinks_Delete k c (pl_wf _ P)) as S.
    split_and!; [done|apply abs_Delete|by eapply plain_shrinks|apply S].
  - split_and!; [done|by apply abs_setLocked, P|by apply plain_setLocked|apply setLocked_fields].
  - destruct (Update_refines t k fn opts c P) as (H1 & H2 & H3 & H4).
    destruct (Update _ _ _ _ _), (st_update _ _ _ _ _ _). simpl in *. by subst.
  - destruct (Decrement_refines t k c (plain_uncycled _ P)) as [H1 H2].
    pose proof (shrinks_Decrement t k c (pl_wf _ P)) as S.
    destruct (DecrementIfPositive t k c) as [[n ok] c'], (st_decr t k (abs c)) as [[n' ok'] s'].
    simpl in *. simplify_eq. split_and!; [done|done|by eapply plain_shrinks|apply S].
Qed.

(** The simulation, over abstract states that no reader can tell from the
    cache's own. *)
Lemma simulation evs : forall t c s,
  plain c -> obs_eq t (abs c) s -> monotone_from t evs ->
  mem_answers evs c = store_answers (c_ttl c) evs s.
Proof.
  induction evs as [|e evs IH]; intros t c s P Ho Hm; [done|].
  destruct Hm as [Ht Hm]. apply (obs_eq_later _ _ _ _ Ht) in Ho.
  destruct e as [r|now ev i|now cs force]; simpl in *.
  - destruct (mem_serve_refines r c P) as (H1 & H2 & H3 & H4).
    destruct (store_serve_proper (c_ttl c) r (abs c) s Ho) as [Hv Hs].
    destruct (mem_serve r c) as [a c'], (store_serve (c_ttl c) r (abs c)) as [a0 s0],
      (store_serve (c_ttl c) r s) as [a' s']. simpl in *. subst.
    f_equal. rewrite <- H4. by eapply IH.
  - destruct (reaper_turn_refines now ev i c P) as (H1 & H2 & H3).
    rewrite <- H3. eapply IH; [done| |done]. by etransitivity.
  - unfold cycle_cache. rewrite (pl_uncycled _ P). simpl. by eapply IH.
Qed.

Lemma plain_new_cache m class opts :
  o_Uncycled opts = true -> default 1000 (o_MaxItems opts) <= 0 -> plain (new_cache m class opts).
Proof. intros Hu Hm. split; [apply wf_new_cache|done|done]. Qed.

(** * The interface, discharged *)

Record plainCache := PlainCache { pc_cache : InMemoryCache; pc_plain : plain pc_cache }.

Lemma plain_Get now k c : plain c -> plain (Get now k c).2.
Proof.
  intros P. exact (plain_shrinks _ _ (shrinks_lookup_in _ now k false c (pl_wf _ P)) P).
Qed.

Lemma plain_GetAndDelete now k c : plain c -> plain (GetAndDelete now k c).2.
Proof.
  intros P. exact (plain_shrinks _ _ (shrinks_lookup_in _ now k true c (pl_wf _ P)) P).
Qed.

Lemma plain_Delete k c : plain c -> plain (Delete k c).
Proof. intros P. exact (plain_shrinks _ _ (shrinks_Delete k c (pl_wf _ P)) P). Qed.

Lemma plain_Update now k fn opts c : plain c -> plain (Update now k fn opts c).2.
Proof. intros P. by destruct (Update_refines now k fn opts c P) as (_ & _ & ? & _). Qed.

Lemma plain_Decrement now k c : plain c -> plain (DecrementIfPositive now k c).2.
Proof.
  intros P. exact (plain_shrinks _ _ (shrinks_Decrement now k c (pl_wf _ P)) P).
Qed.

Definition lookup_value (r : (string * bool * bool) * InMemoryCache) : option string :=
  let '((v, ok, _), _) := r in if ok then Some v else None.

#[global] Instance plainCache_ops : CacheOps plainCache := {
  cTTL p := c_ttl (pc_cache p);
  cGet now k p := (lookup_value (Get now k (pc_cache p)),
    PlainCache _ (plain_Get now k _ (pc_plain p)));
  cGetAndDelete now k p := (lookup_value (GetAndDelete now k (pc_cache p)),
    PlainCache _ (plain_GetAndDelete now k _ (pc_plain p)));
  cDelete k p := PlainCache _ (plain_Delete k _ (pc_plain p));
  cSet now k v opts p := PlainCache _ (plain_setLocked now k v (applySetOptions opts) _ (pc_plain p));
  cUpdate now k fn opts p := ((Update now k fn opts (pc_cache p)).1,
    PlainCache _ (plain_Update now k fn opts _ (pc_plain p)));
  cDecrementIfPositive now k p := ((DecrementIfPositive now k (pc_cache p)).1,
    PlainCache _ (plain_Decrement now k _ (pc_plain p)));
}.

Lemma getdel_value now k c :
  uncycled c ->
  (serve_value (GetAndDelete now k c)).1 = (st_getdel now k (abs c)).1.
Proof.
  intros U. pose proof (lookup_refines now k true _ U) as [H _].
  unfold GetAndDelete. rewrite H. unfold st_getdel. by destruct (st_get now k _).
Qed.

Lemma lookup_value_serve r : lookup_value r = (serve_value r).1.
Proof. by destruct r as [[[? ?] ?] ?]. Qed.

Lemma serve_value_snd r : (serve_value r).2 = r.2.
Proof. by destruct r as [[[? ?] ?] ?]. Qed.

(** The store's laws hold of every plain cache: the clients proved against
    [CacheLaws] run on the in-memory implementation. *)
#[global] Instance plainCache_safe : CacheSafe plainCache.
Proof.
  refine {| cabs := fun p => abs (pc_cache p) |}; intros; simpl.
  - rewrite lookup_value_serve. apply lookup_refines, plain_uncycled, pc_plain.
  - rewrite <- serve_value_snd. apply (lookup_refines now k false), plain_uncycled, pc_plain.
  - rewrite lookup_value_serve. apply getdel_value, plain_uncycled, pc_plain.
  - rewrite <- serve_value_snd. apply (lookup_refines now k true), plain_uncycled, pc_plain.
  - apply abs_Delete.
  - apply abs_setLocked_sub.
  - apply abs_setLocked_sub.
  - apply Update_refines, pc_plain.
  - f_equal. apply Update_refines, pc_plain.
  - apply reflexive_eq, Update_refines, pc_plain.
  - apply Decrement_refines, plain_uncycled, pc_plain.
  - apply Decrement_refines, plain_uncycled, pc_plain.
Defined.

#[global] Instance plainCache_laws : CacheLaws plainCache.
Proof.
  refine {| CacheLaws_safe := plainCache_safe |}; intros; simpl.
  - apply abs_setLocked, pc_plain.
  - apply Update_refines, pc_plain.
Defined.

(** The bounded ones satisfy the weaker laws. *)
Record boundedCache := BoundedCache { bc_cache : InMemoryCache; bc_uncycled : uncycled bc_cache }.

Lemma uncycled_lookup now k evict c : uncycled c -> uncycled (lookupLocked now k evict c).2.
Proof.
  intros U. exact (uncycled_shrinks _ _ (shrinks_lookup_in _ now k evict c (un_wf _ U)) U).
Qed.

Lemma uncycled_Delete k c : uncycled c -> uncycled (Delete k c).
Proof. intros U. exact (uncycled_shrinks _ _ (shrinks_Delete k c (un_wf _ U)) U). Qed.

Lemma uncycled_Update now k fn opts c : uncycled c -> uncycled (Update now k fn opts c).2.
Proof.
  intros U. rewrite Update_current. destruct (fn _ _) as [next []]; simpl; [|done].
  by apply uncycled_setLocked.
Qed.

Lemma uncycled_Decrement now k c : uncycled c -> uncycled (DecrementIfPositive now k c).2.
Proof. intros U. exact (uncycled_shrinks _ _ (shrinks_Decrement now k c (un_wf _ U)) U). Qed.

#[global] Instance boundedCache_ops : CacheOps boundedCache := {
  cTTL b := c_ttl (bc_cache b);
  cGet now k b := (lookup_value (Get now k (bc_cache b)),
    BoundedCache _ (uncycled_lookup now k false _ (bc_uncycled b)));
  cGetAndDelete now k b := (lookup_value (GetAndDelete now k (bc_cache b)),
    BoundedCache _ (uncycled_lookup now k true _ (bc_uncycled b)));
  cDelete k b := BoundedCache _ (uncycled_Delete k _ (bc_uncycled b));
  cSet now k v opts b :=
    BoundedCache _ (uncycled_setLocked now k v (applySetOptions opts) _ (bc_uncycled b));
  cUpdate now k fn opts b := ((Update now k fn opts (bc_cache b)).1,
    BoundedCache _ (uncycled_Update now k fn opts _ (bc_uncycled b)));
  cDecrementIfPositive now k b := ((DecrementIfPositive now k (bc_cache b)).1,
    BoundedCache _ (uncycled_Decrement now k _ (bc_uncycled b)));
}.

#[global] Instance boundedCache_safe : CacheSafe boundedCache.
Proof.
  refine {| cabs := fun b => abs (bc_cache b) |}; intros; simpl.
  - rewrite lookup_value_serve. apply lookup_refines, bc_uncycled.
  - rewrite <- serve_value_snd. apply (lookup_refines now k false), bc_uncycled.
  - rewrite lookup_value_serve. apply getdel_value, bc_uncycled.
  - rewrite <- serve_value_snd. apply (lookup_refines now k true), bc_uncycled.
  - apply abs_Delete.
  - apply abs_setLocked_sub.
  - apply abs_setLocked_sub.
  - rewrite Update_current. unfold st_update. by destruct (fn _ _).
  - rewrite Update_current. unfold st_update. destruct (fn _ _) as [next []]; simpl; [|done].
    rewrite (proj1 (abs_setLocked_sub _ _ _ _ _)). unfold st_set. by rewrite lookup_insert_eq.
  - rewrite Update_current. unfold st_update. destruct (fn _ _) as [next []]; simpl; [|done].
    apply abs_setLocked_sub.
  - apply Decrement_refines, bc_uncycled.
  - apply Decrement_refines, bc_uncycled.
Defined.

(** The cache of every class the program asks for uncycled. *)
Lemma uncycled_new_cache m class opts : o_Uncycled opts = true -> uncycled (new_cache m class opts).
Proof. intros Hu. split; [apply wf_new_cache|done]. Qed.

(** * Cycling *)

Lemma cycle_segments checksum force c g :
  c_uncycled c = false -> c_currentChecksum c <> checksum ->
  forall k, entry_at (cycle_cache checksum force c) g k =
    if force then (if decide (g = checksum) then entry_at c g k else None)
    else if decide (g = checksum \/ g = c_currentChecksum c) then entry_at c g k else None.
Proof.
  intros Hu Hne k. unfold cycle_cache. rewrite Hu.
  rewrite (proj2 (String.eqb_neq _ _) Hne), andb_false_r. cbn [orb].
  set (c1 := mkCache _ checksum _ _ _ _ _ _ _ _).
  assert (entry_at c g k = entry_at (ensure_segment checksum c1) g k) as ->
    by by rewrite entry_at_ensure_segment.
  unfold entry_at, keep_generations. cbn [c_segments set_segments]. rewrite map_lookup_filter.
  destruct (c_segments (ensure_segment checksum c1) !! g) as [seg|]; [|by repeat case_match].
  cbn [mbind option_bind]. destruct force; case_guard as Hg; cbn [fst] in Hg; cbn;
    try rewrite orb_true_iff in Hg; rewrite !String.eqb_eq in Hg; by case_decide.
Qed.

Lemma cycle_current checksum force c :
  c_uncycled c = false -> c_currentChecksum c <> checksum ->
  c_currentChecksum (cycle_cache checksum force c) = checksum /\
  c_uncycled (cycle_cache checksum force c) = false.
Proof.
  intros Hu Hne. unfold cycle_cache. rewrite Hu.
  rewrite (proj2 (String.eqb_neq _ _) Hne), andb_false_r. cbn [orb].
  set (c1 := mkCache _ checksum _ _ _ _ _ _ _ _).
  by destruct (ensure_segment_fields checksum c1) as (Hc & _ & _ & _ & Hu' & _).
Qed.

(** * Properties *)

Definition exampleOptions : CacheOptions := mkOptions (Some 0)%Z (Some hour) true.

Definition exampleCache : InMemoryCache :=
  new_cache (NewCacheManager "host" None) "refresh-tokens" exampleOptions.

(** C8: an uncycled unbounded cache implements the store interface: whatever
    turns its reaper takes and whatever cycles the manager goes through between
    the requests, it gives every client the answers the abstract store gives. *)
Theorem memory_refines_store t c evs :
  plain c -> monotone_from t evs -> mem_answers evs c = store_answers (c_ttl c) evs (abs c).
Proof. intros P Hm. by eapply simulation. Qed.

Lemma memory_refines_store_witness :
  mem_answers [EvRequest (RSet 0 "k" "v" [WithTTL 10]); EvCycle 4 "next" true;
               EvReaper 5 Tick 7; EvRequest (RGetAndDelete 10 "k"); EvReaper 11 Tick 7;
               EvRequest (RGet 12 "k")] exampleCache =
  [AUnit; AValue (Some "v"); AValue None].
Proof.
  rewrite (memory_refines_store 0 exampleCache).
  - vm_compute. reflexivity.
  - apply plain_new_cache; [reflexivity|]. simpl. lia.
  - simpl. lia.
Defined.

(** Whatever sequence of [GetCache], [Cycle] and cache operations a manager
    has been through, each of its caches is well formed: every entry's element
    is in the recency list under its key, elements are not shared, at most two
    generations are held and an uncycled cache holds only the surviving one. *)
Theorem manager_caches_wf host ttl ops :
  map_Forall (fun _ c => wf c) (m_caches (manager_run ops (NewCacheManager host ttl))).
Proof.
  assert (forall m, map_Forall (fun _ c => wf c) (m_caches m) ->
    map_Forall (fun _ c => wf c) (m_caches (manager_run ops m))) as Hrun.
  { unfold manager_run. induction ops as [|op ops IH]; intros m W; simpl; [done|].
    by apply IH, manager_wf_step. }
  apply Hrun, map_Forall_empty.
Qed.

(** Go's [range] over the generations takes any order, and [lookupLocked]
    answers the same and leaves the same cache in all of them. *)
Theorem range_order_irrelevant c gens now key evict :
  reachable c -> gens ≡ₚ generations c ->
  lookupLocked_in gens now key evict c = lookupLocked now key evict c.
Proof.
  intros R HP. apply reachable_wf_aux in R. unfold lookupLocked, lookupLocked_in.
  by rewrite (first_other_perm _ _ key c R HP).
Qed.

Definition twoGenerations : InMemoryCache :=
  cache_run [OpSet 0 "a" "1" [WithoutExpiry]; OpCycle "x" false; OpSet 1 "b" "2" [WithoutExpiry]]
    (new_cache (NewCacheManager "host" None) "pages" (mkOptions None None false)).

Lemma range_order_irrelevant_witness :
  lookupLocked_in ["x"; "0"] 2 "a" true twoGenerations = lookupLocked 2 "a" true twoGenerations /\
  lookupLocked_in ["0"; "x"] 2 "a" true twoGenerations = lookupLocked 2 "a" true twoGenerations.
Proof.
  assert (reachable twoGenerations) as R by (unfold reachable, twoGenerations; eauto).
  assert (generations twoGenerations ≡ₚ ["0"; "x"] \/ generations twoGenerations ≡ₚ ["x"; "0"]) as HP
    by (vm_compute; first [left; reflexivity | right; reflexivity]).
  split; apply range_order_irrelevant; try exact R;
    (destruct HP as [-> | ->]; [first [reflexivity | apply perm_swap]|
                                first [reflexivity | apply perm_swap]]).
Defined.

(** A value redeemed from an uncycled cache is redeemed once: after a
    [GetAndDelete] that found it, no sequence of operations that does not write
    the key again, from any client and with any reaping, cycling or
    reconfiguration between, lets a second [GetAndDelete] find it. *)
Theorem getdel_single_winner c now now' key v b c' ops :
  reachable c -> c_uncycled c = true ->
  GetAndDelete now key c = ((v, true, b), c') ->
  Forall (fun op => writes key op = false) ops ->
  (GetAndDelete now' key (cache_run ops c')).1 = ("", false, true).
Proof.
  intros R Hu Hg Hw. apply reachable_wf_aux in R.
  assert (absent key c') as A.
  { pose proof (getdel_uncycled_absent now key c v b R Hu) as H. rewrite Hg in H. by apply H. }
  assert (wf c') as W'.
  { pose proof (shrinks_lookup_in (generations c) now key true c R) as S.
    unfold GetAndDelete, lookupLocked in Hg. rewrite Hg in S. by eapply shrinks_wf. }
  unfold GetAndDelete, lookupLocked. rewrite absent_lookup; [done|].
  by apply absent_cache_run.
Qed.

Lemma getdel_single_winner_witness :
  (GetAndDelete 3 "k" (cache_run [OpSet 2 "other" "w" []; OpReaper 2 Tick 5]
     (GetAndDelete 1 "k" (Set_ 0 "k" "v" [] exampleCache)).2)).1 = ("", false, true).
Proof.
  apply (getdel_single_winner (Set_ 0 "k" "v" [] exampleCache) 1 3 "k" "v" true).
  - exists (NewCacheManager "host" None), "refresh-tokens", exampleOptions,
      [OpSet 0 "k" "v" []]. reflexivity.
  - vm_compute. reflexivity.
  - vm_compute. reflexivity.
  - repeat constructor.
Defined.

(** A counter of [n] in an uncycled cache allows exactly [n] decrements
    before its expiry: they answer [n-1] down to [0], and every later one is
    refused with [-1]. *)
Theorem counter_counts_down ts key c e n :
  reachable c -> c_uncycled c = true -> entry_at c (c_currentChecksum c) key = Some e ->
  e_value e = FormatInt (Z.of_nat n) -> in_int64 (Z.of_nat n) = true ->
  Forall (fun t => t <= e_expiry e) ts ->
  decrement_run ts key c = countdown n (length ts).
Proof. intros R. apply reachable_wf_aux in R. by apply decrement_run_countdown. Qed.

Lemma counter_counts_down_witness :
  decrement_run [1; 2; 3; 4] "uses" (Set_ 0 "uses" "2" [WithTTL 100] exampleCache) =
  [(1, true); (0, true); (-1, false); (-1, false)].
Proof.
  rewrite (counter_counts_down _ "uses" _ (mkEntry (Some 0%nat) 100 "uses" "2") 2).
  - reflexivity.
  - exists (NewCacheManager "host" None), "refresh-tokens", exampleOptions,
      [OpSet 0 "uses" "2" [WithTTL 100]]. reflexivity.
  - vm_compute. reflexivity.
  - vm_compute. reflexivity.
  - reflexivity.
  - reflexivity.
  - repeat constructor; simpl; lia.
Defined.

(** A cache created with a positive bound never holds more entries than
    the bound, whatever operations, reaping and cycles it goes through, as long
    as [GetCache] does not change its options. *)
Theorem bounded_cache_stays_bounded m class opts ops :
  0 < default 1000 (o_MaxItems opts) ->
  Forall (fun op => is_GetCache op = false) ops ->
  Z.of_nat (total_entries (cache_run ops (new_cache m class opts))) <=
  default 1000 (o_MaxItems opts).
Proof.
  intros Hpos Hops.
  assert (forall c, wf c -> bounded c -> c_maxItems c = default 1000 (o_MaxItems opts) ->
    Z.of_nat (total_entries (cache_run ops c)) <= default 1000 (o_MaxItems opts)) as Hrun.
  { induction Hops as [|op ops Hop Hops IH]; intros c W B Hm; simpl.
    - pose proof (total_entries_le_lru c W). unfold bounded in B. lia.
    - destruct (bounded_cache_do c op W Hop ltac:(lia) B) as [Hm' B'].
      apply IH; [by apply wf_cache_do|done|congruence]. }
  apply Hrun; [apply wf_new_cache| |done]. unfold bounded. simpl. lia.
Qed.

Lemma bounded_cache_stays_bounded_witness :
  Z.of_nat (total_entries (cache_run [OpSet 0 "a" "1" []; OpSet 0 "b" "1" []; OpSet 0 "c" "1" []]
    (new_cache (NewCacheManager "host" None) "pages" (mkOptions (Some 2) None false)))) <= 2.
Proof.
  apply (bounded_cache_stays_bounded _ _ (mkOptions (Some 2) None false)).
  - simpl. lia.
  - repeat constructor.
Defined.

(** A key held only by the current generation of a cycled cache is still
    found after one cycle, reported as not current, and is gone after the next
    one; a forced cycle drops it at once. *)
Theorem cycle_keeps_one_previous c now key e cs1 cs2 :
  c_uncycled c = false -> c_currentChecksum c <> cs1 -> c_currentChecksum c <> cs2 ->
  cs1 <> cs2 ->
  entry_at c (c_currentChecksum c) key = Some e -> now <= e_expiry e ->
  (forall g, g <> c_currentChecksum c -> entry_at c g key = None) ->
  wf c ->
  (Get now key (cycle_cache cs1 false c)).1 = (e_value e, true, false) /\
  (Get now key (cycle_cache cs2 false (cycle_cache cs1 false c))).1 = ("", false, true) /\
  (Get now key (cycle_cache cs1 true c)).1 = ("", false, true).
Proof.
  intros Hu H1 H2 H12 He Hl Honly W.
  destruct (cycle_current cs1 false c Hu H1) as [Hc1 Hu1].
  split_and!.
  - unfold Get, lookupLocked, lookupLocked_in. rewrite Hc1, cycle_segments by done.
    rewrite Honly by done.
    assert (first_other (generations (cycle_cache cs1 false c)) key (cycle_cache cs1 false c) =
      Some (c_currentChecksum c, e)) as ->.
    { assert (entry_at (cycle_cache cs1 false c) (c_currentChecksum c) key = Some e) as He'.
      { rewrite cycle_segments by done. rewrite decide_True by tauto. done. }
      apply first_other_iff; [by apply wf_cycle_cache|]. rewrite Hc1.
      split_and!; [|done|done]. by apply elem_of_generations, (entry_at_segment _ _ _ _ He'). }
    unfold lookup_entry. apply after_false in Hl. rewrite Hl.
    rewrite decide_True by tauto. done.
  - unfold Get, lookupLocked. rewrite absent_lookup; [done|]. intros g.
    rewrite cycle_segments; [|done|by rewrite Hc1]. rewrite Hc1, !cycle_segments by done.
    repeat case_decide; try done. apply Honly. naive_solver.
  - unfold Get, lookupLocked. rewrite absent_lookup; [done|]. intros g.
    rewrite cycle_segments by done. case_decide; [|done]. apply Honly. naive_solver.
Qed.

Lemma cycle_keeps_one_previous_witness :
  let c := Set_ 0 "a" "1" [WithoutExpiry]
    (new_cache (NewCacheManager "host" None) "pages" (mkOptions None None false)) in
  (Get 5 "a" (cycle_cache "x" false c)).1 = ("1", true, false) /\
  (Get 5 "a" (cycle_cache "y" false (cycle_cache "x" false c))).1 = ("", false, true) /\
  (Get 5 "a" (cycle_cache "x" true c)).1 = ("", false, true).
Proof.
  intros c. apply (cycle_keeps_one_previous c 5 "a" (mkEntry (Some 0%nat) neverExpires "a" "1"));
    try done.
  - intros g Hg. unfold entry_at.
    replace (c_segments c !! g) with (None : option segment); [done|].
    symmetry. destruct (decide (g = "0")) as [->|]; [by destruct Hg|].
    match goal with |- ?x = _ => change x with
      (alter (insert "a" (mkEntry (Some 0%nat) neverExpires "a" "1")) "0"
         (<["0" := ∅]> (∅ : gmap string segment)) !! g) end.
    rewrite lookup_alter_ne, lookup_insert_ne by done. apply lookup_empty.
  - apply wf_setLocked, wf_new_cache.
Defined.

(** * What two generations do not promise *)

(** [GetAndDelete]'s contract names one winner per key, but it evicts the key
    from one generation only: a key written before and after a cycle is
    redeemed twice, the second time for its older value. *)
Lemma cycled_cache_two_winners :
  let c0 := new_cache (NewCacheManager "host" None) "codes" (mkOptions None None false) in
  let c := cache_run [OpSet 0 "k" "old" []; OpCycle "x" false; OpSet 1 "k" "new" []] c0 in
  (GetAndDelete 2 "k" c).1 = ("new", true, true) /\
  (GetAndDelete 2 "k" (GetAndDelete 2 "k" c).2).1 = ("old", true, false).
Proof. by vm_compute. Qed.

(** An expired entry of the current generation ends a lookup, but not a
    decrement, which goes on to the previous generation. *)
Lemma decrement_passes_expired_entry :
  let c0 := new_cache (NewCacheManager "host" None) "uses" (mkOptions None None false) in
  let c := cache_run [OpSet 0 "k" "5" []; OpCycle "x" false; OpSet 1 "k" "3" [WithTTL 1]] c0 in
  (Get 9 "k" c).1 = ("", false, true) /\
  (DecrementIfPositive 9 "k" c).1 = (4, true).
Proof. by vm_compute. Qed.

(** [Cycle] drops a generation without removing its elements from the recency
    list: they count towards the bound, and the eviction they cause takes the
    key of the same name from the live generation. *)
Lemma stale_element_evicts_live_entry :
  let c0 := new_cache (NewCacheManager "host" None) "pages" (mkOptions (Some 2) None false) in
  let c := cache_run [OpSet 0 "a" "1" []; OpCycle "x" true; OpSet 1 "a" "2" []] c0 in
  total_entries c = 1%nat /\
  total_entries (Set_ 2 "b" "3" [] c) = 1%nat /\
  (Get 2 "a" (Set_ 2 "b" "3" [] c)).1 = ("", false, true).
Proof. by vm_compute. Qed.
