(* ===== verification/Deps.v ===== *)
(** What the program relies on outside src/: one class per package, its
    operations and the documented behaviour the code relies on as laws. Each
    class has a concrete instance, kept out of resolution, for the witnesses. *)
From S2P Require Import Prelude GoStr.
From Stdlib Require Import Ascii String.

#[local] Open Scope string_scope.

(** * kdex.dev/crds: the subject kinds *)

Class SubjectKinds := {
  Known : string -> bool;
  SubjectKindClient : string;
  SubjectKindUser : string;
  Known_Client : Known SubjectKindClient = true;
  Known_User : Known SubjectKindUser = true;
  Known_empty : Known "" = false;
  Client_not_User : SubjectKindClient <> SubjectKindUser;
}.

Definition kindsExample : SubjectKinds := {|
  Known k := (String.eqb k "Client" || String.eqb k "User")%bool;
  SubjectKindClient := "Client";
  SubjectKindUser := "User";
  Known_Client := eq_refl;
  Known_User := eq_refl;
  Known_empty := eq_refl;
  Client_not_User H := proj1 (String.eqb_neq "Client" "User") eq_refl H;
|}.

Lemma kinds_nonempty `{SubjectKinds} : SubjectKindClient <> "" /\ SubjectKindUser <> "".
Proof.
  pose proof Known_empty. pose proof Known_Client. pose proof Known_User.
  split; intros Heq; congruence.
Qed.

(** * crypto/sha256 and encoding/hex *)

Definition is_hex (c : ascii) : bool :=
  let n := N_of_ascii c in
  (((48 <=? n) && (n <=? 57)) || ((97 <=? n) && (n <=? 102)))%N%bool.

(** [hex.EncodeToString(sha256.Sum256(s))]. *)
Class Sha256 := {
  sha256hex : string -> string;
  sha256hex_is_hex s : all_bytes is_hex (sha256hex s) = true;
}.

Definition hex_digit (n : N) : ascii := ascii_of_N (if (n <? 10)%N then 48 + n else 87 + n).

Fixpoint hexEncode (s : string) : string :=
  match s with
  | "" => ""
  | String c s =>
      let n := N_of_ascii c in
      String (hex_digit (n / 16)%N) (String (hex_digit (n mod 16)%N) (hexEncode s))
  end.

Lemma hexEncode_is_hex s : all_bytes is_hex (hexEncode s) = true.
Proof.
  induction s as [|c s IH]; [done|]. cbn [hexEncode all_bytes]. rewrite IH.
  by destruct c as [[] [] [] [] [] [] [] []].
Qed.

(** The encoding itself, in place of the hash. *)
Definition sha256Example : Sha256 := {| sha256hex := hexEncode; sha256hex_is_hex := hexEncode_is_hex |}.

(** * The RFC 3339 layout of package time *)

(** [t.UTC().Format(time.RFC3339Nano)] and [time.Parse(time.RFC3339Nano, s)];
    the round trip is claimed for the instants [UnixNano] can name from 1970
    on. *)
Class TimeLayout := {
  FormatNano : Z -> string;
  ParseNano : string -> option Z;
  Parse_Format t : 0 <= t <= maxDuration -> ParseNano (FormatNano t) = Some t;
}.

Lemma ParseInt_FormatInt_time t :
  0 <= t <= maxDuration -> ParseInt (FormatInt t) = Some t.
Proof.
  intros Ht. apply ParseInt_FormatInt. unfold in_int64, int64_min, int64_max.
  unfold maxDuration in Ht. apply andb_true_intro; split; apply Z.leb_le; lia.
Qed.

(** Decimal nanoseconds in place of the layout. *)
Definition timeExample : TimeLayout :=
  {| FormatNano := FormatInt; ParseNano := ParseInt; Parse_Format := ParseInt_FormatInt_time |}.

(** * aidanwoods.dev/go-paseto *)

(** A claim set on a token: [SetString], or [SetTime], which keeps whole
    seconds. *)
Inductive claim :=
| CString (s : string)
| CTime (t : Z).

Inductive rule :=
| IssuedBy (issuer : string)
| NotExpired
| ValidAt (t : Z)
| ForAudience (aud : string).

(** [ParseV4Public] is the signature check without the rules, which the parser
    applies afterwards; [NewParser_rules] are the rules [NewParser] starts
    with. A token's [Get] reads the claim's JSON text. *)
Class Paseto `{TimeLayout} := {
  PublicKey : Type;
  SecretKey : Type;
  Token : Type;
  Public : SecretKey -> PublicKey;
  ExportBytes : PublicKey -> string;
  NewSecretKeyFromBytes : string -> option SecretKey;
  V4Sign : SecretKey -> gmap string claim -> string -> string;
  UnsafeParseFooter : string -> option string;
  ParseV4Public : PublicKey -> string -> option Token;
  GetString : string -> Token -> option string;
  GetTime : string -> Token -> option Z;
  GetRaw : string -> Token -> option string;
  NewParser_rules : list rule;
  rule_passes : rule -> Z -> Token -> bool;
  (** Signing writes the claims, and only they are read back. *)
  V4Sign_header sk m f : HasPrefix (V4Sign sk m f) "v4.public." = true;
  V4Sign_footer sk m f : UnsafeParseFooter (V4Sign sk m f) = Some f;
  V4Sign_parse sk m f : exists tok,
    ParseV4Public (Public sk) (V4Sign sk m f) = Some tok /\
    (forall k s, m !! k = Some (CString s) ->
       GetString k tok = Some s /\ GetTime k tok = ParseNano s) /\
    (forall k t, m !! k = Some (CTime t) -> GetTime k tok = Some (of_unix (unix t)));
  (** A string claim is read raw as its JSON text; see [UnmarshalString]. *)
  UnmarshalString : string -> option string;
  GetRaw_string k tok s : GetString k tok = Some s -> s <> "" ->
    exists raw, GetRaw k tok = Some raw /\ raw <> "null" /\ UnmarshalString raw = Some s;
  (** The rules. *)
  rule_IssuedBy now iss tok :
    rule_passes (IssuedBy iss) now tok = true <-> GetString "iss" tok = Some iss;
  rule_NotExpired now tok :
    rule_passes NotExpired now tok = true <-> exists e, GetTime "exp" tok = Some e /\ now <= e;
  rule_ValidAt now t tok :
    rule_passes (ValidAt t) now tok = true <->
    exists iat nbf e, GetTime "iat" tok = Some iat /\ GetTime "nbf" tok = Some nbf /\
      GetTime "exp" tok = Some e /\ iat <= t /\ nbf <= t /\ t <= e;
  rule_ForAudience now aud tok :
    rule_passes (ForAudience aud) now tok = true <-> GetString "aud" tok = Some aud;
  NewParser_rules_ok : Forall (fun r => r = NotExpired) NewParser_rules;
}.

(** * encoding/json on the one-member object the footer is *)

Definition quote : string := String (ascii_of_nat 34) "".

(** [{"kid":"<kid>"}], as the mint concatenates it. *)
Definition kidFooter (kid : string) : string :=
  "{" ++ quote ++ "kid" ++ quote ++ ":" ++ quote ++ kid ++ quote ++ "}".

Class KidFooter := {
  UnmarshalKid : string -> option string;
  UnmarshalKid_footer kid : all_bytes is_hex kid = true -> UnmarshalKid (kidFooter kid) = Some kid;
}.

Lemma TrimSuffix_append s p : TrimSuffix (s ++ p) p = s.
Proof.
  assert (forall s p, String.length (s ++ p) = (String.length s + String.length p)%nat) as Hlen.
  { clear. induction s as [|c s IH]; intros p; simpl; [done|]. by rewrite IH. }
  induction s as [|c s IH].
  - destruct p; simpl; [done|]. by rewrite Ascii.eqb_refl, String.eqb_refl.
  - change (String c s ++ p) with (String c (s ++ p)). cbn [TrimSuffix].
    destruct (String.eqb (String c (s ++ p)) p) eqn:He; [|by rewrite IH].
    apply String.eqb_eq in He. apply (f_equal String.length) in He. simpl in He.
    rewrite Hlen in He. lia.
Qed.

Definition kidHead : string := "{" ++ quote ++ "kid" ++ quote ++ ":" ++ quote.
Definition kidTail : string := quote ++ "}".

Definition unmarshalKidExample (s : string) : option string :=
  rest ← CutPrefix s kidHead; Some (TrimSuffix rest kidTail).

Lemma unmarshalKidExample_ok kid : unmarshalKidExample (kidFooter kid) = Some kid.
Proof.
  change (kidFooter kid) with (kidHead ++ (kid ++ kidTail)). unfold unmarshalKidExample.
  rewrite CutPrefix_append. cbn. by rewrite TrimSuffix_append.
Qed.

Definition kidFooterExample : KidFooter :=
  {| UnmarshalKid := unmarshalKidExample; UnmarshalKid_footer kid _ := unmarshalKidExample_ok kid |}.

(** ** A concrete token format, for the witnesses *)

#[global] Instance claim_eq_dec : EqDecision claim.
Proof. solve_decision. Defined.

#[global] Program Instance claim_countable : Countable claim :=
  inj_countable' (fun c => match c with CString s => inl s | CTime t => inr t end)
    (fun x => match x with inl s => CString s | inr t => CTime t end) _.
Next Obligation. by intros []. Qed.

Fixpoint pos_string (p : positive) : string :=
  match p with
  | xH => ""
  | xO p => String "0" (pos_string p)
  | xI p => String "1" (pos_string p)
  end.

Fixpoint string_pos (s : string) : positive :=
  match s with
  | "" => xH
  | String c s => if Ascii.eqb c "0" then xO (string_pos s) else xI (string_pos s)
  end.

Lemma string_pos_string p : string_pos (pos_string p) = p.
Proof. by induction p as [p IH|p IH|]; simpl; rewrite ?IH. Qed.

Section PasetoExample.
Context `{TimeLayout}.

Definition ex_sign (sk : nat) (m : gmap string claim) (f : string) : string :=
  "v4.public." ++ pos_string (encode (sk, m, f)).

Definition ex_open (s : string) : option (nat * gmap string claim * string) :=
  rest ← CutPrefix s "v4.public."; decode (string_pos rest).

Definition ex_string (k : string) (tok : gmap string claim) : option string :=
  match tok !! k with Some (CString s) => Some s | _ => None end.

Definition ex_time (k : string) (tok : gmap string claim) : option Z :=
  match tok !! k with
  | Some (CString s) => ParseNano s
  | Some (CTime t) => Some (of_unix (unix t))
  | None => None
  end.

Definition ex_raw (k : string) (tok : gmap string claim) : option string :=
  match tok !! k with
  | Some (CString s) => Some (quote ++ s ++ quote)
  | Some (CTime _) => Some "time"
  | None => None
  end.

Definition ex_unmarshal (raw : string) : option string :=
  rest ← CutPrefix raw quote; Some (TrimSuffix rest quote).

Definition ex_rule (r : rule) (now : Z) (tok : gmap string claim) : bool :=
  match r with
  | IssuedBy iss => bool_decide (ex_string "iss" tok = Some iss)
  | NotExpired => match ex_time "exp" tok with Some e => now <=? e | None => false end
  | ValidAt t =>
      match ex_time "iat" tok, ex_time "nbf" tok, ex_time "exp" tok with
      | Some iat, Some nbf, Some e => (iat <=? t) && (nbf <=? t) && (t <=? e)
      | _, _, _ => false
      end
  | ForAudience aud => bool_decide (ex_string "aud" tok = Some aud)
  end%Z%bool.

Lemma ex_open_sign sk m f : ex_open (ex_sign sk m f) = Some (sk, m, f).
Proof.
  unfold ex_open, ex_sign. rewrite CutPrefix_append. cbn [mbind option_bind].
  by rewrite string_pos_string, decode_encode.
Qed.

Lemma ex_unmarshal_quoted s : ex_unmarshal (quote ++ s ++ quote) = Some s.
Proof.
  unfold ex_unmarshal. rewrite CutPrefix_append. cbn [mbind option_bind].
  by rewrite TrimSuffix_append.
Qed.

Lemma ex_rule_ValidAt t tok :
  ex_rule (ValidAt t) t tok = true <->
  exists iat nbf e, ex_time "iat" tok = Some iat /\ ex_time "nbf" tok = Some nbf /\
    ex_time "exp" tok = Some e /\ iat <= t /\ nbf <= t /\ t <= e.
Proof.
  simpl. destruct (ex_time "iat" tok) as [iat|], (ex_time "nbf" tok) as [nbf|],
    (ex_time "exp" tok) as [e|]; (split; [|intros (?&?&?&?&?&?&?); simplify_eq]); try done.
  - intros Hb. bool_to_prop. exists iat, nbf, e. split_and!; done.
  - rewrite !andb_true_iff, !Z.leb_le. lia.
Qed.

Program Definition pasetoExample : Paseto := {|
  PublicKey := nat; SecretKey := nat; Token := gmap string claim;
  Public sk := sk; ExportBytes pk := FormatInt (Z.of_nat pk);
  NewSecretKeyFromBytes s := Some (String.length s);
  V4Sign := ex_sign;
  UnsafeParseFooter s := x ← ex_open s; Some x.2;
  ParseV4Public pk s := x ← ex_open s; if decide (x.1.1 = pk) then Some x.1.2 else None;
  GetString := ex_string; GetTime := ex_time; GetRaw := ex_raw;
  NewParser_rules := [NotExpired]; rule_passes := ex_rule;
  UnmarshalString := ex_unmarshal;
|}.
Next Obligation. intros sk m f. apply HasPrefix_append. Qed.
Next Obligation. intros sk m f. simpl. by rewrite ex_open_sign. Qed.
Next Obligation.
  intros sk m f. simpl. rewrite ex_open_sign. simpl. rewrite decide_True by done.
  exists m. split_and!; [done| |]; unfold ex_string, ex_time; by intros k ? ->.
Qed.
Next Obligation.
  intros k tok s. unfold ex_string, ex_raw. destruct (tok !! k) as [[x|t]|]; try done.
  intros [= ->] _. eexists. split_and!; [done|by destruct s|apply ex_unmarshal_quoted].
Qed.
Next Obligation. intros now iss tok. apply bool_decide_eq_true. Qed.
Next Obligation.
  intros now tok. simpl. destruct (ex_time "exp" tok) as [e|].
  - rewrite Z.leb_le. split; [by eauto|]. by intros (? & [= <-] & ?).
  - split; [done|]. by intros (? & ? & _).
Qed.
Next Obligation.
  intros now t tok. rewrite <- ex_rule_ValidAt. reflexivity.
Qed.
Next Obligation. intros now aud tok. apply bool_decide_eq_true. Qed.
Next Obligation. by repeat constructor. Qed.
End PasetoExample.

(** * encoding/json, for one type *)

(** [json.Marshal] and [json.Unmarshal]. [Unmarshal] answers [None] for an error. The round trip is claimed
    for the [clean] values: a string that is not UTF-8 is rewritten by the
    encoder. *)
Class JSON (A : Type) := {
  Marshal : A -> string;
  Unmarshal : string -> option A;
  clean : A -> Prop;
  Unmarshal_Marshal a : clean a -> Unmarshal (Marshal a) = Some a;
}.

(** Any countable type has such a codec. *)
Program Definition jsonExample (A : Type) `{Countable A} : JSON A := {|
  Marshal a := pos_string (encode a);
  Unmarshal s := decode (string_pos s);
  clean _ := True;
|}.
Next Obligation. intros A ? ? a _. cbn beta. by rewrite string_pos_string, decode_encode. Qed.
