(* ===== verification/Claims.v ===== *)
(** Claims: the values a [jwt.MapClaims] holds, the auth context read from a
    request's credential (src/internal/auth/context.go), and the accessors of
    golang-jwt the code goes through. *)
From S2P Require Import Prelude GoStr Deps.
From Stdlib Require Import Ascii.

#[local] Open Scope string_scope.

(** * Values *)

(** A Go value of type [any], as far as the code tells values apart:
    [[]string] and [[]any] are different dynamic types. A JSON number is kept
    as the whole number of its seconds, the one use made of numbers. *)
Inductive value :=
| VNull
| VBool (b : bool)
| VNum (n : Z)
| VStr (s : string)
| VStrs (l : list string)
| VList (l : list value)
| VObj (m : list (string * value)).

Abbreviation claims := (gmap string value).

(** [v, _ := m[k].(string)]. *)
Definition str_claim (m : claims) (k : string) : string :=
  match m !! k with Some (VStr s) => s | _ => "" end.

(** [b, _ := m[k].(bool)]. *)
Definition bool_claim (m : claims) (k : string) : bool :=
  match m !! k with Some (VBool b) => b | _ => false end.

(** * golang-jwt's accessors *)

Class JwtClaims := {
  jwtGetSubject : claims -> result unit string;
  jwtGetIssuedAt : claims -> result unit (option Z);
  jwtGetSubject_absent m : m !! "sub" = None -> jwtGetSubject m = Ok "";
  jwtGetSubject_string m s : m !! "sub" = Some (VStr s) -> jwtGetSubject m = Ok s;
  jwtGetSubject_Ok m s : jwtGetSubject m = Ok s -> s <> "" -> m !! "sub" = Some (VStr s);
  jwtGetIssuedAt_absent m : m !! "iat" = None -> jwtGetIssuedAt m = Ok None;
  jwtGetIssuedAt_num m n : m !! "iat" = Some (VNum n) -> n <> 0 -> jwtGetIssuedAt m = Ok (Some n);
}.

Definition ex_subject (m : claims) : result unit string :=
  match m !! "sub" with None => Ok "" | Some (VStr s) => Ok s | _ => Err () end.

Definition ex_issuedAt (m : claims) : result unit (option Z) :=
  match m !! "iat" with
  | None => Ok None
  | Some (VNum n) => if (n =? 0)%Z then Ok None else Ok (Some n)
  | _ => Err ()
  end.

Program Definition jwtExample : JwtClaims :=
  {| jwtGetSubject := ex_subject; jwtGetIssuedAt := ex_issuedAt |}.
Next Obligation. unfold ex_subject. by intros m ->. Qed.
Next Obligation. unfold ex_subject. by intros m s ->. Qed.
Next Obligation.
  unfold ex_subject. intros m s H Hne. destruct (m !! "sub") as [[]|]; simplify_eq; done.
Qed.
Next Obligation. unfold ex_issuedAt. by intros m ->. Qed.
Next Obligation.
  unfold ex_issuedAt. intros m n -> Hn. by rewrite (proj2 (Z.eqb_neq n 0)).
Qed.

(** * The auth context *)

Abbreviation AuthContext := claims.

Definition ClaimIssuedAt : string := "iat".
Definition ClaimSubjectKind : string := "knd".
Definition PATBridgeClaim : string := "pat_bridge".
Definition GRANT_TYPE_CLIENT_CREDENTIALS : string := "client_credentials".

Section Accessors.
Variable ac : AuthContext.

(** The string elements of a [[]any], failing on any other element. *)
Fixpoint any_strings (l : list value) : result unit (list string) :=
  match l with
  | [] => Ok []
  | VStr s :: l => cs ← any_strings l; Ok (TrimSpace s :: cs)
  | _ :: _ => Err ()
  end.

Definition parseToStringArray (key : string) : result unit (list string) :=
  match ac !! key with
  | Some (VStr s) => Ok [TrimSpace s]
  | Some (VStrs l) => Ok (TrimSpace <$> l)
  | Some (VList l) => any_strings l
  | _ => Ok []
  end.

Definition GetEntitlements : result unit (list string) := parseToStringArray "entitlements".
Definition GetRoles : result unit (list string) := parseToStringArray "roles".

Definition GetScopes : result unit (list string) :=
  match ac !! "scope" with
  | Some (VStr s) => Ok (TrimSpace <$> Split " "%char s)
  | Some (VStrs l) => Ok (TrimSpace <$> l)
  | Some (VList l) => any_strings l
  | _ => Ok []
  end.

Definition IsPATBridge : bool := bool_claim ac PATBridgeClaim.

(** [ok] is the presence of the option. *)
Definition ClientCredentialsSubject : option string :=
  if negb (String.eqb (str_claim ac "grant_type") GRANT_TYPE_CLIENT_CREDENTIALS) then None
  else let sub := str_claim ac "sub" in if String.eqb sub "" then None else Some sub.

Definition GetAuthMethod : result unit string :=
  match ac !! "auth_method" with Some (VStr s) => Ok s | _ => Err () end.
End Accessors.

(** [strs, _ := f()]: the slice a failed accessor returns is nil. *)
Definition strings_or_nil (r : result unit (list string)) : list string :=
  match r with Ok l => l | Err _ => [] end.

(** A single scope string names as many scopes as it has separators, plus one. *)
Lemma GetScopes_string ac s :
  ac !! "scope" = Some (VStr s) -> GetScopes ac = Ok (TrimSpace <$> Split " "%char s).
Proof. unfold GetScopes. by intros ->. Qed.

(** [parseToStringArray] reads a string claim as one element, whatever spaces
    it holds: its comment promises a space-separated list. *)
Lemma parseToStringArray_not_split :
  GetRoles {[ "roles" := VStr "admin editor" ]} = Ok ["admin editor"] /\
  GetScopes {[ "scope" := VStr "admin editor" ]} = Ok ["admin"; "editor"].
Proof. by vm_compute. Qed.

(** * golang-jwt's parser *)

(** The parser options the code passes, and what a claim set satisfies. *)
Inductive parser_option :=
| WithIssuer (iss : string)
| WithAudience (auds : list string)
| WithExpirationRequired.

Inductive jwt_error := ErrTokenExpired | ErrTokenInvalid.

(** The audiences a claim names; the code reads the error as none. *)
Definition audiences_of (m : claims) : list string :=
  match m !! "aud" with
  | Some (VStr a) => [a]
  | Some (VStrs l) => l
  | Some (VList l) => default [] (mapM (fun v => match v with VStr s => Some s | _ => None end) l)
  | _ => []
  end.

Definition option_holds (o : parser_option) (m : claims) : Prop :=
  match o with
  | WithIssuer iss => m !! "iss" = Some (VStr iss)
  | WithAudience auds => exists a, a ∈ auds /\ a ∈ audiences_of m
  | WithExpirationRequired => exists n, m !! "exp" = Some (VNum n) /\ n <> 0
  end.

(** A time claim of whole seconds; zero reads as absent. *)
Definition in_force (now : Z) (m : claims) : Prop :=
  (forall n, m !! "exp" = Some (VNum n) -> n <> 0 -> now < of_unix n) /\
  (forall n, m !! "nbf" = Some (VNum n) -> n <> 0 -> of_unix n <= now).

(** [jwt_signed key raw m]: the token's signature verifies under the public key
    and its payload decodes to the claims. *)
Class JwtParser := {
  jwt_signed : string -> string -> claims -> Prop;
  ParseWithClaims : string -> list parser_option -> Z -> string -> result jwt_error claims;
  jwtGetAudience : claims -> result unit (list string);
  jwtGetExpirationTime : claims -> result unit (option Z);
  ParseWithClaims_Ok key opts now raw m :
    ParseWithClaims key opts now raw = Ok m ->
    jwt_signed key raw m /\ in_force now m /\ Forall (fun o => option_holds o m) opts;
  jwtGetAudience_Ok m l : jwtGetAudience m = Ok l -> l = audiences_of m;
  jwtGetExpirationTime_num m n :
    m !! "exp" = Some (VNum n) -> n <> 0 -> jwtGetExpirationTime m = Ok (Some (of_unix n));
}.

(** A parser that reads the text of the claims it is given for each token. *)
Section JwtExample.
Variable tokens : string -> string -> option claims.

Definition option_holdsb (o : parser_option) (m : claims) : bool :=
  match o with
  | WithIssuer iss => String.eqb (str_claim m "iss") iss && found (m !! "iss")
  | WithAudience auds => bool_decide (Exists (fun a => a ∈ audiences_of m) auds)
  | WithExpirationRequired =>
      match m !! "exp" with Some (VNum n) => negb (n =? 0)%Z | _ => false end
  end%bool.

Definition in_forceb (now : Z) (m : claims) : bool :=
  (match m !! "exp" with Some (VNum n) => (n =? 0)%Z || (now <? of_unix n)%Z | _ => true end &&
   match m !! "nbf" with Some (VNum n) => (n =? 0)%Z || (of_unix n <=? now)%Z | _ => true end)%bool.

Definition ex_parse (key : string) (opts : list parser_option) (now : Z) (raw : string)
    : result jwt_error claims :=
  match tokens key raw with
  | None => Err ErrTokenInvalid
  | Some m =>
      if negb (in_forceb now m) then Err ErrTokenExpired
      else if forallb (fun o => option_holdsb o m) opts then Ok m else Err ErrTokenInvalid
  end.

Lemma option_holdsb_spec o m :
  (o = WithIssuer "" -> False) -> option_holdsb o m = true -> option_holds o m.
Proof.
  intros Hne. destruct o as [iss|auds|]; simpl.
  - rewrite andb_true_iff, String.eqb_eq. unfold str_claim. intros [He Hf].
    destruct (m !! "iss") as [[]|]; simplify_eq/=; try done; exfalso; apply Hne; by subst.
  - rewrite bool_decide_eq_true, Exists_exists. done.
  - destruct (m !! "exp") as [[]|]; try done. rewrite negb_true_iff, Z.eqb_neq. eauto.
Qed.

Lemma in_forceb_spec now m : in_forceb now m = true -> in_force now m.
Proof.
  unfold in_forceb, in_force. rewrite andb_true_iff. intros [He Hn]. split; intros n Hk Hz.
  - rewrite Hk in He. apply orb_true_iff in He as [?|?]; bool_to_prop; lia.
  - rewrite Hk in Hn. apply orb_true_iff in Hn as [?|?]; bool_to_prop; lia.
Qed.

Definition empty_issuer (o : parser_option) : bool :=
  match o with WithIssuer iss => String.eqb iss "" | _ => false end.

Definition ex_ParseWithClaims (key : string) (opts : list parser_option) (now : Z) (raw : string)
    : result jwt_error claims :=
  if existsb empty_issuer opts then Err ErrTokenInvalid else ex_parse key opts now raw.

Lemma ex_ParseWithClaims_Ok key opts now raw m :
  ex_ParseWithClaims key opts now raw = Ok m ->
  tokens key raw = Some m /\ in_force now m /\ Forall (fun o => option_holds o m) opts.
Proof.
  unfold ex_ParseWithClaims, ex_parse. destruct (existsb empty_issuer opts) eqn:Hex; [done|].
  destruct (tokens key raw) as [m'|] eqn:Ht; [|done].
  destruct (in_forceb now m') eqn:Hf; [|done]. simpl.
  destruct (forallb _ opts) eqn:Ho; [|done]. intros [= <-].
  split_and!; [done|by apply in_forceb_spec|]. rewrite Forall_forall. intros o Hin.
  apply list_elem_of_In in Hin. apply option_holdsb_spec.
  - intros ->. apply not_true_iff_false in Hex. apply Hex, existsb_exists. by eexists.
  - rewrite forallb_forall in Ho. by apply Ho.
Qed.
End JwtExample.

Definition ex_expiration (m : claims) : result unit (option Z) :=
  match m !! "exp" with
  | None => Ok None
  | Some (VNum n) => if (n =? 0)%Z then Ok None else Ok (Some (of_unix n))
  | _ => Err ()
  end.

Lemma ex_expiration_num m n :
  m !! "exp" = Some (VNum n) -> n <> 0 -> ex_expiration m = Ok (Some (of_unix n)).
Proof. unfold ex_expiration. intros -> Hn. by rewrite (proj2 (Z.eqb_neq n 0)). Qed.

Definition jwtParserExample (tokens : string -> string -> option claims) : JwtParser := {|
  jwt_signed key raw m := tokens key raw = Some m;
  ParseWithClaims := ex_ParseWithClaims tokens;
  jwtGetAudience m := Ok (audiences_of m);
  jwtGetExpirationTime := ex_expiration;
  jwtGetExpirationTime_num := ex_expiration_num;
  ParseWithClaims_Ok := ex_ParseWithClaims_Ok tokens;
  jwtGetAudience_Ok m l H := match H in _ = r return match r with Ok l => l = audiences_of m | _ => True end
    with eq_refl => eq_refl end;
|}.

(** * encoding/json on a claim set *)

(** What a claim reads back as: a [[]string] becomes a [[]any]. *)
Fixpoint json_value (v : value) : value :=
  match v with
  | VStrs l => VList (VStr <$> l)
  | VList l => VList (map json_value l)
  | VObj m => VObj (map (fun x => (x.1, json_value x.2)) m)
  | v => v
  end.

Class ClaimsJSON := {
  MarshalClaims : claims -> string;
  UnmarshalClaims : string -> option claims;
  claims_clean : claims -> Prop;
  UnmarshalClaims_Marshal m :
    claims_clean m -> UnmarshalClaims (MarshalClaims m) = Some (json_value <$> m);
}.

(** A codec of the claims that are strings or lists of strings. *)
Section ClaimsJSONExample.
Definition flat_value (v : value) : option (string + list string) :=
  match v with VStr s => Some (inl s) | VStrs l => Some (inr l) | _ => None end.

Definition of_flat (x : string + list string) : value :=
  match x with inl s => VStr s | inr l => VList (VStr <$> l) end.

Definition flat_claims : Type := list (string * (string + list string)).

Definition claims_of_flat (l : flat_claims) : claims := of_flat <$> list_to_map l.

Program Definition claimsJSONExample : ClaimsJSON := {|
  MarshalClaims m := pos_string (encode (map_to_list (omap flat_value m) : flat_claims));
  UnmarshalClaims s := claims_of_flat <$> (decode (string_pos s) : option flat_claims);
  claims_clean m := map_Forall (fun _ v => is_Some (flat_value v)) m;
|}.
Next Obligation.
  intros m Hm. cbn beta. rewrite string_pos_string, decode_encode. simpl.
  unfold claims_of_flat. rewrite list_to_map_to_list. f_equal. apply map_eq. intros k.
  rewrite !lookup_fmap, lookup_omap. specialize (Hm k). destruct (m !! k) as [v|]; [|done].
  destruct (Hm v eq_refl) as [x Hx]. cbn [mbind option_bind]. rewrite Hx.
  by destruct v; simplify_eq/=.
Qed.
End ClaimsJSONExample.
