(* ===== verification/ApiToken.v ===== *)
(** API tokens (src/internal/auth/apitoken/apitoken.go): signing keys and
    their rotation, the brand prefix on the wire, minting, validation, and the
    revocation store with its legacy class. *)
From S2P Require Import Prelude GoStr Store MemCache Deps Claims.
From Stdlib Require Import Ascii.

#[local] Open Scope string_scope.

Definition pasetoV4PublicHeader : string := "v4.public.".
Definition RevocationHorizon : Z := 10 * 365 * 24 * hour.
Definition RevocationClass : string := "apitoken-revocation-v2".
Definition LegacyRevocationClass : string := "apitoken-revocation".
Definition subjectRevocationPrefix : string := "sub:".

(** [RevocationCaches]: the options the two classes are created with. *)
Definition RevocationCaches (m : InMemoryCacheManager) : InMemoryCacheManager :=
  GetCache LegacyRevocationClass (mkOptions None None false)
    (GetCache RevocationClass (mkOptions (Some 0) None true) m).

Inductive api_error :=
| ErrTTLExceedsMax
| ErrUnknownSubjectKind
| ErrSubjectlessCredential
| ErrCacheNotConfigured
| ErrParse
| ErrKeyNotFound (kid : string)
| ErrRule (r : rule)
| ErrClaim (name : string)
| ErrRevocationStatus
| ErrTokenRevoked
| ErrPrivateKey
| ErrPublicKeyMismatch
| ErrNilDereference.

Record TokenData := mkTokenData {
  Action : string;
  Audience : string;
  Expiration : Z;
  IssuedAt : Z;
  Issuer : string;
  JTI : string;
  KID : string;
  NotBefore : Z;
  Scope_ : string;
  Subject : string;
  SubjectKind : string;
}.

(** * The wire prefix *)

Section Wire.
Variable tokenPrefix : string.

Definition wrap (signed : string) : string :=
  if String.eqb tokenPrefix "" then signed
  else tokenPrefix ++ TrimPrefix signed pasetoV4PublicHeader.

Definition unwrap (signed : string) : string :=
  if (String.eqb tokenPrefix "" || HasPrefix signed pasetoV4PublicHeader)%bool then signed
  else match CutPrefix signed tokenPrefix with
       | Some rest => pasetoV4PublicHeader ++ rest
       | None => signed
       end.

Lemma unwrap_wrap_aux payload :
  HasPrefix (tokenPrefix ++ payload) pasetoV4PublicHeader = false \/ tokenPrefix = "" ->
  unwrap (wrap (pasetoV4PublicHeader ++ payload)) = pasetoV4PublicHeader ++ payload.
Proof.
  intros H. unfold wrap, unwrap. destruct (String.eqb tokenPrefix "") eqn:Hp.
  - done.
  - rewrite TrimPrefix_append. destruct H as [->| ->]; [|by rewrite String.eqb_refl in Hp].
    cbn [orb]. by rewrite CutPrefix_append.
Qed.
End Wire.

(** * Keys *)

Section Keys.
Context `{Paseto} `{!Sha256}.

Record KeyPair := mkKeyPair {
  ActiveKey : bool;
  KeyId : string;
  kp_PublicKey : PublicKey;
  kp_SecretKey : SecretKey;
}.

(** [KeyPairs.ActiveKey]. *)
Fixpoint first_active (p : list KeyPair) : option KeyPair :=
  match p with
  | [] => None
  | kp :: p => if ActiveKey kp then Some kp else first_active p
  end.

Definition KeyPairs_ActiveKey (p : list KeyPair) : option KeyPair :=
  match p with [kp] => Some kp | _ => first_active p end.

Fixpoint GetKey (kid : string) (p : list KeyPair) : option KeyPair :=
  match p with
  | [] => None
  | kp :: p => if String.eqb (KeyId kp) kid then Some kp else GetKey kid p
  end.

Definition GenerateKID (pubBytes : string) : string := String.substring 0 16 (sha256hex pubBytes).

(** A Kubernetes Secret, as the loader reads it. *)
Record Secret := mkSecret {
  Annotations : gmap string string;
  CreationTimestamp : Z;
  Data : gmap string string;
}.

Definition set_active (b : bool) (kp : KeyPair) : KeyPair :=
  mkKeyPair b (KeyId kp) (kp_PublicKey kp) (kp_SecretKey kp).

Definition LoadKeysFromSecret (secret : Secret) (isActive : bool) : result api_error KeyPair :=
  match Data secret !! "private-key" with
  | None => Err ErrPrivateKey
  | Some privateKeyBytes =>
      if String.eqb privateKeyBytes "" then Err ErrPrivateKey else
      match NewSecretKeyFromBytes privateKeyBytes with
      | None => Err ErrPrivateKey
      | Some secretKey =>
          let publicKey := Public secretKey in
          let exportedBytes := ExportBytes publicKey in
          match Data secret !! "public-key" with
          | Some publicKeyBytes =>
              if String.eqb exportedBytes publicKeyBytes
              then Ok (mkKeyPair isActive (GenerateKID exportedBytes) publicKey secretKey)
              else Err ErrPublicKeyMismatch
          | None => Ok (mkKeyPair isActive (GenerateKID exportedBytes) publicKey secretKey)
          end
      end
  end.

(** [pairs[i].ActiveKey = b]. *)
Definition set_active_at (i : nat) (b : bool) (p : list KeyPair) : list KeyPair :=
  alter (set_active b) i p.

Definition annotated (key val : string) (s : Secret) : bool :=
  match Annotations s !! key with Some v => String.eqb v val | None => false end.

(** The loader's loop: [pairs] are the keys of the secrets before. *)
Fixpoint load_pairs (secrets : list Secret) (pairs : list KeyPair) : result api_error (list KeyPair) :=
  match secrets with
  | [] => Ok pairs
  | secret :: secrets =>
      kp ← LoadKeysFromSecret secret (annotated "kdex.dev/active-key" "true" secret);
      let i := length pairs in
      let pairs := (pairs ++ [kp])%list in
      load_pairs secrets
        (if (ActiveKey kp && (0 <? i)%nat)%bool then set_active_at (i - 1) false pairs else pairs)
  end%list.

(** The two fallbacks after the loop. *)
Definition ensure_active (pairs : list KeyPair) : list KeyPair :=
  let pairs :=
    if ((1 <? length pairs)%nat && negb (found (KeyPairs_ActiveKey pairs)))%bool
    then set_active_at (length pairs - 1) true pairs else pairs in
  if ((length pairs =? 1)%nat && negb (found (KeyPairs_ActiveKey pairs)))%bool
  then set_active_at 0 true pairs else pairs.
End Keys.
Arguments KeyPair {_ _}.

(** * The manager *)

Record TokenManager {St} `{Paseto} := mkTokenManager {
  tm_activeKey : KeyPair;
  tm_issuer : string;
  tm_keyPairs : list KeyPair;
  tm_maxTTL : Z;
  tm_revocationCache : option St;
  tm_legacyRevocationCache : option St;
  tm_tokenPrefix : string;
}.
Arguments TokenManager St {_ _}.

Section Manager.
Context {St} `{CacheOps St} `{Paseto} `{!Sha256} `{!SubjectKinds} `{!KidFooter}.

Implicit Types tm : TokenManager St.

(** [*keyPairs.ActiveKey()] panics when there is none. *)
Definition NewTokenManager (issuer : string) (keyPairs : list KeyPair) (revocationCache : option St)
    : result api_error (TokenManager St) :=
  match KeyPairs_ActiveKey keyPairs with
  | None => Err ErrNilDereference
  | Some k => Ok (mkTokenManager _ _ _ k issuer keyPairs 0 revocationCache None "")
  end.

(** [slices.SortFunc] by creation time, oldest first. It is not stable:
    [loadSorted] is the loader after the sort, whatever order equal times
    are left in. *)
Definition older (a b : Secret) : Prop := CreationTimestamp a <= CreationTimestamp b.

#[global] Instance older_dec a b : Decision (older a b).
Proof. unfold older. apply _. Defined.

Definition loadSorted (issuer : string) (filtered : list Secret) (revocationCache : option St)
    (devmode : option (list KeyPair)) : result api_error (option (TokenManager St)) :=
  pairs ← load_pairs filtered [];
  match filtered with
  | _ :: _ => tm ← NewTokenManager issuer (ensure_active pairs) revocationCache; Ok (Some tm)
  | [] => match devmode with
          | Some keys => tm ← NewTokenManager issuer keys revocationCache; Ok (Some tm)
          | None => Ok None
          end
  end.

(** [devmode] is [Some (GenerateDevmodeKeyPair())] in development mode. *)
Definition APITokenManagerLoader (issuer : string) (secrets : list Secret)
    (revocationCache : option St) (devmode : option (list KeyPair))
    : result api_error (option (TokenManager St)) :=
  let filtered := filter (fun s => annotated "kdex.dev/secret-type" "api-key" s = true) secrets in
  if (negb (found devmode) && (length filtered =? 0)%nat)%bool then Ok None else
  loadSorted issuer (merge_sort older filtered) revocationCache devmode.

Definition WithTokenPrefix (prefix : string) tm : TokenManager St :=
  mkTokenManager _ _ _ (tm_activeKey tm) (tm_issuer tm) (tm_keyPairs tm) (tm_maxTTL tm)
    (tm_revocationCache tm) (tm_legacyRevocationCache tm) prefix.

Definition WithMaxTTL (maxTTL : Z) tm : TokenManager St :=
  mkTokenManager _ _ _ (tm_activeKey tm) (tm_issuer tm) (tm_keyPairs tm) maxTTL
    (tm_revocationCache tm) (tm_legacyRevocationCache tm) (tm_tokenPrefix tm).

Definition WithLegacyRevocationCache (legacy : option St) tm : TokenManager St :=
  mkTokenManager _ _ _ (tm_activeKey tm) (tm_issuer tm) (tm_keyPairs tm) (tm_maxTTL tm)
    (tm_revocationCache tm) legacy (tm_tokenPrefix tm).

Definition with_stores (s l : option St) tm : TokenManager St :=
  mkTokenManager _ _ _ (tm_activeKey tm) (tm_issuer tm) (tm_keyPairs tm) (tm_maxTTL tm)
    s l (tm_tokenPrefix tm).

Definition RevocationTTL tm : Z := Z.max RevocationHorizon (tm_maxTTL tm).

Definition CapTTL tm (ttl : Z) : Z :=
  if ((0 <? tm_maxTTL tm) && (tm_maxTTL tm <? ttl))%Z%bool then tm_maxTTL tm else ttl.

Definition GenerateJTI (aud sub act : string) : string :=
  sha256hex (aud ++ ":" ++ sub ++ ":" ++ act).

Definition subjectRevocationKey (sub : string) : string :=
  subjectRevocationPrefix ++ sha256hex sub.

(** * Recording revocations *)

(** The closure [recordRevocation] passes to [Update]. *)
Definition revocation_update (now : Z) : UpdateFunc := fun stored found =>
  match ParseNano stored with
  | Some at_ => if (found && after at_ now)%bool then (stored, true) else (FormatNano now, true)
  | None => (FormatNano now, true)
  end.

Definition recordRevocation (now : Z) tm (key : string) (ttl : Z) (store : St) : St :=
  (cUpdate now key (revocation_update now) [WithTTL (Z.max ttl (RevocationTTL tm))] store).2.

Definition revoke (now : Z) (jti : string) (ttl : Z) tm : TokenManager St :=
  with_stores (recordRevocation now tm jti ttl <$> tm_revocationCache tm)
    (recordRevocation now tm jti ttl <$> tm_legacyRevocationCache tm) tm.

Definition RevokeByMetadata (now : Z) (aud sub act : string) (ttl : Z) tm
    : result api_error (TokenManager St) :=
  match tm_revocationCache tm with
  | None => Err ErrCacheNotConfigured
  | Some _ => Ok (revoke now (GenerateJTI aud sub act) ttl tm)
  end.

Definition RevokeSubject (now : Z) (sub : string) (ttl : Z) tm
    : result api_error (TokenManager St) :=
  match tm_revocationCache tm with
  | None => Err ErrCacheNotConfigured
  | Some s => Ok (with_stores (Some (recordRevocation now tm (subjectRevocationKey sub) ttl s))
                    (tm_legacyRevocationCache tm) tm)
  end.

(** * Reading revocations *)

Definition revokedNoEarlierThan (revokedAt : string) (issuedAt : Z) : bool :=
  match ParseNano revokedAt with
  | None => true
  | Some at_ => negb (after issuedAt at_)
  end.

Definition issuedNoLaterThan (token : Token) (revokedAt : string) : bool :=
  match GetTime "iat" token with
  | None => true
  | Some iat => revokedNoEarlierThan revokedAt iat
  end.

(** [up i] is whether the [i]th lookup of a check reaches its store. *)
Definition SubjectRevokedSince (up : nat -> bool) (now : Z) (sub : string) (issuedAt : Z) tm
    : result api_error bool :=
  match tm_revocationCache tm with
  | None => Ok false
  | Some s =>
      if up 0%nat then
        match peek now (subjectRevocationKey sub) s with
        | Some revokedAt => Ok (revokedNoEarlierThan revokedAt issuedAt)
        | None => Ok false
        end
      else Err ErrRevocationStatus
  end.

Definition lookup_covers (now : Z) (token : Token) (l : St * string) : bool :=
  match peek now l.2 l.1 with
  | Some revokedAt => issuedNoLaterThan token revokedAt
  | None => false
  end.

(** [store] is the (non-nil) revocation store. *)
Definition revoked (up : nat -> bool) (now : Z) (token : Token) (store : St) tm
    : result api_error bool :=
  match GetString "jti" token, GetString "sub" token with
  | None, _ => Err (ErrClaim "jti")
  | _, None => Err (ErrClaim "sub")
  | Some jti, Some sub =>
      let lookups :=
        ([(store, jti); (store, subjectRevocationKey sub)] ++
         match tm_legacyRevocationCache tm with Some legacy => [(legacy, jti)] | None => [] end)%list in
      if forallb up (seq 0 (length lookups))
      then Ok (existsb (lookup_covers now token) lookups)
      else Err ErrRevocationStatus
  end.

(** * Adopting the legacy class *)

Definition latestRevocation (a b : string) : string :=
  match ParseNano a, ParseNano b with
  | None, None => a
  | None, Some _ => b
  | Some _, None => a
  | Some at_, Some bt => if after bt at_ then b else a
  end.

(** The callback of [ScanGenerations]. *)
Definition strand (stranded : gmap string (string * Z)) (e : Entry) : gmap string (string * Z) :=
  <[sc_Key e :=
      match stranded !! sc_Key e with
      | Some (v, ttl) => (latestRevocation v (sc_Value e), Z.max ttl (sc_TTL e))
      | None => (sc_Value e, sc_TTL e)
      end]> stranded.

Definition adopt_update (value : string) : UpdateFunc := fun current found =>
  if found then let merged := latestRevocation current value in
                (merged, negb (String.eqb merged current))
  else (value, true).

(** One turn of the adoption loop, over the count and the store. *)
Definition adopt_one (now : Z) tm (acc : nat * St) (e : string * (string * Z)) : nat * St :=
  let '(adopted, s) := acc in
  let '(jti, (value, ttl)) := e in
  match peek now jti s with
  | Some current =>
      if String.eqb (latestRevocation current value) current then (adopted, s) else
      let '(wrote, s) := cUpdate now jti (adopt_update value)
        [WithTTL (if (ttl <=? 0)%Z then RevocationTTL tm else ttl)] s in
      ((if wrote then S adopted else adopted), s)
  | None =>
      let '(wrote, s) := cUpdate now jti (adopt_update value)
        [WithTTL (if (ttl <=? 0)%Z then RevocationTTL tm else ttl)] s in
      ((if wrote then S adopted else adopted), s)
  end.

(** [scanned] is what [ScanGenerations] reports of the legacy class; the map
    is ranged over in some order. *)
Definition AdoptStrandedRevocations (now : Z) (scanned : list Entry) tm
    : result api_error (nat * TokenManager St) :=
  match tm_revocationCache tm with
  | None => Err ErrCacheNotConfigured
  | Some s =>
      let stranded := foldl strand ∅ scanned in
      let '(adopted, s) := foldl (adopt_one now tm) (0%nat, s) (map_to_list stranded) in
      Ok (adopted, with_stores (Some s) (tm_legacyRevocationCache tm) tm)
  end.

(** * Minting *)

Definition mint_claims (now : Z) (issuer aud sub kind action scope : string) (ttl : Z)
    : gmap string claim :=
  <["knd" := CString kind]> $ <["scp" := CString scope]> $ <["act" := CString action]> $
  <["sub" := CString sub]> $ <["nbf" := CTime now]> $
  <["jti" := CString (GenerateJTI aud sub action)]> $ <["iss" := CString issuer]> $
  <["iat" := CString (FormatNano now)]> $ <["exp" := CTime (now + ttl)]> $
  <["aud" := CString aud]> ∅.

Definition MintStatelessKey (now : Z) tm (aud sub kind action scope : string) (ttl : Z)
    : result api_error string :=
  if String.eqb sub "" then Err ErrSubjectlessCredential
  else if negb (Known kind) then Err ErrUnknownSubjectKind
  else if ((0 <? tm_maxTTL tm) && (tm_maxTTL tm <? ttl))%Z%bool then Err ErrTTLExceedsMax
  else Ok (wrap (tm_tokenPrefix tm)
             (V4Sign (kp_SecretKey (tm_activeKey tm))
                (mint_claims now (tm_issuer tm) aud sub kind action scope ttl)
                (kidFooter (KeyId (tm_activeKey tm))))).

(** * Validating *)

(** [ParseV4Public]: the signature, then the rules in order. *)
Fixpoint apply_rules (rules : list rule) (now : Z) (tok : Token) : result api_error Token :=
  match rules with
  | [] => Ok tok
  | r :: rules => if rule_passes r now tok then apply_rules rules now tok else Err (ErrRule r)
  end.

Definition parse_with (rules : list rule) (now : Z) (pk : PublicKey) (signed : string)
    : result api_error Token :=
  match ParseV4Public pk signed with
  | None => Err ErrParse
  | Some tok => apply_rules rules now tok
  end.

(** The key the footer names. *)
Definition footer_key tm (signed : string) : result api_error (string * KeyPair) :=
  match UnsafeParseFooter signed with
  | None => Err ErrParse
  | Some footerBytes =>
      match UnmarshalKid footerBytes with
      | None => Err ErrParse
      | Some kid =>
          match GetKey kid (tm_keyPairs tm) with
          | None => Err (ErrKeyNotFound kid)
          | Some keyPair => Ok (kid, keyPair)
          end
      end
  end.

Definition get_string (k : string) (tok : Token) : result api_error string :=
  match GetString k tok with Some s => Ok s | None => Err (ErrClaim k) end.

Definition get_time (k : string) (tok : Token) : result api_error Z :=
  match GetTime k tok with Some t => Ok t | None => Err (ErrClaim k) end.

Definition RevokeToken (now : Z) (signed : string) tm : result api_error (TokenManager St) :=
  match tm_revocationCache tm with
  | None => Err ErrCacheNotConfigured
  | Some _ =>
      let signed := unwrap (tm_tokenPrefix tm) signed in
      '(_, keyPair) ← footer_key tm signed;
      token ← parse_with NewParser_rules now (kp_PublicKey keyPair) signed;
      jti ← get_string "jti" token;
      exp ← get_time "exp" token;
      let ttl := exp - now in
      if (ttl <=? 0)%Z then Ok tm else Ok (revoke now jti ttl tm)
  end.

Definition token_kind (token : Token) : result api_error string :=
  match GetRaw ClaimSubjectKind token with
  | None => Ok ""
  | Some rawKind =>
      if String.eqb rawKind "null" then Err (ErrClaim ClaimSubjectKind) else
      match UnmarshalString rawKind with
      | None => Err (ErrClaim ClaimSubjectKind)
      | Some kind => Ok kind
      end
  end.

Definition not_revoked (up : nat -> bool) (now : Z) tm (token : Token) : result api_error unit :=
  match tm_revocationCache tm with
  | None => Ok ()
  | Some store =>
      r ← revoked up now token store tm;
      if r : bool then Err ErrTokenRevoked else Ok ()
  end.

Definition ValidateToken (up : nat -> bool) (now : Z) tm (signed expectedAudience : string)
    : result api_error TokenData :=
  let signed := unwrap (tm_tokenPrefix tm) signed in
  '(kid, keyPair) ← footer_key tm signed;
  let rules := (NewParser_rules ++ [IssuedBy (tm_issuer tm); NotExpired; ValidAt now] ++
    (if String.eqb expectedAudience "" then [] else [ForAudience expectedAudience]))%list in
  token ← parse_with rules now (kp_PublicKey keyPair) signed;
  _ ← not_revoked up now tm token;
  subject ← get_string "sub" token;
  if String.eqb subject "" then Err ErrSubjectlessCredential else
  action ← get_string "act" token;
  scope ← get_string "scp" token;
  audience ← get_string "aud" token;
  exp ← get_time "exp" token;
  iat ← get_time "iat" token;
  issuer ← get_string "iss" token;
  jti ← get_string "jti" token;
  nbf ← get_time "nbf" token;
  kind ← token_kind token;
  Ok (mkTokenData action audience (unix exp) (unix iat) issuer jti kid (unix nbf) scope subject kind).
End Manager.
