(* ===== verification/ApiTokenSpec.v ===== *)
(** What API tokens promise (ApiToken): a validated token is authentic, for
    this host and audience, in force and not revoked; a minted one validates;
    a revoked one never validates again; the wire prefix is transparent; key
    loading always finds an active key; the legacy class is merged upwards. *)
From S2P Require Import Prelude GoStr Store MemCache Deps Claims ApiToken.
From Stdlib Require Import Ascii.

#[local] Open Scope string_scope.

(** A brand prefix that cannot be mistaken for the PASETO header. *)
Definition good_prefix (p : string) : Prop :=
  p = "" \/ forall payload, HasPrefix (p ++ payload) pasetoV4PublicHeader = false.

Section Lemmas.
Context {St} `{CacheLaws St} `{Paseto} `{!Sha256} `{!SubjectKinds} `{!KidFooter}.

Implicit Types tm : TokenManager St.

(** The active key is one of the loaded keys, found by its id. *)
Record wf_tm tm : Prop := {
  wt_hex : all_bytes is_hex (KeyId (tm_activeKey tm)) = true;
  wt_key : exists kp, GetKey (KeyId (tm_activeKey tm)) (tm_keyPairs tm) = Some kp /\
    kp_PublicKey kp = Public (kp_SecretKey (tm_activeKey tm));
  wt_prefix : good_prefix (tm_tokenPrefix tm);
}.

Lemma unwrap_wrap_signed p sk m f :
  good_prefix p -> unwrap p (wrap p (V4Sign sk m f)) = V4Sign sk m f.
Proof.
  intros Hp. pose proof (V4Sign_header sk m f) as [payload ->]%HasPrefix_spec.
  apply unwrap_wrap_aux. destruct Hp; auto.
Qed.

Lemma apply_rules_ok rules now tok tok' :
  apply_rules rules now tok = Ok tok' <->
  tok' = tok /\ Forall (fun r => rule_passes r now tok = true) rules.
Proof.
  induction rules as [|r rules IH]; simpl.
  - split; [intros [= ->]; by split|by intros [-> _]].
  - rewrite Forall_cons. destruct (rule_passes r now tok).
    + rewrite IH. tauto.
    + split; [done|]. by intros (_ & ? & _).
Qed.

Lemma footer_key_signed tm m kid :
  wf_tm tm -> kid = KeyId (tm_activeKey tm) ->
  exists kp, footer_key tm (V4Sign (kp_SecretKey (tm_activeKey tm)) m (kidFooter kid)) = Ok (kid, kp) /\
    kp_PublicKey kp = Public (kp_SecretKey (tm_activeKey tm)).
Proof.
  intros [Hh (kp & Hk & Hpk) _] ->. exists kp. unfold footer_key.
  by rewrite V4Sign_footer, UnmarshalKid_footer, Hk.
Qed.

Lemma get_string_ok k tok s : get_string k tok = Ok s <-> GetString k tok = Some s.
Proof. unfold get_string. destruct (GetString k tok); split; congruence. Qed.

Lemma get_time_ok k tok t : get_time k tok = Ok t <-> GetTime k tok = Some t.
Proof. unfold get_time. destruct (GetTime k tok); split; congruence. Qed.

(** The bind of [result], inverted. *)
Lemma bind_ok {E A B} (r : result E A) (f : A -> result E B) b :
  (r ≫= f) = Ok b -> exists a, r = Ok a /\ f a = Ok b.
Proof. destruct r; [|done]. simpl. eauto. Qed.

Lemma GetKey_spec kid p kp : GetKey kid p = Some kp -> kp ∈ p /\ KeyId kp = kid.
Proof.
  induction p as [|kp' p IH]; simpl; [done|].
  destruct (String.eqb (KeyId kp') kid) eqn:He.
  - intros [= ->]. apply String.eqb_eq in He. split; [by left|done].
  - intros Hk. destruct (IH Hk). split; [by right|done].
Qed.

(** ** Revocation coverage *)

Lemma revokedNoEarlierThan_time v a i :
  ParseNano v = Some a -> revokedNoEarlierThan v i = true <-> i <= a.
Proof.
  unfold revokedNoEarlierThan. intros ->. rewrite negb_true_iff. apply after_false.
Qed.

Lemma not_revoked_ok up now tm tok s :
  tm_revocationCache tm = Some s -> not_revoked up now tm tok = Ok () ->
  exists jti sub, GetString "jti" tok = Some jti /\ GetString "sub" tok = Some sub /\
    lookup_covers now tok (s, jti) = false /\
    lookup_covers now tok (s, subjectRevocationKey sub) = false /\
    (forall l, tm_legacyRevocationCache tm = Some l -> lookup_covers now tok (l, jti) = false).
Proof.
  unfold not_revoked, revoked. intros ->.
  destruct (GetString "jti" tok) as [jti|]; [|done].
  destruct (GetString "sub" tok) as [sub|]; [|done].
  destruct (forallb _ _); [|done].
  match goal with |- context [existsb ?f ?l] => destruct (existsb f l) eqn:He end;
    simpl; [done|].
  intros _. exists jti, sub. cbn [existsb app] in He.
  apply orb_false_iff in He as [Hc1 He]. apply orb_false_iff in He as [Hc2 He].
  split_and!; try done. intros l Hl. rewrite Hl in He. simpl in He.
  by apply orb_false_iff in He as [? _].
Qed.

(** ** Recording *)

(** The store holds, at [key], a revocation covering everything issued up to
    [t], until [t + ttl] at least. *)
Definition holds_revocation (t ttl : Z) (key : string) (m : store) : Prop :=
  exists v e a, m !! key = Some (v, e) /\ ParseNano v = Some a /\ t <= a /\ t + ttl <= e.

Lemma recordRevocation_abs now tm key ttl (s : St) :
  cabs (recordRevocation now tm key ttl s) =
  st_set now 0 key (revocation_update now (default "" (st_get now key (cabs s)))
    (found (st_get now key (cabs s)))).1
    (mkSetOptions (Some (Z.max ttl (RevocationTTL tm))) false) (cabs s).
Proof.
  unfold recordRevocation. rewrite cUpdate_abs. unfold st_update.
  destruct (revocation_update now _ _) as [next write] eqn:Hu.
  assert (write = true) as ->.
  { revert Hu. unfold revocation_update. by repeat case_match; intros [= _ <-]. }
  done.
Qed.

Lemma revocation_update_time now v b :
  0 <= now <= maxDuration ->
  exists a, ParseNano (revocation_update now v b).1 = Some a /\ now <= a /\
    (b = true -> forall a0, ParseNano v = Some a0 -> a0 <= a).
Proof.
  intros Hnow. unfold revocation_update. destruct (ParseNano v) as [a0|] eqn:Hv.
  - destruct (b && after a0 now)%bool eqn:Hb; simpl.
    + apply andb_true_iff in Hb as [-> Ha]. bool_to_prop. exists a0.
      split_and!; [done|lia|]. intros _ a1 [= ->]. lia.
    + exists now. rewrite Parse_Format by done. split_and!; [done|lia|].
      intros -> a1 [= ->]. simpl in Hb. bool_to_prop. lia.
  - exists now. simpl. rewrite Parse_Format by done. split_and!; [done|lia|done].
Qed.

Lemma recordRevocation_holds now tm key ttl (s : St) :
  0 <= now <= maxDuration ->
  holds_revocation now (RevocationTTL tm) key (cabs (recordRevocation now tm key ttl s)).
Proof.
  intros Hnow. rewrite recordRevocation_abs.
  destruct (revocation_update_time now (default "" (st_get now key (cabs s)))
    (found (st_get now key (cabs s))) Hnow) as (a & Ha & Hle & _).
  unfold holds_revocation, st_set. rewrite lookup_insert_eq. unfold expiry_of. simpl.
  eexists _, _, a. split_and!; [done|done|done|lia].
Qed.

(** A later revocation, of whatever key, keeps it. *)
Lemma recordRevocation_keeps t key now tm key' ttl (s : St) :
  0 <= now <= maxDuration -> t <= now ->
  holds_revocation t (RevocationTTL tm) key (cabs s) ->
  holds_revocation t (RevocationTTL tm) key (cabs (recordRevocation now tm key' ttl s)).
Proof.
  intros Hnow Ht Hh. destruct (decide (key = key')) as [<-|Hne].
  - destruct (recordRevocation_holds now tm key ttl s Hnow) as (v & e & a & ? & ? & ? & ?).
    exists v, e, a. split_and!; [done|done|lia|lia].
  - rewrite recordRevocation_abs. destruct Hh as (v & e & a & Hk & ?).
    exists v, e, a. unfold st_set. by rewrite lookup_insert_ne.
Qed.

Definition run_revocations tm (ops : list (Z * string * Z)) (s : St) : St :=
  foldl (fun s op => recordRevocation op.1.1 tm op.1.2 op.2 s) s ops.

Lemma run_revocations_keeps t key tm ops : forall s,
  Forall (fun op => 0 <= op.1.1 <= maxDuration /\ t <= op.1.1) ops ->
  holds_revocation t (RevocationTTL tm) key (cabs s) ->
  holds_revocation t (RevocationTTL tm) key (cabs (run_revocations tm ops s)).
Proof.
  unfold run_revocations. induction ops as [|op ops IH]; intros s Hops Hh; simpl; [done|].
  apply Forall_cons in Hops as [[? ?] Hops]. apply IH; [done|].
  by apply recordRevocation_keeps.
Qed.

Lemma holds_covers t ttl key (s : St) now tok iat :
  holds_revocation t ttl key (cabs s) -> now <= t + ttl ->
  GetTime "iat" tok = Some iat -> iat <= t -> lookup_covers now tok (s, key) = true.
Proof.
  intros (v & e & a & Hk & Ha & Hta & He) Hnow Hiat Hle.
  unfold lookup_covers, peek. simpl. rewrite cGet_val. unfold st_get. rewrite Hk. simpl.
  rewrite (proj2 (after_false now e)) by lia. unfold issuedNoLaterThan. rewrite Hiat.
  apply (revokedNoEarlierThan_time v a); [done|lia].
Qed.

(** ** The minted token, parsed *)

Lemma minted_parse now0 tm aud sub kind act scope ttl signed :
  wf_tm tm -> 0 <= now0 <= maxDuration ->
  MintStatelessKey now0 tm aud sub kind act scope ttl = Ok signed ->
  sub <> "" /\ Known kind = true /\ (0 < tm_maxTTL tm -> ttl <= tm_maxTTL tm) /\
  exists kp tok, footer_key tm (unwrap (tm_tokenPrefix tm) signed) =
      Ok (KeyId (tm_activeKey tm), kp) /\
    ParseV4Public (kp_PublicKey kp) (unwrap (tm_tokenPrefix tm) signed) = Some tok /\
    GetString "aud" tok = Some aud /\ GetString "sub" tok = Some sub /\
    GetString "act" tok = Some act /\ GetString "scp" tok = Some scope /\
    GetString "iss" tok = Some (tm_issuer tm) /\
    GetString "jti" tok = Some (GenerateJTI aud sub act) /\
    GetString "knd" tok = Some kind /\ GetTime "iat" tok = Some now0 /\
    GetTime "exp" tok = Some (of_unix (unix (now0 + ttl))) /\
    GetTime "nbf" tok = Some (of_unix (unix now0)).
Proof.
  intros Hwf Hnow0. unfold MintStatelessKey.
  destruct (String.eqb sub "") eqn:Hsub; [done|]. apply String.eqb_neq in Hsub.
  destruct (Known kind) eqn:Hkind; [|done]. cbn [negb].
  destruct (_ && _)%bool eqn:Hmax; [done|]. intros [= <-].
  split_and!; [done|done| |].
  { apply andb_false_iff in Hmax as [Hm|Hm]; bool_to_prop; lia. }
  rewrite unwrap_wrap_signed by apply Hwf.
  destruct (footer_key_signed tm (mint_claims now0 (tm_issuer tm) aud sub kind act scope ttl)
    _ Hwf eq_refl) as (kp & Hfk & Hpk).
  destruct (V4Sign_parse (kp_SecretKey (tm_activeKey tm))
    (mint_claims now0 (tm_issuer tm) aud sub kind act scope ttl)
    (kidFooter (KeyId (tm_activeKey tm)))) as (tok & Hparse & Hs & Ht).
  exists kp, tok. rewrite Hpk. split_and!; [done|done|..].
  1-7: eapply Hs; reflexivity.
  - destruct (Hs "iat" (FormatNano now0) eq_refl) as [_ ->]. by apply Parse_Format.
  - eapply Ht; reflexivity.
  - eapply Ht; reflexivity.
Qed.

(** What a successful validation went through. *)
Lemma validate_inv up now tm signed aud data :
  ValidateToken up now tm signed aud = Ok data ->
  exists kp tok iat e, footer_key tm (unwrap (tm_tokenPrefix tm) signed) = Ok (KID data, kp) /\
    ParseV4Public (kp_PublicKey kp) (unwrap (tm_tokenPrefix tm) signed) = Some tok /\
    not_revoked up now tm tok = Ok () /\
    GetString "iss" tok = Some (tm_issuer tm) /\ GetString "iss" tok = Some (Issuer data) /\
    (aud <> "" -> GetString "aud" tok = Some aud) /\
    GetString "aud" tok = Some (Audience data) /\
    GetString "sub" tok = Some (Subject data) /\ Subject data <> "" /\
    GetString "jti" tok = Some (JTI data) /\
    GetTime "iat" tok = Some iat /\ iat <= now /\ GetTime "exp" tok = Some e /\ now <= e.
Proof.
  unfold ValidateToken. intros Hv.
  apply bind_ok in Hv as ([kid kp] & Hfk & Hv).
  apply bind_ok in Hv as (tok & Hparse & Hv).
  apply bind_ok in Hv as ([] & Hrev & Hv).
  apply bind_ok in Hv as (sub & Hsub%get_string_ok & Hv).
  destruct (String.eqb sub "") eqn:Hne; [done|]. apply String.eqb_neq in Hne.
  repeat (apply bind_ok in Hv as (? & ?%get_string_ok & Hv) ||
          apply bind_ok in Hv as (? & ?%get_time_ok & Hv)).
  apply bind_ok in Hv as (kind & _ & Hv). injection Hv as <-.
  unfold parse_with in Hparse. destruct (ParseV4Public _ _) as [tok'|] eqn:Hp; [|done].
  apply apply_rules_ok in Hparse as [-> Hrules].
  apply Forall_app in Hrules as [_ Hrules]. apply Forall_app in Hrules as [Hrules Haud].
  rewrite !Forall_cons in Hrules. destruct Hrules as (Hiss & _ & Hat & _).
  apply rule_IssuedBy in Hiss.
  apply rule_ValidAt in Hat as (iat & nbf & e & Hiat & _ & He & Hle & _ & Hle').
  exists kp, tok', iat, e. cbn. split_and!; try done.
  intros Ha. apply String.eqb_neq in Ha. rewrite Ha in Haud.
  by apply Forall_inv, rule_ForAudience in Haud.
Qed.

Lemma footer_key_ok tm signed kid kp :
  footer_key tm signed = Ok (kid, kp) -> kp ∈ tm_keyPairs tm /\ KeyId kp = kid.
Proof.
  unfold footer_key. destruct (UnsafeParseFooter signed) as [b|]; [|done].
  destruct (UnmarshalKid b) as [kid'|]; [|done].
  destruct (GetKey kid' (tm_keyPairs tm)) eqn:Hk; [|done].
  intros [= <- <-]. by apply GetKey_spec.
Qed.

(** ** Merging revocations *)

Definition merge_revocation (current : option string) (v : string) : string :=
  match current with Some c => latestRevocation c v | None => v end.

Lemma latestRevocation_idem c v : latestRevocation (latestRevocation c v) v = latestRevocation c v.
Proof.
  unfold latestRevocation. destruct (ParseNano c) as [a|] eqn:Hc, (ParseNano v) as [b|] eqn:Hv;
    rewrite ?Hc, ?Hv; unfold after; rewrite ?Z.ltb_irrefl; try done.
  destruct (a <? b)%Z eqn:Hab; rewrite ?Hc, ?Hv, ?Hab, ?Z.ltb_irrefl; done.
Qed.

Lemma latestRevocation_self v : latestRevocation v v = v.
Proof. unfold latestRevocation, after. destruct (ParseNano v); by rewrite ?Z.ltb_irrefl. Qed.

Lemma RevocationTTL_pos tm : 0 < RevocationTTL tm.
Proof. unfold RevocationTTL, RevocationHorizon, hour, minute, second. lia. Qed.

Lemma adopt_one_spec now tm n (s : St) k v ttl :
  let r := adopt_one now tm (n, s) (k, (v, ttl)) in
  forall k', st_get now k' (cabs r.2) =
    if decide (k' = k) then Some (merge_revocation (st_get now k (cabs s)) v)
    else st_get now k' (cabs s).
Proof.
  assert (forall cur, default "" (st_get now k (cabs s)) = default "" cur ->
    st_get now k (cabs s) = cur -> (forall c, cur = Some c -> latestRevocation c v <> c) ->
    forall k', st_get now k' (cabs (cUpdate now k (adopt_update v)
      [WithTTL (if ttl <=? 0 then RevocationTTL tm else ttl)%Z] s).2) =
    if decide (k' = k) then Some (merge_revocation cur v) else st_get now k' (cabs s)) as Hup.
  { intros cur _ Hcur Hne k'. rewrite cUpdate_abs. unfold st_update. rewrite Hcur.
    assert (adopt_update v (default "" cur) (found cur) = (merge_revocation cur v, true)) as ->.
    { destruct cur as [c|]; simpl; [|done]. by rewrite (proj2 (String.eqb_neq _ _) (Hne c eq_refl)). }
    simpl. case_decide as Hk; [subst k'|by rewrite st_get_set_ne].
    apply st_get_set_live. unfold expiry_of. simpl. pose proof (RevocationTTL_pos tm).
    destruct (ttl <=? 0)%Z eqn:Ht; bool_to_prop; lia. }
  unfold adopt_one, peek. rewrite cGet_val.
  destruct (st_get now k (cabs s)) as [c|] eqn:Hc.
  - destruct (String.eqb_spec (latestRevocation c v) c) as [He|Hne]; simpl.
    + intros k'. case_decide; [subst; by rewrite Hc, He|done].
    + specialize (Hup (Some c) eq_refl eq_refl ltac:(congruence)).
      by destruct (cUpdate _ _ _ _ _).
  - specialize (Hup None eq_refl eq_refl ltac:(done)). by destruct (cUpdate _ _ _ _ _).
Qed.

Lemma adopt_fold_spec now tm l : forall n (s : St),
  NoDup l.*1 -> forall k, st_get now k (cabs (foldl (adopt_one now tm) (n, s) l).2) =
    match (list_to_map l : gmap string (string * Z)) !! k with
    | Some (v, _) => Some (merge_revocation (st_get now k (cabs s)) v)
    | None => st_get now k (cabs s)
    end.
Proof.
  induction l as [|[k0 [v ttl]] l IH]; intros n s Hnd k; simpl.
  { by rewrite lookup_empty. }
  apply NoDup_cons in Hnd as [Hnin Hnd].
  pose proof (adopt_one_spec now tm n s k0 v ttl) as Hone. cbn zeta in Hone. revert Hone.
  change (match peek now k0 s with
    | Some current => if String.eqb (latestRevocation current v) current then (n, s) else
        let '(wrote, s) := cUpdate now k0 (adopt_update v)
          [WithTTL (if (ttl <=? 0)%Z then RevocationTTL tm else ttl)] s in
        ((if wrote then S n else n), s)
    | None => let '(wrote, s) := cUpdate now k0 (adopt_update v)
          [WithTTL (if (ttl <=? 0)%Z then RevocationTTL tm else ttl)] s in
        ((if wrote then S n else n), s)
    end) with (adopt_one now tm (n, s) (k0, (v, ttl))).
  destruct (adopt_one now tm (n, s) (k0, (v, ttl))) as [n' s']. simpl. intros Hone.
  rewrite IH by done. rewrite lookup_insert. case_decide as Hk; [subst k|].
  - rewrite (proj1 (not_elem_of_list_to_map l k0)) by done. by rewrite Hone, decide_True.
  - rewrite Hone, decide_False by congruence. done.
Qed.

Lemma adopt_fold_nothing now tm l : forall n (s : St),
  (forall k v ttl, (k, (v, ttl)) ∈ l ->
     exists c, st_get now k (cabs s) = Some c /\ latestRevocation c v = c) ->
  foldl (adopt_one now tm) (n, s) l = (n, s).
Proof.
  induction l as [|[k0 [v ttl]] l IH]; intros n s Hl; [done|]. cbn [foldl].
  destruct (Hl k0 v ttl) as (c & Hc & Hm); [by left|].
  assert (adopt_one now tm (n, s) (k0, (v, ttl)) = (n, s)) as ->.
  { unfold adopt_one, peek. by rewrite cGet_val, Hc, Hm, String.eqb_refl. }
  apply IH. intros k v' t Hin. apply (Hl k v' t). by right.
Qed.

(** ** Loading keys *)

(** What [LoadKeysFromSecret] guarantees of a pair. *)
Definition coherent (kp : KeyPair) : Prop :=
  kp_PublicKey kp = Public (kp_SecretKey kp) /\
  KeyId kp = GenerateKID (ExportBytes (kp_PublicKey kp)).

Lemma LoadKeysFromSecret_coherent sec b kp :
  LoadKeysFromSecret sec b = Ok kp -> coherent kp /\ ActiveKey kp = b.
Proof.
  unfold LoadKeysFromSecret, coherent. repeat case_match; try done; by intros [= <-].
Qed.

Lemma set_active_at_Forall i b p : Forall coherent p -> Forall coherent (set_active_at i b p).
Proof.
  intros Hp. apply Forall_alter; [done|]. by intros kp _ ?.
Qed.

Lemma load_pairs_spec secrets : forall pairs pairs',
  load_pairs secrets pairs = Ok pairs' -> Forall coherent pairs ->
  Forall coherent pairs' /\ length pairs' = (length pairs + length secrets)%nat.
Proof.
  induction secrets as [|sec secrets IH]; intros pairs pairs' Hl Hp; simpl in Hl.
  { injection Hl as <-. split; [done|simpl; lia]. }
  apply bind_ok in Hl as (kp & [Hk _]%LoadKeysFromSecret_coherent & Hl).
  assert (Forall coherent (pairs ++ [kp])) as Hp'.
  { apply Forall_app. split; [done|]. by apply Forall_singleton. }
  apply IH in Hl; [|destruct (_ && _)%bool; [by apply set_active_at_Forall|done]].
  destruct Hl as [? Hlen]. split; [done|]. rewrite Hlen. simpl.
  destruct (_ && _)%bool; unfold set_active_at; rewrite ?length_alter, length_app; simpl; lia.
Qed.

Lemma first_active_set i p kp :
  p !! i = Some kp -> is_Some (first_active (set_active_at i true p)).
Proof.
  unfold set_active_at. revert i. induction p as [|kp' p IH]; intros i Hi; [done|].
  destruct i as [|i]; simpl in *; [eauto|]. case_match; [eauto|by apply IH].
Qed.

Lemma first_active_in p kp : first_active p = Some kp -> kp ∈ p /\ ActiveKey kp = true.
Proof.
  induction p as [|kp' p IH]; simpl; [done|]. destruct (ActiveKey kp') eqn:Ha.
  - intros [= ->]. split; [by left|done].
  - intros Hk. destruct (IH Hk). split; [by right|done].
Qed.

Lemma KeyPairs_ActiveKey_in p kp : KeyPairs_ActiveKey p = Some kp -> kp ∈ p.
Proof.
  destruct p as [|kp1 [|kp2 p]]; [done|intros [= ->]; by left|].
  intros Hk. by apply first_active_in.
Qed.

Lemma ensure_active_spec p :
  p <> [] -> Forall coherent p ->
  Forall coherent (ensure_active p) /\ is_Some (KeyPairs_ActiveKey (ensure_active p)).
Proof.
  intros Hne Hp. unfold ensure_active.
  destruct p as [|kp1 [|kp2 p]]; [done|simpl; by split; [|eauto]|].
  set (q := kp1 :: kp2 :: p). change (1 <? length q)%nat with true. cbn [andb].
  destruct (KeyPairs_ActiveKey q) as [k|] eqn:Hk; cbn [found negb].
  - change (length q =? 1)%nat with false. cbn [andb]. split; [done|]. rewrite Hk. eauto.
  - assert ((length (set_active_at (length q - 1) true q) =? 1)%nat = false) as ->.
    { unfold set_active_at. by rewrite length_alter. }
    cbn [andb]. split; [by apply set_active_at_Forall|].
    assert (is_Some (q !! (length q - 1)%nat)) as [kp Hkp] by (apply lookup_lt_is_Some_2; simpl; lia).
    apply first_active_set in Hkp. revert Hkp. unfold set_active_at.
    destruct (alter (set_active true) (length q - 1)%nat q) as [|k1 [|k2 r]] eqn:Heq; done.
Qed.
End Lemmas.

(** * Properties *)


Section Properties.
Context {St} `{CacheLaws St} `{Paseto} `{!Sha256} `{!SubjectKinds} `{!KidFooter}.

Implicit Types tm : TokenManager St.

(** A token [ValidateToken] accepts carries the signature of one of the
    host's keys, was issued by this host, for the expected audience when one
    is given, names a subject, is in its validity window, and is covered by
    no revocation of its jti or of its subject, in either store, all of
    which could be read. *)
Theorem validate_accepts up now tm signed aud data :
  ValidateToken up now tm signed aud = Ok data ->
  exists kp tok iat e, kp ∈ tm_keyPairs tm /\ KeyId kp = KID data /\
    ParseV4Public (kp_PublicKey kp) (unwrap (tm_tokenPrefix tm) signed) = Some tok /\
    Issuer data = tm_issuer tm /\ (aud <> "" -> Audience data = aud) /\ Subject data <> "" /\
    GetTime "iat" tok = Some iat /\ iat <= now /\ GetTime "exp" tok = Some e /\ now <= e /\
    (forall s key, tm_revocationCache tm = Some s ->
       key = JTI data \/ key = subjectRevocationKey (Subject data) ->
       lookup_covers now tok (s, key) = false) /\
    (forall s l, tm_revocationCache tm = Some s -> tm_legacyRevocationCache tm = Some l ->
       lookup_covers now tok (l, JTI data) = false).
Proof.
  intros (kp & tok & iat & e & Hfk & Hp & Hrev & Hi1 & Hi2 & Ha & Ha' & Hs & Hne & Hj & Hiat &
    Hle & He & Hle')%validate_inv.
  apply footer_key_ok in Hfk as [Hin Hkid].
  exists kp, tok, iat, e. split_and!; try done; [congruence|intros Ho%Ha; congruence|..].
  - intros s key Hst Hkey.
    destruct (not_revoked_ok _ _ _ _ _ Hst Hrev) as (jti & sub & ? & ? & ? & ? & _).
    destruct Hkey as [-> | ->]; congruence.
  - intros s l Hst Hl.
    destruct (not_revoked_ok _ _ _ _ _ Hst Hrev) as (jti & sub & ? & ? & ? & ? & Hleg).
    apply Hleg in Hl. congruence.
Qed.

(** C35: a minted token validates until the whole second its lifetime ends in,
    for its audience, as long as both stores can be read and hold no
    revocation of its jti or its subject: what comes back is what was
    minted, its subject's kind included. *)
Theorem minted_validates up now0 now tm aud sub kind act scope ttl signed :
  wf_tm tm -> 0 <= now0 <= maxDuration -> now0 <= now -> now <= of_unix (unix (now0 + ttl)) ->
  aud <> "" -> (forall i, up i = true) ->
  (forall s key, tm_revocationCache tm = Some s \/ tm_legacyRevocationCache tm = Some s ->
     key = GenerateJTI aud sub act \/ key = subjectRevocationKey sub -> peek now key s = None) ->
  MintStatelessKey now0 tm aud sub kind act scope ttl = Ok signed ->
  ValidateToken up now tm signed aud =
  Ok (mkTokenData act aud (unix (now0 + ttl)) (unix now0) (tm_issuer tm)
        (GenerateJTI aud sub act) (KeyId (tm_activeKey tm)) (unix now0) scope sub kind).
Proof.
  intros Hwf Hnow0 Hle Hexp Haud Hup Hclear Hm.
  destruct (minted_parse _ _ _ _ _ _ _ _ _ Hwf Hnow0 Hm) as
    (Hsub & Hkind & _ & kp & tok & Hfk & Hp & Ha & Hs & Hact & Hscp & Hiss & Hj & Hk & Hi & He & Hn).
  unfold ValidateToken. rewrite Hfk. cbn [mbind result_bind].
  unfold parse_with. rewrite Hp.
  assert (Forall (fun r => rule_passes r now tok = true)
    (NewParser_rules ++ [IssuedBy (tm_issuer tm); NotExpired; ValidAt now] ++
     (if String.eqb aud "" then [] else [ForAudience aud]))) as Hrules.
  { assert (rule_passes NotExpired now tok = true) as Hne by (apply rule_NotExpired; eauto).
    apply Forall_app. split.
    - eapply Forall_impl; [apply NewParser_rules_ok|]. by intros r ->.
    - rewrite (proj2 (String.eqb_neq aud "") Haud). repeat constructor; [|done| |].
      + by apply rule_IssuedBy.
      + apply rule_ValidAt. exists now0, (of_unix (unix now0)), (of_unix (unix (now0 + ttl))).
        split_and!; try done. unfold of_unix, unix.
        pose proof (Z.mul_div_le now0 second eq_refl). lia.
      + by apply rule_ForAudience. }
  rewrite (proj2 (apply_rules_ok _ now tok tok) (conj eq_refl Hrules)). cbn [mbind result_bind].
  assert (not_revoked up now tm tok = Ok ()) as ->.
  { unfold not_revoked, revoked. destruct (tm_revocationCache tm) as [s|] eqn:Hst; [|done].
    rewrite Hj, Hs.
    assert (forall l, forallb up l = true) as Hall.
    { intros l. apply forallb_forall. auto. }
    rewrite Hall. cbn [mbind result_bind existsb app]. unfold lookup_covers. cbn [fst snd].
    rewrite !(Hclear s) by auto. cbn [orb].
    destruct (tm_legacyRevocationCache tm) as [l|] eqn:Hl; [|done].
    cbn [existsb fst snd]. by rewrite (Hclear l) by auto. }
  assert (token_kind tok = Ok kind) as ->.
  { destruct (GetRaw_string "knd" tok kind Hk) as (raw & Hr1 & Hr2 & Hr3).
    - intros ->. by rewrite Known_empty in Hkind.
    - unfold token_kind. change ClaimSubjectKind with "knd". rewrite Hr1.
      by rewrite (proj2 (String.eqb_neq raw "null") Hr2), Hr3. }
  unfold get_string, get_time. rewrite Hs, Hact, Hscp, Ha, He, Hi, Hiss, Hj, Hn.
  cbn [mbind result_bind]. rewrite (proj2 (String.eqb_neq sub "") Hsub).
  by rewrite !unix_of_unix.
Qed.

(** A token whose jti or subject a store holds a revocation of, no earlier
    than its issue, is refused, as long as the revocation outlives what the
    host can have minted. *)
Lemma revocation_refuses up now0 t now tm aud sub kind act scope ttl signed eaud s key legacy data :
  wf_tm tm -> 0 <= now0 <= t -> t <= maxDuration ->
  0 < tm_maxTTL tm \/ ttl <= RevocationHorizon ->
  MintStatelessKey now0 tm aud sub kind act scope ttl = Ok signed ->
  key = GenerateJTI aud sub act \/ key = subjectRevocationKey sub ->
  holds_revocation t (RevocationTTL tm) key (cabs s) ->
  ValidateToken up now (with_stores (Some s) legacy tm) signed eaud <> Ok data.
Proof.
  intros Hwf Hnow0 Ht Hmax Hm Hkey Hholds Hv.
  assert (0 <= now0 <= maxDuration) as Hr0 by lia.
  destruct (minted_parse _ _ _ _ _ _ _ _ _ Hwf Hr0 Hm) as
    (Hsub & _ & Httl & kp & tok & Hfk & Hp & _ & Hs & _ & _ & _ & Hj & _ & Hi & He & _).
  apply validate_inv in Hv as (kp' & tok' & iat & e & Hfk' & Hp' & Hrev & _ & _ & _ & _ & Hs' &
    _ & Hj' & Hiat & _ & He' & Hle).
  set (tm' := with_stores (Some s) legacy tm) in *.
  assert (Ok (E := api_error) (KeyId (tm_activeKey tm), kp) = Ok (KID data, kp')) as [= _ <-]
    by (rewrite <- Hfk; exact Hfk').
  assert (Some tok = Some tok') as [= <-] by (rewrite <- Hp; exact Hp').
  destruct (not_revoked_ok _ _ tm' _ s eq_refl Hrev) as (jti & sub' & Hj2 & Hs2 & Hc1 & Hc2 & _).
  assert (now <= t + RevocationTTL tm) as Hnow.
  { rewrite He in He'. injection He' as <-. unfold of_unix, unix in Hle.
    pose proof (Z.mul_div_le (now0 + ttl) second eq_refl). unfold RevocationTTL.
    destruct Hmax; lia. }
  assert (lookup_covers now tok (s, key) = true) as Hc.
  { eapply holds_covers; [exact Hholds|exact Hnow|exact Hi|lia]. }
  destruct Hkey as [-> | ->]; congruence.
Qed.

(** C15: a revoked token never validates again. A token minted no later than
    a revocation of its jti or of its subject is refused at every later
    time, whatever revocations are recorded since: the revocation outlives
    every token the host can have minted. *)
Theorem revoked_never_validates up now0 t now tm aud sub kind act scope ttl signed eaud
    s key r ops :
  wf_tm tm -> 0 <= now0 <= t -> t <= maxDuration ->
  0 < tm_maxTTL tm \/ ttl <= RevocationHorizon ->
  MintStatelessKey now0 tm aud sub kind act scope ttl = Ok signed ->
  key = GenerateJTI aud sub act \/ key = subjectRevocationKey sub ->
  Forall (fun op => 0 <= op.1.1 <= maxDuration /\ t <= op.1.1) ops ->
  forall legacy data,
  ValidateToken up now
    (with_stores (Some (run_revocations tm ops (recordRevocation t tm key r s))) legacy tm)
    signed eaud <> Ok data.
Proof.
  intros Hwf Hnow0 Ht Hmax Hm Hkey Hops legacy data.
  eapply (revocation_refuses up now0 t); try done.
  apply run_revocations_keeps; [done|]. apply recordRevocation_holds. lia.
Qed.

(** Minting refuses exactly a subject that names nobody, then a kind this
    release does not know, then a lifetime over the host's maximum; a
    lifetime capped with [CapTTL] is never refused for its length. *)
Theorem mint_refusals now tm aud sub kind act scope ttl e :
  (MintStatelessKey now tm aud sub kind act scope ttl = Err e <->
   (sub = "" /\ e = ErrSubjectlessCredential) \/
   (sub <> "" /\ Known kind = false /\ e = ErrUnknownSubjectKind) \/
   (sub <> "" /\ Known kind = true /\ 0 < tm_maxTTL tm < ttl /\ e = ErrTTLExceedsMax)) /\
  MintStatelessKey now tm aud sub kind act scope (CapTTL tm ttl) <> Err ErrTTLExceedsMax.
Proof.
  unfold MintStatelessKey, CapTTL. split.
  - destruct (String.eqb_spec sub "") as [->|Hne].
    { split; [intros [= <-]; by left|]. intros [[_ ->]|[(?&_)|(?&_)]]; congruence. }
    destruct (Known kind); cbn [negb].
    + destruct (_ && _)%bool eqn:Hm.
      * bool_to_prop. split; [intros [= <-]; right; right; split_and!; done|].
        intros [[? _]|[(_&?&_)|(_&_&_&->)]]; congruence.
      * split; [done|]. apply andb_false_iff in Hm as [Hm|Hm]; bool_to_prop;
          (intros [[? _]|[(_&?&_)|(_&_&?&_)]]; [congruence|congruence|lia]).
    + split; [intros [= <-]; right; left; done|].
      intros [[? _]|[(_&_&->)|(_&?&_)]]; congruence.
  - destruct (String.eqb sub ""); [done|]. destruct (Known kind); [|done]. cbn [negb].
    destruct ((0 <? tm_maxTTL tm)%Z && (tm_maxTTL tm <? ttl)%Z)%bool eqn:Hc;
      [rewrite Z.ltb_irrefl, andb_false_r; done|by rewrite Hc].
Qed.

(** The brand prefix is invisible to the parser: unwrapping what the
    mint wraps gives back the signed bytes, and a bare token passes through
    whatever the prefix. *)
Theorem unwrap_wrap p sk m f :
  good_prefix p ->
  unwrap p (wrap p (V4Sign sk m f)) = V4Sign sk m f /\ unwrap p (V4Sign sk m f) = V4Sign sk m f.
Proof.
  intros Hp. split; [by apply unwrap_wrap_signed|].
  unfold unwrap. change pasetoV4PublicHeader with "v4.public.".
  by rewrite V4Sign_header, orb_true_r.
Qed.

(** Adopting the stranded revocations leaves every key at the later of
    what the store held and what any generation of the legacy class held,
    touches no other key, and adopting the same scan again strengthens
    nothing. *)
Theorem adopt_merges now scanned tm s :
  tm_revocationCache tm = Some s ->
  exists n tm' s', AdoptStrandedRevocations now scanned tm = Ok (n, tm') /\
    tm_revocationCache tm' = Some s' /\
    (forall k, st_get now k (cabs s') =
       match foldl strand ∅ scanned !! k with
       | Some (v, _) => Some (merge_revocation (st_get now k (cabs s)) v)
       | None => st_get now k (cabs s)
       end) /\
    AdoptStrandedRevocations now scanned tm' = Ok (0%nat, tm').
Proof.
  intros Hs. unfold AdoptStrandedRevocations. rewrite Hs.
  set (stranded := foldl strand ∅ scanned).
  pose proof (adopt_fold_spec now tm (map_to_list stranded) 0 s
    (NoDup_fst_map_to_list stranded)) as Hspec.
  rewrite list_to_map_to_list in Hspec.
  destruct (foldl (adopt_one now tm) _ _) as [n s'] eqn:Hf. simpl in Hspec.
  exists n, (with_stores (Some s') (tm_legacyRevocationCache tm) tm), s'.
  split_and!; [done|done|done|].
  cbn [tm_revocationCache with_stores]. rewrite adopt_fold_nothing; [done|].
  intros k v ttl Hin%elem_of_map_to_list. rewrite Hspec, Hin.
  eexists. split; [done|]. destruct (st_get now k (cabs s)) as [c|]; simpl.
  - apply latestRevocation_idem.
  - apply latestRevocation_self.
Qed.

(** Merging revocations is associative and idempotent, and between two
    timed ones it covers exactly what either covers. *)
Theorem latestRevocation_join a b c i :
  latestRevocation (latestRevocation a b) c = latestRevocation a (latestRevocation b c) /\
  latestRevocation a a = a /\
  (is_Some (ParseNano a) -> is_Some (ParseNano b) ->
   revokedNoEarlierThan (latestRevocation a b) i =
   (revokedNoEarlierThan a i || revokedNoEarlierThan b i)%bool).
Proof.
  split_and!; [|apply latestRevocation_self|].
  - unfold latestRevocation.
    destruct (ParseNano a) as [ta|] eqn:Ha, (ParseNano b) as [tb|] eqn:Hb,
      (ParseNano c) as [tc|] eqn:Hc; rewrite ?Ha, ?Hb, ?Hc; try done;
      unfold after; repeat (case_match; rewrite ?Ha, ?Hb, ?Hc; try done); bool_to_prop;
      simplify_eq; try done; try lia; congruence.
  - intros [ta Ha] [tb Hb]. unfold latestRevocation, revokedNoEarlierThan, after.
    rewrite Ha, Hb. destruct (ta <? tb)%Z eqn:Hab; rewrite ?Ha, ?Hb; bool_to_prop;
      destruct (ta <? i)%Z eqn:H1', (tb <? i)%Z eqn:H2'; bool_to_prop; try done; lia.
Qed.

(** Loading the signing keys never dereferences a missing active key: it
    fails on an unreadable Secret, yields no manager exactly when there is
    no Secret and no development key, and otherwise a manager whose active
    key is one of its keys, each key's public half and id being those of its
    secret half. *)
Theorem loadSorted_active issuer filtered cache r :
  loadSorted (St := St) issuer filtered cache None = r ->
  r <> Err ErrNilDereference /\
  (r = Ok None <-> filtered = []) /\
  (forall tm, r = Ok (Some tm) -> tm_activeKey tm ∈ tm_keyPairs tm /\
     length (tm_keyPairs tm) = length filtered /\
     (forall kp, kp ∈ tm_keyPairs tm -> coherent kp)).
Proof.
  intros <-. unfold loadSorted. destruct (load_pairs filtered []) as [pairs|e] eqn:Hl; cbn [mbind result_bind].
  - destruct (load_pairs_spec _ _ _ Hl (Forall_nil_2 _)) as [Hp Hlen]. simpl in Hlen.
    destruct filtered as [|sec filtered]; [split_and!; [done|done|by intros tm [=]]|].
    assert (pairs <> []) as Hne by (intros ->; done).
    destruct (ensure_active_spec pairs Hne Hp) as [Hp' [k Hk]].
    unfold NewTokenManager. rewrite Hk. cbn [mbind result_bind]. split_and!; [done|done|].
    intros tm [= <-]. cbn. split_and!; [by apply KeyPairs_ActiveKey_in| |by apply Forall_forall].
    cbn [length] in *. rewrite <- Hlen. unfold ensure_active, set_active_at.
    repeat (destruct (_ && _)%bool; rewrite ?length_alter); done.
  - split_and!; [|split; [done|]|done].
    + intros [= ->]. revert Hl. generalize ([] : list KeyPair).
      induction filtered as [|sec filtered IH]; intros pairs Hl; [done|]. simpl in Hl.
      destruct (LoadKeysFromSecret _ _) as [kp|e] eqn:He; cbn [mbind result_bind] in Hl.
      * by apply IH in Hl.
      * injection Hl as ->. revert He. unfold LoadKeysFromSecret. by repeat case_match.
    + by intros ->.
Qed.

(** A jti names its triple: with no hash collision, two tokens share a
    jti only if they agree on audience, subject and action, as long as
    subjects and actions hold no colon; and no jti is ever the key of a
    subject's revocation. *)
Theorem jti_identifies aud sub act aud' sub' act' :
  (forall x y, sha256hex x = sha256hex y -> x = y) ->
  has_byte ":" sub = false -> has_byte ":" act = false ->
  has_byte ":" sub' = false -> has_byte ":" act' = false ->
  (GenerateJTI aud sub act = GenerateJTI aud' sub' act' ->
   aud = aud' /\ sub = sub' /\ act = act') /\
  GenerateJTI aud sub act <> subjectRevocationKey sub'.
Proof.
  intros Hinj Hs Ha Hs' Ha'. split.
  - unfold GenerateJTI. intros Heq%Hinj. rewrite <- !append_assoc in Heq.
    rewrite (append_assoc _ ":" act), (append_assoc _ ":" act') in Heq.
    apply append_sep_inj in Heq as [Heq ->]; [|done..].
    rewrite !append_assoc in Heq. by apply append_sep_inj in Heq as [-> ->].
  - intros Heq. pose proof (sha256hex_is_hex (aud ++ ":" ++ sub ++ ":" ++ act)) as Hh.
    unfold GenerateJTI in Heq. rewrite Heq in Hh. discriminate Hh.
Qed.
End Properties.

(** * Witnesses *)

#[local] Existing Instance timeExample.
#[local] Existing Instance pasetoExample.
#[local] Existing Instance sha256Example.
#[local] Existing Instance kindsExample.
#[local] Existing Instance kidFooterExample.

Definition exampleKey : KeyPair := mkKeyPair true "ab12" 7%nat 7%nat.

Definition exampleTM : TokenManager mapStore :=
  mkTokenManager mapStore _ _ exampleKey "https://host" [exampleKey] (24 * hour)
    (Some (emptyStore hour)) None "kdex_pat_".

Lemma exampleTM_wf : wf_tm exampleTM.
Proof.
  split; [reflexivity| |].
  - exists exampleKey. split; reflexivity.
  - right. intros payload. reflexivity.
Defined.

Definition exampleSigned : result api_error string :=
  MintStatelessKey (5 * second) exampleTM "https://api" "alice" "User" "mcp" "read" hour.

Lemma minted_validates_witness :
  exists signed, exampleSigned = Ok signed /\
  ValidateToken (fun _ => true) (6 * second) exampleTM signed "https://api" =
  Ok (mkTokenData "mcp" "https://api" 3605 5 "https://host"
        (GenerateJTI "https://api" "alice" "mcp") "ab12" 5 "read" "alice" "User").
Proof.
  eexists. split; [reflexivity|].
  rewrite (minted_validates _ (5 * second) (6 * second) exampleTM "https://api" "alice" "User"
    "mcp" "read" hour).
  - reflexivity.
  - exact exampleTM_wf.
  - unfold second, maxDuration. lia.
  - unfold second. lia.
  - unfold of_unix, unix, hour, minute, second. vm_compute. discriminate.
  - discriminate.
  - reflexivity.
  - intros s key [[= <-]|[=]] _. reflexivity.
  - reflexivity.
Defined.

Lemma validate_accepts_witness :
  exists signed, exampleSigned = Ok signed /\
  forall data, ValidateToken (fun _ => true) (6 * second) exampleTM signed "https://api" = Ok data ->
    Issuer data = "https://host" /\ Audience data = "https://api" /\ Subject data <> "".
Proof.
  eexists. split; [reflexivity|]. intros data Hv.
  destruct (validate_accepts _ _ _ _ _ _ Hv) as
    (kp & tok & iat & e & _ & _ & _ & Hi & Ha & Hs & _).
  split; [exact Hi|]. split; [apply Ha; discriminate|exact Hs].
Defined.

Lemma revoked_never_validates_witness :
  exists signed, exampleSigned = Ok signed /\
  forall now data, ValidateToken (fun _ => true) now
    (with_stores (Some (run_revocations exampleTM [(8 * second, "other", 0)]
       (recordRevocation (7 * second) exampleTM (GenerateJTI "https://api" "alice" "mcp") 0
          (emptyStore hour)))) None exampleTM) signed "https://api" <> Ok data.
Proof.
  eexists. split; [reflexivity|]. intros now data.
  apply (revoked_never_validates _ (5 * second) (7 * second) now exampleTM "https://api" "alice"
    "User" "mcp" "read" hour).
  - exact exampleTM_wf.
  - unfold second. lia.
  - unfold second, maxDuration. lia.
  - left. reflexivity.
  - reflexivity.
  - left. reflexivity.
  - repeat constructor; unfold second, maxDuration; simpl; lia.
Defined.

Lemma unwrap_wrap_witness :
  unwrap "kdex_pat_" (wrap "kdex_pat_" (V4Sign 7%nat ∅ "f")) = V4Sign 7%nat ∅ "f".
Proof. apply unwrap_wrap. right. intros payload. reflexivity. Defined.

Lemma adopt_merges_witness :
  exists n tm', AdoptStrandedRevocations 5
    [mkScanEntry "0" "j" 10 "3"; mkScanEntry "x" "j" 20 "4"] exampleTM = Ok (n, tm') /\
    AdoptStrandedRevocations 5 [mkScanEntry "0" "j" 10 "3"; mkScanEntry "x" "j" 20 "4"] tm' =
    Ok (0%nat, tm').
Proof.
  destruct (adopt_merges 5 [mkScanEntry "0" "j" 10 "3"; mkScanEntry "x" "j" 20 "4"] exampleTM
    (emptyStore hour) eq_refl) as (n & tm' & s' & H1 & _ & _ & H2). eauto.
Defined.

Lemma latestRevocation_join_witness :
  revokedNoEarlierThan (latestRevocation "3" "4") 4 =
  (revokedNoEarlierThan "3" 4 || revokedNoEarlierThan "4" 4)%bool.
Proof. apply (latestRevocation_join "3" "4" "5" 4); eexists; reflexivity. Defined.

Definition exampleSecret (active : bool) (created : Z) : Secret :=
  mkSecret (<["kdex.dev/secret-type" := "api-key"]>
             (if active then {[ "kdex.dev/active-key" := "true" ]} else ∅))
    created {[ "private-key" := "secret" ]}.

Lemma loadSorted_active_witness :
  exists tm : TokenManager mapStore,
    loadSorted "iss" [exampleSecret false 1; exampleSecret false 2] None None = Ok (Some tm) /\
    tm_activeKey tm ∈ tm_keyPairs tm.
Proof.
  eexists. split; [reflexivity|].
  eapply (loadSorted_active "iss" [exampleSecret false 1; exampleSecret false 2] None _ eq_refl).
  reflexivity.
Defined.

Lemma hex_digit_inj a b : (a < 16)%N -> (b < 16)%N -> hex_digit a = hex_digit b -> a = b.
Proof.
  unfold hex_digit. intros Ha Hb Heq. apply (f_equal N_of_ascii) in Heq.
  rewrite !N_ascii_embedding in Heq by (repeat case_match; lia).
  destruct (a <? 10)%N eqn:H1, (b <? 10)%N eqn:H2;
    rewrite ?N.ltb_lt, ?N.ltb_ge in *; lia.
Qed.

Lemma hexEncode_inj x y : hexEncode x = hexEncode y -> x = y.
Proof.
  revert y. induction x as [|c x IH]; intros [|d y] Heq; try done. cbn [hexEncode] in Heq.
  injection Heq as H1 H2 Heq. apply IH in Heq as ->. f_equal.
  assert (forall e, (N_of_ascii e / 16 < 16)%N /\ (N_of_ascii e mod 16 < 16)%N) as Hb.
  { intros e. pose proof (N_ascii_bounded e). split; [apply N.Div0.div_lt_upper_bound; lia|].
    apply N.mod_lt. lia. }
  destruct (Hb c), (Hb d). apply hex_digit_inj in H1, H2; try done.
  rewrite <- (ascii_N_embedding c), <- (ascii_N_embedding d). f_equal.
  rewrite (N.div_mod (N_of_ascii c) 16), (N.div_mod (N_of_ascii d) 16) by lia. congruence.
Qed.

Lemma jti_identifies_witness :
  (GenerateJTI "https://a" "alice" "mcp" = GenerateJTI "https://a" "bob" "mcp" ->
   "https://a" = "https://a" /\ "alice" = "bob" /\ "mcp" = "mcp") /\
  GenerateJTI "https://a" "alice" "mcp" <> subjectRevocationKey "bob".
Proof. apply jti_identifies; [exact hexEncode_inj|reflexivity..]. Defined.

(** * Two findings *)

(** A Secret annotated active deactivates only the key just before it: with
    the oldest and the newest of three annotated, two keys stay active and the
    oldest signs. *)
Lemma two_active_keys_oldest_signs :
  let secrets := [exampleSecret true 1; exampleSecret false 2; exampleSecret true 3] in
  match APITokenManagerLoader (St := mapStore) "iss" secrets None None with
  | Ok (Some tm) =>
      ActiveKey <$> tm_keyPairs tm = [true; false; true] /\
      head (tm_keyPairs tm) = Some (tm_activeKey tm)
  | _ => False
  end.
Proof. split; reflexivity. Qed.

(** A colon in the subject moves the boundary: two different tokens share a
    jti, and so a revocation. *)
Lemma jti_ambiguous :
  GenerateJTI "https://a" "b:c" "mcp" = GenerateJTI "https://a:b" "c" "mcp".
Proof. reflexivity. Qed.
