(* ===== verification/Clients.v ===== *)
(** The client registry (src/internal/auth/client_registry.go): every client id
    the host has ever had configured, and when it last left or came back. *)
From S2P Require Import Prelude GoStr Store Deps.
From Stdlib Require Import Ascii.

#[local] Open Scope string_scope.

(** * Data *)

Definition ClientIDPrefix : string := "dcr_".

Record AuthClient := mkAuthClient {
  AllowedGrantTypes : list string;
  AllowedScopes : list string;
  AllowedResources : list string;
  ac_ClientID : string;
  ClientSecret : string;
  Description : string;
  Name : string;
  Public_ : bool;
  RedirectURIs : list string;
  RequireConsent : bool;
  RequirePKCE : bool;
}.

Record clientRecord := mkClientRecord { Present : bool; RemovedAt : Z }.

#[global] Instance clientRecord_eq_dec : EqDecision clientRecord.
Proof. solve_decision. Defined.

Abbreviation registry := (gmap string clientRecord).

(** Byte-wise order, as [slices.Sort] sorts strings. *)
Definition string_le (s t : string) : Prop := String.leb s t = true.

#[global] Instance string_le_dec s t : Decision (string_le s t).
Proof. unfold string_le. apply _. Defined.

#[global] Instance string_le_trans : Transitive string_le.
Proof.
  intros s t u Hst Htu. apply Is_true_true. transitivity t; by apply Is_true_true.
Qed.

#[global] Instance string_le_total : Total string_le.
Proof. intros s t. destruct (String.leb_total s t); [by left|by right]. Qed.

Definition sort_strings (l : list string) : list string := merge_sort string_le l.

(** * Merging *)

Record registryMerge := mkMerge {
  rm_registry : registry;
  recorded : list string;
  readded : list string;
  removed : list string;
  changed : bool;
}.

Definition emptyMerge : registryMerge := mkMerge ∅ [] [] [] false.

(** The first loop, on one configured id. *)
Definition merge_configured (now : Z) (acc : registry * list string * list string) (id : string)
    : registry * list string * list string :=
  let '(reg, recorded, readded) := acc in
  match reg !! id with
  | None => (<[id := mkClientRecord true 0]> reg, recorded ++ [id], readded)
  | Some rec =>
      if Present rec then (reg, recorded, readded)
      else (<[id := mkClientRecord true (Z.max (RemovedAt rec) now)]> reg, recorded, readded ++ [id])
  end%list.

(** The second loop changes only the entry it is at. *)
Definition mark_removed (configured : list string) (now : Z) (id : string) (rec : clientRecord)
    : option clientRecord :=
  Some (if (Present rec && negb (contains_elem configured id))%bool
        then mkClientRecord false (Z.max (RemovedAt rec) now) else rec).

Definition is_removed (configured : list string) (x : string * clientRecord) : Prop :=
  Present x.2 = true /\ x.1 ∉ configured.

#[global] Instance is_removed_dec configured x : Decision (is_removed configured x).
Proof. unfold is_removed. apply _. Defined.

Definition mergeClientRegistry (have : registry) (configured : list string) (now : Z) : registryMerge :=
  let '(reg, recorded, readded) := foldl (merge_configured now) (have, [], []) configured in
  let removed := sort_strings (filter (is_removed configured) (map_to_list reg)).*1 in
  mkMerge (map_imap (mark_removed configured now) reg) recorded readded removed
    ((0 <? length recorded)%nat || (0 <? length readded)%nat || (0 <? length removed)%nat).

(** * Storage *)

(** [encoding/json] on the stored value: the text of a registry, and a decoder
    that gives the object (nil for [null]; a record may be [null] too) and
    whether anything follows it, or fails. *)
Class RegistryJSON := {
  MarshalRegistry : registry -> string;
  DecodeRegistry : string -> option (option (gmap string (option clientRecord)) * bool);
  Decode_Marshal r : DecodeRegistry (MarshalRegistry r) = Some (Some (Some <$> r), false);
}.

Inductive registry_error := ErrDecode | ErrTrailing | ErrNotObject | ErrInvalidRecord.

Definition valid_record (rec : option clientRecord) : Prop :=
  match rec with Some r => 0 <= RemovedAt r | None => False end.

#[global] Instance valid_record_dec rec : Decision (valid_record rec).
Proof. unfold valid_record. destruct rec; apply _. Defined.

Section Registry.
Context `{!RegistryJSON}.

Definition decodeClientRegistry (value : string) : result registry_error registry :=
  match DecodeRegistry value with
  | None => Err ErrDecode
  | Some (stored, trailing) =>
      if trailing : bool then Err ErrTrailing else
      match stored with
      | None => Err ErrNotObject
      | Some stored =>
          if decide (map_Forall (fun _ rec => valid_record rec) stored)
          then Ok (omap id stored) else Err ErrInvalidRecord
      end
  end.

(** The ids of the configuration that are recorded. *)
Definition registry_ids (configured : gmap string AuthClient) : list string :=
  sort_strings (filter (fun id => id <> "" /\ HasPrefix id ClientIDPrefix = false)
    (map_to_list configured).*1).

(** The closure of the [Update], on what the store hands it: its failure,
    the merge it computed, and what it writes. *)
Definition registry_attempt (ids : list string) (now : Z) (current : string) (found : bool)
    : result registry_error registryMerge * (string * bool) :=
  match (if found then decodeClientRegistry current else Ok ∅) with
  | Err e => (Err e, ("", false))
  | Ok have =>
      let merged := mergeClientRegistry have ids now in
      if (found && negb (changed merged))%bool then (Ok merged, ("", false))
      else (Ok merged, (MarshalRegistry (rm_registry merged), true))
  end.

Definition clientRegistryKey : string := "ids".

Section Load.
Context {St} `{CacheOps St}.

(** The fast path, on the store as its [Get] finds it. *)
Definition registry_fast (ids : list string) (now : Z) (s : St)
    : option (result registry_error registry) :=
  match peek now clientRegistryKey s with
  | None => None
  | Some value =>
      match decodeClientRegistry value with
      | Err e => Some (Err e)
      | Ok have =>
          let m := mergeClientRegistry have ids now in
          if changed m then None else Some (Ok (rm_registry m))
      end
  end.

(** The atomic [Update], on the store as it finds it. *)
Definition registry_update (ids : list string) (now : Z) (s : St)
    : result registry_error registry * St :=
  let view := peek now clientRegistryKey s in
  let '(_, s') := cUpdate now clientRegistryKey
    (fun current found => (registry_attempt ids now current found).2) [WithoutExpiry] s in
  match (registry_attempt ids now (default "" view) (found view)).1 with
  | Err e => (Err e, s')
  | Ok merged => (Ok (rm_registry merged), s')
  end.

(** [s1] is the store at the [Get], [s2] at the [Update]: a peer replica may
    have written between the two. *)
Definition loadClientRegistry (now : Z) (configured : gmap string AuthClient) (s1 s2 : St)
    : result registry_error registry * St :=
  let ids := registry_ids configured in
  match registry_fast ids now s1 with
  | Some r => (r, s2)
  | None => registry_update ids now s2
  end.
End Load.

(** Without a cache manager only the configured ids are known. *)
Definition registry_without_cache (configured : gmap string AuthClient) : registry :=
  list_to_map ((fun id => (id, mkClientRecord true 0)) <$> registry_ids configured).
End Registry.

(** * Lemmas *)

Definition first_loop (now : Z) (have : registry) (configured : list string) : registry :=
  (foldl (merge_configured now) (have, [], []) configured).1.1.

(** What the first loop does to one id. *)
Definition configured_record (now : Z) (old : option clientRecord) : clientRecord :=
  match old with
  | None => mkClientRecord true 0
  | Some rec => if Present rec then rec else mkClientRecord true (Z.max (RemovedAt rec) now)
  end.

Lemma first_loop_lookup now configured : forall reg rc rd id,
  ((foldl (merge_configured now) (reg, rc, rd) configured).1.1 : registry) !! id =
  if decide (id ∈ configured) then Some (configured_record now (reg !! id)) else reg !! id.
Proof.
  induction configured as [|x l IH]; intros reg rc rd id; cbn [foldl].
  { by rewrite decide_False by apply not_elem_of_nil. }
  assert (exists rc' rd', merge_configured now (reg, rc, rd) x =
    (<[x := configured_record now (reg !! x)]> reg, rc', rd')) as (rc' & rd' & ->).
  { unfold merge_configured, configured_record.
    destruct (reg !! x) as [r|] eqn:Hr; [|eauto]. destruct (Present r) eqn:Hp; [|eauto].
    exists rc, rd. by rewrite insert_id. }
  rewrite IH. destruct (decide (id = x)) as [->|Hne].
  - rewrite lookup_insert_eq, (decide_True (P := x ∈ x :: l)) by left.
    case_decide; [|done]. f_equal. unfold configured_record.
    destruct (reg !! x) as [r|]; simpl; [|done]. destruct (Present r) eqn:Hp; simpl; [by rewrite Hp|done].
  - rewrite lookup_insert_ne by done. case_decide; [rewrite decide_True by (by right); done|].
    rewrite decide_False; [done|]. by intros [?|?]%elem_of_cons.
Qed.

(** The merged record of one id. *)
Definition merged_record (configured : list string) (now : Z) (id : string)
    (old : option clientRecord) : option clientRecord :=
  if decide (id ∈ configured) then Some (configured_record now old)
  else (fun rec => if Present rec then mkClientRecord false (Z.max (RemovedAt rec) now) else rec) <$> old.

Lemma configured_record_present now old : Present (configured_record now old) = true.
Proof. unfold configured_record. destruct old as [r|]; [|done]. by destruct (Present r) eqn:H. Qed.

Lemma mergeClientRegistry_lookup have configured now id :
  rm_registry (mergeClientRegistry have configured now) !! id =
  merged_record configured now id (have !! id).
Proof.
  unfold mergeClientRegistry, merged_record.
  pose proof (first_loop_lookup now configured have [] [] id) as Hl.
  destruct (foldl _ _ _) as [[reg rc] rd]. simpl in Hl. cbn [rm_registry].
  rewrite map_lookup_imap, Hl. unfold mark_removed. case_decide as Hin; simpl.
  - rewrite (proj2 (contains_elem_spec configured id)) by done.
    by rewrite andb_false_r.
  - assert (contains_elem configured id = false) as ->.
    { apply not_true_iff_false. by rewrite contains_elem_spec. }
    destruct (have !! id) as [r|]; simpl; [|done]. by rewrite andb_true_r.
Qed.

(** A record is never dropped and its cutoff never moves back. *)
Lemma merged_record_mono configured now id old rec :
  old = Some rec -> exists rec', merged_record configured now id old = Some rec' /\
    RemovedAt rec <= RemovedAt rec'.
Proof.
  intros ->. unfold merged_record, configured_record. case_decide; simpl.
  - eexists. split; [done|]. destruct (Present rec); simpl; lia.
  - eexists. split; [done|]. destruct (Present rec); simpl; lia.
Qed.

(** A merge that records, re-adds and removes nothing is the identity. *)
Lemma first_loop_quiet now l : forall reg rc rd,
  let r := foldl (merge_configured now) (reg, rc, rd) l in
  (length rc <= length r.1.2)%nat /\ (length rd <= length r.2)%nat /\
  (length r.1.2 = length rc -> length r.2 = length rd ->
   r.1.1 = reg /\ forall x, x ∈ l -> exists rec, reg !! x = Some rec /\ Present rec = true).
Proof.
  cbn zeta. induction l as [|x l IH]; intros reg rc rd; cbn [foldl fst snd].
  { split_and!; [done|done|]. intros _ _. split; [done|]. by intros x ?%elem_of_nil. }
  destruct (reg !! x) as [rec|] eqn:Hx; [destruct (Present rec) eqn:Hp|].
  - assert (merge_configured now (reg, rc, rd) x = (reg, rc, rd)) as ->.
    { unfold merge_configured. by rewrite Hx, Hp. }
    destruct (IH reg rc rd) as (? & ? & Hq). split_and!; [done|done|].
    intros H1 H2. destruct (Hq H1 H2) as [Hr Hall]. split; [done|].
    intros y [->|Hy]%elem_of_cons; [eauto|by apply Hall].
  - assert (exists reg', merge_configured now (reg, rc, rd) x = (reg', rc, rd ++ [x])%list) as [reg' ->].
    { unfold merge_configured. rewrite Hx, Hp. eauto. }
    destruct (IH reg' rc (rd ++ [x])%list) as (? & H2 & _). rewrite length_app in H2. simpl in H2.
    split_and!; [done|lia|]. intros _ ?. lia.
  - assert (exists reg', merge_configured now (reg, rc, rd) x = (reg', rc ++ [x], rd)%list) as [reg' ->].
    { unfold merge_configured. rewrite Hx. eauto. }
    destruct (IH reg' (rc ++ [x])%list rd) as (H1 & ? & _). rewrite length_app in H1. simpl in H1.
    split_and!; [lia|done|]. intros ?. lia.
Qed.

Lemma length_merge_sort_strings l : length (sort_strings l) = length l.
Proof. unfold sort_strings. by rewrite merge_sort_Permutation. Qed.

Lemma mergeClientRegistry_unchanged have configured now :
  changed (mergeClientRegistry have configured now) = false ->
  rm_registry (mergeClientRegistry have configured now) = have.
Proof.
  intros Hc. apply map_eq. intros id. rewrite mergeClientRegistry_lookup.
  unfold mergeClientRegistry in Hc.
  destruct (first_loop_quiet now configured have [] []) as (_ & _ & Hq).
  destruct (foldl _ _ _) as [[reg rc] rd]. cbn [fst snd changed] in *.
  apply orb_false_iff in Hc as [Hc Hr]. apply orb_false_iff in Hc as [H1 H2].
  rewrite Nat.ltb_ge in H1, H2, Hr. rewrite length_merge_sort_strings, length_fmap in Hr.
  destruct (Hq ltac:(simpl; lia) ltac:(simpl; lia)) as [-> Hall].
  unfold merged_record. case_decide as Hin.
  - destruct (Hall id Hin) as (rec & Hrec & Hp). rewrite Hrec. unfold configured_record. by rewrite Hp.
  - destruct (have !! id) as [rec|] eqn:Hrec; simpl; [|done]. destruct (Present rec) eqn:Hp; [|done].
    exfalso. assert ((id, rec) ∈ filter (is_removed configured) (map_to_list have)) as Hf.
    { apply list_elem_of_filter. split; [by split|]. by apply elem_of_map_to_list. }
    destruct (filter (is_removed configured) (map_to_list have)); [by apply elem_of_nil in Hf|].
    simpl in Hr. lia.
Qed.

(** Builds, one after another: the registry each leaves. *)
Definition merge_run (builds : list (list string * Z)) (reg : registry) : registry :=
  foldl (fun reg b => rm_registry (mergeClientRegistry reg b.1 b.2)) reg builds.

Lemma merge_run_mono builds : forall reg id rec,
  reg !! id = Some rec ->
  exists rec', merge_run builds reg !! id = Some rec' /\ RemovedAt rec <= RemovedAt rec'.
Proof.
  unfold merge_run. induction builds as [|[ids now] builds IH]; intros reg id rec Hrec.
  { exists rec. split; [done|lia]. }
  cbn [foldl fst snd].
  destruct (merged_record_mono ids now id _ _ Hrec) as (rec1 & H1 & Hle).
  rewrite <- mergeClientRegistry_lookup in H1.
  destruct (IH _ id rec1 H1) as (rec' & ? & ?). exists rec'. split; [done|lia].
Qed.

Definition registry_valid (reg : registry) : Prop := map_Forall (fun _ rec => 0 <= RemovedAt rec) reg.

Lemma decodeClientRegistry_Marshal `{!RegistryJSON} reg :
  registry_valid reg -> decodeClientRegistry (MarshalRegistry reg) = Ok reg.
Proof.
  intros Hv. unfold decodeClientRegistry. rewrite Decode_Marshal.
  rewrite decide_True.
  - f_equal. apply map_eq. intros id. rewrite lookup_omap, lookup_fmap.
    by destruct (reg !! id).
  - intros id rec. rewrite lookup_fmap. destruct (reg !! id) as [r|] eqn:Hr; simpl; [|done].
    intros [= <-]. by apply (Hv id).
Qed.

Lemma mergeClientRegistry_valid reg ids now :
  0 <= now -> registry_valid reg -> registry_valid (rm_registry (mergeClientRegistry reg ids now)).
Proof.
  intros Hn Hv id rec. rewrite mergeClientRegistry_lookup. unfold merged_record, configured_record.
  destruct (reg !! id) as [r|] eqn:Hr.
  - assert (0 <= RemovedAt r) by exact (Hv id r Hr).
    case_decide; simpl; intros [= <-]; destruct (Present r); simpl; lia.
  - case_decide; simpl; [intros [= <-]; simpl; lia|done].
Qed.
