(* ===== verification/Roles.v ===== *)
(** Roles and their bindings (src/internal/auth/roles.go): the matcher of
    KDexRoleBindings, the compiler of KDexRoles to entitlements, the chain of
    credential lookups and the Secret-backed lookup. *)
From S2P Require Import Prelude GoStr Deps Claims Clients.
From Stdlib Require Import Ascii.

#[local] Open Scope string_scope.

(** * What the provider reads of the cluster *)

(** [kdexv1alpha1.PolicyRule]. *)
Record PolicyRule := mkRule {
  Resources : list string;
  ResourceNames : list string;
  Verbs : list string;
  Scopes : list string;
}.

Record KDexRole := mkRole { role_Name : string; Rules : list PolicyRule }.

(** [KDexRoleBinding]: [SubjectKinds] may be absent. *)
Record KDexRoleBinding := mkBinding {
  rb_Name : string;
  rb_Roles : list string;
  rb_Subject : string;
  rb_SubjectKinds : option (list string);
}.

(** Package regexp: what the matcher uses of it. *)
Class Regexp := {
  regex : Type;
  Compile : string -> option regex;
  MatchString : regex -> string -> bool;
  anything : regex;
  Compile_anything : Compile ".*" = Some anything;
  Match_anything s : MatchString anything s = true;
}.

(** * Bindings *)

Record compiledBinding := mkCompiled {
  cb_name : string;
  cb_roles : list string;
  narrowed : bool;
  kinds : list string;
}.

(** [BindingSubject]. *)
Record BindingSubject := mkSubject { bs_Key : string; bs_Kind : string; bs_Site : string }.

(** [BindingNames]. *)
Record BindingNames := mkNames { Contributed : list string; SkippedForKind : list string }.

Section Bindings.
Context `{!SubjectKinds} `{!Regexp}.

Definition admits (cb : compiledBinding) (kind : string) : bool :=
  (negb (narrowed cb) || (Known kind && contains_elem (kinds cb) kind))%bool.

Record scopeProvider := mkProvider {
  sp_rolesMap : gmap string (list string);
  sp_exactBindings : gmap string (list compiledBinding);
  sp_patternBindings : list (regex * compiledBinding);
}.

Definition compile_binding (b : KDexRoleBinding) : compiledBinding :=
  mkCompiled (rb_Name b) (rb_Roles b) (found (rb_SubjectKinds b)) (default [] (rb_SubjectKinds b)).

(** The subject's form: what [NewRoleProvider] makes of it. *)
Inductive subject_form := Wildcard | Regex (source : string) | Exact.

Definition form_of (sub : string) : subject_form :=
  if String.eqb sub "*" then Wildcard
  else if (HasPrefix sub "/" && HasSuffix sub "/" && (2 <? String.length sub)%nat)%bool
  then Regex (String.substring 1 (String.length sub - 2) sub)
  else Exact.

(** One turn of [NewRoleProvider]'s loop over the bindings. *)
Definition add_binding
    (acc : gmap string (list compiledBinding) * list (regex * compiledBinding))
    (b : KDexRoleBinding) :=
  let '(exact, patterns) := acc in
  let cb := compile_binding b in
  let sub := rb_Subject b in
  match form_of sub with
  | Wildcard => (exact, patterns ++ [(anything, cb)])
  | Regex source =>
      match Compile source with
      | None => (exact, patterns)
      | Some re => (exact, patterns ++ [(re, cb)])
      end
  | Exact => (<[sub := (default [] (exact !! sub) ++ [cb])]> exact, patterns)
  end%list.

(** * Grants *)

Definition malformedGrantPart (resource resourceName verb : string) : string :=
  if Contains resource ":" then "resource contains ':'"
  else if Contains verb ":" then "verb contains ':'"
  else if ContainsAny resourceName ":{}" then "resourceName contains ':', '{' or '}'"
  else "".

Definition refusal (reason part : string) : list string :=
  if String.eqb reason "" then [] else [reason ++ ": " ++ part].

Definition ruleRefusals (rule : PolicyRule) : list string :=
  (Resources rule ≫= fun r => refusal (malformedGrantPart r "" "") r) ++
  (ResourceNames rule ≫= fun n => refusal (malformedGrantPart "" n "") n) ++
  (Verbs rule ≫= fun v => refusal (malformedGrantPart "" "" v) v) ++
  (Scopes rule ≫= fun sc =>
     if Contains sc ":" then ["opaque scope contains ':': " ++ sc] else []).

Definition grant (resource resourceName verb : string) : string :=
  resource ++ ":" ++ resourceName ++ ":" ++ verb.

(** The entitlements of one rule. *)
Definition rule_entitlements (rule : PolicyRule) : list string :=
  match Scopes rule with
  | _ :: _ => filter (fun sc => Contains sc ":" = false) (Scopes rule)
  | [] =>
      let resourceNames := match ResourceNames rule with [] => [""] | l => l end in
      Resources rule ≫= fun resource =>
      resourceNames ≫= fun resourceName =>
      Verbs rule ≫= fun verb =>
      if String.eqb (malformedGrantPart resource resourceName verb) ""
      then [grant resource resourceName verb] else []
  end.

(** A later role of the same name replaces an earlier one. *)
Definition buildMappingTable (roles : list KDexRole) : gmap string (list string) :=
  foldl (fun table role => <[role_Name role := Rules role ≫= rule_entitlements]> table) ∅ roles.

(** [RoleInfo] and [roleInfos]: the host's roles as listed, sorted by name. *)
Record RoleInfo := mkRoleInfo {
  ri_Name : string; ri_Rules : list PolicyRule; ri_Entitlements : list string }.

Definition info_le (a b : RoleInfo) : Prop := string_le (ri_Name a) (ri_Name b).

#[global] Instance info_le_dec a b : Decision (info_le a b).
Proof. unfold info_le. apply _. Defined.

Definition roleInfos (roles : list KDexRole) (table : gmap string (list string)) : list RoleInfo :=
  merge_sort info_le
    ((fun role => mkRoleInfo (role_Name role) (Rules role)
        (default [] (table !! role_Name role))) <$> roles).

(** [NewRoleProvider], the cluster's lists read. *)
Definition NewRoleProvider (roles : list KDexRole) (bindings : list KDexRoleBinding) : scopeProvider :=
  let '(exact, patterns) := foldl add_binding (∅, []) bindings in
  mkProvider (buildMappingTable roles) exact patterns.

Definition collectEntitlements (rp : scopeProvider) (roles : list string) : list string :=
  roles ≫= fun role => default [] (sp_rolesMap rp !! role).

(** * Matching *)

(** [match]: the roles so far and the names, when they are collected. *)
Definition match_binding (kind : string) (acc : list string * option BindingNames)
    (cb : compiledBinding) : list string * option BindingNames :=
  let '(roles, names) := acc in
  if negb (admits cb kind) then
    (roles, (fun n => mkNames (Contributed n) (SkippedForKind n ++ [cb_name cb])) <$> names)
  else
    (roles ++ cb_roles cb,
     (fun n => mkNames (Contributed n ++ [cb_name cb]) (SkippedForKind n)) <$> names)%list.

Definition match_pattern (bs : BindingSubject) (acc : list string * option BindingNames)
    (pb : regex * compiledBinding) : list string * option BindingNames :=
  let '(re, cb) := pb in
  if (negb (found acc.2) && negb (admits cb (bs_Kind bs)))%bool then acc
  else if MatchString re (bs_Key bs) then match_binding (bs_Kind bs) acc cb
  else acc.

Definition resolveRoles (rp : scopeProvider) (bs : BindingSubject) (names : option BindingNames)
    : list string * option BindingNames :=
  let exact := default [] (sp_exactBindings rp !! bs_Key bs) in
  foldl (match_pattern bs) (foldl (match_binding (bs_Kind bs)) ([], names) exact)
    (sp_patternBindings rp).

Definition FindInternalRolesAndEntitlements (rp : scopeProvider) (bs : BindingSubject)
    (names : option BindingNames) : (list string * list string) * option BindingNames :=
  let '(roles, names) := resolveRoles rp bs names in
  ((roles, collectEntitlements rp roles), names).

(** [resolveBindings] collects names only when the site's log level is on. *)
Definition resolveBindings (logEnabled : bool) (rp : scopeProvider) (bs : BindingSubject)
    : list string * list string :=
  (FindInternalRolesAndEntitlements rp bs
     (if logEnabled then Some (mkNames [] []) else None)).1.
End Bindings.

(** * Lookups *)

(** The errors a lookup can answer with, and the ones the chain returns. *)
Inductive lookup_error := ErrLookupUnavailable | ErrInvalidPassword.

Inductive find_error :=
| ErrServerUnavailable (lookupType : string)
| ErrLookupRejected (e : lookup_error)
| ErrInvalidCredentials.

(** [Lookup]. *)
Record Lookup := mkLookup {
  lk_FindInternal : string -> string -> result lookup_error (option claims);
  lk_ResolveClaims : string -> result unit claims;
  lk_Type : string;
}.

Section Chain.
Context `{!SubjectKinds} `{!Regexp}.

Fixpoint first_lookup (lookups : list Lookup) (subject password : string)
    : result find_error (option (claims * string)) :=
  match lookups with
  | [] => Ok None
  | lookup :: lookups =>
      match lk_FindInternal lookup subject password with
      | Err ErrLookupUnavailable => Err (ErrServerUnavailable (lk_Type lookup))
      | Err e => Err (ErrLookupRejected e)
      | Ok (Some identity) => Ok (Some (identity, lk_Type lookup))
      | Ok None => first_lookup lookups subject password
      end
  end.

Definition SiteLocalLogin : string := "local login".

Definition FindInternalWithSource (logEnabled : bool) (rp : scopeProvider) (lookups : list Lookup)
    (subject password : string) : result find_error (claims * string) :=
  match first_lookup lookups subject password with
  | Err e => Err e
  | Ok None => Err ErrInvalidCredentials
  | Ok (Some (localIdentity, source)) =>
      let sub := str_claim localIdentity "sub" in
      let subjectForRoles := if String.eqb sub "" then subject else sub in
      let '(roles, entitlements) :=
        resolveBindings logEnabled rp (mkSubject subjectForRoles SubjectKindUser SiteLocalLogin) in
      Ok (<["entitlements" := VStrs entitlements]> $ <["roles" := VStrs roles]> localIdentity, source)
  end.

Definition FindInternal (logEnabled : bool) (rp : scopeProvider) (lookups : list Lookup)
    (subject password : string) : result find_error claims :=
  match FindInternalWithSource logEnabled rp lookups subject password with
  | Ok (identity, _) => Ok identity
  | Err e => Err e
  end.

(** The first writer of a key wins. *)
Definition merge_first (merged cs : claims) : claims := merged ∪ cs.

(** [None] is a nil map. *)
Definition resolve_one (merged : option claims) (lookup : Lookup) (subject : string) : option claims :=
  match lk_ResolveClaims lookup subject with
  | Err _ => merged
  | Ok cs => if decide (cs = ∅) then merged else Some (merge_first (default ∅ merged) cs)
  end.

Definition ResolveClaims (lookups : list Lookup) (subject : string) : option claims :=
  if String.eqb subject "" then None
  else foldl (fun merged lookup => resolve_one merged lookup subject) None lookups.

Definition ResolveClaimsWithError (lookups : list Lookup) (subject : string)
    : result unit (option claims) :=
  if String.eqb subject "" then Ok None
  else foldl (fun acc lookup =>
      merged ← acc; cs ← lk_ResolveClaims lookup subject;
      Ok (if decide (cs = ∅) then merged else Some (merge_first (default ∅ merged) cs)))
    (Ok None) lookups.
End Chain.

(** * The Secret-backed lookup *)

Definition byte_at (b : string) (i : nat) (c : ascii) : bool :=
  match String.get i b with Some d => Ascii.eqb d c | None => false end.

Definition looksLikeBcrypt (b : string) : bool :=
  if ((String.length b <? 4)%nat || negb (byte_at b 0 "$"%char) || negb (byte_at b 1 "2"%char) ||
      negb (byte_at b 3 "$"%char))%bool
  then false
  else (byte_at b 2 "a"%char || byte_at b 2 "b"%char || byte_at b 2 "x"%char || byte_at b 2 "y"%char)%bool.

(** bcrypt, and yaml decoding of a stored value. *)
Class SecretCodecs := {
  CompareHashAndPassword : string -> string -> bool;
  UnmarshalYAML : string -> option value;
}.

Section SecretLookup.
Context `{!SecretCodecs}.

Definition bytes_are (data : gmap string string) (k subject : string) : bool :=
  match data !! k with Some v => String.eqb v subject | None => false end.

Definition password_matches (passBytes password : string) : bool :=
  if looksLikeBcrypt passBytes then CompareHashAndPassword passBytes password
  else String.eqb passBytes password.

Definition secret_claims (data : gmap string string) : claims :=
  (fun bts => default (VStr bts) (UnmarshalYAML bts)) <$> delete "password" data.

(** [secretLookup.FindInternal], over the data of the subject Secrets. *)
Fixpoint secretLookup_FindInternal (secrets : list (gmap string string)) (subject password : string)
    : result lookup_error (option claims) :=
  match secrets with
  | [] => Ok None
  | data :: secrets =>
      if (bytes_are data "sub" subject || bytes_are data "email" subject)%bool then
        match data !! "password" with
        | Some passBytes =>
            if password_matches passBytes password then Ok (Some (secret_claims data))
            else Err ErrInvalidPassword
        | None => Err ErrInvalidPassword
        end
      else secretLookup_FindInternal secrets subject password
  end.
End SecretLookup.

(** * The LDAP lookup's configuration *)

Record ldapLookup := mkLdap {
  activeDirectory : bool;
  ldap_addr : string;
  attributeMappings : gmap string string;
  baseDN : string;
  bindUser : string;
  bindPass : string;
  userFilter : string;
}.

Definition openLDAPAttributes : gmap string string :=
  list_to_map [("dn", "sub"); ("uid", "preferred_username"); ("cn", "name");
    ("givenName", "given_name"); ("sn", "surname"); ("mail", "email");
    ("email_verified", "email_verified"); ("memberOf", "roles")].

Definition activeDirectoryAttributes : gmap string string :=
  list_to_map [("objectGUID", "sub"); ("sAMAccountName", "preferred_username");
    ("displayName", "name"); ("givenName", "given_name"); ("sn", "surname"); ("mail", "email");
    ("emailVerified", "email_verified"); ("memberOf", "roles")].

Definition data_string (data : gmap string string) (k : string) : string := default "" (data !! k).

Definition add_attribute (attributes : gmap string string) (attr : string) : gmap string string :=
  let trimmed := TrimSpace attr in
  match attributes !! trimmed with
  | Some _ => attributes
  | None => <[trimmed := trimmed]> attributes
  end.

Definition NewLDAPLookup (data : gmap string string) : ldapLookup :=
  let attributes :=
    if String.eqb (data_string data "active-directory") "true"
    then activeDirectoryAttributes else openLDAPAttributes in
  let attributes := match data !! "attributes" with
    | Some l => foldl add_attribute attributes (Split ","%char l)
    | None => attributes
    end in
  (* the composite literal leaves activeDirectory at its zero value *)
  mkLdap false (data_string data "addr") attributes (data_string data "base-dn")
    (data_string data "bind-user") (data_string data "bind-pass") (data_string data "user-filter").

(** ** What the login makes of an entry's attributes *)

Definition hex_pair (n : N) : string :=
  String (hex_digit (n / 16)%N) (String (hex_digit (n mod 16)%N) "").

(** [FormatADGUID]: the first three groups are little-endian. *)
Definition FormatADGUID (b : list N) : result unit string :=
  match b with
  | [b0; b1; b2; b3; b4; b5; b6; b7; b8; b9; b10; b11; b12; b13; b14; b15] =>
      Ok (hex_pair b3 ++ hex_pair b2 ++ hex_pair b1 ++ hex_pair b0 ++ "-" ++
          hex_pair b5 ++ hex_pair b4 ++ "-" ++ hex_pair b7 ++ hex_pair b6 ++ "-" ++
          hex_pair b8 ++ hex_pair b9 ++ "-" ++
          hex_pair b10 ++ hex_pair b11 ++ hex_pair b12 ++ hex_pair b13 ++ hex_pair b14 ++ hex_pair b15)
  | _ => Err ()
  end.

(** An attribute of an LDAP entry: its name, values, and raw first value. *)
Record Attribute := mkAttribute { at_Name : string; at_Values : list string; at_Raw : option (list N) }.

(** The loop over the entry's attributes, the password verified. *)
Definition ldap_claim (ll : ldapLookup) (current : claims) (attr : Attribute) : claims :=
  match attributeMappings ll !! at_Name attr with
  | None => current
  | Some claimName =>
      if (activeDirectory ll && String.eqb (at_Name attr) "objectGUID")%bool then
        match at_Raw attr with
        | Some raw => <[claimName := VStr match FormatADGUID raw with Ok g => g | Err _ => "" end]> current
        | None => current
        end
      else match at_Values attr with
           | [] => current
           | [v] => <[claimName := VStr v]> current
           | vs => <[claimName := VStrs vs]> current
           end
  end.

Definition ldap_claims (ll : ldapLookup) (attrs : list Attribute) : claims :=
  foldl (ldap_claim ll) ∅ attrs.
