(* ===== verification/RolesSpec.v ===== *)
(** What role resolution promises (Roles): the compiled matcher grants exactly
    the roles of the bindings that match, a narrowed binding never reaches a
    subject of another kind, compiled entitlements say what the rules say, and
    the lookup chain stops at the first backend that knows the subject. *)
From S2P Require Import Prelude GoStr Deps Claims Clients Roles.
From Stdlib Require Import Ascii.

#[local] Open Scope string_scope.

Section Lemmas.
Context `{!SubjectKinds} `{!Regexp}.

(** ** The specification: when a binding binds a subject *)

Definition subject_matches (sub key : string) : Prop :=
  match form_of sub with
  | Wildcard => True
  | Regex source => exists re, Compile source = Some re /\ MatchString re key = true
  | Exact => sub = key
  end.

Definition binds (b : KDexRoleBinding) (bs : BindingSubject) : Prop :=
  subject_matches (rb_Subject b) (bs_Key bs) /\
  match rb_SubjectKinds b with
  | None => True
  | Some ks => Known (bs_Kind bs) = true /\ bs_Kind bs ∈ ks
  end.

Lemma admits_spec b kind :
  admits (compile_binding b) kind = true <->
  match rb_SubjectKinds b with None => True | Some ks => Known kind = true /\ kind ∈ ks end.
Proof.
  unfold admits, compile_binding. simpl. destruct (rb_SubjectKinds b) as [ks|]; simpl; [|done].
  by rewrite andb_true_iff, contains_elem_spec.
Qed.

(** ** The compiled table holds the bindings *)

Definition exact_of (b : KDexRoleBinding) (key : string) (cb : compiledBinding) : Prop :=
  form_of (rb_Subject b) = Exact /\ rb_Subject b = key /\ cb = compile_binding b.

Definition pattern_of (b : KDexRoleBinding) (re : regex) (cb : compiledBinding) : Prop :=
  cb = compile_binding b /\
  ((form_of (rb_Subject b) = Wildcard /\ re = anything) \/
   exists source, form_of (rb_Subject b) = Regex source /\ Compile source = Some re).

Lemma add_binding_spec exact patterns b :
  let r := add_binding (exact, patterns) b in
  (forall key cb, cb ∈ default [] (r.1 !! key) <->
     cb ∈ default [] (exact !! key) \/ exact_of b key cb) /\
  (forall re cb, (re, cb) ∈ r.2 <-> (re, cb) ∈ patterns \/ pattern_of b re cb).
Proof.
  unfold add_binding, exact_of, pattern_of. cbn zeta.
  destruct (form_of (rb_Subject b)) as [|source|] eqn:Hf; simpl.
  - split; [intros; split; [by left|by intros [?|(?&?&?)]]|].
    intros re cb. rewrite elem_of_app, list_elem_of_singleton.
    split; [intros [?|[= -> ->]]; auto|].
    intros [?|[-> [[_ ->]|(?&?&_)]]]; [by left|by right|done].
  - destruct (Compile source) as [re0|] eqn:Hc; simpl.
    + split; [intros; split; [by left|by intros [?|(?&?&?)]]|].
      intros re cb. rewrite elem_of_app, list_elem_of_singleton.
      split; [intros [?|[= -> ->]]; eauto 10|].
      intros [?|[-> [[? _]|(s&[= <-]&Hs)]]]; [by left|done|right; congruence].
    + split; [intros; split; [by left|by intros [?|(?&?&?)]]|]. intros re cb. split; [auto|].
      intros [?|[-> [[? _]|(s&[= <-]&Hs)]]]; [done|done|congruence].
  - split.
    + intros key cb. rewrite lookup_insert. case_decide as Hk; simpl.
      * subst key. rewrite elem_of_app, list_elem_of_singleton. split.
        -- intros [?|?]; [by left|by right].
        -- intros [?|(_&_&?)]; [by left|by right].
      * split; [by left|]. intros [?|(_&?&_)]; done.
    + intros re cb. split; [auto|]. intros [?|[-> [[? _]|(?&?&_)]]]; done.
Qed.

Lemma add_bindings_spec bindings : forall acc,
  let r := foldl add_binding acc bindings in
  (forall key cb, cb ∈ default [] (r.1 !! key) <->
     cb ∈ default [] (acc.1 !! key) \/ exists b, b ∈ bindings /\ exact_of b key cb) /\
  (forall re cb, (re, cb) ∈ r.2 <->
     (re, cb) ∈ acc.2 \/ exists b, b ∈ bindings /\ pattern_of b re cb).
Proof.
  cbn zeta. induction bindings as [|b bindings IH]; intros [exact patterns]; cbn [foldl].
  { split; intros; (split; [by left|]); by intros [?|(? & ?%elem_of_nil & ?)]. }
  destruct (add_binding_spec exact patterns b) as [He Hp].
  destruct (IH (add_binding (exact, patterns) b)) as [IHe IHp].
  split; [intros key cb; rewrite IHe, He|intros re cb; rewrite IHp, Hp]; simpl;
    setoid_rewrite elem_of_cons; (split; [intros [[?|?]|(b' & ? & ?)]; eauto|]);
    (intros [?|(b' & [->|?] & ?)]; eauto).
Qed.

(** ** Folding over the matches *)

Lemma match_bindings_roles kind l : forall acc r,
  r ∈ (foldl (match_binding kind) acc l).1 <->
  r ∈ acc.1 \/ exists cb, cb ∈ l /\ admits cb kind = true /\ r ∈ cb_roles cb.
Proof.
  induction l as [|cb l IH]; intros [roles names] r; cbn [foldl].
  { split; [by left|]. by intros [?|(? & ?%elem_of_nil & _)]. }
  rewrite IH. setoid_rewrite elem_of_cons. unfold match_binding.
  destruct (admits cb kind) eqn:Ha; simpl; [rewrite elem_of_app|];
    (split; [intros [?|(cb' & ? & ? & ?)]; [|eauto 10]|intros [?|(cb' & [->|?] & ? & ?)]]);
    try tauto; try congruence; eauto 10.
  match goal with H : _ \/ _ |- _ => destruct H end; eauto 10.
Qed.

Lemma match_pattern_step bs acc re cb r :
  r ∈ (match_pattern bs acc (re, cb)).1 <->
  r ∈ acc.1 \/ (MatchString re (bs_Key bs) = true /\ admits cb (bs_Kind bs) = true /\ r ∈ cb_roles cb).
Proof.
  destruct acc as [roles names]. unfold match_pattern, match_binding. simpl.
  destruct (admits cb (bs_Kind bs)) eqn:Ha, (MatchString re (bs_Key bs)) eqn:Hm,
    (found names); simpl; rewrite ?elem_of_app;
    (split; [intros; tauto|intros [?|(?&?&?)]; congruence || tauto]).
Qed.

Lemma match_patterns_roles bs l : forall acc r,
  r ∈ (foldl (match_pattern bs) acc l).1 <->
  r ∈ acc.1 \/ exists re cb, (re, cb) ∈ l /\ MatchString re (bs_Key bs) = true /\
    admits cb (bs_Kind bs) = true /\ r ∈ cb_roles cb.
Proof.
  induction l as [|[re cb] l IH]; intros acc r; cbn [foldl].
  { split; [by left|]. by intros [?|(? & ? & ?%elem_of_nil & _)]. }
  rewrite IH, match_pattern_step. setoid_rewrite elem_of_cons. split.
  - intros [[?|(?&?&?)]|(re' & cb' & ? & ?)]; eauto 10.
  - intros [?|(re' & cb' & [[= -> ->]|?] & ?)]; eauto 10.
Qed.

(** ** Names do not matter *)

Lemma match_bindings_names kind l : forall roles n n',
  (foldl (match_binding kind) (roles, n) l).1 = (foldl (match_binding kind) (roles, n') l).1 /\
  found (foldl (match_binding kind) (roles, n) l).2 = found n.
Proof.
  induction l as [|cb l IH]; intros roles n n'; cbn [foldl]; [done|].
  unfold match_binding at 2 4 6. destruct (admits cb kind); simpl.
  - destruct (IH (roles ++ cb_roles cb)%list
      ((fun n => mkNames (Contributed n ++ [cb_name cb]) (SkippedForKind n)) <$> n)
      ((fun n => mkNames (Contributed n ++ [cb_name cb]) (SkippedForKind n)) <$> n')) as [-> ->].
    split; [done|]. by destruct n.
  - destruct (IH roles
      ((fun n => mkNames (Contributed n) (SkippedForKind n ++ [cb_name cb])) <$> n)
      ((fun n => mkNames (Contributed n) (SkippedForKind n ++ [cb_name cb])) <$> n')) as [-> ->].
    split; [done|]. by destruct n.
Qed.

Lemma match_pattern_names bs roles n n' pb :
  (match_pattern bs (roles, n) pb).1 = (match_pattern bs (roles, n') pb).1.
Proof.
  destruct pb as [re cb]. unfold match_pattern, match_binding. simpl.
  destruct (admits cb (bs_Kind bs)); rewrite ?andb_false_r; simpl.
  - by destruct (MatchString re (bs_Key bs)).
  - by destruct (found n), (found n'), (MatchString re (bs_Key bs)).
Qed.

Lemma match_patterns_names bs l : forall roles n n',
  (foldl (match_pattern bs) (roles, n) l).1 = (foldl (match_pattern bs) (roles, n') l).1.
Proof.
  induction l as [|pb l IH]; intros roles n n'; cbn [foldl]; [done|].
  pose proof (match_pattern_names bs roles n n' pb) as Heq.
  destruct (match_pattern bs (roles, n) pb) as [r1 n1],
    (match_pattern bs (roles, n') pb) as [r2 n2]. simpl in Heq. subst. apply IH.
Qed.

(** ** Grants *)

Lemma Split_app_sep sep s t :
  has_byte sep s = false -> Split sep (s ++ String sep "" ++ t) = s :: Split sep t.
Proof.
  induction s as [|c s IH]; intros Hs; simpl in *; [by rewrite Ascii.eqb_refl|].
  apply orb_false_iff in Hs as [Hc Hs]. rewrite Ascii.eqb_sym, Hc.
  specialize (IH Hs). simpl in IH. by rewrite IH.
Qed.

Lemma Split_none sep s : has_byte sep s = false -> Split sep s = [s].
Proof.
  induction s as [|c s IH]; intros Hs; simpl in *; [done|].
  apply orb_false_iff in Hs as [Hc Hs]. by rewrite Ascii.eqb_sym, Hc, IH.
Qed.

Lemma ContainsAny_false s chars c :
  ContainsAny s chars = false -> has_byte c chars = true -> has_byte c s = false.
Proof.
  induction s as [|d s IH]; [done|]. simpl. rewrite orb_false_iff. intros [Hd Hs] Hc.
  rewrite IH by done. destruct (Ascii.eqb_spec c d) as [->|]; [congruence|done].
Qed.

Lemma malformedGrantPart_ok resource resourceName verb :
  malformedGrantPart resource resourceName verb = "" <->
  has_byte ":" resource = false /\ has_byte ":" verb = false /\
  ContainsAny resourceName ":{}" = false.
Proof.
  unfold malformedGrantPart. rewrite !Contains_byte.
  destruct (has_byte ":" resource), (has_byte ":" verb), (ContainsAny resourceName ":{}");
    split; try done; intros (?&?&?); done.
Qed.

Lemma grant_segments resource resourceName verb :
  malformedGrantPart resource resourceName verb = "" ->
  Split ":" (grant resource resourceName verb) = [resource; resourceName; verb].
Proof.
  intros (Hr & Hv & Hn)%malformedGrantPart_ok.
  assert (has_byte ":" resourceName = false) as Hn'.
  { eapply ContainsAny_false; [exact Hn|reflexivity]. }
  unfold grant. change (":" ++ ?t) with (String ":" "" ++ t).
  rewrite (Split_app_sep ":" resource) by done.
  rewrite (Split_app_sep ":" resourceName) by done. by rewrite Split_none.
Qed.

Lemma elem_of_rule_entitlements rule e :
  e ∈ rule_entitlements rule ->
  (e ∈ Scopes rule /\ has_byte ":" e = false) \/
  exists r n v, r ∈ Resources rule /\ v ∈ Verbs rule /\
    (n ∈ ResourceNames rule \/ (n = "" /\ ResourceNames rule = [])) /\
    e = grant r n v /\ malformedGrantPart r n v = "".
Proof.
  unfold rule_entitlements. destruct (Scopes rule) as [|sc scs] eqn:Hs.
  - intros (r & He & Hr)%list_elem_of_bind. apply list_elem_of_bind in He as (n & He & Hn).
    apply list_elem_of_bind in He as (v & He & Hv).
    destruct (String.eqb_spec (malformedGrantPart r n v) ""); [|by apply elem_of_nil in He].
    apply list_elem_of_singleton in He as ->. right. exists r, n, v. split_and!; try done.
    destruct (ResourceNames rule); [|by left]. apply list_elem_of_singleton in Hn. by right.
  - intros [He Hin]%list_elem_of_filter. left. split; [done|]. by rewrite <- Contains_byte.
Qed.

(** Appending whole lists per element. *)
Lemma bind_singletons {A B} (f : A -> list B) (g : A -> B) l :
  (forall x, x ∈ l -> f x = [g x]) -> l ≫= f = g <$> l.
Proof.
  induction l as [|x l IH]; intros Hf; [done|]. rewrite bind_cons, (Hf x) by left. simpl.
  f_equal. apply IH. intros y Hy. apply Hf. by right.
Qed.

Lemma bind_nil_inv {A B} (f : A -> list B) l x : l ≫= f = [] -> x ∈ l -> f x = [].
Proof.
  induction l as [|y l IH]; [by intros _ ?%elem_of_nil|]. rewrite bind_cons.
  intros [? ?]%app_eq_nil [->|?]%elem_of_cons; auto.
Qed.

Lemma refusal_nil reason part : refusal reason part = [] -> reason = "".
Proof. unfold refusal. by destruct (String.eqb_spec reason ""). Qed.

Lemma bind_ext_in {A B} (f g : A -> list B) l :
  (forall x, x ∈ l -> f x = g x) -> l ≫= f = l ≫= g.
Proof.
  induction l as [|x l IH]; intros Hf; [done|]. rewrite !bind_cons, (Hf x) by left.
  f_equal. apply IH. intros y Hy. apply Hf. by right.
Qed.
End Lemmas.

(** * Properties *)

Section Properties.
Context `{!SubjectKinds} `{!Regexp}.

(** Role resolution is exactly the binding relation: a subject resolves
    to a role, with or without collecting names, if and only if some
    KDexRoleBinding grants it whose subject matches the key (exactly, by
    wildcard, or by a regex that compiles) and whose kinds, when it lists
    any, include the subject's known kind. *)
Theorem resolveRoles_spec roles bindings bs names r :
  r ∈ (resolveRoles (NewRoleProvider roles bindings) bs names).1 <->
  exists b, b ∈ bindings /\ binds b bs /\ r ∈ rb_Roles b.
Proof.
  unfold resolveRoles, NewRoleProvider.
  destruct (add_bindings_spec bindings (∅, [])) as [He Hp].
  destruct (foldl add_binding (∅, []) bindings) as [exact patterns]. simpl in *.
  rewrite match_patterns_roles, match_bindings_roles. simpl. split.
  - intros [[?%elem_of_nil|(cb & Hcb & Ha & Hr)]|(re & cb & Hcb & Hm & Ha & Hr)]; [done|..].
    + apply He in Hcb as [Hnil|(b & Hb & Hf & Hk & ->)].
      { rewrite lookup_empty in Hnil. by apply elem_of_nil in Hnil. }
      apply admits_spec in Ha. exists b. unfold binds, subject_matches. by rewrite Hf.
    + apply Hp in Hcb as [?%elem_of_nil|(b & Hb & -> & Hf)]; [done|].
      apply admits_spec in Ha. exists b. unfold binds, subject_matches.
      destruct Hf as [[-> _]|(src & -> & Hc)]; split_and!; try done. by exists re.
  - intros (b & Hb & [Hs Ha] & Hr). apply admits_spec in Ha. unfold subject_matches in Hs.
    destruct (form_of (rb_Subject b)) as [|src|] eqn:Hf.
    + right. exists anything, (compile_binding b). rewrite Hp, Match_anything.
      split_and!; try done. right. exists b. split; [done|]. split; [done|]. by left.
    + destruct Hs as (re & Hc & Hm). right. exists re, (compile_binding b). rewrite Hp.
      split_and!; try done. right. exists b. split; [done|]. split; [done|]. eauto.
    + left. right. exists (compile_binding b). rewrite He. split_and!; try done.
      right. exists b. done.
Qed.

(** Collecting the binding names for the log changes no answer: the
    roles, in order and with repetitions, are those resolved without. *)
Theorem resolveBindings_log_independent rp bs :
  resolveBindings true rp bs = resolveBindings false rp bs.
Proof.
  unfold resolveBindings, FindInternalRolesAndEntitlements, resolveRoles.
  set (exact := default [] (sp_exactBindings rp !! bs_Key bs)).
  destruct (match_bindings_names (bs_Kind bs) exact [] (Some (mkNames [] [])) None) as [He _].
  destruct (foldl (match_binding _) ([], Some _) exact) as [r1 n1],
    (foldl (match_binding _) ([], None) exact) as [r2 n2]. simpl in He. subst r2.
  pose proof (match_patterns_names bs (sp_patternBindings rp) r1 n1 n2) as Hp.
  destruct (foldl (match_pattern bs) (r1, n1) _) as [r1' n1'],
    (foldl (match_pattern bs) (r1, n2) _) as [r2' n2']. simpl in *. by subst.
Qed.

(** A kind this release does not know (or none) resolves only to roles
    of bindings without subject kinds, whatever the bindings list. *)
Theorem unknown_kind_unnarrowed_only roles bindings bs names r :
  Known (bs_Kind bs) = false ->
  r ∈ (resolveRoles (NewRoleProvider roles bindings) bs names).1 ->
  exists b, b ∈ bindings /\ rb_SubjectKinds b = None /\ subject_matches (rb_Subject b) (bs_Key bs) /\
    r ∈ rb_Roles b.
Proof.
  intros Hk. unfold resolveRoles, NewRoleProvider.
  destruct (add_bindings_spec bindings (∅, [])) as [He Hp].
  destruct (foldl add_binding (∅, []) bindings) as [exact patterns]. simpl in *.
  assert (forall b, admits (compile_binding b) (bs_Kind bs) = true -> rb_SubjectKinds b = None) as Ha.
  { intros b Hb. apply admits_spec in Hb. destruct (rb_SubjectKinds b); [|done].
    destruct Hb. congruence. }
  rewrite match_patterns_roles, match_bindings_roles. simpl.
  intros [[?%elem_of_nil|(cb & Hcb & Hadm & Hr)]|(re & cb & Hcb & Hm & Hadm & Hr)]; [done|..].
  - apply He in Hcb as [Hnil|(b & Hb & Hf & Hkey & ->)].
    { rewrite lookup_empty in Hnil. by apply elem_of_nil in Hnil. }
    exists b. unfold subject_matches. rewrite Hf. split_and!; auto.
  - apply Hp in Hcb as [?%elem_of_nil|(b & Hb & -> & Hf)]; [done|].
    exists b. unfold subject_matches. destruct Hf as [[-> _]|(src & -> & Hc)];
      split_and!; auto. by exists re.
Qed.

(** A compiled entitlement says what its rule says: it is an opaque scope
    with no colon, or it splits at its colons into exactly the resource,
    resource name and verb of the rule it came from, none of them altered. *)
Theorem entitlements_faithful roles role e es :
  buildMappingTable roles !! role = Some es -> e ∈ es ->
  exists kr rule, kr ∈ roles /\ role_Name kr = role /\ rule ∈ Rules kr /\
    ((e ∈ Scopes rule /\ has_byte ":" e = false) \/
     exists r n v, r ∈ Resources rule /\ v ∈ Verbs rule /\
       (n ∈ ResourceNames rule \/ (n = "" /\ ResourceNames rule = [])) /\
       Split ":" e = [r; n; v] /\ ContainsAny n "{}" = false).
Proof.
  unfold buildMappingTable. intros Hl He.
  assert (forall table : gmap string (list string), foldl (fun table role =>
    <[role_Name role := Rules role ≫= rule_entitlements]> table) table roles !! role = Some es ->
    table !! role = Some es \/ exists kr, kr ∈ roles /\ role_Name kr = role /\
      es = Rules kr ≫= rule_entitlements) as Hfold.
  { clear Hl. induction roles as [|kr roles IH]; intros table Ht; [by left|]. cbn [foldl] in Ht.
    apply IH in Ht as [Ht|(kr' & ? & ?)]; [|right; exists kr'; split; [by right|done]].
    rewrite lookup_insert in Ht. case_decide; [|by left]. injection Ht as <-.
    right. exists kr. split; [by left|done]. }
  apply Hfold in Hl as [Hl|(kr & Hkr & Hn & ->)]; [by rewrite lookup_empty in Hl|].
  apply list_elem_of_bind in He as (rule & He & Hrule).
  exists kr, rule. split_and!; [done..|].
  apply elem_of_rule_entitlements in He as [?|(r & n & v & ? & ? & ? & -> & Hm)]; [by left|].
  right. exists r, n, v. split_and!; [done..|by apply grant_segments|].
  apply malformedGrantPart_ok in Hm as (_ & _ & Hany).
  clear -Hany. induction n as [|c n IH]; [done|]. simpl in *.
  apply orb_false_iff in Hany as [Hc Hn]. rewrite IH by done.
  by apply orb_false_iff in Hc as [_ ->].
Qed.

(** Nothing is dropped silently: a rule with no refused part compiles to
    all its scopes, or to the full product of its resources, names and
    verbs. *)
Theorem unrefused_rule_compiles_whole rule :
  ruleRefusals rule = [] ->
  rule_entitlements rule =
  match Scopes rule with
  | [] => Resources rule ≫= fun r =>
            match ResourceNames rule with [] => [""] | l => l end ≫= fun n =>
            (fun v => grant r n v) <$> Verbs rule
  | scopes => scopes
  end.
Proof.
  unfold ruleRefusals, rule_entitlements.
  intros [Hr [Hn [Hv Hs]%app_eq_nil]%app_eq_nil]%app_eq_nil.
  destruct (Scopes rule) as [|sc scs] eqn:Hsc.
  - apply bind_ext_in. intros r Hr'. apply bind_ext_in. intros n Hn'.
    apply bind_singletons. intros v Hv'.
    pose proof (refusal_nil _ _ (bind_nil_inv _ _ r Hr Hr')) as (Hm1 & _ & _)%malformedGrantPart_ok.
    pose proof (refusal_nil _ _ (bind_nil_inv _ _ v Hv Hv')) as (_ & Hm2 & _)%malformedGrantPart_ok.
    assert (ContainsAny n ":{}" = false) as Hm3.
    { destruct (ResourceNames rule) as [|n0 ns]; [by apply list_elem_of_singleton in Hn' as ->|].
      pose proof (refusal_nil _ _ (bind_nil_inv _ _ n Hn Hn')) as (_ & _ & ?)%malformedGrantPart_ok.
      done. }
    by rewrite (proj2 (malformedGrantPart_ok r n v)).
  - clear -Hs. revert Hs. generalize (sc :: scs). induction l as [|x l IH]; [done|].
    rewrite bind_cons. intros [Hx Hl]%app_eq_nil. rewrite filter_cons, IH by done.
    destruct (Contains x ":"); [done|]. by rewrite decide_True.
Qed.

(** The lookup chain stops at the first backend that answers about the
    subject: a rejection or an outage is returned, later backends are not
    asked, and an outage is reported as the server's failure, never as a bad
    credential. *)
Theorem lookup_chain_stops log rp before lookup after_ subject password :
  Forall (fun l => lk_FindInternal l subject password = Ok None) before ->
  match lk_FindInternal lookup subject password with
  | Err ErrLookupUnavailable =>
      FindInternalWithSource log rp (before ++ lookup :: after_) subject password =
      Err (ErrServerUnavailable (lk_Type lookup))
  | Err e =>
      FindInternalWithSource log rp (before ++ lookup :: after_) subject password =
      Err (ErrLookupRejected e)
  | Ok (Some identity) => exists cs,
      FindInternalWithSource log rp (before ++ lookup :: after_) subject password =
      Ok (cs, lk_Type lookup) /\
      (forall k, k <> "roles" -> k <> "entitlements" -> cs !! k = identity !! k)
  | Ok None => True
  end.
Proof.
  intros Hb.
  assert (first_lookup (before ++ lookup :: after_) subject password =
    first_lookup (lookup :: after_) subject password) as Hf.
  { induction Hb as [|l before Hl Hb IH]; [done|]. simpl. by rewrite Hl. }
  unfold FindInternalWithSource. rewrite Hf. simpl.
  destruct (lk_FindInternal lookup subject password) as [[identity|]|[]]; try done.
  destruct (resolveBindings _ _ _) as [rs es]. eexists. split; [done|].
  intros k H1 H2. by rewrite !lookup_insert_ne.
Qed.
End Properties.

(** A stored bcrypt hash never authenticates by being presented itself:
    whatever bytes look like one are compared by bcrypt alone, and a Secret
    lookup that succeeds leaves the password out of the identity. *)
Theorem secretLookup_guarded `{!SecretCodecs} secrets subject password cs :
  secretLookup_FindInternal secrets subject password = Ok (Some cs) ->
  exists data pass, data ∈ secrets /\ data !! "password" = Some pass /\
    (data !! "sub" = Some subject \/ data !! "email" = Some subject) /\
    (if looksLikeBcrypt pass then CompareHashAndPassword pass password = true else pass = password) /\
    cs !! "password" = None.
Proof.
  induction secrets as [|data secrets IH]; [done|]. simpl.
  destruct (_ || _)%bool eqn:Hm.
  - destruct (data !! "password") as [pass|] eqn:Hp; [|done].
    destruct (password_matches pass password) eqn:Hpm; [|done]. intros [= <-].
    exists data, pass. split_and!; [by left|done| | |].
    + apply orb_true_iff in Hm as [Hm|Hm]; unfold bytes_are in Hm; case_match; try done;
        apply String.eqb_eq in Hm; subst; auto.
    + unfold password_matches in Hpm. destruct (looksLikeBcrypt pass); [done|].
      by apply String.eqb_eq in Hpm.
    + unfold secret_claims. by rewrite lookup_fmap, lookup_delete_eq.
  - intros Hs. destruct (IH Hs) as (d & pass & ? & ?). exists d, pass. split; [by right|done].
Qed.

(** * Witnesses *)

#[local] Existing Instance kindsExample.

(** Literal patterns, and [.*]. *)
Definition regexpExample : Regexp := {|
  regex := string;
  Compile s := Some s;
  MatchString re s := (String.eqb re ".*" || String.eqb re s)%bool;
  anything := ".*";
  Compile_anything := eq_refl;
  Match_anything s := eq_refl;
|}.
#[local] Existing Instance regexpExample.

Definition exampleBindings : list KDexRoleBinding :=
  [mkBinding "everyone" ["reader"] "*" None; mkBinding "ops" ["admin"] "/ops/" (Some ["User"])].

Lemma unknown_kind_unnarrowed_only_witness :
  exists b, b ∈ exampleBindings /\ rb_SubjectKinds b = None /\ "reader" ∈ rb_Roles b.
Proof.
  destruct (unknown_kind_unnarrowed_only [] exampleBindings
    (mkSubject "ops" "ServiceAccount" "host pat") None "reader") as (b & ? & ? & _ & ?).
  - reflexivity.
  - vm_compute. left.
  - eauto.
Defined.

Definition exampleRole : KDexRole :=
  mkRole "reader" [mkRule ["pages"] ["home"] ["read"] []].

Lemma entitlements_faithful_witness :
  exists r n v, Split ":" "pages:home:read" = [r; n; v].
Proof.
  destruct (entitlements_faithful [exampleRole] "reader" "pages:home:read" ["pages:home:read"])
    as (kr & rule & Hin & _ & Hr & [[Hs _]|(r & n & v & _ & _ & _ & Hs & _)]).
  - reflexivity.
  - left.
  - apply list_elem_of_singleton in Hin as ->. apply list_elem_of_singleton in Hr as ->.
    inversion Hs.
  - exists r, n, v. exact Hs.
Defined.

Lemma unrefused_rule_compiles_whole_witness :
  rule_entitlements (mkRule ["pages"; "apis"] [] ["read"] []) = ["pages::read"; "apis::read"].
Proof. apply unrefused_rule_compiles_whole. reflexivity. Defined.

Definition lookupOf (answer : result lookup_error (option claims)) : Lookup :=
  mkLookup (fun _ _ => answer) (fun _ => Ok ∅) "ldap".

Lemma lookup_chain_stops_witness :
  FindInternalWithSource false (NewRoleProvider [] []) [lookupOf (Ok None);
    lookupOf (Err ErrLookupUnavailable); lookupOf (Ok (Some ∅))] "alice" "pw" =
  Err (ErrServerUnavailable "ldap").
Proof.
  apply (lookup_chain_stops false (NewRoleProvider [] []) [lookupOf (Ok None)]
    (lookupOf (Err ErrLookupUnavailable)) [lookupOf (Ok (Some ∅))] "alice" "pw").
  repeat constructor.
Defined.

Definition codecsExample : SecretCodecs := {|
  CompareHashAndPassword h p := String.eqb h ("$2a$" ++ p);
  UnmarshalYAML _ := None;
|}.

Definition exampleSubject : gmap string string :=
  <["sub" := "alice"]> {[ "password" := "$2a$pw" ]}.

Lemma secretLookup_guarded_witness :
  @secretLookup_FindInternal codecsExample [exampleSubject] "alice" "pw" =
    Ok (Some (@secret_claims codecsExample exampleSubject)) /\
  @secret_claims codecsExample exampleSubject !! "password" = None.
Proof.
  split; [reflexivity|].
  destruct (secretLookup_guarded (H := codecsExample) [exampleSubject] "alice" "pw"
    (@secret_claims codecsExample exampleSubject)) as (data & pass & _ & _ & _ & _ & H).
  - reflexivity.
  - exact H.
Defined.

(** * A finding *)

(** [NewLDAPLookup] never records that the directory is an Active Directory:
    the binary [objectGUID] is not formatted, whatever the Secret says. *)
Lemma activeDirectory_never_set data : activeDirectory (NewLDAPLookup data) = false.
Proof. reflexivity. Qed.

Lemma objectGUID_not_formatted :
  let ll := NewLDAPLookup {[ "active-directory" := "true" ]} in
  let attr := mkAttribute "objectGUID" ["raw-16-bytes"] (Some (repeat 7%N 16)) in
  ldap_claims ll [attr] !! "sub" = Some (VStr "raw-16-bytes") /\
  FormatADGUID (repeat 7%N 16) = Ok "07070707-0707-0707-0707-070707070707".
Proof. split; reflexivity. Qed.
