(* ===== verification/Signer.v ===== *)
(** The signer (src/internal/sign/sign.go): the projection of a signing context
    to the claims that are signed, the host's claim mappings and what they
    cannot touch, scope confinement, and the last checks before a signature. *)
From S2P Require Import Prelude GoStr Deps Claims.
From Stdlib Require Import Ascii.

#[local] Open Scope string_scope.

Inductive sign_error :=
| ErrGetSubject
| ErrSubjectless
| ErrMapper
| ErrNonExpiringToken
| ErrUnsupportedSigner
| ErrSigning
| ErrSignerConfig (what : string).

(** github.com/kdex-tech/entitlements: a lossless reduction of a list, which
    keeps the original strings. *)
Class Compaction := {
  Compact : list string -> list string;
  Compact_subset l e : e ∈ Compact l -> e ∈ l;
}.

(** * The claim lists *)

Definition mintDecidedClaims : list string := ["auth_method"; ClaimSubjectKind].

Definition projectedClaims : list string :=
  (mintDecidedClaims ++ ["email"; "email_verified"; "entitlements"; "idp"; "roles"; "scope"; "scp";
    "grant_type"; "act"])%list.

Definition profileClaims : list string :=
  ["birthdate"; "family_name"; "gender"; "given_name"; "locale"; "middle_name"; "name"; "nickname";
   "picture"; "preferred_username"; "profile"; "updated_at"; "website"; "zoneinfo"].

(** * The signer *)

(** [privateKey] is what the Go value is used for: the algorithm of its public
    key, and the signature of a claim set ([None] when signing fails). The
    mapper is the host's claimMappings, [None] when there are none. *)
Record Signer := mkSigner {
  audience : string;
  duration : Z;
  issuer : string;
  privateKey : option (claims -> option string);
  kid : string;
  mapper : option (claims -> result unit claims);
}.

(** [privateKey == nil] is the absence of the outer option; the inner one is
    an unsupported key type. *)
Definition NewSigner (audience : string) (duration : Z) (issuer : string)
    (privateKey : option (option (claims -> option string))) (kid : string)
    (mapper : option (claims -> result unit claims)) : result sign_error Signer :=
  if String.eqb audience "" then Err (ErrSignerConfig "audience")
  else if (duration =? 0)%Z then Err (ErrSignerConfig "duration")
  else if String.eqb issuer "" then Err (ErrSignerConfig "issuer")
  else match privateKey with
       | None => Err (ErrSignerConfig "private key")
       | Some key =>
           if String.eqb kid "" then Err (ErrSignerConfig "key id")
           else Ok (mkSigner audience duration issuer key kid mapper)
       end.

(** [for _, claim := range l { if val, ok := from[claim]; ok { to[claim] = val } }] *)
Definition copy_claims (l : list string) (from to : claims) : claims :=
  foldl (fun to claim => match from !! claim with Some v => <[claim := v]> to | None => to end) to l.

(** The mint-decided claims, re-asserted after the mapper. *)
Definition reassert (l : list string) (from to : claims) : claims :=
  foldl (fun to claim => match from !! claim with Some v => <[claim := v]> to | None => delete claim to end)
    to l.

Fixpoint all_strings (l : list value) : option (list string) :=
  match l with
  | [] => Some []
  | VStr s :: l => ss ← all_strings l; Some (s :: ss)
  | _ :: _ => None
  end.

Section Signing.
Context `{!JwtClaims} `{!Compaction}.

Definition compactEntitlements (v : value) : value :=
  match v with
  | VStrs list => VStrs (Compact list)
  | VList list =>
      match all_strings list with
      | Some strs => VList (VStr <$> Compact strs)
      | None => v
      end
  | _ => v
  end.

Definition base_claims (s : Signer) (sub : string) : claims :=
  <["aud" := VStrs [audience s]]> $ <["iss" := VStr (issuer s)]> {[ "sub" := VStr sub ]}.

(** What [Project] has built when the mapper runs. *)
Definition before_mapper (s : Signer) (sub : string) (ctx : claims) : claims :=
  copy_claims profileClaims ctx (copy_claims projectedClaims ctx (base_claims s sub)).

(** The mapper's input: the context, with the claims set authoritatively as
    they are being built. *)
Definition mapper_input (projected ctx : claims) : claims :=
  copy_claims ["sub"; "iss"; "aud"] projected ctx.

Definition Project (s : Signer) (signingContext : claims) : result sign_error claims :=
  match jwtGetSubject signingContext with
  | Err _ => Err ErrGetSubject
  | Ok sub =>
      if String.eqb sub "" then Err ErrSubjectless else
      let projected := before_mapper s sub signingContext in
      projected ← match mapper s with
        | None => Ok projected
        | Some m =>
            match m (mapper_input projected signingContext) with
            | Err _ => Err ErrMapper
            | Ok extra => Ok (reassert mintDecidedClaims signingContext (extra ∪ projected))
            end
        end;
      Ok match projected !! "entitlements" with
         | Some ent => <["entitlements" := compactEntitlements ent]> projected
         | None => projected
         end
  end.

(** Every numeric type is a [VNum]. *)
Definition expires (exp : option value) : bool :=
  match exp with Some (VNum n) => negb (n =? 0)%Z | _ => false end.

(** The claims signed at [now], [jti] being the fresh identifier. *)
Definition outboundClaims (s : Signer) (now : Z) (jti : string) (projected : claims) : claims :=
  projected ∪ (<["jti" := VStr jti]> $ <["iat" := VNum (unix now)]>
    {[ "exp" := VNum (unix (now + duration s)) ]}).

Definition signable (s : Signer) (now : Z) (jti : string) (projected : claims)
    : result sign_error claims :=
  match jwtGetSubject projected with
  | Err _ => Err ErrSubjectless
  | Ok sub =>
      if String.eqb sub "" then Err ErrSubjectless else
      let out := outboundClaims s now jti projected in
      if expires (out !! "exp") then Ok out else Err ErrNonExpiringToken
  end.

Definition SignProjected (s : Signer) (now : Z) (jti : string) (projected : claims)
    : result sign_error string :=
  out ← signable s now jti projected;
  match privateKey s with
  | None => Err ErrUnsupportedSigner
  | Some sign => match sign out with Some t => Ok t | None => Err ErrSigning end
  end.

Definition Sign (s : Signer) (now : Z) (jti : string) (signingContext : claims)
    : result sign_error string :=
  projected ← Project s signingContext; SignProjected s now jti projected.

(** * Scope confinement *)

Definition delete_claims (l : list string) (m : claims) : claims := foldl (fun m k => delete k m) m l.

Definition confineByScope (projected : claims) (grantedScopes : list string) : claims :=
  let granted := contains_elem grantedScopes in
  let projected := if granted "email" then projected
    else delete "email_verified" (delete "email" projected) in
  let projected := if granted "profile" then projected else delete_claims profileClaims projected in
  let projected := if granted "entitlements" then projected else delete "entitlements" projected in
  if granted "roles" then projected else delete "roles" projected.

Definition SignScoped (s : Signer) (now : Z) (jti : string) (signingContext : claims)
    (grantedScopes : list string) : result sign_error string :=
  projected ← Project s signingContext;
  SignProjected s now jti (confineByScope projected grantedScopes).

(** * Lemmas *)

(** The families a scope controls. *)
Definition family (scope : string) : list string :=
  if String.eqb scope "email" then ["email"; "email_verified"]
  else if String.eqb scope "profile" then profileClaims
  else if String.eqb scope "entitlements" then ["entitlements"]
  else if String.eqb scope "roles" then ["roles"]
  else [].

Lemma lookup_delete_claims l : forall m k,
  delete_claims l m !! k = if decide (k ∈ l) then None else m !! k.
Proof.
  unfold delete_claims. induction l as [|x l IH]; intros m k; cbn [foldl].
  { by rewrite decide_False by apply not_elem_of_nil. }
  rewrite IH. destruct (decide (k = x)) as [->|Hne].
  - rewrite (decide_True (P := x ∈ x :: l)) by left. case_decide; [done|apply lookup_delete_eq].
  - rewrite lookup_delete_ne by done. case_decide.
    + by rewrite decide_True by (by right).
    + rewrite decide_False; [done|]. by intros [?|?]%elem_of_cons.
Qed.

(** A claim survives confinement unless it is of a family not granted. *)
Definition confined (granted : list string) (k : string) : Prop :=
  exists scope, scope ∈ ["email"; "profile"; "entitlements"; "roles"] /\ (scope ∉ granted) /\
    k ∈ family scope.

Lemma confineByScope_lookup projected granted k :
  (confined granted k -> confineByScope projected granted !! k = None) /\
  (~ confined granted k -> confineByScope projected granted !! k = projected !! k).
Proof.
  unfold confineByScope, confined.
  assert (forall sc, contains_elem granted sc = false <-> sc ∉ granted) as Hc.
  { intros sc. rewrite <- contains_elem_spec. by destruct (contains_elem granted sc). }
  assert (forall m : claims, (delete "email_verified" (delete "email" m) : claims) =
    delete_claims (family "email") m) as Hem by done.
  assert (forall m : claims, (delete "entitlements" m : claims) =
    delete_claims (family "entitlements") m) as Hen by done.
  assert (forall m : claims, (delete "roles" m : claims) = delete_claims (family "roles") m) as Hro
    by done.
  change profileClaims with (family "profile"). rewrite Hem, Hen, Hro. clear Hem Hen Hro.
  split.
  - intros (scope & Hs & Hg%Hc & Hk). rewrite !elem_of_cons in Hs.
    destruct Hs as [-> |[-> |[-> |[-> |Hn%elem_of_nil]]]]; [..|done]; rewrite Hg;
      repeat (match goal with |- context [if ?b then _ else _] => destruct b end);
      rewrite ?lookup_delete_claims; repeat (case_decide; try done).
  - intros Hno.
    assert (forall sc, sc ∈ ["email"; "profile"; "entitlements"; "roles"] ->
      contains_elem granted sc = false -> k ∉ family sc) as Hk.
    { intros sc Hsc Hg Hin. apply Hno. exists sc. split_and!; [done|by apply Hc|done]. }
    repeat (match goal with |- context [contains_elem granted ?sc] =>
      let E := fresh in destruct (contains_elem granted sc) eqn:E end);
      rewrite ?lookup_delete_claims;
      repeat (rewrite decide_False by (apply Hk; [set_solver|done])); done.
Qed.

Lemma lookup_copy_claims l : forall from to k,
  copy_claims l from to !! k =
  if decide (k ∈ l) then (match from !! k with Some v => Some v | None => to !! k end) else to !! k.
Proof.
  unfold copy_claims. induction l as [|x l IH]; intros from to k; cbn [foldl].
  { by rewrite decide_False by apply not_elem_of_nil. }
  rewrite IH. destruct (decide (k = x)) as [->|Hne].
  - rewrite (decide_True (P := x ∈ x :: l)) by left.
    destruct (from !! x) as [v|] eqn:Hv; [rewrite lookup_insert_eq|]; by case_decide.
  - assert (match from !! x with Some v => <[x := v]> to | None => to end !! k = to !! k) as ->.
    { destruct (from !! x); [by rewrite lookup_insert_ne|done]. }
    case_decide.
    + by rewrite decide_True by (by right).
    + rewrite decide_False; [done|]. by intros [?|?]%elem_of_cons.
Qed.

Lemma lookup_reassert l : forall from to k,
  reassert l from to !! k = if decide (k ∈ l) then from !! k else to !! k.
Proof.
  unfold reassert. induction l as [|x l IH]; intros from to k; cbn [foldl].
  { by rewrite decide_False by apply not_elem_of_nil. }
  rewrite IH. destruct (decide (k = x)) as [->|Hne].
  - rewrite (decide_True (P := x ∈ x :: l)) by left.
    destruct (from !! x) as [v|] eqn:Hv; case_decide; try done;
      [apply lookup_insert_eq|apply lookup_delete_eq].
  - assert (match from !! x with Some v => <[x := v]> to | None => delete x to end !! k = to !! k) as ->.
    { destruct (from !! x); [by rewrite lookup_insert_ne|by rewrite lookup_delete_ne]. }
    case_decide.
    + by rewrite decide_True by (by right).
    + rewrite decide_False; [done|]. by intros [?|?]%elem_of_cons.
Qed.
End Signing.
