(* ===== verification/SignerSpec.v ===== *)
(** What the signer promises (Signer): every signature is over a credential
    that names somebody and expires; the mint decides how a credential was
    obtained and its subject's kind, whatever the claim mappings do; a claim
    family that was not granted is not signed; entitlements only shrink. *)
From S2P Require Import Prelude GoStr Deps Claims Signer.
From Stdlib Require Import Ascii.

#[local] Open Scope string_scope.

Section Properties.
Context `{!JwtClaims} `{!Compaction}.

(** What [Project] went through. *)
Lemma Project_inv s ctx p :
  Project s ctx = Ok p ->
  exists sub q, jwtGetSubject ctx = Ok sub /\ sub <> "" /\
    (mapper s = None /\ q = before_mapper s sub ctx \/
     exists m extra, mapper s = Some m /\
       m (mapper_input (before_mapper s sub ctx) ctx) = Ok extra /\
       q = reassert mintDecidedClaims ctx (extra ∪ before_mapper s sub ctx)) /\
    p = match q !! "entitlements" with
        | Some ent => <["entitlements" := compactEntitlements ent]> q
        | None => q
        end.
Proof.
  unfold Project. destruct (jwtGetSubject ctx) as [sub|] eqn:Hs; [|done].
  destruct (String.eqb_spec sub "") as [|Hne]; [done|].
  destruct (mapper s) as [m|] eqn:Hm.
  - destruct (m _) as [extra|] eqn:He; [|done]. cbn [mbind result_bind]. intros [= <-].
    exists sub, (reassert mintDecidedClaims ctx (extra ∪ before_mapper s sub ctx)).
    split_and!; [done|done| |done]. right. eauto.
  - cbn [mbind result_bind]. intros [= <-]. exists sub, (before_mapper s sub ctx).
    split_and!; [done|done|by left|done].
Qed.

Lemma lookup_compacted (q : claims) k :
  k <> "entitlements" ->
  match q !! "entitlements" with
  | Some ent => <["entitlements" := compactEntitlements ent]> q
  | None => q
  end !! k = q !! k.
Proof. intros Hk. destruct (q !! "entitlements"); [by rewrite lookup_insert_ne|done]. Qed.

Lemma before_mapper_lookup s sub ctx k :
  before_mapper s sub ctx !! k =
  if decide (k ∈ (profileClaims ++ projectedClaims)%list)
  then (match ctx !! k with Some v => Some v | None => base_claims s sub !! k end)
  else base_claims s sub !! k.
Proof.
  unfold before_mapper. rewrite !lookup_copy_claims.
  destruct (decide (k ∈ profileClaims)), (decide (k ∈ projectedClaims));
    destruct (decide (k ∈ (profileClaims ++ projectedClaims)%list)) as [Hin|Hin];
    rewrite elem_of_app in Hin; try tauto; by destruct (ctx !! k).
Qed.

(** Whatever the host's claim mappings produce, a projection carries
    exactly the context's [auth_method] and subject kind (or neither), and is
    made only for a context that names somebody. *)
Theorem mint_decided_claims_hold s ctx p k :
  Project s ctx = Ok p -> k ∈ mintDecidedClaims ->
  p !! k = ctx !! k /\ exists sub, jwtGetSubject ctx = Ok sub /\ sub <> "".
Proof.
  intros (sub & q & Hs & Hne & Hq & ->)%Project_inv Hk.
  split; [|by exists sub].
  assert (k <> "entitlements") as Hke.
  { unfold mintDecidedClaims in Hk. rewrite !elem_of_cons in Hk.
    destruct Hk as [->|[->|?%elem_of_nil]]; done. }
  rewrite lookup_compacted by done.
  destruct Hq as [[_ ->]|(m & extra & _ & _ & ->)].
  - rewrite before_mapper_lookup, decide_True.
    + destruct (ctx !! k) eqn:Hc; [done|]. unfold mintDecidedClaims in Hk.
      rewrite !elem_of_cons in Hk. by destruct Hk as [->|[->|?%elem_of_nil]].
    + apply elem_of_app. right. unfold projectedClaims. apply elem_of_app. by left.
  - rewrite lookup_reassert. by rewrite decide_True.
Qed.

(** Without claim mappings the projection is authoritative: its subject,
    issuer and audience are the signer's and the context's subject, never an
    inbound issuer or audience, and every other claim is one of the listed
    ones, copied from the context. *)
Theorem project_authoritative s ctx p :
  Project s ctx = Ok p -> mapper s = None ->
  exists sub, jwtGetSubject ctx = Ok sub /\ p !! "sub" = Some (VStr sub) /\
    p !! "iss" = Some (VStr (issuer s)) /\ p !! "aud" = Some (VStrs [audience s]) /\
    forall k v, k ∉ ["sub"; "iss"; "aud"; "entitlements"] -> p !! k = Some v ->
      k ∈ (profileClaims ++ projectedClaims)%list /\ ctx !! k = Some v.
Proof.
  intros (sub & q & Hs & Hne & Hq & ->)%Project_inv Hm.
  destruct Hq as [[_ ->]|(m & ? & ? & _)]; [|congruence].
  exists sub. split; [done|]. split_and!.
  1-3: rewrite lookup_compacted by done; by rewrite before_mapper_lookup.
  intros k v Hk. rewrite lookup_compacted by (intros ->; apply Hk; set_solver).
  rewrite before_mapper_lookup.
  assert (base_claims s sub !! k = None) as ->.
  { unfold base_claims. rewrite !lookup_insert_ne by (intros <-; apply Hk; set_solver).
    apply lookup_singleton_ne. intros <-. apply Hk. set_solver. }
  case_decide; [|done]. by destruct (ctx !! k).
Qed.

Lemma signable_inv s now jti p out :
  signable s now jti p = Ok out ->
  out = outboundClaims s now jti p /\ expires (out !! "exp") = true /\
  exists sub, sub <> "" /\ out !! "sub" = Some (VStr sub).
Proof.
  unfold signable. destruct (jwtGetSubject p) as [sub|] eqn:Hs; [|done].
  destruct (String.eqb_spec sub "") as [|Hne]; [done|].
  destruct (expires _) eqn:He; [|done]. intros [= <-]. split; [done|]. split; [done|].
  exists sub. split; [done|]. unfold outboundClaims.
  apply lookup_union_Some_l. by apply jwtGetSubject_Ok.
Qed.

(** Nothing is ever signed for nobody or forever: a signature made from
    any projection, cached or fresh, is over a claim set whose subject is a
    non-empty string and whose expiry is a non-zero number. *)
Theorem signed_names_and_expires s now jti p t :
  SignProjected s now jti p = Ok t ->
  exists sign out sub e, privateKey s = Some sign /\ sign out = Some t /\
    out !! "sub" = Some (VStr sub) /\ sub <> "" /\ out !! "exp" = Some (VNum e) /\ e <> 0 /\
    forall k v, p !! k = Some v -> out !! k = Some v.
Proof.
  unfold SignProjected. destruct (signable s now jti p) as [out|] eqn:Hout; [|done].
  apply signable_inv in Hout as (-> & He & sub & Hne & Hsub). cbn [mbind result_bind].
  destruct (privateKey s) as [sign|] eqn:Hk; [|done].
  destruct (sign _) as [t'|] eqn:Ht; [|done]. intros [= <-].
  unfold expires in He. destruct (outboundClaims s now jti p !! "exp") as [[]|] eqn:Hexp; try done.
  apply negb_true_iff, Z.eqb_neq in He.
  eexists sign, _, sub, _. split_and!; try done. intros k v Hv. by apply lookup_union_Some_l.
Qed.

(** Scope confinement has the last word: whatever the claim mappings
    injected, a token signed with [SignScoped] carries no claim of a scope
    family (email, profile, entitlements, roles) that was not granted. *)
Theorem signScoped_confined s now jti ctx granted t :
  SignScoped s now jti ctx granted = Ok t ->
  exists sign out, privateKey s = Some sign /\ sign out = Some t /\
    forall k, confined granted k -> out !! k = None.
Proof.
  unfold SignScoped. destruct (Project s ctx) as [p|]; [|done]. cbn [mbind result_bind].
  unfold SignProjected. destruct (signable _ _ _ _) as [out|] eqn:Hout; [|done].
  apply signable_inv in Hout as (-> & _). cbn [mbind result_bind].
  destruct (privateKey s) as [sign|]; [|done]. destruct (sign _) as [t'|] eqn:Ht; [|done].
  intros [= <-]. eexists sign, _. split_and!; [done|done|]. intros k Hk.
  unfold outboundClaims. apply lookup_union_None. split; [by apply confineByScope_lookup|].
  destruct Hk as (scope & Hs & _ & Hin). rewrite !elem_of_cons in Hs.
  assert (forall sc, sc ∈ ["email"; "profile"; "entitlements"; "roles"] ->
    forall k, k ∈ family sc -> k <> "jti" /\ k <> "iat" /\ k <> "exp") as Hf.
  { intros sc Hsc. apply Forall_forall.
    rewrite !elem_of_cons in Hsc.
    destruct Hsc as [->|[->|[->|[->|Hn%elem_of_nil]]]]; [..|done];
      repeat constructor; done. }
  destruct (Hf scope) with k as (? & ? & ?); [by rewrite !elem_of_cons|done|].
  rewrite !lookup_insert_ne by congruence. apply lookup_singleton_ne. congruence.
Qed.

(** Compaction never adds an entitlement, and keeps the claim's shape. *)
Theorem compaction_only_shrinks s ctx p l :
  Project s ctx = Ok p -> mapper s = None -> ctx !! "entitlements" = Some (VStrs l) ->
  exists l', p !! "entitlements" = Some (VStrs l') /\ forall e, e ∈ l' -> e ∈ l.
Proof.
  intros (sub & q & _ & _ & Hq & ->)%Project_inv Hm Hl.
  destruct Hq as [[_ ->]|(m & ? & ? & _)]; [|congruence].
  assert (before_mapper s sub ctx !! "entitlements" = Some (VStrs l)) as Hb.
  { rewrite before_mapper_lookup. rewrite decide_True by (vm_compute; set_solver). by rewrite Hl. }
  rewrite Hb, lookup_insert_eq. eexists. split; [done|]. intros e. apply Compact_subset.
Qed.
End Properties.

(** * Witnesses *)

#[local] Existing Instance jwtExample.

Program Definition compactExample : Compaction := {| Compact := fun l => remove_dups l |}.
Next Obligation. intros l e. by apply elem_of_remove_dups. Qed.
#[local] Existing Instance compactExample.

(** A mapper that tries to rewrite how the credential was obtained, and injects
    a role and an expiry. *)
Definition exampleMapper (cs : claims) : result unit claims :=
  Ok (<["auth_method" := VStr "local"]> $ <["roles" := VStrs ["admin"]]> ∅).

Definition exampleSigner (m : option (claims -> result unit claims)) : Signer :=
  mkSigner "https://fn" hour "https://host" (Some (fun _ => Some "token")) "kid" m.

Definition exampleContext : claims :=
  <["sub" := VStr "alice"]> $ <["auth_method" := VStr "oauth2"]> $
  <["entitlements" := VStrs ["a"; "a"]]> ∅.

Lemma mint_decided_claims_hold_witness :
  exists p, Project (exampleSigner (Some exampleMapper)) exampleContext = Ok p /\
    p !! "auth_method" = Some (VStr "oauth2") /\ p !! "knd" = None.
Proof.
  destruct (Project (exampleSigner (Some exampleMapper)) exampleContext) as [p|e] eqn:Hp;
    [|vm_compute in Hp; discriminate Hp].
  exists p. split; [reflexivity|]. split.
  - destruct (mint_decided_claims_hold _ _ _ "auth_method" Hp) as [-> _]; [left|reflexivity].
  - destruct (mint_decided_claims_hold _ _ _ "knd" Hp) as [-> _]; [right; left|reflexivity].
Defined.

Lemma project_authoritative_witness :
  exists p, Project (exampleSigner None) exampleContext = Ok p /\
    p !! "aud" = Some (VStrs ["https://fn"]).
Proof.
  destruct (Project (exampleSigner None) exampleContext) as [p|e] eqn:Hp;
    [|vm_compute in Hp; discriminate Hp].
  exists p. split; [reflexivity|].
  destruct (project_authoritative _ _ _ Hp eq_refl) as (sub & _ & _ & _ & Ha & _). exact Ha.
Defined.

Lemma signed_names_and_expires_witness :
  SignProjected (exampleSigner None) 0 "jti" {[ "sub" := VStr "alice" ]} = Ok "token" /\
  exists sign out sub e, privateKey (exampleSigner None) = Some sign /\ sign out = Some "token" /\
    out !! "sub" = Some (VStr sub) /\ sub <> "" /\ out !! "exp" = Some (VNum e) /\ e <> 0.
Proof.
  assert (SignProjected (exampleSigner None) 0 "jti" {[ "sub" := VStr "alice" ]} = Ok "token") as Ht
    by (vm_compute; reflexivity).
  split; [exact Ht|].
  destruct (signed_names_and_expires _ _ _ _ _ Ht) as (sign & out & sub & e & ? & ? & ? & ? & ? & ? & _).
  exists sign, out, sub, e. auto 10.
Defined.

Lemma signScoped_confined_witness :
  SignScoped (exampleSigner (Some exampleMapper)) 0 "jti" exampleContext ["email"] = Ok "token" /\
  exists (sign : claims -> option string) out, sign out = Some "token" /\ out !! "roles" = None.
Proof.
  assert (SignScoped (exampleSigner (Some exampleMapper)) 0 "jti" exampleContext ["email"] =
    Ok "token") as Ht by (vm_compute; reflexivity).
  split; [exact Ht|].
  destruct (signScoped_confined _ _ _ _ _ _ Ht) as (sign & out & _ & Hs & Hc).
  exists sign, out. split; [exact Hs|]. apply Hc. exists "roles".
  split; [right; right; right; left|]. split; [|left].
  intros Hin. inversion Hin as [|? ? ? Hin2]; subst. inversion Hin2.
Defined.

Lemma compaction_only_shrinks_witness :
  exists p l', Project (exampleSigner None) exampleContext = Ok p /\
    p !! "entitlements" = Some (VStrs l') /\ forall e, e ∈ l' -> e ∈ ["a"; "a"].
Proof.
  destruct (Project (exampleSigner None) exampleContext) as [p|e] eqn:Hp;
    [|vm_compute in Hp; discriminate Hp].
  destruct (compaction_only_shrinks _ _ _ ["a"; "a"] Hp eq_refl eq_refl) as (l' & H1 & H2).
  exists p, l'. split; [reflexivity|]. split; [exact H1|exact H2].
Defined.
