(* ===== verification/SubjectKind.v ===== *)
(** Subject kinds and the veto (src/internal/auth/subject_kind.go), the
    role-binding key (binding_key.go), the claims a mint reserves
    (exchange.go), subject revocation over a context (subject_revocation.go)
    and the authorization checker (authorization.go). *)
From S2P Require Import Prelude GoStr Store Deps Claims Clients Roles Signer ApiToken.
From Stdlib Require Import Ascii.

#[local] Open Scope string_scope.

(** * Sites *)

Definition SiteOIDCLogin : string := "oidc login".
Definition SiteAuthCode : string := "auth-code redeem".
Definition SiteRefresh : string := "refresh".
Definition SiteSessionGrantRefresh : string := "session-grant refresh".
Definition SiteClientCredentials : string := "client_credentials".
Definition SiteTokenExchange : string := "token exchange".
Definition SiteHostPAT : string := "host pat".
Definition SiteProxyPAT : string := "proxy pat".
Definition SiteWhoami : string := "whoami".
Definition SiteHostJWT : string := "host jwt".
Definition SiteAPITokenVerify : string := "apitokens verify".
Definition SiteAPITokenMint : string := "apitokens mint".
Definition SiteTransferRedeem : string := "transfer redeem".

Record siteSpec := mkSite { site_name : string; resolvesRoles : bool; perRequest : bool }.

Definition allSites : list siteSpec :=
  [mkSite SiteLocalLogin true false; mkSite SiteOIDCLogin true false;
   mkSite SiteAuthCode true false; mkSite SiteRefresh true false;
   mkSite SiteSessionGrantRefresh true true; mkSite SiteClientCredentials true false;
   mkSite SiteTokenExchange true false; mkSite SiteHostPAT true true;
   mkSite SiteProxyPAT true true; mkSite SiteWhoami true true;
   mkSite SiteHostJWT false true; mkSite SiteAPITokenVerify false true;
   mkSite SiteAPITokenMint false false; mkSite SiteTransferRedeem false true].

Definition siteLogLevels : gmap string nat :=
  foldl (fun levels s => <[site_name s := if perRequest s then 3%nat else 2%nat]> levels) ∅ allSites.

Definition bindingLogLevel (site : string) : nat := default 2%nat (siteLogLevels !! site).

(** * The binding key *)

Definition emailVerifiedTruthy (cs : claims) : bool :=
  match cs !! "email_verified" with
  | Some (VBool ev) => ev
  | Some (VStr ev) => EqualFold ev "true"
  | _ => false
  end.

Definition resolveBindingKey (cs : claims) (sub roleBindingClaim : string)
    (requireEmailVerified : bool) : string :=
  if (String.eqb roleBindingClaim "" || String.eqb roleBindingClaim "sub")%bool then sub else
  match cs !! roleBindingClaim with
  | Some (VStr v) =>
      if String.eqb v "" then sub
      else if (String.eqb roleBindingClaim "email" && requireEmailVerified &&
               negb (emailVerifiedTruthy cs))%bool then sub
      else v
  | _ => sub
  end.

(** * Reserved claims *)

Definition reservedMintClaims : list string :=
  (["scope"; "scp"; "sub"; "grant_type"; "idp"; "iat"; "exp"; "jti"; "iss"; "aud"; "nbf"; "act"] ++
   mintDecidedClaims)%list.

Definition unreserved (cs : claims) : claims := filter (fun x => x.1 ∉ reservedMintClaims) cs.

(** Skips the reserved claims, and never overwrites. *)
Definition mergeBackendClaims (signingContext backend : claims) : claims :=
  signingContext ∪ unreserved backend.

Definition idpClaimSnapshot (signingContext : claims) : claims := unreserved signingContext.

(** The string elements of a [[]any]; the others are skipped. *)
Definition strings_of (l : list value) : list string :=
  omap (fun v => match v with VStr s => Some s | _ => None end) l.

(** [idpValue] is [None] when the claim is absent; [internal] as a claim value. *)
Definition mergeIDPList (idpValue : option value) (internal : list string) : value :=
  match idpValue with
  | Some (VStrs v) => VStrs (v ++ internal)
  | Some (VList v) => VStrs (strings_of v ++ internal)
  | Some (VStr v) => VStrs (v :: internal)
  | _ => VStrs internal
  end%list.

(** * The exchanger's identity rules *)

Inductive veto_error :=
| ErrKindRefused_notConfigured
| ErrKindRefused_issuedBeforeCutoff
| ErrKindRefused_userNamesClient
| ErrKindRefused_noVetoRule.

Section Kinds.
Context `{!SubjectKinds} `{!Regexp} `{!JwtClaims}.

(** What an [Exchanger] holds for identity decisions. [ex_backend] is
    [ResolveSubjectClaims]: the lookups' claims of a subject, cached. *)
Record Exchanger := mkExchanger {
  ex_Clients : gmap string AuthClient;
  ex_clientRegistry : registry;
  ex_RoleBindingClaim : string;
  ex_RequireEmailVerified : bool;
  ex_sp : scopeProvider;
  ex_backend : string -> claims;
}.

Implicit Types e : Exchanger.

Definition NamesClient e (key : string) : bool :=
  if String.eqb key "" then false
  else if found (ex_clientRegistry e !! key) then true
  else HasPrefix key ClientIDPrefix.

Definition SubjectKindOf e (sub : string) : string :=
  if NamesClient e sub then SubjectKindClient else SubjectKindUser.

Definition kindOrLegacy e (recorded sub : string) : string :=
  if negb (String.eqb recorded "") then recorded else SubjectKindOf e sub.

Definition ContextSubjectKind e (ac : AuthContext) : string :=
  let kind := str_claim ac ClaimSubjectKind in
  if (String.eqb kind "" && found (ClientCredentialsSubject ac))%bool then SubjectKindClient
  else kindOrLegacy e kind (str_claim ac "sub").

Definition patSubjectKind e (data : TokenData) : string :=
  kindOrLegacy e (SubjectKind data) (Subject data).

Definition IsConfiguredClient e (id : string) : bool := found (ex_Clients e !! id).

Definition clientRemovedAt e (id : string) : Z :=
  match ex_clientRegistry e !! id with Some r => RemovedAt r | None => 0 end.

(** * The veto *)

Definition vetoClient e (sub : string) (iat : Z) : result veto_error unit :=
  if negb (IsConfiguredClient e sub) then Err ErrKindRefused_notConfigured
  else let removedAt := clientRemovedAt e sub in
       if ((0 <? removedAt) && (iat <=? removedAt))%Z%bool
       then Err ErrKindRefused_issuedBeforeCutoff else Ok ().

Definition vetoUser e (sub : string) (_ : Z) : result veto_error unit :=
  if NamesClient e sub then Err ErrKindRefused_userNamesClient else Ok ().

(** [vetoRules] and its fallthrough. *)
Definition vetoSubjectKind e (sub kind : string) (iat : Z) : result veto_error unit :=
  if String.eqb kind SubjectKindClient then vetoClient e sub iat
  else if String.eqb kind SubjectKindUser then vetoUser e sub iat
  else if Known kind then Err ErrKindRefused_noVetoRule
  else Ok ().

(** Logging aside, [VetoCredential] is [vetoSubjectKind]. *)
Definition VetoCredential e (sub kind : string) (iat : Z) (site : string) : result veto_error unit :=
  vetoSubjectKind e sub kind iat.

Definition VetoPAT e (data : TokenData) (site : string) : result veto_error unit :=
  VetoCredential e (Subject data) (patSubjectKind e data) (IssuedAt data) site.

Definition issuedAtOf (ac : AuthContext) : Z :=
  match jwtGetIssuedAt ac with Ok (Some iat) => iat | _ => 0 end.

(** * Binding subjects *)

Definition clientBindingSubject (id : string) : BindingSubject :=
  mkSubject id SubjectKindClient SiteClientCredentials.

(** The first key that names a client. *)
Fixpoint refuseClientNamedIdentity e (keys : list string) : result string unit :=
  match keys with
  | [] => Ok ()
  | key :: keys => if NamesClient e key then Err key else refuseClientNamedIdentity e keys
  end.

Definition userBindingSubject e (cs : claims) (sub site : string)
    : BindingSubject * result string unit :=
  let bindingKey := resolveBindingKey cs sub (ex_RoleBindingClaim e) (ex_RequireEmailVerified e) in
  (mkSubject bindingKey SubjectKindUser site, refuseClientNamedIdentity e [sub; bindingKey]).

(** * PATs *)

Definition PATAuthContext (logEnabled : bool) e (data : TokenData) (site : string)
    : result veto_error AuthContext :=
  let kind := patSubjectKind e data in
  match VetoCredential e (Subject data) kind (IssuedAt data) site with
  | Err err => Err err
  | Ok _ =>
      let '(roles, ents) :=
        resolveBindings logEnabled (ex_sp e) (mkSubject (Subject data) kind site) in
      let ac :=
        <[ClaimSubjectKind := VStr kind]> $ <[ClaimIssuedAt := VNum (IssuedAt data)]> $
        <["scp" := VStr (Scope_ data)]> $ <["entitlements" := VStrs ents]> $
        <["roles" := VStrs roles]> $ <["sub" := VStr (Subject data)]> ∅ in
      Ok (mergeBackendClaims ac (ex_backend e (Subject data)))
  end.

(** [tokenManager] is nil, or a host's manager; a context without a subject
    is cut off by nothing. *)
Definition CredentialPredatesRevocation {St} `{CacheOps St} `{Paseto} `{!Sha256}
    (up : nat -> bool) (now : Z) (tokenManager : option (TokenManager St)) (ac : AuthContext)
    : result api_error bool :=
  match tokenManager with
  | None => Ok false
  | Some tm =>
      let sub := match jwtGetSubject ac with Ok s => s | Err _ => "" end in
      if String.eqb sub "" then Ok false else
      let issuedAt := match jwtGetIssuedAt ac with
        | Ok (Some iat) => of_unix iat
        | _ => -62135596800 * second (* time.Time{} *)
        end in
      SubjectRevokedSince up now sub issuedAt tm
  end.
End Kinds.

(** * The authorization checker *)

(** github.com/kdex-tech/entitlements: an entitlement set by scheme, its
    parsed form, requirements, and the two checks. *)
Class Entitlements := {
  ParsedEntitlements : Type;
  ParsedRequirements : Type;
  ParseEntitlements : gmap string (list string) -> ParsedEntitlements;
  ParseRequirements : list (gmap string (list string)) -> ParsedRequirements;
  VerifyParsedEntitlements : ParsedEntitlements -> ParsedRequirements -> bool;
  VerifyResource : string -> string -> ParsedEntitlements -> ParsedRequirements -> list string ->
    result unit bool;
}.

Section Authorization.
Context `{!Entitlements}.

Definition AuthMethodOIDC : string := "oidc".
Definition AuthMethodOAuth2 : string := "oauth2".
Definition AuthMethodLocal : string := "local".

(** The buckets [GetParsedEntitlements] fills; [scopeBuckets] is off. *)
Definition user_entitlements (scopeBuckets : bool) (ac : AuthContext) : gmap string (list string) :=
  let contextEntitlements := strings_or_nil (GetEntitlements ac) in
  let u : gmap string (list string) :=
    match contextEntitlements with
    | [] => ∅
    | _ :: _ =>
        let u := <["bearer" := contextEntitlements]> ∅ in
        if IsPATBridge ac then <["oauth2" := contextEntitlements]> u else u
    end in
  let contextScopes := strings_or_nil (GetScopes ac) in
  match contextScopes with
  | [] => u
  | _ :: _ =>
      if negb scopeBuckets then u else
      match GetAuthMethod ac with
      | Ok m =>
          if String.eqb m AuthMethodOIDC then <["oidc" := contextScopes]> u
          else if String.eqb m AuthMethodOAuth2
          then <["oauth2" := (default [] (u !! "oauth2") ++ contextScopes)%list]> u
          else u
      | Err _ => u
      end
  end.

Definition GetParsedEntitlements (scopeBuckets : bool) (ac : AuthContext) : ParsedEntitlements :=
  ParseEntitlements (user_entitlements scopeBuckets ac).

Definition identityHasColon (resource resourceName : string) (verbs : list string) : bool :=
  if (Contains resource ":" || Contains resourceName ":")%bool then true
  else match verbs with [] => false | v :: _ => Contains v ":" end.

Definition VerifyResourceParsedEntitlements (resource resourceName : string)
    (ents : ParsedEntitlements) (reqs : ParsedRequirements) (verbs : list string)
    : result unit bool :=
  if identityHasColon resource resourceName verbs then Ok false
  else VerifyResource resource resourceName ents reqs verbs.

Definition CheckAccess (scopeBuckets : bool) (ac : AuthContext) (resource resourceName : string)
    (kdexreqs : list (gmap string (list string))) (verbs : list string) : result unit bool :=
  if (String.eqb resource "" || String.eqb resourceName "")%bool then Err () else
  VerifyResourceParsedEntitlements resource resourceName
    (GetParsedEntitlements scopeBuckets ac) (ParseRequirements kdexreqs) verbs.

Definition HoldsScope (scopeBuckets : bool) (ac : AuthContext) (scope : string) : bool :=
  VerifyParsedEntitlements (GetParsedEntitlements scopeBuckets ac)
    (ParseRequirements [ {[ "bearer" := [scope] ]} ]).
End Authorization.
