(* ===== verification/IdentitySpec.v ===== *)
(** What identity decisions promise (Clients, SubjectKind): the registry never
    forgets a client nor moves a cutoff back, so what a removed client held is
    refused for good; a user identity never passes for a client; the binding
    key is the subject unless a trusted claim says otherwise; a PAT's context
    is the mint's; authorization reads the entitlements alone. *)
From S2P Require Import Prelude GoStr Store Deps Claims Clients Roles Signer ApiToken SubjectKind.
From Stdlib Require Import Ascii.

#[local] Open Scope string_scope.

(** * The registry's history *)

(** A build that moves [id]'s cutoff: it sees a configured client leave, or a
    removed one come back. *)
Definition cutoff_event (reg : registry) (ids : list string) (id : string) : Prop :=
  exists rec, reg !! id = Some rec /\
    ((Present rec = true /\ id ∉ ids) \/ (Present rec = false /\ id ∈ ids)).

Lemma cutoff_event_stamps reg ids now id :
  cutoff_event reg ids id ->
  exists rec, rm_registry (mergeClientRegistry reg ids now) !! id = Some rec /\ now <= RemovedAt rec.
Proof.
  intros (rec & Hrec & Hev). rewrite mergeClientRegistry_lookup, Hrec.
  unfold merged_record, configured_record. destruct Hev as [[Hp Hin]|[Hp Hin]].
  - rewrite decide_False by done. simpl. rewrite Hp. eexists. split; [done|]. simpl. lia.
  - rewrite decide_True by done. rewrite Hp. eexists. split; [done|]. simpl. lia.
Qed.

Lemma configured_is_recorded reg ids now id :
  id ∈ ids -> is_Some (rm_registry (mergeClientRegistry reg ids now) !! id).
Proof.
  intros Hin. rewrite mergeClientRegistry_lookup. unfold merged_record.
  rewrite decide_True by done. eauto.
Qed.

Section Properties.
Context `{!SubjectKinds} `{!Regexp} `{!JwtClaims}.

Implicit Types e : Exchanger.

(** A removed client's credentials never come back. Once a build of the
    configuration has seen a client leave or return at [now], every later
    exchanger, whatever builds (its own or a peer's, with clocks set anyhow)
    came between and whether or not it configures the client again, refuses
    each Client credential of that client issued at or before [now]. *)
Theorem removed_client_refused_forever reg ids now id builds e iat site :
  0 < now -> cutoff_event reg ids id -> iat <= now ->
  ex_clientRegistry e = merge_run builds (rm_registry (mergeClientRegistry reg ids now)) ->
  VetoCredential e id SubjectKindClient iat site <> Ok ().
Proof.
  intros Hnow Hev Hiat Hreg.
  destruct (cutoff_event_stamps reg ids now id Hev) as (rec & Hrec & Hle).
  destruct (merge_run_mono builds _ id rec Hrec) as (rec' & Hrec' & Hle').
  unfold VetoCredential, vetoSubjectKind. rewrite String.eqb_refl.
  unfold vetoClient, clientRemovedAt. destruct (negb _); [done|].
  rewrite Hreg, Hrec'. cbn [RemovedAt].
  rewrite (proj2 (Z.ltb_lt 0 (RemovedAt rec'))) by lia.
  by rewrite (proj2 (Z.leb_le iat (RemovedAt rec'))) by lia.
Qed.

(** An id that was ever configured names a client for good: no later
    exchanger accepts a User credential for it, issues a user identity under
    it, or classifies it as a user. *)
Theorem client_name_stays_reserved reg ids now id builds e cs sub iat site :
  id <> "" -> id ∈ ids ->
  ex_clientRegistry e = merge_run builds (rm_registry (mergeClientRegistry reg ids now)) ->
  VetoCredential e id SubjectKindUser iat site <> Ok () /\
  SubjectKindOf e id = SubjectKindClient /\
  (sub = id \/ resolveBindingKey cs sub (ex_RoleBindingClaim e) (ex_RequireEmailVerified e) = id ->
   (userBindingSubject e cs sub site).2 <> Ok ()).
Proof.
  intros Hne Hin Hreg.
  destruct (configured_is_recorded reg ids now id Hin) as [rec Hrec].
  destruct (merge_run_mono builds _ id rec Hrec) as (rec' & Hrec' & _).
  assert (NamesClient e id = true) as Hn.
  { unfold NamesClient. rewrite (proj2 (String.eqb_neq id "") Hne). by rewrite Hreg, Hrec'. }
  split_and!.
  - unfold VetoCredential, vetoSubjectKind.
    destruct (String.eqb_spec SubjectKindUser SubjectKindClient) as [Heq|_].
    { by destruct Client_not_User. }
    rewrite String.eqb_refl. unfold vetoUser. by rewrite Hn.
  - unfold SubjectKindOf. by rewrite Hn.
  - unfold userBindingSubject. simpl. intros [->|Hk].
    + by rewrite Hn.
    + rewrite Hk, Hn. by destruct (NamesClient e sub).
Qed.

(** The veto accepts exactly: a Client credential of a configured client
    never removed, or issued after its cutoff; a User credential whose
    subject names no client; and a credential of a kind this release does
    not know. *)
Theorem veto_accepts_iff e sub kind iat site :
  VetoCredential e sub kind iat site = Ok () <->
  (kind = SubjectKindClient /\ IsConfiguredClient e sub = true /\
     (clientRemovedAt e sub <= 0 \/ clientRemovedAt e sub < iat)) \/
  (kind = SubjectKindUser /\ NamesClient e sub = false) \/
  Known kind = false.
Proof.
  unfold VetoCredential, vetoSubjectKind.
  destruct (String.eqb_spec kind SubjectKindClient) as [->|Hc].
  - unfold vetoClient. rewrite Known_Client. destruct (IsConfiguredClient e sub); cbn [negb].
    + destruct (_ && _)%bool eqn:Hb; bool_to_prop.
      * split; [done|]. intros [(_&_&?)|[[? _]|?]]; [lia| |done]. by destruct Client_not_User.
      * split; [|done]. intros _. left. split_and!; [done|done|].
        apply andb_false_iff in Hb as [Hb|Hb]; bool_to_prop; lia.
    + split; [done|]. intros [(_&?&_)|[[? _]|?]]; try done. by destruct Client_not_User.
  - destruct (String.eqb_spec kind SubjectKindUser) as [->|Hu].
    + unfold vetoUser. rewrite Known_User. destruct (NamesClient e sub).
      * split; [done|]. by intros [(?&_&_)|[[_ ?]|?]].
      * split; [|done]. intros _. right. by left.
    + destruct (Known kind).
      * split; [done|]. by intros [(?&_&_)|[[? _]|?]].
      * split; [|done]. intros _. by do 2 right.
Qed.

(** The role-binding key moves off the subject only onto the configured
    claim's non-empty string, and for an address under verification only
    when the identity provider asserts it verified. *)
Theorem binding_key_trusted cs sub claim requireVerified key :
  resolveBindingKey cs sub claim requireVerified = key ->
  key = sub \/
  (claim <> "" /\ claim <> "sub" /\ cs !! claim = Some (VStr key) /\ key <> "" /\
   (claim = "email" -> requireVerified = true ->
    cs !! "email_verified" = Some (VBool true) \/
    exists s, cs !! "email_verified" = Some (VStr s) /\ EqualFold s "true" = true)).
Proof.
  intros <-. unfold resolveBindingKey.
  destruct (String.eqb_spec claim "") as [|Hc1]; [by left|].
  destruct (String.eqb_spec claim "sub") as [|Hc2]; [by left|]. cbn [orb].
  destruct (cs !! claim) as [[| | |v| | |]|] eqn:Hv; try by left.
  destruct (String.eqb_spec v "") as [|Hc3]; [by left|].
  destruct (_ && _)%bool eqn:Hb; [by left|]. right. split_and!; try done.
  intros -> ->. simpl in Hb. apply negb_false_iff in Hb. unfold emailVerifiedTruthy in Hb.
  destruct (cs !! "email_verified") as [[|b| |s| | |]|]; try done; [left|right; eauto].
  by subst.
Qed.

(** An API token's context says what the token says: its subject, scope,
    issue time and the kind it records; the backend adds claims, but never
    replaces one nor sets a reserved one. *)
Theorem pat_context_authentic log e data site ac :
  PATAuthContext log e data site = Ok ac ->
  ac !! "sub" = Some (VStr (Subject data)) /\
  ac !! "scp" = Some (VStr (Scope_ data)) /\
  ac !! ClaimIssuedAt = Some (VNum (IssuedAt data)) /\
  ac !! ClaimSubjectKind = Some (VStr (patSubjectKind e data)) /\
  VetoPAT e data site = Ok () /\
  (forall k v, ac !! k = Some v ->
     (k ∈ ["sub"; "roles"; "entitlements"; "scp"; "iat"; "knd"]) \/
     (k ∉ reservedMintClaims /\ ex_backend e (Subject data) !! k = Some v)).
Proof.
  unfold PATAuthContext, VetoPAT. destruct (VetoCredential _ _ _ _ _) as [[]|]; [|done].
  destruct (resolveBindings _ _ _) as [roles ents]. intros [= <-].
  unfold mergeBackendClaims. split_and!; try done; try (by apply lookup_union_Some_l).
  intros k v [Hk|[Hn Hk]]%lookup_union_Some_raw.
  - left. rewrite !lookup_insert_Some, lookup_empty in Hk. rewrite !elem_of_cons.
    unfold ClaimSubjectKind, ClaimIssuedAt in Hk.
    repeat match type of Hk with _ \/ _ => destruct Hk as [[<- _]|[_ Hk]]; [tauto|] end. done.
  - right. apply map_lookup_filter_Some in Hk as [Hk Hr]. done.
Qed.

(** A subject's revocation cuts off every credential authenticated at or
    before it, until it expires: a context naming the subject whose issue
    time is not later, or that has none, is refused, and a store that cannot
    be read is an error, never a no. *)
Theorem predates_revocation_fails_closed {St} `{CacheLaws St} `{Paseto} `{!Sha256}
    up now (tm : TokenManager St) s ac sub t expiry v :
  jwtGetSubject ac = Ok sub -> sub <> "" -> tm_revocationCache tm = Some s ->
  cabs s !! subjectRevocationKey sub = Some (v, expiry) -> ParseNano v = Some t -> now <= expiry -> 0 <= t ->
  (forall iat, jwtGetIssuedAt ac = Ok (Some iat) -> of_unix iat <= t) ->
  CredentialPredatesRevocation up now (Some tm) ac =
  (if up 0%nat then Ok true else Err ErrRevocationStatus).
Proof.
  intros Hsub Hne Hs Hk Hv He Ht Hiat. unfold CredentialPredatesRevocation. rewrite Hsub.
  rewrite (proj2 (String.eqb_neq sub "") Hne). unfold SubjectRevokedSince. rewrite Hs.
  destruct (up 0%nat); [|done]. unfold peek. rewrite cGet_val. unfold st_get. rewrite Hk. simpl.
  rewrite (proj2 (after_false now expiry)) by done. unfold revokedNoEarlierThan. rewrite Hv.
  f_equal. apply negb_true_iff, after_false.
  destruct (jwtGetIssuedAt ac) as [[iat|]|]; [by apply Hiat|unfold second; lia|unfold second; lia].
Qed.
End Properties.

Section Authz.
Context `{!Entitlements}.

(** Authorization reads the entitlements and the PAT-bridge marker alone:
    two contexts that agree on them get the same answer, so no scope string,
    authentication method or other claim a client can influence grants
    access; and an identity with a colon in it is denied to everyone. *)
Theorem access_depends_on_entitlements ac ac' resource resourceName reqs verbs :
  GetEntitlements ac = GetEntitlements ac' -> IsPATBridge ac = IsPATBridge ac' ->
  CheckAccess false ac resource resourceName reqs verbs =
  CheckAccess false ac' resource resourceName reqs verbs /\
  (resource <> "" -> resourceName <> "" -> identityHasColon resource resourceName verbs = true ->
   CheckAccess false ac resource resourceName reqs verbs = Ok false).
Proof.
  intros He Hb. unfold CheckAccess. split.
  - assert (GetParsedEntitlements false ac = GetParsedEntitlements false ac') as ->; [|done].
    unfold GetParsedEntitlements, user_entitlements. rewrite He, Hb.
    destruct (strings_or_nil (GetScopes ac)), (strings_or_nil (GetScopes ac')); done.
  - intros H1 H2 Hc. rewrite (proj2 (String.eqb_neq _ _) H1), (proj2 (String.eqb_neq _ _) H2).
    simpl. unfold VerifyResourceParsedEntitlements. by rewrite Hc.
Qed.
End Authz.

Section Load.
Context `{!RegistryJSON} {St} `{CacheLaws St}.

(** Loading the registry loses nothing and fails closed. With a stored
    registry [reg] (as the [Update] finds it, whatever the earlier [Get]
    saw), what is loaded and what is stored are both [reg] merged with the
    configuration; an unreadable value fails the build and is left alone. *)
Theorem registry_update_spec now ids s :
  0 <= now <= neverExpires ->
  (forall reg, registry_valid reg ->
     peek now clientRegistryKey s = Some (MarshalRegistry reg) ->
     exists s', registry_update ids now s =
         (Ok (rm_registry (mergeClientRegistry reg ids now)), s') /\
       peek now clientRegistryKey s' =
         Some (MarshalRegistry (rm_registry (mergeClientRegistry reg ids now)))) /\
  (forall value err, peek now clientRegistryKey s = Some value ->
     decodeClientRegistry value = Err err ->
     (registry_update ids now s).1 = Err err /\ cabs (registry_update ids now s).2 = cabs s).
Proof.
  intros Hnow. unfold registry_update, peek. rewrite cGet_val.
  set (fn := fun current found => (registry_attempt ids now current found).2).
  pose proof (cUpdate_abs now clientRegistryKey fn [WithoutExpiry] s) as Ha.
  destruct (cUpdate now clientRegistryKey fn [WithoutExpiry] s) as [w s'] eqn:Hu.
  simpl in Ha. unfold st_update in Ha. split.
  - intros reg Hv Hp. rewrite Hp in *. cbn [from_option id found] in *.
    unfold fn, registry_attempt in Ha. unfold registry_attempt.
    rewrite decodeClientRegistry_Marshal by done.
    rewrite decodeClientRegistry_Marshal in Ha by done. cbn [andb] in *.
    destruct (changed (mergeClientRegistry reg ids now)) eqn:Hc; cbn [negb fst snd] in *.
    + exists s'. split; [done|]. rewrite cGet_val, Ha. apply st_get_set_live. simpl.
      unfold expiry_of. simpl. lia.
    + apply mergeClientRegistry_unchanged in Hc. rewrite Hc. exists s'. split; [done|].
      by rewrite cGet_val, Ha.
  - intros value err Hp Hd. rewrite Hp in *. cbn [from_option id found] in *.
    unfold fn, registry_attempt in Ha. unfold registry_attempt. rewrite Hd. rewrite Hd in Ha.
    cbn [fst snd] in *. done.
Qed.
End Load.

(** * Witnesses *)

#[local] Existing Instance kindsExample.
#[local] Existing Instance jwtExample.
#[local] Existing Instance timeExample.
#[local] Existing Instance pasetoExample.
#[local] Existing Instance sha256Example.

Definition noRegexp : Regexp := {|
  regex := unit; Compile s := if String.eqb s ".*" then Some () else None;
  MatchString _ _ := true; anything := (); Compile_anything := eq_refl;
  Match_anything _ := eq_refl |}.
#[local] Existing Instance noRegexp.

Definition exampleClient : AuthClient := mkAuthClient [] [] [] "app" "s3cret" "" "" false [] false false.

Definition exchangerOf (reg : registry) : Exchanger :=
  mkExchanger {[ "app" := exampleClient ]} reg "email" true (mkProvider ∅ ∅ []) (fun _ => ∅).

Definition configuredOnce : registry := {[ "app" := mkClientRecord true 0 ]}.

(** Removed at 100, added back at 200. *)
Lemma removed_client_refused_forever_witness :
  VetoCredential (exchangerOf (merge_run [(["app"], 200)]
    (rm_registry (mergeClientRegistry configuredOnce [] 100)))) "app" SubjectKindClient 90 "host jwt" <> Ok ().
Proof.
  apply (removed_client_refused_forever configuredOnce [] 100 "app" [(["app"], 200)]
    (exchangerOf (merge_run [(["app"], 200)]
       (rm_registry (mergeClientRegistry configuredOnce [] 100)))) 90 "host jwt");
    [lia| |lia|reflexivity].
  exists (mkClientRecord true 0). split; [reflexivity|]. left. split; [reflexivity|].
  intros Hin. inversion Hin.
Defined.

Lemma client_name_stays_reserved_witness :
  SubjectKindOf (exchangerOf (merge_run [([], 200)]
    (rm_registry (mergeClientRegistry ∅ ["app"] 100)))) "app" = SubjectKindClient.
Proof.
  apply (client_name_stays_reserved ∅ ["app"] 100 "app" [([], 200)]
    (exchangerOf (merge_run [([], 200)] (rm_registry (mergeClientRegistry ∅ ["app"] 100))))
    ∅ "app" 0 "host jwt");
    [discriminate|left|reflexivity].
Defined.

Lemma binding_key_trusted_witness :
  "a@x" = "id-1" \/ ("email" <> "" /\ "email" <> "sub" /\
    (<["email" := VStr "a@x"]> {[ "email_verified" := VBool true ]} : claims) !! "email" =
      Some (VStr "a@x")).
Proof.
  assert (resolveBindingKey (<["email" := VStr "a@x"]> {[ "email_verified" := VBool true ]})
    "id-1" "email" true = "a@x") as Hk by (vm_compute; reflexivity).
  destruct (binding_key_trusted _ _ _ _ _ Hk) as [H|(H1 & H2 & H3 & _)]; [by left|right; auto].
Defined.

Definition examplePAT : TokenData :=
  mkTokenData "mcp" "https://api" 100 50 "iss" "jti" "kid" 50 "read" "alice" "User".

Lemma pat_context_authentic_witness :
  exists ac, PATAuthContext false (exchangerOf configuredOnce) examplePAT "host pat" = Ok ac /\
    ac !! "sub" = Some (VStr "alice") /\ ac !! ClaimSubjectKind = Some (VStr "User").
Proof.
  destruct (PATAuthContext false (exchangerOf configuredOnce) examplePAT "host pat") as [ac|e] eqn:H;
    [|vm_compute in H; discriminate H].
  exists ac. split; [reflexivity|].
  destruct (pat_context_authentic _ _ _ _ _ H) as (H1 & _ & _ & H2 & _). auto.
Defined.

Definition revokedTM : TokenManager mapStore :=
  mkTokenManager mapStore _ _ (mkKeyPair true "ab" 1%nat 1%nat) "iss" [] 0
    (Some (MapStore hour {[ subjectRevocationKey "alice" := (FormatInt (60 * second), 9 * hour) ]}))
    None "".

Lemma predates_revocation_fails_closed_witness :
  CredentialPredatesRevocation (fun _ => true) hour (Some revokedTM)
    (<["sub" := VStr "alice"]> {[ "iat" := VNum 60 ]}) = Ok true.
Proof.
  rewrite (predates_revocation_fails_closed (fun _ => true) hour revokedTM
    (MapStore hour {[ subjectRevocationKey "alice" := (FormatInt (60 * second), 9 * hour) ]})
    _ "alice" (60 * second) (9 * hour) (FormatInt (60 * second))).
  - reflexivity.
  - reflexivity.
  - discriminate.
  - reflexivity.
  - reflexivity.
  - reflexivity.
  - unfold hour, minute, second. lia.
  - unfold second. lia.
  - intros iat Hi. vm_compute in Hi. injection Hi as <-. vm_compute. discriminate.
Defined.

Definition entitlementsExample : Entitlements := {|
  ParsedEntitlements := gmap string (list string); ParsedRequirements := unit;
  ParseEntitlements := fun e => e; ParseRequirements := fun _ => ();
  VerifyParsedEntitlements := fun _ _ => true;
  VerifyResource := fun r n e _ _ => Ok (contains_elem (default [] (e !! "bearer")) (r ++ ":" ++ n)) |}.

Lemma access_depends_on_entitlements_witness :
  @CheckAccess entitlementsExample false {[ "entitlements" := VStrs ["pages:home"] ]} "pages" "home" [] [] =
  @CheckAccess entitlementsExample false
    (<["scope" := VStr "admin"]> {[ "entitlements" := VStrs ["pages:home"] ]}) "pages" "home" [] [].
Proof. apply access_depends_on_entitlements; reflexivity. Defined.

(** A text for each registry, and only that. *)
#[global] Program Instance clientRecord_countable : Countable clientRecord :=
  inj_countable' (fun r => (Present r, RemovedAt r)) (fun x => mkClientRecord x.1 x.2) _.
Next Obligation. by intros []. Qed.

Program Definition registryJSONExample : RegistryJSON := {|
  MarshalRegistry r := pos_string (encode r);
  DecodeRegistry s := r ← decode (string_pos s); Some (Some (Some <$> (r : registry)), false);
|}.
Next Obligation. intros r. simpl. by rewrite string_pos_string, decode_encode. Qed.
#[local] Existing Instance registryJSONExample.

Definition storedRegistry : mapStore :=
  MapStore hour {[ clientRegistryKey := (MarshalRegistry configuredOnce, neverExpires) ]}.

Lemma registry_update_spec_witness :
  exists s', registry_update [] 100 storedRegistry =
    (Ok (rm_registry (mergeClientRegistry configuredOnce [] 100)), s').
Proof.
  destruct (registry_update_spec 100 [] storedRegistry) as [H _].
  - unfold neverExpires, second. lia.
  - destruct (H configuredOnce) as (s' & Hs & _); [| |eauto].
    + apply map_Forall_singleton. simpl. lia.
    + vm_compute. reflexivity.
Defined.
