(* ===== verification/Dcr.v ===== *)
(** Dynamic client registration (src/internal/auth/dcr): the grant and redirect
    policies, the client store and the consent store. *)
From S2P Require Import Prelude GoStr Store Deps Clients.
From Stdlib Require Import Ascii.

#[local] Open Scope string_scope.

(** * Grants (grants.go) *)

Definition SupportedGrantTypes : list string := ["authorization_code"; "refresh_token"].

Definition FilterGrantTypes (grants : list string) : list string :=
  match grants with
  | [] => SupportedGrantTypes
  | _ => keep_distinct (contains_elem SupportedGrantTypes) [] grants
  end.

(** * Redirects (redirects.go) *)

Definition SchemeLoopback : string := "http-loopback".
Definition SchemePrivateUse : string := "private-use".
Definition schemeHTTP : string := "http".
Definition schemeHTTPS : string := "https".
Definition maxRedirectURILen : nat := 2048.

Definition DefaultRedirectSchemes : list string := [schemeHTTPS; SchemeLoopback].

Definition dangerousSchemes : list string := ["javascript"; "data"; "file"; "vbscript"; "blob"].

(** net/url, as far as it is read: the scheme, whether there is userinfo,
    [Hostname()], the host with its port, and [Port()]. *)
Record URL := mkURL {
  url_Scheme : string;
  url_User : bool;
  url_Hostname : string;
  url_Host : string;
  url_Port : string;
}.

Class ParseURL := { url_Parse : string -> option URL }.

Definition is_ascii (c : ascii) : bool := (N_of_ascii c <? 128)%N.

Definition isASCII (s : string) : bool := all_bytes is_ascii s.

Definition loopback_host (host : string) : bool :=
  (String.eqb host "127.0.0.1" || String.eqb host "::1" || EqualFold host "localhost")%bool.

(** One entry of the host's policy, on a parsed URL. *)
Definition scheme_admits (u : URL) (s : string) : bool :=
  if String.eqb s SchemeLoopback then
    (String.eqb (url_Scheme u) schemeHTTP && loopback_host (url_Hostname u))%bool
  else if String.eqb s SchemePrivateUse then
    (negb (String.eqb (url_Scheme u) "") && negb (String.eqb (url_Scheme u) schemeHTTP) &&
     negb (String.eqb (url_Scheme u) schemeHTTPS) && Contains (url_Scheme u) ".")%bool
  else if (String.eqb s "" || String.eqb s schemeHTTP || contains_elem dangerousSchemes s)%bool
  then false
  else String.eqb (url_Scheme u) s.

Section Redirects.
Context `{!ParseURL}.

Definition redirectAllowed (raw : string) (schemes : list string) : bool :=
  if (String.eqb raw "" || (maxRedirectURILen <? String.length raw)%nat || Contains raw "#")%bool
  then false else
  match url_Parse raw with
  | None => false
  | Some u =>
      if url_User u then false else
      let host := url_Hostname u in
      if (negb (String.eqb host "") && negb (isASCII host))%bool then false else
      if ((String.eqb (url_Scheme u) schemeHTTP || String.eqb (url_Scheme u) schemeHTTPS) &&
          String.eqb host "")%bool then false else
      existsb (scheme_admits u) schemes
  end.

Definition FilterRedirectURIs (uris schemes : list string) : list string :=
  keep_distinct (fun u => redirectAllowed u schemes) [] uris.
End Redirects.

(** * The client store (store.go) *)

Record Client := mkClient {
  dc_ClientID : string;
  dc_RedirectURIs : list string;
  dc_GrantTypes : list string;
  dc_ResponseTypes : list string;
  dc_Scope : string;
  dc_ClientName : string;
  dc_TokenEndpointAuthMethod : string;
  dc_CreatedAt : Z;
}.

(** A store: its cache, its TTL and the bound [NewStore] is given, which
    nothing reads. *)
Record DCRStore (St : Type) := mkDCRStore { ds_cache : St; ds_ttl : Z; ds_maxClients : Z }.
Arguments mkDCRStore {St} _ _ _.
Arguments ds_cache {St} _.
Arguments ds_ttl {St} _.
Arguments ds_maxClients {St} _.

Inductive store_error := ErrCache | ErrRecord.

Section ClientStore.
Context {St} `{CacheOps St} `{!JSON Client}.

Definition with_cache (c : St) (s : DCRStore St) : DCRStore St :=
  mkDCRStore c (ds_ttl s) (ds_maxClients s).

(** [newClientID] on 24 random bytes. *)
Definition newClientID (b : string) : string := ClientIDPrefix ++ hexEncode b.

(** [rnd] are the random bytes, [up] whether the write succeeds. *)
Definition Register (up : bool) (now : Z) (rnd : string) (c : Client) (s : DCRStore St)
    : result store_error Client * DCRStore St :=
  let id := newClientID rnd in
  let c := mkClient id (dc_RedirectURIs c) (dc_GrantTypes c) (dc_ResponseTypes c) (dc_Scope c)
    (dc_ClientName c)
    (if String.eqb (dc_TokenEndpointAuthMethod c) "" then "none" else dc_TokenEndpointAuthMethod c)
    (unix now) in
  if up then (Ok c, with_cache (cSet now id (Marshal c) [WithTTL (ds_ttl s)] (ds_cache s)) s)
  else (Err ErrCache, s).

(** The read and the renewal are two calls: [mid] is what other callers do to
    the cache between them, [up 0] and [up 1] whether each succeeds. A failed
    renewal is only logged. *)
Definition Get (up : nat -> bool) (now : Z) (clientID : string) (mid : St -> St) (s : DCRStore St)
    : result store_error (option Client) * DCRStore St :=
  if negb (up 0%nat) then (Err ErrCache, s) else
  let '(val, c) := cGet now clientID (ds_cache s) in
  match val with
  | None => (Ok None, with_cache c s)
  | Some val =>
      match Unmarshal val with
      | None => (Err ErrRecord, with_cache c s)
      | Some client =>
          let c := mid c in
          (Ok (Some client),
           with_cache (if up 1%nat then cSet now clientID val [WithTTL (ds_ttl s)] c else c) s)
      end
  end.

Definition Delete (up : bool) (clientID : string) (s : DCRStore St) : DCRStore St :=
  if up then with_cache (cDelete clientID (ds_cache s)) s else s.
End ClientStore.
