(* ===== verification/Url.v ===== *)
(** Query strings and what the program does with the URLs it is given: the
    part of net/url it relies on (Go's standard library), and the checks of
    src/internal/http/http.go. *)
From S2P Require Import Prelude GoStr Clients Dcr.
From Stdlib Require Import Ascii.

#[local] Open Scope string_scope.

(** * [url.Values] *)

Abbreviation values := (gmap string (list string)).

(** [q[k]], nil when absent. *)
Definition All (q : values) (k : string) : list string := default [] (q !! k).
Definition Get (q : values) (k : string) : string := default "" (head (All q k)).
Definition SetValue (k v : string) (q : values) : values := <[k := [v]]> q.
Definition Del (k : string) (q : values) : values := delete k q.
Definition AddValue (q : values) (e : string * string) : values := <[e.1 := (All q e.1 ++ [e.2])%list]> q.

(** * Escaping *)

Definition unreserved (c : ascii) : bool :=
  let n := N_of_ascii c in
  (((48 <=? n) && (n <=? 57)) || ((65 <=? n) && (n <=? 90)) || ((97 <=? n) && (n <=? 122)) ||
   (n =? 45) || (n =? 95) || (n =? 46) || (n =? 126))%N%bool.

Definition upper_hex (n : N) : ascii := ascii_of_N (if (n <? 10)%N then 48 + n else 55 + n).

Fixpoint QueryEscape (s : string) : string :=
  match s with
  | "" => ""
  | String c s =>
      if unreserved c then String c (QueryEscape s)
      else if Ascii.eqb c " " then String "+" (QueryEscape s)
      else let n := N_of_ascii c in
           String "%" (String (upper_hex (n / 16)) (String (upper_hex (n mod 16)) (QueryEscape s)))
  end.

Definition unhex (c : ascii) : option N :=
  let n := N_of_ascii c in
  if ((48 <=? n) && (n <=? 57))%N%bool then Some (n - 48)%N
  else if ((97 <=? n) && (n <=? 102))%N%bool then Some (n - 87)%N
  else if ((65 <=? n) && (n <=? 70))%N%bool then Some (n - 55)%N
  else None.

(** [None]: a malformed escape. *)
Fixpoint QueryUnescape (s : string) : option string :=
  match s with
  | "" => Some ""
  | String c s =>
      if Ascii.eqb c "%" then
        match s with
        | String a (String b s) =>
            x ← unhex a; y ← unhex b; r ← QueryUnescape s;
            Some (String (ascii_of_N (16 * x + y)) r)
        | _ => None
        end
      else r ← QueryUnescape s; Some (String (if Ascii.eqb c "+" then " "%char else c) r)
  end.

(** * Query strings *)

(** [strings.Cut] at a byte. *)
Fixpoint Cut (sep : ascii) (s : string) : string * option string :=
  match s with
  | "" => ("", None)
  | String c s =>
      if Ascii.eqb c sep then ("", Some s)
      else let '(a, b) := Cut sep s in (String c a, b)
  end.

(** One part of a query; [None] when it is dropped. *)
Definition parse_part (part : string) : option (string * string) :=
  if (has_byte ";" part || String.eqb part "")%bool then None else
  let '(k, v) := Cut "=" part in
  k ← QueryUnescape k; v ← QueryUnescape (default "" v); Some (k, v).

(** [url.ParseQuery], whose error the code ignores. *)
Definition ParseQuery (query : string) : values :=
  foldl AddValue ∅ (omap parse_part (Split "&" query)).

(** The pairs of the values, by sorted key. *)
Definition query_pairs (q : values) : list (string * string) :=
  sort_strings (map_to_list q).*1 ≫= (fun k => pair k <$> All q k).

Definition Encode (q : values) : string :=
  Join ((fun e => QueryEscape e.1 ++ "=" ++ QueryEscape e.2) <$> query_pairs q) "&".

(** [u.RawQuery] of an URL given as text: what follows the first [?] of what
    precedes the fragment. *)
Definition raw_query (raw : string) : string := default "" (Cut "?" (Cut "#" raw).1).2.

(** * Origins and return paths *)

Section Origins.
Context `{!ParseURL}.

Definition same_domain (u : URL) (scheme : string) (d : string) : bool :=
  let port := url_Port u in
  let defaultPort := ((String.eqb scheme "https" && String.eqb port "443") ||
                      (String.eqb scheme "http" && String.eqb port "80"))%bool in
  (EqualFold (url_Host u) d ||
   ((String.eqb port "" || defaultPort) && EqualFold (url_Hostname u) d))%bool.

Definition SameOrigin (raw scheme : string) (domains : list string) : bool :=
  match url_Parse raw with
  | None => false
  | Some u =>
      if (String.eqb (url_Scheme u) "" || String.eqb (url_Host u) "" ||
          negb (EqualFold (url_Scheme u) scheme))%bool then false
      else if url_User u then false
      else existsb (same_domain u scheme) domains
  end.

Definition SafeReturnPath (p : string) : string :=
  if String.eqb p "" then "/"
  else if negb (HasPrefix p "/") then "/"
  else if (HasPrefix p "//" || HasPrefix p "/\")%bool then "/"
  else match url_Parse p with
       | None => "/"
       | Some u =>
           if (negb (String.eqb (url_Scheme u) "") || negb (String.eqb (url_Host u) ""))%bool then "/"
           else p
       end.
End Origins.

(** [IsSecure]: [proto] is the X-Forwarded-Proto header. *)
Definition IsSecure (tls : bool) (proto : string) : bool :=
  if tls then true
  else if String.eqb proto "" then false
  else EqualFold (TrimSpace (Cut "," proto).1) "https".

(** * Escaping round trips *)

Lemma unhex_escape c :
  unhex (upper_hex (N_of_ascii c / 16)) = Some (N_of_ascii c / 16)%N /\
  unhex (upper_hex (N_of_ascii c mod 16)) = Some (N_of_ascii c mod 16)%N /\
  ascii_of_N (16 * (N_of_ascii c / 16) + N_of_ascii c mod 16) = c.
Proof. destruct c as [[] [] [] [] [] [] [] []]; vm_compute; done. Qed.

Lemma unreserved_plain c : unreserved c = true -> Ascii.eqb c "%" = false /\ Ascii.eqb c "+" = false.
Proof. destruct c as [[] [] [] [] [] [] [] []]; vm_compute; done. Qed.

Lemma QueryUnescape_escape s : QueryUnescape (QueryEscape s) = Some s.
Proof.
  induction s as [|c s IH]; [done|]. cbn [QueryEscape].
  destruct (unreserved c) eqn:Hu.
  - destruct (unreserved_plain c Hu) as [Hp Hq]. cbn [QueryUnescape]. rewrite Hp, Hq, IH. done.
  - destruct (Ascii.eqb_spec c " ") as [->|_]; [cbn [QueryUnescape]; by rewrite IH|].
    destruct (unhex_escape c) as (Ha & Hb & Hc). cbn [QueryUnescape].
    rewrite Ascii.eqb_refl, Ha. cbn [mbind option_bind]. rewrite Hb. cbn [mbind option_bind].
    rewrite IH. cbn [mbind option_bind]. by rewrite Hc.
Qed.

(** What an escaped text cannot hold. *)
Definition delimiter (c : ascii) : bool :=
  (Ascii.eqb c "&" || Ascii.eqb c ";" || Ascii.eqb c "=" || Ascii.eqb c "?" || Ascii.eqb c "#")%bool.

Lemma escape_bytes c :
  (unreserved c = true -> delimiter c = false) /\
  delimiter (upper_hex (N_of_ascii c / 16)) = false /\ delimiter (upper_hex (N_of_ascii c mod 16)) = false.
Proof. destruct c as [[] [] [] [] [] [] [] []]; vm_compute; done. Qed.

Lemma QueryEscape_plain c s : delimiter c = true -> has_byte c (QueryEscape s) = false.
Proof.
  intros Hc. assert (forall d, delimiter d = false -> Ascii.eqb c d = false) as Hne.
  { intros d Hd. destruct (Ascii.eqb_spec c d) as [->|]; congruence. }
  induction s as [|d s IH]; [done|]. cbn [QueryEscape].
  destruct (escape_bytes d) as (Hu & Ha & Hb).
  destruct (unreserved d); [|destruct (Ascii.eqb d " ")]; cbn [has_byte]; rewrite ?IH, ?orb_false_r.
  - by apply Hne, Hu.
  - by apply Hne.
  - rewrite (Hne _ Ha), (Hne _ Hb), !(Hne "%"%char) by done. done.
Qed.

Lemma Cut_append sep a b : has_byte sep a = false -> Cut sep (a ++ String sep b) = (a, Some b).
Proof.
  induction a as [|c a IH]; cbn [has_byte String.append Cut].
  - by rewrite Ascii.eqb_refl.
  - intros [Hc Ha]%orb_false_iff. rewrite Ascii.eqb_sym, Hc, IH by done. done.
Qed.

Lemma Split_no sep s : has_byte sep s = false -> Split sep s = [s].
Proof.
  induction s as [|c s IH]; [done|]. cbn [has_byte Split]. intros [Hc Hs]%orb_false_iff.
  by rewrite Ascii.eqb_sym, Hc, IH.
Qed.

Lemma Split_append sep a s : has_byte sep a = false -> Split sep (a ++ String sep s) = a :: Split sep s.
Proof.
  induction a as [|c a IH]; cbn [has_byte String.append Split].
  - by rewrite Ascii.eqb_refl.
  - intros [Hc Ha]%orb_false_iff. by rewrite Ascii.eqb_sym, Hc, IH.
Qed.

Lemma Split_Join sep l :
  l <> [] -> Forall (fun s => has_byte sep s = false) l -> Split sep (Join l (String sep "")) = l.
Proof.
  intros Hne. induction 1 as [|s l Hs Hl IH]; [done|]. destruct l as [|s' l]; [by apply Split_no|].
  change (Join (s :: s' :: l) (String sep "")) with (s ++ String sep (Join (s' :: l) (String sep ""))).
  by rewrite Split_append, IH.
Qed.

(** * Encoding round trips *)

Lemma parse_part_pair k v : parse_part (QueryEscape k ++ "=" ++ QueryEscape v) = Some (k, v).
Proof.
  unfold parse_part.
  assert (has_byte ";" (QueryEscape k ++ "=" ++ QueryEscape v) = false) as ->.
  { rewrite !has_byte_append, !QueryEscape_plain by done. done. }
  destruct (String.eqb_spec (QueryEscape k ++ "=" ++ QueryEscape v) "") as [Heq|_].
  { by destruct (QueryEscape k). }
  cbn [orb]. change ("=" ++ QueryEscape v) with (String "=" (QueryEscape v)).
  rewrite Cut_append by (by apply QueryEscape_plain). cbn [default].
  cbn [default]. rewrite QueryUnescape_escape. cbn [mbind option_bind]. unfold default, from_option, id.
  rewrite QueryUnescape_escape. done.
Qed.

Lemma omap_parse_pairs (l : list (string * string)) : omap parse_part ((fun e => QueryEscape e.1 ++ "=" ++ QueryEscape e.2) <$> l) = l.
Proof. induction l as [|[k v] l IH]; [done|]. rewrite fmap_cons. cbn [omap list_omap fst snd]. rewrite parse_part_pair. f_equal. exact IH. Qed.

Lemma parsed_pairs (l : list (string * string)) :
  omap parse_part (Split "&" (Join ((fun e => QueryEscape e.1 ++ "=" ++ QueryEscape e.2) <$> l) "&")) = l.
Proof.
  destruct (decide (l = [])) as [->|Hne]; [done|].
  rewrite Split_Join; [apply omap_parse_pairs| |].
  - by intros ?%fmap_nil_inv.
  - rewrite Forall_fmap. apply Forall_true. intros [k v]. 
    change (has_byte "&" (QueryEscape k ++ "=" ++ QueryEscape v) = false).
    rewrite !has_byte_append, !QueryEscape_plain by done. done.
Qed.

(** Adding pairs collects the values of each key, in order. *)
Lemma All_AddValues (l : list (string * string)) : forall q k,
  All (foldl AddValue q l) k = (All q k ++ (filter (fun e => e.1 = k) l).*2)%list.
Proof.
  induction l as [|[a b] l IH]; intros q k; cbn [foldl]; [by rewrite app_nil_r|].
  rewrite IH, filter_cons. unfold All at 1, AddValue. cbn [fst snd].
  destruct (decide (a = k)) as [->|Hne].
  - rewrite lookup_insert_eq. cbn. by rewrite <- app_assoc.
  - by rewrite lookup_insert_ne.
Qed.

Lemma AddValues_nonempty (l : list (string * string)) : forall q k vs,
  (forall k vs, q !! k = Some vs -> vs <> []) -> foldl AddValue q l !! k = Some vs -> vs <> [].
Proof.
  induction l as [|[a b] l IH]; intros q k vs Hq; cbn [foldl]; [apply Hq|].
  apply IH. intros k' vs'. unfold AddValue. cbn [fst snd].
  destruct (decide (a = k')) as [->|Hne]; [rewrite lookup_insert_eq|rewrite lookup_insert_ne by done; apply Hq].
  intros [= <-]. by destruct (All q k').
Qed.

Lemma keys_of_NoDup (q : values) : NoDup (sort_strings (map_to_list q).*1).
Proof. unfold sort_strings. rewrite merge_sort_Permutation. apply NoDup_fst_map_to_list. Qed.

Lemma elem_of_keys (q : values) k : k ∈ sort_strings (map_to_list q).*1 <-> is_Some (q !! k).
Proof.
  unfold sort_strings. rewrite merge_sort_Permutation, list_elem_of_fmap. split.
  - intros ([k' v] & -> & Hin). apply elem_of_map_to_list in Hin. by exists v.
  - intros [v Hv]. exists (k, v). split; [done|]. by apply elem_of_map_to_list.
Qed.

Lemma filter_pairs_other (q : values) (keys : list string) k :
  k ∉ keys -> filter (fun e : string * string => e.1 = k) (keys ≫= (fun k => pair k <$> All q k)) = [].
Proof.
  intros Hk. apply filter_none, Forall_forall. intros [k' v] Hin.
  apply list_elem_of_bind in Hin as (k'' & (v' & [= -> ->] & _)%list_elem_of_fmap & Hin). cbn. by intros ->.
Qed.

Lemma filter_pairs (q : values) (keys : list string) k :
  NoDup keys -> k ∈ keys ->
  (filter (fun e : string * string => e.1 = k) (keys ≫= (fun k => pair k <$> All q k))).*2 = All q k.
Proof.
  induction 1 as [|k' keys Hnin Hnd IH]; [by intros ?%elem_of_nil|].
  intros [->|Hin]%elem_of_cons; cbn [mbind list_bind]; rewrite filter_app, fmap_app.
  - rewrite filter_pairs_other, app_nil_r by done. clear. induction (All q k') as [|v vs IHv]; [done|].
    rewrite fmap_cons, filter_cons. cbn [fst]. rewrite decide_True by done. cbn [fmap list_fmap snd].
    f_equal. exact IHv.
  - rewrite IH by done. assert (k <> k') as Hne by (by intros ->).
    assert (filter (fun e : string * string => e.1 = k) (pair k' <$> All q k') = []) as ->; [|done].
    apply filter_none, Forall_fmap, Forall_true. intros v Heq. by cbn in Heq.
Qed.

Lemma ParseQuery_Encode_filter (q : values) : ParseQuery (Encode q) = filter (fun e => e.2 <> []) q.
Proof.
  unfold ParseQuery, Encode. rewrite parsed_pairs. unfold query_pairs. apply map_eq. intros k.
  set (r := foldl _ _ _).
  assert (All r k = All q k) as Hall.
  { subst r. rewrite All_AddValues. destruct (decide (is_Some (q !! k))) as [Hk|Hk].
    - rewrite filter_pairs; [done|apply keys_of_NoDup|by apply elem_of_keys].
    - rewrite filter_pairs_other by (by rewrite elem_of_keys). unfold All.
      apply eq_None_not_Some in Hk. by rewrite Hk. }
  assert (forall vs, r !! k = Some vs -> vs <> []) as Hne.
  { intros vs. apply AddValues_nonempty. intros ? ? Hl. by rewrite lookup_empty in Hl. }
  unfold All in Hall. rewrite map_lookup_filter. destruct (r !! k) as [vs|]; destruct (q !! k) as [ws|]; cbn in *.
  - subst ws. by rewrite option_guard_True by (by apply Hne).
  - by destruct (Hne vs eq_refl).
  - subst ws. by rewrite option_guard_False by (intros Hn; by apply Hn).
  - done.
Qed.

Lemma ParseQuery_nonempty s k vs : ParseQuery s !! k = Some vs -> vs <> [].
Proof. unfold ParseQuery. apply AddValues_nonempty. intros ? ? Hl. by rewrite lookup_empty in Hl. Qed.

Lemma ParseQuery_Encode_id (q : values) :
  (forall k vs, q !! k = Some vs -> vs <> []) -> ParseQuery (Encode q) = q.
Proof.
  intros Hq. rewrite ParseQuery_Encode_filter. apply map_filter_id. intros k vs Hk. by apply Hq in Hk.
Qed.

(** What is encoded into a query string is read back: the same values under
    every key, in the same order, whatever bytes they hold, a key with no
    values being the only thing lost; and what was read from any query string,
    however malformed, survives being encoded and read again. *)
Theorem query_roundtrip (q : values) raw :
  ParseQuery (Encode q) = filter (fun e => e.2 <> []) q /\
  ParseQuery (Encode (ParseQuery raw)) = ParseQuery raw.
Proof.
  split; [apply ParseQuery_Encode_filter|]. apply ParseQuery_Encode_id. apply ParseQuery_nonempty.
Qed.

(** ** Words *)

Definition word (s : string) : Prop := s <> "" /\ all_bytes (fun c => negb (is_space c)) s = true.

Lemma fields_from_word w : forall cur rest,
  all_bytes (fun c => negb (is_space c)) w = true -> fields_from cur (w ++ rest) = fields_from (cur ++ w) rest.
Proof.
  induction w as [|c w IH]; intros cur rest; cbn [all_bytes String.append fields_from].
  - intros _. by rewrite append_nil_r.
  - intros [Hc%negb_true_iff Hw]%andb_true_iff. rewrite Hc, IH by done. by rewrite append_assoc.
Qed.

Lemma fields_from_words s : forall cur, all_bytes (fun c => negb (is_space c)) cur = true ->
  Forall word (fields_from cur s).
Proof.
  assert (forall cur, all_bytes (fun c => negb (is_space c)) cur = true ->
    Forall word (if String.eqb cur "" then [] else [cur])) as Hcur.
  { intros cur Hc. destruct (String.eqb_spec cur ""); [constructor|]. by constructor; [split|constructor]. }
  induction s as [|c s IH]; intros cur Hc; cbn [fields_from]; [by apply Hcur|].
  destruct (is_space c) eqn:Hs.
  - apply Forall_app. split; [by apply Hcur|by apply IH].
  - apply IH. clear -Hc Hs. induction cur as [|d cur IH]; cbn in *; [by rewrite Hs|].
    apply andb_true_iff in Hc as [-> Hc]. by apply IH.
Qed.

Lemma Fields_words s : Forall word (Fields s).
Proof. by apply fields_from_words. Qed.

Lemma Fields_Join l : Forall word l -> Fields (Join l " ") = l.
Proof.
  unfold Fields. induction 1 as [|w l [Hne Hw] Hl IH]; [done|]. destruct l as [|w' l].
  - cbn [Join]. rewrite <- (append_nil_r w), fields_from_word, append_nil_r by done. cbn [fields_from String.append].
    by rewrite (proj2 (String.eqb_neq _ _) Hne).
  - change (Join (w :: w' :: l) " ") with (w ++ String " " (Join (w' :: l) " ")).
    rewrite fields_from_word by done. cbn [String.append]. cbn [fields_from].
    change (is_space " ") with true. cbn iota. rewrite (proj2 (String.eqb_neq _ _) Hne).
    change ([w] ++ fields_from "" (Join (w' :: l) " "))%list with (w :: fields_from "" (Join (w' :: l) " ")).
    by rewrite IH.
Qed.

(** * Same-origin paths *)

(** A return path is safe: it is rooted, cannot be read as a host, whichever
    slash a browser takes for another, and names neither scheme nor host; and
    a path that is safe is returned as it is. *)
Theorem SafeReturnPath_safe `{!ParseURL} p :
  let r := SafeReturnPath p in
  (r = "/" \/
   (r = p /\ HasPrefix r "/" = true /\ HasPrefix r "//" = false /\ HasPrefix r "/\" = false /\
    exists u, url_Parse r = Some u /\ url_Scheme u = "" /\ url_Host u = "")) /\
  SafeReturnPath r = (if String.eqb r "/" then SafeReturnPath "/" else r).
Proof.
  cbn zeta. assert (SafeReturnPath "/" = "/") as Hroot.
  { unfold SafeReturnPath. cbn. destruct (url_Parse "/") as [u|]; [|done]. by destruct (_ || _)%bool. }
  assert (SafeReturnPath p = "/" \/
    (SafeReturnPath p = p /\ HasPrefix p "/" = true /\ HasPrefix p "//" = false /\ HasPrefix p "/\" = false /\
     exists u, url_Parse p = Some u /\ url_Scheme u = "" /\ url_Host u = "")) as Hp.
  { unfold SafeReturnPath. destruct (String.eqb p ""); [by left|].
    destruct (HasPrefix p "/"); [|by left]. cbn [negb].
    destruct (HasPrefix p "//"); [by left|]. destruct (HasPrefix p "/\"); [by left|]. cbn [orb].
    destruct (url_Parse p) as [u|] eqn:Hu; [|by left].
    destruct (String.eqb_spec (url_Scheme u) "") as [Hs|]; [|by left]. cbn [negb orb].
    destruct (String.eqb_spec (url_Host u) "") as [Hh|]; [|by left]. cbn [negb].
    right. split_and!; try done. by exists u. }
  destruct Hp as [Hp|(Hp & Ha & Hb & Hc & Hu)].
  - rewrite Hp. split; [by left|]. cbn [String.eqb Ascii.eqb Bool.eqb]. done.
  - rewrite Hp. split; [right; done|]. destruct (String.eqb_spec p "/") as [->|]; [done|exact Hp].
Qed.

Definition samplesQuery : values :=
  {[ "scope" := ["openid roles"]; "state" := ["a&b=c;d"]; "x" := ["1"; "%"] ]}.

Example sample_encoded : Encode samplesQuery = "scope=openid+roles&state=a%26b%3Dc%3Bd&x=1&x=%25".
Proof. vm_compute. reflexivity. Qed.

(** Malformed parts are dropped and the rest is kept. *)
Example sample_parsed :
  ParseQuery "a=1;b=2&c=%zz&d&=e&f=g+h" = {[ "d" := [""]; "" := ["e"]; "f" := ["g h"] ]}.
Proof. vm_compute. reflexivity. Qed.
