(* ===== verification/Consent.v ===== *)
(** The consent store of dynamically registered clients
    (src/internal/auth/dcr/consent.go). One record per subject, kept in a cache
    under the hash of the subject: client id, then redirect, then grant. *)
From S2P Require Import Prelude GoStr Store Deps Clients Dcr.
From Stdlib Require Import Ascii.

#[local] Open Scope string_scope.

(** * Data *)

Definition MaxConsentClients : nat := 64.
Definition MaxConsentRedirects : nat := 4.
Definition MaxConsentScopes : nat := 32.
Definition MaxConsentScopeLen : nat := 128.
Definition consentTouchEvery : Z := 24 * hour.
Definition maxInt64 : Z := 2 ^ 63 - 1.

Record consentGrant := mkGrant { g_Scopes : list string; g_Touched : Z }.

#[global] Instance consentGrant_eq_dec : EqDecision consentGrant.
Proof. solve_decision. Defined.

#[global] Program Instance consentGrant_countable : Countable consentGrant :=
  inj_countable' (fun g => (g_Scopes g, g_Touched g)) (fun x => mkGrant x.1 x.2) _.
Next Obligation. by intros []. Qed.

(** [rec.Clients]; [load] replaces a null map by an empty one, and a null inner
    map reads as an empty one. *)
Abbreviation consentRecord := (gmap string (gmap string consentGrant)).

Record ConsentStore (St : Type) := mkConsentStore { cs_cache : St; cs_ttl : Z }.
Arguments mkConsentStore {St} _ _.
Arguments cs_cache {St} _.
Arguments cs_ttl {St} _.

(** * Eviction *)

Section Evict.
Context {V : Type} (limit : nat) (keep : string) (touched : V -> Z).

(** One turn of the scan: the oldest so far, ties to the smaller key. *)
Definition older_entry (acc : Z * string) (e : string * V) : Z * string :=
  let '(oldest, oldestKey) := acc in
  let '(k, v) := e in
  if String.eqb k keep then acc
  else let t := touched v in
       if ((t <? oldest) || ((t =? oldest) && String.ltb k oldestKey))%Z%bool then (t, k) else acc.

Definition oldest_of (m : gmap string V) : string :=
  (foldl older_entry (maxInt64, "") (map_to_list m)).2.

(** [None]: the loop has not ended within [fuel] deletions. *)
Fixpoint evictOldest_fuel (fuel : nat) (m : gmap string V) : option (gmap string V) :=
  if (size m <=? limit)%nat then Some m else
  match fuel with
  | O => None
  | S fuel => evictOldest_fuel fuel (delete (oldest_of m) m)
  end.

Definition evictOldest (m : gmap string V) : option (gmap string V) :=
  evictOldest_fuel (size m) m.
End Evict.

(** * Operations *)

Section Consent.
Context {St} `{CacheOps St} `{!JSON consentRecord} `{!Sha256}.

Implicit Types s : ConsentStore St.

Definition consentKey (subject : string) : string := sha256hex subject.
Definition redirectKey (redirectURI : string) : string := sha256hex redirectURI.

Definition with_consents (c : St) s : ConsentStore St := mkConsentStore c (cs_ttl s).

Definition touchEvery s : Z :=
  if (cs_ttl s <=? 0)%Z then consentTouchEvery else Z.min consentTouchEvery (cs_ttl s / 4).

Definition load (up : bool) (now : Z) (subject : string) s
    : result store_error consentRecord * ConsentStore St :=
  if negb up then (Err ErrCache, s) else
  let '(val, c) := cGet now (consentKey subject) (cs_cache s) in
  (Ok match val with
      | None => ∅
      | Some val => default ∅ (Unmarshal val)
      end, with_consents c s).

Definition save (up : bool) (now : Z) (subject : string) (rec : consentRecord) s
    : result store_error unit * ConsentStore St :=
  if negb up then (Err ErrCache, s)
  else if decide (rec = ∅) then (Ok (), with_consents (cDelete (consentKey subject) (cs_cache s)) s)
  else (Ok (), with_consents
          (cSet now (consentKey subject) (Marshal rec) [WithTTL (cs_ttl s)] (cs_cache s)) s).

(** [rec.Clients[clientID][redirectKey(redirectURI)]]. *)
Definition grant_at (rec : consentRecord) (clientID redirectURI : string) : option consentGrant :=
  rec !! clientID ≫= (fun redirects => redirects !! redirectKey redirectURI).

Definition fresh_grant (now : Z) (g : consentGrant) s : bool :=
  (time_sub now (of_unix (g_Touched g)) <? touchEvery s)%Z.

(** [up 1] is the re-load, [up 2] the write. *)
Definition touch (up : nat -> bool) (now : Z) (subject clientID redirectURI : string) s
    : ConsentStore St :=
  let '(rec, s) := load (up 1%nat) now subject s in
  match rec with
  | Err _ => s
  | Ok rec =>
      match grant_at rec clientID redirectURI with
      | None => s
      | Some g =>
          if fresh_grant now g s then s else
          (save (up 2%nat) now subject
             (alter (insert (redirectKey redirectURI) (mkGrant (g_Scopes g) (unix now))) clientID rec)
             s).2
      end
  end.

Definition touchIfStale (up : nat -> bool) (now : Z) (subject clientID redirectURI : string)
    (read : consentGrant) s : ConsentStore St :=
  if fresh_grant now read s then s else touch up now subject clientID redirectURI s.

(** [mid] is what other callers do to the record between the read and the
    touch. *)
Definition Covers (up : nat -> bool) (now : Z) (subject clientID redirectURI : string)
    (scopes : list string) (mid : ConsentStore St -> ConsentStore St) s
    : result store_error bool * ConsentStore St :=
  let '(rec, s) := load (up 0%nat) now subject s in
  match rec with
  | Err e => (Err e, s)
  | Ok rec =>
      match grant_at rec clientID redirectURI with
      | None => (Ok false, s)
      | Some g =>
          if forallb (contains_elem (g_Scopes g)) scopes
          then (Ok true, touchIfStale up now subject clientID redirectURI g (mid s))
          else (Ok false, s)
      end
  end.

(** The most recently touched of the allowed redirects that hold a grant. *)
Definition newest_grant (rec : consentRecord) (clientID : string) (acc : option (string * consentGrant))
    (redirect : string) : option (string * consentGrant) :=
  match grant_at rec clientID redirect, acc with
  | Some g, None => Some (redirect, g)
  | Some g, Some (_, grant) => if (g_Touched grant <? g_Touched g)%Z then Some (redirect, g) else acc
  | None, _ => acc
  end.

Definition HasClient (up : nat -> bool) (now : Z) (subject clientID : string)
    (redirects : list string) (mid : ConsentStore St -> ConsentStore St) s
    : result store_error bool * ConsentStore St :=
  let '(rec, s) := load (up 0%nat) now subject s in
  match rec with
  | Err e => (Err e, s)
  | Ok rec =>
      match foldl (newest_grant rec clientID) None redirects with
      | None => (Ok false, s)
      | Some (newest, grant) => (Ok true, touchIfStale up now subject clientID newest grant (mid s))
      end
  end.

Definition merge_scopes (old scopes : list string) : list string :=
  let merged := keep_distinct (fun sc => (String.length sc <=? MaxConsentScopeLen)%nat) old scopes in
  sort_strings (if (MaxConsentScopes <? length merged)%nat
    then drop (length merged - MaxConsentScopes) merged else merged).

Definition newest_of (r : gmap string consentGrant) : Z :=
  map_fold (fun _ g newest => Z.max newest (g_Touched g)) 0 r.

(** The record [Grant] saves; [None] when an eviction loop does not end. *)
Definition grant_record (now : Z) (clientID redirectURI : string) (scopes : list string)
    (rec : consentRecord) : option consentRecord :=
  let redirects := default ∅ (rec !! clientID) in
  let key := redirectKey redirectURI in
  let old := match redirects !! key with Some g => g_Scopes g | None => [] end in
  redirects ← evictOldest MaxConsentRedirects key g_Touched
    (<[key := mkGrant (merge_scopes old scopes) (unix now)]> redirects);
  evictOldest MaxConsentClients clientID newest_of (<[clientID := redirects]> rec).

Definition Grant (up : nat -> bool) (now : Z) (subject clientID redirectURI : string)
    (scopes : list string) s : option (result store_error unit * ConsentStore St) :=
  let '(rec, s) := load (up 0%nat) now subject s in
  match rec with
  | Err e => Some (Err e, s)
  | Ok rec =>
      rec ← grant_record now clientID redirectURI scopes rec;
      Some (save (up 1%nat) now subject rec s)
  end.

Definition revoke_record (clientID redirectURI : string) (rec : consentRecord) : consentRecord :=
  let rec := alter (delete (redirectKey redirectURI)) clientID rec in
  match rec !! clientID with
  | Some redirects => if decide (redirects = ∅) then delete clientID rec else rec
  | None => rec
  end.

Definition Revoke (up : nat -> bool) (now : Z) (subject clientID redirectURI : string) s
    : result store_error unit * ConsentStore St :=
  let '(rec, s) := load (up 0%nat) now subject s in
  match rec with
  | Err e => (Err e, s)
  | Ok rec => save (up 1%nat) now subject (revoke_record clientID redirectURI rec) s
  end.
End Consent.
