(* ===== verification/DcrSpec.v ===== *)
(** What dynamic client registration guarantees: the redirect and grant
    policies hold of every client that is read back, and a consent is bounded,
    kept until it is revoked, and never resurrected. *)
From S2P Require Import Prelude GoStr Store Deps Clients Dcr Consent.
From Stdlib Require Import Ascii.

#[local] Open Scope string_scope.

(** * Eviction *)

Section EvictLemmas.
Context {V : Type} (keep : string) (touched : V -> Z).

Lemma older_entry_fold l : forall acc,
  let r := foldl (older_entry keep touched) acc l in
  r.1 <= acc.1 /\
  (forall k v, (k, v) ∈ l -> k <> keep -> r.1 <= touched v) /\
  (r = acc \/ exists k v, (k, v) ∈ l /\ k <> keep /\ r = (touched v, k)).
Proof.
  induction l as [|[k v] l IH]; intros [o ok]; cbn [foldl].
  { split_and!; [lia| |by left]. by intros ? ? ?%elem_of_nil. }
  destruct (IH (older_entry keep touched (o, ok) (k, v))) as (H1 & H2 & H3).
  assert ((older_entry keep touched (o, ok) (k, v)).1 <= o /\
    (k <> keep -> (older_entry keep touched (o, ok) (k, v)).1 <= touched v) /\
    (older_entry keep touched (o, ok) (k, v) = (o, ok) \/
     k <> keep /\ older_entry keep touched (o, ok) (k, v) = (touched v, k))) as (Ha & Hb & Hc).
  { unfold older_entry. destruct (String.eqb_spec k keep) as [->|Hne]; simpl; [split_and!; [lia|done|by left]|].
    destruct (touched v <? o)%Z eqn:Hlt; simpl; [bool_to_prop; split_and!; [lia|lia|by right]|].
    destruct (touched v =? o)%Z eqn:Heq; simpl; [|bool_to_prop; split_and!; [lia|lia|by left]].
    destruct (String.ltb k ok); simpl; bool_to_prop; split_and!; try lia; [by right|by left]. }
  split_and!.
  - simpl in *. lia.
  - intros k' v' [Heq|Hin]%elem_of_cons Hne; [simplify_eq; specialize (Hb Hne); lia|by apply (H2 k')].
  - destruct H3 as [-> |(k' & v' & Hin & Hne & ->)].
    + destruct Hc as [-> |[Hne ->]]; [by left|]. right. exists k, v. split_and!; [left|done|done].
    + right. exists k', v'. split_and!; [by right|done|done].
Qed.

(** With a candidate below the largest int64, the scan finds the oldest. *)
Lemma oldest_of_spec (m : gmap string V) k v :
  map_Forall (fun _ v => touched v < maxInt64) m -> m !! k = Some v -> k <> keep ->
  exists v0, m !! oldest_of keep touched m = Some v0 /\ oldest_of keep touched m <> keep /\
    (forall k' v', m !! k' = Some v' -> k' <> keep -> touched v0 <= touched v').
Proof.
  intros Hall Hk Hne. unfold oldest_of.
  destruct (older_entry_fold (map_to_list m) (maxInt64, "")) as (_ & H2 & H3).
  assert (forall k' v', m !! k' = Some v' -> k' <> keep ->
    (foldl (older_entry keep touched) (maxInt64, "") (map_to_list m)).1 <= touched v') as Hmin.
  { intros k' v' Hk' Hne'. apply (H2 k'); [by apply elem_of_map_to_list|done]. }
  destruct H3 as [Heq|(k0 & v0 & Hin & Hne0 & Heq)]; rewrite Heq in Hmin |- *; simpl in *.
  - specialize (Hmin k v Hk Hne). specialize (Hall k v Hk). simpl in Hall. lia.
  - exists v0. split_and!; [by apply elem_of_map_to_list|done|done].
Qed.

Lemma other_key (m : gmap string V) : (1 < size m)%nat -> exists k v, m !! k = Some v /\ k <> keep.
Proof.
  intros Hs. destruct (decide (delete keep m = ∅)) as [He|He].
  - assert (size (delete keep m) = 0%nat) as H0 by (by rewrite He, map_size_empty).
    rewrite map_size_delete in H0. destruct (m !! keep); simpl in H0; lia.
  - apply map_choose in He as (k & v & Hk). exists k, v.
    destruct (decide (k = keep)) as [->|Hne]; [by rewrite lookup_delete_eq in Hk|].
    by rewrite lookup_delete_ne in Hk by done.
Qed.

(** The loop ends, within the limit, having dropped only entries at most as
    recent as the ones it keeps. *)
Lemma evictOldest_fuel_spec limit fuel : forall m : gmap string V,
  (1 <= limit)%nat -> (size m <= fuel + limit)%nat -> map_Forall (fun _ v => touched v < maxInt64) m ->
  exists m', evictOldest_fuel limit keep touched fuel m = Some m' /\ m' ⊆ m /\
    (size m' <= limit)%nat /\ ((size m <= limit)%nat -> m' = m) /\ m' !! keep = m !! keep /\
    (forall k v k' v', m !! k = Some v -> m' !! k = None -> m' !! k' = Some v' -> k' <> keep ->
      touched v <= touched v').
Proof.
  induction fuel as [|fuel IH]; intros m Hl Hf Hall; cbn [evictOldest_fuel];
    destruct (Nat.leb_spec (size m) limit) as [Hle|Hgt].
  1, 3: exists m; split_and!; try done; intros; congruence.
  { lia. }
  destruct (other_key m) as (k & v & Hk & Hne); [lia|].
  destruct (oldest_of_spec m k v Hall Hk Hne) as (v0 & Hv0 & Hk0 & Hmin).
  set (k0 := oldest_of keep touched m) in *.
  destruct (IH (delete k0 m)) as (m' & He & Hsub & Hsz & _ & Hkeep & Hold).
  { done. }
  { rewrite map_size_delete, Hv0. simpl. lia. }
  { by apply map_Forall_delete. }
  exists m'. split_and!; [done|by etrans; [|apply delete_subseteq]|done|lia| |].
  - rewrite Hkeep. by apply lookup_delete_ne.
  - intros k1 v1 k2 v2 H1 H1' H2 Hne2. destruct (decide (k1 = k0)) as [->|Hd].
    + rewrite Hv0 in H1. simplify_eq. apply (Hmin k2); [|done].
      eapply lookup_weaken; [|by etrans; [|apply delete_subseteq]]. done.
    + eapply (Hold k1); try done. by rewrite lookup_delete_ne.
Qed.

Lemma evictOldest_spec limit (m : gmap string V) :
  (1 <= limit)%nat -> map_Forall (fun _ v => touched v < maxInt64) m ->
  exists m', evictOldest limit keep touched m = Some m' /\ m' ⊆ m /\
    (size m' <= limit)%nat /\ ((size m <= limit)%nat -> m' = m) /\ m' !! keep = m !! keep /\
    (forall k v k' v', m !! k = Some v -> m' !! k = None -> m' !! k' = Some v' -> k' <> keep ->
      touched v <= touched v').
Proof. intros Hl Hall. apply evictOldest_fuel_spec; [done|lia|done]. Qed.
End EvictLemmas.

(** * Policies *)

Section Policy.
Context `{!ParseURL}.

Lemma scheme_admits_safe u s :
  scheme_admits u s = true ->
  (url_Scheme u ∉ dangerousSchemes) /\
  (url_Scheme u = schemeHTTP -> loopback_host (url_Hostname u) = true /\ s = SchemeLoopback).
Proof.
  unfold scheme_admits. destruct (String.eqb_spec s SchemeLoopback) as [->|Hs].
  { intros [Hu%String.eqb_eq Hh]%andb_true_iff. rewrite Hu. split; [|done].
    unfold dangerousSchemes. rewrite !elem_of_cons. by intros [?|[?|[?|[?|[?|?%elem_of_nil]]]]]. }
  destruct (String.eqb_spec s SchemePrivateUse) as [->|Hp].
  { intros [[[_ Hh]%andb_true_iff _]%andb_true_iff Hc]%andb_true_iff. split.
    - unfold dangerousSchemes. rewrite !elem_of_cons. intros Hin.
      destruct Hin as [E|[E|[E|[E|[E|?%elem_of_nil]]]]]; try done; rewrite E in Hc; discriminate Hc.
    - intros Hu. rewrite Hu in Hh. discriminate Hh. }
  destruct (String.eqb s "" || String.eqb s schemeHTTP || contains_elem dangerousSchemes s)%bool
    eqn:Hlit; [done|]. intros Hu%String.eqb_eq.
  apply orb_false_iff in Hlit as [[_ Hh]%orb_false_iff Hd]. rewrite Hu. split.
  - rewrite <- contains_elem_spec. by rewrite Hd.
  - intros ->. discriminate Hh.
Qed.

(** Every redirect a dynamically registered client is left with is one it
    registered, listed once, and safe whatever the host's policy says: it
    parses, carries no userinfo and no fragment, its host is ASCII (and
    present on http and https), its scheme is never one of the dangerous
    ones, and plain http is admitted only to a loopback host under the
    loopback policy. Relaxing the policy never takes a redirect away. *)
Theorem redirects_safe uris schemes schemes' u :
  u ∈ FilterRedirectURIs uris schemes -> schemes ⊆ schemes' ->
  NoDup (FilterRedirectURIs uris schemes) /\ u ∈ FilterRedirectURIs uris schemes' /\
  u ∈ uris /\ Contains u "#" = false /\ (String.length u <= maxRedirectURILen)%nat /\
  exists p, url_Parse u = Some p /\ url_User p = false /\
    (url_Hostname p = "" \/ isASCII (url_Hostname p) = true) /\
    (url_Scheme p ∈ [schemeHTTP; schemeHTTPS] -> url_Hostname p <> "") /\
    (url_Scheme p ∉ dangerousSchemes) /\
    (url_Scheme p = schemeHTTP -> loopback_host (url_Hostname p) = true /\ SchemeLoopback ∈ schemes).
Proof.
  unfold FilterRedirectURIs. intros [Hn|[Hin Ha]]%elem_of_keep_distinct Hsub; [by apply elem_of_nil in Hn|].
  split; [apply NoDup_keep_distinct; constructor|].
  rewrite elem_of_keep_distinct. revert Ha. unfold redirectAllowed.
  destruct (_ || _ || Contains u "#")%bool eqn:Hshape; [done|].
  apply orb_false_iff in Hshape as [[_ Hlen]%orb_false_iff Hfrag]. apply Nat.ltb_ge in Hlen.
  destruct (url_Parse u) as [p|]; [|done]. destruct (url_User p) eqn:Hu; [done|].
  destruct (negb (String.eqb (url_Hostname p) "") && _)%bool eqn:Hhost; [done|].
  destruct (_ && String.eqb (url_Hostname p) "")%bool eqn:Hempty; [done|].
  rewrite !existsb_exists. intros (s & Hs & Hadm).
  destruct (scheme_admits_safe _ _ Hadm) as [Hd Hh].
  split_and!; try done.
  - right. split; [done|]. exists s. split; [|done]. apply list_elem_of_In, Hsub, list_elem_of_In, Hs.
  - exists p. split_and!; try done.
    + destruct (String.eqb_spec (url_Hostname p) "") as [->|_]; [by left|right].
      simpl in Hhost. by apply negb_false_iff in Hhost.
    + intros Hsch He. rewrite !elem_of_cons in Hsch. rewrite He in Hempty.
      destruct Hsch as [E|[E|?%elem_of_nil]]; [..|done]; by rewrite E in Hempty.
    + intros E. destruct (Hh E) as [? ->]. split; [done|]. by apply list_elem_of_In.
Qed.
End Policy.

(** A dynamically registered client holds only redirect-based grants:
    whatever it asked for, what it is left with is a duplicate-free part of
    authorization_code and refresh_token, exactly the part it asked for when
    it asked for anything, and never the password or client_credentials
    grant. *)
Theorem grants_confined grants g :
  g ∈ FilterGrantTypes grants ->
  NoDup (FilterGrantTypes grants) /\ g ∈ SupportedGrantTypes /\ (grants <> [] -> g ∈ grants) /\
  g <> "password" /\ g <> "client_credentials" /\
  (forall g', g' ∈ grants -> g' ∈ SupportedGrantTypes -> g' ∈ FilterGrantTypes grants).
Proof.
  intros Hg.
  assert (NoDup (FilterGrantTypes grants) /\ g ∈ SupportedGrantTypes /\ (grants <> [] -> g ∈ grants) /\
    (forall g', g' ∈ grants -> g' ∈ SupportedGrantTypes -> g' ∈ FilterGrantTypes grants)) as (H1 & H2 & H3 & H4).
  { unfold FilterGrantTypes in *. destruct grants as [|g0 l].
    - split_and!; [|done|done|done].
      apply (bool_decide_unpack _). vm_compute. done.
    - apply elem_of_keep_distinct in Hg as [Hn|[Hin Hs]]; [by apply elem_of_nil in Hn|].
      split_and!; [apply NoDup_keep_distinct; constructor|by apply contains_elem_spec|done|].
      intros g' Hg' Hs'. apply elem_of_keep_distinct. right. by rewrite contains_elem_spec. }
  split_and!; try done; intros ->; unfold SupportedGrantTypes in H2; rewrite !elem_of_cons in H2;
    destruct H2 as [E|[E|E%elem_of_nil]]; done.
Qed.

(** * Consent *)

Lemma map_Forall_sub {V} (P : string -> V -> Prop) (m m' : gmap string V) :
  m' ⊆ m -> map_Forall P m -> map_Forall P m'.
Proof. intros Hs Hm k v Hk. apply Hm. by eapply lookup_weaken. Qed.

Lemma map_size_alter {V} (f : V -> V) k (m : gmap string V) : size (alter f k m) = size m.
Proof.
  destruct (m !! k) as [v|] eqn:Hk.
  - assert (alter f k m = <[k := f v]> m) as ->.
    { apply map_eq. intros i. destruct (decide (i = k)) as [->|Hne].
      - by rewrite lookup_alter_eq, Hk, lookup_insert_eq.
      - by rewrite lookup_alter_ne, lookup_insert_ne. }
    apply map_size_insert_Some. by eexists.
  - f_equal. apply map_eq. intros i. destruct (decide (i = k)) as [->|Hne].
    + by rewrite lookup_alter_eq, Hk.
    + by rewrite lookup_alter_ne.
Qed.

Lemma hex_isASCII s : all_bytes is_hex s = true -> isASCII s = true.
Proof.
  unfold isASCII. induction s as [|c s IH]; [done|]. cbn [all_bytes].
  intros [Hc Hs]%andb_true_iff. rewrite IH by done. rewrite andb_true_r.
  unfold is_hex in Hc. unfold is_ascii. apply N.ltb_lt.
  apply orb_true_iff in Hc as [[? Hc]%andb_true_iff|[? Hc]%andb_true_iff]; apply N.leb_le in Hc; lia.
Qed.

(** A record within its bounds, its strings ASCII. *)
Definition good_grant (g : consentGrant) : Prop :=
  (length (g_Scopes g) <= MaxConsentScopes)%nat /\ g_Touched g < maxInt64 /\
  Forall (fun sc => isASCII sc = true) (g_Scopes g).

Definition good_redirects (rs : gmap string consentGrant) : Prop :=
  (size rs <= MaxConsentRedirects)%nat /\
  map_Forall (fun k g => isASCII k = true /\ good_grant g) rs.

Definition good_record (r : consentRecord) : Prop :=
  (size r <= MaxConsentClients)%nat /\
  map_Forall (fun id rs => isASCII id = true /\ good_redirects rs) r.

Section ConsentLemmas.
Context {St} `{CacheOps St} `{!CacheSafe St} `{!JSON consentRecord} `{!Sha256}.
(** encoding/json rewrites no ASCII string. *)
Context (good_clean : forall r : consentRecord, good_record r -> clean r).

Implicit Types s : ConsentStore St.

(** The subject's record, as a reader at [t] finds it. *)
Definition consents_of (t : Z) (subject : string) s : consentRecord :=
  match st_get t (consentKey subject) (cabs (cs_cache s)) with
  | Some v => default ∅ (Unmarshal v)
  | None => ∅
  end.

Definition same_store s s' : Prop := cabs (cs_cache s') = cabs (cs_cache s) /\ cs_ttl s' = cs_ttl s.

Lemma consents_of_same t subject s s' :
  same_store s s' -> consents_of t subject s' = consents_of t subject s.
Proof. intros [Ha _]. unfold consents_of. by rewrite Ha. Qed.

(** Later, the record is the same or gone. *)
Lemma consents_of_later t t' subject s :
  t <= t' -> consents_of t' subject s = consents_of t subject s \/ consents_of t' subject s = ∅.
Proof.
  intros Ht. unfold consents_of.
  destruct (st_get t' (consentKey subject) (cabs (cs_cache s))) as [v|] eqn:Hv; [|by right].
  left. by rewrite (st_get_anti t t' _ _ v).
Qed.

Lemma load_spec up now subject s :
  exists s', load up now subject s =
    (if up then Ok (consents_of now subject s) else Err ErrCache, s') /\ same_store s s'.
Proof.
  unfold load. destruct up; simpl; [|by exists s].
  destruct (cGet now (consentKey subject) (cs_cache s)) as [val c] eqn:Hg.
  exists (with_consents c s). split; [|split; [|done]]; simpl.
  - unfold consents_of. pose proof (cGet_val now (consentKey subject) (cs_cache s)) as Hv.
    rewrite Hg in Hv. simpl in Hv. subst val. by destruct (st_get _ _ _).
  - pose proof (cGet_abs now (consentKey subject) (cs_cache s)) as Hv. by rewrite Hg in Hv.
Qed.

(** What a write leaves of another subject's record: a bounded cache may have
    evicted it to make room. *)
Definition kept_or_evicted (before after : consentRecord) : Prop := after = before \/ after = ∅.

Lemma save_spec now subject rec s :
  good_record rec ->
  exists s', save true now subject rec s = (Ok (), s') /\ cs_ttl s' = cs_ttl s /\
    (forall t, now <= t -> consents_of t subject s' = if decide (t <= now + cs_ttl s) then rec else ∅) /\
    (forall t subject', consentKey subject' <> consentKey subject ->
      kept_or_evicted (consents_of t subject' s) (consents_of t subject' s')).
Proof.
  intros Hg. unfold save. cbn [negb]. destruct (decide (rec = ∅)) as [->|Hne].
  - eexists. split_and!; [done|done| |]; unfold consents_of; cbn [cs_cache with_consents].
    + intros t Ht. rewrite cDelete_abs, st_get_delete. by case_decide.
    + intros t subject' Hk. rewrite cDelete_abs, st_get_delete_ne by done. by left.
  - eexists. split_and!; [done|done| |]; unfold consents_of; cbn [cs_cache with_consents].
    + intros t Ht. unfold st_get. rewrite cSet_at. unfold expiry_of. simpl.
      case_decide.
      * rewrite (proj2 (after_false _ _)) by done. rewrite Unmarshal_Marshal; [done|auto].
      * rewrite (proj2 (after_spec _ _)) by lia. done.
    + intros t subject' Hk. unfold st_get, kept_or_evicted.
      destruct (cabs (cSet _ _ _ _ _) !! consentKey subject') as [[v e]|] eqn:Hs; [|by right].
      left. by rewrite (cSet_other _ _ _ _ _ _ _ Hk Hs).
Qed.

(** ** Records *)

Lemma newest_of_bound rs : map_Forall (fun _ g => g_Touched g < maxInt64) rs -> newest_of rs < maxInt64.
Proof.
  unfold newest_of.
  apply (map_fold_weak_ind (fun r m => map_Forall (fun _ g => g_Touched g < maxInt64) m -> r < maxInt64)).
  - unfold maxInt64. lia.
  - intros k g m r Hk IH Hall. apply map_Forall_insert in Hall as [Hg Hall]; [|done].
    specialize (IH Hall). lia.
Qed.

Lemma good_redirects_touched rs : good_redirects rs -> map_Forall (fun _ g => g_Touched g < maxInt64) rs.
Proof. intros [_ Hall] k g Hk. apply (Hall k g Hk). Qed.

Lemma merge_scopes_good old scopes :
  Forall (fun sc => isASCII sc = true) old -> Forall (fun sc => isASCII sc = true) scopes ->
  (length (merge_scopes old scopes) <= MaxConsentScopes)%nat /\
  Forall (fun sc => isASCII sc = true) (merge_scopes old scopes).
Proof.
  intros Ho Hs. unfold merge_scopes, sort_strings. set (merged := keep_distinct _ old scopes).
  assert (Forall (fun sc => isASCII sc = true) merged) as Hm.
  { apply Forall_forall. intros sc Hin. apply elem_of_keep_distinct in Hin as [Hin|[Hin _]].
    - by eapply Forall_forall in Ho.
    - by eapply Forall_forall in Hs. }
  rewrite !merge_sort_Permutation. destruct (Nat.ltb_spec MaxConsentScopes (length merged)) as [Hlt|Hle].
  - split; [rewrite length_drop; lia|by apply Forall_drop].
  - done.
Qed.

Lemma length_keep_distinct p l : forall kept : list string,
  (length (keep_distinct p kept l) <= length kept + length l)%nat.
Proof.
  induction l as [|x l IH]; intros kept; simpl; [lia|].
  destruct (p x && _)%bool; [|specialize (IH kept); lia].
  specialize (IH (kept ++ [x])%list). rewrite length_app in IH. simpl in IH. lia.
Qed.

(** Within the cap nothing is dropped. *)
Lemma elem_of_merge_scopes old scopes sc :
  (length old + length scopes <= MaxConsentScopes)%nat ->
  sc ∈ merge_scopes old scopes <->
  sc ∈ old \/ sc ∈ scopes /\ (String.length sc <= MaxConsentScopeLen)%nat.
Proof.
  intros Hl. unfold merge_scopes, sort_strings. rewrite merge_sort_Permutation.
  match goal with |- context [keep_distinct ?p old scopes] =>
    pose proof (length_keep_distinct p scopes old) end.
  destruct (Nat.ltb_spec MaxConsentScopes (length (keep_distinct
    (fun sc : string => (String.length sc <=? MaxConsentScopeLen)%nat) old scopes))); [lia|].
  by rewrite elem_of_keep_distinct, Nat.leb_le.
Qed.

Definition old_scopes (rec : consentRecord) (clientID redirectURI : string) : list string :=
  match grant_at rec clientID redirectURI with Some g => g_Scopes g | None => [] end.

(** A grant is recorded within the bounds, and is never what eviction takes. *)
Lemma grant_record_spec now clientID redirectURI scopes rec :
  good_record rec -> isASCII clientID = true -> Forall (fun sc => isASCII sc = true) scopes ->
  unix now < maxInt64 ->
  exists rec', grant_record now clientID redirectURI scopes rec = Some rec' /\ good_record rec' /\
    grant_at rec' clientID redirectURI =
      Some (mkGrant (merge_scopes (old_scopes rec clientID redirectURI) scopes) (unix now)).
Proof.
  intros [Hsz Hrec] Hid Hsc Hnow. unfold grant_record.
  set (rs := default ∅ (rec !! clientID)). set (key := redirectKey redirectURI).
  assert (good_redirects rs) as [Hrsz Hrs].
  { unfold rs. destruct (rec !! clientID) as [rs0|] eqn:Hr; simpl; [apply (Hrec _ _ Hr)|].
    split; [rewrite map_size_empty; lia|apply map_Forall_empty]. }
  assert (match rs !! key with Some g => g_Scopes g | None => [] end =
    old_scopes rec clientID redirectURI) as ->.
  { unfold old_scopes, grant_at, rs, key. destruct (rec !! clientID); simpl; [done|].
    by rewrite lookup_empty. }
  assert (Forall (fun sc => isASCII sc = true) (old_scopes rec clientID redirectURI)) as Hold.
  { unfold old_scopes, grant_at. destruct (rec !! clientID) as [rs0|] eqn:Hr; simpl; [|constructor].
    destruct (rs0 !! redirectKey redirectURI) as [g|] eqn:Hg; [|constructor].
    apply (Hrec _ _ Hr) in Hg. by destruct Hg as (_ & _ & _ & ?). }
  set (g := mkGrant _ (unix now)).
  assert (good_grant g) as Hg.
  { destruct (merge_scopes_good _ _ Hold Hsc). by split_and!. }
  assert (map_Forall (fun k g => isASCII k = true /\ good_grant g) (<[key := g]> rs)) as Hrs'.
  { apply map_Forall_insert_2; [|done]. split; [apply hex_isASCII, sha256hex_is_hex|done]. }
  destruct (evictOldest_spec key g_Touched MaxConsentRedirects (<[key := g]> rs))
    as (rs' & -> & Hsub & Hsz' & _ & Hkeep & _).
  { unfold MaxConsentRedirects. lia. }
  { intros k g' Hk. apply Hrs' in Hk. by destruct Hk as (_ & _ & ? & _). }
  cbn [mbind option_bind].
  assert (good_redirects rs') as Hgood by (split; [done|by eapply map_Forall_sub]).
  assert (map_Forall (fun id rs => isASCII id = true /\ good_redirects rs) (<[clientID := rs']> rec))
    as Hrec' by (by apply map_Forall_insert_2).
  destruct (evictOldest_spec clientID newest_of MaxConsentClients (<[clientID := rs']> rec))
    as (rec' & -> & Hsub' & Hsz'' & _ & Hkeep' & _).
  { unfold MaxConsentClients. lia. }
  { intros id r Hk. apply Hrec' in Hk as [_ Hk]. by apply newest_of_bound, good_redirects_touched. }
  exists rec'. split_and!; [done|by split; [|eapply map_Forall_sub]|].
  unfold grant_at. rewrite Hkeep', lookup_insert_eq. simpl. fold key. by rewrite Hkeep, lookup_insert_eq.
Qed.

(** Renewing a grant keeps the record good. *)
Lemma renew_good now clientID key rec g :
  good_record rec -> rec !! clientID ≫= (fun rs => rs !! key) = Some g -> unix now < maxInt64 ->
  good_record (alter (insert key (mkGrant (g_Scopes g) (unix now))) clientID rec).
Proof.
  intros [Hsz Hrec] Hg Hnow. destruct (rec !! clientID) as [rs|] eqn:Hr; [|done]. simpl in Hg.
  destruct (Hrec _ _ Hr) as [Hid [Hrsz Hrs]]. destruct (Hrs _ _ Hg) as [Hk (Hlen & _ & Hsc)].
  split; [by rewrite map_size_alter|].
  intros id rs' Hl. destruct (decide (id = clientID)) as [->|Hne].
  - rewrite lookup_alter_eq, Hr in Hl. simpl in Hl. simplify_eq. split; [done|]. split.
    + rewrite map_size_insert_Some; [done|by eexists].
    + by apply map_Forall_insert_2.
  - rewrite lookup_alter_ne in Hl by done. by apply Hrec.
Qed.

Lemma revoke_good clientID redirectURI rec :
  good_record rec -> good_record (revoke_record clientID redirectURI rec).
Proof.
  intros [Hsz Hrec].
  assert (good_record (alter (delete (redirectKey redirectURI)) clientID rec)) as Hgood.
  { split; [by rewrite map_size_alter|]. intros id rs Hl.
    destruct (decide (id = clientID)) as [->|Hne]; [|rewrite lookup_alter_ne in Hl by done; by apply Hrec].
    rewrite lookup_alter_eq in Hl. destruct (rec !! clientID) as [rs0|] eqn:Hr; [|done].
    simpl in Hl. simplify_eq. destruct (Hrec _ _ Hr) as [Hid [Hrsz Hrs]]. split; [done|].
    split; [|by apply map_Forall_delete]. rewrite map_size_delete. destruct (rs0 !! _); simpl; lia. }
  unfold revoke_record. destruct (alter _ clientID rec !! clientID); [|done]. case_decide; [|done].
  destruct Hgood as [Hs Hr]. split; [|by apply map_Forall_delete].
  rewrite map_size_delete. destruct (alter _ clientID rec !! clientID); simpl; lia.
Qed.

Lemma grant_at_revoke clientID redirectURI c u rec :
  grant_at (revoke_record clientID redirectURI rec) c u =
  if decide (c = clientID /\ redirectKey u = redirectKey redirectURI) then None else grant_at rec c u.
Proof.
  unfold revoke_record, grant_at. rewrite lookup_alter_eq.
  destruct (decide (c = clientID)) as [->|Hne].
  - destruct (rec !! clientID) as [rs|] eqn:Hr; simpl.
    + assert ((delete (redirectKey redirectURI) rs : gmap string consentGrant) !! redirectKey u =
        if decide (clientID = clientID /\ redirectKey u = redirectKey redirectURI) then None
        else rs !! redirectKey u) as <-.
      { case_decide as Hd; [destruct Hd as [_ ->]; apply lookup_delete_eq|].
        apply lookup_delete_ne. intros Heq. by apply Hd. }
      case_decide as Hd; [|by rewrite lookup_alter_eq, Hr].
      rewrite lookup_delete_eq. simpl. by rewrite Hd, lookup_empty.
    + rewrite lookup_alter_eq, Hr. simpl. by case_decide.
  - rewrite decide_False by tauto.
    destruct (rec !! clientID) as [rs|]; simpl; [case_decide|];
      rewrite ?lookup_delete_ne by done; by rewrite lookup_alter_ne.
Qed.

(** A renewal invents no grant. *)
Lemma touch_adds_nothing up now t subject clientID redirectURI s c u :
  now <= t -> unix now < maxInt64 -> good_record (consents_of now subject s) ->
  grant_at (consents_of now subject s) c u = None ->
  grant_at (consents_of t subject (touch up now subject clientID redirectURI s)) c u = None.
Proof.
  intros Ht Hnow Hgood Hnone. unfold touch.
  destruct (load_spec (up 1%nat) now subject s) as (s1 & -> & Hs1).
  assert (grant_at (consents_of t subject s1) c u = None) as Hsame.
  { rewrite (consents_of_same t subject s s1 Hs1).
    destruct (consents_of_later now t subject s Ht) as [-> | ->]; [done|]. unfold grant_at.
    by rewrite lookup_empty. }
  destruct (up 1%nat); [|done].
  destruct (grant_at (consents_of now subject s) clientID redirectURI) as [g|] eqn:Hg; [|done].
  destruct (fresh_grant now g s1); [done|].
  destruct (up 2%nat); [|done].
  destruct (save_spec now subject _ s1 (renew_good now clientID (redirectKey redirectURI) _ g Hgood Hg Hnow))
    as (s2 & -> & _ & H1 & _). cbn [snd]. rewrite H1 by done.
  assert (grant_at (alter (insert (redirectKey redirectURI) (mkGrant (g_Scopes g) (unix now))) clientID
    (consents_of now subject s)) c u = None) as Halt.
  { unfold grant_at in *. destruct (decide (c = clientID)) as [->|Hne]; [|by rewrite lookup_alter_ne].
    rewrite lookup_alter_eq. destruct (consents_of now subject s !! clientID) as [rs|]; [|done].
    simpl in *. rewrite lookup_insert_ne; [done|]. intros E. rewrite E in Hg. congruence. }
  destruct (decide (t <= now + cs_ttl s1)); [exact Halt|]. unfold grant_at. by rewrite lookup_empty.
Qed.

Lemma newest_grant_fold rec clientID redirects : forall acc,
  found (foldl (newest_grant rec clientID) acc redirects) =
  (found acc || existsb (fun u => found (grant_at rec clientID u)) redirects)%bool.
Proof.
  induction redirects as [|u l IH]; intros acc; simpl; [by rewrite orb_false_r|].
  rewrite IH. unfold newest_grant at 1.
  destruct (grant_at rec clientID u) as [g|]; [|done].
  destruct acc as [[r g']|]; [|done]. by destruct (g_Touched g' <? g_Touched g)%Z.
Qed.

Lemma Covers_answer up now subject clientID u scopes mid s :
  up 0%nat = true ->
  (Covers up now subject clientID u scopes mid s).1 =
  Ok match grant_at (consents_of now subject s) clientID u with
     | Some g => forallb (contains_elem (g_Scopes g)) scopes
     | None => false
     end.
Proof.
  intros Hup. unfold Covers. rewrite Hup.
  destruct (load_spec true now subject s) as (s1 & -> & _).
  destruct (grant_at _ _ _) as [g|]; [|done]. by destruct (forallb _ scopes).
Qed.

Lemma HasClient_answer up now subject clientID redirects mid s :
  up 0%nat = true ->
  (HasClient up now subject clientID redirects mid s).1 =
  Ok (existsb (fun u => found (grant_at (consents_of now subject s) clientID u)) redirects).
Proof.
  intros Hup. unfold HasClient. rewrite Hup.
  destruct (load_spec true now subject s) as (s1 & -> & _).
  pose proof (newest_grant_fold (consents_of now subject s) clientID redirects None) as Hf.
  simpl in Hf. rewrite <- Hf.
  by destruct (foldl _ None redirects) as [[r g]|].
Qed.

(** What granting leaves, for as long as the record lives. *)
Lemma Grant_spec now subject clientID redirectURI scopes s :
  good_record (consents_of now subject s) -> isASCII clientID = true ->
  Forall (fun sc => isASCII sc = true /\ (String.length sc <= MaxConsentScopeLen)%nat) scopes ->
  unix now < maxInt64 ->
  exists s', Grant (fun _ => true) now subject clientID redirectURI scopes s = Some (Ok (), s') /\
    (forall t, now <= t <= now + cs_ttl s ->
      good_record (consents_of t subject s') /\
      grant_at (consents_of t subject s') clientID redirectURI =
        Some (mkGrant (merge_scopes (old_scopes (consents_of now subject s) clientID redirectURI) scopes)
          (unix now))) /\
    (forall t subject', consentKey subject' <> consentKey subject ->
      kept_or_evicted (consents_of t subject' s) (consents_of t subject' s')).
Proof.
  intros Hgood Hid Hsc Hnow. unfold Grant.
  destruct (load_spec true now subject s) as (s1 & -> & [Ha Httl]).
  destruct (grant_record_spec now clientID redirectURI scopes (consents_of now subject s) Hgood Hid)
    as (rec' & -> & Hgood' & Hat); [eapply Forall_impl; [done|]; by intros ? []|done|].
  cbn [mbind option_bind].
  destruct (save_spec now subject rec' s1 Hgood') as (s2 & -> & _ & Hof & Hother).
  exists s2. split; [done|]. split.
  - intros t Ht. rewrite Hof, Httl by lia. rewrite decide_True by lia. split; [done|exact Hat].
  - intros t subject' Hk. rewrite <- (consents_of_same t subject' s s1) by (by split). by apply Hother.
Qed.

(** What the user allows is remembered, within bounds. Granting to a
    client at a redirect always ends; until the record's TTL passes the
    consent store then covers every one of the scopes allowed before and now,
    as long as the two lists together stay within the cap, and the refresh
    check holds for any redirect list that includes the one granted; the
    record keeps to its bounds on clients, redirects and scopes; and another
    subject's record is as it was, unless it was evicted to make room. *)
Theorem granted_consent_holds now t subject clientID redirectURI scopes s :
  good_record (consents_of now subject s) -> isASCII clientID = true ->
  Forall (fun sc => isASCII sc = true /\ (String.length sc <= MaxConsentScopeLen)%nat) scopes ->
  unix now < maxInt64 -> now <= t <= now + cs_ttl s ->
  (length (old_scopes (consents_of now subject s) clientID redirectURI) + length scopes
     <= MaxConsentScopes)%nat ->
  exists s', Grant (fun _ => true) now subject clientID redirectURI scopes s = Some (Ok (), s') /\
    good_record (consents_of t subject s') /\
    (forall up mid asked,
      asked ⊆ (old_scopes (consents_of now subject s) clientID redirectURI ++ scopes)%list ->
      up 0%nat = true ->
      (Covers up t subject clientID redirectURI asked mid s').1 = Ok true) /\
    (forall up mid redirects, redirectURI ∈ redirects -> up 0%nat = true ->
      (HasClient up t subject clientID redirects mid s').1 = Ok true) /\
    (forall subject', consentKey subject' <> consentKey subject ->
      kept_or_evicted (consents_of t subject' s) (consents_of t subject' s')).
Proof.
  intros Hgood Hid Hsc Hnow Ht Hlen.
  destruct (Grant_spec now subject clientID redirectURI scopes s Hgood Hid Hsc Hnow) as (s2 & Hg & Hof & Hother).
  destruct (Hof t Ht) as [Hgood' Hat]. exists s2. split_and!; [done|done| | |by intros; apply Hother].
  - intros up mid asked Hasked Hup. rewrite Covers_answer, Hat by done. f_equal.
    apply forallb_forall. intros sc Hin%list_elem_of_In%Hasked. apply contains_elem_spec. simpl.
    apply elem_of_merge_scopes; [done|]. apply elem_of_app in Hin as [?|Hin]; [by left|right].
    split; [done|]. by eapply Forall_forall in Hsc as [_ Hsc].
  - intros up mid redirects Hin Hup. rewrite HasClient_answer by done. f_equal.
    apply existsb_exists. exists redirectURI. split; [by apply list_elem_of_In|]. by rewrite Hat.
Qed.

(** A revoked consent is gone and stays gone. After a revocation the
    store answers that the client holds nothing at that redirect, whatever
    was asked; every other consent of the subject is as it was until the
    record's TTL passes; and a reader that had already read the record
    before the revocation, and renews it afterwards, whichever grant it
    renews and whichever of its calls fail, does not bring the consent
    back. *)
Theorem revoked_consent_gone now t subject clientID redirectURI s :
  good_record (consents_of now subject s) -> unix t < maxInt64 -> now <= t <= now + cs_ttl s ->
  exists s', Revoke (fun _ => true) now subject clientID redirectURI s = (Ok (), s') /\
    (forall up mid scopes, up 0%nat = true ->
      (Covers up t subject clientID redirectURI scopes mid s').1 = Ok false /\
      (HasClient up t subject clientID [redirectURI] mid s').1 = Ok false) /\
    (forall c u, ~ (c = clientID /\ redirectKey u = redirectKey redirectURI) ->
      grant_at (consents_of t subject s') c u = grant_at (consents_of now subject s) c u) /\
    (forall up c u read t', t <= t' ->
      grant_at (consents_of t' subject (touchIfStale up t subject c u read s')) clientID redirectURI
        = None).
Proof.
  intros Hgood Hnow Ht. unfold Revoke.
  destruct (load_spec true now subject s) as (s1 & -> & [Ha Httl]).
  pose proof (revoke_good clientID redirectURI _ Hgood) as Hgood'.
  destruct (save_spec now subject _ s1 Hgood') as (s2 & -> & _ & Hof & _).
  assert (consents_of t subject s2 = revoke_record clientID redirectURI (consents_of now subject s))
    as Hrec' by (rewrite Hof, Httl by lia; by rewrite decide_True by lia).
  assert (grant_at (consents_of t subject s2) clientID redirectURI = None) as Hnone
    by (rewrite Hrec', grant_at_revoke; by rewrite decide_True).
  exists s2. split_and!; [done| | |].
  - intros up mid scopes Hup. rewrite Covers_answer, HasClient_answer by done.
    simpl. by rewrite Hnone.
  - intros c u Hne. rewrite Hrec', grant_at_revoke. by rewrite decide_False.
  - intros up c u read t' Ht'. unfold touchIfStale. case_match.
    + destruct (consents_of_later t t' subject s2 Ht') as [-> | ->]; [done|].
      unfold grant_at. by rewrite lookup_empty.
    + apply touch_adds_nothing; try done. by rewrite Hrec'.
Qed.
End ConsentLemmas.

(** * Witnesses *)

(** A parser of [scheme://host] and [scheme://host/path]. *)
Definition parseExample : ParseURL := {| url_Parse raw :=
  match Split "/" raw with
  | scheme :: _ :: host :: _ => Some (mkURL (TrimSuffix scheme ":") false host host "")
  | _ => None
  end |}.

#[local] Existing Instance parseExample.
#[local] Existing Instance sha256Example.

#[local] Instance consentJSON : JSON consentRecord := jsonExample consentRecord.

Lemma consentJSON_clean (r : consentRecord) : good_record r -> clean r.
Proof. intros _. exact I. Qed.

Lemma redirects_safe_witness :
  "http://localhost/cb" ∈ FilterRedirectURIs ["http://localhost/cb"; "javascript://x"] DefaultRedirectSchemes
  /\ url_Parse "http://localhost/cb" = Some (mkURL "http" false "localhost" "localhost" "").
Proof.
  assert ("http://localhost/cb" ∈
    FilterRedirectURIs ["http://localhost/cb"; "javascript://x"] DefaultRedirectSchemes) as H.
  { vm_compute. left. }
  split; [|vm_compute; reflexivity].
  destruct (redirects_safe _ _ (DefaultRedirectSchemes ++ ["cursor"])%list _ H) as (_ & _ & Hin & _).
  - intros x Hx. apply elem_of_app. by left.
  - exact H.
Defined.

Lemma grants_confined_witness :
  "refresh_token" ∈ SupportedGrantTypes /\ FilterGrantTypes ["password"; "refresh_token"] = ["refresh_token"].
Proof.
  split; [|vm_compute; reflexivity].
  assert ("refresh_token" ∈ FilterGrantTypes ["password"; "refresh_token"]) as H by (vm_compute; left).
  exact (proj1 (proj2 (grants_confined _ _ H))).
Defined.

Definition exampleConsents : ConsentStore mapStore := mkConsentStore (emptyStore hour) (24 * hour).

Lemma exampleConsents_empty t subject : consents_of t subject exampleConsents = ∅.
Proof. reflexivity. Qed.

Lemma good_empty : good_record (∅ : consentRecord).
Proof. split; [vm_compute; lia|apply map_Forall_empty]. Qed.

Lemma granted_consent_holds_witness :
  exists s', Grant (fun _ => true) 5 "alice" "dcr_1" "https://app/cb" ["openid"] exampleConsents
    = Some (Ok (), s') /\
    (Covers (fun _ => true) 6 "alice" "dcr_1" "https://app/cb" ["openid"] id s').1 = Ok true.
Proof.
  destruct (granted_consent_holds consentJSON_clean 5 6 "alice" "dcr_1" "https://app/cb" ["openid"]
    exampleConsents) as (s' & Hg & _ & Hc & _).
  - rewrite exampleConsents_empty. apply good_empty.
  - vm_compute. reflexivity.
  - repeat constructor.
  - vm_compute. reflexivity.
  - vm_compute. split; discriminate.
  - rewrite exampleConsents_empty. vm_compute. lia.
  - exists s'. split; [exact Hg|]. apply Hc; [|reflexivity]. intros x Hx. apply elem_of_app. by right.
Defined.

Lemma revoked_consent_gone_witness :
  exists s', Revoke (fun _ => true) 5 "alice" "dcr_1" "https://app/cb" exampleConsents = (Ok (), s') /\
    (HasClient (fun _ => true) 6 "alice" "dcr_1" ["https://app/cb"] id s').1 = Ok false.
Proof.
  destruct (revoked_consent_gone consentJSON_clean 5 6 "alice" "dcr_1" "https://app/cb" exampleConsents)
    as (s' & Hr & Hno & _).
  - rewrite exampleConsents_empty. apply good_empty.
  - vm_compute. reflexivity.
  - vm_compute. split; discriminate.
  - exists s'. split; [exact Hr|]. exact (proj2 (Hno (fun _ => true) id [] eq_refl)).
Defined.

(** * Findings *)

(** The cap drops from the front of the previous list, which [Grant] keeps
    sorted and which a scope granted again does not leave: past the cap a scope
    the user allows now can be the one that is dropped, and allowing the same
    two scopes again only swaps them. *)
Lemma consent_cap_drops_granted_scope :
  let old := ["b"; "c01"; "c02"; "c03"; "c04"; "c05"; "c06"; "c07"; "c08"; "c09"; "c10"; "c11"; "c12";
    "c13"; "c14"; "c15"; "c16"; "c17"; "c18"; "c19"; "c20"; "c21"; "c22"; "c23"; "c24"; "c25"; "c26";
    "c27"; "c28"; "c29"; "c30"; "c31"] in
  let asked := ["a"; "b"] in
  length old = MaxConsentScopes /\
  contains_elem (merge_scopes old asked) "b" = false /\
  contains_elem (merge_scopes (merge_scopes old asked) asked) "a" = false /\
  merge_scopes (merge_scopes old asked) asked = old.
Proof. vm_compute. done. Qed.

(** Reading a client renews it in a second call, so a deletion between the two
    is undone. *)
Lemma renewal_resurrects_deleted_client (J : JSON Client) now id v c s :
  st_get now id (ms_map (ds_cache s)) = Some v -> Unmarshal v = Some c -> 0 < ds_ttl s ->
  st_get now id (ms_map (ds_cache
    (Get (fun _ => true) now id (fun m => cDelete id m) s).2)) = Some v.
Proof.
  intros Hv Hc Httl. unfold Get. cbn [negb cGet mapStore_ops]. rewrite Hv, Hc.
  cbn [snd ds_cache with_cache cSet cDelete mapStore_ops ms_map].
  apply st_get_set_live. unfold expiry_of. simpl. lia.
Qed.
