(* ===== verification/Events.v ===== *)
(** Login event hooks (src/internal/auth/event_hook.go and
    event_dispatcher.go): the webhooks a host declares in Secrets, the gate the
    enforcing ones form in front of a login, and the notifications. *)
From S2P Require Import Prelude GoStr Deps Claims Clients.
From Stdlib Require Import Ascii.

#[local] Open Scope string_scope.

(** * Data *)

Definition HTTPEventHookSecretType : string := "http-event-hook".
Definition defaultEventHookTimeout : Z := 2 * second.
Definition minSharedSecretBytes : nat := 32.

Definition EventLogin : string := "login".
Definition EventLogout : string := "logout".
Definition EventLoginFailed : string := "login-failed".
Definition EventSessionRefresh : string := "session-refresh".

Definition enforceableEvents : list string := [EventLogin; EventLogout].

Definition knownEvent (e : string) : bool :=
  contains_elem [EventLogin; EventLogout; EventLoginFailed; EventSessionRefresh] e.

Definition ModeAdvisory : string := "advisory".
Definition ModeEnforcing : string := "enforcing".
Definition FailOpen : string := "fail-open".
Definition FailClosed : string := "fail-closed".

Record EventPayload := mkPayload {
  ev_Event : string;
  ev_Timestamp : Z;
  ev_Host : string;
  ev_Subject : string;
  ev_LoginName : string;
  ev_AuthMethod : string;
  ev_ClientID : string;
  ev_Scope : string;
  ev_Claims : claims;
  ev_Roles : list string;
  ev_Entitlements : list string;
  ev_SessionID : string;
  ev_Reason : string;
}.

Record eventHookResponse := mkHookResponse { OK : bool; Reason : string }.

(** [failureMode] is empty when the Secret does not set one. *)
Record httpEventHook := mkHook {
  hk_name : string;
  hk_url : string;
  hk_sharedSecret : string;
  hk_events : list string;
  hk_mode : string;
  hk_failureMode : string;
  hk_timeout : Z;
}.

(** * Reading a hook's Secret *)

Definition data_of (data : gmap string string) (k : string) : string := default "" (data !! k).

(** The events a Secret lists, as a set. *)
Fixpoint parse_events (toks : list string) (events : list string) : result string (list string) :=
  match toks with
  | [] => Ok events
  | tok :: toks =>
      let tok := TrimSpace tok in
      if String.eqb tok "" then parse_events toks events
      else if negb (knownEvent tok) then Err ("unknown event " ++ tok)
      else parse_events toks (if contains_elem events tok then events else events ++ [tok])%list
  end.

(** An optional field that must be one of two values. *)
Definition parse_choice (raw dflt a b : string) : result string string :=
  if String.eqb raw "" then Ok dflt
  else if (String.eqb raw a || String.eqb raw b)%bool then Ok raw
  else Err ("must be " ++ a ++ " or " ++ b).

(** [strconv.Atoi] of a 64-bit int; the product wraps. *)
Definition parse_timeout (raw : string) : result string Z :=
  if String.eqb raw "" then Ok defaultEventHookTimeout
  else match ParseInt raw with
       | None => Err "timeout-ms is not a valid integer"
       | Some ms => Ok (int64_wrap (ms * millisecond))
       end.

Definition NewHTTPEventHook (name : string) (data : gmap string string) : result string httpEventHook :=
  let url := data_of data "url" in
  if String.eqb url "" then Err "missing required 'url' data field" else
  let sharedSecret := data_of data "shared-secret" in
  if (String.length sharedSecret <? minSharedSecretBytes)%nat then Err "'shared-secret' is too short" else
  events ← parse_events (Split ","%char (data_of data "events")) [];
  match events with
  | [] => Err "'events' must list at least one event"
  | _ =>
      mode ← parse_choice (data_of data "mode") ModeAdvisory ModeAdvisory ModeEnforcing;
      failureMode ← parse_choice (data_of data "failure-mode") "" FailOpen FailClosed;
      timeout ← parse_timeout (data_of data "timeout-ms");
      Ok (mkHook name url sharedSecret events mode failureMode timeout)
  end.

Definition enforcingFor (h : httpEventHook) (e : string) : bool :=
  (String.eqb (hk_mode h) ModeEnforcing && contains_elem enforceableEvents e)%bool.

(** * Calling a hook *)

(** HMAC-SHA256, in hexadecimal, of a key and a message. *)
Class Hmac := { hmac_sha256hex : string -> string -> string }.

Definition computeSignature `{!Hmac} (secret timestamp body : string) : string :=
  hmac_sha256hex secret (timestamp ++ "." ++ body).

(** The request POSTed, and how it ends: no answer in time (or no request to
    be built from the URL), or a status and a body. *)
Record hook_request := mkHookRequest {
  hq_URL : string;
  hq_Timestamp : string;
  hq_Signature : string;
  hq_Body : string;
}.

Inductive hook_answer := HookUnreachable | HookAnswer (status : Z) (body : string).

Section Hooks.
Context `{!Hmac} `{!JSON EventPayload} `{!JSON eventHookResponse}.

(** The network, as the hooks of one request see it. *)
Variable post : hook_request -> hook_answer.

Definition set_timestamp (t : Z) (p : EventPayload) : EventPayload :=
  mkPayload (ev_Event p) t (ev_Host p) (ev_Subject p) (ev_LoginName p) (ev_AuthMethod p) (ev_ClientID p)
    (ev_Scope p) (ev_Claims p) (ev_Roles p) (ev_Entitlements p) (ev_SessionID p) (ev_Reason p).

Definition set_host (h : string) (p : EventPayload) : EventPayload :=
  mkPayload (ev_Event p) (ev_Timestamp p) h (ev_Subject p) (ev_LoginName p) (ev_AuthMethod p)
    (ev_ClientID p) (ev_Scope p) (ev_Claims p) (ev_Roles p) (ev_Entitlements p) (ev_SessionID p)
    (ev_Reason p).

Definition hook_request_of (now : Z) (h : httpEventHook) (payload : EventPayload) : hook_request :=
  let payload := if (ev_Timestamp payload =? 0)%Z then set_timestamp (unix_milli now) payload
                 else payload in
  let body := Marshal payload in
  let ts := FormatInt (ev_Timestamp payload) in
  mkHookRequest (hk_url h) ts (computeSignature (hk_sharedSecret h) ts body) body.

Definition call (now : Z) (h : httpEventHook) (payload : EventPayload) : result unit (bool * string) :=
  match post (hook_request_of now h payload) with
  | HookUnreachable => Err ()
  | HookAnswer status body =>
      if negb (status =? 200)%Z then Err () else
      match Unmarshal body with
      | None => Err ()
      | Some parsed => Ok (OK parsed, Reason parsed)
      end
  end.

(** * The dispatcher *)

(** [hooks] are sorted by name; a nil dispatcher is [None] below. *)
Record EventDispatcher := mkDispatcher { ed_host : string; ed_hooks : list httpEventHook }.

Definition hook_le (a b : httpEventHook) : Prop := string_le (hk_name a) (hk_name b).

#[global] Instance hook_le_dec a b : Decision (hook_le a b).
Proof. unfold hook_le. apply _. Defined.

Definition NewEventDispatcher (host : string) (hooks : list httpEventHook) : EventDispatcher :=
  mkDispatcher host (merge_sort hook_le hooks).

(** A Secret: its name, annotations and data. *)
Record Secret := mkSecret {
  se_Name : string;
  se_Annotations : gmap string string;
  se_Data : gmap string string;
}.

Definition is_active_hook (s : Secret) : bool :=
  (String.eqb (data_of (se_Annotations s) "kdex.dev/secret-type") HTTPEventHookSecretType &&
   String.eqb (data_of (se_Annotations s) "kdex.dev/active-key") "true")%bool.

Fixpoint hooks_of_secrets (secrets : list Secret) : result string (list httpEventHook) :=
  match secrets with
  | [] => Ok []
  | s :: secrets =>
      if negb (is_active_hook s) then hooks_of_secrets secrets else
      h ← NewHTTPEventHook (se_Name s) (se_Data s);
      hs ← hooks_of_secrets secrets;
      Ok (h :: hs)
  end.

Definition NewEventDispatcherFromSecrets (host : string) (secrets : list Secret)
    : result string EventDispatcher :=
  hooks ← hooks_of_secrets secrets; Ok (NewEventDispatcher host hooks).

Definition selecting (d : EventDispatcher) (e : string) (enforcing : bool) : list httpEventHook :=
  filter (fun h => contains_elem (hk_events h) e = true /\ enforcingFor h e = enforcing) (ed_hooks d).

Definition HasEnforcingLogin (d : option EventDispatcher) : bool :=
  match d with
  | None => false
  | Some d => match selecting d EventLogin true with [] => false | _ => true end
  end.

(** A hook that was called, with what it was told. *)
Definition sent : Type := httpEventHook * EventPayload.

(** [ErrLoginHookDenied] with its reason. *)
Definition denied (reason : string) : string := "login denied by event hook: " ++ reason.

Fixpoint gate_hooks (now : Z) (hooks : list httpEventHook) (p : EventPayload)
    : result string unit * list sent :=
  match hooks with
  | [] => (Ok (), [])
  | h :: hooks =>
      let continue := let '(r, s) := gate_hooks now hooks p in (r, (h, p) :: s) in
      match call now h p with
      | Err _ =>
          if String.eqb (hk_failureMode h) FailOpen then continue
          else (Err (denied "hook unavailable"), [(h, p)])
      | Ok (ok, reason) =>
          if (ok : bool) then continue
          else (Err (denied (if String.eqb reason "" then "denied" else reason)), [(h, p)])
      end
  end.

(** The payload as every method but a hook's own fills it in. *)
Definition stamped (d : EventDispatcher) (now : Z) (p : EventPayload) : EventPayload :=
  set_timestamp (unix_milli now) (set_host (ed_host d) p).

Definition GateLogin (now : Z) (d : option EventDispatcher) (p : EventPayload)
    : result string unit * list sent :=
  match d with
  | None => (Ok (), [])
  | Some d => gate_hooks now (selecting d EventLogin true) (stamped d now p)
  end.

(** [fireAsync]: every hook is called, and no answer is waited for. *)
Definition fireAsync (p : EventPayload) (hooks : list httpEventHook) : list sent :=
  (fun h => (h, p)) <$> hooks.

Definition NotifyLoginSuccess (now : Z) (d : option EventDispatcher) (p : EventPayload) : list sent :=
  match d with
  | None => []
  | Some d => fireAsync (stamped d now p) (selecting d EventLogin false)
  end.

Definition subscribed (d : EventDispatcher) (e : string) : list httpEventHook :=
  filter (fun h => contains_elem (hk_events h) e = true) (ed_hooks d).

Definition NotifyLoginFailed (now : Z) (d : option EventDispatcher) (p : EventPayload) : list sent :=
  match d with
  | None => []
  | Some d => fireAsync (stamped d now p) (subscribed d EventLoginFailed)
  end.

Definition NotifySessionRefresh (now : Z) (d : option EventDispatcher) (p : EventPayload) : list sent :=
  match d with
  | None => []
  | Some d => fireAsync (stamped d now p) (subscribed d EventSessionRefresh)
  end.

(** Every barrier is called whatever the others answer; then the advisory
    hooks are. *)
Definition Logout (now : Z) (d : option EventDispatcher) (p : EventPayload) : list sent :=
  match d with
  | None => []
  | Some d =>
      let p := stamped d now p in
      (fireAsync p (selecting d EventLogout true) ++ fireAsync p (selecting d EventLogout false))%list
  end.
End Hooks.
