(* ===== verification/Mint.v ===== *)
(** Minting tokens for a subject known to be authentic
    (src/internal/auth/exchange.go): the classification of errors
    (oautherr.go), the scope filter, client lookup, the refresh record and the
    two mints that need no password. *)
From S2P Require Import Prelude GoStr Store Deps Claims ApiToken Clients Roles Signer SubjectKind Dcr.
From Stdlib Require Import Ascii.

#[local] Open Scope string_scope.

(** * Errors (oautherr.go) *)

(** An error by what [errors.Is] says of it; [GrantFailure] carries the message
    that reaches the client. *)
Inductive grant_error :=
| ServerError
| GrantFailure (message : string)
| OtherError.

#[global] Instance grant_error_eq_dec : EqDecision grant_error.
Proof. solve_decision. Defined.

Definition errCodeServerError : string := "server_error".
Definition errCodeInvalidGrant : string := "invalid_grant".
Definition genericServerErrorDescription : string :=
  "the authorization server encountered an unexpected condition".
Definition genericGrantFailureDescription : string := "the presented grant is invalid".

Definition oauthErrorForRedemption (err : grant_error) : Z * string * string :=
  match err with
  | ServerError => (500, errCodeServerError, genericServerErrorDescription)
  | GrantFailure message => (400, errCodeInvalidGrant, message)
  | OtherError => (400, errCodeInvalidGrant, genericGrantFailureDescription)
  end%Z.

(** * Data *)

Record TokenSet := mkTokenSet {
  AccessToken : string;
  IDToken : string;
  RefreshToken : string;
  ts_Scope : string;
  ts_Subject : string;
}.

#[global] Instance TokenSet_eq_dec : EqDecision TokenSet.
Proof. solve_decision. Defined.

Definition emptyTokenSet : TokenSet := mkTokenSet "" "" "" "" "".

(** [TokenSet{Subject: sub}]. *)
Definition about (sub : string) : TokenSet := mkTokenSet "" "" "" "" sub.

Definition with_refresh (id : string) (ts : TokenSet) : TokenSet :=
  mkTokenSet (AccessToken ts) (IDToken ts) id (ts_Scope ts) (ts_Subject ts).

Record RefreshTokenClaims := mkRefreshClaims {
  rt_AuthMethod : string;
  rt_ClientID : string;
  rt_ExpiresAt : Z;
  rt_IssuedAt : Z;
  rt_OriginalIssuedAt : Z;
  rt_PredecessorID : string;
  rt_Scope : string;
  rt_Subject : string;
  rt_IDPClaims : claims;
  rt_UpstreamRefreshToken : string;
}.

(** * Scopes *)

Definition SupportedScopes : list string := ["openid"; "email"; "profile"; "entitlements"; "roles"].

Definition applyScopeFilter (signingContext : claims) (requestedScope : string)
    (defaultScopes : list string) : list string * claims :=
  let requested := Fields requestedScope in
  let requested := match requested, defaultScopes with
    | [], _ :: _ => defaultScopes
    | _, _ => requested
    end in
  let granted := filter (fun known => contains_elem requested known = true) SupportedScopes in
  (granted,
   match granted with
   | [] => delete "scope" signingContext
   | _ => <["scope" := VStr (Join granted " ")]> signingContext
   end).

(** * Client lookup *)

Section Lookup.
Context {St} `{CacheOps St} `{!JSON Client} `{!ParseURL}.

(** [up 2] is whether the deletion succeeds; its failure is only logged. *)
Definition LookupClient (up : nat -> bool) (now : Z) (clients : gmap string AuthClient)
    (schemes : list string) (mid : St -> St) (clientID : string) (store : option (DCRStore St))
    : result store_error (option AuthClient) * option (DCRStore St) :=
  match clients !! clientID with
  | Some c => (Ok (Some c), store)
  | None =>
      match store with
      | None => (Ok None, None)
      | Some s =>
          let '(r, s) := Get up now clientID mid s in
          match r with
          | Err e => (Err e, Some s)
          | Ok None => (Ok None, Some s)
          | Ok (Some dc) =>
              let grants := FilterGrantTypes (dc_GrantTypes dc) in
              let schemes := match schemes with [] => DefaultRedirectSchemes | _ => schemes end in
              let redirects := FilterRedirectURIs (dc_RedirectURIs dc) schemes in
              match redirects, grants with
              | [], _ => (Ok None, Some (Dcr.Delete (up 2%nat) clientID s))
              | _, [] => (Ok None, Some s)
              | _, _ => (Ok (Some (mkAuthClient grants (Fields (dc_Scope dc)) [] (dc_ClientID dc) "" ""
                  (dc_ClientName dc) true redirects true true)), Some s)
              end
          end
      end
  end.
End Lookup.

(** * The upstream identity provider *)

(** What the provider's token endpoint answered: [invalid_grant], a failure, a
    token without an id_token, with one that does not verify or cannot be
    read, or one with the claims it asserts and the refresh token to keep. *)
Inductive upstream_answer :=
| UpInvalidGrant
| UpFailure
| UpNoIDToken
| UpUnverifiable
| UpUnreadable
| UpToken (asserted : claims) (refreshToken : string).

(** [errUpstreamGrantRevoked] with the text wrapped around it, or another error. *)
Inductive upstream_error := UpstreamGrantRevoked (detail : string) | UpstreamUnavailable.

Section Upstream.
Context `{!JwtClaims}.

Definition refreshUpstreamClaims (configured : bool) (answer : upstream_answer) (expectSubject : string)
    : result upstream_error (claims * string) :=
  if negb configured then Err UpstreamUnavailable else
  match answer with
  | UpInvalidGrant => Err (UpstreamGrantRevoked "invalid_grant")
  | UpFailure | UpNoIDToken | UpUnverifiable | UpUnreadable => Err UpstreamUnavailable
  | UpToken refreshed token =>
      let sub := match jwtGetSubject refreshed with Ok s => s | Err _ => "" end in
      if String.eqb sub expectSubject then Ok (idpClaimSnapshot refreshed, token)
      else Err (UpstreamGrantRevoked "the refreshed id_token names a different subject")
  end.
End Upstream.

(** * Minting *)

Section Mint.
Context `{!SubjectKinds} `{!Regexp} `{!JwtClaims} `{!Compaction}.

(** The exchanger's configuration, as the mints read it: its identity rules,
    its signer, and whether the role-binding log of a site is on. *)
Record Minter := mkMinter {
  mi_ex : Exchanger;
  mi_signer : Signer;
  mi_logEnabled : bool;
}.

Implicit Types m : Minter.

(** The provider is the cluster's [scopeProvider], which never fails. *)
Definition subjectSigningContext m (subject : string) (bs : BindingSubject)
    : list string * list string * claims :=
  let '(roles, entitlements) := resolveBindings (mi_logEnabled m) (ex_sp (mi_ex m)) bs in
  (roles, entitlements, ex_backend (mi_ex m) subject).

(** The access token and, when openid is granted, the id_token; [jti] are the
    identifiers the signer draws. *)
Definition sign_pair m (now : Z) (jti : nat -> string) (signingContext : claims)
    (grantedScopes : list string) (clientID : string) : result sign_error (string * string) :=
  accessToken ← SignScoped (mi_signer m) now (jti 0%nat) signingContext grantedScopes;
  if contains_elem grantedScopes "openid" then
    idToken ← SignScoped (mi_signer m) now (jti 1%nat)
      (delete "scope" (<["aud" := VStr clientID]> signingContext)) grantedScopes;
    Ok (accessToken, idToken)
  else Ok (accessToken, "").

(** The signing context [mintTokensFromSubject] re-derives. *)
Definition subject_context m (kind subject authMethod : string) (idpClaims : claims)
    (roles entitlements : list string) (backend : claims) : claims :=
  let signingContext : claims :=
    <["auth_method" := VStr authMethod]> $ <["sub" := VStr subject]> $
    {[ ClaimSubjectKind := VStr kind ]} in
  let signingContext := unreserved idpClaims ∪ signingContext in
  let signingContext :=
    if String.eqb authMethod AuthMethodOIDC then <["idp" := VStr "oidc"]> signingContext
    else signingContext in
  let signingContext :=
    <["roles" := mergeIDPList (signingContext !! "roles") roles]> signingContext in
  let signingContext :=
    <["entitlements" := mergeIDPList (signingContext !! "entitlements") entitlements]> signingContext in
  mergeBackendClaims signingContext backend.

Definition mintTokensFromSubject m (now : Z) (jti : nat -> string)
    (subject clientID scope authMethod : string) (idpClaims : claims)
    : result grant_error (TokenSet * claims) :=
  let '(bs, refused) := userBindingSubject (mi_ex m) idpClaims subject SiteRefresh in
  match refused with
  | Err _ => Err OtherError
  | Ok _ =>
      let '(roles, entitlements, backend) := subjectSigningContext m subject bs in
      let '(grantedScopes, signingContext) :=
        applyScopeFilter
          (subject_context m (bs_Kind bs) subject authMethod idpClaims roles entitlements backend)
          scope [] in
      match sign_pair m now jti signingContext grantedScopes clientID with
      | Err _ => Err ServerError
      | Ok (accessToken, idToken) =>
          Ok (mkTokenSet accessToken idToken "" (Join grantedScopes " ") subject, signingContext)
      end
  end.

(** [mintTokensFromCode], up to the refresh token. *)
Definition mint_from_code m (now : Z) (jti : nat -> string)
    (subject clientID scope authMethod : string) (idpClaims : claims) : result grant_error TokenSet :=
  let '(bs, refused) := userBindingSubject (mi_ex m) idpClaims subject SiteAuthCode in
  match refused with
  | Err _ => Err OtherError
  | Ok _ =>
      let '(roles, entitlements, backend) := subjectSigningContext m subject bs in
      let signingContext : claims :=
        <["sub" := VStr subject]> $ <["auth_method" := VStr authMethod]> $
        <["roles" := VStrs roles]> $ <["entitlements" := VStrs entitlements]> $
        {[ ClaimSubjectKind := VStr (bs_Kind bs) ]} in
      let '(grantedScopes, signingContext) :=
        applyScopeFilter (mergeBackendClaims signingContext backend) scope [] in
      match sign_pair m now jti signingContext grantedScopes clientID with
      | Err _ => Err ServerError
      | Ok (accessToken, idToken) =>
          Ok (mkTokenSet accessToken idToken "" (Join grantedScopes " ") subject)
      end
  end.
End Mint.

(** * The refresh record *)

Section RefreshRecord.
Context {St} `{CacheOps St} `{!JSON RefreshTokenClaims}.

(** The record stored, with its times. *)
Definition stamp_refresh (now ttl : Z) (c : RefreshTokenClaims) : RefreshTokenClaims :=
  mkRefreshClaims (rt_AuthMethod c) (rt_ClientID c) (unix (now + ttl)) (unix now)
    (if (rt_OriginalIssuedAt c =? 0)%Z then unix now else rt_OriginalIssuedAt c)
    (rt_PredecessorID c) (rt_Scope c) (rt_Subject c) (rt_IDPClaims c) (rt_UpstreamRefreshToken c).

(** [id] is [rand.Text()]; the cache's default TTL is the refresh TTL. *)
Definition createRefreshToken (up : bool) (now ttl : Z) (id : string) (c : RefreshTokenClaims)
    (s : St) : result unit string * St :=
  if up then (Ok id, cSet now id (Marshal (stamp_refresh now ttl c)) [] s) else (Err (), s).
End RefreshRecord.

(** * Revoked subjects *)

Section Revoked.
Context {St} `{CacheOps St} `{Paseto} `{!Sha256}.

Definition refuseRevokedAuthentication (up : nat -> bool) (now : Z)
    (tm : option (TokenManager St)) (sub : string) (authenticatedAt : Z)
    : result grant_error unit :=
  match tm with
  | None => Ok ()
  | Some tm =>
      match SubjectRevokedSince up now sub (of_unix authenticatedAt) tm with
      | Err _ => Err ServerError
      | Ok true => Err (GrantFailure "session revoked")
      | Ok false => Ok ()
      end
  end.
End Revoked.
