(* ===== verification/AuthCode.v ===== *)
(** Authorization codes (src/internal/auth/exchange.go and seal.go): sealed
    claims, registered for a single redemption. *)
From S2P Require Import Prelude GoStr Store Deps Claims ApiToken Clients Roles Signer SubjectKind Dcr Mint.
From Stdlib Require Import Ascii.

#[local] Open Scope string_scope.

(** * Sealing (seal.go) *)

Inductive seal_error := ErrSealParse | ErrSealDecrypt.

(** go-jose's direct A256GCM encryption under a 32-byte key (written in hex),
    in compact form. The nonce is what the library draws. *)
Class Jose := {
  jose_encrypt : string -> string -> string -> string;
  jose_decrypt : string -> string -> result seal_error string;
  jose_decrypt_encrypt key nonce payload :
    jose_decrypt key (jose_encrypt key nonce payload) = Ok payload;
}.

Definition sealPurposeAuthCode : string := "".
Definition sealPurposeLoginState : string := "oidc-login-state".
Definition sealPurposeConsent : string := "dcr-consent".

(** The RFC 7636 S256 transformation of a code verifier:
    [base64.RawURLEncoding.EncodeToString(sha256.Sum256(v))]. *)
Class S256 := { s256 : string -> string }.

Definition PKCE_METHOD_S256 : string := "S256".

(** * Claims *)

Record AuthorizationCodeClaims := mkCodeClaims {
  co_AuthMethod : string;
  co_ClientID : string;
  co_CodeChallenge : string;
  co_CodeChallengeMethod : string;
  co_Exp : Z;
  co_IDPClaims : claims;
  co_JTI : string;
  co_RedirectURI : string;
  co_Resource : string;
  co_Scope : string;
  co_Subject : string;
  co_AuthenticatedAt : Z;
}.

Definition with_exp_jti (exp : Z) (jti : string) (c : AuthorizationCodeClaims) : AuthorizationCodeClaims :=
  mkCodeClaims (co_AuthMethod c) (co_ClientID c) (co_CodeChallenge c) (co_CodeChallengeMethod c)
    exp (co_IDPClaims c) jti (co_RedirectURI c) (co_Resource c) (co_Scope c) (co_Subject c)
    (co_AuthenticatedAt c).

Definition alreadyConsumed : grant_error :=
  GrantFailure "authorization code already consumed or expired".

Section AuthCode.
Context {St} `{CacheOps St} `{Paseto} `{!Sha256} `{!SubjectKinds} `{!Regexp} `{!JwtClaims}
  `{!Compaction} `{!ParseURL} `{!JSON Client} `{!JSON RefreshTokenClaims}
  `{!JSON AuthorizationCodeClaims} `{!Jose} `{!S256}.

Definition sealKey (purpose blockKey : string) : string :=
  if String.eqb purpose sealPurposeAuthCode then sha256hex blockKey
  else sha256hex (purpose ++ String (ascii_of_N 0) blockKey).

Definition seal (blockKey purpose nonce payload : string) : string :=
  jose_encrypt (sealKey purpose blockKey) nonce payload.

Definition open (blockKey purpose sealed : string) : result seal_error string :=
  jose_decrypt (sealKey purpose blockKey) sealed.

(** * State *)

(** The stores a redemption goes through, and the configuration. A nil cache
    is [None]. *)
Record Issuer := mkIssuer {
  is_minter : Minter;
  is_blockKey : string;
  is_schemes : list string;
  is_tokenManager : option (TokenManager St);
  is_refreshTTL : Z;
  is_authCodeCache : option St;
  is_refreshTokenCache : option St;
  is_DCRStore : option (DCRStore St);
}.

Definition set_codes (c : option St) (i : Issuer) : Issuer :=
  mkIssuer (is_minter i) (is_blockKey i) (is_schemes i) (is_tokenManager i) (is_refreshTTL i) c
    (is_refreshTokenCache i) (is_DCRStore i).
Definition set_refresh (c : option St) (i : Issuer) : Issuer :=
  mkIssuer (is_minter i) (is_blockKey i) (is_schemes i) (is_tokenManager i) (is_refreshTTL i)
    (is_authCodeCache i) c (is_DCRStore i).
Definition set_dcr (s : option (DCRStore St)) (i : Issuer) : Issuer :=
  mkIssuer (is_minter i) (is_blockKey i) (is_schemes i) (is_tokenManager i) (is_refreshTTL i)
    (is_authCodeCache i) (is_refreshTokenCache i) s.

(** What a call meets outside the model's state: whether each of its cache
    calls succeeds, what other callers do to the client store while it is
    being read, and the random text it draws. *)
Record world := mkWorld {
  wo_up : nat -> bool;
  wo_mid : St -> St;
  wo_rand : string;
  wo_nonce : string;
  wo_jti : nat -> string;
}.

(** * Creating a code *)

Definition complete_claims (now : Z) (rnd : string) (c : AuthorizationCodeClaims)
    : AuthorizationCodeClaims :=
  with_exp_jti (if (co_Exp c =? 0)%Z then unix (now + 10 * minute) else co_Exp c)
    (if String.eqb (co_JTI c) "" then rnd else co_JTI c) c.

Definition CreateAuthorizationCode (w : world) (now : Z) (c : AuthorizationCodeClaims) (i : Issuer)
    : option string * Issuer :=
  let c := complete_claims now (wo_rand w) c in
  let code := seal (is_blockKey i) sealPurposeAuthCode (wo_nonce w) (Marshal c) in
  match is_authCodeCache i with
  | None => (Some code, i)
  | Some s =>
      if wo_up w 0%nat then (Some code, set_codes (Some (cSet now (co_JTI c) "1" [] s)) i)
      else (None, i)
  end.

(** * Redeeming a code *)

(** [mintTokensFromCode], the refresh token included. *)
Definition mintTokensFromCode (w : world) (now : Z) (c : AuthorizationCodeClaims) (i : Issuer)
    : (TokenSet * option grant_error) * Issuer :=
  match mint_from_code (is_minter i) now (wo_jti w) (co_Subject c) (co_ClientID c) (co_Scope c)
          (co_AuthMethod c) (co_IDPClaims c) with
  | Err e => ((about (co_Subject c), Some e), i)
  | Ok ts =>
      match is_refreshTokenCache i with
      | None => ((ts, None), i)
      | Some s =>
          let '(r, s) := createRefreshToken (wo_up w 5%nat) now (is_refreshTTL i) (wo_rand w)
            (mkRefreshClaims (co_AuthMethod c) (co_ClientID c) 0 0 0 "" (ts_Scope ts) (co_Subject c) ∅ "")
            s in
          match r with
          | Err _ => ((emptyTokenSet, Some ServerError), set_refresh (Some s) i)
          | Ok id => ((with_refresh id ts, None), set_refresh (Some s) i)
          end
      end
  end.

Definition check_pkce (client : AuthClient) (c : AuthorizationCodeClaims) (codeVerifier : string)
    : option grant_error :=
  if (RequirePKCE client && String.eqb (co_CodeChallenge c) "")%bool
  then Some (GrantFailure "PKCE is required for this client")
  else if String.eqb (co_CodeChallenge c) "" then None
  else if String.eqb codeVerifier "" then Some (GrantFailure "code_verifier is required for PKCE")
  else if negb (String.eqb (co_CodeChallengeMethod c) PKCE_METHOD_S256)
  then Some (GrantFailure "unsupported code_challenge_method: only S256 is accepted")
  else if negb (String.eqb (s256 codeVerifier) (co_CodeChallenge c))
  then Some (GrantFailure "invalid code_verifier")
  else None.

(** The single use: [None] when the code may be redeemed. [up 4] is the
    consumption's call. *)
Definition consume_code (w : world) (now : Z) (c : AuthorizationCodeClaims) (i : Issuer)
    : option grant_error * Issuer :=
  match is_authCodeCache i with
  | None => (None, i)
  | Some s =>
      if String.eqb (co_JTI c) "" then (Some alreadyConsumed, i)
      else if negb (wo_up w 4%nat) then (Some ServerError, i)
      else let '(v, s) := cGetAndDelete now (co_JTI c) s in
           ((if found v then None else Some alreadyConsumed), set_codes (Some s) i)
  end.

(** The checks on the decrypted claims before the code is consumed: [up 0] to
    [up 2] are the client lookup's calls, [up 3] the revocation check's. *)
Definition check_code (w : world) (now : Z) (clientID redirectURI codeVerifier : string)
    (c : AuthorizationCodeClaims) (i : Issuer) : option grant_error * Issuer :=
  if (co_Exp c <? unix now)%Z then (Some (GrantFailure "authorization code expired"), i)
  else if negb (String.eqb (co_ClientID c) clientID) then (Some (GrantFailure "client_id mismatch"), i)
  else if negb (String.eqb (co_RedirectURI c) redirectURI)
  then (Some (GrantFailure "redirect_uri mismatch"), i)
  else match refuseRevokedAuthentication (fun _ => wo_up w 3%nat) now (is_tokenManager i) (co_Subject c)
               (co_AuthenticatedAt c) with
  | Err e => (Some e, i)
  | Ok _ =>
      let '(r, store) := LookupClient (wo_up w) now (ex_Clients (mi_ex (is_minter i))) (is_schemes i)
        (wo_mid w) clientID (is_DCRStore i) in
      let i := set_dcr store i in
      match r with
      | Err _ => (Some ServerError, i)
      | Ok None => (Some OtherError, i)
      | Ok (Some client) => (check_pkce client c codeVerifier, i)
      end
  end.

Definition RedeemAuthorizationCode (w : world) (now : Z)
    (code clientID redirectURI codeVerifier : string) (i : Issuer)
    : (TokenSet * option grant_error) * Issuer :=
  match open (is_blockKey i) sealPurposeAuthCode code with
  | Err ErrSealParse => ((emptyTokenSet, Some (GrantFailure "failed to parse auth code")), i)
  | Err ErrSealDecrypt => ((emptyTokenSet, Some (GrantFailure "failed to decrypt auth code")), i)
  | Ok decrypted =>
      match Unmarshal decrypted with
      | None => ((emptyTokenSet, Some ServerError), i)
      | Some c =>
          let '(refused, i) := check_code w now clientID redirectURI codeVerifier c i in
          match refused with
          | Some e => ((about (co_Subject c), Some e), i)
          | None =>
              let '(refused, i) := consume_code w now c i in
              match refused with
              | Some e => ((about (co_Subject c), Some e), i)
              | None => mintTokensFromCode w now c i
              end
          end
      end
  end.

(** What is done with codes, one call after another. *)
Inductive code_op :=
| OpCreate (w : world) (now : Z) (c : AuthorizationCodeClaims)
| OpRedeem (w : world) (now : Z) (code clientID redirectURI codeVerifier : string).

Definition code_do (i : Issuer) (op : code_op) : Issuer :=
  match op with
  | OpCreate w now c => (CreateAuthorizationCode w now c i).2
  | OpRedeem w now code clientID redirectURI codeVerifier =>
      (RedeemAuthorizationCode w now code clientID redirectURI codeVerifier i).2
  end.

Definition code_run (ops : list code_op) (i : Issuer) : Issuer := foldl code_do i ops.
End AuthCode.
Arguments Issuer St {_ _ _}.
Arguments world St : clear implicits.
Arguments code_op St : clear implicits.
