(* ===== verification/MintSpec.v ===== *)
(** What the password-less mints guarantee: scopes confined to the vocabulary,
    the claims a mint decides decided by it, dynamic clients restricted, and an
    authorization code redeemed once, by its client, with its verifier. *)
From S2P Require Import Prelude GoStr Store Deps Claims ApiToken Clients Roles Signer SignerSpec SubjectKind IdentitySpec Dcr DcrSpec Mint AuthCode.
From Stdlib Require Import Ascii.

#[local] Open Scope string_scope.

(** * Scopes *)

Definition asked_scopes (requested : string) (defaults : list string) : list string :=
  match Fields requested with [] => defaults | l => l end.

Lemma applyScopeFilter_facts ctx requested defaults granted ctx' :
  applyScopeFilter ctx requested defaults = (granted, ctx') ->
  (forall sc, sc ∈ granted <-> sc ∈ SupportedScopes /\ sc ∈ asked_scopes requested defaults) /\
  granted `sublist_of` SupportedScopes /\ NoDup granted /\
  ctx' !! "scope" = match granted with [] => None | _ => Some (VStr (Join granted " ")) end /\
  (forall k, k <> "scope" -> ctx' !! k = ctx !! k).
Proof.
  unfold applyScopeFilter.
  set (asked' := match Fields requested, defaults with [], _ :: _ => defaults | _, _ => Fields requested end).
  assert (asked_scopes requested defaults = asked') as ->.
  { unfold asked_scopes, asked'. destruct (Fields requested); [|done]. by destruct defaults. }
  set (g := filter _ SupportedScopes). cbn zeta. intros [= <- <-]. split_and!.
  - intros sc. unfold g. rewrite list_elem_of_filter, contains_elem_spec. tauto.
  - unfold g. clear. induction SupportedScopes as [|x l IH]; [apply sublist_nil|].
    rewrite filter_cons. case_decide; by constructor.
  - apply NoDup_filter. apply (bool_decide_unpack _). vm_compute. done.
  - destruct g; [apply lookup_delete_eq|apply lookup_insert_eq].
  - intros k Hk. destruct g; [by apply lookup_delete_ne|by apply lookup_insert_ne].
Qed.

(** A client selects scopes, it never invents one: the granted set is the
    part of the published vocabulary that was requested (or of the defaults,
    when nothing was), without duplicates and in the vocabulary's order; the
    scope claim is exactly that set, or absent when it is empty, whatever scope
    the context carried; and no other claim changes. *)
Theorem scope_filter_confines ctx requested defaults :
  let '(granted, ctx') := applyScopeFilter ctx requested defaults in
  (forall sc, sc ∈ granted <-> sc ∈ SupportedScopes /\ sc ∈ asked_scopes requested defaults) /\
  granted `sublist_of` SupportedScopes /\ NoDup granted /\
  ctx' !! "scope" = match granted with [] => None | _ => Some (VStr (Join granted " ")) end /\
  (forall k, k <> "scope" -> ctx' !! k = ctx !! k).
Proof. destruct (applyScopeFilter _ _ _) as [g c] eqn:E. by apply applyScopeFilter_facts. Qed.

(** * Dynamic clients *)

Section LookupSpec.
Context {St} `{CacheOps St} `{!CacheSafe St} `{!JSON Client} `{!ParseURL}.

(** A client the configuration does not list is trusted with nothing: when
    the lookup resolves one it is public, bound to PKCE and to consent,
    without a secret; it has at least one redirect, each admitted by the
    current policy, and at least one grant, each redirect-based. When its
    record leaves it no redirect it is no client, and a successful deletion
    takes the record out of the store, whatever the policy becomes. *)
Theorem dynamic_client_restricted up now clients schemes mid clientID store r store' :
  clients !! clientID = None ->
  LookupClient up now clients schemes mid clientID store = (r, store') ->
  let policy := match schemes with [] => DefaultRedirectSchemes | _ => schemes end in
  (forall c, r = Ok (Some c) ->
    Public_ c = true /\ RequirePKCE c = true /\ RequireConsent c = true /\ ClientSecret c = "" /\
    RedirectURIs c <> [] /\ AllowedGrantTypes c <> [] /\
    (forall u, u ∈ RedirectURIs c -> redirectAllowed u policy = true) /\
    (forall g, g ∈ AllowedGrantTypes c -> g ∈ SupportedGrantTypes)) /\
  (forall s v dc, store = Some s -> up 0%nat = true -> up 2%nat = true ->
    st_get now clientID (cabs (ds_cache s)) = Some v -> Unmarshal v = Some dc ->
    (forall u, u ∈ dc_RedirectURIs dc -> redirectAllowed u policy = false) ->
    r = Ok None /\ exists s', store' = Some s' /\ cabs (ds_cache s') !! clientID = None).
Proof.
  intros Hnone. unfold LookupClient. rewrite Hnone.
  destruct store as [s|]; [|intros [= <- <-]; cbn zeta; split; intros; simplify_eq].
  destruct (Get up now clientID mid s) as [r0 s'] eqn:Hget. cbn zeta.
  set (policy := match schemes with [] => DefaultRedirectSchemes | _ => schemes end).
  intros Hlk. split.
  - intros c ->. destruct r0 as [[dc|]|e]; [|done|done].
    destruct (FilterRedirectURIs (dc_RedirectURIs dc) policy) as [|u0 us] eqn:Hu; [done|].
    destruct (FilterGrantTypes (dc_GrantTypes dc)) as [|g0 gs] eqn:Hg; [done|].
    injection Hlk as <- <-. cbn. split_and!; try done.
    + intros u. rewrite <- Hu. unfold FilterRedirectURIs.
      intros [Hn|[_ Ha]]%elem_of_keep_distinct; [by apply elem_of_nil in Hn|done].
    + intros g. rewrite <- Hg. unfold FilterGrantTypes. destruct (dc_GrantTypes dc); [done|].
      intros [Hn|[_ Ha]]%elem_of_keep_distinct; [by apply elem_of_nil in Hn|].
      by apply contains_elem_spec.
  - intros s0 v dc [= <-] Hup0 Hup2 Hv Hdc Hno. unfold Get in Hget. rewrite Hup0 in Hget.
    cbn [negb] in Hget. pose proof (cGet_val now clientID (ds_cache s)) as Hval.
    destruct (cGet now clientID (ds_cache s)) as [val c]. simpl in Hval. subst val.
    rewrite Hv, Hdc in Hget. injection Hget as <- <-. revert Hlk.
    assert (FilterRedirectURIs (dc_RedirectURIs dc) policy = []) as ->.
    { destruct (FilterRedirectURIs _ policy) as [|u us] eqn:Hu; [done|].
      assert (u ∈ FilterRedirectURIs (dc_RedirectURIs dc) policy) as Hin by (rewrite Hu; left).
      apply elem_of_keep_distinct in Hin as [Hn|[Hin Ha]]; [by apply elem_of_nil in Hn|].
      rewrite Hno in Ha; done. }
    intros [= <- <-]. split; [done|]. eexists. split; [done|]. unfold Delete. rewrite Hup2.
    cbn [ds_cache with_cache]. rewrite cDelete_abs. apply lookup_delete_eq.
Qed.
End LookupSpec.

(** * The mints *)

Lemma lookup_unreserved cs k :
  unreserved cs !! k = if decide (k ∈ reservedMintClaims) then None else cs !! k.
Proof.
  unfold unreserved. rewrite map_lookup_filter. destruct (cs !! k) as [v|]; simpl.
  - case_guard as Hg; case_decide; simpl in *; try done.
  - by case_decide.
Qed.

Lemma lookup_mergeBackendClaims ctx backend k :
  mergeBackendClaims ctx backend !! k =
  match ctx !! k with Some v => Some v | None => unreserved backend !! k end.
Proof.
  unfold mergeBackendClaims. destruct (ctx !! k) as [v|] eqn:Hk.
  - by apply lookup_union_Some_l.
  - by apply lookup_union_r.
Qed.

(** The strings an IdP's role list contributes. *)
Definition idp_strings (v : option value) : list string :=
  match v with
  | Some (VStrs l) => l
  | Some (VList l) => strings_of l
  | Some (VStr s) => [s]
  | _ => []
  end.

Lemma mergeIDPList_strings v l : mergeIDPList v l = VStrs (idp_strings v ++ l).
Proof. by destruct v as [[]|]. Qed.

Section MintSpec.
Context `{!SubjectKinds} `{!Regexp} `{!JwtClaims} `{!Compaction}.

Implicit Types m : Minter.

(** The value of a reserved claim, which the mint alone decides. *)
Definition reserved_value (kind subject authMethod k : string) : option value :=
  if decide (k = "sub") then Some (VStr subject)
  else if decide (k = "auth_method") then Some (VStr authMethod)
  else if decide (k = ClaimSubjectKind) then Some (VStr kind)
  else if decide (k = "idp") then
    if String.eqb authMethod AuthMethodOIDC then Some (VStr "oidc") else None
  else None.

Lemma subject_context_reserved m kind subject authMethod idp roles ents backend k :
  k ∈ reservedMintClaims ->
  subject_context m kind subject authMethod idp roles ents backend !! k =
  reserved_value kind subject authMethod k.
Proof.
  intros Hk. unfold reserved_value. unfold subject_context. rewrite lookup_mergeBackendClaims, lookup_unreserved.
  rewrite (decide_True (P := k ∈ reservedMintClaims)) by done.
  assert (k <> "roles" /\ k <> "entitlements") as [Hr He].
  { split; intros ->; apply contains_elem_spec in Hk; discriminate Hk. }
  rewrite !lookup_insert_ne by done.
  set (base := unreserved idp ∪ _).
  assert (base !! k = if decide (k = "sub") then Some (VStr subject)
    else if decide (k = "auth_method") then Some (VStr authMethod)
    else if decide (k = ClaimSubjectKind) then Some (VStr kind) else None) as Hbase.
  { unfold base. rewrite lookup_union_r by (rewrite lookup_unreserved; by rewrite decide_True).
    destruct (decide (k = "auth_method")) as [->|Hm].
    - rewrite decide_False by done. by rewrite lookup_insert_eq.
    - rewrite lookup_insert_ne by done. destruct (decide (k = "sub")) as [->|Hs].
      + by rewrite lookup_insert_eq.
      + rewrite lookup_insert_ne by done. case_decide as Hc; [by subst; rewrite lookup_singleton_eq|].
        by apply lookup_singleton_ne. }
  assert ((if String.eqb authMethod AuthMethodOIDC then <["idp":=VStr "oidc"]> base else base) !! k =
    if decide (k = "idp") then if String.eqb authMethod AuthMethodOIDC then Some (VStr "oidc") else base !! k
    else base !! k) as ->.
  { clear Hbase. destruct (String.eqb authMethod AuthMethodOIDC); [|by case_decide].
    destruct (decide (k = "idp")) as [->|Hi]; [apply lookup_insert_eq|by apply lookup_insert_ne]. }
  rewrite Hbase. repeat (case_decide; subst; try done); by destruct (String.eqb authMethod AuthMethodOIDC).
Qed.

(** The roles and entitlements of a refreshed session: the IdP's and the
    fresh ones, the backend's not consulted. *)
Lemma subject_context_lists m kind subject authMethod idp roles ents backend :
  subject_context m kind subject authMethod idp roles ents backend !! "roles" =
    Some (VStrs (idp_strings (idp !! "roles") ++ roles)) /\
  subject_context m kind subject authMethod idp roles ents backend !! "entitlements" =
    Some (VStrs (idp_strings (idp !! "entitlements") ++ ents)).
Proof.
  unfold subject_context. rewrite !lookup_mergeBackendClaims.
  assert (forall (base : claims) k, k ∉ reservedMintClaims -> k <> "idp" -> k <> "auth_method" ->
    k <> "sub" -> k <> ClaimSubjectKind ->
    (if String.eqb authMethod AuthMethodOIDC then <["idp" := VStr "oidc"]>
      (unreserved idp ∪ (<["auth_method" := VStr authMethod]> $ <["sub" := VStr subject]> $
        {[ ClaimSubjectKind := VStr kind ]}) : claims) else
      (unreserved idp ∪ (<["auth_method" := VStr authMethod]> $ <["sub" := VStr subject]> $
        {[ ClaimSubjectKind := VStr kind ]}))) !! k = idp !! k) as Hbase.
  { intros _ k Hk Hi Ha Hs Hc.
    assert ((unreserved idp ∪ (<["auth_method" := VStr authMethod]> $ <["sub" := VStr subject]> $
        {[ ClaimSubjectKind := VStr kind ]}) : claims) !! k = idp !! k) as E.
    { destruct (idp !! k) as [v|] eqn:Hv.
      - apply lookup_union_Some_l. rewrite lookup_unreserved. by rewrite decide_False.
      - rewrite lookup_union_r by (rewrite lookup_unreserved; by case_decide).
        rewrite !lookup_insert_ne by done. by apply lookup_singleton_ne. }
    destruct (String.eqb authMethod AuthMethodOIDC); [|exact E]. by rewrite lookup_insert_ne. }
  assert (forall k, contains_elem reservedMintClaims k = false -> k ∉ reservedMintClaims) as Hnr.
  { intros k Hk Hin%contains_elem_spec. congruence. }
  split.
  - rewrite lookup_insert_ne by done. rewrite lookup_insert_eq, mergeIDPList_strings.
    rewrite Hbase; [done|exact ∅|by apply Hnr|done..].
  - rewrite lookup_insert_eq, mergeIDPList_strings. rewrite lookup_insert_ne by done.
    rewrite Hbase; [done|exact ∅|by apply Hnr|done..].
Qed.

(** What a rotation signs for a session is decided by the mint, never by
    what the identity provider asserted at login or a backend says now. A
    mint from a refresh record succeeds only for a subject, and a binding
    key, that no client holds; the signing context it signed names that
    subject, its method and the User kind, carries no envelope claim, names
    the OIDC provider exactly for an OIDC session, and holds as roles and
    entitlements the ones the provider asserted followed by the ones the
    bindings give now; the scope is the requested part of the vocabulary,
    and there is no id_token without openid. *)
Theorem refresh_mint_authoritative m now jti subject clientID scope authMethod idp ts ctx :
  mintTokensFromSubject m now jti subject clientID scope authMethod idp = Ok (ts, ctx) ->
  exists key granted,
    key = resolveBindingKey idp subject (ex_RoleBindingClaim (mi_ex m)) (ex_RequireEmailVerified (mi_ex m)) /\
    NamesClient (mi_ex m) subject = false /\ NamesClient (mi_ex m) key = false /\
    (let '(roles, ents) := resolveBindings (mi_logEnabled m) (ex_sp (mi_ex m))
       (mkSubject key SubjectKindUser SiteRefresh) in
     ctx !! "roles" = Some (VStrs (idp_strings (idp !! "roles") ++ roles)) /\
     ctx !! "entitlements" = Some (VStrs (idp_strings (idp !! "entitlements") ++ ents))) /\
    ts_Subject ts = subject /\ ctx !! "sub" = Some (VStr subject) /\
    ctx !! "auth_method" = Some (VStr authMethod) /\
    ctx !! ClaimSubjectKind = Some (VStr SubjectKindUser) /\
    ctx !! "idp" = (if String.eqb authMethod AuthMethodOIDC then Some (VStr "oidc") else None) /\
    (forall k, k ∈ ["grant_type"; "iat"; "exp"; "jti"; "iss"; "aud"; "nbf"; "act"; "scp"] ->
      ctx !! k = None) /\
    (forall sc, sc ∈ granted <-> sc ∈ SupportedScopes /\ sc ∈ Fields scope) /\
    ts_Scope ts = Join granted " " /\
    ctx !! "scope" = match granted with [] => None | _ => Some (VStr (Join granted " ")) end /\
    ("openid" ∉ granted -> IDToken ts = "").
Proof.
  unfold mintTokensFromSubject, userBindingSubject. cbn zeta.
  set (key := resolveBindingKey _ _ _ _). cbn [bs_Kind].
  destruct (refuseClientNamedIdentity (mi_ex m) [subject; key]) as [[]|] eqn:Href; [|done].
  assert (NamesClient (mi_ex m) subject = false /\ NamesClient (mi_ex m) key = false) as [Hs Hk].
  { simpl in Href. destruct (NamesClient (mi_ex m) subject); [done|].
    by destruct (NamesClient (mi_ex m) key). }
  unfold subjectSigningContext.
  destruct (resolveBindings _ _ _) as [roles ents] eqn:Hres.
  set (ctx0 := subject_context m SubjectKindUser subject authMethod idp roles ents _).
  destruct (applyScopeFilter ctx0 scope []) as [granted ctx'] eqn:Hf.
  destruct (sign_pair m now jti ctx' granted clientID) as [[at_ idt]|] eqn:Hsign; [|done].
  intros [= <- <-]. exists key, granted.
  destruct (applyScopeFilter_facts _ _ _ _ _ Hf) as (Hg & _ & _ & Hc & Hother).
  pose proof (subject_context_lists m SubjectKindUser subject authMethod idp roles ents
    (ex_backend (mi_ex m) subject)) as [Hr He].
  assert (forall k, k <> "scope" -> contains_elem reservedMintClaims k = true ->
    ctx' !! k = reserved_value SubjectKindUser subject authMethod k) as Hres'.
  { intros k Hne Hin. rewrite Hother by done.
    apply subject_context_reserved. by apply contains_elem_spec. }
  rewrite Hres. split_and!; try done.
  - by rewrite Hother.
  - by rewrite Hother.
  - by rewrite Hres'.
  - by rewrite Hres'.
  - by rewrite Hres'.
  - by rewrite Hres'.
  - intros k Hin. rewrite !elem_of_cons, elem_of_nil in Hin.
    destruct Hin as [->|[->|[->|[->|[->|[->|[->|[->|[->|[]]]]]]]]]]; by rewrite Hres'.
  - intros sc. rewrite Hg. unfold asked_scopes. by destruct (Fields scope).
  - intros Hno. unfold sign_pair in Hsign.
    destruct (SignScoped (mi_signer m) now (jti 0%nat) ctx' granted) as [t|]; [|done].
    cbn [mbind result_bind] in Hsign.
    destruct (contains_elem granted "openid") eqn:Ho; [by apply contains_elem_spec in Ho|].
    by injection Hsign as _ <-.
Qed.
End MintSpec.

(** * Authorization codes *)

Section CodeSpec.
Context {St} `{CacheOps St} `{!CacheSafe St} `{Paseto} `{!Sha256} `{!SubjectKinds} `{!Regexp}
  `{!JwtClaims} `{!Compaction} `{!ParseURL} `{!JSON Client} `{!JSON RefreshTokenClaims}
  `{!JSON AuthorizationCodeClaims} `{!Jose} `{!S256}.

Implicit Types (i : Issuer St) (w : world St) (c : AuthorizationCodeClaims).

(** The parts of an issuer a redemption leaves alone. *)
Definition same_config i i' : Prop :=
  is_minter i' = is_minter i /\ is_blockKey i' = is_blockKey i /\ is_schemes i' = is_schemes i /\
  is_tokenManager i' = is_tokenManager i /\ is_refreshTTL i' = is_refreshTTL i.

Lemma check_code_state w now cid uri ver c i :
  let i' := (check_code w now cid uri ver c i).2 in
  same_config i i' /\ is_authCodeCache i' = is_authCodeCache i /\
  is_refreshTokenCache i' = is_refreshTokenCache i.
Proof.
  unfold check_code, same_config. repeat case_match; simpl; repeat split; try done.
Qed.

Lemma mint_code_state w now c i :
  let i' := (mintTokensFromCode w now c i).2 in
  same_config i i' /\ is_authCodeCache i' = is_authCodeCache i.
Proof. unfold mintTokensFromCode, same_config. repeat case_match; simpl; repeat split; done. Qed.

(** The code's registration is gone, whatever the time. *)
Definition dead (jti : string) i : Prop :=
  match is_authCodeCache i with Some s => cabs s !! jti = None | None => False end.

Lemma consume_state w now c i jti :
  let i' := (consume_code w now c i).2 in
  same_config i i' /\ (dead jti i -> dead jti i').
Proof.
  unfold consume_code, dead, same_config. destruct (is_authCodeCache i) as [s|] eqn:Hs; simpl.
  2: { rewrite ?Hs. repeat split; done. }
  destruct (String.eqb (co_JTI c) ""); [simpl; rewrite ?Hs; repeat split; done|].
  destruct (wo_up w 4%nat); simpl; [|rewrite ?Hs; repeat split; done].
  pose proof (cGetAndDelete_abs now (co_JTI c) s) as Ha.
  destruct (cGetAndDelete now (co_JTI c) s) as [v s']. simpl in *. repeat split.
  intros Hd. rewrite Ha. unfold st_getdel. destruct (st_get now (co_JTI c) (cabs s)); [|done].
  simpl. rewrite lookup_delete_None. by right.
Qed.

Lemma consume_inv w now c i s i' :
  is_authCodeCache i = Some s -> consume_code w now c i = (None, i') ->
  is_Some (st_get now (co_JTI c) (cabs s)) /\ dead (co_JTI c) i'.
Proof.
  intros Hs. unfold consume_code. rewrite Hs.
  destruct (String.eqb (co_JTI c) ""); [done|]. destruct (wo_up w 4%nat); [|done].
  pose proof (cGetAndDelete_val now (co_JTI c) s) as Hv.
  pose proof (cGetAndDelete_abs now (co_JTI c) s) as Ha.
  cbn [negb]. destruct (cGetAndDelete now (co_JTI c) s) as [v s']. simpl in *.
  unfold st_getdel in *. destruct (st_get now (co_JTI c) (cabs s)) as [x|]; simpl in *; subst v.
  - intros [= <-]. split; [by eexists|]. unfold dead. simpl. rewrite Ha. apply lookup_delete_eq.
  - done.
Qed.

Lemma Redeem_inv w now code cid uri ver i ts i' :
  RedeemAuthorizationCode w now code cid uri ver i = ((ts, None), i') ->
  exists d c i1 i2, open (is_blockKey i) sealPurposeAuthCode code = Ok d /\ Unmarshal d = Some c /\
    check_code w now cid uri ver c i = (None, i1) /\ consume_code w now c i1 = (None, i2) /\
    mintTokensFromCode w now c i2 = ((ts, None), i').
Proof.
  unfold RedeemAuthorizationCode.
  destruct (open _ _ code) as [d|[]] eqn:Ho; [|done|done].
  destruct (Unmarshal d) as [c|] eqn:Hu; [|done].
  destruct (check_code w now cid uri ver c i) as [[e|] i1] eqn:Hc; [done|].
  destruct (consume_code w now c i1) as [[e|] i2] eqn:Hk; [done|].
  intros Hm. exists d, c, i1, i2. done.
Qed.

Lemma Redeem_state w now code cid uri ver i jti :
  let i' := (RedeemAuthorizationCode w now code cid uri ver i).2 in
  is_blockKey i' = is_blockKey i /\ (dead jti i -> dead jti i').
Proof.
  unfold RedeemAuthorizationCode. destruct (open _ _ code) as [d|[]]; [|done|done].
  destruct (Unmarshal d) as [c|]; [|done].
  pose proof (check_code_state w now cid uri ver c i) as ((_ & Hk1 & _) & Hc1 & _).
  destruct (check_code w now cid uri ver c i) as [[e|] i1]; simpl in *.
  { split; [done|]. unfold dead. by rewrite Hc1. }
  pose proof (consume_state w now c i1 jti) as ((_ & Hk2 & _) & Hd2).
  destruct (consume_code w now c i1) as [[e|] i2]; simpl in *.
  { split; [congruence|]. intros Hd. apply Hd2. unfold dead. by rewrite Hc1. }
  pose proof (mint_code_state w now c i2) as ((_ & Hk3 & _) & Hc3).
  destruct (mintTokensFromCode w now c i2) as [r i3]. simpl in *. split; [congruence|].
  intros Hd. unfold dead. rewrite Hc3. apply Hd2. unfold dead. by rewrite Hc1.
Qed.

(** [op] registers no code under [jti]. *)
Definition registers_other (jti : string) (op : code_op St) : Prop :=
  match op with
  | OpCreate w now c => co_JTI (complete_claims now (wo_rand w) c) <> jti
  | OpRedeem _ _ _ _ _ _ => True
  end.

Lemma code_run_dead jti ops : forall i,
  Forall (registers_other jti) ops -> dead jti i ->
  dead jti (code_run ops i) /\ is_blockKey (code_run ops i) = is_blockKey i.
Proof.
  induction ops as [|op ops IH]; intros i Hall Hd; [done|].
  change (code_run (op :: ops) i) with (code_run ops (code_do i op)).
  apply Forall_cons in Hall as [Hop Hall].
  assert (dead jti (code_do i op) /\ is_blockKey (code_do i op) = is_blockKey i) as [Hd' Hk].
  { destruct op as [w now c|w now code cid uri ver]; cbn [code_do].
    - unfold CreateAuthorizationCode, dead in *. destruct (is_authCodeCache i) as [s|] eqn:Hs; [|done].
      destruct (wo_up w 0%nat); simpl; [|by rewrite Hs]. split; [|done].
      by apply cSet_none; [apply not_eq_sym, Hop|].
    - destruct (Redeem_state w now code cid uri ver i jti) as [Hk Hd']. split; auto. }
  destruct (IH _ Hall Hd') as [? Hk']. split; [done|]. congruence.
Qed.

(** C3: an authorization code is redeemed at most once. After a redemption
    that succeeded, no later presentation of the code succeeds, whatever
    client, redirect, verifier or time it is presented with, whichever cache
    calls fail, and whatever codes are created and redeemed in between, as
    long as none is registered under the same random identifier. *)
Theorem code_redeemed_once w now code cid uri ver i s d c ts i' ops w' now' cid' uri' ver' :
  is_authCodeCache i = Some s ->
  open (is_blockKey i) sealPurposeAuthCode code = Ok d -> Unmarshal d = Some c ->
  RedeemAuthorizationCode w now code cid uri ver i = ((ts, None), i') ->
  Forall (registers_other (co_JTI c)) ops ->
  (RedeemAuthorizationCode w' now' code cid' uri' ver' (code_run ops i')).1.2 <> None.
Proof.
  intros Hs Ho Hu Hr Hops.
  destruct (Redeem_inv _ _ _ _ _ _ _ _ _ Hr) as (d' & c' & i1 & i2 & Ho' & Hu' & Hc & Hk & Hm).
  rewrite Ho in Ho'. injection Ho' as <-. rewrite Hu in Hu'. injection Hu' as <-.
  pose proof (check_code_state w now cid uri ver c i) as ((_ & Hk1 & _) & Hc1 & _).
  rewrite Hc in Hk1, Hc1. simpl in *.
  destruct (consume_inv w now c i1 s i2 ltac:(congruence) Hk) as [_ Hdead].
  pose proof (consume_state w now c i1 (co_JTI c)) as ((_ & Hk2 & _) & _). rewrite Hk in Hk2.
  pose proof (mint_code_state w now c i2) as ((_ & Hk3 & _) & Hc3). rewrite Hm in Hk3, Hc3. simpl in *.
  assert (dead (co_JTI c) i') as Hdead' by (unfold dead; by rewrite Hc3).
  destruct (code_run_dead _ _ _ Hops Hdead') as [Hd Hkey].
  set (j := code_run ops i') in *. intros Hok.
  destruct (RedeemAuthorizationCode w' now' code cid' uri' ver' j) as [[ts' e] j'] eqn:Hr'.
  simpl in Hok. subst e.
  destruct (Redeem_inv _ _ _ _ _ _ _ _ _ Hr') as (d2 & c2 & j1 & j2 & Ho2 & Hu2 & Hc2 & Hk2' & _).
  assert (is_blockKey j = is_blockKey i) as Hkey' by congruence.
  rewrite Hkey', Ho in Ho2. injection Ho2 as <-. rewrite Hu in Hu2. injection Hu2 as <-.
  pose proof (check_code_state w' now' cid' uri' ver' c j) as (_ & Hcc & _). rewrite Hc2 in Hcc. simpl in Hcc.
  unfold dead in Hd. destruct (is_authCodeCache j) as [sj|] eqn:Hsj; [|done].
  destruct (consume_inv w' now' c j1 sj j2 ltac:(congruence) Hk2') as [[x Hx] _].
  unfold st_get in Hx. by rewrite Hd in Hx.
Qed.

Lemma check_code_inv w now cid uri ver c i i' :
  check_code w now cid uri ver c i = (None, i') ->
  unix now <= co_Exp c /\ co_ClientID c = cid /\ co_RedirectURI c = uri /\
  refuseRevokedAuthentication (fun _ => wo_up w 3%nat) now (is_tokenManager i) (co_Subject c)
    (co_AuthenticatedAt c) = Ok () /\
  exists client store, LookupClient (wo_up w) now (ex_Clients (mi_ex (is_minter i))) (is_schemes i)
    (wo_mid w) cid (is_DCRStore i) = (Ok (Some client), store) /\
    check_pkce client c ver = None /\ i' = set_dcr store i.
Proof.
  unfold check_code. destruct (co_Exp c <? unix now)%Z eqn:He; [done|].
  destruct (String.eqb_spec (co_ClientID c) cid) as [->|]; [|done].
  destruct (String.eqb_spec (co_RedirectURI c) uri) as [->|]; [|done]. cbn [negb].
  destruct (refuseRevokedAuthentication _ _ _ _ _) as [[]|] eqn:Hr; [|done].
  destruct (LookupClient _ _ _ _ _ _ _) as [[[client|]|] store] eqn:Hl; [|done|done].
  intros [= Hp <-]. bool_to_prop. split_and!; try done. by exists client, store.
Qed.

Lemma check_pkce_inv client c ver :
  check_pkce client c ver = None ->
  (RequirePKCE client = true -> co_CodeChallenge c <> "") /\
  (co_CodeChallenge c <> "" -> ver <> "" /\ co_CodeChallengeMethod c = PKCE_METHOD_S256 /\
    s256 ver = co_CodeChallenge c).
Proof.
  unfold check_pkce. destruct (String.eqb_spec (co_CodeChallenge c) "") as [He|Hne].
  - rewrite andb_true_r. destruct (RequirePKCE client); [done|]. intros _. split; [done|]. by rewrite He.
  - rewrite andb_false_r. destruct (String.eqb_spec ver ""); [done|].
    destruct (String.eqb_spec (co_CodeChallengeMethod c) PKCE_METHOD_S256); [|done].
    destruct (String.eqb_spec (s256 ver) (co_CodeChallenge c)); [|done]. done.
Qed.

(** C12: an authorization code is honoured only for what it was issued for. A
    redemption that succeeds opened the code with the host's key, before its
    expiry, for the client and the redirect it names, which the lookup still
    resolves to a client; the subject was not revoked since it
    authenticated; a challenge was answered by its S256 verifier, and a
    client that requires PKCE had one; where single use is enforced the code
    was still registered; and the tokens are its subject's. *)
Theorem code_redeem_authentic w now code cid uri ver i ts i' :
  RedeemAuthorizationCode w now code cid uri ver i = ((ts, None), i') ->
  exists d c client store,
    open (is_blockKey i) sealPurposeAuthCode code = Ok d /\ Unmarshal d = Some c /\
    unix now <= co_Exp c /\ co_ClientID c = cid /\ co_RedirectURI c = uri /\
    LookupClient (wo_up w) now (ex_Clients (mi_ex (is_minter i))) (is_schemes i) (wo_mid w) cid
      (is_DCRStore i) = (Ok (Some client), store) /\
    (RequirePKCE client = true -> co_CodeChallenge c <> "") /\
    (co_CodeChallenge c <> "" -> ver <> "" /\ co_CodeChallengeMethod c = PKCE_METHOD_S256 /\
      s256 ver = co_CodeChallenge c) /\
    (forall tm, is_tokenManager i = Some tm -> SubjectRevokedSince (fun _ => wo_up w 3%nat) now
      (co_Subject c) (of_unix (co_AuthenticatedAt c)) tm = Ok false) /\
    (forall s, is_authCodeCache i = Some s ->
      co_JTI c <> "" /\ is_Some (st_get now (co_JTI c) (cabs s))) /\
    ts_Subject ts = co_Subject c.
Proof.
  intros Hr. destruct (Redeem_inv _ _ _ _ _ _ _ _ _ Hr) as (d & c & i1 & i2 & Ho & Hu & Hc & Hk & Hm).
  pose proof (check_code_state w now cid uri ver c i) as (_ & Hc1 & _). rewrite Hc in Hc1. simpl in Hc1.
  destruct (check_code_inv _ _ _ _ _ _ _ _ Hc) as (He & Hcid & Huri & Hrev & client & store & Hl & Hp & _).
  destruct (check_pkce_inv _ _ _ Hp) as [Hp1 Hp2].
  exists d, c, client, store. split_and!; try done.
  - intros tm Htm. unfold refuseRevokedAuthentication in Hrev. rewrite Htm in Hrev.
    destruct (SubjectRevokedSince _ _ _ _ _) as [[]|]; done.
  - intros s Hs. rewrite <- Hc1 in Hs.
    destruct (consume_inv w now c i1 s i2 Hs Hk) as [Hlive _]. split; [|done].
    unfold consume_code in Hk. rewrite Hs in Hk. by destruct (String.eqb_spec (co_JTI c) "").
  - unfold mintTokensFromCode in Hm.
    destruct (mint_from_code _ _ _ _ _ _ _ _) as [ts0|] eqn:Hmint; [|done].
    assert (ts_Subject ts0 = co_Subject c) as Hsub.
    { unfold mint_from_code in Hmint. destruct (userBindingSubject _ _ _ _) as [bs [[]|]]; [|done].
      destruct (subjectSigningContext _ _ _) as [[r e] b]. cbn zeta in Hmint.
      destruct (applyScopeFilter _ _ _) as [g x]. destruct (sign_pair _ _ _ _ _ _) as [[a b']|]; [|done].
      by injection Hmint as <-. }
    destruct (is_refreshTokenCache i2) as [s|]; [|by injection Hm as <- _].
    destruct (createRefreshToken _ _ _ _ _ _) as [[id|] s']; [|done].
    by injection Hm as <- _.
Qed.

(** A code that was issued can be used. Redeemed by its client, at its
    redirect, with its verifier, before it and its registration expire, for a
    subject not revoked and whom the mint does not refuse, with every store
    up, a created code gives its subject's tokens, the refresh token
    included. *)
Theorem created_code_redeems w w' now now' c i code i' s client ts ver :
  is_authCodeCache i = Some s -> (forall n, wo_up w n = true) -> (forall n, wo_up w' n = true) ->
  CreateAuthorizationCode w now c i = (Some code, i') ->
  let c := complete_claims now (wo_rand w) c in
  clean c -> co_JTI c <> "" ->
  now <= now' -> now' <= now + cTTL s -> unix now' <= co_Exp c ->
  ex_Clients (mi_ex (is_minter i)) !! co_ClientID c = Some client -> check_pkce client c ver = None ->
  refuseRevokedAuthentication (fun _ => wo_up w' 3%nat) now' (is_tokenManager i) (co_Subject c)
    (co_AuthenticatedAt c) = Ok () ->
  mint_from_code (is_minter i) now' (wo_jti w') (co_Subject c) (co_ClientID c) (co_Scope c)
    (co_AuthMethod c) (co_IDPClaims c) = Ok ts ->
  (RedeemAuthorizationCode w' now' code (co_ClientID c) (co_RedirectURI c) ver i').1 =
  (match is_refreshTokenCache i with None => ts | Some _ => with_refresh (wo_rand w') ts end, None).
Proof.
  intros Hs Hup Hup' Hcreate c' Hclean Hjti Hle Hlive Hexp Hclient Hpkce Hrev Hmint.
  unfold CreateAuthorizationCode in Hcreate. fold c' in Hcreate. rewrite Hs, Hup in Hcreate.
  injection Hcreate as <- <-.
  unfold RedeemAuthorizationCode, open, seal. cbn [is_blockKey set_codes].
  rewrite jose_decrypt_encrypt, Unmarshal_Marshal by done.
  unfold check_code. rewrite (proj2 (Z.ltb_ge _ _)) by done. rewrite !String.eqb_refl. cbn [negb].
  cbn [is_tokenManager is_minter is_DCRStore is_schemes set_codes]. rewrite Hrev.
  unfold LookupClient. rewrite Hclient. rewrite Hpkce.
  unfold consume_code. cbn [is_authCodeCache set_dcr set_codes].
  destruct (String.eqb_spec (co_JTI c') ""); [done|]. rewrite Hup'. cbn [negb].
  pose proof (cGetAndDelete_val now' (co_JTI c') (cSet now (co_JTI c') "1" [] s)) as Hv.
  destruct (cGetAndDelete now' (co_JTI c') _) as [v s']. simpl in Hv. unfold st_getdel in Hv.
  rewrite cSet_live in Hv by (unfold expiry_of; simpl; lia). simpl in Hv. subst v.
  cbn [found]. unfold mintTokensFromCode. cbn [is_minter set_dcr set_codes is_refreshTokenCache].
  rewrite Hmint. destruct (is_refreshTokenCache i) as [r|]; [|done].
  unfold createRefreshToken. rewrite Hup'. done.
Qed.
End CodeSpec.

(** * Witnesses *)

#[local] Existing Instance kindsExample.
#[local] Existing Instance jwtExample.
#[local] Existing Instance timeExample.
#[local] Existing Instance pasetoExample.
#[local] Existing Instance sha256Example.
#[local] Existing Instance compactExample.
#[local] Existing Instance noRegexp.
#[local] Existing Instance parseExample.

Definition joseExample : Jose := {|
  jose_encrypt key _ payload := (key ++ ".") ++ payload;
  jose_decrypt key s := match CutPrefix s (key ++ ".") with Some p => Ok p | None => Err ErrSealDecrypt end;
  jose_decrypt_encrypt key _ payload :=
    f_equal (fun o => match o with Some p => Ok p | None => Err ErrSealDecrypt end)
      (CutPrefix_append (key ++ ".") payload);
|}.
#[local] Existing Instance joseExample.

Definition s256Example : S256 := {| s256 v := "h" ++ v |}.
#[local] Existing Instance s256Example.

(** Codecs of the records without claims of an identity provider. *)
Definition codeTuple : Type := string * string * string * string * Z * string * string *
  (string * string * string * Z).

Definition code_of (x : codeTuple) : AuthorizationCodeClaims :=
  let '(am, cid, ch, chm, exp, jti, uri, (res, sc, sub, auth)) := x in
  mkCodeClaims am cid ch chm exp ∅ jti uri res sc sub auth.

Definition of_code (c : AuthorizationCodeClaims) : codeTuple :=
  (co_AuthMethod c, co_ClientID c, co_CodeChallenge c, co_CodeChallengeMethod c, co_Exp c, co_JTI c,
   co_RedirectURI c, (co_Resource c, co_Scope c, co_Subject c, co_AuthenticatedAt c)).

Program Definition codeJSON : JSON AuthorizationCodeClaims := {|
  Marshal c := pos_string (encode (of_code c : codeTuple));
  Unmarshal s := code_of <$> (decode (string_pos s) : option codeTuple);
  clean c := co_IDPClaims c = ∅;
|}.
Next Obligation.
  intros [] Hc. simpl in Hc. subst. cbn beta. by rewrite string_pos_string, decode_encode.
Qed.
#[local] Existing Instance codeJSON.

Definition refreshTuple : Type := string * string * Z * Z * Z * string * string * (string * string).

Definition refresh_of (x : refreshTuple) : RefreshTokenClaims :=
  let '(am, cid, exp, iat, oiat, pid, sc, (sub, urt)) := x in
  mkRefreshClaims am cid exp iat oiat pid sc sub ∅ urt.

Definition of_refresh (c : RefreshTokenClaims) : refreshTuple :=
  (rt_AuthMethod c, rt_ClientID c, rt_ExpiresAt c, rt_IssuedAt c, rt_OriginalIssuedAt c,
   rt_PredecessorID c, rt_Scope c, (rt_Subject c, rt_UpstreamRefreshToken c)).

Program Definition refreshJSON : JSON RefreshTokenClaims := {|
  Marshal c := pos_string (encode (of_refresh c : refreshTuple));
  Unmarshal s := refresh_of <$> (decode (string_pos s) : option refreshTuple);
  clean c := rt_IDPClaims c = ∅;
|}.
Next Obligation.
  intros [] Hc. simpl in Hc. subst. cbn beta. by rewrite string_pos_string, decode_encode.
Qed.
#[local] Existing Instance refreshJSON.

#[global] Instance Client_eq_dec : EqDecision Client.
Proof. solve_decision. Defined.

#[global] Program Instance Client_countable : Countable Client :=
  inj_countable' (fun c => (dc_ClientID c, dc_RedirectURIs c, dc_GrantTypes c, dc_ResponseTypes c,
    (dc_Scope c, dc_ClientName c, dc_TokenEndpointAuthMethod c, dc_CreatedAt c)))
  (fun x => let '(id, uris, grants, types, (sc, nm, am, at_)) := x in
    mkClient id uris grants types sc nm am at_) _.
Next Obligation. by intros []. Qed.

#[local] Instance clientJSON : JSON Client := jsonExample Client.

Definition exampleMinter : Minter := mkMinter (exchangerOf ∅) (exampleSigner None) false.

Lemma refresh_mint_authoritative_witness :
  exists ts ctx, mintTokensFromSubject exampleMinter 5 (fun _ => "jti") "alice" "app" "openid roles" "oidc"
      {[ "sub" := VStr "mallory" ]} = Ok (ts, ctx) /\
    ctx !! "sub" = Some (VStr "alice") /\ ts_Subject ts = "alice".
Proof.
  destruct (mintTokensFromSubject exampleMinter 5 (fun _ => "jti") "alice" "app" "openid roles" "oidc"
      {[ "sub" := VStr "mallory" ]}) as [[ts ctx]|e] eqn:Hm; [|vm_compute in Hm; discriminate Hm].
  exists ts, ctx. split; [reflexivity|].
  destruct (refresh_mint_authoritative _ _ _ _ _ _ _ _ _ _ Hm) as
    (key & granted & _ & _ & _ & _ & Hts & Hsub & _).
  split; [exact Hsub|exact Hts].
Defined.

(** A client registered with one dangerous redirect only. *)
Definition staleClient : Client := mkClient "dcr_1" ["javascript://x"] [] [] "" "" "none" 0.

Definition staleStore : DCRStore mapStore :=
  mkDCRStore (MapStore hour (<["dcr_1" := (Marshal staleClient, hour)]> ∅)) hour 1000.

Lemma dynamic_client_restricted_witness :
  exists store', LookupClient (fun _ => true) 5 ∅ [] id "dcr_1" (Some staleStore) = (Ok None, Some store') /\
    cabs (ds_cache store') !! "dcr_1" = None.
Proof.
  destruct (LookupClient (fun _ => true) 5 ∅ [] id "dcr_1" (Some staleStore)) as [r store'] eqn:Hl.
  destruct (dynamic_client_restricted _ _ _ _ _ _ _ r store' (lookup_empty "dcr_1") Hl) as [_ Hdel].
  destruct (Hdel staleStore (Marshal staleClient) staleClient eq_refl eq_refl eq_refl) as [-> (s' & -> & Hs)].
  - vm_compute. reflexivity.
  - vm_compute. reflexivity.
  - intros u Hu. apply list_elem_of_singleton in Hu as ->. vm_compute. reflexivity.
  - exists s'. split; [reflexivity|exact Hs].
Defined.

Definition exampleIssuer : Issuer mapStore :=
  mkIssuer exampleMinter "block" [] None (24 * hour) (Some (emptyStore (15 * minute)))
    (Some (emptyStore (24 * hour))) None.

Definition exampleWorld (rnd : string) : world mapStore :=
  mkWorld (fun _ => true) id rnd "nonce" (fun _ => "jti").

Definition exampleCode : AuthorizationCodeClaims :=
  mkCodeClaims "oidc" "app" "hverifier" "S256" 0 ∅ "" "https://app/cb" "" "openid email" "alice" 0.

Definition createdCode : option string * Issuer mapStore :=
  CreateAuthorizationCode (exampleWorld "code1") 5 exampleCode exampleIssuer.

Definition issuedCode : string := default "" createdCode.1.

Lemma createdCode_eq : createdCode = (Some issuedCode, createdCode.2).
Proof. reflexivity. Qed.

Lemma created_code_redeems_witness :
  (RedeemAuthorizationCode (exampleWorld "rt1") 6 issuedCode "app" "https://app/cb" "verifier"
    createdCode.2).1.2 = None.
Proof.
  destruct (mint_from_code exampleMinter 6 (fun _ => "jti") "alice" "app" "openid email" "oidc" ∅)
    as [ts|e] eqn:Hm; [|vm_compute in Hm; discriminate Hm].
  pose proof (created_code_redeems (exampleWorld "code1") (exampleWorld "rt1") 5 6 exampleCode exampleIssuer
    issuedCode createdCode.2 (emptyStore (15 * minute)) exampleClient ts "verifier" eq_refl
    (fun _ => eq_refl) (fun _ => eq_refl) createdCode_eq) as Hr.
  cbn zeta in Hr. refine (f_equal snd (Hr _ _ _ _ _ _ _ _ Hm)).
  - reflexivity.
  - vm_compute. discriminate.
  - vm_compute. discriminate.
  - vm_compute. discriminate.
  - vm_compute. discriminate.
  - reflexivity.
  - reflexivity.
  - reflexivity.
Defined.

Lemma pair_none {A B C} (r : (A * option B) * C) : r.1.2 = None -> r = ((r.1.1, None), r.2).
Proof. destruct r as [[? ?] ?]. simpl. by intros ->. Qed.

Definition firstRedemption : (TokenSet * option grant_error) * Issuer mapStore :=
  RedeemAuthorizationCode (exampleWorld "rt1") 6 issuedCode "app" "https://app/cb" "verifier" createdCode.2.

Lemma firstRedemption_ok : firstRedemption = ((firstRedemption.1.1, None), firstRedemption.2).
Proof. apply pair_none. vm_compute. reflexivity. Qed.

Lemma code_redeem_authentic_witness :
  exists ts i, firstRedemption = ((ts, None), i) /\ ts_Subject ts = "alice".
Proof.
  exists firstRedemption.1.1, firstRedemption.2. split; [exact firstRedemption_ok|].
  destruct (code_redeem_authentic _ _ _ _ _ _ _ _ _ firstRedemption_ok) as
    (d & c & client & store & Ho & Hu & _ & _ & _ & _ & _ & _ & _ & _ & Hs).
  rewrite Hs. vm_compute in Ho. injection Ho as <-. vm_compute in Hu. injection Hu as <-. reflexivity.
Defined.

Definition sealedClaims : string := Marshal (complete_claims 5 "code1" exampleCode).

Lemma code_redeemed_once_witness :
  (RedeemAuthorizationCode (exampleWorld "rt2") 7 issuedCode "app" "https://app/cb" "verifier"
    firstRedemption.2).1.2 <> None.
Proof.
  refine (code_redeemed_once (exampleWorld "rt1") 6 issuedCode _ _ _ createdCode.2 _ sealedClaims
    (complete_claims 5 "code1" exampleCode) _ _ [] _ _ _ _ _ _ _ _ firstRedemption_ok (Forall_nil_2 _)).
  - reflexivity.
  - vm_compute. reflexivity.
  - vm_compute. reflexivity.
Defined.

(** * Findings *)

(** The refresh record a code redemption stores carries no claim of the
    identity provider, so a session bound by its email at redemption is bound
    by its subject from the first rotation on. *)
Lemma code_session_forgets_idp_claims :
  let idp := {[ "email" := VStr "a@x" ]} in
  resolveBindingKey idp "alice" "email" false = "a@x" /\
  resolveBindingKey ∅ "alice" "email" false = "alice" /\
  (forall w now c (i : Issuer mapStore) ts s, is_refreshTokenCache i = Some s -> wo_up w 5%nat = true ->
    mint_from_code (is_minter i) now (wo_jti w) (co_Subject c) (co_ClientID c) (co_Scope c)
      (co_AuthMethod c) (co_IDPClaims c) = Ok ts ->
    exists r s', is_refreshTokenCache (mintTokensFromCode w now c i).2 = Some s' /\
      ms_map s' !! wo_rand w = Some (Marshal r, now + ms_ttl s) /\ rt_IDPClaims r = ∅).
Proof.
  split; [reflexivity|]. split; [reflexivity|]. intros w now c i ts s Hs Hup Hm.
  unfold mintTokensFromCode. rewrite Hm, Hs. unfold createRefreshToken. rewrite Hup.
  eexists _, _. split; [reflexivity|]. split; [|shelve]. cbn. unfold st_set. rewrite lookup_insert_eq.
  unfold expiry_of. simpl. reflexivity.
  Unshelve. reflexivity.
Qed.
