(* ===== verification/Refresh.v ===== *)
(** Refresh-token rotation and revocation (src/internal/auth/exchange.go and
    refreshgrace.go), as the sequence of cache calls each request makes: a
    request is a thread whose program counter stands between two calls, so
    that concurrent redemptions, retries and logouts interleave as they do in
    the program. *)
From S2P Require Import Prelude GoStr Store Deps Claims ApiToken Clients Roles Signer SubjectKind Dcr Consent Mint.
From Stdlib Require Import Ascii.

#[local] Open Scope string_scope.

(** * Constants and data *)

Definition graceReplayAttempts : nat := 10.
Definition graceReplayInterval : Z := 20 * millisecond.
Definition graceFastBailoutAttempts : nat := 3.
Definition refreshRevokeTombstoneTTL : Z := 5 * minute.

Definition refreshRevokeTombstonePrefix : string := "revoked:".
Definition refreshRevokeTombstoneKey (tokenID : string) : string := refreshRevokeTombstonePrefix ++ tokenID.

Record graceRecord := mkGraceRecord {
  gr_ClientID : string;
  gr_Pending : bool;
  gr_TokenSet : TokenSet;
}.

(** How a cache call ends: it succeeds, or fails before or after the cache has
    carried it out. *)
Inductive fault := NoFault | LostRequest | LostReply.

Definition with_fault {V S} (f : fault) (s : S) (r : V * S) : option V * S :=
  match f with
  | NoFault => (Some r.1, r.2)
  | LostRequest => (None, s)
  | LostReply => (None, r.2)
  end.

(** What [RedeemRefreshToken] and [RevokeRefreshToken] return. *)
Definition outcome : Type := TokenSet * option grant_error.

Section Refresh.
Context {St} `{CacheOps St} `{!SubjectKinds} `{!Regexp} `{!JwtClaims} `{!Compaction}
  `{!JSON RefreshTokenClaims} `{!JSON graceRecord}.

(** The configuration of the exchanger. *)
Record RefreshConfig := mkRefreshConfig {
  rc_minter : Minter;
  rc_refreshTTL : Z;
  rc_graceWindow : Z;
  rc_maxSessionAge : Z;
  rc_upstream : bool;
}.

(** The two caches; the grace cache may not be configured. *)
Record shared := mkShared { sh_refresh : St; sh_grace : option St }.

(** What one step meets outside the two caches: how its cache call ends, the
    random text it draws, whether its request was cancelled, and what the
    revocation check, the client lookup, the consent check and the identity
    provider answer. *)
Record answers := mkAnswers {
  an_fault : fault;
  an_rand : string;
  an_cancelled : bool;
  an_revoked : string -> Z -> result grant_error unit;
  an_client : string -> result store_error (option AuthClient);
  an_consent : string -> string -> list string -> option (result store_error bool);
  an_upstream : string -> upstream_answer;
  an_jti : nat -> string;
}.

Implicit Types (cfg : RefreshConfig) (a : answers) (sh : shared).

(** * One redemption *)

(** Between which two cache calls a redemption stands. The flag of the last
    two is whether it stored a successor. *)
Inductive pc :=
| PConsume
| PReplay (attempt : nat) (sawInFlight : bool)
| PRecheck
| PMark (raw : string) (c : RefreshTokenClaims)
| PWork (raw : string) (c : RefreshTokenClaims)
| PRotate (raw : string) (c : RefreshTokenClaims) (ts : TokenSet) (idp : claims) (upstream : string)
| PPublish (c : RefreshTokenClaims) (ts : TokenSet)
| PRestoreCheck (raw : string) (c : RefreshTokenClaims) (r : outcome)
| PRestoreSet (raw : string) (remaining : Z) (r : outcome)
| PClear (rotated : bool) (r : outcome)
| PDone (rotated : bool) (r : outcome).

Definition fail (e : grant_error) : pc := PDone false (emptyTokenSet, Some e).

(** The return of an error once the record is known to parse: the deferred
    function restores on a server error, then clears the marker. *)
Definition reject (raw : string) (c : RefreshTokenClaims) (e : grant_error) : pc :=
  let r := (about (rt_Subject c), Some e) in
  if decide (e = ServerError) then PRestoreCheck raw c r else PClear false r.

(** The consent of a client that needs it; [DCRConsent] may be nil. *)
Definition consent_held a (subject clientID : string) (client : AuthClient) : result grant_error bool :=
  match an_consent a subject clientID (RedirectURIs client) with
  | None => Ok false
  | Some (Err _) => Err ServerError
  | Some (Ok h) => Ok h
  end.

Definition check_client a (c : RefreshTokenClaims) (clientID : string) : result grant_error unit :=
  if String.eqb clientID "" then Ok () else
  match an_client a clientID with
  | Err _ => Err ServerError
  | Ok None => Err (GrantFailure "client is no longer registered")
  | Ok (Some client) =>
      if RequireConsent client then
        held ← consent_held a (rt_Subject c) clientID client;
        if held : bool then Ok ()
        else Err (GrantFailure "the user's consent for this client is not held")
      else Ok ()
  end.

(** The IdP's view of the user, refreshed when the session can be. *)
Definition refreshed_idp cfg a (c : RefreshTokenClaims) : result grant_error (claims * string) :=
  if String.eqb (rt_UpstreamRefreshToken c) "" then Ok (rt_IDPClaims c, rt_UpstreamRefreshToken c) else
  match refreshUpstreamClaims (rc_upstream cfg) (an_upstream a (rt_UpstreamRefreshToken c))
          (rt_Subject c) with
  | Err (UpstreamGrantRevoked detail) =>
      Err (GrantFailure ("the identity provider rejected this session: " ++
        "the upstream refresh grant is no longer valid: " ++ detail))
  | Err UpstreamUnavailable => Ok (rt_IDPClaims c, rt_UpstreamRefreshToken c)
  | Ok refreshed => Ok refreshed
  end.

(** Everything between the marker and the rotation: the token set minted, the
    IdP claims and the upstream token to carry forward. *)
Definition validate cfg (now : Z) a (clientID : string) (c : RefreshTokenClaims)
    : result grant_error (TokenSet * claims * string) :=
  if (rt_ExpiresAt c <? unix now)%Z then Err (GrantFailure "refresh token expired")
  else if ((0 <? rc_maxSessionAge cfg) &&
           (rc_maxSessionAge cfg <? time_sub now (of_unix (rt_OriginalIssuedAt c))))%Z%bool
  then Err (GrantFailure "session absolute timeout reached")
  else
    _ ← an_revoked a (rt_Subject c) (rt_OriginalIssuedAt c);
    if negb (String.eqb (rt_ClientID c) clientID)
    then Err (GrantFailure "refresh token was not issued to this client") else
    _ ← check_client a c clientID;
    '(idp, upstream) ← refreshed_idp cfg a c;
    '(ts, _) ← mintTokensFromSubject (rc_minter cfg) now (an_jti a) (rt_Subject c) (rt_ClientID c)
      (rt_Scope c) (rt_AuthMethod c) idp;
    Ok (ts, idp, upstream).

(** The record of the successor. *)
Definition successor (tokenID : string) (c : RefreshTokenClaims) (idp : claims) (upstream : string)
    : RefreshTokenClaims :=
  mkRefreshClaims (rt_AuthMethod c) (rt_ClientID c) 0 0 (rt_OriginalIssuedAt c) tokenID (rt_Scope c)
    (rt_Subject c) idp upstream.

(** [graceCacheSet]: whether it returned nil. *)
Definition graceCacheSet cfg (now : Z) a (tokenID : string) (rec : graceRecord) sh : bool * shared :=
  match sh_grace sh with
  | None => (true, sh)
  | Some g =>
      let '(r, g) := with_fault (an_fault a) g
        ((), cSet now tokenID (Marshal rec) [WithTTL (rc_graceWindow cfg)] g) in
      (found r, mkShared (sh_refresh sh) (Some g))
  end.

Definition markGraceInFlight cfg now a (tokenID clientID : string) sh : bool * shared :=
  graceCacheSet cfg now a tokenID (mkGraceRecord clientID true emptyTokenSet) sh.

Definition publishToGrace cfg now a (tokenID clientID : string) (ts : TokenSet) sh : bool * shared :=
  graceCacheSet cfg now a tokenID (mkGraceRecord clientID false ts) sh.

Definition graceDelete a (key : string) sh : shared :=
  match sh_grace sh with
  | None => sh
  | Some g => mkShared (sh_refresh sh) (Some (with_fault (an_fault a) g ((), cDelete key g)).2)
  end.

Definition clearGraceInFlight a (tokenID : string) sh : shared := graceDelete a tokenID sh.

(** One attempt of [replayFromGrace]'s loop. *)
Definition replay_attempt (now : Z) a (tokenID clientID : string) (attempt : nat) (saw : bool) sh
    : pc * shared :=
  match sh_grace sh with
  | None => (PRecheck, sh)
  | Some g =>
      let '(v, g) := with_fault (an_fault a) g (cGet now tokenID g) in
      let sh := mkShared (sh_refresh sh) (Some g) in
      let again saw :=
        if (attempt =? graceReplayAttempts - 1)%nat then PRecheck
        else if an_cancelled a then fail ServerError
        else PReplay (S attempt) saw in
      match v with
      | None => (fail ServerError, sh)
      | Some (Some raw) =>
          match Unmarshal raw with
          | None => (fail ServerError, sh)
          | Some rec =>
              if gr_Pending rec then (again true, sh)
              else if negb (String.eqb (gr_ClientID rec) clientID)
              then (PDone false (about (ts_Subject (gr_TokenSet rec)),
                      Some (GrantFailure "refresh token was not issued to this client")), sh)
              else (PDone false (gr_TokenSet rec, None), sh)
          end
      | Some None =>
          if (saw : bool) then (PRecheck, sh)
          else if (attempt =? graceFastBailoutAttempts - 1)%nat then (PRecheck, sh)
          else (again saw, sh)
      end
  end.

Definition set_refresh_cache (s : St) sh : shared := mkShared s (sh_grace sh).

(** [restoreConsumedRefreshToken], up to its write. *)
Definition restore_check (now : Z) a (tokenID : string) (raw : string) (c : RefreshTokenClaims)
    (r : outcome) sh : pc * shared :=
  let '(v, s) := with_fault (an_fault a) (sh_refresh sh)
    (cGet now (refreshRevokeTombstoneKey tokenID) (sh_refresh sh)) in
  let sh := set_refresh_cache s sh in
  match v with
  | Some (Some _) => (PClear false r, sh)
  | _ =>
      let remaining := time_sub (of_unix (rt_ExpiresAt c)) now in
      if (remaining <=? 0)%Z then (PClear false r, sh) else (PRestoreSet raw remaining r, sh)
  end.

(** One step of [RedeemRefreshToken]. *)
Definition redeem_step cfg (now : Z) a (tokenID clientID : string) (p : pc) sh : pc * shared :=
  match p with
  | PConsume =>
      let '(v, s) := with_fault (an_fault a) (sh_refresh sh) (cGetAndDelete now tokenID (sh_refresh sh)) in
      let sh := set_refresh_cache s sh in
      match v with
      | None => (fail ServerError, sh)
      | Some None => (PReplay 0 false, sh)
      | Some (Some raw) =>
          match Unmarshal raw with
          | None => (fail ServerError, sh)
          | Some c => (PMark raw c, sh)
          end
      end
  | PReplay attempt saw => replay_attempt now a tokenID clientID attempt saw sh
  | PRecheck =>
      let '(v, s) := with_fault (an_fault a) (sh_refresh sh) (cGet now tokenID (sh_refresh sh)) in
      (match v with
       | Some (Some _) => fail ServerError
       | _ => fail (GrantFailure "refresh token not found or expired")
       end, set_refresh_cache s sh)
  | PMark raw c => (PWork raw c, (markGraceInFlight cfg now a tokenID (rt_ClientID c) sh).2)
  | PWork raw c =>
      (match validate cfg now a clientID c with
       | Err e => reject raw c e
       | Ok (ts, idp, upstream) => PRotate raw c ts idp upstream
       end, sh)
  | PRotate raw c ts idp upstream =>
      let '(v, s) := with_fault (an_fault a) (sh_refresh sh)
        ((), (createRefreshToken true now (rc_refreshTTL cfg) (an_rand a)
                (successor tokenID c idp upstream) (sh_refresh sh)).2) in
      (match v with
       | None => reject raw c ServerError
       | Some _ => PPublish c (with_refresh (an_rand a) ts)
       end, set_refresh_cache s sh)
  | PPublish c ts =>
      let '(published, sh) := publishToGrace cfg now a tokenID (rt_ClientID c) ts sh in
      ((if published then PDone true (ts, None) else PClear true (ts, None)), sh)
  | PRestoreCheck raw c r => restore_check now a tokenID raw c r sh
  | PRestoreSet raw remaining r =>
      let '(_, s) := with_fault (an_fault a) (sh_refresh sh)
        ((), cSet now tokenID raw [WithTTL remaining] (sh_refresh sh)) in
      (PClear false r, set_refresh_cache s sh)
  | PClear rotated r => (PDone rotated r, clearGraceInFlight a tokenID sh)
  | PDone rotated r => (PDone rotated r, sh)
  end.

(** A redemption on its own, one step per element of the schedule. *)
Fixpoint redeem_run cfg (tokenID clientID : string) (sched : list (Z * answers)) (p : pc) sh
    : pc * shared :=
  match sched with
  | [] => (p, sh)
  | (now, a) :: sched =>
      let '(p, sh) := redeem_step cfg now a tokenID clientID p sh in
      redeem_run cfg tokenID clientID sched p sh
  end.

(** * One revocation *)

(** The error of [RevokeRefreshToken] is that of its first call. *)
Inductive rpc :=
| RConsume
| RTombstone (taken : option string) (failed : bool)
| RGrace (taken : option string) (failed : bool)
| RPredecessor (taken : option string) (failed : bool)
| RDone (failed : bool).

(** [taken] is [None] unless the record was found. *)
Definition revoke_step (now : Z) a (tokenID : string) (p : rpc) sh : rpc * shared :=
  match p with
  | RConsume =>
      let '(v, s) := with_fault (an_fault a) (sh_refresh sh) (cGetAndDelete now tokenID (sh_refresh sh)) in
      (RTombstone (default None v) (negb (found v)), set_refresh_cache s sh)
  | RTombstone taken failed =>
      let '(_, s) := with_fault (an_fault a) (sh_refresh sh)
        ((), cSet now (refreshRevokeTombstoneKey tokenID) "1" [WithTTL refreshRevokeTombstoneTTL]
               (sh_refresh sh)) in
      (match sh_grace sh with None => RDone failed | Some _ => RGrace taken failed end,
       set_refresh_cache s sh)
  | RGrace taken failed => (RPredecessor taken failed, graceDelete a tokenID sh)
  | RPredecessor taken failed =>
      match taken ≫= Unmarshal with
      | Some c =>
          (RDone failed,
           if String.eqb (rt_PredecessorID c) "" then sh else graceDelete a (rt_PredecessorID c) sh)
      | None => (RDone failed, sh)
      end
  | RDone failed => (RDone failed, sh)
  end.

(** * Whole calls *)

(** [RedeemRefreshToken] and [RevokeRefreshToken] without a competitor: each
    runs to its end, which twelve and four steps reach. [sched] is the time and
    the answers of each step; the stores may not be configured. *)
Definition RedeemRefreshToken cfg (sched : nat -> Z * answers) (tokenID clientID : string)
    (sh : option shared) : outcome * option shared :=
  match sh with
  | None => ((emptyTokenSet, Some ServerError), None)
  | Some sh =>
      let '(p, sh) := redeem_run cfg tokenID clientID (sched <$> seq 0 12) PConsume sh in
      (match p with PDone _ r => r | _ => (emptyTokenSet, Some ServerError) end, Some sh)
  end.

Definition RevokeRefreshToken (sched : nat -> Z * answers) (tokenID : string) (sh : option shared)
    : result unit unit * option shared :=
  match sh with
  | None => (Ok (), None)
  | Some sh =>
      let step n '(p, sh) := revoke_step (sched n).1 (sched n).2 tokenID p sh in
      let '(p, sh) := step 3%nat (step 2%nat (step 1%nat (step 0%nat (RConsume, sh)))) in
      (match p with RDone false => Ok () | _ => Err () end, Some sh)
  end.

(** [lookupRefreshClaims]: a read that consumes nothing. *)
Definition lookupRefreshClaims (up : bool) (now : Z) (tokenID : string) sh : option RefreshTokenClaims :=
  if up then peek now tokenID (sh_refresh sh) ≫= Unmarshal else None.

(** * Any number of requests at once *)

Inductive thread :=
| TRedeem (tokenID clientID : string) (p : pc)
| TRevoke (tokenID : string) (p : rpc).

Record system := mkSystem {
  sy_now : Z;
  sy_shared : shared;
  sy_threads : list thread;
  sy_used : gset string;
}.

(** The random text a step draws, if it draws any. *)
Definition draws (t : thread) : bool :=
  match t with TRedeem _ _ (PRotate _ _ _ _ _) => true | _ => false end.

Definition thread_step cfg (now : Z) a (t : thread) sh : thread * shared :=
  match t with
  | TRedeem tokenID clientID p =>
      let '(p, sh) := redeem_step cfg now a tokenID clientID p sh in (TRedeem tokenID clientID p, sh)
  | TRevoke tokenID p =>
      let '(p, sh) := revoke_step now a tokenID p sh in (TRevoke tokenID p, sh)
  end.

(** [rand.Text()] does not repeat itself and emits no colon. *)
Definition fresh (sy : system) (id : string) : Prop :=
  (id ∉ sy_used sy) /\ HasPrefix id refreshRevokeTombstonePrefix = false.

(** The moves of the system: a request arrives, a login stores a new refresh
    token, or one request takes a step, at any later time. *)
Inductive sys_step cfg : system -> system -> Prop :=
| step_arrive_redeem sy tokenID clientID :
    sys_step cfg sy (mkSystem (sy_now sy) (sy_shared sy)
      (sy_threads sy ++ [TRedeem tokenID clientID PConsume]) (sy_used sy))
| step_arrive_revoke sy tokenID :
    sys_step cfg sy (mkSystem (sy_now sy) (sy_shared sy)
      (sy_threads sy ++ [TRevoke tokenID RConsume]) (sy_used sy))
| step_login sy now id c :
    sy_now sy <= now -> fresh sy id ->
    sys_step cfg sy (mkSystem now
      (set_refresh_cache (createRefreshToken true now (rc_refreshTTL cfg) id c
         (sh_refresh (sy_shared sy))).2 (sy_shared sy))
      (sy_threads sy) ({[ id ]} ∪ sy_used sy))
| step_thread sy now a i t t' sh' :
    sy_now sy <= now -> sy_threads sy !! i = Some t ->
    (draws t = true -> fresh sy (an_rand a)) ->
    thread_step cfg now a t (sy_shared sy) = (t', sh') ->
    sys_step cfg sy (mkSystem now sh' (<[i := t']> (sy_threads sy))
      (if draws t then {[ an_rand a ]} ∪ sy_used sy else sy_used sy)).

Definition reachable cfg (init : system) : system -> Prop := rtc (sys_step cfg) init.
End Refresh.
