(* ===== verification/RefreshSpec.v ===== *)
(** What rotation guarantees, whatever requests are made at once and whichever
    of their cache calls fail: a refresh token is rotated at most once, a
    replay hands out only what the one rotation produced, and to its client
    only; and what becomes of a token when a redemption runs on its own. *)
From S2P Require Import Prelude GoStr Store Deps Claims ApiToken Clients Roles Signer SignerSpec SubjectKind IdentitySpec Dcr Consent Mint AuthCode MintSpec Refresh.
From Stdlib Require Import Ascii.

#[local] Open Scope string_scope.

Lemma sum_list_insert {A} (f : A -> nat) (l : list A) i x y :
  l !! i = Some x ->
  (sum_list (f <$> <[i := y]> l) + f x = sum_list (f <$> l) + f y)%nat.
Proof.
  revert i. induction l as [|z l IH]; intros [|i] Hi; csimpl in *; simplify_eq; [lia|].
  specialize (IH i Hi). lia.
Qed.

Lemma sum_list_app (l l' : list nat) : sum_list (l ++ l') = (sum_list l + sum_list l')%nat.
Proof. induction l as [|n l IH]; simpl; [done|]. rewrite IH. lia. Qed.

Lemma sum_list_two {A} (f : A -> nat) (l : list A) i j x y :
  i <> j -> l !! i = Some x -> l !! j = Some y -> (f x + f y <= sum_list (f <$> l))%nat.
Proof.
  revert i j. induction l as [|z l IH]; intros [|i] [|j] Hij Hi Hj; csimpl in *; simplify_eq.
  - assert (f y <= sum_list (f <$> l))%nat; [|lia]. clear -Hj. revert j Hj.
    induction l as [|z l IH]; intros [|j] Hj; csimpl in *; simplify_eq; [lia|]. specialize (IH j Hj). lia.
  - assert (f x <= sum_list (f <$> l))%nat; [|lia]. clear -Hi. revert i Hi.
    induction l as [|z l IH]; intros [|i] Hi; csimpl in *; simplify_eq; [lia|]. specialize (IH i Hi). lia.
  - specialize (IH i j ltac:(lia) Hi Hj). lia.
Qed.

Lemma sum_list_one {A} (f : A -> nat) (l : list A) i x :
  l !! i = Some x -> (f x <= sum_list (f <$> l))%nat.
Proof.
  revert i. induction l as [|z l IH]; intros [|i] Hi; csimpl in *; simplify_eq; [lia|].
  specialize (IH i Hi). lia.
Qed.

Section RefreshSpec.
Context {St} `{CacheOps St} `{!CacheSafe St} `{!SubjectKinds} `{!Regexp} `{!JwtClaims} `{!Compaction}
  `{!JSON RefreshTokenClaims} `{!JSON graceRecord}.

Implicit Types (cfg : RefreshConfig) (a : answers) (sh : shared (St := St)) (sy : system (St := St)).

(** * The weight of a token *)

(** A stored record can be redeemed once; a redemption that holds the record
    can still rotate or restore it; a rotation is spent for good. *)
Definition holds (p : pc) : nat :=
  match p with
  | PConsume | PReplay _ _ | PRecheck => 0
  | PMark _ _ | PWork _ _ | PRotate _ _ _ _ _ | PPublish _ _ | PRestoreCheck _ _ _
  | PRestoreSet _ _ _ => 1
  | PClear rotated _ | PDone rotated _ => if rotated then 1 else 0
  end.

Definition weight (T : string) (t : thread) : nat :=
  match t with
  | TRedeem id _ p => if decide (id = T) then holds p else 0
  | TRevoke _ _ => 0
  end.

Definition present (T : string) sh : nat :=
  match cabs (sh_refresh sh) !! T with Some _ => 1 | None => 0 end.

Definition total (T : string) sy : nat :=
  present T (sy_shared sy) + sum_list (weight T <$> sy_threads sy).

Lemma tombstone_ne T id :
  HasPrefix T refreshRevokeTombstonePrefix = false -> T <> refreshRevokeTombstoneKey id.
Proof.
  intros Hp ->. unfold refreshRevokeTombstoneKey in Hp. by rewrite HasPrefix_append in Hp.
Qed.

(** ** What each cache call does to a token's presence *)

Lemma getdel_fault f now k (s : St) v s' T :
  with_fault f s (cGetAndDelete now k s) = (v, s') ->
  (T <> k -> cabs s' !! T = cabs s !! T) /\
  (cabs s' !! k = cabs s !! k \/ cabs s' !! k = None) /\
  (forall raw, v = Some (Some raw) ->
     cabs s' !! k = None /\ st_get now k (cabs s) = Some raw).
Proof.
  pose proof (cGetAndDelete_val now k s) as Hv. pose proof (cGetAndDelete_abs now k s) as Ha.
  destruct (cGetAndDelete now k s) as [w s0]. simpl in Hv, Ha. unfold st_getdel in Hv, Ha.
  assert ((T <> k -> cabs s0 !! T = cabs s !! T) /\
    (cabs s0 !! k = cabs s !! k \/ cabs s0 !! k = None) /\
    (forall raw, w = Some raw -> cabs s0 !! k = None /\ st_get now k (cabs s) = Some raw)) as (G1 & G2 & G3).
  { destruct (st_get now k (cabs s)) as [raw0|] eqn:Hg; simpl in *; subst w; rewrite Ha.
    - split_and!; [intros; by apply lookup_delete_ne|right; apply lookup_delete_eq|].
      intros raw [= <-]. split; [apply lookup_delete_eq|done].
    - split_and!; [done|by left|done]. }
  destruct f; simpl; intros [= <- <-]; split_and!; try done; [|by left..].
  intros raw [= ->]. by apply G3.
Qed.

Lemma get_fault f now k (s : St) v s' :
  with_fault f s (cGet now k s) = (v, s') ->
  cabs s' = cabs s /\ (forall o, v = Some o -> o = st_get now k (cabs s)).
Proof.
  pose proof (cGet_val now k s) as Hv. pose proof (cGet_abs now k s) as Ha.
  destruct (cGet now k s) as [w s0]. simpl in Hv, Ha.
  destruct f; simpl; intros [= <- <-]; split; try done. intros o [= <-]. done.
Qed.

Lemma set_fault f now k x opts (s : St) v s' T y :
  with_fault f s ((), cSet now k x opts s) = (v, s') ->
  T <> k -> cabs s' !! T = Some y -> cabs s !! T = Some y.
Proof.
  intros Hw Hne. destruct f; simpl in Hw; injection Hw as <- <-; [|done|]; by apply cSet_other.
Qed.

Lemma present_set f now k x opts sh v s' T :
  with_fault f (sh_refresh sh) ((), cSet now k x opts (sh_refresh sh)) = (v, s') ->
  T <> k -> (present T (set_refresh_cache s' sh) <= present T sh)%nat.
Proof.
  intros Hw Hne. unfold present. cbn [sh_refresh set_refresh_cache].
  destruct (cabs s' !! T) as [y|] eqn:Hy; [|lia]. by rewrite (set_fault _ _ _ _ _ _ _ _ _ _ Hw Hne Hy).
Qed.

Lemma graceCacheSet_refresh cfg now a id rec sh :
  sh_refresh (graceCacheSet cfg now a id rec sh).2 = sh_refresh sh.
Proof.
  unfold graceCacheSet. destruct (sh_grace sh); [|done]. by destruct (with_fault _ _ _).
Qed.

Lemma graceDelete_refresh a k sh : sh_refresh (graceDelete a k sh) = sh_refresh sh.
Proof. unfold graceDelete. by destruct (sh_grace sh). Qed.

Lemma reject_holds raw c e : (holds (reject raw c e) <= 1)%nat.
Proof. unfold reject. case_decide; simpl; lia. Qed.

Lemma replay_holds now a id cid n saw sh :
  holds (replay_attempt now a id cid n saw sh).1 = 0%nat /\
  cabs (sh_refresh (replay_attempt now a id cid n saw sh).2) = cabs (sh_refresh sh).
Proof.
  unfold replay_attempt, fail. destruct (sh_grace sh); [|done].
  destruct (with_fault _ _ _) as [v g']. repeat case_match; simpl; done.
Qed.

(** ** One step never adds weight, except to the identifier it draws *)

Lemma redeem_step_weight cfg now a id cid p sh T :
  HasPrefix T refreshRevokeTombstonePrefix = false ->
  (draws (TRedeem id cid p) = true -> T <> an_rand a) ->
  let '(p', sh') := redeem_step cfg now a id cid p sh in
  (present T sh' + weight T (TRedeem id cid p') <= present T sh + weight T (TRedeem id cid p))%nat.
Proof.
  intros Hpre Hdraw. destruct p; cbn [redeem_step weight].
  - (* PConsume *)
    destruct (with_fault _ _ _) as [v s] eqn:Hw.
    destruct (getdel_fault _ _ _ _ _ _ T Hw) as (Hne & Hk & Hsome).
    destruct (decide (id = T)) as [->|Hd].
    + destruct v as [[raw|]|]; [destruct (Hsome raw eq_refl) as [Hn Hg]; destruct (Unmarshal raw)|..];
        cbn [holds fail]; unfold present; cbn [sh_refresh set_refresh_cache].
      1, 2: rewrite Hn; unfold st_get in Hg; destruct (cabs (sh_refresh sh) !! T); [|done]; lia.
      * destruct Hk as [-> | ->]; [|destruct (cabs _ !! T)]; lia.
      * destruct Hk as [-> | ->]; [|destruct (cabs _ !! T)]; lia.
    + assert (present T (set_refresh_cache s sh) = present T sh) as Hp.
      { unfold present. simpl. by rewrite Hne. }
      destruct v as [[raw|]|]; [destruct (Unmarshal raw)|..]; cbn [holds]; lia.
  - (* PReplay *)
    pose proof (replay_holds now a id cid attempt sawInFlight sh) as [Hh Ha].
    destruct (replay_attempt _ _ _ _ _ _ _) as [p' sh']. simpl in *.
    unfold present. rewrite Ha. case_decide; lia.
  - (* PRecheck *)
    destruct (with_fault _ _ _) as [v s] eqn:Hw. destruct (get_fault _ _ _ _ _ _ Hw) as [Ha _].
    unfold present. simpl. rewrite Ha. destruct v as [[]|]; simpl; case_decide; lia.
  - (* PMark *)
    unfold markGraceInFlight, present. rewrite graceCacheSet_refresh. simpl. lia.
  - (* PWork *)
    destruct (validate _ _ _ _ _) as [[[ts idp] up]|e]; [simpl; case_decide; lia|].
    pose proof (reject_holds raw c e). simpl. case_decide; lia.
  - (* PRotate *)
    unfold createRefreshToken. cbn [snd]. destruct (with_fault _ _ _) as [v s] eqn:Hw.
    pose proof (present_set _ _ _ _ _ _ _ _ T Hw (Hdraw eq_refl)) as Hs.
    destruct v; [simpl; case_decide; lia|]. pose proof (reject_holds raw c ServerError).
    simpl. case_decide; lia.
  - (* PPublish *)
    pose proof (graceCacheSet_refresh cfg now a id (mkGraceRecord (rt_ClientID c) false ts) sh) as Hg.
    unfold publishToGrace. destruct (graceCacheSet _ _ _ _ _ _) as [b sh']. simpl in Hg.
    unfold present. rewrite Hg. destruct b; simpl; case_decide; lia.
  - (* PRestoreCheck *)
    unfold restore_check. destruct (with_fault _ _ _) as [v s] eqn:Hw.
    destruct (get_fault _ _ _ _ _ _ Hw) as [Ha _].
    assert (present T (set_refresh_cache s sh) = present T sh) as Hp by (unfold present; simpl; by rewrite Ha).
    destruct v as [[x|]|]; [simpl; case_decide; lia|..]; destruct (_ <=? 0)%Z; simpl; case_decide; lia.
  - (* PRestoreSet *)
    destruct (with_fault _ _ _) as [v s] eqn:Hw.
    pose proof (present_set _ _ _ _ _ _ _ _ T Hw) as Hs. cbn [holds].
    destruct (decide (id = T)) as [->|Hd].
    + unfold present. destruct (_ !! T), (_ !! T); lia.
    + specialize (Hs (not_eq_sym Hd)). lia.
  - (* PClear *)
    unfold clearGraceInFlight, present. rewrite graceDelete_refresh. simpl. lia.
  - (* PDone *)
    simpl. lia.
Qed.

Lemma revoke_step_weight now a id p sh T :
  HasPrefix T refreshRevokeTombstonePrefix = false ->
  (present T (revoke_step now a id p sh).2 <= present T sh)%nat.
Proof.
  intros Hpre. destruct p; cbn [revoke_step].
  - destruct (with_fault _ _ _) as [v s] eqn:Hw. cbn [snd].
    destruct (getdel_fault _ _ _ _ _ _ T Hw) as (Hne & Hk & _). unfold present. simpl.
    destruct (decide (T = id)) as [->|Hd]; [|rewrite Hne by done; lia].
    destruct Hk as [-> | ->]; [lia|]. destruct (cabs (sh_refresh sh) !! id); lia.
  - destruct (with_fault _ _ _) as [v s] eqn:Hw. cbn [snd].
    exact (present_set _ _ _ _ _ _ _ _ T Hw (tombstone_ne T id Hpre)).
  - unfold present. cbn [snd]. rewrite graceDelete_refresh. lia.
  - destruct (taken ≫= Unmarshal) as [c|]; [|simpl; lia]. cbn [snd]. unfold present.
    destruct (String.eqb (rt_PredecessorID c) ""); [lia|]. rewrite graceDelete_refresh. lia.
  - simpl. lia.
Qed.

Lemma thread_step_weight cfg now a t sh t' sh' T :
  thread_step cfg now a t sh = (t', sh') ->
  HasPrefix T refreshRevokeTombstonePrefix = false -> (draws t = true -> T <> an_rand a) ->
  (present T sh' + weight T t' <= present T sh + weight T t)%nat.
Proof.
  intros Hst Hpre Hdraw. destruct t as [id cid p|id p]; cbn [thread_step] in Hst.
  - pose proof (redeem_step_weight cfg now a id cid p sh T Hpre Hdraw) as Hw.
    destruct (redeem_step _ _ _ _ _ _ _) as [p' sh0]. by injection Hst as <- <-.
  - pose proof (revoke_step_weight now a id p sh T Hpre) as Hw.
    destruct (revoke_step _ _ _ _ _) as [p' sh0]. simpl in *. injection Hst as <- <-. simpl. lia.
Qed.

(** * Rotation is single-use *)

(** No token weighs more than one, and what weighs has been drawn. *)
Definition single sy : Prop :=
  forall T, HasPrefix T refreshRevokeTombstonePrefix = false ->
    (total T sy <= 1)%nat /\ ((0 < total T sy)%nat -> T ∈ sy_used sy).

(** A host that starts: no request, and every stored token drawn before. *)
Definition initial sy : Prop :=
  sy_threads sy = [] /\
  (forall T v, cabs (sh_refresh (sy_shared sy)) !! T = Some v -> T ∈ sy_used sy) /\
  (forall g, sh_grace (sy_shared sy) = Some g -> cabs g = ∅).

Lemma present_le T sh : (present T sh <= 1)%nat.
Proof. unfold present. destruct (_ !! T); lia. Qed.

Lemma initial_single sy : initial sy -> single sy.
Proof.
  intros (Hth & Hst & _) T _. unfold total. rewrite Hth. simpl. pose proof (present_le T (sy_shared sy)).
  split; [lia|]. unfold present. destruct (cabs _ !! T) as [v|] eqn:Hv; [|lia]. intros _. by eapply Hst.
Qed.

Lemma total_arrive T sy t :
  weight T t = 0%nat ->
  total T (mkSystem (sy_now sy) (sy_shared sy) (sy_threads sy ++ [t]) (sy_used sy)) = total T sy.
Proof.
  intros Hw. unfold total. cbn [sy_shared sy_threads]. rewrite fmap_app, sum_list_app.
  cbn. rewrite Hw. lia.
Qed.

Lemma step_single cfg sy sy' : sys_step cfg sy sy' -> single sy -> single sy'.
Proof.
  intros Hstep Hs T Hpre. destruct (Hs T Hpre) as [Hle Hused]. destruct Hstep as [sy id cid|sy id|sy now id c Hnow Hfresh|sy now a i t t' sh' Hnow Hi Hdraw Hst].
  - rewrite total_arrive; [done|]. simpl. by case_decide.
  - by rewrite total_arrive.
  - destruct (decide (T = id)) as [->|Hne].
    + assert (total id sy = 0%nat) as Hz.
      { destruct Hfresh as [Hf _]. destruct (decide (total id sy = 0%nat)); [done|]. exfalso. apply Hf, Hused. lia. }
      unfold total in *. cbn [sy_shared sy_threads sy_used].
      pose proof (present_le id (set_refresh_cache
        (createRefreshToken true now (rc_refreshTTL cfg) id c (sh_refresh (sy_shared sy))).2 (sy_shared sy))).
      split; [lia|]. intros _. set_solver.
    + unfold total in *. cbn [sy_shared sy_threads sy_used].
      pose proof (present_set NoFault now id (Marshal (stamp_refresh now (rc_refreshTTL cfg) c)) []
        (sy_shared sy) _ _ T eq_refl Hne) as Hp.
      cbn [createRefreshToken snd] in *. simpl in Hp.
      split; [lia|]. intros Hpos. apply elem_of_union. right. apply Hused. lia.
  - unfold total in *. cbn [sy_shared sy_threads sy_used].
    pose proof (sum_list_insert (weight T) (sy_threads sy) i t t' Hi) as Hsum.
    pose proof (sum_list_one (weight T) (sy_threads sy) i t Hi) as Hone.
    destruct (decide (draws t = true /\ T = an_rand a)) as [[Hd ->]|Hnd].
    + rewrite Hd. destruct (Hdraw Hd) as [Hf _].
      assert (present (an_rand a) (sy_shared sy) + sum_list (weight (an_rand a) <$> sy_threads sy) = 0)%nat
        as Hz.
      { destruct (decide (present (an_rand a) (sy_shared sy) +
          sum_list (weight (an_rand a) <$> sy_threads sy) = 0)%nat); [done|].
        exfalso. apply Hf, Hused. lia. }
      assert (weight (an_rand a) t' = 0%nat) as Hw'.
      { destruct t as [id cid []|]; try done. cbn [thread_step] in Hst.
        destruct (redeem_step _ _ _ _ _ _ _) as [p' sh0]. injection Hst as <- <-.
        simpl in *. case_decide; [|done]. lia. }
      pose proof (present_le (an_rand a) sh'). split; [lia|]. intros _. set_solver.
    + pose proof (thread_step_weight cfg now a t (sy_shared sy) t' sh' T Hst Hpre) as Hw.
      assert (draws t = true -> T <> an_rand a) as Hne by (intros Hd ->; by apply Hnd).
      specialize (Hw Hne). split; [lia|]. intros Hpos.
      assert (T ∈ sy_used sy) as Hin by (apply Hused; lia). destruct (draws t); set_solver.
Qed.

Lemma reachable_single cfg sy sy' : reachable cfg sy sy' -> single sy -> single sy'.
Proof. induction 1 as [|x y z Hxy _ IH]; [done|]. intros Hs. by eapply IH, step_single. Qed.

(** A redemption of [T] that stored a successor. *)
Definition rotated (T : string) (t : thread) : Prop :=
  match t with
  | TRedeem id _ (PClear true _ | PDone true _ | PPublish _ _) => id = T
  | _ => False
  end.

Lemma rotated_weight T t : rotated T t -> weight T t = 1%nat.
Proof.
  destruct t as [id cid p|]; [|done]. destruct p as [| | | | | | | | |[] r|[] r]; simpl; try done;
    intros Heq; by rewrite decide_True.
Qed.

(** C1: a refresh token is rotated at most once, and never comes back. In
    whatever order redemptions, retries, logouts and logins interleave, and
    however their cache calls fail, two different requests never both
    rotate the same token, and once one has, the token is in the store no
    more and no other redemption still holds its record. *)
Theorem refresh_rotates_once cfg sy sy' T i t :
  initial sy -> reachable cfg sy sy' -> HasPrefix T refreshRevokeTombstonePrefix = false ->
  sy_threads sy' !! i = Some t -> rotated T t ->
  (forall j t', sy_threads sy' !! j = Some t' -> rotated T t' -> j = i) /\
  cabs (sh_refresh (sy_shared sy')) !! T = None /\
  (forall j id cid p, sy_threads sy' !! j = Some (TRedeem id cid p) -> id = T -> j <> i -> holds p = 0%nat).
Proof.
  intros Hinit Hreach Hpre Hi Hrot.
  destruct (reachable_single _ _ _ Hreach (initial_single _ Hinit) T Hpre) as [Hle _].
  unfold total in Hle. apply rotated_weight in Hrot as Hw.
  pose proof (sum_list_one (weight T) _ _ _ Hi) as Hone. split_and!.
  - intros j t' Hj Hr'. destruct (decide (j = i)) as [->|Hne]; [done|]. exfalso.
    apply rotated_weight in Hr'. pose proof (sum_list_two (weight T) _ _ _ _ _ Hne Hj Hi). lia.
  - unfold present in Hle. destruct (cabs _ !! T); [lia|done].
  - intros j id cid p Hj -> Hne. pose proof (sum_list_two (weight T) _ _ _ _ _ Hne Hj Hi) as Hs.
    simpl in Hs. rewrite decide_True in Hs by done. lia.
Qed.

(** * A replay is a copy *)

Definition glookup sh (T : string) : option (string * Z) :=
  match sh_grace sh with Some g => cabs g !! T | None => None end.

Lemma graceCacheSet_lookup cfg now a id rec sh T x :
  glookup (graceCacheSet cfg now a id rec sh).2 T = Some x ->
  glookup sh T = Some x \/ (T = id /\ x.1 = Marshal rec).
Proof.
  unfold graceCacheSet, glookup. destruct (sh_grace sh) as [g|] eqn:Hg; [|simpl; by rewrite ?Hg].
  destruct (an_fault a); simpl; [|by left|];
    (destruct (decide (T = id)) as [->|Hne];
      [rewrite cSet_at; intros [= <-]; by right|intros Hx; left; by eapply cSet_other]).
Qed.

Lemma graceDelete_lookup a k sh T x : glookup (graceDelete a k sh) T = Some x -> glookup sh T = Some x.
Proof.
  unfold graceDelete, glookup. destruct (sh_grace sh) as [g|] eqn:Hg; [|simpl; by rewrite ?Hg].
  destruct (an_fault a); simpl; [|done|]; rewrite cDelete_abs; by intros [_ ?]%lookup_delete_Some.
Qed.

Lemma replay_attempt_lookup now a id cid n saw sh T :
  glookup (replay_attempt now a id cid n saw sh).2 T = glookup sh T.
Proof.
  unfold replay_attempt, glookup. destruct (sh_grace sh) as [g|] eqn:Hg; [|simpl; by rewrite Hg].
  destruct (with_fault (an_fault a) g (cGet now id g)) as [v g'] eqn:Hw.
  destruct (get_fault _ _ _ _ _ _ Hw) as [Ha _].
  repeat case_match; simpl in *; simplify_eq; by rewrite Ha.
Qed.

(** The entries of the grace cache are markers and winners' results. *)
Lemma redeem_step_grace cfg now a id cid p sh p' sh' T x :
  redeem_step cfg now a id cid p sh = (p', sh') -> glookup sh' T = Some x ->
  glookup sh T = Some x \/
  (T = id /\ exists raw c, p = PMark raw c /\ x.1 = Marshal (mkGraceRecord (rt_ClientID c) true emptyTokenSet)) \/
  (T = id /\ exists c ts, p = PPublish c ts /\ x.1 = Marshal (mkGraceRecord (rt_ClientID c) false ts) /\
     (p' = PDone true (ts, None) \/ p' = PClear true (ts, None))).
Proof.
  intros Hst Hx. destruct p; cbn [redeem_step] in Hst.
  - destruct (with_fault _ _ _) as [v s]. left.
    destruct v as [[raw|]|]; [destruct (Unmarshal raw)|..]; injection Hst as <- <-; exact Hx.
  - left. rewrite <- (replay_attempt_lookup now a id cid attempt sawInFlight). by rewrite Hst.
  - destruct (with_fault _ _ _) as [v s]. injection Hst as <- <-. by left.
  - injection Hst as <- <-. apply graceCacheSet_lookup in Hx as [Hx|[-> Hx]]; [by left|].
    right; left. eauto.
  - injection Hst as <- <-. by left.
  - destruct (with_fault _ _ _) as [v s]. injection Hst as <- <-. by left.
  - unfold publishToGrace in Hst.
    pose proof (graceCacheSet_lookup cfg now a id (mkGraceRecord (rt_ClientID c) false ts) sh T x) as Hg.
    destruct (graceCacheSet _ _ _ _ _ _) as [b sh0]. injection Hst as <- <-.
    destruct (Hg Hx) as [?|[-> ?]]; [by left|]. right; right. split; [done|].
    exists c, ts. split_and!; [done|done|]. destruct b; [by left|by right].
  - unfold restore_check in Hst. destruct (with_fault _ _ _) as [v s]. left.
    destruct v as [[y|]|]; [|destruct (_ <=? 0)%Z..]; injection Hst as <- <-; exact Hx.
  - destruct (with_fault _ _ _) as [v s]. injection Hst as <- <-. by left.
  - injection Hst as <- <-. left. by apply graceDelete_lookup in Hx.
  - injection Hst as <- <-. by left.
Qed.

Lemma revoke_step_grace now a id p sh T x :
  glookup (revoke_step now a id p sh).2 T = Some x -> glookup sh T = Some x.
Proof.
  destruct p; cbn [revoke_step]; try (destruct (with_fault _ _ _) as [v s]; done); [| |done].
  - apply graceDelete_lookup.
  - destruct (taken ≫= Unmarshal) as [c|]; [|done]. cbn [snd].
    destruct (String.eqb (rt_PredecessorID c) ""); [done|apply graceDelete_lookup].
Qed.

(** A redemption of [T] for client [cid] that rotated it and returned [ts]. *)
Definition won (T cid : string) (ts : TokenSet) (t : thread) : Prop :=
  t = TRedeem T cid (PDone true (ts, None)) \/ t = TRedeem T cid (PClear true (ts, None)).

Definition winner (T cid : string) (ts : TokenSet) sy : Prop :=
  exists j t, sy_threads sy !! j = Some t /\ won T cid ts t.

Definition thread_ok sy (t : thread) : Prop :=
  match t with
  | TRedeem id cid p =>
      match p with
      | PRotate _ c _ _ _ | PPublish c _ => rt_ClientID c = cid
      | PDone false (ts, None) => winner id cid ts sy
      | PClear false (_, None) | PRestoreCheck _ _ (_, None) | PRestoreSet _ _ (_, None) => False
      | _ => True
      end
  | TRevoke _ _ => True
  end.

Definition copies sy : Prop :=
  (forall T x rec, glookup (sy_shared sy) T = Some x -> Unmarshal x.1 = Some rec ->
     gr_Pending rec = false -> winner T (gr_ClientID rec) (gr_TokenSet rec) sy) /\
  (forall i t, sy_threads sy !! i = Some t -> thread_ok sy t).

Context (grace_clean : forall r : graceRecord, clean r).

Lemma validate_client cfg now a cid c r : validate cfg now a cid c = Ok r -> rt_ClientID c = cid.
Proof.
  unfold validate. destruct (_ <? _)%Z; [done|]. destruct (_ && _)%bool; [done|].
  destruct (an_revoked a _ _); [|done]. cbn [mbind result_bind].
  by destruct (String.eqb_spec (rt_ClientID c) cid).
Qed.

Lemma reject_ok sy id cid raw c e : thread_ok sy (TRedeem id cid (reject raw c e)).
Proof. unfold reject. by case_decide. Qed.

(** A step of one request keeps its own program counter in order. *)
Lemma redeem_step_ok cfg now a id cid p sy p' sh' :
  redeem_step cfg now a id cid p (sy_shared sy) = (p', sh') -> copies sy ->
  thread_ok sy (TRedeem id cid p) ->
  match p' with
  | PDone false (ts, None) => winner id cid ts sy
  | PDone true _ | PClear true _ => True
  | _ => thread_ok sy (TRedeem id cid p')
  end.
Proof.
  intros Hst [HG _] Hok. destruct p; cbn [redeem_step] in Hst.
  - destruct (with_fault _ _ _) as [v s].
    destruct v as [[raw|]|]; [destruct (Unmarshal raw)|..]; by injection Hst as <- <-.
  - unfold replay_attempt in Hst. destruct (sh_grace (sy_shared sy)) as [g|] eqn:Hg; [|by injection Hst as <- <-].
    destruct (with_fault (an_fault a) g (cGet now id g)) as [v g'] eqn:Hw.
    destruct (get_fault _ _ _ _ _ _ Hw) as [_ Hv].
    destruct v as [[raw|]|]; [|repeat case_match; by simplify_eq..].
    destruct (Unmarshal raw) as [rec|] eqn:Hu; [|by injection Hst as <- <-].
    destruct (gr_Pending rec) eqn:Hp; [repeat case_match; by simplify_eq|].
    destruct (String.eqb_spec (gr_ClientID rec) cid) as [<-|]; [|by injection Hst as <- <-].
    injection Hst as <- <-. specialize (Hv _ eq_refl). unfold st_get in Hv.
    destruct (cabs g !! id) as [[w e]|] eqn:Hl; simpl in Hv; [|done].
    destruct (after now e); [done|]. injection Hv as ->.
    eapply (HG id (w, e)); [|done|done]. unfold glookup. by rewrite Hg.
  - destruct (with_fault _ _ _) as [v s]. injection Hst as <- <-. by destruct v as [[]|].
  - by injection Hst as <- <-.
  - injection Hst as <- <-. destruct (validate cfg now a cid c) as [[[ts idp] up]|e] eqn:Hv.
    + by apply validate_client in Hv.
    + pose proof (reject_ok sy id cid raw c e) as Hr. unfold reject in *. by case_decide.
  - destruct (with_fault _ _ _) as [v s]. injection Hst as <- <-. by destruct v.
  - destruct (publishToGrace _ _ _ _ _ _ _) as [b sh0]. injection Hst as <- <-. by destruct b.
  - unfold restore_check in Hst. destruct (with_fault _ _ _) as [v s]. destruct r as [ts [e|]]; [|done].
    destruct v as [[y|]|]; [|destruct (_ <=? 0)%Z..]; by injection Hst as <- <-.
  - destruct (with_fault _ _ _) as [v s]. destruct r as [ts [e|]]; [|done]. by injection Hst as <- <-.
  - injection Hst as <- <-. by destruct rotated0, r as [ts [e|]].
  - injection Hst as <- <-. destruct rotated0; [done|]. by destruct r as [ts [e|]].
Qed.

(** A winner stays one. *)
Lemma winner_step cfg sy sy' T cid ts : sys_step cfg sy sy' -> winner T cid ts sy -> winner T cid ts sy'.
Proof.
  intros Hstep (j & w & Hj & Hw).
  destruct Hstep as [sy id c|sy id|sy now id c Hnow Hfresh|sy now a i t t' sh' Hnow Hi Hdraw Hst].
  - exists j, w. split; [|done]. simpl. by apply lookup_app_l_Some.
  - exists j, w. split; [|done]. simpl. by apply lookup_app_l_Some.
  - by exists j, w.
  - destruct (decide (j = i)) as [->|Hne].
    + rewrite Hi in Hj. injection Hj as ->. exists i, t'. split.
      * simpl. apply list_lookup_insert_eq. by eapply lookup_lt_Some.
      * destruct Hw as [-> | ->]; cbn in Hst; injection Hst as <- <-; by left.
    + exists j, w. split; [|done]. simpl. by rewrite list_lookup_insert_ne.
Qed.

Lemma thread_ok_step cfg sy sy' t : sys_step cfg sy sy' -> thread_ok sy t -> thread_ok sy' t.
Proof.
  intros Hstep. destruct t as [id cid p|]; [|done].
  destruct p as [| | | | | | | | | |[] [ts [e|]]]; simpl; try done. by apply winner_step with (1 := Hstep).
Qed.

Lemma glookup_refresh s sh T : glookup (set_refresh_cache s sh) T = glookup sh T.
Proof. done. Qed.

Lemma step_copies cfg sy sy' : sys_step cfg sy sy' -> copies sy -> copies sy'.
Proof.
  intros Hstep Hc. pose proof Hc as [HG HT].
  pose proof (fun T cid ts => winner_step cfg sy sy' T cid ts Hstep) as Hmono.
  pose proof (fun t => thread_ok_step cfg sy sy' t Hstep) as Hok.
  destruct Hstep as [sy id cid|sy id|sy now id c Hnow Hfresh|sy now a i t t' sh' Hnow Hi Hdraw Hst].
  1, 2, 3: split; [intros T x rec Hx Hu Hp; apply Hmono; by apply (HG T x rec)|]; intros i t Ht.
  - cbn [sy_threads] in Ht. apply lookup_app_Some in Ht as [Ht|[_ Ht]]; [by apply Hok, (HT i)|].
    apply list_lookup_singleton_Some in Ht as [_ <-]. done.
  - cbn [sy_threads] in Ht. apply lookup_app_Some in Ht as [Ht|[_ Ht]]; [by apply Hok, (HT i)|].
    apply list_lookup_singleton_Some in Ht as [_ <-]. done.
  - by apply Hok, (HT i).
  - set (sy' := mkSystem _ _ _ _) in *.
    assert (sy_threads sy' !! i = Some t') as Hi'.
    { simpl. apply list_lookup_insert_eq. by eapply lookup_lt_Some. }
    destruct t as [id cid p|id p]; cbn [thread_step] in Hst.
    + destruct (redeem_step cfg now a id cid p (sy_shared sy)) as [p' sh0] eqn:Hred.
      injection Hst as <- <-. split.
      * intros T x rec Hx Hu Hp.
        destruct (redeem_step_grace _ _ _ _ _ _ _ _ _ T x Hred Hx) as
          [Hx'|[(-> & raw & c & -> & Hm)|(-> & c & ts & -> & Hm & Hp')]].
        -- apply Hmono. by apply (HG T x rec).
        -- rewrite Hm, Unmarshal_Marshal in Hu by done. by injection Hu as <-.
        -- rewrite Hm, Unmarshal_Marshal in Hu by done. injection Hu as <-. cbn.
           specialize (HT i _ Hi). cbn in HT. rewrite HT.
           exists i, (TRedeem id cid p'). split; [done|]. destruct Hp' as [-> | ->]; [by left|by right].
      * intros j u Hj. destruct (decide (j = i)) as [->|Hne].
        -- rewrite Hi' in Hj. injection Hj as <-.
           pose proof (redeem_step_ok cfg now a id cid p sy p' sh0 Hred Hc (HT i _ Hi)) as Hp.
           destruct p' as [| | | | | | | | |[] [ts [e|]]|[] [ts [e|]]]; try done; by apply Hmono.
        -- simpl in Hj. rewrite list_lookup_insert_ne in Hj by done. by apply Hok, (HT j).
    + destruct (revoke_step now a id p (sy_shared sy)) as [p' sh0] eqn:Hrev.
      injection Hst as <- <-. split.
      * intros T x rec Hx Hu Hp. apply Hmono. apply (HG T x rec); [|done|done].
        apply (revoke_step_grace now a id p). by rewrite Hrev.
      * intros j u Hj. destruct (decide (j = i)) as [->|Hne].
        -- rewrite Hi' in Hj. by injection Hj as <-.
        -- simpl in Hj. rewrite list_lookup_insert_ne in Hj by done. by apply Hok, (HT j).
Qed.

Lemma initial_copies sy : initial sy -> copies sy.
Proof.
  intros (Hth & _ & Hg). split.
  - intros T x rec Hx. unfold glookup in Hx. destruct (sh_grace (sy_shared sy)) as [g|] eqn:E; [|done].
    by rewrite (Hg g eq_refl), lookup_empty in Hx.
  - intros i t. by rewrite Hth.
Qed.

Lemma reachable_copies cfg sy sy' : reachable cfg sy sy' -> copies sy -> copies sy'.
Proof. induction 1 as [|x y z Hxy _ IH]; [done|]. intros Hs. by eapply IH, step_copies. Qed.

(** C2: a redemption succeeds by rotating the token or by replaying the one
    that did: whatever the interleaving and the faults, a request that
    returned tokens either stored the successor itself, or returned exactly
    the tokens that the one request that rotated this same token, for this
    same client, returned. *)
Theorem replay_copies_winner cfg sy sy' i T cid ts how :
  initial sy -> reachable cfg sy sy' -> HasPrefix T refreshRevokeTombstonePrefix = false ->
  sy_threads sy' !! i = Some (TRedeem T cid (PDone how (ts, None))) ->
  exists j t, sy_threads sy' !! j = Some t /\ won T cid ts t /\
    (forall j' t', sy_threads sy' !! j' = Some t' -> rotated T t' -> j' = j) /\
    (how = true -> j = i).
Proof.
  intros Hinit Hreach Hpre Hi.
  assert (exists j t, sy_threads sy' !! j = Some t /\ won T cid ts t /\ (how = true -> j = i))
    as (j & t & Hj & Hw & Hhow).
  { destruct how; [exists i, (TRedeem T cid (PDone true (ts, None))); split_and!; [done|by left|done]|].
    destruct (reachable_copies _ _ _ Hreach (initial_copies _ Hinit)) as [_ HT].
    destruct (HT i _ Hi) as (j & t & Hj & Hw). by exists j, t. }
  exists j, t. split_and!; [done|done| |done]. intros j' t' Hj' Hr'.
  assert (rotated T t) as Hr by (by destruct Hw as [-> | ->]).
  destruct (reachable_single _ _ _ Hreach (initial_single _ Hinit) T Hpre) as [Hle _].
  unfold total in Hle. apply rotated_weight in Hr, Hr'.
  destruct (decide (j' = j)) as [->|Hne]; [done|].
  pose proof (sum_list_two (weight T) _ _ _ _ _ Hne Hj' Hj). lia.
Qed.

(** * Termination *)

Definition rank (p : pc) : nat :=
  match p with
  | PConsume => 12
  | PReplay n _ => 11 - n
  | PRecheck => 1
  | PMark _ _ => 6
  | PWork _ _ => 5
  | PRotate _ _ _ _ _ => 4
  | PPublish _ _ => 2
  | PRestoreCheck _ _ _ => 3
  | PRestoreSet _ _ _ => 2
  | PClear _ _ => 1
  | PDone _ _ => 0
  end.

Definition in_budget (p : pc) : Prop :=
  match p with PReplay n _ => (n < graceReplayAttempts)%nat | _ => True end.

Lemma reject_rank raw c e : (rank (reject raw c e) <= 3)%nat /\ in_budget (reject raw c e).
Proof. unfold reject. case_decide; simpl; split; done || lia. Qed.

Lemma redeem_step_rank cfg now a id cid p sh :
  in_budget p ->
  let p' := (redeem_step cfg now a id cid p sh).1 in
  (rank p' <= rank p - 1)%nat /\ in_budget p'.
Proof.
  intros Hb. destruct p; cbn [redeem_step].
  - destruct (with_fault _ _ _) as [v s]. destruct v as [[raw|]|]; [destruct (Unmarshal raw)|..];
      simpl; unfold graceReplayAttempts; split; done || lia.
  - unfold replay_attempt. simpl in Hb. assert (attempt < 10)%nat as Hb' by exact Hb.
    assert (forall p, (rank p <= 1)%nat -> in_budget p ->
      (rank p <= rank (PReplay attempt sawInFlight) - 1)%nat /\ in_budget p) as Hsmall.
    { intros p Hp ?. split; [|done]. cbn [rank]. lia. }
    destruct (sh_grace sh); [|by apply Hsmall].
    destruct (with_fault _ _ _) as [v s'].
    assert (forall b, (rank (if (attempt =? graceReplayAttempts - 1)%nat then PRecheck
        else if an_cancelled a then fail ServerError else PReplay (S attempt) b)
        <= rank (PReplay attempt sawInFlight) - 1)%nat /\
      in_budget (if (attempt =? graceReplayAttempts - 1)%nat then PRecheck
        else if an_cancelled a then fail ServerError else PReplay (S attempt) b)) as Hagain.
    { intros b. destruct (Nat.eqb_spec attempt (graceReplayAttempts - 1)) as [_|Hn]; [by apply Hsmall|].
      destruct (an_cancelled a); [apply Hsmall; [cbn; lia|done]|].
      unfold graceReplayAttempts in *. cbn [rank in_budget]. unfold graceReplayAttempts. lia. }
    destruct v as [[raw|]|]; [|destruct sawInFlight; [|destruct (attempt =? graceFastBailoutAttempts - 1)%nat]|];
      cbn [fst]; try (by apply Hsmall; [cbn; lia|done]); [|by apply Hagain].
    destruct (Unmarshal raw) as [rec|]; [|by apply Hsmall; [cbn; lia|done]].
    destruct (gr_Pending rec); [by apply Hagain|].
    destruct (negb _); by apply Hsmall; [cbn; lia|done].
  - destruct (with_fault _ _ _) as [v s]. destruct v as [[]|]; simpl; split; done || lia.
  - simpl. split; [lia|done].
  - destruct (validate cfg now a cid c) as [[[ts idp] up]|e]; [simpl; split; [lia|done]|].
    destruct (reject_rank raw c e). cbn [fst]. split; [simpl; lia|done].
  - destruct (with_fault _ _ _) as [v s]. destruct (reject_rank raw c ServerError).
    destruct v; cbn [fst]; split; simpl in *; done || lia.
  - destruct (publishToGrace _ _ _ _ _ _ _) as [b sh']. destruct b; simpl; split; done || lia.
  - unfold restore_check. destruct (with_fault _ _ _) as [v s].
    destruct v as [[y|]|]; [|destruct (_ <=? 0)%Z..]; simpl; split; done || lia.
  - destruct (with_fault _ _ _) as [v s]. simpl. split; [lia|done].
  - simpl. split; [lia|done].
  - simpl. split; [lia|done].
Qed.

Lemma redeem_run_rank cfg id cid sched : forall p sh,
  in_budget p -> (rank p <= length sched)%nat ->
  exists b r, (redeem_run cfg id cid sched p sh).1 = PDone b r.
Proof.
  induction sched as [|[now a] sched IH]; intros p sh Hb Hr; simpl in Hr; cbn [redeem_run].
  - destruct p; simpl in Hr; try lia; [|by eauto]. simpl in Hb. unfold graceReplayAttempts in Hb. lia.
  - pose proof (redeem_step_rank cfg now a id cid p sh Hb) as [Hr' Hb'].
    destruct (redeem_step cfg now a id cid p sh) as [p' sh']. cbn [fst] in *.
    apply IH; [done|lia].
Qed.

(** C40: every request ends. Whatever the caches answer, and however each call
    fails, a redemption returns within twelve of its own steps, ten of them
    at most polls for a concurrent winner's result, and a logout within
    four. *)
Theorem requests_terminate cfg T cid sched sh now a1 a2 a3 a4 :
  (12 <= length sched)%nat ->
  (exists how r, (redeem_run cfg T cid sched PConsume sh).1 = PDone how r) /\
  (exists failed,
     (let '(p, sh) := revoke_step now a1 T RConsume sh in
      let '(p, sh) := revoke_step now a2 T p sh in
      let '(p, sh) := revoke_step now a3 T p sh in
      revoke_step now a4 T p sh).1 = RDone failed).
Proof.
  intros Hl. split; [by apply redeem_run_rank; [|simpl; lia]|].
  cbn [revoke_step]. destruct (with_fault (an_fault a1) _ _) as [v s]. cbn [revoke_step].
  destruct (with_fault (an_fault a2) _ _) as [v2 s2]. cbn [sh_grace set_refresh_cache].
  destruct (sh_grace sh) as [g|]; cbn [revoke_step]; [|by eexists].
  destruct (default None v ≫= Unmarshal) as [c|]; by eexists.
Qed.

(** * A redemption on its own *)

Definition up a : Prop := an_fault a = NoFault.

Lemma with_up {V S} a (s : S) (r : V * S) : up a -> with_fault (an_fault a) s r = (Some r.1, r.2).
Proof. by intros ->. Qed.

(** Taking a live record: the token is gone, the record is in hand. *)
Lemma consume_live cfg now a T cid sh raw c :
  up a -> st_get now T (cabs (sh_refresh sh)) = Some raw -> Unmarshal raw = Some c ->
  exists s, redeem_step cfg now a T cid PConsume sh = (PMark raw c, set_refresh_cache s sh) /\
    cabs s = delete T (cabs (sh_refresh sh)) /\ cTTL s = cTTL (cGetAndDelete now T (sh_refresh sh)).2.
Proof.
  intros Hu Hl Hc. cbn [redeem_step]. rewrite with_up by done.
  pose proof (cGetAndDelete_val now T (sh_refresh sh)) as Hv.
  pose proof (cGetAndDelete_abs now T (sh_refresh sh)) as Ha.
  unfold st_getdel in *. rewrite Hl in *. simpl in *. rewrite Hv, Hc. eexists. by split_and!.
Qed.

Lemma mark_refresh cfg now a T cid sh raw c :
  exists sh', redeem_step cfg now a T cid (PMark raw c) sh = (PWork raw c, sh') /\
    sh_refresh sh' = sh_refresh sh.
Proof.
  cbn [redeem_step]. eexists. split; [done|]. apply graceCacheSet_refresh.
Qed.

(** A redemption that passes every check rotates the session. On its own,
    with its caches up, it returns the tokens minted with the successor's
    identifier; the token presented is in the store no more; and the
    successor's record carries the session on: the same subject, client,
    scope and method, the moment the session first authenticated, the
    token it replaces, and the provider's claims as refreshed. *)
Theorem rotation_carries_session cfg T cid n0 n1 n2 n3 n4 a0 a1 a2 a3 a4 sh raw c ts idp upstream :
  up a0 -> up a1 -> up a2 -> up a3 -> up a4 ->
  st_get n0 T (cabs (sh_refresh sh)) = Some raw -> Unmarshal raw = Some c -> rt_OriginalIssuedAt c <> 0 ->
  validate cfg n2 a2 cid c = Ok (ts, idp, upstream) -> an_rand a3 <> T ->
  exists sh' rec e,
    redeem_run cfg T cid [(n0, a0); (n1, a1); (n2, a2); (n3, a3); (n4, a4)] PConsume sh =
      (PDone true (with_refresh (an_rand a3) ts, None), sh') /\
    cabs (sh_refresh sh') !! T = None /\
    cabs (sh_refresh sh') !! an_rand a3 = Some (Marshal rec, e) /\
    (forall k x, k <> an_rand a3 -> cabs (sh_refresh sh') !! k = Some x ->
       cabs (sh_refresh sh) !! k = Some x) /\
    rt_Subject rec = rt_Subject c /\ rt_ClientID rec = cid /\ rt_Scope rec = rt_Scope c /\
    rt_AuthMethod rec = rt_AuthMethod c /\ rt_OriginalIssuedAt rec = rt_OriginalIssuedAt c /\
    rt_PredecessorID rec = T /\ rt_IssuedAt rec = unix n3 /\
    rt_ExpiresAt rec = unix (n3 + rc_refreshTTL cfg) /\
    rt_IDPClaims rec = idp /\ rt_UpstreamRefreshToken rec = upstream.
Proof.
  intros U0 U1 U2 U3 U4 Hl Hc Ho Hv Hne.
  destruct (consume_live cfg n0 a0 T cid sh raw c U0 Hl Hc) as (s & Hs & Ha & _).
  destruct (mark_refresh cfg n1 a1 T cid (set_refresh_cache s sh) raw c) as (sh1 & Hm & Hr).
  pose proof (validate_client _ _ _ _ _ _ Hv) as Hcid.
  cbn [redeem_run]. rewrite Hs. cbn [redeem_run]. rewrite Hm. cbn [redeem_run redeem_step].
  rewrite Hv. cbn [redeem_run redeem_step]. rewrite with_up by done.
  cbn [redeem_run redeem_step fst snd].
  set (sh3 := set_refresh_cache _ sh1).
  destruct (publishToGrace cfg n4 a4 T (rt_ClientID c) (with_refresh (an_rand a3) ts) sh3) as [b sh4] eqn:Hp.
  assert (b = true /\ sh_refresh sh4 = sh_refresh sh3) as [-> Hr4].
  { pose proof (graceCacheSet_refresh cfg n4 a4 T (mkGraceRecord (rt_ClientID c) false (with_refresh (an_rand a3) ts)) sh3) as Hg.
    unfold publishToGrace in Hp. rewrite Hp in Hg. split; [|done]. unfold graceCacheSet in Hp.
    destruct (sh_grace sh3); [|by injection Hp as <- _]. rewrite with_up in Hp by done.
    by injection Hp as <- _. }
  exists sh4. rewrite Hr4. unfold sh3. cbn [sh_refresh set_refresh_cache createRefreshToken snd].
  rewrite Hr. cbn [sh_refresh set_refresh_cache].
  exists (stamp_refresh n3 (rc_refreshTTL cfg) (successor T c idp upstream)). eexists.
  split; [done|]. split; [apply cSet_none; [done|]; rewrite Ha; apply lookup_delete_eq|].
  split; [apply cSet_at|]. split.
  { intros k x Hk Hx. apply cSet_other in Hx; [|done]. rewrite Ha in Hx.
    by apply lookup_delete_Some in Hx as [_ ?]. }
  simpl. rewrite (proj2 (Z.eqb_neq _ _)) by done. split_and!; done.
Qed.

Lemma run_done cfg T cid sched b r sh : redeem_run cfg T cid sched (PDone b r) sh = (PDone b r, sh).
Proof. induction sched as [|[now a] sched IH]; [done|]. cbn [redeem_run redeem_step]. exact IH. Qed.

Lemma clear_up cfg now a T cid b r sh :
  up a ->
  exists sh', redeem_step cfg now a T cid (PClear b r) sh = (PDone b r, sh') /\
    sh_refresh sh' = sh_refresh sh /\ glookup sh' T = None.
Proof.
  intros Hu. cbn [redeem_step]. eexists. split; [done|]. split; [apply graceDelete_refresh|].
  unfold clearGraceInFlight, graceDelete, glookup. destruct (sh_grace sh) as [g|] eqn:Hg; [|by rewrite Hg].
  rewrite with_up by done. simpl. rewrite cDelete_abs. apply lookup_delete_eq.
Qed.

(** A refused redemption has the fate its cause deserves. A rejection
    about the grant consumes the token. A failure of the host's own
    infrastructure puts the very record back for its remaining lifetime, no
    longer, so the client can retry, unless a logout left its tombstone
    meanwhile or the record has expired: then it stays consumed. Either way
    the request reports that cause, about the token's subject, no other
    token changes, though one may be evicted to make room, and no marker is left in the grace cache. *)
Theorem refused_redemption_fate cfg T cid n0 n1 n2 n3 n4 n5 a0 a1 a2 a3 a4 a5 sh raw c e :
  up a0 -> up a1 -> up a2 -> up a3 -> up a4 -> up a5 ->
  HasPrefix T refreshRevokeTombstonePrefix = false ->
  st_get n0 T (cabs (sh_refresh sh)) = Some raw -> Unmarshal raw = Some c ->
  validate cfg n2 a2 cid c = Err e ->
  let remaining := time_sub (of_unix (rt_ExpiresAt c)) n3 in
  exists sh',
    redeem_run cfg T cid [(n0, a0); (n1, a1); (n2, a2); (n3, a3); (n4, a4); (n5, a5)] PConsume sh =
      (PDone false (about (rt_Subject c), Some e), sh') /\
    cabs (sh_refresh sh') !! T =
      (if decide (e = ServerError /\ 0 < remaining /\
           st_get n3 (refreshRevokeTombstoneKey T) (cabs (sh_refresh sh)) = None)
       then Some (raw, n4 + remaining) else None) /\
    (forall k x, k <> T -> cabs (sh_refresh sh') !! k = Some x -> cabs (sh_refresh sh) !! k = Some x) /\
    glookup sh' T = None.
Proof.
  intros U0 U1 U2 U3 U4 U5 Hpre Hl Hc Hv remaining.
  destruct (consume_live cfg n0 a0 T cid sh raw c U0 Hl Hc) as (s & Hs & Ha & _).
  destruct (mark_refresh cfg n1 a1 T cid (set_refresh_cache s sh) raw c) as (sh1 & Hm & Hr).
  simpl in Hr. cbn [redeem_run]. rewrite Hs. cbn [redeem_run]. rewrite Hm.
  cbn [redeem_run redeem_step]. rewrite Hv. unfold reject.
  assert (forall k, k <> T -> cabs s !! k = cabs (sh_refresh sh) !! k) as Hother.
  { intros k Hk. rewrite Ha. by apply lookup_delete_ne. }
  assert (forall k x, k <> T -> cabs s !! k = Some x -> cabs (sh_refresh sh) !! k = Some x) as Hkeep.
  { intros k x Hk. by rewrite Hother. }
  assert (cabs s !! T = None) as Hgone by (rewrite Ha; apply lookup_delete_eq).
  destruct (decide (e = ServerError)) as [->|Hne].
  2: { destruct (clear_up cfg n3 a3 T cid false (about (rt_Subject c), Some e) sh1 U3) as (sh2 & Hcl & Hr2 & Hg).
       rewrite Hcl. cbn [redeem_step]. exists sh2. rewrite decide_False by tauto. rewrite Hr2, Hr. by split_and!. }
  cbn [redeem_run redeem_step]. unfold restore_check. rewrite with_up by done.
  pose proof (cGet_val n3 (refreshRevokeTombstoneKey T) (sh_refresh sh1)) as Hval.
  pose proof (cGet_abs n3 (refreshRevokeTombstoneKey T) (sh_refresh sh1)) as Habs.
  destruct (cGet n3 (refreshRevokeTombstoneKey T) (sh_refresh sh1)) as [tomb s2]. simpl in Hval, Habs.
  assert (st_get n3 (refreshRevokeTombstoneKey T) (cabs (sh_refresh sh)) = tomb) as ->.
  { rewrite Hval, Hr. unfold st_get. rewrite Hother; [done|]. apply not_eq_sym, tombstone_ne, Hpre. }
  cbn [fst snd]. rewrite Hr in Habs. destruct tomb as [t|].
  { destruct (clear_up cfg n4 a4 T cid false (about (rt_Subject c), Some ServerError)
      (set_refresh_cache s2 sh1) U4) as (sh2 & Hcl & Hr2 & Hg).
    rewrite Hcl. cbn [redeem_step]. exists sh2. rewrite decide_False by (by intros (_ & _ & ?)).
    rewrite Hr2. simpl. rewrite Habs. by split_and!. }
  fold remaining. destruct (Z.leb_spec remaining 0) as [Hexp|Hlive].
  { destruct (clear_up cfg n4 a4 T cid false (about (rt_Subject c), Some ServerError)
      (set_refresh_cache s2 sh1) U4) as (sh2 & Hcl & Hr2 & Hg).
    rewrite Hcl. cbn [redeem_step]. exists sh2. rewrite decide_False by (intros (_ & ? & _); lia).
    rewrite Hr2. simpl. rewrite Habs. by split_and!. }
  cbn [redeem_run redeem_step]. rewrite with_up by done. cbn [fst snd].
  match goal with |- context [redeem_step _ _ _ _ _ (PClear false ?r) ?sh2] =>
    destruct (clear_up cfg n5 a5 T cid false r sh2 U5) as (sh3 & Hcl & Hr3 & Hg) end.
  rewrite Hcl. exists sh3. split; [done|]. rewrite decide_True by done.
  rewrite Hr3. cbn [sh_refresh set_refresh_cache]. 
  split_and!; [by rewrite cSet_at| |done].
  intros k x Hk Hx. apply cSet_other in Hx; [|done]. rewrite Habs in Hx. by apply Hkeep.
Qed.

(** * Logout *)

(** From [m] on, neither cache holds anything under the token. *)
Definition dead_from (m : Z) (T : string) sh : Prop :=
  (forall t, m <= t -> st_get t T (cabs (sh_refresh sh)) = None) /\ glookup sh T = None.

Lemma dead_run cfg m T cid sched : forall p sh,
  Forall (fun x : Z * answers => m <= x.1) sched -> dead_from m T sh ->
  match p with
  | PConsume | PReplay _ false | PRecheck => True
  | PDone false (_, Some _) => True
  | _ => False
  end ->
  match (redeem_run cfg T cid sched p sh).1 with PDone _ (_, None) => False | _ => True end.
Proof.
  induction sched as [|[now a] sched IH]; intros p sh Hall Hd Hp; cbn [redeem_run].
  { destruct p as [|n []| | | | | | | |b r|[] [ts [e|]]]; done. }
  apply Forall_cons in Hall as [Hm Hall]. simpl in Hm. pose proof Hd as [Href Hgr].
  destruct p as [|n []| | | | | | | |b r|[] [ts [e|]]]; try done; cbn [redeem_step].
  - destruct (with_fault _ _ _) as [v s] eqn:Hw.
    destruct (getdel_fault _ _ _ _ _ _ T Hw) as (_ & Hk & Hsome).
    assert (dead_from m T (set_refresh_cache s sh)) as Hd'.
    { split; [|exact Hgr]. intros t Ht. simpl. unfold st_get.
      destruct Hk as [-> | ->]; [by apply Href|done]. }
    destruct v as [[raw|]|]; [|by apply IH..].
    destruct (Hsome raw eq_refl) as [_ Hl]. by rewrite Href in Hl.
  - unfold replay_attempt. destruct (sh_grace sh) as [g|] eqn:Hg; [|by apply IH].
    destruct (with_fault (an_fault a) g (cGet now T g)) as [v g'] eqn:Hw.
    destruct (get_fault _ _ _ _ _ _ Hw) as [Ha Hv].
    assert (cabs g !! T = None) as Hnone by (unfold glookup in Hgr; by rewrite Hg in Hgr).
    assert (dead_from m T (mkShared (sh_refresh sh) (Some g'))) as Hd'.
    { split; [exact Href|]. unfold glookup. simpl. by rewrite Ha. }
    destruct v as [[raw|]|]; [| |by apply IH].
    { specialize (Hv _ eq_refl). unfold st_get in Hv. by rewrite Hnone in Hv. }
    destruct (n =? graceFastBailoutAttempts - 1)%nat; [by apply IH|].
    destruct (n =? graceReplayAttempts - 1)%nat; [by apply IH|].
    destruct (an_cancelled a); by apply IH.
  - destruct (with_fault _ _ _) as [v s] eqn:Hw. destruct (get_fault _ _ _ _ _ _ Hw) as [Ha Hv].
    apply IH; [done| |by destruct v as [[]|]].
    split; [|exact Hgr]. intros t Ht. simpl. rewrite Ha. by apply Href.
  - by apply IH.
Qed.

(** [RevokeRefreshToken] from its first call to its return. *)
Definition revoke_run (m : Z) a1 a2 a3 a4 (T : string) sh : rpc * shared :=
  let '(p, sh) := revoke_step m a1 T RConsume sh in
  let '(p, sh) := revoke_step m a2 T p sh in
  let '(p, sh) := revoke_step m a3 T p sh in
  revoke_step m a4 T p sh.

Lemma graceDelete_gone a k sh : up a -> glookup (graceDelete a k sh) k = None.
Proof.
  intros Hu. unfold graceDelete, glookup. destruct (sh_grace sh) as [g|] eqn:Hg; [|by rewrite Hg].
  rewrite with_up by done. simpl. rewrite cDelete_abs. apply lookup_delete_eq.
Qed.

Lemma graceDelete_keeps_gone a k k' sh : glookup sh k = None -> glookup (graceDelete a k' sh) k = None.
Proof.
  intros Hn. destruct (glookup (graceDelete a k' sh) k) as [x|] eqn:Hx; [|done].
  apply graceDelete_lookup in Hx. congruence.
Qed.

Lemma revoke_run_state m a1 a2 a3 a4 T sh :
  up a1 -> up a2 -> up a3 -> up a4 ->
  exists sh', revoke_run m a1 a2 a3 a4 T sh = (RDone false, sh') /\
    cabs (sh_refresh sh') !! refreshRevokeTombstoneKey T = Some ("1", m + refreshRevokeTombstoneTTL) /\
    (forall k x, k <> refreshRevokeTombstoneKey T -> cabs (sh_refresh sh') !! k = Some x ->
       (st_getdel m T (cabs (sh_refresh sh))).2 !! k = Some x) /\
    glookup sh' T = None /\
    (forall raw c, st_get m T (cabs (sh_refresh sh)) = Some raw -> Unmarshal raw = Some c ->
       rt_PredecessorID c <> "" -> glookup sh' (rt_PredecessorID c) = None).
Proof.
  intros U1 U2 U3 U4. unfold revoke_run. cbn [revoke_step]. rewrite with_up by done.
  pose proof (cGetAndDelete_val m T (sh_refresh sh)) as Hval.
  pose proof (cGetAndDelete_abs m T (sh_refresh sh)) as Habs.
  destruct (cGetAndDelete m T (sh_refresh sh)) as [taken s]. simpl in Hval, Habs.
  assert (taken = st_get m T (cabs (sh_refresh sh))) as Htaken.
  { rewrite Hval. unfold st_getdel. by destruct (st_get _ _ _). }
  cbn [revoke_step fst snd]. rewrite with_up by done.
  cbn [sh_grace set_refresh_cache sh_refresh fst snd found negb].
  set (s' := cSet m (refreshRevokeTombstoneKey T) "1" [WithTTL refreshRevokeTombstoneTTL] s).
  assert (cabs s' !! refreshRevokeTombstoneKey T = Some ("1", m + refreshRevokeTombstoneTTL) /\
    (forall k x, k <> refreshRevokeTombstoneKey T -> cabs s' !! k = Some x ->
       (st_getdel m T (cabs (sh_refresh sh))).2 !! k = Some x)) as [Hs1 Hs2].
  { split; [apply cSet_at|]. intros k x Hk Hx. rewrite <- Habs. by eapply cSet_other. }
  set (sh2 := set_refresh_cache s' (set_refresh_cache s sh)).
  destruct (sh_grace sh) as [g|] eqn:Hg; cbn [revoke_step].
  - change (default None (Some taken)) with taken. rewrite Htaken.
    destruct (st_get m T (cabs (sh_refresh sh)) ≫= Unmarshal) as [c|] eqn:Hc; cbn [revoke_step].
    + eexists _. split; [done|].
      assert (forall raw c', st_get m T (cabs (sh_refresh sh)) = Some raw -> Unmarshal raw = Some c' ->
        c' = c) as Hsame.
      { intros raw c' Hraw Hu. rewrite Hraw in Hc. simpl in Hc. congruence. }
      destruct (String.eqb_spec (rt_PredecessorID c) "") as [He|Hne]; rewrite ?graceDelete_refresh.
      * split_and!; [done|done|by apply graceDelete_gone|].
        intros raw c' Hraw Hu Hne'. by rewrite (Hsame raw c' Hraw Hu) in Hne'.
      * split_and!; [done|done|by apply graceDelete_keeps_gone, graceDelete_gone|].
        intros raw c' Hraw Hu _. rewrite (Hsame raw c' Hraw Hu). by apply graceDelete_gone.
    + eexists _. split; [done|]. rewrite graceDelete_refresh.
      split_and!; [done|done|by apply graceDelete_gone|].
      intros raw c' Hraw Hu. rewrite Hraw in Hc. simpl in Hc. congruence.
  - exists sh2. split; [done|]. unfold glookup, sh2. simpl. rewrite Hg. by split_and!.
Qed.


(** One step of the [i]th request, when it is there. *)
Definition advance cfg (now : Z) a (i : nat) sy : system :=
  match sy_threads sy !! i with
  | Some t =>
      let '(t', sh') := thread_step cfg now a t (sy_shared sy) in
      mkSystem now sh' (<[i := t']> (sy_threads sy))
        (if draws t then {[ an_rand a ]} ∪ sy_used sy else sy_used sy)
  | None => sy
  end.

Lemma advance_reach cfg now a i sy sy0 :
  reachable cfg sy0 sy -> sy_now sy <= now -> fresh sy (an_rand a) ->
  reachable cfg sy0 (advance cfg now a i sy).
Proof.
  intros Hr Hn Hf. unfold advance. destruct (sy_threads sy !! i) as [t|] eqn:Hi; [|done].
  destruct (thread_step cfg now a t (sy_shared sy)) as [t' sh'] eqn:Hst.
  eapply rtc_r; [exact Hr|]. by eapply step_thread.
Qed.

Definition arrive (T cid : string) sy : system :=
  mkSystem (sy_now sy) (sy_shared sy) (sy_threads sy ++ [TRedeem T cid PConsume]) (sy_used sy).

Lemma arrive_reach cfg T cid sy sy0 : reachable cfg sy0 sy -> reachable cfg sy0 (arrive T cid sy).
Proof. intros Hr. eapply rtc_r; [exact Hr|]. constructor. Qed.
End RefreshSpec.

(** * Witnesses *)

#[local] Existing Instance kindsExample.
#[local] Existing Instance jwtExample.
#[local] Existing Instance compactExample.
#[local] Existing Instance noRegexp.
#[local] Existing Instance refreshJSON.

#[local] Program Instance TokenSet_countable : Countable TokenSet :=
  inj_countable' (fun t => (AccessToken t, IDToken t, RefreshToken t, ts_Scope t, ts_Subject t))
    (fun x => let '(a, i, r, sc, su) := x in mkTokenSet a i r sc su) _.
Next Obligation. by intros []. Qed.

#[local] Instance graceRecord_eq_dec : EqDecision graceRecord.
Proof. solve_decision. Defined.

#[local] Program Instance graceRecord_countable : Countable graceRecord :=
  inj_countable' (fun r => (gr_ClientID r, gr_Pending r, gr_TokenSet r))
    (fun x => let '(c, p, t) := x in mkGraceRecord c p t) _.
Next Obligation. by intros []. Qed.

#[local] Instance graceJSON : JSON graceRecord := jsonExample graceRecord.

Lemma graceJSON_clean (r : graceRecord) : clean r.
Proof. exact I. Qed.

Definition exampleConfig : RefreshConfig := mkRefreshConfig exampleMinter (24 * hour) (10 * second) 0 false.

Definition exampleSession : RefreshTokenClaims :=
  mkRefreshClaims "oidc" "app" 86405 5 5 "T0" "openid" "alice" ∅ "".

Definition exampleShared : shared :=
  mkShared (MapStore (24 * hour) {[ "T1" := (Marshal exampleSession, 86405 * second) ]})
    (Some (emptyStore (10 * second))).

(** Every call succeeds; the client lookup answers [client]. *)
Definition answering (client : result store_error (option AuthClient)) (rnd : string) : answers :=
  mkAnswers NoFault rnd false (fun _ _ => Ok ()) (fun _ => client) (fun _ _ _ => None)
    (fun _ => UpFailure) (fun _ => "jti").

Definition calm (rnd : string) : answers := answering (Ok (Some exampleClient)) rnd.

Definition startSystem : system := mkSystem (6 * second) exampleShared [] {[ "T1"; "T0" ]}.

(** One request rotates T1 into T2, a second one arrives and replays it. *)
Definition rotatedSystem : system :=
  let go i rnd := advance exampleConfig (7 * second) (calm rnd) i in
  go 1%nat "T3" (go 1%nat "T3" (arrive "T1" "app"
    (go 0%nat "T3" (go 0%nat "T2" (go 0%nat "T2" (go 0%nat "T2" (go 0%nat "T2"
      (arrive "T1" "app" startSystem)))))))).

Lemma startSystem_initial : initial startSystem.
Proof.
  split; [done|]. split.
  - intros T v. cbn. intros [<- _]%lookup_singleton_Some. set_solver.
  - by intros g [= <-].
Qed.

Lemma fresh_by_computation (sy : system (St := mapStore)) id :
  bool_decide (id ∈ sy_used sy) = false -> HasPrefix id refreshRevokeTombstonePrefix = false -> fresh sy id.
Proof. intros Hn Hp. split; [|done]. by apply bool_decide_eq_false in Hn. Qed.

#[local] Opaque advance arrive.

Lemma rotatedSystem_reachable : reachable exampleConfig startSystem rotatedSystem.
Proof.
  unfold rotatedSystem.
  repeat (first [apply arrive_reach | apply rtc_refl | apply advance_reach;
    [|vm_compute; discriminate|apply fresh_by_computation; vm_compute; reflexivity]]).
Qed.

#[local] Transparent advance arrive.

Definition firstTokens : TokenSet := mkTokenSet "token" "token" "T2" "openid" "alice".

Lemma rotatedSystem_threads :
  sy_threads rotatedSystem =
    [TRedeem "T1" "app" (PDone true (firstTokens, None)); TRedeem "T1" "app" (PDone false (firstTokens, None))].
Proof. vm_compute. reflexivity. Qed.

Lemma refresh_rotates_once_witness :
  cabs (sh_refresh (sy_shared rotatedSystem)) !! "T1" = None /\
  found (cabs (sh_refresh (sy_shared rotatedSystem)) !! "T2") = true.
Proof.
  split; [|vm_compute; reflexivity].
  destruct (refresh_rotates_once exampleConfig startSystem rotatedSystem "T1" 0
    (TRedeem "T1" "app" (PDone true (firstTokens, None)))) as (_ & Hgone & _).
  - exact startSystem_initial.
  - exact rotatedSystem_reachable.
  - reflexivity.
  - rewrite rotatedSystem_threads. reflexivity.
  - reflexivity.
  - exact Hgone.
Defined.

Lemma replay_copies_winner_witness :
  exists j t, sy_threads rotatedSystem !! j = Some t /\ won "T1" "app" firstTokens t.
Proof.
  destruct (replay_copies_winner graceJSON_clean exampleConfig startSystem rotatedSystem 1 "T1" "app"
    firstTokens false) as (j & t & Hj & Hw & _).
  - exact startSystem_initial.
  - exact rotatedSystem_reachable.
  - reflexivity.
  - rewrite rotatedSystem_threads. reflexivity.
  - exists j, t. split; [exact Hj|exact Hw].
Defined.

Lemma requests_terminate_witness :
  exists how r, (redeem_run exampleConfig "T1" "app" (replicate 12 (7 * second, calm "T2")) PConsume
    exampleShared).1 = PDone how r.
Proof.
  exact (proj1 (requests_terminate exampleConfig "T1" "app" (replicate 12 (7 * second, calm "T2"))
    exampleShared 0 (calm "") (calm "") (calm "") (calm "") ltac:(simpl; lia))).
Defined.

Lemma rotation_carries_session_witness :
  exists sh' rec e,
    cabs (sh_refresh sh') !! "T2" = Some (Marshal rec, e) /\ rt_PredecessorID rec = "T1" /\
    rt_OriginalIssuedAt rec = 5 /\ cabs (sh_refresh sh') !! "T1" = None.
Proof.
  destruct (validate exampleConfig (7 * second) (calm "T2") "app" exampleSession) as [[[ts idp] up]|e] eqn:Hv.
  2: { vm_compute in Hv. discriminate Hv. }
  destruct (rotation_carries_session exampleConfig "T1" "app" (7 * second) (7 * second) (7 * second)
    (7 * second) (7 * second) (calm "T2") (calm "T2") (calm "T2") (calm "T2") (calm "T2") exampleShared
    (Marshal exampleSession) exampleSession ts idp up) as (sh' & rec & e & _ & Hgone & Hnew & _ & _ & _ & _ & _ & Ho & Hp & _).
  1, 2, 3, 4, 5: reflexivity.
  - vm_compute. reflexivity.
  - vm_compute. reflexivity.
  - discriminate.
  - exact Hv.
  - discriminate.
  - exists sh', rec, e. split_and!; [exact Hnew|exact Hp|exact Ho|exact Hgone].
Defined.

(** The client store is down. *)
Definition outage : answers := answering (Err ErrCache) "T2".

Lemma refused_redemption_fate_witness :
  exists sh', cabs (sh_refresh sh') !! "T1" = Some (Marshal exampleSession, 86405 * second) /\
    glookup sh' "T1" = None.
Proof.
  destruct (refused_redemption_fate exampleConfig "T1" "app" (7 * second) (7 * second) (7 * second)
    (7 * second) (7 * second) (7 * second) outage outage outage outage outage outage exampleShared
    (Marshal exampleSession) exampleSession ServerError) as (sh' & _ & HT & _ & Hg).
  1, 2, 3, 4, 5, 6, 7: reflexivity.
  - vm_compute. reflexivity.
  - vm_compute. reflexivity.
  - vm_compute. reflexivity.
  - exists sh'. split; [|exact Hg]. rewrite HT. vm_compute. reflexivity.
Defined.


(** * Findings *)

(** A logout that lands while a redemption holds the record does not end the
    session when that redemption succeeds: the tombstone is read only on the
    way to a restore, so the successor is stored and handed out after the
    logout has returned. *)
Lemma logout_during_rotation_is_lost :
  let held := redeem_run exampleConfig "T1" "app" [(7 * second, calm "T2"); (7 * second, calm "T2")]
    PConsume exampleShared in
  let after := revoke_run (8 * second) (calm "") (calm "") (calm "") (calm "") "T1" held.2 in
  let done := redeem_run exampleConfig "T1" "app"
    [(9 * second, calm "T2"); (9 * second, calm "T2"); (9 * second, calm "T2")] held.1 after.2 in
  after.1 = RDone false /\ done.1 = PDone true (firstTokens, None) /\
  found (peek (10 * second) "T2" (sh_refresh done.2)) = true.
Proof. vm_compute. done. Qed.

(** Presenting the tombstone's own key as a refresh token consumes it, and with
    it the protection of the restore. *)
Lemma tombstone_can_be_redeemed :
  let sh := (revoke_run (7 * second) (calm "") (calm "") (calm "") (calm "") "T1" exampleShared).2 in
  found (peek (8 * second) "revoked:T1" (sh_refresh sh)) = true /\
  let sh' := (redeem_run exampleConfig "revoked:T1" "app" [(8 * second, calm "T2")] PConsume sh).2 in
  found (peek (8 * second) "revoked:T1" (sh_refresh sh')) = false.
Proof. vm_compute. done. Qed.
