(* ===== verification/Login.v ===== *)
(** The flows that authenticate somebody (src/internal/auth/exchange.go): a
    password login, a login at the identity provider, a client's own
    credentials and the exchange of a function access token. *)
From S2P Require Import Prelude GoStr Store Deps Claims ApiToken Clients Roles Signer SubjectKind Dcr Events Mint.
From Stdlib Require Import Ascii.

#[local] Open Scope string_scope.

(** * Constants *)

Definition defaultSessionScopes : list string := ["email"; "entitlements"; "openid"; "profile"; "roles"].
Definition LookupTypeSecret : string := "secret".
Definition CapUsesClaim : string := "kdx_cap".

(** What the browser login at the provider yielded, and an id_token verified:
    its nonce, and its claims unless they do not decode. *)
Record OIDCExchange := mkOIDCExchange { RawIDToken : string; UpstreamRefreshToken : string }.

Record IDToken_ := mkIDToken { it_Nonce : string; it_Claims : option claims }.

(** A flow's answer, and the hooks it called. *)
Definition login_answer : Type := (TokenSet * option grant_error) * list sent.

(** * The payload of an event *)

Definition emptyPayload (event : string) : EventPayload :=
  mkPayload event 0 "" "" "" "" "" "" ∅ [] [] "" "".

Definition loginPayload (event : string) (signingContext : claims)
    (subject clientID scope authMethod : string) : EventPayload :=
  mkPayload event 0 "" subject "" authMethod clientID scope
    (delete "entitlements" (delete "roles" signingContext))
    (strings_or_nil (GetRoles signingContext)) (strings_or_nil (GetEntitlements signingContext)) "" "".

Definition with_login_name (name : string) (p : EventPayload) : EventPayload :=
  mkPayload (ev_Event p) (ev_Timestamp p) (ev_Host p) (ev_Subject p) name (ev_AuthMethod p)
    (ev_ClientID p) (ev_Scope p) (ev_Claims p) (ev_Roles p) (ev_Entitlements p) (ev_SessionID p)
    (ev_Reason p).

Definition failed_login (subject loginName authMethod reason : string) : EventPayload :=
  mkPayload EventLoginFailed 0 "" subject loginName authMethod "" "" ∅ [] [] "" reason.

(** [ErrSubjectNamesClient], as it is worded. *)
Definition names_client_text (key : string) : string :=
  "subject names a client: " ++ quote ++ key ++ quote ++ "; rename the user or the client".

Section Login.
Context {St} `{CacheOps St} `{!SubjectKinds} `{!Regexp} `{!JwtClaims} `{!JwtParser} `{!Compaction}
  `{!Hmac} `{!JSON EventPayload} `{!JSON eventHookResponse} `{!JSON RefreshTokenClaims}
  `{!JSON Client} `{!ParseURL}.

(** What a login reads of the exchanger and its configuration. [ho_keyed] is
    whether there is an active key pair, and [ho_publicKey] its public half; the
    minter's signer was built with its private half, the host's issuer, token
    lifetime and mapper. *)
Record Host := mkHost {
  ho_minter : Minter;
  ho_keyed : bool;
  ho_publicKey : string;
  ho_oidc : bool;
  ho_audience : string;
  ho_dispatcher : option EventDispatcher;
  ho_lookups : list Lookup;
  ho_refreshTTL : Z;
  ho_schemes : list string;
}.

(** What a flow meets outside the host: the hooks' answers, the provider's
    verification of an id_token, whether its cache writes succeed, the text of
    a lookup's error, and what it draws. *)
Record outside := mkOutside {
  ou_post : hook_request -> hook_answer;
  ou_verify : string -> option IDToken_;
  ou_up : nat -> bool;
  ou_mid : St -> St;
  ou_errText : find_error -> string;
  ou_rand : string;
  ou_jti : nat -> string;
}.

Implicit Types (L : Host) (w : outside).

Definition IsM2MEnabled L : bool :=
  (ho_keyed L && bool_decide (ex_Clients (mi_ex (ho_minter L)) <> ∅))%bool.

(** The lookups are asked again when a gate ran, and only then. *)
Definition enrichAfterGate L (signingContext : claims) (subject : string) : claims :=
  if (String.eqb subject "" || negb (HasEnforcingLogin (ho_dispatcher L)))%bool then signingContext
  else mergeBackendClaims signingContext (ex_backend (mi_ex (ho_minter L)) subject).

(** The session's refresh token, when refresh tokens are enabled. *)
Definition session_refresh L w (now : Z) (c : RefreshTokenClaims) (ts : TokenSet)
    (cache : option St) : result unit TokenSet * option St :=
  match cache with
  | None => (Ok ts, None)
  | Some s =>
      let '(r, s) := createRefreshToken (ou_up w 0%nat) now (ho_refreshTTL L) (ou_rand w) c s in
      (match r with Ok id => Ok (with_refresh id ts) | Err _ => Err () end, Some s)
  end.

(** * Password login *)

(** The claims of the credential store, less those only a mint may set. *)
Definition strip_reserved (cs : claims) : claims :=
  filter (fun x => x.1 = "sub" \/ x.1 ∉ reservedMintClaims) cs.

Definition find_class (e : find_error) : grant_error :=
  match e with ErrServerUnavailable _ => ServerError | _ => OtherError end.

(** [LoginLocal], once the subject is known: everything up to the gate. *)
Definition local_context (cs : claims) (authMethod scope : string) : list string * claims :=
  applyScopeFilter
    (<[ClaimSubjectKind := VStr SubjectKindUser]> $ <["auth_method" := VStr authMethod]> $
     strip_reserved cs)
    scope defaultSessionScopes.

(** The gate of a local login: a subject Secret is exempt. *)
Definition local_gate L w (now : Z) (source : string) (p : EventPayload)
    : result string unit * list sent :=
  if String.eqb source LookupTypeSecret then (Ok (), [])
  else GateLogin (ou_post w) now (ho_dispatcher L) p.

(** The mint of a login the gate let through. *)
Definition local_mint L w (now : Z) (clientID authMethod sub : string) (grantedScopes : list string)
    (signingContext : claims) (cache : option St) : (TokenSet * option grant_error) * option St :=
  match sign_pair (ho_minter L) now (ou_jti w) signingContext grantedScopes clientID with
  | Err _ => ((about sub, Some ServerError), cache)
  | Ok (accessToken, idToken) =>
      let scope := Join grantedScopes " " in
      let '(r, cache) := session_refresh L w now
        (mkRefreshClaims authMethod clientID 0 0 0 "" scope sub ∅ "")
        (mkTokenSet accessToken idToken "" scope sub) cache in
      match r with
      | Err _ => ((emptyTokenSet, Some ServerError), cache)
      | Ok ts => ((ts, None), cache)
      end
  end.

Definition LoginLocal L w (now : Z) (username password scope clientID authMethod : string)
    (cache : option St) : login_answer * option St :=
  let d := ho_dispatcher L in
  if negb (ho_keyed L) then (((emptyTokenSet, Some ServerError), []), cache) else
  match FindInternalWithSource (mi_logEnabled (ho_minter L)) (ex_sp (mi_ex (ho_minter L)))
          (ho_lookups L) username password with
  | Err e =>
      (((emptyTokenSet, Some (find_class e)),
        NotifyLoginFailed now d (failed_login username username authMethod (ou_errText w e))), cache)
  | Ok (cs, source) =>
      let sub := match jwtGetSubject cs with Ok s => s | Err _ => "" end in
      if String.eqb sub "" then (((about username, Some ServerError), []), cache) else
      match refuseClientNamedIdentity (mi_ex (ho_minter L)) [sub; username] with
      | Err key =>
          (((about sub, Some OtherError),
            NotifyLoginFailed now d (failed_login sub username authMethod (names_client_text key))),
           cache)
      | Ok _ =>
          if negb (String.eqb authMethod AuthMethodLocal || String.eqb authMethod AuthMethodOAuth2)
          then (((about sub, Some OtherError), []), cache) else
          let '(grantedScopes, signingContext) := local_context cs authMethod scope in
          let payload ctx := with_login_name username
            (loginPayload EventLogin ctx sub clientID (Join grantedScopes " ") authMethod) in
          let '(allowed, gated) := local_gate L w now source (payload signingContext) in
          match allowed with
          | Err reason =>
              (((about sub, Some (GrantFailure ("login denied: " ++ reason))),
                gated ++ NotifyLoginFailed now d (failed_login sub username authMethod reason)), cache)
          | Ok _ =>
              let signingContext :=
                if String.eqb source LookupTypeSecret then signingContext
                else enrichAfterGate L signingContext sub in
              let '(r, cache) :=
                local_mint L w now clientID authMethod sub grantedScopes signingContext cache in
              ((r, gated ++ match r.2 with
                            | None => NotifyLoginSuccess now d (payload signingContext)
                            | Some _ => []
                            end), cache)
          end
      end
  end%list.

(** * Login at the identity provider *)

Definition verifyIDToken L w (rawIDToken : string) : option IDToken_ :=
  if negb (ho_oidc L) then None else ou_verify w rawIDToken.

Definition CheckIDTokenNonce L w (rawIDToken nonce : string) : bool :=
  match verifyIDToken L w rawIDToken with
  | None => false
  | Some t => (negb (String.eqb nonce "") && String.eqb (it_Nonce t) nonce)%bool
  end.

(** The context the provider's claims become before grants are resolved. *)
Definition oidc_claims (asserted : claims) : claims :=
  delete ClaimSubjectKind $ <["auth_method" := VStr AuthMethodOIDC]> $
  <["idp" := VStr "oidc"]> asserted.

Definition oidc_context (kind : string) (roles entitlements : list string) (cs : claims)
    : list string * claims :=
  let cs := <[ClaimSubjectKind := VStr kind]> cs in
  let cs := <["roles" := mergeIDPList (cs !! "roles") roles]> cs in
  let cs := <["entitlements" := mergeIDPList (cs !! "entitlements") entitlements]> cs in
  applyScopeFilter cs "" defaultSessionScopes.

Definition ExchangeToken L w (now : Z) (tokens : OIDCExchange) (cache : option St)
    : login_answer * option St :=
  let d := ho_dispatcher L in
  let refused := (((emptyTokenSet, Some OtherError), []), cache) in
  if negb (ho_oidc L) then refused else
  match verifyIDToken L w (RawIDToken tokens) with
  | None => refused
  | Some t =>
      match it_Claims t with
      | None => refused
      | Some asserted =>
          let cs := oidc_claims asserted in
          let sub := match jwtGetSubject cs with Ok s => s | Err _ => "" end in
          if String.eqb sub "" then refused else
          let idpClaims := idpClaimSnapshot cs in
          let '(bs, named) := userBindingSubject (mi_ex (ho_minter L)) cs sub SiteOIDCLogin in
          match named with
          | Err key =>
              (((about sub, Some OtherError),
                NotifyLoginFailed now d (failed_login sub "" AuthMethodOIDC (names_client_text key))),
               cache)
          | Ok _ =>
              let '(roles, entitlements) :=
                resolveBindings (mi_logEnabled (ho_minter L)) (ex_sp (mi_ex (ho_minter L))) bs in
              let '(grantedScopes, signingContext) :=
                oidc_context (bs_Kind bs) roles entitlements cs in
              let grantedScope := Join grantedScopes " " in
              let payload ctx := loginPayload EventLogin ctx sub "" grantedScope AuthMethodOIDC in
              let '(allowed, gated) := GateLogin (ou_post w) now d (payload signingContext) in
              match allowed with
              | Err reason =>
                  (((about sub, Some (GrantFailure ("login denied: " ++ reason))),
                    gated ++ NotifyLoginFailed now d (failed_login sub "" AuthMethodOIDC reason)),
                   cache)
              | Ok _ =>
                  let signingContext := enrichAfterGate L signingContext sub in
                  match SignScoped (mi_signer (ho_minter L)) now (ou_jti w 0%nat) signingContext
                          grantedScopes with
                  | Err _ => (((emptyTokenSet, Some OtherError), gated), cache)
                  | Ok accessToken =>
                      let '(r, cache) := session_refresh L w now
                        (mkRefreshClaims AuthMethodOIDC "" 0 0 0 "" grantedScope sub idpClaims
                           (UpstreamRefreshToken tokens))
                        (mkTokenSet accessToken "" "" grantedScope sub) cache in
                      match r with
                      | Err _ => (((about sub, Some OtherError), gated), cache)
                      | Ok ts =>
                          (((ts, None), gated ++ NotifyLoginSuccess now d (payload signingContext)),
                           cache)
                      end
                  end
              end
          end
      end
  end%list.

(** * A client's own credentials *)

(** [clientSigningContextFailure]: the error, and whether the client had
    authenticated. *)
Record context_failure := mkFailure { cf_err : grant_error; cf_vouched : bool }.

(** The scopes granted: all those requested, each allowed; or the first that
    is not. *)
Fixpoint client_scopes (allowed : list string) (requested : list string) : result string (list string) :=
  match requested with
  | [] => Ok []
  | s :: requested =>
      if String.eqb s "" then client_scopes allowed requested
      else if (bool_decide (allowed <> []) && negb (contains_elem allowed s))%bool then Err s
      else rest ← client_scopes allowed requested; Ok (s :: rest)
  end.

(** The signing context, once the client has authenticated. *)
Definition client_context L (clientID : string) (grantedScopes : list string) : claims :=
  let signingContext : claims :=
    <["sub" := VStr clientID]> $ <["azp" := VStr clientID]> $
    <["auth_method" := VStr AuthMethodOAuth2]> $
    <["grant_type" := VStr GRANT_TYPE_CLIENT_CREDENTIALS]> $
    {[ ClaimSubjectKind := VStr (bs_Kind (clientBindingSubject clientID)) ]} in
  let scope := Join grantedScopes " " in
  let signingContext :=
    if String.eqb scope "" then signingContext else <["scope" := VStr scope]> signingContext in
  let want family := (bool_decide (grantedScopes = []) || contains_elem grantedScopes family)%bool in
  let '(roles, entitlements) := resolveBindings (mi_logEnabled (ho_minter L))
    (ex_sp (mi_ex (ho_minter L))) (clientBindingSubject clientID) in
  let signingContext :=
    if want "roles" then <["roles" := VStrs roles]> signingContext else signingContext in
  if want "entitlements" then <["entitlements" := VStrs entitlements]> signingContext else signingContext.

Definition buildClientSigningContext L w (now : Z) (clientID clientSecret scope : string)
    (store : option (DCRStore St)) : result context_failure (claims * string) * option (DCRStore St) :=
  if negb (IsM2MEnabled L) then (Err (mkFailure ServerError false), store) else
  let '(r, store) := LookupClient (ou_up w) now (ex_Clients (mi_ex (ho_minter L))) (ho_schemes L)
    (ou_mid w) clientID store in
  (match r with
   | Err _ => Err (mkFailure ServerError false)
   | Ok None => Err (mkFailure OtherError false)
   | Ok (Some client) =>
       if negb (String.eqb (ClientSecret client) clientSecret) then Err (mkFailure OtherError false) else
       match client_scopes (AllowedScopes client) (Split " "%char scope) with
       | Err _ => Err (mkFailure OtherError true)
       | Ok grantedScopes => Ok (client_context L clientID grantedScopes, Join grantedScopes " ")
       end
   end, store).

Definition clientTokenSetForContextFailure (clientID : string) (f : context_failure)
    : TokenSet * option grant_error :=
  (if cf_vouched f then about clientID else emptyTokenSet, Some (cf_err f)).

(** The answer of a client's mint: no refresh token is issued. *)
Definition client_tokens (clientID grantedScope : string) (signed : result sign_error string)
    : TokenSet * option grant_error :=
  match signed with
  | Err _ => (about clientID, Some ServerError)
  | Ok accessToken => (mkTokenSet accessToken "" "" grantedScope clientID, None)
  end.

Definition LoginClient L w (now : Z) (clientID clientSecret scope : string)
    (store : option (DCRStore St)) : (TokenSet * option grant_error) * option (DCRStore St) :=
  let '(r, store) := buildClientSigningContext L w now clientID clientSecret scope store in
  (match r with
   | Err f => clientTokenSetForContextFailure clientID f
   | Ok (signingContext, grantedScope) =>
       client_tokens clientID grantedScope
         (Sign (mi_signer (ho_minter L)) now (ou_jti w 0%nat) signingContext)
   end, store).

(** The signer of another audience, of the same host. *)
Definition resource_signer L (targetAudience : string) : result sign_error Signer :=
  let s := mi_signer (ho_minter L) in
  NewSigner targetAudience (duration s) (issuer s) (Some (privateKey s)) (kid s) (mapper s).

Definition LoginClientResource L w (now : Z) (clientID clientSecret scope targetAudience : string)
    (store : option (DCRStore St)) : (TokenSet * option grant_error) * option (DCRStore St) :=
  let '(r, store) := buildClientSigningContext L w now clientID clientSecret scope store in
  (match r with
   | Err f => clientTokenSetForContextFailure clientID f
   | Ok (signingContext, grantedScope) =>
       client_tokens clientID grantedScope
         (signer ← resource_signer L targetAudience; Sign signer now (ou_jti w 0%nat) signingContext)
   end, store).

(** * The exchange of a function access token (RFC 8693) *)

(** What makes a verified subject_token a function access token: one audience,
    not the host's, on a token that is neither a capability nor a client's
    own. The audience is the calling function. *)
Definition fat_audience L (cs : claims) : result grant_error string :=
  if bool_claim cs CapUsesClaim then Err OtherError
  else if String.eqb (str_claim cs "grant_type") GRANT_TYPE_CLIENT_CREDENTIALS then Err OtherError
  else if String.eqb (ho_audience L) "" then Err ServerError
  else match (match jwtGetAudience cs with Ok auds => auds | Err _ => [] end) with
       | [aud] => if String.eqb aud (ho_audience L) then Err OtherError else Ok aud
       | _ => Err OtherError
       end.

(** The context signed for the target. *)
Definition exchange_context (sub kind actorAud : string) (roles entitlements : list string)
    (backend : claims) : claims :=
  let signingContext : claims :=
    <["sub" := VStr sub]> $ <["roles" := VStrs roles]> $ <["entitlements" := VStrs entitlements]> $
    {[ ClaimSubjectKind := VStr kind ]} in
  let signingContext :=
    if String.eqb actorAud "" then signingContext
    else <["act" := VObj [("sub", VStr actorAud)]]> signingContext in
  mergeBackendClaims signingContext backend.

Definition ExchangeSubjectToken L w (now : Z) (subjectToken targetAudience : string)
    : TokenSet * option grant_error :=
  let refused e := (emptyTokenSet, Some e) in
  if negb (ho_keyed L) then refused ServerError else
  match ParseWithClaims (ho_publicKey L) [WithIssuer (issuer (mi_signer (ho_minter L))); WithExpirationRequired]
          now subjectToken with
  | Err _ => refused OtherError
  | Ok cs =>
      let e := mi_ex (ho_minter L) in
      let sub := match jwtGetSubject cs with Ok s => s | Err _ => "" end in
      if String.eqb sub "" then refused OtherError else
      match fat_audience L cs with
      | Err err => refused err
      | Ok actorAud =>
          let kind := ContextSubjectKind e cs in
          match VetoCredential e sub kind (issuedAtOf cs) SiteTokenExchange with
          | Err _ => refused OtherError
          | Ok _ =>
              let '(roles, entitlements, backend) :=
                subjectSigningContext (ho_minter L) sub (mkSubject sub kind SiteTokenExchange) in
              match (signer ← resource_signer L targetAudience;
                     Sign signer now (ou_jti w 0%nat)
                       (exchange_context sub kind actorAud roles entitlements backend)) with
              | Err _ => refused ServerError
              | Ok accessToken => (mkTokenSet accessToken "" "" "" sub, None)
              end
          end
      end
  end.
End Login.
Arguments outside St : clear implicits.
