(* ===== verification/LoginSpec.v ===== *)
(** What the login hooks and the flows of Login guarantee: who gets a session,
    what is signed for it, and what a refusal leaves behind. *)
From S2P Require Import Prelude GoStr Store Deps Claims ApiToken Clients Roles Signer SubjectKind Dcr Events Mint Login.
From S2P Require Import SignerSpec IdentitySpec DcrSpec MintSpec.
From Stdlib Require Import Ascii.

#[local] Open Scope string_scope.

(** * The gate *)

Section Gate.
Context `{!Hmac} `{!JSON EventPayload} `{!JSON eventHookResponse}.

Implicit Types (post : hook_request -> hook_answer) (h : httpEventHook) (p : EventPayload).

(** A hook lets a login through: it answered ok, or it did not answer and fails
    open. *)
Definition lets_through post (now : Z) p h : Prop :=
  match call post now h p with
  | Ok (ok, _) => ok = true
  | Err _ => hk_failureMode h = FailOpen
  end.

(** What [GateLogin] asks, in the order it asks. *)
Definition asked (d : option EventDispatcher) : list httpEventHook :=
  match d with None => [] | Some d => selecting d EventLogin true end.

Definition told (now : Z) (d : option EventDispatcher) p : EventPayload :=
  match d with None => p | Some d => stamped d now p end.

Lemma gate_hooks_spec post now p hooks : forall r s,
  gate_hooks post now hooks p = (r, s) ->
  (r = Ok () /\ Forall (lets_through post now p) hooks /\ s = fireAsync p hooks) \/
  (exists before h after_ reason, hooks = (before ++ h :: after_)%list /\
     Forall (lets_through post now p) before /\ ~ lets_through post now p h /\
     r = Err (denied reason) /\ s = fireAsync p (before ++ [h])).
Proof.
  induction hooks as [|h hooks IH]; intros r s; cbn [gate_hooks].
  { intros [= <- <-]. left. split_and!; [done|constructor|done]. }
  destruct (gate_hooks post now hooks p) as [r' s'] eqn:Hg.
  assert (lets_through post now p h -> (r', (h, p) :: s') = (r, s) ->
    (r = Ok () /\ Forall (lets_through post now p) (h :: hooks) /\ s = fireAsync p (h :: hooks)) \/
    (exists before h' after_ reason, h :: hooks = (before ++ h' :: after_)%list /\
       Forall (lets_through post now p) before /\ ~ lets_through post now p h' /\
       r = Err (denied reason) /\ s = fireAsync p (before ++ [h']))) as Hon.
  { intros Hh [= <- <-]. destruct (IH _ _ eq_refl) as [(-> & Hf & ->)|(b & h' & a & why & -> & Hf & Hn & -> & ->)].
    - left. split_and!; [done|by constructor|done].
    - right. exists (h :: b), h', a, why. split_and!; try done; by constructor. }
  assert (forall why, ~ lets_through post now p h -> (Err (denied why), [(h, p)]) = (r, s) ->
    exists before h' after_ reason, h :: hooks = (before ++ h' :: after_)%list /\
       Forall (lets_through post now p) before /\ ~ lets_through post now p h' /\
       r = Err (denied reason) /\ s = fireAsync p (before ++ [h'])) as Hoff.
  { intros why Hn [= <- <-]. exists [], h, hooks, why. split_and!; done. }
  unfold lets_through in Hon, Hoff. destruct (call post now h p) as [[[] why]|e].
  - intros Heq. by apply Hon.
  - intros Heq. right. by eapply Hoff.
  - destruct (String.eqb_spec (hk_failureMode h) FailOpen) as [Hf|Hf]; intros Heq; [by apply Hon|].
    right. by eapply Hoff.
Qed.

Lemma GateLogin_spec post now d p r s :
  GateLogin post now d p = (r, s) ->
  (r = Ok () /\ Forall (lets_through post now (told now d p)) (asked d) /\
     s = fireAsync (told now d p) (asked d)) \/
  (exists before h after_ reason, asked d = (before ++ h :: after_)%list /\
     Forall (lets_through post now (told now d p)) before /\
     ~ lets_through post now (told now d p) h /\
     r = Err (denied reason) /\ s = fireAsync (told now d p) (before ++ [h])).
Proof.
  destruct d as [d|]; simpl; [apply gate_hooks_spec|].
  intros [= <- <-]. left. split_and!; [done|constructor|done].
Qed.

Lemma GateLogin_Ok post now d p s :
  GateLogin post now d p = (Ok (), s) -> Forall (lets_through post now (told now d p)) (asked d).
Proof. intros [(_ & Hf & _)|(? & ? & ? & ? & _ & _ & _ & [=] & _)]%GateLogin_spec. exact Hf. Qed.

Lemma asked_sorted host hooks :
  StronglySorted hook_le (asked (Some (NewEventDispatcher host hooks))) /\
  (forall h, h ∈ asked (Some (NewEventDispatcher host hooks)) <->
     h ∈ hooks /\ EventLogin ∈ hk_events h /\ hk_mode h = ModeEnforcing).
Proof.
  split.
  - simpl. unfold selecting. simpl.
    assert (forall l (P : httpEventHook -> Prop) `{forall x, Decision (P x)},
      StronglySorted hook_le l -> StronglySorted hook_le (filter P l)) as Hfilter.
    { intros l P HP. induction 1 as [|h l Hl IH Hall]; [constructor|].
      rewrite filter_cons. case_decide; [|done]. constructor; [done|].
      rewrite Forall_forall in Hall |- *. intros x [_ Hx]%list_elem_of_filter. by apply Hall. }
    apply Hfilter. apply StronglySorted_merge_sort.
    + intros x y z Hxy Hyz. exact (string_le_trans _ _ _ Hxy Hyz).
    + intros x y. apply (string_le_total (hk_name x)).
  - intros h. simpl. unfold selecting. rewrite list_elem_of_filter. simpl.
    rewrite (merge_sort_Permutation hook_le hooks). unfold enforcingFor.
    rewrite contains_elem_spec, andb_true_iff, String.eqb_eq. split.
    + intros [[He [Hm _]] Hin]. done.
    + intros (Hin & He & Hm). split_and!; done.
Qed.

(** An enforcing login hook is a gate nobody walks around. Whatever hooks a
    host declares, a login is let through exactly when every hook that lists
    the login event in enforcing mode let it through, which a hook that cannot
    be reached does only if it was declared fail-open; they are asked in the
    order of their names, each told the same stamped payload, and the first
    refusal ends the round, so that no later hook hears of a login refused. *)
Theorem gate_unanimous post now host hooks p :
  let '(r, calls) := GateLogin post now (Some (NewEventDispatcher host hooks)) p in
  let p := set_timestamp (unix_milli now) (set_host host p) in
  exists gate,
    StronglySorted hook_le gate /\
    (forall h, h ∈ gate <-> h ∈ hooks /\ EventLogin ∈ hk_events h /\ hk_mode h = ModeEnforcing) /\
    (r = Ok () <-> Forall (lets_through post now p) gate) /\
    (r = Ok () -> calls = fireAsync p gate) /\
    (r <> Ok () -> exists before h after_, gate = (before ++ h :: after_)%list /\
       Forall (lets_through post now p) before /\ ~ lets_through post now p h /\
       calls = fireAsync p (before ++ [h])).
Proof.
  destruct (GateLogin _ _ _ _) as [r calls] eqn:Hg. cbn zeta.
  destruct (asked_sorted host hooks) as [Hsort Hin].
  exists (asked (Some (NewEventDispatcher host hooks))). split; [exact Hsort|]. split; [exact Hin|].
  destruct (GateLogin_spec _ _ _ _ _ _ Hg)
    as [(-> & Hf & ->)|(before & h & after_ & why & He & Hf & Hn & -> & ->)].
  - split_and!; done.
  - split_and!; [|done|].
    + split; [done|]. intros Hall. exfalso. rewrite He in Hall.
      apply Forall_app in Hall as [_ Hall]. by inversion Hall.
    + intros _. by exists before, h, after_.
Qed.

(** * What a hook's Secret must say *)

Lemma parse_events_spec toks : forall acc events,
  parse_events toks acc = Ok events ->
  (forall e, e ∈ events <-> e ∈ acc \/ (exists tok, tok ∈ toks /\ TrimSpace tok = e /\ e <> "")) /\
  (forall e, e ∈ events -> (e ∈ acc) \/ knownEvent e = true).
Proof.
  induction toks as [|tok toks IH]; intros acc events; cbn [parse_events].
  { intros [= <-]. split; [|by left]. intros e. split; [by left|].
    intros [?|(x & Hx & _)]; [done|]. by apply elem_of_nil in Hx. }
  destruct (String.eqb_spec (TrimSpace tok) "") as [He|He].
  { intros Hp. destruct (IH _ _ Hp) as [Hiff Hk]. split; [|done]. intros e. rewrite Hiff. split.
    - intros [?|(x & Hx & Ht)]; [by left|]. right. exists x. split; [by right|done].
    - intros [?|(x & [->|Hx]%elem_of_cons & Ht & Hne)]; [by left| |right; eauto]. congruence. }
  destruct (knownEvent (TrimSpace tok)) eqn:Hkn; [|done]. cbn [negb]. intros Hp.
  destruct (IH _ _ Hp) as [Hiff Hk].
  assert (forall e, e ∈ (if contains_elem acc (TrimSpace tok) then acc else (acc ++ [TrimSpace tok])%list)
    <-> e ∈ acc \/ e = TrimSpace tok) as Hacc.
  { intros e. destruct (contains_elem acc (TrimSpace tok)) eqn:Hc.
    - apply contains_elem_spec in Hc. split; [by left|]. by intros [?| ->].
    - by rewrite elem_of_app, list_elem_of_singleton. }
  split.
  - intros e. rewrite Hiff, Hacc. split.
    + intros [[?| ->]|(x & Hx & Ht)]; [by left| |].
      * right. exists tok. split; [left|done].
      * right. exists x. split; [by right|done].
    + intros [?|(x & [->|Hx]%elem_of_cons & Ht & Hne)]; [by do 2 left|left; by right|right; eauto].
  - intros e Hin. destruct (Hk e Hin) as [[?| ->]%Hacc|?]; [by left|by right|by right].
Qed.

Lemma data_of_Some data k v : v <> "" -> data_of data k = v <-> data !! k = Some v.
Proof.
  intros Hv. unfold data_of. destruct (data !! k) as [x|]; simpl; [|split; [by intros <-|done]].
  split; [by intros ->|by intros [= ->]].
Qed.

Lemma parse_choice_spec data k dflt a b v :
  parse_choice (data_of data k) dflt a b = Ok v ->
  (v = dflt \/ v = a \/ v = b) /\
  (forall x, x ∈ [a; b] -> x <> "" -> x <> dflt -> v = x <-> data !! k = Some x).
Proof.
  unfold parse_choice. destruct (String.eqb_spec (data_of data k) "") as [He|He].
  - intros [= <-]. split; [by left|]. intros x _ Hx Hd. split; [by intros ->|].
    intros Hk%data_of_Some; [|done]. congruence.
  - destruct (_ || _)%bool eqn:Ho; [|done]. intros [= <-]. split.
    + right. by apply orb_true_iff in Ho as [?%String.eqb_eq|?%String.eqb_eq]; [left|right].
    + intros x _ Hx _. by apply data_of_Some.
Qed.

(** The configuration of a hook is read strictly. A Secret that becomes a
    hook names a URL, shares a secret of at least 32 bytes, lists at least one
    event and only known ones, with nothing dropped or invented; its mode is
    advisory or enforcing, advisory when unset; and unless it says fail-open,
    word for word, its failure mode is one under which a silent hook
    denies. *)
Theorem hook_config_strict name data h :
  NewHTTPEventHook name data = Ok h ->
  hk_name h = name /\ data !! "url" = Some (hk_url h) /\ hk_url h <> "" /\
  data !! "shared-secret" = Some (hk_sharedSecret h) /\
  (32 <= String.length (hk_sharedSecret h))%nat /\
  hk_events h <> [] /\
  (forall e, e ∈ hk_events h -> knownEvent e = true) /\
  (forall e, e ∈ hk_events h <-> e <> "" /\ exists tok,
     tok ∈ Split ","%char (data_of data "events") /\ TrimSpace tok = e) /\
  (hk_mode h = ModeAdvisory \/ hk_mode h = ModeEnforcing) /\
  (hk_mode h = ModeEnforcing <-> data !! "mode" = Some ModeEnforcing) /\
  (hk_failureMode h = FailOpen <-> data !! "failure-mode" = Some FailOpen).
Proof.
  unfold NewHTTPEventHook. intros Hh.
  destruct (String.eqb_spec (data_of data "url") "") as [|Hurl]; [done|].
  destruct (Nat.ltb_spec (String.length (data_of data "shared-secret")) minSharedSecretBytes) as [|Hlen];
    [done|].
  destruct (parse_events _ _) as [events|] eqn:Hev; [|done]. cbn [mbind result_bind] in Hh.
  destruct (parse_events_spec _ _ _ Hev) as [Hiff Hknown].
  destruct events as [|e0 events]; [done|].
  destruct (parse_choice (data_of data "mode") _ _ _) as [mode|] eqn:Hmode; [|done].
  cbn [mbind result_bind] in Hh.
  destruct (parse_choice (data_of data "failure-mode") _ _ _) as [fm|] eqn:Hfm; [|done].
  cbn [mbind result_bind] in Hh. destruct (parse_timeout _) as [timeout|]; [|done]. injection Hh as <-.
  apply parse_choice_spec in Hmode as [Hm Hm'], Hfm as [_ Hf'].
  cbn [hk_name hk_url hk_sharedSecret hk_events hk_mode hk_failureMode]. split_and!; try done.
  - by apply data_of_Some.
  - apply data_of_Some; [|done]. intros Hn. rewrite Hn in Hlen. vm_compute in Hlen. lia.
  - intros e He. destruct (Hknown e He) as [Hn|]; [by apply elem_of_nil in Hn|done].
  - intros e. rewrite Hiff, elem_of_nil. split.
    + intros [[]|(tok & Ht & Htr & Hne)]. split; [done|]. by exists tok.
    + intros (Hne & tok & Ht & Htr). right. by exists tok.
  - tauto.
  - apply Hm'; [right; left|done|done].
  - apply Hf'; [left|done|done].
Qed.
End Gate.

(** * The flows *)

Section Flows.
Context {St} `{CacheOps St} `{!SubjectKinds} `{!Regexp} `{!JwtClaims} `{!JwtParser} `{!Compaction}
  `{!Hmac} `{!JSON EventPayload} `{!JSON eventHookResponse} `{!JSON RefreshTokenClaims}
  `{!JSON Client} `{!ParseURL}.

Implicit Types (L : Host) (w : outside St) (cs ctx : claims).

Lemma lookup_strip_reserved cs k :
  strip_reserved cs !! k =
  if decide (k ∈ reservedMintClaims) then if decide (k = "sub") then cs !! k else None else cs !! k.
Proof.
  unfold strip_reserved. rewrite map_lookup_filter.
  destruct (cs !! k) as [v|]; simpl; [|by repeat case_decide].
  case_guard as Hg; simpl in *; repeat case_decide; tauto.
Qed.

(** What a context owes to the mint and what to its source: [base] are the
    claims of the source, [kind], [sub] and [authMethod] the mint's. *)
Definition minted_from (kind sub authMethod : string) (granted : list string) (base ctx : claims) : Prop :=
  (forall k, k ∈ reservedMintClaims -> k <> "scope" ->
     ctx !! k = reserved_value kind sub authMethod k) /\
  ctx !! "scope" = match granted with [] => None | _ => Some (VStr (Join granted " ")) end /\
  (forall k v, k ∉ reservedMintClaims -> base !! k = Some v -> ctx !! k = Some v).

Lemma scope_reserved : "scope" ∈ reservedMintClaims.
Proof. by apply contains_elem_spec. Qed.

Lemma local_context_facts cs authMethod scope granted ctx sub :
  local_context cs authMethod scope = (granted, ctx) -> cs !! "sub" = Some (VStr sub) ->
  authMethod <> AuthMethodOIDC ->
  minted_from SubjectKindUser sub authMethod granted cs ctx /\
  (forall k, k ∉ reservedMintClaims -> ctx !! k = cs !! k) /\
  (forall sc, sc ∈ granted <-> sc ∈ SupportedScopes /\ sc ∈ asked_scopes scope defaultSessionScopes).
Proof.
  unfold local_context. intros Hf Hsub Hm.
  destruct (applyScopeFilter_facts _ _ _ _ _ Hf) as (Hg & _ & _ & Hscope & Hother).
  assert (forall k, k ∉ reservedMintClaims -> ctx !! k = cs !! k) as Hkeep.
  { intros k Hk. assert (k <> "scope") as Hs by (intros ->; by apply Hk, scope_reserved).
    rewrite Hother by done.
    assert (k <> ClaimSubjectKind /\ k <> "auth_method") as [Hc Ha].
    { split; intros ->; by apply Hk, contains_elem_spec. }
    rewrite !lookup_insert_ne by done. rewrite lookup_strip_reserved. by rewrite decide_False. }
  split; [|split; done]. split_and!; [|done|intros k v Hk; by rewrite Hkeep].
  intros k Hk Hs. rewrite Hother by done. unfold reserved_value.
  rewrite (proj2 (String.eqb_neq _ _) Hm).
  destruct (decide (k = "sub")) as [->|Hks].
  { rewrite !lookup_insert_ne by done. rewrite lookup_strip_reserved. by rewrite decide_True. }
  destruct (decide (k = "auth_method")) as [->|Hka].
  { rewrite lookup_insert_ne by done. apply lookup_insert_eq. }
  destruct (decide (k = ClaimSubjectKind)) as [->|Hkc]; [apply lookup_insert_eq|].
  rewrite !lookup_insert_ne by done. rewrite lookup_strip_reserved.
  rewrite decide_True, decide_False by done. by case_decide.
Qed.

Lemma enrich_minted L kind sub authMethod granted cs ctx subject :
  minted_from kind sub authMethod granted cs ctx ->
  minted_from kind sub authMethod granted cs (enrichAfterGate L ctx subject).
Proof.
  unfold enrichAfterGate. destruct (_ || _)%bool; [done|]. intros (Hr & Hs & Ho).
  assert (forall k, k ∈ reservedMintClaims ->
    mergeBackendClaims ctx (ex_backend (mi_ex (ho_minter L)) subject) !! k = ctx !! k) as Heq.
  { intros k Hk. rewrite lookup_mergeBackendClaims, lookup_unreserved, decide_True by done.
    by destruct (ctx !! k). }
  split_and!.
  - intros k Hk Hne. rewrite Heq by done. by apply Hr.
  - rewrite Heq by apply scope_reserved. done.
  - intros k v Hk Hv. rewrite lookup_mergeBackendClaims. by rewrite (Ho k v).
Qed.

Lemma enrich_adds L ctx subject k v :
  enrichAfterGate L ctx subject !! k = Some v ->
  ctx !! k = Some v \/
  (HasEnforcingLogin (ho_dispatcher L) = true /\ ex_backend (mi_ex (ho_minter L)) subject !! k = Some v /\
   ctx !! k = None /\ k ∉ reservedMintClaims).
Proof.
  unfold enrichAfterGate.
  destruct (String.eqb subject "" || negb (HasEnforcingLogin (ho_dispatcher L)))%bool eqn:Hb; [by left|].
  apply orb_false_iff in Hb as [_ Hb%negb_false_iff]. rewrite lookup_mergeBackendClaims.
  destruct (ctx !! k) as [x|]; [by left|]. rewrite lookup_unreserved. case_decide; [done|]. by right.
Qed.

Lemma session_refresh_inv L w now c ts cache ts' cache' :
  session_refresh L w now c ts cache = (Ok ts', cache') ->
  AccessToken ts' = AccessToken ts /\ IDToken ts' = IDToken ts /\ ts_Scope ts' = ts_Scope ts /\
  ts_Subject ts' = ts_Subject ts.
Proof.
  unfold session_refresh. destruct cache as [s|]; [|by intros [= <- _]].
  destruct (createRefreshToken _ _ _ _ _ _) as [[id|] s']; [|done]. by intros [= <- _].
Qed.

Lemma session_refresh_fails L w now c ts cache e cache' :
  session_refresh L w now c ts cache = (Err e, cache') -> cache' = cache.
Proof.
  unfold session_refresh. destruct cache as [s|]; [|done]. unfold createRefreshToken.
  destruct (ou_up w 0%nat); [done|]. by intros [= _ <-].
Qed.

Lemma refuse_none e k1 k2 :
  refuseClientNamedIdentity e [k1; k2] = Ok () -> NamesClient e k1 = false /\ NamesClient e k2 = false.
Proof. simpl. destruct (NamesClient e k1); [done|]. by destruct (NamesClient e k2). Qed.

(** No token at all. *)
Definition tokenless (ts : TokenSet) : Prop :=
  AccessToken ts = "" /\ IDToken ts = "" /\ RefreshToken ts = "".

Lemma tokenless_empty : tokenless emptyTokenSet.
Proof. done. Qed.

Lemma tokenless_about sub : tokenless (about sub).
Proof. done. Qed.

#[local] Hint Resolve tokenless_empty tokenless_about : go.

Lemma local_mint_Ok L w now clientID authMethod sub granted ctx cache ts cache' :
  local_mint L w now clientID authMethod sub granted ctx cache = ((ts, None), cache') ->
  SignScoped (mi_signer (ho_minter L)) now (ou_jti w 0%nat) ctx granted = Ok (AccessToken ts) /\
  ts_Subject ts = sub /\ ts_Scope ts = Join granted " " /\ ("openid" ∉ granted -> IDToken ts = "").
Proof.
  unfold local_mint, sign_pair.
  destruct (SignScoped _ _ _ ctx granted) as [a|]; [|done]. cbn [mbind result_bind].
  destruct (contains_elem granted "openid") eqn:Ho.
  - destruct (SignScoped _ _ (ou_jti w 1%nat) _ granted) as [i|]; [|done]. cbn [mbind result_bind].
    destruct (session_refresh _ _ _ _ _ _) as [[ts'|] c'] eqn:Hr; [|done]. intros [= <- _].
    apply session_refresh_inv in Hr as (-> & -> & -> & ->). split_and!; try done.
    intros Hno. by apply contains_elem_spec in Ho.
  - destruct (session_refresh _ _ _ _ _ _) as [[ts'|] c'] eqn:Hr; [|done]. intros [= <- _].
    by apply session_refresh_inv in Hr as (-> & -> & -> & ->).
Qed.

Lemma local_mint_Err L w now clientID authMethod sub granted ctx cache ts e cache' :
  local_mint L w now clientID authMethod sub granted ctx cache = ((ts, Some e), cache') ->
  tokenless ts /\ cache' = cache.
Proof.
  unfold local_mint. destruct (sign_pair _ _ _ _ _ _) as [[a i]|]; [|by intros [= <- _ <-]; auto with go].
  destruct (session_refresh _ _ _ _ _ _) as [[ts'|] c'] eqn:Hr; [done|].
  apply session_refresh_fails in Hr as ->. intros [= <- _ <-]. auto with go.
Qed.

(** A password login gives a session only to the person the credential store
    vouched for. When it succeeds, the first backend that knows the name
    accepted the password and named a subject; neither that subject nor the
    typed name is a client's; unless the account is an operator's Secret,
    every enforcing login hook let this login through; and the access token
    signs a context whose reserved claims are the mint's alone (subject, the
    User kind, the method, the granted scopes, and nothing else), whose other
    claims are the store's unchanged, to which only a live re-resolution
    after such a gate may have added. *)
Theorem local_login_authentic L w now username password scope clientID authMethod cache ts calls cache' :
  LoginLocal L w now username password scope clientID authMethod cache = (((ts, None), calls), cache') ->
  let e := mi_ex (ho_minter L) in
  exists cs source sub granted ctx,
    FindInternalWithSource (mi_logEnabled (ho_minter L)) (ex_sp e) (ho_lookups L) username password =
      Ok (cs, source) /\
    cs !! "sub" = Some (VStr sub) /\ sub <> "" /\ ts_Subject ts = sub /\
    NamesClient e sub = false /\ NamesClient e username = false /\
    (authMethod = AuthMethodLocal \/ authMethod = AuthMethodOAuth2) /\
    (source <> LookupTypeSecret -> exists p, ev_Subject p = sub /\ ev_LoginName p = username /\
       ev_ClientID p = clientID /\
       Forall (lets_through (ou_post w) now p) (asked (ho_dispatcher L))) /\
    (forall sc, sc ∈ granted <-> sc ∈ SupportedScopes /\ sc ∈ asked_scopes scope defaultSessionScopes) /\
    ts_Scope ts = Join granted " " /\ ("openid" ∉ granted -> IDToken ts = "") /\
    SignScoped (mi_signer (ho_minter L)) now (ou_jti w 0%nat) ctx granted = Ok (AccessToken ts) /\
    minted_from SubjectKindUser sub authMethod granted cs ctx /\
    (forall k v, k ∉ reservedMintClaims -> cs !! k = None -> ctx !! k = Some v ->
       source <> LookupTypeSecret /\ HasEnforcingLogin (ho_dispatcher L) = true /\
       ex_backend e sub !! k = Some v).
Proof.
  unfold LoginLocal. cbn zeta. destruct (ho_keyed L); [|done]. cbn [negb].
  destruct (FindInternalWithSource _ _ _ _ _) as [[cs source]|] eqn:Hfind; [|done].
  set (sub := match jwtGetSubject cs with Ok s => s | Err _ => "" end).
  destruct (String.eqb_spec sub "") as [|Hne]; [done|].
  assert (cs !! "sub" = Some (VStr sub)) as Hsub.
  { unfold sub in *. destruct (jwtGetSubject cs) eqn:Hj; [|done]. by apply jwtGetSubject_Ok. }
  destruct (refuseClientNamedIdentity _ _) as [[]|] eqn:Href; [|done].
  apply refuse_none in Href as [Hn1 Hn2].
  destruct (String.eqb authMethod AuthMethodLocal || String.eqb authMethod AuthMethodOAuth2)%bool eqn:Hmeth;
    [|done]. cbn [negb].
  assert (authMethod = AuthMethodLocal \/ authMethod = AuthMethodOAuth2) as Hm.
  { by apply orb_true_iff in Hmeth as [?%String.eqb_eq|?%String.eqb_eq]; [left|right]. }
  assert (authMethod <> AuthMethodOIDC) as Hm' by (destruct Hm as [-> | ->]; discriminate).
  destruct (local_context cs authMethod scope) as [granted ctx] eqn:Hctx.
  destruct (local_context_facts _ _ _ _ _ _ Hctx Hsub Hm') as (Hmint & Hkeep & Hg).
  unfold local_gate. destruct (String.eqb_spec source LookupTypeSecret) as [Hsrc|Hsrc].
  - destruct (local_mint _ _ _ _ _ _ _ _ _) as [[ts' err] c'] eqn:Hl. cbn [app].
    intros [= <- -> _ <-]. apply local_mint_Ok in Hl as (Ha & Hs & Hsc & Hi).
    exists cs, source, sub, granted, ctx. split_and!; try done.
    intros k v Hk Hno Hv. rewrite Hkeep in Hv by done. congruence.
  - destruct (GateLogin _ _ _ _) as [[[]|] gated] eqn:Hgate; [|done].
    destruct (local_mint _ _ _ _ _ _ _ _ _) as [[ts' err] c'] eqn:Hl.
    intros [= <- -> _ <-]. apply local_mint_Ok in Hl as (Ha & Hs & Hsc & Hi).
    exists cs, source, sub, granted, (enrichAfterGate L ctx sub). split_and!; try done.
    + intros _. eexists. split; [|split; [|split; [|exact (GateLogin_Ok _ _ _ _ _ Hgate)]]];
        by destruct (ho_dispatcher L).
    + by apply enrich_minted.
    + intros k v Hk Hno [Hv|(He & Hb & _)]%enrich_adds; [|done]. rewrite Hkeep in Hv by done. congruence.
Qed.

Lemma oidc_context_facts kind roles ents cs granted ctx :
  oidc_context kind roles ents cs = (granted, ctx) ->
  granted = SupportedScopes /\
  ctx !! "scope" = Some (VStr (Join granted " ")) /\ ctx !! ClaimSubjectKind = Some (VStr kind) /\
  ctx !! "roles" = Some (VStrs (idp_strings (cs !! "roles") ++ roles)) /\
  ctx !! "entitlements" = Some (VStrs (idp_strings (cs !! "entitlements") ++ ents)) /\
  (forall k, k ∉ ["scope"; ClaimSubjectKind; "roles"; "entitlements"] -> ctx !! k = cs !! k).
Proof.
  unfold oidc_context. cbn zeta. set (c1 := <[ClaimSubjectKind := VStr kind]> cs).
  set (c2 := <["roles" := _]> c1). set (c3 := <["entitlements" := _]> c2). intros Hf.
  destruct (applyScopeFilter_facts _ _ _ _ _ Hf) as (_ & _ & _ & Hs & Ho).
  assert (granted = SupportedScopes) as -> by (unfold applyScopeFilter in Hf; by injection Hf as <- _).
  assert (forall k, k <> ClaimSubjectKind -> c1 !! k = cs !! k) as Hc1 by (intros; by apply lookup_insert_ne).
  split_and!; try done.
  - rewrite Ho by done. unfold c3, c2, c1. rewrite !lookup_insert_ne by done. apply lookup_insert_eq.
  - rewrite Ho by done. unfold c3. rewrite lookup_insert_ne by done. unfold c2.
    rewrite lookup_insert_eq, mergeIDPList_strings. by rewrite Hc1.
  - rewrite Ho by done. unfold c3. rewrite lookup_insert_eq, mergeIDPList_strings. unfold c2.
    rewrite lookup_insert_ne by done. by rewrite Hc1.
  - intros k Hk. rewrite !not_elem_of_cons in Hk. destruct Hk as (? & ? & ? & ? & _).
    rewrite Ho by done. unfold c3, c2. rewrite !lookup_insert_ne by done. by apply Hc1.
Qed.

(** A login at the identity provider trusts the provider for who the person
    is, and for nothing the host decides. It succeeds only with an id_token
    the provider's verifier accepted, which names a subject; neither the
    subject nor the key its roles are bound by is a client's; every
    enforcing login hook let it through; and the context signed carries that
    subject, the oidc method, the User kind whatever kind the token asserted,
    every default scope, and the provider's roles and entitlements followed
    by those the host's bindings give. No id_token is issued. *)
Theorem oidc_login_authentic L w now tokens cache ts calls cache' :
  ExchangeToken L w now tokens cache = (((ts, None), calls), cache') ->
  let e := mi_ex (ho_minter L) in
  exists t asserted sub ctx,
    ho_oidc L = true /\ ou_verify w (RawIDToken tokens) = Some t /\ it_Claims t = Some asserted /\
    asserted !! "sub" = Some (VStr sub) /\ sub <> "" /\ ts_Subject ts = sub /\
    IDToken ts = "" /\ ts_Scope ts = Join SupportedScopes " " /\
    (exists p, ev_Subject p = sub /\
       Forall (lets_through (ou_post w) now p) (asked (ho_dispatcher L))) /\
    SignScoped (mi_signer (ho_minter L)) now (ou_jti w 0%nat) ctx SupportedScopes =
      Ok (AccessToken ts) /\
    ctx !! "sub" = Some (VStr sub) /\ ctx !! "auth_method" = Some (VStr AuthMethodOIDC) /\
    ctx !! "idp" = Some (VStr "oidc") /\ ctx !! ClaimSubjectKind = Some (VStr SubjectKindUser) /\
    ctx !! "scope" = Some (VStr (Join SupportedScopes " ")) /\
    let key := resolveBindingKey (oidc_claims asserted) sub (ex_RoleBindingClaim e)
      (ex_RequireEmailVerified e) in
    NamesClient e sub = false /\ NamesClient e key = false /\
    let '(roles, ents) := resolveBindings (mi_logEnabled (ho_minter L)) (ex_sp e)
      (mkSubject key SubjectKindUser SiteOIDCLogin) in
    ctx !! "roles" = Some (VStrs (idp_strings (asserted !! "roles") ++ roles)) /\
    ctx !! "entitlements" = Some (VStrs (idp_strings (asserted !! "entitlements") ++ ents)).
Proof.
  unfold ExchangeToken, verifyIDToken, userBindingSubject. cbn zeta.
  destruct (ho_oidc L); [|done]. cbn [negb].
  destruct (ou_verify w (RawIDToken tokens)) as [t|] eqn:Hv; [|done].
  destruct (it_Claims t) as [asserted|] eqn:Hc; [|done].
  set (cs := oidc_claims asserted).
  set (sub := match jwtGetSubject cs with Ok s => s | Err _ => "" end).
  destruct (String.eqb_spec sub "") as [|Hne]; [done|].
  assert (cs !! "sub" = Some (VStr sub)) as Hsub.
  { unfold sub in *. destruct (jwtGetSubject cs) eqn:Hj; [|done]. by apply jwtGetSubject_Ok. }
  assert (forall k, k <> ClaimSubjectKind -> k <> "auth_method" -> k <> "idp" -> cs !! k = asserted !! k)
    as Hcs by (intros k ???; unfold cs, oidc_claims; by rewrite lookup_delete_ne, !lookup_insert_ne).
  destruct (refuseClientNamedIdentity _ _) as [[]|] eqn:Href; [|done].
  apply refuse_none in Href as [Hn1 Hn2]. cbn [bs_Kind].
  destruct (resolveBindings _ _ _) as [roles ents] eqn:Hres.
  destruct (oidc_context SubjectKindUser roles ents cs) as [granted ctx] eqn:Hctx.
  destruct (oidc_context_facts _ _ _ _ _ _ Hctx) as (-> & Hscope & Hkind & Hroles & Hents & Hother).
  destruct (GateLogin _ _ _ _) as [[[]|] gated] eqn:Hgate; [|done].
  destruct (SignScoped _ _ _ _ _) as [a|] eqn:Hsign; [|done].
  destruct (session_refresh _ _ _ _ _ _) as [[ts'|] c'] eqn:Hr; [|done]. intros [= <- _ _].
  apply session_refresh_inv in Hr as (Ha & Hi & Hs & Hsu). cbn in Ha, Hi, Hs, Hsu.
  assert (forall k v, ctx !! k = Some v -> enrichAfterGate L ctx sub !! k = Some v) as Hkeep.
  { intros k v Hk. unfold enrichAfterGate. destruct (_ || _)%bool; [done|].
    by rewrite lookup_mergeBackendClaims, Hk. }
  exists t, asserted, sub, (enrichAfterGate L ctx sub). cbn zeta. fold cs. rewrite Hres.
  assert (forall k, contains_elem ["scope"; ClaimSubjectKind; "roles"; "entitlements"] k = false ->
    ctx !! k = cs !! k) as Hother'.
  { intros k Hk. apply Hother. intros Hin%contains_elem_spec. congruence. }
  split_and!; try done.
  - by rewrite <- Hcs.
  - eexists. split; [|exact (GateLogin_Ok _ _ _ _ _ Hgate)]. by destruct (ho_dispatcher L).
  - by rewrite Ha.
  - apply Hkeep. by rewrite Hother'.
  - apply Hkeep. rewrite Hother' by done. unfold cs, oidc_claims.
    rewrite lookup_delete_ne by done. apply lookup_insert_eq.
  - apply Hkeep. rewrite Hother' by done. unfold cs, oidc_claims.
    rewrite lookup_delete_ne, lookup_insert_ne by done. apply lookup_insert_eq.
  - by apply Hkeep.
  - by apply Hkeep.
  - apply Hkeep. rewrite Hroles. by rewrite Hcs.
  - apply Hkeep. rewrite Hents. by rewrite Hcs.
Qed.

(** A login that is refused leaves nothing behind. Whatever made a password
    or OIDC login fail (the deployment, the credentials, a name reserved for
    clients, a hook's denial, a signature, the store), the answer holds no
    token and the refresh-token cache is untouched; and a hook's denial is
    reported to the client as a refusal of this grant, in the hook's words,
    never as the server's fault. *)
Theorem refused_login_leaves_nothing L w now cache :
  (forall username password scope clientID authMethod,
     let '((ts, err, _), cache') := LoginLocal L w now username password scope clientID authMethod cache in
     err <> None -> tokenless ts /\ cache' = cache) /\
  (forall tokens,
     let '((ts, err, _), cache') := ExchangeToken L w now tokens cache in
     err <> None -> tokenless ts /\ cache' = cache) /\
  (forall username password scope clientID authMethod cs source reason calls granted ctx,
     ho_keyed L = true -> NamesClient (mi_ex (ho_minter L)) username = false ->
     authMethod = AuthMethodLocal \/ authMethod = AuthMethodOAuth2 ->
     FindInternalWithSource (mi_logEnabled (ho_minter L)) (ex_sp (mi_ex (ho_minter L)))
       (ho_lookups L) username password = Ok (cs, source) ->
     source <> LookupTypeSecret -> cs !! "sub" = Some (VStr username) -> username <> "" ->
     local_context cs authMethod scope = (granted, ctx) ->
     GateLogin (ou_post w) now (ho_dispatcher L) (with_login_name username
       (loginPayload EventLogin ctx username clientID (Join granted " ") authMethod)) =
       (Err reason, calls) ->
     (LoginLocal L w now username password scope clientID authMethod cache).1.1 =
       (about username, Some (GrantFailure ("login denied: " ++ reason)))).
Proof.
  split_and!.
  - intros username password scope clientID authMethod.
    destruct (LoginLocal _ _ _ _ _ _ _ _ _) as [[[ts [err|]] calls] c'] eqn:Hl; [|done]. intros _.
    revert Hl. unfold LoginLocal. cbn zeta.
    repeat (case_match; try (intros [= <- _ _ <-]; auto with go; fail)); try done;
      intros ?; simplify_eq/=; by eapply local_mint_Err.
  - intros tokens. destruct (ExchangeToken _ _ _ _ _) as [[[ts [err|]] calls] c'] eqn:Hl; [|done]. intros _.
    revert Hl. unfold ExchangeToken. cbn zeta.
    repeat (case_match; try (intros [= <- _ _ <-]; auto with go; fail)); try done.
    intros [= <- _ _ <-]. split; [auto with go|]. by eapply session_refresh_fails.
  - intros username password scope clientID authMethod cs source reason calls granted ctx
      Hk Hn Hm Hfind Hsrc Hsub Hne Hctx Hgate.
    unfold LoginLocal. cbn zeta. rewrite Hk, Hfind. cbn [negb].
    rewrite (jwtGetSubject_string _ _ Hsub). rewrite (proj2 (String.eqb_neq _ _) Hne).
    cbn [refuseClientNamedIdentity]. rewrite Hn.
    assert ((String.eqb authMethod AuthMethodLocal || String.eqb authMethod AuthMethodOAuth2)%bool = true) as ->
      by (by destruct Hm as [-> | ->]).
    cbn [negb]. rewrite Hctx. unfold local_gate. rewrite (proj2 (String.eqb_neq _ _) Hsrc), Hgate. done.
Qed.

Lemma client_scopes_spec allowed requested : forall granted,
  client_scopes allowed requested = Ok granted ->
  granted = filter (fun s => s <> "") requested /\
  (allowed <> [] -> forall s, s ∈ granted -> s ∈ allowed).
Proof.
  induction requested as [|s requested IH]; intros granted; cbn [client_scopes].
  { intros [= <-]. split; [done|]. intros _ s Hs. by apply elem_of_nil in Hs. }
  rewrite filter_cons. destruct (String.eqb_spec s "") as [->|Hs].
  { intros Hc. rewrite decide_False by tauto. by apply IH. }
  rewrite decide_True by done. destruct (_ && _)%bool eqn:Hb; [done|].
  destruct (client_scopes allowed requested) as [rest|]; [|done]. cbn [mbind result_bind].
  intros [= <-]. destruct (IH _ eq_refl) as [-> Hall]. split; [done|].
  intros Hne x [->|Hx]%elem_of_cons; [|by apply Hall].
  rewrite (bool_decide_eq_true_2 _ Hne) in Hb. by apply negb_false_iff, contains_elem_spec in Hb.
Qed.

Lemma client_context_facts L clientID granted :
  let ctx := client_context L clientID granted in
  let '(roles, ents) := resolveBindings (mi_logEnabled (ho_minter L)) (ex_sp (mi_ex (ho_minter L)))
    (mkSubject clientID SubjectKindClient SiteClientCredentials) in
  let want family := bool_decide (granted = [] \/ family ∈ granted) in
  ctx !! "sub" = Some (VStr clientID) /\ ctx !! ClaimSubjectKind = Some (VStr SubjectKindClient) /\
  ctx !! "grant_type" = Some (VStr GRANT_TYPE_CLIENT_CREDENTIALS) /\
  ctx !! "auth_method" = Some (VStr AuthMethodOAuth2) /\
  ctx !! "roles" = (if want "roles" then Some (VStrs roles) else None) /\
  ctx !! "entitlements" = (if want "entitlements" then Some (VStrs ents) else None).
Proof.
  unfold client_context, clientBindingSubject. cbn zeta. cbn [bs_Kind].
  destruct (resolveBindings _ _ _) as [roles ents].
  assert (forall family, (bool_decide (granted = []) || contains_elem granted family)%bool =
    bool_decide (granted = [] \/ family ∈ granted)) as Hw.
  { intros family. unfold contains_elem. by rewrite bool_decide_or. }
  rewrite !Hw. set (base := if String.eqb _ "" then _ else _).
  assert (forall k, k <> "scope" -> base !! k =
    (<["sub" := VStr clientID]> $ <["azp" := VStr clientID]> $
     <["auth_method" := VStr AuthMethodOAuth2]> $
     <["grant_type" := VStr GRANT_TYPE_CLIENT_CREDENTIALS]> $
     {[ ClaimSubjectKind := VStr SubjectKindClient ]} : claims) !! k) as Hbase.
  { intros k Hk. unfold base. case_match; [done|]. by rewrite lookup_insert_ne. }
  destruct (bool_decide (granted = [] \/ "roles" ∈ granted)),
    (bool_decide (granted = [] \/ "entitlements" ∈ granted)); split_and!;
    (rewrite ?lookup_insert_eq; try reflexivity);
    (rewrite ?lookup_insert_ne by done; rewrite ?lookup_insert_eq; try reflexivity);
    (rewrite Hbase by done; rewrite ?lookup_insert_ne by done; rewrite ?lookup_insert_eq;
     rewrite ?lookup_singleton_eq; try reflexivity); by apply lookup_singleton_ne.
Qed.

Lemma resource_signer_inv L targetAudience signer :
  resource_signer L targetAudience = Ok signer ->
  audience signer = targetAudience /\ issuer signer = issuer (mi_signer (ho_minter L)).
Proof.
  unfold resource_signer, NewSigner. intros Hs. repeat (case_match; try done). by injection Hs as <-.
Qed.

Lemma client_mint_inv L w now clientID clientSecret scope store r store' :
  buildClientSigningContext L w now clientID clientSecret scope store = (Ok r, store') ->
  exists client granted,
    IsM2MEnabled L = true /\
    LookupClient (ou_up w) now (ex_Clients (mi_ex (ho_minter L))) (ho_schemes L) (ou_mid w) clientID
      store = (Ok (Some client), store') /\
    ClientSecret client = clientSecret /\
    granted = filter (fun s => s <> "") (Split " "%char scope) /\
    (AllowedScopes client <> [] -> forall s, s ∈ granted -> s ∈ AllowedScopes client) /\
    r = (client_context L clientID granted, Join granted " ").
Proof.
  unfold buildClientSigningContext. destruct (IsM2MEnabled L); [|done]. cbn [negb].
  destruct (LookupClient _ _ _ _ _ _ _) as [[[client|]|] s'] eqn:Hl; try done.
  destruct (String.eqb_spec (ClientSecret client) clientSecret) as [Hs|]; [|done]. cbn [negb].
  destruct (client_scopes _ _) as [granted|] eqn:Hc; [|done]. intros [= <- <-].
  destruct (client_scopes_spec _ _ _ Hc) as [Hg Hall]. by exists client, granted.
Qed.

(** A client's own credentials buy a client's own token. When a
    client_credentials mint succeeds, for the host or for a peer resource, the
    host has clients configured, the lookup resolved this one and its secret
    matched; the granted scopes are those requested, all of them allowed
    where the client's scopes are restricted; what is signed names the client
    as a Client, marked with the grant, with the roles and entitlements of
    the bindings that admit a Client, each family left out when scopes were
    requested without it; and neither an id_token nor a refresh token is
    issued. The token of a resource is addressed to that resource alone. *)
Theorem client_login_confined L w now clientID clientSecret scope store ts store' targetAudience resource :
  (if (resource : bool)
   then LoginClientResource L w now clientID clientSecret scope targetAudience store
   else LoginClient L w now clientID clientSecret scope store) = ((ts, None), store') ->
  exists client granted ctx signer,
    ex_Clients (mi_ex (ho_minter L)) <> ∅ /\
    LookupClient (ou_up w) now (ex_Clients (mi_ex (ho_minter L))) (ho_schemes L) (ou_mid w) clientID
      store = (Ok (Some client), store') /\
    ClientSecret client = clientSecret /\
    granted = filter (fun s => s <> "") (Split " "%char scope) /\
    (AllowedScopes client <> [] -> forall s, s ∈ granted -> s ∈ AllowedScopes client) /\
    Sign signer now (ou_jti w 0%nat) ctx = Ok (AccessToken ts) /\
    audience signer = (if resource then targetAudience else audience (mi_signer (ho_minter L))) /\
    issuer signer = issuer (mi_signer (ho_minter L)) /\
    IDToken ts = "" /\ RefreshToken ts = "" /\ ts_Subject ts = clientID /\ ts_Scope ts = Join granted " " /\
    let '(roles, ents) := resolveBindings (mi_logEnabled (ho_minter L)) (ex_sp (mi_ex (ho_minter L)))
      (mkSubject clientID SubjectKindClient SiteClientCredentials) in
    let want family := bool_decide (granted = [] \/ family ∈ granted) in
    ctx !! "sub" = Some (VStr clientID) /\ ctx !! ClaimSubjectKind = Some (VStr SubjectKindClient) /\
    ctx !! "grant_type" = Some (VStr GRANT_TYPE_CLIENT_CREDENTIALS) /\
    ctx !! "auth_method" = Some (VStr AuthMethodOAuth2) /\
    ctx !! "roles" = (if want "roles" then Some (VStrs roles) else None) /\
    ctx !! "entitlements" = (if want "entitlements" then Some (VStrs ents) else None).
Proof.
  unfold LoginClientResource, LoginClient.
  destruct (buildClientSigningContext _ _ _ _ _ _ _) as [[r|f] s'] eqn:Hb; [|by destruct resource].
  destruct (client_mint_inv _ _ _ _ _ _ _ _ _ Hb) as (client & granted & Hm & Hl & Hs & Hg & Hall & ->).
  intros Hr.
  assert (exists signer, Sign signer now (ou_jti w 0%nat) (client_context L clientID granted) =
      Ok (AccessToken ts) /\
    audience signer = (if resource then targetAudience else audience (mi_signer (ho_minter L))) /\
    issuer signer = issuer (mi_signer (ho_minter L)) /\ s' = store' /\
    IDToken ts = "" /\ RefreshToken ts = "" /\ ts_Subject ts = clientID /\ ts_Scope ts = Join granted " ")
    as (signer & Hsign & Ha & Hi & -> & Hts).
  { destruct resource.
    - destruct (resource_signer L targetAudience) as [signer|] eqn:Hsg; [|done].
      cbn [mbind result_bind] in Hr. unfold client_tokens in Hr.
      destruct (Sign signer _ _ _) as [a|] eqn:Hsign; [|done]. injection Hr as <- <-.
      exists signer. by apply resource_signer_inv in Hsg as [-> ->].
    - unfold client_tokens in Hr. destruct (Sign _ _ _ _) as [a|] eqn:Hsign; [|done].
      injection Hr as <- <-. by exists (mi_signer (ho_minter L)). }
  exists client, granted, (client_context L clientID granted), signer.
  assert (ex_Clients (mi_ex (ho_minter L)) <> ∅) as Hne.
  { unfold IsM2MEnabled in Hm. by apply andb_true_iff in Hm as [_ ?%bool_decide_eq_true]. }
  pose proof (client_context_facts L clientID granted) as Hf. cbn zeta in Hf.
  destruct (resolveBindings _ _ _) as [roles ents]. destruct Hts as (? & ? & ? & ?). split_and!; try done;
    apply Hf.
Qed.

(** Only a function's own, delegated token is exchanged. A successful
    exchange was given a token signed by this host, for this host's issuer,
    in force and with an expiry, that names a subject and exactly one
    audience, which is not the host's; it is neither a bounded-use capability
    nor a client's own token; the veto did not refuse its subject, of the
    kind it records, at its issue time. What comes back is one access token
    addressed to the target, for the same subject and kind, with the grants
    that subject has now and the calling function as its actor; never an
    id_token nor a refresh token. *)
Theorem exchange_only_delegated L w now subjectToken targetAudience ts :
  ExchangeSubjectToken L w now subjectToken targetAudience = (ts, None) ->
  let e := mi_ex (ho_minter L) in
  exists cs sub caller signer ctx,
    jwt_signed (ho_publicKey L) subjectToken cs /\ in_force now cs /\
    cs !! "iss" = Some (VStr (issuer (mi_signer (ho_minter L)))) /\
    (exists n, cs !! "exp" = Some (VNum n) /\ n <> 0) /\
    cs !! "sub" = Some (VStr sub) /\ sub <> "" /\
    audiences_of cs = [caller] /\ caller <> ho_audience L /\ ho_audience L <> "" /\
    cs !! CapUsesClaim <> Some (VBool true) /\
    cs !! "grant_type" <> Some (VStr GRANT_TYPE_CLIENT_CREDENTIALS) /\
    let kind := ContextSubjectKind e cs in
    VetoCredential e sub kind (issuedAtOf cs) SiteTokenExchange = Ok () /\
    Sign signer now (ou_jti w 0%nat) ctx = Ok (AccessToken ts) /\ audience signer = targetAudience /\
    issuer signer = issuer (mi_signer (ho_minter L)) /\
    IDToken ts = "" /\ RefreshToken ts = "" /\ ts_Subject ts = sub /\
    ctx !! "sub" = Some (VStr sub) /\ ctx !! ClaimSubjectKind = Some (VStr kind) /\
    (caller <> "" -> ctx !! "act" = Some (VObj [("sub", VStr caller)])) /\
    let '(roles, ents) := resolveBindings (mi_logEnabled (ho_minter L)) (ex_sp e)
      (mkSubject sub kind SiteTokenExchange) in
    ctx !! "roles" = Some (VStrs roles) /\ ctx !! "entitlements" = Some (VStrs ents).
Proof.
  unfold ExchangeSubjectToken. cbn zeta. destruct (ho_keyed L); [|done]. cbn [negb].
  destruct (ParseWithClaims _ _ _ _) as [cs|] eqn:Hp; [|done].
  apply ParseWithClaims_Ok in Hp as (Hsigned & Hforce & Hopts).
  apply Forall_cons in Hopts as [Hiss Hopts]. apply Forall_cons in Hopts as [Hexp _].
  set (sub := match jwtGetSubject cs with Ok s => s | Err _ => "" end).
  destruct (String.eqb_spec sub "") as [|Hne]; [done|].
  assert (cs !! "sub" = Some (VStr sub)) as Hsub.
  { unfold sub in *. destruct (jwtGetSubject cs) eqn:Hj; [|done]. by apply jwtGetSubject_Ok. }
  destruct (fat_audience L cs) as [caller|] eqn:Hfat; [|done].
  destruct (VetoCredential _ _ _ _ _) as [[]|] eqn:Hveto; [|done].
  unfold subjectSigningContext. destruct (resolveBindings _ _ _) as [roles ents] eqn:Hres.
  destruct (resource_signer L targetAudience) as [signer|] eqn:Hsg; [|done]. cbn [mbind result_bind].
  destruct (Sign signer _ _ _) as [a|] eqn:Hsign; [|done]. intros [= <-].
  assert (audiences_of cs = [caller] /\ caller <> ho_audience L /\ ho_audience L <> "" /\
    bool_claim cs CapUsesClaim = false /\ str_claim cs "grant_type" <> GRANT_TYPE_CLIENT_CREDENTIALS)
    as (Haud & Hcaller & Hhost & Hcap & Hgt).
  { unfold fat_audience in Hfat. destruct (bool_claim cs CapUsesClaim); [done|].
    destruct (String.eqb_spec (str_claim cs "grant_type") GRANT_TYPE_CLIENT_CREDENTIALS); [done|].
    destruct (String.eqb_spec (ho_audience L) ""); [done|].
    destruct (jwtGetAudience cs) as [auds|] eqn:Ha; [|done]. apply jwtGetAudience_Ok in Ha as <-.
    destruct auds as [|aud [|]]; try done. destruct (String.eqb_spec aud (ho_audience L)); [done|].
    by injection Hfat as ->. }
  exists cs, sub, caller, signer, (exchange_context sub (ContextSubjectKind (mi_ex (ho_minter L)) cs) caller
    roles ents (ex_backend (mi_ex (ho_minter L)) sub)).
  assert (forall k v, (if String.eqb caller "" then
      (<["sub" := VStr sub]> $ <["roles" := VStrs roles]> $ <["entitlements" := VStrs ents]> $
       {[ ClaimSubjectKind := VStr (ContextSubjectKind (mi_ex (ho_minter L)) cs) ]} : claims)
    else <["act" := VObj [("sub", VStr caller)]]>
      (<["sub" := VStr sub]> $ <["roles" := VStrs roles]> $ <["entitlements" := VStrs ents]> $
       {[ ClaimSubjectKind := VStr (ContextSubjectKind (mi_ex (ho_minter L)) cs) ]})) !! k = Some v ->
    exchange_context sub (ContextSubjectKind (mi_ex (ho_minter L)) cs) caller roles ents
      (ex_backend (mi_ex (ho_minter L)) sub) !! k = Some v) as Hkeep.
  { intros k v Hk. unfold exchange_context. rewrite lookup_mergeBackendClaims. cbn zeta. by rewrite Hk. }
  assert (audience signer = targetAudience /\ issuer signer = issuer (mi_signer (ho_minter L))) as [Hsa Hsi].
  { by apply resource_signer_inv in Hsg. }
  rewrite Hres. split_and!; try done.
  - intros Hk. unfold bool_claim in Hcap. by rewrite Hk in Hcap.
  - intros Hk. apply Hgt. unfold str_claim. by rewrite Hk.
  - apply Hkeep. destruct (String.eqb caller ""); reflexivity.
  - apply Hkeep. destruct (String.eqb caller ""); reflexivity.
  - intros Hc. apply Hkeep. rewrite (proj2 (String.eqb_neq _ _) Hc). reflexivity.
  - apply Hkeep. destruct (String.eqb caller ""); reflexivity.
  - apply Hkeep. destruct (String.eqb caller ""); reflexivity.
Qed.
End Flows.

(** * Findings *)

(** The identity provider's [scp], [grant_type] and [act] reach the context an
    OIDC login signs, and the signer projects all three; a password login
    strips them, and the first rotation of the same session drops them. *)
Lemma oidc_login_signs_asserted_envelope kind roles ents asserted k :
  k ∈ ["scp"; "grant_type"; "act"] ->
  (oidc_context kind roles ents (oidc_claims asserted)).2 !! k = asserted !! k /\
  k ∈ projectedClaims /\ idpClaimSnapshot (oidc_claims asserted) !! k = None.
Proof.
  intros Hk. destruct (oidc_context kind roles ents (oidc_claims asserted)) as [granted ctx] eqn:Hc.
  destruct (oidc_context_facts _ _ _ _ _ _ Hc) as (_ & _ & _ & _ & _ & Ho). simpl.
  assert (k ∈ projectedClaims /\ k ∈ reservedMintClaims /\
    k ∉ ["scope"; ClaimSubjectKind; "roles"; "entitlements"; "auth_method"; "idp"]) as (Hp & Hr & Hn).
  { rewrite !elem_of_cons, elem_of_nil in Hk.
    destruct Hk as [->|[->|[->|[]]]]; split_and!; apply (bool_decide_unpack _); reflexivity. }
  rewrite !not_elem_of_cons in Hn. destruct Hn as (? & ? & ? & ? & ? & ? & _). split_and!; [|done|].
  - rewrite Ho by (rewrite !not_elem_of_cons; split_and!; try done; apply not_elem_of_nil).
    unfold oidc_claims. by rewrite lookup_delete_ne, !lookup_insert_ne.
  - unfold idpClaimSnapshot. rewrite lookup_unreserved. by rewrite decide_True.
Qed.

(** * Witnesses *)

#[local] Existing Instance kindsExample.
#[local] Existing Instance jwtExample.
#[local] Existing Instance compactExample.
#[local] Existing Instance noRegexp.
#[local] Existing Instance parseExample.
#[local] Existing Instance refreshJSON.
#[local] Instance clientJSON' : JSON Client := jsonExample Client.

#[local] Instance hmacExample : Hmac := {| hmac_sha256hex secret message := secret ++ message |}.

Definition responseTuple : Type := bool * string.

Definition response_of (x : responseTuple) : eventHookResponse := mkHookResponse x.1 x.2.

Program Definition responseJSON : JSON eventHookResponse := {|
  Marshal r := pos_string (encode ((OK r, Reason r) : responseTuple));
  Unmarshal s := response_of <$> (decode (string_pos s) : option responseTuple);
  clean _ := True;
|}.
Next Obligation. intros [ok why] _. cbn beta. by rewrite string_pos_string, decode_encode. Qed.
#[local] Existing Instance responseJSON.

(** The subject and login name of a payload, for those that say no more. *)
Definition bare_payload (x : string * string) : EventPayload :=
  with_login_name x.2 (failed_login x.1 "" "" "").

Program Definition payloadJSON : JSON EventPayload := {|
  Marshal p := pos_string (encode (ev_Subject p, ev_LoginName p));
  Unmarshal s := bare_payload <$> (decode (string_pos s) : option (string * string));
  clean p := p = bare_payload (ev_Subject p, ev_LoginName p);
|}.
Next Obligation.
  intros p Hp. cbn beta. rewrite string_pos_string, decode_encode. exact (f_equal Some (eq_sym Hp)).
Qed.
#[local] Existing Instance payloadJSON.

(** A token is the name of its claims. *)
Definition exampleFAT : claims :=
  <["iss" := VStr "https://host"]> $ <["exp" := VNum 100]> $ <["sub" := VStr "alice"]> $
  <["aud" := VStr "https://fn-a"]> $ {[ ClaimSubjectKind := VStr "User" ]}.

#[local] Instance fatParser : JwtParser := jwtParserExample (fun key raw =>
  if (String.eqb key "pub" && String.eqb raw "fat")%bool then Some exampleFAT else None).

Definition gateHook : httpEventHook :=
  mkHook "gate" "https://hook" "0123456789012345678901234567890123456789" [EventLogin] ModeEnforcing "" second.

Definition aliceLookup : Lookup := mkLookup
  (fun subject password => if (String.eqb subject "alice" && String.eqb password "pw")%bool
     then Ok (Some {[ "sub" := VStr "alice" ]}) else Ok None) (fun _ => Ok ∅) "http".

Definition exampleHost : Host :=
  mkHost (mkMinter (exchangerOf ∅) (exampleSigner None) false) true "pub" true "https://host-aud"
    (Some (NewEventDispatcher "host" [gateHook])) [aliceLookup] (24 * hour) [].

(** The hook answers as it is told; the provider vouches for bob. *)
Definition exampleOutside (answer : hook_answer) : outside mapStore :=
  mkOutside (fun _ => answer)
    (fun raw => if String.eqb raw "idt"
                then Some (mkIDToken "n" (Some {[ "sub" := VStr "bob" ]})) else None)
    (fun _ => true) id (fun _ => "failed") "rand" (fun _ => "jti").

Definition yes : hook_answer := HookAnswer 200 (Marshal (mkHookResponse true "")).
Definition no : hook_answer := HookAnswer 200 (Marshal (mkHookResponse false "not today")).

Lemma answered {A B C} (x : A * option B * C * option mapStore) :
  x.1.1.2 = None -> x = ((x.1.1.1, None), x.1.2, x.2).
Proof. destruct x as [[[a o] c] s]. simpl. by intros ->. Qed.

Definition aliceLogin : login_answer * option mapStore :=
  LoginLocal exampleHost (exampleOutside yes) 5 "alice" "pw" "" "" AuthMethodLocal
    (Some (emptyStore hour)).

Lemma aliceLogin_ok : aliceLogin = ((aliceLogin.1.1.1, None), aliceLogin.1.2, aliceLogin.2).
Proof. apply answered. vm_compute. reflexivity. Qed.

Lemma local_login_authentic_witness :
  ts_Subject aliceLogin.1.1.1 = "alice" /\ length aliceLogin.1.2 = 1%nat /\
  exists p, Forall (lets_through (fun _ => yes) 5 p) [gateHook].
Proof.
  destruct (local_login_authentic exampleHost (exampleOutside yes) 5 "alice" "pw" "" "" AuthMethodLocal
    _ _ _ _ aliceLogin_ok) as (cs & source & sub & granted & ctx & Hf & Hsub & _ & -> & _ & _ & _ & Hgate & _).
  vm_compute in Hf. injection Hf as <- <-. vm_compute in Hsub. injection Hsub as <-.
  split; [reflexivity|]. split; [vm_compute; reflexivity|].
  destruct Hgate as (p & _ & _ & _ & Hp); [discriminate|]. exists p. exact Hp.
Defined.

Definition bobLogin : login_answer * option mapStore :=
  ExchangeToken exampleHost (exampleOutside yes) 5 (mkOIDCExchange "idt" "up") (Some (emptyStore hour)).

Lemma bobLogin_ok : bobLogin = ((bobLogin.1.1.1, None), bobLogin.1.2, bobLogin.2).
Proof. apply answered. vm_compute. reflexivity. Qed.

Lemma oidc_login_authentic_witness :
  ts_Subject bobLogin.1.1.1 = "bob" /\ IDToken bobLogin.1.1.1 = "".
Proof.
  destruct (oidc_login_authentic exampleHost (exampleOutside yes) 5 (mkOIDCExchange "idt" "up") _ _ _ _ bobLogin_ok)
    as (t & asserted & sub & ctx & _ & Ht & Ha & Hsub & _ & -> & Hi & _).
  vm_compute in Ht. injection Ht as <-. vm_compute in Ha. injection Ha as <-.
  vm_compute in Hsub. injection Hsub as <-. split; [reflexivity|exact Hi].
Defined.

Definition aliceContext : list string * claims :=
  local_context (<["entitlements" := VStrs []]> $ <["roles" := VStrs []]> {[ "sub" := VStr "alice" ]})
    AuthMethodLocal "".

(** The hook denies alice. *)
Lemma refused_login_leaves_nothing_witness :
  (LoginLocal exampleHost (exampleOutside no) 5 "alice" "pw" "" "" AuthMethodLocal
    (Some (emptyStore hour))).1.1 =
  (about "alice", Some (GrantFailure "login denied: login denied by event hook: not today")).
Proof.
  destruct (GateLogin (fun _ => no) 5 (ho_dispatcher exampleHost) (with_login_name "alice"
    (loginPayload EventLogin aliceContext.2 "alice" "" (Join aliceContext.1 " ") AuthMethodLocal)))
    as [r calls] eqn:Hg.
  assert (r = Err "login denied by event hook: not today") as ->
    by (apply (f_equal fst) in Hg; vm_compute in Hg; symmetry; exact Hg).
  refine (proj2 (proj2 (refused_login_leaves_nothing exampleHost (exampleOutside no) 5 (Some (emptyStore hour))))
    "alice" "pw" "" "" AuthMethodLocal _ "http" _ _ aliceContext.1 aliceContext.2
    eq_refl eq_refl (or_introl eq_refl) _ _ _ _ _ Hg).
  - vm_compute. reflexivity.
  - discriminate.
  - reflexivity.
  - discriminate.
  - vm_compute. reflexivity.
Defined.

Definition hookData : gmap string string :=
  list_to_map [("url", "https://hook"); ("shared-secret", "0123456789012345678901234567890123456789");
    ("events", "login, logout"); ("mode", "enforcing")].

Lemma hook_config_strict_witness :
  exists h, NewHTTPEventHook "gate" hookData = Ok h /\ hk_failureMode h <> FailOpen /\
    hk_mode h = ModeEnforcing.
Proof.
  destruct (NewHTTPEventHook "gate" hookData) as [h|] eqn:Hh; [|vm_compute in Hh; discriminate Hh].
  destruct (hook_config_strict _ _ _ Hh) as (_ & _ & _ & _ & _ & _ & _ & _ & _ & Hm & Hf).
  exists h. split; [reflexivity|]. split; [|apply Hm; vm_compute; reflexivity].
  intros Ho. apply Hf in Ho. vm_compute in Ho. discriminate Ho.
Defined.

Definition appLogin : (TokenSet * option grant_error) * option (DCRStore mapStore) :=
  LoginClientResource exampleHost (exampleOutside yes) 5 "app" "s3cret" "roles" "https://peer" None.

Lemma appLogin_ok : appLogin = ((appLogin.1.1, None), appLogin.2).
Proof. vm_compute. reflexivity. Qed.

Lemma client_login_confined_witness :
  ts_Subject appLogin.1.1 = "app" /\ RefreshToken appLogin.1.1 = "".
Proof.
  destruct (client_login_confined exampleHost (exampleOutside yes) 5 "app" "s3cret" "roles" None
    appLogin.1.1 appLogin.2 "https://peer" true appLogin_ok)
    as (client & granted & ctx & signer & _ & _ & _ & _ & _ & _ & _ & _ & _ & Hr & Hs & _).
  split; [exact Hs|exact Hr].
Defined.

Definition fatExchange : TokenSet * option grant_error :=
  ExchangeSubjectToken exampleHost (exampleOutside yes) 5 "fat" "https://fn-b".

Lemma fatExchange_ok : fatExchange = (fatExchange.1, None).
Proof. vm_compute. reflexivity. Qed.

Lemma exchange_only_delegated_witness :
  exists caller, audiences_of exampleFAT = [caller] /\ caller <> "https://host-aud" /\
    ts_Subject fatExchange.1 = "alice".
Proof.
  destruct (exchange_only_delegated exampleHost (exampleOutside yes) 5 "fat" "https://fn-b" _ fatExchange_ok)
    as (cs & sub & caller & signer & ctx & Hj & _ & _ & _ & Hsub & _ & Ha & Hc & _ & _ & _ & _ & _ & _ & _ & _ & _ & Hs & _).
  change (Some exampleFAT = Some cs) in Hj. injection Hj as <-.
  exists caller. split; [exact Ha|]. split; [exact Hc|]. rewrite Hs.
  vm_compute in Hsub. injection Hsub as <-. reflexivity.
Defined.
