(* ===== verification/SessionGrants.v ===== *)
(** The grants of a browser session, re-resolved on every request
    (src/internal/auth/session_grants.go): the shared generation, the cache
    keyed by it, and the overlay onto the session's claims. A request is the
    sequence of its cache calls, so that refreshes and membership changes
    interleave as they do in the program. *)
From S2P Require Import Prelude GoStr Store Deps Claims Clients Roles Signer SubjectKind Events Mint Login.
From Stdlib Require Import Ascii.

#[local] Open Scope string_scope.

(** * Constants *)

Definition sessionGrantTTL : Z := 60 * second.
Definition grantGenTTL : Z := 24 * hour.
Definition grantGenKey : string := "current".

(** The two caches, [None] when the exchanger has none, with the process's
    nonce and counter. *)
Record GrantStore (St : Type) := mkGrants {
  gs_gen : option St;
  gs_cache : option St;
  gs_nonce : string;
  gs_seq : Z;
}.
Arguments mkGrants {St} _ _ _ _.
Arguments gs_gen {St} _.
Arguments gs_cache {St} _.
Arguments gs_nonce {St} _.
Arguments gs_seq {St} _.

(** * Overlaying *)

(** One turn of the loop. [cloneClaimValue] is a copy. *)
Definition overlay_claim (projected : claims) (scopes : list string) (ac : AuthContext) (claim : string)
    : AuthContext :=
  let ac := delete claim ac in
  if contains_elem scopes claim then
    match projected !! claim with Some v => <[claim := v]> ac | None => ac end
  else ac.

Definition overlayScopedClaims (ac : AuthContext) (projected : claims) (scopes : list string)
    : AuthContext :=
  foldl (overlay_claim projected scopes) ac ["roles"; "entitlements"].

Section SessionGrants.
Context {St} `{CacheOps St} `{!SubjectKinds} `{!Regexp} `{!JwtClaims} `{!Compaction} `{!ClaimsJSON}.

Implicit Types (L : Host) (g : GrantStore St).

Definition set_gen (c : option St) g : GrantStore St := mkGrants c (gs_cache g) (gs_nonce g) (gs_seq g).
Definition set_grants (c : option St) g : GrantStore St := mkGrants (gs_gen g) c (gs_nonce g) (gs_seq g).

(** * The generation *)

Definition grantGeneration (up : bool) (now : Z) g : string * GrantStore St :=
  match gs_gen g with
  | None => ("", g)
  | Some s =>
      if negb up then ("", g) else
      let '(v, s) := cGet now grantGenKey s in (default "" v, set_gen (Some s) g)
  end.

(** [atomic.Uint64.Add(1)]. *)
Definition next_seq (n : Z) : Z := ((n + 1) mod 2 ^ 64)%Z.

(** The new generation, and the counter it leaves: without a nonce the counter
    advances twice. *)
Definition bumped_generation (now : Z) g : string * Z :=
  let seq := next_seq (gs_seq g) in
  if String.eqb (gs_nonce g) "" then
    (FormatInt now ++ "-" ++ FormatInt (next_seq seq), next_seq seq)
  else (gs_nonce g ++ "-" ++ FormatInt seq, seq).

Definition BumpGrantGeneration (up : bool) (now : Z) g : GrantStore St :=
  match gs_gen g with
  | None => g
  | Some s =>
      let '(gen, seq) := bumped_generation now g in
      mkGrants (Some (if up then cSet now grantGenKey gen [] s else s)) (gs_cache g) (gs_nonce g) seq
  end.

(** * Resolving *)

Definition ResolveSubjectClaimsLive L (subject : string) : result unit (option claims) :=
  if String.eqb subject "" then Ok None else ResolveClaimsWithError (ho_lookups L) subject.

(** The body of the singleflight call, short of storing what it resolved. *)
Definition resolve_grants L (ac : AuthContext) (subject : string) (bs : BindingSubject)
    : option claims :=
  let '(roles, ents) :=
    resolveBindings (mi_logEnabled (ho_minter L)) (ex_sp (mi_ex (ho_minter L))) bs in
  match ResolveSubjectClaimsLive L subject with
  | Err _ => None
  | Ok backend =>
      let signingContext : claims :=
        <["entitlements" := VStrs ents]> $ <["roles" := VStrs roles]> $ <["sub" := VStr subject]> ac in
      match Project (mi_signer (ho_minter L)) (mergeBackendClaims signingContext (default ∅ backend)) with
      | Err _ => None
      | Ok projected => Some projected
      end
  end.

(** * One refresh *)

(** Between which two cache calls a refresh stands; past the first, the
    subject and what its roles are bound by are decided. *)
Inductive gpc :=
| GStart
| GLookup (subject : string) (bs : BindingSubject) (key : string)
| GResolve (subject : string) (bs : BindingSubject) (key : string)
| GStore (key : string) (projected : claims)
| GDone (ac : AuthContext).

(** What is decided before any cache is read: the context to leave with, or
    the subject to resolve. *)
Definition session_subject L (ac : AuthContext) : result AuthContext (string * BindingSubject) :=
  if bool_claim ac CapUsesClaim then Err ac else
  match jwtGetSubject ac with
  | Err _ => Err ac
  | Ok subject =>
      if String.eqb subject "" then Err ac else
      let dropped := overlayScopedClaims ac (<["roles" := VStrs []]> {[ "entitlements" := VStrs [] ]})
        (strings_or_nil (GetScopes ac)) in
      if negb (String.eqb (ContextSubjectKind (mi_ex (ho_minter L)) ac) SubjectKindUser)
      then Err (if String.eqb (str_claim ac ClaimSubjectKind) "" then dropped else ac)
      else let '(bs, named) := userBindingSubject (mi_ex (ho_minter L)) ac subject SiteSessionGrantRefresh in
           match named with
           | Err _ => Err dropped
           | Ok _ => Ok (subject, bs)
           end
  end.

Definition overlaid (ac : AuthContext) (projected : claims) : AuthContext :=
  overlayScopedClaims ac projected (strings_or_nil (GetScopes ac)).

(** One step: [up] is whether its cache call answers, [ttl] the jittered TTL it
    would store with. *)
Definition grants_step L (up : bool) (now ttl : Z) (ac : AuthContext) (p : gpc) g : gpc * GrantStore St :=
  match p with
  | GStart =>
      match session_subject L ac with
      | Err ac' => (GDone ac', g)
      | Ok (subject, bs) =>
          let '(gen, g) := grantGeneration up now g in (GLookup subject bs (gen ++ "|" ++ subject), g)
      end
  | GLookup subject bs key =>
      match gs_cache g with
      | None => (GResolve subject bs key, g)
      | Some s =>
          if negb up then (GResolve subject bs key, g) else
          let '(v, s) := cGet now key s in
          (match v ≫= (fun raw => if String.eqb raw "" then None else UnmarshalClaims raw) with
           | Some projected => GDone (overlaid ac projected)
           | None => GResolve subject bs key
           end, set_grants (Some s) g)
      end
  | GResolve subject bs key =>
      (match resolve_grants L ac subject bs with
       | None => GDone ac
       | Some projected => GStore key projected
       end, g)
  | GStore key projected =>
      (GDone (overlaid ac projected),
       match gs_cache g with
       | Some s =>
           if up then set_grants (Some (cSet now key (MarshalClaims projected) [WithTTL ttl] s)) g else g
       | None => g
       end)
  | GDone ac' => (GDone ac', g)
  end.

(** A refresh on its own; [up] by call. *)
Definition refreshSessionGrants L (up : nat -> bool) (now ttl : Z) (ac : AuthContext) g
    : AuthContext * GrantStore St :=
  let step n '(p, g) := grants_step L (up n) now ttl ac p g in
  let '(p, g) := step 3%nat (step 2%nat (step 1%nat (step 0%nat (GStart, g)))) in
  (match p with GDone ac' => ac' | _ => ac end, g).

(** * Any number of refreshes, and changes of membership *)

(** A system: what the host resolves from now, the shared caches, the requests
    under way, and, for the proofs, everything resolved so far. *)
Record gsystem := mkGSystem {
  gy_host : Host;
  gy_store : GrantStore St;
  gy_threads : list (AuthContext * gpc);
  gy_resolved : list (Host * string * claims);
}.

(** What a step resolved. *)
Definition resolved_by L (ac : AuthContext) (p : gpc) : list (Host * string * claims) :=
  match p with
  | GResolve subject bs _ =>
      match resolve_grants L ac subject bs with
      | Some projected => [(L, subject, projected)]
      | None => []
      end
  | _ => []
  end.

(** A request arrives; the membership changes to anything; the generation is
    bumped; a request takes a step; a request that would resolve is given what
    another one of this process has resolved for its key (the singleflight). *)
Inductive grants_sys : gsystem -> gsystem -> Prop :=
| gstep_arrive y ac :
    grants_sys y (mkGSystem (gy_host y) (gy_store y) (gy_threads y ++ [(ac, GStart)]) (gy_resolved y))
| gstep_membership y L :
    grants_sys y (mkGSystem L (gy_store y) (gy_threads y) (gy_resolved y))
| gstep_bump y up now :
    grants_sys y (mkGSystem (gy_host y) (BumpGrantGeneration up now (gy_store y)) (gy_threads y)
      (gy_resolved y))
| gstep_thread y i ac p p' up now ttl g' :
    gy_threads y !! i = Some (ac, p) ->
    grants_step (gy_host y) up now ttl ac p (gy_store y) = (p', g') ->
    grants_sys y (mkGSystem (gy_host y) g' (<[i := (ac, p')]> (gy_threads y))
      (resolved_by (gy_host y) ac p ++ gy_resolved y))
| gstep_shared y i ac subject bs key j ac' projected :
    gy_threads y !! i = Some (ac, GResolve subject bs key) ->
    gy_threads y !! j = Some (ac', GStore key projected) ->
    grants_sys y (mkGSystem (gy_host y) (gy_store y)
      (<[i := (ac, GDone (overlaid ac projected))]> (gy_threads y)) (gy_resolved y)).
End SessionGrants.
Arguments gsystem St {_}.
