(* ===== verification/GrantsSpec.v ===== *)
(** What the per-request refresh of a session's grants guarantees: nothing
    resolved before a membership change is served after the generation moved,
    and a refresh only ever touches roles and entitlements. *)
From S2P Require Import Prelude GoStr Store Deps Claims Clients Roles Signer SubjectKind Events Mint Login SessionGrants.
From S2P Require Import SignerSpec IdentitySpec MintSpec LoginSpec.
From Stdlib Require Import Ascii.

#[local] Open Scope string_scope.

(** The first separator splits uniquely. *)
Lemma append_first_sep_inj c a a' b b' :
  has_byte c a = false -> has_byte c a' = false ->
  a ++ String c b = a' ++ String c b' -> a = a' /\ b = b'.
Proof.
  revert a'. induction a as [|d a IH]; intros [|d' a'] Ha Ha' Heq; cbn in Ha, Ha', Heq.
  - by injection Heq as ->.
  - injection Heq as <- _. by rewrite Ascii.eqb_refl in Ha'.
  - injection Heq as -> _. by rewrite Ascii.eqb_refl in Ha.
  - injection Heq as -> Heq. apply orb_false_iff in Ha as [_ Ha], Ha' as [_ Ha'].
    destruct (IH a' Ha Ha' Heq) as [-> ->]. done.
Qed.

(** * The overlay *)

Lemma overlay_claim_lookup projected scopes ac claim k :
  overlay_claim projected scopes ac claim !! k =
  if decide (k = claim) then (if contains_elem scopes claim then projected !! claim else None)
  else ac !! k.
Proof.
  unfold overlay_claim. case_decide as Hk.
  - subst. destruct (contains_elem scopes claim); [|apply lookup_delete_eq].
    destruct (projected !! claim) as [v|]; [apply lookup_insert_eq|apply lookup_delete_eq].
  - destruct (contains_elem scopes claim); [destruct (projected !! claim)|];
      rewrite ?lookup_insert_ne by done; by rewrite lookup_delete_ne.
Qed.

Lemma overlay_lookup ac projected scopes k :
  overlayScopedClaims ac projected scopes !! k =
  if decide (k = "roles" \/ k = "entitlements")
  then (if contains_elem scopes k then projected !! k else None)
  else ac !! k.
Proof.
  unfold overlayScopedClaims. cbn [foldl]. rewrite !overlay_claim_lookup.
  destruct (decide (k = "entitlements")) as [->|He]; [by rewrite decide_True by (by right)|].
  destruct (decide (k = "roles")) as [->|Hr]; [by rewrite decide_True by (by left)|].
  by rewrite decide_False by tauto.
Qed.

Section GrantsSpec.
Context {St} `{CacheOps St} `{!CacheSafe St} `{!SubjectKinds} `{!Regexp} `{!JwtClaims} `{!Compaction}
  `{!ClaimsJSON}.

Implicit Types (L : Host) (g : GrantStore St) (y : gsystem St).

(** * What a refresh may change *)

(** Every context a refresh can end with. *)
Definition refreshed_to (ac ac' : AuthContext) : Prop :=
  ac' = ac \/ exists projected, ac' = overlayScopedClaims ac projected (strings_or_nil (GetScopes ac)).

Lemma session_subject_Err L ac ac' : session_subject L ac = Err ac' -> refreshed_to ac ac'.
Proof.
  unfold session_subject. destruct (bool_claim ac CapUsesClaim); [intros [= <-]; by left|].
  destruct (jwtGetSubject ac) as [sub|]; [|intros [= <-]; by left].
  destruct (String.eqb sub ""); [intros [= <-]; by left|]. cbn zeta.
  destruct (negb _).
  - destruct (String.eqb _ ""); intros [= <-]; [right; by eexists|by left].
  - destruct (userBindingSubject _ _ _ _) as [bs [[]|]]; [done|]. intros [= <-]. right. by eexists.
Qed.

Lemma grants_step_done L up now ttl ac p g ac' g' :
  grants_step L up now ttl ac p g = (GDone ac', g') -> p = GDone ac' \/ refreshed_to ac ac'.
Proof.
  destruct p as [|subject bs key|subject bs key|key projected|a]; cbn [grants_step].
  - destruct (session_subject L ac) as [[subject bs]|ac''] eqn:Hs.
    + by destruct (grantGeneration up now g).
    + intros [= <- _]. right. by eapply session_subject_Err.
  - destruct (gs_cache g) as [s|]; [|done]. destruct up; [|done]. cbn [negb].
    destruct (cGet now key s) as [v s']. case_match; [|done]. intros [= <- _].
    right. right. by eexists.
  - destruct (resolve_grants L ac subject bs) as [projected|]; [done|]. intros [= <- _].
    right. by left.
  - intros [= <- _]. right. right. by eexists.
  - intros [= -> _]. by left.
Qed.

(** * Freshness *)

Definition key_of (gen subject : string) : string := gen ++ "|" ++ subject.

(** The key a request under way goes by. *)
Definition pc_key (p : gpc) : option string :=
  match p with
  | GLookup _ _ key | GResolve _ _ key | GStore key _ => Some key
  | _ => None
  end.

(** A generation and a subject can be told apart in a key. *)
Definition plain (gen : string) : Prop := has_byte "|" gen = false.

Lemma key_of_inj gen gen' subject subject' :
  plain gen -> plain gen' -> key_of gen subject = key_of gen' subject' ->
  gen = gen' /\ subject = subject'.
Proof. apply append_first_sep_inj. Qed.

Lemma plain_uint d : plain (DecimalString.NilEmpty.string_of_uint d).
Proof. unfold plain. induction d; cbn; try done; exact IHd. Qed.

Lemma plain_FormatInt z : plain (FormatInt z).
Proof.
  unfold FormatInt, DecimalString.NilZero.string_of_int, DecimalString.NilZero.string_of_uint.
  assert (forall d, plain match d with Decimal.Nil => "0" | _ => DecimalString.NilEmpty.string_of_uint d end)
    as Hd by (intros []; [done|apply plain_uint..]).
  destruct (Z.to_int z) as [d|d]; [apply Hd|]. unfold plain. cbn. apply Hd.
Qed.

(** What the system keeps to: generations are plain, and a request that still
    knows its subject goes by a key of that subject. *)
Definition pc_wf (p : gpc) : Prop :=
  match p with
  | GLookup subject _ key | GResolve subject _ key => exists gen, plain gen /\ key = key_of gen subject
  | _ => True
  end.

Definition well_formed y : Prop :=
  plain (gs_nonce (gy_store y)) /\
  (forall s v e, gs_gen (gy_store y) = Some s -> cabs s !! grantGenKey = Some (v, e) -> plain v) /\
  (forall ac p, (ac, p) ∈ gy_threads y -> pc_wf p).

(** Nothing is stored under the generation, and no request goes by it. *)
Definition unseen (gen : string) y : Prop :=
  (forall subject s, gs_cache (gy_store y) = Some s -> cabs s !! key_of gen subject = None) /\
  (forall ac p, (ac, p) ∈ gy_threads y -> forall subject, pc_key p <> Some (key_of gen subject)).

(** All that goes by the generation was resolved among [news]. *)
Definition from_news (gen : string) (news : list (Host * string * claims)) y : Prop :=
  (forall subject s v e, gs_cache (gy_store y) = Some s ->
     cabs s !! key_of gen subject = Some (v, e) ->
     exists L projected, (L, subject, projected) ∈ news /\ v = MarshalClaims projected) /\
  (forall ac projected subject, (ac, GStore (key_of gen subject) projected) ∈ gy_threads y ->
     exists L, (L, subject, projected) ∈ news).

Lemma plain_app a b : plain a -> plain b -> plain (a ++ b).
Proof. unfold plain. rewrite has_byte_append. by intros -> ->. Qed.

Lemma bumped_plain now g : plain (gs_nonce g) -> plain (bumped_generation now g).1.
Proof.
  intros Hn. unfold bumped_generation.
  destruct (String.eqb (gs_nonce g) ""); cbn [fst]; apply plain_app; try done; try apply plain_FormatInt;
    apply plain_app; try done; apply plain_FormatInt.
Qed.

Lemma bump_cache up now g : gs_cache (BumpGrantGeneration up now g) = gs_cache g.
Proof. unfold BumpGrantGeneration. destruct (gs_gen g); [|done]. by destruct (bumped_generation now g). Qed.

Lemma thread_in (l : list (AuthContext * gpc)) i x x' a b :
  l !! i = Some x -> (a, b) ∈ <[i := x']> l -> (a, b) = x' \/ (a, b) ∈ l.
Proof.
  intros Hi Hin. apply list_elem_of_lookup in Hin as [j Hj].
  destruct (decide (j = i)) as [->|Hne].
  - rewrite list_lookup_insert_eq in Hj by (by eapply lookup_lt_Some). left. congruence.
  - rewrite list_lookup_insert_ne in Hj by done. right. by apply list_elem_of_lookup_2 in Hj.
Qed.

#[local] Ltac same_store := split; [done|]; split; intros s' Hs'; exists s'; split; try congruence; by left.

(** What one step of a request does to the store. *)
Lemma grants_step_store L up now ttl ac p g p' g' :
  grants_step L up now ttl ac p g = (p', g') ->
  gs_nonce g' = gs_nonce g /\
  (forall s', gs_gen g' = Some s' -> exists s, gs_gen g = Some s /\ cabs s' = cabs s) /\
  (forall s', gs_cache g' = Some s' -> exists s, gs_cache g = Some s /\
     (cabs s' = cabs s \/
      exists key projected e, p = GStore key projected /\
        cabs s' ⊆ <[key := (MarshalClaims projected, e)]> (cabs s))).
Proof.
  destruct p as [|subject bs key|subject bs key|key projected|a]; cbn [grants_step].
  - destruct (session_subject L ac) as [[subject bs]|]; [|intros [= _ <-]; same_store].
    unfold grantGeneration. destruct (gs_gen g) as [s|] eqn:Hg; [|intros [= _ <-]; same_store].
    destruct up; cbn [negb]; [|intros [= _ <-]; same_store].
    pose proof (cGet_abs now grantGenKey s) as Ha. destruct (cGet now grantGenKey s) as [v s1].
    intros [= _ <-]. cbn in Ha |- *. split_and!; [done|intros s' [= <-]; eauto|].
    intros s' Hs'. exists s'. split; [done|by left].
  - destruct (gs_cache g) as [s|] eqn:Hc; [|intros [= _ <-]; same_store].
    destruct up; cbn [negb]; [|intros [= _ <-]; same_store].
    pose proof (cGet_abs now key s) as Ha. destruct (cGet now key s) as [v s1].
    intros [= _ <-]. cbn in Ha |- *. split_and!; [done| |intros s' [= <-]; eauto].
    intros s' Hs'. exists s'. done.
  - intros [= _ <-]. same_store.
  - destruct (gs_cache g) as [s|] eqn:Hc; [|intros [= _ <-]; same_store].
    destruct up; [|intros [= _ <-]; same_store].
    intros [= _ <-]. cbn. split_and!; [done|intros s' Hs'; by exists s'|].
    intros s' [= <-]. exists s. split; [done|].
    right. eexists _, _, _. split; [done|]. apply cSet_sub.
  - intros [= _ <-]. same_store.
Qed.

Lemma step_well_formed y y' : well_formed y -> grants_sys y y' -> well_formed y'.
Proof.
  intros (Hn & Hgen & Hth) Hstep. unfold well_formed.
  destruct Hstep as [y ac|y L|y up now|y i ac p p' up now ttl g' Hi Hs|y i ac subject bs key j ac' projected Hi Hj];
    cbn in *.
  - split_and!; [done|done|]. intros a p [?|Hp]%elem_of_app; [by eapply Hth|].
    apply list_elem_of_singleton in Hp as [= -> ->]. done.
  - split_and!; done.
  - unfold BumpGrantGeneration. destruct (gs_gen (gy_store y)) as [s|] eqn:Hg.
    2: { split_and!; [done|intros s v e Hs; congruence|done]. }
    pose proof (bumped_plain now (gy_store y) Hn) as Hp.
    destruct (bumped_generation now (gy_store y)) as [gen seq]. cbn in *. split_and!; [done| |done].
    intros s' v e [= <-] Hv. destruct up; [|by eapply Hgen].
    rewrite cSet_at in Hv. by injection Hv as <- _.
  - pose proof (grants_step_store _ _ _ _ _ _ _ _ _ Hs) as (Hn' & Hg' & _). rewrite Hn'. split_and!; [done| |].
    + intros s' v e Hs' Hv. destruct (Hg' s' Hs') as (s & Hsg & Ha). rewrite Ha in Hv. by eapply Hgen.
    + intros a q Hin. destruct (thread_in _ _ _ _ _ _ Hi Hin) as [[= -> ->]|Hold]; [|by eapply Hth].
      pose proof (Hth ac p (list_elem_of_lookup_2 _ _ _ Hi)) as Hp.
      destruct p as [|subject bs key|subject bs key|key projected|a']; cbn [grants_step] in Hs.
      * destruct (session_subject _ ac) as [[subject bs]|]; [|by injection Hs as <- _].
        unfold grantGeneration in Hs. destruct (gs_gen (gy_store y)) as [s|] eqn:Hg.
        2: { injection Hs as <- _. by exists "". }
        destruct up; cbn [negb] in Hs; [|injection Hs as <- _; by exists ""].
        pose proof (cGet_val now grantGenKey s) as Hv. destruct (cGet now grantGenKey s) as [v s1].
        injection Hs as <- _. cbn in Hv |- *. exists (default "" v). split; [|done].
        subst v. unfold st_get. destruct (cabs s !! grantGenKey) as [[v e]|] eqn:Hk; [|done]. cbn.
        destruct (after now e); [done|]. by eapply Hgen.
      * destruct (gs_cache (gy_store y)) as [s|]; [|by injection Hs as <- _].
        destruct up; cbn [negb] in Hs; [|by injection Hs as <- _].
        destruct (cGet now key s) as [v s1]. injection Hs as <- _. by case_match.
      * injection Hs as <- _. by destruct (resolve_grants _ _ _ _).
      * by injection Hs as <- _.
      * by injection Hs as <- _.
  - split_and!; [done|done|]. intros a q Hin.
    by destruct (thread_in _ _ _ _ _ _ Hi Hin) as [[= -> ->]|Hold]; [|eapply Hth].
Qed.

Lemma from_news_mono gen news more y : from_news gen news y -> from_news gen (more ++ news) y.
Proof.
  intros [Hc Ht]. split.
  - intros subject s v e Hs Hv. destruct (Hc _ _ _ _ Hs Hv) as (L & p & Hin & ->).
    exists L, p. split; [apply elem_of_app; by right|done].
  - intros ac p subject Hin. destruct (Ht _ _ _ Hin) as [L HL]. exists L. apply elem_of_app. by right.
Qed.

Lemma step_from_news gen news y y' :
  plain gen -> well_formed y -> from_news gen news y -> grants_sys y y' ->
  exists more, gy_resolved y' = (more ++ gy_resolved y)%list /\ from_news gen (more ++ news) y'.
Proof.
  intros Hpl (Hn & Hgen & Hth) Hfrom Hstep. pose proof Hfrom as [Hc Ht].
  destruct Hstep as [y ac|y L|y up now|y i ac p p' up now ttl g' Hi Hs|y i ac subject bs key j ac' projected Hi Hj];
    cbn in *.
  - exists []. split; [done|]. split; [done|]. cbn. intros a p subject [?|Hp]%elem_of_app; [by eapply Ht|].
    by apply list_elem_of_singleton in Hp.
  - exists []. done.
  - exists []. split; [done|]. split; [|done]. cbn. by rewrite bump_cache.
  - exists (resolved_by (gy_host y) ac p). split; [done|].
    pose proof (grants_step_store _ _ _ _ _ _ _ _ _ Hs) as (_ & _ & Hcache).
    apply (from_news_mono _ _ (resolved_by (gy_host y) ac p)) in Hfrom as [Hc' Ht']. split; cbn.
    + intros subject s' v e Hs' Hv. destruct (Hcache s' Hs') as (s & Hsc & [Ha|(key & q & e' & -> & Hsub)]).
      * rewrite Ha in Hv. by eapply Hc'.
      * pose proof (lookup_weaken _ _ _ _ Hv Hsub) as Hw.
        destruct (decide (key = key_of gen subject)) as [->|Hne].
        -- rewrite lookup_insert_eq in Hw. injection Hw as <- _.
           destruct (Ht' _ _ _ (list_elem_of_lookup_2 _ _ _ Hi)) as [L HL]. by exists L, q.
        -- rewrite lookup_insert_ne in Hw by done. by eapply Hc'.
    + intros a q subject Hin. destruct (thread_in _ _ _ _ _ _ Hi Hin) as [[= -> <-]|Hold]; [|by eapply Ht'].
      pose proof (Hth ac p (list_elem_of_lookup_2 _ _ _ Hi)) as Hp.
      destruct p as [|sub bs key|sub bs key|key q'|a']; cbn [grants_step] in Hs.
      * destruct (session_subject _ ac) as [[sub bs]|]; [|done].
        by destruct (grantGeneration up now (gy_store y)).
      * destruct (gs_cache (gy_store y)) as [s|]; [|done]. destruct up; [|done].
        destruct (cGet now key s) as [v s1]. cbn [negb] in Hs. by case_match.
      * cbn [resolved_by]. destruct (resolve_grants (gy_host y) ac sub bs) as [r|] eqn:Hr; [|done].
        injection Hs as -> -> _. destruct Hp as (gen' & Hpl' & Heq).
        apply key_of_inj in Heq as [_ <-]; [|done..]. exists (gy_host y). left.
      * done.
      * done.
  - exists []. split; [done|]. split; [done|]. cbn. intros a q sub Hin.
    by destruct (thread_in _ _ _ _ _ _ Hi Hin) as [?|Hold]; [|eapply Ht].
Qed.

Lemma run_from_news gen y y' :
  plain gen -> rtc grants_sys y y' -> forall news,
  well_formed y -> from_news gen news y ->
  exists more, gy_resolved y' = (more ++ gy_resolved y)%list /\ from_news gen (more ++ news) y' /\ well_formed y'.
Proof.
  intros Hpl. induction 1 as [y|y y1 y2 Hstep _ IH]; intros news Hwf Hfrom.
  - exists []. done.
  - destruct (step_from_news _ _ _ _ Hpl Hwf Hfrom Hstep) as (m1 & Hm1 & Hf1).
    destruct (IH _ (step_well_formed _ _ Hwf Hstep) Hf1) as (m2 & Hm2 & Hf2 & Hwf2).
    exists (m2 ++ m1)%list. by rewrite Hm2, Hm1, <- !app_assoc.
Qed.

Lemma unseen_from_news gen y : unseen gen y -> from_news gen [] y.
Proof.
  intros [Hc Ht]. split.
  - intros subject s v e Hs Hv. rewrite (Hc _ _ Hs) in Hv. done.
  - intros ac p subject Hin. exfalso. by apply (Ht _ _ Hin subject).
Qed.

(** The request stands where it goes by the key of this generation and
    subject. *)
Definition goes_by (gen subject : string) (p : gpc) : Prop := pc_key p = Some (key_of gen subject).

(** C34: After a membership change nobody is served what was resolved before it.
    Let a bump move the shared generation to one nothing was stored under.
    From then on, until the entry is lost or bumped again, a request reads
    that generation; and whatever requests, changes, bumps and further
    refreshes interleave, cache call by cache call, with any of them failing,
    a request that goes by it either leaves the session as its token froze
    it, or overlays grants that were resolved after the bump, for the same
    subject (read back from the cache, or shared by a concurrent request,
    possibly). *)
Theorem bumped_grants_are_fresh y0 now0 s0 :
  let gen := (bumped_generation now0 (gy_store y0)).1 in
  gs_gen (gy_store y0) = Some s0 -> well_formed y0 -> unseen gen y0 ->
  let y1 := mkGSystem (gy_host y0) (BumpGrantGeneration true now0 (gy_store y0)) (gy_threads y0)
    (gy_resolved y0) in
  (forall now, now <= now0 + cTTL s0 -> (grantGeneration true now (gy_store y1)).1 = gen) /\
  (forall y i ac p subject up now ttl ac' g',
     rtc grants_sys y1 y -> gy_threads y !! i = Some (ac, p) -> goes_by gen subject p ->
     grants_step (gy_host y) up now ttl ac p (gy_store y) = (GDone ac', g') ->
     ac' = ac \/
     exists news L projected served,
       gy_resolved y = (news ++ gy_resolved y0)%list /\ (L, subject, projected) ∈ news /\
       (served = projected \/ UnmarshalClaims (MarshalClaims projected) = Some served) /\
       ac' = overlaid ac served).
Proof.
  intros gen Hs0 Hwf Hun y1.
  assert (plain gen) as Hpl by (apply bumped_plain; apply Hwf).
  assert (grants_sys y0 y1) as Hbump by apply gstep_bump.
  pose proof (step_well_formed _ _ Hwf Hbump) as Hwf1.
  assert (from_news gen [] y1) as Hfrom1.
  { destruct (unseen_from_news _ _ Hun) as [Hc Ht]. split; [|done]. cbn. by rewrite bump_cache. }
  split.
  - intros now Hnow. unfold y1, grantGeneration, BumpGrantGeneration. cbn [gy_store]. rewrite Hs0.
    subst gen. destruct (bumped_generation now0 (gy_store y0)) as [gen seq]. cbn [gs_gen negb].
    pose proof (cGet_val now grantGenKey (cSet now0 grantGenKey gen [] s0)) as Hv.
    destruct (cGet now grantGenKey _) as [v s]. cbn in Hv |- *. subst v.
    rewrite cSet_live; [done|]. unfold expiry_of. cbn. lia.
  - intros y i ac p subject up now ttl ac' g' Hrun Hi Hgo Hs.
    destruct (run_from_news gen _ _ Hpl Hrun [] Hwf1 Hfrom1) as (news & Hnews & Hfrom & Hwfy).
    rewrite app_nil_r in Hfrom. destruct Hfrom as [Hc Ht]. cbn [gy_resolved] in Hnews.
    destruct p as [|sub bs key|sub bs key|key projected|a]; unfold goes_by in Hgo; cbn in Hgo; try done;
      injection Hgo as ->; cbn [grants_step] in Hs.
    + destruct (gs_cache (gy_store y)) as [s|] eqn:Hcache; [|done]. destruct up; [|done]. cbn [negb] in Hs.
      pose proof (cGet_val now (key_of gen subject) s) as Hv.
      destruct (cGet now (key_of gen subject) s) as [v s1]. cbn in Hv. subst v. unfold st_get in Hs.
      destruct (cabs s !! key_of gen subject) as [[v e]|] eqn:Hk; [|done]. cbn in Hs.
      destruct (after now e); [done|]. cbn in Hs.
      destruct (Hc _ _ _ _ eq_refl Hk) as (L & projected & Hin & ->).
      destruct (String.eqb _ ""); [done|].
      destruct (UnmarshalClaims (MarshalClaims projected)) as [served|] eqn:Hu; [|done].
      injection Hs as <- _. right. exists news, L, projected, served. split_and!; try done. by right.
    + destruct (resolve_grants (gy_host y) ac sub bs); [done|]. injection Hs as <- _. by left.
    + injection Hs as <- _. right.
      destruct (Ht _ _ _ (list_elem_of_lookup_2 _ _ _ Hi)) as [L HL].
      exists news, L, projected, projected. split_and!; try done. by left.
Qed.

(** * One refresh on its own *)

Lemma refresh_refreshed_to L up now ttl ac g :
  refreshed_to ac (refreshSessionGrants L up now ttl ac g).1.
Proof.
  unfold refreshSessionGrants.
  assert (forall n x, (forall a, x.1 = GDone a -> refreshed_to ac a) ->
    forall a, (let '(p, g) := x in grants_step L (up n) now ttl ac p g).1 = GDone a -> refreshed_to ac a)
    as Hstep.
  { intros n [p g'] Hx a Hd. destruct (grants_step L (up n) now ttl ac p g') as [p' g''] eqn:Hs.
    cbn in Hd. subst p'. destruct (grants_step_done _ _ _ _ _ _ _ _ _ Hs) as [->|?]; [by apply Hx|done]. }
  set (x := let '(p, g) := _ in grants_step L (up 3%nat) now ttl ac p g).
  assert (forall a, x.1 = GDone a -> refreshed_to ac a) as Hx
    by (do 3 apply Hstep; by apply (Hstep 0%nat (GStart, g))).
  destruct x as [p g']. cbn in Hx. destruct p; try (by left). by apply Hx.
Qed.

Lemma refresh_decided L up now ttl ac g ac' :
  session_subject L ac = Err ac' -> (refreshSessionGrants L up now ttl ac g).1 = ac'.
Proof. intros Hs. unfold refreshSessionGrants. cbn [grants_step]. by rewrite Hs. Qed.

(** A refresh can only take away, or re-derive, what the session's scope
    already covers. Whatever the caches and lookups answer, no claim but
    roles and entitlements changes; a claim outside the session's scopes is
    never added; a capability token and a session of any recorded kind but
    User keep the claims they were signed with; and a session that records
    the User kind, or none, while its subject names a client, is left
    without a single role or entitlement. *)
Theorem session_refresh_confined L up now ttl ac g :
  let ac' := (refreshSessionGrants L up now ttl ac g).1 in
  let recorded := str_claim ac ClaimSubjectKind in
  (forall k, k <> "roles" -> k <> "entitlements" -> ac' !! k = ac !! k) /\
  (forall k, k ∉ strings_or_nil (GetScopes ac) -> ac' !! k = ac !! k \/ ac' !! k = None) /\
  (ac !! CapUsesClaim = Some (VBool true) -> ac' = ac) /\
  (recorded <> "" -> recorded <> SubjectKindUser -> ac' = ac) /\
  (forall sub k, ac !! CapUsesClaim <> Some (VBool true) -> ac !! "sub" = Some (VStr sub) -> sub <> "" ->
     NamesClient (mi_ex (ho_minter L)) sub = true -> recorded = "" \/ recorded = SubjectKindUser ->
     k = "roles" \/ k = "entitlements" -> ac' !! k = None \/ ac' !! k = Some (VStrs [])).
Proof.
  cbn zeta. pose proof (refresh_refreshed_to L up now ttl ac g) as Hr. split_and!.
  - intros k H1' H2'. destruct Hr as [->|[q ->]]; [done|]. rewrite overlay_lookup. by rewrite decide_False by tauto.
  - intros k Hk. destruct Hr as [->|[q ->]]; [by left|]. rewrite overlay_lookup. case_decide; [right|by left].
    destruct (contains_elem _ k) eqn:Hc; [by apply contains_elem_spec in Hc|done].
  - intros Hcap. apply refresh_decided. unfold session_subject, bool_claim. by rewrite Hcap.
  - intros Hne Hnu. set (e := session_subject L ac). destruct e as [[subject bs]|a] eqn:He; subst e.
    + exfalso. unfold session_subject in He. repeat (case_match; try done).
      unfold ContextSubjectKind, kindOrLegacy in *.
      rewrite (proj2 (String.eqb_neq _ _) Hne) in *. cbn [andb negb] in *.
      rewrite (proj2 (String.eqb_neq _ _) Hnu) in *. done.
    + rewrite (refresh_decided _ _ _ _ _ _ _ He). unfold session_subject in He.
      destruct (bool_claim ac CapUsesClaim); [by injection He as <-|].
      destruct (jwtGetSubject ac) as [sub|]; [|by injection He as <-].
      destruct (String.eqb sub ""); [by injection He as <-|]. cbn zeta in He.
      unfold ContextSubjectKind, kindOrLegacy in He. rewrite (proj2 (String.eqb_neq _ _) Hne) in He.
      cbn [andb negb] in He. rewrite (proj2 (String.eqb_neq _ _) Hnu) in He. by injection He as <-.
  - intros sub k Hcap Hsub Hne Hnames Hrec Hk.
    assert (session_subject L ac = Err (overlayScopedClaims ac
      (<["roles" := VStrs []]> {[ "entitlements" := VStrs [] ]}) (strings_or_nil (GetScopes ac)))) as He.
    { unfold session_subject.
      assert (bool_claim ac CapUsesClaim = false) as ->.
      { unfold bool_claim. destruct (ac !! CapUsesClaim) as [[|[]|?|?|?|?|?]|] eqn:Hc; done. }
      rewrite (jwtGetSubject_string _ _ Hsub), (proj2 (String.eqb_neq _ _) Hne). cbn zeta.
      assert (str_claim ac "sub" = sub) as Hstr by (unfold str_claim; by rewrite Hsub).
      unfold ContextSubjectKind, kindOrLegacy. rewrite Hstr.
      assert (NamesClient (mi_ex (ho_minter L)) sub = true -> SubjectKindOf (mi_ex (ho_minter L)) sub =
        SubjectKindClient) as Hkof by (unfold SubjectKindOf; by intros ->).
      destruct Hrec as [Hrec|Hrec]; rewrite Hrec.
      - cbn [String.eqb andb negb]. rewrite Hkof by done.
        assert ((if found (ClientCredentialsSubject ac) then SubjectKindClient else SubjectKindClient) =
          SubjectKindClient) as -> by (by destruct (found _)).
        by rewrite (proj2 (String.eqb_neq SubjectKindClient SubjectKindUser) Client_not_User).
      - rewrite (proj2 (String.eqb_neq SubjectKindUser "")) by apply kinds_nonempty.
        cbn [andb negb]. rewrite String.eqb_refl. cbn [negb]. unfold userBindingSubject.
        cbn [refuseClientNamedIdentity]. by rewrite Hnames. }
    rewrite (refresh_decided _ _ _ _ _ _ _ He), overlay_lookup, decide_True by done.
    destruct (contains_elem _ k); [|by left]. right.
    destruct Hk as [-> | ->]; reflexivity.
Qed.
End GrantsSpec.

(** * Witnesses *)


#[local] Existing Instance kindsExample.
#[local] Existing Instance jwtExample.
#[local] Existing Instance compactExample.
#[local] Existing Instance noRegexp.
#[local] Existing Instance claimsJSONExample.

Definition aliceSession : claims :=
  <["sub" := VStr "alice"]> $ <["knd" := VStr "User"]> $ <["scope" := VStr "openid roles"]> $
  {[ "roles" := VStrs ["old"] ]}.

Definition idleGrants : GrantStore mapStore :=
  mkGrants (Some (emptyStore grantGenTTL)) (Some (emptyStore sessionGrantTTL)) "n0nce" 0.

Definition idle : gsystem mapStore := mkGSystem exampleHost idleGrants [] [].

(** A request arrives after the bump and takes three steps. *)
Definition after_bump : gsystem mapStore :=
  mkGSystem exampleHost (BumpGrantGeneration true 5 idleGrants) [] [].
Definition arrived : gsystem mapStore :=
  mkGSystem exampleHost (gy_store after_bump) [(aliceSession, GStart)] [].

Definition thread_moves (y : gsystem mapStore) (p : gpc) : gsystem mapStore :=
  let '(p', g') := grants_step exampleHost true 6 sessionGrantTTL aliceSession p (gy_store y) in
  mkGSystem exampleHost g' [(aliceSession, p')]
    (resolved_by exampleHost aliceSession p ++ gy_resolved y).

Definition pc_of (y : gsystem mapStore) : gpc := match gy_threads y with [(_, p)] => p | _ => GStart end.

Definition moved1 := thread_moves arrived GStart.
Definition moved2 := thread_moves moved1 (pc_of moved1).
Definition moved3 := thread_moves moved2 (pc_of moved2).

Lemma thread_moves_sys y p :
  gy_host y = exampleHost -> gy_threads y = [(aliceSession, p)] -> grants_sys y (thread_moves y p).
Proof.
  intros Hh Ht. unfold thread_moves.
  destruct (grants_step exampleHost true 6 sessionGrantTTL aliceSession p (gy_store y)) as [p' g'] eqn:Hs.
  pose proof (gstep_thread y 0 aliceSession p p' true 6 sessionGrantTTL g') as Hstep.
  rewrite Hh, Ht in Hstep. by apply Hstep.
Qed.

Lemma moved3_reachable : rtc grants_sys after_bump moved3.
Proof.
  eapply rtc_l; [exact (gstep_arrive after_bump aliceSession)|].
  eapply rtc_l; [exact (thread_moves_sys arrived GStart eq_refl eq_refl)|].
  eapply rtc_l; [refine (thread_moves_sys moved1 (pc_of moved1) _ _); reflexivity|].
  eapply rtc_l; [refine (thread_moves_sys moved2 (pc_of moved2) _ _); reflexivity|].
  apply rtc_refl.
Qed.

Lemma bumped_grants_are_fresh_witness :
  exists ac', grants_step exampleHost true 7 sessionGrantTTL aliceSession (pc_of moved3) (gy_store moved3) =
      (GDone ac', (grants_step exampleHost true 7 sessionGrantTTL aliceSession (pc_of moved3) (gy_store moved3)).2) /\
    (ac' = aliceSession \/ exists L projected served,
       (L, "alice", projected) ∈ gy_resolved moved3 /\ ac' = overlaid aliceSession served).
Proof.
  destruct (grants_step exampleHost true 7 sessionGrantTTL aliceSession (pc_of moved3) (gy_store moved3))
    as [p' g'] eqn:Hs.
  assert (exists ac', p' = GDone ac') as [ac' ->].
  { apply (f_equal fst) in Hs. vm_compute in Hs. subst p'. eauto. }
  exists ac'. split; [reflexivity|].
  assert (well_formed idle) as Hwf.
  { split; [reflexivity|]. split; [|intros ac p Hin; by apply elem_of_nil in Hin].
    intros s v e Hg Hv. injection Hg as <-. discriminate Hv. }
  assert (unseen (bumped_generation 5 idleGrants).1 idle) as Hun.
  { split; [|intros ac p Hin; by apply elem_of_nil in Hin]. intros subject s Hg. injection Hg as <-.
    reflexivity. }
  destruct (proj2 (bumped_grants_are_fresh idle 5 (emptyStore grantGenTTL) eq_refl Hwf Hun) moved3 0%nat
    aliceSession (pc_of moved3) "alice" true 7 sessionGrantTTL ac' g' moved3_reachable)
    as [->|(news & L & projected & served & Hnews & Hin & _ & ->)].
  - reflexivity.
  - vm_compute. reflexivity.
  - exact Hs.
  - by left.
  - right. exists L, projected, served. split; [|reflexivity]. rewrite Hnews, app_nil_r. exact Hin.
Defined.

Lemma session_refresh_confined_witness :
  (refreshSessionGrants exampleHost (fun _ => true) 5 sessionGrantTTL
    (<[CapUsesClaim := VBool true]> aliceSession) idleGrants).1 =
  <[CapUsesClaim := VBool true]> aliceSession.
Proof.
  refine (proj1 (proj2 (proj2 (session_refresh_confined exampleHost (fun _ => true) 5 sessionGrantTTL
    (<[CapUsesClaim := VBool true]> aliceSession) idleGrants))) _).
  reflexivity.
Defined.

(** * Findings *)

(** A store that answers everything but the generation makes a refresh go by
    the empty generation: entries kept from an earlier such outage are served
    whatever has been bumped since, where the code says an error resolves. *)
Definition outageGrants : GrantStore mapStore :=
  mkGrants (gs_gen (BumpGrantGeneration true 5 idleGrants))
    (Some (MapStore sessionGrantTTL
       {[ "|alice" := (MarshalClaims {[ "roles" := VStrs ["admin"] ]}, hour) ]}))
    "n0nce" 1.

Lemma generation_outage_serves_stale_grants :
  (refreshSessionGrants exampleHost (fun n => negb (n =? 0)%nat) 6 sessionGrantTTL aliceSession
     outageGrants).1 !! "roles" = Some (VList [VStr "admin"]) /\
  (refreshSessionGrants exampleHost (fun _ => true) 6 sessionGrantTTL aliceSession
     outageGrants).1 !! "roles" = Some (VStrs []).
Proof. split; vm_compute; reflexivity. Qed.

(** The cache is keyed by the subject alone, and roles are bound by a claim of
    the session: a session without the claim is served what one with it
    resolved. *)
Definition boundHost : Host :=
  let ex := mkExchanger {[ "app" := exampleClient ]} ∅ "email" false
    (NewRoleProvider [] [mkBinding "ops" ["admin"] "a@x" None]) (fun _ => ∅) in
  mkHost (mkMinter ex (exampleSigner None) false) true "pub" true "https://host-aud" None [] (24 * hour) [].

Lemma grant_cache_ignores_binding_key :
  let '(_, g) := refreshSessionGrants boundHost (fun _ => true) 5 sessionGrantTTL
    (<["email" := VStr "a@x"]> aliceSession) idleGrants in
  (refreshSessionGrants boundHost (fun _ => true) 6 sessionGrantTTL aliceSession g).1 !! "roles" =
    Some (VList [VStr "admin"]) /\
  (refreshSessionGrants boundHost (fun _ => true) 6 sessionGrantTTL aliceSession idleGrants).1 !! "roles" =
    Some (VStrs []).
Proof. vm_compute. split; reflexivity. Qed.
