(* ===== verification/Gate.v ===== *)
(** The authentication middleware (src/internal/auth/middleware.go,
    config.go, resource_metadata.go): what a request's credential becomes
    before any handler runs, with the sessions it renews, the cookies it sets
    and the capability budget it spends. *)
From S2P Require Import Prelude GoStr Store Deps Claims ApiToken Clients Roles Signer SubjectKind Dcr Consent Events Mint Refresh Login SessionGrants.
From Stdlib Require Import Ascii.

#[local] Open Scope string_scope.

(** * Requests and answers *)

Definition COOKIE : string := "cookie".
Definition HEADER : string := "header".

(** What the middleware reads of a request. *)
Record request := mkRequest {
  rq_Authorization : string;
  rq_cookies : list (string * string);
  rq_Path : string;
}.

(** [r.Cookie(name)]: the first of that name. *)
Definition Cookie (r : request) (name : string) : option string :=
  match list_find (fun x => x.1 = name) (rq_cookies r) with Some (_, (_, v)) => Some v | None => None end.

(** A cookie set on the response; a negative age clears it. *)
Record cookie := mkCookie { ck_Name : string; ck_Value : string; ck_MaxAge : Z }.

Inductive gate_answer :=
| Refused (status : Z) (message : string) (challenge : string)
| Passed (ctx : option (AuthContext * string)).

(** * Challenges *)

(** Bytes a quoted-string may not carry. *)
Definition unsafe_byte (c : ascii) : bool :=
  let n := N_of_ascii c in ((n =? 34) || (n =? 92) || (n <? 32) || (n =? 127))%N%bool.

Section Challenge.
Context `{!ParseURL}.

Definition safeResourceMetadata (raw : string) : bool :=
  if String.eqb raw "" then false
  else if negb (all_bytes (fun c => negb (unsafe_byte c)) raw) then false
  else match url_Parse raw with Some u => negb (String.eqb (url_Scheme u) "") | None => false end.

Definition CheckedResourceMetadata (raw : string) : string :=
  if (String.eqb raw "" || safeResourceMetadata raw)%bool then raw else "".

(** One turn of the loop over the host's protected resources. *)
Definition longer_owner (path : string) (acc : string * nat) (e : string * string) : string * nat :=
  let '(best, bestLen) := acc in
  let '(basePath, metadataURL) := e in
  if (negb (String.eqb path basePath) && negb (HasPrefix path (basePath ++ "/")))%bool then acc
  else if (bestLen <? String.length basePath)%nat then (metadataURL, String.length basePath) else acc.

Definition resourceMetadataURL (metadata : gmap string string) (path : string) : string :=
  (foldl (longer_owner path) ("", 0%nat) (map_to_list metadata)).1.

Definition bearerChallenge (metadata : gmap string string) (path : string) (expired : bool) : string :=
  let desc := if expired then "the access token expired" else "the access token is invalid" in
  let challenge := "Bearer error=" ++ quote ++ "invalid_token" ++ quote ++ ", error_description=" ++
    quote ++ desc ++ quote in
  let md := CheckedResourceMetadata (resourceMetadataURL metadata path) in
  if String.eqb md "" then challenge
  else challenge ++ ", resource_metadata=" ++ quote ++ md ++ quote.
End Challenge.

(** * The credential a request presents *)

Definition looksLikePAT (token tokenPrefix : string) : bool :=
  ((negb (String.eqb tokenPrefix "") && HasPrefix token tokenPrefix) || HasPrefix token "v4.public.")%bool.

Inductive presented :=
| NoCredential
| BadHeader
| Credential (source token : string).

(** The scheme is bearer, or something this middleware leaves alone. *)
Definition present_credential (cookieName : string) (r : request) : presented :=
  if negb (String.eqb (rq_Authorization r) "") then
    match Split " "%char (rq_Authorization r) with
    | [scheme; token] => if String.eqb (ToLower scheme) "bearer" then Credential HEADER token
                         else Credential "" ""
    | _ => BadHeader
    end
  else match Cookie r cookieName with
       | None => NoCredential
       | Some v => Credential COOKIE v
       end.

(** * Enrichment (config.go) *)

Definition contextDecidedClaims : list string := (mintDecidedClaims ++ [ClaimIssuedAt])%list.

(** [maps.Copy(ac, extra)], then the decided claims as they were. *)
Definition EnrichAuthContext (ac : AuthContext) (mapper : option (claims -> result unit claims)) : AuthContext :=
  match mapper with
  | None => ac
  | Some execute =>
      match execute ac with
      | Err _ => ac
      | Ok extra => reassert contextDecidedClaims ac (extra ∪ ac)
      end
  end.

(** * The middleware *)

(** Why a credential is refused. *)
Inductive gate_error :=
| GateToken (e : jwt_error)
| GateSubjectless
| GateVeto (e : veto_error).

Section Gate.
Context {St} `{CacheOps St} `{Paseto} `{!Sha256} `{!KidFooter} `{!SubjectKinds} `{!Regexp} `{!JwtClaims}
  `{!JwtParser} `{!Compaction} `{!ClaimsJSON} `{!ParseURL}
  `{!JSON RefreshTokenClaims} `{!JSON graceRecord}.

(** The configuration the middleware reads. *)
Record Gate := mkGate {
  ga_host : Host;
  ga_CookieName : string;
  ga_AutoExtendSession : bool;
  ga_ResourceMetadata : gmap string string;
  ga_refresh : RefreshConfig;
  ga_tokenManager : option (TokenManager St);
}.

(** The stores it goes through; each may not be configured. *)
Record gate_state := mkGateState {
  gt_refresh : option (shared (St := St));
  gt_grants : GrantStore St;
  gt_caps : option St;
}.

(** What a request meets outside: the steps of the two redemptions it may
    make, whether each cache call of the grants and of the budget answers, and
    the jittered TTL. *)
Record gate_env := mkGateEnv {
  ge_sched1 : nat -> Z * answers;
  ge_sched2 : nat -> Z * answers;
  ge_up : nat -> bool;
  ge_ttl : Z;
}.

Implicit Types (G : Gate) (v : gate_env) (st : gate_state) (r : request).

Definition set_refresh_store (sh : option (shared (St := St))) st : gate_state :=
  mkGateState sh (gt_grants st) (gt_caps st).

Definition TokenPrefix G : string :=
  match ga_tokenManager G with None => "" | Some tm => tm_tokenPrefix tm end.

Definition gateParserOptions (issuer : string) (audiences : list string) : list parser_option :=
  [WithIssuer issuer; WithAudience audiences; WithExpirationRequired].

(** [parseGate]. *)
Definition parseGate G (now : Z) (raw : string) : result gate_error AuthContext :=
  match ParseWithClaims (ho_publicKey (ga_host G))
          (gateParserOptions (issuer (mi_signer (ho_minter (ga_host G)))) [ho_audience (ga_host G)]) now raw with
  | Err e => Err (GateToken e)
  | Ok cs => Ok cs
  end.

Definition vetoGateCredential G (ac : AuthContext) : result veto_error unit :=
  let e := mi_ex (ho_minter (ga_host G)) in
  let sub := match jwtGetSubject ac with Ok s => s | Err _ => "" end in
  VetoCredential e sub (ContextSubjectKind e ac) (issuedAtOf ac) SiteHostJWT.

(** The subject check and the veto, folded into the error. *)
Definition check_identity G (parsed : result gate_error AuthContext) : result gate_error AuthContext :=
  ac ← parsed;
  match jwtGetSubject ac with
  | Err _ => Err GateSubjectless
  | Ok sub =>
      if String.eqb sub "" then Err GateSubjectless else
      match vetoGateCredential G ac with
      | Err e => Err (GateVeto e)
      | Ok _ => Ok ac
      end
  end.

Definition session_cookies G (ts : TokenSet) : list cookie :=
  mkCookie (ga_CookieName G) (AccessToken ts) 0 ::
  (if String.eqb (RefreshToken ts) "" then []
   else [mkCookie (ga_CookieName G ++ "_refresh") (RefreshToken ts) 0]).

Definition cleared_cookies G : list cookie :=
  [mkCookie (ga_CookieName G) "" (-1); mkCookie (ga_CookieName G ++ "_refresh") "" (-1)].

(** The session's refresh cookie, redeemed as no client. *)
Definition renew_session G (sched : nat -> Z * answers) r st : option TokenSet * gate_state :=
  match gt_refresh st, Cookie r (ga_CookieName G ++ "_refresh") with
  | Some _, Some tok =>
      if String.eqb tok "" then (None, st) else
      let '((ts, err), sh) := RedeemRefreshToken (ga_refresh G) sched tok "" (gt_refresh st) in
      (match err with None => Some ts | Some _ => None end, set_refresh_store sh st)
  | _, _ => (None, st)
  end.

(** Sessions renew when the credential is the cookie and the host extends them. *)
Definition renews G (source : string) : bool := (String.eqb source COOKIE && ga_AutoExtendSession G)%bool.

(** The first half: the token parsed, renewed when it does not. *)
Definition parse_or_renew G v (now : Z) (source token : string) r st
    : result gate_error AuthContext * list cookie * gate_state :=
  match parseGate G now token with
  | Ok ac => (Ok ac, [], st)
  | Err e =>
      if renews G source then
        let '(ts, st) := renew_session G (ge_sched1 v) r st in
        match ts with
        | Some ts => (parseGate G now (AccessToken ts), session_cookies G ts, st)
        | None => (Err e, [], st)
        end
      else (Err e, [], st)
  end.

Definition near_expiry (now : Z) (ac : AuthContext) : bool :=
  match jwtGetExpirationTime ac with
  | Ok (Some exp) => (time_sub exp now <? 10 * minute)%Z
  | _ => false
  end.

(** The second half: a session about to expire is renewed; the token renewed
    is the identity when it verifies. *)
Definition extend_session G v (now : Z) (source : string) (ac : AuthContext) r st
    : AuthContext * list cookie * gate_state :=
  if (renews G source && near_expiry now ac)%bool then
    let '(ts, st) := renew_session G (ge_sched2 v) r st in
    match ts with
    | None => (ac, [], st)
    | Some ts =>
        (match parseGate G now (AccessToken ts) with
         | Ok refreshed => match vetoGateCredential G refreshed with Ok _ => refreshed | Err _ => ac end
         | Err _ => ac
         end, session_cookies G ts, st)
    end
  else (ac, [], st).

Definition refresh_grants G v (now : Z) (source : string) (ac : AuthContext) st : AuthContext * gate_state :=
  if String.eqb source COOKIE then
    let '(ac, g) := refreshSessionGrants (ga_host G) (ge_up v) now (ge_ttl v) ac (gt_grants st) in
    (ac, mkGateState (gt_refresh st) g (gt_caps st))
  else (ac, st).

Definition capabilityUsesKey (jti : string) : string := "uses:" ++ jti.

(** The budget of a capability: the message of its refusal. *)
Definition spend_capability v (now : Z) (ac : AuthContext) st : result string unit * gate_state :=
  match gt_caps st with
  | None => (Ok (), st)
  | Some s =>
      if negb (bool_claim ac CapUsesClaim) then (Ok (), st) else
      let jti := str_claim ac "jti" in
      if String.eqb jti "" then (Err "invalid capability token", st)
      else if negb (ge_up v 9%nat) then (Err "capability exhausted", st)
      else let '(_, ok, s) := cDecrementIfPositive now (capabilityUsesKey jti) s in
           (if (ok : bool) then Ok () else Err "capability exhausted",
            mkGateState (gt_refresh st) (gt_grants st) (Some s))
  end.

Definition expired_token (e : gate_error) : bool :=
  match e with GateToken ErrTokenExpired => true | _ => false end.

(** [WithAuthentication], for a host that has an exchanger. *)
Definition WithAuthentication G v (now : Z) r st : gate_answer * list cookie * gate_state :=
  match present_credential (ga_CookieName G) r with
  | NoCredential => (Passed None, [], st)
  | BadHeader => (Refused 400 "Invalid Authorization header format" "", [], st)
  | Credential source token =>
      if String.eqb token "" then (Passed None, [], st)
      else if (String.eqb source HEADER && looksLikePAT token (TokenPrefix G))%bool
      then (Passed None, [], st)
      else
        let '(parsed, set1, st) := parse_or_renew G v now source token r st in
        match check_identity G parsed with
        | Err e =>
            if String.eqb source COOKIE then (Passed None, (set1 ++ cleared_cookies G)%list, st)
            else (Refused 401 "Invalid token"
                    (bearerChallenge (ga_ResourceMetadata G) (rq_Path r) (expired_token e)), set1, st)
        | Ok ac =>
            let '(ac, set2, st) := extend_session G v now source ac r st in
            let '(ac, st) := refresh_grants G v now source ac st in
            let '(spent, st) := spend_capability v now ac st in
            match spent with
            | Err message => (Refused 401 message "", (set1 ++ set2)%list, st)
            | Ok _ => (Passed (Some (ac, source)), (set1 ++ set2)%list, st)
            end
        end
  end.

(** * PATs as identities *)

(** [None]: the request stays anonymous. *)
Definition hostPATIdentity G (up : nat -> bool) (now : Z) (token : string) : option AuthContext :=
  match ga_tokenManager G with
  | None => None
  | Some tm =>
      if String.eqb (ho_audience (ga_host G)) "" then None else
      match ValidateToken up now tm token (ho_audience (ga_host G)) with
      | Err _ => None
      | Ok data =>
          match PATAuthContext (mi_logEnabled (ho_minter (ga_host G))) (mi_ex (ho_minter (ga_host G)))
                  data SiteHostPAT with
          | Err _ => None
          | Ok ac => Some (EnrichAuthContext ac (mapper (mi_signer (ho_minter (ga_host G)))))
          end
      end
  end.

(** [WithAPITokenIdentity], after [WithAuthentication]: the context the handler
    runs in. *)
Definition WithAPITokenIdentity G (up : nat -> bool) (now : Z) r (ctx : option AuthContext)
    : option AuthContext :=
  match ctx with
  | Some ac => Some ac
  | None =>
      match Split " "%char (rq_Authorization r) with
      | [scheme; token] =>
          if (negb (String.eqb (ToLower scheme) "bearer") || negb (looksLikePAT token (TokenPrefix G)))%bool
          then None
          else hostPATIdentity G up now token
      | _ => None
      end
  end.

(** * Logout *)

(** [EmitLogout]: the event, with what the session's record tells. *)
Definition EmitLogout (up : bool) (now : Z) (d : option EventDispatcher) (refreshTokenID : string) st
    : list sent :=
  let claims :=
    if String.eqb refreshTokenID "" then None
    else match gt_refresh st with
         | None => None
         | Some sh => lookupRefreshClaims up now refreshTokenID sh
         end in
  Logout now d
    (match claims with
     | Some c => mkPayload EventLogout 0 "" (rt_Subject c) "" (rt_AuthMethod c) (rt_ClientID c)
         (rt_Scope c) ∅ [] [] refreshTokenID ""
     | None => emptyPayload EventLogout
     end).
End Gate.
Arguments gate_state St : clear implicits.
