(* ===== verification/GateSpec.v ===== *)
(** What the authentication middleware guarantees: which credentials become an
    identity, what a refusal answers, and what a capability costs. *)
From S2P Require Import Prelude GoStr Store Deps Claims ApiToken Clients Roles Signer SubjectKind Dcr Consent Events Mint Refresh Login SessionGrants Gate.
From S2P Require Import ApiTokenSpec SignerSpec IdentitySpec DcrSpec MintSpec RefreshSpec LoginSpec GrantsSpec.
From Stdlib Require Import Ascii.

#[local] Open Scope string_scope.

(** * Challenges *)

Section ChallengeSpec.
Context `{!ParseURL}.

(** The resource at [basePath] owns the path: itself, or what is beneath it. *)
Definition owns (basePath path : string) : Prop :=
  path = basePath \/ HasPrefix path (basePath ++ "/") = true.

#[local] Instance owns_dec basePath path : Decision (owns basePath path).
Proof. unfold owns. apply _. Defined.

Lemma longer_owner_eq path acc basePath url :
  longer_owner path acc (basePath, url) =
  if decide (owns basePath path /\ (acc.2 < String.length basePath)%nat)
  then (url, String.length basePath) else acc.
Proof.
  destruct acc as [best n]. simpl. unfold longer_owner.
  replace (negb (String.eqb path basePath) && negb (HasPrefix path (basePath ++ "/")))%bool
    with (negb (bool_decide (owns basePath path))).
  2:{ destruct (String.eqb_spec path basePath) as [Heq|Hne]; cbn [negb andb].
      - by rewrite bool_decide_true by (by left).
      - destruct (HasPrefix path (basePath ++ "/")) eqn:Hp; cbn [negb].
        + by rewrite bool_decide_true by (by right).
        + rewrite bool_decide_false; [done|]. intros [?|?]; congruence. }
  destruct (decide (owns basePath path)) as [Ho|Hno].
  - rewrite bool_decide_true by done. cbn [negb].
    destruct (Nat.ltb_spec n (String.length basePath)).
    + by rewrite decide_True.
    + rewrite decide_False by lia. done.
  - rewrite bool_decide_false by done. cbn [negb]. rewrite decide_False by tauto. done.
Qed.

Lemma longer_owner_fold path l : forall acc,
  let r := foldl (longer_owner path) acc l in
  (r = acc \/ exists basePath, (basePath, r.1) ∈ l /\ owns basePath path /\ r.2 = String.length basePath /\
     (acc.2 < r.2)%nat) /\
  (acc.2 <= r.2)%nat /\
  (forall basePath url, (basePath, url) ∈ l -> owns basePath path -> (String.length basePath <= r.2)%nat).
Proof.
  induction l as [|[b u] l IH]; intros acc; cbn [foldl]; cbn zeta.
  { split_and!; [by left|done|]. intros ? ? Hin. by apply elem_of_nil in Hin. }
  rewrite longer_owner_eq. case_decide as Hd.
  - destruct (IH (u, String.length b)) as (Hr & Hle & Hall). cbn [snd] in *. split_and!; [right| |].
    + destruct Hr as [Hr|(b' & Hin & Ho & Hl & Hlt)].
      * rewrite Hr. cbn. exists b. split_and!; [left|tauto|done|tauto].
      * exists b'. split_and!; [by right|done|done|lia].
    + lia.
    + intros b' u' [Heq|Hin]%elem_of_cons; [by injection Heq as -> _|by eapply Hall].
  - destruct (IH acc) as (Hr & Hle & Hall). split_and!; [|done|].
    + destruct Hr as [Hr|(b' & Hin & Ho & Hl & Hlt)]; [by left|right]. exists b'.
      split_and!; [by right|done..].
    + intros b' u' [Heq|Hin]%elem_of_cons Ho; [|by eapply Hall]. injection Heq as -> ->.
      destruct (decide (acc.2 < String.length b)%nat); [tauto|lia].
Qed.

(** Two owners of one path of the same length are the same. *)
Lemma owns_length_inj b b' path :
  owns b path -> owns b' path -> String.length b = String.length b' -> b = b'.
Proof.
  assert (forall b path, owns b path -> exists t, path = b ++ t) as Hpre.
  { intros x p [->|(t & ->)%HasPrefix_spec]; [exists ""; by rewrite append_nil_r|].
    exists ("/" ++ t). by rewrite append_assoc. }
  intros [t ->]%Hpre [t' Ht']%Hpre. revert b' t' Ht'.
  induction b as [|c b IH]; intros [|c' b'] t' Heq Hl; cbn in *; try done.
  injection Heq as -> Heq. f_equal. eapply IH; [done|lia].
Qed.

(** A rejected bearer is pointed at the resource it was for, and at nothing
    an operator's path could smuggle in. The pointer of a challenge is the
    metadata of the longest of the host's resources that owns the path,
    whatever order they are listed in, and none when no resource does; it is
    written only if it is an absolute URL without a quote, a backslash or a
    control byte, so that it stays within the quoted string it is put in. *)
Theorem challenge_pointer_safe (metadata : gmap string string) path expired :
  let url := resourceMetadataURL metadata path in
  (forall basePath u, metadata !! basePath = Some u -> owns basePath path -> basePath <> "" ->
     exists basePath', metadata !! basePath' = Some url /\ owns basePath' path /\
       (String.length basePath <= String.length basePath')%nat) /\
  ((forall basePath, is_Some (metadata !! basePath) -> ~ owns basePath path) -> url = "") /\
  (exists text, bearerChallenge metadata path expired =
     "Bearer error=" ++ quote ++ "invalid_token" ++ quote ++ ", error_description=" ++
       quote ++ text ++ quote ++
     (if safeResourceMetadata url then ", resource_metadata=" ++ quote ++ url ++ quote else "") /\
   (text = "the access token expired" \/ text = "the access token is invalid")) /\
  (safeResourceMetadata url = true -> all_bytes (fun c => negb (unsafe_byte c)) url = true /\
     exists u, url_Parse url = Some u /\ url_Scheme u <> "").
Proof.
  cbn zeta. unfold resourceMetadataURL.
  destruct (longer_owner_fold path (map_to_list metadata) ("", 0%nat)) as (Hr & _ & Hall).
  set (r := foldl _ _ _) in *. cbn [snd] in Hr. split_and!.
  - intros b u Hu Ho Hne. pose proof (Hall b u ltac:(by apply elem_of_map_to_list) Ho) as Hle.
    destruct Hr as [Hr|(b' & Hin & Ho' & Hl & _)].
    + rewrite Hr in Hle. simpl in Hle. destruct b; [done|simpl in Hle; lia].
    + exists b'. apply elem_of_map_to_list in Hin. split_and!; [done|done|lia].
  - intros Hno. destruct Hr as [->|(b' & Hin & Ho' & _)]; [done|]. exfalso.
    apply elem_of_map_to_list in Hin. by apply (Hno b').
  - unfold bearerChallenge, resourceMetadataURL. fold r. unfold CheckedResourceMetadata.
    exists (if expired then "the access token expired" else "the access token is invalid").
    split; [|by destruct expired; [left|right]].
    destruct (String.eqb_spec r.1 "") as [He|He]; cbn [orb].
    + rewrite He. cbn [String.eqb safeResourceMetadata]. by rewrite append_nil_r.
    + destruct (safeResourceMetadata r.1).
      * rewrite (proj2 (String.eqb_neq _ _) He). by rewrite !append_assoc.
      * cbn [String.eqb]. by rewrite append_nil_r.
  - unfold safeResourceMetadata. destruct (String.eqb r.1 ""); [done|].
    destruct (all_bytes _ r.1); [|done]. cbn [negb]. destruct (url_Parse r.1) as [u|]; [|done].
    intros Hu%negb_true_iff%String.eqb_neq. split; [done|]. by exists u.
Qed.
End ChallengeSpec.

(** * Identities *)

Section GateSpec.
Context {St} `{CacheOps St} `{!CacheSafe St} `{Paseto} `{!Sha256} `{!KidFooter} `{!SubjectKinds} `{!Regexp}
  `{!JwtClaims} `{!JwtParser} `{!Compaction} `{!ClaimsJSON} `{!ParseURL}
  `{!JSON RefreshTokenClaims} `{!JSON graceRecord}.

Implicit Types (G : Gate (St := St)) (v : gate_env) (st : gate_state St) (r : request).

(** A token of this host, for this host, in force. *)
Definition host_token G (now : Z) (raw : string) (cs : claims) : Prop :=
  jwt_signed (ho_publicKey (ga_host G)) raw cs /\ in_force now cs /\
  cs !! "iss" = Some (VStr (issuer (mi_signer (ho_minter (ga_host G))))) /\
  ho_audience (ga_host G) ∈ audiences_of cs /\
  exists n, cs !! "exp" = Some (VNum n) /\ n <> 0%Z.

Lemma parseGate_Ok G now raw cs : parseGate G now raw = Ok cs -> host_token G now raw cs.
Proof.
  unfold parseGate. destruct (ParseWithClaims _ _ _ _) as [m|] eqn:Hp; [|done]. intros [= <-].
  apply ParseWithClaims_Ok in Hp as (Hs & Hf & Ho).
  apply Forall_cons in Ho as [Hi Ho]. apply Forall_cons in Ho as [Ha Ho].
  apply Forall_cons in Ho as [He _]. split_and!; [done|done|exact Hi| |exact He].
  destruct Ha as (a & Ha & Hin). by apply list_elem_of_singleton in Ha as ->.
Qed.

(** The session was renewed into the access token. *)
Definition renewed G r (raw : string) : Prop :=
  exists sched tok sh ts sh',
    Cookie r (ga_CookieName G ++ "_refresh") = Some tok /\ tok <> "" /\
    RedeemRefreshToken (ga_refresh G) sched tok "" (Some sh) = ((ts, None), sh') /\ AccessToken ts = raw.

Lemma renew_session_Some G sched r st ts st' :
  renew_session G sched r st = (Some ts, st') -> renewed G r (AccessToken ts).
Proof.
  unfold renew_session. destruct (gt_refresh st) as [sh|] eqn:Hr; [|done].
  destruct (Cookie _ _) as [tok|] eqn:Hc; [|done].
  destruct (String.eqb_spec tok "") as [|Hne]; [done|].
  destruct (RedeemRefreshToken _ _ _ _ _) as [[ts' [e|]] sh'] eqn:Hrd; [done|].
  intros [= -> _]. exists sched, tok, sh, ts, sh'. done.
Qed.

Lemma renew_session_caps G sched r st : gt_caps (renew_session G sched r st).2 = gt_caps st.
Proof.
  unfold renew_session. destruct (gt_refresh st) as [sh|]; [|done].
  destruct (Cookie _ _) as [tok|]; [|done]. destruct (String.eqb tok ""); [done|].
  by destruct (RedeemRefreshToken _ _ _ _ _) as [[ts err] sh'].
Qed.

(** What the first half yields. *)
Lemma parse_or_renew_spec G v now source token r st parsed set st' :
  parse_or_renew G v now source token r st = (parsed, set, st') ->
  gt_caps st' = gt_caps st /\
  (forall cs, parsed = Ok cs -> exists raw, host_token G now raw cs /\
     ((raw = token /\ set = [] /\ st' = st) \/ (renews G source = true /\ renewed G r raw /\ set <> []))) /\
  (forall e, parsed = Err e -> exists e', parseGate G now token = Err e').
Proof.
  unfold parse_or_renew. destruct (parseGate G now token) as [ac|e] eqn:Hp.
  { intros [= <- <- <-]. split_and!; [done| |done]. intros cs [= <-]. exists token.
    split; [by apply parseGate_Ok|by left]. }
  destruct (renews G source) eqn:Hn.
  - pose proof (renew_session_caps G (ge_sched1 v) r st) as Hcaps.
    destruct (renew_session G (ge_sched1 v) r st) as [[ts|] st1] eqn:Hr; cbn in Hcaps.
    + intros [= <- <- <-]. split_and!; [done| |by eauto]. intros cs Hcs. exists (AccessToken ts).
      split; [by apply parseGate_Ok|right]. split_and!; [done|by eapply renew_session_Some|done].
    + intros [= <- <- <-]. split_and!; [done|done|]. intros e' [= <-]. by eauto.
  - intros [= <- <- <-]. split_and!; [done|done|]. intros e' [= <-]. by eauto.
Qed.

Lemma check_identity_Ok G parsed cs :
  check_identity G parsed = Ok cs ->
  parsed = Ok cs /\ vetoGateCredential G cs = Ok () /\ exists sub, jwtGetSubject cs = Ok sub /\ sub <> "".
Proof.
  unfold check_identity. destruct parsed as [ac|]; [|done]. cbn [mbind result_bind].
  destruct (jwtGetSubject ac) as [sub|] eqn:Hs; [|done].
  destruct (String.eqb_spec sub "") as [|Hne]; [done|].
  destruct (vetoGateCredential G ac) as [[]|] eqn:Hv; [|done]. intros [= <-]. split_and!; [done|done|].
  by exists sub.
Qed.

(** What the second half yields. *)
Lemma extend_session_spec G v now source ac r st ac' set st' :
  extend_session G v now source ac r st = (ac', set, st') ->
  gt_caps st' = gt_caps st /\
  ((ac' = ac /\ (set = [] \/ renews G source = true)) \/
   (exists raw, renews G source = true /\ renewed G r raw /\ set <> [] /\ host_token G now raw ac' /\
      vetoGateCredential G ac' = Ok ())).
Proof.
  unfold extend_session. destruct (renews G source && near_expiry now ac)%bool eqn:Hc.
  2: { intros [= <- <- <-]. split; [done|left]. split; [done|by left]. }
  apply andb_true_iff in Hc as [Hn _].
  pose proof (renew_session_caps G (ge_sched2 v) r st) as Hcaps.
  destruct (renew_session G (ge_sched2 v) r st) as [[ts|] st1] eqn:Hr; cbn in Hcaps.
  - intros [= <- <- <-]. split; [done|].
    destruct (parseGate G now (AccessToken ts)) as [cs|] eqn:Hp; [|left; split; [done|by right]].
    destruct (vetoGateCredential G cs) as [[]|] eqn:Hv; [|left; split; [done|by right]].
    right. exists (AccessToken ts). split_and!; [done|by eapply renew_session_Some|done|by apply parseGate_Ok|done].
  - intros [= <- <- <-]. split; [done|left]. split; [done|by left].
Qed.

Lemma refresh_grants_spec G v now source ac st ac' st' :
  refresh_grants G v now source ac st = (ac', st') ->
  gt_caps st' = gt_caps st /\ refreshed_to ac ac' /\ (source <> COOKIE -> ac' = ac).
Proof.
  unfold refresh_grants. destruct (String.eqb_spec source COOKIE) as [->|Hne].
  - pose proof (refresh_refreshed_to (ga_host G) (ge_up v) now (ge_ttl v) ac (gt_grants st)) as Hr.
    destruct (refreshSessionGrants _ _ _ _ _ _) as [ac1 g]. intros [= <- <-]. by split_and!.
  - intros [= <- <-]. split_and!; [done|by left|done].
Qed.

(** What a passed identity went through. *)
Lemma identity_passed G v now r st ac source set st' :
  WithAuthentication G v now r st = (Passed (Some (ac, source)), set, st') ->
  exists token cs cs' set1 set2 st1 st2 st3,
    present_credential (ga_CookieName G) r = Credential source token /\ token <> "" /\
    (source = HEADER -> looksLikePAT token (TokenPrefix G) = false) /\
    parse_or_renew G v now source token r st = (Ok cs, set1, st1) /\
    check_identity G (Ok cs) = Ok cs /\
    extend_session G v now source cs r st1 = (cs', set2, st2) /\
    refresh_grants G v now source cs' st2 = (ac, st3) /\
    spend_capability v now ac st3 = (Ok (), st') /\ set = (set1 ++ set2)%list.
Proof.
  unfold WithAuthentication. destruct (present_credential _ _) as [| |src token]; [done|done|].
  destruct (String.eqb_spec token "") as [|Hne]; [done|].
  destruct (String.eqb src HEADER && _)%bool eqn:Hpat; [done|].
  destruct (parse_or_renew _ _ _ _ _ _ _) as [[parsed set1] st1] eqn:Hpr.
  destruct (check_identity G parsed) as [cs|] eqn:Hci; [|by destruct (String.eqb src COOKIE)].
  destruct (check_identity_Ok _ _ _ Hci) as (-> & _ & _).
  destruct (extend_session _ _ _ _ _ _ _) as [[cs' set2] st2] eqn:Hex.
  destruct (refresh_grants _ _ _ _ _ _) as [ac' st3] eqn:Hrg.
  destruct (spend_capability _ _ _ _) as [[[]|] st4] eqn:Hsp; [|done].
  intros [= -> -> <- ->]. exists token, cs, cs', set1, set2, st1, st2, st3. split_and!; try done.
  intros ->. by apply andb_false_iff in Hpat as [?|?].
Qed.

(** C4: Nobody is let in but by a token of this host. A request passed on with
    an identity presented a credential of that source, which is no API token
    when it came in the header; the claims it runs under are those of an
    access token whose signature verifies under the host's key, issued by the
    host, for the host's audience, with an expiry and in force, and which the
    subject veto lets through. From the header they are exactly the presented
    token's; from the cookie the roles and entitlements may be re-resolved,
    and the token may be the one the session's refresh cookie was redeemed
    for, when the host extends sessions. Without a renewal its subject is not
    empty. *)
Theorem gate_identity_authentic G v now r st ac source set st' :
  WithAuthentication G v now r st = (Passed (Some (ac, source)), set, st') ->
  exists token raw cs,
    present_credential (ga_CookieName G) r = Credential source token /\ token <> "" /\
    (source = HEADER -> looksLikePAT token (TokenPrefix G) = false) /\
    host_token G now raw cs /\ vetoGateCredential G cs = Ok () /\ refreshed_to cs ac /\
    (source <> COOKIE -> ac = cs /\ raw = token /\ set = []) /\
    (raw = token \/ (source = COOKIE /\ ga_AutoExtendSession G = true /\ renewed G r raw /\ set <> [])) /\
    (set = [] -> exists sub, cs !! "sub" = Some (VStr sub) /\ sub <> "").
Proof.
  intros Hw. destruct (identity_passed _ _ _ _ _ _ _ _ _ Hw)
    as (token & cs & cs' & set1 & set2 & st1 & st2 & st3 & Hp & Hne & Hpat & Hpr & Hci & Hex & Hrg & _ & ->).
  destruct (check_identity_Ok _ _ _ Hci) as (_ & Hveto & sub & Hsub & Hsne).
  destruct (parse_or_renew_spec _ _ _ _ _ _ _ _ _ _ Hpr) as (_ & Hok & _).
  destruct (Hok cs eq_refl) as (raw & Hraw & Hhow).
  destruct (refresh_grants_spec _ _ _ _ _ _ _ _ Hrg) as (_ & Hto & Hsame).
  assert (renews G source = true -> source = COOKIE /\ ga_AutoExtendSession G = true) as Hren.
  { intros Hn. apply andb_true_iff in Hn as [Hn ?]. by apply String.eqb_eq in Hn. }
  destruct (extend_session_spec _ _ _ _ _ _ _ _ _ _ Hex) as (_ & [[-> Hset2]|(raw' & Hn & Hr' & Hs2 & Htok & Hv')]).
  - exists token, raw, cs. split_and!; try done.
    + intros Hsrc. split; [by apply Hsame|]. destruct Hhow as [(-> & -> & _)|(Hn & _)].
      * destruct Hset2 as [->|Hn]; [done|]. by apply Hren in Hn as [? _].
      * by apply Hren in Hn as [? _].
    + destruct Hhow as [(-> & _)|(Hn & Hr & Hs1)]; [by left|right]. apply Hren in Hn as [? ?].
      split_and!; try done. by intros [? _]%app_nil.
    + intros _. exists sub. split; [by apply jwtGetSubject_Ok|done].
  - apply Hren in Hn as [-> Hauto]. exists token, raw', cs'. split_and!; try done.
    + right. split_and!; try done. by intros [_ ?]%app_nil.
    + by intros [_ ?]%app_nil.
Qed.

(** * Capabilities *)

(** The uses left of a capability. *)
Definition uses_left (jti : string) (s : St) : Z :=
  match cabs s !! capabilityUsesKey jti with
  | Some (n, _) => match ParseInt n with Some n => Z.max 0 n | None => 0 end
  | None => 0
  end%Z.

(** One decrement spends one use of its key, and no other. *)
Lemma decr_spends now jti s n ok s' j :
  cDecrementIfPositive now (capabilityUsesKey jti) s = (n, ok, s') ->
  uses_left j s' = (uses_left j s - (if (ok && String.eqb j jti)%bool then 1 else 0))%Z /\
  (ok = true -> 0 < uses_left jti s)%Z.
Proof.
  intros Hd. pose proof (cDecr_val now (capabilityUsesKey jti) s) as Hv.
  pose proof (cDecr_abs now (capabilityUsesKey jti) s) as Ha. rewrite Hd in Hv, Ha. cbn [fst snd] in Hv, Ha.
  unfold uses_left. rewrite Ha. unfold st_decr in Hv |- *. clear Ha.
  destruct (cabs s !! capabilityUsesKey jti) as [[u e]|] eqn:Hk.
  2: { injection Hv as -> ->. cbn. split; [lia|done]. }
  destruct (after now e); [injection Hv as -> ->; cbn; split; [lia|done]|].
  destruct (ParseInt u) as [m|] eqn:Hp; [|injection Hv as -> ->; cbn; split; [lia|done]].
  destruct (Z.leb_spec m 0); injection Hv as -> ->; cbn [fst snd andb]; [split; [lia|done]|].
  split; [|lia]. destruct (String.eqb_spec j jti) as [->|Hne].
  - rewrite lookup_insert_eq, Hk, Hp. rewrite ParseInt_FormatInt; [lia|].
    apply ParseInt_in_int64 in Hp. unfold in_int64 in *. apply andb_true_iff in Hp as [? ?]. apply andb_true_iff; split; apply Z.leb_le; bool_to_prop; unfold int64_min, int64_max in *; lia.
  - rewrite lookup_insert_ne; [lia|]. unfold capabilityUsesKey. intros [= ?]. done.
Qed.

(** A request was let through on the capability. *)
Definition passed_on (jti : string) (a : gate_answer) : bool :=
  match a with
  | Passed (Some (ac, _)) => (bool_claim ac CapUsesClaim && String.eqb jti (str_claim ac "jti"))%bool
  | _ => false
  end.

Lemma spend_capability_spec v now ac st out st' s jti :
  spend_capability v now ac st = (out, st') -> gt_caps st = Some s ->
  exists s', gt_caps st' = Some s' /\
    uses_left jti s' = (uses_left jti s -
      (if match out with Ok _ => true | Err _ => false end && bool_claim ac CapUsesClaim && String.eqb jti (str_claim ac "jti")
       then 1 else 0))%Z /\
    (out = Ok () -> bool_claim ac CapUsesClaim = true ->
       str_claim ac "jti" <> "" /\ ge_up v 9%nat = true /\ 0 < uses_left (str_claim ac "jti") s)%Z /\
    (bool_claim ac CapUsesClaim = false -> out = Ok () /\ s' = s).
Proof.
  unfold spend_capability. intros Hs Hc. rewrite Hc in Hs.
  destruct (bool_claim ac CapUsesClaim); cbn [negb] in Hs.
  2: { injection Hs as <- <-. exists s. rewrite andb_false_r. cbn. split_and!; [done|lia|done|done]. }
  destruct (String.eqb_spec (str_claim ac "jti") "") as [|Hne].
  { injection Hs as <- <-. exists s. cbn. split_and!; [done|lia|done|done]. }
  destruct (ge_up v 9%nat); cbn [negb] in Hs.
  2: { injection Hs as <- <-. exists s. cbn. split_and!; [done|lia|done|done]. }
  destruct (cDecrementIfPositive now (capabilityUsesKey (str_claim ac "jti")) s) as [[n ok] s'] eqn:Hd.
  destruct (decr_spends _ _ _ _ _ _ jti Hd) as [Hl _].
  destruct (decr_spends _ _ _ _ _ _ (str_claim ac "jti") Hd) as [_ Hpos].
  injection Hs as <- <-. exists s'. cbn [gt_caps]. split_and!; [done| | |done].
  - rewrite Hl. by destruct ok.
  - by destruct ok; [intros _ _; split_and!; [done|done|apply Hpos]|].
Qed.

(** One request costs what it was let through on. *)
Lemma request_spends G v now r st a set st' s jti :
  WithAuthentication G v now r st = (a, set, st') -> gt_caps st = Some s ->
  exists s', gt_caps st' = Some s' /\
    uses_left jti s' = (uses_left jti s - (if passed_on jti a then 1 else 0))%Z /\
    (passed_on jti a = true -> 0 < uses_left jti s /\ jti <> "")%Z.
Proof.
  unfold WithAuthentication. intros Hw Hc.
  assert (forall a' set1 st1, gt_caps st1 = Some s -> passed_on jti a' = false ->
    (a', set1, st1) = (a, set, st') -> exists s', gt_caps st' = Some s' /\
      uses_left jti s' = (uses_left jti s - (if passed_on jti a then 1 else 0))%Z /\
      (passed_on jti a = true -> 0 < uses_left jti s /\ jti <> "")%Z) as Hfree.
  { intros a' set1 st1 Hc1 Hno [= <- <- <-]. exists s. rewrite Hno. split_and!; [done|lia|done]. }
  destruct (present_credential _ _) as [| |src token]; [by (eapply Hfree; [| |exact Hw])..|].
  destruct (String.eqb token ""); [by (eapply Hfree; [| |exact Hw])|].
  destruct (String.eqb src HEADER && _)%bool; [by (eapply Hfree; [| |exact Hw])|].
  destruct (parse_or_renew _ _ _ _ _ _ _) as [[parsed set1] st1] eqn:Hpr.
  destruct (parse_or_renew_spec _ _ _ _ _ _ _ _ _ _ Hpr) as (Hc1 & _ & _). rewrite Hc in Hc1.
  destruct (check_identity G parsed) as [cs|e].
  2: { destruct (String.eqb src COOKIE); by (eapply Hfree; [| |exact Hw]). }
  destruct (extend_session _ _ _ _ _ _ _) as [[cs' set2] st2] eqn:Hex.
  destruct (extend_session_spec _ _ _ _ _ _ _ _ _ _ Hex) as [Hc2 _]. rewrite Hc1 in Hc2.
  destruct (refresh_grants _ _ _ _ _ _) as [ac st3] eqn:Hrg.
  destruct (refresh_grants_spec _ _ _ _ _ _ _ _ Hrg) as (Hc3 & _ & _). rewrite Hc2 in Hc3.
  destruct (spend_capability _ _ _ _) as [spent st4] eqn:Hsp.
  destruct (spend_capability_spec _ _ _ _ _ _ _ jti Hsp Hc3) as (s' & Hc4 & Hl & Hpos & _).
  destruct spent as [[]|message]; injection Hw as <- <- <-; exists s'; cbn [passed_on]; cbn in Hl;
    (split; [done|]); (split; [exact Hl|]); [|done].
  intros [Hm ->%String.eqb_eq]%andb_true_iff. destruct (Hpos eq_refl Hm) as (? & _ & ?). done.
Qed.

(** Requests served one after another, each with its time and surroundings. *)
Fixpoint gate_run G (l : list (gate_env * Z * request)) st : list gate_answer * gate_state St :=
  match l with
  | [] => ([], st)
  | (v, now, r) :: l =>
      let '(a, _, st) := WithAuthentication G v now r st in
      let '(answers, st) := gate_run G l st in (a :: answers, st)
  end.

(** What a run of requests spends. *)
Lemma gate_run_spends G l st s jti answers st' :
  gate_run G l st = (answers, st') -> gt_caps st = Some s ->
  exists s', gt_caps st' = Some s' /\
    (Z.of_nat (length (filter (fun a => passed_on jti a = true) answers)) =
       uses_left jti s - uses_left jti s' /\ 0 <= uses_left jti s')%Z /\
    (jti = "" -> filter (fun a => passed_on jti a = true) answers = []).
Proof.
 revert st s answers st'. induction l as [|[[v now] r] l IH]; intros st s answers st' Hr Hc; cbn [gate_run] in Hr.
  { injection Hr as <- <-. exists s. cbn. split_and!; [done|lia| |done]. unfold uses_left.
    destruct (cabs s !! capabilityUsesKey jti) as [[u e]|]; [destruct (ParseInt u)|]; lia. }
  destruct (WithAuthentication G v now r st) as [[a set] st1] eqn:Hw.
  destruct (gate_run G l st1) as [rest st2] eqn:Hg. injection Hr as <- <-.
  destruct (request_spends _ _ _ _ _ _ _ _ _ jti Hw Hc) as (s1 & Hc1 & Hl1 & Hpos).
  destruct (IH _ _ _ _ Hg Hc1) as (s2 & Hc2 & [Hn Hle] & Hj). exists s2. split; [done|].
  rewrite filter_cons. destruct (passed_on jti a).
  - rewrite decide_True by done. cbn [length]. split; [lia|]. intros ->. by destruct (Hpos eq_refl).
  - rewrite decide_False by done. split; [lia|exact Hj].
Qed.


(** * Refusals *)

(** What a credential that does not verify costs. In the header it ends
    the request with a 401 that challenges the caller, saying whether the token
    had expired, and sets no cookie; in the cookie the request goes on
    anonymous and both session cookies are cleared; neither spends a
    capability. A token that looks like an API token, and a scheme that is not
    bearer, are left to others, untouched. *)
Theorem gate_refusals G v now r st source token :
  present_credential (ga_CookieName G) r = Credential source token -> token <> "" ->
  (source = HEADER /\ looksLikePAT token (TokenPrefix G) = true ->
     WithAuthentication G v now r st = (Passed None, [], st)) /\
  (forall e, source = HEADER -> looksLikePAT token (TokenPrefix G) = false ->
     check_identity G (parseGate G now token) = Err e ->
     WithAuthentication G v now r st =
       (Refused 401 "Invalid token" (bearerChallenge (ga_ResourceMetadata G) (rq_Path r) (expired_token e)),
        [], st)) /\
  (forall e parsed set st1, source = COOKIE ->
     parse_or_renew G v now source token r st = (parsed, set, st1) -> check_identity G parsed = Err e ->
     WithAuthentication G v now r st = (Passed None, (set ++ cleared_cookies G)%list, st1) /\
     gt_caps st1 = gt_caps st).
Proof.
  intros Hp Hne. unfold WithAuthentication. rewrite Hp, (proj2 (String.eqb_neq _ _) Hne). split_and!.
  - intros [-> Hpat]. by rewrite Hpat.
  - intros e -> Hpat He. rewrite Hpat. cbn [String.eqb andb].
    assert (parse_or_renew G v now HEADER token r st = (parseGate G now token, [], st)) as ->
      by (unfold parse_or_renew; by destruct (parseGate G now token)).
    rewrite He. done.
  - intros e parsed set st1 -> Hpr He. cbn [String.eqb andb].
    assert (String.eqb COOKIE HEADER = false) as -> by done. cbn [andb]. rewrite Hpr, He.
    split; [done|]. by destruct (parse_or_renew_spec _ _ _ _ _ _ _ _ _ _ Hpr).
Qed.

(** * PATs *)

(** Enrichment replaces no claim that is decided, whatever the mapper says,
    and takes none away. *)
Lemma EnrichAuthContext_lookup ac mapper k :
  (k ∈ contextDecidedClaims -> EnrichAuthContext ac mapper !! k = ac !! k) /\
  (is_Some (ac !! k) -> is_Some (EnrichAuthContext ac mapper !! k)).
Proof.
  unfold EnrichAuthContext. destruct mapper as [execute|]; [|done].
  destruct (execute ac) as [extra|]; [|done]. rewrite lookup_reassert. split.
  - intros Hk. by rewrite decide_True.
  - intros Hk. case_decide; [done|]. rewrite lookup_union. by destruct (extra !! k), Hk as [x ->]; eexists.
Qed.

(** An API token speaks only for the host it was minted for. The identity
    the middleware gives an anonymous request comes from a bearer token that
    looks like an API token and validates for the host's own audience, under
    the veto; the claim mapper may add to it and reshape it, but its kind and
    its issue time, which bindings and revocation go by, and its method, stay
    what the token says, and no claim goes away. An identity already
    established is never replaced. *)
Theorem pat_identity_authentic G up now r ctx ac :
  WithAPITokenIdentity G up now r ctx = Some ac ->
  ctx = Some ac \/
  (ctx = None /\ exists scheme token tm data pat,
     Split " "%char (rq_Authorization r) = [scheme; token] /\ ToLower scheme = "bearer" /\
     looksLikePAT token (TokenPrefix G) = true /\ ga_tokenManager G = Some tm /\
     ho_audience (ga_host G) <> "" /\
     ValidateToken up now tm token (ho_audience (ga_host G)) = Ok data /\
     PATAuthContext (mi_logEnabled (ho_minter (ga_host G))) (mi_ex (ho_minter (ga_host G))) data SiteHostPAT =
       Ok pat /\
     (forall k, k ∈ contextDecidedClaims -> ac !! k = pat !! k) /\
     (forall k, is_Some (pat !! k) -> is_Some (ac !! k))).
Proof.
  unfold WithAPITokenIdentity. destruct ctx as [ac'|]; [by left|]. intros Hp. right. split; [done|].
  destruct (Split _ _) as [|scheme [|token [|]]]; try done.
  destruct (_ || _)%bool eqn:Hb; [done|]. apply orb_false_iff in Hb as [Hs Ht].
  apply negb_false_iff in Hs, Ht. apply String.eqb_eq in Hs. unfold hostPATIdentity in Hp.
  destruct (ga_tokenManager G) as [tm|] eqn:Htm; [|done].
  destruct (String.eqb_spec (ho_audience (ga_host G)) "") as [|Hne]; [done|].
  destruct (ValidateToken _ _ _ _ _) as [data|] eqn:Hv; [|done].
  destruct (PATAuthContext _ _ _ _) as [pat|] eqn:Hc; [|done]. injection Hp as <-.
  exists scheme, token, tm, data, pat. split_and!; try done; intros k; apply EnrichAuthContext_lookup.
Qed.
End GateSpec.

(** * Witnesses *)

#[local] Existing Instance kindsExample.
#[local] Existing Instance jwtExample.
#[local] Existing Instance compactExample.
#[local] Existing Instance noRegexp.
#[local] Existing Instance parseExample.
#[local] Existing Instance refreshJSON.
#[local] Existing Instance graceJSON.
#[local] Existing Instance claimsJSONExample.
#[local] Existing Instance sha256Example.
#[local] Existing Instance kidFooterExample.
#[local] Existing Instance timeExample.
#[local] Existing Instance pasetoExample.

(** A token is the name of its claims. *)
Definition sessionClaims : claims :=
  <["iss" := VStr "https://host"]> $ <["aud" := VStr "https://host-aud"]> $ <["exp" := VNum 5000]> $
  <["sub" := VStr "alice"]> $ {[ ClaimSubjectKind := VStr "User" ]}.

Definition capabilityClaims : claims :=
  <[CapUsesClaim := VBool true]> $ <["jti" := VStr "j1"]> sessionClaims.

#[local] Instance gateParser : JwtParser := jwtParserExample (fun key raw =>
  if negb (String.eqb key "pub") then None
  else if String.eqb raw "good" then Some sessionClaims
  else if String.eqb raw "cap" then Some capabilityClaims else None).

Definition exampleGate : Gate (St := mapStore) :=
  mkGate exampleHost "auth" false {[ "/mcp" := "https://host-aud/meta/mcp" ]} exampleConfig (Some exampleTM).

Definition gateStart : gate_state mapStore :=
  mkGateState None idleGrants (Some (MapStore hour {[ "uses:j1" := ("1", hour) ]})).

Definition exampleEnv : gate_env :=
  mkGateEnv (fun _ => (5, calm "r")) (fun _ => (5, calm "r")) (fun _ => true) sessionGrantTTL.

Definition bearing (token : string) : request := mkRequest ("Bearer " ++ token) [] "/mcp/x".

Definition goodRequest := WithAuthentication exampleGate exampleEnv 5 (bearing "good") gateStart.

Lemma goodRequest_ok : goodRequest = (Passed (Some (sessionClaims, HEADER)), [], goodRequest.2).
Proof. vm_compute. reflexivity. Qed.

Lemma gate_identity_authentic_witness :
  sessionClaims !! "iss" = Some (VStr "https://host") /\ "https://host-aud" ∈ audiences_of sessionClaims.
Proof.
  destruct (gate_identity_authentic exampleGate exampleEnv 5 (bearing "good") gateStart _ _ _ _ goodRequest_ok)
    as (token & raw & cs & _ & _ & _ & (_ & _ & Hi & Ha & _) & _ & _ & Hh & _).
  destruct Hh as (-> & _ & _); [discriminate|]. split; [exact Hi|exact Ha].
Defined.

(** The capability is worth one use: the second request is refused. *)
Definition twice : list (gate_env * Z * request) :=
  [(exampleEnv, 5, bearing "cap"); (exampleEnv, 6, bearing "cap")]%Z.


Lemma gate_refusals_witness :
  WithAuthentication exampleGate exampleEnv 5 (bearing "bad") gateStart =
  (Refused 401 "Invalid token" ("Bearer error=" ++ quote ++ "invalid_token" ++ quote ++
     ", error_description=" ++ quote ++ "the access token is invalid" ++ quote ++
     ", resource_metadata=" ++ quote ++ "https://host-aud/meta/mcp" ++ quote), [], gateStart).
Proof.
  rewrite (proj1 (proj2 (gate_refusals exampleGate exampleEnv 5 (bearing "bad") gateStart HEADER "bad"
    eq_refl ltac:(discriminate))) (GateToken ErrTokenInvalid)); [|reflexivity|reflexivity|reflexivity].
  vm_compute. reflexivity.
Defined.

(** The host's own audience is what the token was minted for. *)
Definition patGate : Gate (St := mapStore) :=
  mkGate
    (mkHost (ho_minter exampleHost) true "pub" true "https://api" None [] (24 * hour) [])
    "auth" false ∅ exampleConfig (Some exampleTM).

Definition patBearer : string := match exampleSigned with Ok signed => signed | Err _ => "" end.

Lemma pat_identity_authentic_witness :
  exists ac pat : claims, WithAPITokenIdentity patGate (fun _ => true) (6 * second)
      (mkRequest ("bearer " ++ patBearer) [] "/") None = Some ac /\
    ac !! ClaimSubjectKind = pat !! ClaimSubjectKind /\ pat !! ClaimSubjectKind = Some (VStr "User").
Proof.
  destruct (WithAPITokenIdentity patGate (fun _ => true) (6 * second)
    (mkRequest ("bearer " ++ patBearer) [] "/") None) as [ac|] eqn:Hw; [|vm_compute in Hw; discriminate Hw].
  destruct (pat_identity_authentic _ _ _ _ _ _ Hw) as [|(_ & scheme & token & tm & data & pat & Hs & _ & _ &
    Htm & _ & Hv & Hc & Hd & _)]; [discriminate|].
  exists ac, pat. split; [reflexivity|]. split; [apply Hd; right; left|].
  vm_compute in Hs. injection Hs as _ <-. injection Htm as <-. vm_compute in Hv. injection Hv as <-.
  vm_compute in Hc. injection Hc as <-. reflexivity.
Defined.
