(* ===== verification/OAuth2.v ===== *)
(** The OAuth 2.0 endpoints (src/internal/auth/oauth2.go, oauth2_consent.go,
    authorize_request.go) and the browser login at the identity provider
    (oidc_login.go): every handler as a function of the request and the stores,
    its checks in the code's order, answering a status, a redirect, a page or
    tokens. *)
From S2P Require Import Prelude GoStr Store Deps Claims ApiToken Clients Roles Signer SubjectKind Dcr Consent Events Mint AuthCode Refresh Login SessionGrants Gate Url.
From Stdlib Require Import Ascii.

#[local] Open Scope string_scope.

(** * Constants *)

Definition GRANT_TYPE_AUTHORIZATION_CODE : string := "authorization_code".
Definition GRANT_TYPE_REFRESH_TOKEN : string := "refresh_token".
Definition GRANT_TYPE_TOKEN_EXCHANGE : string := "urn:ietf:params:oauth:grant-type:token-exchange".
Definition tokenTypeBearer : string := "Bearer".
Definition accessTokenType : string := "urn:ietf:params:oauth:token-type:access_token".

Definition OAuthAuthorizePath : string := "/-/oauth/authorize".
Definition OAuthConsentPath : string := "/-/oauth/consent".
Definition OAuthLoginPath : string := "/-/oauth/login".

Definition errCodeInvalidRequest : string := "invalid_request".
Definition errCodeInvalidClient : string := "invalid_client".
Definition errCodeUnauthorizedClient : string := "unauthorized_client".
Definition errCodeUnsupportedGrantType : string := "unsupported_grant_type".
Definition errCodeInvalidScope : string := "invalid_scope".
Definition errCodeInvalidTarget : string := "invalid_target".

Definition consentRequestTTL : Z := 10 * minute.
Definition loginStateCookieInfix : string := "_oidc_".
Definition loginStateTTL : Z := 10 * minute.
Definition maxLoginsInFlight : nat := 3.
Definition maxLoginStateCookieBytes : nat := 2048.
Definition upstreamPromptValues : list string := ["login"; "consent"; "select_account"].

(** * Requests and answers *)

(** What the handlers read of a request: [or_parsed] is [PostForm] and [Form],
    [None] when they do not parse; [or_ctx] the identity the middleware put in
    the context, with its source. *)
Record oauth_request := mkOAuthRequest {
  or_Method : string;
  or_RawQuery : string;
  or_parsed : option (values * values);
  or_basic : option (string * string);
  or_base : request;
  or_ctx : option (AuthContext * string);
  or_Host : string;
  or_sameOrigin : bool;
}.

Definition query_of (r : oauth_request) : values := ParseQuery (or_RawQuery r).

(** Where a redirect leads: the client's redirect URI with its query replaced,
    a path of this host with a query, a return path, the provider, another
    origin. *)
Inductive location :=
| AtCallback (redirectURI : string) (q : values)
| AtPath (path : string) (q : values)
| AtReturn (path : string)
| AtProvider (state verifier nonce prompt loginHint : string)
| AtOrigin (scheme host path rawQuery : string).

Inductive http_answer :=
| HttpError (status : Z) (message : string)
| RedirectTo (status : Z) (to : location)
| ConsentPage (clientName redirectURI account sealed : string) (scopes : list string).

Record TokenResponse := mkTokenResponse {
  tp_AccessToken : string;
  tp_ExpiresIn : Z;
  tp_IDToken : string;
  tp_IssuedTokenType : string;
  tp_RefreshToken : string;
  tp_Scope : string;
  tp_TokenType : string;
}.

Inductive token_answer :=
| TokenError (status : Z) (code description : string) (challenge : bool)
| TokenOK (resp : TokenResponse).

(** * The authorize request (authorize_request.go) *)

Record authorizeRequest := mkAuthorizeRequest {
  ar_ClientID : string;
  ar_RedirectURI : string;
  ar_State : string;
  ar_LoginHint : string;
  ar_Prompt : list string;
  ar_Scopes : list string;
}.

Definition supportedScopes (scope : string) : list string :=
  sort_strings (keep_distinct (contains_elem SupportedScopes) [] (Fields scope)).

Definition parseAuthorizeRequest (q : values) : authorizeRequest :=
  mkAuthorizeRequest (Get q "client_id") (Get q "redirect_uri") (Get q "state") (Get q "login_hint")
    (Fields (Get q "prompt")) (supportedScopes (Get q "scope")).

Definition withoutPrompt (q : values) (drop : list string) : values :=
  match filter (fun p => contains_elem drop p = false) (Fields (Get q "prompt")) with
  | [] => Del "prompt" q
  | kept => SetValue "prompt" (Join kept " ") q
  end.

(** * Sessions *)

Definition isBrowserSession (source : string) (ac : AuthContext) : bool :=
  if negb (String.eqb source COOKIE) then false
  else if bool_claim ac CapUsesClaim then false
  else let method := str_claim ac "auth_method" in
       (String.eqb method AuthMethodLocal || String.eqb method AuthMethodOIDC)%bool.

Definition sessionMatchesHint (ac : AuthContext) (loginHint : string) : bool :=
  let email := str_claim ac "email" in
  if (negb (String.eqb email "") && EqualFold email loginHint)%bool then true
  else let sub := str_claim ac "sub" in (negb (String.eqb sub "") && String.eqb sub loginHint)%bool.

(** [ret.String()]: a path with its query. *)
Definition path_query (path : string) (q : values) : string :=
  path ++ (if String.eqb (Encode q) "" then "" else "?" ++ Encode q).

Definition authorizeLoginURL (path : string) (q : values) (prompt : list string) (loginHint : string)
    : location :=
  let ret := path_query path (Del "login_hint" (withoutPrompt q ["login"; "select_account"; "none"])) in
  let v : values := {[ "return" := [ret] ]} in
  let v := match filter (fun p => p = "login" \/ p = "select_account") prompt with
           | [] => v
           | upstream => SetValue "prompt" (Join upstream " ") v
           end in
  AtPath "/-/login" (if String.eqb loginHint "" then v else SetValue "login_hint" loginHint v).

(** The client's redirect URI with the keys set in its query. *)
Definition callback_with (redirectURI key value state : string) : location :=
  let q := SetValue key value (ParseQuery (raw_query redirectURI)) in
  AtCallback redirectURI (if String.eqb state "" then q else SetValue "state" state q).

Definition redirectAuthorizeError (redirectURI state code : string) : http_answer :=
  RedirectTo 302 (callback_with redirectURI "error" code state).

(** * Sealed texts *)

Record consentRequest := mkConsentRequest { cr_Sub : string; cr_Iss : string; cr_Query : string; cr_Exp : Z }.

Record loginState := mkLoginState {
  ls_State : string;
  ls_Return : string;
  ls_Verifier : string;
  ls_Nonce : string;
  ls_Exp : Z;
}.

(** * The endpoints *)

Section OAuth2.
Context {St} `{CacheOps St} `{Paseto} `{!Sha256} `{!KidFooter} `{!SubjectKinds} `{!Regexp} `{!JwtClaims}
  `{!JwtParser} `{!Compaction} `{!ClaimsJSON} `{!ParseURL} `{!Hmac} `{!Jose} `{!S256}
  `{!JSON RefreshTokenClaims} `{!JSON graceRecord} `{!JSON Client} `{!JSON AuthorizationCodeClaims}
  `{!JSON consentRecord} `{!JSON EventPayload} `{!JSON eventHookResponse}
  `{!JSON consentRequest} `{!JSON loginState}.

(** The configuration: the host's, the refresh tokens', and the endpoints' own. *)
Record OAuth2 := mkOAuth2 {
  oa_host : Host;
  oa_refresh : RefreshConfig;
  oa_blockKey : string;
  oa_tokenManager : option (TokenManager St);
  oa_CookieName : string;
  oa_RedirectURL : string;
  oa_oidcPrompt : list string;
  oa_ResourceAudiences : gset string;
  oa_ExchangeTargets : gmap string string;
  oa_AccessTokenTTL : Z;
}.

(** The stores; [None] when one is not configured. *)
Record oauth_state := mkOAuthState {
  os_codes : option St;
  os_refresh : option (shared (St := St));
  os_dcr : option (DCRStore St);
  os_consent : option (ConsentStore St);
}.

(** What a request meets outside: the exchanger's surroundings, the steps of a
    redemption, whether the consent store answers and what others do to it
    while it is being read, the provider's answer to a code (its id_token, if
    any, and refresh token), the store of session hints, and what is drawn. *)
Record oauth_env := mkOAuthEnv {
  oe_world : world St;
  oe_outside : outside St;
  oe_sched : nat -> Z * answers;
  oe_revocation_up : nat -> bool;
  oe_consent_up : nat -> bool;
  oe_consent_mid : ConsentStore St -> ConsentStore St;
  oe_provider : string -> string -> option (option string * string);
  oe_hint : string -> option (list cookie);
  oe_nonce : string;
  oe_state : string;
  oe_verifier : string;
  oe_login_nonce : string;
}.

Implicit Types (O : OAuth2) (v : oauth_env) (st : oauth_state) (r : oauth_request) (q : values).

Definition set_dcr_store (s : option (DCRStore St)) st : oauth_state :=
  mkOAuthState (os_codes st) (os_refresh st) s (os_consent st).
Definition set_consent_store (s : option (ConsentStore St)) st : oauth_state :=
  mkOAuthState (os_codes st) (os_refresh st) (os_dcr st) s.
Definition set_refresh_shared (s : option (shared (St := St))) st : oauth_state :=
  mkOAuthState (os_codes st) s (os_dcr st) (os_consent st).

(** The refresh cache alone, and put back. *)
Definition refresh_cache st : option St := sh_refresh <$> os_refresh st.
Definition put_refresh_cache (c : option St) st : oauth_state :=
  match c, os_refresh st with
  | Some s, Some sh => set_refresh_shared (Some (set_refresh_cache s sh)) st
  | _, _ => st
  end.

(** What an authorization code is redeemed against. *)
Definition issuer_of O st : Issuer St :=
  mkIssuer (ho_minter (oa_host O)) (oa_blockKey O) (ho_schemes (oa_host O)) (oa_tokenManager O)
    (ho_refreshTTL (oa_host O)) (os_codes st) (refresh_cache st) (os_dcr st).

Definition put_issuer (i : Issuer St) st : oauth_state :=
  put_refresh_cache (is_refreshTokenCache i)
    (mkOAuthState (is_authCodeCache i) (os_refresh st) (is_DCRStore i) (os_consent st)).

(** [e.LookupClient]. *)
Definition lookup_client O v (now : Z) (clientID : string) st
    : result store_error (option AuthClient) * oauth_state :=
  let '(c, s) := LookupClient (wo_up (oe_world v)) now (ex_Clients (mi_ex (ho_minter (oa_host O))))
    (ho_schemes (oa_host O)) (wo_mid (oe_world v)) clientID (os_dcr st) in
  (c, set_dcr_store s st).

Definition GetTokenTTL O : Z := duration (mi_signer (ho_minter (oa_host O))).

(** Some requested scope is not one the client may ask for. *)
Definition scope_refused (client : AuthClient) (scope : string) : bool :=
  match AllowedScopes client with
  | [] => false
  | allowed => existsb (fun s => negb (String.eqb s "") && negb (contains_elem allowed s))%bool
                 (Split " "%char scope)
  end.

Definition grant_refused (client : AuthClient) (grantType : string) : bool :=
  match AllowedGrantTypes client with
  | [] => false
  | allowed => negb (contains_elem allowed grantType)
  end.

(** * Authorize *)

(** The checks of the request against the client, and the redirect URI once it
    is known to be the client's. *)
Definition check_authorize (client : AuthClient) q : result http_answer unit :=
  if grant_refused client GRANT_TYPE_AUTHORIZATION_CODE then Err (HttpError 401 "Unauthorized grant type")
  else if scope_refused client (Get q "scope") then Err (HttpError 401 "Unauthorized scope")
  else if (RequirePKCE client && String.eqb (Get q "code_challenge") "")%bool
  then Err (HttpError 400 "PKCE required: missing code_challenge")
  else if (negb (String.eqb (Get q "code_challenge") "") &&
           negb (String.eqb (Get q "code_challenge_method") PKCE_METHOD_S256))%bool
  then Err (HttpError 400 "Unsupported code_challenge_method: only S256 is accepted")
  else if negb (contains_elem (RedirectURIs client) (Get q "redirect_uri"))
  then Err (HttpError 400 "Invalid redirect_uri")
  else match url_Parse (Get q "redirect_uri") with
       | None => Err (HttpError 400 "Invalid redirect_uri")
       | Some _ => Ok ()
       end.

(** The session a code may be issued to. *)
Definition authorize_session (client : AuthClient) r : option AuthContext :=
  match or_ctx r with
  | None => None
  | Some (ac, source) =>
      if (RequireConsent client && negb (isBrowserSession source ac))%bool then None else Some ac
  end.

Definition consentCovers v (now : Z) (subject : string) (req : authorizeRequest) st : bool * oauth_state :=
  match os_consent st with
  | None => (false, st)
  | Some s =>
      let '(ok, s) := Covers (oe_consent_up v) now subject (ar_ClientID req) (ar_RedirectURI req)
        (ar_Scopes req) (oe_consent_mid v) s in
      (match ok with Ok ok => ok | Err _ => false end, set_consent_store (Some s) st)
  end.

Definition sealConsent O v (c : consentRequest) : string :=
  seal (oa_blockKey O) sealPurposeConsent (oe_nonce v) (Marshal c).

Definition renderConsent O v (now : Z) (client : AuthClient) (subject account : string)
    (req : authorizeRequest) r : http_answer :=
  ConsentPage (Name client) (ar_RedirectURI req) account
    (sealConsent O v (mkConsentRequest subject (issuer (mi_signer (ho_minter (oa_host O))))
       (or_RawQuery r) (unix (now + consentRequestTTL))))
    (ar_Scopes req).

Definition code_claims q (subject : string) (ac : AuthContext) : AuthorizationCodeClaims :=
  mkCodeClaims AuthMethodOAuth2 (Get q "client_id") (Get q "code_challenge") (Get q "code_challenge_method")
    0 (idpClaimSnapshot ac) "" (Get q "redirect_uri") (Get q "resource") (Get q "scope") subject
    (match jwtGetIssuedAt ac with Ok (Some iat) => iat | _ => 0%Z end).

Definition issue_code O v (now : Z) (subject : string) (ac : AuthContext) q st : http_answer * oauth_state :=
  let '(code, i) := CreateAuthorizationCode (oe_world v) now (code_claims q subject ac) (issuer_of O st) in
  (match code with
   | None => HttpError 500 "Internal Server Error"
   | Some code => RedirectTo 302 (callback_with (Get q "redirect_uri") "code" code (Get q "state"))
   end, put_issuer i st).

(** The decision once a session is there and names its subject: consent for
    prompt=none first, then the account asked for, then the revocation, then
    the page, then the code. *)
Definition authorize_subject O v (now : Z) (client : AuthClient) (subject : string) (ac : AuthContext)
    r q st : http_answer * oauth_state :=
  let prompt := Fields (Get q "prompt") in
  let loginHint := Get q "login_hint" in
  let none := contains_elem prompt "none" in
  let deny code := redirectAuthorizeError (Get q "redirect_uri") (Get q "state") code in
  let login extra := RedirectTo 303 (authorizeLoginURL (rq_Path (or_base r)) q (prompt ++ extra)%list loginHint) in
  let areq := parseAuthorizeRequest q in
  let '(covered, st) := if RequireConsent client then consentCovers v now subject areq st else (true, st) in
  if (RequireConsent client && negb covered && none)%bool then (deny "consent_required", st)
  else if (contains_elem prompt "login" || contains_elem prompt "select_account" ||
           (negb (String.eqb loginHint "") && negb (sessionMatchesHint ac loginHint)))%bool
  then (if none then deny "login_required" else login [], st)
  else match CredentialPredatesRevocation (oe_revocation_up v) now (oa_tokenManager O) ac with
  | Err _ => (HttpError 503 "Service Unavailable", st)
  | Ok true => (if none then deny "login_required" else login ["login"], st)
  | Ok false =>
      if (RequireConsent client && (negb covered || contains_elem prompt "consent"))%bool then
        let account := let email := str_claim ac "email" in if String.eqb email "" then subject else email in
        (renderConsent O v now client subject account areq r, st)
      else issue_code O v now subject ac q st
  end.

Definition AuthorizeHandler O v (now : Z) r st : http_answer * oauth_state :=
  let q := query_of r in
  let prompt := Fields (Get q "prompt") in
  let deny code := redirectAuthorizeError (Get q "redirect_uri") (Get q "state") code in
  if String.eqb (Get q "client_id") "" then (HttpError 400 "Missing client_id", st)
  else if negb (String.eqb (Get q "response_type") "code") then (HttpError 400 "Unsupported response_type", st)
  else
    let '(client, st) := lookup_client O v now (Get q "client_id") st in
    match client with
    | Err _ => (HttpError 503 "Service Unavailable", st)
    | Ok None => (HttpError 400 "Invalid client_id", st)
    | Ok (Some client) =>
        match check_authorize client q with
        | Err refused => (refused, st)
        | Ok _ =>
            if (contains_elem prompt "none" && (1 <? length prompt)%nat)%bool
            then (deny "invalid_request", st)
            else match authorize_session client r with
            | None =>
                (if contains_elem prompt "none" then deny "login_required"
                 else RedirectTo 303 (authorizeLoginURL (rq_Path (or_base r)) q prompt (Get q "login_hint")),
                 st)
            | Some ac =>
                match jwtGetSubject ac with
                | Err _ => (HttpError 500 "Invalid session", st)
                | Ok subject =>
                    if String.eqb subject "" then (HttpError 500 "Invalid session", st)
                    else authorize_subject O v now client subject ac r q st
                end
            end
        end
    end.

(** * The consent decision *)

Definition forbidden : http_answer := HttpError 403 "Forbidden".
Definition unavailable : http_answer := HttpError 503 "Service Unavailable".

(** The sealed request, when it is this session's and still good. *)
Definition open_consent O (now : Z) (subject sealed : string) : option consentRequest :=
  match open (oa_blockKey O) sealPurposeConsent sealed with
  | Err _ => None
  | Ok payload =>
      match Unmarshal payload with
      | None => None
      | Some c =>
          if (negb (String.eqb (cr_Sub c) subject) ||
              negb (String.eqb (cr_Iss c) (issuer (mi_signer (ho_minter (oa_host O))))) ||
              (cr_Exp c <? unix now)%Z)%bool then None else Some c
      end
  end.

(** The decision of a form: exactly one of each field, and a known one. *)
Definition consent_form r : option (string * string) :=
  '(post, _) ← or_parsed r;
  match All post "decision", All post "request" with
  | [decision], [sealed] =>
      if (String.eqb decision "allow" || String.eqb decision "deny")%bool then Some (decision, sealed) else None
  | _, _ => None
  end.

(** The decision carried out. *)
Definition decide_consent v (now : Z) (decision subject : string) q (req : authorizeRequest)
    (s : ConsentStore St) st : option (http_answer * oauth_state) :=
  if String.eqb decision "deny" then
    let '(ok, s) := Revoke (oe_consent_up v) now subject (ar_ClientID req) (ar_RedirectURI req) s in
    let st := set_consent_store (Some s) st in
    Some (match ok with
          | Err _ => unavailable
          | Ok _ => match url_Parse (ar_RedirectURI req) with
                    | None => forbidden
                    | Some _ => redirectAuthorizeError (ar_RedirectURI req) (ar_State req) "access_denied"
                    end
          end, st)
  else
    '(ok, s) ← Grant (oe_consent_up v) now subject (ar_ClientID req) (ar_RedirectURI req) (ar_Scopes req) s;
    Some (match ok with
          | Err _ => unavailable
          | Ok _ => RedirectTo 303 (AtPath OAuthAuthorizePath (withoutPrompt q ["consent"]))
          end, set_consent_store (Some s) st).

(** [None]: an eviction loop of the consent store does not end. *)
Definition ConsentPost O v (now : Z) r st : option (http_answer * oauth_state) :=
  if negb (or_sameOrigin r) then Some (forbidden, st) else
  match or_ctx r with
  | None => Some (forbidden, st)
  | Some (ac, source) =>
      if negb (isBrowserSession source ac) then Some (forbidden, st) else
      match jwtGetSubject ac with
      | Err _ => Some (forbidden, st)
      | Ok subject =>
          if String.eqb subject "" then Some (forbidden, st) else
          match consent_form r with
          | None => Some (forbidden, st)
          | Some (decision, text) =>
              match open_consent O now subject text with
              | None => Some (forbidden, st)
              | Some c =>
                  let q := ParseQuery (cr_Query c) in
                  let req := parseAuthorizeRequest q in
                  let '(client, st) := lookup_client O v now (ar_ClientID req) st in
                  match client with
                  | Err _ => Some (unavailable, st)
                  | Ok None => Some (forbidden, st)
                  | Ok (Some client) =>
                      if (negb (RequireConsent client) ||
                          negb (contains_elem (RedirectURIs client) (ar_RedirectURI req)))%bool
                      then Some (forbidden, st) else
                      match os_consent st with
                      | None => Some (unavailable, st)
                      | Some s => decide_consent v now decision subject q req s st
                      end
                  end
              end
          end
      end
  end.

(** * The token endpoint *)

Definition token_refused (status : Z) (code description : string) : token_answer :=
  TokenError status code description false.

(** The answer for an error of a redemption. *)
Definition redemption_error (e : grant_error) : token_answer :=
  let '(status, code, description) := oauthErrorForRedemption e in token_refused status code description.

Definition server_error : token_answer := token_refused 500 errCodeServerError genericServerErrorDescription.

Definition MintResourcePAT O (now : Z) (resource subject scope : string) (ttl : Z)
    : result unit (string * Z) :=
  match oa_tokenManager O with
  | None => Err ()
  | Some tm =>
      let ttl := CapTTL tm ttl in
      match MintStatelessKey now tm resource subject SubjectKindUser "mcp" scope ttl with
      | Err _ => Err ()
      | Ok pat => Ok (pat, ttl)
      end
  end.

(** [d.Seconds()] as an integer. *)
Definition seconds (d : Z) : Z := (d ÷ second)%Z.

(** [None]: the pair is not resource-bound. *)
Definition writeResourcePATResponse O (now : Z) (grantType resource : string) (ts : TokenSet)
    : option token_answer :=
  if (negb (String.eqb grantType GRANT_TYPE_AUTHORIZATION_CODE) &&
      negb (String.eqb grantType GRANT_TYPE_REFRESH_TOKEN))%bool then None
  else if (String.eqb resource "" || negb (bool_decide (resource ∈ oa_ResourceAudiences O)))%bool then None
  else Some match MintResourcePAT O now resource (ts_Subject ts) (ts_Scope ts) (oa_AccessTokenTTL O) with
            | Err _ => server_error
            | Ok (pat, ttl) =>
                TokenOK (mkTokenResponse pat (seconds ttl) "" "" (RefreshToken ts) (ts_Scope ts) tokenTypeBearer)
            end.

Definition handleTokenExchange O v (now : Z) (form : values) : token_answer :=
  let subjectToken := Get form "subject_token" in
  let subjectTokenType := Get form "subject_token_type" in
  let resource := Get form "resource" in
  if (String.eqb subjectToken "" || String.eqb resource "")%bool
  then token_refused 400 errCodeInvalidRequest "subject_token and resource are required"
  else if (negb (String.eqb subjectTokenType "") && negb (String.eqb subjectTokenType accessTokenType))%bool
  then token_refused 400 errCodeInvalidRequest "unsupported subject_token_type"
  else match oa_ExchangeTargets O !! resource with
  | None => token_refused 400 errCodeInvalidTarget "unknown resource"
  | Some targetAudience =>
      let '(ts, err) := ExchangeSubjectToken (oa_host O) (oe_outside v) now subjectToken targetAudience in
      match err with
      | Some ServerError => server_error
      | Some _ => token_refused 400 errCodeInvalidRequest "invalid subject_token"
      | None => TokenOK (mkTokenResponse (AccessToken ts) (seconds (GetTokenTTL O)) "" accessTokenType "" ""
                  tokenTypeBearer)
      end
  end.

(** What a grant came to: an answer already, or the tokens of the exchanger
    with the hooks it called. *)
Inductive grant_outcome :=
| Answered (a : token_answer)
| Exchanged (r : TokenSet * option grant_error) (calls : list sent).

Definition clientCredentialsGrant O v (now : Z) (client : AuthClient)
    (clientID clientSecret scope resource : string) st : grant_outcome * oauth_state :=
  if Public_ client
  then (Answered (token_refused 400 errCodeUnauthorizedClient
          "client_credentials is not supported for public clients"), st)
  else if negb (String.eqb resource "") then
    match oa_ExchangeTargets O !! resource with
    | Some targetAudience =>
        if contains_elem (AllowedResources client) resource then
          let '(ts, s) := LoginClientResource (oa_host O) (oe_outside v) now clientID clientSecret scope
            targetAudience (os_dcr st) in (Exchanged ts [], set_dcr_store s st)
        else (Answered (token_refused 400 errCodeInvalidTarget
                "requested resource is not permitted for this client"), st)
    | None => (Answered (token_refused 400 errCodeInvalidTarget
                "requested resource is not permitted for this client"), st)
    end
  else let '(ts, s) := LoginClient (oa_host O) (oe_outside v) now clientID clientSecret scope (os_dcr st) in
       (Exchanged ts [], set_dcr_store s st).

(** The grant, for a client known and authenticated. *)
Definition run_grant O v (now : Z) (client : AuthClient) (clientID clientSecret grantType : string)
    (form : values) st : grant_outcome * oauth_state :=
  let scope := Get form "scope" in
  if String.eqb grantType GRANT_TYPE_AUTHORIZATION_CODE then
    if String.eqb (Get form "code") ""
    then (Answered (token_refused 400 errCodeInvalidRequest "code is required"), st)
    else if String.eqb (Get form "redirect_uri") ""
    then (Answered (token_refused 400 errCodeInvalidRequest "redirect_uri is required"), st)
    else let '(ts, i) := RedeemAuthorizationCode (oe_world v) now (Get form "code") clientID
           (Get form "redirect_uri") (Get form "code_verifier") (issuer_of O st) in
         (Exchanged ts [], put_issuer i st)
  else if String.eqb grantType GRANT_TYPE_CLIENT_CREDENTIALS then
    clientCredentialsGrant O v now client clientID clientSecret scope (Get form "resource") st
  else if String.eqb grantType "password" then
    let '((ts, calls), c) := LoginLocal (oa_host O) (oe_outside v) now (Get form "username")
      (Get form "password") scope clientID AuthMethodOAuth2 (refresh_cache st) in
    (Exchanged ts calls, put_refresh_cache c st)
  else if String.eqb grantType GRANT_TYPE_REFRESH_TOKEN then
    if String.eqb (Get form "refresh_token") ""
    then (Answered (token_refused 400 errCodeInvalidRequest "refresh_token is required"), st)
    else let '(ts, sh) := RedeemRefreshToken (oa_refresh O) (oe_sched v) (Get form "refresh_token") clientID
           (os_refresh st) in
         (Exchanged ts [], set_refresh_shared sh st)
  else (Answered (token_refused 400 errCodeUnsupportedGrantType "unsupported grant_type"), st).

(** The tokens answered. *)
Definition token_answer_of O (now : Z) (grantType resource : string) (ts : TokenSet) : token_answer :=
  if String.eqb (ts_Subject ts) "" then server_error
  else match writeResourcePATResponse O now grantType resource ts with
       | Some a => a
       | None => TokenOK (mkTokenResponse (AccessToken ts) (seconds (GetTokenTTL O)) (IDToken ts) ""
                   (RefreshToken ts) (ts_Scope ts) tokenTypeBearer)
       end.

(** The client's authentication: the secret it presented. *)
Definition client_secret (client : AuthClient) (basicSecret : string) (form : values) : string :=
  if (negb (Public_ client) && String.eqb basicSecret "")%bool then Get form "client_secret" else basicSecret.

Definition OAuth2TokenHandler O v (now : Z) r st : (token_answer * list sent) * oauth_state :=
  if negb (String.eqb (or_Method r) "POST")
  then ((token_refused 405 errCodeInvalidRequest "the token endpoint requires POST", []), st)
  else match or_parsed r with
  | None => ((token_refused 400 errCodeInvalidRequest "malformed request body", []), st)
  | Some (_, form) =>
      let grantType := Get form "grant_type" in
      if String.eqb grantType GRANT_TYPE_TOKEN_EXCHANGE then ((handleTokenExchange O v now form, []), st)
      else
        let '(basicID, basicSecret) := default ("", "") (or_basic r) in
        let clientID := if String.eqb basicID "" then Get form "client_id" else basicID in
        let '(client, st) := lookup_client O v now clientID st in
        match client with
        | Err _ => ((token_refused 500 errCodeServerError "client lookup failed", []), st)
        | Ok None => ((token_refused 400 errCodeInvalidClient "unknown client_id", []), st)
        | Ok (Some client) =>
            let clientSecret := client_secret client basicSecret form in
            if (negb (Public_ client) && negb (String.eqb clientSecret (ClientSecret client)))%bool then
              ((if found (or_basic r) then TokenError 401 errCodeInvalidClient "client authentication failed" true
                else token_refused 400 errCodeInvalidClient "client authentication failed", []), st)
            else if grant_refused client grantType
            then ((token_refused 400 errCodeUnauthorizedClient
                     "this client is not authorized for that grant_type", []), st)
            else if scope_refused client (Get form "scope")
            then ((token_refused 400 errCodeInvalidScope "requested scope is not allowed for this client", []), st)
            else
              let '(out, st) := run_grant O v now client clientID clientSecret grantType form st in
              match out with
              | Answered a => ((a, []), st)
              | Exchanged (_, Some e) calls => ((redemption_error e, calls), st)
              | Exchanged (ts, None) calls =>
                  ((token_answer_of O now grantType (Get form "resource") ts, calls), st)
              end
        end
  end.

(** * Login at the provider (oidc_login.go) *)

Definition joinPrompt (configured : list string) (requested : string) : string :=
  Join (foldl (fun joined p =>
          if (contains_elem upstreamPromptValues p && negb (contains_elem joined p))%bool
          then (joined ++ [p])%list else joined) configured (Fields requested)) " ".

Definition OIDCLoginURL (returnPath prompt loginHint : string) : location :=
  let q : values := {[ "return" := [returnPath] ]} in
  let q := if String.eqb prompt "" then q else SetValue "prompt" prompt q in
  AtPath OAuthLoginPath (if String.eqb loginHint "" then q else SetValue "login_hint" loginHint q).

Definition loginStateCookiePrefix O : string := oa_CookieName O ++ loginStateCookieInfix.

Definition sealLoginState O v (s : loginState) : string :=
  seal (oa_blockKey O) sealPurposeLoginState (oe_nonce v) (Marshal s).

Definition openLoginState O (sealed : string) : option loginState :=
  match open (oa_blockKey O) sealPurposeLoginState sealed with
  | Err _ => None
  | Ok payload => Unmarshal payload
  end.

Record AuthCodeRequest := mkAuthCodeRequest {
  aq_State : string;
  aq_Verifier : string;
  aq_Nonce : string;
  aq_Prompt : string;
  aq_LoginHint : string;
}.

(** The provider's URL, by the parameters the code sets on it. *)
Definition AuthCodeURL O (q : AuthCodeRequest) : location :=
  if negb (ho_oidc (oa_host O)) then AtReturn ""
  else AtProvider (aq_State q) (aq_Verifier q) (aq_Nonce q) (joinPrompt (oa_oidcPrompt O) (aq_Prompt q))
         (aq_LoginHint q).

(** The login of a cookie, its expiry zero when it does not open. *)
Definition held_login O (c : string * string) : Z * string :=
  (match openLoginState O c.2 with Some s => ls_Exp s | None => 0%Z end, c.1).

Definition held_le (a b : Z * string) : Prop :=
  (a.1 < b.1)%Z \/ (a.1 = b.1 /\ string_le a.2 b.2).

#[export] Instance held_le_dec : RelDecision held_le.
Proof. unfold held_le. intros a b. apply _. Defined.

(** The cookies cleared to make room: all but the newest
    [maxLoginsInFlight - 1]. *)
Definition expireOldestLogins O (cookies : list (string * string)) : list cookie :=
  let logins := held_login O <$> filter (fun c => HasPrefix c.1 (loginStateCookiePrefix O) = true) cookies in
  (fun l => mkCookie l.2 "" (-1)) <$>
    take (length logins - (maxLoginsInFlight - 1)) (merge_sort held_le logins).

(** A login started elsewhere is first moved to the callback's origin. *)
Definition callback_origin O r : option http_answer :=
  cb ← url_Parse (oa_RedirectURL O);
  if (negb (String.eqb (url_Host cb) "") &&
      negb (SameOrigin (url_Scheme cb ++ "://" ++ or_Host r) (url_Scheme cb) [url_Host cb]))%bool
  then Some (RedirectTo 302 (AtOrigin (url_Scheme cb) (url_Host cb) OAuthLoginPath (or_RawQuery r)))
  else None.

Definition OAuthLoginGet O v (now : Z) r : http_answer * list cookie :=
  match callback_origin O r with
  | Some a => (a, [])
  | None =>
      let q := query_of r in
      let s := mkLoginState (oe_state v) (SafeReturnPath (Get q "return")) (oe_verifier v) (oe_login_nonce v)
        (unix (now + loginStateTTL)) in
      let sealed := sealLoginState O v s in
      let name := loginStateCookiePrefix O ++ ls_State s in
      if (maxLoginStateCookieBytes <? String.length name + String.length sealed)%nat
      then (HttpError 400 "sign-in request too long", [])
      else (RedirectTo 302 (AuthCodeURL O (mkAuthCodeRequest (ls_State s) (ls_Verifier s) (ls_Nonce s)
              (Get q "prompt") (Get q "login_hint"))),
            (expireOldestLogins O (rq_cookies (or_base r)) ++
             [mkCookie name sealed (seconds loginStateTTL)])%list)
  end.

(** The login a callback's state names, and the cookie cleared for it. *)
Definition consumeLoginState O (now : Z) (r : request) (state : string)
    : option loginState * list cookie :=
  if String.eqb state "" then (None, []) else
  let name := loginStateCookiePrefix O ++ state in
  match Cookie r name with
  | None => (None, [])
  | Some c =>
      (match openLoginState O c with
       | None => None
       | Some s => if negb (String.eqb (ls_State s) state) then None
                   else if (ls_Exp s <? unix now)%Z then None else Some s
       end, [mkCookie name "" (-1)])
  end.

(** [ExchangeCode]: the provider's answer must carry an id_token. *)
Definition ExchangeCode O v (code verifier : string) : option OIDCExchange :=
  if negb (ho_oidc (oa_host O)) then None else
  match oe_provider v code verifier with
  | Some (Some idToken, refresh) => Some (mkOIDCExchange idToken refresh)
  | _ => None
  end.

Definition not_started : http_answer :=
  HttpError 400 "Login was not started from this browser; please sign in again".

(** The session cookies of a login. *)
Definition login_cookies O (ts : TokenSet) : list cookie :=
  mkCookie (oa_CookieName O) (AccessToken ts) 0 ::
  (if String.eqb (RefreshToken ts) "" then []
   else [mkCookie (oa_CookieName O ++ "_refresh") (RefreshToken ts) 0]).

(** The provider's callback. *)
Definition OAuthGet O v (now : Z) r st : ((http_answer * list cookie) * list sent) * oauth_state :=
  let q := query_of r in
  let code := Get q "code" in
  if String.eqb code "" then (((HttpError 400 "No code in request", []), []), st) else
  let '(login, cleared) := consumeLoginState O now (or_base r) (Get q "state") in
  match login with
  | None => (((not_started, cleared), []), st)
  | Some login =>
      match ExchangeCode O v code (ls_Verifier login) with
      | None => (((HttpError 401 "Failed to exchange token", cleared), []), st)
      | Some tokens =>
          if negb (CheckIDTokenNonce (oa_host O) (oe_outside v) (RawIDToken tokens) (ls_Nonce login))
          then (((not_started, cleared), []), st) else
          let '(((ts, err), calls), c) :=
            ExchangeToken (oa_host O) (oe_outside v) now tokens (refresh_cache st) in
          let st := put_refresh_cache c st in
          match err with
          | Some _ => (((HttpError 401 "Failed to exchange for local token", cleared), calls), st)
          | None =>
              match oe_hint v (RawIDToken tokens) with
              | None => (((HttpError 500 "Failed to store session hint", cleared), calls), st)
              | Some hint =>
                  (((RedirectTo 303 (AtReturn (ls_Return login)),
                     (cleared ++ hint ++ login_cookies O ts)%list), calls), st)
              end
          end
      end
  end.
End OAuth2.
