(* ===== verification/OAuth2Spec.v ===== *)
(** What the authorize endpoint and the consent decision guarantee: which
    session a code is issued to and for what, that prompt=none shows nothing,
    and that a consent granted is one the user was shown. *)
From S2P Require Import Prelude GoStr Store Deps Claims ApiToken Clients Roles Signer SubjectKind Dcr Consent Events Mint AuthCode Refresh Login SessionGrants Gate Url OAuth2.
From S2P Require Import ApiTokenSpec SignerSpec IdentitySpec DcrSpec MintSpec RefreshSpec LoginSpec GrantsSpec GateSpec.
From Stdlib Require Import Ascii.

#[local] Open Scope string_scope.

Section OAuth2Spec.
Context {St} `{CacheOps St} `{!CacheSafe St} `{Paseto} `{!Sha256} `{!KidFooter} `{!SubjectKinds} `{!Regexp} `{!JwtClaims}
  `{!JwtParser} `{!Compaction} `{!ClaimsJSON} `{!ParseURL} `{!Hmac} `{!Jose} `{!S256}
  `{!JSON RefreshTokenClaims} `{!JSON graceRecord} `{!JSON Client} `{!JSON AuthorizationCodeClaims}
  `{!JSON consentRecord} `{!JSON EventPayload} `{!JSON eventHookResponse}
  `{!JSON consentRequest} `{!JSON loginState}.

Implicit Types (O : OAuth2 (St := St)) (v : oauth_env (St := St)) (st : oauth_state (St := St))
  (r : oauth_request) (q : values).

(** * Clients and requests *)

Lemma scope_refused_spec client scope :
  scope_refused client scope = false <->
  AllowedScopes client = [] \/ forall s, s ∈ Split " "%char scope -> s <> "" -> s ∈ AllowedScopes client.
Proof.
  unfold scope_refused. destruct (AllowedScopes client) as [|a l].
  { split; [by left|done]. }
  rewrite <- not_true_iff_false, existsb_exists. split.
  - intros Hno. right. intros s Hs Hne. destruct (contains_elem (a :: l) s) eqn:Hc; [by apply contains_elem_spec|].
    destruct Hno. exists s. split; [by apply list_elem_of_In|]. rewrite Hc.
    by rewrite (proj2 (String.eqb_neq _ _) Hne).
  - intros [|Hall]; [done|]. intros (s & Hs%list_elem_of_In & Hb). apply andb_true_iff in Hb as [Hne Hc].
    apply negb_true_iff in Hne, Hc. apply String.eqb_neq in Hne.
    specialize (Hall s Hs Hne). apply contains_elem_spec in Hall. congruence.
Qed.

Lemma grant_refused_spec client grantType :
  grant_refused client grantType = false <->
  AllowedGrantTypes client = [] \/ grantType ∈ AllowedGrantTypes client.
Proof.
  unfold grant_refused. destruct (AllowedGrantTypes client) as [|a l]; [split; [by left|done]|].
  rewrite negb_false_iff, contains_elem_spec. split; [by right|]. by intros [|].
Qed.

(** What the request must be for the client. *)
Definition proper_request (client : AuthClient) q : Prop :=
  (AllowedGrantTypes client = [] \/ GRANT_TYPE_AUTHORIZATION_CODE ∈ AllowedGrantTypes client) /\
  (AllowedScopes client = [] \/
   forall s, s ∈ Split " "%char (Get q "scope") -> s <> "" -> s ∈ AllowedScopes client) /\
  (RequirePKCE client = true -> Get q "code_challenge" <> "") /\
  (Get q "code_challenge" <> "" -> Get q "code_challenge_method" = PKCE_METHOD_S256) /\
  Get q "redirect_uri" ∈ RedirectURIs client /\ is_Some (url_Parse (Get q "redirect_uri")).

Lemma check_authorize_Ok client q : check_authorize client q = Ok () -> proper_request client q.
Proof.
  unfold check_authorize, proper_request.
  destruct (grant_refused _ _) eqn:Hg; [done|]. destruct (scope_refused _ _) eqn:Hs; [done|].
  apply grant_refused_spec in Hg. apply scope_refused_spec in Hs.
  destruct (RequirePKCE client); cbn [andb].
  - destruct (String.eqb_spec (Get q "code_challenge") "") as [|Hne]; [done|]. cbn [negb andb].
    destruct (String.eqb_spec (Get q "code_challenge_method") PKCE_METHOD_S256); [|done]. cbn [negb].
    destruct (contains_elem _ _) eqn:Hr; [|done]. apply contains_elem_spec in Hr. cbn [negb].
    destruct (url_Parse _) as [u|]; [|done]. intros _. split_and!; try done.
  - destruct (String.eqb_spec (Get q "code_challenge") "") as [He|Hne]; cbn [negb andb].
    + destruct (contains_elem _ _) eqn:Hr; [|done]. apply contains_elem_spec in Hr. cbn [negb].
      destruct (url_Parse _) as [u|]; [|done]. intros _. split_and!; try done.
    + destruct (String.eqb_spec (Get q "code_challenge_method") PKCE_METHOD_S256); [|done]. cbn [negb].
      destruct (contains_elem _ _) eqn:Hr; [|done]. apply contains_elem_spec in Hr. cbn [negb].
      destruct (url_Parse _) as [u|]; [|done]. intros _. split_and!; try done.
Qed.

Lemma check_authorize_Err client q a : check_authorize client q = Err a -> exists s m, a = HttpError s m.
Proof. unfold check_authorize. repeat case_match; intros [= <-]; eauto. Qed.

(** A person's browser session. *)
Definition browser_session (source : string) (ac : AuthContext) : Prop :=
  source = COOKIE /\ ac !! CapUsesClaim <> Some (VBool true) /\
  (ac !! "auth_method" = Some (VStr AuthMethodLocal) \/ ac !! "auth_method" = Some (VStr AuthMethodOIDC)).

Lemma isBrowserSession_spec source ac : isBrowserSession source ac = true -> browser_session source ac.
Proof.
  unfold isBrowserSession, browser_session. destruct (String.eqb_spec source COOKIE) as [->|]; [|done].
  cbn [negb]. unfold bool_claim, str_claim.
  destruct (ac !! CapUsesClaim) as [[|[]|?|?|?|?|?]|]; try done;
    destruct (ac !! "auth_method") as [[|?|?|meth|?|?|?]|]; try done;
    (intros [Hm%String.eqb_eq|Hm%String.eqb_eq]%orb_true_iff; subst; split_and!; auto; done).
Qed.

(** * Authorize *)

(** An answer that issues nothing: an error of this host, a page, a detour
    through the login page, or an error at the client's redirect URI. *)
Definition issues_nothing q (a : http_answer) : Prop :=
  match a with
  | HttpError _ _ | ConsentPage _ _ _ _ _ => True
  | RedirectTo status to =>
      (status = 303 /\ exists params, to = AtPath "/-/login" params) \/
      exists code, a = redirectAuthorizeError (Get q "redirect_uri") (Get q "state") code
  end%Z.

(** Nothing was registered as a code. *)
Definition no_code st st' : Prop := os_codes st' = os_codes st /\ os_refresh st' = os_refresh st.

Lemma no_code_trans st1 st2 st3 : no_code st1 st2 -> no_code st2 st3 -> no_code st1 st3.
Proof. intros [? ?] [? ?]. split; congruence. Qed.

Lemma lookup_client_no_code O v now id st : no_code st (lookup_client O v now id st).2.
Proof. unfold lookup_client. by destruct (LookupClient _ _ _ _ _ _ _) as [c s]. Qed.

Lemma consentCovers_no_code v now subject req st : no_code st (consentCovers v now subject req st).2.
Proof. unfold consentCovers. destruct (os_consent st); [|done]. by destruct (Covers _ _ _ _ _ _ _ _). Qed.

(** The stored consent covers the scopes. *)
Definition covers_scopes (now : Z) (subject : string) (req : authorizeRequest) st : Prop :=
  exists s g, os_consent st = Some s /\
    grant_at (consents_of now subject s) (ar_ClientID req) (ar_RedirectURI req) = Some g /\
    forall sc, sc ∈ ar_Scopes req -> sc ∈ g_Scopes g.

Lemma consentCovers_true v now subject req st st' :
  consentCovers v now subject req st = (true, st') -> covers_scopes now subject req st.
Proof.
  unfold consentCovers. destruct (os_consent st) as [s|] eqn:Hs; [|done].
  destruct (oe_consent_up v 0%nat) eqn:Hup.
  - pose proof (Covers_answer (oe_consent_up v) now subject (ar_ClientID req) (ar_RedirectURI req)
      (ar_Scopes req) (oe_consent_mid v) s Hup) as Hc.
    destruct (Covers _ _ _ _ _ _ _ _) as [ok s']. cbn [fst] in Hc. subst ok.
    intros [= Hok <-]. destruct (grant_at _ _ _) as [g|] eqn:Hg; [|done].
    exists s, g. split_and!; [done|done|]. intros sc Hin. apply contains_elem_spec.
    rewrite forallb_forall in Hok. apply Hok. by apply list_elem_of_In.
  - unfold Covers, load. rewrite Hup. cbn [negb]. by intros [= ].
Qed.

Lemma redirect_error_issues_nothing q code : issues_nothing q (redirectAuthorizeError (Get q "redirect_uri") (Get q "state") code).
Proof. right. by exists code. Qed.

Lemma login_issues_nothing q path q' prompt hint : issues_nothing q (RedirectTo 303 (authorizeLoginURL path q' prompt hint)).
Proof. left. split; [done|]. unfold authorizeLoginURL. by eexists. Qed.

(** Once the session names its subject. *)
Lemma authorize_subject_spec O v now client subject ac r q st a st' :
  authorize_subject O v now client subject ac r q st = (a, st') ->
  let prompt := Fields (Get q "prompt") in
  (issues_nothing q a /\ no_code st st') \/
  ((RequireConsent client = true ->
      covers_scopes now subject (parseAuthorizeRequest q) st /\ "consent" ∉ prompt) /\
   "login" ∉ prompt /\ "select_account" ∉ prompt /\
   (Get q "login_hint" = "" \/ sessionMatchesHint ac (Get q "login_hint") = true) /\
   CredentialPredatesRevocation (oe_revocation_up v) now (oa_tokenManager O) ac = Ok false /\
   exists st1, no_code st st1 /\ issue_code O v now subject ac q st1 = (a, st')).
Proof.
  unfold authorize_subject. cbn zeta.
  set (prompt := Fields (Get q "prompt")).
  destruct (if RequireConsent client then consentCovers v now subject (parseAuthorizeRequest q) st
            else (true, st)) as [covered st1] eqn:Hc.
  assert (no_code st st1 /\ (RequireConsent client = true -> covered = true ->
      covers_scopes now subject (parseAuthorizeRequest q) st)) as [Hnc Hcov].
  { destruct (RequireConsent client).
    - split; [|intros _ ->; by eapply consentCovers_true].
      pose proof (consentCovers_no_code v now subject (parseAuthorizeRequest q) st) as Hn. by rewrite Hc in Hn.
    - injection Hc as <- <-. done. }
  destruct (_ && contains_elem prompt "none")%bool.
  { intros [= <- <-]. left. split; [apply redirect_error_issues_nothing|done]. }
  destruct (contains_elem prompt "login") eqn:Hl; cbn [orb].
  { destruct (contains_elem prompt "none"); intros [= <- <-]; left;
      split; [apply redirect_error_issues_nothing|done|apply login_issues_nothing|done]. }
  destruct (contains_elem prompt "select_account") eqn:Hsel; cbn [orb].
  { destruct (contains_elem prompt "none"); intros [= <- <-]; left;
      split; [apply redirect_error_issues_nothing|done|apply login_issues_nothing|done]. }
  destruct (negb (String.eqb (Get q "login_hint") "") && _)%bool eqn:Hh.
  { destruct (contains_elem prompt "none"); intros [= <- <-]; left;
      split; [apply redirect_error_issues_nothing|done|apply login_issues_nothing|done]. }
  destruct (CredentialPredatesRevocation _ _ _ _) as [[]|] eqn:Hrev.
  - destruct (contains_elem prompt "none"); intros [= <- <-]; left;
      split; [apply redirect_error_issues_nothing|done|apply login_issues_nothing|done].
  - destruct (RequireConsent client) eqn:Hreq; cbn [andb].
    + destruct covered; cbn [negb orb].
      * destruct (contains_elem prompt "consent") eqn:Hcons.
        { intros [= <- <-]. by left. }
        intros Hi. right. split_and!; try (by intros ?%contains_elem_spec; congruence).
        -- intros _. split; [by apply Hcov|]. by intros ?%contains_elem_spec; congruence.
        -- apply andb_false_iff in Hh as [Hh|Hh]; apply negb_false_iff in Hh; [left|by right].
           by apply String.eqb_eq.
        -- done.
        -- by exists st1.
      * intros [= <- <-]. by left.
    + intros Hi. right. split_and!; try (by intros ?%contains_elem_spec; congruence).
      * done.
      * apply andb_false_iff in Hh as [Hh|Hh]; apply negb_false_iff in Hh; [left|by right].
        by apply String.eqb_eq.
      * done.
      * by exists st1.
  - intros [= <- <-]. by left.
Qed.

(** The handler up to the session. *)
Lemma AuthorizeHandler_spec O v now r st a st' :
  AuthorizeHandler O v now r st = (a, st') ->
  let q := query_of r in
  (issues_nothing q a /\ no_code st st') \/
  exists client ac subject st1,
    lookup_client O v now (Get q "client_id") st = (Ok (Some client), st1) /\
    proper_request client q /\ Get q "client_id" <> "" /\
    authorize_session client r = Some ac /\ jwtGetSubject ac = Ok subject /\ subject <> "" /\
    authorize_subject O v now client subject ac r q st1 = (a, st').
Proof.
  unfold AuthorizeHandler. cbn zeta. set (q := query_of r).
  destruct (String.eqb_spec (Get q "client_id") "") as [|Hid]; [intros [= <- <-]; by left|].
  destruct (String.eqb (Get q "response_type") "code"); [|intros [= <- <-]; by left]. cbn [negb].
  pose proof (lookup_client_no_code O v now (Get q "client_id") st) as Hnc.
  destruct (lookup_client O v now (Get q "client_id") st) as [[[client|]|] st1] eqn:Hlk; cbn [snd] in Hnc;
    [|intros [= <- <-]; by left..].
  destruct (check_authorize client q) as [[]|refused] eqn:Hck.
  2: { intros [= <- <-]. left. destruct (check_authorize_Err _ _ _ Hck) as (s & m & ->). done. }
  destruct (_ && _)%bool.
  { intros [= <- <-]. left. split; [apply redirect_error_issues_nothing|done]. }
  destruct (authorize_session client r) as [ac|] eqn:Hs.
  2: { intros Heq. left. destruct (contains_elem _ "none"); injection Heq as <- <-;
         (split; [first [apply redirect_error_issues_nothing|apply login_issues_nothing]|done]). }
  destruct (jwtGetSubject ac) as [subject|] eqn:Hsub; [|intros [= <- <-]; by left].
  destruct (String.eqb_spec subject "") as [|Hne]; [intros [= <- <-]; by left|].
  intros Ha. right. exists client, ac, subject, st1. split_and!; try done. by apply check_authorize_Ok.
Qed.

Lemma authorize_session_Some client r ac :
  authorize_session client r = Some ac ->
  exists source, or_ctx r = Some (ac, source) /\ (RequireConsent client = true -> browser_session source ac).
Proof.
  unfold authorize_session. destruct (or_ctx r) as [[ac' source]|]; [|done].
  destruct (RequireConsent client); cbn [andb].
  - destruct (isBrowserSession source ac') eqn:Hb; [|done]. cbn [negb]. intros [= <-].
    exists source. split; [done|]. intros _. by apply isBrowserSession_spec.
  - intros [= <-]. by exists source.
Qed.

(** C6: A code is issued only to the session it is for. Whatever the request,
    the endpoint either issues nothing, answering an error, a page, a detour
    through the login page or an error at the redirect URI, with no code
    registered; or the client is known, may use codes and asked only for
    scopes it may have, the redirect URI is one it registered, a PKCE challenge
    is there when it is required and is S256, the session names its subject,
    was authenticated after the subject's last revocation and is for the
    account the request asked for, and no new login was asked for. To a
    dynamically registered client only a person's browser session is issued
    one, under a stored consent that covers every scope asked for at that
    redirect URI; and the code, which goes to that redirect URI with the state,
    seals exactly this client, redirect URI, challenge, scope and subject. *)
Theorem code_only_for_session O v now r st a st' :
  AuthorizeHandler O v now r st = (a, st') ->
  let q := query_of r in let prompt := Fields (Get q "prompt") in
  (issues_nothing q a /\ no_code st st') \/
  exists client ac source subject st1 st2,
    lookup_client O v now (Get q "client_id") st = (Ok (Some client), st1) /\ proper_request client q /\
    or_ctx r = Some (ac, source) /\ ac !! "sub" = Some (VStr subject) /\ subject <> "" /\
    "login" ∉ prompt /\ "select_account" ∉ prompt /\
    (Get q "login_hint" = "" \/ sessionMatchesHint ac (Get q "login_hint") = true) /\
    CredentialPredatesRevocation (oe_revocation_up v) now (oa_tokenManager O) ac = Ok false /\
    (RequireConsent client = true ->
       browser_session source ac /\ "consent" ∉ prompt /\
       covers_scopes now subject (parseAuthorizeRequest q) st1) /\
    no_code st st2 /\
    let '(code, i) := CreateAuthorizationCode (oe_world v) now (code_claims q subject ac) (issuer_of O st2) in
    st' = put_issuer i st2 /\
    match code with
    | Some code => a = RedirectTo 302 (callback_with (Get q "redirect_uri") "code" code (Get q "state"))
    | None => a = HttpError 500 "Internal Server Error"
    end.
Proof.
  intros Ha. cbn zeta. destruct (AuthorizeHandler_spec _ _ _ _ _ _ _ Ha)
    as [?|(client & ac & subject & st1 & Hlk & Hp & _ & Hs & Hsub & Hne & Hsubj)]; [by left|].
  pose proof (lookup_client_no_code O v now (Get (query_of r) "client_id") st) as Hn1. rewrite Hlk in Hn1.
  cbn [snd] in Hn1.
  destruct (authorize_subject_spec _ _ _ _ _ _ _ _ _ _ _ Hsubj)
    as [[Hq Hn]|(Hcov & Hl & Hsel & Hh & Hrev & st2 & Hn2 & Hi)].
  { left. split; [done|by eapply no_code_trans]. }
  right. destruct (authorize_session_Some _ _ _ Hs) as (source & Hctx & Hb).
  exists client, ac, source, subject, st1, st2. split_and!; try done.
  - by apply jwtGetSubject_Ok.
  - intros Hr. destruct (Hcov Hr). split_and!; [by apply Hb|done|done].
  - by eapply no_code_trans.
  - unfold issue_code in Hi. destruct (CreateAuthorizationCode _ _ _ _) as [code i].
    injection Hi as <- <-. split; [done|]. by destruct code.
Qed.

(** * prompt=none *)


Lemma Get_SetValue_ne k k' x q : k' <> k -> Get (SetValue k x q) k' = Get q k'.
Proof. intros Hne. unfold Get, All, SetValue. by rewrite lookup_insert_ne. Qed.

(** An answer that leads back to the client, or nowhere. *)
Definition silent q (a : http_answer) : Prop :=
  match a with
  | ConsentPage _ _ _ _ _ => False
  | RedirectTo status to => status = 302%Z /\ exists key value,
      to = callback_with (Get q "redirect_uri") key value (Get q "state") /\ (key = "error" \/ key = "code")
  | HttpError _ _ => True
  end.

Lemma redirect_error_silent q code :
  silent q (redirectAuthorizeError (Get q "redirect_uri") (Get q "state") code).
Proof. split; [done|]. exists "error", code. split; [done|by left]. Qed.

Lemma issue_code_silent O v now subject ac q st : silent q (issue_code O v now subject ac q st).1.
Proof.
  unfold issue_code. destruct (CreateAuthorizationCode _ _ _ _) as [[code|] i]; [|done].
  split; [done|]. exists "code", code. split; [done|by right].
Qed.

(** Alone, none asks for nothing else. *)
Lemma none_alone (prompt : list string) p :
  contains_elem prompt "none" = true -> (1 <? length prompt)%nat = false -> p <> "none" ->
  contains_elem prompt p = false.
Proof.
  intros Hn Hl Hp. apply Nat.ltb_ge in Hl. apply contains_elem_spec in Hn.
  destruct prompt as [|x [|y l]]; [by apply elem_of_nil in Hn| |simpl in Hl; lia].
  apply list_elem_of_singleton in Hn as <-. destruct (contains_elem _ p) eqn:Hc; [|done].
  apply contains_elem_spec, list_elem_of_singleton in Hc. done.
Qed.

(** With prompt=none nothing is shown. Whatever the session, the consent
    held and the hint, such a request is never answered with the consent page
    nor sent to the login page: it gets an error of this host, an error at its
    redirect URI, or a code. And a client the subject never consented to is
    told consent_required whatever hint it sends, so that it cannot ask who is
    signed in. *)
Theorem prompt_none_shows_nothing O v now r st :
  let q := query_of r in
  ("none" ∈ Fields (Get q "prompt") -> silent q (AuthorizeHandler O v now r st).1) /\
  (forall client subject ac hint, "none" ∈ Fields (Get q "prompt") -> RequireConsent client = true ->
     (consentCovers v now subject (parseAuthorizeRequest q) st).1 = false ->
     (authorize_subject O v now client subject ac r (SetValue "login_hint" hint q) st).1 =
       redirectAuthorizeError (Get q "redirect_uri") (Get q "state") "consent_required").
Proof.
  cbn zeta. split.
  - intros Hnone%contains_elem_spec. unfold AuthorizeHandler. set (q := query_of r) in *.
    destruct (String.eqb _ ""); [done|]. destruct (negb _); [done|].
    destruct (lookup_client _ _ _ _ _) as [[[client|]|] st1]; [|done..].
    destruct (check_authorize client q) as [[]|refused] eqn:Hck.
    2: { by destruct (check_authorize_Err _ _ _ Hck) as (s & m & ->). }
    rewrite Hnone. cbn [andb]. destruct (1 <? _)%nat eqn:Hlen; [apply redirect_error_silent|].
    pose proof (none_alone _ "consent" Hnone Hlen ltac:(done)) as Hcons.
    destruct (authorize_session client r) as [ac|]; [|apply redirect_error_silent].
    destruct (jwtGetSubject ac) as [subject|]; [|done]. destruct (String.eqb subject ""); [done|].
    unfold authorize_subject. rewrite Hnone, Hcons.
    destruct (if RequireConsent client then _ else _) as [covered st2] eqn:Hc.
    destruct (_ && _ && true)%bool eqn:Hdeny; [apply redirect_error_silent|].
    destruct (_ || _)%bool; [apply redirect_error_silent|].
    destruct (CredentialPredatesRevocation _ _ _ _) as [[]|]; [apply redirect_error_silent| |done].
    rewrite andb_true_r in Hdeny. rewrite orb_false_r, Hdeny. apply issue_code_silent.
  - intros client subject ac hint Hnone%contains_elem_spec Hreq Hcov. unfold authorize_subject.
    rewrite !Get_SetValue_ne by done. rewrite Hnone, Hreq. cbn [andb].
    assert (consentCovers v now subject (parseAuthorizeRequest (SetValue "login_hint" hint (query_of r))) st =
      consentCovers v now subject (parseAuthorizeRequest (query_of r)) st) as ->.
    { unfold consentCovers, parseAuthorizeRequest. cbn [ar_ClientID ar_RedirectURI ar_Scopes].
      by rewrite !Get_SetValue_ne by done. }
    destruct (consentCovers _ _ _ _ _) as [covered st1]. cbn [fst] in Hcov. subst covered. done.
Qed.

(** * The consent decision *)

Definition our_issuer O : string := issuer (mi_signer (ho_minter (oa_host O))).

Lemma open_consent_Some O now subject sealed c :
  open_consent O now subject sealed = Some c ->
  (exists payload, open (oa_blockKey O) sealPurposeConsent sealed = Ok payload /\ Unmarshal payload = Some c) /\
  cr_Sub c = subject /\ cr_Iss c = our_issuer O /\ (unix now <= cr_Exp c)%Z.
Proof.
  unfold open_consent. destruct (open _ _ _) as [payload|]; [|done].
  destruct (Unmarshal payload) as [c'|] eqn:Hu; [|done].
  destruct (String.eqb_spec (cr_Sub c') subject) as [Hs|]; [|done]. cbn [negb orb].
  destruct (String.eqb_spec (cr_Iss c') (issuer (mi_signer (ho_minter (oa_host O))))) as [Hi|]; [|done].
  cbn [negb orb]. destruct (Z.ltb_spec (cr_Exp c') (unix now)); [done|]. intros [= ->].
  split_and!; try done. by exists payload.
Qed.

Lemma consent_form_Some r decision text :
  consent_form r = Some (decision, text) ->
  exists post form, or_parsed r = Some (post, form) /\ post !! "decision" = Some [decision] /\
    post !! "request" = Some [text] /\ (decision = "allow" \/ decision = "deny").
Proof.
  unfold consent_form. destruct (or_parsed r) as [[post form]|]; [|done]. cbn [mbind option_bind].
  unfold All. destruct (post !! "decision") as [[|d [|]]|] eqn:Hd; try done.
  destruct (post !! "request") as [[|t [|]]|] eqn:Ht; try done. cbn.
  destruct (String.eqb_spec d "allow") as [->|]; [intros [= <- <-]; exists post, form; split_and!; auto|].
  destruct (String.eqb_spec d "deny") as [->|]; [|done]. intros [= <- <-]. exists post, form. split_and!; auto.
Qed.

(** What a consent decision was made on. *)
Record decided O v now r st st1 (subject decision : string) (c : consentRequest) (client : AuthClient)
    (s : ConsentStore St) : Prop := {
  dd_origin : or_sameOrigin r = true;
  dd_session : exists ac source, or_ctx r = Some (ac, source) /\ browser_session source ac /\
    ac !! "sub" = Some (VStr subject) /\ subject <> "";
  dd_form : exists post form text, or_parsed r = Some (post, form) /\ post !! "decision" = Some [decision] /\
    post !! "request" = Some [text] /\
    exists payload, open (oa_blockKey O) sealPurposeConsent text = Ok payload /\ Unmarshal payload = Some c;
  dd_decision : decision = "allow" \/ decision = "deny";
  dd_sealed : cr_Sub c = subject /\ cr_Iss c = our_issuer O /\ (unix now <= cr_Exp c)%Z;
  dd_client : lookup_client O v now (Get (ParseQuery (cr_Query c)) "client_id") st = (Ok (Some client), st1) /\
    RequireConsent client = true /\ Get (ParseQuery (cr_Query c)) "redirect_uri" ∈ RedirectURIs client;
  dd_store : os_consent st1 = Some s;
}.

Lemma ConsentPost_spec O v now r st out :
  ConsentPost O v now r st = out ->
  (exists a st', out = Some (a, st') /\ (a = forbidden \/ a = unavailable) /\ no_code st st' /\
     os_consent st' = os_consent st) \/
  exists subject decision c client s st1,
    decided O v now r st st1 subject decision c client s /\ no_code st st1 /\
    decide_consent v now decision subject (ParseQuery (cr_Query c))
      (parseAuthorizeRequest (ParseQuery (cr_Query c))) s st1 = out.
Proof.
  intros Hout. unfold ConsentPost in Hout.
  assert (Some (forbidden, st) = out -> exists a st', out = Some (a, st') /\
    (a = forbidden \/ a = unavailable) /\ no_code st st' /\ os_consent st' = os_consent st) as Hforb.
  { intros <-. exists forbidden, st. split_and!; [done|by left|done|done]. }
  destruct (or_sameOrigin r) eqn:Ho; [|by left; apply Hforb]. cbn [negb] in Hout.
  destruct (or_ctx r) as [[ac source]|] eqn:Hctx; [|by left; apply Hforb].
  destruct (isBrowserSession source ac) eqn:Hb; [|by left; apply Hforb]. cbn [negb] in Hout.
  destruct (jwtGetSubject ac) as [subject|] eqn:Hsub; [|by left; apply Hforb].
  destruct (String.eqb_spec subject "") as [|Hne]; [by left; apply Hforb|].
  destruct (consent_form r) as [[decision text]|] eqn:Hform; [|by left; apply Hforb].
  destruct (open_consent O now subject text) as [c|] eqn:Hopen; [|by left; apply Hforb].
  cbn zeta in Hout. cbn [ar_ClientID ar_RedirectURI parseAuthorizeRequest] in Hout.
  pose proof (lookup_client_no_code O v now (Get (ParseQuery (cr_Query c)) "client_id") st) as Hnc.
  assert (os_consent (lookup_client O v now (Get (ParseQuery (cr_Query c)) "client_id") st).2 = os_consent st)
    as Hcs by (unfold lookup_client; by destruct (LookupClient _ _ _ _ _ _ _)).
  destruct (lookup_client _ _ _ _ _) as [[[client|]|] st1] eqn:Hlk; cbn [snd] in Hnc, Hcs.
  2, 3: left; eexists _, st1; (split; [by rewrite <- Hout|]); (split; [first [by left|by right]|by split]).
  destruct (negb (RequireConsent client) || _)%bool eqn:Hreq.
  { left. exists forbidden, st1. split_and!; [by rewrite <- Hout|by left|done|done]. }
  apply orb_false_iff in Hreq as [Hreq%negb_false_iff Hin%negb_false_iff]. apply contains_elem_spec in Hin.
  destruct (os_consent st1) as [s|] eqn:Hs.
  2: { left. exists unavailable, st1. split_and!; [by rewrite <- Hout|by right|done|congruence]. }
  right. exists subject, decision, c, client, s, st1. split_and!; [|done|exact Hout].
  destruct (open_consent_Some _ _ _ _ _ Hopen) as (Hp & ? & ? & ?).
  destruct (consent_form_Some _ _ _ Hform) as (post & form & Hparsed & Hd & Ht & Hdec).
  split; try done.
  - exists ac, source. split_and!; [done|by apply isBrowserSession_spec|by apply jwtGetSubject_Ok|done].
  - exists post, form, text. done.
Qed.

(** C30: A consent is only ever what the page asked, of the person it asked. A
    consent decision that changes the consent store was posted from this host's
    own page, in a person's browser session, as the one decision and the one
    request of its form; the request it carries was sealed by this host for
    this subject no longer ago than it may be, and its client is still
    registered, with that redirect URI, as one that needs consent. Allow records
    exactly the client, redirect URI and supported scopes of the sealed
    request, and leads back to authorize with the same query, less the consent
    prompt; deny revokes exactly that consent, and reports access_denied. A code
    is never issued here. *)
Theorem consent_only_what_was_shown O v now r st a st' :
  ConsentPost O v now r st = Some (a, st') ->
  no_code st st' /\
  ((os_consent st' = os_consent st /\ (a = forbidden \/ a = unavailable)) \/
   exists subject decision c client s s' st1 ok,
     decided O v now r st st1 subject decision c client s /\ os_consent st' = Some s' /\
     let q := ParseQuery (cr_Query c) in let uri := Get q "redirect_uri" in
     (decision = "allow" ->
        Grant (oe_consent_up v) now subject (Get q "client_id") uri (supportedScopes (Get q "scope")) s =
          Some (ok, s') /\
        (ok = Ok () -> a = RedirectTo 303 (AtPath OAuthAuthorizePath (withoutPrompt q ["consent"])))) /\
     (decision = "deny" ->
        Revoke (oe_consent_up v) now subject (Get q "client_id") uri s = (ok, s') /\
        (ok = Ok () -> a = redirectAuthorizeError uri (Get q "state") "access_denied" \/ url_Parse uri = None)) /\
     (ok <> Ok () -> a = unavailable)).
Proof.
  intros Hp. destruct (ConsentPost_spec _ _ _ _ _ _ Hp)
    as [(a' & st'' & [= <- <-] & Ha & Hnc & Hcs)|(subject & decision & c & client & s & st1 & Hd & Hnc & Hdec)].
  { split; [done|]. by left. }
  unfold decide_consent in Hdec. cbn [parseAuthorizeRequest ar_ClientID ar_RedirectURI ar_State ar_Scopes] in Hdec.
  destruct (dd_decision _ _ _ _ _ _ _ _ _ _ _ Hd) as [->| ->]; cbn [String.eqb Ascii.eqb Bool.eqb] in Hdec.
  - destruct (Grant _ _ _ _ _ _ _) as [[ok s']|] eqn:Hg; [|done]. cbn [mbind option_bind] in Hdec.
    injection Hdec as <- <-. split; [done|]. right. exists subject, "allow", c, client, s, s', st1, ok.
    cbn zeta. split_and!; [done|done| |done|].
    + intros _. split; [done|]. by intros ->.
    + destruct ok as [[]|]; [|done]. by intros [].
  - destruct (Revoke _ _ _ _ _ _) as [ok s'] eqn:Hg. injection Hdec as <- <-. split; [done|].
    right. exists subject, "deny", c, client, s, s', st1, ok. cbn zeta. split_and!; [done|done|done| |].
    + intros _. split; [done|]. intros ->. destruct (url_Parse _); [by left|by right].
    + destruct ok as [[]|]; [|done]. by intros [].
Qed.
End OAuth2Spec.

(** * Witnesses *)

#[local] Existing Instance kindsExample.
#[local] Existing Instance jwtExample.
#[local] Existing Instance compactExample.
#[local] Existing Instance noRegexp.
#[local] Existing Instance parseExample.
#[local] Existing Instance refreshJSON.
#[local] Existing Instance graceJSON.
#[local] Existing Instance claimsJSONExample.
#[local] Existing Instance sha256Example.
#[local] Existing Instance kidFooterExample.
#[local] Existing Instance timeExample.
#[local] Existing Instance pasetoExample.
#[local] Existing Instance gateParser.
#[local] Existing Instance joseExample.
#[local] Existing Instance s256Example.
#[local] Existing Instance codeJSON.
#[local] Existing Instance MintSpec.clientJSON.
#[local] Existing Instance consentJSON.
#[local] Existing Instance hmacExample.
#[local] Existing Instance responseJSON.
#[local] Existing Instance payloadJSON.

#[local] Instance consentRequest_eq_dec : EqDecision consentRequest.
Proof. solve_decision. Defined.
#[local] Program Instance consentRequest_countable : Countable consentRequest :=
  inj_countable' (fun c => (cr_Sub c, cr_Iss c, cr_Query c, cr_Exp c))
    (fun x => let '(s, i, q, e) := x in mkConsentRequest s i q e) _.
Next Obligation. by intros []. Qed.
#[local] Instance loginState_eq_dec : EqDecision loginState.
Proof. solve_decision. Defined.
#[local] Program Instance loginState_countable : Countable loginState :=
  inj_countable' (fun s => (ls_State s, ls_Return s, ls_Verifier s, ls_Nonce s, ls_Exp s))
    (fun x => let '(s, r, v, n, e) := x in mkLoginState s r v n e) _.
Next Obligation. by intros []. Qed.

Definition consentRequestJSON : JSON consentRequest := jsonExample consentRequest.
#[local] Existing Instance consentRequestJSON.
Definition loginStateJSON : JSON loginState := jsonExample loginState.
#[local] Existing Instance loginStateJSON.

(** A host with one confidential client and one that needs consent. *)
Definition consentClient : AuthClient :=
  mkAuthClient ["authorization_code"; "refresh_token"] [] [] "dcr_1" "" "" "An app" true ["https://app/cb"] true true.

Definition oauthExchanger : Exchanger :=
  mkExchanger (<["dcr_1" := consentClient]> {[ "app" := exampleClient ]}) ∅ "email" false
    (NewRoleProvider [] []) (fun _ => ∅).

Definition oauthHost : Host :=
  mkHost (mkMinter oauthExchanger (exampleSigner None) false) true "pub" true "https://host-aud" None
    [aliceLookup] (24 * hour) [].

Definition exampleOAuth2 : OAuth2 (St := mapStore) :=
  mkOAuth2 oauthHost exampleConfig "block" (Some exampleTM) "auth" "https://host/cb" ["consent"]
    {[ "https://api" ]} {[ "https://fn-b" := "https://fn-b" ]} hour.

Definition oauthStart : oauth_state (St := mapStore) :=
  mkOAuthState (Some (emptyStore (10 * minute))) (Some exampleShared) None (Some exampleConsents).

Definition oauthEnv (rnd : string) : oauth_env (St := mapStore) :=
  mkOAuthEnv (exampleWorld rnd) (exampleOutside yes) (fun _ => (5, calm rnd)) (fun _ => true) (fun _ => true) id
    (fun code _ => if String.eqb code "upstream" then Some (Some "idt", "up") else None) (fun _ => Some [])
    "nonce" "st4te" "v3rifier" "n".

Definition aliceBrowser : claims := <["auth_method" := VStr "oidc"]> sessionClaims.

Definition authorizeQuery : string :=
  "client_id=dcr_1&response_type=code&redirect_uri=https%3A%2F%2Fapp%2Fcb&scope=openid+email&state=xyz" ++
  "&code_challenge=hverifier&code_challenge_method=S256&prompt=consent".

Definition browsing (raw : string) (parsed : option (values * values)) : oauth_request :=
  mkOAuthRequest "GET" raw parsed None (mkRequest "" [] OAuthAuthorizePath) (Some (aliceBrowser, COOKIE))
    "host" true.

Definition shownPage := AuthorizeHandler exampleOAuth2 (oauthEnv "r1") 5 (browsing authorizeQuery None) oauthStart.

Definition shownRequest : string :=
  match shownPage.1 with ConsentPage _ _ _ sealed _ => sealed | _ => "" end.

Lemma shownPage_eq :
  shownPage = (ConsentPage "An app" "https://app/cb" "alice" shownRequest ["email"; "openid"], shownPage.2).
Proof. vm_compute. reflexivity. Qed.

Lemma code_only_for_session_witness :
  issues_nothing (query_of (browsing authorizeQuery None)) shownPage.1 /\ no_code oauthStart shownPage.2.
Proof.
  destruct (code_only_for_session exampleOAuth2 (oauthEnv "r1") 5 (browsing authorizeQuery None) oauthStart
    shownPage.1 shownPage.2 (surjective_pairing _))
    as [Hn|(client & ac & source & subject & st1 & st2 & Hlk & _ & _ & _ & _ & _ & _ & _ & _ & Hc & _)];
    [exact Hn|exfalso].
  assert (client = consentClient) as -> by (vm_compute in Hlk; injection Hlk as <- _; reflexivity).
  destruct (Hc eq_refl) as (_ & Hno & _). apply Hno. vm_compute. left.
Defined.

Definition allowing : values := {[ "decision" := ["allow"]; "request" := [shownRequest] ]}.

Definition allowed := ConsentPost exampleOAuth2 (oauthEnv "r2") 6 (browsing "" (Some (allowing, allowing))) oauthStart.

Lemma consent_only_what_was_shown_witness :
  exists a st', allowed = Some (a, st') /\ no_code oauthStart st' /\
    a = RedirectTo 303 (AtPath OAuthAuthorizePath
          (withoutPrompt (query_of (browsing authorizeQuery None)) ["consent"])).
Proof.
  destruct allowed as [[a st']|] eqn:Ha; [|vm_compute in Ha; discriminate Ha]. exists a, st'.
  split; [reflexivity|]. split; [exact (proj1 (consent_only_what_was_shown _ _ _ _ _ _ _ Ha))|].
  apply (f_equal (fun o => match o with Some x => x.1 | None => a end)) in Ha. cbn [fst] in Ha.
  rewrite <- Ha. vm_compute. reflexivity.
Defined.
