(* ===== verification/ConsentFlow.v ===== *)
(** The consent flow from end to end: the page shown by authorize, the
    decision posted from it, and authorize again, each in its own request. *)
From S2P Require Import Prelude GoStr Store Deps Claims ApiToken Clients Roles Signer SubjectKind Dcr Consent Events Mint AuthCode Refresh Login SessionGrants Gate Url OAuth2.
From S2P Require Import ApiTokenSpec SignerSpec IdentitySpec DcrSpec MintSpec RefreshSpec LoginSpec GrantsSpec GateSpec OAuth2Spec.
From Stdlib Require Import Ascii.

#[local] Open Scope string_scope.

(** * The query less a prompt *)

Lemma withoutPrompt_other q drop k : k <> "prompt" -> Get (withoutPrompt q drop) k = Get q k.
Proof.
  intros Hk. unfold withoutPrompt. destruct (filter _ _) as [|p l].
  - unfold Get, All, Del. by rewrite lookup_delete_ne.
  - by apply Get_SetValue_ne.
Qed.

Lemma withoutPrompt_prompt q drop :
  Fields (Get (withoutPrompt q drop) "prompt") =
  filter (fun p => contains_elem drop p = false) (Fields (Get q "prompt")).
Proof.
  unfold withoutPrompt.
  assert (Forall word (filter (fun p => contains_elem drop p = false) (Fields (Get q "prompt")))) as Hw.
  { rewrite Forall_forall. intros p [_ Hp]%list_elem_of_filter. revert p Hp. apply Forall_forall, Fields_words. }
  destruct (filter _ _) as [|p l] eqn:Hf.
  - unfold Get, All, Del. by rewrite lookup_delete_eq.
  - unfold Get, All, SetValue. rewrite lookup_insert_eq. cbn [default from_option id head].
    by apply Fields_Join.
Qed.

Lemma withoutPrompt_nonempty q drop :
  (forall k vs, q !! k = Some vs -> vs <> []) ->
  forall k vs, withoutPrompt q drop !! k = Some vs -> vs <> [].
Proof.
  intros Hq k vs. unfold withoutPrompt. destruct (filter _ _) as [|p l].
  - unfold Del. rewrite lookup_delete_Some. intros [_ Hk]. by eapply Hq.
  - unfold SetValue. rewrite lookup_insert_Some. intros [[_ <-]|[_ Hk]]; [done|by eapply Hq].
Qed.

Section ConsentFlow.
Context {St} `{CacheOps St} `{!CacheSafe St} `{Paseto} `{!Sha256} `{!KidFooter} `{!SubjectKinds} `{!Regexp} `{!JwtClaims}
  `{!JwtParser} `{!Compaction} `{!ClaimsJSON} `{!ParseURL} `{!Hmac} `{!Jose} `{!S256}
  `{!JSON RefreshTokenClaims} `{!JSON graceRecord} `{!JSON Client} `{!JSON AuthorizationCodeClaims}
  `{!JSON consentRecord} `{!JSON EventPayload} `{!JSON eventHookResponse}
  `{!JSON consentRequest} `{!JSON loginState}.
Context (good_clean : forall rec : consentRecord, good_record rec -> clean rec).

Implicit Types (O : OAuth2 (St := St)) (v : oauth_env (St := St)) (st : oauth_state (St := St))
  (r : oauth_request) (q : values).

(** A request that authorize would show the page for, or issue a code to,
    depending on the consent held. *)
Definition ready O v (now : Z) (client : AuthClient) (ac : AuthContext) (subject : string) r : Prop :=
  let q := query_of r in let prompt := Fields (Get q "prompt") in
  Get q "client_id" <> "" /\ Get q "response_type" = "code" /\ check_authorize client q = Ok () /\
  contains_elem prompt "none" = false /\ authorize_session client r = Some ac /\
  jwtGetSubject ac = Ok subject /\ subject <> "" /\ RequireConsent client = true /\
  contains_elem prompt "login" = false /\ contains_elem prompt "select_account" = false /\
  (negb (String.eqb (Get q "login_hint") "") && negb (sessionMatchesHint ac (Get q "login_hint")))%bool = false /\
  CredentialPredatesRevocation (oe_revocation_up v) now (oa_tokenManager O) ac = Ok false.

(** When the page is shown. *)
Lemma consent_page_inv O v now r st name uri account sealed scopes st' :
  AuthorizeHandler O v now r st = (ConsentPage name uri account sealed scopes, st') ->
  exists client ac subject st1,
    lookup_client O v now (Get (query_of r) "client_id") st = (Ok (Some client), st1) /\
    ready O v now client ac subject r /\ uri = Get (query_of r) "redirect_uri" /\
    sealed = sealConsent O v (mkConsentRequest subject (our_issuer O) (or_RawQuery r)
      (unix (now + consentRequestTTL))).
Proof.
  unfold AuthorizeHandler. set (q := query_of r).
  destruct (String.eqb_spec (Get q "client_id") "") as [|Hid]; [done|].
  destruct (String.eqb_spec (Get q "response_type") "code") as [Hty|]; [|done]. cbn [negb].
  destruct (lookup_client _ _ _ _ _) as [[[client|]|] st1] eqn:Hlk; [|done..].
  destruct (check_authorize client q) as [[]|refused] eqn:Hck.
  2: { intros [= ->]. by destruct (check_authorize_Err _ _ _ Hck) as (s & m & [=]). }
  destruct (contains_elem (Fields (Get q "prompt")) "none") eqn:Hnone; cbn [andb].
  { destruct (1 <? _)%nat eqn:Hlen; [done|]. destruct (authorize_session client r) as [ac|]; [|done].
    pose proof (none_alone _ "consent" Hnone Hlen ltac:(done)) as Hcons.
    destruct (jwtGetSubject ac) as [subject|]; [|done]. destruct (String.eqb subject ""); [done|].
    unfold authorize_subject. rewrite Hnone, Hcons.
    destruct (if RequireConsent client then _ else _) as [covered st2].
    destruct (_ && _ && true)%bool eqn:Hdeny; [done|]. destruct (_ || _)%bool; [done|].
    destruct (CredentialPredatesRevocation _ _ _ _) as [[]|]; [done| |done].
    rewrite andb_true_r in Hdeny. rewrite orb_false_r, Hdeny. unfold issue_code.
    by destruct (CreateAuthorizationCode _ _ _ _) as [[code|] i]. }
  destruct (authorize_session client r) as [ac|] eqn:Hses; [|done].
  destruct (jwtGetSubject ac) as [subject|] eqn:Hsub; [|done].
  destruct (String.eqb_spec subject "") as [|Hne]; [done|].
  unfold authorize_subject. fold q. rewrite Hnone.
  destruct (if RequireConsent client then _ else _) as [covered st2].
  rewrite andb_false_r.
  destruct (contains_elem _ "login") eqn:Hl; cbn [orb]; [done|].
  destruct (contains_elem _ "select_account") eqn:Hs; cbn [orb]; [done|].
  destruct (_ && _)%bool eqn:Hh; [done|].
  destruct (CredentialPredatesRevocation _ _ _ _) as [[]|] eqn:Hrev; [done| |done].
  destruct (RequireConsent client) eqn:Hreq; cbn [andb].
  2: { unfold issue_code. by destruct (CreateAuthorizationCode _ _ _ _) as [[code|] i]. }
  destruct (_ || _)%bool.
  - unfold renderConsent. intros [= <- <- <- <- <- _]. exists client, ac, subject, st1.
    split_and!; try done.
  - unfold issue_code. by destruct (CreateAuthorizationCode _ _ _ _) as [[code|] i].
Qed.

(** With the consent held, a request that is ready is issued a code. *)
Lemma ready_issues O v now client ac subject r st st1 st2 :
  lookup_client O v now (Get (query_of r) "client_id") st = (Ok (Some client), st1) ->
  ready O v now client ac subject r ->
  consentCovers v now subject (parseAuthorizeRequest (query_of r)) st1 = (true, st2) ->
  contains_elem (Fields (Get (query_of r) "prompt")) "consent" = false ->
  AuthorizeHandler O v now r st = issue_code O v now subject ac (query_of r) st2.
Proof.
  intros Hlk (Hid & Hty & Hck & Hnone & Hses & Hsub & Hne & Hreq & Hl & Hs & Hh & Hrev) Hcov Hcons.
  unfold AuthorizeHandler. rewrite (proj2 (String.eqb_neq _ _) Hid), Hty, String.eqb_refl. cbn [negb].
  rewrite Hlk, Hck, Hnone. cbn [andb]. rewrite Hses, Hsub, (proj2 (String.eqb_neq _ _) Hne).
  unfold authorize_subject. rewrite Hreq, Hcov, Hnone, Hl, Hs, Hh, Hrev, Hcons. cbn [andb negb orb]. done.
Qed.

(** The request authorize gets back: the same query, less the consent prompt. *)
Definition back_at_authorize r r' : Prop :=
  or_RawQuery r' = Encode (withoutPrompt (query_of r) ["consent"]) /\ or_ctx r' = or_ctx r.

Lemma back_query r r' : back_at_authorize r r' -> query_of r' = withoutPrompt (query_of r) ["consent"].
Proof.
  intros [Hq _]. unfold query_of. rewrite Hq. apply ParseQuery_Encode_id, withoutPrompt_nonempty.
  apply ParseQuery_nonempty.
Qed.

Lemma back_ready O v v' now now' client ac subject r r' :
  ready O v now client ac subject r -> back_at_authorize r r' ->
  CredentialPredatesRevocation (oe_revocation_up v') now' (oa_tokenManager O) ac = Ok false ->
  ready O v' now' client ac subject r' /\
  contains_elem (Fields (Get (query_of r') "prompt")) "consent" = false /\
  (forall k, k <> "prompt" -> Get (query_of r') k = Get (query_of r) k).
Proof.
  intros (Hid & Hty & Hck & Hnone & Hses & Hsub & Hne & Hreq & Hl & Hs & Hh & _) Hb Hrev.
  pose proof (back_query _ _ Hb) as Hq.
  assert (forall k, k <> "prompt" -> Get (query_of r') k = Get (query_of r) k) as Hget.
  { intros k Hk. rewrite Hq. by apply withoutPrompt_other. }
  assert (forall p, contains_elem (Fields (Get (query_of r) "prompt")) p = false ->
    contains_elem (Fields (Get (query_of r') "prompt")) p = false) as Hprompt.
  { intros p Hp. rewrite Hq, withoutPrompt_prompt. apply not_true_iff_false. rewrite contains_elem_spec.
    intros [_ Hin]%list_elem_of_filter. apply contains_elem_spec in Hin. congruence. }
  split; [|split; [rewrite Hq, withoutPrompt_prompt|done]].
  - unfold ready. rewrite !Hget by done. split_and!; try done; try by apply Hprompt.
    + unfold check_authorize in *. by rewrite !Hget by done.
    + unfold authorize_session in *. by rewrite (proj2 Hb).
    + by rewrite !Hget by done.
  - apply not_true_iff_false. rewrite contains_elem_spec. intros [Hc _]%list_elem_of_filter.
    by vm_compute in Hc.
Qed.

Lemma supportedScopes_supported scope sc : sc ∈ supportedScopes scope -> sc ∈ SupportedScopes.
Proof.
  unfold supportedScopes, sort_strings. rewrite merge_sort_Permutation.
  rewrite elem_of_keep_distinct. intros [Hn|[_ Hc]]; [by apply elem_of_nil in Hn|by apply contains_elem_spec].
Qed.

Lemma supportedScopes_plain scope :
  Forall (fun sc => isASCII sc = true /\ (String.length sc <= MaxConsentScopeLen)%nat) (supportedScopes scope).
Proof.
  rewrite Forall_forall. intros sc Hin%supportedScopes_supported. revert sc Hin. apply Forall_forall.
  repeat constructor; vm_compute; try lia.
Qed.

(** The scopes asked for, with those already allowed, fit the store. *)
Definition room_for (now : Z) (subject : string) (req : authorizeRequest) (s : ConsentStore St) : Prop :=
  (length (old_scopes (consents_of now subject s) (ar_ClientID req) (ar_RedirectURI req)) +
     length (ar_Scopes req) <= MaxConsentScopes)%nat.

(** C32: The consent flow completes. When authorize shows a session the consent
    page, and the same session posts the page's form back in time with allow,
    from this host and with the stores answering, the decision is recorded and
    leads back to authorize; and the request that makes, for as long as the
    consent is kept, the session unrevoked and the client registered, is
    issued a code at the redirect URI and with the state of the first request:
    the page is not shown again. *)
Theorem consent_flow_completes O v1 now1 r1 st1 name uri account sealed scopes st1' client st1a
    v2 now2 r2 st2 st2a s ac source subject :
  let q := query_of r1 in let req := parseAuthorizeRequest q in
  AuthorizeHandler O v1 now1 r1 st1 = (ConsentPage name uri account sealed scopes, st1') ->
  lookup_client O v1 now1 (ar_ClientID req) st1 = (Ok (Some client), st1a) ->
  or_ctx r1 = Some (ac, source) -> ac !! "sub" = Some (VStr subject) ->
  clean (mkConsentRequest subject (our_issuer O) (or_RawQuery r1) (unix (now1 + consentRequestTTL))) ->
  or_ctx r2 = or_ctx r1 -> or_sameOrigin r2 = true -> consent_form r2 = Some ("allow", sealed) ->
  now1 <= now2 <= now1 + consentRequestTTL -> unix now2 < maxInt64 ->
  lookup_client O v2 now2 (ar_ClientID req) st2 = (Ok (Some client), st2a) -> os_consent st2a = Some s ->
  oe_consent_up v2 = (fun _ => true) -> good_record (consents_of now2 subject s) ->
  isASCII (ar_ClientID req) = true -> room_for now2 subject req s ->
  exists st3,
    ConsentPost O v2 now2 r2 st2 =
      Some (RedirectTo 303 (AtPath OAuthAuthorizePath (withoutPrompt q ["consent"])), st3) /\
    forall v3 now3 r3 st3a, back_at_authorize r1 r3 -> now2 <= now3 <= now2 + cs_ttl s ->
      lookup_client O v3 now3 (ar_ClientID req) st3 = (Ok (Some client), st3a) ->
      CredentialPredatesRevocation (oe_revocation_up v3) now3 (oa_tokenManager O) ac = Ok false ->
      oe_consent_up v3 0%nat = true -> wo_up (oe_world v3) 0%nat = true ->
      exists code st4, AuthorizeHandler O v3 now3 r3 st3 =
        (RedirectTo 302 (callback_with uri "code" code (ar_State req)), st4).
Proof.
  intros q req Hpage Hlk1 Hctx1 Hsub1 Hclean Hctx2 Horigin Hform Htime Hmax Hlk2 Hstore Hup Hgood Hascii Hroom.
  destruct (consent_page_inv _ _ _ _ _ _ _ _ _ _ _ Hpage) as (client' & ac' & subject' & st1b & Hlk1' & Hready & -> & ->).
  cbn [ar_ClientID parseAuthorizeRequest req] in Hlk1. fold q in Hlk1'. rewrite Hlk1 in Hlk1'.
  injection Hlk1' as <- <-.
  pose proof Hready as (Hid & Hty & Hck & Hnone & Hses & Hsub & Hne & Hreq & _).
  destruct (authorize_session_Some _ _ _ Hses) as (source' & Hctx & Hb). rewrite Hctx1 in Hctx.
  injection Hctx as <- <-. rewrite (jwtGetSubject_string _ _ Hsub1) in Hsub. injection Hsub as <-.
  assert (isBrowserSession source ac = true) as Hbs.
  { unfold authorize_session in Hses. rewrite Hctx1, Hreq in Hses. cbn [andb] in Hses.
    by destruct (isBrowserSession source ac). }
  destruct (Grant_spec good_clean now2 subject (ar_ClientID req) (ar_RedirectURI req) (ar_Scopes req) s Hgood Hascii
    (supportedScopes_plain _) Hmax) as (s' & Hg & Hof & _).
  assert (our_issuer O = issuer (mi_signer (ho_minter (oa_host O)))) as Hiss by done.
  assert (ParseQuery (or_RawQuery r1) = q) as Hq by done.
  eexists. split.
  - unfold ConsentPost. rewrite Horigin, Hctx2, Hctx1, Hbs, (jwtGetSubject_string _ _ Hsub1). cbn [negb].
    rewrite (proj2 (String.eqb_neq _ _) Hne), Hform. unfold open_consent, sealConsent, open, seal.
    rewrite jose_decrypt_encrypt, Unmarshal_Marshal by done. cbn [cr_Sub cr_Iss cr_Exp cr_Query].
    rewrite <- Hiss, !String.eqb_refl. cbn [negb orb].
    assert ((unix (now1 + consentRequestTTL) <? unix now2)%Z = false) as ->
      by (apply Z.ltb_ge, unix_mono; lia).
    cbn iota. cbn [cr_Query]. rewrite Hq. fold req. cbn zeta. rewrite Hlk2, Hreq.
    destruct (check_authorize_Ok _ _ Hck) as (_ & _ & _ & _ & Hin & _).
    assert (contains_elem (RedirectURIs client) (ar_RedirectURI req) = true) as ->
      by (by apply contains_elem_spec).
    cbn [negb orb]. rewrite Hstore. unfold decide_consent. cbn [String.eqb Ascii.eqb Bool.eqb].
    rewrite Hup, Hg. cbn [mbind option_bind]. reflexivity.
  - intros v3 now3 r3 st3a Hback Ht3 Hlk3 Hrev3 Hup3 Hw3.
    destruct (back_ready O v1 v3 now1 now3 client ac subject r1 r3 Hready Hback Hrev3) as (Hready3 & Hcons3 & Hget3).
    assert (parseAuthorizeRequest (query_of r3) = mkAuthorizeRequest (ar_ClientID req) (ar_RedirectURI req)
      (ar_State req) (ar_LoginHint req) (ar_Prompt (parseAuthorizeRequest (query_of r3))) (ar_Scopes req)) as Hreq3.
    { unfold req, parseAuthorizeRequest. cbn [ar_ClientID ar_RedirectURI ar_State ar_LoginHint ar_Prompt ar_Scopes].
      by rewrite (Hget3 "client_id"), (Hget3 "redirect_uri"), (Hget3 "state"), (Hget3 "login_hint"),
        (Hget3 "scope") by done. }
    assert (os_consent st3a = Some s') as Hs3.
    { apply (f_equal snd) in Hlk3. unfold lookup_client in Hlk3.
      destruct (LookupClient _ _ _ _ _ _ _) as [c d]. cbn in Hlk3. by rewrite <- Hlk3. }
    destruct (consentCovers v3 now3 subject (parseAuthorizeRequest (query_of r3)) st3a) as [covered st4] eqn:Hcov.
    assert (covered = true) as ->.
    { unfold consentCovers in Hcov. rewrite Hs3, Hreq3 in Hcov. cbn [ar_ClientID ar_RedirectURI ar_Scopes] in Hcov.
      destruct (Hof now3 Ht3) as [_ Hat].
      pose proof (Covers_answer (oe_consent_up v3) now3 subject (ar_ClientID req) (ar_RedirectURI req)
        (ar_Scopes req) (oe_consent_mid v3) s' Hup3) as Hans.
      rewrite Hat in Hans. destruct (Covers _ _ _ _ _ _ _ _) as [ok s'']. cbn [fst] in Hans. subst ok.
      injection Hcov as <- _. apply forallb_forall. intros sc Hsc%list_elem_of_In. apply contains_elem_spec.
      cbn [g_Scopes]. apply elem_of_merge_scopes; [exact Hroom|]. right. split; [done|].
      pose proof (supportedScopes_plain (Get q "scope")) as Hpl. rewrite Forall_forall in Hpl. by apply Hpl. }
    assert (Get (query_of r3) "client_id" = ar_ClientID req) as Hcid by (by rewrite Hget3).
    rewrite (ready_issues O v3 now3 client ac subject r3 _ st3a st4); [|by rewrite Hcid|done|done|done].
    unfold issue_code, CreateAuthorizationCode. rewrite !Hget3 by done.
    destruct (is_authCodeCache _) as [cache|]; [rewrite Hw3|]; eexists _, _; reflexivity.
Qed.
End ConsentFlow.

(** * Witness *)

#[local] Existing Instance kindsExample.
#[local] Existing Instance jwtExample.
#[local] Existing Instance compactExample.
#[local] Existing Instance noRegexp.
#[local] Existing Instance parseExample.
#[local] Existing Instance refreshJSON.
#[local] Existing Instance graceJSON.
#[local] Existing Instance claimsJSONExample.
#[local] Existing Instance sha256Example.
#[local] Existing Instance kidFooterExample.
#[local] Existing Instance timeExample.
#[local] Existing Instance pasetoExample.
#[local] Existing Instance gateParser.
#[local] Existing Instance joseExample.
#[local] Existing Instance s256Example.
#[local] Existing Instance codeJSON.
#[local] Existing Instance MintSpec.clientJSON.
#[local] Existing Instance consentJSON.
#[local] Existing Instance hmacExample.
#[local] Existing Instance responseJSON.
#[local] Existing Instance payloadJSON.
#[local] Existing Instance consentRequestJSON.
#[local] Existing Instance loginStateJSON.

Definition stateAfterAllow : oauth_state (St := mapStore) :=
  match allowed with Some (_, st) => st | None => oauthStart end.

(** The request authorize gets back. *)
Definition returning : oauth_request :=
  browsing (Encode (withoutPrompt (query_of (browsing authorizeQuery None)) ["consent"])) None.

Lemma consent_flow_completes_witness :
  exists code st4, AuthorizeHandler exampleOAuth2 (oauthEnv "r3") 7 returning stateAfterAllow =
    (RedirectTo 302 (callback_with "https://app/cb" "code" code "xyz"), st4).
Proof.
  destruct (consent_flow_completes consentJSON_clean exampleOAuth2 (oauthEnv "r1") 5 (browsing authorizeQuery None)
    oauthStart "An app" "https://app/cb" "alice" shownRequest ["email"; "openid"] shownPage.2 consentClient oauthStart
    (oauthEnv "r2") 6 (browsing "" (Some (allowing, allowing))) oauthStart oauthStart exampleConsents aliceBrowser
    COOKIE "alice") as (st3 & Hpost & Hback).
  - exact shownPage_eq.
  - vm_compute. reflexivity.
  - reflexivity.
  - vm_compute. reflexivity.
  - exact I.
  - reflexivity.
  - reflexivity.
  - vm_compute. reflexivity.
  - vm_compute. split; discriminate.
  - vm_compute. reflexivity.
  - vm_compute. reflexivity.
  - reflexivity.
  - reflexivity.
  - rewrite exampleConsents_empty. apply good_empty.
  - vm_compute. reflexivity.
  - unfold room_for. rewrite exampleConsents_empty. vm_compute. lia.
  - assert (st3 = stateAfterAllow) as ->.
    { unfold stateAfterAllow, allowed. rewrite Hpost. reflexivity. }
    destruct (Hback (oauthEnv "r3") 7 returning stateAfterAllow) as (code & st4 & Ha).
    + split; reflexivity.
    + vm_compute. split; discriminate.
    + vm_compute. reflexivity.
    + vm_compute. reflexivity.
    + reflexivity.
    + reflexivity.
    + exists code, st4. exact Ha.
Defined.
