(* ===== verification/OAuth2TokenSpec.v ===== *)
(** What the token endpoint and the browser login at the provider guarantee:
    whom tokens are answered to and for what audience, what an error tells, and
    that a callback only finishes a login its browser started. *)
From S2P Require Import Prelude GoStr Store Deps Claims ApiToken Clients Roles Signer SubjectKind Dcr Consent Events Mint AuthCode Refresh Login SessionGrants Gate Url OAuth2.
From S2P Require Import ApiTokenSpec SignerSpec IdentitySpec DcrSpec MintSpec RefreshSpec LoginSpec GrantsSpec GateSpec OAuth2Spec.
From Stdlib Require Import Ascii.

#[local] Open Scope string_scope.

Section TokenSpec.
Context {St} `{CacheOps St} `{!CacheSafe St} `{Paseto} `{!Sha256} `{!KidFooter} `{!SubjectKinds} `{!Regexp} `{!JwtClaims}
  `{!JwtParser} `{!Compaction} `{!ClaimsJSON} `{!ParseURL} `{!Hmac} `{!Jose} `{!S256}
  `{!JSON RefreshTokenClaims} `{!JSON graceRecord} `{!JSON Client} `{!JSON AuthorizationCodeClaims}
  `{!JSON consentRecord} `{!JSON EventPayload} `{!JSON eventHookResponse}
  `{!JSON consentRequest} `{!JSON loginState}.

Implicit Types (O : OAuth2 (St := St)) (v : oauth_env (St := St)) (st : oauth_state (St := St))
  (r : oauth_request) (q form : values).

(** * Errors *)

(** What an error may say when it is not worded for the grant. *)
Definition plain_descriptions : list string :=
  ["the token endpoint requires POST"; "malformed request body"; "client lookup failed";
   "unknown client_id"; "client authentication failed"; "this client is not authorized for that grant_type";
   "requested scope is not allowed for this client"; "subject_token and resource are required";
   "unsupported subject_token_type"; "unknown resource"; "invalid subject_token"; "code is required";
   "redirect_uri is required"; "refresh_token is required"; "unsupported grant_type";
   "client_credentials is not supported for public clients";
   "requested resource is not permitted for this client"; genericServerErrorDescription;
   genericGrantFailureDescription].

(** The error codes of RFC 6749 5.2 and RFC 8693 the endpoint knows. *)
Definition error_codes : list string :=
  [errCodeInvalidRequest; errCodeInvalidClient; errCodeInvalidGrant; errCodeUnauthorizedClient;
   errCodeUnsupportedGrantType; errCodeInvalidScope; errCodeServerError; errCodeInvalidTarget].

Definition fixed_error (basic : bool) (a : token_answer) : bool :=
  match a with
  | TokenOK _ => true
  | TokenError status code description challenge =>
      (contains_elem [400; 401; 405; 500]%Z status && contains_elem error_codes code &&
       contains_elem plain_descriptions description &&
       (negb (status =? 500)%Z || (String.eqb code errCodeServerError &&
          contains_elem [genericServerErrorDescription; "client lookup failed"] description)) &&
       Bool.eqb challenge (status =? 401)%Z && (negb challenge || basic))%bool
  end.

(** * Whom the endpoint serves *)

(** The client a request authenticates as. *)
Definition request_client r form : string * string :=
  let '(id, secret) := default ("", "") (or_basic r) in
  (if String.eqb id "" then Get form "client_id" else id, secret).

Definition authenticated r form (client : AuthClient) : Prop :=
  Public_ client = true \/ client_secret client (request_client r form).2 form = ClientSecret client.

(** The requests the endpoint runs a grant for. *)
Definition may_run O v (now : Z) r form st (client : AuthClient) st1 : Prop :=
  or_Method r = "POST" /\ (exists post, or_parsed r = Some (post, form)) /\
  lookup_client O v now (request_client r form).1 st = (Ok (Some client), st1) /\
  authenticated r form client /\
  (AllowedGrantTypes client = [] \/ Get form "grant_type" ∈ AllowedGrantTypes client) /\
  (AllowedScopes client = [] \/
   forall s, s ∈ Split " "%char (Get form "scope") -> s <> "" -> s ∈ AllowedScopes client) /\
  Get form "grant_type" <> GRANT_TYPE_TOKEN_EXCHANGE.

Lemma token_handler_inv O v now r st a calls st' :
  OAuth2TokenHandler O v now r st = ((a, calls), st') ->
  (calls = [] /\ no_code st st' /\ os_consent st' = os_consent st /\
   ((exists status code description challenge, a = TokenError status code description challenge /\
       fixed_error (found (or_basic r)) a = true) \/
    exists post form, or_parsed r = Some (post, form) /\ or_Method r = "POST" /\
      Get form "grant_type" = GRANT_TYPE_TOKEN_EXCHANGE /\ st' = st /\ a = handleTokenExchange O v now form)) \/
  exists form client st1 out, may_run O v now r form st client st1 /\
    run_grant O v now client (request_client r form).1
      (client_secret client (request_client r form).2 form) (Get form "grant_type") form st1 = (out, st') /\
    match out with
    | Answered a' => a = a' /\ calls = []
    | Exchanged (_, Some e) calls' => a = redemption_error e /\ calls = calls'
    | Exchanged (ts, None) calls' =>
        a = token_answer_of O now (Get form "grant_type") (Get form "resource") ts /\ calls = calls'
    end.
Proof.
  unfold OAuth2TokenHandler. intros Hh.
  destruct (String.eqb_spec (or_Method r) "POST") as [Hm|]; cbn [negb] in Hh.
  2: { injection Hh as <- <- <-. left. split_and!; try done. left. eexists _, _, _, _.
       split; [reflexivity|]. vm_compute. reflexivity. }
  destruct (or_parsed r) as [[post form]|] eqn:Hp.
  2: { injection Hh as <- <- <-. left. split_and!; try done. left. eexists _, _, _, _.
       split; [reflexivity|]. vm_compute. reflexivity. }
  destruct (String.eqb_spec (Get form "grant_type") GRANT_TYPE_TOKEN_EXCHANGE) as [Hg|Hg].
  { injection Hh as <- <- <-. left. split_and!; try done. right. exists post, form. done. }
  destruct (default ("", "") (or_basic r)) as [basicID basicSecret] eqn:Hb.
  assert (request_client r form = (if String.eqb basicID "" then Get form "client_id" else basicID, basicSecret))
    as Hrc by (unfold request_client; by rewrite Hb).
  pose proof (lookup_client_no_code O v now (request_client r form).1 st) as Hnc.
  assert (os_consent (lookup_client O v now (request_client r form).1 st).2 = os_consent st)
    as Hcs by (unfold lookup_client; by destruct (LookupClient _ _ _ _ _ _ _)).
  rewrite Hrc in Hnc, Hcs. cbn [fst] in Hnc, Hcs.
  destruct (lookup_client _ _ _ _ _) as [[[client|]|] st1] eqn:Hlk; cbn [snd] in Hnc, Hcs.
  2: { injection Hh as <- <- <-. left. split_and!; try done. left. eexists _, _, _, _.
       split; [reflexivity|]. vm_compute. reflexivity. }
  2: { injection Hh as <- <- <-. left. split_and!; try done. left. eexists _, _, _, _.
       split; [reflexivity|]. vm_compute. reflexivity. }
  destruct (negb (Public_ client) && _)%bool eqn:Hauth.
  { injection Hh as <- <- <-. left. split_and!; try done. left.
    destruct (or_basic r) as [x|]; cbn [found]; eexists _, _, _, _; (split; [reflexivity|]);
      vm_compute; reflexivity. }
  destruct (grant_refused client _) eqn:Hgr.
  { injection Hh as <- <- <-. left. split_and!; try done. left. eexists _, _, _, _.
       split; [reflexivity|]. vm_compute. reflexivity. }
  destruct (scope_refused client _) eqn:Hsc.
  { injection Hh as <- <- <-. left. split_and!; try done. left. eexists _, _, _, _.
       split; [reflexivity|]. vm_compute. reflexivity. }
  destruct (run_grant _ _ _ _ _ _ _ _ _) as [out st2] eqn:Hrun.
  right. exists form, client, st1, out. rewrite Hrc. cbn [fst snd]. split; [|split].
  - split_and!; [done|by exists post|by rewrite Hrc| |by apply grant_refused_spec|by apply scope_refused_spec|done].
    unfold authenticated. rewrite Hrc. cbn [snd]. apply andb_false_iff in Hauth as [Ha|Ha]; apply negb_false_iff in Ha.
    + by left.
    + right. by apply String.eqb_eq.
  - rewrite Hrun. f_equal. by destruct out as [|[? [|]]]; injection Hh.
  - by destruct out as [|[? [|]]]; injection Hh as <- <- <-.
Qed.

(** Tokens for a resource. *)
Definition resource_bound O (grantType resource : string) : Prop :=
  (grantType = GRANT_TYPE_AUTHORIZATION_CODE \/ grantType = GRANT_TYPE_REFRESH_TOKEN) /\ resource <> "" /\
  resource ∈ oa_ResourceAudiences O.

Lemma writeResourcePATResponse_spec O now grantType resource ts :
  match writeResourcePATResponse O now grantType resource ts with
  | None => ~ resource_bound O grantType resource
  | Some a => resource_bound O grantType resource /\
      (a = server_error \/
       exists tm pat, oa_tokenManager O = Some tm /\
         let ttl := CapTTL tm (oa_AccessTokenTTL O) in
         MintStatelessKey now tm resource (ts_Subject ts) SubjectKindUser "mcp" (ts_Scope ts) ttl = Ok pat /\
         a = TokenOK (mkTokenResponse pat (seconds ttl) "" "" (RefreshToken ts) (ts_Scope ts) tokenTypeBearer))
  end.
Proof.
  unfold writeResourcePATResponse, resource_bound.
  destruct (String.eqb_spec grantType GRANT_TYPE_AUTHORIZATION_CODE) as [Hg|Hg];
    destruct (String.eqb_spec grantType GRANT_TYPE_REFRESH_TOKEN) as [Hg'|Hg']; cbn [negb andb].
  4: { by intros [[?|?] _]. }
  all: destruct (String.eqb_spec resource "") as [Hr|Hr]; cbn [orb]; [by intros (_ & ? & _)|];
    case_bool_decide as Hin; cbn [negb]; [|by intros (_ & _ & ?)];
    (split; [by auto|]); unfold MintResourcePAT;
    destruct (oa_tokenManager O) as [tm|]; [|by left];
    destruct (MintStatelessKey _ _ _ _ _ _ _ _) as [pat|] eqn:Hm; [|by left];
    right; exists tm, pat; done.
Qed.

Lemma CapTTL_capped (tm : TokenManager St) ttl :
  (0 < tm_maxTTL tm)%Z -> (CapTTL tm ttl <= tm_maxTTL tm /\ CapTTL tm ttl <= ttl)%Z.
Proof.
  intros Hm. unfold CapTTL. rewrite (proj2 (Z.ltb_lt _ _) Hm). cbn [andb].
  destruct (Z.ltb_spec (tm_maxTTL tm) ttl); lia.
Qed.

Lemma run_grant_client_credentials O v now client id secret form st ts calls st' :
  run_grant O v now client id secret GRANT_TYPE_CLIENT_CREDENTIALS form st = (Exchanged (ts, None) calls, st') ->
  Public_ client = false /\
  (Get form "resource" <> "" -> Get form "resource" ∈ AllowedResources client /\
     exists target, oa_ExchangeTargets O !! Get form "resource" = Some target /\
       (LoginClientResource (oa_host O) (oe_outside v) now id secret (Get form "scope") target (os_dcr st)).1 =
         (ts, None)).
Proof.
  unfold run_grant, clientCredentialsGrant. cbn [String.eqb Ascii.eqb Bool.eqb GRANT_TYPE_CLIENT_CREDENTIALS GRANT_TYPE_AUTHORIZATION_CODE].
  destruct (Public_ client); [done|].
  destruct (String.eqb_spec (Get form "resource") "") as [He|Hne]; cbn [negb].
  - intros _. split; [done|]. by intros [].
  - destruct (oa_ExchangeTargets O !! Get form "resource") as [target|] eqn:Ht; [|done].
    destruct (contains_elem _ _) eqn:Hc; [|done]. apply contains_elem_spec in Hc.
    destruct (LoginClientResource _ _ _ _ _ _ _ _) as [[ts' e] s] eqn:Hl. intros [= -> -> _ _].
    split; [done|]. intros _. split; [done|]. exists target. by rewrite Hl.
Qed.

(** C7: Tokens are answered only for a grant the client may use. A successful
    answer is to a POST. Unless it is the exchange of a function access token
    for a configured target, which needs no client, leaves every store alone
    and yields neither id_token nor refresh token, the client is known, and
    authenticated by its secret unless it is public, may use the grant and
    asked only for scopes it may have; the grant succeeded, and named a
    subject. For a protected resource a code or a refresh token yields an API
    token of the subject bound to that resource, living no longer than the
    host's maximum, and no id_token; otherwise the tokens of the grant.
    client_credentials is never answered to a public client, nor for a
    resource its registration does not allow. *)
Theorem tokens_only_for_grants O v now r st resp calls st' :
  OAuth2TokenHandler O v now r st = ((TokenOK resp, calls), st') ->
  exists post form, or_parsed r = Some (post, form) /\ or_Method r = "POST" /\
  let grantType := Get form "grant_type" in let resource := Get form "resource" in
  (grantType = GRANT_TYPE_TOKEN_EXCHANGE /\ st' = st /\ calls = [] /\
   exists target ts, oa_ExchangeTargets O !! resource = Some target /\ Get form "subject_token" <> "" /\
     ExchangeSubjectToken (oa_host O) (oe_outside v) now (Get form "subject_token") target = (ts, None) /\
     tp_AccessToken resp = AccessToken ts /\ tp_IDToken resp = "" /\ tp_RefreshToken resp = "") \/
  exists client st1 ts,
    may_run O v now r form st client st1 /\
    run_grant O v now client (request_client r form).1
      (client_secret client (request_client r form).2 form) grantType form st1 = (Exchanged (ts, None) calls, st') /\
    ts_Subject ts <> "" /\ tp_RefreshToken resp = RefreshToken ts /\ tp_Scope resp = ts_Scope ts /\
    (~ resource_bound O grantType resource ->
       tp_AccessToken resp = AccessToken ts /\ tp_IDToken resp = IDToken ts) /\
    (resource_bound O grantType resource -> tp_IDToken resp = "" /\
       exists tm ttl, oa_tokenManager O = Some tm /\
         MintStatelessKey now tm resource (ts_Subject ts) SubjectKindUser "mcp" (ts_Scope ts) ttl =
           Ok (tp_AccessToken resp) /\ tp_ExpiresIn resp = seconds ttl /\
         ((0 < tm_maxTTL tm)%Z -> (ttl <= tm_maxTTL tm)%Z)) /\
    (grantType = GRANT_TYPE_CLIENT_CREDENTIALS -> Public_ client = false /\
       (resource <> "" -> resource ∈ AllowedResources client /\ is_Some (oa_ExchangeTargets O !! resource))).
Proof.
  intros Hh. destruct (token_handler_inv _ _ _ _ _ _ _ _ Hh) as
    [(-> & _ & _ & [(? & ? & ? & ? & [=] & _)|(post & form & Hp & Hm & Hg & -> & Ha)])|
     (form & client & st1 & out & Hmay & Hrun & Hout)].
  - exists post, form. split_and!; [done|done|]. left. split_and!; [done|done|done|].
    unfold handleTokenExchange in Ha.
    destruct (String.eqb_spec (Get form "subject_token") "") as [|Hst]; cbn [orb] in Ha; [done|].
    destruct (String.eqb (Get form "resource") ""); [done|]. destruct (_ && _)%bool; [done|].
    destruct (oa_ExchangeTargets O !! _) as [target|] eqn:Ht; [|done].
    destruct (ExchangeSubjectToken _ _ _ _ _) as [ts [[]|]] eqn:He; try done. injection Ha as ->.
    exists target, ts. done.
  - pose proof Hmay as (Hm & (post & Hp) & _). exists post, form. split_and!; [done|done|]. right.
    destruct out as [a'|[ts [e|]] calls'].
    + destruct Hout as [<- ->]. exfalso. unfold run_grant, clientCredentialsGrant in Hrun.
      repeat (case_match; try (injection Hrun as [=]); try done).
    + destruct Hout as [Ha _]. by destruct e.
    + destruct Hout as [Ha ->]. exists client, st1, ts. unfold token_answer_of in Ha.
      destruct (String.eqb_spec (ts_Subject ts) "") as [|Hs]; [done|].
      pose proof (writeResourcePATResponse_spec O now (Get form "grant_type") (Get form "resource") ts) as Hw.
      assert (Get form "grant_type" = GRANT_TYPE_CLIENT_CREDENTIALS -> Public_ client = false /\
        (Get form "resource" <> "" -> Get form "resource" ∈ AllowedResources client /\
          is_Some (oa_ExchangeTargets O !! Get form "resource"))) as Hcc.
      { intros Hcc. rewrite Hcc in Hrun. apply run_grant_client_credentials in Hrun as [Hpub Hres].
        split; [done|]. intros Hne. destruct (Hres Hne) as (Hin & target & Ht & _). split; [done|by exists target]. }
      destruct (writeResourcePATResponse _ _ _ _ _) as [a'|].
      * destruct Hw as [Hb [->|(tm & pat & Htm & Hmint & ->)]]; [done|]. injection Ha as ->.
        split_and!; try done. intros _. split; [done|].
        exists tm, (CapTTL tm (oa_AccessTokenTTL O)). split_and!; [done|exact Hmint|done|].
        intros Hpos. by apply CapTTL_capped.
      * injection Ha as ->. by split_and!.
Qed.


Lemma fixed_server_error b : fixed_error b server_error = true.
Proof. destruct b; vm_compute; reflexivity. Qed.

Lemma fixed_refused b status code description :
  fixed_error false (token_refused status code description) = true ->
  fixed_error b (token_refused status code description) = true.
Proof. by destruct b. Qed.

Lemma handleTokenExchange_fixed O v now form b : fixed_error b (handleTokenExchange O v now form) = true.
Proof.
  unfold handleTokenExchange.
  destruct (_ || _)%bool; [by apply fixed_refused; vm_compute|].
  destruct (_ && _)%bool; [by apply fixed_refused; vm_compute|].
  destruct (oa_ExchangeTargets O !! _) as [target|]; [|by apply fixed_refused; vm_compute].
  destruct (ExchangeSubjectToken _ _ _ _ _) as [ts [[]|]];
    [apply fixed_server_error|by apply fixed_refused; vm_compute..|done].
Qed.

Lemma token_answer_fixed O now grantType resource ts b :
  fixed_error b (token_answer_of O now grantType resource ts) = true.
Proof.
  unfold token_answer_of. destruct (String.eqb _ ""); [apply fixed_server_error|].
  pose proof (writeResourcePATResponse_spec O now grantType resource ts) as Hw.
  destruct (writeResourcePATResponse _ _ _ _ _); [|done].
  destruct Hw as [_ [->|(tm & pat & _ & _ & ->)]]; [apply fixed_server_error|done].
Qed.

Lemma run_grant_answered O v now client id secret grantType form st a st' b :
  run_grant O v now client id secret grantType form st = (Answered a, st') -> fixed_error b a = true.
Proof.
  unfold run_grant, clientCredentialsGrant. intros Hr.
  repeat (case_match; try done);
    injection Hr as <- _; by apply fixed_refused; vm_compute.
Qed.

Lemma redemption_error_fixed e b :
  fixed_error b (redemption_error e) = true \/
  exists d, e = GrantFailure d /\ redemption_error e = TokenError 400 errCodeInvalidGrant d false.
Proof.
  destruct e as [|d|]; [left; by apply fixed_refused; vm_compute|right; by exists d|
    left; by apply fixed_refused; vm_compute].
Qed.

(** An error of the token endpoint tells nothing of the host. Whatever
    failed, the answer is one of the errors of RFC 6749 or RFC 8693 with one of
    a fixed set of descriptions, save for the refusals of a grant that are
    worded for the client, answered as a 400 invalid_grant; a fault of the
    host's own is a 500 server_error with a generic description; a 401 goes
    with a challenge, and only to a client that authenticated in the header;
    and an error before a grant ran touched neither codes, nor refresh tokens,
    nor consents. *)
Theorem token_errors_tell_nothing O v now r st status code description challenge calls st' :
  OAuth2TokenHandler O v now r st = ((TokenError status code description challenge, calls), st') ->
  ((status ∈ [400; 401; 405; 500])%Z /\ code ∈ error_codes /\ description ∈ plain_descriptions /\
   (status = 500%Z -> code = errCodeServerError /\
      (description = genericServerErrorDescription \/ description = "client lookup failed")) /\
   (challenge = true <-> status = 401%Z) /\ (challenge = true -> or_basic r <> None) \/
   status = 400%Z /\ code = errCodeInvalidGrant /\ challenge = false /\
     exists form client st1 ts, may_run O v now r form st client st1 /\
      run_grant O v now client (request_client r form).1
        (client_secret client (request_client r form).2 form) (Get form "grant_type") form st1 =
        (Exchanged (ts, Some (GrantFailure description)) calls, st')) /\
  ((exists form client st1, may_run O v now r form st client st1) \/
   no_code st st' /\ os_consent st' = os_consent st /\ calls = []).
Proof.
  intros Hh.
  assert (fixed_error (found (or_basic r)) (TokenError status code description challenge) = true ->
    (status ∈ [400; 401; 405; 500])%Z /\ code ∈ error_codes /\ description ∈ plain_descriptions /\
    (status = 500%Z -> code = errCodeServerError /\
      (description = genericServerErrorDescription \/ description = "client lookup failed")) /\
    (challenge = true <-> status = 401%Z) /\ (challenge = true -> or_basic r <> None)) as Hfixed.
  { unfold fixed_error. rewrite !andb_true_iff, !contains_elem_spec.
    intros (((((Hs & Hc) & Hd) & Hfive) & Hch) & Hb). split_and!; [done|done|done| | |].
    - intros ->. apply andb_true_iff in Hfive as [Hcfive Hdfive]. apply String.eqb_eq in Hcfive.
      apply contains_elem_spec in Hdfive. rewrite !elem_of_cons, elem_of_nil in Hdfive. by destruct Hdfive as [?|[?|[]]]; auto.
    - apply eqb_prop in Hch as ->. by rewrite Z.eqb_eq.
    - intros ->. cbn [negb orb] in Hb. by destruct (or_basic r). }
  destruct (token_handler_inv _ _ _ _ _ _ _ _ Hh) as
    [(-> & Hnc & Hcs & Hcase)|(form & client & st1 & out & Hmay & Hrun & Hout)].
  - split; [left|by right].
    destruct Hcase as [(? & ? & ? & ? & [= <- <- <- <-] & Hf)|(post & form & _ & _ & _ & _ & Ha)]; [by apply Hfixed|].
    apply Hfixed. rewrite Ha. apply handleTokenExchange_fixed.
  - split; [|left; by exists form, client, st1].
    destruct out as [a'|[ts [e|]] calls'].
    + destruct Hout as [<- ->]. left. apply Hfixed. by eapply run_grant_answered.
    + destruct Hout as [Ha ->]. destruct (redemption_error_fixed e (found (or_basic r))) as [Hf|(d & -> & Hd)].
      * left. apply Hfixed. by rewrite Ha.
      * right. rewrite Hd in Ha. injection Ha as -> -> -> ->. split_and!; [done|done|done|].
        exists form, client, st1, ts. done.
    + destruct Hout as [Ha ->]. left. apply Hfixed. rewrite Ha. apply token_answer_fixed.
Qed.

(** * Login at the provider *)

Lemma openLoginState_seal O v s :
  clean s -> openLoginState O (sealLoginState O v s) = Some s.
Proof.
  intros Hc. unfold openLoginState, sealLoginState, open, seal. rewrite jose_decrypt_encrypt.
  by apply Unmarshal_Marshal.
Qed.

Lemma consumeLoginState_Some O now base state s cleared :
  consumeLoginState O now base state = (Some s, cleared) ->
  state <> "" /\ cleared = [mkCookie (loginStateCookiePrefix O ++ state) "" (-1)] /\
  ls_State s = state /\ (unix now <= ls_Exp s)%Z /\
  exists c, Cookie base (loginStateCookiePrefix O ++ state) = Some c /\ openLoginState O c = Some s.
Proof.
  unfold consumeLoginState. destruct (String.eqb_spec state "") as [|Hne]; [done|].
  destruct (Cookie base _) as [c|] eqn:Hc; [|done].
  destruct (openLoginState O c) as [s'|] eqn:Ho; [|done].
  destruct (String.eqb_spec (ls_State s') state) as [He|]; [|done]. cbn [negb].
  destruct (Z.ltb_spec (ls_Exp s') (unix now)); [done|]. intros [= <- <-]. split_and!; try done. by exists c.
Qed.

Lemma consumeLoginState_cleared O now base state :
  (consumeLoginState O now base state).2 =
  match Cookie base (loginStateCookiePrefix O ++ state) with
  | Some _ => if String.eqb state "" then [] else [mkCookie (loginStateCookiePrefix O ++ state) "" (-1)]
  | None => []
  end.
Proof.
  unfold consumeLoginState. destruct (String.eqb state ""); [by destruct (Cookie _ _)|]. by destruct (Cookie _ _).
Qed.

(** C33: A callback finishes only a login this browser started. A session is set
    up at the provider's callback only when the browser holds the cookie the
    callback's state names, which opens under the host's key to a login of that
    very state that has not expired; the provider took the code with that
    login's verifier and vouches, in an id_token that verifies, for that
    login's nonce; and the browser is sent to the return path fixed when the
    login started. Otherwise the answer is an error that sets no session
    cookie. Either way the login's cookie is cleared, so that a state is good
    for one callback. *)
Theorem callback_bound_to_browser O v now r st a cookies calls st' :
  OAuthGet O v now r st = (((a, cookies), calls), st') ->
  let q := query_of r in let state := Get q "state" in
  let name := loginStateCookiePrefix O ++ state in
  let cleared := [mkCookie name "" (-1)] in
  ((exists status message, a = HttpError status message) /\ (cookies = [] \/ cookies = cleared) /\
   (Get q "code" <> "" -> state <> "" -> is_Some (Cookie (or_base r) name) -> cookies = cleared)) \/
  exists login sealed tokens t ts cache hint,
    state <> "" /\ Cookie (or_base r) name = Some sealed /\ openLoginState O sealed = Some login /\
    ls_State login = state /\ (unix now <= ls_Exp login)%Z /\
    ExchangeCode O v (Get q "code") (ls_Verifier login) = Some tokens /\
    verifyIDToken (oa_host O) (oe_outside v) (RawIDToken tokens) = Some t /\
    it_Nonce t = ls_Nonce login /\ ls_Nonce login <> "" /\
    ExchangeToken (oa_host O) (oe_outside v) now tokens (refresh_cache st) = (((ts, None), calls), cache) /\
    st' = put_refresh_cache cache st /\ oe_hint v (RawIDToken tokens) = Some hint /\
    a = RedirectTo 303 (AtReturn (ls_Return login)) /\
    cookies = (cleared ++ hint ++ login_cookies O ts)%list.
Proof.
  cbn zeta. unfold OAuthGet. set (q := query_of r). set (state := Get q "state").
  destruct (String.eqb_spec (Get q "code") "") as [Hcode|Hcode].
  { intros [= <- <- <- <-]. left. split_and!; [by eauto|by left|done]. }
  pose proof (consumeLoginState_cleared O now (or_base r) state) as Hcl.
  destruct (consumeLoginState O now (or_base r) state) as [login cleared] eqn:Hcons. cbn [snd] in Hcl.
  assert (forall status message calls0 st0,
    (((HttpError status message, cleared), calls0), st0) = (((a, cookies), calls), st') ->
    (exists status message, a = HttpError status message) /\
    (cookies = [] \/ cookies = [mkCookie (loginStateCookiePrefix O ++ state) "" (-1)]) /\
    (Get q "code" <> "" -> state <> "" -> is_Some (Cookie (or_base r) (loginStateCookiePrefix O ++ state)) ->
       cookies = [mkCookie (loginStateCookiePrefix O ++ state) "" (-1)])) as Herr.
  { intros status message calls0 st0 [= <- <- _ _]. split; [by eauto|]. rewrite Hcl.
    destruct (Cookie _ _) as [c|]; [|split; [by left|by intros _ _ [? [=]]]].
    destruct (String.eqb_spec state "") as [He|He]; [split; [by left|done]|split; [by right|done]]. }
  destruct login as [login|]; [|intros Hh; left; by eapply Herr].
  apply consumeLoginState_Some in Hcons as (Hne & -> & Hstate & Hexp & sealed & Hck & Hopen).
  destruct (ExchangeCode _ _ _ _) as [tokens|] eqn:Hex; [|intros Hh; left; by eapply Herr].
  destruct (CheckIDTokenNonce _ _ _ _) eqn:Hnonce; cbn [negb]; [|intros Hh; left; by eapply Herr].
  destruct (ExchangeToken _ _ _ _ _) as [[[ts err] calls1] cache] eqn:Het.
  destruct err as [e|]; [intros Hh; left; by eapply Herr|].
  destruct (oe_hint v _) as [hint|] eqn:Hhint; [|intros Hh; left; by eapply Herr].
  intros [= <- <- <- <-]. right. unfold CheckIDTokenNonce in Hnonce.
  destruct (verifyIDToken _ _ _) as [t|] eqn:Hv; [|done].
  apply andb_true_iff in Hnonce as [Hnn%negb_true_iff%String.eqb_neq Hnq%String.eqb_eq].
  exists login, sealed, tokens, t, ts, cache, hint. split_and!; done.
Qed.

(** ** Starting *)

#[local] Instance held_le_trans : Transitive held_le.
Proof.
  intros a b c [?|[? ?]] [?|[? ?]]; [left; lia|left; lia|left; lia|right].
  split; [congruence|by etrans].
Qed.

#[local] Instance held_le_total : Total held_le.
Proof.
  intros a b. unfold held_le. destruct (Z.lt_trichotomy a.1 b.1) as [?|[He|?]]; [by left; left| |by right; left].
  destruct (string_le_total a.2 b.2); [left|right]; right; done.
Qed.

(** The login cookies a browser sends. *)
Definition login_cookies_of O (cookies : list (string * string)) : list (Z * string) :=
  held_login O <$> filter (fun c => HasPrefix c.1 (loginStateCookiePrefix O) = true) cookies.

Lemma sorted_split {A} (R : A -> A -> Prop) (l : list A) n x y :
  StronglySorted R l -> x ∈ take n l -> y ∈ drop n l -> R x y.
Proof.
  intros Hs Hx Hy. revert n Hx Hy. induction Hs as [|z l Hs IH Hz]; intros n Hx Hy.
  - rewrite take_nil in Hx. by apply elem_of_nil in Hx.
  - destruct n as [|n]; [by apply elem_of_nil in Hx|]. cbn [take drop] in *.
    apply elem_of_cons in Hx as [->|Hx]; [|by eapply IH].
    rewrite Forall_forall in Hz. apply Hz. rewrite <- (take_drop n l). apply elem_of_app. by right.
Qed.

(** The logins a browser may have under way are bounded, and a login started
    can be finished. Starting a login clears the oldest of the login cookies
    the browser holds, so that it keeps at most two of them, and adds one of
    no more than 2048 bytes; nothing is cleared or added unless the browser is
    sent to the provider. The cookie it is given, presented with its state within
    ten minutes, is accepted, and yields the verifier and nonce the provider
    was sent, and the return path the login was started with if that is safe
    and the root otherwise. *)
Theorem login_starts_and_returns O v now r a set :
  OAuthLoginGet O v now r = (a, set) ->
  (set = [] \/
   exists cleared kept sealed,
     let name := loginStateCookiePrefix O ++ oe_state v in
     set = (((fun l : Z * string => mkCookie l.2 "" (-1)) <$> cleared) ++ [mkCookie name sealed (seconds loginStateTTL)])%list /\
     login_cookies_of O (rq_cookies (or_base r)) ≡ₚ (cleared ++ kept)%list /\
     (forall x y, x ∈ cleared -> y ∈ kept -> held_le x y) /\
     (length kept <= maxLoginsInFlight - 1)%nat /\
     (String.length name + String.length sealed <= maxLoginStateCookieBytes)%nat /\
     a = RedirectTo 302 (AuthCodeURL O (mkAuthCodeRequest (oe_state v) (oe_verifier v) (oe_login_nonce v)
           (Get (query_of r) "prompt") (Get (query_of r) "login_hint"))) /\
     let login := mkLoginState (oe_state v) (SafeReturnPath (Get (query_of r) "return")) (oe_verifier v)
       (oe_login_nonce v) (unix (now + loginStateTTL)) in
     forall now' base, clean login -> oe_state v <> "" -> Cookie base name = Some sealed ->
       (now <= now' <= now + loginStateTTL)%Z ->
       consumeLoginState O now' base (oe_state v) = (Some login, [mkCookie name "" (-1)])).
Proof.
  unfold OAuthLoginGet. destruct (callback_origin O r) as [moved|]; [intros [= <- <-]; by left|].
  cbn zeta. cbn [ls_State].
  set (login := mkLoginState _ _ _ _ _). set (sealed := sealLoginState O v login).
  destruct (Nat.ltb_spec maxLoginStateCookieBytes
    (String.length (loginStateCookiePrefix O ++ oe_state v) + String.length sealed)) as [|Hlen].
  { intros [= <- <-]. by left. }
  intros [= <- <-]. right. unfold expireOldestLogins.
  fold (login_cookies_of O (rq_cookies (or_base r))).
  set (logins := login_cookies_of O (rq_cookies (or_base r))).
  set (n := (length logins - (maxLoginsInFlight - 1))%nat).
  exists (take n (merge_sort held_le logins)), (drop n (merge_sort held_le logins)), sealed.
  split; [done|]. split; [|split; [|split; [|split; [|split; [done|]]]]].
  - by rewrite take_drop, merge_sort_Permutation.
  - intros x y Hx Hy. eapply sorted_split; [apply StronglySorted_merge_sort; apply _|exact Hx|exact Hy].
  - rewrite length_drop, merge_sort_Permutation. unfold n. lia.
  - done.
  - intros now' base Hclean Hne Hck Ht. unfold consumeLoginState.
    rewrite (proj2 (String.eqb_neq _ _) Hne), Hck. unfold sealed. rewrite openLoginState_seal by done.
    unfold login at 1. cbn [ls_State]. rewrite String.eqb_refl. cbn [negb].
    assert ((ls_Exp login <? unix now')%Z = false) as ->; [|done].
    apply Z.ltb_ge. unfold login. cbn [ls_Exp]. apply unix_mono. lia.
Qed.
End TokenSpec.

(** * Witnesses *)

#[local] Existing Instance kindsExample.
#[local] Existing Instance jwtExample.
#[local] Existing Instance compactExample.
#[local] Existing Instance noRegexp.
#[local] Existing Instance parseExample.
#[local] Existing Instance refreshJSON.
#[local] Existing Instance graceJSON.
#[local] Existing Instance claimsJSONExample.
#[local] Existing Instance sha256Example.
#[local] Existing Instance kidFooterExample.
#[local] Existing Instance timeExample.
#[local] Existing Instance pasetoExample.
#[local] Existing Instance gateParser.
#[local] Existing Instance joseExample.
#[local] Existing Instance s256Example.
#[local] Existing Instance codeJSON.
#[local] Existing Instance MintSpec.clientJSON.
#[local] Existing Instance consentJSON.
#[local] Existing Instance hmacExample.
#[local] Existing Instance responseJSON.
#[local] Existing Instance payloadJSON.
#[local] Existing Instance consentRequestJSON.
#[local] Existing Instance loginStateJSON.

Definition posting (basic : option (string * string)) (form : values) : oauth_request :=
  mkOAuthRequest "POST" "" (Some (form, form)) basic (mkRequest "" [] "/-/oauth/token") None "host" false.

Definition clientForm : values :=
  {[ "grant_type" := ["client_credentials"]; "scope" := ["roles"] ]}.

Definition clientAnswer := OAuth2TokenHandler exampleOAuth2 (oauthEnv "r") 5
  (posting (Some ("app", "s3cret")) clientForm) oauthStart.

Definition clientResponse : TokenResponse :=
  match clientAnswer.1.1 with TokenOK resp => resp | _ => mkTokenResponse "" 0 "" "" "" "" "" end.

Lemma clientAnswer_ok : clientAnswer = ((TokenOK clientResponse, clientAnswer.1.2), clientAnswer.2).
Proof. vm_compute. reflexivity. Qed.

Lemma tokens_only_for_grants_witness :
  exists client, (lookup_client exampleOAuth2 (oauthEnv "r") 5 "app" oauthStart).1 = Ok (Some client) /\
    Public_ client = false /\ tp_AccessToken clientResponse <> "".
Proof.
  destruct (tokens_only_for_grants _ _ _ _ _ _ _ _ clientAnswer_ok)
    as (post & form & Hp & _ & [(Hg & _)|(client & st1 & ts & Hmay & _ & _ & _ & _ & _ & _ & Hcc)]);
    injection Hp as <- <-; [discriminate Hg|].
  exists client. split; [|split; [apply Hcc; reflexivity|vm_compute; discriminate]].
  destruct Hmay as (_ & _ & Hlk & _). exact (f_equal fst Hlk).
Defined.

Lemma token_errors_tell_nothing_witness :
  exists d, (OAuth2TokenHandler exampleOAuth2 (oauthEnv "r") 5 (posting (Some ("app", "guess")) clientForm)
      oauthStart).1.1 = TokenError 401 errCodeInvalidClient d true /\ d ∈ plain_descriptions.
Proof.
  exists "client authentication failed".
  destruct (OAuth2TokenHandler exampleOAuth2 (oauthEnv "r") 5 (posting (Some ("app", "guess")) clientForm)
    oauthStart) as [[a calls] st'] eqn:Hh.
  assert (a = TokenError 401 errCodeInvalidClient "client authentication failed" true) as ->
    by (apply (f_equal (fun x => x.1.1)) in Hh; vm_compute in Hh; symmetry; exact Hh).
  split; [reflexivity|].
  destruct (token_errors_tell_nothing _ _ _ _ _ _ _ _ _ _ _ Hh) as [[(_ & _ & Hd & _)|(Hs & _)] _];
    [exact Hd|discriminate Hs].
Defined.

(** A login is started, and the provider calls back. *)
Definition loginStart := OAuthLoginGet exampleOAuth2 (oauthEnv "r") 5 (browsing "return=%2Fhome" None).

Definition loginCookie : string := match loginStart.2 with [c] => ck_Value c | _ => "" end.

Lemma login_starts_and_returns_witness :
  (consumeLoginState exampleOAuth2 6 (mkRequest "" [("auth_oidc_st4te", loginCookie)] "") "st4te").1 =
  Some (mkLoginState "st4te" "/" "v3rifier" "n" 600).
Proof.
  destruct (login_starts_and_returns exampleOAuth2 (oauthEnv "r") 5 (browsing "return=%2Fhome" None)
    loginStart.1 loginStart.2 (surjective_pairing _)) as [Hnil|(cleared & kept & sealed & Hset & Hperm & _ & _ & _ & _ & Hback)].
  { vm_compute in Hnil. discriminate Hnil. }
  assert (cleared = []) as ->.
  { destruct cleared as [|x l]; [reflexivity|]. exfalso.
    assert (length loginStart.2 = 1%nat) as Hone by (vm_compute; reflexivity).
    rewrite Hset, length_app in Hone. simpl in Hone. lia. }
  assert (sealed = loginCookie) as ->.
  { unfold loginCookie. rewrite Hset. reflexivity. }
  refine (eq_trans (f_equal fst (Hback 6 (mkRequest "" [("auth_oidc_st4te", loginCookie)] "") _ _ _ _)) _).
  - exact I.
  - discriminate.
  - reflexivity.
  - vm_compute. split; discriminate.
  - vm_compute. reflexivity.
Defined.

Definition callingBack : oauth_request :=
  mkOAuthRequest "GET" "code=upstream&state=st4te" None None
    (mkRequest "" [("auth_oidc_st4te", loginCookie)] "/-/oauth/callback") None "host" false.

Definition callbackAnswer := OAuthGet exampleOAuth2 (oauthEnv "r") 7 callingBack oauthStart.

Lemma callback_bound_to_browser_witness :
  exists login, callbackAnswer.1.1.1 = RedirectTo 303 (AtReturn (ls_Return login)) /\ ls_State login = "st4te".
Proof.
  destruct (callback_bound_to_browser exampleOAuth2 (oauthEnv "r") 7 callingBack oauthStart callbackAnswer.1.1.1
    callbackAnswer.1.1.2 callbackAnswer.1.2 callbackAnswer.2) as [((s & m & He) & _)|(login & _ & _ & _ & _ & _ & _ & _ &
      _ & _ & Hs & _ & _ & _ & _ & _ & _ & _ & _ & Ha & _)].
  - vm_compute. reflexivity.
  - vm_compute in He. discriminate He.
  - exists login. split; [exact Ha|exact Hs].
Defined.

(** * Findings *)

(** The code records the resource it was authorized for, and nothing reads it:
    a code authorized for no resource at all is redeemed for an API token of
    whichever protected resource the token request names. *)
Definition unboundCode : option string * Issuer mapStore :=
  CreateAuthorizationCode (exampleWorld "code1") 5
    (mkCodeClaims AuthMethodOAuth2 "dcr_1" "hverifier" "S256" 0 ∅ "" "https://app/cb" "" "openid" "alice" 0)
    (issuer_of exampleOAuth2 oauthStart).

Definition unboundForm (resource : string) : values :=
  {[ "grant_type" := ["authorization_code"]; "client_id" := ["dcr_1"]; "code" := [default "" unboundCode.1];
     "redirect_uri" := ["https://app/cb"]; "code_verifier" := ["verifier"]; "resource" := [resource] ]}.

Definition redeemed_for (resource : string) : token_answer :=
  (OAuth2TokenHandler exampleOAuth2 (oauthEnv "rt") 6 (posting None (unboundForm resource))
     (put_issuer unboundCode.2 oauthStart)).1.1.

Lemma code_resource_is_never_read :
  match redeemed_for "", redeemed_for "https://api" with
  | TokenOK plain, TokenOK bound =>
      MintStatelessKey 6 exampleTM "https://api" "alice" SubjectKindUser "mcp" "openid" hour =
        Ok (tp_AccessToken bound) /\
      tp_AccessToken plain <> tp_AccessToken bound
  | _, _ => False
  end.
Proof. vm_compute. split; [reflexivity|discriminate]. Qed.
