(* ===== verification/Denial.v ===== *)
(** The answers about access (src/internal/auth/denial/denial.go,
    src/internal/host/check.go, whoami.go): why a request is refused and what
    the refusal tells, what a caller may ask about its own access, and who it
    is told it is. *)
From S2P Require Import Prelude GoStr Store Deps Claims Clients Roles Signer SubjectKind Dcr Events Mint Login Gate.
From Stdlib Require Import Ascii.

#[local] Open Scope string_scope.

(** * Refusals (denial.go) *)

Inductive Outcome := Unauthenticated | NoIdentity | InsufficientScope.

Record Opts := mkOpts {
  op_Outcome : Outcome;
  op_Issuer : string;
  op_ResourceMetadata : string;
  op_Scopes : list string;
}.

(** [sub, _ := ac.GetSubject()]. *)
Definition subject_of `{!JwtClaims} (ac : AuthContext) : string :=
  match jwtGetSubject ac with Ok s => s | Err _ => "" end.

(** [checker] is false when there is no checker. *)
Definition Classify `{!JwtClaims} `{!Entitlements} (checker : bool) (ctx : option AuthContext)
    (held : ParsedEntitlements) (resource name : string) (verbs : list string) : Outcome :=
  match ctx with
  | None => Unauthenticated
  | Some ac =>
      if String.eqb (subject_of ac) "" then Unauthenticated
      else if negb checker then NoIdentity
      else match VerifyResourceParsedEntitlements resource name held (ParseRequirements []) verbs with
           | Ok true => InsufficientScope
           | _ => NoIdentity
           end
  end.

(** %x21 / %x23-5B / %x5D-7E (RFC 6749). *)
Definition scope_byte (c : ascii) : bool :=
  let n := N_of_ascii c in
  ((n =? 33) || ((35 <=? n) && (n <=? 91)) || ((93 <=? n) && (n <=? 126)))%N%bool.

Definition isScopeToken (s : string) : bool :=
  if String.eqb s "" then false else all_bytes scope_byte s.

Definition safeScope (scopes : list string) : string :=
  Join (filter (fun s => isScopeToken s = true) scopes) " ".

Definition param (name text : string) : string := name ++ "=" ++ quote ++ text ++ quote.

(** The status, and the challenge when there is one. *)
Definition Write `{!ParseURL} (o : Opts) : Z * option string :=
  let meta := CheckedResourceMetadata (op_ResourceMetadata o) in
  match op_Outcome o with
  | Unauthenticated =>
      (401%Z, Some (if negb (String.eqb meta "") then "Bearer " ++ param "resource_metadata" meta
                    else if negb (String.eqb (op_Issuer o) "") then "Bearer " ++ param "realm" (op_Issuer o)
                    else "Bearer"))
  | _ =>
      (403%Z,
       if String.eqb (op_ResourceMetadata o) "" then None else
       let c := "Bearer " ++ param "error" "insufficient_scope" in
       let scope := safeScope (op_Scopes o) in
       let c := if String.eqb scope "" then c else c ++ ", " ++ param "scope" scope in
       Some (if String.eqb meta "" then c else c ++ ", " ++ param "resource_metadata" meta))
  end.

(** [http.StatusText], of the statuses whose text is answered. *)
Definition StatusText (status : Z) : string :=
  if (status =? 400)%Z then "Bad Request"
  else if (status =? 401)%Z then "Unauthorized"
  else if (status =? 403)%Z then "Forbidden"
  else if (status =? 404)%Z then "Not Found"
  else if (status =? 405)%Z then "Method Not Allowed"
  else if (status =? 500)%Z then "Internal Server Error"
  else if (status =? 503)%Z then "Service Unavailable"
  else if (status =? 508)%Z then "Loop Detected"
  else "".

(** What a handler answers: a body, a failure with its status and reason, or a
    refusal written by [Write]. *)
Inductive answer (E A : Type) :=
| Answered (body : A)
| Failed (status : Z) (why : E)
| DeniedWith (o : Opts).
Arguments Answered {E A} body.
Arguments Failed {E A} status why.
Arguments DeniedWith {E A} o.

Definition denied {E A} (o : Outcome) (issuer : string) : answer E A := DeniedWith (mkOpts o issuer "" []).

(** A checker that grants what the bearer bucket lists, for the witnesses. *)
Definition bearerEntitlements : Entitlements := {|
  ParsedEntitlements := list string;
  ParsedRequirements := list (gmap string (list string));
  ParseEntitlements u := default [] (u !! "bearer");
  ParseRequirements l := l;
  VerifyParsedEntitlements ents reqs :=
    forallb (fun req => forallb (contains_elem ents) (default [] (req !! "bearer"))) reqs;
  VerifyResource resource name ents _ verbs :=
    Ok (existsb (fun verb => contains_elem ents (resource ++ ":" ++ name ++ ":" ++ verb)) verbs);
|}.

(** * What may I do (check.go) *)

Section Check.
Context `{!Entitlements}.

Definition check_passes (ents : ParsedEntitlements) (check : string) : bool :=
  match Split ":"%char check with
  | [resource; resourceName; verb] =>
      match VerifyResourceParsedEntitlements resource resourceName ents (ParseRequirements []) [verb] with
      | Ok authorized => authorized
      | Err _ => false
      end
  | _ => false
  end.

(** [body] is the decoded request; the context is empty when the caller is
    anonymous. *)
Definition CheckHandler (method : string) (body : option (list string)) (checker scopeBuckets : bool)
    (ac : AuthContext) : answer string (list string) :=
  if negb (String.eqb method "POST") then Failed 405 (StatusText 405) else
  match body with
  | None => Failed 400 "invalid request body"
  | Some checks =>
      if negb checker then Answered [] else
      let ents := GetParsedEntitlements scopeBuckets ac in
      Answered (filter (fun check => check_passes ents check = true) checks)
  end.
End Check.

(** * Who am I (whoami.go) *)

Record WhoamiResult := mkWhoami {
  wa_Identity : string;
  wa_Name : string;
  wa_GivenName : string;
  wa_FamilyName : string;
  wa_PreferredUsername : string;
  wa_Entitlements : list string;
  wa_EntitlementsWithheld : bool;
  wa_Hint : string;
}.

Definition whoamiHint : string :=
  "These are the entitlements YOUR ACCOUNT holds. The credential you are " ++
  "currently presenting carries fewer of them, so calls beyond what it carries will " ++
  "be denied. For an OAuth2 client, request `scope=entitlements` when authorizing; " ++
  "for a minted capability token, this is expected — it was attenuated on purpose.".

(** A claim's strings; the nil slice and the empty one are not told apart. *)
Definition stringSliceFromClaim (v : option value) : list string :=
  match v with
  | Some (VStrs l) => l
  | Some (VList l) => strings_of l
  | _ => []
  end.

Definition whoamiFromAuthContext (ac : AuthContext) : result string WhoamiResult :=
  let sub := str_claim ac "sub" in
  if String.eqb sub "" then Err "whoami requires an authenticated caller" else
  let email := str_claim ac "email" in
  Ok (mkWhoami (if String.eqb email "" then sub else email) (str_claim ac "name")
        (str_claim ac "given_name") (str_claim ac "family_name") (str_claim ac "preferred_username")
        (stringSliceFromClaim (ac !! "entitlements")) false "").

(** One turn of the loop over the account's entitlements. *)
Definition add_effective (carried : list string) (acc : bool * list string) (e : string) : bool * list string :=
  if contains_elem carried e then acc else (true, (acc.2 ++ [e])%list).

Definition applyEffectiveEntitlements (res : WhoamiResult) (resolved : list string) : WhoamiResult :=
  match resolved with
  | [] => res
  | _ :: _ =>
      let carried := wa_Entitlements res in
      let '(withheld, effective) :=
        foldl (add_effective carried) (wa_EntitlementsWithheld res, carried) resolved in
      mkWhoami (wa_Identity res) (wa_Name res) (wa_GivenName res) (wa_FamilyName res)
        (wa_PreferredUsername res) effective withheld (if withheld then whoamiHint else wa_Hint res)
  end.

Section Whoami.
Context `{!SubjectKinds} `{!Regexp} `{!JwtClaims}.

(** [exchanger] is nil on a host that cannot resolve an account. *)
Definition whoami (logEnabled : bool) (exchanger : option Exchanger) (ac : AuthContext)
    : result string WhoamiResult :=
  match whoamiFromAuthContext ac, exchanger with
  | Ok res, Some e =>
      let '(_, effective) := resolveBindings logEnabled (ex_sp e)
        (mkSubject (str_claim ac "sub") (ContextSubjectKind e ac) SiteWhoami) in
      Ok (applyEffectiveEntitlements res effective)
  | r, _ => r
  end.
End Whoami.
