(* ===== verification/Capability.v ===== *)
(** Capabilities (src/internal/host/mint_token.go, capabilities.go,
    transfer.go; the policy of auth/config.go): short-lived credentials a
    caller mints from its own entitlements, as a token or as a transfer link,
    and the redemption of a link. *)
From S2P Require Import Prelude GoStr Store Deps Claims ApiToken Clients Roles Signer SubjectKind Dcr Events Mint Refresh Login Gate Denial.
From Stdlib Require Import Ascii.

#[local] Open Scope string_scope.

(** * Policy (config.go) *)

(** spec.auth.mintToken; [mt_DestructiveVerbs] is nil when not set. *)
Record MintToken := mkMintToken {
  mt_Enabled : bool;
  mt_TTLCapSeconds : Z;
  mt_CapabilityTTLCapSeconds : Z;
  mt_UsesCap : Z;
  mt_DestructiveVerbs : option (list string);
  mt_URLDelivery : bool;
}.

(** The MintToken fields of [Config]. *)
Record MintPolicy := mkPolicy {
  MintTokenEnabled : bool;
  MintTokenTTLCap : Z;
  MintTokenCapabilityTTLCap : Z;
  MintTokenUsesCap : Z;
  MintTokenDestructiveVerbs : list string;
  MintTokenURLDelivery : bool;
}.

Definition defaultMintPolicy : MintPolicy := mkPolicy false 0 0 0 [] false.

(** [time.Duration(n) * time.Second]: the product wraps. *)
Definition seconds (n : Z) : Z := int64_wrap (n * second).

Definition applyMintTokenPolicy (cfg : MintPolicy) (mintToken : option MintToken) : MintPolicy :=
  match mintToken with
  | None => cfg
  | Some m =>
      if negb (mt_Enabled m) then cfg else
      let ttlCap := if (mt_TTLCapSeconds m <=? 0)%Z then 60 else mt_TTLCapSeconds m in
      let capabilityTTLCap :=
        if (mt_CapabilityTTLCapSeconds m <=? 0)%Z then ttlCap else mt_CapabilityTTLCapSeconds m in
      mkPolicy true (seconds ttlCap) (seconds capabilityTTLCap)
        (if (mt_UsesCap m <=? 0)%Z then 32 else mt_UsesCap m)
        (default ["delete"; "own"] (mt_DestructiveVerbs m)) (mt_URLDelivery m)
  end.

(** * Requests and failures *)

Record TransferTarget := mkTarget { tt_Method : string; tt_Path : string }.

Record MintTokenRequest := mkMintRequest {
  mr_Entitlements : list string;
  mr_TTLSeconds : Z;
  mr_Uses : Z;
  mr_Delivery : string;
  mr_Target : option TransferTarget;
}.

Record MintTokenResult := mkMintResult {
  ms_Token : string;
  ms_URL : string;
  ms_ExpiresAt : Z;
  ms_Entitlements : list string;
  ms_UsesRemaining : Z;
}.

Inductive mintFailureKind := mintInvalidRequest | mintRefused | mintUnavailable.

(** The texts of the failures, by what they say. *)
Inductive target_error :=
| TargetMissing
| TargetMethod (method : string)
| TargetNotAbsolute
| TargetSchemeRelative
| TargetReserved
| TargetDots.

Inductive mint_reason :=
| MintNotEnabled
| MintNoCaller
| MintNoEntitlement
| MintURLNotEnabled
| MintTarget (e : target_error)
| MintNoCache
| MintNotHeld (entitlement : string)
| MintUnknownKind (kind : string)
| MintRecordNotStored.

(** A classified failure, or a fault of the server's own. *)
Inductive mint_error :=
| mintFailure (kind : mintFailureKind) (why : mint_reason)
| mintFault (e : option sign_error).

Definition mintStatus (e : mint_error) : Z :=
  match e with
  | mintFailure mintInvalidRequest _ => 400
  | mintFailure mintRefused _ => 403
  | mintFailure mintUnavailable _ => 503
  | mintFault _ => 500
  end.

Definition errNoCache : mint_error := mintFailure mintUnavailable MintNoCache.

Definition validateTransferTarget (t : option TransferTarget) : result target_error TransferTarget :=
  match t with
  | None => Err TargetMissing
  | Some t =>
      if negb (EqualFold (TrimSpace (tt_Method t)) "GET") then Err (TargetMethod (tt_Method t))
      else if negb (HasPrefix (tt_Path t) "/") then Err TargetNotAbsolute
      else if HasPrefix (tt_Path t) "//" then Err TargetSchemeRelative
      else if HasPrefix (tt_Path t) "/-/" then Err TargetReserved
      else if existsb (fun seg => String.eqb seg "." || String.eqb seg "..")%bool (Split "/"%char (tt_Path t))
      then Err TargetDots
      else Ok t
  end.

Definition verb_of (e : string) : string := List.last (Split ":"%char e) "".

Definition hasDestructiveVerb (requested destructive : list string) : bool :=
  existsb (fun e => let verb := verb_of e in
    (String.eqb verb "*" || String.eqb verb "all" || contains_elem destructive verb)%bool) requested.

(** * Clamping *)

Definition clampTTL (ttlCap ttlSeconds : Z) : Z :=
  if (0 <? ttlSeconds)%Z
  then let reqTTL := seconds ttlSeconds in if (reqTTL <? ttlCap)%Z then reqTTL else ttlCap
  else ttlCap.

Definition clampUses (usesCap uses : Z) : Z :=
  let uses := if (uses <=? 0)%Z then 1 else uses in
  if (usesCap <? uses)%Z then usesCap else uses.

(** The lifetime and the budget of a request. *)
Definition bounds (cfg : MintPolicy) (ttlCap : Z) (req : MintTokenRequest) : Z * Z :=
  let ttl := clampTTL ttlCap (mr_TTLSeconds req) in
  let uses := clampUses (MintTokenUsesCap cfg) (mr_Uses req) in
  if hasDestructiveVerb (mr_Entitlements req) (MintTokenDestructiveVerbs cfg)
  then ((if (10 * second <? ttl)%Z then 10 * second else ttl)%Z, 1%Z) else (ttl, uses).

(** * Transfer records (transfer.go) *)

Record transferRecord := mkTransfer {
  tr_JTI : string;
  tr_Sub : string;
  tr_Kind : string;
  tr_IssuedAt : Z;
  tr_Entitlements : list string;
  tr_Target : TransferTarget;
}.

Definition transferKeyPrefix : string := "transfer:".
Definition transferKey (handle : string) : string := transferKeyPrefix ++ handle.

(** github.com/kdex-tech/entitlements: whether a held set dominates every
    requested entitlement, and one that it does not. *)
Class Attenuation := {
  VerifyAttenuation : list string -> list string -> string * bool;
  dominated : list string -> string -> Prop;
  VerifyAttenuation_ok held requested :
    (VerifyAttenuation held requested).2 = true <-> Forall (dominated held) requested;
  VerifyAttenuation_offender held requested :
    (VerifyAttenuation held requested).2 = false -> (VerifyAttenuation held requested).1 ∈ requested;
}.

(** golang-jwt's [ParseUnverified]: the claims a token carries. *)
Class JwtUnverified := { ParseUnverified : string -> option claims }.

Section Capability.
Context {St} `{CacheOps St} `{Paseto} `{!Sha256} `{!SubjectKinds} `{!Regexp} `{!JwtClaims}
  `{!Compaction} `{!Attenuation} `{!JwtUnverified} `{!JSON transferRecord}.

(** What the handler reads of the host: its gate (whose audience, issuer and
    key sign capabilities too), its policy ([None]: no auth config), and the
    issuer its refusals name. *)
Record HostHandler := mkHandler {
  hh_gate : Gate (St := St);
  hh_policy : option MintPolicy;
  hh_issuerAddress : string;
  hh_mux : bool;
}.

(** What a mint meets outside: whether its cache calls answer, the signer's
    jti, [rand.Text] and the random handle. *)
Record mint_env := mkMintEnv {
  me_up : nat -> bool;
  me_jti : string;
  me_text : string;
  me_handle : option string;
}.

Implicit Types (hh : HostHandler) (v : mint_env) (caps : option St).

Definition hh_signer hh : Signer := mi_signer (ho_minter (ga_host (hh_gate hh))).
Definition hh_exchanger hh : Exchanger := mi_ex (ho_minter (ga_host (hh_gate hh))).

(** * Minting (mint_token.go) *)

Definition capability_context (sub kind : string) (ents : list string) : claims :=
  <[ClaimSubjectKind := VStr kind]> $ <["entitlements" := VStrs ents]> $ {[ "sub" := VStr sub ]}.

(** The claims signed: the projection, and the marker it would drop. *)
Definition capability_claims (signer : Signer) (sub kind : string) (ents : list string)
    : result sign_error claims :=
  projected ← Project signer (capability_context sub kind ents);
  Ok (<[CapUsesClaim := VBool true]> projected).

(** The jti is read only when there is a cache to count uses in. *)
Definition mintTokenOrJTI hh v (now : Z) (cached isURL : bool) (sub kind : string) (ents : list string)
    (ttl : Z) : result mint_error (string * string) :=
  if negb (Known kind) then Err (mintFailure mintRefused (MintUnknownKind kind))
  else if isURL then Ok ("", me_text v) else
  match NewSigner (ho_audience (ga_host (hh_gate hh))) ttl (issuer (hh_signer hh))
          (Some (privateKey (hh_signer hh))) (kid (hh_signer hh)) None with
  | Err e => Err (mintFault (Some e))
  | Ok signer =>
      match (cs ← capability_claims signer sub kind ents; SignProjected signer now (me_jti v) cs) with
      | Err e => Err (mintFault (Some e))
      | Ok token =>
          Ok (token, if cached then match ParseUnverified token with
                                    | Some cs => str_claim cs "jti"
                                    | None => ""
                                    end else "")
      end
  end.

(** The budget's counter; a failed write is only logged. *)
Definition provision_uses v (now : Z) (jti : string) (uses ttl : Z) caps : option St :=
  match caps with
  | Some s =>
      if (negb (String.eqb jti "") && me_up v 0%nat)%bool
      then Some (cSet now (capabilityUsesKey jti) (FormatInt uses) [WithTTL ttl] s) else Some s
  | None => None
  end.

(** [None] when the record was not stored. *)
Definition storeTransferRecord v (now : Z) (handle : string) (rec : transferRecord) (ttl : Z) caps
    : option St :=
  s ← caps; if me_up v 1%nat then Some (cSet now (transferKey handle) (Marshal rec) [WithTTL ttl] s) else None.

(** The checks before anything is minted. *)
Definition check_mint (policy : option MintPolicy) (sub : string) (held : list string)
    (req : MintTokenRequest) caps : result mint_error (MintPolicy * option TransferTarget) :=
  match policy with
  | None => Err (mintFailure mintRefused MintNotEnabled)
  | Some cfg =>
      if negb (MintTokenEnabled cfg) then Err (mintFailure mintRefused MintNotEnabled)
      else if String.eqb sub "" then Err (mintFailure mintRefused MintNoCaller)
      else if (length (mr_Entitlements req) =? 0)%nat
      then Err (mintFailure mintInvalidRequest MintNoEntitlement)
      else
        target ← (if String.eqb (mr_Delivery req) "url" then
            if negb (MintTokenURLDelivery cfg) then Err (mintFailure mintRefused MintURLNotEnabled)
            else match validateTransferTarget (mr_Target req) with
                 | Err e => Err (mintFailure mintInvalidRequest (MintTarget e))
                 | Ok t => match caps with None => Err errNoCache | Some _ => Ok (Some t) end
                 end
          else Ok None);
        let '(offender, ok) := VerifyAttenuation held (mr_Entitlements req) in
        if ok then Ok (cfg, target) else Err (mintFailure mintRefused (MintNotHeld offender))
  end.

Definition mintCapabilityTokenWithCap hh v (now : Z) (sub kind : string) (held : list string)
    (req : MintTokenRequest) (baseURL : string) (ttlCap : Z) caps
    : result mint_error MintTokenResult * option St :=
  match check_mint (hh_policy hh) sub held req caps with
  | Err e => (Err e, caps)
  | Ok (cfg, target) =>
      let '(ttl, uses) := bounds cfg ttlCap req in
      match mintTokenOrJTI hh v now (found caps) (found target) sub kind (mr_Entitlements req) ttl with
      | Err e => (Err e, caps)
      | Ok (token, jti) =>
          let caps := provision_uses v now jti uses ttl caps in
          let answer token url := mkMintResult token url (unix (now + ttl)) (mr_Entitlements req) uses in
          match target with
          | None => (Ok (answer token ""), caps)
          | Some t =>
              match me_handle v with
              | None => (Err (mintFault None), caps)
              | Some handle =>
                  match storeTransferRecord v now handle
                          (mkTransfer jti sub kind (unix now) (mr_Entitlements req) t) ttl caps with
                  | None => (Err (mintFailure mintUnavailable MintRecordNotStored), caps)
                  | Some s => (Ok (answer "" (baseURL ++ "/-/transfer/" ++ handle)), Some s)
                  end
              end
          end
      end
  end.

(** The MCP surface's ceiling. *)
Definition mintCapabilityToken hh v (now : Z) (sub kind : string) (held : list string)
    (req : MintTokenRequest) (baseURL : string) caps : result mint_error MintTokenResult * option St :=
  mintCapabilityTokenWithCap hh v now sub kind held req baseURL
    (match hh_policy hh with Some cfg => MintTokenTTLCap cfg | None => 0 end) caps.

(** A credential its subject's revocation postdates mints nothing: the status
    to refuse with. [up] is whether the revocation store answers. *)
Definition mintFromRevokedCredential hh (up : nat -> bool) (now : Z) (ac : AuthContext) : option Z :=
  match CredentialPredatesRevocation up now (ga_tokenManager (hh_gate hh)) ac with
  | Err _ => Some 503%Z
  | Ok true => Some 403%Z
  | Ok false => None
  end.

(** * The two surfaces (capabilities.go, mint_token.go) *)

(** [body] is the decoded request, [ctx] the caller's context. A fault of the
    server's own is told no more than its status. *)
Definition capabilityMintHandler hh v (up : nat -> bool) (now : Z) (body : option MintTokenRequest)
    (ctx : option AuthContext) (baseURL : string) caps
    : answer (option mint_error) MintTokenResult * option St :=
  match body with
  | None => (Failed 400 None, caps)
  | Some req =>
      let ac := default ∅ ctx in
      let sub := str_claim ac "sub" in
      if String.eqb sub "" then (denied Unauthenticated (hh_issuerAddress hh), caps) else
      match mintFromRevokedCredential hh up now ac with
      | Some status => (Failed status None, caps)
      | None =>
          let cfg := default defaultMintPolicy (hh_policy hh) in
          let capTTLCap := if (MintTokenCapabilityTTLCap cfg <=? 0)%Z then MintTokenTTLCap cfg
                           else MintTokenCapabilityTTLCap cfg in
          let '(res, caps) := mintCapabilityTokenWithCap hh v now sub
            (ContextSubjectKind (hh_exchanger hh) ac) (stringSliceFromClaim (ac !! "entitlements")) req
            baseURL capTTLCap caps in
          match res with
          | Ok r => (Answered r, caps)
          | Err e => (Failed (mintStatus e) (if (mintStatus e =? 500)%Z then None else Some e), caps)
          end
      end
  end.

(** An MCP tool's answer: its content, or the text of an error. *)
Inductive tool_result :=
| ToolRefused (unavailable : bool)
| ToolError (e : mint_error)
| ToolContent (res : MintTokenResult).

Definition writeMintTokenRPC hh v (up : nat -> bool) (now : Z) (ctx : option AuthContext)
    (sub kind : string) (held : list string) (args : MintTokenRequest) (baseURL : string) caps
    : tool_result * option St :=
  match (ac ← ctx; mintFromRevokedCredential hh up now ac) with
  | Some status => (ToolRefused (status =? 503)%Z, caps)
  | None =>
      let '(res, caps) := mintCapabilityToken hh v now sub kind held args baseURL caps in
      (match res with Ok r => ToolContent r | Err e => ToolError e end, caps)
  end.

(** * Redeeming a transfer link (transfer.go) *)

Definition loadTransferRecord (up : bool) (now : Z) (handle : string) caps
    : option transferRecord * option St :=
  match caps with
  | None => (None, caps)
  | Some s =>
      if negb up then (None, caps) else
      let '(val, s) := cGet now (transferKey handle) s in
      (val ← val; Unmarshal val, Some s)
  end.

(** A request to the host, as far as the redemption forwards it: headers by
    canonical name. *)
Record http_request := mkHttp {
  hr_Method : string;
  hr_Path : string;
  hr_RawQuery : string;
  hr_Header : gmap string (list string);
}.

Definition allowedHeaders : list string :=
  ["Accept"; "Accept-Encoding"; "Range"; "If-Range"; "If-Modified-Since"; "If-None-Match"].

(** [clean]: the allowed headers that are present. *)
Definition clean_headers (h : gmap string (list string)) : gmap string (list string) :=
  filter (fun x => x.1 ∈ allowedHeaders /\ x.2 <> []) h.

Inductive transfer_answer :=
| Gone
| Dispatched (ac : AuthContext) (r : http_request).

Definition transfer_context (rec : transferRecord) : AuthContext :=
  let ac : AuthContext := <["entitlements" := VStrs (tr_Entitlements rec)]> {[ "sub" := VStr (tr_Sub rec) ]} in
  if String.eqb (tr_Kind rec) "" then ac else <[ClaimSubjectKind := VStr (tr_Kind rec)]> ac.

Definition bound_request (rec : transferRecord) (r : http_request) : http_request :=
  mkHttp (tt_Method (tr_Target rec)) (tt_Path (tr_Target rec)) "" (clean_headers (hr_Header r)).

Definition TransferGet hh (up : nat -> bool) (now : Z) (handle : string) (r : http_request) caps
    : transfer_answer * option St :=
  let '(rec, caps) := loadTransferRecord (up 0%nat) now handle caps in
  match rec with
  | None => (Gone, caps)
  | Some rec =>
      if negb (EqualFold (hr_Method r) (tt_Method (tr_Target rec))) then (Gone, caps) else
      match caps with
      | None => (Gone, caps)
      | Some s =>
          if negb (hh_mux hh) then (Gone, caps) else
          let ac := transfer_context rec in
          match VetoCredential (hh_exchanger hh) (tr_Sub rec) (ContextSubjectKind (hh_exchanger hh) ac)
                  (tr_IssuedAt rec) SiteTransferRedeem with
          | Err _ => (Gone, caps)
          | Ok _ =>
              if negb (up 1%nat) then (Gone, caps) else
              let '(_, ok, s) := cDecrementIfPositive now (capabilityUsesKey (tr_JTI rec)) s in
              if (ok : bool) then (Dispatched ac (bound_request rec r), Some s) else (Gone, Some s)
          end
      end
  end.
End Capability.
Arguments HostHandler St {_ _ _}.

(** * The caller's address (mint_token.go, transfer.go) *)

Definition before_comma (s : string) : string := List.hd "" (Split ","%char s).

Definition firstForwardedValue (s : string) : string := TrimSpace (before_comma s).

(** [xfh], [xfp]: the X-Forwarded-Host and X-Forwarded-Proto headers. *)
Definition fwdHost (xfh host : string) : string :=
  if negb (String.eqb xfh "") then firstForwardedValue xfh else host.

Definition fwdScheme (xfp : string) : string :=
  if negb (String.eqb xfp "") then firstForwardedValue xfp else "https".

Definition transferBaseURL (xfh host xfp : string) : string :=
  let host := fwdHost xfh host in
  if String.eqb host "" then "" else fwdScheme xfp ++ "://" ++ host.
