(* ===== verification/CapabilitySpec.v ===== *)
(** What capabilities promise: they only ever attenuate, they are bounded in
    time and use on whichever surface they are minted and however they are
    presented, and a transfer link performs the one operation it was minted
    for. *)
From S2P Require Import Prelude GoStr Store Deps Claims ApiToken Clients Roles Signer SubjectKind Dcr Events Mint Refresh Login SessionGrants Gate Denial Capability.
From S2P Require Import ApiTokenSpec SignerSpec IdentitySpec DcrSpec MintSpec RefreshSpec LoginSpec GrantsSpec GateSpec.
From Stdlib Require Import Ascii.

#[local] Open Scope string_scope.

(** * Clamping *)

Lemma clampTTL_le ttlCap n : (clampTTL ttlCap n <= ttlCap)%Z.
Proof. unfold clampTTL. destruct (0 <? n)%Z; [|lia]. destruct (Z.ltb_spec (seconds n) ttlCap); lia. Qed.

Lemma clampUses_bounds usesCap n : (1 <= usesCap -> 1 <= clampUses usesCap n <= usesCap)%Z.
Proof.
  unfold clampUses. destruct (Z.leb_spec n 0); [|].
  - destruct (Z.ltb_spec usesCap 1); lia.
  - destruct (Z.ltb_spec usesCap n); lia.
Qed.

(** A lifetime that fits an int64 of nanoseconds is read as it is asked. *)
Lemma clampTTL_exact ttlCap n :
  (0 < n < 2 ^ 63 / second)%Z -> clampTTL ttlCap n = Z.min (n * second) ttlCap.
Proof.
  intros Hn. assert (0 <= n * second < 2 ^ 63)%Z as Hs.
  { change (2 ^ 63 / second)%Z with 9223372036%Z in Hn. change (2 ^ 63)%Z with 9223372036854775808%Z.
    unfold second. lia. }
  unfold clampTTL, seconds. rewrite int64_wrap_id by lia.
  destruct (Z.ltb_spec 0 n); [|lia]. destruct (Z.ltb_spec (n * second) ttlCap); lia.
Qed.

Lemma bounds_spec cfg ttlCap req ttl uses :
  bounds cfg ttlCap req = (ttl, uses) ->
  (ttl <= ttlCap)%Z /\ (1 <= MintTokenUsesCap cfg -> 1 <= uses <= MintTokenUsesCap cfg)%Z /\
  (hasDestructiveVerb (mr_Entitlements req) (MintTokenDestructiveVerbs cfg) = true ->
     uses = 1 /\ ttl <= 10 * second)%Z.
Proof.
  unfold bounds. pose proof (clampTTL_le ttlCap (mr_TTLSeconds req)) as Ht.
  pose proof (clampUses_bounds (MintTokenUsesCap cfg) (mr_Uses req)) as Hu.
  destruct (hasDestructiveVerb _ _); intros [= <- <-].
  - destruct (Z.ltb_spec (10 * second) (clampTTL ttlCap (mr_TTLSeconds req))); split_and!; lia.
  - split_and!; [done|done|done].
Qed.

Section CapabilitySpec.
Context {St} `{CacheOps St} `{!CacheSafe St} `{Paseto} `{!Sha256} `{!KidFooter} `{!SubjectKinds} `{!Regexp}
  `{!JwtClaims} `{!JwtParser} `{!Compaction} `{!ClaimsJSON} `{!ParseURL} `{!Attenuation} `{!JwtUnverified}
  `{!JSON RefreshTokenClaims} `{!JSON graceRecord} `{!JSON transferRecord}.

Implicit Types (hh : HostHandler St) (v : mint_env) (caps : option St).

(** * What is signed *)

Lemma capability_claims_spec signer sub kind ents cs :
  mapper signer = None -> sub <> "" -> capability_claims signer sub kind ents = Ok cs ->
  cs !! "sub" = Some (VStr sub) /\ cs !! "entitlements" = Some (VStrs (Compact ents)) /\
  cs !! ClaimSubjectKind = Some (VStr kind) /\ cs !! CapUsesClaim = Some (VBool true) /\
  cs !! "iss" = Some (VStr (issuer signer)) /\ cs !! "aud" = Some (VStrs [audience signer]) /\
  cs !! "jti" = None /\ cs !! "exp" = None.
Proof.
  intros Hm Hne. unfold capability_claims, Project. rewrite Hm.
  rewrite (jwtGetSubject_string _ sub) by done. rewrite (proj2 (String.eqb_neq _ _) Hne).
  cbn [mbind result_bind]. intros [= <-].
  set (ctx := capability_context sub kind ents). set (p := before_mapper signer sub ctx).
  assert (forall k, p !! k = if decide (k ∈ (profileClaims ++ projectedClaims)%list)
    then match ctx !! k with Some x => Some x | None => base_claims signer sub !! k end
    else base_claims signer sub !! k) as Hp by (intros k; apply before_mapper_lookup).
  assert (p !! "entitlements" = Some (VStrs ents)) as He by (rewrite Hp; reflexivity). rewrite He.
  cbn [compactEntitlements]. split_and!.
  all: first [by rewrite lookup_insert_eq | rewrite lookup_insert_ne by done].
  all: first [by rewrite lookup_insert_eq | rewrite lookup_insert_ne by done; rewrite Hp; reflexivity].
Qed.

(** A token minted as a capability: what its signer signed. *)
Definition capability_token hh (expires : Z) (jti sub kind : string) (ents : list string)
    (token : string) : Prop :=
  exists sign out, privateKey (hh_signer hh) = Some sign /\ sign out = Some token /\
    out !! "sub" = Some (VStr sub) /\ out !! "entitlements" = Some (VStrs (Compact ents)) /\
    out !! ClaimSubjectKind = Some (VStr kind) /\ out !! CapUsesClaim = Some (VBool true) /\
    out !! "iss" = Some (VStr (issuer (hh_signer hh))) /\
    out !! "aud" = Some (VStrs [ho_audience (ga_host (hh_gate hh))]) /\
    out !! "jti" = Some (VStr jti) /\ out !! "exp" = Some (VNum expires).

Lemma mintTokenOrJTI_bearer hh v now cached sub kind ents ttl token jti :
  sub <> "" -> mintTokenOrJTI hh v now cached false sub kind ents ttl = Ok (token, jti) ->
  Known kind = true /\ capability_token hh (unix (now + ttl)) (me_jti v) sub kind ents token /\
  jti = (if cached then match ParseUnverified token with Some cs => str_claim cs "jti" | None => "" end else "").
Proof.
  intros Hne. unfold mintTokenOrJTI. destruct (Known kind); [|done]. cbn [negb].
  destruct (NewSigner _ _ _ _ _ _) as [signer|] eqn:Hs; [|done].
  unfold NewSigner in Hs. destruct (String.eqb _ ""); [done|]. destruct (ttl =? 0)%Z; [done|].
  destruct (String.eqb _ ""); [done|]. destruct (String.eqb _ ""); [done|]. injection Hs as <-.
  destruct (capability_claims _ _ _ _) as [cs|] eqn:Hc; [|done]. cbn [mbind result_bind].
  apply capability_claims_spec in Hc as (Hsub & He & Hk & Hm & Hi & Ha & Hj & Hx); [|done..].
  destruct (SignProjected _ _ _ _) as [t|] eqn:Hsign; [|done]. intros [= <- <-].
  split_and!; [done| |done]. unfold SignProjected in Hsign.
  destruct (signable _ _ _ _) as [out|] eqn:Hout; [|done]. cbn [mbind result_bind] in Hsign.
  apply signable_inv in Hout as (-> & _ & _). cbn [privateKey] in Hsign.
  destruct (privateKey (hh_signer hh)) as [sign|] eqn:Hkey; [|done].
  destruct (sign _) as [t'|] eqn:Ht; [|done]. injection Hsign as <-. exists sign. eexists.
  split_and!; [done|exact Ht|by apply lookup_union_Some_l..| |].
  all: unfold outboundClaims; rewrite lookup_union_r by done; reflexivity.
Qed.

(** * Minting *)

(** What a mint that answered went through. *)
Lemma mint_inv hh v now sub kind held req baseURL ttlCap caps res caps' :
  mintCapabilityTokenWithCap hh v now sub kind held req baseURL ttlCap caps = (Ok res, caps') ->
  exists cfg target ttl uses token jti,
    hh_policy hh = Some cfg /\ MintTokenEnabled cfg = true /\ sub <> "" /\ mr_Entitlements req <> [] /\
    Forall (dominated held) (mr_Entitlements req) /\
    (target = None /\ mr_Delivery req <> "url" \/
     exists t, target = Some t /\ mr_Delivery req = "url" /\ MintTokenURLDelivery cfg = true /\
       validateTransferTarget (mr_Target req) = Ok t /\ is_Some caps) /\
    bounds cfg ttlCap req = (ttl, uses) /\
    mintTokenOrJTI hh v now (found caps) (found target) sub kind (mr_Entitlements req) ttl = Ok (token, jti) /\
    ms_ExpiresAt res = unix (now + ttl) /\ ms_Entitlements res = mr_Entitlements req /\
    ms_UsesRemaining res = uses /\
    match target with
    | None => ms_Token res = token /\ ms_URL res = "" /\ caps' = provision_uses v now jti uses ttl caps
    | Some t => ms_Token res = "" /\ exists handle, me_handle v = Some handle /\
        ms_URL res = baseURL ++ "/-/transfer/" ++ handle /\
        storeTransferRecord v now handle (mkTransfer jti sub kind (unix now) (mr_Entitlements req) t) ttl
          (provision_uses v now jti uses ttl caps) = caps' /\ is_Some caps'
    end.
Proof.
  unfold mintCapabilityTokenWithCap.
  destruct (check_mint _ _ _ _ _) as [[cfg target]|] eqn:Hc; [|done].
  destruct (bounds _ _ _) as [ttl uses] eqn:Hb.
  destruct (mintTokenOrJTI _ _ _ _ _ _ _ _ _) as [[token jti]|] eqn:Hm; [|done]. intros Hr.
  exists cfg, target, ttl, uses, token, jti.
  unfold check_mint in Hc. destruct (hh_policy hh) as [cfg'|]; [|done].
  destruct (MintTokenEnabled cfg') eqn:He; [|done]. cbn [negb] in Hc.
  destruct (String.eqb_spec sub "") as [|Hne]; [done|].
  destruct (length (mr_Entitlements req) =? 0)%nat eqn:Hl; [done|].
  assert (mr_Entitlements req <> []) as Hents by (by intros Heq; rewrite Heq in Hl).
  pose proof (VerifyAttenuation_ok held (mr_Entitlements req)) as Hatt.
  destruct (String.eqb_spec (mr_Delivery req) "url") as [Hurl|Hurl].
  - destruct (MintTokenURLDelivery cfg') eqn:Hu; [|done]. cbn [negb] in Hc.
    destruct (validateTransferTarget _) as [t|] eqn:Hv; [|done]. destruct caps as [s|]; [|done].
    cbn [mbind result_bind] in Hc. destruct (VerifyAttenuation _ _) as [off [|]]; [|done].
    injection Hc as <- <-. destruct (me_handle v) as [handle|] eqn:Hh; [|done].
    destruct (storeTransferRecord _ _ _ _ _ _) as [s'|] eqn:Hst; [|done]. injection Hr as <- <-.
    split_and!; try done; [by apply Hatt|right; by exists t|]. by exists handle.
  - cbn [mbind result_bind] in Hc. destruct (VerifyAttenuation _ _) as [off [|]]; [|done].
    injection Hc as <- <-. injection Hr as <- <-.
    split_and!; try done; [by apply Hatt|by left].
Qed.


(** * Budgets *)

(** A counter of its own, set to the uses, is worth them at most. *)
Lemma provision_uses_left v now jti uses ttl (s : St) s' :
  provision_uses v now jti uses ttl (Some s) = Some s' -> cabs s !! capabilityUsesKey jti = None ->
  (0 <= uses <= int64_max)%Z -> (uses_left jti s' <= uses)%Z.
Proof.
  unfold provision_uses. intros Hp Hfresh Hu. destruct (_ && _)%bool; injection Hp as <-.
  - unfold uses_left. rewrite cSet_at. rewrite ParseInt_FormatInt; [lia|].
    unfold in_int64. apply andb_true_iff. split; apply Z.leb_le; unfold int64_min, int64_max in *; lia.
  - unfold uses_left. rewrite Hfresh. lia.
Qed.

(** A bearer capability is worth the uses it was minted with, wherever and
    however often it is presented: over any sequence of requests through the
    gate, with any failures, at most that many are let through on it. The
    hypotheses on the environment are what a fresh identifier is: the jti
    signed is read back from the token, is not empty, and counts nothing
    yet. *)
Theorem minted_budget hh v now sub kind held req baseURL ttlCap s res caps' cs G l st answers st' :
  mintCapabilityTokenWithCap hh v now sub kind held req baseURL ttlCap (Some s) = (Ok res, caps') ->
  mr_Delivery req <> "url" ->
  ParseUnverified (ms_Token res) = Some cs -> str_claim cs "jti" = me_jti v -> me_jti v <> "" ->
  cabs s !! capabilityUsesKey (me_jti v) = None ->
  (forall cfg, hh_policy hh = Some cfg -> 1 <= MintTokenUsesCap cfg <= int64_max)%Z ->
  gt_caps st = caps' -> gate_run G l st = (answers, st') ->
  (Z.of_nat (length (filter (fun a => passed_on (me_jti v) a = true) answers)) <= ms_UsesRemaining res)%Z.
Proof.
  intros Hm Hurl Hpu Hj Hne Hfresh Hcap Hst Hrun.
  destruct (mint_inv _ _ _ _ _ _ _ _ _ _ _ _ Hm) as
    (cfg & target & ttl & uses & token & jti & Hp & He & Hsub & Hents & Hdom & Ht & Hb & Htok & Hx & Hre & Hu & Hres).
  destruct Ht as [[-> _]|(? & _ & ? & _)]; [|done]. destruct Hres as (Htk & _ & Hc). rewrite Htk in Hpu.
  apply bounds_spec in Hb as (_ & Huses & _). pose proof (Hcap cfg Hp) as Hcf.
  specialize (Huses (proj1 Hcf)). destruct Hcf as [_ Hcf].
  apply mintTokenOrJTI_bearer in Htok as (_ & _ & Hjti); [|done]. cbn [found] in Hjti.
  rewrite Hpu, Hj in Hjti. subst jti. rewrite Hu.
  assert (exists s', caps' = Some s') as [s' ->].
  { rewrite Hc. unfold provision_uses. destruct (_ && _)%bool; by eexists. }
  pose proof (provision_uses_left _ _ _ _ _ _ _ (eq_sym Hc) Hfresh ltac:(lia)) as Hl.
  destruct (gate_run_spends _ _ _ _ (me_jti v) _ _ Hrun Hst) as (s2 & _ & [Hn Hle] & _). lia.
Qed.

(** * Transfer links *)

Lemma transfer_key_apart handle jti : transferKey handle <> capabilityUsesKey jti.
Proof. done. Qed.

(** The record a link stands for, until its expiry. *)
Definition link_stored (handle : string) (rec : transferRecord) (expires : Z) (s : St) : Prop :=
  cabs s !! transferKey handle = Some (Marshal rec, expires) /\ clean rec.

(** A decrement changes no link. *)
Lemma decr_keeps_link now jti s n ok s' handle rec e :
  cDecrementIfPositive now (capabilityUsesKey jti) s = (n, ok, s') ->
  link_stored handle rec e s -> link_stored handle rec e s'.
Proof.
  intros Hd [Hk Hc]. split; [|done]. pose proof (cDecr_abs now (capabilityUsesKey jti) s) as Ha.
  rewrite Hd in Ha. cbn [snd] in Ha. rewrite Ha. unfold st_decr.
  destruct (cabs s !! capabilityUsesKey jti) as [[u x]|]; [|done]. destruct (after now x); [done|].
  destruct (ParseInt u) as [k|]; [|done]. destruct (k <=? 0)%Z; [done|]. cbn [snd].
  by rewrite lookup_insert_ne by (apply not_eq_sym, transfer_key_apart).
Qed.

(** One redemption of a stored link: gone, and nothing spent, or dispatched
    for a use. *)
Lemma TransferGet_step hh up now handle r s rec e a caps' :
  TransferGet hh up now handle r (Some s) = (a, caps') -> link_stored handle rec e s ->
  exists s', caps' = Some s' /\ link_stored handle rec e s' /\
    (a = Gone /\ (forall j, uses_left j s' = uses_left j s) \/
     a = Dispatched (transfer_context rec) (bound_request rec r) /\ (now <= e)%Z /\
     EqualFold (hr_Method r) (tt_Method (tr_Target rec)) = true /\
     VetoCredential (hh_exchanger hh) (tr_Sub rec)
       (ContextSubjectKind (hh_exchanger hh) (transfer_context rec)) (tr_IssuedAt rec) SiteTransferRedeem = Ok () /\
     (0 < uses_left (tr_JTI rec) s)%Z /\
     forall j, uses_left j s' = (uses_left j s - (if String.eqb j (tr_JTI rec) then 1 else 0))%Z).
Proof.
  intros Ht Hlink. unfold TransferGet, loadTransferRecord in Ht.
  destruct (up 0%nat); cbn [negb] in Ht.
  2: { injection Ht as <- <-. exists s. split_and!; [done..|by left]. }
  destruct (cGet now (transferKey handle) s) as [val s1] eqn:Hg.
  pose proof (cGet_val now (transferKey handle) s) as Hv. pose proof (cGet_abs now (transferKey handle) s) as Ha.
  rewrite Hg in Hv, Ha. cbn [fst snd] in Hv, Ha.
  assert (forall j, uses_left j s1 = uses_left j s) as Hl by (intros j; unfold uses_left; by rewrite Ha).
  assert (link_stored handle rec e s1) as Hlink1 by (destruct Hlink; split; [by rewrite Ha|done]).
  assert (forall a', (a', Some s1) = (a, caps') -> a' = Gone -> exists s', caps' = Some s' /\
    link_stored handle rec e s' /\ (a = Gone /\ (forall j, uses_left j s' = uses_left j s) \/ False)) as Hgone.
  { intros a' [= <- <-] ->. exists s1. split_and!; [done..|by left]. }
  destruct Hlink as [Hk Hclean]. unfold st_get in Hv. rewrite Hk in Hv. cbn in Hv.
  destruct (after now e) eqn:He; subst val; cbn [mbind option_bind] in Ht.
  { destruct (Hgone _ Ht eq_refl) as (s' & ? & ? & [?|[]]). exists s'. split_and!; [done..|by left]. }
  rewrite (Unmarshal_Marshal rec Hclean) in Ht. apply after_false in He.
  destruct (EqualFold _ _) eqn:Hm; cbn [negb] in Ht.
  2: { destruct (Hgone _ Ht eq_refl) as (s' & ? & ? & [?|[]]). exists s'. split_and!; [done..|by left]. }
  destruct (hh_mux hh); cbn [negb] in Ht.
  2: { destruct (Hgone _ Ht eq_refl) as (s' & ? & ? & [?|[]]). exists s'. split_and!; [done..|by left]. }
  destruct (VetoCredential _ _ _ _ _) as [[]|] eqn:Hveto.
  2: { destruct (Hgone _ Ht eq_refl) as (s' & ? & ? & [?|[]]). exists s'. split_and!; [done..|by left]. }
  destruct (up 1%nat); cbn [negb] in Ht.
  2: { destruct (Hgone _ Ht eq_refl) as (s' & ? & ? & [?|[]]). exists s'. split_and!; [done..|by left]. }
  destruct (cDecrementIfPositive _ _ s1) as [[n ok] s2] eqn:Hd.
  pose proof (fun j => proj1 (decr_spends _ _ _ _ _ _ j Hd)) as Hs.
  pose proof (proj2 (decr_spends _ _ _ _ _ _ "" Hd)) as Hpos.
  pose proof (decr_keeps_link _ _ _ _ _ _ _ _ _ Hd Hlink1) as Hlink2.
  exists s2. destruct ok; injection Ht as <- <-; (split; [done|]); (split; [done|]).
  - right. split_and!; try done; [rewrite <- Hl; by apply Hpos|].
    intros j. rewrite Hs, Hl. by destruct (String.eqb j (tr_JTI rec)).
  - left. split; [done|]. intros j. rewrite Hs, Hl. cbn. lia.
Qed.

(** Redemptions of one link, one after another. *)
Fixpoint redeem_run hh (handle : string) (l : list ((nat -> bool) * Z * http_request)) caps
    : list transfer_answer * option St :=
  match l with
  | [] => ([], caps)
  | (up, now, r) :: l =>
      let '(a, caps) := TransferGet hh up now handle r caps in
      let '(answers, caps) := redeem_run hh handle l caps in (a :: answers, caps)
  end.

Definition dispatched (a : transfer_answer) : bool := match a with Dispatched _ _ => true | Gone => false end.

Lemma redeem_run_spec hh handle l rec e : forall s answers caps',
  redeem_run hh handle l (Some s) = (answers, caps') -> link_stored handle rec e s ->
  (Z.of_nat (length (filter (fun a => dispatched a = true) answers)) <= uses_left (tr_JTI rec) s)%Z /\
  Forall2 (fun x a => a = Gone \/
    a = Dispatched (transfer_context rec) (bound_request rec x.2) /\ (x.1.2 <= e)%Z) l answers.
Proof.
  induction l as [|[[up now] r] l IH]; intros s answers caps' Hr Hlink; cbn [redeem_run] in Hr.
  { injection Hr as <- <-. split; [|constructor]. cbn. unfold uses_left.
    destruct (cabs s !! _) as [[u x]|]; [destruct (ParseInt u)|]; lia. }
  destruct (TransferGet _ _ _ _ _ _) as [a caps1] eqn:Ht.
  destruct (redeem_run hh handle l caps1) as [rest caps2] eqn:Hl. injection Hr as <- <-.
  destruct (TransferGet_step _ _ _ _ _ _ _ _ _ _ Ht Hlink) as (s1 & -> & Hlink1 & Hcase).
  destruct (IH _ _ _ Hl Hlink1) as [Hn Hall]. rewrite filter_cons.
  destruct Hcase as [[-> Hu]|(-> & Hnow & _ & _ & Hpos & Hu)]; cbn [dispatched].
  - rewrite decide_False by done. rewrite Hu in Hn. split; [done|]. constructor; [by left|done].
  - rewrite decide_True by done. cbn [length]. rewrite Hu, String.eqb_refl in Hn. split; [lia|].
    constructor; [right; by split|done].
Qed.

Lemma validateTransferTarget_id o t :
  validateTransferTarget o = Ok t -> o = Some t /\ validateTransferTarget (Some t) = Ok t.
Proof.
  intros Hv. destruct o as [t'|]; [|done]. enough (t' = t) as -> by done. revert Hv.
  unfold validateTransferTarget. repeat (match goal with |- context [if ?b then _ else _] => destruct b end; try done).
  by intros [= ->].
Qed.

(** A minted link stores its record, and its uses at most. *)
Lemma mint_url_stores hh v now sub kind held req baseURL ttlCap s res caps' :
  mintCapabilityTokenWithCap hh v now sub kind held req baseURL ttlCap (Some s) = (Ok res, caps') ->
  mr_Delivery req = "url" ->
  exists handle t ttl s0 s', let rec := mkTransfer (me_text v) sub kind (unix now) (mr_Entitlements req) t in
    caps' = Some s' /\ me_handle v = Some handle /\ ms_URL res = baseURL ++ "/-/transfer/" ++ handle /\
    validateTransferTarget (mr_Target req) = Ok t /\ ms_ExpiresAt res = unix (now + ttl) /\ (ttl <= ttlCap)%Z /\
    Some s0 = provision_uses v now (me_text v) (ms_UsesRemaining res) ttl (Some s) /\ Known kind = true /\
    cabs s' !! transferKey handle = Some (Marshal rec, now + ttl)%Z /\
    (forall k x, k <> transferKey handle -> cabs s' !! k = Some x -> cabs s0 !! k = Some x).
Proof.
  intros Hm Hurl. destruct (mint_inv _ _ _ _ _ _ _ _ _ _ _ _ Hm) as
    (cfg & target & ttl & uses & token & jti & Hp & He & Hne & Hents & Hdom & Ht & Hb & Htok & Hx & Hre & Hu & Hres).
  destruct Ht as [[_ ?]|(t & -> & _ & _ & Hv & _)]; [done|]. cbn [found] in Htok.
  unfold mintTokenOrJTI in Htok. destruct (Known kind); [|done]. cbn [negb] in Htok. injection Htok as <- <-.
  destruct Hres as (_ & handle & Hh & Hurl' & Hst & s' & ->). apply bounds_spec in Hb as (Hle & _ & _).
  unfold storeTransferRecord in Hst.
  destruct (provision_uses v now (me_text v) uses ttl (Some s)) as [s0|] eqn:Hpu; [|done].
  cbn [mbind option_bind] in Hst. destruct (me_up v 1%nat); [|done]. injection Hst as <-.
  exists handle, t, ttl, s0. eexists. cbn zeta. rewrite Hu. split_and!; try done.
  - by rewrite cSet_at.
  - intros k x Hk. by apply cSet_other.
Qed.

(** A transfer link performs the one operation it was minted for, as often as
    it was minted for, and while it lasts. Over any sequence of redemptions,
    with any requests and failures, at most the uses it was minted with are
    dispatched; each of them is the target's method and path, without a query,
    with none of the recipient's headers but the six that shape a download,
    as the minting subject with the entitlements the mint attenuated and its
    kind; and none after the link's expiry, which is within the ceiling. *)
Theorem transfer_link_bounded hh v now sub kind held req baseURL ttlCap s res caps' hh' l answers caps'' :
  mintCapabilityTokenWithCap hh v now sub kind held req baseURL ttlCap (Some s) = (Ok res, caps') ->
  mr_Delivery req = "url" -> cabs s !! capabilityUsesKey (me_text v) = None ->
  (forall cfg, hh_policy hh = Some cfg -> 1 <= MintTokenUsesCap cfg <= int64_max)%Z ->
  (forall rec : transferRecord, tr_Entitlements rec = mr_Entitlements req -> tr_Sub rec = sub -> clean rec) ->
  forall handle, ms_URL res = baseURL ++ "/-/transfer/" ++ handle -> me_handle v = Some handle ->
  redeem_run hh' handle l caps' = (answers, caps'') ->
  exists target, mr_Target req = Some target /\ validateTransferTarget (Some target) = Ok target /\
    (Z.of_nat (length (filter (fun a => dispatched a = true) answers)) <= ms_UsesRemaining res)%Z /\
    Forall2 (fun x a => a = Gone \/ exists ac r', a = Dispatched ac r' /\ (x.1.2 <= now + ttlCap)%Z /\
      hr_Method r' = tt_Method target /\ hr_Path r' = tt_Path target /\ hr_RawQuery r' = "" /\
      (forall h vs, hr_Header r' !! h = Some vs -> h ∈ allowedHeaders /\ hr_Header x.2 !! h = Some vs) /\
      ac = <[ClaimSubjectKind := VStr kind]> (<["entitlements" := VStrs (mr_Entitlements req)]>
             {[ "sub" := VStr sub ]})) l answers.
Proof.
  intros Hm Hurl Hfresh Hcap Hclean handle Hu Hh Hrun.
  destruct (mint_url_stores _ _ _ _ _ _ _ _ _ _ _ _ Hm Hurl) as
    (handle' & t & ttl & s0 & s' & -> & Hh' & _ & Hv & Hx & Hle & Hs0 & Hk & Hat & Hsub).
  rewrite Hh in Hh'. injection Hh' as <-.
  destruct (mint_inv _ _ _ _ _ _ _ _ _ _ _ _ Hm) as
    (cfg & target & ttl' & uses & token & jti & Hp & He & Hne & Hents & Hdom & Ht & Hb & Htok & Hx' & Hre & Hus & Hres).
  apply bounds_spec in Hb as (_ & Huses & _). pose proof (Hcap cfg Hp) as Hcf. specialize (Huses (proj1 Hcf)).
  set (rec := mkTransfer (me_text v) sub kind (unix now) (mr_Entitlements req) t) in *.
  assert (link_stored handle rec (now + ttl) s') as Hlink by (split; [exact Hat|by apply Hclean]).
  destruct (redeem_run_spec _ _ _ _ _ _ _ _ Hrun Hlink) as [Hn Hall].
  destruct (validateTransferTarget_id _ _ Hv) as [Htgt Hvt].
  exists t. split; [done|]. split; [done|]. split.
  - pose proof (provision_uses_left _ _ _ _ _ _ _ (eq_sym Hs0) Hfresh ltac:(lia)) as Hl.
    enough (uses_left (me_text v) s' <= uses_left (me_text v) s0)%Z by (cbn [tr_JTI rec] in Hn; lia).
    unfold uses_left at 1. destruct (cabs s' !! capabilityUsesKey (me_text v)) as [[u x]|] eqn:Hku.
    + apply Hsub in Hku; [|done]. unfold uses_left. by rewrite Hku.
    + unfold uses_left. destruct (cabs s0 !! _) as [[u x]|]; [destruct (ParseInt u)|]; lia.
  - eapply Forall2_impl; [exact Hall|]. intros [[up now'] r] a [->|[-> Hnow]]; [by left|right].
    eexists _, _. split; [done|]. cbn [fst snd] in Hnow |- *. split_and!; try done; [lia| |].
    + intros h vs. unfold bound_request, clean_headers. cbn [hr_Header].
      intros [Hh' [Hin _]]%map_lookup_filter_Some. done.
    + unfold transfer_context. cbn [tr_Kind tr_Entitlements tr_Sub rec].
      destruct (String.eqb_spec kind "") as [->|]; [|done]. by rewrite Known_empty in Hk.
Qed.

(** A link in hand is good for its use. While the record is stored and not
    expired and a use is left, a redemption that meets a host able to serve it
    and a veto that accepts the subject is dispatched to the target, spends
    exactly one use and leaves the link for the next; any other redemption
    spends nothing. *)
Theorem transfer_link_redeems hh up now handle r s rec e n expires :
  link_stored handle rec e s -> (now <= e)%Z ->
  cabs s !! capabilityUsesKey (tr_JTI rec) = Some (FormatInt n, expires) -> (0 < n <= int64_max)%Z ->
  (now <= expires)%Z ->
  up 0%nat = true -> up 1%nat = true -> hh_mux hh = true ->
  EqualFold (hr_Method r) (tt_Method (tr_Target rec)) = true ->
  VetoCredential (hh_exchanger hh) (tr_Sub rec)
    (ContextSubjectKind (hh_exchanger hh) (transfer_context rec)) (tr_IssuedAt rec) SiteTransferRedeem = Ok () ->
  exists s', TransferGet hh up now handle r (Some s) =
      (Dispatched (transfer_context rec) (bound_request rec r), Some s') /\
    link_stored handle rec e s' /\
    cabs s' !! capabilityUsesKey (tr_JTI rec) = Some (FormatInt (n - 1), expires).
Proof.
  intros Hlink Hnow Hn Hpos Hexp Hu0 Hu1 Hmux Hmeth Hveto.
  destruct (TransferGet hh up now handle r (Some s)) as [a caps'] eqn:Ht.
  destruct (TransferGet_step _ _ _ _ _ _ _ _ _ _ Ht Hlink) as (s' & -> & Hlink' & _). exists s'.
  unfold TransferGet, loadTransferRecord in Ht. rewrite Hu0 in Ht. cbn [negb] in Ht.
  destruct (cGet now (transferKey handle) s) as [val s1] eqn:Hg.
  pose proof (cGet_val now (transferKey handle) s) as Hv. pose proof (cGet_abs now (transferKey handle) s) as Ha.
  rewrite Hg in Hv, Ha. cbn [fst snd] in Hv, Ha. destruct Hlink as [Hk Hclean].
  unfold st_get in Hv. rewrite Hk in Hv. cbn in Hv. rewrite (proj2 (after_false now e) Hnow) in Hv. subst val.
  cbn [mbind option_bind] in Ht. rewrite (Unmarshal_Marshal rec Hclean), Hmeth, Hmux, Hveto, Hu1 in Ht.
  cbn [negb] in Ht. destruct (cDecrementIfPositive _ _ s1) as [[k ok] s2] eqn:Hd.
  pose proof (cDecr_val now (capabilityUsesKey (tr_JTI rec)) s1) as Hdv.
  pose proof (cDecr_abs now (capabilityUsesKey (tr_JTI rec)) s1) as Hda. rewrite Hd in Hdv, Hda.
  cbn [fst snd] in Hdv, Hda. rewrite Ha in Hdv, Hda. unfold st_decr in Hdv, Hda. rewrite Hn in Hdv, Hda.
  rewrite (proj2 (after_false now expires) Hexp) in Hdv, Hda.
  rewrite ParseInt_FormatInt in Hdv, Hda.
  2,3: unfold in_int64; apply andb_true_iff; split; apply Z.leb_le; unfold int64_min, int64_max in *; lia.
  rewrite (proj2 (Z.leb_gt n 0)) in Hdv, Hda by lia. injection Hdv as _ ->. cbn [snd] in Hda.
  injection Ht as <- <-. split_and!; [done|done|]. rewrite Hda. apply lookup_insert_eq.
Qed.

(** * The REST surface *)

(** What the mint route answers, and to whom. A caller without a subject is
    challenged; a credential its subject's revocation postdates, or whose
    revocation cannot be read, mints nothing; what is minted is minted for the
    subject, the kind and the entitlements of the caller's own context. A
    request or policy failure is told as 400 or 403 with its reason and leaves
    the store as it was; a fault of the server's own is a bare 500. *)
Theorem capability_mint_surface hh v up now body ctx baseURL caps a caps' :
  capabilityMintHandler hh v up now body ctx baseURL caps = (a, caps') ->
  match a with
  | Answered res =>
      exists req ac, body = Some req /\ ctx = Some ac /\ str_claim ac "sub" <> "" /\
        mintFromRevokedCredential hh up now ac = None /\
        mintCapabilityTokenWithCap hh v now (str_claim ac "sub") (ContextSubjectKind (hh_exchanger hh) ac)
          (stringSliceFromClaim (ac !! "entitlements")) req baseURL
          (let cfg := default defaultMintPolicy (hh_policy hh) in
           if (MintTokenCapabilityTTLCap cfg <=? 0)%Z then MintTokenTTLCap cfg
           else MintTokenCapabilityTTLCap cfg) caps = (Ok res, caps')
  | DeniedWith o => op_Outcome o = Unauthenticated /\ str_claim (default ∅ ctx) "sub" = "" /\ caps' = caps
  | Failed status why =>
      status ∈ [400; 403; 500; 503] /\ (status = 500 -> why = None) /\
      (forall e, why = Some e -> status = mintStatus e) /\
      ((status = 400 \/ status = 403) -> caps' = caps)
  end%Z.
Proof.
  unfold capabilityMintHandler. destruct body as [req|].
  2: { intros [= <- <-]. split_and!; try done. by left. }
  destruct (String.eqb_spec (str_claim (default ∅ ctx) "sub") "") as [Hs|Hs].
  { intros [= <- <-]. done. }
  destruct (mintFromRevokedCredential _ _ _ _) as [status|] eqn:Hr.
  { intros [= <- <-]. unfold mintFromRevokedCredential in Hr.
    destruct (CredentialPredatesRevocation _ _ _ _) as [[]|]; [|done|]; injection Hr as <-; split_and!; try done.
    all: rewrite !elem_of_cons; tauto. }
  destruct (mintCapabilityTokenWithCap _ _ _ _ _ _ _ _ _ _) as [[res|e] caps1] eqn:Hm; intros [= <- <-].
  { destruct ctx as [ac|]; [|done]. by exists req, ac. }
  assert ((mintStatus e = 400 \/ mintStatus e = 403) -> caps1 = caps)%Z as Hkeep.
  { unfold mintCapabilityTokenWithCap in Hm. destruct (check_mint _ _ _ _ _) as [[cfg target]|e'].
    2: { by injection Hm as <- <-. }
    destruct (bounds _ _ _) as [ttl uses]. destruct (mintTokenOrJTI _ _ _ _ _ _ _ _ _) as [[token jti]|e'].
    2: { by injection Hm as <- <-. }
    destruct target as [t|]; [|done]. destruct (me_handle v) as [handle|].
    2: { injection Hm as <- _. by intros [?|?]. }
    destruct (storeTransferRecord _ _ _ _ _ _); [done|]. injection Hm as <- _. by intros [?|?]. }
  split_and!.
  - destruct e as [[] why|e]; cbn [mintStatus]; rewrite !elem_of_cons; tauto.
  - intros ->. done.
  - intros e'. destruct (Z.eqb_spec (mintStatus e) 500); [done|]. by intros [= <-].
  - exact Hkeep.
Qed.
End CapabilitySpec.

(** The policy a host resolves always allows a use, and bounds every
    lifetime. *)
Lemma mint_policy_allows m :
  mt_Enabled m = true -> let cfg := applyMintTokenPolicy defaultMintPolicy (Some m) in
  MintTokenEnabled cfg = true /\ (1 <= MintTokenUsesCap cfg)%Z /\
  (mt_TTLCapSeconds m < 2 ^ 63 / second -> 0 < MintTokenTTLCap cfg)%Z.
Proof.
  intros He. cbn zeta. unfold applyMintTokenPolicy. rewrite He. cbn. split_and!; [done| |].
  - destruct (Z.leb_spec (mt_UsesCap m) 0); lia.
  - intros Hlt. unfold seconds. change (2 ^ 63 / second)%Z with 9223372036%Z in Hlt.
    destruct (Z.leb_spec (mt_TTLCapSeconds m) 0); rewrite int64_wrap_id;
      change (2 ^ 63)%Z with 9223372036854775808%Z; unfold second; lia.
Qed.

(** * Witnesses *)

#[local] Existing Instance kindsExample.
#[local] Existing Instance jwtExample.
#[local] Existing Instance compactExample.
#[local] Existing Instance noRegexp.
#[local] Existing Instance parseExample.
#[local] Existing Instance refreshJSON.
#[local] Existing Instance graceJSON.
#[local] Existing Instance claimsJSONExample.
#[local] Existing Instance sha256Example.
#[local] Existing Instance kidFooterExample.
#[local] Existing Instance timeExample.
#[local] Existing Instance pasetoExample.
#[local] Existing Instance gateParser.

#[local] Instance TransferTarget_eq_dec : EqDecision TransferTarget.
Proof. solve_decision. Defined.
#[local] Instance TransferTarget_countable : Countable TransferTarget.
Proof.
  refine (inj_countable' (fun t => (tt_Method t, tt_Path t)) (fun x => mkTarget x.1 x.2) _). by intros [].
Defined.
#[local] Instance transferRecord_eq_dec : EqDecision transferRecord.
Proof. solve_decision. Defined.
#[local] Instance transferRecord_countable : Countable transferRecord.
Proof.
  refine (inj_countable' (fun r => (tr_JTI r, tr_Sub r, tr_Kind r, tr_IssuedAt r, tr_Entitlements r, tr_Target r))
    (fun '(a, b, c, d, e, f) => mkTransfer a b c d e f) _). by intros [].
Defined.
#[local] Instance transferJSON : JSON transferRecord := jsonExample transferRecord.

(** A held set dominates what it lists. *)
Lemma first_missing_spec (held : list string) requested :
  match List.find (fun e => negb (contains_elem held e)) requested with
  | None => Forall (fun e => e ∈ held) requested
  | Some e => e ∈ requested /\ e ∉ held
  end.
Proof.
  induction requested as [|e l IH]; cbn; [constructor|].
  destruct (contains_elem held e) eqn:He; cbn.
  - apply contains_elem_spec in He. destruct (List.find _ l).
    + split; [right; apply IH|apply IH].
    + by constructor.
  - split; [left|]. intros Hin%contains_elem_spec. congruence.
Qed.

#[local] Program Instance listAttenuation : Attenuation := {|
  VerifyAttenuation held requested :=
    match List.find (fun e => negb (contains_elem held e)) requested with
    | None => ("", true)
    | Some e => (e, false)
    end;
  dominated held e := e ∈ held;
|}.
Next Obligation.
  intros held requested. cbn beta. pose proof (first_missing_spec held requested) as Hf.
  destruct (List.find _ requested) as [e|]; cbn; [|done]. split; [done|]. intros Hall.
  destruct Hf as [Hin Hout]. eapply Forall_forall in Hall; done.
Qed.
Next Obligation.
  intros held requested. cbn beta. pose proof (first_missing_spec held requested) as Hf.
  destruct (List.find _ requested) as [e|]; cbn; [|done]. intros _. apply Hf.
Qed.

(** Every token reads as the one minted here. *)
#[local] Instance readJTI : JwtUnverified := {| ParseUnverified _ := Some {[ "jti" := VStr "j1" ]} |}.

Definition exampleHandler : HostHandler mapStore :=
  mkHandler exampleGate (Some (mkPolicy true (60 * second) (300 * second) 32 ["delete"; "own"] true))
    "https://host" true.

Definition exampleMintEnv : mint_env := mkMintEnv (fun _ => true) "j1" "t1" (Some "h1").

Definition held : list string := ["files:a:read"; "files:a:delete"].

Definition bearerRequest : MintTokenRequest := mkMintRequest ["files:a:read"] 3600 2 "" None.
Definition linkRequest : MintTokenRequest :=
  mkMintRequest ["files:a:read"] 30 1 "url" (Some (mkTarget "GET" "/api/files/a")).
Definition deleteRequest : MintTokenRequest := mkMintRequest ["files:a:delete"] 3600 9 "" None.

Definition mintAs (req : MintTokenRequest) : result mint_error MintTokenResult * option mapStore :=
  mintCapabilityTokenWithCap exampleHandler exampleMintEnv 0 "alice" "User" held req "https://host"
    (60 * second) (Some (emptyStore hour)).

Lemma minted_bearer :
  mintAs bearerRequest = (Ok (mkMintResult "token" "" 60 ["files:a:read"] 2), (mintAs bearerRequest).2).
Proof. vm_compute. reflexivity. Qed.

Lemma minted_link :
  mintAs linkRequest = (Ok (mkMintResult "" "https://host/-/transfer/h1" 30 ["files:a:read"] 1),
    (mintAs linkRequest).2).
Proof. vm_compute. reflexivity. Qed.

Lemma minted_delete :
  mintAs deleteRequest = (Ok (mkMintResult "token" "" 10 ["files:a:delete"] 1), (mintAs deleteRequest).2).
Proof. vm_compute. reflexivity. Qed.


(** Two uses minted, three requests: the third is refused. *)
Definition thrice : list (gate_env * Z * request) :=
  [(exampleEnv, 5, bearing "cap"); (exampleEnv, 6, bearing "cap"); (exampleEnv, 7, bearing "cap")]%Z.

Definition afterMint : gate_state mapStore := mkGateState None idleGrants (mintAs bearerRequest).2.

Lemma minted_budget_witness :
  (length (filter (fun a => passed_on "j1" a = true) (gate_run exampleGate thrice afterMint).1) <= 2)%nat /\
  (gate_run exampleGate thrice afterMint).1 =
    [Passed (Some (capabilityClaims, HEADER)); Passed (Some (capabilityClaims, HEADER));
     Refused 401 "capability exhausted" ""].
Proof.
  split; [|vm_compute; reflexivity].
  enough (Z.of_nat (length (filter (fun a => passed_on "j1" a = true) (gate_run exampleGate thrice afterMint).1)) <= 2)%Z
    by lia.
  apply (minted_budget exampleHandler exampleMintEnv 0 "alice" "User" held bearerRequest "https://host" (60 * second)
    (emptyStore hour) (mkMintResult "token" "" 60 ["files:a:read"] 2) (mintAs bearerRequest).2
    {[ "jti" := VStr "j1" ]} exampleGate thrice afterMint _ (gate_run exampleGate thrice afterMint).2
    minted_bearer).
  all: try reflexivity; try discriminate; try (apply surjective_pairing).
  intros cfg [= <-]. vm_compute. by split.
Defined.

Definition getting (method : string) : http_request :=
  mkHttp method "/-/transfer/h1" "x=1" (<["Accept" := ["*/*"]]> {[ "Authorization" := ["Bearer mine"] ]}).

Definition clicks : list ((nat -> bool) * Z * http_request) :=
  [(fun _ => true, 5, getting "GET"); (fun _ => true, 6, getting "GET")]%Z.

(** One use minted, two redemptions: the second is gone. *)
Lemma transfer_link_bounded_witness :
  (redeem_run exampleHandler "h1" clicks (mintAs linkRequest).2).1 =
    [Dispatched (<[ClaimSubjectKind := VStr "User"]> (<["entitlements" := VStrs ["files:a:read"]]>
                  {[ "sub" := VStr "alice" ]}))
       (mkHttp "GET" "/api/files/a" "" {[ "Accept" := ["*/*"] ]}); Gone] /\
  (length (filter (fun a => dispatched a = true)
     (redeem_run exampleHandler "h1" clicks (mintAs linkRequest).2).1) <= 1)%nat.
Proof.
  split; [vm_compute; reflexivity|].
  pose proof (transfer_link_bounded exampleHandler exampleMintEnv 0 "alice" "User" held linkRequest "https://host"
    (60 * second) (emptyStore hour) _ (mintAs linkRequest).2 exampleHandler clicks
    (redeem_run exampleHandler "h1" clicks (mintAs linkRequest).2).1
    (redeem_run exampleHandler "h1" clicks (mintAs linkRequest).2).2 minted_link eq_refl) as Hb.
  destruct (Hb ltac:(vm_compute; reflexivity) ltac:(intros cfg [= <-]; vm_compute; by split) ltac:(by intros)
    "h1" eq_refl eq_refl (surjective_pairing _))
    as (target & _ & _ & Hn & _). apply Nat2Z.inj_le. exact Hn.
Defined.

Definition linkRecord : transferRecord :=
  mkTransfer "t1" "alice" "User" 0 ["files:a:read"] (mkTarget "GET" "/api/files/a").

Lemma transfer_link_redeems_witness :
  exists s s', (mintAs linkRequest).2 = Some s /\
    TransferGet exampleHandler (fun _ => true) 5 "h1" (getting "GET") (Some s) =
      (Dispatched (transfer_context linkRecord) (bound_request linkRecord (getting "GET")), Some s').
Proof.
  exists (default (emptyStore hour) (mintAs linkRequest).2).
  assert (link_stored "h1" linkRecord (30 * second) (default (emptyStore hour) (mintAs linkRequest).2)) as Hlink.
  { split; [vm_compute; reflexivity|exact I]. }
  destruct (transfer_link_redeems exampleHandler (fun _ => true) 5 "h1" (getting "GET") _ linkRecord (30 * second)
    1 (30 * second) Hlink ltac:(discriminate) ltac:(vm_compute; reflexivity) ltac:(by split) ltac:(discriminate)
    eq_refl eq_refl eq_refl eq_refl ltac:(vm_compute; reflexivity)) as (s' & Hd & _).
  exists s'. split; [reflexivity|exact Hd].
Defined.

Lemma capability_mint_surface_witness :
  exists req ac, Some bearerRequest = Some req /\ Some sessionClaims = Some ac /\ str_claim ac "sub" = "alice" /\
  (capabilityMintHandler exampleHandler exampleMintEnv (fun _ => true) 0 (Some bearerRequest)
    (Some (<["entitlements" := VStrs held]> sessionClaims)) "https://host" (Some (emptyStore hour))).1 =
  Answered (mkMintResult "token" "" 300 ["files:a:read"] 2).
Proof.
  set (ctx := <["entitlements" := VStrs held]> sessionClaims).
  destruct (capabilityMintHandler exampleHandler exampleMintEnv (fun _ => true) 0 (Some bearerRequest)
    (Some ctx) "https://host" (Some (emptyStore hour))) as [a caps'] eqn:Ha.
  pose proof (capability_mint_surface _ _ _ _ _ _ _ _ _ _ Ha) as Hs. vm_compute in Ha. injection Ha as <- <-.
  destruct Hs as (req & ac & _). exists bearerRequest, sessionClaims. split_and!; reflexivity.
Defined.

(** * Findings *)

(** A lifetime past the int64 range wraps: instead of the host's ceiling, the
    capability gets a lifetime that ended before it began. *)
Lemma huge_ttl_is_dead :
  clampTTL (60 * second) 9223372037 = (-9223372036709551616)%Z /\
  clampTTL (60 * second) 9223372036 = (60 * second)%Z.
Proof. split; reflexivity. Qed.

(** A method is trimmed when it is checked and compared as it was stored when
    the link is redeemed: such a link is never redeemed. *)
Lemma padded_method_link_is_dead :
  validateTransferTarget (Some (mkTarget " GET" "/a")) = Ok (mkTarget " GET" "/a") /\
  EqualFold "GET" (tt_Method (mkTarget " GET" "/a")) = false.
Proof. split; reflexivity. Qed.

(** A capability of one use mints one of thirty-two: nothing asks whether the
    credential that mints is itself a capability. *)
Lemma one_use_capability_mints_many :
  let ctx := <["entitlements" := VStrs held]> capabilityClaims in
  bool_claim ctx CapUsesClaim = true /\
  exists res, (capabilityMintHandler exampleHandler exampleMintEnv (fun _ => true) 0
      (Some (mkMintRequest ["files:a:read"] 300 32 "" None)) (Some ctx) "https://host"
      (Some (emptyStore hour))).1 = Answered res /\ ms_UsesRemaining res = 32%Z.
Proof. split; [reflexivity|]. eexists. split; [vm_compute; reflexivity|reflexivity]. Qed.
