(* ===== verification/PatHandlers.v ===== *)
(** The API token endpoints (src/internal/host/apitoken.go): minting for
    oneself, for a subject one may impersonate or provisioned, revoking one's
    own tokens or another's, and verifying. *)
From S2P Require Import Prelude GoStr Store Deps Claims ApiToken Clients Roles Signer SubjectKind Dcr Events Mint Refresh Login SessionGrants Gate Denial Capability.
From Stdlib Require Import Ascii.

#[local] Open Scope string_scope.

Definition apitokenVerbImpersonate : string := "impersonate".
Definition apitokenVerbRevokeAny : string := "revoke-any".
Definition provisionedMintScope : string := "apitokens_impersonate_provisioned".
Definition provisionedByClaim : string := "provisioned_by".

Record MintRequest := mkMintKey {
  mk_Action : string;
  mk_Audience : string;
  mk_Scope : string;
  mk_Sub : string;
  mk_TTL : string;
}.

Record RevokeRequest := mkRevoke {
  rv_Action : string;
  rv_All : bool;
  rv_Audience : string;
  rv_Sub : string;
  rv_TTL : string;
  rv_Token : string;
}.

(** [time.ParseDuration]. *)
Class Durations := { ParseDuration : string -> option Z }.

(** What a refused mint says; a lifetime over the maximum names both. *)
Inductive mint_failure := Says (text : string) | OverMaximum (ttl maximum : Z).

Inductive provisionedVerdict := notProvisioned | provisionedByCaller | provisionedUnknown.

Section Handlers.
Context {St} `{CacheOps St} `{Paseto} `{!Sha256} `{!SubjectKinds} `{!Regexp} `{!JwtClaims}
  `{!KidFooter} `{!Entitlements} `{!Durations}.

Implicit Types (hh : HostHandler St) (tm : TokenManager St) (ac : AuthContext).

(** The checker's one flag. *)
Variable scopeBuckets : bool.

Definition bearer_requirement (verb : string) : gmap string (list string) :=
  {[ "bearer" := ["apitokens:" ++ verb] ]}.

(** [CheckAccess] on the API tokens of a subject. *)
Definition may ac (target verb : string) : result unit bool :=
  CheckAccess scopeBuckets ac "apitokens" target [bearer_requirement verb] [verb].

Definition refusal_of ac (target verb issuer : string) : Opts :=
  mkOpts (Classify true (Some ac) (GetParsedEntitlements scopeBuckets ac) "apitokens" target [verb])
    issuer "" [].

(** * Minting *)

Definition checkProvisioned hh ac (caller target : string) : provisionedVerdict :=
  match ClientCredentialsSubject ac with
  | None => notProvisioned
  | Some client =>
      if negb (String.eqb client caller) then notProvisioned
      else if (negb (HoldsScope scopeBuckets ac provisionedMintScope) ||
               negb (IsConfiguredClient (hh_exchanger hh) caller) ||
               NamesClient (hh_exchanger hh) target)%bool then notProvisioned
      else match ResolveSubjectClaimsLive (ga_host (hh_gate hh)) target with
           | Err _ => provisionedUnknown
           | Ok cs => if String.eqb (str_claim (default ∅ cs) provisionedByClaim) caller
                      then provisionedByCaller else notProvisioned
           end
  end.

Definition mint_verb (subject requestingSub : string) : string :=
  if String.eqb subject requestingSub then "mint" else apitokenVerbImpersonate.

(** Whether the caller may mint for the subject: [None] when its provisioning
    could not be checked. *)
Definition mint_allowed hh ac (requestingSub subject : string) : option bool :=
  let verb := mint_verb subject requestingSub in
  match may ac subject verb with
  | Err _ => Some false
  | Ok true => Some true
  | Ok false =>
      if String.eqb verb apitokenVerbImpersonate then
        match checkProvisioned hh ac requestingSub subject with
        | provisionedByCaller => Some true
        | provisionedUnknown => None
        | notProvisioned => Some false
        end
      else Some false
  end.

(** The lifetime asked for; absent is a day, capped. *)
Definition mint_ttl tm (ttl : string) : option Z :=
  if String.eqb ttl "" then Some (CapTTL tm (24 * hour)) else
  d ← ParseDuration ttl; if (d <=? 0)%Z then None else Some d.

(** The kind the token records: the caller's own, or the target's as
    classified now, which the veto must accept. *)
Definition mint_kind hh (now : Z) ac (requestingSub subject : string) : option string :=
  if String.eqb subject requestingSub then Some (ContextSubjectKind (hh_exchanger hh) ac)
  else let kind := SubjectKindOf (hh_exchanger hh) subject in
       match VetoCredential (hh_exchanger hh) subject kind (unix now) SiteAPITokenMint with
       | Ok _ => Some kind
       | Err _ => None
       end.

(** From the token manager on. *)
Definition mint_key hh (up : nat -> bool) (now : Z) ac (requestingSub : string) (req : MintRequest)
    : answer mint_failure string :=
  let subject := mk_Sub req in
  match ga_tokenManager (hh_gate hh) with
  | None => Failed 501 (Says "Token manager not configured")
  | Some tm =>
      match (if String.eqb subject requestingSub then mintFromRevokedCredential hh up now ac else None) with
      | Some status => Failed status (Says (StatusText status))
      | None =>
          match mint_ttl tm (mk_TTL req) with
          | None => Failed 400 (Says "ttl must be a positive Go duration such as 2160h")
          | Some ttl =>
              match mint_kind hh now ac requestingSub subject with
              | None => Failed 400 (Says "sub cannot hold an API token on this host: current config refuses its kind")
              | Some kind =>
                  match MintStatelessKey now tm (mk_Audience req) subject kind (mk_Action req) (mk_Scope req) ttl with
                  | Ok token => Answered token
                  | Err ErrTTLExceedsMax => Failed 400 (OverMaximum ttl (tm_maxTTL tm))
                  | Err _ => Failed 500 (Says "Failed to mint token")
                  end
              end
          end
      end
  end.

Definition apitokenMintHandler hh (up : nat -> bool) (now : Z) (method : string) (ctx : option AuthContext)
    (body : option MintRequest) : answer mint_failure string :=
  if negb (String.eqb method "POST") then Failed 405 (Says "Method not allowed") else
  match ctx with
  | None => denied Unauthenticated (hh_issuerAddress hh)
  | Some ac =>
      let requestingSub := subject_of ac in
      if String.eqb requestingSub "" then denied Unauthenticated (hh_issuerAddress hh) else
      match body with
      | None => Failed 400 (Says "Failed to decode request body")
      | Some req =>
          if String.eqb (mk_Audience req) "" then Failed 400 (Says "aud is required")
          else if String.eqb (mk_Sub req) "" then Failed 400 (Says "sub is required")
          else match mint_allowed hh ac requestingSub (mk_Sub req) with
               | None => Failed 503 (Says "the subject's provisioning could not be checked")
               | Some false =>
                   DeniedWith (refusal_of ac (mk_Sub req) (mint_verb (mk_Sub req) requestingSub)
                                 (hh_issuerAddress hh))
               | Some true => mint_key hh up now ac requestingSub req
               end
      end
  end.

(** * Revoking *)

(** The subject a revocation is about. *)
Definition revoke_target (up : nat -> bool) (now : Z) tm (req : RevokeRequest) : result string string :=
  if rv_All req then
    if (String.eqb (rv_Sub req) "" || negb (String.eqb (rv_Audience req) "") ||
        negb (String.eqb (rv_Action req) "") || negb (String.eqb (rv_Token req) ""))%bool
    then Err "all takes sub, and none of aud, act or token: it revokes every audience"
    else Ok (rv_Sub req)
  else if negb (String.eqb (rv_Token req) "") then
    match ValidateToken up now tm (rv_Token req) "" with
    | Err _ => Err "Invalid token"
    | Ok data => Ok (Subject data)
    end
  else if (negb (String.eqb (rv_Audience req) "") && negb (String.eqb (rv_Sub req) "") &&
           negb (String.eqb (rv_Action req) ""))%bool then Ok (rv_Sub req)
  else Err "Neither token nor full metadata provided".

(** An unusable lifetime is ignored. *)
Definition revoke_ttl (ttl : string) : Z :=
  if String.eqb ttl "" then 0 else
  match ParseDuration ttl with Some d => if (0 <? d)%Z then d else 0 | None => 0 end.

Definition revoke_request (now : Z) tm (req : RevokeRequest) : result string (TokenManager St) :=
  if negb (String.eqb (rv_Token req) "") then
    match RevokeToken now (rv_Token req) tm with
    | Ok tm => Ok tm
    | Err _ => Err "Failed to revoke token"
    end
  else match (if rv_All req then RevokeSubject now (rv_Sub req) (revoke_ttl (rv_TTL req)) tm
              else RevokeByMetadata now (rv_Audience req) (rv_Sub req) (rv_Action req)
                     (revoke_ttl (rv_TTL req)) tm) with
       | Ok tm => Ok tm
       | Err _ => Err "Failed to revoke tokens by metadata"
       end.

(** The answer, and the manager with the stores it leaves. *)
Definition apitokenRevokeHandler hh (up : nat -> bool) (now : Z) (method : string) (ctx : option AuthContext)
    (body : option RevokeRequest) : answer string string * option (TokenManager St) :=
  let tm := ga_tokenManager (hh_gate hh) in
  if negb (String.eqb method "POST") then (Failed 405 "Method not allowed", tm) else
  match ctx with
  | None => (denied Unauthenticated (hh_issuerAddress hh), tm)
  | Some ac =>
      let requestingSub := subject_of ac in
      if String.eqb requestingSub "" then (denied Unauthenticated (hh_issuerAddress hh), tm) else
      match body, tm with
      | None, _ => (Failed 400 "Failed to decode request body", tm)
      | _, None => (Failed 501 "Token manager not configured", tm)
      | Some req, Some m =>
          match revoke_target up now m req with
          | Err message => (Failed 400 message, tm)
          | Ok targetSub =>
              let authorized :=
                if String.eqb targetSub requestingSub then true
                else match may ac targetSub apitokenVerbRevokeAny with Ok b => b | Err _ => false end in
              if negb authorized
              then (DeniedWith (refusal_of ac targetSub apitokenVerbRevokeAny (hh_issuerAddress hh)), tm)
              else match revoke_request now m req with
                   | Err message => (Failed 500 message, tm)
                   | Ok m' => (Answered "revoked", Some m')
                   end
          end
      end
  end.

(** * Verifying *)

Definition apitokenVerifyHandler hh (up : nat -> bool) (now : Z) (method : string) (body : option string)
    : answer string TokenData :=
  if negb (String.eqb method "POST") then Failed 405 "Method not allowed" else
  match body with
  | None => Failed 400 "Invalid request body"
  | Some token =>
      match ga_tokenManager (hh_gate hh) with
      | None => Failed 500 "Token manager not configured"
      | Some tm =>
          let tokenString := default token (CutPrefix token "Bearer ") in
          match ValidateToken up now tm tokenString (ho_audience (ga_host (hh_gate hh))) with
          | Err _ => Failed 401 "Invalid token"
          | Ok data =>
              match VetoPAT (hh_exchanger hh) data SiteAPITokenVerify with
              | Err _ => Failed 401 "Invalid token"
              | Ok _ => Answered data
              end
          end
      end
  end.
End Handlers.
