(* ===== verification/Register.v ===== *)
(** Dynamic client registration over HTTP (src/internal/host/register.go,
    register_limiter.go): the two limiters in front of the anonymous endpoint,
    and what a registration is reduced to. *)
From S2P Require Import Prelude GoStr Store Deps Clients Dcr.
From Stdlib Require Import Ascii.

#[local] Open Scope string_scope.

(** golang.org/x/time/rate: a token bucket holding [burst] tokens, refilled at
    [rate] tokens per thousand seconds. *)
Class RateOps := {
  Limiter : Type;
  NewLimiter : Z -> Z -> Limiter;
  Allow : Z -> Limiter -> bool * Limiter;
}.

(** How many of the events at these times a limiter admits. *)
Fixpoint admitted `{RateOps} (ts : list Z) (l : Limiter) : nat :=
  match ts with
  | [] => 0
  | t :: ts => let '(b, l) := Allow t l in (if (b : bool) then 1 else 0) + admitted ts l
  end.

(** The tokens of a thousand seconds. *)
Definition rate_unit : Z := 1000 * second.

(** Over events in time order a new limiter admits the burst, and what is
    refilled in the meantime, at most. *)
Class RateLimiter `{RateOps} := {
  Allow_bound rate burst t0 tn ts :
    (0 <= rate)%Z -> (0 <= burst)%Z -> StronglySorted Z.le ts -> Forall (fun t => t0 <= t <= tn)%Z ts ->
    (Z.of_nat (admitted ts (NewLimiter rate burst)) * rate_unit <= burst * rate_unit + rate * Z.max 0 (tn - t0))%Z;
}.

Section Register.
Context `{!RateOps}.

Definition globalRegisterRate : Z := 1000.
Definition globalRegisterBurst : Z := 10.
Definition perIPRegisterRate : Z := 200.
Definition perIPRegisterBurst : Z := 5.
Definition perIPRetryAfterSeconds : Z := 5.
Definition globalRetryAfterSeconds : Z := 10.
Definition perIPEvictionInterval : Z := 10 * minute.
Definition perIPEvictionMaxIdleTime : Z := 10 * minute.

Record perIPEntry := mkEntry { ip_limiter : Limiter; ip_lastSeen : Z }.

Record registerLimiter := mkLimiter {
  rl_global : Limiter;
  rl_perIP : gmap string perIPEntry;
  rl_lastGC : Z;
}.

Definition register_burst (maxClients : Z) : Z :=
  let burst := if ((0 <? maxClients) && (maxClients <? globalRegisterBurst))%Z%bool
               then maxClients else globalRegisterBurst in
  if (burst <? 1)%Z then 1 else burst.

(** The zero time is long past. *)
Definition newRegisterLimiter (maxClients : Z) : registerLimiter :=
  mkLimiter (NewLimiter globalRegisterRate (register_burst maxClients)) ∅ (-62135596800 * second).

Definition allowGlobal (now : Z) (rl : registerLimiter) : bool * registerLimiter :=
  let '(b, l) := Allow now (rl_global rl) in (b, mkLimiter l (rl_perIP rl) (rl_lastGC rl)).

Definition gc (now : Z) (rl : registerLimiter) : registerLimiter :=
  if (time_sub now (rl_lastGC rl) <? perIPEvictionInterval)%Z then rl
  else mkLimiter (rl_global rl)
         (filter (fun x => time_sub now (ip_lastSeen x.2) <= perIPEvictionMaxIdleTime) (rl_perIP rl)) now.

Definition allowIP (now : Z) (ip : string) (rl : registerLimiter) : bool * registerLimiter :=
  if String.eqb ip "" then (true, rl) else
  let rl := gc now rl in
  let l := match rl_perIP rl !! ip with
           | Some e => ip_limiter e
           | None => NewLimiter perIPRegisterRate perIPRegisterBurst
           end in
  let '(b, l) := Allow now l in
  (b, mkLimiter (rl_global rl) (<[ip := mkEntry l now]> (rl_perIP rl)) (rl_lastGC rl)).

(** * The client's address *)

Definition blank (c : ascii) : bool := (Ascii.eqb c " " || Ascii.eqb c (ascii_of_nat 9))%bool.

Definition splitAndTrim (s : string) : list string :=
  filter (fun seg => seg <> "") ((fun seg => trim_right blank (trim_left blank seg)) <$> Split "," s).

(** [host] is the host of [net.SplitHostPort], when the remote address has
    one. *)
Definition clientIP (xff remoteAddr : string) (host : option string) : string :=
  match (if String.eqb xff "" then None else last (splitAndTrim xff)) with
  | Some ip => ip
  | None => default remoteAddr host
  end.
End Register.

(** * The endpoint *)

Record registerRequest := mkRegister {
  rg_RedirectURIs : list string;
  rg_GrantTypes : list string;
  rg_Scope : string;
  rg_ClientName : string;
}.

Inductive register_answer :=
| RateLimited (retryAfter : Z)
| RegisterError (code : Z) (err desc : string)
| Created (c : Client).

Section Endpoint.
Context `{!RateOps} {St} `{CacheOps St} `{!JSON Client} `{!ParseURL}.

(** Both limiters, the caller's first. *)
Definition limit_registration (now : Z) (ip : string) (rl : registerLimiter)
    : option Z * registerLimiter :=
  let '(ok, rl) := allowIP now ip rl in
  if negb ok then (Some perIPRetryAfterSeconds, rl) else
  let '(ok, rl) := allowGlobal now rl in
  if negb ok then (Some globalRetryAfterSeconds, rl) else (None, rl).

(** What is registered for a request: a public client, with the redirects and
    grants that are allowed. *)
Definition registration (schemes : list string) (req : registerRequest) : result register_answer Client :=
  if (length (rg_RedirectURIs req) =? 0)%nat
  then Err (RegisterError 400 "invalid_redirect_uri" "redirect_uris required") else
  let allowedRedirects := FilterRedirectURIs (rg_RedirectURIs req) schemes in
  if (length allowedRedirects =? 0)%nat
  then Err (RegisterError 400 "invalid_redirect_uri" "no redirect_uri with an allowed scheme") else
  let grants := FilterGrantTypes (rg_GrantTypes req) in
  if (length grants =? 0)%nat
  then Err (RegisterError 400 "invalid_client_metadata"
              ("grant_types must include at least one of: " ++ Join SupportedGrantTypes ", "))
  else Ok (mkClient "" allowedRedirects grants ["code"] (rg_Scope req) (rg_ClientName req) "none" 0).

Definition oauthRegisterHandler (schemes : list string) (up : bool) (now : Z) (rnd ip : string)
    (body : option registerRequest) (rl : option registerLimiter) (s : DCRStore St)
    : register_answer * option registerLimiter * DCRStore St :=
  let '(limited, rl) := match rl with
    | None => (None, None)
    | Some rl => let '(limited, rl) := limit_registration now ip rl in (limited, Some rl)
    end in
  match limited with
  | Some retryAfter => (RateLimited retryAfter, rl, s)
  | None =>
      match body with
      | None => (RegisterError 400 "invalid_client_metadata" "malformed JSON", rl, s)
      | Some req =>
          match registration schemes req with
          | Err e => (e, rl, s)
          | Ok client =>
              let '(res, s) := Register up now rnd client s in
              (match res with
               | Ok c => Created c
               | Err _ => RegisterError 500 "server_error" "could not persist client"
               end, rl, s)
          end
      end
  end.
End Endpoint.
