(* ===== verification/PatHandlersSpec.v ===== *)
(** What the API token endpoints promise: who may mint for whom and as what,
    who may revoke whose tokens, and that what is revoked stays revoked. Before
    them the answers about access: a challenge is well formed whatever scopes a
    requirement names, a caller is told its whole account and whether its
    credential carries less, and what it may do is answered as it would be
    enforced. After them open registration: however many addresses callers come
    from or claim to come from, the endpoint admits no more than its bucket
    allows, and what it registers is a public client within policy. *)
From S2P Require Import Prelude GoStr Store Deps Claims ApiToken Clients Roles Signer SubjectKind Dcr Url Events Mint Refresh Login SessionGrants Gate Denial Capability PatHandlers.
From S2P Require Import ApiTokenSpec SignerSpec IdentitySpec DcrSpec MintSpec RefreshSpec LoginSpec GrantsSpec GateSpec CapabilitySpec Register.
From Stdlib Require Import Ascii.

#[local] Open Scope string_scope.

(** * Challenges *)

Lemma scope_byte_safe c : scope_byte c = true -> unsafe_byte c = false /\ is_space c = false.
Proof. destruct c as [[] [] [] [] [] [] [] []]; vm_compute; done. Qed.

Lemma all_bytes_impl (p q : ascii -> bool) s :
  (forall c, p c = true -> q c = true) -> all_bytes p s = true -> all_bytes q s = true.
Proof.
  intros Hpq. induction s as [|c s IH]; cbn; [done|]. rewrite !andb_true_iff. intros [? ?]. by split; [apply Hpq|apply IH].
Qed.

(** The text of the scope parameter: tokens, separated by single spaces. *)
Lemma safeScope_bytes scopes :
  all_bytes (fun c => scope_byte c || Ascii.eqb c " ")%bool (safeScope scopes) = true.
Proof.
  unfold safeScope. induction scopes as [|s scopes IH]; [done|]. rewrite filter_cons.
  destruct (decide (isScopeToken s = true)) as [Hs|]; [|done].
  assert (all_bytes (fun c => scope_byte c || Ascii.eqb c " ")%bool s = true) as Hb.
  { unfold isScopeToken in Hs. destruct (String.eqb s ""); [done|].
    eapply all_bytes_impl; [|exact Hs]. intros c Hc. by rewrite Hc. }
  destruct (filter _ scopes) as [|s' l]; [exact Hb|]. cbn [Join] in IH |- *.
  rewrite !all_bytes_append, Hb. cbn [andb]. exact IH.
Qed.

Lemma safeScope_words scopes :
  Fields (safeScope scopes) = filter (fun s => isScopeToken s = true) scopes.
Proof.
  unfold safeScope. apply Fields_Join. apply Forall_forall. intros s [Hs _]%list_elem_of_filter.
  unfold isScopeToken in Hs. destruct (String.eqb_spec s "") as [|Hne]; [done|]. split; [done|].
  eapply all_bytes_impl; [|exact Hs]. intros c Hc. destruct (scope_byte_safe c Hc) as [_ Hsp]. by rewrite Hsp.
Qed.

(** A refusal challenges the caller with nothing it could not have meant.
    Only a caller nobody knows is answered 401, always with a challenge; any
    other is answered 403, with a challenge exactly when the resource
    publishes metadata. The scopes an insufficient-scope challenge names are
    exactly the required ones that are scope tokens, and neither they nor a
    metadata pointer can end the quoted string they stand in. *)
Theorem challenge_wellformed `{!ParseURL} (o : Opts) :
  (op_Outcome o = Unauthenticated -> (Write o).1 = 401%Z /\ is_Some (Write o).2) /\
  (op_Outcome o <> Unauthenticated ->
     (Write o).1 = 403%Z /\ (is_Some (Write o).2 <-> op_ResourceMetadata o <> "") /\
     (forall challenge, (Write o).2 = Some challenge -> exists rest,
        challenge = "Bearer " ++ param "error" "insufficient_scope" ++
          (if String.eqb (safeScope (op_Scopes o)) "" then ""
           else ", " ++ param "scope" (safeScope (op_Scopes o))) ++ rest /\
        (rest = "" \/ rest = ", " ++ param "resource_metadata" (op_ResourceMetadata o) /\
           all_bytes (fun c => negb (unsafe_byte c)) (op_ResourceMetadata o) = true))) /\
  Fields (safeScope (op_Scopes o)) = filter (fun s => isScopeToken s = true) (op_Scopes o) /\
  all_bytes (fun c => negb (unsafe_byte c)) (safeScope (op_Scopes o)) = true.
Proof.
  split_and!.
  - unfold Write. intros ->. split; [done|by eexists].
  - intros Hne. unfold Write. set (meta := CheckedResourceMetadata (op_ResourceMetadata o)).
    assert (meta = "" \/ meta = op_ResourceMetadata o /\
      all_bytes (fun c => negb (unsafe_byte c)) (op_ResourceMetadata o) = true) as Hmeta.
    { unfold meta, CheckedResourceMetadata, safeResourceMetadata.
      destruct (String.eqb_spec (op_ResourceMetadata o) "") as [->|]; [by left|]. cbn [orb].
      destruct (all_bytes _ _); [|by left]. cbn [negb].
      destruct (url_Parse _) as [u|]; [|by left]. destruct (negb _); [by right|by left]. }
    assert (forall x : Z * option string, (match op_Outcome o with Unauthenticated => x | _ => (403%Z,
       if String.eqb (op_ResourceMetadata o) "" then None else
       let c := "Bearer " ++ param "error" "insufficient_scope" in
       let scope := safeScope (op_Scopes o) in
       let c := if String.eqb scope "" then c else c ++ ", " ++ param "scope" scope in
       Some (if String.eqb meta "" then c else c ++ ", " ++ param "resource_metadata" meta)) end) = (403%Z,
       if String.eqb (op_ResourceMetadata o) "" then None else
       let c := "Bearer " ++ param "error" "insufficient_scope" in
       let scope := safeScope (op_Scopes o) in
       let c := if String.eqb scope "" then c else c ++ ", " ++ param "scope" scope in
       Some (if String.eqb meta "" then c else c ++ ", " ++ param "resource_metadata" meta))) as ->
      by (by destruct (op_Outcome o)).
    cbn zeta. destruct (String.eqb_spec (op_ResourceMetadata o) "") as [He|He]; cbn [fst snd].
    { split_and!; [done| |done]. split; [by intros []|done]. }
    split_and!; [done| |]. { split; [done|by eexists]. }
    intros challenge [= <-]. destruct (String.eqb (safeScope (op_Scopes o)) "").
    + destruct Hmeta as [->|[-> Hb]]; [exists ""|exists (", " ++ param "resource_metadata" (op_ResourceMetadata o))].
      * cbn [String.eqb]. split; [by rewrite ?append_assoc, ?append_nil_r|by left].
      * rewrite (proj2 (String.eqb_neq _ _) He). split; [by rewrite ?append_assoc|by right].
    + destruct Hmeta as [->|[-> Hb]]; [exists ""|exists (", " ++ param "resource_metadata" (op_ResourceMetadata o))].
      * cbn [String.eqb]. split; [by rewrite ?append_assoc, ?append_nil_r|by left].
      * rewrite (proj2 (String.eqb_neq _ _) He). split; [by rewrite ?append_assoc|by right].
  - apply safeScope_words.
  - eapply all_bytes_impl; [|apply safeScope_bytes]. intros c [Hc| ->%Ascii.eqb_eq]%orb_true_iff; [|done].
    by destruct (scope_byte_safe c Hc) as [-> _].
Qed.

(** * The account *)

Lemma add_effective_fold carried resolved : forall acc,
  foldl (add_effective carried) acc resolved =
  ((acc.1 || existsb (fun e => negb (contains_elem carried e)) resolved)%bool,
   (acc.2 ++ filter (fun e => e ∉ carried) resolved)%list).
Proof.
  induction resolved as [|e l IH]; intros [b l0]; cbn [foldl existsb].
  { by rewrite orb_false_r, app_nil_r. }
  rewrite IH, filter_cons. unfold add_effective. pose proof (contains_elem_spec carried e) as Hc.
  destruct (contains_elem carried e); cbn [fst snd negb orb].
  - rewrite decide_False by (intros Hno; apply Hno, Hc; done). done.
  - rewrite decide_True by (intros Hin; apply Hc in Hin; done). rewrite orb_true_r. cbn. by rewrite <- app_assoc.
Qed.

(** A caller is told what its account holds. The entitlements reported are
    those its credential carries followed by those it does not; the report
    says the credential carries less, and what to do about it, exactly when
    the account holds one it does not carry; and who the caller is comes from
    the credential alone. *)
Theorem whoami_tells_account (logEnabled : bool) `{!SubjectKinds} `{!Regexp} `{!JwtClaims}
    (e : Exchanger) (ac : AuthContext) res :
  whoami logEnabled (Some e) ac = Ok res ->
  let carried := stringSliceFromClaim (ac !! "entitlements") in
  let held := (resolveBindings logEnabled (ex_sp e)
    (mkSubject (str_claim ac "sub") (ContextSubjectKind e ac) SiteWhoami)).2 in
  str_claim ac "sub" <> "" /\
  wa_Entitlements res = (carried ++ filter (fun x => x ∉ carried) held)%list /\
  (forall x, x ∈ held -> x ∈ wa_Entitlements res) /\
  (wa_EntitlementsWithheld res = true <-> exists x, x ∈ held /\ x ∉ carried) /\
  (wa_Hint res <> "" <-> wa_EntitlementsWithheld res = true) /\
  wa_Identity res = (if String.eqb (str_claim ac "email") "" then str_claim ac "sub" else str_claim ac "email").
Proof.
  unfold whoami. destruct (whoamiFromAuthContext ac) as [r0|] eqn:Hw; [|done].
  unfold whoamiFromAuthContext in Hw. destruct (String.eqb_spec (str_claim ac "sub") "") as [|Hsub]; [done|].
  injection Hw as <-. destruct (resolveBindings _ _ _) as [roles held]. intros [= <-]. cbn zeta. cbn [snd].
  set (carried := stringSliceFromClaim _). split; [done|].
  assert (forall l : list string, existsb (fun e => negb (contains_elem carried e)) l = true <->
    exists x, x ∈ l /\ x ∉ carried) as Hex.
  { intros l. rewrite existsb_exists. split; intros (x & Hx & Hc); exists x.
    - apply list_elem_of_In in Hx. split; [done|]. rewrite <- contains_elem_spec. by destruct (contains_elem _ _).
    - apply list_elem_of_In in Hx. split; [done|]. apply negb_true_iff, not_true_iff_false. by rewrite contains_elem_spec. }
  unfold applyEffectiveEntitlements. destruct held as [|x l].
  { cbn. rewrite app_nil_r. split_and!; [done|by intros ? ?%elem_of_nil| |done|done].
    split; [done|]. by intros (? & ?%elem_of_nil & _). }
  cbn [wa_Entitlements wa_EntitlementsWithheld]. rewrite add_effective_fold. cbn [fst snd orb wa_Entitlements
    wa_EntitlementsWithheld wa_Hint wa_Identity].
  split_and!; [done| |by rewrite Hex| |done].
  - intros y Hy. apply elem_of_app. destruct (decide (y ∈ carried)); [by left|right].
    by apply list_elem_of_filter.
  - by destruct (existsb _ _).
Qed.

(** * Checks *)

(** The checks that pass are those that would be enforced: in the order they
    were asked, each one a resource, a name and a verb without colons that the
    checker grants the caller. *)
Theorem check_answers `{!Entitlements} scopeBuckets body ac passed :
  CheckHandler "POST" (Some body) true scopeBuckets ac = Answered passed ->
  passed `sublist_of` body /\
  forall c, c ∈ passed <-> c ∈ body /\ exists resource name verb,
    Split ":"%char c = [resource; name; verb] /\ c = resource ++ ":" ++ name ++ ":" ++ verb /\
    VerifyResourceParsedEntitlements resource name (GetParsedEntitlements scopeBuckets ac)
      (ParseRequirements []) [verb] = Ok true.
Proof.
  unfold CheckHandler. intros [= <-]. split; [apply sublist_filter|]. intros c. rewrite list_elem_of_filter.
  rewrite (and_comm _ (c ∈ body)). f_equiv. unfold check_passes.
  pose proof (Join_Split ":"%char c) as Hj.
  destruct (Split ":"%char c) as [|resource [|name [|verb [|]]]];
    try (split; [done|]; by intros (? & ? & ? & ? & _)).
  split.
  - intros Hv. exists resource, name, verb. split_and!; [done|by rewrite <- Hj|].
    destruct (VerifyResourceParsedEntitlements _ _ _ _ _) as [[]|]; done.
  - intros (? & ? & ? & [= <- <- <-] & _ & ->). done.
Qed.

(** * API tokens *)

Section PatHandlersSpec.
Context {St} `{CacheOps St} `{!CacheLaws St} `{Paseto} `{!Sha256} `{!SubjectKinds} `{!Regexp} `{!JwtClaims}
  `{!KidFooter} `{!Entitlements} `{!Durations}.

Implicit Types (hh : HostHandler St) (tm : TokenManager St) (ac : AuthContext).
Variable scopeBuckets : bool.

(** A client authenticating as itself, holding the class scope, to which the
    live lookup attributes the subject. *)
Definition provisioned hh ac (caller target : string) : Prop :=
  ClientCredentialsSubject ac = Some caller /\ HoldsScope scopeBuckets ac provisionedMintScope = true /\
  IsConfiguredClient (hh_exchanger hh) caller = true /\ NamesClient (hh_exchanger hh) target = false /\
  exists cs, ResolveSubjectClaimsLive (ga_host (hh_gate hh)) target = Ok cs /\
    str_claim (default ∅ cs) provisionedByClaim = caller.

Lemma checkProvisioned_caller hh ac caller target :
  checkProvisioned scopeBuckets hh ac caller target = provisionedByCaller <-> provisioned hh ac caller target.
Proof.
  unfold checkProvisioned, provisioned. destruct (ClientCredentialsSubject ac) as [client|].
  2: { split; [done|]. by intros (? & _). }
  destruct (String.eqb_spec client caller) as [->|Hne]; cbn [negb].
  2: { split; [done|]. intros ([= ->] & _). done. }
  destruct (HoldsScope _ _ _), (IsConfiguredClient _ _), (NamesClient _ _); cbn [negb orb];
    try (split; [done|]; by intros (_ & ? & ? & ? & _)).
  destruct (ResolveSubjectClaimsLive _ _) as [cs|].
  2: { split; [done|]. by intros (_ & _ & _ & _ & cs & ? & _). }
  destruct (String.eqb_spec (str_claim (default ∅ cs) provisionedByClaim) caller) as [Heq|Hne].
  - split; [|done]. intros _. split_and!; try done. by exists cs.
  - split; [done|]. by intros (_ & _ & _ & _ & cs' & [= <-] & ?).
Qed.

(** Who may mint. *)
Lemma mint_allowed_true hh ac caller subject :
  mint_allowed scopeBuckets hh ac caller subject = Some true <->
  may scopeBuckets ac subject (mint_verb subject caller) = Ok true \/
  (subject <> caller /\ may scopeBuckets ac subject apitokenVerbImpersonate = Ok false /\
   provisioned hh ac caller subject).
Proof.
  unfold mint_allowed, mint_verb. destruct (String.eqb_spec subject caller) as [->|Hne].
  - destruct (may _ _ _ _) as [[]|]; cbn [String.eqb]; split; try done; try (by left);
      intros [?|[? _]]; done.
  - rewrite <- checkProvisioned_caller.
    destruct (may scopeBuckets ac subject apitokenVerbImpersonate) as [[]|].
    + split; [by left|done].
    + change (String.eqb apitokenVerbImpersonate apitokenVerbImpersonate) with true. cbn iota.
      destruct (checkProvisioned _ _ _ _ _); split; try done; try (intros [?|(_ & _ & ?)]; done).
      intros _. by right.
    + split; [done|]. intros [?|(_ & ? & _)]; done.
Qed.

(** What an answered mint went through. *)
Lemma apitoken_mint_inv hh up now method ctx body token :
  apitokenMintHandler scopeBuckets hh up now method ctx body = Answered token ->
  exists ac req tm kind ttl, ctx = Some ac /\ body = Some req /\ ga_tokenManager (hh_gate hh) = Some tm /\
    mint_ttl tm (mk_TTL req) = Some ttl /\
    MintStatelessKey now tm (mk_Audience req) (mk_Sub req) kind (mk_Action req) (mk_Scope req) ttl = Ok token.
Proof.
  unfold apitokenMintHandler. destruct (negb (String.eqb method "POST")); [done|].
  destruct ctx as [ac|]; [|done]. destruct (String.eqb (subject_of ac) ""); [done|].
  destruct body as [req|]; [|done]. destruct (String.eqb (mk_Audience req) ""); [done|].
  destruct (String.eqb (mk_Sub req) ""); [done|].
  destruct (mint_allowed _ _ _ _ _) as [[]|]; [|done..]. unfold mint_key.
  destruct (ga_tokenManager (hh_gate hh)) as [tm|] eqn:Htm; [|done].
  destruct (if String.eqb _ _ then _ else None); [done|].
  destruct (mint_ttl tm (mk_TTL req)) as [ttl|] eqn:Hl; [|done].
  destruct (mint_kind _ _ _ _ _) as [kind|]; [|done].
  destruct (MintStatelessKey _ _ _ _ _ _ _ _) as [t|e] eqn:Hmint; [|by destruct e].
  intros [= <-]. exists ac, req, tm, kind, ttl. done.
Qed.

(** C14: An API token is minted only by who may mint it, and as what its subject
    is. A token answered was asked for by a caller with a subject; for itself,
    with the right to mint and a credential no revocation of the subject
    postdates, and then it records the caller's own kind; for another subject,
    with the right to impersonate exactly that subject, or by the configured
    client the live lookup names as its provisioner, and then it records what
    the subject is now, a kind the veto accepts, and never a client's when
    the subject was provisioned. It is the manager's token for that audience
    and subject, and lives no longer than the host allows. *)
Theorem apitoken_mint_authorized hh up now method ctx body token :
  apitokenMintHandler scopeBuckets hh up now method ctx body = Answered token ->
  exists ac req tm kind ttl, let caller := subject_of ac in
    ctx = Some ac /\ body = Some req /\ ga_tokenManager (hh_gate hh) = Some tm /\
    caller <> "" /\ mk_Sub req <> "" /\ mk_Audience req <> "" /\
    MintStatelessKey now tm (mk_Audience req) (mk_Sub req) kind (mk_Action req) (mk_Scope req) ttl = Ok token /\
    (0 < tm_maxTTL tm -> ttl <= tm_maxTTL tm)%Z /\
    (mk_Sub req = caller /\ may scopeBuckets ac caller "mint" = Ok true /\
       mintFromRevokedCredential hh up now ac = None /\ kind = ContextSubjectKind (hh_exchanger hh) ac \/
     mk_Sub req <> caller /\ kind = SubjectKindOf (hh_exchanger hh) (mk_Sub req) /\
       VetoCredential (hh_exchanger hh) (mk_Sub req) kind (unix now) SiteAPITokenMint = Ok () /\
       (may scopeBuckets ac (mk_Sub req) apitokenVerbImpersonate = Ok true \/
        provisioned hh ac caller (mk_Sub req) /\ kind = SubjectKindUser)).
Proof.
  unfold apitokenMintHandler. destruct (negb (String.eqb method "POST")); [done|].
  destruct ctx as [ac|]; [|done]. destruct (String.eqb_spec (subject_of ac) "") as [|Hcaller]; [done|].
  destruct body as [req|]; [|done]. destruct (String.eqb_spec (mk_Audience req) "") as [|Haud]; [done|].
  destruct (String.eqb_spec (mk_Sub req) "") as [|Hsub]; [done|].
  destruct (mint_allowed _ _ _ _ _) as [[]|] eqn:Hallowed; [|done..].
  apply mint_allowed_true in Hallowed. unfold mint_key.
  destruct (ga_tokenManager (hh_gate hh)) as [tm|] eqn:Htm; [|done].
  destruct (if String.eqb _ _ then _ else None) eqn:Hrev; [done|].
  destruct (mint_ttl tm (mk_TTL req)) as [ttl|]; [|done].
  destruct (mint_kind _ _ _ _ _) as [kind|] eqn:Hkind; [|done].
  destruct (MintStatelessKey _ _ _ _ _ _ _ _) as [t|e] eqn:Hmint; [|by destruct e].
  intros [= <-]. exists ac, req, tm, kind, ttl. split_and!; try done.
  - intros Hmax. unfold MintStatelessKey in Hmint. destruct (String.eqb _ ""); [done|].
    destruct (negb (Known kind)); [done|]. destruct (_ && _)%bool eqn:Hm; [done|].
    apply andb_false_iff in Hm as [Hm|Hm]; bool_to_prop; lia.
  - unfold mint_kind, mint_verb in *. destruct (String.eqb_spec (mk_Sub req) (subject_of ac)) as [Heq|Hne].
    + left. injection Hkind as <-. rewrite <- Heq. split_and!; try done.
      destruct Hallowed as [?|(? & _)]; [by rewrite Heq in * |done].
    + right. destruct (VetoCredential _ _ _ _ _) as [[]|] eqn:Hveto; [|done]. injection Hkind as <-.
      split_and!; try done. destruct Hallowed as [?|(_ & _ & Hp)]; [by left|right]. split; [done|].
      destruct Hp as (_ & _ & _ & Hn & _). unfold SubjectKindOf. by rewrite Hn.
Qed.

(** Tokens are revoked only by their subject or by who may revoke them. A
    revocation answered is about the caller's own subject, or about a subject
    the caller may revoke any token of; anything else is refused and leaves
    the stores as they were. What is recorded is what was asked: the token's
    jti, the named audience, subject and action, or the whole subject, which
    [all] takes alone. *)
Theorem apitoken_revoke_authorized hh up now method ctx body a out :
  apitokenRevokeHandler scopeBuckets hh up now method ctx body = (a, out) ->
  (forall x, a <> Answered x) /\ out = ga_tokenManager (hh_gate hh) \/
  exists ac req tm m' target, a = Answered "revoked" /\ ctx = Some ac /\ body = Some req /\
    ga_tokenManager (hh_gate hh) = Some tm /\ out = Some m' /\ subject_of ac <> "" /\
    (target = subject_of ac \/ may scopeBuckets ac target apitokenVerbRevokeAny = Ok true) /\
    (rv_All req = true /\ rv_Token req = "" /\ rv_Audience req = "" /\ target = rv_Sub req /\
       RevokeSubject now target (revoke_ttl (rv_TTL req)) tm = Ok m' \/
     rv_All req = false /\ rv_Token req <> "" /\ RevokeToken now (rv_Token req) tm = Ok m' /\
       (exists data, ValidateToken up now tm (rv_Token req) "" = Ok data /\ target = Subject data) \/
     rv_All req = false /\ rv_Token req = "" /\ target = rv_Sub req /\
       RevokeByMetadata now (rv_Audience req) target (rv_Action req) (revoke_ttl (rv_TTL req)) tm = Ok m').
Proof.
  intros Hr. unfold apitokenRevokeHandler in Hr.
  assert (forall b, (forall x, b <> Answered x) -> (b, ga_tokenManager (hh_gate hh)) = (a, out) ->
    (forall x, a <> Answered x) /\ out = ga_tokenManager (hh_gate hh)) as Hstop by (by intros b Hb [= <- <-]).
  destruct (negb (String.eqb method "POST")); [left; by eapply Hstop; [|exact Hr]|].
  destruct ctx as [ac|]; [|left; by eapply Hstop; [|exact Hr]].
  destruct (String.eqb_spec (subject_of ac) "") as [|Hcaller]; [left; by eapply Hstop; [|exact Hr]|].
  destruct body as [req|]; [|left; by eapply Hstop; [|exact Hr]].
  destruct (ga_tokenManager (hh_gate hh)) as [tm|] eqn:Htm; [|left; by eapply Hstop; [|exact Hr]].
  destruct (revoke_target up now tm req) as [target|message] eqn:Ht; [|left; by eapply Hstop; [|exact Hr]].
  destruct (if String.eqb target (subject_of ac) then true else _) eqn:Hauth; cbn [negb] in Hr;
    [|left; by eapply Hstop; [|exact Hr]].
  destruct (revoke_request now tm req) as [m'|message] eqn:Hq; [|left; by eapply Hstop; [|exact Hr]].
  injection Hr as <- <-. right. exists ac, req, tm, m', target. split_and!; try done.
  - destruct (String.eqb_spec target (subject_of ac)); [by left|right].
    destruct (may _ _ _ _) as [[]|]; done.
  - unfold revoke_target in Ht. unfold revoke_request in Hq. destruct (rv_All req).
    + left. destruct (_ || _)%bool eqn:Hb; [done|]. injection Ht as <-.
      rewrite !orb_false_iff, !negb_false_iff, !String.eqb_eq in Hb. destruct Hb as [[[_ Ha] _] Htok].
      rewrite Htok in Hq. cbn [String.eqb negb] in Hq.
      destruct (RevokeSubject _ _ _ _) eqn:He; [|done]. injection Hq as <-. split_and!; done.
    + right. destruct (String.eqb_spec (rv_Token req) "") as [Htok|Htok]; cbn [negb] in Ht, Hq.
      * right. destruct (_ && _)%bool; [|done]. injection Ht as <-.
        destruct (RevokeByMetadata _ _ _ _ _ _) eqn:He; [|done]. injection Hq as <-. split_and!; done.
      * left. destruct (ValidateToken _ _ _ _ _) as [data|] eqn:Hv; [|done]. injection Ht as <-.
        destruct (RevokeToken _ _ _) eqn:He; [|done]. injection Hq as <-. split_and!; try done. by exists data.
Qed.

(** Revoking a subject ends every key it was ever given here. Once a
    revocation of a whole subject is answered, no token the mint endpoint
    answered for that subject up to then, for whatever audience and action,
    recorded or not, and whatever was revoked before, validates again, for any
    audience. *)
Theorem subject_revocation_final hh up now method ctx req tm tm' hh0 s0 l0
    up0 now0 ctx0 mreq signed up1 now1 eaud data :
  apitokenRevokeHandler scopeBuckets hh up now method ctx (Some req) = (Answered "revoked", Some tm') ->
  rv_All req = true -> ga_tokenManager (hh_gate hh) = Some tm -> wf_tm tm ->
  apitokenMintHandler scopeBuckets hh0 up0 now0 "POST" ctx0 (Some mreq) = Answered signed ->
  ga_tokenManager (hh_gate hh0) = Some (with_stores s0 l0 tm) -> mk_Sub mreq = rv_Sub req ->
  (0 <= now0 <= now)%Z -> (now <= maxDuration)%Z ->
  (0 < tm_maxTTL tm \/ forall d, ParseDuration (mk_TTL mreq) = Some d -> d <= RevocationHorizon)%Z ->
  ValidateToken up1 now1 tm' signed eaud <> Ok data.
Proof.
  intros Hrev Hall Htm Hwf Hmint Htm0 Hsub Hnow Hmax Hlife.
  destruct (apitoken_mint_inv _ _ _ _ _ _ _ Hmint) as (ac & mreq' & tm0 & kind & ttl & _ & [= <-] & Htm0' & Ht & Hm).
  rewrite Htm0 in Htm0'. injection Htm0' as <-.
  assert (0 < tm_maxTTL tm \/ ttl <= RevocationHorizon)%Z as Hbound.
  { destruct Hlife as [?|Hd]; [by left|right]. unfold mint_ttl in Ht. destruct (String.eqb (mk_TTL mreq) "").
    - injection Ht as <-. unfold CapTTL. destruct (_ && _)%bool eqn:Hb; [|done].
      apply andb_true_iff in Hb as [_ Hb%Z.ltb_lt]. cbn [tm_maxTTL with_stores] in *.
      unfold RevocationHorizon. unfold hour, minute, second in *. lia.
    - destruct (ParseDuration (mk_TTL mreq)) as [d|]; [|done]. cbn in Ht. destruct (d <=? 0)%Z; [done|].
      injection Ht as <-. by apply Hd. }
  change (MintStatelessKey now0 tm (mk_Audience mreq) (mk_Sub mreq) kind (mk_Action mreq) (mk_Scope mreq) ttl = Ok signed) in Hm.
  unfold apitokenRevokeHandler in Hrev. rewrite Htm in Hrev.
  destruct (negb (String.eqb method "POST")); [done|]. destruct ctx as [ac1|]; [|done].
  destruct (String.eqb (subject_of ac1) ""); [done|]. unfold revoke_target, revoke_request in Hrev.
  rewrite Hall in Hrev. destruct (_ || _)%bool eqn:Hb; [done|].
  rewrite !orb_false_iff, !negb_false_iff, !String.eqb_eq in Hb. destruct Hb as [_ Htok].
  rewrite Htok in Hrev. cbn [String.eqb negb] in Hrev. destruct (negb _); [done|].
  unfold RevokeSubject in Hrev. destruct (tm_revocationCache tm) as [s|] eqn:Hs; [|done].
  injection Hrev as <-.
  eapply (revocation_refuses up1 now0 now); try done; [right; by rewrite Hsub|].
  apply recordRevocation_holds. lia.
Qed.
End PatHandlersSpec.

(** * Witnesses *)

#[local] Existing Instance kindsExample.
#[local] Existing Instance jwtExample.
#[local] Existing Instance noRegexp.
#[local] Existing Instance sha256Example.
#[local] Existing Instance kidFooterExample.
#[local] Existing Instance timeExample.
#[local] Existing Instance pasetoExample.
#[local] Existing Instance bearerEntitlements.

#[local] Instance oneHour : Durations :=
  {| ParseDuration s := if String.eqb s "1h" then Some hour else None |}.

Definition aliceContext : AuthContext :=
  <["entitlements" := VStrs ["apitokens:alice:mint"; "apitokens:bob:impersonate"]]> $
  <["iat" := VNum 1]> $ <[ClaimSubjectKind := VStr "User"]> {[ "sub" := VStr "alice" ]}.

Definition mintFor (sub : string) : MintRequest := mkMintKey "mcp" "https://api" "read" sub "1h".

Definition mintedFor (sub : string) : answer mint_failure string :=
  apitokenMintHandler false exampleHandler (fun _ => true) (5 * second) "POST" (Some aliceContext)
    (Some (mintFor sub)).

Definition signed_of {E} (a : answer E string) : string := match a with Answered t => t | _ => "" end.

Lemma minted_for_bob : mintedFor "bob" = Answered (signed_of (mintedFor "bob")).
Proof. vm_compute. reflexivity. Qed.

Lemma minted_for_alice : mintedFor "alice" = Answered (signed_of (mintedFor "alice")).
Proof. vm_compute. reflexivity. Qed.

(** Alice may impersonate bob, and not carol; what she mints for bob is a
    user's. *)
Lemma apitoken_mint_authorized_witness :
  (exists kind, kind = SubjectKindOf (hh_exchanger exampleHandler) "bob" /\ kind = "User") /\
  mintedFor "carol" = DeniedWith (mkOpts NoIdentity "https://host" "" []).
Proof.
  split; [|vm_compute; reflexivity].
  destruct (apitoken_mint_authorized false exampleHandler (fun _ => true) (5 * second) "POST" (Some aliceContext)
    (Some (mintFor "bob")) _ minted_for_bob) as (ac & req & tm & kind & ttl & [= <-] & [= <-] & _ & _ & _ & _ & _ & _ & Hwho).
  exists kind. destruct Hwho as [(Heq & _)|(_ & Hk & _)]; [vm_compute in Heq; discriminate Heq|].
  split; [exact Hk|]. rewrite Hk. reflexivity.
Defined.

Definition revokeAlice : RevokeRequest := mkRevoke "" true "" "alice" "" "".

Definition revoked : answer string string * option (TokenManager mapStore) :=
  apitokenRevokeHandler false exampleHandler (fun _ => true) (9 * second) "POST" (Some aliceContext)
    (Some revokeAlice).

Lemma revoked_ok : revoked = (Answered "revoked", Some (default exampleTM revoked.2)).
Proof.
  assert (revoked.1 = Answered "revoked" /\ found revoked.2 = true) as [Ha Hf] by (split; vm_compute; reflexivity).
  destruct revoked as [a [m|]]; [|discriminate Hf]. simpl in Ha |- *. by rewrite Ha.
Qed.

Lemma apitoken_revoke_authorized_witness :
  (exists ac target, Some aliceContext = Some ac /\
     (target = subject_of ac \/ may false ac target apitokenVerbRevokeAny = Ok true)) /\
  (apitokenRevokeHandler false exampleHandler (fun _ => true) (9 * second) "POST" (Some aliceContext)
     (Some (mkRevoke "" true "" "bob" "" ""))).1 = DeniedWith (mkOpts NoIdentity "https://host" "" []).
Proof.
  split; [|vm_compute; reflexivity].
  destruct (apitoken_revoke_authorized false exampleHandler (fun _ => true) (9 * second) "POST" (Some aliceContext)
    (Some revokeAlice) _ _ revoked_ok) as [[Hno _]|(ac & req & tm & m' & target & _ & Hc & _ & _ & _ & _ & Hw & _)].
  - exfalso. exact (Hno "revoked" eq_refl).
  - exists ac, target. split; [exact Hc|exact Hw].
Defined.

(** The token minted at 5 s validates at 6 s and never after the revocation
    at 9 s. *)
Lemma subject_revocation_final_witness :
  (exists data, ValidateToken (fun _ => true) (6 * second) exampleTM (signed_of (mintedFor "alice")) "https://api" =
     Ok data) /\
  forall data, ValidateToken (fun _ => true) (10 * second) (default exampleTM revoked.2)
    (signed_of (mintedFor "alice")) "https://api" <> Ok data.
Proof.
  split; [eexists; vm_compute; reflexivity|]. intros data.
  apply (subject_revocation_final false exampleHandler (fun _ => true) (9 * second) "POST" (Some aliceContext)
    revokeAlice exampleTM (default exampleTM revoked.2) exampleHandler (Some (emptyStore hour)) None
    (fun _ => true) (5 * second) (Some aliceContext) (mintFor "alice")).
  - exact revoked_ok.
  - reflexivity.
  - reflexivity.
  - exact exampleTM_wf.
  - exact minted_for_alice.
  - reflexivity.
  - reflexivity.
  - unfold second. lia.
  - unfold second, maxDuration. lia.
  - left. reflexivity.
Defined.

(** * Open registration *)

Module Registration.
(** * A token bucket *)

(** Tokens in units of a thousandth of a second's refill, and when they were
    last counted; the limiter starts full. *)
Record bucket := mkBucket { bk_rate : Z; bk_burst : Z; bk_tokens : Z; bk_last : option Z }.

Definition refill (t : Z) (b : bucket) : Z :=
  match bk_last b with
  | None => bk_burst b * rate_unit
  | Some last => Z.min (bk_burst b * rate_unit) (bk_tokens b + bk_rate b * (t - last))
  end.

Definition bucketOps : RateOps := {|
  Limiter := bucket;
  NewLimiter rate burst := mkBucket rate burst (burst * rate_unit) None;
  Allow t b :=
    let tokens := refill t b in
    if (rate_unit <=? tokens)%Z then (true, mkBucket (bk_rate b) (bk_burst b) (tokens - rate_unit) (Some t))
    else (false, mkBucket (bk_rate b) (bk_burst b) tokens (Some t));
|}.

Lemma bucket_admits (ts : list Z) : forall rate burst tokens last tn, (0 <= rate)%Z -> (0 <= burst)%Z ->
  StronglySorted Z.le (last :: ts) -> Forall (fun t => t <= tn)%Z ts -> (last <= tn)%Z -> (0 <= tokens)%Z ->
  (Z.of_nat (@admitted bucketOps ts (mkBucket rate burst tokens (Some last))) * rate_unit <=
   tokens + rate * (tn - last))%Z.
Proof.
  induction ts as [|t ts IH]; intros rate burst tokens last tn Hr Hb Hs Hle Hln Htok; [cbn; nia|].
  apply StronglySorted_inv in Hs as [Hs Hall]. apply Forall_cons in Hall as [Hlt _].
  apply Forall_cons in Hle as [Ht Hle]. cbn [admitted Allow bucketOps]. unfold refill.
  cbn [bk_last bk_burst bk_tokens bk_rate].
  set (k := Z.min (burst * rate_unit) (tokens + rate * (t - last))).
  assert (0 < rate_unit)%Z as Hu by done.
  assert (0 <= k <= tokens + rate * (t - last))%Z as Hk by (unfold k; nia).
  destruct (Z.leb_spec rate_unit k) as [Hge|Hlt'].
  - pose proof (IH rate burst (k - rate_unit)%Z t tn Hr Hb Hs Hle Ht ltac:(lia)) as HI.
    cbn [Nat.add]. rewrite Nat2Z.inj_succ. nia.
  - pose proof (IH rate burst k t tn Hr Hb Hs Hle Ht ltac:(lia)) as HI. cbn [Nat.add]. nia.
Qed.

Lemma bucket_bound rate burst t0 tn ts :
  (0 <= rate)%Z -> (0 <= burst)%Z -> StronglySorted Z.le ts -> Forall (fun t => t0 <= t <= tn)%Z ts ->
  (Z.of_nat (@admitted bucketOps ts (@NewLimiter bucketOps rate burst)) * rate_unit <=
   burst * rate_unit + rate * Z.max 0 (tn - t0))%Z.
Proof.
  intros Hr Hb Hs Hall. destruct ts as [|t ts].
  { assert (0 < rate_unit)%Z by done. cbn. nia. }
  apply StronglySorted_inv in Hs as [Hs Hle]. apply Forall_cons in Hall as [Ht Hall].
  cbn [admitted NewLimiter Allow bucketOps]. unfold refill. cbn [bk_last bk_burst bk_tokens bk_rate].
  assert (Forall (fun x => x <= tn)%Z ts) as Hle' by (eapply Forall_impl; [exact Hall|]; cbn; lia).
  assert (StronglySorted Z.le (t :: ts)) as Hs' by (by constructor).
  assert (0 < rate_unit)%Z as Hu by done.
  destruct (Z.leb_spec rate_unit (burst * rate_unit)) as [Hge|Hlt].
  - pose proof (bucket_admits ts rate burst (burst * rate_unit - rate_unit) t tn Hr Hb Hs' Hle' ltac:(lia) ltac:(lia)) as HI.
    cbn [Nat.add]. rewrite Nat2Z.inj_succ. nia.
  - pose proof (bucket_admits ts rate burst (burst * rate_unit) t tn Hr Hb Hs' Hle' ltac:(lia) ltac:(nia)) as HI.
    cbn [Nat.add]. nia.
Qed.

Definition bucketExample : @RateLimiter bucketOps := @Build_RateLimiter bucketOps bucket_bound.

(** * The endpoint *)

Section RegisterSpec.
Context `{RateLimiter} {St} `{CacheOps St} `{!CacheSafe St} `{!JSON Client} `{!ParseURL}.

(** A request: when, from where, with what, and what it meets. *)
Record register_event := mkEvent {
  ev_now : Z; ev_ip : string; ev_body : option registerRequest; ev_rnd : string; ev_up : bool }.

Fixpoint register_run (schemes : list string) (l : list register_event) (rl : option registerLimiter)
    (s : DCRStore St) : list register_answer :=
  match l with
  | [] => []
  | e :: l =>
      let '(a, rl, s) := oauthRegisterHandler schemes (ev_up e) (ev_now e) (ev_rnd e) (ev_ip e) (ev_body e) rl s in
      a :: register_run schemes l rl s
  end.

Definition not_limited (a : register_answer) : bool := match a with RateLimited _ => false | _ => true end.

(** The address check leaves the global bucket alone. *)
Lemma allowIP_global now ip rl : rl_global (allowIP now ip rl).2 = rl_global rl.
Proof.
  unfold allowIP. destruct (String.eqb ip ""); [done|]. destruct (Allow now _) as [b l]. cbn.
  unfold gc. by destruct (_ <? _)%Z.
Qed.

(** One request takes a turn of the global bucket, or none. *)
Lemma handler_limits schemes up now rnd ip body rl s a rl' s' :
  oauthRegisterHandler schemes up now rnd ip body (Some rl) s = (a, rl', s') ->
  exists r, rl' = Some r /\
    (not_limited a = false /\ rl_global r = rl_global rl \/
     Allow now (rl_global rl) = (not_limited a, rl_global r)).
Proof.
  unfold oauthRegisterHandler, limit_registration. pose proof (allowIP_global now ip rl) as Hg.
  destruct (allowIP now ip rl) as [ok r1]. cbn [snd] in Hg. destruct ok; cbn [negb].
  2: { intros [= <- <- <-]. exists r1. split; [done|by left]. }
  unfold allowGlobal. rewrite Hg. destruct (Allow now (rl_global rl)) as [ok l]. destruct ok; cbn [negb].
  2: { intros [= <- <- <-]. eexists. split; [done|by right]. }
  destruct body as [req|].
  2: { intros [= <- <- <-]. eexists. split; [done|by right]. }
  unfold registration.
  destruct (_ =? 0)%nat; [intros [= <- <- <-]; eexists; (split; [done|by right])|].
  destruct (_ =? 0)%nat; [intros [= <- <- <-]; eexists; (split; [done|by right])|].
  destruct (_ =? 0)%nat; [intros [= <- <- <-]; eexists; (split; [done|by right])|].
  destruct (Register up now rnd _ s) as [[c|e] s1]; intros [= <- <- <-]; eexists; (split; [done|by right]).
Qed.

Lemma register_run_admits schemes l : forall rl s,
  exists ts, ts `sublist_of` (ev_now <$> l) /\
    length (filter (fun a => not_limited a = true) (register_run schemes l (Some rl) s)) = admitted ts (rl_global rl).
Proof.
  induction l as [|e l IH]; intros rl s; cbn [register_run]; [by exists []|].
  destruct (oauthRegisterHandler _ _ _ _ _ _ _ _) as [[a rl'] s'] eqn:Ha.
  destruct (handler_limits _ _ _ _ _ _ _ _ _ _ _ Ha) as (r & -> & Hcase).
  destruct (IH r s') as (ts & Hsub & Hn). rewrite filter_cons. destruct Hcase as [[Hno Hg]|Hal].
  - exists ts. rewrite Hno, decide_False by done. rewrite Hn, Hg. split; [by apply sublist_cons|done].
  - exists (ev_now e :: ts). split; [by apply sublist_skip|]. cbn [admitted]. rewrite Hal, <- Hn.
    destruct (not_limited a); [by rewrite decide_True|by rewrite decide_False].
Qed.

(** Open registration has a ceiling nobody can talk their way past. Over any
    requests in time order between two instants, from any addresses, claimed
    or real, with any bodies, the number the endpoint looks at at all, so the
    number it can register, is at most the host's burst (ten, or the smaller
    number of clients it is configured for) and one more for each second that
    passes. *)
Theorem registration_throughput schemes maxClients l s t0 tn :
  StronglySorted Z.le (ev_now <$> l) -> Forall (fun e => t0 <= ev_now e <= tn)%Z l ->
  let n := length (filter (fun a => not_limited a = true)
    (register_run schemes l (Some (newRegisterLimiter maxClients)) s)) in
  (1 <= register_burst maxClients <= 10)%Z /\ (0 < maxClients -> register_burst maxClients <= maxClients)%Z /\
  (Z.of_nat n * second <= register_burst maxClients * second + Z.max 0 (tn - t0))%Z.
Proof.
  intros Hs Hall. cbn zeta. assert (1 <= register_burst maxClients <= 10)%Z as Hb.
  { unfold register_burst, globalRegisterBurst. destruct (_ && _)%bool eqn:Hm.
    - apply andb_true_iff in Hm as [?%Z.ltb_lt ?%Z.ltb_lt]. destruct (Z.ltb_spec maxClients 1); lia.
    - change (10 <? 1)%Z with false. cbn iota. lia. }
  split; [done|]. split.
  { intros Hm. unfold register_burst, globalRegisterBurst. rewrite (proj2 (Z.ltb_lt 0 maxClients)) by done.
    destruct (Z.ltb_spec maxClients 10); cbn [andb]; [|cbn; lia]. destruct (Z.ltb_spec maxClients 1); lia. }
  destruct (register_run_admits schemes l (newRegisterLimiter maxClients) s) as (ts & Hsub & ->).
  assert (StronglySorted Z.le ts /\ Forall (fun t => t0 <= t <= tn)%Z ts) as [Hts Hfts].
  { assert (Forall (fun t => t0 <= t <= tn)%Z (ev_now <$> l)) as Hf by (by apply Forall_fmap).
    clear Hall. induction Hsub as [|x l1 l2 Hsub IH|x l1 l2 Hsub IH].
    - done.
    - apply StronglySorted_inv in Hs as [Hs Hx]. apply Forall_cons in Hf as [Hfx Hf].
      destruct (IH Hs Hf) as [? ?]. split; [|by constructor]. constructor; [done|].
      rewrite Forall_forall in Hx |- *. intros y Hy. apply Hx. by eapply elem_of_sublist.
    - apply StronglySorted_inv in Hs as [Hs _]. apply Forall_cons in Hf as [_ Hf]. by apply IH. }
  pose proof (Allow_bound globalRegisterRate (register_burst maxClients) t0 tn ts) as Hbd.
  specialize (Hbd ltac:(done)). specialize (Hbd (Z.le_trans _ _ _ Z.le_0_1 (proj1 Hb)) Hts Hfts).
  cbn [rl_global newRegisterLimiter]. unfold rate_unit in Hbd. change globalRegisterRate with 1000%Z in *. unfold second in *. lia.
Qed.

(** What is registered, whoever asked and whatever for, is a public client
    within policy: its redirects are ones the request listed and the policy
    allows, its grants are the redirect-based ones, it answers with codes
    alone and holds no secret, its identifier is the host's; and it is in the
    store under that identifier. A request that keeps no redirect or no grant
    registers nothing. *)
Theorem registered_client_confined schemes up now rnd ip body rl s c rl' s' :
  oauthRegisterHandler schemes up now rnd ip body rl s = (Created c, rl', s') ->
  exists req, body = Some req /\ dc_ClientID c = newClientID rnd /\ dc_CreatedAt c = unix now /\
    dc_RedirectURIs c <> [] /\
    Forall (fun u => u ∈ rg_RedirectURIs req /\ redirectAllowed u schemes = true) (dc_RedirectURIs c) /\
    dc_GrantTypes c <> [] /\ dc_GrantTypes c ⊆ SupportedGrantTypes /\ dc_ResponseTypes c = ["code"] /\
    dc_TokenEndpointAuthMethod c = "none" /\
    cabs (ds_cache s') !! dc_ClientID c = Some (Marshal c, now + ds_ttl s)%Z.
Proof.
  unfold oauthRegisterHandler. destruct (match rl with Some r => _ | None => _ end) as [[limited|] rl1]; [done|].
  destruct body as [req|]; [|done]. unfold registration.
  destruct (length (rg_RedirectURIs req) =? 0)%nat; [done|].
  destruct (length (FilterRedirectURIs (rg_RedirectURIs req) schemes) =? 0)%nat eqn:Hr; [done|].
  destruct (length (FilterGrantTypes (rg_GrantTypes req)) =? 0)%nat eqn:Hg; [done|].
  unfold Register. destruct up; [|done]. cbn. intros [= <- <- <-]. exists req. cbn.
  split_and!; try done.
  - intros He. by rewrite He in Hr.
  - apply Forall_forall. intros u Hu. unfold FilterRedirectURIs in Hu.
    apply elem_of_keep_distinct in Hu as [?%elem_of_nil|?]; [done|done].
  - intros He. by rewrite He in Hg.
  - unfold FilterGrantTypes. destruct (rg_GrantTypes req) as [|g l]; [done|]. intros x Hx.
    apply elem_of_keep_distinct in Hx as [?%elem_of_nil|[_ Hx]]; [done|]. by apply contains_elem_spec.
  - rewrite cSet_at. done.
Qed.

(** An address that went quiet is forgotten at the next collection, and the
    map never holds an entry idle for longer than both intervals after one. *)
Lemma gc_forgets now rl ip e :
  (perIPEvictionInterval <= time_sub now (rl_lastGC rl))%Z -> rl_perIP (gc now rl) !! ip = Some e ->
  rl_perIP rl !! ip = Some e /\ (time_sub now (ip_lastSeen e) <= perIPEvictionMaxIdleTime)%Z.
Proof.
  intros Hi. unfold gc. rewrite (proj2 (Z.ltb_ge _ _) Hi). cbn.
  intros [Hl Hk]%map_lookup_filter_Some. done.
Qed.
End RegisterSpec.

(** * Witnesses *)

#[local] Existing Instance bucketOps.
#[local] Existing Instance bucketExample.
#[local] Existing Instance parseExample.
#[local] Existing Instance MintSpec.clientJSON.

Definition askFor (uris grants : list string) : option registerRequest := Some (mkRegister uris grants "" "app").

Definition emptyClients : DCRStore mapStore := mkDCRStore (emptyStore hour) (24 * hour) 0.

(** Three at once on a host of two clients, from three addresses. *)
Definition crowd : list register_event :=
  (fun ip => mkEvent 5 ip (askFor ["https://app/cb"] []) "rnd" true) <$> ["10.0.0.1"; "10.0.0.2"; "10.0.0.3"].

Lemma registration_throughput_witness :
  (length (filter (fun a => not_limited a = true)
    (register_run DefaultRedirectSchemes crowd (Some (newRegisterLimiter 2)) emptyClients)) = 2)%nat /\
  (register_burst 2 <= 2)%Z.
Proof.
  split; [vm_compute; reflexivity|].
  destruct (registration_throughput DefaultRedirectSchemes 2 crowd emptyClients 5 5) as (_ & Hm & _).
  - repeat constructor; cbn; lia.
  - repeat constructor; cbn; lia.
  - apply Hm. lia.
Defined.

Definition appCreated :=
  oauthRegisterHandler DefaultRedirectSchemes true 5 "rnd" "10.0.0.1"
    (askFor ["https://app/cb"; "javascript:x"] ["password"; "refresh_token"]) None emptyClients.

Definition createdApp : Client :=
  mkClient (newClientID "rnd") ["https://app/cb"] ["refresh_token"] ["code"] "" "app" "none" 0.

Lemma appCreated_ok : appCreated = (Created createdApp, appCreated.1.2, appCreated.2).
Proof.
  assert (appCreated.1.1 = Created createdApp) as He by (vm_compute; reflexivity).
  by destruct appCreated as [[a rl] s]; cbn in He; rewrite He.
Qed.

Lemma registered_client_confined_witness :
  dc_GrantTypes createdApp ⊆ SupportedGrantTypes.
Proof.
  destruct (registered_client_confined DefaultRedirectSchemes true 5 "rnd" "10.0.0.1"
    (askFor ["https://app/cb"; "javascript:x"] ["password"; "refresh_token"]) None emptyClients _ _ _ appCreated_ok)
    as (req & _ & _ & _ & _ & _ & _ & Hg & _). exact Hg.
Defined.
End Registration.
