(* ===== verification/Rewrite.v ===== *)
(** Rewrite pages (src/internal/rewrite/rewrite.go, src/internal/host/rewrite.go):
    an alias's path template filled with the request's values, the dispatch to
    the target with its redirects followed inside the host, and the headers
    the alias puts on the target's response. *)
From S2P Require Import Prelude GoStr Url.
From Stdlib Require Import Ascii.

#[local] Open Scope string_scope.

(** * Wildcards (rewrite.go) *)

Definition name_start (c : ascii) : bool :=
  let n := N_of_ascii c in
  (((65 <=? n) && (n <=? 90)) || ((97 <=? n) && (n <=? 122)) || (n =? 95))%N%bool.

Definition name_byte (c : ascii) : bool :=
  let n := N_of_ascii c in (name_start c || ((48 <=? n) && (n <=? 57)))%N%bool.

(** The longest prefix of such bytes, and the rest. *)
Fixpoint span (p : ascii -> bool) (s : string) : string * string :=
  match s with
  | "" => ("", "")
  | String c t => if p c then let '(a, b) := span p t in (String c a, b) else ("", s)
  end.

(** A template as [wildcardRE] splits it: its bytes, and the wildcards
    [{name}] and [{name...}]. *)
Inductive token := Lit (c : ascii) | Wild (name : string) (multi : bool).

(** A match at a brace: what follows it. *)
Definition wildcard_at (s : string) : option (string * bool * string) :=
  match s with
  | String c _ =>
      if name_start c then
        let '(name, rest) := span name_byte s in
        match CutPrefix rest "...}" with
        | Some r => Some (name, true, r)
        | None => match CutPrefix rest "}" with Some r => Some (name, false, r) | None => None end
        end
      else None
  | "" => None
  end.

(** The leftmost matches, left to right; [n] bounds the length left. *)
Fixpoint tokens_n (n : nat) (s : string) : list token :=
  match n, s with
  | S n, String c rest =>
      if Ascii.eqb c "{" then
        match wildcard_at rest with
        | Some (name, multi, r) => Wild name multi :: tokens_n n r
        | None => Lit c :: tokens_n n rest
        end
      else Lit c :: tokens_n n rest
  | _, _ => []
  end.

Definition tokens (s : string) : list token := tokens_n (String.length s) s.

Definition wildcards (s : string) : list (string * bool) :=
  omap (fun t => match t with Wild name multi => Some (name, multi) | Lit _ => None end) (tokens s).

Definition Placeholders (tmpl : string) : list string := (wildcards tmpl).*1.

Definition UnknownPlaceholders (tmpl patternPath : string) : list string :=
  filter (fun name => name ∉ Placeholders patternPath) (Placeholders tmpl).

(** The first wildcard of that name decides. *)
Definition multiSegment (patternPath name : string) : bool :=
  match list_find (fun w => w.1 = name) (wildcards patternPath) with
  | Some (_, (_, multi)) => multi
  | None => false
  end.

(** * Targets *)

Inductive rewrite_error := ErrUnsafe | ErrNotFound.

Definition safe (p : string) : bool :=
  if Contains p "//" then false
  else forallb (fun seg => negb (String.eqb seg "." || String.eqb seg "..")) (Split "/" p).

(** A token's text; an empty value is filled when only its emptiness is in
    question. *)
Definition token_text (fillEmpty : bool) (value : string -> string) (t : token) : string :=
  match t with
  | Lit c => String c ""
  | Wild name _ => let v := value name in if (String.eqb v "" && fillEmpty)%bool then "x" else v
  end.

Definition concat_text (l : list string) : string := foldr String.append "" l.

Definition build (fillEmpty : bool) (value : string -> string) (basePath tmpl : string) : string :=
  TrimSuffix basePath "/" ++ "/" ++
  concat_text (token_text fillEmpty value <$> tokens (TrimPrefix tmpl "/")).

(** Some single-segment value holds a slash. *)
Definition spans (value : string -> string) (patternPath tmpl : string) : bool :=
  existsb (fun name => Contains (value name) "/" && negb (multiSegment patternPath name))%bool
    (Placeholders (TrimPrefix tmpl "/")).

Definition Target (basePath exact tmpl patternPath : string) (value : string -> string)
    : result rewrite_error string :=
  if String.eqb tmpl "" then Ok exact else
  let p := build false value basePath tmpl in
  if negb (safe p) then Err (if safe (build true value basePath tmpl) then ErrNotFound else ErrUnsafe)
  else if spans value patternPath tmpl then Err ErrNotFound else Ok p.

(** * The dispatch (host/rewrite.go) *)

Record rewriteTarget := mkRewriteTarget { rt_basePath : string; rt_exact : string; rt_localized : bool }.

(** spec.rewrite, as the dispatch reads it. *)
Record RewriteSpec := mkRewriteSpec { rs_Path : string; rs_Canonical : bool }.

Definition rewriteTargetPath (resolved : rewriteTarget) (rw : RewriteSpec) (aliasPatternPath : string)
    (value : string -> string) (lang defaultLang : string) : result rewrite_error string :=
  target ← Target (rt_basePath resolved) (rt_exact resolved) (rs_Path rw) aliasPatternPath value;
  Ok (if (rt_localized resolved && negb (String.eqb lang defaultLang))%bool
      then "/" ++ lang ++ target else target).

Definition isSystemPath (p : string) : bool :=
  (String.eqb p "/favicon.ico" || HasPrefix p "/.well-known/" || HasPrefix p "/-/")%bool.

(** What the mux answers a path with: a page's own redirect, its
    trailing-slash redirect, or a handler. *)
Inductive mux_route := InternalRedirect (next : string) | SlashRedirect | Handler.

Definition maxRewriteRedirectHops : nat := 3.

(** [hops] redirects may still be followed. *)
Fixpoint followInternalRedirects (mux : string -> mux_route) (hops : nat) (path : string) : option string :=
  match mux path with
  | Handler => Some path
  | InternalRedirect next => match hops with O => None | S hops => followInternalRedirects mux hops next end
  | SlashRedirect =>
      if HasSuffix path "/" then None
      else match hops with O => None | S hops => followInternalRedirects mux hops (path ++ "/") end
  end.

(** What a request to an alias becomes: the gate's own refusal, an error
    status, or a dispatch, with the target its canonical link names and
    whether the response must stay private. *)
Inductive rewrite_answer :=
| GateRefused
| ErrorStatus (status : Z)
| Dispatch (path : string) (link : option string) (private : bool).

(** What the handler reads under the lock. *)
Record aliasGate := mkAliasGate { ag_allowed : bool; ag_base : string; ag_defaultLang : string; ag_private : bool }.

(** [again]: a rewrite re-dispatched the request already; [resolved]: the
    target, when it could be. *)
Definition rewriteHandlerFunc (again : bool) (resolved : option rewriteTarget) (gate : aliasGate)
    (rw : RewriteSpec) (patternPath lang : string) (value : string -> string) (mux : string -> mux_route)
    : rewrite_answer :=
  if again then ErrorStatus 508 else
  match resolved with
  | None => ErrorStatus 404
  | Some resolved =>
      if negb (ag_allowed gate) then GateRefused else
      match rewriteTargetPath resolved rw patternPath value lang (ag_defaultLang gate) with
      | Err ErrNotFound => ErrorStatus 404
      | Err ErrUnsafe => ErrorStatus 400
      | Ok target =>
          match followInternalRedirects mux maxRewriteRedirectHops target with
          | None => ErrorStatus 508
          | Some target =>
              if isSystemPath target then ErrorStatus 404
              else Dispatch target
                     (if (rs_Canonical rw && negb (String.eqb (ag_base gate) ""))%bool
                      then Some target else None) (ag_private gate)
          end
      end
  end.

(** * The response (rewriteResponseWriter) *)

Definition privateCacheControl : string := "private, no-cache, must-revalidate".

(** [values]: the Cache-Control headers. *)
Definition hasCacheDirective (values : list string) (directive : string) : bool :=
  existsb (fun v => existsb (fun d => EqualFold (Cut "=" (TrimSpace d)).1 directive) (Split "," v)) values.

(** The response's headers the alias decides, and whether it has. *)
Record rewriteResponse := mkResponse {
  rr_decided : bool;
  rr_CacheControl : list string;
  rr_Link : option string;
}.

Definition decide_headers (private : bool) (link : option string) (code : Z) (r : rewriteResponse)
    : rewriteResponse :=
  if (rr_decided r || (code <? 200)%Z)%bool then r
  else mkResponse true
    (if (private && negb (hasCacheDirective (rr_CacheControl r) "no-store"))%bool
     then [privateCacheControl] else rr_CacheControl r)
    (match link with Some l => if (code <? 300)%Z then Some l else rr_Link r | None => rr_Link r end).

(** What a target's handler does to its response: set a header, write a
    status, write or flush a body. *)
Inductive response_step :=
| SetCacheControl (v : string)
| WriteHeader (code : Z)
| WriteBody.

(** Headers set after the first final status do not reach the client. *)
Definition respond (private : bool) (link : option string) (r : rewriteResponse) (s : response_step)
    : rewriteResponse :=
  match s with
  | SetCacheControl v => if rr_decided r then r else mkResponse false [v] (rr_Link r)
  | WriteHeader code => decide_headers private link code r
  | WriteBody => decide_headers private link 200 r
  end.

(** The response at the end: nothing written is an implicit 200. *)
Definition serve (private : bool) (link : option string) (steps : list response_step) : rewriteResponse :=
  decide_headers private link 200
    (foldl (respond private link) (mkResponse false [] None) steps).

(** * Lemmas *)

Lemma span_append p s a b : span p s = (a, b) -> s = a ++ b /\ all_bytes p a = true.
Proof.
  revert a b. induction s as [|c s IH]; cbn; intros a b; [by intros [= <- <-]|].
  destruct (p c) eqn:Hc; [|by intros [= <- <-]]. destruct (span p s) as [x y]. intros [= <- <-].
  destruct (IH x y eq_refl) as [-> Hb]. cbn. by rewrite Hc, Hb.
Qed.

Definition token_source (t : token) : string :=
  match t with Lit c => String c "" | Wild name multi => "{" ++ name ++ (if multi then "...}" else "}") end.

Lemma wildcard_at_spec s name multi r :
  wildcard_at s = Some (name, multi, r) ->
  s = name ++ (if multi then "...}" else "}") ++ r /\ all_bytes name_byte name = true /\ name <> "".
Proof.
  unfold wildcard_at. destruct s as [|c s]; [done|]. destruct (name_start c) eqn:Hc; [|done].
  destruct (span name_byte (String c s)) as [n rest] eqn:Hs.
  pose proof (span_append _ _ _ _ Hs) as [Heq Hb].
  assert (n <> "") as Hne.
  { intros ->. cbn in Hs. unfold name_byte in Hs at 1. rewrite Hc in Hs. cbn in Hs. by destruct (span name_byte s). }
  destruct (CutPrefix rest "...}") as [r'|] eqn:H1.
  - intros [= <- <- <-]. apply CutPrefix_spec in H1 as ->. done.
  - destruct (CutPrefix rest "}") as [r'|] eqn:H2; [|done].
    intros [= <- <- <-]. apply CutPrefix_spec in H2 as ->. done.
Qed.

(** The tokens are the template: nothing of it is lost. *)
Lemma tokens_n_source n : forall s, (String.length s <= n)%nat ->
  concat_text (token_source <$> tokens_n n s) = s.
Proof.
  induction n as [|n IH]; intros [|c s] Hn; try done; [cbn in Hn; lia|]. cbn [tokens_n].
  cbn [String.length] in Hn. destruct (Ascii.eqb_spec c "{") as [->|].
  2: { cbn. f_equal. apply IH. lia. }
  destruct (wildcard_at s) as [[[name multi] r]|] eqn:Hw.
  2: { cbn. f_equal. apply IH. lia. }
  apply wildcard_at_spec in Hw as (-> & _ & Hne). rewrite !length_append in Hn. cbn [fmap list_fmap concat_text foldr token_source].
  fold (concat_text (token_source <$> tokens_n n r)).
  rewrite IH by (destruct name; [done|cbn in Hn; lia]). cbn [String.append].
  by rewrite append_assoc.
Qed.

Lemma tokens_source s : concat_text (token_source <$> tokens s) = s.
Proof. by apply tokens_n_source. Qed.

(** Following redirects ends on a handler, or not at all. *)
Lemma follow_settles mux : forall hops path p,
  followInternalRedirects mux hops path = Some p -> mux p = Handler.
Proof.
  induction hops as [|hops IH]; intros path p; cbn; destruct (mux path) eqn:Hm; try done.
  - by destruct (HasSuffix path "/").
  - by intros [= <-].
  - apply IH.
  - destruct (HasSuffix path "/"); [done|]. apply IH.
  - by intros [= <-].
Qed.
