(* ===== verification/Binding.v ===== *)
(** Requirement placeholders (src/internal/host/binding.go): what value a
    request binds to a placeholder, from the sources an operation declares or
    from the route's own path, and what a failure to bind means. *)
From S2P Require Import Prelude GoStr Deps Claims Url.
From Stdlib Require Import Ascii.

#[local] Open Scope string_scope.

(** * Paths *)

Definition splitPath (p : string) : list string := filter (fun s => s <> "") (Split "/"%char p).

(** [url.PathUnescape]; [None] is a malformed escape. *)
Fixpoint PathUnescape (s : string) : option string :=
  match s with
  | "" => Some ""
  | String c s =>
      if Ascii.eqb c "%" then
        match s with
        | String a (String b s) =>
            x ← unhex a; y ← unhex b; r ← PathUnescape s; Some (String (ascii_of_N (16 * x + y)) r)
        | _ => None
        end
      else r ← PathUnescape s; Some (String c r)
  end.

Definition percentDecode (s : string) : string := default s (PathUnescape s).

(** A nil slice of the URI past its end cannot be reached: the callers compare
    lengths first. *)
Fixpoint matchPrefix (patternSegs uriSegs : list string) (needle : string) : option string :=
  match patternSegs, uriSegs with
  | ps :: patternSegs, us :: uriSegs =>
      if String.eqb ps needle
      then let v := percentDecode us in if String.eqb v "" then None else Some v
      else matchPrefix patternSegs uriSegs needle
  | _, _ => None
  end.

Definition catch_all (seg : string) : bool := (HasPrefix seg "{" && HasSuffix seg "...}")%bool.

Definition pathParamFromMatch (pattern uriPath paramName : string) : option string :=
  let patternSegs := splitPath pattern in
  let uriSegs := splitPath uriPath in
  let needle := "{" ++ paramName ++ "}" in
  match last patternSegs with
  | Some seg =>
      if catch_all seg then
        let fixed := take (length patternSegs - 1) patternSegs in
        if (length uriSegs <? length fixed)%nat then None else matchPrefix fixed uriSegs needle
      else if negb (length patternSegs =? length uriSegs)%nat then None
           else matchPrefix patternSegs uriSegs needle
  | None => if negb (length patternSegs =? length uriSegs)%nat then None
            else matchPrefix patternSegs uriSegs needle
  end.

(** * Declared sources *)

Definition bindingExtensionKey : string := "x-entitlement-binding".

Record bindingSource := mkSource { bs_In : string; bs_Name : string }.

Abbreviation bindingSpec := (gmap string (list bindingSource)).

Inductive binding_error :=
| BindNotObject
| BindNotArray (key : string)
| BindNoSource (key : string)
| BindSourceNotObject (key : string) (i : nat)
| BindSourceIn (key : string) (i : nat) (got : string)
| BindSourceName (key : string) (i : nat).

(** [v, _ := m[k].(string)]. *)
Definition field (m : list (string * value)) (k : string) : string :=
  match list_find (fun e => e.1 = k) m with Some (_, (_, VStr s)) => s | _ => "" end.

Definition readable (in_ : string) : bool :=
  (String.eqb in_ "path" || String.eqb in_ "query" || String.eqb in_ "header")%bool.

Definition parse_source (key : string) (i : nat) (item : value) : result binding_error bindingSource :=
  match item with
  | VObj m =>
      let in_ := field m "in" in
      let name := field m "name" in
      if negb (readable in_) then Err (BindSourceIn key i in_)
      else if String.eqb name "" then Err (BindSourceName key i)
      else Ok (mkSource in_ name)
  | _ => Err (BindSourceNotObject key i)
  end.

Fixpoint parse_chain (key : string) (i : nat) (items : list value) : result binding_error (list bindingSource) :=
  match items with
  | [] => Ok []
  | item :: items => src ← parse_source key i item; chain ← parse_chain key (S i) items; Ok (src :: chain)
  end.

Fixpoint parse_entries (obj : list (string * value)) (spec : bindingSpec) : result binding_error bindingSpec :=
  match obj with
  | [] => Ok spec
  | (key, v) :: obj =>
      match v with
      | VList [] => Err (BindNoSource key)
      | VList list => chain ← parse_chain key 0 list; parse_entries obj (<[key := chain]> spec)
      | _ => Err (BindNotArray key)
      end
  end.

(** [None]: nothing is declared. A Go map is ranged over in some order: the
    object's own here. *)
Definition parseBindingSpec (ext : gmap string value) : result binding_error (option bindingSpec) :=
  match ext !! bindingExtensionKey with
  | None => Ok None
  | Some (VObj obj) => spec ← parse_entries obj ∅; Ok (Some spec)
  | Some _ => Err BindNotObject
  end.

(** * Resolving *)

(** What the binder reads of a request: the escaped path, the decoded query,
    the first value of each header. *)
Record bound_request := mkBound { br_EscapedPath : string; br_Query : values; br_Header : string -> string }.

Definition readSource (r : bound_request) (pattern : string) (src : bindingSource) : option string :=
  if String.eqb (bs_In src) "path" then pathParamFromMatch pattern (br_EscapedPath r) (bs_Name src)
  else let v := if String.eqb (bs_In src) "query" then Get (br_Query r) (bs_Name src)
                else if String.eqb (bs_In src) "header" then br_Header r (bs_Name src) else "" in
       if String.eqb v "" then None else Some v.

Fixpoint first_source (r : bound_request) (pattern : string) (chain : list bindingSource) : option string :=
  match chain with
  | [] => None
  | src :: chain =>
      match readSource r pattern src with Some v => Some v | None => first_source r pattern chain end
  end.

Definition resolveKey (r : bound_request) (pattern : string) (spec : bindingSpec) (key : string)
    : option string :=
  match spec !! key with
  | Some chain => first_source r pattern chain
  | None => pathParamFromMatch pattern (br_EscapedPath r) key
  end.

Definition bind_key (r : bound_request) (pattern : string) (spec : bindingSpec)
    (b : gmap string string) (key : string) : gmap string string :=
  match resolveKey r pattern spec key with Some v => <[key := v]> b | None => b end.

Definition resolveBinding (r : bound_request) (pattern : string) (spec : bindingSpec) (keys : list string)
    : gmap string string := foldl (bind_key r pattern spec) ∅ keys.

(** * Failures *)

Definition hasCallerSuppliableSource (chain : list bindingSource) : bool :=
  existsb (fun src => String.eqb (bs_In src) "header" || String.eqb (bs_In src) "query")%bool chain.

(** The keys the binding left absent. *)
Definition absent_keys (binding : gmap string string) (keys : list string) : list string :=
  filter (fun key => binding !! key = None) keys.

Definition bindFailureIsClientError (spec : bindingSpec) (binding : gmap string string)
    (keys : list string) : bool :=
  let absent := absent_keys binding keys in
  (forallb (fun key => hasCallerSuppliableSource (default [] (spec !! key))) absent &&
   negb (length absent =? 0)%nat)%bool.

(** * Placeholders of a route *)

Definition segment_name (seg : string) : option string :=
  if (HasPrefix seg "{" && HasSuffix seg "}")%bool then
    let name := TrimSuffix (TrimPrefix seg "{") "}" in
    if HasSuffix name "..." then None else Some name
  else None.

Definition placeholderKeys (spec : bindingSpec) (pattern : string) : list string :=
  keep_distinct (fun k => negb (String.eqb k "")) []
    ((map_to_list spec).*1 ++ omap segment_name (splitPath pattern)).
