(* ===== verification/BindingSpec.v ===== *)
(** What binding promises: a placeholder is bound to what the request really
    addresses, decoded once, from the first declared source that has it, and
    to nothing else; a failure is the caller's only when the caller can mend
    it. And what rewrite pages promise: a request cannot steer an alias out of
    the target's tree, onto the host's own endpoints or into a loop, and a
    private alias stays private whatever its target answers. *)
From S2P Require Import Prelude GoStr Deps Claims Url Rewrite Binding.
From Stdlib Require Import Ascii.

#[local] Open Scope string_scope.

(** * Paths *)

Lemma matchPrefix_spec needle patternSegs : forall uriSegs v,
  matchPrefix patternSegs uriSegs needle = Some v ->
  exists i us, patternSegs !! i = Some needle /\ uriSegs !! i = Some us /\ v = percentDecode us /\ v <> "" /\
    forall j, (j < i)%nat -> patternSegs !! j <> Some needle.
Proof.
  induction patternSegs as [|ps patternSegs IH]; intros [|us uriSegs] v; cbn [matchPrefix]; try done.
  destruct (String.eqb_spec ps needle) as [->|Hne].
  - destruct (String.eqb_spec (percentDecode us) "") as [|Hv]; [done|]. intros [= <-].
    exists 0%nat, us. split_and!; try done. intros j Hj. lia.
  - intros (i & us' & ? & ? & ? & ? & Hfirst)%IH. exists (S i), us'. split_and!; try done.
    intros [|j] Hj; cbn; [congruence|]. apply Hfirst. lia.
Qed.

(** Reading it back: the segment at the first place the pattern names it. *)
Lemma matchPrefix_hit needle i us : forall patternSegs uriSegs,
  patternSegs !! i = Some needle -> uriSegs !! i = Some us ->
  (forall j, (j < i)%nat -> patternSegs !! j <> Some needle) -> percentDecode us <> "" ->
  matchPrefix patternSegs uriSegs needle = Some (percentDecode us).
Proof.
  induction i as [|i IH]; intros [|ps patternSegs] [|us' uriSegs]; cbn [lookup list_lookup]; try done.
  - intros [= ->] [= ->] _ Hv. cbn [matchPrefix]. rewrite String.eqb_refl.
    by rewrite (proj2 (String.eqb_neq _ _) Hv).
  - intros Hp Hu Hfirst Hv. cbn [matchPrefix].
    assert (ps <> needle) as Hne by (intros ->; by apply (Hfirst 0%nat ltac:(lia))).
    rewrite (proj2 (String.eqb_neq _ _) Hne). apply IH; try done. intros j Hj. apply (Hfirst (S j)). lia.
Qed.

(** The route really matches the path: every segment for a plain pattern, all
    but the catch-all for one that ends with it. *)
Definition route_fits (pattern uriPath : string) : Prop :=
  match last (splitPath pattern) with
  | Some seg => if catch_all seg then (length (splitPath pattern) - 1 <= length (splitPath uriPath))%nat
                else length (splitPath pattern) = length (splitPath uriPath)
  | None => splitPath uriPath = []
  end.

(** The segments a parameter may be read from: all but the catch-all. *)
Definition named_segments (pattern : string) : list string :=
  match last (splitPath pattern) with
  | Some seg => if catch_all seg then take (length (splitPath pattern) - 1) (splitPath pattern)
                else splitPath pattern
  | None => []
  end.

Lemma pathParam_eq pattern uriPath name :
  (route_fits pattern uriPath /\
     pathParamFromMatch pattern uriPath name =
       matchPrefix (named_segments pattern) (splitPath uriPath) ("{" ++ name ++ "}")) \/
  (~ route_fits pattern uriPath /\ pathParamFromMatch pattern uriPath name = None).
Proof.
  unfold pathParamFromMatch, route_fits, named_segments. destruct (last (splitPath pattern)) as [seg|] eqn:Hl.
  - destruct (catch_all seg).
    + rewrite length_take. destruct (Nat.ltb_spec (length (splitPath uriPath))
        ((length (splitPath pattern) - 1) `min` length (splitPath pattern))); [right|left]; (split; [lia|done]).
    + destruct (Nat.eqb_spec (length (splitPath pattern)) (length (splitPath uriPath))); [left|right]; done.
  - apply last_None in Hl. rewrite Hl. destruct (splitPath uriPath); [left|right]; done.
Qed.

(** A path parameter is the segment the route names, and no other. A value is
    read only when the pattern fits the path; it is the segment at the first
    place the pattern has the parameter, decoded exactly once and not empty;
    and such a segment is always read. *)
Theorem path_param_positional pattern uriPath name v :
  pathParamFromMatch pattern uriPath name = Some v <->
  route_fits pattern uriPath /\ v <> "" /\
  exists i us, named_segments pattern !! i = Some ("{" ++ name ++ "}") /\ splitPath uriPath !! i = Some us /\
    v = percentDecode us /\
    forall j, (j < i)%nat -> named_segments pattern !! j <> Some ("{" ++ name ++ "}").
Proof.
  destruct (pathParam_eq pattern uriPath name) as [[Hfit ->]|[Hfit ->]].
  - split.
    + intros (i & us & ? & ? & ? & ? & ?)%matchPrefix_spec. split_and!; try done. by exists i, us.
    + intros (_ & Hv & i & us & Hp & Hu & -> & Hfirst). by apply (matchPrefix_hit _ i).
  - split; [done|]. by intros [? _].
Qed.

(** * Sources *)

Lemma first_source_spec r pattern chain v :
  first_source r pattern chain = Some v <->
  exists pre src post, chain = (pre ++ src :: post)%list /\ readSource r pattern src = Some v /\
    Forall (fun s => readSource r pattern s = None) pre.
Proof.
  induction chain as [|src chain IH]; cbn [first_source].
  { split; [done|]. by intros ([|] & ? & ? & ? & _). }
  destruct (readSource r pattern src) as [w|] eqn:Hr.
  - split.
    + intros [= ->]. exists [], src, chain. done.
    + intros ([|s pre] & src' & post & [= -> ->] & Hs & Hpre); [by rewrite Hs in Hr|].
      by apply Forall_inv in Hpre; rewrite Hr in Hpre.
  - rewrite IH. split.
    + intros (pre & src' & post & -> & Hs & Hpre). exists (src :: pre), src', post. split_and!; [done..|by constructor].
    + intros ([|s pre] & src' & post & [= -> ->] & Hs & Hpre); [by rewrite Hs in Hr|].
      apply Forall_cons in Hpre as [_ Hpre]. by exists pre, src', post.
Qed.

Lemma readSource_nonempty r pattern src v : readSource r pattern src = Some v -> v <> "".
Proof.
  unfold readSource. destruct (String.eqb (bs_In src) "path").
  - destruct (pathParam_eq pattern (br_EscapedPath r) (bs_Name src)) as [[_ ->]|[_ ->]]; [|done].
    by intros (i & us & _ & _ & _ & ? & _)%matchPrefix_spec.
  - cbn zeta. match goal with |- context [String.eqb ?x ""] => destruct (String.eqb_spec x "") as [|Hne] end; [done|].
    by intros [= <-].
Qed.

Lemma resolveBinding_fold r pattern spec keys : forall b key,
  foldl (bind_key r pattern spec) b keys !! key =
  if decide (key ∈ keys) then match resolveKey r pattern spec key with Some v => Some v | None => b !! key end
  else b !! key.
Proof.
  induction keys as [|k keys IH]; intros b key; cbn [foldl].
  { by rewrite decide_False by apply not_elem_of_nil. }
  rewrite IH. unfold bind_key. destruct (decide (key = k)) as [->|Hne].
  - rewrite (decide_True (P := k ∈ k :: keys)) by left.
    destruct (resolveKey r pattern spec k) as [v|] eqn:Hk; [rewrite lookup_insert_eq|]; by case_decide.
  - assert (match resolveKey r pattern spec k with Some v => <[k := v]> b | None => b end !! key = b !! key) as ->.
    { destruct (resolveKey r pattern spec k); [by rewrite lookup_insert_ne|done]. }
    destruct (decide (key ∈ keys)) as [Hin|Hnin].
    + by rewrite decide_True by (by right).
    + rewrite decide_False; [done|]. by intros [?|?]%elem_of_cons.
Qed.

(** Nothing is bound by default. A placeholder of the route is bound exactly
    when one of its sources has a value, and then to that value, raw and not
    empty: the first source of its declared chain that has one, or, when the
    operation declares nothing for it, the path segment the route itself names
    so; a header or a query is never guessed. *)
Theorem binding_faithful r pattern spec keys key v :
  resolveBinding r pattern spec keys !! key = Some v <->
  key ∈ keys /\ v <> "" /\
  match spec !! key with
  | Some chain => exists pre src post, chain = (pre ++ src :: post)%list /\
      Forall (fun s => readSource r pattern s = None) pre /\ readSource r pattern src = Some v
  | None => pathParamFromMatch pattern (br_EscapedPath r) key = Some v
  end.
Proof.
  unfold resolveBinding. rewrite resolveBinding_fold. rewrite lookup_empty.
  assert (resolveKey r pattern spec key = Some v <-> v <> "" /\
    match spec !! key with
    | Some chain => exists pre src post, chain = (pre ++ src :: post)%list /\
        Forall (fun s => readSource r pattern s = None) pre /\ readSource r pattern src = Some v
    | None => pathParamFromMatch pattern (br_EscapedPath r) key = Some v
    end) as Hk.
  { unfold resolveKey. destruct (spec !! key) as [chain|].
    - rewrite first_source_spec. split.
      + intros (pre & src & post & -> & Hs & Hp). split; [by eapply readSource_nonempty|]. by exists pre, src, post.
      + intros (_ & pre & src & post & -> & Hp & Hs). by exists pre, src, post.
    - split; [|by intros [_ ?]]. intros Hp. split; [|done].
      by apply (readSource_nonempty r pattern (mkSource "path" key)). }
  destruct (decide (key ∈ keys)) as [Hin|Hnin].
  - rewrite <- Hk. destruct (resolveKey r pattern spec key); naive_solver.
  - split; [done|]. by intros [? _].
Qed.

(** * Declarations *)

Lemma parse_chain_readable key items : forall i chain,
  parse_chain key i items = Ok chain ->
  length chain = length items /\ Forall (fun src => readable (bs_In src) = true /\ bs_Name src <> "") chain.
Proof.
  induction items as [|item items IH]; intros i chain; cbn [parse_chain]; [by intros [= <-]|].
  destruct (parse_source key i item) as [src|] eqn:Hs; [|done]. cbn [mbind result_bind].
  destruct (parse_chain key (S i) items) as [rest|] eqn:Hc; [|done]. intros [= <-].
  destruct (IH _ _ Hc) as [Hl Hf]. split; [cbn; by rewrite Hl|]. constructor; [|done].
  unfold parse_source in Hs. destruct item; try done. cbn zeta in Hs.
  destruct (readable _) eqn:Hr; [|done]. cbn [negb] in Hs.
  destruct (String.eqb_spec (field m "name") "") as [|Hne]; [done|]. injection Hs as <-. done.
Qed.

Lemma parse_entries_readable obj : forall spec spec',
  parse_entries obj spec = Ok spec' ->
  map_Forall (fun _ chain => chain <> [] /\
    Forall (fun src => readable (bs_In src) = true /\ bs_Name src <> "") chain) spec ->
  map_Forall (fun _ chain => chain <> [] /\
    Forall (fun src => readable (bs_In src) = true /\ bs_Name src <> "") chain) spec'.
Proof.
  induction obj as [|[key v] obj IH]; intros spec spec'; cbn [parse_entries]; [by intros [= <-]|].
  destruct v as [| | | | |list|]; try done. destruct list as [|item items]; [done|].
  destruct (parse_chain key 0 (item :: items)) as [chain|] eqn:Hc; [|done]. cbn [mbind result_bind].
  intros Hp Hf. eapply IH; [exact Hp|]. apply map_Forall_insert_2; [|done].
  destruct (parse_chain_readable _ _ _ _ Hc) as [Hl Hr]. split; [|done]. by intros ->.
Qed.

(** Only sources the gate can read are ever declared: a specification that
    parses gives every placeholder at least one source, each of them a named
    path parameter, query parameter or header. *)
Theorem parsed_sources_readable ext spec :
  parseBindingSpec ext = Ok (Some spec) ->
  map_Forall (fun _ chain => chain <> [] /\
    Forall (fun src => readable (bs_In src) = true /\ bs_Name src <> "") chain) spec.
Proof.
  unfold parseBindingSpec. destruct (ext !! bindingExtensionKey) as [[]|]; try done.
  destruct (parse_entries m ∅) as [s|] eqn:Hp; [|done]. cbn [mbind result_bind]. intros [= <-].
  eapply parse_entries_readable; [exact Hp|]. apply map_Forall_empty.
Qed.

(** * Failures *)

(** A failure to bind is the caller's to mend exactly when some placeholder is
    absent and every absent one could have been given in a header or in the
    query; a path segment of the route, and a placeholder nothing declares,
    are the operator's. *)
Theorem bind_failure_classified r pattern spec keys :
  bindFailureIsClientError spec (resolveBinding r pattern spec keys) keys = true <->
  (exists key, key ∈ keys /\ resolveKey r pattern spec key = None) /\
  forall key, key ∈ keys -> resolveKey r pattern spec key = None ->
    exists chain src, spec !! key = Some chain /\ src ∈ chain /\ (bs_In src = "header" \/ bs_In src = "query").
Proof.
  assert (forall key, key ∈ keys -> (resolveBinding r pattern spec keys !! key = None <->
    resolveKey r pattern spec key = None)) as Habs.
  { intros key Hin. unfold resolveBinding. rewrite resolveBinding_fold, decide_True by done.
    rewrite lookup_empty. by destruct (resolveKey r pattern spec key). }
  assert (forall chain, hasCallerSuppliableSource chain = true <->
    exists src, src ∈ chain /\ (bs_In src = "header" \/ bs_In src = "query")) as Hsup.
  { intros chain. unfold hasCallerSuppliableSource. rewrite existsb_exists. split.
    - intros (src & Hin & [?%String.eqb_eq|?%String.eqb_eq]%orb_true_iff); exists src;
        (split; [by apply list_elem_of_In|tauto]).
    - intros (src & Hin & Ho). exists src. split; [by apply list_elem_of_In|].
      destruct Ho as [->| ->]; done. }
  unfold bindFailureIsClientError. rewrite andb_true_iff, forallb_forall, negb_true_iff, Nat.eqb_neq.
  assert (forall key, key ∈ absent_keys (resolveBinding r pattern spec keys) keys <->
    key ∈ keys /\ resolveKey r pattern spec key = None) as Hin.
  { intros key. unfold absent_keys. rewrite list_elem_of_filter. split.
    - intros [Hn Hk]. split; [done|by apply Habs].
    - intros [Hk Hn]. split; [by apply Habs|done]. }
  rewrite (and_comm (forall x, _ -> _)). f_equiv.
  - split.
    + intros Hl. destruct (absent_keys _ keys) as [|key l] eqn:Hk; [done|]. exists key. apply Hin. left.
    + intros (key & Hk). apply Hin in Hk. by destruct (absent_keys _ keys); [apply elem_of_nil in Hk|].
  - split.
    + intros Hall key Hk Hn. specialize (Hall key (proj1 (list_elem_of_In _ _) (proj2 (Hin key) (conj Hk Hn)))).
      apply Hsup in Hall as (src & Hs & Ho). destruct (spec !! key) as [chain|]; cbn in Hs; [|by apply elem_of_nil in Hs].
      by exists chain, src.
    + intros Hall key Hk%list_elem_of_In%Hin. destruct Hk as [Hk Hn].
      destruct (Hall key Hk Hn) as (chain & src & Hc & Hs & Ho). rewrite Hc. apply Hsup. by exists src.
Qed.

(** * Witnesses *)

Definition exampleExtension : gmap string value :=
  {[ bindingExtensionKey := VObj [("vs", VList [VObj [("in", VStr "header"); ("name", VStr "X-Vs")]])] ]}.
Definition declaredSpec : bindingSpec := {[ "vs" := [mkSource "header" "X-Vs"] ]}.

(** An encoded percent is decoded once: the backend's [%25] stays. *)
Lemma parsed_sources_readable_witness :
  readable "header" = true /\
  pathParamFromMatch "/v1/stores/{vs}/files/{rest...}" "/v1/stores/a%2525/files/x/y" "vs" = Some "a%25".
Proof.
  pose proof (parsed_sources_readable exampleExtension declaredSpec eq_refl) as Hp.
  destruct (Hp "vs" [mkSource "header" "X-Vs"] eq_refl) as [_ Hf].
  split; [exact (proj1 (Forall_inv Hf))|reflexivity].
Defined.

(** * Rewrite pages *)

(** * Counting segments *)

Fixpoint slashes (s : string) : nat :=
  match s with "" => 0 | String c s => (if Ascii.eqb c "/" then 1 else 0) + slashes s end.

Lemma slashes_append s t : slashes (s ++ t) = (slashes s + slashes t)%nat.
Proof. induction s as [|c s IH]; cbn; [done|]. rewrite IH. lia. Qed.

Lemma slashes_Contains s : Contains s "/" = false <-> slashes s = 0%nat.
Proof.
  induction s as [|c s IH]; [done|]. rewrite Contains_eq. cbn [HasPrefix slashes]. destruct (Ascii.eqb_spec c "/") as [->|Hne].
  - cbn. split; [|lia]. by destruct s.
  - assert (Ascii.eqb "/" c = false) as Hc by (apply Ascii.eqb_neq; congruence).
    assert (Ascii.eqb c "/" = false) as Hc' by (by apply Ascii.eqb_neq).
    rewrite ?Hc, ?Hc'. cbn. exact IH.
Qed.

Lemma slashes_name s : all_bytes name_byte s = true -> slashes s = 0%nat.
Proof.
  induction s as [|c s IH]; cbn; [done|]. rewrite andb_true_iff. intros [Hc Hs]. rewrite IH by done.
  destruct (Ascii.eqb_spec c "/") as [->|]; [done|lia].
Qed.

(** The names of a template are names. *)
Lemma tokens_n_names n : forall s name multi, Wild name multi ∈ tokens_n n s ->
  all_bytes name_byte name = true /\ name <> "".
Proof.
  induction n as [|n IH]; intros [|c s] name multi; cbn [tokens_n]; try (by intros ?%elem_of_nil).
  destruct (Ascii.eqb c "{").
  2: { intros [?|Hin]%elem_of_cons; [done|by eapply IH]. }
  destruct (wildcard_at s) as [[[name' multi'] r]|] eqn:Hw.
  2: { intros [?|Hin]%elem_of_cons; [done|by eapply IH]. }
  apply wildcard_at_spec in Hw as (_ & Hb & Hne).
  intros [[= -> ->]|Hin]%elem_of_cons; [done|by eapply IH].
Qed.

Lemma wildcards_in s name : name ∈ Placeholders s <-> exists multi, Wild name multi ∈ tokens s.
Proof.
  unfold Placeholders, wildcards. rewrite list_elem_of_fmap. split.
  - intros ([name' multi] & -> & Hin). apply list_elem_of_omap in Hin as ([|n m] & Hin & Heq); [done|].
    injection Heq as -> ->. by exists multi.
  - intros [multi Hin]. exists (name, multi). split; [done|]. apply list_elem_of_omap. by exists (Wild name multi).
Qed.

Lemma concat_append_slashes l : slashes (concat_text l) = list_sum (slashes <$> l).
Proof. induction l as [|s l IH]; [done|]. cbn. fold (concat_text l). by rewrite slashes_append, IH. Qed.

(** Slash-free values add no segment to a template. *)
Lemma filled_slashes value l :
  (forall name multi, Wild name multi ∈ l -> Contains (value name) "/" = false /\ all_bytes name_byte name = true) ->
  slashes (concat_text (token_text false value <$> l)) = slashes (concat_text (token_source <$> l)).
Proof.
  intros Hv. rewrite !concat_append_slashes. induction l as [|t l IH]; [done|]. cbn [fmap list_fmap list_sum foldr].
  fold (list_sum (slashes <$> (token_text false value <$> l))) (list_sum (slashes <$> (token_source <$> l))).
  change (slashes <$> (token_text false value <$> l)) with (map slashes (map (token_text false value) l)) in *.
  change (slashes <$> (token_source <$> l)) with (map slashes (map token_source l)) in *.
  assert (slashes (token_text false value t) = slashes (token_source t)) as Ht.
  { destruct t as [c|name multi]; [done|]. cbn [token_text token_source]. rewrite andb_false_r.
    destruct (Hv name multi ltac:(left)) as [Hc Hb]. rewrite (proj1 (slashes_Contains _) Hc).
    cbn [String.append slashes]. rewrite slashes_append, (slashes_name _ Hb). by destruct multi. }
  pose proof (IH (fun name multi Hin => Hv name multi (list_elem_of_further _ _ _ Hin))) as IHl.
  cbn. cbn in IHl. lia.
Qed.

(** * Targets *)

(** A request cannot leave the target's tree. A path built from a template
    starts with the target's base path, holds no double slash and no dot
    segment, and each wildcard that stands for one segment contributed no
    slash; so a template of such wildcards alone is filled segment by
    segment, and the path has exactly the depth the author wrote. *)
Theorem target_confined basePath exact tmpl patternPath value p :
  Target basePath exact tmpl patternPath value = Ok p -> tmpl <> "" ->
  HasPrefix p (TrimSuffix basePath "/" ++ "/") = true /\ Contains p "//" = false /\
  (forall seg, seg ∈ Split "/" p -> seg <> "." /\ seg <> "..") /\
  (forall name, name ∈ Placeholders (TrimPrefix tmpl "/") -> multiSegment patternPath name = false ->
     Contains (value name) "/" = false) /\
  ((forall name, name ∈ Placeholders (TrimPrefix tmpl "/") -> multiSegment patternPath name = false) ->
   slashes p = (slashes (TrimSuffix basePath "/") + 1 + slashes (TrimPrefix tmpl "/"))%nat).
Proof.
  intros Ht Hne. unfold Target in Ht. rewrite (proj2 (String.eqb_neq _ _) Hne) in Ht.
  destruct (safe (build false value basePath tmpl)) eqn:Hs; [|done]. cbn [negb] in Ht.
  destruct (spans value patternPath tmpl) eqn:Hsp; [done|]. injection Ht as <-.
  assert (forall name, name ∈ Placeholders (TrimPrefix tmpl "/") -> multiSegment patternPath name = false ->
     Contains (value name) "/" = false) as Hone.
  { intros name Hin Hm. apply not_true_iff_false in Hsp. apply not_true_iff_false. intros Hc. apply Hsp.
    unfold spans. apply existsb_exists. exists name. split; [by apply list_elem_of_In|]. by rewrite Hc, Hm. }
  unfold safe in Hs. destruct (Contains _ "//") eqn:Hd; [done|]. split_and!; try done.
  - unfold build. rewrite <- append_assoc. apply HasPrefix_append.
  - intros seg Hin. rewrite forallb_forall in Hs. specialize (Hs seg (proj1 (list_elem_of_In _ _) Hin)).
    apply negb_true_iff, orb_false_iff in Hs as [?%String.eqb_neq ?%String.eqb_neq]. done.
  - intros Hall. unfold build. rewrite !slashes_append, filled_slashes, tokens_source; [cbn; lia|].
    intros name multi Hin. split.
    + apply Hone; [|apply Hall]; apply wildcards_in; by exists multi.
    + by eapply tokens_n_names.
Qed.

(** What a request is told when its values name no route: a value that holds a
    slash where one segment was matched, and a value missing, are a 404; only
    a value that would reshape the path is a 400. A template the controller
    accepted names only wildcards of its alias. *)
Theorem target_refusals basePath exact tmpl patternPath value e :
  Target basePath exact tmpl patternPath value = Err e ->
  tmpl <> "" /\
  (e = ErrUnsafe -> safe (build true value basePath tmpl) = false /\
     ((exists name, name ∈ Placeholders (TrimPrefix tmpl "/") /\ value name <> "") \/
      safe (build true (fun _ => "x") basePath tmpl) = false)) /\
  (e = ErrNotFound -> exists name, name ∈ Placeholders (TrimPrefix tmpl "/") /\
     (value name = "" \/ Contains (value name) "/" = true /\ multiSegment patternPath name = false)).
Proof.
  unfold Target. destruct (String.eqb_spec tmpl "") as [|Hne]; [done|]. intros Ht. split; [done|].
  assert (forall b v1 v2, (forall name multi, Wild name multi ∈ tokens (TrimPrefix tmpl "/") ->
    token_text b v1 (Wild name multi) = token_text false v2 (Wild name multi)) ->
    build b v1 basePath tmpl = build false v2 basePath tmpl) as Hbuild.
  { intros b v1 v2 Heq. unfold build. do 2 f_equal. f_equal. apply list_fmap_ext. intros i t Hi.
    destruct t as [c|name multi]; [done|]. apply Heq. by eapply list_elem_of_lookup_2. }
  destruct (safe (build false value basePath tmpl)) eqn:Hs; cbn [negb] in Ht.
  - destruct (spans value patternPath tmpl) eqn:Hsp; [|done]. injection Ht as <-. split; [done|]. intros _.
    unfold spans in Hsp. apply existsb_exists in Hsp as (name & Hin & [Hc Hm%negb_true_iff]%andb_true_iff).
    exists name. split; [by apply list_elem_of_In|by right].
  - injection Ht as <-. destruct (safe (build true value basePath tmpl)) eqn:Hf.
    + split; [done|]. intros _.
      destruct (decide (Exists (fun name => value name = "") (Placeholders (TrimPrefix tmpl "/")))) as [Hex|Hno].
      * apply Exists_exists in Hex as (name & Hin & He). exists name. split; [done|by left].
      * exfalso. apply not_Exists_Forall in Hno; [|apply _]. rewrite Forall_forall in Hno.
        rewrite (Hbuild true value value), Hs in Hf; [done|]. intros name multi Hin. cbn.
        rewrite (proj2 (String.eqb_neq _ _)); [done|]. apply Hno, wildcards_in. by exists multi.
    + split; [|done]. intros _. split; [done|].
      destruct (decide (Exists (fun name => value name <> "") (Placeholders (TrimPrefix tmpl "/")))) as [Hex|Hno].
      * left. apply Exists_exists in Hex as (name & Hin & He). by exists name.
      * right. apply not_Exists_Forall in Hno; [|apply _]. rewrite Forall_forall in Hno.
        etrans; [|exact Hf]. f_equal. unfold build. do 2 f_equal. f_equal. apply list_fmap_ext. intros i t Hi.
        destruct t as [c|name multi]; [done|]. assert (value name = "") as Hv.
        { apply dec_stable, Hno, wildcards_in. exists multi. by eapply list_elem_of_lookup_2. }
        unfold token_text. by rewrite Hv.
Qed.

(** * The dispatch *)

(** What an alias dispatches to is a page or function route of the site, once,
    for a caller its own gate let through: never the host's own endpoints,
    never a route that redirects, and never from within another rewrite. The
    canonical link names that route, and the response is private when the
    alias is. *)
Theorem rewrite_dispatch_confined again resolved gate rw patternPath lang value mux path link private :
  rewriteHandlerFunc again resolved gate rw patternPath lang value mux = Dispatch path link private ->
  again = false /\ ag_allowed gate = true /\ private = ag_private gate /\
  isSystemPath path = false /\ mux path = Handler /\ (forall l, link = Some l -> l = path) /\
  exists target resolved', resolved = Some resolved' /\
    rewriteTargetPath resolved' rw patternPath value lang (ag_defaultLang gate) = Ok target /\
    followInternalRedirects mux maxRewriteRedirectHops target = Some path.
Proof.
  unfold rewriteHandlerFunc. destruct again; [done|]. destruct resolved as [res|]; [|done].
  destruct (ag_allowed gate); [|done]. cbn [negb].
  destruct (rewriteTargetPath _ _ _ _ _ _) as [target|[]] eqn:Ht; [|done..].
  destruct (followInternalRedirects _ _ _) as [p|] eqn:Hf; [|done].
  destruct (isSystemPath p) eqn:Hs; [done|]. intros [= <- <- <-].
  pose proof (follow_settles _ _ _ _ Hf) as Hm. split_and!; try done.
  - destruct (_ && _)%bool; [by intros l [= <-]|done].
  - by exists target, res.
Qed.

(** * The response *)

(** The first final status a target's steps write. *)
Fixpoint final_status (steps : list response_step) : Z :=
  match steps with
  | [] => 200
  | WriteHeader code :: steps => if (code <? 200)%Z then final_status steps else code
  | WriteBody :: _ => 200
  | SetCacheControl _ :: steps => final_status steps
  end.

Lemma respond_decided private link steps : forall r, rr_decided r = true ->
  foldl (respond private link) r steps = r.
Proof.
  induction steps as [|s steps IH]; intros r Hd; [done|]. cbn [foldl].
  assert (respond private link r s = r) as ->; [|by apply IH].
  destruct s; cbn; unfold decide_headers; by rewrite Hd.
Qed.

Lemma serve_spec private link steps : forall cc,
  let r := decide_headers private link 200 (foldl (respond private link) (mkResponse false cc None) steps) in
  rr_decided r = true /\
  (private = true -> hasCacheDirective (rr_CacheControl r) "no-store" = true \/
     rr_CacheControl r = [privateCacheControl]) /\
  (rr_Link r = if (final_status steps <? 300)%Z then link else None).
Proof.
  assert (forall cc code, (200 <= code)%Z ->
    let r := decide_headers private link code (mkResponse false cc None) in
    rr_decided r = true /\
    (private = true -> hasCacheDirective (rr_CacheControl r) "no-store" = true \/
       rr_CacheControl r = [privateCacheControl]) /\
    (rr_Link r = if (code <? 300)%Z then link else None)) as Hone.
  { intros cc code Hc. cbn zeta. unfold decide_headers. cbn [rr_decided rr_CacheControl rr_Link].
    rewrite (proj2 (Z.ltb_ge code 200)) by lia. cbn [orb rr_decided rr_CacheControl rr_Link]. split_and!; [done| |].
    - intros ->. cbn [andb]. destruct (hasCacheDirective cc "no-store") eqn:Hh; cbn [negb]; [by left|by right].
    - destruct link; by destruct (code <? 300)%Z. }
  assert (forall r, rr_decided r = true -> decide_headers private link 200 r = r) as Hkeep
    by (intros r Hd; unfold decide_headers; by rewrite Hd).
  induction steps as [|s steps IH]; intros cc; cbn [foldl final_status]; cbn zeta.
  { by apply Hone. }
  destruct s as [v|code|]; cbn [respond rr_decided].
  - apply IH.
  - destruct (Z.ltb_spec code 200) as [Hc|Hc].
    + assert (decide_headers private link code (mkResponse false cc None) = mkResponse false cc None) as ->; [|apply IH].
      unfold decide_headers. cbn [rr_decided orb]. by rewrite (proj2 (Z.ltb_lt code 200)).
    + destruct (Hone cc code Hc) as (Hd & Hp & Hl).
      rewrite respond_decided, Hkeep by (rewrite ?respond_decided; done). done.
  - destruct (Hone cc 200%Z ltac:(lia)) as (Hd & Hp & Hl).
    rewrite respond_decided, Hkeep by (rewrite ?respond_decided; done). done.
Qed.

(** A private alias is never cached for others. Whatever its target does to
    its response, in whatever order, interim statuses and an empty answer
    included, the response of a private alias leaves with the private
    directive or with the target's stricter no-store, and the canonical link
    is on it exactly when its final status is a success. *)
Theorem rewrite_private (link : option string) (steps : list response_step) :
  let r := serve true link steps in
  (hasCacheDirective (rr_CacheControl r) "no-store" = true \/ rr_CacheControl r = [privateCacheControl]) /\
  rr_Link (serve true link steps) = (if (final_status steps <? 300)%Z then link else None) /\
  rr_Link (serve false link steps) = (if (final_status steps <? 300)%Z then link else None).
Proof.
  cbn zeta. destruct (serve_spec true link steps []) as (_ & Hp & Hl).
  destruct (serve_spec false link steps []) as (_ & _ & Hl'). split_and!; [by apply Hp|done|done].
Qed.

(** * Witnesses *)

Definition files (name : string) : string := if String.eqb name "id" then "7" else "a/b".

Lemma target_confined_witness :
  Target "/docs/" "/docs" "/{id}/{rest...}" "/alias/{id}/{rest...}" files = Ok "/docs/7/a/b" /\
  HasPrefix "/docs/7/a/b" "/docs/" = true /\
  Target "/docs/" "/docs" "/{rest}" "/alias/{rest}" files = Err ErrNotFound.
Proof.
  split; [reflexivity|]. split; [|reflexivity].
  apply (target_confined "/docs/" "/docs" "/{id}/{rest...}" "/alias/{id}/{rest...}" files "/docs/7/a/b"
    eq_refl ltac:(discriminate)).
Defined.

Lemma target_refusals_witness :
  exists name, name ∈ Placeholders (TrimPrefix "/{id}/x" "/") /\
    ((fun _ => "") name = "" \/ Contains ((fun _ => "") name) "/" = true /\ multiSegment "/alias/{id}" name = false).
Proof.
  destruct (target_refusals "/docs" "/docs" "/{id}/x" "/alias/{id}" (fun _ => "") ErrNotFound eq_refl)
    as (_ & _ & Hn). exact (Hn eq_refl).
Defined.

(** The page answers at its slash form; the host's own tree stays out of
    reach. *)
Definition siteMux (path : string) : mux_route :=
  if String.eqb path "/docs/7" then SlashRedirect else Handler.

Lemma rewrite_dispatch_confined_witness :
  isSystemPath "/docs/7/" = false /\ siteMux "/docs/7/" = Handler /\
  rewriteHandlerFunc false (Some (mkRewriteTarget "/" "/" false)) (mkAliasGate true "https://s" "en" true)
    (mkRewriteSpec "{p...}" true) "/a/{p...}" "en" (fun _ => "-/oauth/token") siteMux = ErrorStatus 404.
Proof.
  destruct (rewrite_dispatch_confined false (Some (mkRewriteTarget "/docs" "/docs" false))
    (mkAliasGate true "https://s" "en" true) (mkRewriteSpec "/{id}" true) "/alias/{id}" "en" (fun _ => "7") siteMux
    "/docs/7/" (Some "/docs/7/") true eq_refl) as (_ & _ & _ & Hs & Hm & _).
  split; [exact Hs|]. split; [exact Hm|]. reflexivity.
Defined.
