(* ===== verification/Valkey.v ===== *)
(** The shared backend of the cache (src/internal/cache/valkey.go): each
    operation as the Valkey commands it sends, the optimistic transaction of
    Update, the decrement script, generations as key prefixes, and the scan
    over them. The server is third-party: a class of commands, with its
    documented behaviour as laws over a keyspace. *)
From S2P Require Import Prelude GoStr Store MemCache.
From Stdlib Require Import Ascii.

#[local] Open Scope string_scope.

(** * The server *)

(** The commands the cache sends; a [SET] carries its [PX] duration, if any. *)
Inductive command :=
| GET (k : string)
| SET (k v : string) (px : option Z)
| DEL (k : string)
| GETDEL (k : string)
| DECR (k : string).

Definition command_key (c : command) : string :=
  match c with GET k | SET k _ _ | DEL k | GETDEL k | DECR k => k end.

Inductive reply := RNil | RString (s : string) | RInt (n : Z) | RStatus | RError.

(** A server; Lua's numbers, as far as the script uses them: [tonumber], the
    test [n <= 0] and [n - 1] as the integer it is replied as; whether EXEC
    aborts on a watched key after the commands others sent; and SCAN with
    PTTL. *)
Class ValkeyServer := {
  Server : Type;
  run_command : Z -> command -> Server -> reply * Server;
  LuaNumber : Type;
  tonumber : string -> option LuaNumber;
  nonpositive : LuaNumber -> bool;
  less_one : LuaNumber -> Z;
  exec_aborts : string -> list (Z * command) -> Server -> bool;
  scan : Z -> string -> Server -> list string * Z;
  pttl : Z -> string -> Server -> Z;
}.

Definition run_commands `{ValkeyServer} (l : list (Z * command)) (s : Server) : Server :=
  foldl (fun s c => (run_command c.1 c.2 s).2) s l.

(** What the keyspace holds: a value, and the expiry if there is one. *)
Abbreviation keyspace_map := (gmap string (string * option Z)).

Definition live_at (t : Z) (k : string) (m : keyspace_map) : option string :=
  '(v, e) ← m !! k;
  match e with Some e => if after t e then None else Some v | None => Some v end.

(** The same to every reader from [now] on. *)
Definition same_keyspace (now : Z) (m m' : keyspace_map) : Prop :=
  forall t k, now <= t -> live_at t k m = live_at t k m'.

(** Whole milliseconds, the server's resolution. *)
Definition aligned (t : Z) : Prop := (millisecond | t).

(** The documented behaviour of the commands, over what readers can see of the
    keyspace. A duration is honoured to the millisecond, and must be one at
    least; DECR keeps the expiry. *)
Class ValkeyLaws `{ValkeyServer} := {
  keyspace : Server -> keyspace_map;
  GET_reply now k s : (run_command now (GET k) s).1 =
    match live_at now k (keyspace s) with Some v => RString v | None => RNil end;
  GET_keyspace now k s : same_keyspace now (keyspace (run_command now (GET k) s).2) (keyspace s);
  DEL_reply now k s : exists n, (run_command now (DEL k) s).1 = RInt n;
  DEL_keyspace now k s :
    same_keyspace now (keyspace (run_command now (DEL k) s).2) (delete k (keyspace s));
  GETDEL_reply now k s : (run_command now (GETDEL k) s).1 =
    match live_at now k (keyspace s) with Some v => RString v | None => RNil end;
  GETDEL_keyspace now k s :
    same_keyspace now (keyspace (run_command now (GETDEL k) s).2) (delete k (keyspace s));
  SET_reply now k v px s : default millisecond px >= millisecond ->
    (run_command now (SET k v px) s).1 = RStatus;
  SET_keyspace now k v s :
    same_keyspace now (keyspace (run_command now (SET k v None) s).2) (<[k := (v, None)]> (keyspace s));
  SET_px_keyspace now k v px s : millisecond <= px -> exists e,
    same_keyspace now (keyspace (run_command now (SET k v (Some px)) s).2) (<[k := (v, Some e)]> (keyspace s)) /\
    now + px - 2 * millisecond < e <= now + px /\ (aligned now -> aligned px -> e = now + px);
  SET_refused now k v px s : px < millisecond ->
    (run_command now (SET k v (Some px)) s).1 = RError /\
    same_keyspace now (keyspace (run_command now (SET k v (Some px)) s).2) (keyspace s);
  DECR_keyspace now k s n :
    live_at now k (keyspace s) = Some (FormatInt n) -> int64_min < n <= int64_max ->
    (run_command now (DECR k) s).1 = RInt (n - 1) /\
    same_keyspace now (keyspace (run_command now (DECR k) s).2)
      (alter (fun x => (FormatInt (n - 1), x.2)) k (keyspace s));
  tonumber_int n : - 2 ^ 53 <= n <= 2 ^ 53 -> exists x,
    tonumber (FormatInt n) = Some x /\ nonpositive x = (n <=? 0)%Z /\ less_one x = (n - 1)%Z;
  command_frame now c s t k : k <> command_key c -> now <= t ->
    live_at t k (keyspace (run_command now c s).2) = live_at t k (keyspace s);
  exec_untouched k l s : Forall (fun c => command_key c.2 <> k) l -> exec_aborts k l s = false;
  exec_unchanged k l s t : exec_aborts k l s = false ->
    Forall (fun c => c.1 <= t) l -> live_at t k (keyspace (run_commands l s)) = live_at t k (keyspace s);
}.

Section Valkey.
Context `{!ValkeyServer}.

(** * Calls *)

(** A call reaches the server and is answered, or never reaches it, or takes
    effect and its answer is lost. *)
Inductive delivery := Delivered | Undelivered | Unanswered.

Definition do_call (d : delivery) (now : Z) (c : command) (s : Server) : reply * Server :=
  match d with
  | Delivered => run_command now c s
  | Undelivered => (RError, s)
  | Unanswered => (RError, (run_command now c s).2)
  end.

(** [ToString]: the text, whether it is nil, whether it is an error. *)
Definition to_string (r : reply) : string * bool * bool :=
  match r with
  | RString v => (v, false, false)
  | RNil => ("", true, false)
  | _ => ("", false, true)
  end.

(** * One cache *)

Record ValkeyCache := mkValkey {
  vc_class : string;
  vc_currentChecksum : string;
  vc_host : string;
  vc_maxItems : Z;
  vc_uncycled : bool;
  vc_prefix : string;
  vc_prevPrefix : string;
  vc_ttl : Z;
}.

(** What a read returns: value, found, current, and whether there is an error. *)
Record lookup_answer := mkLookup { la_val : string; la_found : bool; la_current : bool; la_err : bool }.

(** [(val, found, err)] of [getValue] and [getDelValue]: an error comes with
    found true. *)
Definition value_of (r : reply) : string * bool * bool :=
  let '(v, isNil, err) := to_string r in if isNil then ("", false, false) else (v, true, err).

Definition getValue (d : delivery) (now : Z) (fullKey : string) (s : Server)
    : string * bool * bool * Server :=
  let '(r, s) := do_call d now (GET fullKey) s in (value_of r, s).

Definition getDelValue (d : delivery) (now : Z) (fullKey : string) (s : Server)
    : string * bool * bool * Server :=
  let '(r, s) := do_call d now (GETDEL fullKey) s in (value_of r, s).

(** The current generation, then the previous one if there is one: the shape
    of [Get] and [GetAndDelete]. *)
Definition in_generations (read : delivery -> Z -> string -> Server -> string * bool * bool * Server)
    (net : nat -> delivery) (now : Z) (c : ValkeyCache) (key : string) (s : Server)
    : lookup_answer * Server :=
  let '((val, found, err), s) := read (net 0%nat) now (vc_prefix c ++ key) s in
  if (err || found)%bool then (mkLookup val found true err, s) else
  if String.eqb (vc_prevPrefix c) "" then (mkLookup "" false true false, s) else
  let '((val, found, err), s) := read (net 1%nat) now (vc_prevPrefix c ++ key) s in
  if (found : bool) then (mkLookup val true false err, s) else (mkLookup "" false true false, s).

Definition Get := in_generations getValue.
Definition GetAndDelete := in_generations getDelValue.

Definition is_error (r : reply) : bool := match r with RError => true | _ => false end.

(** Whether it failed. *)
Definition Delete (net : nat -> delivery) (now : Z) (c : ValkeyCache) (key : string) (s : Server)
    : bool * Server :=
  let '(r, s) := do_call (net 0%nat) now (DEL (vc_prefix c ++ key)) s in
  if is_error r then (true, s) else
  if String.eqb (vc_prevPrefix c) "" then (false, s) else
  let '(r, s) := do_call (net 1%nat) now (DEL (vc_prevPrefix c ++ key)) s in (is_error r, s).

(** [target]: the ttl and the no-expiry flag of a write. *)
Definition target (c : ValkeyCache) (opts : list SetOption) : string * Z * bool :=
  let o := applySetOptions opts in (vc_prefix c, default (vc_ttl c) (so_TTL o), so_NoExpiry o).

Definition setCmd (fullKey value : string) (ttl : Z) (noExpiry : bool) : command :=
  SET fullKey value (if noExpiry then None else Some ttl).

Definition Set_ (net : nat -> delivery) (now : Z) (c : ValkeyCache) (key value : string)
    (opts : list SetOption) (s : Server) : bool * Server :=
  let '(prefix, ttl, noExpiry) := target c opts in
  let '(r, s) := do_call (net 0%nat) now (setCmd (prefix ++ key) value ttl noExpiry) s in
  (is_error r, s).

(** The script, which the server runs at once; [None] is a script error. *)
Definition decrIfPositiveScript (now : Z) (key : string) (s : Server) : option Z * Server :=
  let '(v, s) := run_command now (GET key) s in
  match v with
  | RNil => (Some (-1)%Z, s)
  | RString v =>
      match tonumber v with
      | None => (Some (-1)%Z, s)
      | Some n =>
          if nonpositive n then (Some (-1)%Z, s) else
          let '(r, s) := run_command now (DECR key) s in
          if is_error r then (None, s) else (Some (less_one n), s)
      end
  | _ => (None, s)
  end.

(** The remaining count, success, and whether there is an error. *)
Definition DecrementIfPositive (net : nat -> delivery) (now : Z) (c : ValkeyCache) (key : string)
    (s : Server) : Z * bool * bool * Server :=
  let fullKey := vc_prefix c ++ key in
  let '(r, s) := match net 0%nat with
    | Delivered => decrIfPositiveScript now fullKey s
    | Undelivered => (None, s)
    | Unanswered => (None, (decrIfPositiveScript now fullKey s).2)
    end in
  match r with
  | None => ((-1)%Z, false, true, s)
  | Some rem => if (rem <? 0)%Z then ((-1)%Z, false, false, s) else (rem, true, false, s)
  end.

(** * Update *)

Definition updateAttempts : nat := 16.

(** One attempt's environment: when it reads and commits, what happens to its
    calls, and the commands of others between the two. *)
Record attempt := mkAttempt {
  at_read : Z;
  at_commit : Z;
  at_others : list (Z * command);
  at_watch : delivery;
  at_get : delivery;
  at_exec : delivery;
  at_unwatch : bool;
}.

Inductive update_answer := Wrote (wrote : bool) | CallFailed | Contended.

(** MULTI, the write, EXEC: nil when the watched key changed; the write's own
    reply is inside the array, and not looked at. *)
Definition exec_write (now : Z) (k : string) (others : list (Z * command)) (write : command)
    (before s : Server) : reply * Server :=
  if exec_aborts k others before then (RNil, s) else (RStatus, (run_command now write s).2).

(** The end of an attempt, or [None] to try again. *)
Definition update_attempt (a : attempt) (fullKey : string) (ttl : Z) (noExpiry : bool) (fn : UpdateFunc)
    (s : Server) : option update_answer * Server :=
  match at_watch a with
  | Delivered =>
      let '(r, s) := do_call (at_get a) (at_read a) (GET fullKey) s in
      let '(current, isNil, err) := to_string r in
      if err then (Some CallFailed, s) else
      let '(next, write) := fn current (negb isNil) in
      if negb write then (Some (if at_unwatch a then Wrote false else CallFailed), s) else
      let s' := run_commands (at_others a) s in
      let '(r, s'') := exec_write (at_commit a) fullKey (at_others a) (setCmd fullKey next ttl noExpiry) s s' in
      match at_exec a with
      | Delivered => match r with RNil => (None, s'') | _ => (Some (Wrote true), s'') end
      | Undelivered => (Some CallFailed, s')
      | Unanswered => (Some CallFailed, s'')
      end
  | _ => (Some CallFailed, s)
  end.

(** Attempt [i] of those left. *)
Fixpoint update_loop (remaining i : nat) (env : nat -> attempt) (fullKey : string) (ttl : Z) (noExpiry : bool)
    (fn : UpdateFunc) (s : Server) : update_answer * Server :=
  match remaining with
  | O => (Contended, s)
  | S remaining =>
      match update_attempt (env i) fullKey ttl noExpiry fn s with
      | (Some a, s) => (a, s)
      | (None, s) => update_loop remaining (S i) env fullKey ttl noExpiry fn s
      end
  end.

Definition Update (env : nat -> attempt) (c : ValkeyCache) (key : string) (fn : UpdateFunc)
    (opts : list SetOption) (s : Server) : update_answer * Server :=
  let '(prefix, ttl, noExpiry) := target c opts in
  update_loop updateAttempts 0 env (prefix ++ key) ttl noExpiry fn s.

(** * The manager *)

Record ValkeyCacheManager := mkValkeyManager {
  vm_caches : gmap string ValkeyCache;
  vm_currentChecksum : string;
  vm_host : string;
  vm_ttl : Z;
}.

Definition prefix_of (host class generation : string) : string :=
  "{" ++ host ++ ":" ++ class ++ ":" ++ generation ++ "}:".

(** One cache's turn in [Cycle]. *)
Definition cycle_valkey (host checksum : string) (force : bool) (c : ValkeyCache) : ValkeyCache :=
  let moved prev := mkValkey (vc_class c) checksum (vc_host c) (vc_maxItems c) (vc_uncycled c)
    (prefix_of host (vc_class c) checksum) prev (vc_ttl c) in
  if vc_uncycled c then c
  else if force then moved ""
  else if negb (String.eqb (vc_currentChecksum c) checksum) then moved (vc_prefix c)
  else c.

Definition Cycle (checksum : string) (force : bool) (m : ValkeyCacheManager) : ValkeyCacheManager :=
  mkValkeyManager (cycle_valkey (vm_host m) checksum force <$> vm_caches m) checksum (vm_host m) (vm_ttl m).

(** The options a class is asked for again with. *)
Definition adjust_valkey (m : ValkeyCacheManager) (class : string) (opts : CacheOptions) (c : ValkeyCache)
    : ValkeyCache :=
  let c := if Bool.eqb (vc_uncycled c) (o_Uncycled opts) then c else
    let cur := generationFor (o_Uncycled opts) (vm_currentChecksum m) in
    mkValkey (vc_class c) cur (vc_host c) (vc_maxItems c) (o_Uncycled opts)
      (prefix_of (vm_host m) class cur) "" (vc_ttl c) in
  mkValkey (vc_class c) (vc_currentChecksum c) (vc_host c) (default (vc_maxItems c) (o_MaxItems opts))
    (vc_uncycled c) (vc_prefix c) (vc_prevPrefix c)
    (match o_TTL opts with
     | Some t => if (negb (vc_ttl c =? t)%Z && (minTTL <=? t)%Z)%bool then t else vc_ttl c
     | None => vc_ttl c
     end).

Definition new_valkey (m : ValkeyCacheManager) (class : string) (opts : CacheOptions) : ValkeyCache :=
  let cur := generationFor (o_Uncycled opts) (vm_currentChecksum m) in
  mkValkey class cur (vm_host m) (default 1000 (o_MaxItems opts)) (o_Uncycled opts)
    (prefix_of (vm_host m) class cur) ""
    (match o_TTL opts with Some t => if (minTTL <=? t)%Z then t else vm_ttl m | None => vm_ttl m end).

Definition GetCache (class : string) (opts : CacheOptions) (m : ValkeyCacheManager)
    : ValkeyCache * ValkeyCacheManager :=
  let c := match vm_caches m !! class with
           | Some c => adjust_valkey m class opts c
           | None => new_valkey m class opts
           end in
  (c, mkValkeyManager (<[class := c]> (vm_caches m)) (vm_currentChecksum m) (vm_host m) (vm_ttl m)).

(** * Scanning generations *)

Record Entry := mkEntry { en_Generation : string; en_Key : string; en_TTL : Z; en_Value : string }.

(** [strings.Cut] at a separator of several bytes. *)
Fixpoint CutString (sep s : string) : option (string * string) :=
  match CutPrefix s sep with
  | Some rest => Some ("", rest)
  | None => match s with
            | "" => None
            | String c s => '(a, b) ← CutString sep s; Some (String c a, b)
            end
  end.

(** The generation and the key of a full key, if it is one of the class's. *)
Definition entry_key (host class fullKey : string) : option (string * string) :=
  match CutString "}:" fullKey with
  | None => None
  | Some (tag, key) =>
      generation ← CutPrefix tag ("{" ++ host ++ ":" ++ class ++ ":");
      if Contains generation ":" then None else Some (generation, key)
  end.

(** [Err tt] is a failed call; the inner option is the comma-ok. *)
Definition entry (up : bool) (now : Z) (host class fullKey : string) (s : Server)
    : result unit (option Entry) * Server :=
  match entry_key host class fullKey with
  | None => (Ok None, s)
  | Some (generation, key) =>
      if negb up then (Err tt, s) else
      let '(r, s) := run_command now (GET fullKey) s in
      let '(value, isNil, err) := to_string r in
      if isNil then (Ok None, s) else if err then (Err tt, s) else
      let t := pttl now fullKey s in
      (Ok (Some (mkEntry generation key (if (0 <? t)%Z then (t * millisecond)%Z else 0%Z) value)), s)
  end.

(** The bytes SCAN's MATCH treats as a pattern. *)
Definition glob_special (c : ascii) : bool := has_byte c "\*?[]^".

Fixpoint globEscape (s : string) : string :=
  match s with
  | "" => ""
  | String c s => if glob_special c then String "\" (String c (globEscape s)) else String c (globEscape s)
  end.

Definition scan_pattern (host class : string) : string :=
  globEscape ("{" ++ host ++ ":" ++ class ++ ":") ++ "*".

(** One page of keys: the entries handed on, stopping at the first failure of
    a read or of [fn]. *)
Fixpoint scan_page {A} (read_up : string -> bool) (now : Z) (host class : string)
    (fn : A -> Entry -> option A) (keys : list string) (acc : A) (s : Server) : option A * Server :=
  match keys with
  | [] => (Some acc, s)
  | k :: keys =>
      match entry (read_up k) now host class k s with
      | (Err _, s) => (None, s)
      | (Ok None, s) => scan_page read_up now host class fn keys acc s
      | (Ok (Some e), s) =>
          match fn acc e with
          | Some acc => scan_page read_up now host class fn keys acc s
          | None => (None, s)
          end
      end
  end.

(** Page [i] on, over at most [fuel] pages; [scan_up] says which pages load.
    The outer option is lack of fuel, the inner one a failure. *)
Fixpoint ScanGenerations {A} (fuel i : nat) (scan_up : nat -> bool) (read_up : string -> bool) (now : Z)
    (host class : string) (fn : A -> Entry -> option A) (cursor : Z) (acc : A) (s : Server)
    : option (option A) * Server :=
  match fuel with
  | O => (None, s)
  | S fuel =>
      if negb (scan_up i) then (Some None, s) else
      let '(keys, cursor) := scan cursor (scan_pattern host class) s in
      match scan_page read_up now host class fn keys acc s with
      | (None, s) => (Some None, s)
      | (Some acc, s) =>
          if (cursor =? 0)%Z then (Some (Some acc), s)
          else ScanGenerations fuel (S i) scan_up read_up now host class fn cursor acc s
      end
  end.
End Valkey.
