(* ===== verification/ValkeySpec.v ===== *)
(** What the shared backend promises: it implements the store the rest of the
    program is verified against, while others use the same server; Update loses
    no write; generations and classes stay apart; a scan reads back what was
    written. *)
From S2P Require Import Prelude GoStr Store MemCache Valkey.
From Stdlib Require Import Ascii.

#[local] Open Scope string_scope.

Lemma append_inj_l (p a b : string) : p ++ a = p ++ b -> a = b.
Proof. induction p as [|c p IH]; cbn; [done|]. intros [=]. by apply IH. Qed.

(** * Keyspaces *)

#[global] Instance same_keyspace_equiv now : Equivalence (same_keyspace now).
Proof.
  split; unfold same_keyspace; [done|by intros x y Hxy t k Ht; rewrite Hxy|].
  intros x y z Hxy Hyz t k Ht. by rewrite Hxy, Hyz.
Qed.

Lemma same_later now now' x y : now <= now' -> same_keyspace now x y -> same_keyspace now' x y.
Proof. intros Hle Hxy t k Ht. apply Hxy. lia. Qed.

Lemma live_delete t k k' (ks : keyspace_map) :
  live_at t k' (delete k ks) = if decide (k' = k) then None else live_at t k' ks.
Proof.
  unfold live_at. case_decide as Hk; [subst; by rewrite lookup_delete_eq|by rewrite lookup_delete_ne].
Qed.

Lemma live_insert t k k' v e (ks : keyspace_map) :
  live_at t k' (<[k := (v, e)]> ks) =
  if decide (k' = k) then match e with Some e => if after t e then None else Some v | None => Some v end
  else live_at t k' ks.
Proof.
  unfold live_at. case_decide as Hk; [subst; by rewrite lookup_insert_eq|by rewrite lookup_insert_ne].
Qed.

Lemma live_alter t k k' n (ks : keyspace_map) :
  live_at t k' (alter (fun x => (n, x.2)) k ks) =
  if decide (k' = k) then (fun _ => n) <$> live_at t k' ks else live_at t k' ks.
Proof.
  unfold live_at. case_decide as Hk; [subst; rewrite lookup_alter_eq|by rewrite lookup_alter_ne].
  destruct (ks !! k) as [[v [e|]]|]; cbn; [|done|done]. by destruct (after t e).
Qed.

(** * One cache against the abstract store *)

Section Refinement.
Context `{ValkeyLaws}.

Implicit Types (c : ValkeyCache) (srv : Server) (st : store).

(** What readers of a cache's keys see, as long as there is a calendar. *)
Definition shows (now : Z) (prefix : string) srv st : Prop :=
  forall t k, now <= t <= neverExpires -> live_at t (prefix ++ k) (keyspace srv) = st_get t k st.

Lemma shows_later now now' p srv st : now <= now' -> shows now p srv st -> shows now' p srv st.
Proof. intros Hle Hs t k Ht. apply Hs. lia. Qed.

Lemma shows_same now p srv srv' st :
  same_keyspace now (keyspace srv') (keyspace srv) -> shows now p srv st -> shows now p srv' st.
Proof. intros Hk Hs t k Ht. rewrite Hk by lia. by apply Hs. Qed.

(** The store changes as the keyspace does, at one key. *)
Lemma shows_at now p srv srv' st st' k ks :
  same_keyspace now (keyspace srv') ks -> shows now p srv st ->
  (forall t k', now <= t <= neverExpires -> live_at t (p ++ k') ks =
     if decide (k' = k) then st_get t k st' else live_at t (p ++ k') (keyspace srv)) ->
  (forall t k', k' <> k -> st_get t k' st' = st_get t k' st) -> shows now p srv' st'.
Proof.
  intros Hk Hs Hks Ho t k' Ht. rewrite Hk, Hks by lia. case_decide as Hd; [by subst|].
  rewrite Ho by done. by apply Hs.
Qed.

Lemma decide_prefix {A} (p k k' : string) (x y : A) :
  (if decide (p ++ k' = p ++ k) then x else y) = (if decide (k' = k) then x else y).
Proof.
  destruct (decide (k' = k)) as [->|Hne]; [by rewrite decide_True|].
  rewrite decide_False; [done|]. intros ?%append_inj_l. done.
Qed.

Lemma shows_delete now p srv srv' st k :
  same_keyspace now (keyspace srv') (delete (p ++ k) (keyspace srv)) -> shows now p srv st ->
  shows now p srv' (delete k st).
Proof.
  intros Hk Hs. eapply (shows_at _ _ _ _ _ _ k); [exact Hk|exact Hs| |].
  - intros t k' Ht. rewrite live_delete, decide_prefix. case_decide; [|done]. by rewrite st_get_delete.
  - intros t k' Hne. by apply st_get_delete_ne.
Qed.

Lemma shows_getdel now p srv srv' st k :
  now <= neverExpires ->
  same_keyspace now (keyspace srv') (delete (p ++ k) (keyspace srv)) -> shows now p srv st ->
  shows now p srv' (st_getdel now k st).2.
Proof.
  intros Hn Hk Hs. unfold st_getdel. destruct (st_get now k st) as [v|] eqn:Hg; [by apply (shows_delete _ _ srv)|].
  eapply (shows_at _ _ _ _ _ _ k); [exact Hk|exact Hs| |done].
  intros t k' Ht. rewrite live_delete, decide_prefix. case_decide; [|done]. cbn.
  destruct (st_get t k st) eqn:Ht'; [|done]. apply (st_get_anti now) in Ht'; [congruence|lia].
Qed.

(** A write the server honours to the millisecond. *)
Definition writable (dttl : Z) (opts : list SetOption) : Prop :=
  let o := applySetOptions opts in
  so_NoExpiry o = true \/ millisecond <= default dttl (so_TTL o) /\ aligned (default dttl (so_TTL o)).

Lemma shows_set now p srv st k v c opts :
  aligned now -> writable (vc_ttl c) opts -> shows now p srv st ->
  let o := applySetOptions opts in
  let cmd := setCmd (p ++ k) v (default (vc_ttl c) (so_TTL o)) (so_NoExpiry o) in
  (run_command now cmd srv).1 = RStatus /\
  shows now p (run_command now cmd srv).2 (st_set now (vc_ttl c) k v o st).
Proof.
  intros Ha Hw Hs o cmd. unfold writable in Hw. fold o in Hw. unfold cmd, setCmd, st_set, expiry_of.
  set (ttl := default (vc_ttl c) (so_TTL o)) in *.
  destruct (so_NoExpiry o) eqn:Hno.
  - split; [apply SET_reply; cbn; lia|].
    eapply (shows_at _ _ _ _ _ _ k); [apply SET_keyspace|exact Hs| |].
    + intros t k' Ht. rewrite live_insert, decide_prefix. case_decide; [|done].
      unfold st_get. rewrite lookup_insert_eq. cbn. by rewrite (proj2 (after_false _ _)) by lia.
    + intros t k' Hne. unfold st_get. by rewrite lookup_insert_ne.
  - destruct Hw as [?|[Hge Hal]]; [done|]. split; [apply SET_reply; cbn; lia|].
    destruct (SET_px_keyspace now (p ++ k) v ttl srv Hge) as (e & Hk & _ & He).
    eapply (shows_at _ _ _ _ _ _ k); [exact Hk|exact Hs| |].
    + intros t k' Ht. rewrite live_insert, decide_prefix. case_decide; [|done].
      unfold st_get. rewrite lookup_insert_eq, (He Ha Hal). done.
    + intros t k' Hne. unfold st_get. by rewrite lookup_insert_ne.
Qed.

(** Values a counter may hold, and values that are no number to anyone. *)
Definition tame (v : string) : Prop :=
  (exists n, v = FormatInt n /\ - 2 ^ 53 <= n <= 2 ^ 53) \/ (tonumber v = None /\ ParseInt v = None).

Definition all_tame st : Prop := map_Forall (fun _ x => tame x.1) st.

Lemma shows_decr now p srv st k :
  now <= neverExpires -> all_tame st -> shows now p srv st ->
  let '(r, srv') := decrIfPositiveScript now (p ++ k) srv in
  let '(n, ok, st') := st_decr now k st in
  r = Some n /\ (ok = false -> n = (-1)%Z) /\ (ok = true -> 0 <= n) /\ shows now p srv' st' /\ all_tame st'.
Proof.
  intros Hn Ht Hs. unfold decrIfPositiveScript.
  pose proof (GET_reply now (p ++ k) srv) as Hr. pose proof (GET_keyspace now (p ++ k) srv) as Hk.
  destruct (run_command now (GET (p ++ k)) srv) as [r srv1]. cbn in Hr, Hk. subst r.
  pose proof (shows_same _ _ _ _ _ Hk Hs) as Hs1. rewrite Hs by lia.
  destruct (st_get now k st) as [v|] eqn:Hg; [|rewrite st_decr_none by done; by split_and!].
  unfold st_get in Hg. unfold st_decr. destruct (st !! k) as [[w e]|] eqn:Hl; [|done].
  cbn in Hg. destruct (after now e) eqn:Ha; [done|]. injection Hg as ->.
  pose proof (Ht k (v, e) Hl) as Htame. cbn in Htame. destruct Htame as [(n & -> & Hb)|[-> ->]]; [|by split_and!].
  destruct (tonumber_int n Hb) as (x & -> & Hx & Hp). rewrite Hx.
  rewrite ParseInt_FormatInt
    by (unfold in_int64, int64_min, int64_max; apply andb_true_iff; split; apply Z.leb_le; lia).
  destruct (n <=? 0)%Z eqn:Hn0; [by split_and!|]. apply Z.leb_gt in Hn0.
  assert (live_at now (p ++ k) (keyspace srv1) = Some (FormatInt n)) as Hlive.
  { rewrite Hs1 by lia. unfold st_get. rewrite Hl. cbn. by rewrite Ha. }
  destruct (DECR_keyspace now (p ++ k) srv1 n Hlive ltac:(unfold int64_min, int64_max; lia)) as [Hd Hkd].
  destruct (run_command now (DECR (p ++ k)) srv1) as [r srv2]. cbn in Hd, Hkd. subst r. cbn [is_error].
  rewrite Hp. split_and!; [done|done|lia| |].
  - eapply (shows_at _ _ _ _ _ _ k); [exact Hkd|exact Hs1| |].
    + intros t k' Htm. rewrite live_alter, decide_prefix. case_decide as Hd; [|done]. subst.
      rewrite Hs1 by lia. unfold st_get. rewrite Hl, lookup_insert_eq. cbn. by destruct (after t e).
    + intros t k' Hne. unfold st_get. by rewrite lookup_insert_ne.
  - apply map_Forall_insert_2; [|done]. left. exists (n - 1)%Z. split; [done|lia].
Qed.

(** ** Whole runs *)

Definition delivered : nat -> delivery := fun _ => Delivered.

(** Nobody else writes between an Update's read and its commit. *)
Definition calm (now : Z) : nat -> attempt :=
  fun _ => mkAttempt now now [] Delivered Delivered Delivered true.

Definition value_answer (a : lookup_answer) : option answer :=
  if la_err a then None else Some (AValue (if la_found a then Some (la_val a) else None)).

Definition valkey_serve c (r : request) (s : Server) : option answer * Server :=
  match r with
  | RGet t k => let '(a, s) := Get delivered t c k s in (value_answer a, s)
  | RGetAndDelete t k => let '(a, s) := GetAndDelete delivered t c k s in (value_answer a, s)
  | RDelete t k => let '(failed, s) := Delete delivered t c k s in
                   (if (failed : bool) then None else Some AUnit, s)
  | RSet t k v opts => let '(failed, s) := Set_ delivered t c k v opts s in
                       (if (failed : bool) then None else Some AUnit, s)
  | RUpdate t k fn opts =>
      let '(a, s) := Update (calm t) c k fn opts s in
      (match a with Wrote b => Some (AWrote b) | _ => None end, s)
  | RDecrement t k => let '(n, ok, err, s) := DecrementIfPositive delivered t c k s in
                      (if (err : bool) then None else Some (ACount n ok), s)
  end.

(** Our requests, and anything others do at other keys. *)
Inductive event := Ours (r : request) | Theirs (now : Z) (cmd : command).

Definition event_time (e : event) : Z := match e with Ours r => request_time r | Theirs t _ => t end.

Definition fits c (e : event) : Prop :=
  match e with
  | Ours (RSet t _ v opts) => aligned t /\ writable (vc_ttl c) opts /\ tame v
  | Ours (RUpdate t _ fn opts) => aligned t /\ writable (vc_ttl c) opts /\ forall x b, tame (fn x b).1
  | Ours _ => True
  | Theirs _ cmd => HasPrefix (command_key cmd) (vc_prefix c) = false
  end.

Fixpoint valkey_run c (l : list event) (s : Server) : list (option answer) * Server :=
  match l with
  | [] => ([], s)
  | Ours r :: l => let '(a, s) := valkey_serve c r s in
                   let '(answers, s) := valkey_run c l s in (a :: answers, s)
  | Theirs t cmd :: l => valkey_run c l (run_command t cmd s).2
  end.

Fixpoint store_run (dttl : Z) (l : list event) (s : store) : list (option answer) * store :=
  match l with
  | [] => ([], s)
  | Ours r :: l => let '(a, s) := store_serve dttl r s in
                   let '(answers, s) := store_run dttl l s in (Some a :: answers, s)
  | Theirs _ _ :: l => store_run dttl l s
  end.

Lemma tame_delete k st : all_tame st -> all_tame (delete k st).
Proof. intros Ht. by apply map_Forall_delete. Qed.

Lemma tame_set t d k v o st : tame v -> all_tame st -> all_tame (st_set t d k v o st).
Proof. intros Hv Ht. by apply map_Forall_insert_2. Qed.

Lemma value_of_live srv st now p k : shows now p srv st -> now <= neverExpires ->
  value_of (match live_at now (p ++ k) (keyspace srv) with Some v => RString v | None => RNil end) =
  (default "" (st_get now k st), found (st_get now k st), false).
Proof. intros Hs Hn. rewrite Hs by lia. by destruct (st_get now k st). Qed.

(** Both reads of one generation, over the command that reads. *)
Lemma read_spec (del : bool) c srv st now k :
  vc_prevPrefix c = "" -> now <= neverExpires -> shows now (vc_prefix c) srv st ->
  let '(v, st') := if del then st_getdel now k st else (st_get now k st, st) in
  let '(a, srv') := in_generations (if del then getDelValue else getValue) delivered now c k srv in
  value_answer a = Some (AValue v) /\ shows now (vc_prefix c) srv' st'.
Proof.
  intros Hp Hn Hs. unfold in_generations, delivered.
  assert (exists srv', (if del then getDelValue else getValue) Delivered now (vc_prefix c ++ k) srv =
    ((default "" (st_get now k st), found (st_get now k st), false), srv') /\
    shows now (vc_prefix c) srv' (if del then (st_getdel now k st).2 else st)) as (srv' & He & Hs').
  { destruct del; unfold getDelValue, getValue, do_call.
    - pose proof (GETDEL_reply now (vc_prefix c ++ k) srv) as Hr.
      pose proof (GETDEL_keyspace now (vc_prefix c ++ k) srv) as Hk.
      destruct (run_command now (GETDEL _) srv) as [r srv1]. cbn in Hr, Hk. subst r. exists srv1.
      rewrite (value_of_live srv st) by done. split; [done|by apply (shows_getdel _ _ srv)].
    - pose proof (GET_reply now (vc_prefix c ++ k) srv) as Hr.
      pose proof (GET_keyspace now (vc_prefix c ++ k) srv) as Hk.
      destruct (run_command now (GET _) srv) as [r srv1]. cbn in Hr, Hk. subst r. exists srv1.
      rewrite (value_of_live srv st) by done. split; [done|by apply (shows_same _ _ srv)]. }
  rewrite He, Hp. destruct del.
  - unfold st_getdel in Hs' |- *. destruct (st_get now k st); cbn in Hs' |- *; done.
  - destruct (st_get now k st); cbn; done.
Qed.

Lemma serve_refines c r srv st :
  vc_prevPrefix c = "" -> request_time r <= neverExpires -> fits c (Ours r) -> all_tame st ->
  shows (request_time r) (vc_prefix c) srv st ->
  let '(a, st') := store_serve (vc_ttl c) r st in
  let '(b, srv') := valkey_serve c r srv in
  b = Some a /\ shows (request_time r) (vc_prefix c) srv' st' /\ all_tame st'.
Proof.
  intros Hp Hn Hf Ht Hs. destruct r as [t k|t k|t k|t k v opts|t k fn opts|t k]; cbn [request_time] in *.
  - pose proof (read_spec false c srv st t k Hp Hn Hs) as Hr. cbn. unfold Get. cbn in Hr.
    destruct (in_generations getValue delivered t c k srv) as [a srv']. by destruct Hr.
  - pose proof (read_spec true c srv st t k Hp Hn Hs) as Hr. cbn in Hr |- *. unfold GetAndDelete.
    assert (all_tame (st_getdel t k st).2) as Ht'.
    { unfold st_getdel. destruct (st_get t k st); [by apply tame_delete|done]. }
    destruct (st_getdel t k st) as [v st']. cbn in Ht' |- *.
    destruct (in_generations getDelValue delivered t c k srv) as [a srv']. by destruct Hr.
  - cbn. unfold Delete, delivered, do_call. rewrite Hp.
    destruct (DEL_reply t (vc_prefix c ++ k) srv) as [n Hr].
    pose proof (DEL_keyspace t (vc_prefix c ++ k) srv) as Hk.
    destruct (run_command t (DEL _) srv) as [r srv']. cbn in Hr, Hk. subst r. cbn.
    split_and!; [done|by apply (shows_delete _ _ srv)|by apply tame_delete].
  - destruct Hf as (Ha & Hw & Hv). cbn. unfold Set_, target, delivered, do_call.
    destruct (shows_set t _ srv st k v c opts Ha Hw Hs) as [Hr Hs'].
    destruct (run_command t _ srv) as [r srv']. cbn in Hr, Hs'. subst r. cbn.
    split_and!; [done|done|by apply tame_set].
  - destruct Hf as (Ha & Hw & Hv). cbn [store_serve valkey_serve]. unfold Update, target, updateAttempts.
    cbn [update_loop]. unfold update_attempt, calm. cbn [at_watch at_get at_read at_others at_commit at_exec at_unwatch].
    unfold do_call. pose proof (GET_reply t (vc_prefix c ++ k) srv) as Hr.
    pose proof (GET_keyspace t (vc_prefix c ++ k) srv) as Hk.
    destruct (run_command t (GET _) srv) as [r srv1]. cbn in Hr, Hk. subst r.
    pose proof (shows_same _ _ _ _ _ Hk Hs) as Hs1. rewrite Hs by lia. unfold st_update.
    assert (to_string (match st_get t k st with Some v => RString v | None => RNil end) =
      (default "" (st_get t k st), negb (found (st_get t k st)), false)) as -> by (by destruct (st_get t k st)).
    rewrite negb_involutive. pose proof (Hv (default "" (st_get t k st)) (found (st_get t k st))) as Hx.
    destruct (fn _ _) as [next write]. destruct write; cbn [negb]; [|by split_and!].
    unfold exec_write. rewrite exec_untouched by constructor. cbn [run_commands foldl].
    destruct (shows_set t _ srv1 st k next c opts Ha Hw Hs1) as [_ Hs'].
    destruct (run_command t _ srv1) as [r srv']. cbn in Hs' |- *.
    split_and!; [done|done|by apply tame_set].
  - cbn. unfold DecrementIfPositive, delivered. pose proof (shows_decr t _ srv st k Hn Ht Hs) as Hd.
    destruct (decrIfPositiveScript t _ srv) as [r srv']. destruct (st_decr t k st) as [[n ok] st'].
    destruct Hd as (-> & Hf1 & Hf2 & Hs' & Ht'). destruct ok.
    + rewrite (proj2 (Z.ltb_ge n 0)) by (by apply Hf2). done.
    + rewrite Hf1 by done. done.
Qed.

(** C28: The shared backend implements the store. Whatever requests a surviving
    cache serves in time order, and whatever other classes, hosts and programs
    do at their own keys of the same server in between, every call answers,
    and answers what the abstract store answers; and the keys of the cache
    show the abstract store from then on. The times and lifetimes are whole
    milliseconds, the server's resolution, and a value is a counter within
    what Lua counts exactly, or no number. *)
Theorem valkey_refines_store c l : forall t0 srv st,
  vc_prevPrefix c = "" -> Forall (fits c) l -> all_tame st -> shows t0 (vc_prefix c) srv st ->
  StronglySorted Z.le (t0 :: (event_time <$> l)) -> Forall (fun e => event_time e <= neverExpires) l ->
  let '(answers, srv') := valkey_run c l srv in
  let '(expected, st') := store_run (vc_ttl c) l st in
  answers = expected /\ shows (foldl (fun _ e => event_time e) t0 l) (vc_prefix c) srv' st'.
Proof.
  induction l as [|e l IH]; intros t0 srv st Hp Hf Ht Hs Hsort Hn; [by cbn|].
  apply Forall_cons in Hf as [He Hf]. apply Forall_cons in Hn as [Hne Hn].
  apply StronglySorted_inv in Hsort as [Hsort Hle]. apply Forall_cons in Hle as [Hle _].
  assert (forall t srv' st', all_tame st' -> shows (event_time e) (vc_prefix c) srv' st' ->
    let '(answers, srv') := valkey_run c l srv' in
    let '(expected, st') := store_run (vc_ttl c) l st' in
    answers = expected /\ shows (foldl (fun _ e => event_time e) t (e :: l)) (vc_prefix c) srv' st') as Hnext.
  { intros t srv' st' Ht' Hs'. pose proof (IH (event_time e) srv' st' Hp Hf Ht' Hs' Hsort Hn) as HI.
    destruct (valkey_run c l srv'), (store_run (vc_ttl c) l st'). exact HI. }
  apply (shows_later _ (event_time e)) in Hs; [|done].
  destruct e as [r|t cmd]; cbn [valkey_run store_run].
  - pose proof (serve_refines c r srv st Hp Hne He Ht Hs) as Hr.
    destruct (store_serve (vc_ttl c) r st) as [a st']. destruct (valkey_serve c r srv) as [b srv'].
    destruct Hr as (-> & Hs' & Ht'). pose proof (Hnext t0 srv' st' Ht' Hs') as HI.
    destruct (valkey_run c l srv'), (store_run (vc_ttl c) l st'). by destruct HI as [-> HI].
  - apply Hnext; [done|]. intros t' k Ht'. cbn [event_time] in Ht'.
    rewrite command_frame; [by apply Hs| |lia].
    intros Hk. cbn in He. rewrite <- Hk in He. by rewrite HasPrefix_append in He.
Qed.
End Refinement.

(** * Update under contention *)

Section Update.
Context `{ValkeyLaws}.

Variables (env : nat -> attempt) (k : string) (ttl : Z) (noExpiry : bool) (fn : UpdateFunc).

(** What attempt [i] saw: the server after its read, and after the others. *)
Definition after_read (i : nat) (s : Server) : Server := (run_command (at_read (env i)) (GET k) s).2.
Definition after_others (i : nat) (s : Server) : Server :=
  run_commands (at_others (env i)) (after_read i s).

(** What [fn] answers to the value attempt [i] reads. *)
Definition asked (i : nat) (s : Server) : string * bool :=
  let v := live_at (at_read (env i)) k (keyspace s) in fn (default "" v) (found v).

(** [n] attempts from [i] on that were aborted, from [s] to [s']. *)
Fixpoint aborted (n i : nat) (s s' : Server) : Prop :=
  match n with
  | O => s' = s
  | S n => (asked i s).2 = true /\ exec_aborts k (at_others (env i)) (after_read i s) = true /\
           aborted n (S i) (after_others i s) s'
  end.

(** How an attempt that ends the loop ends it. *)
Definition ends (i : nat) (s : Server) (a : update_answer) (s' : Server) : Prop :=
  let written := (run_command (at_commit (env i)) (setCmd k (asked i s).1 ttl noExpiry) (after_others i s)).2 in
  match a with
  | Wrote true => (asked i s).2 = true /\ s' = written /\
      (Forall (fun c => c.1 <= at_commit (env i)) (at_others (env i)) ->
       live_at (at_commit (env i)) k (keyspace (after_others i s)) =
       live_at (at_commit (env i)) k (keyspace (after_read i s)))
  | Wrote false => (asked i s).2 = false /\ s' = after_read i s
  | CallFailed => s' = s \/ s' = after_read i s \/ s' = after_others i s \/
      (at_exec (env i) = Unanswered /\ (asked i s).2 = true /\ s' = written)
  | Contended => False
  end.

Lemma update_attempt_spec i s :
  match update_attempt (env i) k ttl noExpiry fn s with
  | (None, s') => aborted 1 i s s'
  | (Some a, s') => ends i s a s'
  end.
Proof.
  unfold update_attempt. destruct (at_watch (env i)); [|by left..].
  pose proof (GET_reply (at_read (env i)) k s) as Hr.
  destruct (at_get (env i)) eqn:Hg; cbn [do_call]; [|by left|by right; left].
  unfold ends, aborted, after_others, after_read, asked.
  destruct (run_command (at_read (env i)) (GET k) s) as [r s1]. cbn in Hr |- *. subst r.
  set (v := live_at (at_read (env i)) k (keyspace s)).
  assert (to_string (match v with Some v => RString v | None => RNil end) = (default "" v, negb (found v), false))
    as -> by (by destruct v).
  rewrite negb_involutive. destruct (fn (default "" v) (found v)) as [next write]. destruct write; cbn.
  - unfold exec_write. destruct (exec_aborts k (at_others (env i)) s1) eqn:Hx.
    + destruct (at_exec (env i)); [done|by right; right; left|by right; right; left].
    + destruct (at_exec (env i)); [|by right; right; left|by right; right; right].
      split_and!; [done|done|]. intros Hle. by apply exec_unchanged.
  - destruct (at_unwatch (env i)); [done|by right; left].
Qed.

Lemma update_loop_spec remaining : forall i s a s',
  update_loop remaining i env k ttl noExpiry fn s = (a, s') ->
  exists n sn, aborted n i s sn /\
    ((n < remaining)%nat /\ ends (i + n) sn a s' \/ n = remaining /\ a = Contended /\ s' = sn).
Proof.
  induction remaining as [|remaining IH]; intros i s a s'; cbn [update_loop].
  { intros [= <- <-]. exists 0%nat, s. split; [done|by right]. }
  pose proof (update_attempt_spec i s) as Hs.
  destruct (update_attempt (env i) k ttl noExpiry fn s) as [[b|] s1].
  - intros [= <- <-]. exists 0%nat, s. rewrite Nat.add_0_r. split; [done|left]. split; [lia|done].
  - intros (n & sn & Ha & Hn)%IH. exists (S n), sn. cbn [aborted] in Hs |- *.
    destruct Hs as (Hw & Hx & ->). split; [done|]. rewrite Nat.add_succ_r.
    destruct Hn as [[? ?]|(-> & ? & ?)]; [left; split; [lia|done]|by right].
Qed.
End Update.

(** No write is lost, and none is made on a value that is gone. Whatever
    others do to the key between the steps of an update, and whichever of its
    calls fail, the update made at most sixteen attempts, all but the last
    aborted without a write of its own; an update answered as written applied
    the function to the value the key still had when the write took effect,
    once; one answered as not written wrote nothing; and a failed one wrote
    only if the answer to its commit was lost. *)
Theorem update_applies_to_current `{ValkeyLaws} env c key fn opts s a s' :
  Update env c key fn opts s = (a, s') ->
  let o := applySetOptions opts in
  let k := vc_prefix c ++ key in
  exists n sn, (n <= updateAttempts)%nat /\ aborted env k fn n 0 s sn /\
    ((n < updateAttempts)%nat /\
       ends env k (default (vc_ttl c) (so_TTL o)) (so_NoExpiry o) fn n sn a s' \/
     n = updateAttempts /\ a = Contended /\ s' = sn).
Proof.
  unfold Update, target. intros (n & sn & Ha & Hn)%update_loop_spec. exists n, sn.
  split_and!; [destruct Hn as [[? ?]|[? ?]]; lia|done|done].
Qed.

(** * Generations *)

Lemma CutString_spec sep s a b : CutString sep s = Some (a, b) -> s = a ++ sep ++ b.
Proof.
  revert a b. induction s as [|c s IH]; cbn [CutString]; intros a b.
  - destruct (CutPrefix "" sep) as [r|] eqn:Hc; [|done]. intros [= <- <-]. by apply CutPrefix_spec in Hc.
  - destruct (CutPrefix (String c s) sep) as [r|] eqn:Hc.
    { intros [= <- <-]. by apply CutPrefix_spec in Hc. }
    destruct (CutString sep s) as [[x y]|]; [|done]. intros [= <- <-]. cbn. by rewrite (IH x y).
Qed.

(** The first occurrence of a separator of two bytes that is not a repeated
    byte, when what comes before does not hold it. *)
Lemma CutString_first a b : Contains a "}:" = false -> CutString "}:" (a ++ "}:" ++ b) = Some (a, b).
Proof.
  induction a as [|c a IH]; intros Ha; [by destruct b|]. change (String c a ++ "}:" ++ b) with (String c (a ++ "}:" ++ b)).
  cbn [Contains] in Ha. apply orb_false_iff in Ha as [Hp Ha].
  cbn [CutString]. assert (CutPrefix (String c (a ++ "}:" ++ b)) "}:" = None) as ->.
  { cbn [HasPrefix CutPrefix] in Hp |- *. destruct (Ascii.eqb "}" c); [|done].
    destruct a as [|c' a]; [done|]. cbn [HasPrefix andb] in Hp. change (String c' a ++ ?x) with (String c' (a ++ x)).
    cbn [CutPrefix]. destruct (Ascii.eqb ":" c'); [by destruct a|done]. }
  by rewrite (IH Ha).
Qed.

(** A part of a key's tag, as names and checksums are. *)
Definition plain (s : string) : Prop := has_byte ":" s = false.

Lemma Contains_tag s : has_byte ":" s = false -> Contains s "}:" = false.
Proof.
  induction s as [|c s IH]; cbn [has_byte Contains]; [done|]. intros [Hc Hs]%orb_false_iff.
  rewrite (IH Hs), orb_false_r. cbn [HasPrefix]. destruct (Ascii.eqb "}" c); [|done]. cbn [andb].
  destruct s as [|d s]; [done|]. cbn [has_byte] in Hs. apply orb_false_iff in Hs as [Hd _].
  cbn [HasPrefix]. by rewrite Hd.
Qed.

(** A full key is read as an entry of the class exactly when it was written
    under that host, class and generation, whatever the key's text, and as that
    generation's and that key's entry. *)
Theorem entry_key_reads_back host class fullKey generation key :
  Contains ("{" ++ host ++ ":" ++ class ++ ":" ++ generation) "}:" = false ->
  entry_key host class fullKey = Some (generation, key) <->
  plain generation /\ fullKey = prefix_of host class generation ++ key.
Proof.
  intros Ht. unfold entry_key, prefix_of, plain. split.
  - destruct (CutString "}:" fullKey) as [[tag k]|] eqn:Hc; [|done]. apply CutString_spec in Hc as ->.
    destruct (CutPrefix tag _) as [g|] eqn:Hp; [|done]. apply CutPrefix_spec in Hp as ->. cbn [mbind option_bind].
    destruct (Contains g ":") eqn:Hg; [done|]. intros [= -> ->].
    split; [by rewrite <- Contains_byte|]. by rewrite !append_assoc.
  - intros [Hg ->].
    assert (("{" ++ host ++ ":" ++ class ++ ":" ++ generation ++ "}:") ++ key =
      ("{" ++ host ++ ":" ++ class ++ ":" ++ generation) ++ "}:" ++ key) as -> by (by rewrite !append_assoc).
    rewrite CutString_first by done.
    assert ("{" ++ host ++ ":" ++ class ++ ":" ++ generation =
      ("{" ++ host ++ ":" ++ class ++ ":") ++ generation) as -> by (by rewrite !append_assoc).
    rewrite CutPrefix_append. cbn [mbind option_bind]. by rewrite Contains_byte, Hg.
Qed.

(** * The manager *)

(** A cache is under its class, at the host's generation or at the surviving
    one, and remembers at most one other generation of its own class. *)
Definition valkey_wf (m : ValkeyCacheManager) (class : string) (c : ValkeyCache) : Prop :=
  vc_class c = class /\ vc_host c = vm_host m /\
  vc_currentChecksum c = generationFor (vc_uncycled c) (vm_currentChecksum m) /\
  vc_prefix c = prefix_of (vm_host m) class (vc_currentChecksum c) /\
  (vc_prevPrefix c = "" \/
   vc_uncycled c = false /\ exists g, g <> vc_currentChecksum c /\ vc_prevPrefix c = prefix_of (vm_host m) class g) /\
  (0 < vc_ttl c)%Z.

Definition manager_wf (m : ValkeyCacheManager) : Prop :=
  (0 < vm_ttl m)%Z /\ map_Forall (valkey_wf m) (vm_caches m).

(** What a manager is asked. *)
Inductive manager_request := CycleTo (checksum : string) (force : bool) | Ask (class : string) (opts : CacheOptions).

Definition manage (m : ValkeyCacheManager) (r : manager_request) : ValkeyCacheManager :=
  match r with
  | CycleTo checksum force => Cycle checksum force m
  | Ask class opts => (GetCache class opts m).2
  end.

Definition newValkeyManager (host : string) (ttl : Z) : ValkeyCacheManager :=
  mkValkeyManager ∅ initialGeneration host ttl.

Lemma cycle_valkey_wf m checksum force class c :
  valkey_wf m class c -> valkey_wf (Cycle checksum force m) class (cycle_valkey (vm_host m) checksum force c).
Proof.
  intros (Hc & Hh & Hg & Hp & Hprev & Ht). unfold valkey_wf, cycle_valkey. cbn [vm_host vm_currentChecksum Cycle].
  destruct (vc_uncycled c) eqn:Hu.
  { unfold generationFor in *. rewrite Hu. destruct Hprev as [?|[? _]]; [|done]. split_and!; try done. by left. }
  destruct force; cbn [vc_class vc_host vc_currentChecksum vc_uncycled vc_prefix vc_prevPrefix vc_ttl].
  { rewrite ?Hu, Hc. split_and!; try done. by left. }
  destruct (String.eqb (vc_currentChecksum c) checksum) eqn:He;
    cbn [negb vc_class vc_host vc_currentChecksum vc_uncycled vc_prefix vc_prevPrefix vc_ttl].
  - apply String.eqb_eq in He. subst checksum. rewrite ?Hu. unfold generationFor in Hg.
    split_and!; done.
  - apply String.eqb_neq in He. rewrite ?Hu, Hc. split_and!; try done.
    right. split; [done|]. by exists (vc_currentChecksum c).
Qed.

Lemma adjust_valkey_wf m class opts c : valkey_wf m class c -> valkey_wf m class (adjust_valkey m class opts c).
Proof.
  intros (Hc & Hh & Hg & Hp & Hprev & Ht). unfold adjust_valkey.
  set (c1 := if Bool.eqb (vc_uncycled c) (o_Uncycled opts) then c else _).
  assert (valkey_wf m class c1) as (H1 & H2 & H3 & H4 & H5 & H6).
  { unfold c1. destruct (Bool.eqb _ _); [done|]. unfold valkey_wf. cbn. split_and!; try done. by left. }
  unfold valkey_wf. cbn [vc_class vc_host vc_currentChecksum vc_uncycled vc_prefix vc_prevPrefix vc_ttl].
  split_and!; try done. destruct (o_TTL opts) as [t|]; [|done].
  destruct (negb _ && _)%bool eqn:Hb; [|done]. apply andb_true_iff in Hb as [_ Hb%Z.leb_le].
  unfold minTTL, millisecond in Hb. lia.
Qed.

(** Whatever a manager is asked, in whatever order: a surviving cache stays at
    the one generation that survives and looks at no other; a cycled one is at
    the host's generation and looks back at one other at most, of its own
    class; and every lifetime is positive, so a write never asks for one the
    server refuses as none. *)
Theorem valkey_generations host ttl l :
  (0 < ttl)%Z -> manager_wf (foldl manage (newValkeyManager host ttl) l).
Proof.
  intros Ht. assert (manager_wf (newValkeyManager host ttl)) as Hwf by (split; [done|apply map_Forall_empty]).
  revert Hwf. generalize (newValkeyManager host ttl). induction l as [|r l IH]; intros m Hwf; [done|].
  cbn [foldl]. apply IH. destruct Hwf as [Hpos Hwf]. destruct r as [checksum force|class opts]; cbn [manage].
  - split; [done|]. intros class c. cbn [vm_caches Cycle]. rewrite lookup_fmap.
    destruct (vm_caches m !! class) as [c0|] eqn:Hc; cbn; [|done]. intros [= <-].
    apply cycle_valkey_wf. by apply Hwf.
  - split; [done|]. unfold GetCache. cbn [snd vm_caches]. apply map_Forall_insert_2; [|exact Hwf].
    destruct (vm_caches m !! class) as [c0|] eqn:Hc; [exact (adjust_valkey_wf m class opts c0 (Hwf _ _ Hc))|].
    unfold valkey_wf, new_valkey. cbn. split_and!; try done; [by left|].
    destruct (o_TTL opts) as [t|]; [|done]. destruct (minTTL <=? t)%Z eqn:Hb; [|done].
    apply Z.leb_le in Hb. unfold minTTL, millisecond in Hb. lia.
Qed.

(** * A server *)

Definition demo_reply (now : Z) (cmd : command) (s : keyspace_map) : reply * keyspace_map :=
  match cmd with
  | GET k => (match live_at now k s with Some v => RString v | None => RNil end, s)
  | SET k v None => (RStatus, <[k := (v, None)]> s)
  | SET k v (Some px) =>
      if (px <? millisecond)%Z then (RError, s)
      else (RStatus, <[k := (v, Some ((now / millisecond + px / millisecond) * millisecond)%Z)]> s)
  | DEL k => (RInt (if found (live_at now k s) then 1 else 0), delete k s)
  | GETDEL k => (match live_at now k s with Some v => RString v | None => RNil end, delete k s)
  | DECR k =>
      match live_at now k s with
      | Some v => match ParseInt v with
                  | Some n => (RInt (n - 1), alter (fun x => (FormatInt (n - 1), x.2)) k s)
                  | None => (RError, s)
                  end
      | None => (RInt (-1), <[k := ("-1", None)]> s)
      end
  end.

#[local] Instance demoServer : ValkeyServer := {|
  Server := keyspace_map;
  run_command := demo_reply;
  LuaNumber := Z;
  tonumber := ParseInt;
  nonpositive n := (n <=? 0)%Z;
  less_one n := (n - 1)%Z;
  exec_aborts k l s := existsb (fun c => String.eqb (command_key c.2) k) l;
  scan _ _ s := ((map_to_list s).*1, 0%Z);
  pttl now k s := match s !! k with Some (_, Some e) => ((e - now) / millisecond)%Z | _ => (-1)%Z end;
|}.

Lemma demo_frame now cmd (s : keyspace_map) t k :
  k <> command_key cmd -> live_at t k (demo_reply now cmd s).2 = live_at t k s.
Proof.
  destruct cmd as [k0|k0 v px|k0|k0|k0]; cbn; intros Hne; try done.
  - destruct px as [px|]; cbn; [destruct (px <? millisecond)%Z; [done|]|];
      cbn [snd]; rewrite live_insert; by rewrite decide_False.
  - rewrite live_delete. by rewrite decide_False.
  - rewrite live_delete. by rewrite decide_False.
  - destruct (live_at now k0 s) as [v|]; cbn.
    + destruct (ParseInt v) as [n|]; cbn; [|done]. rewrite live_alter. by rewrite decide_False.
    + rewrite live_insert. by rewrite decide_False.
Qed.

#[local] Instance demoLaws : ValkeyLaws.
Proof.
  refine {| keyspace := fun s : Server => (s : keyspace_map) |}; try (intros; by cbn).
  - intros now k s. by eexists.
  - intros now k v [px|] s Hpx; [|done]. cbn in Hpx |- *. by rewrite (proj2 (Z.ltb_ge _ _)) by lia.
  - intros now k v px s Hpx. cbn. rewrite (proj2 (Z.ltb_ge _ _)) by lia. cbn [snd]. eexists. split; [reflexivity|].
    unfold aligned, millisecond in *. split.
    + pose proof (Z.div_mod now 1000000 ltac:(lia)). pose proof (Z.div_mod px 1000000 ltac:(lia)).
      pose proof (Z.mod_pos_bound now 1000000 ltac:(lia)). pose proof (Z.mod_pos_bound px 1000000 ltac:(lia)). lia.
    + intros [a ->] [b ->]. rewrite !Z.div_mul by lia. lia.
  - intros now k v px s Hpx. cbn. by rewrite (proj2 (Z.ltb_lt _ _)) by lia.
  - intros now k s n Hl Hn. cbn. rewrite Hl. rewrite ParseInt_FormatInt; [done|].
    unfold in_int64. apply andb_true_iff. split; apply Z.leb_le; lia.
  - intros n Hn. exists n. cbn. split; [|done]. apply ParseInt_FormatInt.
    unfold in_int64, int64_min, int64_max. apply andb_true_iff. split; apply Z.leb_le; lia.
  - intros now cmd s t k Hne _. by apply demo_frame.
  - intros k l s Hl. cbn. apply not_true_iff_false. rewrite existsb_exists. intros (x & Hin & He).
    apply String.eqb_eq in He. rewrite Forall_forall in Hl. apply (Hl x); [by apply list_elem_of_In|done].
  - intros k l s t Ha _. cbn in Ha. unfold run_commands. revert s.
    induction l as [|x l IH]; intros s; [done|]. cbn in Ha. apply orb_false_iff in Ha as [Hx Ha].
    cbn [foldl]. rewrite IH by done. apply demo_frame. apply String.eqb_neq in Hx. congruence.
Defined.

(** * Witnesses *)

Definition demoCache : ValkeyCache := new_valkey (newValkeyManager "h" hour) "uses" (mkOptions None None true).

(** A counter of one, spent once and refused after, while others write and
    even count in a class whose name starts the same. *)
Definition demoEvents : list event :=
  [Ours (RSet (5 * second) "uses:a" (FormatInt 1) [WithTTL minute]);
   Theirs (6 * second) (SET "{h:uses2:0}:uses:a" "9" None);
   Ours (RDecrement (7 * second) "uses:a");
   Ours (RDecrement (8 * second) "uses:a");
   Ours (RGetAndDelete (9 * second) "uses:a");
   Ours (RGet (9 * second) "uses:a")].

Lemma valkey_refines_store_witness :
  (valkey_run demoCache demoEvents ∅).1 =
  [Some AUnit; Some (ACount 0 true); Some (ACount (-1) false); Some (AValue (Some "0")); Some (AValue None)].
Proof.
  pose proof (valkey_refines_store demoCache demoEvents 0 ∅ ∅) as Hr.
  assert ((store_run (vc_ttl demoCache) demoEvents ∅).1 =
    [Some AUnit; Some (ACount 0 true); Some (ACount (-1) false); Some (AValue (Some "0")); Some (AValue None)])
    as <- by (vm_compute; reflexivity).
  destruct (valkey_run demoCache demoEvents ∅) as [a s]. destruct (store_run _ demoEvents ∅) as [b st].
  destruct Hr as [-> _]; [reflexivity| |apply map_Forall_empty|done| | |reflexivity].
  - repeat apply Forall_cons_2; try exact I; [|vm_compute; reflexivity|by apply Forall_nil].
    split; [by exists 5000%Z|]. split; [right; split; [by vm_compute|by exists 60000%Z]|].
    left. exists 1%Z. done.
  - repeat constructor; by vm_compute.
  - repeat constructor; by vm_compute.
Defined.

(** Two attempts: another client adds to the value after the first one read
    it, so the second one works on what that client left. *)
Definition contended : nat -> attempt := fun i =>
  mkAttempt (Z.of_nat i * second) (Z.of_nat i * second)
    (if Nat.eqb i 0 then [(0%Z, SET "{h:uses:0}:k" "theirs" None)] else []) Delivered Delivered Delivered true.

Definition contendedUpdate : update_answer * Server :=
  Update contended demoCache "k" (fun v _ => (v ++ "+ours", true)) [] ∅.

Lemma update_applies_to_current_witness :
  fst <$> (contendedUpdate.2 : keyspace_map) !! "{h:uses:0}:k" = Some "theirs+ours" /\
  exists n sn, (n <= updateAttempts)%nat /\
    aborted contended "{h:uses:0}:k" (fun v _ => (v ++ "+ours", true)) n 0 ∅ sn.
Proof.
  split; [vm_compute; reflexivity|].
  destruct (update_applies_to_current contended demoCache "k" (fun v _ => (v ++ "+ours", true)) [] ∅
    contendedUpdate.1 contendedUpdate.2) as (n & sn & Hn & Ha & _).
  - unfold contendedUpdate. by destruct (Update _ _ _ _ _ _).
  - exists n, sn. split; [exact Hn|exact Ha].
Defined.

Lemma entry_key_reads_back_witness :
  Contains ("{" ++ "h" ++ ":" ++ "uses" ++ ":" ++ "0") "}:" = false /\
  entry_key "h" "uses" "{h:uses:0}:a}:b" = Some ("0", "a}:b").
Proof.
  split; [reflexivity|]. apply (entry_key_reads_back "h" "uses" "{h:uses:0}:a}:b" "0" "a}:b"); [reflexivity|].
  split; reflexivity.
Defined.

Lemma valkey_generations_witness :
  manager_wf (foldl manage (newValkeyManager "h" hour)
    [Ask "pages" (mkOptions None None false); CycleTo "c1" false; Ask "uses" (mkOptions None None true);
     CycleTo "c2" true; CycleTo "c3" false]).
Proof. apply (valkey_generations "h" hour). reflexivity. Defined.

(** A lifetime under a millisecond is refused by the server inside the
    transaction, whose reply is not looked at: the update says it wrote. *)
Lemma update_reports_refused_write :
  let '(a, s) := Update (calm 0) demoCache "k" (fun _ _ => ("v", true)) [WithTTL 1000] (∅ : keyspace_map) in
  a = Wrote true /\ (s : keyspace_map) !! "{h:uses:0}:k" = None.
Proof. vm_compute. done. Qed.
