(* ===== verification/Names.v ===== *)
(** Listing the instance names of a resource (src/internal/host/
    resource_names.go): the host's own pages and functions, page by page under
    a cursor, and the names a function lists for the resource it owns. *)
From S2P Require Import Prelude GoStr Store Deps Claims Clients Roles Signer SubjectKind Dcr Url Mint Refresh Login SessionGrants Gate Denial Capability.
From Stdlib Require Import Ascii.

#[local] Open Scope string_scope.

Definition kdexResourceListingExtension : string := "x-kdex-resource-listing".
Definition resourceNamesDefaultLimit : Z := 50.
Definition resourceNamesMaxLimit : Z := 200.
Definition maxListingResponseBytes : Z := 2 ^ 20.
Definition hostNativeResources : list string := ["pages"; "functions"].

Record resourceName := mkName { rn_Name : string; rn_Label : string }.

#[global] Instance resourceName_eq_dec : EqDecision resourceName.
Proof. solve_decision. Defined.

Record resourceNamesPage := mkPage { np_Items : list resourceName; np_Next : string }.

(** [strings.ToLower], which folds Unicode, and [base64.RawURLEncoding]. *)
Class TextOps := {
  lowerText : string -> string;
  EncodeToString : string -> string;
  DecodeString : string -> option string;
  DecodeString_EncodeToString s : DecodeString (EncodeToString s) = Some s;
  EncodeToString_empty s : EncodeToString s = "" -> s = "";
}.

(** * Order *)

Section Names.
Context `{!TextOps}.

Definition sortKey (n : resourceName) : string :=
  if negb (String.eqb (rn_Label n) "") then lowerText (rn_Label n) else lowerText (rn_Name n).

Definition compareNames (a b : resourceName) : comparison :=
  match String.compare (sortKey a) (sortKey b) with
  | Eq => String.compare (rn_Name a) (rn_Name b)
  | c => c
  end.

Definition name_le (a b : resourceName) : Prop := compareNames a b <> Gt.

#[global] Instance name_le_dec a b : Decision (name_le a b).
Proof. unfold name_le. destruct (compareNames a b); [left|left|right]; congruence. Defined.

(** * Cursors *)

Context `{!JSON resourceName}.

Definition encodeNamesCursor (last : resourceName) : string := EncodeToString (Marshal last).

(** [Err] is an invalid cursor; the empty one starts at the beginning. *)
Definition decodeNamesCursor (cursor : string) : result unit (option resourceName) :=
  if String.eqb cursor "" then Ok None else
  match b ← DecodeString cursor; Unmarshal b with
  | Some last => if String.eqb (rn_Name last) "" then Err tt else Ok (Some last)
  | None => Err tt
  end.

(** * A page of the host's own names *)

(** [lq] is the lowered filter. *)
Definition name_matches (lq : string) (n : resourceName) : bool :=
  (String.eqb lq "" || Contains (lowerText (rn_Name n)) lq || Contains (lowerText (rn_Label n)) lq)%bool.

Definition past (after : option resourceName) (n : resourceName) : bool :=
  match after with
  | None => true
  | Some a => match compareNames n a with Gt => true | _ => false end
  end.

Definition pageOfNames (all : list resourceName) (q cursor : string) (limit : nat)
    : result unit resourceNamesPage :=
  after ← decodeNamesCursor cursor;
  let lq := lowerText q in
  let items := merge_sort name_le
    (filter (fun n => (name_matches lq n && past after n)%bool = true) all) in
  Ok (if (limit <? length items)%nat
      then let items := take limit items in
           mkPage items (match last items with Some n => encodeNamesCursor n | None => "" end)
      else mkPage items "").
End Names.

(** * What the host lists itself *)

Section Native.
Context `{!Entitlements}.

(** A page of the rebuild's index, and a function, as far as listing reads
    them. *)
Record listed_page := mkListedPage {
  lp_BasePath : string;
  lp_Label : string;
  lp_ParsedRequirements : option ParsedRequirements;
}.

Record listed_function := mkListedFunction {
  lf_Name : string;
  lf_BasePath : string;
  lf_Internal : bool;
  lf_Ready : bool;
}.

(** [add]: empty and repeated names are dropped. *)
Definition add_name (out : list resourceName) (name label : string) : list resourceName :=
  if (String.eqb name "" || contains_elem (rn_Name <$> out) name)%bool then out
  else (out ++ [mkName name label])%list.

Definition passes (r : result unit bool) : bool := match r with Ok b => b | Err _ => false end.

Definition add_page (held : ParsedEntitlements) (out : list resourceName) (p : listed_page)
    : list resourceName :=
  match lp_ParsedRequirements p with
  | None => out
  | Some reqs =>
      if passes (VerifyResourceParsedEntitlements "pages" (lp_BasePath p) held reqs [])
      then add_name out (lp_BasePath p) (lp_Label p) else out
  end.

Definition add_function (held : ParsedEntitlements) (out : list resourceName) (f : listed_function)
    : list resourceName :=
  if (lf_Internal f || negb (lf_Ready f))%bool then out
  else if passes (VerifyResourceParsedEntitlements "functions" (lf_BasePath f) held (ParseRequirements []) [])
  then add_name out (lf_BasePath f) (lf_Name f) else out.

Definition hostNativeNames (held : ParsedEntitlements) (pages : list listed_page)
    (functions : list listed_function) (resource : string) : list resourceName :=
  if String.eqb resource "pages" then foldl (add_page held) [] pages
  else if String.eqb resource "functions" then foldl (add_function held) [] functions
  else [].
End Native.

(** * Who lists the others *)

(** The declaration on a GET operation: built in code or decoded from a CR, or
    left raw. *)
Inductive extension := ExtObject (m : list (string * value)) | ExtRaw (json : string) | ExtOther.

(** encoding/json on [struct{Resource string}]. *)
Class ListingJSON := { UnmarshalResource : string -> option string }.

(** A registered path, as far as the listing reads it: whether it is a
    function's, and its routes with the declaration of their GET operation,
    when there is one. *)
Record pathInfo := mkPathInfo {
  pi_Function : bool;
  pi_Paths : gmap string (option (option extension));
}.

Section Listing.
Context `{!ListingJSON}.

Definition listingResource (v : option extension) : string :=
  match v with
  | Some (ExtObject m) => match list_find (fun x => x.1 = "resource") m with
                          | Some (_, (_, VStr s)) => s
                          | _ => ""
                          end
  | Some (ExtRaw j) => default "" (UnmarshalResource j)
  | _ => ""
  end.

(** Whether a route, with its GET operation if any, lists the resource. *)
Definition lists_resource (resource route : string) (get : option (option extension)) : bool :=
  match get with
  | None => false
  | Some ext => (negb (Contains route "{") && String.eqb (listingResource ext) resource)%bool
  end.

Definition declared_routes (resource : string) (info : pathInfo) : list string :=
  if negb (pi_Function info) then []
  else (filter (fun x => lists_resource resource x.1 x.2 = true) (map_to_list (pi_Paths info))).*1.

(** The routes found, each once, in the order the maps happen to take. *)
Definition listing_routes (paths : gmap string pathInfo) (resource : string) : list string :=
  keep_distinct (fun _ => true) []
    (mjoin ((fun x => declared_routes resource x.2) <$> map_to_list paths)).

(** [Err] carries the routes that compete, sorted. *)
Definition listingRoute (paths : gmap string pathInfo) (resource : string)
    : result (list string) string :=
  if contains_elem hostNativeResources resource then Ok "" else
  match listing_routes paths resource with
  | [] => Ok ""
  | [route] => Ok route
  | routes => Err (sort_strings routes)
  end.

(** * Asking the owner *)

(** What the owner's handler does to the buffered response. *)
Inductive buffer_step := BWriteHeader (status : Z) | BWrite (p : string).

Record bufferedResponse := mkBuffered {
  bf_body : string;
  bf_status : Z;
  bf_wroteHeader : bool;
  bf_overflow : bool;
}.

Definition buffer_header (b : bufferedResponse) (status : Z) : bufferedResponse :=
  if bf_wroteHeader b then b else mkBuffered (bf_body b) status true (bf_overflow b).

Definition buffer (b : bufferedResponse) (s : buffer_step) : bufferedResponse :=
  match s with
  | BWriteHeader status => buffer_header b status
  | BWrite p =>
      let b := buffer_header b 200 in
      if (maxListingResponseBytes <? Z.of_nat (String.length (bf_body b) + String.length p))%Z
      then mkBuffered (bf_body b) (bf_status b) (bf_wroteHeader b) true
      else mkBuffered (bf_body b ++ p) (bf_status b) (bf_wroteHeader b) (bf_overflow b)
  end.

Definition buffered (steps : list buffer_step) : bufferedResponse :=
  foldl buffer (mkBuffered "" 200 false false) steps.

Context `{!JSON resourceNamesPage}.

(** The query forwarded. *)
Definition forwarded_query (q cursor : string) (limit : Z) : values :=
  let vals := {[ "limit" := [FormatInt limit] ]} in
  let vals := if negb (String.eqb q "") then SetValue "q" q vals else vals in
  if negb (String.eqb cursor "") then SetValue "cursor" cursor vals else vals.

(** [mux] is the host's own: the path and query of a GET with the caller's
    credentials, to what its handler writes and the challenge it sets. The page
    is [None] on a malformed answer. *)
Definition dispatchListing (mux : string -> string -> list buffer_step * string) (route q cursor : string)
    (limit : Z) : option resourceNamesPage * Z * string :=
  let '(steps, challenge) := mux route (Encode (forwarded_query q cursor limit)) in
  let buf := buffered steps in
  if negb (bf_status buf =? 200)%Z then (None, bf_status buf, challenge)
  else if bf_overflow buf then (None, 200%Z, challenge)
  else (match Unmarshal (bf_body buf) with
        | None => None
        | Some page =>
            if (limit <? Z.of_nat (length (np_Items page)))%Z then None
            else if existsb (fun n => String.eqb (rn_Name n) "") (np_Items page) then None
            else Some page
        end, 200%Z, challenge).
End Listing.

(** * The endpoint *)

Section Handler.
Context `{!TextOps} `{!JSON resourceName} `{!JSON resourceNamesPage} `{!Entitlements} `{!ListingJSON}
  `{!Attenuation}.

(** What the handler reads of the host. *)
Record names_host := mkNamesHost {
  nh_scopeBuckets : bool;
  nh_issuer : string;
  nh_pages : list listed_page;
  nh_functions : list listed_function;
  nh_paths : gmap string pathInfo;
  nh_mux : string -> string -> list buffer_step * string;
}.

(** An error text, or the owner's verdict with its challenge. *)
Inductive names_failure := NamesError (text : string) | OwnerRefused (challenge : string).

(** [strconv.Atoi] of the limit, within its range. *)
Definition parse_limit (v : string) : option Z :=
  if String.eqb v "" then Some resourceNamesDefaultLimit else
  n ← ParseInt v; if ((n <? 1) || (resourceNamesMaxLimit <? n))%Z%bool then None else Some n.

(** Names the caller can grant for the verb. *)
Definition grantable (held : list string) (resource verb : string) (n : resourceName) : bool :=
  (VerifyAttenuation held [resource ++ ":" ++ rn_Name n ++ ":" ++ verb]).2.

Definition narrowed (held : list string) (resource verb : string) (page : resourceNamesPage)
    : resourceNamesPage :=
  if String.eqb verb "" then page
  else mkPage (filter (fun n => grantable held resource verb n = true) (np_Items page)) (np_Next page).

Definition resourceNamesHandler (h : names_host) (ctx : option AuthContext) (resource : string)
    (query : values) : answer names_failure resourceNamesPage :=
  match ctx with
  | None => denied Unauthenticated (nh_issuer h)
  | Some ac =>
      let held := stringSliceFromClaim (ac !! "entitlements") in
      let q := Get query "q" in let cursor := Get query "cursor" in let verb := Get query "verb" in
      match parse_limit (Get query "limit") with
      | None => Failed 400 (NamesError "limit must be 1..200")
      | Some limit =>
          if contains_elem hostNativeResources resource then
            match pageOfNames (hostNativeNames (GetParsedEntitlements (nh_scopeBuckets h) ac)
                     (nh_pages h) (nh_functions h) resource) q cursor (Z.to_nat limit) with
            | Err _ => Failed 400 (NamesError "invalid cursor")
            | Ok page => Answered (narrowed held resource verb page)
            end
          else
            match listingRoute (nh_paths h) resource with
            | Err _ => Failed 500 (NamesError (StatusText 500))
            | Ok route =>
                if String.eqb route "" then Failed 404 (NamesError (StatusText 404)) else
                match dispatchListing (nh_mux h) route q cursor limit with
                | (page, status, challenge) =>
                    if negb (status =? 200)%Z then Failed status (OwnerRefused challenge)
                    else match page with
                         | None => Failed 502 (NamesError "Bad Gateway")
                         | Some page => Answered (narrowed held resource verb page)
                         end
                end
            end
      end
  end.
End Handler.
