(* ===== verification/NamesSpec.v ===== *)
(** What the listing of resource names promises: following the cursors yields
    every name that matches, once, in order, and ends; only names the caller
    may see, and may grant when a verb is given, are listed; a resource two
    functions claim is nobody's; an owner's answer is checked. *)
From S2P Require Import Prelude GoStr Store Deps Claims Clients Roles Signer SubjectKind Dcr Url Mint Refresh Login SessionGrants Gate Denial Capability Names.
From Stdlib Require Import Ascii.

#[local] Open Scope string_scope.

(** * The order *)

Lemma compare_refl s : String.compare s s = Eq.
Proof. pose proof (String.compare_antisym s s) as Ha. by destruct (String.compare s s). Qed.

Lemma string_le_compare s t : string_le s t <-> String.compare s t <> Gt.
Proof. unfold string_le, String.leb. destruct (String.compare s t); by split. Qed.

Section Order.
Context `{!TextOps}.

Lemma name_le_iff a b :
  name_le a b <-> string_le (sortKey a) (sortKey b) /\
    (sortKey a = sortKey b -> string_le (rn_Name a) (rn_Name b)).
Proof.
  unfold name_le, compareNames. rewrite !string_le_compare.
  destruct (String.compare (sortKey a) (sortKey b)) eqn:Hc.
  - apply String.compare_eq_iff in Hc. split; [done|]. intros [_ Hn]. by apply Hn.
  - split; [|done]. intros _. split; [done|]. intros He. rewrite He, compare_refl in Hc. done.
  - split; [done|]. by intros [? _].
Qed.

Lemma string_le_antisym s t : string_le s t -> string_le t s -> s = t.
Proof.
  rewrite !string_le_compare, (String.compare_antisym s t). intros H1 H2.
  apply String.compare_eq_iff. destruct (String.compare t s) eqn:Hc; [|done|done].
  rewrite String.compare_antisym, Hc. done.
Qed.

#[global] Instance name_le_trans : Transitive name_le.
Proof.
  intros a b c. rewrite !name_le_iff. intros [H1 H1'] [H2 H2']. split; [by etrans|].
  intros He. assert (sortKey a = sortKey b) as Hab.
  { apply string_le_antisym; [done|]. by rewrite He. }
  etrans; [by apply H1'|]. apply H2'. congruence.
Qed.

#[global] Instance name_le_total : Total name_le.
Proof.
  intros a b. rewrite !name_le_iff. destruct (decide (sortKey a = sortKey b)) as [He|Hne].
  - rewrite He. destruct (string_le_total (rn_Name a) (rn_Name b)); [left|right]; (split; [|done]);
      apply string_le_compare; by rewrite compare_refl.
  - destruct (string_le_total (sortKey a) (sortKey b)); [left|right]; (split; [done|congruence]).
Qed.

Lemma name_le_name a b : name_le a b -> name_le b a -> rn_Name a = rn_Name b.
Proof.
  rewrite !name_le_iff. intros [H1 H1'] [H2 H2'].
  assert (sortKey a = sortKey b) as He by (by apply string_le_antisym).
  apply string_le_antisym; [by apply H1'|by apply H2'].
Qed.

(** Past a name are exactly the names that do not come before or at it. *)
Lemma past_iff a n : past (Some a) n = true <-> ~ name_le n a.
Proof.
  unfold past, name_le. destruct (compareNames n a); split; try done; [by intros []..|].
  intros _ Hx. by apply Hx.
Qed.
End Order.

(** * Paging *)

Section Paging.
Context `{!TextOps} `{!JSON resourceName}.

(** All that matches, in order. *)
Definition listing (all : list resourceName) (q : string) : list resourceName :=
  merge_sort name_le (filter (fun n => name_matches (lowerText q) n = true) all).

(** Following the cursors, at most [fuel] pages. *)
Fixpoint follow (fuel : nat) (all : list resourceName) (q cursor : string) (limit : nat)
    : option (list (list resourceName)) :=
  match fuel with
  | O => None
  | S fuel =>
      match pageOfNames all q cursor limit with
      | Err _ => None
      | Ok page =>
          if String.eqb (np_Next page) "" then Some [np_Items page]
          else rest ← follow fuel all q (np_Next page) limit; Some (np_Items page :: rest)
      end
  end.

Lemma strongly_sorted_app {A} (R : relation A) l1 l2 :
  StronglySorted R (l1 ++ l2) -> StronglySorted R l2 /\ Forall (fun x => Forall (R x) l2) l1.
Proof.
  induction l1 as [|x l1 IH]; cbn; [done|]. intros [Hs Hx]%StronglySorted_inv.
  destruct (IH Hs) as [? ?]. split; [done|]. constructor; [|done]. by apply Forall_app in Hx as [_ ?].
Qed.

Lemma filter_all {A} (P : A -> Prop) `{!forall x, Decision (P x)} l : Forall P l -> filter P l = l.
Proof. induction 1 as [|x l Hx _ IH]; [done|]. by rewrite filter_cons_True, IH. Qed.

Lemma NoDup_fmap_filter {A B} (f : A -> B) (P : A -> Prop) `{!forall x, Decision (P x)} l :
  NoDup (f <$> l) -> NoDup (f <$> filter P l).
Proof.
  induction l as [|x l IH]; [done|]. rewrite fmap_cons, NoDup_cons. intros [Hx Hl].
  rewrite filter_cons. case_decide; [|by apply IH]. rewrite fmap_cons, NoDup_cons. split; [|by apply IH].
  intros (y & He & Hy)%list_elem_of_fmap. apply list_elem_of_filter in Hy as [_ Hy]. apply Hx.
  rewrite He. by apply list_elem_of_fmap_2.
Qed.

Lemma filter_filter_and {A} (p q : A -> bool) (l : list A) :
  filter (fun x => (p x && q x)%bool = true) l = filter (fun x => q x = true) (filter (fun x => p x = true) l).
Proof.
  rewrite list_filter_filter. apply list_filter_iff. intros x. rewrite andb_true_iff. tauto.
Qed.

(** A sorted list of distinct names is the only one. *)
Lemma sorted_unique (l1 l2 : list resourceName) :
  NoDup (rn_Name <$> l1) -> StronglySorted name_le l1 -> StronglySorted name_le l2 -> l1 ≡ₚ l2 -> l1 = l2.
Proof.
  intros Hnd H1 H2 Hp. eapply StronglySorted_unique_strong; [|done..].
  intros x y Hx Hy Hxy Hyx. rewrite <- Hp in Hy. pose proof (name_le_name _ _ Hxy Hyx) as Hn. revert Hnd Hx Hy Hn. clear.
  induction l1 as [|z l IH]; [by intros _ ?%elem_of_nil|]. rewrite fmap_cons, NoDup_cons, !elem_of_cons.
  intros [Hz Hl] [->|Hx] [->|Hy] Hn; [done| | |by apply IH].
  - exfalso. apply Hz. rewrite Hn. by apply list_elem_of_fmap_2.
  - exfalso. apply Hz. rewrite <- Hn. by apply list_elem_of_fmap_2.
Qed.

(** What comes past an element of the sorted listing is the rest of it. *)
Lemma past_rest all q pre a rest :
  NoDup (rn_Name <$> all) -> listing all q = (pre ++ a :: rest)%list ->
  merge_sort name_le (filter (fun n => (name_matches (lowerText q) n && past (Some a) n)%bool = true) all) = rest.
Proof.
  intros Hnd Hl. rewrite filter_filter_and.
  pose proof (NoDup_fmap_filter rn_Name (fun n => name_matches (lowerText q) n = true) all Hnd) as Hm.
  set (matching := filter (fun x => name_matches (lowerText q) x = true) all) in *.
  assert (StronglySorted name_le (pre ++ a :: rest)) as Hs by (rewrite <- Hl; apply StronglySorted_merge_sort; apply _).
  assert (matching ≡ₚ (pre ++ a :: rest)%list) as Hp by (rewrite <- Hl; unfold listing; by rewrite merge_sort_Permutation).
  rewrite Hp, fmap_app in Hm. apply NoDup_app in Hm as (_ & _ & Hm). cbn in Hm. apply NoDup_cons in Hm as [Hin Hrn].
  apply strongly_sorted_app in Hs as [Hs Hpre]. apply StronglySorted_inv in Hs as [Hrest Ha].
  assert (filter (fun x => past (Some a) x = true) matching ≡ₚ rest) as Hperm.
  { rewrite Hp, filter_app, filter_cons_False.
    2: { rewrite past_iff. intros Hn. apply Hn. destruct (name_le_total a a); done. }
    rewrite filter_none, filter_all; [done| |].
    - rewrite Forall_forall in Ha |- *. intros x Hx. apply past_iff. intros Hxa. apply Hin.
      rewrite (name_le_name a x (Ha x Hx) Hxa). by apply list_elem_of_fmap_2.
    - rewrite Forall_forall in Hpre |- *. intros x Hx. rewrite past_iff. intros Hn. apply Hn.
      specialize (Hpre x Hx). by apply Forall_cons in Hpre as [? _]. }
  symmetry. apply sorted_unique; [done|done|apply StronglySorted_merge_sort; apply _|].
  by rewrite merge_sort_Permutation, Hperm.
Qed.

(** A name as its cursor is read back: its JSON is not empty, and decodes. *)
Definition cursor_reads (n : resourceName) : Prop := clean n /\ Marshal n <> "" /\ rn_Name n <> "".

Lemma decode_encode_cursor n :
  cursor_reads n -> encodeNamesCursor n <> "" /\ decodeNamesCursor (encodeNamesCursor n) = Ok (Some n).
Proof.
  intros (Hc & Hm & Hn). unfold decodeNamesCursor, encodeNamesCursor.
  assert (EncodeToString (Marshal n) <> "") as Hne by (intros ?%EncodeToString_empty; done).
  split; [done|]. rewrite (proj2 (String.eqb_neq _ _) Hne), DecodeString_EncodeToString. cbn.
  by rewrite Unmarshal_Marshal, (proj2 (String.eqb_neq _ _) Hn).
Qed.

Lemma page_from all q cursor limit (rest : list resourceName) :
  (0 < limit)%nat ->
  (exists after, decodeNamesCursor cursor = Ok after /\
     merge_sort name_le (filter (fun n => (name_matches (lowerText q) n && past after n)%bool = true) all) = rest) ->
  exists page, pageOfNames all q cursor limit = Ok page /\ np_Items page = take limit rest /\
    ((length rest <= limit)%nat -> np_Next page = "") /\
    ((limit < length rest)%nat -> exists n, last (take limit rest) = Some n /\ np_Next page = encodeNamesCursor n).
Proof.
  intros Hl (after & Hd & Hr). unfold pageOfNames. rewrite Hd. cbn [mbind result_bind]. rewrite Hr.
  eexists. split; [reflexivity|]. destruct (Nat.ltb_spec limit (length rest)) as [Hlt|Hge]; cbn.
  - split_and!; [done|lia|]. intros _. destruct (last (take limit rest)) as [n|] eqn:He; [by exists n|].
    apply last_None in He. apply (f_equal length) in He. rewrite length_take in He. cbn in He. lia.
  - split_and!; [by rewrite take_ge|done|lia].
Qed.

(** The pages from any point of the listing on. *)
Lemma follow_from all q limit :
  NoDup (rn_Name <$> all) -> Forall cursor_reads all -> (0 < limit)%nat ->
  forall fuel rest cursor, (length rest < fuel)%nat ->
  (exists pre, listing all q = (pre ++ rest)%list /\
     (cursor = "" /\ pre = [] \/ exists a, last pre = Some a /\ cursor = encodeNamesCursor a)) ->
  exists pages, follow fuel all q cursor limit = Some pages /\ mjoin pages = rest /\
    Forall (fun p => length p <= limit)%nat pages.
Proof.
  intros Hnd Hclean Hl. induction fuel as [|fuel IH]; intros rest cursor Hf (pre & Hlist & Hc); [lia|].
  assert (forall n, n ∈ listing all q -> cursor_reads n) as Hreads.
  { intros n. unfold listing. rewrite merge_sort_Permutation, list_elem_of_filter. intros [_ Hin].
    rewrite Forall_forall in Hclean. by apply Hclean. }
  destruct (page_from all q cursor limit rest Hl) as (page & Hp & Hi & Hend & Hmore).
  { destruct Hc as [[-> ->]|(a & Ha & ->)].
    - exists None. split; [done|]. rewrite <- (app_nil_l rest), <- Hlist. unfold listing. f_equal.
      apply list_filter_iff. intros n. by rewrite andb_true_r.
    - exists (Some a). apply last_Some in Ha as [pre' ->]. rewrite <- app_assoc in Hlist. split.
      + apply decode_encode_cursor, Hreads. rewrite Hlist, elem_of_app. right. by left.
      + by apply (past_rest all q pre'). }
  cbn [follow]. rewrite Hp. destruct (Nat.le_gt_cases (length rest) limit) as [Hle|Hgt].
  - rewrite Hend by done. cbn. eexists. split; [reflexivity|]. rewrite Hi, take_ge by done.
    change (mjoin [rest]) with (rest ++ [])%list. split; [by rewrite app_nil_r|by constructor].
  - destruct (Hmore Hgt) as (n & Hn & Hnext). rewrite Hnext.
    apply last_Some in Hn as [front Hn].
    assert (listing all q = ((pre ++ front) ++ n :: drop limit rest)%list) as Hsplit.
    { rewrite Hlist, <- (take_drop limit rest) at 1. rewrite Hn, <- !app_assoc. done. }
    destruct (decode_encode_cursor n) as [Hne _].
    { apply Hreads. rewrite Hsplit, elem_of_app. right. by left. }
    rewrite (proj2 (String.eqb_neq _ _) Hne).
    destruct (IH (drop limit rest) (encodeNamesCursor n)) as (pages & -> & Hj & Hb).
    + rewrite length_drop. lia.
    + exists ((pre ++ front) ++ [n])%list. split; [by rewrite Hsplit, <- !app_assoc|].
      right. exists n. by rewrite last_snoc.
    + cbn [mbind option_bind]. exists (np_Items page :: pages). split; [done|].
      change (mjoin (np_Items page :: pages)) with (np_Items page ++ mjoin pages)%list. rewrite Hi, Hj, take_drop. split; [done|].
      constructor; [|done]. rewrite length_take. lia.
Qed.

(** C39: Following the cursors lists everything. From the empty cursor on, each
    page after the one before it, a listing of distinct names ends, after at
    most one more page than there are names, with no page over the limit; and
    the pages put together are exactly the names that match the filter, each
    once, by label and then by name. *)
Theorem paging_lists_all all q limit :
  NoDup (rn_Name <$> all) -> Forall cursor_reads all -> (0 < limit)%nat ->
  exists pages, follow (S (length all)) all q "" limit = Some pages /\
    Forall (fun p => length p <= limit)%nat pages /\
    StronglySorted name_le (mjoin pages) /\
    mjoin pages ≡ₚ filter (fun n => name_matches (lowerText q) n = true) all.
Proof.
  intros Hnd Hc Hl.
  assert (length (listing all q) <= length all)%nat as Hlen.
  { unfold listing. rewrite merge_sort_Permutation. apply length_filter. }
  destruct (follow_from all q limit Hnd Hc Hl (S (length all)) (listing all q) "") as (pages & Hf & Hj & Hb).
  - lia.
  - exists []. split; [done|by left].
  - exists pages. split_and!; [done|done| |]; rewrite Hj; unfold listing.
    + apply StronglySorted_merge_sort; apply _.
    + by rewrite merge_sort_Permutation.
Qed.
End Paging.

(** * What the host lists of its own *)

Section Native.
Context `{!Entitlements}.

(** Why the host lists a name. *)
Definition page_visible (held : ParsedEntitlements) (pages : list listed_page) (n : resourceName) : Prop :=
  exists p reqs, p ∈ pages /\ lp_ParsedRequirements p = Some reqs /\ rn_Name n = lp_BasePath p /\
    rn_Label n = lp_Label p /\ VerifyResourceParsedEntitlements "pages" (rn_Name n) held reqs [] = Ok true.

Definition function_visible (held : ParsedEntitlements) (functions : list listed_function) (n : resourceName) : Prop :=
  exists f, f ∈ functions /\ lf_Internal f = false /\ lf_Ready f = true /\ rn_Name n = lf_BasePath f /\
    rn_Label n = lf_Name f /\
    VerifyResourceParsedEntitlements "functions" (rn_Name n) held (ParseRequirements []) [] = Ok true.

(** Distinct, non-empty names, each listed for a reason. *)
Definition listed_for (P : resourceName -> Prop) (out : list resourceName) : Prop :=
  NoDup (rn_Name <$> out) /\ Forall (fun n => rn_Name n <> "" /\ P n) out.

Lemma add_name_listed P out name label :
  listed_for P out -> P (mkName name label) -> listed_for P (add_name out name label).
Proof.
  intros [Hnd Hall] HP. unfold add_name. destruct (String.eqb name "") eqn:He; [done|]. cbn.
  destruct (contains_elem _ _) eqn:Hc; [done|]. split.
  - rewrite fmap_app. apply NoDup_app. split_and!; [done| |apply NoDup_singleton].
    intros x Hx ->%list_elem_of_singleton. apply not_true_iff_false in Hc. by rewrite contains_elem_spec in Hc.
  - apply Forall_app. split; [done|]. constructor; [|done]. apply String.eqb_neq in He. done.
Qed.

Lemma passes_true r : passes r = true -> r = Ok true.
Proof. destruct r as [[]|]; cbn; congruence. Qed.

Lemma foldl_listed {A} (P : list A -> resourceName -> Prop) (step : list resourceName -> A -> list resourceName) :
  (forall l l' n, l ⊆ l' -> P l n -> P l' n) ->
  (forall l out x, x ∈ l -> listed_for (P l) out -> listed_for (P l) (step out x)) ->
  forall l, listed_for (P l) (foldl step [] l).
Proof.
  intros Hmono Hstep l. assert (forall k out, k ⊆ l -> listed_for (P l) out -> listed_for (P l) (foldl step out k)) as Hg.
  { induction k as [|x k IH]; intros out Hk Hout; [done|]. cbn. apply IH.
    - intros y Hy. apply Hk. by right.
    - apply Hstep; [apply Hk; by left|done]. }
  apply Hg; [done|]. split; [by constructor|done].
Qed.

Lemma native_pages held pages functions :
  listed_for (page_visible held pages) (hostNativeNames held pages functions "pages").
Proof.
  cbn. apply (foldl_listed (page_visible held)).
  - intros l l' n Hs (p & reqs & Hp & Hr). exists p, reqs. split; [by apply Hs|done].
  - intros l out p Hp Hout. unfold add_page. destruct (lp_ParsedRequirements p) as [reqs|] eqn:Hr; [|done].
    destruct (passes _) eqn:Hv; [|done]. apply passes_true in Hv. apply add_name_listed; [done|].
    by exists p, reqs.
Qed.

Lemma native_functions held pages functions :
  listed_for (function_visible held functions) (hostNativeNames held pages functions "functions").
Proof.
  cbn. apply (foldl_listed (function_visible held)).
  - intros l l' n Hs (f & Hf & Hr). exists f. split; [by apply Hs|done].
  - intros l out f Hf Hout. unfold add_function. destruct (lf_Internal f) eqn:Hi; [done|].
    destruct (lf_Ready f) eqn:Hr; [|done]. cbn. destruct (passes _) eqn:Hv; [|done].
    apply passes_true in Hv. apply add_name_listed; [done|]. by exists f.
Qed.
End Native.

(** * Who owns a listing *)

Section Owner.
Context `{!ListingJSON}.

(** A function declares that its route lists the resource. *)
Definition declares (paths : gmap string pathInfo) (resource route : string) : Prop :=
  exists base info ext, paths !! base = Some info /\ pi_Function info = true /\
    pi_Paths info !! route = Some (Some ext) /\ Contains route "{" = false /\ listingResource ext = resource.

Lemma elem_of_listing_routes paths resource route :
  route ∈ listing_routes paths resource <-> declares paths resource route.
Proof.
  unfold listing_routes. rewrite elem_of_keep_distinct, elem_of_nil.
  assert (route ∈ mjoin ((fun x => declared_routes resource x.2) <$> map_to_list paths) <->
    declares paths resource route) as ->; [|tauto].
  rewrite list_elem_of_join. unfold declares, declared_routes. split.
  - intros (l & Hin & Hl). apply list_elem_of_fmap in Hl as ([base info] & -> & Hb).
    apply elem_of_map_to_list in Hb. cbn in Hin. destruct (pi_Function info) eqn:Hf; cbn in Hin; [|by apply elem_of_nil in Hin].
    apply list_elem_of_fmap in Hin as ([r get] & -> & Hin). apply list_elem_of_filter in Hin as [Hg Hin].
    apply elem_of_map_to_list in Hin. cbn in Hg |- *. destruct get as [ext|]; [|done].
    apply andb_true_iff in Hg as [Hc%negb_true_iff Hr%String.eqb_eq]. by exists base, info, ext.
  - intros (base & info & ext & Hb & Hf & Hin & Hc & Hr).
    eexists. split; [|apply list_elem_of_fmap; exists (base, info); split; [reflexivity|by apply elem_of_map_to_list]].
    cbn. rewrite Hf. cbn. apply list_elem_of_fmap. exists (route, Some ext). split; [done|].
    apply list_elem_of_filter. split; [|by apply elem_of_map_to_list]. cbn.
    by rewrite Hc, Hr, String.eqb_refl.
Qed.

(** A listing has one owner or none. The route chosen for a resource is the
    only one a function declares for it; the host's own resources are never a
    function's; and when two routes compete, whichever order the maps are
    walked in, neither is chosen, and the error names them all, in order. *)
Theorem listing_owner_unique paths resource :
  match listingRoute paths resource with
  | Ok route => if contains_elem hostNativeResources resource then route = "" else
      (forall r, declares paths resource r -> r = route) /\ (route <> "" -> declares paths resource route)
  | Err routes => resource ∉ hostNativeResources /\ (2 <= length routes)%nat /\ NoDup routes /\
      StronglySorted string_le routes /\ forall r, r ∈ routes <-> declares paths resource r
  end.
Proof.
  unfold listingRoute. destruct (contains_elem hostNativeResources resource) eqn:Hn; [done|].
  pose proof (elem_of_listing_routes paths resource) as He.
  assert (NoDup (listing_routes paths resource)) as Hnd by (apply NoDup_keep_distinct, NoDup_nil_2).
  destruct (listing_routes paths resource) as [|r1 [|r2 l]] eqn:Hl.
  - split; [|done]. intros r Hr%He. by apply elem_of_nil in Hr.
  - split; [|intros _; apply He; by left]. intros r Hr%He. by apply list_elem_of_singleton in Hr.
  - split_and!.
    + intros Hin. apply contains_elem_spec in Hin. congruence.
    + unfold sort_strings. rewrite merge_sort_Permutation. cbn. lia.
    + unfold sort_strings. by rewrite merge_sort_Permutation.
    + apply StronglySorted_merge_sort; apply _.
    + intros r. unfold sort_strings. rewrite merge_sort_Permutation. apply He.
Qed.

(** What an owner's answer can be. *)
Context `{!JSON resourceNamesPage}.

(** A page taken from an owner. *)
Lemma dispatch_page mux route q cursor limit p status challenge :
  dispatchListing mux route q cursor limit = (Some p, status, challenge) ->
  let buf := buffered (mux route (Encode (forwarded_query q cursor limit))).1 in
  status = 200%Z /\ bf_overflow buf = false /\ Unmarshal (bf_body buf) = Some p /\
  (Z.of_nat (length (np_Items p)) <= limit)%Z /\ Forall (fun n => rn_Name n <> "") (np_Items p).
Proof.
  unfold dispatchListing. destruct (mux route _) as [steps chal]. cbn zeta. cbn [fst].
  destruct (negb _); [done|]. destruct (bf_overflow (buffered steps)) eqn:Ho; [done|]. intros [= Hp <- <-].
  destruct (Unmarshal _) as [p'|]; [|done]. destruct (limit <? _)%Z eqn:Hl; [done|].
  destruct (existsb _ _) eqn:Hx; [done|]. injection Hp as ->. apply Z.ltb_ge in Hl.
  split_and!; try done. apply Forall_forall. intros n Hn He. apply not_true_iff_false in Hx.
  apply Hx, existsb_exists. exists n. split; [by apply list_elem_of_In|by apply String.eqb_eq].
Qed.

(** An owner is asked for the filter, the cursor and the limit and nothing
    else; a page is taken from it only on a 200 whose body is no larger than
    the host buffers, decodes, holds no more names than the limit, and none
    that is empty. Its refusals keep their status. *)
Theorem owner_answer_checked mux route q cursor limit page status challenge :
  dispatchListing mux route q cursor limit = (page, status, challenge) ->
  let asked := mux route (Encode (forwarded_query q cursor limit)) in
  let buf := buffered asked.1 in
  status = bf_status buf /\ challenge = asked.2 /\
  (forall p, page = Some p -> status = 200%Z /\ bf_overflow buf = false /\ Unmarshal (bf_body buf) = Some p /\
     (Z.of_nat (length (np_Items p)) <= limit)%Z /\ Forall (fun n => rn_Name n <> "") (np_Items p)) /\
  (Z.of_nat (String.length (bf_body buf)) <= maxListingResponseBytes)%Z /\
  ParseQuery (Encode (forwarded_query q cursor limit)) = forwarded_query q cursor limit /\
  dom (forwarded_query q cursor limit) ⊆ {["limit"; "q"; "cursor"]}.
Proof.
  intros Hd. pose proof Hd as Heq. unfold dispatchListing in Heq. cbn zeta.
  destruct (mux route _) as [steps chal] eqn:Hm. cbn [fst snd]. split_and!.
  - destruct (bf_status (buffered steps) =? 200)%Z eqn:Hs; cbn in Heq; [|by injection Heq].
    apply Z.eqb_eq in Hs. destruct (bf_overflow _); injection Heq as <- <- <-; by rewrite Hs.
  - destruct (bf_status (buffered steps) =? 200)%Z; cbn in Heq; [|by injection Heq].
    destruct (bf_overflow _); by injection Heq.
  - intros p ->. pose proof (dispatch_page _ _ _ _ _ _ _ _ Hd) as Hp. by rewrite Hm in Hp.
  - unfold buffered. clear Heq Hm. assert (forall b, (Z.of_nat (String.length (bf_body b)) <= maxListingResponseBytes)%Z ->
      (Z.of_nat (String.length (bf_body (foldl buffer b steps))) <= maxListingResponseBytes)%Z) as Hb; [|by apply Hb].
    induction steps as [|s steps IH]; intros b Hb; [done|]. cbn. apply IH. destruct s as [st|p]; cbn.
    + unfold buffer_header. by destruct (bf_wroteHeader b).
    + assert (bf_body (buffer_header b 200) = bf_body b) as Hh by (unfold buffer_header; by destruct (bf_wroteHeader b)).
      destruct (_ <? _)%Z eqn:Hl; cbn; [by rewrite Hh|]. apply Z.ltb_ge in Hl. rewrite Hh in Hl |- *.
      assert (forall s t, String.length (s ++ t) = (String.length s + String.length t)%nat) as Hlen.
      { clear. induction s as [|c s IH]; intros t; cbn; [done|by rewrite IH]. }
      by rewrite Hlen.
  - apply ParseQuery_Encode_id. intros k vs. unfold forwarded_query, SetValue.
    destruct (String.eqb q ""), (String.eqb cursor ""); cbn [negb];
      rewrite ?lookup_insert_Some, ?lookup_singleton_Some; intros Hk; intros ->; naive_solver.
  - unfold forwarded_query, SetValue. destruct (String.eqb q ""), (String.eqb cursor ""); cbn [negb];
      rewrite ?dom_insert_L, dom_singleton_L; set_solver.
Qed.
End Owner.

(** * The endpoint *)

Section Handler.
Context `{!TextOps} `{!JSON resourceName} `{!JSON resourceNamesPage} `{!Entitlements} `{!ListingJSON}
  `{!Attenuation}.

Lemma pageOfNames_in all q cursor limit page :
  pageOfNames all q cursor limit = Ok page ->
  (length (np_Items page) <= limit)%nat /\ forall n, n ∈ np_Items page -> n ∈ all.
Proof.
  unfold pageOfNames. destruct (decodeNamesCursor cursor) as [after|]; cbn [mbind result_bind]; [|done].
  intros [= <-]. set (items := merge_sort name_le _).
  assert (forall n, n ∈ items -> n ∈ all) as Hin.
  { intros n. unfold items. rewrite merge_sort_Permutation, list_elem_of_filter. by intros [_ ?]. }
  destruct (Nat.ltb_spec limit (length items)); cbn; [|by split].
  split; [rewrite length_take; lia|]. intros n Hn. apply Hin. rewrite <- (take_drop limit items), elem_of_app. by left.
Qed.

Lemma parse_limit_bounds v limit : parse_limit v = Some limit -> (1 <= limit <= 200)%Z.
Proof.
  unfold parse_limit, resourceNamesDefaultLimit, resourceNamesMaxLimit.
  destruct (String.eqb _ ""); [intros [= <-]; lia|]. destruct (ParseInt _) as [n|]; cbn; [|done].
  destruct (_ || _)%bool eqn:Ho; [done|]. intros [= <-]. apply orb_false_iff in Ho as [?%Z.ltb_ge ?%Z.ltb_ge]. lia.
Qed.

Lemma narrowed_facts held resource verb (P : resourceName -> Prop) p :
  let page := narrowed held resource verb p in
  Forall (fun n => rn_Name n <> "" /\ P n) (np_Items p) ->
  (length (np_Items page) <= length (np_Items p))%nat /\
  (verb <> "" -> Forall (fun n => dominated held (resource ++ ":" ++ rn_Name n ++ ":" ++ verb)) (np_Items page)) /\
  Forall (fun n => rn_Name n <> "" /\ P n) (np_Items page).
Proof.
  cbn zeta. intros HP. unfold narrowed. destruct (String.eqb verb "") eqn:Hv.
  { apply String.eqb_eq in Hv. by split_and!. }
  cbn [np_Items]. split_and!; [apply length_filter| |].
  - intros _. apply Forall_forall. intros n [Hg _]%list_elem_of_filter. unfold grantable in Hg.
    apply VerifyAttenuation_ok in Hg. by apply Forall_cons in Hg as [? _].
  - apply Forall_forall. intros n [_ Hn]%list_elem_of_filter. rewrite Forall_forall in HP. by apply HP.
Qed.

(** Only names the caller may see are listed, and only those it may hand on
    when it asks for a verb. Every answer is to a caller with a context, and
    holds at most the limit asked for, which is 200 at most; each name of a
    page or function is that of one whose gate the caller passes, a page with
    its requirements known, a function ready and public; a name of any other
    resource was answered by the one route declared for it, asked on the
    caller's behalf; and with a verb, each is one the caller's own
    entitlements dominate for it. *)
Theorem listed_names_visible h ctx resource query page :
  resourceNamesHandler h ctx resource query = Answered page ->
  exists ac limit, ctx = Some ac /\ parse_limit (Get query "limit") = Some limit /\ (1 <= limit <= 200)%Z /\
    (Z.of_nat (length (np_Items page)) <= limit)%Z /\
    (Get query "verb" <> "" -> Forall (fun n => dominated (stringSliceFromClaim (ac !! "entitlements"))
       (resource ++ ":" ++ rn_Name n ++ ":" ++ Get query "verb")) (np_Items page)) /\
    let held := GetParsedEntitlements (nh_scopeBuckets h) ac in
    Forall (fun n => rn_Name n <> "" /\
      (resource = "pages" /\ page_visible held (nh_pages h) n \/
       resource = "functions" /\ function_visible held (nh_functions h) n \/
       resource ∉ hostNativeResources /\ exists route owner challenge,
         declares (nh_paths h) resource route /\ (forall r, declares (nh_paths h) resource r -> r = route) /\
         dispatchListing (nh_mux h) route (Get query "q") (Get query "cursor") limit =
           (Some owner, 200%Z, challenge) /\ n ∈ np_Items owner)) (np_Items page).
Proof.
  unfold resourceNamesHandler. destruct ctx as [ac|]; [|done].
  destruct (parse_limit _) as [limit|] eqn:Hlim; [|done]. pose proof (parse_limit_bounds _ _ Hlim) as Hb.
  set (held := stringSliceFromClaim _). set (parsed := GetParsedEntitlements _ ac).
  destruct (contains_elem hostNativeResources resource) eqn:Hn.
  - destruct (pageOfNames _ _ _ _) as [p|] eqn:Hp; [|done]. intros [= <-].
    destruct (pageOfNames_in _ _ _ _ _ Hp) as [Hl Hin].
    destruct (narrowed_facts held resource (Get query "verb") (fun n =>
       resource = "pages" /\ page_visible parsed (nh_pages h) n \/
       resource = "functions" /\ function_visible parsed (nh_functions h) n) p) as (Hlen & Hverb & Hall).
    + apply Forall_forall. intros n Hn'%Hin. apply contains_elem_spec in Hn.
      unfold hostNativeResources in Hn. rewrite !elem_of_cons in Hn.
      destruct Hn as [->|[->|Hn]]; [| |by apply elem_of_nil in Hn].
      * destruct (native_pages parsed (nh_pages h) (nh_functions h)) as [_ Hall].
        rewrite Forall_forall in Hall. destruct (Hall n Hn'). split; [done|by left].
      * destruct (native_functions parsed (nh_pages h) (nh_functions h)) as [_ Hall].
        rewrite Forall_forall in Hall. destruct (Hall n Hn'). split; [done|by right].
    + exists ac, limit. split_and!; try done; [lia..|]. cbn zeta. eapply Forall_impl; [exact Hall|]. cbn.
      intros n [? [?|?]]; tauto.
  - pose proof (elem_of_listing_routes (nh_paths h) resource) as He.
    unfold listingRoute. rewrite Hn. destruct (listing_routes (nh_paths h) resource) as [|route [|? ?]] eqn:Hr;
      [done| |done].
    destruct (String.eqb route "") eqn:Hre; [done|].
    destruct (dispatchListing _ route _ _ limit) as [[owner status] challenge] eqn:Hd.
    destruct (status =? 200)%Z eqn:Hs; cbn [negb]; [|done]. apply Z.eqb_eq in Hs as ->.
    destruct owner as [owner|]; [|done]. intros [= <-].
    destruct (dispatch_page _ _ _ _ _ _ _ _ Hd) as (_ & _ & _ & Hl & Hne).
    destruct (narrowed_facts held resource (Get query "verb") (fun n => n ∈ np_Items owner) owner)
      as (Hlen & Hverb & Hall).
    { apply Forall_forall. intros n Hin. rewrite Forall_forall in Hne. split; [by apply Hne|done]. }
    exists ac, limit. split_and!; try done; [lia..|]. cbn zeta. eapply Forall_impl; [exact Hall|]. cbn.
    intros n [? ?]. split; [done|]. right. right. split.
    { intros Hin. apply contains_elem_spec in Hin. congruence. }
    exists route, owner, challenge. split_and!; try done; [apply He; by left|].
    intros r Hdr%He. by apply list_elem_of_singleton in Hdr.
Qed.
End Handler.

(** * Witnesses *)

#[local] Program Instance textExample : TextOps := {|
  lowerText := ToLower;
  EncodeToString s := s;
  DecodeString s := Some s;
|}.
Next Obligation. done. Qed.
Next Obligation. done. Qed.

#[local] Program Instance resourceName_countable : Countable resourceName :=
  inj_countable' (fun n => (rn_Name n, rn_Label n)) (fun x => mkName x.1 x.2) _.
Next Obligation. by intros []. Qed.

#[local] Instance page_eq_dec : EqDecision resourceNamesPage.
Proof. solve_decision. Defined.

#[local] Program Instance page_countable : Countable resourceNamesPage :=
  inj_countable' (fun p => (np_Items p, np_Next p)) (fun x => mkPage x.1 x.2) _.
Next Obligation. by intros []. Qed.

#[local] Instance nameJSON : JSON resourceName := jsonExample resourceName.
#[local] Instance pageJSON : JSON resourceNamesPage := jsonExample resourceNamesPage.
#[local] Instance noRaw : ListingJSON := {| UnmarshalResource _ := None |}.
#[local] Existing Instance bearerEntitlements.

Definition animals : list resourceName := [mkName "/c" "Cat"; mkName "/a" "ape"; mkName "/b" ""; mkName "/d" "Cat"].

Lemma paging_lists_all_witness :
  follow 5 animals "" "" 2 = Some [[mkName "/b" ""; mkName "/a" "ape"]; [mkName "/c" "Cat"; mkName "/d" "Cat"]] /\
  exists pages, follow 5 animals "" "" 2 = Some pages /\ Forall (fun p => length p <= 2)%nat pages.
Proof.
  split; [vm_compute; reflexivity|].
  destruct (paging_lists_all animals "" 2) as (pages & Hf & Hb & _).
  - assert (bool_decide (NoDup (rn_Name <$> animals)) = true) as Hb by (vm_compute; reflexivity).
    by apply bool_decide_eq_true in Hb.
  - repeat (apply Forall_cons_2; [split_and!; by vm_compute|]). by apply Forall_nil.
  - by apply Nat.ltb_lt.
  - exists pages. split; [exact Hf|exact Hb].
Defined.

(** A checker whose pages and functions are granted by name, and dominance by
    membership. *)
Definition first_missing (held requested : list string) : string * bool :=
  match list_find (fun e => e ∉ held) requested with
  | Some (_, e) => (e, false)
  | None => ("", true)
  end.

#[local] Program Instance heldAttenuation : Attenuation := {|
  VerifyAttenuation := first_missing;
  dominated held e := e ∈ held;
|}.
Next Obligation.
  intros held requested. unfold first_missing. destruct (list_find _ requested) as [[i e]|] eqn:Hf; cbn.
  - split; [done|]. apply list_find_Some in Hf as (Hl & Hn & _). intros Hall.
    rewrite Forall_forall in Hall. exfalso. apply Hn, Hall. by apply list_elem_of_lookup_2 in Hl.
  - split; [|done]. intros _. apply list_find_None in Hf. eapply Forall_impl; [exact Hf|].
    intros e He. by destruct (decide (e ∈ held)).
Qed.
Next Obligation.
  intros held requested. unfold first_missing. destruct (list_find _ requested) as [[i e]|] eqn:Hf; cbn; [|done].
  intros _. apply list_find_Some in Hf as (Hl & _). by apply list_elem_of_lookup_2 in Hl.
Qed.

#[local] Instance pageEntitlements : Entitlements := {|
  ParsedEntitlements := list string;
  ParsedRequirements := unit;
  ParseEntitlements u := default [] (u !! "bearer");
  ParseRequirements _ := tt;
  VerifyParsedEntitlements _ _ := true;
  VerifyResource resource name ents _ _ := Ok (contains_elem ents (resource ++ ":" ++ name ++ ":read"));
|}.

Definition petsPage : resourceNamesPage := mkPage [mkName "rex" "Rex"; mkName "tom" ""] "".

Definition namesHost : names_host := mkNamesHost false "https://h"
  [mkListedPage "/home" "Home" (Some tt); mkListedPage "/hidden" "Hidden" None; mkListedPage "/admin" "Admin" (Some tt)]
  [] {[ "/pets" := mkPathInfo true {[ "/pets" := Some (Some (ExtObject [("resource", VStr "pets")])) ]} ]}
  (fun route query => ([BWriteHeader 200; BWrite (Marshal petsPage)], "")).

Definition editor : AuthContext := <["entitlements" := VStrs ["pages:/home:read"; "pages:/admin:read"; "pages:/home:edit"; "pets:rex:edit"]]> ∅.

Lemma listed_names_visible_witness :
  resourceNamesHandler namesHost (Some editor) "pets" {[ "verb" := ["edit"] ]} = Answered (mkPage [mkName "rex" "Rex"] "") /\
  Forall (fun n => rn_Name n <> "") [mkName "rex" "Rex"].
Proof.
  assert (resourceNamesHandler namesHost (Some editor) "pets" {[ "verb" := ["edit"] ]} =
    Answered (mkPage [mkName "rex" "Rex"] "")) as Hw by (vm_compute; reflexivity).
  split; [exact Hw|].
  destruct (listed_names_visible namesHost (Some editor) "pets" _ _ Hw) as (ac & limit & _ & _ & _ & _ & _ & Hall).
  eapply Forall_impl; [exact Hall|]. cbn. by intros n [? _].
Defined.

Lemma listed_pages : resourceNamesHandler namesHost (Some editor) "pages" ∅ =
  Answered (mkPage [mkName "/admin" "Admin"; mkName "/home" "Home"] "").
Proof. vm_compute. reflexivity. Qed.

Lemma owner_answer_checked_witness :
  exists status challenge, dispatchListing (nh_mux namesHost) "/pets" "r" "" 50 = (Some petsPage, status, challenge) /\
    status = 200%Z.
Proof.
  exists 200%Z, "".
  assert (dispatchListing (nh_mux namesHost) "/pets" "r" "" 50 = (Some petsPage, 200%Z, "")) as Hd by (vm_compute; reflexivity).
  split; [exact Hd|].
  destruct (owner_answer_checked (nh_mux namesHost) "/pets" "r" "" 50 _ _ _ Hd) as (_ & _ & Hp & _).
  destruct (Hp petsPage eq_refl) as [Hs _]. exact Hs.
Defined.
