(* ===== verification/Functions.v ===== *)
(** The functions a host proxies to, as the handlers read them
    (src/internal/host/proxy.go, oauth2_resources.go, protected_resource.go):
    the path an upstream receives, the audience of a function's tokens, and
    the resources the functions make of the host. *)
From S2P Require Import Prelude GoStr Deps Claims Clients Roles Url Binding Denial.
From Stdlib Require Import Ascii.

#[local] Open Scope string_scope.

(** * Upstream paths *)

Definition hasDotDotSegment (decodedPath : string) : bool := contains_elem (Split "/"%char decodedPath) "..".

Definition slash_trim (s : string) : string :=
  trim_right (Ascii.eqb "/") (trim_left (Ascii.eqb "/") s).

(** Whether the segments start with the wanted ones, decoded; what follows. *)
Fixpoint strip_segments (want segs : list string) : option (list string) :=
  match want, segs with
  | [], _ => Some segs
  | w :: want, s :: segs =>
      if bool_decide (PathUnescape s = Some w) then strip_segments want segs else None
  | _ :: _, [] => None
  end.

Definition trimBasePathSegments (p basePath : string) : string :=
  let base := slash_trim basePath in
  if String.eqb base "" then p else
  match strip_segments (Split "/"%char base) (Split "/"%char (TrimPrefix p "/")) with
  | None => p
  | Some [] => ""
  | Some rest => "/" ++ Join rest "/"
  end.

Definition upstreamEscapedPath (requestEscaped targetEscaped basePath : string) (stripBase : bool) : string :=
  let rest := if stripBase then trimBasePathSegments requestEscaped basePath else requestEscaped in
  let p := TrimSuffix targetEscaped "/" ++ rest in
  if String.eqb p "" then "/" else p.

(** * Functions *)

(** github.com/kdex-tech/dmapper: the rules of a claim mapping, and the mapper
    built from them ([None] when they do not compile). *)
Class Dmapper := {
  ClaimMapping : Type;
  NewMapper : list ClaimMapping -> option (claims -> result unit claims);
}.

(** An OpenAPI operation, and a route's operations by method. *)
Record Operation := mkOperation {
  op_Extensions : gmap string value;
  op_Security : option (list (gmap string (list string)));
}.

Abbreviation PathItem := (gmap string Operation).

Record KDexFunction `{Dmapper} := mkFunction {
  fn_Name : string;
  fn_Annotations : gmap string string;
  fn_BasePath : string;
  fn_Paths : gmap string PathItem;
  fn_ClaimMappings : list ClaimMapping;
  fn_Backend : bool;
  fn_Internal : bool;
  fn_Ready : bool;
  fn_URL : string;
}.
Arguments mkFunction {_}.

Definition AnnotationInvalidatesGrantsOnWrite : string := "kdex.dev/invalidates-grants-on-write".

(** net/url, on a function's URL: its scheme, host and escaped path, and its
    text once path, query and fragment are cleared. *)
Record target := mkTarget { tg_Scheme : string; tg_Host : string; tg_EscapedPath : string; tg_origin : string }.

Class TargetURL := { ParseTarget : string -> option target }.

Section Functions.
Context `{!Dmapper} `{!TargetURL}.

Implicit Type fn : KDexFunction.

(** [fn] is not nil. *)
Definition shouldInvalidateGrants fn (method : string) (status : Z) : bool :=
  if negb (bool_decide (fn_Annotations fn !! AnnotationInvalidatesGrantsOnWrite = Some "true")) then false
  else if contains_elem ["GET"; "HEAD"; "OPTIONS"] method then false
  else ((200 <=? status) && (status <? 300))%Z%bool.

Definition fatAudienceFor fn : string :=
  if negb (fn_Backend fn) then fn_URL fn else
  match ParseTarget (fn_URL fn) with None => fn_URL fn | Some u => tg_origin u end.

Definition isAPIKeyScheme (name : string) : bool :=
  contains_elem ["apiKeyCookie"; "apiKeyHeader"; "apiKeyQuery"] name.

(** * OAuth2-protected resources (oauth2_resources.go) *)

Record OAuth2Resource := mkResource { or_BasePath : string; or_Resource : string; or_Scopes : list string }.

Definition methods : list string :=
  ["CONNECT"; "DELETE"; "GET"; "HEAD"; "OPTIONS"; "PATCH"; "POST"; "PUT"; "TRACE"].

(** The operations, in the order the routes happen to be ranged over. *)
Definition operations fn : list (string * Operation) :=
  mjoin ((fun x : string * PathItem =>
            omap (fun m => op ← x.2 !! m; Some (m ++ " " ++ x.1, op)) methods) <$> map_to_list (fn_Paths fn)).

Definition requirements (op : Operation) : list (gmap string (list string)) := default [] (op_Security op).

(** The scope lists of the oauth2 scheme, over every operation. *)
Definition oauth2_lists fn : list (list string) :=
  mjoin ((fun x => omap (fun sr : gmap string (list string) => sr !! "oauth2") (requirements x.2)) <$> operations fn).

Definition add_protected (issuer : string) (out : gmap string OAuth2Resource) fn : gmap string OAuth2Resource :=
  if (negb (fn_Ready fn) || fn_Internal fn)%bool then out else
  match oauth2_lists fn with
  | [] => out
  | lists =>
      <[fn_BasePath fn := mkResource (fn_BasePath fn) (issuer ++ fn_BasePath fn)
          (keep_distinct (fun _ => true) [] (mjoin lists))]> out
  end.

Definition oauth2ProtectedResources (issuer : string) (functions : list KDexFunction)
    : gmap string OAuth2Resource :=
  if String.eqb issuer "" then ∅ else foldl (add_protected issuer) ∅ functions.

Definition protectedResourcePath : string := "/.well-known/oauth-protected-resource".

Definition resourceMetadataURL (issuer basePath : string) : string :=
  issuer ++ protectedResourcePath ++ basePath.

Definition oauth2ResourceMetadataLocked (issuer : string) (functions : list KDexFunction) : gmap string string :=
  map_imap (fun basePath _ => Some (resourceMetadataURL issuer basePath))
    (oauth2ProtectedResources issuer functions).

Definition add_audiences (out : gmap string bool) (x : string * OAuth2Resource) : gmap string bool :=
  <[or_BasePath x.2 := true]> $ <[or_Resource x.2 := true]> out.

Definition oauth2ResourceAudiences (issuer : string) (functions : list KDexFunction) : gmap string bool :=
  foldl add_audiences ∅ (map_to_list (oauth2ProtectedResources issuer functions)).

Definition add_target (issuer : string) (out : gmap string string) fn : gmap string string :=
  if negb (fn_Ready fn) then out else
  let aud := fatAudienceFor fn in
  if String.eqb aud "" then out
  else <[issuer ++ fn_BasePath fn := aud]> $ <[fn_BasePath fn := aud]> out.

Definition exchangeTargetAudiences (issuer : string) (functions : list KDexFunction) : gmap string string :=
  if String.eqb issuer "" then ∅ else foldl (add_target issuer) ∅ functions.

(** * Their metadata (protected_resource.go) *)

Record ProtectedResourceMetadata := mkMetadata {
  md_Resource : string;
  md_AuthorizationServers : list string;
  md_ScopesSupported : list string;
  md_BearerMethodsSupported : list string;
}.

(** [suffix] is the path's wildcard; [None] is a 404. *)
Definition match_resource (resources : gmap string OAuth2Resource) (suffix : string) : option OAuth2Resource :=
  if String.eqb suffix "" then
    match map_to_list resources with [(_, res)] => Some res | _ => None end
  else resources !! ("/" ++ TrimPrefix suffix "/").

Definition oauthProtectedResourceHandler (issuer : string) (functions : list KDexFunction) (suffix : string)
    : option ProtectedResourceMetadata :=
  let resources := oauth2ProtectedResources issuer functions in
  if bool_decide (resources = ∅) then None else
  res ← match_resource resources suffix;
  Some (mkMetadata (or_Resource res) [issuer] (sort_strings (or_Scopes res)) ["header"]).
End Functions.
