(* ===== verification/Mux.v ===== *)
(** net/http's [ServeMux] (Go's standard library), as far as the program uses
    it to find the pattern of a path: patterns without host or method, literal
    segments before wildcards before a trailing wildcard, paths cleaned
    first. *)
From S2P Require Import Prelude GoStr Binding.
From Stdlib Require Import Ascii.

#[local] Open Scope string_scope.

(** [Multi] is a trailing wildcard, nameless for a trailing slash. *)
Inductive segment := Literal (s : string) | Single (name : string) | Multi (name : string).

#[global] Instance segment_eq_dec : EqDecision segment.
Proof. solve_decision. Defined.

Definition unescaped (s : string) : string := default s (PathUnescape s).

Definition parse_segment (seg : string) : segment :=
  if negb (has_byte "{" seg) then Literal (unescaped seg) else
  let name := TrimSuffix (TrimPrefix seg "{") "}" in
  if String.eqb name "$" then Literal "/"
  else if HasSuffix name "..." then Multi (TrimSuffix name "...") else Single name.

(** The segments of a pattern that starts with a slash. *)
Definition parse_pattern (pattern : string) : list segment :=
  match Split "/"%char (TrimPrefix pattern "/") with
  | segs =>
      match last segs with
      | Some "" => (parse_segment <$> take (length segs - 1) segs) ++ [Multi ""]
      | _ => parse_segment <$> segs
      end
  end%list.

(** The segments of a path; its trailing slash is one of them. *)
Definition path_segments (path : string) : list string :=
  match Split "/"%char (TrimPrefix path "/") with
  | segs =>
      match last segs with
      | Some "" => (unescaped <$> take (length segs - 1) segs) ++ ["/"]
      | _ => unescaped <$> segs
      end
  end%list.

(** The tree's node: the patterns that go through it, with what they have
    left. *)
Abbreviation node := (list (string * list segment)).

Definition literal_child (s : string) (n : node) : node :=
  omap (fun x => match x.2 with Literal t :: rest => if String.eqb s t then Some (x.1, rest) else None | _ => None end) n.

Definition single_child (n : node) : node :=
  omap (fun x => match x.2 with Single _ :: rest => Some (x.1, rest) | _ => None end) n.

Definition leaf (n : node) : option string :=
  match list_find (fun x => x.2 = []) n with Some (_, x) => Some x.1 | None => None end.

Definition is_multi (l : list segment) : bool := match l with [Multi _] => true | _ => false end.

Definition multi_child (n : node) : option string :=
  match list_find (fun x => is_multi x.2 = true) n with Some (_, x) => Some x.1 | None => None end.

Fixpoint matchPath (n : node) (segs : list string) : option string :=
  match segs with
  | [] => leaf n
  | s :: segs =>
      match matchPath (literal_child s n) segs with
      | Some p => Some p
      | None =>
          match (if String.eqb s "/" then None else matchPath (single_child n) segs) with
          | Some p => Some p
          | None => multi_child n
          end
      end
  end.

Definition tree (patterns : list string) : node := (fun p => (p, parse_pattern p)) <$> patterns.

(** * Cleaning *)

(** [path.Clean]'s walk over the segments of a rooted path. *)
Definition clean_segment (out : list string) (seg : string) : list string :=
  if (String.eqb seg "" || String.eqb seg ".")%bool then out
  else if String.eqb seg ".." then take (length out - 1) out
  else (out ++ [seg])%list.

Definition Clean (rooted : string) : string :=
  "/" ++ Join (foldl clean_segment [] (Split "/"%char rooted)) "/".

Definition cleanPath (p : string) : string :=
  if String.eqb p "" then "/" else
  let p := if HasPrefix p "/" then p else "/" ++ p in
  let np := Clean p in
  if (HasSuffix p "/" && negb (String.eqb np "/"))%bool then np ++ "/" else np.

(** * Looking a request up *)

Definition find (patterns : list string) (path : string) : option string :=
  matchPath (tree patterns) (path_segments path).

(** A pattern that matches the path without a wildcard at its end, or the path
    in full. *)
Definition exactMatch (pattern : option string) (path : string) : bool :=
  match pattern with
  | None => false
  | Some p =>
      if negb (is_multi (drop (length (parse_pattern p) - 1) (parse_pattern p))) then true
      else if (0 <? String.length path)%nat && negb (HasSuffix path "/") then false
      else (length (parse_pattern p) =? length (path_segments path))%nat
  end%bool.

(** The pattern [mux.Handler] reports for a path, "" when there is none: for a
    path that only matches once a slash is added, the answer is a redirect,
    and the pattern reported is the path redirected to. *)
Definition mux_pattern (patterns : list string) (escapedPath : string) : string :=
  let path := cleanPath escapedPath in
  let n := find patterns path in
  if (negb (exactMatch n path) && exactMatch (find patterns (path ++ "/")) (path ++ "/"))%bool
  then Clean (unescaped path) ++ "/"
  else default "" n.
