(* ===== verification/FunctionsSpec.v ===== *)
(** The path an upstream receives is the one that was gated, and a function's
    audiences and metadata agree wherever they are told. *)
From S2P Require Import Prelude GoStr Deps Claims Clients Roles Url Binding Denial Functions.
From Stdlib Require Import Ascii.

#[local] Open Scope string_scope.

(** * Paths *)

Lemma Split_app sep a b : Split sep (a ++ String sep b) = (Split sep a ++ Split sep b)%list.
Proof.
  induction a as [|c a IH]; cbn [String.append Split].
  - by rewrite Ascii.eqb_refl.
  - rewrite IH. destruct (Ascii.eqb c sep); [done|].
    by destruct (Split_cons sep a) as (seg & segs & ->).
Qed.

Lemma PathUnescape_app b : forall n a, (String.length a < n)%nat ->
  PathUnescape (a ++ String "/" b) =
  (ua ← PathUnescape a; ub ← PathUnescape b; Some (ua ++ String "/" ub)).
Proof.
  induction n as [|n IH]; intros a Hlt; [lia|].
  destruct a as [|c a]; [cbn; by destruct (PathUnescape b)|].
  cbn [String.append PathUnescape]. cbn [String.length] in Hlt.
  destruct (Ascii.eqb c "%").
  - destruct a as [|x [|y a]].
    + cbn [String.append]. by destruct b.
    + cbn [String.append]. by destruct (unhex x).
    + cbn [String.append]. destruct (unhex x); [|done]. destruct (unhex y); [|done].
      cbn [mbind option_bind]. rewrite IH by (cbn [String.length] in Hlt; lia).
      destruct (PathUnescape a); [|done]. cbn. by destruct (PathUnescape b).
  - rewrite IH by lia. destruct (PathUnescape a); [|done]. cbn. by destruct (PathUnescape b).
Qed.

Lemma PathUnescape_sep a b :
  PathUnescape (a ++ String "/" b) = (ua ← PathUnescape a; ub ← PathUnescape b; Some (ua ++ String "/" ub)).
Proof. apply (PathUnescape_app b (S (String.length a))). lia. Qed.

(** Decoding a path decodes its segments. *)
Lemma unescaped_segments (l : list string) : forall decoded seg,
  PathUnescape (Join l "/") = Some decoded -> seg ∈ l ->
  exists u, PathUnescape seg = Some u /\ Split "/"%char u ⊆ Split "/"%char decoded.
Proof.
  induction l as [|s l IH]; intros decoded seg Hd Hin; [by apply elem_of_nil in Hin|].
  destruct l as [|s' l].
  { apply list_elem_of_singleton in Hin as ->. by exists decoded. }
  change (Join (s :: s' :: l) "/") with (s ++ String "/" (Join (s' :: l) "/")) in Hd.
  rewrite PathUnescape_sep in Hd.
  destruct (PathUnescape s) as [us|] eqn:Hs; [|done]. cbn [mbind option_bind] in Hd.
  destruct (PathUnescape (Join (s' :: l) "/")) as [ul|] eqn:Hl; [|done].
  injection Hd as <-. rewrite Split_app.
  apply elem_of_cons in Hin as [->|Hin].
  - exists us. split; [done|]. intros x Hx. apply elem_of_app. by left.
  - destruct (IH ul seg eq_refl Hin) as (u & Hu & Hsub). exists u. split; [done|].
    intros x Hx. apply elem_of_app. right. by apply Hsub.
Qed.

(** No escaped segment of a path without a ".." decodes to one. *)
Lemma no_dotdot_segment p decoded :
  PathUnescape p = Some decoded -> hasDotDotSegment decoded = false ->
  Forall (fun seg => PathUnescape seg <> Some "..") (Split "/"%char p).
Proof.
  intros Hd Hno. apply Forall_forall. intros seg Hin Hdd.
  assert (".." ∈ Split "/"%char decoded) as Hbad.
  { rewrite <- (Join_Split "/"%char p) in Hd.
    destruct (unescaped_segments _ _ _ Hd Hin) as (u & Hu & Hsub).
    rewrite Hdd in Hu. injection Hu as <-. apply Hsub. cbn. left. }
  unfold hasDotDotSegment in Hno. apply contains_elem_spec in Hbad. congruence.
Qed.

Lemma strip_segments_spec want : forall segs rest, strip_segments want segs = Some rest ->
  exists stripped, segs = (stripped ++ rest)%list /\ PathUnescape <$> stripped = Some <$> want.
Proof.
  induction want as [|w want IH]; intros segs rest; cbn [strip_segments].
  - intros [= ->]. by exists [].
  - destruct segs as [|s segs]; [done|]. case_bool_decide as Hs; [|done]. intros Hr.
    destruct (IH _ _ Hr) as (stripped & -> & Hm). exists (s :: stripped). split; [done|].
    rewrite !fmap_cons. by rewrite Hs, Hm.
Qed.

(** The mount path, followed by the segments. *)
Definition mounted (mount : string) (kept : list string) : string :=
  let p := mount ++ (match kept with [] => "" | _ => "/" ++ Join kept "/" end) in
  if String.eqb p "" then "/" else p.

Lemma Split_nonempty sep s : Split sep s <> [].
Proof. by destruct (Split_cons sep s) as (seg & segs & ->). Qed.

Lemma trimBase_segments q basePath :
  exists stripped kept, Split "/"%char q = (stripped ++ kept)%list /\
    (stripped = [] \/ PathUnescape <$> stripped = Some <$> Split "/"%char (slash_trim basePath)) /\
    trimBasePathSegments ("/" ++ q) basePath = match kept with [] => "" | _ => "/" ++ Join kept "/" end.
Proof.
  assert (forall l : list string, Split "/"%char q = l -> "/" ++ q = match l with [] => "" | _ => "/" ++ Join l "/" end)
    as Hwhole.
  { intros l <-. rewrite (Join_Split "/"%char q). by destruct (Split_cons "/"%char q) as (seg & segs & ->). }
  unfold trimBasePathSegments. destruct (String.eqb (slash_trim basePath) "").
  { exists [], (Split "/"%char q). split_and!; [done|by left|by apply Hwhole]. }
  rewrite (TrimPrefix_append "/" q).
  destruct (strip_segments _ _) as [rest|] eqn:Hs.
  - destruct (strip_segments_spec _ _ _ Hs) as (stripped & Heq & Hm).
    exists stripped, rest. split_and!; [done|by right|by destruct rest].
  - exists [], (Split "/"%char q). split_and!; [done|by left|by apply Hwhole].
Qed.

(** The path sent upstream is the backend's mount path followed by the
    segments the gate matched, as they were escaped: all of them, or, for a
    backend that does not know the base path, those after the base path's own.
    None of them decodes to "..". *)
Theorem upstream_path_gated q decoded targetEscaped basePath stripBase :
  PathUnescape ("/" ++ q) = Some decoded -> hasDotDotSegment decoded = false ->
  exists stripped kept,
    Split "/"%char q = (stripped ++ kept)%list /\
    (stripped = [] \/
     stripBase = true /\ PathUnescape <$> stripped = Some <$> Split "/"%char (slash_trim basePath)) /\
    Forall (fun seg => PathUnescape seg <> Some "..") kept /\
    upstreamEscapedPath ("/" ++ q) targetEscaped basePath stripBase =
      mounted (TrimSuffix targetEscaped "/") kept.
Proof.
  intros Hd Hno.
  assert (Forall (fun seg => PathUnescape seg <> Some "..") (Split "/"%char q)) as Hall.
  { pose proof (no_dotdot_segment _ _ Hd Hno) as Hseg.
    change ("/" ++ q) with ("" ++ String "/" q) in Hseg. rewrite Split_app in Hseg.
    by apply Forall_app in Hseg as [_ ?]. }
  unfold upstreamEscapedPath. destruct stripBase.
  - destruct (trimBase_segments q basePath) as (stripped & kept & Heq & Hs & ->).
    exists stripped, kept. split_and!; [done| |by rewrite Heq, Forall_app in Hall; destruct Hall|done].
    destruct Hs; [by left|right; done].
  - exists [], (Split "/"%char q). split_and!; [done|by left|done|].
    unfold mounted. rewrite (Join_Split "/"%char q). destruct (Split "/"%char q) eqn:Hq; [by apply Split_nonempty in Hq|done].
Qed.

(** An escaped slash stays within its segment. *)
Lemma upstream_path_gated_witness :
  exists stripped kept,
    Split "/"%char "pets/a%2Fb" = (stripped ++ kept)%list /\
    Forall (fun seg => PathUnescape seg <> Some "..") kept /\
    upstreamEscapedPath "/pets/a%2Fb" "/api/" "/pets/" true = mounted (TrimSuffix "/api/" "/") kept.
Proof.
  destruct (upstream_path_gated "pets/a%2Fb" "/pets/a/b" "/api/" "/pets/" true) as (stripped & kept & Hs & _ & Hk & Hu);
    [vm_compute; reflexivity|vm_compute; reflexivity|].
  exists stripped, kept. split; [exact Hs|]. split; [exact Hk|exact Hu].
Defined.

(** * Protected resources *)

Section Functions.
Context `{!Dmapper} `{!TargetURL}.

Implicit Types (fn : KDexFunction) (functions : list KDexFunction).

(** A function that is served, and declares the oauth2 scheme. *)
Definition protected fn : Prop := fn_Ready fn = true /\ fn_Internal fn = false /\ oauth2_lists fn <> [].

Lemma add_protected_fold issuer functions : forall out base res,
  foldl (add_protected issuer) out functions !! base = Some res ->
  out !! base = Some res \/
  exists fn, fn ∈ functions /\ protected fn /\ fn_BasePath fn = base /\
    or_BasePath res = base /\ or_Resource res = issuer ++ base /\
    or_Scopes res = keep_distinct (fun _ => true) [] (mjoin (oauth2_lists fn)).
Proof.
  induction functions as [|fn functions IH]; intros out base res Hl; [by left|].
  destruct (IH _ _ _ Hl) as [Ho|(fn' & Hin & Hrest)].
  2:{ right. exists fn'. split; [by right|done]. }
  unfold add_protected in Ho.
  destruct (negb (fn_Ready fn) || fn_Internal fn)%bool eqn:Hskip; [by left|].
  apply orb_false_iff in Hskip as [Hr%negb_false_iff Hi].
  destruct (oauth2_lists fn) as [|l lists] eqn:Hlists; [by left|].
  destruct (decide (fn_BasePath fn = base)) as [<-|Hne].
  - rewrite lookup_insert_eq in Ho. injection Ho as <-. right. exists fn.
    split_and!; [by left|split_and!; [done|done|by rewrite Hlists]|done|done|done|cbn; by rewrite Hlists].
  - rewrite lookup_insert_ne in Ho by done. by left.
Qed.

Lemma protected_resource issuer functions base res :
  oauth2ProtectedResources issuer functions !! base = Some res ->
  issuer <> "" /\ exists fn, fn ∈ functions /\ protected fn /\ fn_BasePath fn = base /\
    or_BasePath res = base /\ or_Resource res = issuer ++ base /\
    or_Scopes res = keep_distinct (fun _ => true) [] (mjoin (oauth2_lists fn)).
Proof.
  unfold oauth2ProtectedResources. destruct (String.eqb issuer "") eqn:Hi; [done|].
  intros Hl. split; [by apply String.eqb_neq|].
  destruct (add_protected_fold _ _ _ _ _ Hl) as [Hn|?]; [done|done].
Qed.

Lemma add_target_fold issuer functions : forall out key aud,
  foldl (add_target issuer) out functions !! key = Some aud ->
  out !! key = Some aud \/
  exists fn, fn ∈ functions /\ fn_Ready fn = true /\ aud = fatAudienceFor fn /\ aud <> "" /\
    (key = fn_BasePath fn \/ key = issuer ++ fn_BasePath fn).
Proof.
  induction functions as [|fn functions IH]; intros out key aud Hl; [by left|].
  destruct (IH _ _ _ Hl) as [Ho|(fn' & Hin & Hrest)].
  2:{ right. exists fn'. split; [by right|done]. }
  unfold add_target in Ho. destruct (negb (fn_Ready fn)) eqn:Hr; [by left|].
  apply negb_false_iff in Hr.
  destruct (String.eqb (fatAudienceFor fn) "") eqn:Ha; [by left|]. apply String.eqb_neq in Ha.
  destruct (decide (key = issuer ++ fn_BasePath fn)) as [->|Hne1].
  { rewrite lookup_insert_eq in Ho. injection Ho as <-. right. exists fn.
    split_and!; [by left|done|done|done|by right]. }
  rewrite lookup_insert_ne in Ho by done.
  destruct (decide (key = fn_BasePath fn)) as [->|Hne2].
  { rewrite lookup_insert_eq in Ho. injection Ho as <-. right. exists fn.
    split_and!; [by left|done|done|done|by left]. }
  rewrite lookup_insert_ne in Ho by done. by left.
Qed.

Lemma exchange_target issuer functions key aud :
  exchangeTargetAudiences issuer functions !! key = Some aud ->
  issuer <> "" /\ exists fn, fn ∈ functions /\ fn_Ready fn = true /\ aud = fatAudienceFor fn /\ aud <> "" /\
    (key = fn_BasePath fn \/ key = issuer ++ fn_BasePath fn).
Proof.
  unfold exchangeTargetAudiences. destruct (String.eqb issuer "") eqn:Hi; [done|].
  intros Hl. split; [by apply String.eqb_neq|].
  by destruct (add_target_fold _ _ _ _ _ Hl) as [Hn|?].
Qed.

Lemma protected_base issuer functions base res :
  oauth2ProtectedResources issuer functions !! base = Some res -> or_BasePath res = base.
Proof. intros Hl. destruct (protected_resource _ _ _ _ Hl) as (_ & fn & _ & _ & _ & ? & _). done. Qed.

Lemma audiences_fold (l : list (string * OAuth2Resource)) : forall out base res,
  (base, res) ∈ l \/ (out !! or_Resource res = Some true /\ out !! or_BasePath res = Some true) ->
  foldl add_audiences out l !! or_Resource res = Some true /\
  foldl add_audiences out l !! or_BasePath res = Some true.
Proof.
  induction l as [|x l IH]; intros out base res Hin.
  { destruct Hin as [Hn|?]; [by apply elem_of_nil in Hn|done]. }
  cbn [foldl]. apply (IH _ base). destruct Hin as [[<-|Hin]%elem_of_cons|[Ho1 Ho2]].
  - right. unfold add_audiences. cbn. split.
    + destruct (decide (or_BasePath res = or_Resource res)) as [->|Hne];
        [by rewrite lookup_insert_eq|by rewrite lookup_insert_ne, lookup_insert_eq].
    + by rewrite lookup_insert_eq.
  - by left.
  - right. unfold add_audiences.
    assert (forall k, out !! k = Some true ->
      (<[or_BasePath x.2 := true]> (<[or_Resource x.2 := true]> out) : gmap string bool) !! k = Some true) as Hk.
    { intros k Hk. destruct (decide (k = or_BasePath x.2)) as [->|Hn1]; [by rewrite lookup_insert_eq|].
      rewrite lookup_insert_ne by done.
      destruct (decide (k = or_Resource x.2)) as [->|Hn2]; [by rewrite lookup_insert_eq|].
      by rewrite lookup_insert_ne. }
    by split; apply Hk.
Qed.

(** A protected resource is told the same everywhere: the URL its
    challenges name is the one the middleware names, the document served there
    names the resource, this host alone as its authorization server and the
    scopes its operations declare, sorted, and a token request may name the
    resource by its path or in full. *)
Theorem resource_discovery issuer functions suffix res :
  oauth2ProtectedResources issuer functions !! ("/" ++ suffix) = Some res ->
  suffix <> "" -> HasPrefix suffix "/" = false ->
  oauth2ResourceMetadataLocked issuer functions !! ("/" ++ suffix) =
    Some (resourceMetadataURL issuer ("/" ++ suffix)) /\
  (exists md, oauthProtectedResourceHandler issuer functions suffix = Some md /\
     md_Resource md = issuer ++ "/" ++ suffix /\ md_AuthorizationServers md = [issuer] /\
     StronglySorted string_le (md_ScopesSupported md) /\
     exists fn, fn ∈ functions /\ protected fn /\ fn_BasePath fn = "/" ++ suffix /\
       forall sc, sc ∈ md_ScopesSupported md <-> exists l, l ∈ oauth2_lists fn /\ sc ∈ l) /\
  oauth2ResourceAudiences issuer functions !! (issuer ++ "/" ++ suffix) = Some true /\
  oauth2ResourceAudiences issuer functions !! ("/" ++ suffix) = Some true.
Proof.
  intros Hl Hne Hpre. destruct (protected_resource _ _ _ _ Hl) as (Hi & fn & Hin & Hp & Hb & Hob & Hor & Hos).
  split_and!.
  - unfold oauth2ResourceMetadataLocked. rewrite map_lookup_imap, Hl. done.
  - exists (mkMetadata (or_Resource res) [issuer] (sort_strings (or_Scopes res)) ["header"]).
    split_and!; [|by rewrite Hor|done| |].
    + unfold oauthProtectedResourceHandler, match_resource.
      rewrite bool_decide_eq_false_2 by (intros Hemp; by rewrite Hemp, lookup_empty in Hl).
      rewrite (proj2 (String.eqb_neq _ _) Hne).
      assert (TrimPrefix suffix "/" = suffix) as ->.
      { unfold TrimPrefix. destruct (CutPrefix suffix "/") eqn:Hc; [|done].
        apply CutPrefix_spec in Hc as ->. by rewrite HasPrefix_append in Hpre. }
      by rewrite Hl.
    + apply StronglySorted_merge_sort; apply _.
    + exists fn. split_and!; [done|done|done|]. intros sc. cbn [md_ScopesSupported].
      unfold sort_strings. rewrite merge_sort_Permutation, Hos, elem_of_keep_distinct.
      rewrite list_elem_of_join. set_solver.
  - rewrite <- Hor. eapply audiences_fold. left. by apply elem_of_map_to_list, Hl.
  - rewrite <- Hob. eapply audiences_fold. left. by apply elem_of_map_to_list, Hl.
Qed.
End Functions.
