(* ===== verification/Proxy.v ===== *)
(** The reverse proxy to a function (src/internal/host/proxy.go, with the
    JSON-RPC interception of mint_token.go and whoami.go): how a handler is
    built for a function, the gate a request passes, the tools answered in
    place, and what is sent upstream and back. *)
From S2P Require Import Prelude GoStr Store Deps Claims ApiToken Clients Roles Signer SubjectKind Dcr Url Events Mint Login SessionGrants Gate Denial Capability Binding Functions Mux.
From Stdlib Require Import Ascii.

#[local] Open Scope string_scope.

Definition signerDuration : Z := 5 * minute.
Definition fatCacheTTLSkew : Z := 30 * second.
Definition maxMintPeekBytes : Z := 2 ^ 20.
Definition tokenCacheTTL : Z := signerDuration - fatCacheTTLSkew.

(** * Requests *)

(** [http.CanonicalHeaderKey]: a name with another byte is left alone. *)
Definition token_byte (c : ascii) : bool :=
  (unreserved c || has_byte c "!#$%&'*+^`|")%bool.

Fixpoint canonical (upper : bool) (s : string) : string :=
  match s with
  | "" => ""
  | String c s =>
      let n := N_of_ascii c in
      let c' := if upper then (if ((97 <=? n) && (n <=? 122))%N%bool then ascii_of_N (n - 32) else c)
                else lower_byte c in
      String c' (canonical (Ascii.eqb c "-") s)
  end.

Definition CanonicalHeaderKey (s : string) : string := if all_bytes token_byte s then canonical true s else s.

Abbreviation headers := (gmap string (list string)).

Definition HeaderGet (h : headers) (name : string) : string :=
  default "" (head (default [] (h !! CanonicalHeaderKey name))).
Definition HeaderSet (name v : string) (h : headers) : headers := <[CanonicalHeaderKey name := [v]]> h.
Definition HeaderDel (name : string) (h : headers) : headers := delete (CanonicalHeaderKey name) h.

(** A request as the proxy reads it; the body is what the reader yields before
    it ends or fails. *)
Record proxy_request := mkProxyRequest {
  pq_Method : string;
  pq_EscapedPath : string;
  pq_RawQuery : string;
  pq_Header : headers;
  pq_Cookies : list (string * string);
  pq_Host : string;
  pq_RemoteIP : string;
  pq_TLS : bool;
  pq_Body : option string;
  pq_BodyFails : bool;
}.

Definition pq_Path (r : proxy_request) : string := unescaped (pq_EscapedPath r).
Definition pq_Query (r : proxy_request) : values := ParseQuery (pq_RawQuery r).

Definition request_cookie (r : proxy_request) (name : string) : string :=
  match list_find (fun x => x.1 = name) (pq_Cookies r) with Some (_, (_, v)) => v | None => "" end.

Definition extractAPIToken (r : proxy_request) : string :=
  let c := request_cookie r "X-API-TOKEN" in
  if negb (String.eqb c "") then c else
  let h := HeaderGet (pq_Header r) "X-API-TOKEN" in
  if negb (String.eqb h "") then h else Get (pq_Query r) "api_token".

Definition extractBearerOrAPIToken (r : proxy_request) (tokenPrefix : string) : string :=
  let tok := extractAPIToken r in
  if negb (String.eqb tok "") then tok else
  let ah := HeaderGet (pq_Header r) "Authorization" in
  if String.eqb ah "" then "" else
  match CutPrefix ah "Bearer " with
  | Some rest => if looksLikePAT rest tokenPrefix then rest else ""
  | None => ""
  end.

(** * JSON-RPC (mint_token.go, whoami.go) *)

Record jsonRPCRequest := mkRPC { jr_ID : string; jr_Method : string; jr_Name : string; jr_Arguments : string }.

Definition toolNameMintToken : string := "mint_token".
Definition toolNameWhoami : string := "whoami".

Definition json_space (c : ascii) : bool := let n := N_of_ascii c in ((n =? 32) || (n =? 9) || (n =? 13) || (n =? 10))%N%bool.

Section RPC.
Context `{!JSON jsonRPCRequest} `{!JSON MintTokenRequest} `{!JSON (gmap string string)} `{!JSON (list string)}.

Definition parseSingleJSONRPC (body : string) : option jsonRPCRequest :=
  if HasPrefix (trim_left json_space body) "{" then Unmarshal body else None.

Definition noMintRequest : MintTokenRequest := mkMintRequest [] 0 0 "" None.

(** Arguments that do not parse match with an empty request. *)
Definition isMintTokenCall (req : jsonRPCRequest) : option (string * MintTokenRequest) :=
  if (negb (String.eqb (jr_Method req) "tools/call") || negb (String.eqb (jr_Name req) toolNameMintToken))%bool
  then None
  else Some (jr_ID req, if String.eqb (jr_Arguments req) "" then noMintRequest
                        else default noMintRequest (Unmarshal (jr_Arguments req))).

Definition isWhoamiCall (req : jsonRPCRequest) : option string :=
  if (negb (String.eqb (jr_Method req) "tools/call") || negb (String.eqb (jr_Name req) toolNameWhoami))%bool
  then None else Some (jr_ID req).

Definition isToolsListCall (req : jsonRPCRequest) : bool := String.eqb (jr_Method req) "tools/list".

(** The descriptors are the host's own two tools', encoded. [None] leaves the
    body as it is. *)
Definition spliceASToolDescriptors (respBody : string) (descriptors : list string) : option string :=
  envelope ← (Unmarshal respBody : option (gmap string string));
  rawResult ← envelope !! "result";
  result ← (Unmarshal rawResult : option (gmap string string));
  rawTools ← result !! "tools";
  tools ← (Unmarshal rawTools : option (list string));
  Some (Marshal (<["result" := Marshal (<["tools" := Marshal (tools ++ descriptors)%list]> result)]> envelope)).
End RPC.

(** net/url's text for the discovery document. *)
Definition openapiDiscoveryURL (r : proxy_request) : string :=
  let host := fwdHost (HeaderGet (pq_Header r) "X-Forwarded-Host") (pq_Host r) in
  if String.eqb host "" then ""
  else fwdScheme (HeaderGet (pq_Header r) "X-Forwarded-Proto") ++ "://" ++ host ++ "/-/openapi".

(** * Building a function's handler *)

(** github.com/kdex-tech/entitlements: placeholders filled in. *)
Inductive bind_failure := ErrInvalidBoundValue | ErrUnboundPlaceholder.

Class Binder `{Entitlements} := {
  BindRequirements : ParsedRequirements -> gmap string string -> result bind_failure ParsedRequirements;
}.

(** [fmt.Sprint] of a claim set, which [utils.Hash] digests. *)
Class ClaimsText := { Sprint : claims -> string }.

Section Proxy.
Context {St} `{CacheOps St} `{Paseto} `{!Sha256} `{!KidFooter} `{!SubjectKinds} `{!Regexp} `{!JwtClaims}
  `{!Compaction} `{!ParseURL} `{!Attenuation} `{!JwtUnverified} `{!JSON transferRecord}
  `{!JSON jsonRPCRequest} `{!JSON MintTokenRequest} `{!JSON (gmap string string)} `{!JSON (list string)}
  `{!Dmapper} `{!TargetURL} `{!Entitlements} `{!Binder} `{!ClaimsText}.

Record function_handler := mkFunctionHandler {
  fh_Function : KDexFunction;
  fh_target : target;
  fh_mapper : option (claims -> result unit claims);
  fh_signer : Signer;
  fh_parsedRequirements : gmap string ParsedRequirements;
  fh_bindingSpecs : gmap string bindingSpec;
  fh_invalidBindings : gset string;
  fh_patterns : list string;
  fh_acceptsAPIKey : bool;
  fh_resource : option OAuth2Resource;
  fh_issuer : string;
  fh_asToolsEnabled : bool;
}.

Definition oauth2Protected (fh : function_handler) : bool := found (fh_resource fh).
Definition oauth2Resource (fh : function_handler) : string :=
  match fh_resource fh with Some res => or_Resource res | None => "" end.
Definition oauth2Scopes (fh : function_handler) : list string :=
  match fh_resource fh with Some res => or_Scopes res | None => [] end.

(** What the proxy reads of the host: its handler of capabilities (with the
    gate, the identities and the keys), its rules, its functions, and whether
    there is a checker. *)
Record proxy_host := mkProxyHost {
  px_hh : HostHandler St;
  px_ClaimMappings : list ClaimMapping;
  px_functions : list KDexFunction;
  px_checker : bool;
  px_scopeBuckets : bool;
}.

Implicit Types (px : proxy_host) (fh : function_handler) (fn : KDexFunction) (r : proxy_request).

Definition declares_apikey (op : Operation) : bool :=
  existsb (fun sr : gmap string (list string) => existsb isAPIKeyScheme (map_to_list sr).*1) (requirements op).

Definition route_requirements fn : gmap string ParsedRequirements :=
  list_to_map (omap (fun x : string * Operation =>
    raw ← op_Security x.2; Some (x.1, ParseRequirements raw)) (operations fn)).

Definition route_bindings fn : gmap string bindingSpec :=
  list_to_map (omap (fun x : string * Operation =>
    match parseBindingSpec (op_Extensions x.2) with Ok (Some spec) => Some (x.1, spec) | _ => None end)
    (operations fn)).

Definition malformed_bindings fn : gset string :=
  list_to_set (omap (fun x : string * Operation =>
    match parseBindingSpec (op_Extensions x.2) with Err _ => Some x.1 | Ok _ => None end) (operations fn)).

(** The mapper of the host's rules and the function's; [Err] when they do not
    compile. *)
Definition function_mapper px fn : result unit (option (claims -> result unit claims)) :=
  match (px_ClaimMappings px ++ fn_ClaimMappings fn)%list with
  | [] => Ok None
  | rules => match NewMapper rules with Some execute => Ok (Some execute) | None => Err tt end
  end.

(** [Err]: every request is answered 500 with the text. *)
Definition reverseProxyHandler px fn (issuer : string) : result string function_handler :=
  match ParseTarget (fn_URL fn) with
  | None => Err "invalid function URL"
  | Some target =>
      match function_mapper px fn with
      | Err _ => Err "invalid mapper"
      | Ok mapper =>
          match NewSigner (fatAudienceFor fn) signerDuration issuer (Some (privateKey (hh_signer (px_hh px))))
                  (kid (hh_signer (px_hh px))) mapper with
          | Err _ => Err "invalid function signer"
          | Ok signer =>
              let resource := oauth2ProtectedResources issuer (px_functions px) !! fn_BasePath fn in
              Ok (mkFunctionHandler fn target mapper signer (route_requirements fn) (route_bindings fn)
                    (malformed_bindings fn) (map_to_list (fn_Paths fn)).*1
                    (existsb (fun x => declares_apikey x.2) (operations fn)) resource issuer
                    (found resource && match hh_policy (px_hh px) with
                                       | Some cfg => MintTokenEnabled cfg
                                       | None => false
                                       end)%bool)
          end
      end
  end.

(** * Who the caller is *)

Definition expectedAuds px fh : list string :=
  (if (oauth2Protected fh && negb (String.eqb (oauth2Resource fh) ""))%bool then [oauth2Resource fh] else []) ++
  (if (fh_acceptsAPIKey fh || negb (oauth2Protected fh))%bool
   then [ho_audience (ga_host (hh_gate (px_hh px)))] else []).

(** [up i] is whether the revocation stores answer the [i]th attempt. *)
Fixpoint validate_any (tm : TokenManager St) (up : nat -> nat -> bool) (now : Z) (tok : string)
    (auds : list string) : option TokenData :=
  match auds with
  | [] => None
  | aud :: auds =>
      match ValidateToken (up 0%nat) now tm tok aud with
      | Ok data => Some data
      | Err _ => validate_any tm (fun i => up (S i)) now tok auds
      end
  end.

(** The PAT bridge; [None] leaves the request anonymous. *)
Definition bridge px fh (up : nat -> nat -> bool) (now : Z) r : option AuthContext :=
  if negb (fh_acceptsAPIKey fh || oauth2Protected fh)%bool then None else
  match hh_policy (px_hh px), ga_tokenManager (hh_gate (px_hh px)) with
  | Some _, Some tm =>
      let tok := extractBearerOrAPIToken r (tm_tokenPrefix tm) in
      if String.eqb tok "" then None else
      match validate_any tm up now tok (expectedAuds px fh) with
      | None => None
      | Some data =>
          match PATAuthContext (mi_logEnabled (ho_minter (ga_host (hh_gate (px_hh px)))))
                  (hh_exchanger (px_hh px)) data SiteProxyPAT with
          | Err _ => None
          | Ok ac => Some (<[PATBridgeClaim := VBool true]> ac)
          end
      end
  | _, _ => None
  end.

(** The context the gate and the rest of the handler read. *)
Definition caller px fh (up : nat -> nat -> bool) (now : Z) r (ctx : option AuthContext) : option AuthContext :=
  let ctx := match ctx with Some ac => Some ac | None => bridge px fh up now r end in
  (fun ac => EnrichAuthContext ac (fh_mapper fh)) <$> ctx.

(** * The gate *)

Inductive proxy_refusal :=
| ProxyError (status : Z) (text : string)
| ProxyDenied (o : Opts).

Definition bound_of r : bound_request :=
  mkBound (pq_EscapedPath r) (pq_Query r) (HeaderGet (pq_Header r)).

Definition route_key fh r : string := pq_Method r ++ " " ++ mux_pattern (fh_patterns fh) (pq_EscapedPath r).

(** The requirements of the route, filled in from the request. *)
Definition bound_requirements fh r : result Z ParsedRequirements :=
  let pattern := mux_pattern (fh_patterns fh) (pq_EscapedPath r) in
  let key := route_key fh r in
  let reqs := default (ParseRequirements []) (fh_parsedRequirements fh !! key) in
  let spec := default ∅ (fh_bindingSpecs fh !! key) in
  let pkeys := placeholderKeys spec pattern in
  let malformed := bool_decide (key ∈ fh_invalidBindings fh) in
  let binding := if malformed then ∅ else resolveBinding (bound_of r) pattern spec pkeys in
  match BindRequirements reqs binding with
  | Ok reqs => Ok reqs
  | Err ErrInvalidBoundValue => Err 400%Z
  | Err ErrUnboundPlaceholder =>
      if (negb malformed && bindFailureIsClientError spec binding pkeys)%bool then Err 400%Z else Err 500%Z
  end.

Definition denial_of px fh (ctx : option AuthContext) (held : ParsedEntitlements) : Opts :=
  let base := fn_BasePath (fh_Function fh) in
  let meta := if (oauth2Protected fh && negb (String.eqb (oauth2Resource fh) ""))%bool
              then resourceMetadataURL (fh_issuer fh) base else "" in
  mkOpts (Classify (px_checker px) ctx held "functions" base []) (fh_issuer fh) meta (oauth2Scopes fh).

(** [None]: the request passes. *)
Definition function_gate px fh r (ctx : option AuthContext) : option proxy_refusal :=
  if negb (px_checker px) then None else
  match bound_requirements fh r with
  | Err status => Some (ProxyError status (StatusText status))
  | Ok reqs =>
      let held := GetParsedEntitlements (px_scopeBuckets px) (default ∅ ctx) in
      match VerifyResourceParsedEntitlements "functions" (fn_BasePath (fh_Function fh)) held reqs [] with
      | Err _ => Some (ProxyError 500 (StatusText 500))
      | Ok true => None
      | Ok false => Some (ProxyDenied (denial_of px fh ctx held))
      end
  end.

(** * The tools answered in place *)

Inductive tool_call :=
| NoTool
| MintCall (id : string) (args : MintTokenRequest)
| WhoamiCall (id : string)
| ToolsList (discoveryURL : string).

(** A body over the cap, or one that fails to be read, is forwarded
    uninspected. *)
Definition peek_tool fh r : tool_call :=
  match pq_Body r with
  | Some body =>
      if negb (fh_asToolsEnabled fh && String.eqb (pq_Method r) "POST")%bool then NoTool
      else if (pq_BodyFails r || (maxMintPeekBytes <? Z.of_nat (String.length body))%Z)%bool then NoTool
      else match parseSingleJSONRPC body with
           | None => NoTool
           | Some req =>
               match isMintTokenCall req with
               | Some (id, args) => MintCall id args
               | None =>
                   match isWhoamiCall req with
                   | Some id => WhoamiCall id
                   | None => if isToolsListCall req then ToolsList (openapiDiscoveryURL r) else NoTool
                   end
               end
           end
  | None => NoTool
  end.

(** * What is sent upstream *)

Record upstream_request := mkUpstream {
  ur_Host : string;
  ur_EscapedPath : string;
  ur_RawQuery : string;
  ur_Header : headers;
  ur_Body : option string;
}.

Definition sensitive_header (key : string) : bool :=
  let c := CanonicalHeaderKey key in
  (contains_elem ["Authorization"; "Cookie"; "Set-Cookie"; "Forwarded"] c || HasPrefix c "X-Forwarded-")%bool.

(** The snapshot of the request a claim mapping may read. *)
Definition snapshot r (ac : AuthContext) : AuthContext :=
  let cookies : gmap string value := list_to_map (reverse ((fun x => (x.1, VStr x.2)) <$> pq_Cookies r)) in
  let ac := if bool_decide (cookies = ∅) then ac else <["cookies" := VObj (map_to_list cookies)]> ac in
  let kept : headers := filter (fun x => sensitive_header x.1 = false) (pq_Header r) in
  if bool_decide (kept = ∅) then ac
  else <["headers" := VObj ((fun x => (x.1, VStrs x.2)) <$> map_to_list kept)]> ac.

Definition tokenKey fn (projected : claims) : string := fn_Name fn ++ "-" ++ sha256hex (Sprint projected).

(** The function's token for the caller; [None]: it could not be made. [up] is
    whether the read and the write of the cache answer. *)
Definition function_token fh (up : nat -> bool) (now : Z) (jti : string) (ac : AuthContext) (cache : St)
    : option string * St :=
  match Project (fh_signer fh) ac with
  | Err _ => (None, cache)
  | Ok projected =>
      let key := tokenKey (fh_Function fh) projected in
      let '(hit, cache) := if up 0%nat then cGet now key cache else (None, cache) in
      match hit with
      | Some token => (Some token, cache)
      | None =>
          match SignProjected (fh_signer fh) now jti projected with
          | Err _ => (None, cache)
          | Ok token => (Some token, if up 1%nat then cSet now key token [] cache else cache)
          end
      end
  end.

(** [http.Cookie.String] of a name and a value the request carried. *)
Definition cookie_text (name v : string) : string :=
  name ++ "=" ++ (if ContainsAny v " ," then quote ++ v ++ quote else v).

(** [SetXForwarded]. *)
Definition SetXForwarded r (h : headers) : headers :=
  let prior := default [] (h !! "X-Forwarded-For") in
  let ip := match prior with [] => pq_RemoteIP r | _ => Join prior ", " ++ ", " ++ pq_RemoteIP r end in
  HeaderSet "X-Forwarded-Proto" (if pq_TLS r then "https" else "http") $
  HeaderSet "X-Forwarded-Host" (pq_Host r) $ HeaderSet "X-Forwarded-For" ip h.

(** [Rewrite]. [out] is what [httputil] has copied of the headers: the
    inbound ones, less the hop-by-hop and the forwarding ones. *)
Definition Rewrite fh (up : nat -> bool) (now : Z) (jti : string) r (ctx : option AuthContext) (out : headers)
    (cache : St) : upstream_request * St :=
  let path := upstreamEscapedPath (pq_EscapedPath r) (tg_EscapedPath (fh_target fh))
                (fn_BasePath (fh_Function fh)) (fn_Backend (fh_Function fh)) in
  let '(out, cache) :=
    match ctx with
    | None => (HeaderDel "Authorization" out, cache)
    | Some ac =>
        let '(token, cache) := function_token fh up now jti (snapshot r ac) cache in
        (match token with Some t => HeaderSet "Authorization" ("Bearer " ++ t) out | None => out end, cache)
    end in
  let apiToken := request_cookie r "X-API-TOKEN" in
  let out := if String.eqb apiToken "" then HeaderDel "Cookie" out
             else HeaderSet "Cookie" (cookie_text "X-API-TOKEN" apiToken) out in
  (mkUpstream (tg_Host (fh_target fh)) path (pq_RawQuery r)
     (SetXForwarded r (HeaderSet "X-Kdex-Forwarded" "true" out)) (pq_Body r), cache).

(** * The handler *)

Inductive proxy_answer :=
| ProxyRefused (e : proxy_refusal)
| MintAnswered (id : string) (res : tool_result)
| WhoamiAnswered (id : string) (res : result string WhoamiResult)
| Forwarded (req : upstream_request) (toolsList : option string).

(** What a request meets outside: the revocation stores, the token cache, the
    signer's jti, a mint's environment, and its credential's revocation. *)
Record proxy_env := mkProxyEnv {
  pe_validate : nat -> nat -> bool;
  pe_cache : nat -> bool;
  pe_jti : string;
  pe_mint : mint_env;
  pe_revoked : nat -> bool;
}.

(** [caps] is the capability cache, [cache] the function tokens'. *)
Definition Handler px fh (env : proxy_env) (now : Z) r (ctx : option AuthContext) (out : headers)
    (caps : option St) (cache : St) : proxy_answer * option St * St :=
  if hasDotDotSegment (pq_Path r) then (ProxyRefused (ProxyError 400 (StatusText 400)), caps, cache) else
  let ctx := caller px fh (pe_validate env) now r ctx in
  match function_gate px fh r ctx with
  | Some e => (ProxyRefused e, caps, cache)
  | None =>
      let ac := default ∅ ctx in
      match peek_tool fh r with
      | MintCall id args =>
          let baseURL := transferBaseURL (HeaderGet (pq_Header r) "X-Forwarded-Host") (pq_Host r)
                           (HeaderGet (pq_Header r) "X-Forwarded-Proto") in
          let '(res, caps) := writeMintTokenRPC (px_hh px) (pe_mint env) (pe_revoked env) now ctx
            (str_claim ac "sub") (ContextSubjectKind (hh_exchanger (px_hh px)) ac)
            (stringSliceFromClaim (ac !! "entitlements")) args baseURL caps in
          (MintAnswered id res, caps, cache)
      | WhoamiCall id =>
          (WhoamiAnswered id (whoami (mi_logEnabled (ho_minter (ga_host (hh_gate (px_hh px)))))
             (Some (hh_exchanger (px_hh px))) ac), caps, cache)
      | tool =>
          let '(req, cache) := Rewrite fh (pe_cache env) now (pe_jti env) r ctx out cache in
          (Forwarded req (match tool with ToolsList u => Some u | _ => None end), caps, cache)
      end
  end.

(** * What comes back *)

Definition cookie_domain (part : string) : bool := HasPrefix (ToLower (TrimSpace part)) "domain=".

Definition stripCookieDomain (cookieStr : string) : string :=
  Join (filter (fun part => cookie_domain part = false) (Split ";"%char cookieStr)) ";".

Record upstream_response := mkResponse {
  us_Status : Z;
  us_Header : headers;
  us_Body : string;
  us_BodyFails : bool;
}.

(** [descriptors] encodes the host's tools for a discovery URL. *)
Definition spliced (descriptors : string -> list string) (toolsList : option string) (resp : upstream_response)
    : upstream_response :=
  match toolsList with
  | None => resp
  | Some url =>
      if (negb (HasPrefix (HeaderGet (us_Header resp) "Content-Type") "application/json") || us_BodyFails resp)%bool
      then resp
      else let raw := default (us_Body resp) (spliceASToolDescriptors (us_Body resp) (descriptors url)) in
           mkResponse (us_Status resp)
             (HeaderSet "Content-Length" (FormatInt (Z.of_nat (String.length raw))) (us_Header resp)) raw false
  end.

Definition strip_cookies (h : headers) : headers :=
  match h !! "Set-Cookie" with Some l => <["Set-Cookie" := stripCookieDomain <$> l]> h | None => h end.

(** [up]: whether the store of the generation answers. *)
Definition ModifyResponse fh (descriptors : string -> list string) (toolsList : option string) (method : string)
    (up : bool) (now : Z) (resp : upstream_response) (grants : GrantStore St) : upstream_response * GrantStore St :=
  let resp := spliced descriptors toolsList resp in
  let resp := mkResponse (us_Status resp) (strip_cookies (us_Header resp)) (us_Body resp) (us_BodyFails resp) in
  (resp, if shouldInvalidateGrants (fh_Function fh) method (us_Status resp)
         then BumpGrantGeneration up now grants else grants).

(** The status of a failed round trip. *)
Definition ErrorHandler (deadlineExceeded : bool) : Z := if deadlineExceeded then 504 else 502.
End Proxy.
