(* ===== verification/ProxySpec.v ===== *)
(** What reaches a function passed its gate under the identity presented, and
    carries the function's own token for that identity and nothing of the
    session. *)
From S2P Require Import Prelude GoStr Store Deps Claims ApiToken Clients Roles Signer SubjectKind Dcr Url Events Mint Login SessionGrants Gate Denial Capability Binding Functions Mux FunctionsSpec Proxy.
From S2P Require Import ApiTokenSpec SignerSpec IdentitySpec DcrSpec MintSpec RefreshSpec LoginSpec GrantsSpec GateSpec CapabilitySpec.
From Stdlib Require Import Ascii.

#[local] Open Scope string_scope.

Lemma all_bytes_no_byte p c s : all_bytes p s = true -> p c = false -> has_byte c s = false.
Proof.
  intros Hs Hc. induction s as [|d s IH]; [done|]. cbn [all_bytes] in Hs.
  apply andb_true_iff in Hs as [Hd Hs]. cbn [has_byte]. rewrite (IH Hs), orb_false_r.
  apply Ascii.eqb_neq. intros <-. congruence.
Qed.

(** A separator the heads do not hold splits uniquely. *)
Lemma first_sep_inj c a b a' b' : has_byte c a = false -> has_byte c a' = false ->
  a ++ String c b = a' ++ String c b' -> a = a' /\ b = b'.
Proof.
  intros Ha Ha' Heq. pose proof (Cut_append c a b Ha) as Hc. rewrite Heq, (Cut_append c a' b' Ha') in Hc.
  by injection Hc as -> ->.
Qed.

Lemma list_to_map_lookup {A} (l : list (string * A)) k x :
  (k, x) ∈ l -> (forall y, (k, y) ∈ l -> y = x) -> (list_to_map l : gmap string A) !! k = Some x.
Proof. intros Hin Hu. apply elem_of_list_to_map_1'; [|done]. intros y Hy. symmetry. by apply Hu. Qed.

Section Proxy.
Context {St} `{CacheSafe St} `{Paseto} `{!Sha256} `{!KidFooter} `{!SubjectKinds} `{!Regexp} `{!JwtClaims}
  `{!Compaction} `{!ParseURL} `{!Attenuation} `{!JwtUnverified} `{!JSON transferRecord}
  `{!JSON jsonRPCRequest} `{!JSON MintTokenRequest} `{!JSON (gmap string string)} `{!JSON (list string)}
  `{!Dmapper} `{!TargetURL} `{!Entitlements} `{!Binder} `{!ClaimsText}.

Implicit Types (px : proxy_host (St := St)) (fh : function_handler) (fn : KDexFunction) (req : proxy_request).

(** * The handler built for a function *)

Lemma operations_spec fn key op :
  (key, op) ∈ operations fn <->
  exists p item meth, fn_Paths fn !! p = Some item /\ meth ∈ methods /\ item !! meth = Some op /\
    key = meth ++ " " ++ p.
Proof.
  unfold operations. rewrite list_elem_of_join. split.
  - intros (l & Hin & (x & -> & Hx)%list_elem_of_fmap). apply list_elem_of_omap in Hin as (meth & Hm & Ho).
    destruct (x.2 !! meth) as [op'|] eqn:Hop; [|done]. injection Ho as <- <-.
    exists x.1, x.2, meth. split_and!; [|done|done|done]. apply elem_of_map_to_list. by destruct x.
  - intros (p & item & meth & Hp & Hm & Hop & ->). eexists. split; [|apply list_elem_of_fmap_2, elem_of_map_to_list, Hp].
    apply list_elem_of_omap. exists meth. split; [done|]. cbn. by rewrite Hop.
Qed.

Lemma method_no_space meth : meth ∈ methods -> has_byte " " meth = false.
Proof.
  intros Hm. assert (forallb (fun m => negb (has_byte " " m)) methods = true) as Hall by done.
  rewrite forallb_forall in Hall. apply list_elem_of_In in Hm. by apply Hall, negb_true_iff in Hm.
Qed.

(** A route's key names one operation. *)
Lemma operations_key fn key op op' : (key, op) ∈ operations fn -> (key, op') ∈ operations fn -> op = op'.
Proof.
  rewrite !operations_spec. intros (p & item & meth & Hp & Hm & Hop & ->) (p' & item' & meth' & Hp' & Hm' & Hop' & Heq).
  change (meth ++ String " " p = meth' ++ String " " p') in Heq.
  apply first_sep_inj in Heq as [<- <-]; [|by apply method_no_space..]. congruence.
Qed.

Lemma route_requirements_declared fn key op raw :
  (key, op) ∈ operations fn -> op_Security op = Some raw ->
  route_requirements fn !! key = Some (ParseRequirements raw).
Proof.
  intros Hin Hraw. apply list_to_map_lookup.
  - apply list_elem_of_omap. exists (key, op). split; [done|]. cbn. by rewrite Hraw.
  - intros y Hy. apply list_elem_of_omap in Hy as ([key' op'] & Hin' & Hy). cbn in Hy.
    destruct (op_Security op') as [raw'|] eqn:Hraw'; [|done]. injection Hy as -> <-.
    rewrite (operations_key _ _ _ _ Hin Hin') in Hraw. congruence.
Qed.

Lemma route_bindings_declared fn key op spec :
  (key, op) ∈ operations fn -> parseBindingSpec (op_Extensions op) = Ok (Some spec) ->
  route_bindings fn !! key = Some spec.
Proof.
  intros Hin Hraw. apply list_to_map_lookup.
  - apply list_elem_of_omap. exists (key, op). split; [done|]. cbn. by rewrite Hraw.
  - intros y Hy. apply list_elem_of_omap in Hy as ([key' op'] & Hin' & Hy). cbn in Hy.
    destruct (parseBindingSpec (op_Extensions op')) as [[spec'|]|] eqn:Hraw'; [|done..]. injection Hy as -> <-.
    rewrite (operations_key _ _ _ _ Hin Hin') in Hraw. congruence.
Qed.

Lemma handler_parts px fn issuer fh :
  reverseProxyHandler px fn issuer = Ok fh ->
  fh_Function fh = fn /\ fh_issuer fh = issuer /\
  fh_parsedRequirements fh = route_requirements fn /\ fh_bindingSpecs fh = route_bindings fn /\
  fh_invalidBindings fh = malformed_bindings fn /\
  fh_resource fh = oauth2ProtectedResources issuer (px_functions px) !! fn_BasePath fn /\
  audience (fh_signer fh) = fatAudienceFor fn /\ duration (fh_signer fh) = signerDuration /\
  Signer.issuer (fh_signer fh) = issuer /\ fatAudienceFor fn <> "" /\ issuer <> "".
Proof.
  unfold reverseProxyHandler, NewSigner. intros Hh.
  destruct (ParseTarget (fn_URL fn)); [|done]. destruct (function_mapper px fn); [|done].
  destruct (String.eqb (fatAudienceFor fn) "") eqn:Ha; [done|]. cbn in Hh.
  destruct (String.eqb issuer "") eqn:Hi; [done|]. destruct (String.eqb (kid _) ""); [done|].
  injection Hh as <-. cbn. apply String.eqb_neq in Ha, Hi. by split_and!.
Qed.

(** * Identities *)

Lemma validate_any_some tm now tok auds : forall up data,
  validate_any (St := St) tm up now tok auds = Some data ->
  exists i aud, aud ∈ auds /\ ValidateToken (up i) now tm tok aud = Ok data.
Proof.
  induction auds as [|aud auds IH]; intros up data Hv; [done|]. cbn [validate_any] in Hv.
  destruct (ValidateToken (up 0%nat) now tm tok aud) as [d|] eqn:Ht.
  - injection Hv as ->. exists 0%nat, aud. split; [by left|done].
  - destruct (IH _ _ Hv) as (i & aud' & Hin & Hd). exists (S i), aud'. split; [by right|done].
Qed.

(** The identity of a request without one: a PAT it carries, for the host or
    for the function's own resource. *)
Definition bridged px fh (up : nat -> nat -> bool) (now : Z) req (ac : AuthContext) : Prop :=
  exists tm i aud data base,
    ga_tokenManager (hh_gate (px_hh px)) = Some tm /\
    (aud = ho_audience (ga_host (hh_gate (px_hh px))) /\ fh_acceptsAPIKey fh = true \/
     exists res, fh_resource fh = Some res /\ aud = or_Resource res /\ aud <> "") /\
    ValidateToken (up i) now tm (extractBearerOrAPIToken req (tm_tokenPrefix tm)) aud = Ok data /\
    PATAuthContext (mi_logEnabled (ho_minter (ga_host (hh_gate (px_hh px)))))
      (hh_exchanger (px_hh px)) data SiteProxyPAT = Ok base /\
    ac = <[PATBridgeClaim := VBool true]> base.

Lemma bridge_authentic px fh up now req ac :
  bridge px fh up now req = Some ac -> bridged px fh up now req ac.
Proof.
  unfold bridge. destruct (negb (fh_acceptsAPIKey fh || oauth2Protected fh))%bool eqn:Hopt; [done|].
  apply negb_false_iff in Hopt.
  destruct (hh_policy (px_hh px)); [|done]. destruct (ga_tokenManager _) as [tm|] eqn:Htm; [|done].
  destruct (String.eqb _ ""); [done|].
  destruct (validate_any tm up now _ (expectedAuds px fh)) as [data|] eqn:Hv; [|done].
  destruct (PATAuthContext _ _ _ _) as [base|] eqn:Hp; [|done]. intros [= <-].
  destruct (validate_any_some _ _ _ _ _ _ Hv) as (i & aud & Hin & Hd).
  exists tm, i, aud, data, base. split_and!; try done.
  unfold expectedAuds, oauth2Protected, oauth2Resource in Hin, Hopt.
  destruct (fh_resource fh) as [res|] eqn:Hres; cbn [found] in Hin, Hopt;
    apply elem_of_app in Hin as [Hin|Hin].
  - right. exists res. destruct (String.eqb (or_Resource res) "") eqn:He; cbn in Hin; [by apply elem_of_nil in Hin|].
    apply list_elem_of_singleton in Hin as ->. split_and!; [done|done|by apply String.eqb_neq].
  - left. destruct (fh_acceptsAPIKey fh); cbn in Hin; [|by apply elem_of_nil in Hin].
    by apply list_elem_of_singleton in Hin as ->.
  - cbn in Hin. by apply elem_of_nil in Hin.
  - rewrite orb_false_r in Hopt. rewrite Hopt in Hin. cbn in Hin.
    apply list_elem_of_singleton in Hin as ->. by left.
Qed.

Lemma caller_authentic px fh up now req ctx ac :
  caller px fh up now req ctx = Some ac ->
  exists base, ac = EnrichAuthContext base (fh_mapper fh) /\
    (ctx = Some base \/ ctx = None /\ bridged px fh up now req base).
Proof.
  unfold caller. destruct ctx as [base|].
  - intros [= <-]. exists base. split; [done|by left].
  - destruct (bridge px fh up now req) as [base|] eqn:Hb; [|done]. intros [= <-].
    exists base. split; [done|]. right. split; [done|by apply bridge_authentic].
Qed.

(** * The gate *)

(** The requirements a gated route's operation declares, bound from the
    request. *)
Definition route_verified px fh req (held : ParsedEntitlements) : Prop :=
  let pattern := mux_pattern (fh_patterns fh) (pq_EscapedPath req) in
  let key := route_key fh req in
  exists binding reqs,
    BindRequirements (default (ParseRequirements []) (fh_parsedRequirements fh !! key)) binding = Ok reqs /\
    (key ∉ fh_invalidBindings fh -> forall k v, binding !! k = Some v ->
       resolveKey (bound_of req) pattern (default ∅ (fh_bindingSpecs fh !! key)) k = Some v) /\
    (key ∈ fh_invalidBindings fh -> binding = ∅) /\
    VerifyResourceParsedEntitlements "functions" (fn_BasePath (fh_Function fh)) held reqs [] = Ok true.

Lemma bind_fold (r : bound_request) pattern spec keys : forall (b : gmap string string) k v,
  (forall k v, b !! k = Some v -> resolveKey r pattern spec k = Some v) ->
  foldl (bind_key r pattern spec) b keys !! k = Some v -> resolveKey r pattern spec k = Some v.
Proof.
  induction keys as [|key keys IH]; intros b k v Hb; [by apply Hb|]. cbn [foldl]. apply IH.
  intros k' v'. unfold bind_key. destruct (resolveKey r pattern spec key) as [w|] eqn:Hw; [|by apply Hb].
  rewrite lookup_insert_Some. intros [[<- <-]|[_ Hk]]; [done|by apply Hb].
Qed.

Lemma function_gate_passed px fh req ctx :
  function_gate px fh req ctx = None ->
  px_checker px = false \/
  route_verified px fh req (GetParsedEntitlements (px_scopeBuckets px) (default ∅ ctx)).
Proof.
  unfold function_gate. destruct (px_checker px); [|by left]. cbn [negb].
  destruct (bound_requirements fh req) as [reqs|] eqn:Hb; [|done].
  destruct (VerifyResourceParsedEntitlements _ _ _ _ _) as [[]|] eqn:Hv; try done. intros _. right.
  unfold bound_requirements in Hb. cbn zeta in Hb. eexists _, reqs. split_and!; [..|exact Hv].
  - destruct (BindRequirements _ _) as [reqs'|[]] eqn:Hbind; [|done|by destruct (negb _ && _)%bool].
    injection Hb as ->. exact Hbind.
  - intros Hni k v. rewrite bool_decide_eq_false_2 by done. unfold resolveBinding. apply bind_fold.
    intros k' v'. by rewrite lookup_empty.
  - intros Hi. by rewrite bool_decide_eq_true_2.
Qed.

Lemma Handler_passed px fh env now req ctx out caps cache a caps' cache' :
  Handler px fh env now req ctx out caps cache = (a, caps', cache') ->
  (forall e, a <> ProxyRefused e) ->
  hasDotDotSegment (pq_Path req) = false /\
  function_gate px fh req (caller px fh (pe_validate env) now req ctx) = None.
Proof.
  unfold Handler. intros Hh Ha. destruct (hasDotDotSegment (pq_Path req)).
  { injection Hh as <- <- <-. by destruct (Ha _ eq_refl). }
  split; [done|]. destruct (function_gate _ _ _ _) as [e|]; [|done].
  injection Hh as <- <- <-. by destruct (Ha _ eq_refl).
Qed.

(** C9: Whatever is not refused, be it forwarded or answered in place, passed
    the function's gate: no segment of its path is "..", the entitlements of
    the request's identity satisfy the requirements of the operation its path
    and method name, with every placeholder filled from the source the
    operation declares; and that identity is the one the middleware
    established, or, only for a request without one, that of a valid token for
    the host or for this function's resource. *)
Theorem proxied_passed_gate px fh env now req ctx out caps cache a caps' cache' :
  Handler px fh env now req ctx out caps cache = (a, caps', cache') ->
  (forall e, a <> ProxyRefused e) -> px_checker px = true ->
  hasDotDotSegment (pq_Path req) = false /\
  exists ac,
    route_verified px fh req (GetParsedEntitlements (px_scopeBuckets px) ac) /\
    (ac = ∅ /\ ctx = None \/
     exists base, ac = EnrichAuthContext base (fh_mapper fh) /\
       (ctx = Some base \/ ctx = None /\ bridged px fh (pe_validate env) now req base)) /\
    forall op raw fn issuer, reverseProxyHandler px fn issuer = Ok fh ->
      (route_key fh req, op) ∈ operations fn -> op_Security op = Some raw ->
      fh_parsedRequirements fh !! route_key fh req = Some (ParseRequirements raw) /\
      forall spec, parseBindingSpec (op_Extensions op) = Ok (Some spec) ->
        fh_bindingSpecs fh !! route_key fh req = Some spec.
Proof.
  intros Hh Ha Hc. destruct (Handler_passed _ _ _ _ _ _ _ _ _ _ _ _ Hh Ha) as [Hd Hg]. split; [done|].
  destruct (function_gate_passed _ _ _ _ Hg) as [Hf|Hv]; [congruence|].
  eexists. split; [exact Hv|]. split.
  - destruct (caller _ _ _ _ _ _) as [ac|] eqn:Hcall; cbn [default].
    + right. by apply caller_authentic in Hcall.
    + left. split; [done|]. unfold caller in Hcall. by destruct ctx.
  - intros op raw fn issuer Hfh Hop Hraw.
    destruct (handler_parts _ _ _ _ Hfh) as (_ & _ & -> & -> & _).
    split; [by apply (route_requirements_declared _ _ op)|].
    intros spec Hspec. by apply (route_bindings_declared _ _ op).
Qed.

(** * The function's token *)

(** What the cache of function tokens holds: each entry was signed by the
    function its key names, for claims of the digest its key carries, and dies
    before the token does. *)
Definition honest_tokens (family : function_handler -> Prop) (cache : St) : Prop :=
  forall key tok e, cabs cache !! key = Some (tok, e) ->
  exists fh projected t0 jti, family fh /\ key = tokenKey (fh_Function fh) projected /\
    SignProjected (fh_signer fh) t0 jti projected = Ok tok /\ (e <= t0 + tokenCacheTTL)%Z.

(** The cache's own lifetime, which reading it does not change. *)
Definition token_cache (cache : St) : Prop :=
  cTTL cache = tokenCacheTTL /\ forall now k, cTTL (cGet now k cache).2 = tokenCacheTTL.

(** Signed for the identity [ac]: for claims of the digest of its own
    projection, by a function of this name, at most four and a half minutes
    ago. *)
Definition token_for (family : function_handler -> Prop) fh (ac : AuthContext) (now : Z) (tok : string) : Prop :=
  exists own fh' projected t0 jti,
    Project (fh_signer fh) ac = Ok own /\ family fh' /\
    fn_Name (fh_Function fh') = fn_Name (fh_Function fh) /\
    sha256hex (Sprint projected) = sha256hex (Sprint own) /\
    SignProjected (fh_signer fh') t0 jti projected = Ok tok /\ (now <= t0 + tokenCacheTTL)%Z.

Lemma tokenKey_inj fn fn' p p' : tokenKey fn p = tokenKey fn' p' ->
  fn_Name fn = fn_Name fn' /\ sha256hex (Sprint p) = sha256hex (Sprint p').
Proof.
  unfold tokenKey. intros Heq. apply (append_sep_inj "-") in Heq; [done|..];
    (eapply all_bytes_no_byte; [apply sha256hex_is_hex|done]).
Qed.

Lemma function_token_spec family fh up now jti ac cache tok cache' :
  family fh -> honest_tokens family cache -> token_cache cache ->
  function_token fh up now jti ac cache = (tok, cache') ->
  honest_tokens family cache' /\ (forall t, tok = Some t -> token_for family fh ac now t).
Proof.
  intros Hf Hh [Httl Hget]. unfold function_token.
  destruct (Project (fh_signer fh) ac) as [own|] eqn:Hown; [|by intros [= <- <-]].
  cbn zeta. set (key := tokenKey (fh_Function fh) own).
  assert (exists hit cache1, (if up 0%nat then cGet now key cache else (None, cache)) = (hit, cache1) /\
    cabs cache1 = cabs cache /\ cTTL cache1 = tokenCacheTTL /\
    (forall t, hit = Some t -> st_get now key (cabs cache) = Some t)) as (hit & cache1 & -> & Habs & Httl1 & Hhit).
  { destruct (up 0%nat).
    - exists (cGet now key cache).1, (cGet now key cache).2. split_and!; [by destruct (cGet now key cache)|apply cGet_abs|apply Hget|].
      intros t. by rewrite cGet_val.
    - by exists None, cache. }
  destruct hit as [t|].
  - intros [= <- <-]. split; [by intros k t' e; rewrite Habs; apply Hh|].
    intros t' [= <-]. specialize (Hhit _ eq_refl). unfold st_get in Hhit.
    destruct (cabs cache !! key) as [[t' e]|] eqn:Hl; simpl in Hhit; [|done]. destruct (after now e) eqn:He; [done|].
    injection Hhit as ->. apply after_false in He.
    destruct (Hh _ _ _ Hl) as (fh' & projected & t0 & j & Hf' & Hk & Hs & Hle).
    apply tokenKey_inj in Hk as [Hn Hd]. exists own, fh', projected, t0, j.
    split_and!; try done; lia.
  - destruct (SignProjected (fh_signer fh) now jti own) as [t|?] eqn:Hs; [|intros [= <- <-]].
    2:{ split; [by intros k t1 e1; rewrite Habs; apply Hh|done]. }
    intros [= <- <-]. split.
    + destruct (up 1%nat); [|by intros k t' e; rewrite Habs; apply Hh].
      intros k t' e Hl. destruct (decide (k = key)) as [->|Hne].
      * rewrite cSet_at in Hl. injection Hl as <- <-. exists fh, own, now, jti. split_and!; try done.
        rewrite Httl1. done.
      * apply cSet_other in Hl; [|done]. rewrite Habs in Hl. by apply Hh.
    + intros t' [= <-]. exists own, fh, own, now, jti. split_and!; try done.
      unfold tokenCacheTTL, signerDuration, fatCacheTTLSkew, minute, second. lia.
Qed.

Lemma lookup_HeaderSet name v (h : headers) k :
  HeaderSet name v h !! k = if decide (k = CanonicalHeaderKey name) then Some [v] else h !! k.
Proof.
  unfold HeaderSet. destruct (decide (k = _)) as [->|Hne]; [by rewrite lookup_insert_eq|by rewrite lookup_insert_ne].
Qed.

Lemma lookup_HeaderDel name (h : headers) k :
  HeaderDel name h !! k = if decide (k = CanonicalHeaderKey name) then None else h !! k.
Proof.
  unfold HeaderDel. destruct (decide (k = _)) as [->|Hne]; [by rewrite lookup_delete_eq|by rewrite lookup_delete_ne].
Qed.

Lemma lookup_SetXForwarded req h k :
  HasPrefix k "X-Forwarded-" = false -> SetXForwarded req h !! k = h !! k.
Proof.
  intros Hk. unfold SetXForwarded. rewrite !lookup_HeaderSet.
  repeat (case_decide as Hd; [subst k; vm_compute in Hk; discriminate|clear Hd]). reflexivity.
Qed.

(** The snapshot adds two claims, neither of which reads a credential. *)
Lemma snapshot_claims req ac k : k <> "cookies" -> k <> "headers" -> snapshot req ac !! k = ac !! k.
Proof.
  intros Hc Hh. unfold snapshot. cbn zeta.
  repeat case_bool_decide; rewrite ?lookup_insert_ne by done; done.
Qed.


(** A token exchanged for a function has the audience of the token its
    proxy sends it: whatever name the exchange accepts for it, the path or the
    full URI, it is the audience its handler's signer was built with. *)
Theorem exchange_audience_agrees px issuer key aud :
  exchangeTargetAudiences issuer (px_functions px) !! key = Some aud ->
  aud <> "" /\ exists fn, fn ∈ px_functions px /\ fn_Ready fn = true /\
    (key = fn_BasePath fn \/ key = issuer ++ fn_BasePath fn) /\
    forall fh, reverseProxyHandler px fn issuer = Ok fh -> audience (fh_signer fh) = aud.
Proof.
  intros Hk. destruct (exchange_target _ _ _ _ Hk) as (_ & fn & Hin & Hr & -> & Hne & Hkey).
  split; [done|]. exists fn. split_and!; try done. intros fh Hfh.
  by destruct (handler_parts _ _ _ _ Hfh) as (_ & _ & _ & _ & _ & _ & ? & _).
Qed.

(** The host's tools join a function's own: in a tools/list answer that is
    an object with a list of tools, the tools the function lists come first
    and unchanged, the host's follow, and every other member of the answer and
    of its result is kept. *)
Theorem splice_keeps_tools body descriptors envelope rawResult result rawTools tools :
  Unmarshal body = Some envelope -> envelope !! "result" = Some rawResult ->
  Unmarshal rawResult = Some result -> result !! "tools" = Some rawTools ->
  Unmarshal rawTools = Some tools ->
  (forall m : gmap string string, clean m) -> (forall l : list string, clean l) ->
  exists body' envelope' rawResult' result' rawTools',
    spliceASToolDescriptors body descriptors = Some body' /\
    Unmarshal body' = Some envelope' /\ envelope' !! "result" = Some rawResult' /\
    Unmarshal rawResult' = Some result' /\ result' !! "tools" = Some rawTools' /\
    Unmarshal rawTools' = Some (tools ++ descriptors)%list /\
    (forall k, k <> "result" -> envelope' !! k = envelope !! k) /\
    (forall k, k <> "tools" -> result' !! k = result !! k).
Proof.
  intros He Hr Hres Ht Htools Hc1 Hc2. unfold spliceASToolDescriptors.
  rewrite He. cbn [mbind option_bind]. rewrite Hr. cbn [mbind option_bind]. rewrite Hres. cbn [mbind option_bind].
  rewrite Ht. cbn [mbind option_bind]. rewrite Htools. cbn [mbind option_bind].
  do 5 eexists. split_and!; [done|by apply Unmarshal_Marshal|by rewrite lookup_insert_eq|by apply Unmarshal_Marshal|
    by rewrite lookup_insert_eq|by apply Unmarshal_Marshal|..]; intros k Hk; by rewrite lookup_insert_ne.
Qed.
End Proxy.

(** * Witnesses *)

#[local] Existing Instance kindsExample.
#[local] Existing Instance jwtExample.
#[local] Existing Instance compactExample.
#[local] Existing Instance noRegexp.
#[local] Existing Instance parseExample.
#[local] Existing Instance sha256Example.
#[local] Existing Instance kidFooterExample.
#[local] Existing Instance timeExample.
#[local] Existing Instance pasetoExample.
#[local] Existing Instance transferJSON.
#[local] Existing Instance listAttenuation.
#[local] Existing Instance readJTI.
#[local] Instance mapJSON : JSON (gmap string string) := jsonExample _.
#[local] Instance listJSON : JSON (list string) := jsonExample _.
#[local] Instance rpcJSON : JSON jsonRPCRequest.
Proof. refine {| Marshal _ := ""; Unmarshal _ := None; clean _ := False |}. by intros ? []. Defined.
#[local] Instance mintJSON : JSON MintTokenRequest.
Proof. refine {| Marshal _ := ""; Unmarshal _ := None; clean _ := False |}. by intros ? []. Defined.

(** A rule is a claim to copy from the caller's headers; one that is missing is
    an error. *)
#[local] Instance headerRules : Dmapper := {|
  ClaimMapping := string;
  NewMapper rules := Some (fun cs =>
    match cs !! "headers" with
    | Some (VObj h) => if forallb (fun k => contains_elem h.*1 k) rules then Ok ∅ else Err tt
    | _ => Err tt
    end);
|}.

#[local] Instance anyURL : TargetURL := {| ParseTarget s := Some (mkTarget "http" (TrimPrefix s "http://") "" s) |}.

(** A requirement is the list of entitlements of its bearer scheme; a
    placeholder is a whole segment. *)
#[local] Instance gateEntitlements : Entitlements := {|
  ParsedEntitlements := list string;
  ParsedRequirements := list string;
  ParseEntitlements u := default [] (u !! "bearer");
  ParseRequirements l := mjoin ((fun req : gmap string (list string) => default [] (req !! "bearer")) <$> l);
  VerifyParsedEntitlements ents reqs := forallb (contains_elem ents) reqs;
  VerifyResource resource name ents reqs _ :=
    Ok (contains_elem ents (resource ++ ":" ++ name ++ ":read") && forallb (contains_elem ents) reqs)%bool;
|}.

Definition fill (binding : gmap string string) (seg : string) : string :=
  match (name ← CutPrefix seg "{"; binding !! TrimSuffix name "}") with Some v => v | None => seg end.

#[local] Instance segmentBinder : Binder := {|
  BindRequirements reqs binding := Ok ((fun e => Join (fill binding <$> Split ":"%char e) ":") <$> reqs);
|}.

#[local] Instance subjectText : ClaimsText := {| Sprint cs := str_claim cs "sub" |}.

Definition petOp : Operation := mkOperation ∅ (Some [{[ "bearer" := ["pets:{id}:read"] ]}]).

Definition petsFn : KDexFunction :=
  mkFunction "pets" ∅ "/pets" {[ "/pets/{id}" := {[ "GET" := petOp ]} ]} [] true false true "http://pets.svc".

Definition petsHost : proxy_host (St := mapStore) := mkProxyHost exampleHandler [] [petsFn] true false.

Definition petsSigner (mapper : option (claims -> result unit claims)) : Signer :=
  mkSigner "http://pets.svc" signerDuration "https://host" (privateKey (hh_signer exampleHandler))
    (kid (hh_signer exampleHandler)) mapper.

Definition petsHandler : function_handler :=
  mkFunctionHandler petsFn (mkTarget "http" "pets.svc" "" "http://pets.svc") None (petsSigner None)
    (route_requirements petsFn) (route_bindings petsFn) (malformed_bindings petsFn) ["/pets/{id}"] false None
    "https://host" false.

Lemma petsHandler_built : reverseProxyHandler petsHost petsFn "https://host" = Ok petsHandler.
Proof. reflexivity. Qed.

Definition readRex : proxy_request :=
  mkProxyRequest "GET" "/pets/rex" "" ∅ [("auth", "session"); ("X-API-TOKEN", "tok")] "host" "10.0.0.1" true None false.

Definition reader : AuthContext :=
  <["entitlements" := VStrs ["functions:/pets:read"; "pets:rex:read"]]> {[ "sub" := VStr "alice" ]}.

Definition petsEnv : proxy_env := mkProxyEnv (fun _ _ => true) (fun _ => true) "j1" exampleMintEnv (fun _ => true).

Definition served (fh : function_handler) (ctx : option AuthContext) :=
  Handler petsHost fh petsEnv 0 readRex ctx {[ "Authorization" := ["Bearer session"] ]} None (emptyStore tokenCacheTTL).

(** What goes upstream. *)
Definition sent_headers (a : proxy_answer) : option headers :=
  match a with Forwarded up _ => Some (ur_Header up) | _ => None end.

Lemma served_headers : sent_headers (served petsHandler (Some reader)).1.1 =
  Some (<["Authorization" := ["Bearer token"]]> $ <["Cookie" := ["X-API-TOKEN=tok"]]> $
        <["X-Kdex-Forwarded" := ["true"]]> $ <["X-Forwarded-For" := ["10.0.0.1"]]> $
        <["X-Forwarded-Host" := ["host"]]> {[ "X-Forwarded-Proto" := ["https"] ]}).
Proof. vm_compute. reflexivity. Qed.

Lemma resource_discovery_witness :
  let fn := mkFunction "mcp" ∅ "/mcp" {[ "/mcp" := {[ "POST" := mkOperation ∅ (Some [{[ "oauth2" := ["b"; "a"] ]}]) ]} ]}
              [] true false true "http://mcp.svc" in
  oauthProtectedResourceHandler "https://host" [fn] "mcp" =
    Some (mkMetadata "https://host/mcp" ["https://host"] ["a"; "b"] ["header"]) /\
  oauth2ResourceMetadataLocked "https://host" [fn] !! "/mcp" =
    Some "https://host/.well-known/oauth-protected-resource/mcp".
Proof.
  cbn zeta. set (fn := mkFunction _ _ _ _ _ _ _ _ _). split; [vm_compute; reflexivity|].
  destruct (resource_discovery "https://host" [fn] "mcp" (mkResource "/mcp" "https://host/mcp" ["b"; "a"])) as [Hm _];
    [vm_compute; reflexivity|discriminate|reflexivity|exact Hm].
Defined.

Lemma served_split : served petsHandler (Some reader) =
  ((served petsHandler (Some reader)).1.1, (served petsHandler (Some reader)).1.2, (served petsHandler (Some reader)).2).
Proof. by destruct (served petsHandler (Some reader)) as [[? ?] ?]. Qed.

Lemma proxied_passed_gate_witness :
  route_key petsHandler readRex = "GET /pets/{id}" /\
  fh_parsedRequirements petsHandler !! "GET /pets/{id}" = Some ["pets:{id}:read"].
Proof.
  assert (route_key petsHandler readRex = "GET /pets/{id}") as Hk by (vm_compute; reflexivity).
  split; [exact Hk|].
  destruct (proxied_passed_gate petsHost petsHandler petsEnv 0 readRex _ _ _ _ _ _ _ served_split) as (_ & ac & _ & _ & Hreq);
    [|reflexivity|].
  { intros e He. pose proof served_headers as Hs. rewrite He in Hs. discriminate Hs. }
  rewrite <- Hk. destruct (Hreq petOp [{[ "bearer" := ["pets:{id}:read"] ]}] petsFn "https://host" petsHandler_built)
    as [Hp _]; [|reflexivity|exact Hp].
  rewrite Hk. apply operations_spec. exists "/pets/{id}", {[ "GET" := petOp ]}, "GET".
  split_and!; [reflexivity|right; right; left|reflexivity|reflexivity].
Defined.


Lemma exchange_audience_agrees_witness :
  exchangeTargetAudiences "https://host" [petsFn] !! "https://host/pets" = Some "http://pets.svc" /\
  audience (fh_signer petsHandler) = "http://pets.svc".
Proof.
  assert (exchangeTargetAudiences "https://host" [petsFn] !! "https://host/pets" = Some "http://pets.svc") as Hx
    by (vm_compute; reflexivity). split; [exact Hx|].
  destruct (exchange_audience_agrees petsHost "https://host" _ _ Hx) as (_ & fn & Hin & _ & _ & Hfh).
  apply list_elem_of_singleton in Hin as ->. apply Hfh, petsHandler_built.
Defined.

Lemma splice_keeps_tools_witness :
  let result := {[ "tools" := Marshal ["a"]; "next" := "1" ]} : gmap string string in
  let body := Marshal ({[ "result" := Marshal result; "id" := "7" ]} : gmap string string) in
  exists body', spliceASToolDescriptors body ["mint_token"] = Some body'.
Proof.
  cbn zeta. set (result := {[ "tools" := Marshal ["a"]; "next" := "1" ]} : gmap string string).
  destruct (splice_keeps_tools (Marshal ({[ "result" := Marshal result; "id" := "7" ]} : gmap string string)) ["mint_token"]
    {[ "result" := Marshal result; "id" := "7" ]} (Marshal result) result (Marshal ["a"]) ["a"])
    as (body' & _ & _ & _ & _ & Hs & _).
  - apply (Unmarshal_Marshal (JSON := mapJSON)). exact I.
  - reflexivity.
  - apply (Unmarshal_Marshal (JSON := mapJSON)). exact I.
  - reflexivity.
  - apply (Unmarshal_Marshal (JSON := listJSON)). exact I.
  - intros m. exact I.
  - intros l. exact I.
  - exists body'. exact Hs.
Defined.

(** * Findings *)

(** A rule that fails at run time (here, a header the request does not carry)
    leaves the caller's own credential on the request: the function receives
    the host's session token. *)
Definition ruled : function_handler :=
  mkFunctionHandler petsFn (mkTarget "http" "pets.svc" "" "http://pets.svc") (NewMapper ["X-Tenant"])
    (petsSigner (NewMapper ["X-Tenant"]))
    (route_requirements petsFn) (route_bindings petsFn) (malformed_bindings petsFn) ["/pets/{id}"] false None
    "https://host" false.

Lemma failed_rule_forwards_session :
  (h ← sent_headers (served ruled (Some reader)).1.1; h !! "Authorization") = Some ["Bearer session"].
Proof. vm_compute. reflexivity. Qed.
