(* ===== verification/OpenApi.v ===== *)
(** OpenAPI documents (src/internal/openapi/openapi.go): the schema inferred
    from a JSON value, the parameters read off a route, the names given to
    functions and operations, and the document a host serves for the paths it
    registered. *)
From S2P Require Import Prelude GoStr Deps Claims Clients Roles Url.
From Stdlib Require Import Ascii.

#[local] Open Scope string_scope.

(** [strings.ReplaceAll], of a text that is not empty. *)
Fixpoint replace_from (skip : nat) (s old new : string) : string :=
  match s with
  | "" => ""
  | String c s' =>
      match skip with
      | S skip => replace_from skip s' old new
      | O => if HasPrefix s old then new ++ replace_from (String.length old - 1) s' old new
             else String c (replace_from 0 s' old new)
      end
  end.
Definition ReplaceAll (s old new : string) : string := replace_from 0 s old new.

(** * kin-openapi's document, as far as it is built *)

(** A schema, or a reference to one. *)
Inductive schema :=
| SchemaRef (ref : string)
| Schema (sc_Type sc_Format sc_Description : string) (sc_Nullable : bool)
    (sc_Properties : list (string * schema)) (sc_Items : option schema) (sc_Min sc_Max : option Z).

Definition of_type (ty : string) : schema := Schema ty "" "" false [] None None None.
Definition NewStringSchema : schema := of_type "string".
Definition NewArraySchema (items : option schema) : schema := Schema "array" "" "" false [] items None None.

Record parameter := mkParameter {
  pm_Name : string;
  pm_In : string;
  pm_Description : string;
  pm_Required : bool;
  pm_AllowReserved : bool;
  pm_Explode : option bool;
  pm_Schema : schema;
}.

Inductive parameterRef := ParamRef (ref : string) | Param (p : parameter).

Record MediaType := mkMedia { mt_Schema : option schema; mt_Encoding : gmap string string }.
Record RequestBody := mkBody { rb_Description : string; rb_Content : gmap string MediaType }.
Record Response := mkResponseDoc { rp_Ref : string; rp_Description : string; rp_Content : gmap string MediaType }.

Abbreviation SecurityRequirement := (gmap string (list string)).

Record operation := mkOp {
  oo_Tags : list string;
  oo_Summary : string;
  oo_Description : string;
  oo_OperationID : string;
  oo_Parameters : list parameterRef;
  oo_RequestBody : option RequestBody;
  oo_Responses : gmap string Response;
  oo_Security : option (list SecurityRequirement);
  oo_Deprecated : bool;
}.

(** The operations by method. *)
Record PathItem := mkItem {
  it_Description : string;
  it_Summary : string;
  it_Parameters : list parameter;
  it_Ops : gmap string operation;
}.

Record OpenAPI := mkAPI { api_BasePath : string; api_Paths : gmap string PathItem; api_Schemas : gmap string schema }.

Record Tag := mkTag { tag_Name : string; tag_Description : string; tag_URL : string }.

Inductive PathType := BackendPathType | FunctionPathType | PagePathType | SystemPathType.

#[global] Instance PathType_eq_dec : EqDecision PathType.
Proof. solve_decision. Defined.

Record PathInfo := mkInfo {
  in_API : OpenAPI;
  in_AutoGenerated : bool;
  in_Tags : list Tag;
  in_Type : PathType;
}.

Record Filter := mkFilter { fi_Paths : list string; fi_Tags : list string; fi_Type : list PathType }.

(** * Methods (src/internal/http/http.go) *)

Definition Methods : list string :=
  ["CONNECT"; "DELETE"; "GET"; "HEAD"; "OPTIONS"; "PATCH"; "POST"; "PUT"; "TRACE"].

Definition MethodFromString (method : string) : string :=
  if contains_elem Methods method then method else "GET".

Definition set_op (it : PathItem) (method : string) (op : operation) : PathItem :=
  mkItem (it_Description it) (it_Summary it) (it_Parameters it) (<[method := op]> (it_Ops it)).

Definition SetOperation (it : PathItem) (method : string) (op : operation) : PathItem :=
  if contains_elem Methods method then set_op it method op else it.

(** * Inference *)

(** A value of encoding/json: the keys of an object are distinct. *)
Fixpoint InferSchema (v : value) : schema :=
  match v with
  | VStr _ => of_type "string"
  | VBool _ => of_type "boolean"
  | VNum _ => of_type "number"
  | VObj m => Schema "object" "" "" false (map (fun x => (x.1, InferSchema x.2)) m) None None None
  | VList l => NewArraySchema (match l with [] => None | x :: _ => Some (InferSchema x) end)
  | VStrs l => NewArraySchema (match l with [] => None | _ :: _ => Some (of_type "string") end)
  | VNull => Schema "" "" "" true [] None None None
  end.

(** * Parameters *)

(** The matches of [\{([^}]+)\}]; [cur] is what follows an open brace. *)
Fixpoint brace_names (cur : option string) (s : string) : list string :=
  match s with
  | "" => []
  | String c s =>
      match cur with
      | None => if Ascii.eqb c "{" then brace_names (Some "") s else brace_names None s
      | Some name =>
          if Ascii.eqb c "}" then (if String.eqb name "" then [] else [name]) ++ brace_names None s
          else brace_names (Some (name ++ String c "")%string) s
      end
  end%list.

Definition path_parameter (paramName : string) : parameter :=
  let isWildcard := HasSuffix paramName "..." in
  let cleanName := TrimSuffix paramName "..." in
  mkParameter cleanName "path"
    (if isWildcard then "Wildcard path parameter: " ++ cleanName ++ " (captures remaining path segments)"
     else "Path parameter: " ++ cleanName)
    true isWildcard None
    (if isWildcard
     then Schema "string" "" "May contain multiple path segments separated by slashes" false [] None None None
     else NewStringSchema).

(** The names of a query, as they are spelled in it. *)
Definition query_names (query : string) : list string :=
  omap (fun pair => if String.eqb pair "" then None else Some (Cut "=" pair).1) (Split "&"%char query).

Definition query_parameter (names : list string) (name : string) : parameter :=
  let isArray := (1 <? length (filter (fun n => n = name) names))%nat in
  mkParameter name "query"
    (if isArray then "Query parameter: " ++ name ++ " (array - multiple values supported)"
     else "Query parameter: " ++ name)
    false false (if isArray then Some true else None)
    (if isArray then NewArraySchema (Some NewStringSchema) else NewStringSchema).

Definition skipHeaders : list string :=
  ["accept"; "accept-encoding"; "accept-language"; "authorization"; "connection"; "content-length";
   "content-type"; "cookie"; "expect"; "host"; "if-match"; "if-none-match"; "if-modified-since";
   "if-unmodified-since"; "origin"; "priority"; "referer"; "sec-ch-ua"; "sec-ch-ua-mobile";
   "sec-ch-ua-platform"; "sec-fetch-dest"; "sec-fetch-mode"; "sec-fetch-site"; "sec-fetch-user";
   "upgrade-insecure-requests"; "user-agent"; "x-forwarded-for"; "x-forwarded-host"; "x-forwarded-port";
   "x-forwarded-proto"; "x-forwarded-server"; "x-real-ip"].

Definition documented_header (name : string) : bool :=
  let lowerName := ToLower name in (negb (HasPrefix lowerName "x-kdex-") && negb (contains_elem skipHeaders lowerName))%bool.

Definition header_parameter (name : string) : parameter :=
  mkParameter name "header" "" false false None (NewArraySchema (Some NewStringSchema)).

(** The query's and the headers' come in some order: here, as they occur. *)
Definition ExtractParameters (routePath query : string) (header : list string) : list parameter :=
  let names := query_names query in
  (path_parameter <$> brace_names None (ReplaceAll routePath "{$}" "")) ++
  (query_parameter names <$> keep_distinct (fun _ => true) [] names) ++
  (header_parameter <$> filter (fun n => documented_header n = true) header).

(** * Names *)

Definition name_byte (c : ascii) : string :=
  if has_byte c "{}$[]" then "" else if has_byte c ". " then "-" else String c "".

Fixpoint map_bytes (f : ascii -> string) (s : string) : string :=
  match s with "" => "" | String c s => f c ++ map_bytes f s end.

Definition GenerateNameFromPath (routePath headerValue : string) : string :=
  if negb (String.eqb headerValue "") then headerValue else
  let name := ReplaceAll (ToLower (map_bytes name_byte routePath)) "/" "-" in
  let name := Join (filter (fun part => part <> "") (Split "-"%char name)) "-" in
  if String.eqb name "" then "gen-root" else "gen-" ++ name.

Definition GenerateOperationID (name method headerValue : string) : string :=
  if negb (String.eqb headerValue "") then headerValue else name ++ "-" ++ ToLower method.

Definition Host_ (tls : bool) (host : string) : string :=
  (if tls then "https" else "http") ++ "://" ++ (if String.eqb host "" then "localhost" else host).

(** net/url, of a schema reference: its path, host and fragment. *)
Record refURL := mkRefURL { ref_Path : string; ref_Host : string; ref_Fragment : string }.
Class ParseSchemaRef := { ParseRef : string -> option refURL }.

(** [path.Base]. *)
Definition Base (p : string) : string :=
  if String.eqb p "" then "." else
  let p := trim_right (Ascii.eqb "/") p in
  if String.eqb p "" then "/" else List.last (Split "/"%char p) "".

Definition ExtractSchemaName `{ParseSchemaRef} (schemaString : string) : option string :=
  parsed ← ParseRef (TrimSuffix schemaString "/");
  let base := ref_Path parsed in
  let base := if Contains base "/" then Base base else base in
  let base := if String.eqb base "" then ref_Host parsed else base in
  let base := if (String.eqb base "" && negb (String.eqb (ref_Fragment parsed) ""))%bool
              then ref_Fragment parsed else base in
  Some (TrimPrefix (TrimPrefix base "#") "/components/schemas/").

(** * Merging *)

Definition merge_item (dest : option PathItem) (src : PathItem) : PathItem :=
  match dest with
  | None => src
  | Some d => mkItem (it_Description d) (it_Summary d) (it_Parameters d) (it_Ops src ∪ it_Ops d)
  end.

(** The schemas are not merged. *)
Definition MergeOperations (dest src : OpenAPI) : OpenAPI :=
  mkAPI (api_BasePath dest)
    (merge (fun d s => match s with Some s => Some (merge_item d s) | None => d end) (api_Paths dest) (api_Paths src))
    (api_Schemas dest).

(** * The document *)

Definition toOpenAPIPath (routePath : string) : string :=
  let routePath := ReplaceAll (ReplaceAll routePath "...}" "}") "{$}" "" in
  if String.eqb routePath "/" then routePath else TrimSuffix routePath "/".

Definition matchFilter (routePath : string) (info : PathInfo) (f : Filter) : bool :=
  let tagNames := tag_Name <$> in_Tags info in
  if (negb (length (fi_Paths f) =? 0)%nat && negb (contains_elem (fi_Paths f) routePath))%bool then false
  else if negb (forallb (contains_elem tagNames) (fi_Tags f)) then false
  else if (negb (length (fi_Type f) =? 0)%nat && negb (contains_elem (fi_Type f) (in_Type info)))%bool then false
  else true.

Record securityScheme := mkScheme { ss_Ref : string; ss_Body : string }.

Record Builder := mkBuilder {
  bu_Security : list SecurityRequirement;
  bu_SecuritySchemes : gmap string securityScheme;
  bu_TypesToInclude : list PathType;
}.

(** What the document and the build under way hold. *)
Record Doc := mkDoc {
  doc_Paths : gmap string (PathType * PathItem);
  doc_Schemas : gmap string schema;
  doc_Tags : list Tag;
  doc_Used : gmap string (list string);
}.

Definition metaTags (info : PathInfo) : list Tag :=
  in_Tags info ++ (if in_AutoGenerated info then [mkTag "auto-generated" "" ""] else []).

(** [collectAndSetOpMetadata] writes to the operation the host registered. *)
Definition described (it : PathItem) (names : list string) (op : operation) : operation :=
  mkOp (oo_Tags op ++ keep_distinct (fun t => negb (contains_elem (oo_Tags op) t)) [] names)
    (if String.eqb (oo_Summary op) "" then it_Summary it else oo_Summary op)
    (if String.eqb (oo_Description op) "" then it_Description it else oo_Description op)
    (oo_OperationID op) (oo_Parameters op) (oo_RequestBody op) (oo_Responses op) (oo_Security op) (oo_Deprecated op).

Definition add_tag (tags : list Tag) (t : Tag) : list Tag :=
  if existsb (fun x => String.eqb (tag_Name x) (tag_Name t)) tags then tags else (tags ++ [t])%list.

(** A scheme with no scopes leaves no trace. *)
Definition use_scheme (used : gmap string (list string)) (x : string * list string) : gmap string (list string) :=
  foldl (fun used scope =>
    let l := default [] (used !! x.1) in
    if contains_elem l scope then used else <[x.1 := (l ++ [scope])%list]> used) used x.2.

Definition use_security (used : gmap string (list string)) (op : operation) : gmap string (list string) :=
  foldl use_scheme used (mjoin (map_to_list <$> default [] (oo_Security op))).

(** The operations of an item, in the order the code fills them in. *)
Definition fill_order : list string :=
  ["GET"; "PUT"; "POST"; "DELETE"; "OPTIONS"; "HEAD"; "PATCH"; "TRACE"; "CONNECT"].

Definition item_ops (it : PathItem) : list operation := omap (fun m => it_Ops it !! m) fill_order.

Definition add_path (filter_ : Filter) (info : PathInfo) (d : Doc) (x : string * PathItem) : Doc :=
  let '(pattern, it) := x in
  let openapiPath := toOpenAPIPath pattern in
  if (String.eqb openapiPath "" || negb (matchFilter openapiPath info filter_))%bool then d else
  let it := mkItem (it_Description it) (it_Summary it) (it_Parameters it)
              (described it (tag_Name <$> metaTags info) <$> it_Ops it) in
  mkDoc (<[openapiPath := (in_Type info, it)]> (doc_Paths d)) (doc_Schemas d)
    (foldl add_tag (doc_Tags d) (mjoin ((fun op => (fun t => mkTag t "" "") <$> oo_Tags op) <$> item_ops it)))
    (foldl use_security (doc_Used d) (item_ops it)).

(** [suffix] is drawn for a schema whose name is taken. *)
Definition add_schema (suffix : string) (m : gmap string schema) (x : string * schema) : gmap string schema :=
  match m !! x.1 with
  | Some _ => <[x.1 ++ ":conflict:" ++ suffix := x.2]> m
  | None => <[x.1 := x.2]> m
  end.

Definition add_info (bu : Builder) (filter_ : Filter) (suffix : string) (d : Doc) (info : PathInfo) : Doc :=
  if negb (contains_elem (bu_TypesToInclude bu) (in_Type info)) then d else
  let d := foldl (add_path filter_ info) d (map_to_list (api_Paths (in_API info))) in
  mkDoc (doc_Paths d) (foldl (add_schema suffix) (doc_Schemas d) (map_to_list (api_Schemas (in_API info))))
    (foldl add_tag (doc_Tags d) (in_Tags info)) (doc_Used d).

(** The registered paths, by base path. *)
Definition sorted_infos (paths : gmap string PathInfo) : list PathInfo :=
  omap (fun k => paths !! k) (sort_strings (map_to_list paths).*1).

Definition collect (bu : Builder) (paths : gmap string PathInfo) (filter_ : Filter) (suffix : string) : Doc :=
  foldl (add_info bu filter_ suffix) (mkDoc ∅ ∅ [] ∅) (sorted_infos paths).

Record Document := mkDocument {
  do_Title : string;
  do_Server : string;
  do_Doc : Doc;
  do_Security : list SecurityRequirement;
  do_SecuritySchemes : gmap string securityScheme;
  do_Responses : list string;
}.

Definition kept_schemes (bu : Builder) (used : gmap string (list string)) (isOneOff : bool)
    : gmap string securityScheme :=
  filter (fun x => ss_Ref x.2 = "" /\ (isOneOff = true -> is_Some (used !! x.1))) (bu_SecuritySchemes bu).

Definition standardResponses : list string :=
  ["BadRequest"; "Forbidden"; "Found"; "InternalServerError"; "NotFound"; "SeeOther"].

Definition buildOpenAPI (bu : Builder) (serverUrl name : string) (paths : gmap string PathInfo) (filter_ : Filter)
    (isOneOff : bool) (suffix : string) : Document :=
  let d := collect bu paths filter_ suffix in
  if bool_decide (bu_SecuritySchemes bu = ∅)
  then mkDocument ("KDex Host - " ++ name) serverUrl d (bu_Security bu) ∅ standardResponses
  else
    let kept := kept_schemes bu (doc_Used d) isOneOff in
    mkDocument ("KDex Host - " ++ name) serverUrl d
      (if isOneOff then [] else (((fun k => {[ k := [] ]}) <$> (map_to_list kept).*1) ++ [∅])%list)
      kept
      (standardResponses ++ (if bool_decide (kept = ∅) then [] else ["Unauthorized"])).

Definition BuildOneOff (bu : Builder) (serverUrl name : string) (api : OpenAPI) (suffix : string) : Document :=
  buildOpenAPI bu serverUrl name {[ api_BasePath api := mkInfo api false [] FunctionPathType ]} (mkFilter [] [] [])
    true suffix.
