(* ===== verification/OpenApiSpec.v ===== *)
(** The document tells what is registered and nothing else; a value fits the
    schema inferred from it; the names generated are plain; no credential
    becomes a parameter. *)
From S2P Require Import Prelude GoStr Deps Claims Clients Roles Url OpenApi.
From Stdlib Require Import Ascii.

#[local] Open Scope string_scope.

(** * Inference *)

(** Induction on JSON values. *)
Section ValueInd.
Variable P : value -> Prop.
Hypotheses (Pnull : P VNull) (Pbool : forall b, P (VBool b)) (Pnum : forall n, P (VNum n))
  (Pstr : forall s, P (VStr s)) (Pstrs : forall l, P (VStrs l))
  (Plist : forall l, Forall P l -> P (VList l)) (Pobj : forall l, Forall (fun x => P x.2) l -> P (VObj l)).

Fixpoint value_induction (v : value) : P v :=
  match v with
  | VNull => Pnull
  | VBool b => Pbool b
  | VNum n => Pnum n
  | VStr s => Pstr s
  | VStrs l => Pstrs l
  | VList l => Plist l ((fix go l := match l return Forall P l with
      | [] => @Forall_nil_2 _ _ | x :: l => @Forall_cons_2 _ _ _ _ (value_induction x) (go l) end) l)
  | VObj l => Pobj l ((fix go l := match l return Forall (fun x => P x.2) l with
      | [] => @Forall_nil_2 _ _ | x :: l => @Forall_cons_2 _ (fun x => P x.2) _ _ (value_induction x.2) (go l) end) l)
  end.
End ValueInd.

Definition property (props : list (string * schema)) (k : string) : option schema :=
  match list_find (fun x => x.1 = k) props with Some (_, (_, s)) => Some s | None => None end.

(** What OpenAPI 3.0 asks of a value, of the keywords an inferred schema
    uses. *)
Fixpoint conforms (v : value) (s : schema) {struct v} : bool :=
  match s with
  | SchemaRef _ => false
  | Schema ty _ _ nullable props items _ _ =>
      match v with
      | VNull => nullable
      | VBool _ => String.eqb ty "boolean"
      | VNum _ => String.eqb ty "number"
      | VStr _ => String.eqb ty "string"
      | VStrs l => (String.eqb ty "array" && match items with
                     | Some (Schema ty _ _ _ _ _ _ _) => String.eqb ty "string"
                     | Some (SchemaRef _) => false
                     | None => true end)%bool
      | VList l => (String.eqb ty "array" &&
                    match items with None => true | Some s => forallb (fun x => conforms x s) l end)%bool
      | VObj m => (String.eqb ty "object" &&
                   forallb (fun x => match property props x.1 with
                                     | Some s => conforms x.2 s
                                     | None => true
                                     end) m)%bool
      end
  end.

(** Lists hold values of one shape, and objects distinct keys. *)
Fixpoint homogeneous (v : value) : Prop :=
  match v with
  | VList l => Forall (fun x => x) (map homogeneous l) /\
               match l with [] => True | x :: l => Forall (fun y => InferSchema y = InferSchema x) l end
  | VObj m => NoDup m.*1 /\ Forall (fun x => x) (map (fun x => homogeneous x.2) m)
  | _ => True
  end.

Lemma property_infer (m : list (string * value)) k v :
  NoDup m.*1 -> (k, v) ∈ m ->
  property (map (fun x => (x.1, InferSchema x.2)) m) k = Some (InferSchema v).
Proof.
  unfold property. induction m as [|[k' v'] m IH]; intros Hnd Hin; [by apply elem_of_nil in Hin|].
  rewrite fmap_cons, NoDup_cons in Hnd. destruct Hnd as [Hk Hnd]. cbn [map list_find].
  case_decide as Hd; cbn [fst] in Hd.
  - subst k'. apply elem_of_cons in Hin as [[= <-]|Hin]; [done|].
    exfalso. apply Hk. by apply (list_elem_of_fmap_2 fst) in Hin.
  - apply elem_of_cons in Hin as [[= -> ->]|Hin]; [by destruct Hd|].
    specialize (IH Hnd Hin). cbn. destruct (list_find _ _) as [[i [k'' s]]|]; [|done]. cbn. exact IH.
Qed.

(** A JSON value fits the schema inferred from it, when its lists hold
    values of one shape: the item schema is that of the first element. *)
Theorem inferred_schema_fits v : homogeneous v -> conforms v (InferSchema v) = true.
Proof.
  induction v as [| | | |l|l IH|m IH] using value_induction; intros Hh; try done.
  - by destruct l.
  - destruct Hh as [Hall Hshape]. cbn [conforms InferSchema]. destruct l as [|x l]; [done|].
    cbn [NewArraySchema]. rewrite Forall_cons in IH. destruct IH as [Hx IH].
    cbn [map] in Hall. apply Forall_cons in Hall as [Hhx Hall]. cbn [forallb].
    unfold NewArraySchema. rewrite (Hx Hhx). cbn [String.eqb Ascii.eqb Bool.eqb andb forallb].
    apply forallb_forall. intros y Hy%list_elem_of_In.
    rewrite Forall_forall in Hshape, IH. rewrite <- (Hshape y Hy). apply (IH y Hy).
    rewrite Forall_map, Forall_forall in Hall. by apply Hall.
  - destruct Hh as [Hnd Hall]. cbn [conforms InferSchema]. apply andb_true_iff. split; [done|].
    apply forallb_forall. intros [k y] Hy%list_elem_of_In. cbn [fst snd].
    rewrite (property_infer _ _ _ Hnd Hy). rewrite Forall_forall in IH. apply (IH (k, y) Hy).
    rewrite Forall_map, Forall_forall in Hall. by apply (Hall (k, y)).
Qed.

(** * Names *)

Lemma all_bytes_map_bytes p f s : (forall c, all_bytes p (f c) = true) -> all_bytes p (map_bytes f s) = true.
Proof. intros Hf. induction s as [|c s IH]; cbn; [done|]. by rewrite all_bytes_append, Hf, IH. Qed.

Lemma all_bytes_ToLower (p q : ascii -> bool) s :
  (forall c, p c = true -> q (lower_byte c) = true) -> all_bytes p s = true -> all_bytes q (ToLower s) = true.
Proof.
  intros Hpq. induction s as [|c s IH]; cbn; [done|]. intros [Hc Hs]%andb_true_iff.
  by rewrite (Hpq c Hc), IH.
Qed.

Lemma all_bytes_replace (p q : ascii -> bool) c d s :
  (forall x, p x = true -> x <> c -> q x = true) -> q d = true ->
  all_bytes p s = true -> all_bytes q (ReplaceAll s (String c "") (String d "")) = true.
Proof.
  intros Hpq Hd. unfold ReplaceAll. induction s as [|x s IH]; [done|]. intros [Hx Hs]%andb_true_iff.
  cbn [replace_from HasPrefix]. assert (HasPrefix s "" = true) as -> by (by destruct s). rewrite andb_true_r.
  destruct (Ascii.eqb c x) eqn:He.
  - cbn [String.append String.length Nat.sub]. cbn [all_bytes]. by rewrite Hd, (IH Hs).
  - cbn [all_bytes]. rewrite (IH Hs), andb_true_r. apply Hpq; [done|]. intros ->.
    by rewrite Ascii.eqb_refl in He.
Qed.

Lemma all_bytes_Split p c s seg : all_bytes p s = true -> seg ∈ Split c s -> all_bytes p seg = true.
Proof.
  revert seg. induction s as [|x s IH]; intros seg Hs Hin.
  { by apply list_elem_of_singleton in Hin as ->. }
  apply andb_true_iff in Hs as [Hx Hs]. cbn [Split] in Hin. destruct (Ascii.eqb x c).
  - apply elem_of_cons in Hin as [->|Hin]; [done|]. by apply IH.
  - destruct (Split_cons c s) as (seg' & segs & Heq). rewrite Heq in Hin, IH.
    apply elem_of_cons in Hin as [->|Hin]; [|apply IH; [done|by right]].
    cbn [all_bytes]. rewrite Hx. apply IH; [done|left].
Qed.

(** A byte of a generated name. *)
Definition plain_byte (c : ascii) : bool := (negb (has_byte c "{}$[]. /") && Ascii.eqb (lower_byte c) c)%bool.

Lemma for_all_bytes (p : ascii -> bool) :
  forallb p (ascii_of_nat <$> seq 0 256) = true -> forall c, p c = true.
Proof.
  rewrite forallb_forall. intros Hall c. apply Hall, list_elem_of_In.
  rewrite <- (ascii_nat_embedding c). apply list_elem_of_fmap_2, elem_of_seq.
  pose proof (nat_ascii_bounded c). lia.
Qed.

(** A name generated from a path is "gen-" and the lower-case words of the
    path, joined by single dashes: no brace, bracket, dollar, dot, space or
    slash is left in it. *)
Theorem generated_name_plain routePath :
  exists words, words <> [] /\ GenerateNameFromPath routePath "" = "gen-" ++ Join words "-" /\
    Forall (fun w => w <> "" /\ has_byte "-" w = false /\ all_bytes plain_byte w = true) words.
Proof.
  unfold GenerateNameFromPath. cbn [String.eqb negb].
  set (name := ReplaceAll (ToLower (map_bytes name_byte routePath)) "/" "-").
  assert (all_bytes plain_byte name = true) as Hname.
  { set (p0 := fun c => negb (has_byte c "{}$[]. ")).
    set (p1 := fun c => (negb (has_byte c "{}$[]. ") && Ascii.eqb (lower_byte c) c)%bool).
    apply (all_bytes_replace p1).
    - intros x Hx Hne. apply andb_true_iff in Hx as [Hx Hl]. apply andb_true_iff. split; [|done].
      apply negb_true_iff. apply negb_true_iff in Hx. change "{}$[]. /" with ("{}$[]. " ++ "/").
      rewrite has_byte_append, Hx. cbn. rewrite orb_false_r. by apply Ascii.eqb_neq.
    - reflexivity.
    - apply (all_bytes_ToLower p0).
      + intros c Hc. revert c Hc. assert (forall c, implb (p0 c) (p1 (lower_byte c)) = true) as Hall
          by (apply for_all_bytes; vm_compute; reflexivity).
        intros c Hc. specialize (Hall c). rewrite Hc in Hall. exact Hall.
      + apply all_bytes_map_bytes. apply for_all_bytes. vm_compute. reflexivity. }
  set (words := filter (fun part => part <> "") (Split "-"%char name)).
  assert (Forall (fun w => w <> "" /\ has_byte "-" w = false /\ all_bytes plain_byte w = true) words) as Hwords.
  { apply Forall_forall. intros w [Hne Hin]%list_elem_of_filter.
    split_and!; [done|by apply (Split_no_sep _ name)|by apply (all_bytes_Split _ "-" name)]. }
  destruct (String.eqb (Join words "-") "") eqn:He.
  - exists ["root"]. split_and!; [done|done|]. by repeat constructor.
  - exists words. split_and!; [|done|done]. intros Hn. by rewrite Hn in He.
Qed.

(** * Parameters *)

(** No header that carries a credential or belongs to the transport is
    documented as a parameter, nor one of the sniffer's own; every parameter
    of the path is required, and the query's are optional. *)
Theorem no_credential_parameter routePath query header p :
  p ∈ ExtractParameters routePath query header ->
  pm_In p = "path" /\ pm_Required p = true \/
  pm_In p = "query" /\ pm_Required p = false /\ pm_Name p ∈ query_names query \/
  pm_In p = "header" /\ pm_Required p = false /\ pm_Name p ∈ header /\
    ToLower (pm_Name p) ∉ skipHeaders /\ HasPrefix (ToLower (pm_Name p)) "x-kdex-" = false.
Proof.
  unfold ExtractParameters. rewrite !elem_of_app. intros [Hin|[Hin|Hin]].
  - left. apply list_elem_of_fmap in Hin as (name & -> & _). done.
  - right; left. apply list_elem_of_fmap in Hin as (name & -> & Hin).
    apply elem_of_keep_distinct in Hin as [Hn|[Hin _]]; [by apply elem_of_nil in Hn|].
    split_and!; done.
  - right; right. apply list_elem_of_fmap in Hin as (name & -> & [Hd Hin]%list_elem_of_filter).
    unfold documented_header in Hd. cbn zeta in Hd. apply andb_true_iff in Hd as [Hx%negb_true_iff Hs%negb_true_iff].
    split_and!; try done. intros Hc%contains_elem_spec. cbn [pm_Name header_parameter] in Hc. congruence.
Qed.

(** * Documents *)

(** A registered route that the document is asked for. *)
Definition documents (bu : Builder) (f : Filter) (info : PathInfo) (pattern : string) (it : PathItem) (p : string) : Prop :=
  in_Type info ∈ bu_TypesToInclude bu /\ api_Paths (in_API info) !! pattern = Some it /\
  toOpenAPIPath pattern = p /\ p <> "" /\ matchFilter p info f = true.

Lemma add_path_fold f info (l : list (string * PathItem)) : forall d p ty it',
  doc_Paths (foldl (add_path f info) d l) !! p = Some (ty, it') ->
  doc_Paths d !! p = Some (ty, it') \/
  exists pattern it, (pattern, it) ∈ l /\ toOpenAPIPath pattern = p /\ p <> "" /\ matchFilter p info f = true /\
    ty = in_Type info /\ it_Ops it' = described it (tag_Name <$> metaTags info) <$> it_Ops it /\
    it_Parameters it' = it_Parameters it.
Proof.
  induction l as [|[pattern it] l IH]; intros d p ty it' Hl; [by left|].
  cbn [foldl] in Hl. destruct (IH _ _ _ _ Hl) as [Hd|(pattern' & it2 & Hin & Hrest)].
  2:{ right. exists pattern', it2. split; [by right|done]. }
  unfold add_path in Hd. cbn zeta beta iota in Hd.
  destruct (String.eqb (toOpenAPIPath pattern) "" || negb (matchFilter (toOpenAPIPath pattern) info f))%bool eqn:Hskip;
    [by left|]. apply orb_false_iff in Hskip as [He%String.eqb_neq Hm%negb_false_iff]. cbn [doc_Paths] in Hd.
  destruct (decide (toOpenAPIPath pattern = p)) as [<-|Hne].
  - rewrite lookup_insert_eq in Hd. injection Hd as <- <-. right. exists pattern, it. split_and!; try done. by left.
  - rewrite lookup_insert_ne in Hd by done. by left.
Qed.

Lemma add_path_kept f info (l : list (string * PathItem)) : forall d p,
  is_Some (doc_Paths d !! p) \/
    (exists pattern it, (pattern, it) ∈ l /\ toOpenAPIPath pattern = p /\ p <> "" /\ matchFilter p info f = true) ->
  is_Some (doc_Paths (foldl (add_path f info) d l) !! p).
Proof.
  induction l as [|[pattern it] l IH]; intros d p Hp.
  { destruct Hp as [Hp|(pattern & it & Hin & _)]; [done|by apply elem_of_nil in Hin]. }
  cbn [foldl]. apply IH. unfold add_path. cbn zeta beta iota.
  destruct (String.eqb (toOpenAPIPath pattern) "" || negb (matchFilter (toOpenAPIPath pattern) info f))%bool eqn:Hskip.
  - destruct Hp as [Hp|(pattern' & it2 & [[= -> ->]|Hin]%elem_of_cons & Ht & Hne & Hm)]; [by left| |].
    + apply orb_true_iff in Hskip as [He%String.eqb_eq|Hf%negb_true_iff]; congruence.
    + right. by exists pattern', it2.
  - cbn [doc_Paths].
    destruct Hp as [Hp|(pattern' & it2 & [[= -> ->]|Hin]%elem_of_cons & Ht & Hne & Hm)].
    + left. destruct (decide (toOpenAPIPath pattern = p)) as [->|Hne]; [by rewrite lookup_insert_eq|].
      by rewrite lookup_insert_ne.
    + left. rewrite Ht, lookup_insert_eq. done.
    + right. by exists pattern', it2.
Qed.

Lemma add_info_paths bu f suffix (infos : list PathInfo) : forall d p ty it',
  doc_Paths (foldl (add_info bu f suffix) d infos) !! p = Some (ty, it') ->
  doc_Paths d !! p = Some (ty, it') \/
  exists info pattern it, info ∈ infos /\ documents bu f info pattern it p /\ ty = in_Type info /\
    it_Ops it' = described it (tag_Name <$> metaTags info) <$> it_Ops it /\ it_Parameters it' = it_Parameters it.
Proof.
  induction infos as [|info infos IH]; intros d p ty it' Hl; [by left|].
  cbn [foldl] in Hl. destruct (IH _ _ _ _ Hl) as [Hd|(info' & pattern & it & Hin & Hrest)].
  2:{ right. exists info', pattern, it. split; [by right|done]. }
  unfold add_info in Hd. destruct (contains_elem (bu_TypesToInclude bu) (in_Type info)) eqn:Ht; [|by left].
  apply contains_elem_spec in Ht. cbn [negb] in Hd. cbn zeta in Hd. cbn [doc_Paths] in Hd.
  destruct (add_path_fold _ _ _ _ _ _ _ Hd) as [Ho|(pattern & it & Hin & Hp & Hne & Hm & -> & Hops & Hpar)]; [by left|].
  right. exists info, pattern, it. split_and!; try done; [by left|]. unfold documents.
  split_and!; try done. by apply elem_of_map_to_list.
Qed.

Lemma add_info_kept bu f suffix (infos : list PathInfo) : forall d p,
  is_Some (doc_Paths d !! p) \/
    (exists info pattern it, info ∈ infos /\ documents bu f info pattern it p) ->
  is_Some (doc_Paths (foldl (add_info bu f suffix) d infos) !! p).
Proof.
  induction infos as [|info infos IH]; intros d p Hp.
  { destruct Hp as [Hp|(info & pattern & it & Hin & _)]; [done|by apply elem_of_nil in Hin]. }
  cbn [foldl]. apply IH. destruct Hp as [Hp|(info' & pattern & it & [->|Hin]%elem_of_cons & Hd)].
  - left. unfold add_info. destruct (negb _); [done|]. cbn zeta. cbn [doc_Paths].
    apply add_path_kept. by left.
  - left. destruct Hd as (Ht & Hit & Hp & Hne & Hm). unfold add_info.
    apply contains_elem_spec in Ht. rewrite Ht. cbn [negb]. cbn zeta. cbn [doc_Paths].
    apply add_path_kept. right. exists pattern, it. split_and!; try done. by apply elem_of_map_to_list.
  - right. by exists info', pattern, it.
Qed.

Lemma elem_of_sorted_infos (paths : gmap string PathInfo) info :
  info ∈ sorted_infos paths <-> exists base, paths !! base = Some info.
Proof.
  unfold sorted_infos. rewrite list_elem_of_omap. split.
  - intros (base & _ & Hb). by exists base.
  - intros (base & Hb). exists base. split; [|done]. unfold sort_strings. rewrite merge_sort_Permutation.
    apply (list_elem_of_fmap_2 fst _ (base, info)). by apply elem_of_map_to_list.
Qed.

(** The document tells exactly what is registered: a path is in it when
    some registered pattern of a kind it includes, spelled as OpenAPI spells
    it, passes the filter; what it tells of the path is that pattern's own
    operations, none added, none left out, each with the summary, the
    description and the tags it is registered with. *)
Theorem document_exact bu server name paths f isOneOff suffix p :
  let doc := do_Doc (buildOpenAPI bu server name paths f isOneOff suffix) in
  (forall ty it', doc_Paths doc !! p = Some (ty, it') ->
     exists base info pattern it, paths !! base = Some info /\ documents bu f info pattern it p /\ ty = in_Type info /\
       it_Parameters it' = it_Parameters it /\
       forall meth op', it_Ops it' !! meth = Some op' <->
         exists op, it_Ops it !! meth = Some op /\ op' = described it (tag_Name <$> metaTags info) op) /\
  ((exists base info pattern it, paths !! base = Some info /\ documents bu f info pattern it p) ->
   is_Some (doc_Paths doc !! p)).
Proof.
  assert (do_Doc (buildOpenAPI bu server name paths f isOneOff suffix) = collect bu paths f suffix) as ->
    by (unfold buildOpenAPI; by case_bool_decide). cbn zeta. split.
  - intros ty it' Hl. destruct (add_info_paths _ _ _ _ _ _ _ _ Hl) as [Hn|(info & pattern & it & Hin & Hd & -> & Hops & Hpar)].
    { cbn in Hn. by rewrite lookup_empty in Hn. }
    apply elem_of_sorted_infos in Hin as (base & Hb). exists base, info, pattern, it. split_and!; try done.
    intros meth op'. rewrite Hops, lookup_fmap. destruct (it_Ops it !! meth) as [op|]; cbn.
    + split; [intros [= <-]; by exists op|]. by intros (op2 & [= <-] & ->).
    + split; [done|]. by intros (op2 & ? & _).
  - intros (base & info & pattern & it & Hb & Hd). apply add_info_kept. right. exists info, pattern, it.
    split; [|done]. apply elem_of_sorted_infos. by exists base.
Qed.

Lemma inferred_schema_fits_witness :
  let v := VObj [("id", VNum 7); ("tags", VList [VStr "a"; VStr "b"]); ("next", VNull)] in
  homogeneous v /\ conforms v (InferSchema v) = true.
Proof.
  cbn zeta. set (v := VObj _).
  assert (homogeneous v) as Hv.
  { cbn. repeat (split || constructor); try done; rewrite ?elem_of_cons; set_solver. }
  split; [exact Hv|]. exact (inferred_schema_fits v Hv).
Defined.

Lemma no_credential_parameter_witness :
  header_parameter "X-Tenant" ∈ ExtractParameters "/v1/{id}" "a=1&a=2" ["Authorization"; "X-Tenant"] /\
  ToLower "X-Tenant" ∉ skipHeaders.
Proof.
  assert (header_parameter "X-Tenant" ∈ ExtractParameters "/v1/{id}" "a=1&a=2" ["Authorization"; "X-Tenant"]) as Hin.
  { apply list_elem_of_In. vm_compute. tauto. }
  split; [exact Hin|].
  destruct (no_credential_parameter _ _ _ _ Hin) as [[He _]|[[He _]|(_ & _ & _ & Hs & _)]];
    [discriminate He|discriminate He|exact Hs].
Defined.

(** * Findings *)

Definition apiKeyOp : operation :=
  mkOp [] "" "" "x-get" [] None ∅ (Some [{[ "apiKeyHeader" := [] ]}]) false.

Definition keyedBuilder : Builder := mkBuilder [] {[ "apiKeyHeader" := mkScheme "" "apiKey" ]} [FunctionPathType].

(** A function whose operations ask for a scheme without scopes: the document
    built for it alone requires the scheme and does not define it. *)
Lemma scopeless_scheme_undefined :
  let api := mkAPI "/x" {[ "/x" := mkItem "" "" [] {[ "GET" := apiKeyOp ]} ]} ∅ in
  let doc := BuildOneOff keyedBuilder "http://h" "x" api "s" in
  (x ← doc_Paths (do_Doc doc) !! "/x"; op ← it_Ops x.2 !! "GET"; oo_Security op) =
    Some [{[ "apiKeyHeader" := [] ]}] /\
  do_SecuritySchemes doc = ∅.
Proof. vm_compute. by split. Qed.

(** Two patterns OpenAPI spells alike: one of them is not documented. *)
Lemma exact_pattern_collides : toOpenAPIPath "/x/{$}" = toOpenAPIPath "/x".
Proof. reflexivity. Qed.
