(* ===== verification/Sniffer.v ===== *)
(** The request sniffer (src/internal/sniffer/sniffer.go): the function it
    creates or extends for a request nothing answered, with the operation,
    the schemas and the suite of operations it reads off the request. *)
From S2P Require Import Prelude GoStr Deps Claims Clients Roles Url OpenApi.
From Stdlib Require Import Ascii.

#[local] Open Scope string_scope.

Definition TRUE : string := "true".

(** [strings.ToUpper], on ASCII. *)
Definition upper_byte (c : ascii) : ascii :=
  let n := N_of_ascii c in if ((97 <=? n) && (n <=? 122))%N%bool then ascii_of_N (n - 32) else c.
Definition ToUpper (s : string) : string := map_bytes (fun c => String (upper_byte c) "") s.

(** * Requests *)

(** A part of a multipart body: its field, the file's name ("" for a value),
    its content type and its content. *)
Record part := mkPart { pt_FormName : string; pt_FileName : string; pt_ContentType : string; pt_Body : string }.

(** The names of the request's headers, and the first value of each. *)
Record sniffed_request := mkSniffed {
  sr_Method : string;
  sr_Path : string;
  sr_RawQuery : string;
  sr_headers : list string;
  sr_Header : string -> string;
  sr_ContentLength : Z;
  sr_Body : string;
}.

(** What the sniffer reads of a body by means of libraries: its detected type,
    its multipart parts ([None]: they do not parse), its JSON value. *)
Class BodyReader := {
  Detect : string -> option string;
  Parts : string -> string -> option (list part);
  UnmarshalValue : string -> option value;
}.

(** The crds' regular expressions for paths, the base path the second finds in
    a pattern, net/http's check of a pattern against the request. *)
Class PathRules := {
  BasePathRegex : string -> bool;
  ItemPathRegex : string -> bool;
  pattern_base : string -> string;
  ValidatePattern : string -> string -> bool;
}.

(** * Functions *)

Record fn_spec := mkSpec {
  sp_Name : string;
  sp_API : OpenAPI;
  sp_AutoGenerated : bool;
  sp_Tags : list string;
}.

Inductive sniff_error :=
| BadPath | BadPattern | PatternBase | InvalidPattern
| NotAutoGenerated (name : string) | ExactMatch (name : string) | BadBody | BadSchemaRef.

Section Sniffer.
Context `{!ParseSchemaRef} `{!BodyReader} `{!PathRules}.

Implicit Types (r : sniffed_request) (fn : fn_spec).

Definition calculatePaths r (patternPath : string) : result sniff_error (string * string) :=
  if negb (BasePathRegex (sr_Path r)) then Err BadPath
  else if String.eqb patternPath "" then Ok (sr_Path r, sr_Path r)
  else if negb (ItemPathRegex patternPath) then Err BadPattern
  else let basePath := pattern_base patternPath in
       if negb (HasPrefix patternPath basePath) then Err PatternBase
       else if negb (ValidatePattern patternPath (sr_Path r)) then Err InvalidPattern
       else Ok (basePath, patternPath).

(** Whether an item has the operation. *)
Definition has_operation (it : PathItem) (method operationId : string) : bool :=
  match it_Ops it !! method with Some op => String.eqb operationId (oo_OperationID op) | None => false end.

(** The loop over a function's routes, in the order they are ranged over. *)
Fixpoint match_routes fn (name routePath method operationId : string) (routes : list (string * PathItem))
    : option bool :=
  match routes with
  | [] => None
  | (curPath, it) :: routes =>
      let exact := (String.eqb routePath curPath && has_operation it method operationId)%bool in
      if String.eqb name (sp_Name fn) then Some exact
      else if exact then Some false
      else match_routes fn name routePath method operationId routes
  end.

(** [order] is the order in which Go ranges over a map of routes. *)
Fixpoint matchExisting (order : gmap string PathItem -> list (string * PathItem)) (items : list fn_spec)
    (name basePath routePath method operationId : string) : option (fn_spec * bool) :=
  match items with
  | [] => None
  | fn :: items =>
      let again := matchExisting order items name basePath routePath method operationId in
      if negb (String.eqb basePath (api_BasePath (sp_API fn))) then again
      else if bool_decide (api_Paths (sp_API fn) = ∅) then Some (fn, true)
      else match match_routes fn name routePath method operationId (order (api_Paths (sp_API fn))) with
           | Some exact => Some (fn, exact)
           | None => again
           end
  end.

(** * Merging *)

Definition same_param (p q : parameter) : bool := (String.eqb (pm_Name p) (pm_Name q) && String.eqb (pm_In p) (pm_In q))%bool.

(** An incoming parameter against those there are: the first of that name and
    place is overwritten or kept, and it is appended unless it was kept. *)
Fixpoint overwrite_param (p : parameter) (out : list parameter) : list parameter :=
  match out with
  | [] => []
  | q :: out => if same_param p q then p :: out else q :: overwrite_param p out
  end.

Definition merge_param (overwrite : bool) (out : list parameter) (p : parameter) : list parameter :=
  if existsb (same_param p) out
  then (if overwrite then (overwrite_param p out ++ [p])%list else out)
  else (out ++ [p])%list.

Definition shouldDelete (parameters : list parameter) (ref : parameterRef) : bool :=
  match ref with ParamRef _ => false | Param p => existsb (same_param p) parameters end.

Definition without_shared (parameters : list parameter) (op : operation) : operation :=
  mkOp (oo_Tags op) (oo_Summary op) (oo_Description op) (oo_OperationID op)
    (filter (fun x => shouldDelete parameters x = false) (oo_Parameters op)) (oo_RequestBody op) (oo_Responses op)
    (oo_Security op) (oo_Deprecated op).

Definition merge_sniffed (overwrite : bool) (out : option PathItem) (it : PathItem) : PathItem :=
  let o := default (mkItem "" "" [] ∅) out in
  let params := foldl (merge_param overwrite) (it_Parameters o) (it_Parameters it) in
  mkItem (if overwrite then it_Description it else it_Description o)
    (if overwrite then it_Summary it else it_Summary o) params
    ((without_shared params <$> it_Ops it) ∪ it_Ops o).

(** [suffix] is drawn for a conflicting schema. *)
Definition merge_schema (keep : bool) (suffix : string) (m : gmap string schema) (x : string * schema)
    : gmap string schema :=
  <[(if (found (m !! x.1) && keep)%bool then x.1 ++ ":conflict:" ++ suffix else x.1) := x.2]> m.

Definition mergeAPIIntoFunction (suffix : string) fn (paths : gmap string PathItem) (schemas : gmap string schema)
    (overwrite keep : bool) : fn_spec :=
  mkSpec (sp_Name fn)
    (mkAPI (api_BasePath (sp_API fn))
       (merge (fun o i => match i with Some i => Some (merge_sniffed overwrite o i) | None => o end)
          (api_Paths (sp_API fn)) paths)
       (foldl (merge_schema keep suffix) (api_Schemas (sp_API fn)) (map_to_list schemas)))
    (sp_AutoGenerated fn) (sp_Tags fn).

(** * The operation of a request *)

Definition header_tags r (functionName : string) : list string :=
  let raw := sr_Header r "X-KDex-Function-Tags" in
  ((if String.eqb raw "" then [] else TrimSpace <$> Split ","%char raw) ++ [functionName])%list.

(** [^https?://.*]. *)
Definition external_ref (ref : string) : bool := (HasPrefix ref "http://" || HasPrefix ref "https://")%bool.

Definition componentPrefix : string := "#/components/schemas/".

(** The reference a header asks for, and whether it is external. *)
Definition request_ref (ref : string) : string * bool :=
  if String.eqb ref "" then ("", false) else
  let ext := external_ref ref in
  (if (negb ext && negb (HasPrefix ref componentPrefix))%bool then componentPrefix ++ ref else ref, ext).

Definition response_ref (ref : string) : string * bool :=
  if String.eqb ref "" then ("", false) else
  let ext := external_ref ref in
  (if (negb ext && negb (HasPrefix ref "http") && negb (HasPrefix ref componentPrefix))%bool
   then componentPrefix ++ ref else ref, ext).

(** One alternative of the security header. *)
Definition security_arg (val : string) : option (string * list string) :=
  let '(schemeName, scopes) :=
    match Cut "=" (TrimSpace val) with
    | (scheme, Some scopes) =>
        (TrimSpace scheme, if has_byte "|" scopes then TrimSpace <$> Split "|"%char scopes else [TrimSpace scopes])
    | (scheme, None) => (scheme, [])
    end in
  if String.eqb schemeName "" then None else Some (schemeName, scopes).

(** The last word on a scheme counts, in the order schemes first occur; only
    the host's own count. *)
Definition sniffed_security (schemes : list string) (header : string) : list SecurityRequirement :=
  let args := omap security_arg (Split ";"%char header) in
  let by_name : gmap string (list string) := list_to_map (reverse args) in
  omap (fun name => if contains_elem schemes name then scopes ← by_name !! name; Some {[ name := scopes ]} else None)
    (keep_distinct (fun _ => true) [] args.*1).

Definition binary : schema := Schema "string" "binary" "" false [] None None None.

(** The fields of a form, in the order they occur, and their encodings. *)
Definition set_field (props : list (string * schema)) (name : string) (s : schema) : list (string * schema) :=
  if existsb (fun x => String.eqb x.1 name) props
  then (fun x => if String.eqb x.1 name then (name, s) else x) <$> props
  else (props ++ [(name, s)])%list.

Definition add_part (acc : option (list (string * schema) * gmap string string)) (p : part)
    : option (list (string * schema) * gmap string string) :=
  '(props, encoding) ← acc;
  let name := pt_FormName p in
  let isArray := existsb (fun x => String.eqb x.1 name) props in
  if String.eqb (pt_FileName p) "" then
    Some (set_field props name (if isArray then NewArraySchema (Some NewStringSchema) else NewStringSchema), encoding)
  else if isArray then Some (set_field props name (NewArraySchema (Some binary)), encoding)
  else
    ct ← (if (String.eqb (pt_ContentType p) "" || String.eqb (pt_ContentType p) "application/octet-stream")%bool
          then Detect (pt_Body p) else Some (pt_ContentType p));
    Some (set_field props name binary, <[name := ct]> encoding).

(** The regular expression for JSON types, on the lowered type: "json", or
    what ends in "+json", up to a semicolon; a type has no line break. *)
Definition isJSON (mimeType : string) : bool :=
  match CutPrefix (ToLower mimeType) "application/" with
  | None => false
  | Some rest =>
      existsb (fun cut : string => (String.eqb cut "json" || HasSuffix cut "+json")%bool)
        (rest :: (match Split ";"%char rest with
                  | segs => (fun n => Join (take n segs) ";") <$> seq 1 (length segs)
                  end))
  end.

(** The schema of a body of the content type; [full] is the header. *)
Definition body_schema (full contentType body : string) : result sniff_error (schema * gmap string string) :=
  base ← (if String.eqb contentType "application/octet-stream" then Ok (binary, ∅)
          else if String.eqb contentType "multipart/form-data" then
            match Parts full body with
            | None => Err BadBody
            | Some parts =>
                match foldl add_part (Some ([], ∅)) parts with
                | None => Err BadBody
                | Some (props, encoding) => Ok (Schema "object" "" "" false props None None None, encoding)
                end
            end
          else if String.eqb contentType "application/x-www-form-urlencoded" then
            Ok (Schema "object" "" "" false
                  ((fun x => (x.1, NewStringSchema)) <$> map_to_list (ParseQuery body)) None None None, ∅)
          else Ok (of_type "", ∅));
  if isJSON contentType then
    match UnmarshalValue body with None => Err BadBody | Some v => Ok (InferSchema v, base.2) end
  else Ok base.

Definition with_description (d : string) (s : schema) : schema :=
  match s with
  | SchemaRef r => SchemaRef r
  | Schema ty f _ n p i lo hi => Schema ty f d n p i lo hi
  end.

(** What a request's body adds: the body of the operation, and a schema. *)
Definition sniffed_body r : result sniff_error (option RequestBody * gmap string schema) :=
  let '(ref, isExternal) := request_ref (sr_Header r "X-KDex-Function-Request-Schema-Ref") in
  let ct := sr_Header r "Content-Type" in
  if negb (contains_elem ["POST"; "PUT"; "PATCH"] (sr_Method r)) then Ok (None, ∅)
  else if negb ((0 <? sr_ContentLength r)%Z || negb (String.eqb ct ""))%bool then Ok (None, ∅)
  else
    let contentType := List.hd "" (Split ";"%char ct) in
    inferred ← (if isExternal then Ok (contentType, of_type "", ∅)
      else match (if String.eqb contentType "" then Detect (sr_Body r) else Some contentType) with
           | None => Err BadBody
           | Some contentType => x ← body_schema ct contentType (sr_Body r); Ok (contentType, x.1, x.2)
           end);
    let '(contentType, s, encoding) := inferred in
    let s := with_description "Inferred from request body" s in
    let media sc := Some (mkBody "The request body schema" {[ contentType := mkMedia (Some sc) encoding ]}) in
    if String.eqb ref "" then Ok (media s, ∅)
    else match ExtractSchemaName ref with
         | None => Err BadSchemaRef
         | Some name => Ok (media (SchemaRef ref), {[ name := if isExternal then SchemaRef ref else s ]})
         end.

(** The response the request accepts, and an external schema. *)
Definition sniffed_response r : result sniff_error (Response * gmap string schema) :=
  let '(ref, isExternal) := response_ref (sr_Header r "X-KDex-Function-Response-Schema-Ref") in
  let accept := sr_Header r "Accept" in
  if (contains_elem ["HEAD"; "CONNECT"] (sr_Method r) || String.eqb accept "")%bool
  then Ok (mkResponseDoc "" "Successful response" ∅, ∅)
  else
    schemas ← (if String.eqb ref "" then Ok ∅ else
      match ExtractSchemaName ref with
      | None => Err BadSchemaRef
      | Some name => Ok (if isExternal then {[ name := SchemaRef ref ]} else ∅)
      end);
    let sc := if String.eqb ref "" then None else Some (SchemaRef ref) in
    let types := filter (fun t => t <> "" /\ t <> "*/*")
      ((fun t => TrimSpace (List.hd "" (Split ";"%char t))) <$> Split ","%char accept) in
    Ok (mkResponseDoc "" "Successful response" (list_to_map ((fun t => (t, mkMedia sc ∅)) <$> types)), schemas).

Definition RespRefUnauthorized : string := "#/components/responses/Unauthorized".

(** [schemes] are the host's. *)
Definition sniffed_operation (schemes : list string) r (functionName routePath operationId : string)
    (body : option RequestBody) (resp : Response) : operation :=
  let summary := sr_Header r "X-KDex-Function-Summary" in
  let desc := sr_Header r "X-KDex-Function-Description" in
  let security := sniffed_security schemes (sr_Header r "X-KDex-Function-Security") in
  mkOp (header_tags r functionName) (if String.eqb summary "" then operationId else summary)
    (if String.eqb desc "" then sr_Method r ++ " " ++ routePath else desc) operationId
    (Param <$> ExtractParameters routePath (Encode (ParseQuery (sr_RawQuery r))) (sr_headers r)) body
    (<["200" := resp]> (match security with
                        | [] => ∅
                        | _ => {[ "401" := mkResponseDoc RespRefUnauthorized "" ∅ ]} end))
    (match security with [] => None | _ => Some security end)
    (String.eqb (ToLower (sr_Header r "X-KDex-Function-Deprecated")) TRUE).

(** * The suite of operations *)

Definition json_of (ref : string) (ty : string) : gmap string MediaType :=
  if String.eqb ref "" then ∅ else {[ ty := mkMedia (Some (SchemaRef ref)) ∅ ]}.

Definition body_of (ref ty desc : string) : option RequestBody :=
  if String.eqb ref "" then None else Some (mkBody desc (json_of ref ty)).

(** An operation of the suite, with the template's tags and security. *)
Definition suite_op (t : operation) (id summary desc : string) (params : list parameterRef)
    (body : option RequestBody) (status : string) (resp : Response) : operation :=
  mkOp (oo_Tags t) summary desc id params body {[ status := resp ]} (oo_Security t) false.

Definition page_params : list parameterRef :=
  [Param (mkParameter "limit" "query" "Maximum number of items to return." false false None
     (Schema "integer" "" "" false [] None (Some 1%Z) (Some 100%Z)));
   Param (mkParameter "offset" "query" "Offset to start returning items from." false false None
     (Schema "integer" "" "" false [] None (Some 0%Z) None))].

Definition generateCollectionOperations (path : string) (it : PathItem) (t : operation) (reqRef respRef : string)
    : PathItem :=
  let base := GenerateNameFromPath path "" in
  let list_content := if String.eqb respRef "" then ∅
    else {[ "application/json" := mkMedia (Some (NewArraySchema (Some (SchemaRef respRef)))) ∅ ]} in
  let it := set_op it "GET" (suite_op t (base ++ "-get") "List Resources" "List of resources." page_params None
              "200" (mkResponseDoc "" "List of resources" list_content)) in
  set_op it "POST" (suite_op t (base ++ "-post") "Post Resource" "Post a new resource." []
    (body_of reqRef "application/json" "The resource to create") "201"
    (mkResponseDoc "" "Resource created" (json_of respRef "application/json"))).

Definition off_path (x : parameterRef) : option parameter :=
  match x with Param p => if String.eqb (pm_In p) "path" then None else Some p | ParamRef _ => None end.

Definition generateResourceOperations (path : string) (it : PathItem) (t : operation) (reqRef respRef : string)
    : PathItem :=
  let base := GenerateNameFromPath path "" in
  let found_ status := mkResponseDoc "" status (json_of respRef "application/json") in
  let it := mkItem (it_Description it) (it_Summary it)
    (ExtractParameters path "" [] ++ omap off_path (oo_Parameters t)) (it_Ops it) in
  let it := set_op it "GET" (suite_op t (base ++ "-get") "Get Resource" "Get a resource by ID." [] None
              "200" (found_ "Resource found")) in
  let it := set_op it "PUT" (suite_op t (base ++ "-put") "Put Resource" "Put a resource by ID." []
              (body_of reqRef "application/json" "The replaced resource") "200" (found_ "Resource replaced")) in
  let it := set_op it "PATCH" (suite_op t (base ++ "-patch") "Patch Resource" "Patch a resource by ID." []
              (body_of reqRef "application/merge-patch+json" "The patch to apply") "200" (found_ "Resource patched")) in
  set_op it "DELETE" (suite_op t (base ++ "-delete") "Delete Resource" "Delete a resource by ID." [] None
    "204" (mkResponseDoc "" "Resource deleted" ∅)).

(** The collection and the resource a route belongs to. *)
Definition suite_paths (routePath : string) : string * string :=
  let segments := Split "/"%char routePath in
  let lastSegment := List.last segments "" in
  if (HasPrefix lastSegment "{" && HasSuffix lastSegment "}")%bool
  then (Join (take (length segments - 1) segments) "/", routePath)
  else (routePath, routePath ++ "/{id}").

Definition comprehensive (routePath reqRef respRef : string) (op : operation) (items : gmap string PathItem)
    : gmap string PathItem :=
  let '(collectionPath, resourcePath) := suite_paths routePath in
  let col := default (mkItem "Collection Operations" "" [] ∅) (items !! collectionPath) in
  let items := <[collectionPath := generateCollectionOperations collectionPath col op reqRef respRef]> items in
  let res := default (mkItem "Resource Operations" "" [] ∅) (items !! resourcePath) in
  <[resourcePath := generateResourceOperations resourcePath res op reqRef respRef]> items.

Definition parseRequestIntoAPI (schemes : list string) r (functionName routePath operationId : string)
    : result sniff_error (gmap string PathItem * gmap string schema) :=
  x ← sniffed_body r;
  y ← sniffed_response r;
  let op := sniffed_operation schemes r functionName routePath operationId x.1 y.1 in
  let it := set_op (mkItem ("Auto-generated from request to " ++ sr_Path r) "" [] ∅)
              (MethodFromString (sr_Method r)) op in
  let items := {[ routePath := it ]} in
  let items := if String.eqb (ToLower (sr_Header r "X-KDex-Function-Comprehensive-Mode")) TRUE
    then comprehensive routePath (request_ref (sr_Header r "X-KDex-Function-Request-Schema-Ref")).1
           (response_ref (sr_Header r "X-KDex-Function-Response-Schema-Ref")).1 op items
    else items in
  Ok (items, y.2 ∪ x.2).

(** * Sniffing *)

(** A route of another function that the new one would declare. *)
Definition claimed (functions : list fn_spec) (patternPath basePath : string) : bool :=
  existsb (fun fn => found (api_Paths (sp_API fn) !! patternPath) ||
                     (negb (String.eqb patternPath basePath) && found (api_Paths (sp_API fn) !! basePath)))%bool
    functions.

Definition add_name_tag fn : fn_spec :=
  mkSpec (sp_Name fn) (sp_API fn) (sp_AutoGenerated fn)
    (if contains_elem (sp_Tags fn) (sp_Name fn) then sp_Tags fn else sp_Tags fn ++ [sp_Name fn])%list.

(** [Ok None]: nothing to do. *)
Definition sniff (order : gmap string PathItem -> list (string * PathItem)) (functions : list fn_spec)
    (schemes : list string) (suffix : string) r : result sniff_error (option fn_spec) :=
  if HasPrefix (sr_Path r) "/-/" then Ok None else
  '(basePath, patternPath) ← calculatePaths r (sr_Header r "X-KDex-Function-Pattern-Path");
  let overwrite := String.eqb (sr_Header r "X-KDex-Function-Overwrite-Operation") TRUE in
  let functionName := GenerateNameFromPath basePath (sr_Header r "X-KDex-Function-Name") in
  let operationId := GenerateOperationID (GenerateNameFromPath patternPath "") (ToUpper (sr_Method r))
                       (sr_Header r "X-KDex-Function-Operation-ID") in
  let matched := matchExisting order functions functionName basePath patternPath (ToUpper (sr_Method r)) operationId in
  match matched with
  | Some (existing, exact) =>
      if negb (sp_AutoGenerated existing) then Err (NotAutoGenerated (sp_Name existing))
      else if (exact && negb overwrite)%bool then Err (ExactMatch (sp_Name existing))
      else
        '(items, schemas) ← parseRequestIntoAPI schemes r (sp_Name existing) patternPath operationId;
        Ok (Some (mergeAPIIntoFunction suffix (add_name_tag existing) items schemas (negb overwrite)
             (String.eqb (sr_Header r "X-KDex-Function-Keep-Schema-Conflict") TRUE)))
  | None =>
      if claimed functions patternPath basePath then Ok None else
      '(items, schemas) ← parseRequestIntoAPI schemes r functionName patternPath operationId;
      Ok (Some (mergeAPIIntoFunction suffix (add_name_tag (mkSpec functionName (mkAPI basePath ∅ ∅) true []))
                  items schemas (negb overwrite)
                  (String.eqb (sr_Header r "X-KDex-Function-Keep-Schema-Conflict") TRUE)))
  end.

(** * The object in the cluster *)

(** What the sniffer writes: a new object gets the host's labels and its
    reference; an existing one keeps its own. *)
Record fn_object := mkObject {
  ob_Created : bool;
  ob_Labels : gmap string string;
  ob_HostRef : string;
  ob_Spec : option fn_spec;
}.

(** [hostRef] is the sniffed specification's own. *)
Definition mutate (hostName hostRef : string) (spec : fn_spec) (ob : fn_object) : fn_object :=
  if ob_Created ob then mkObject true (ob_Labels ob) hostRef (Some spec)
  else mkObject false (<["kdex.dev/instance" := hostName]> {[ "app.kubernetes.io/name" := "kdex-host" ]}) hostName
         (Some spec).

Definition inference_lints r : list string :=
  (if String.eqb (sr_Header r "X-KDex-Function-Security") "" then []
   else ["[inference] Detected 'X-KDex-Function-Security' header; secured endpoint inferred."]) ++
  (let n := size (ParseQuery (sr_RawQuery r)) in
   if (n =? 0)%nat then [] else ["[inference] Detected " ++ FormatInt (Z.of_nat n) ++ " query parameters."]).
End Sniffer.
