(* ===== verification/Languages.v ===== *)
(** Languages (GetLang, GetAcceptLanguage and the parameter readers of
    src/internal/http/http.go; src/internal/host/translations.go): the
    language a response is negotiated in, the order translations are written
    to the catalog in, and the keys and values a client is handed. *)
From S2P Require Import Prelude GoStr Deps Claims Clients Url OpenApi.
From Stdlib Require Import Ascii.

#[local] Open Scope string_scope.

(** golang.org/x/text/language: tags, and [NewMatcher(supported).Match(..)],
    which answers an index of [supported] and whether its confidence is No. *)
Class LanguageTags := {
  Tag : Type;
  Und : Tag;
  ParseTag : string -> option Tag;
  MakeTag : string -> Tag;
  TagString : Tag -> string;
  IsRoot : Tag -> bool;
  MatchTags : list Tag -> list Tag -> nat * bool;
  MatchTags_range : forall supported preferred,
    supported <> [] -> ((MatchTags supported preferred).1 < length supported)%nat;
}.

(** * Request parameters (http.go) *)

Record param_request := mkParamRequest {
  lr_PathValue : string -> string;
  lr_RawQuery : string;
  lr_AcceptLanguage : string;
}.

Definition GetParam (name defaultValue : string) (r : param_request) : string :=
  let value := lr_PathValue r name in
  let value := if String.eqb value "" then Get (ParseQuery (lr_RawQuery r)) name else value in
  if String.eqb value "" then defaultValue else value.

Definition GetParamArray (name : string) (defaultValue : list string) (r : param_request) : list string :=
  let value := lr_PathValue r name in
  let values := if String.eqb value "" then All (ParseQuery (lr_RawQuery r)) name else [value] in
  match values with [] => defaultValue | _ :: _ => values end.

(** * Negotiation *)

Inductive lang_error := NoLanguages | InvalidTag (l10n : string) | Unsupported (l10n : string)
| NoSupported | BadDefault.

Section Negotiation.
Context `{!LanguageTags}.

Definition default_tag (defaultLanguage : string) : result lang_error Tag :=
  match ParseTag defaultLanguage with Some t => Ok t | None => Err BadDefault end.

(** The tags of an Accept-Language header; a part that does not parse is
    skipped. *)
Definition preferred_languages (header : string) : list Tag :=
  omap (fun part =>
    let part := TrimSpace part in
    if String.eqb part "" then None else ParseTag (Cut ";" part).1) (Split "," header).

Definition GetAcceptLanguage (header defaultLanguage : string) (languages : list Tag) : result lang_error Tag :=
  match languages with
  | [] => Err NoLanguages
  | _ :: _ =>
      let preferredLanguages := preferred_languages header in
      if (length preferredLanguages =? 0)%nat && negb (String.eqb defaultLanguage "")
      then default_tag defaultLanguage else
      let matchedTag := List.nth (MatchTags languages preferredLanguages).1 languages Und in
      if IsRoot matchedTag
      then if negb (String.eqb defaultLanguage "") then default_tag defaultLanguage else Err NoSupported
      else Ok matchedTag
  end%bool.

Definition GetLang (r : param_request) (defaultLanguage : string) (languages : list Tag) : result lang_error Tag :=
  match languages with
  | [] => Err NoLanguages
  | _ :: _ =>
      let l10n := GetParam "l10n" "" r in
      if String.eqb l10n "" then GetAcceptLanguage (lr_AcceptLanguage r) defaultLanguage languages else
      match ParseTag l10n with
      | None => Err (InvalidTag l10n)
      | Some tag =>
          let '(index, no) := MatchTags languages [tag] in
          if no then Err (Unsupported l10n) else Ok (List.nth index languages Und)
      end
  end.

(** * The catalog (translations.go) *)

(** A translation: per language, keys and values (in some order; the keys of
    one language are distinct). *)
Record translation_spec := mkTranslation { tn_Lang : string; tn_KeysAndValues : list (string * string) }.
Abbreviation translations := (gmap string (list translation_spec)).

(** The names in [order] that exist, once each. *)
Definition listed_names (ts : translations) (order : list string) : list string :=
  keep_distinct (fun name => found (ts !! name)) [] order.

Definition translationWriteOrder (ts : translations) (order : list string) : list string :=
  let tail := listed_names ts order in
  let head := sort_strings (filter (fun name => name ∉ tail) (map_to_list ts).*1) in
  (head ++ tail)%list.

(** The messages compiled into a catalog, by the language's tag and key, its
    keys, and the values left out. [compiles] is the catalog's own compiler. *)
Record catalog := mkCatalog {
  ct_Messages : gmap (string * string) string;
  ct_Keys : list string;
  ct_Skipped : list (string * string * string);
}.

Definition write_value (compiles : string -> bool) (name lang : string) (c : catalog) (kv : string * string) : catalog :=
  if negb (compiles kv.2)
  then mkCatalog (ct_Messages c) (ct_Keys c) (ct_Skipped c ++ [(name, lang, kv.1)])%list
  else mkCatalog (<[(TagString (MakeTag lang), kv.1) := kv.2]> (ct_Messages c))
         (if contains_elem (ct_Keys c) kv.1 then ct_Keys c else ct_Keys c ++ [kv.1])%list (ct_Skipped c).

Definition write_spec (compiles : string -> bool) (name : string) (c : catalog) (tr : translation_spec) : catalog :=
  foldl (write_value compiles name (tn_Lang tr)) c (tn_KeysAndValues tr).

Definition write_translation (compiles : string -> bool) (ts : translations) (c : catalog) (name : string) : catalog :=
  foldl (write_spec compiles name) c (default [] (ts !! name)).

(** The default language is registered with an entry of its own. *)
Definition NewTranslations (compiles : string -> bool) (defaultLanguage : string) (ts : translations)
    (order : list string) : catalog :=
  let c := mkCatalog {[ (TagString (MakeTag defaultLanguage), "_") := "_" ]} [] [] in
  let c := foldl (write_translation compiles ts) c (translationWriteOrder ts order) in
  mkCatalog (ct_Messages c) (sort_strings (ct_Keys c)) (ct_Skipped c).

(** * What a client is handed *)

(** [strings.Split] at a text. *)
Fixpoint split_at (skip : nat) (cur s sep : string) : list string :=
  match s with
  | "" => [cur]
  | String c s' =>
      match skip with
      | S skip => split_at skip cur s' sep
      | O => if HasPrefix s sep then cur :: split_at (String.length sep - 1) "" s' sep
             else split_at 0 (cur ++ String c "") s' sep
      end
  end.
Definition SplitText (s sep : string) : list string := split_at 0 "" s sep.

Definition missing : string := "%!s(MISSING)".

Definition placeholder (i : nat) : string :=
  if (26 <=? i)%nat then "{{" ++ FormatInt (Z.of_nat i) ++ "}}"
  else "{{" ++ String (ascii_of_nat (97 + i)) "" ++ "}}".

(** The parts from the [i]th on, each followed by its placeholder but the last. *)
Fixpoint with_placeholders (i : nat) (parts : list string) : string :=
  match parts with
  | [] => ""
  | [p] => p
  | p :: parts => p ++ placeholder i ++ with_placeholders (S i) parts
  end.

(** [sprintf] is the printer of the negotiated language. *)
Definition translated_value (sprintf : string -> string) (key : string) : string :=
  with_placeholders 0 (SplitText (sprintf key) missing).

Definition TranslationGet (sprintf : string -> string) (keys : list string) (r : param_request) : gmap string string :=
  let keyParams := All (ParseQuery (lr_RawQuery r)) "key" in
  let keys := match keyParams with [] => keys | _ :: _ => keyParams end in
  list_to_map ((fun key => (key, translated_value sprintf key)) <$> keys).

(** * The language of a response *)

Lemma matched_supported languages preferred :
  languages <> [] -> List.nth (MatchTags languages preferred).1 languages Und ∈ languages.
Proof. intros Hne. apply list_elem_of_In, nth_In. by apply MatchTags_range. Qed.

(** A negotiated language is one the host supports, or the default. *)
Lemma GetAcceptLanguage_supported header d languages t :
  GetAcceptLanguage header d languages = Ok t -> t ∈ languages \/ ParseTag d = Some t.
Proof.
  unfold GetAcceptLanguage, default_tag. destruct languages as [|l0 languages]; [done|]. intros Hok.
  repeat case_match; simplify_eq; try (by right); left; by apply (matched_supported (l0 :: languages)).
Qed.

(** A response's language is one of the host's own or its configured
    default, whatever the URL and the headers say; and when the URL names none
    and the default is well formed there is always one: only a language in the
    URL can be refused. *)
Theorem language_negotiated (r : param_request) d languages :
  (forall t, GetLang r d languages = Ok t -> t ∈ languages \/ ParseTag d = Some t) /\
  (GetParam "l10n" "" r = "" -> languages <> [] -> is_Some (ParseTag d) -> d <> "" ->
   exists t, GetLang r d languages = Ok t).
Proof.
  split.
  - intros t. unfold GetLang. destruct languages as [|l0 languages]; [done|].
    set (ls := l0 :: languages). case_match; [by apply GetAcceptLanguage_supported|].
    destruct (ParseTag _); [|done]. destruct (MatchTags ls _) as [i no] eqn:Hmt. destruct no; [done|].
    intros Hok. simplify_eq. left. replace i with (MatchTags ls [t0]).1 by by rewrite Hmt.
    by apply (matched_supported ls).
  - intros Hp Hne [t Ht] Hd. unfold GetLang. destruct languages as [|l0 languages]; [done|].
    rewrite Hp. simpl (String.eqb "" ""). cbv iota. unfold GetAcceptLanguage, default_tag. rewrite Ht.
    apply String.eqb_neq in Hd. rewrite Hd. rewrite !andb_true_r. repeat case_match; try done; by eexists.
Qed.

(** * The order translations are written in *)

Lemma elem_of_names (ts : translations) name : name ∈ (map_to_list ts).*1 <-> is_Some (ts !! name).
Proof.
  rewrite list_elem_of_fmap. split.
  - intros ([k v'] & -> & Hin%elem_of_map_to_list). by eexists.
  - intros [v' Hv]. exists (name, v'). split; [done|]. by apply elem_of_map_to_list.
Qed.

Lemma listed_names_spec (ts : translations) order name :
  name ∈ listed_names ts order <-> name ∈ order /\ is_Some (ts !! name).
Proof.
  unfold listed_names. rewrite elem_of_keep_distinct, found_true, elem_of_nil. tauto.
Qed.

Lemma sort_strings_perm l : sort_strings l ≡ₚ l.
Proof. unfold sort_strings. apply merge_sort_Permutation. Qed.

Lemma write_order_perm ts order : translationWriteOrder ts order ≡ₚ (map_to_list ts).*1.
Proof.
  unfold translationWriteOrder. rewrite sort_strings_perm. apply NoDup_Permutation.
  - apply NoDup_app. split_and!.
    + apply NoDup_filter, NoDup_fst_map_to_list.
    + intros x [Hx _]%list_elem_of_filter. done.
    + apply NoDup_keep_distinct, NoDup_nil_2.
  - apply NoDup_fst_map_to_list.
  - intros x. rewrite elem_of_app, list_elem_of_filter, listed_names_spec, elem_of_names.
    split; [tauto|]. intros Hs. destruct (decide (x ∈ order)); tauto.
Qed.

(** * Last write wins *)

(** A list of writes, in order: the catalog's message is the last one's. *)
Definition last_write (tag key : string) (writes : list (string * string * string)) : option string :=
  last (omap (fun w => if decide (w.1 = (tag, key)) then Some w.2 else None) writes).

Definition value_writes (compiles : string -> bool) (tr : translation_spec) : list (string * string * string) :=
  omap (fun kv => if compiles kv.2 then Some (TagString (MakeTag (tn_Lang tr)), kv.1, kv.2) else None)
    (tn_KeysAndValues tr).

Definition translation_writes compiles (ts : translations) (name : string) :=
  mjoin (value_writes compiles <$> default [] (ts !! name)).

Lemma last_omap_app {A B} (f : A -> option B) (l k : list A) :
  last (omap f (l ++ k)%list) = match last (omap f k) with Some b => Some b | None => last (omap f l) end.
Proof.
  rewrite omap_app, last_app. done.
Qed.

Lemma write_spec_messages compiles name tr c tag key :
  ct_Messages (write_spec compiles name c tr) !! (tag, key) =
  match last_write tag key (value_writes compiles tr) with Some v' => Some v' | None => ct_Messages c !! (tag, key) end.
Proof.
  unfold write_spec, value_writes, last_write. revert c.
  induction (tn_KeysAndValues tr) as [|kv l IH] using rev_ind; intros c; [done|].
  rewrite foldl_app, omap_app, last_omap_app. simpl. unfold write_value at 1.
  destruct (compiles kv.2); simpl; [|by rewrite IH].
  destruct (decide _) as [Heq|Hne]; simpl.
  - by rewrite Heq, lookup_insert_eq.
  - rewrite lookup_insert_ne by done. apply IH.
Qed.

Lemma write_translation_messages compiles ts c name tag key :
  ct_Messages (write_translation compiles ts c name) !! (tag, key) =
  match last_write tag key (translation_writes compiles ts name) with
  | Some v' => Some v' | None => ct_Messages c !! (tag, key) end.
Proof.
  unfold write_translation, translation_writes. revert c.
  induction (default [] (ts !! name)) as [|tr l IH] using rev_ind; intros c; [done|].
  rewrite foldl_app, fmap_app, join_app. simpl. rewrite write_spec_messages, app_nil_r.
  unfold last_write. rewrite last_omap_app. fold (last_write tag key (value_writes compiles tr)).
  destruct (last_write tag key (value_writes compiles tr)); [done|]. apply IH.
Qed.

Lemma write_all_messages compiles ts names c tag key :
  ct_Messages (foldl (write_translation compiles ts) c names) !! (tag, key) =
  match last_write tag key (mjoin (translation_writes compiles ts <$> names)) with
  | Some v' => Some v' | None => ct_Messages c !! (tag, key) end.
Proof.
  revert c. induction names as [|name names IH] using rev_ind; intros c; [done|].
  rewrite foldl_app, fmap_app, join_app. simpl. rewrite write_translation_messages, app_nil_r.
  unfold last_write. rewrite last_omap_app. fold (last_write tag key (translation_writes compiles ts name)).
  destruct (last_write tag key (translation_writes compiles ts name)); [done|]. apply IH.
Qed.

(** Precedence between translations: every translation is written exactly
    once, the ones the host's order does not list first, and a message's text
    is the last value the catalog could compile for its language and key, so a
    value that does not compile never shadows one that does. *)
Theorem translation_precedence compiles d (ts : translations) order tag key :
  translationWriteOrder ts order ≡ₚ (map_to_list ts).*1 /\
  (exists unlisted, translationWriteOrder ts order = (unlisted ++ listed_names ts order)%list /\
     forall name, name ∈ unlisted -> name ∉ order) /\
  (key <> "_" ->
   ct_Messages (NewTranslations compiles d ts order) !! (tag, key) =
   last_write tag key (mjoin (translation_writes compiles ts <$> translationWriteOrder ts order))).
Proof.
  split_and!; [apply write_order_perm|..].
  - eexists. split; [reflexivity|]. intros name. rewrite sort_strings_perm, list_elem_of_filter, elem_of_names.
    intros [Hn Hs] Ho. apply Hn, listed_names_spec. done.
  - intros Hk. unfold NewTranslations. simpl. rewrite write_all_messages. case_match; [done|]. simpl.
    apply lookup_singleton_ne. congruence.
Qed.
End Negotiation.

(** * A host with two languages *)

Definition languagesExample : LanguageTags.
Proof.
  refine {|
    Tag := string; Und := "und"; MakeTag := fun s => s; TagString := fun s => s;
    ParseTag := fun s => if String.eqb s "" then None else Some s;
    IsRoot := fun s => String.eqb s "und";
    MatchTags := fun supported preferred =>
      match list_find (fun t => t ∈ preferred) supported with Some (i, _) => (i, false) | None => (O, true) end |}.
  intros supported preferred Hne. destruct (list_find _ _) as [[i t]|] eqn:Hf.
  - apply list_find_Some in Hf as (Hl & _). by apply lookup_lt_Some in Hl.
  - destruct supported; simpl; [done|lia].
Defined.

#[local] Existing Instance languagesExample.

Example negotiated_french :
  GetLang (mkParamRequest (fun _ => "") "" "de;q=0.9, fr") "en" ["en"; "fr"] = Ok "fr".
Proof. reflexivity. Qed.

Example refused_german :
  GetLang (mkParamRequest (fun _ => "") "l10n=de" "fr") "en" ["en"; "fr"] = Err (Unsupported "de").
Proof. reflexivity. Qed.

Example placeholders :
  translated_value (fun _ => "from %!s(MISSING) to %!s(MISSING).") "trip" = "from {{a}} to {{b}}.".
Proof. reflexivity. Qed.

Lemma language_negotiated_witness :
  exists t, GetLang (mkParamRequest (fun _ => "") "" "xx") "en" ["en"; "fr"] = Ok t.
Proof.
  apply (@language_negotiated languagesExample (mkParamRequest (fun _ => "") "" "xx") "en" ["en"; "fr"]);
    [reflexivity|done|by eexists|done].
Defined.

(** The example's host-declared value wins where it compiles. *)
Definition translationsExample : gmap string (list translation_spec) :=
  {[ "host" := [mkTranslation "fr" [("bye", "salut"); ("price", "${")]];
     "base" := [mkTranslation "fr" [("bye", "adieu"); ("price", "prix")]] ]}.

Lemma translation_precedence_witness :
  ct_Messages (NewTranslations (fun s => negb (Contains s "${")) "en" translationsExample ["host"]) !! ("fr", "price") =
  Some "prix".
Proof.
  etransitivity; [|reflexivity].
  apply (@translation_precedence languagesExample (fun s => negb (Contains s "${")) "en" translationsExample ["host"] "fr" "price").
  done.
Defined.
