(* ===== verification/Response.v ===== *)
(** Responses (src/internal/host/ew.go, accept.go, compress.go,
    security_headers.go; the caching headers of funcs.go; unwrap of
    feedback.go; serveError of host.go): the writer that captures an error,
    the error page put in its place, and the headers of a host's own renders. *)
From S2P Require Import Prelude GoStr Deps Claims Clients Url Proxy Languages.
From Stdlib Require Import Ascii.

#[local] Open Scope string_scope.

(** * net/http's response writer *)

(** The header map the handlers share, the status and headers once sent, the
    informational statuses sent before, and the body. *)
Record writer := mkWriter {
  w_Header : headers;
  w_Sent : option (Z * headers);
  w_Interim : list Z;
  w_Body : string;
}.

Definition fresh : writer := mkWriter ∅ None [] "".

(** What a handler does to the writer it is given; [PreserveHeader] is
    [auth.PreserveHeader]. *)
Inductive write_op :=
| EditHeader (f : headers -> headers)
| PreserveHeader (name v : string)
| WriteHeader (code : Z)
| WriteBody (b : string)
| Flush.

Definition edit_header (f : headers -> headers) (w : writer) : writer :=
  mkWriter (f (w_Header w)) (w_Sent w) (w_Interim w) (w_Body w).

(** 101 ends the response; the other 1xx announce one. *)
Definition informational (code : Z) : bool := ((100 <=? code) && (code <=? 199) && negb (code =? 101))%Z%bool.

(** Only the first final status counts. *)
Definition send_header (code : Z) (w : writer) : writer :=
  match w_Sent w with
  | Some _ => w
  | None =>
      if informational code then mkWriter (w_Header w) None (w_Interim w ++ [code])%list (w_Body w)
      else mkWriter (w_Header w) (Some (code, w_Header w)) (w_Interim w) (w_Body w)
  end.

Definition bodyAllowed (status : Z) : bool :=
  negb (((100 <=? status) && (status <=? 199)) || (status =? 204) || (status =? 304))%Z%bool.

Definition send_body (b : string) (w : writer) : writer :=
  let w := send_header 200 w in
  match w_Sent w with
  | Some (status, _) =>
      if bodyAllowed status then mkWriter (w_Header w) (w_Sent w) (w_Interim w) (w_Body w ++ b) else w
  | None => w
  end.

(** The writer of a server: a header's provenance is not recorded. *)
Definition raw_step (w : writer) (op : write_op) : writer :=
  match op with
  | EditHeader f => edit_header f w
  | PreserveHeader name v => edit_header (HeaderSet name v) w
  | WriteHeader code => send_header code w
  | WriteBody b => send_body b w
  | Flush => send_header 200 w
  end.

Definition raw_run (w : writer) (ops : list write_op) : writer := foldl raw_step w ops.

(** [http.Error]. *)
Definition http_Error (msg : string) (code : Z) : list write_op :=
  [EditHeader (HeaderDel "Content-Length");
   EditHeader (HeaderSet "Content-Type" "text/plain; charset=utf-8");
   EditHeader (HeaderSet "X-Content-Type-Options" "nosniff");
   WriteHeader code;
   WriteBody (msg ++ String (ascii_of_nat 10) "")].

(** * The error capture (ew.go) *)

Record errorResponseWriter := mkEW {
  ew_Writer : writer;
  ew_statusCode : Z;
  ew_statusMsg : string;
  ew_wroteHeader : bool;
  ew_preserved : gmap string string;
}.

Definition capture (w : writer) : errorResponseWriter := mkEW w 0 "" false ∅.

Definition on_writer (f : writer -> writer) (ew : errorResponseWriter) : errorResponseWriter :=
  mkEW (f (ew_Writer ew)) (ew_statusCode ew) (ew_statusMsg ew) (ew_wroteHeader ew) (ew_preserved ew).

Definition ew_PreserveHeader (name v : string) (ew : errorResponseWriter) : errorResponseWriter :=
  mkEW (edit_header (HeaderSet name v) (ew_Writer ew)) (ew_statusCode ew) (ew_statusMsg ew) (ew_wroteHeader ew)
    (<[CanonicalHeaderKey name := v]> (ew_preserved ew)).

Definition ew_WriteHeader (code : Z) (ew : errorResponseWriter) : errorResponseWriter :=
  if ew_wroteHeader ew then ew
  else if (code <? 200)%Z then on_writer (send_header code) ew
  else if (400 <=? code)%Z
  then mkEW (ew_Writer ew) code (ew_statusMsg ew) false (ew_preserved ew)
  else mkEW (send_header code (ew_Writer ew)) code (ew_statusMsg ew) true (ew_preserved ew).

Definition ew_Write (b : string) (ew : errorResponseWriter) : errorResponseWriter :=
  if (400 <=? ew_statusCode ew)%Z
  then mkEW (ew_Writer ew) (ew_statusCode ew) (ew_statusMsg ew ++ b) (ew_wroteHeader ew) (ew_preserved ew)
  else
    let ew := if ew_wroteHeader ew then ew else ew_WriteHeader 200 ew in
    on_writer (send_body b) ew.

Definition ew_Flush (ew : errorResponseWriter) : errorResponseWriter :=
  if (400 <=? ew_statusCode ew)%Z then ew else on_writer (send_header 200) ew.

Definition ew_step (ew : errorResponseWriter) (op : write_op) : errorResponseWriter :=
  match op with
  | EditHeader f => on_writer (edit_header f) ew
  | PreserveHeader name v => ew_PreserveHeader name v ew
  | WriteHeader code => ew_WriteHeader code ew
  | WriteBody b => ew_Write b ew
  | Flush => ew_Flush ew
  end.

Definition ew_run (w : writer) (ops : list write_op) : errorResponseWriter := foldl ew_step (capture w) ops.

(** * Vary (funcs.go, compress.go) *)

Definition HeaderValues (h : headers) (name : string) : list string := default [] (h !! CanonicalHeaderKey name).

Definition HeaderAdd (name v : string) (h : headers) : headers :=
  <[CanonicalHeaderKey name := (HeaderValues h name ++ [v])%list]> h.

Definition vary_fields (values : list string) : list string :=
  mjoin ((fun v => (fun f => ToLower (TrimSpace f)) <$> Split "," v) <$> values).

Definition add_vary_field (acc : headers * list string) (f : string) : headers * list string :=
  let f := TrimSpace f in
  if (String.eqb f "" || contains_elem acc.2 (ToLower f))%bool then acc
  else (HeaderAdd "Vary" f acc.1, ToLower f :: acc.2).

Definition addVary (vary : string) (h : headers) : headers :=
  (foldl add_vary_field (h, vary_fields (HeaderValues h "Vary")) (Split "," vary)).1.

Definition varyHas (h : headers) (field : string) : bool :=
  existsb (fun v => existsb (fun f => EqualFold (TrimSpace f) field) (Split "," v)) (HeaderValues h "Vary").

(** * Security headers (security_headers.go) *)

Definition defaultHSTSMaxAge : Z := 31536000.

Record HSTS := mkHSTS { hs_MaxAge : option Z; hs_IncludeSubDomains : bool; hs_Preload : bool }.

Definition hstsHeaderValue (scheme : string) (h : option HSTS) : string :=
  if negb (EqualFold scheme "https") then "" else
  let maxAge := default defaultHSTSMaxAge (h ≫= hs_MaxAge) in
  let v := "max-age=" ++ FormatInt maxAge in
  match h with
  | None => v
  | Some h =>
      let v := if hs_IncludeSubDomains h then v ++ "; includeSubDomains" else v in
      if hs_Preload h then v ++ "; preload" else v
  end.

Definition setTransportSecurityHeaders (hsts : string) (h : headers) : headers :=
  let h := HeaderSet "X-Content-Type-Options" "nosniff" h in
  if String.eqb hsts "" then h else HeaderSet "Strict-Transport-Security" hsts h.

Definition setPageSecurityHeaders (hsts : string) (h : headers) : headers :=
  setTransportSecurityHeaders hsts
    (HeaderSet "Referrer-Policy" "strict-origin-when-cross-origin"
      (HeaderSet "Content-Security-Policy" "frame-ancestors 'self'"
        (HeaderSet "X-Frame-Options" "SAMEORIGIN" h))).

Definition acceptsHTML (request : headers) : bool := Contains (HeaderGet request "Accept") "text/html".

(** * The error page (host.go, feedback.go) *)

Section ErrorPage.
Context `{!LanguageTags}.

(** What [serveError] reads of the host, and the request. [hv_render] renders
    the error utility page in a language, for a status and a message: "" when
    there is none, or when it does not render. *)
Record host_view := mkHostView {
  hv_hsts : string;
  hv_defaultLanguage : string;
  hv_languages : list Tag;
  hv_render : Tag -> Z -> string -> string;
}.

Record page_request := mkPageRequest { pr_Header : headers; pr_params : param_request }.

Definition error_language (hv : host_view) (r : page_request) : Tag :=
  match GetLang (pr_params r) (hv_defaultLanguage hv) (hv_languages hv) with
  | Ok l => l
  | Err _ => MakeTag (hv_defaultLanguage hv)
  end.

Definition serveError (hv : host_view) (r : page_request) (code : Z) (msg : string) : list write_op :=
  let l := error_language hv r in
  let rendered := hv_render hv l code msg in
  [EditHeader (setPageSecurityHeaders (hv_hsts hv)); EditHeader (addVary "Accept-Language")] ++
  (if String.eqb rendered "" then http_Error msg code
   else [EditHeader (HeaderSet "Content-Type" "text/html"); EditHeader (HeaderSet "Content-Language" (TagString l));
         WriteHeader code; WriteBody rendered]).

(** [header.Set] of what this process recorded, on a map wiped clean. *)
Definition restored (preserved : gmap string string) : headers :=
  map_fold (fun k v h => HeaderSet k v h) ∅ preserved.

Definition wiped (ew : errorResponseWriter) : headers :=
  let varyAcceptEncoding := varyHas (w_Header (ew_Writer ew)) "Accept-Encoding" in
  let h := restored (ew_preserved ew) in
  if varyAcceptEncoding then addVary "Accept-Encoding" h else h.

Definition unwrap (hv : host_view) (r : page_request) (ew : errorResponseWriter) : writer :=
  let w := ew_Writer ew in
  if negb (400 <=? ew_statusCode ew)%Z then w
  else if acceptsHTML (pr_Header r)
  then raw_run (edit_header (fun _ => wiped ew) w) (serveError hv r (ew_statusCode ew) (ew_statusMsg ew))
  else
    let text h := if String.eqb (HeaderGet h "Content-Type") "" then HeaderSet "Content-Type" "text/plain; charset=utf-8" h
                  else h in
    raw_run w [EditHeader text; WriteHeader (ew_statusCode ew); WriteBody (ew_statusMsg ew)].

(** [DesignMiddleware]'s path for a request its sniffer leaves alone. *)
Definition captured (hv : host_view) (r : page_request) (w : writer) (ops : list write_op) : writer :=
  unwrap hv r (ew_run w ops).
End ErrorPage.

(** * Caching headers (funcs.go) *)

Definition privateCacheControl : string := "private, no-cache, must-revalidate".
Definition publicCacheControl : string := "public, max-age=3600, must-revalidate".

(** [http.TimeFormat] and [http.ParseTime]. *)
Class HTTPDates := { FormatHTTP : Z -> string; ParseHTTP : string -> option Z }.

Section Caching.
Context `{!HTTPDates} `{!Sha256}.

Definition acceptEncodingSeed (method : string) (request : headers) : string :=
  if String.eqb method "HEAD" then "" else
  let ae := TrimSpace (HeaderGet request "Accept-Encoding") in
  if String.eqb ae "" then "" else "ae-" ++ String.substring 0 8 (sha256hex ae).

(** [marshal] is [json.Marshal] of the context, which may refuse it. *)
Definition getUserHash (marshal : claims -> option string) (ctx : option AuthContext) : option string :=
  match ctx with
  | None => Some "anon"
  | Some ac =>
      if bool_decide (ac = ∅) then Some "anon"
      else (fun b => String.substring 0 16 (sha256hex b)) <$> marshal ac
  end.

Definition uncacheableIdentity (random : string) : string := "uncacheable-" ++ random.

Definition etagListMatches (values : list string) (etag : string) : bool :=
  let etag := TrimPrefix etag "W/" in
  existsb (fun v => existsb (fun tag =>
    let tag := TrimSpace tag in (String.eqb tag "*" || String.eqb (TrimPrefix tag "W/") etag)%bool) (Split "," v)) values.

Definition notModified (request : headers) (etag : string) (lastModified : Z) : bool :=
  let inm := HeaderValues request "If-None-Match" in
  if negb (String.eqb (TrimSpace (Join inm "")) "") then etagListMatches inm etag else
  let since := HeaderGet request "If-Modified-Since" in
  if String.eqb since "" then false else
  match ParseHTTP since with Some t => negb (after lastModified t) | None => false end.

Definition isPrivateResponse (authEnabled : bool) (requirements : nat) : bool :=
  (authEnabled && (0 <? requirements)%nat)%bool.

(** [requirements] is how many there are, [hash] what [getUserHash] answered,
    [random] the identity drawn for a caller it cannot key; [lastModified] is
    [None] for the zero time. The headers, and whether the answer is a 304. *)
Record caching := mkCaching {
  ca_authEnabled : bool;
  ca_requirements : nat;
  ca_hash : option string;
  ca_random : string;
  ca_lastModified : option Z;
  ca_reconcileTime : Z;
  ca_language : string;
  ca_seed : string;
}.

Definition suffix (s : string) : string := if String.eqb s "" then "" else ":" ++ s.

Definition ca_private (c : caching) : bool := isPrivateResponse (ca_authEnabled c) (ca_requirements c).

Definition ca_modified (c : caching) : Z := unix (default (ca_reconcileTime c) (ca_lastModified c)).

Definition ca_identity (c : caching) : string :=
  if ca_private c then ":" ++ default (uncacheableIdentity (ca_random c)) (ca_hash c) else "".

Definition etag_of (c : caching) (coding : string) : string :=
  quote ++ FormatInt (ca_modified c) ++ suffix (ca_language c) ++ suffix (ca_seed c) ++ coding ++ ca_identity c ++ quote.

Definition applyCachingHeadersWithSeed (c : caching) (method : string) (request : headers) (h : headers)
    : headers * bool :=
  let h := HeaderSet "Cache-Control" (if ca_private c then privateCacheControl else publicCacheControl) h in
  let h := addVary (if ca_private c then "Accept-Language, Authorization, Cookie" else "Accept-Language") h in
  let coding := if varyHas h "Accept-Encoding" then suffix (acceptEncodingSeed method request) else "" in
  let etag := etag_of c coding in
  let h := HeaderSet "ETag" etag (HeaderSet "Last-Modified" (FormatHTTP (ca_modified c)) h) in
  (h, notModified request etag (of_unix (ca_modified c))).
End Caching.
