(* ===== verification/ResponseSpec.v ===== *)
(** What the responses keep: an error page carries only headers this process
    wrote, the error capture is transparent to a handler that succeeds, and a
    304 is answered for the variant the client holds. *)
From S2P Require Import Prelude GoStr Deps Claims Clients Url Proxy ProxySpec Languages Response.
From Stdlib Require Import Ascii.

#[local] Open Scope string_scope.

(** * Header names *)

Lemma token_byte_up c (b : bool) :
  token_byte c = true ->
  token_byte (if b then (if ((97 <=? N_of_ascii c) && (N_of_ascii c <=? 122))%N%bool
                         then ascii_of_N (N_of_ascii c - 32) else c) else lower_byte c) = true.
Proof. destruct b, c as [[] [] [] [] [] [] [] []]; vm_compute; congruence. Qed.

Lemma canonical_byte_idem c (b : bool) :
  let up (b : bool) c := if b then (if ((97 <=? N_of_ascii c) && (N_of_ascii c <=? 122))%N%bool
                         then ascii_of_N (N_of_ascii c - 32) else c) else lower_byte c in
  up b (up b c) = up b c /\ Ascii.eqb (up b c) "-" = Ascii.eqb c "-".
Proof. destruct b, c as [[] [] [] [] [] [] [] []]; vm_compute; split; reflexivity. Qed.

Lemma canonical_tokens s : forall b, all_bytes token_byte s = true -> all_bytes token_byte (canonical b s) = true.
Proof.
  induction s as [|c s IH]; intros b; [done|]. simpl. intros [Hc Hs]%andb_prop.
  rewrite (token_byte_up c b Hc). simpl. by apply IH.
Qed.

Lemma canonical_idem s : forall b, canonical b (canonical b s) = canonical b s.
Proof.
  induction s as [|c s IH]; intros b; [done|]. destruct (canonical_byte_idem c b) as [Hi Hd].
  cbn [canonical]. cbv zeta in Hi, Hd |- *. rewrite Hd, IH. f_equal. exact Hi.
Qed.

Lemma CanonicalHeaderKey_idem s : CanonicalHeaderKey (CanonicalHeaderKey s) = CanonicalHeaderKey s.
Proof.
  unfold CanonicalHeaderKey. destruct (all_bytes token_byte s) eqn:Hs.
  - rewrite canonical_tokens by done. apply canonical_idem.
  - by rewrite Hs.
Qed.

(** * What the capture records *)

Lemma ew_run_snoc w ops op : ew_run w (ops ++ [op])%list = ew_step (ew_run w ops) op.
Proof. unfold ew_run. by rewrite foldl_app. Qed.

Lemma ew_WriteHeader_preserved code ew : ew_preserved (ew_WriteHeader code ew) = ew_preserved ew.
Proof. unfold ew_WriteHeader. by cases. Qed.

Lemma ew_step_preserved ew op k v :
  ew_preserved (ew_step ew op) !! k = Some v ->
  ew_preserved ew !! k = Some v \/ exists name, op = PreserveHeader name v /\ CanonicalHeaderKey name = k.
Proof.
  destruct op as [f|name v0|code|b|]; simpl.
  - by left.
  - intros [[<- <-]|[_ Hl]]%lookup_insert_Some; [right; by eexists|by left].
  - rewrite ew_WriteHeader_preserved. by left.
  - unfold ew_Write. case_match; [by left|]. cbv zeta. case_match; simpl; [by left|].
    rewrite ew_WriteHeader_preserved. by left.
  - unfold ew_Flush. case_match; by left.
Qed.

Lemma ew_run_preserved w ops k v :
  ew_preserved (ew_run w ops) !! k = Some v ->
  exists name, PreserveHeader name v ∈ ops /\ CanonicalHeaderKey name = k.
Proof.
  induction ops as [|op ops IH] using rev_ind; [by intros Hl; simpl in Hl; rewrite lookup_empty in Hl|].
  rewrite ew_run_snoc. intros [Hl|(name & -> & Hk)]%ew_step_preserved.
  - destruct (IH Hl) as (name & Hin & Hk). exists name. split; [|done]. apply elem_of_app. by left.
  - exists name. split; [|done]. apply elem_of_app. right. by apply list_elem_of_singleton.
Qed.

Lemma restored_spec preserved k vs :
  restored preserved !! k = Some vs ->
  exists k' v, preserved !! k' = Some v /\ CanonicalHeaderKey k' = k /\ vs = [v].
Proof.
  unfold restored. revert vs.
  apply (map_fold_weak_ind (fun h preserved => forall vs, h !! k = Some vs ->
    exists k' v, preserved !! k' = Some v /\ CanonicalHeaderKey k' = k /\ vs = [v])).
  - intros vs Hl. by rewrite lookup_empty in Hl.
  - intros i x mm h Hnone IH vs. unfold HeaderSet. intros [[Hk <-]|[_ Hl]]%lookup_insert_Some.
    + exists i, x. by rewrite lookup_insert_eq.
    + destruct (IH vs Hl) as (k' & v' & Hl' & Hk & Hvs). exists k', v'.
      rewrite lookup_insert_ne by congruence. done.
Qed.

(** Nothing reaches the client before the status is known. *)
Lemma send_header_sent code w : w_Sent (send_header code w) = None -> w_Body (send_header code w) = w_Body w /\ w_Sent w = None.
Proof. unfold send_header. destruct (w_Sent w) eqn:Hs; [congruence|]. by destruct (informational code). Qed.

Lemma send_header_final code w :
  (200 <= code)%Z -> w_Sent w = None -> w_Sent (send_header code w) = Some (code, w_Header w).
Proof.
  intros Hc Hs. unfold send_header. rewrite Hs. replace (informational code) with false; [done|].
  unfold informational. symmetry. rewrite !andb_false_iff. lia.
Qed.

Lemma send_header_body code w : w_Body (send_header code w) = w_Body w.
Proof. unfold send_header. destruct (w_Sent w); [done|]. by destruct (informational code). Qed.

Lemma send_header_header code w : w_Header (send_header code w) = w_Header w.
Proof. unfold send_header. destruct (w_Sent w); [done|]. by destruct (informational code). Qed.

Lemma send_header_200 w : is_Some (w_Sent (send_header 200 w)).
Proof. unfold send_header. destruct (w_Sent w) eqn:Hs; [by rewrite Hs|]. simpl. by eexists. Qed.

Lemma send_body_sent b w : is_Some (w_Sent (send_body b w)).
Proof.
  destruct (send_header_200 w) as [[st h] Hs]. unfold send_body. cbv zeta. rewrite Hs. case_match; simpl; by eexists.
Qed.

Lemma ew_step_unsent ew op :
  w_Sent (ew_Writer (ew_step ew op)) = None ->
  w_Sent (ew_Writer ew) = None /\ w_Body (ew_Writer (ew_step ew op)) = w_Body (ew_Writer ew).
Proof.
  destruct op as [f|name v0|code|b|]; simpl; [done|done|..].
  - unfold ew_WriteHeader. repeat (case_match; simpl; try done);
      (intros Hs; split; [by apply send_header_sent in Hs as [_ ?]|by apply send_header_body]).
  - unfold ew_Write. case_match; [done|]. cbv zeta.
    intros Hs. exfalso. unfold on_writer in Hs. simpl in Hs.
    destruct (send_body_sent b (ew_Writer (if ew_wroteHeader ew then ew else ew_WriteHeader 200 ew))) as [x Hx].
    by rewrite Hs in Hx.
  - unfold ew_Flush. case_match; [done|]. simpl. intros Hs. exfalso.
    destruct (send_header_200 (ew_Writer ew)) as [x Hx]. by rewrite Hs in Hx.
Qed.

Lemma ew_run_unsent w ops :
  w_Sent (ew_Writer (ew_run w ops)) = None -> w_Body (ew_Writer (ew_run w ops)) = w_Body w.
Proof.
  induction ops as [|op ops IH] using rev_ind; [done|]. rewrite ew_run_snoc.
  intros [Hs Hb]%ew_step_unsent. rewrite Hb. by apply IH.
Qed.

(** * Vary *)

Lemma HeaderValues_add name v h : HeaderValues (HeaderAdd name v h) name = (HeaderValues h name ++ [v])%list.
Proof. unfold HeaderValues at 1, HeaderAdd. by rewrite lookup_insert_eq. Qed.

Lemma addVary_other vary h k : k <> "Vary" -> addVary vary h !! k = h !! k.
Proof.
  intros Hk. unfold addVary. generalize (vary_fields (HeaderValues h "Vary")). revert h.
  induction (Split "," vary) as [|f fs IH]; intros h present; [done|]. simpl. unfold add_vary_field at 2. cbv zeta.
  case_match; [apply IH|]. simpl. rewrite IH. unfold HeaderAdd. apply lookup_insert_ne. done.
Qed.

Lemma vary_fields_app l l' : vary_fields (l ++ l')%list = (vary_fields l ++ vary_fields l')%list.
Proof. unfold vary_fields. by rewrite fmap_app, join_app. Qed.

Lemma varyHas_spec h field : varyHas h field = true <-> ToLower field ∈ vary_fields (HeaderValues h "Vary").
Proof.
  unfold varyHas, vary_fields. rewrite existsb_exists, list_elem_of_join. split.
  - intros (v & Hv & Hf). apply existsb_exists in Hf as (f & Hin & Hf). unfold EqualFold in Hf.
    apply String.eqb_eq in Hf. exists ((fun f => ToLower (TrimSpace f)) <$> Split "," v). split.
    + rewrite <- Hf. apply (list_elem_of_fmap_2 (fun f => ToLower (TrimSpace f))). by apply list_elem_of_In.
    + apply (list_elem_of_fmap_2 (fun v => (fun f => ToLower (TrimSpace f)) <$> Split "," v)). by apply list_elem_of_In.
  - intros (l & Hin & (v & -> & Hv)%list_elem_of_fmap). exists v. split; [by apply list_elem_of_In|].
    apply list_elem_of_fmap in Hin as (f & Hf & Hf'). apply existsb_exists. exists f.
    split; [by apply list_elem_of_In|]. unfold EqualFold. apply String.eqb_eq. done.
Qed.

(** The fields listed, as the fold adds one: a field is never dropped, and one
    that is asked for is listed. *)
Lemma add_vary_mono acc f x :
  x ∈ vary_fields (HeaderValues acc.1 "Vary") -> x ∈ vary_fields (HeaderValues (add_vary_field acc f).1 "Vary").
Proof.
  intros Hx. unfold add_vary_field. cbv zeta. case_match; [done|]. simpl.
  rewrite HeaderValues_add, vary_fields_app, elem_of_app. by left.
Qed.

Lemma fold_vary_mono fs : forall acc x,
  x ∈ vary_fields (HeaderValues acc.1 "Vary") -> x ∈ vary_fields (HeaderValues (foldl add_vary_field acc fs).1 "Vary").
Proof. induction fs as [|f fs IH]; intros acc x Hx; [done|]. simpl. by apply IH, add_vary_mono. Qed.

Lemma addVary_keeps vary h field : varyHas h field = true -> varyHas (addVary vary h) field = true.
Proof. rewrite !varyHas_spec. apply (fold_vary_mono _ (h, _)). Qed.

Definition plain_field (f : string) : Prop := TrimSpace f = f /\ Split "," f = [f] /\ f <> "".

(** The fold's second component lists nothing the header does not. *)
Lemma add_vary_inv acc f :
  plain_field (TrimSpace f) -> (forall x, x ∈ acc.2 -> x ∈ vary_fields (HeaderValues acc.1 "Vary")) ->
  let acc' := add_vary_field acc f in
  (forall x, x ∈ acc'.2 -> x ∈ vary_fields (HeaderValues acc'.1 "Vary")) /\
  ToLower (TrimSpace f) ∈ vary_fields (HeaderValues acc'.1 "Vary").
Proof.
  intros (Ht & Hs & Hne) Hacc. cbv zeta. unfold add_vary_field. cbv zeta.
  apply String.eqb_neq in Hne. rewrite Hne. simpl.
  destruct (contains_elem acc.2 _) eqn:Hc.
  { split; [done|]. apply contains_elem_spec in Hc. by apply Hacc. }
  simpl. rewrite HeaderValues_add, vary_fields_app.
  assert (Hf : ToLower (TrimSpace f) ∈ vary_fields [TrimSpace f]).
  { unfold vary_fields. simpl. rewrite Hs. simpl. rewrite Ht. by apply list_elem_of_singleton. }
  split; [|apply elem_of_app; by right].
  intros x [->|Hx]%elem_of_cons; apply elem_of_app; [by right|left; by apply Hacc].
Qed.

Lemma fold_vary_adds fs : forall acc,
  (forall x, x ∈ acc.2 -> x ∈ vary_fields (HeaderValues acc.1 "Vary")) ->
  Forall (fun f => plain_field (TrimSpace f)) fs ->
  forall f, f ∈ fs -> ToLower (TrimSpace f) ∈ vary_fields (HeaderValues (foldl add_vary_field acc fs).1 "Vary").
Proof.
  induction fs as [|f0 fs IH]; intros acc Hacc Hp f Hf; [by apply elem_of_nil in Hf|].
  apply Forall_cons in Hp as [Hp0 Hp]. destruct (add_vary_inv acc f0 Hp0 Hacc) as [Hinv Hin]. simpl.
  apply elem_of_cons in Hf as [->|Hf]; [by apply fold_vary_mono|by apply IH].
Qed.

Lemma addVary_adds vary h :
  Forall (fun f => plain_field (TrimSpace f)) (Split "," vary) ->
  forall f, f ∈ Split "," vary -> varyHas (addVary vary h) (TrimSpace f) = true.
Proof. intros Hp f Hf. apply varyHas_spec. unfold addVary. apply fold_vary_adds; [done|done|done]. Qed.

(** * The error page *)

Definition own_headers : list string :=
  ["X-Frame-Options"; "Content-Security-Policy"; "Referrer-Policy"; "X-Content-Type-Options";
   "Strict-Transport-Security"; "Vary"; "Content-Type"; "Content-Language"].

Lemma security_headers_own hsts h k : k ∉ own_headers -> setPageSecurityHeaders hsts h !! k = h !! k.
Proof.
  intros Hk. unfold setPageSecurityHeaders, setTransportSecurityHeaders.
  case_match; rewrite !lookup_HeaderSet;
    repeat (case_decide as Hd; [exfalso; apply Hk; rewrite Hd; by apply contains_elem_spec|clear Hd]); done.
Qed.

Lemma bodyAllowed_error status : (400 <= status)%Z -> bodyAllowed status = true.
Proof. intros Hs. unfold bodyAllowed. apply negb_true_iff. rewrite !orb_false_iff, andb_false_iff. lia. Qed.

(** Headers edited, a status, a body: the response it makes. *)
Lemma send_error f code body w :
  (400 <= code)%Z -> w_Sent w = None ->
  w_Sent (send_body body (send_header code (edit_header f w))) = Some (code, f (w_Header w)) /\
  w_Body (send_body body (send_header code (edit_header f w))) = w_Body w ++ body.
Proof.
  intros Hc Hs. assert (Hs1 := send_header_final code (edit_header f w) ltac:(lia) Hs).
  set (w1 := send_header code (edit_header f w)) in *. unfold send_body. cbv zeta.
  assert (Hw : send_header 200 w1 = w1) by (unfold send_header at 1; by rewrite Hs1).
  rewrite Hw, Hs1. rewrite (bodyAllowed_error code Hc). simpl. split; [done|].
  f_equal. unfold w1. by rewrite send_header_body.
Qed.

Section Page.
Context `{!LanguageTags}.

Definition error_body (hv : host_view) (r : page_request) (code : Z) (msg : string) : string :=
  let rendered := hv_render hv (error_language hv r) code msg in
  if String.eqb rendered "" then msg ++ String (ascii_of_nat 10) "" else rendered.

Lemma serveError_response hv r code msg w :
  (400 <= code)%Z -> w_Sent w = None ->
  exists h, w_Sent (raw_run w (serveError hv r code msg)) = Some (code, h) /\
    w_Body (raw_run w (serveError hv r code msg)) = w_Body w ++ error_body hv r code msg /\
    (forall k vs, k ∉ own_headers -> h !! k = Some vs -> w_Header w !! k = Some vs) /\
    (forall k, k ∉ own_headers -> k <> "Content-Length" -> h !! k = w_Header w !! k).
Proof.
  intros Hc Hs. unfold serveError, error_body. cbv zeta.
  set (page := hv_render hv (error_language hv r) code msg).
  set (h0 := addVary "Accept-Language" (setPageSecurityHeaders (hv_hsts hv) (w_Header w))).
  assert (Hh0 : forall k, k ∉ own_headers -> h0 !! k = w_Header w !! k).
  { intros k Hk. unfold h0. rewrite addVary_other; [by apply security_headers_own|].
    intros ->. apply Hk. by apply contains_elem_spec. }
  destruct (String.eqb page ""); unfold raw_run; simpl.
  - destruct (send_error (fun _ => HeaderSet "X-Content-Type-Options" "nosniff"
      (HeaderSet "Content-Type" "text/plain; charset=utf-8" (HeaderDel "Content-Length" h0))) code
      (msg ++ String (ascii_of_nat 10) "") w Hc Hs) as [Hr Hb].
    eexists. split; [exact Hr|]. split; [exact Hb|].
    split; intros k; [intros vs Hk|intros Hk Hcl]; rewrite !lookup_HeaderSet, lookup_HeaderDel;
      repeat (case_decide as Hd; [try done; exfalso; apply Hk; rewrite Hd; by apply contains_elem_spec|clear Hd]);
      by rewrite Hh0.
  - destruct (send_error (fun _ => HeaderSet "Content-Language" (TagString (error_language hv r))
      (HeaderSet "Content-Type" "text/html" h0)) code page w Hc Hs) as [Hr Hb].
    eexists. split; [exact Hr|]. split; [exact Hb|].
    split; intros k; [intros vs Hk|intros Hk _]; rewrite !lookup_HeaderSet;
      repeat (case_decide as Hd; [exfalso; apply Hk; rewrite Hd; by apply contains_elem_spec|clear Hd]);
      by rewrite Hh0.
Qed.

(** When a handler, a proxied backend included, ends in an error and the
    caller can render HTML, the client receives the host's own error page
    under that status and nothing of the handler's response: every header,
    but the ones the page sets itself, was recorded by this process as its
    own with [PreserveHeader]. A backend's challenge never reaches a
    browser. *)
Theorem error_page_provenance hv r w ops :
  let ew := ew_run w ops in
  w_Sent (ew_Writer ew) = None -> (400 <= ew_statusCode ew)%Z -> acceptsHTML (pr_Header r) = true ->
  exists h, w_Sent (captured hv r w ops) = Some (ew_statusCode ew, h) /\
    w_Body (captured hv r w ops) = w_Body w ++ error_body hv r (ew_statusCode ew) (ew_statusMsg ew) /\
    forall k vs, k ∉ own_headers -> h !! k = Some vs ->
      exists name v, PreserveHeader name v ∈ ops /\ CanonicalHeaderKey name = k /\ vs = [v].
Proof.
  cbv zeta. intros Hs Hc Ha. unfold captured, unwrap. cbv zeta.
  replace (400 <=? ew_statusCode (ew_run w ops))%Z with true by (symmetry; by apply Z.leb_le).
  change (negb true) with false. cbv iota. rewrite Ha.
  destruct (serveError_response hv r (ew_statusCode (ew_run w ops)) (ew_statusMsg (ew_run w ops))
    (edit_header (fun _ => wiped (ew_run w ops)) (ew_Writer (ew_run w ops))) Hc Hs) as (h & Hr & Hb & Hh & _).
  exists h. split; [exact Hr|]. split.
  { rewrite Hb. f_equal. simpl. by apply ew_run_unsent. }
  intros k vs Hk Hl. apply (Hh k vs Hk) in Hl. cbn [w_Header edit_header] in Hl. unfold wiped in Hl. cbv zeta in Hl.
  assert (Hl' : restored (ew_preserved (ew_run w ops)) !! k = Some vs).
  { case_match; [|done]. rewrite addVary_other in Hl; [done|]. intros ->. apply Hk. by apply contains_elem_spec. }
  apply restored_spec in Hl' as (k' & v & Hp & Hkk & ->). apply ew_run_preserved in Hp as (name & Hin & Hn).
  exists name, v. split; [done|]. split; [|done]. rewrite <- Hkk, <- Hn. by rewrite CanonicalHeaderKey_idem.
Qed.

(** * A handler that succeeds *)

Definition succeeds (op : write_op) : Prop := match op with WriteHeader code => (code < 400)%Z | _ => True end.

(** The capture and the server's writer, in step. *)
Definition in_step (ew : errorResponseWriter) (w : writer) : Prop :=
  ew_Writer ew = w /\ (ew_statusCode ew < 400)%Z /\ (ew_wroteHeader ew = true -> is_Some (w_Sent w)).

Lemma send_header_again code w : is_Some (w_Sent w) -> send_header code w = w.
Proof. intros [x Hx]. unfold send_header. by rewrite Hx. Qed.

Lemma send_body_header b w : send_body b (send_header 200 w) = send_body b w.
Proof. unfold send_body. cbv zeta. by rewrite (send_header_again 200 (send_header 200 w) (send_header_200 w)). Qed.

Lemma send_header_kept code w : is_Some (w_Sent w) -> is_Some (w_Sent (send_header code w)).
Proof. intros Hs. by rewrite send_header_again. Qed.

Lemma send_final_sent code w : (200 <= code)%Z -> is_Some (w_Sent (send_header code w)).
Proof.
  intros Hc. destruct (w_Sent w) eqn:Hs; [apply send_header_kept; rewrite Hs; by eexists|].
  rewrite send_header_final by done. by eexists.
Qed.

Lemma ew_step_in_step op ew w : succeeds op -> in_step ew w -> in_step (ew_step ew op) (raw_step w op).
Proof.
  intros Hop (<- & Hst & Hwr). destruct op as [f|name v0|code|b|]; simpl in *.
  - split_and!; done.
  - split_and!; done.
  - unfold ew_WriteHeader. destruct (ew_wroteHeader ew) eqn:Hw.
    { split_and!; [|done|]; rewrite send_header_again; auto. }
    destruct (code <? 200)%Z eqn:Hlo; [split_and!; simpl; [done|done|congruence]|].
    apply Z.ltb_ge in Hlo. replace (400 <=? code)%Z with false by (symmetry; apply Z.leb_gt; lia).
    split_and!; simpl; [done|lia|]. intros _. by apply send_final_sent.
  - unfold ew_Write. replace (400 <=? ew_statusCode ew)%Z with false by (symmetry; apply Z.leb_gt; lia).
    destruct (ew_wroteHeader ew) eqn:Hw; simpl.
    + split_and!; simpl; [done|done|]. intros _. apply send_body_sent.
    + unfold ew_WriteHeader. rewrite Hw. simpl. split_and!; simpl; [apply send_body_header|lia|].
      intros _. rewrite <- send_body_header. apply send_body_sent.
  - unfold ew_Flush. replace (400 <=? ew_statusCode ew)%Z with false by (symmetry; apply Z.leb_gt; lia).
    split_and!; simpl; [done|done|]. intros _. apply send_header_200.
Qed.

(** A handler that never reports an error is served as if nothing stood
    between it and the server's writer: same status, same headers, same
    informational responses, same body, whatever it writes and flushes in
    whatever order. *)
Theorem capture_transparent hv r w ops :
  Forall succeeds ops -> captured hv r w ops = raw_run w ops.
Proof.
  intros Hops. assert (Hin : in_step (ew_run w ops) (raw_run w ops)).
  { induction ops as [|op ops IH] using rev_ind; [split_and!; simpl; [done|lia|done]|].
    apply Forall_app in Hops as [Ho Hl]. rewrite Forall_singleton in Hl. rewrite ew_run_snoc.
    unfold raw_run. rewrite foldl_app. simpl. apply ew_step_in_step; [done|]. by apply IH. }
  destruct Hin as (Hw & Hst & _). unfold captured, unwrap. cbv zeta.
  replace (400 <=? ew_statusCode (ew_run w ops))%Z with false by (symmetry; by apply Z.leb_gt). done.
Qed.

(** An error status is not the last word: a status written after it replaces
    it, and the text written under it is lost, where net/http keeps the
    first. *)
Lemma error_status_overridden hv r :
  let ops := [WriteHeader 500; WriteBody "failed"; WriteHeader 200] in
  captured hv r fresh ops = mkWriter ∅ (Some (200%Z, ∅)) [] "" /\
  raw_run fresh ops = mkWriter ∅ (Some (500%Z, ∅)) [] "failed".
Proof. split; reflexivity. Qed.
End Page.

(** * Caching *)

Section Caching.
Context `{!HTTPDates} `{!Sha256}.

Lemma TrimPrefix_etag c coding : TrimPrefix (etag_of c coding) "W/" = etag_of c coding.
Proof. unfold etag_of, quote. reflexivity. Qed.

(** The coding a request negotiates, as its tag names it. *)
Definition negotiated_coding (c : caching) (method : string) (request h : headers) : string :=
  if varyHas (applyCachingHeadersWithSeed c method request h).1 "Accept-Encoding"
  then suffix (acceptEncodingSeed method request) else "".

Lemma varyHas_set name v h field :
  CanonicalHeaderKey name <> "Vary" -> varyHas (HeaderSet name v h) field = varyHas h field.
Proof.
  intros Hn. unfold varyHas, HeaderValues. change (CanonicalHeaderKey "Vary") with "Vary".
  rewrite lookup_HeaderSet. by rewrite decide_False by congruence.
Qed.

Lemma applied_eq c method request h :
  (applyCachingHeadersWithSeed c method request h).2 =
  notModified request (etag_of c (negotiated_coding c method request h)) (of_unix (ca_modified c)).
Proof.
  unfold negotiated_coding, applyCachingHeadersWithSeed. cbv zeta. cbn [fst snd].
  rewrite !(varyHas_set "ETag"), !(varyHas_set "Last-Modified") by done. done.
Qed.

Lemma applied_etag c method request h :
  HeaderGet (applyCachingHeadersWithSeed c method request h).1 "ETag" =
  etag_of c (negotiated_coding c method request h).
Proof.
  unfold negotiated_coding, applyCachingHeadersWithSeed. cbv zeta. cbn [fst snd].
  rewrite !(varyHas_set "ETag"), !(varyHas_set "Last-Modified") by done.
  unfold HeaderGet. rewrite lookup_HeaderSet. by rewrite decide_True.
Qed.

Definition with_hash (hash : option string) (c : caching) : caching :=
  mkCaching (ca_authEnabled c) (ca_requirements c) hash (ca_random c) (ca_lastModified c) (ca_reconcileTime c)
    (ca_language c) (ca_seed c).

Lemma append_inj_r (a b p : string) : String.length a = String.length b -> a ++ p = b ++ p -> a = b.
Proof.
  revert b. induction a as [|x a IH]; intros [|y b] Hl Hab; [done|done|done|].
  cbn in Hab. injection Hab as -> Hab. f_equal. apply IH; [|done]. injection Hl as Hl. done.
Qed.

Lemma append_cancel (p a b : string) : p ++ a = p ++ b -> a = b.
Proof. induction p as [|x p IH]; [done|]. cbn. intros [= Hab]. by apply IH. Qed.

Lemma append_quote_inj (a b : string) : a ++ quote = b ++ quote -> a = b.
Proof.
  intros Hab. apply (append_inj_r a b quote); [|done]. apply (f_equal String.length) in Hab.
  rewrite !length_append in Hab. lia.
Qed.

(** A conditional request answered 304 by an entity tag holds the very
    variant it would be sent: unless it says "*", one of the tags it lists is,
    but for a weakness mark, the tag of this response, which names the render's
    state, its language, its coding and, when the response is private, the
    caller, so that two callers never share a private response's tag. *)
Theorem revalidation_same_variant c method request h :
  (applyCachingHeadersWithSeed c method request h).2 = true ->
  TrimSpace (Join (HeaderValues request "If-None-Match") "") <> "" ->
  (exists v tag, v ∈ HeaderValues request "If-None-Match" /\ tag ∈ Split "," v /\
     (TrimSpace tag = "*" \/
      TrimPrefix (TrimSpace tag) "W/" = HeaderGet (applyCachingHeadersWithSeed c method request h).1 "ETag")) /\
  (ca_private c = true -> forall hash hash', ca_hash c = Some hash -> hash <> hash' ->
     HeaderGet (applyCachingHeadersWithSeed (with_hash (Some hash') c) method request h).1 "ETag" <>
     HeaderGet (applyCachingHeadersWithSeed c method request h).1 "ETag").
Proof.
  intros Hnm Hinm. split.
  - rewrite applied_etag. rewrite applied_eq in Hnm. unfold notModified in Hnm. cbv zeta in Hnm.
    apply String.eqb_neq in Hinm. rewrite Hinm in Hnm. cbn [negb] in Hnm. unfold etagListMatches in Hnm.
    apply existsb_exists in Hnm as (v & Hv & Htag). apply existsb_exists in Htag as (tag & Ht & Htag).
    exists v, tag. split; [by apply list_elem_of_In|]. split; [by apply list_elem_of_In|].
    cbv zeta in Htag. apply orb_prop in Htag as [Hs|Hs]; apply String.eqb_eq in Hs; [by left|right].
    by rewrite Hs, TrimPrefix_etag.
  - intros Hp hash hash' Hh Hne. rewrite !applied_etag.
    replace (negotiated_coding (with_hash (Some hash') c) method request h)
      with (negotiated_coding c method request h).
    2:{ unfold negotiated_coding, applyCachingHeadersWithSeed. cbv zeta. cbn [fst].
        by rewrite !(varyHas_set "ETag"), !(varyHas_set "Last-Modified") by done. }
    unfold etag_of, ca_identity. change (ca_private (with_hash (Some hash') c)) with (ca_private c).
    rewrite Hp, Hh. cbn [default with_hash ca_hash ca_language ca_seed]. cbn [from_option id].
    change (ca_modified (with_hash (Some hash') c)) with (ca_modified c).
    intros Heq. do 5 apply append_cancel in Heq. rewrite !append_assoc in Heq.
    change (":" ++ hash' ++ quote) with (String ":" (hash' ++ quote)) in Heq.
    change (":" ++ hash ++ quote) with (String ":" (hash ++ quote)) in Heq.
    injection Heq as Heq. apply append_quote_inj in Heq. congruence.
Qed.

Ltac plain_fields :=
  repeat (apply Forall_cons; split; [split_and!; [reflexivity|reflexivity|discriminate]|]); apply Forall_nil; exact I.

Lemma plain_all : Forall (fun f => plain_field (TrimSpace f)) (Split "," "Accept-Language, Authorization, Cookie").
Proof.
  replace (Split _ _) with ["Accept-Language"; " Authorization"; " Cookie"] by reflexivity. unfold plain_field.
  plain_fields.
Qed.

Lemma plain_one : Forall (fun f => plain_field (TrimSpace f)) (Split "," "Accept-Language").
Proof. replace (Split _ _) with ["Accept-Language"] by reflexivity. unfold plain_field. plain_fields. Qed.

(** What a cache must key on: the language always, the caller's credential
    when the response is private, and whatever was listed before. *)
Lemma caching_headers_vary c method request h field :
  varyHas h field = true \/ field = "Accept-Language" \/
    (ca_private c = true /\ field ∈ ["Authorization"; "Cookie"]) ->
  varyHas (applyCachingHeadersWithSeed c method request h).1 field = true.
Proof.
  intros Hf. unfold applyCachingHeadersWithSeed. cbv zeta. cbn [fst].
  rewrite !(varyHas_set "ETag"), !(varyHas_set "Last-Modified") by done.
  destruct Hf as [Hf|Hf].
  { apply addVary_keeps. by rewrite varyHas_set. }
  assert (Hall := plain_all). assert (Hone := plain_one).
  destruct (ca_private c) eqn:Hp.
  - assert (Hin : exists f, f ∈ Split "," "Accept-Language, Authorization, Cookie" /\ TrimSpace f = field).
    { destruct Hf as [->|[_ [->|[->|[]%elem_of_nil]%elem_of_cons]%elem_of_cons]];
        [exists "Accept-Language"|exists " Authorization"|exists " Cookie"];
        (split; [by apply contains_elem_spec|reflexivity]). }
    destruct Hin as (f & Hin & <-). by apply addVary_adds.
  - destruct Hf as [->|[? _]]; [|done].
    apply (addVary_adds "Accept-Language" _ Hone "Accept-Language"). by apply contains_elem_spec.
Qed.

(** The tag drawn for a caller who cannot be keyed shuts out a 304 by tag
    only: with no If-None-Match, a date still answers one. *)
Lemma uncacheable_answers_304 c method request h t :
  ca_hash c = None -> ca_private c = true ->
  HeaderValues request "If-None-Match" = [] -> HeaderGet request "If-Modified-Since" <> "" ->
  ParseHTTP (HeaderGet request "If-Modified-Since") = Some t -> (of_unix (ca_modified c) <= t)%Z ->
  (applyCachingHeadersWithSeed c method request h).2 = true.
Proof.
  intros _ _ Hinm Hs Ht Hle. rewrite applied_eq. unfold notModified. cbv zeta. rewrite Hinm.
  apply String.eqb_neq in Hs. rewrite Hs, Ht. simpl. unfold after. apply negb_true_iff, Z.ltb_ge. done.
Qed.
End Caching.

(** HSTS is sent over https alone. *)
Lemma hsts_https_only scheme h : EqualFold scheme "https" = false <-> hstsHeaderValue scheme h = "".
Proof.
  unfold hstsHeaderValue. destruct (EqualFold scheme "https"); simpl; [|done].
  split; [done|]. destruct h as [[m i p]|]; simpl; [destruct i, p; simpl|]; done.
Qed.

(** * A backend's challenge, and a page revalidated *)

Definition responseView : @host_view languagesExample :=
  @mkHostView languagesExample "" "en" ["en"] (fun _ _ msg => "<h1>" ++ msg ++ "</h1>").

Definition browserRequest : page_request :=
  mkPageRequest {[ "Accept" := ["text/html"] ]} (mkParamRequest (fun _ => "") "" "").

Definition challengedOps : list write_op :=
  [EditHeader (HeaderSet "WWW-Authenticate" "Basic realm"); PreserveHeader "Cache-Control" "no-store";
   WriteHeader 401; WriteBody "denied"].

Lemma error_page_provenance_witness :
  exists h, w_Sent (@captured languagesExample responseView browserRequest fresh challengedOps) = Some (401%Z, h) /\
    h !! "WWW-Authenticate" = None.
Proof.
  destruct (@error_page_provenance languagesExample responseView browserRequest fresh challengedOps)
    as (h & Hs & _ & Hh); [reflexivity|vm_compute; congruence|reflexivity|].
  exists h. split; [exact Hs|]. destruct (h !! "WWW-Authenticate") as [vs|] eqn:Hl; [|done]. exfalso.
  assert (Hn : "WWW-Authenticate" ∉ own_headers) by (intros Hc%contains_elem_spec; vm_compute in Hc; discriminate Hc).
  destruct (Hh _ _ Hn Hl) as (name & v & Hin & Hk & _).
  repeat (apply elem_of_cons in Hin as [Hin|Hin]; [try discriminate Hin|]).
  - injection Hin as -> ->. vm_compute in Hk. discriminate Hk.
  - by apply elem_of_nil in Hin.
Defined.

Lemma capture_transparent_witness :
  @captured languagesExample responseView browserRequest fresh [WriteHeader 103; WriteBody "ok"; WriteHeader 302] =
  mkWriter ∅ (Some (200%Z, ∅)) [103%Z] "ok".
Proof.
  rewrite (@capture_transparent languagesExample); [reflexivity|]. repeat constructor.
Defined.

Definition datesExample : HTTPDates := {| FormatHTTP := FormatInt; ParseHTTP := ParseInt |}.

Definition privatePage : caching := mkCaching true 1 (Some "cafe") "" (Some 0%Z) 0 "en" "s".

Definition revalidating : headers := {[ "If-None-Match" := ["W/" ++ quote ++ "0:en:s:cafe" ++ quote] ]}.

Lemma revalidation_same_variant_witness :
  (@applyCachingHeadersWithSeed datesExample sha256Example privatePage "GET" revalidating ∅).2 = true /\
  (exists v tag, v ∈ HeaderValues revalidating "If-None-Match" /\ tag ∈ Split "," v /\
     (TrimSpace tag = "*" \/ TrimPrefix (TrimSpace tag) "W/" =
        HeaderGet (@applyCachingHeadersWithSeed datesExample sha256Example privatePage "GET" revalidating ∅).1 "ETag")).
Proof.
  split; [reflexivity|].
  apply (@revalidation_same_variant datesExample sha256Example privatePage "GET" revalidating ∅); [reflexivity|].
  vm_compute. discriminate.
Defined.
