(* ===== verification/Feedback.v ===== *)
(** The middleware around the host's mux (src/internal/host/feedback.go and
    compress.go): which requests are served through the compressor, which are
    handed to the request sniffer and on whose authority, the report a client
    is sent to, and how it is rendered. *)
From S2P Require Import Prelude GoStr Deps Claims Clients Roles Url SubjectKind Denial Proxy OpenApi Sniffer Languages Response.
From Stdlib Require Import Ascii.

#[local] Open Scope string_scope.

(** * Analyses *)

(** What the sniffer found for a request: the function it wrote, if any. *)
Record analysis := mkAnalysis {
  an_Method : string;
  an_Path : string;
  an_Function : option fn_spec;
  an_Lints : list string;
}.

(** An analysis and the time it was stored, by its id. *)
Abbreviation analysis_cache := (gmap string (analysis * Z)).

Definition StoreAnalysis (id : string) (now : Z) (a : analysis) (c : analysis_cache) : analysis_cache :=
  <[id := (a, now)]> c.

Definition GetAnalysis (id : string) (c : analysis_cache) : option analysis := fst <$> c !! id.

Definition analysisTTL : Z := 10 * minute.

(** One tick of the reaper, which runs every minute. *)
Definition reap (now : Z) (c : analysis_cache) : analysis_cache :=
  filter (fun x => (time_sub now x.2.2 <= analysisTTL)%Z) c.

(** * User agents *)

Definition agentPatterns : list string :=
  ["gptbot"; "chatgpt-user"; "claude-web"; "anthropic-ai"; "google-extended"; "googlebot"; "bard"; "gemini";
   "perplexitybot"; "perplexity"; "cohere-ai"; "ai2bot"; "ccbot"; "bytespider"; "applebot"; "facebookbot";
   "twitterbot"; "linkedinbot"; "slackbot"; "discordbot"; "bot/"; "crawler"; "spider"; "scraper"].

Definition isAgent (userAgent : string) : bool := existsb (Contains (ToLower userAgent)) agentPatterns.

Definition isCLI (userAgent : string) : bool := existsb (Contains (ToLower userAgent)) ["curl"; "wget"; "httpie"].

(** * The match *)

(** spec.origin, as far as [isMutable] reads it. *)
Record origin := mkOrigin { og_Executable : bool; og_Source : bool }.

Definition isMutable (o : origin) : bool := (negb (og_Executable o) || negb (og_Source o))%bool.

(** The handler the mux matched: a function's, a render of the host's own
    marked [compressible], or another. *)
Inductive route := FunctionRoute (o : origin) | CompressibleRoute | OtherRoute.

(** [None]: nothing matched. *)
Definition compressesMatch (m : option route) : bool :=
  match m with Some CompressibleRoute | None => true | Some _ => false end.

Section Middleware.
Context `{!JwtClaims} `{!Entitlements} `{!LanguageTags}.

Definition hasEvaluatedSubject (ctx : option AuthContext) : bool :=
  match ctx with None => false | Some ac => negb (String.eqb (subject_of ac) "") end.

(** The requirement a caller must meet to have a function generated. *)
Definition sniffer_requirement : gmap string (list string) := {[ "bearer" := ["functions:create"] ]}.

(** [checker] is false when no checker is wired; [scopeBuckets] is its own. *)
Definition canGenerateSniffer (checker scopeBuckets : bool) (ctx : option AuthContext) : bool :=
  if negb checker then true else
  match ctx with
  | Some ac =>
      if negb (hasEvaluatedSubject ctx) then false else
      match CheckAccess scopeBuckets ac "functions" "*" [sniffer_requirement] ["create"] with
      | Ok authorized => authorized
      | Err _ => false
      end
  | None => false
  end.

(** * The request and the host *)

Record feedback_request := mkFeedback {
  fr_Path : string;
  fr_TLS : bool;
  fr_Host : string;
  fr_page : page_request;
}.

Definition fr_Header (r : feedback_request) : headers := pr_Header (fr_page r).

(** [for k := range r.Header]. *)
Definition hasKDexHeader (r : feedback_request) : bool :=
  existsb (fun k => HasPrefix k "X-KDex-") (map_to_list (fr_Header r)).*1.

(** What the middleware holds for a request: the host's view, its sniffer's
    answer to this request ([None] when there is no sniffer), the checker, an
    id drawn for the report and the time. *)
Record feedback_env := mkFeedbackEnv {
  fe_view : host_view;
  fe_sniffer : option (result string (option analysis));
  fe_checker : bool;
  fe_scopeBuckets : bool;
  fe_id : string;
  fe_now : Z;
}.

Definition report_format (r : feedback_request) : string :=
  let ua := HeaderGet (fr_Header r) "User-Agent" in
  if isAgent ua then "json"
  else if (isCLI ua || Contains (HeaderGet (fr_Header r) "Accept") "text/plain")%bool then "text" else "html".

Definition inspectURL (id format : string) : string := "/-/sniffer/inspect/" ++ id ++ "?format=" ++ format.

Definition ESC : string := String (ascii_of_nat 27) "".
Definition NL : string := String (ascii_of_nat 10) "".
Definition hyperlink (url : string) : string := ESC ++ "]8;;" ++ url ++ ESC ++ "\" ++ url ++ ESC ++ "]8;;" ++ ESC ++ "\".

Definition draft_created (url : string) : string :=
  "➔ API Draft Created. View at: " ++ hyperlink url ++ NL ++ "(Note: Use 'curl -L' to follow automatically)." ++ NL.

(** Whether the sniffer is what a request would reach. *)
Definition wants_sniffer (r : feedback_request) (m : option route) : bool :=
  match m with
  | None => true
  | Some (FunctionRoute o) => (isMutable o && hasKDexHeader r)%bool
  | Some _ => false
  end.

(** The headers that explain a suppressed sniffer, on a path that does not
    exist, to a caller whose subject was evaluated. *)
Definition suppression_notice (ctx : option AuthContext) (m : option route) : list write_op :=
  if (negb (found m) && hasEvaluatedSubject ctx)%bool
  then [PreserveHeader "X-KDex-Sniffer-Suppressed" "functions:create"; PreserveHeader "Cache-Control" "no-store"]
  else [].

(** [None]: net/http panics on the status 0 the code would write. *)
Definition serveMatched (env : feedback_env) (r : feedback_request) (ctx : option AuthContext) (m : option route)
    (next : list write_op) (w : writer) (cache : analysis_cache) : option writer * analysis_cache :=
  let hv := fe_view env in
  let through ops := (Some (captured hv (fr_page r) w ops), cache) in
  match fe_sniffer env with
  | None => through next
  | Some answer =>
      if (HasPrefix (fr_Path r) "/-/" && found m)%bool then through next
      else if negb (wants_sniffer r m) then through next
      else if negb (canGenerateSniffer (fe_checker env) (fe_scopeBuckets env) ctx)
      then through (suppression_notice ctx m ++ next)%list
      else
        let fail code msg := (Some (raw_run w (serveError hv (fr_page r) code msg)), cache) in
        match answer with
        | Err msg => if found m then fail 400%Z msg else fail 404%Z "not found"
        | Ok a =>
            match a, a ≫= an_Function with
            | Some result, Some _ =>
                let url := inspectURL (fe_id env) (report_format r) in
                (Some (raw_run w
                  [EditHeader (HeaderSet "Location" url); EditHeader (HeaderSet "X-KDex-Sniffer-Docs" "/-/sniffer/docs");
                   WriteHeader 303; WriteBody (draft_created (Host_ (fr_TLS r) (fr_Host r) ++ url))]),
                 StoreAnalysis (fe_id env) (fe_now env) result cache)
            | _, _ => if found m then (None, cache) else fail 404%Z "not found"
            end
        end
  end.
End Middleware.

(** * The report *)

Definition htmlEscape (s : string) : string := ReplaceAll (ReplaceAll s "&" "&amp;") "<" "&lt;".

Definition TextSecondary : string := "#8b949e".
Definition TextLint : string := "#d29922".

Definition lint_item (l : string) : string :=
  "<div class=" ++ quote ++ "lint-item" ++ quote ++ "><span class=" ++ quote ++ "lint-icon" ++ quote ++
  " style=" ++ quote ++ "color: " ++ TextLint ++ quote ++ ">⚠</span> <span>" ++ htmlEscape l ++ "</span></div>".

Definition generateLintHTML (lints : list string) : string :=
  match lints with
  | [] => "<div style=" ++ quote ++ "font-size: 13px; color: " ++ TextSecondary ++ "; font-style: italic;" ++ quote ++
          ">No linting issues found.</div>"
  | _ :: _ => Join (lint_item <$> lints) ""
  end.

(** The lines of a document, without an empty last one. *)
Definition document_lines (doc : string) : list string :=
  let lines := Split (ascii_of_nat 10) doc in
  match last lines with Some "" => removelast lines | _ => lines end.

Definition spec_line (n : nat) (line : string) : string :=
  "<span class=" ++ quote ++ "ln" ++ quote ++ ">" ++ FormatInt (Z.of_nat n) ++ "</span><span class=" ++ quote ++ "lc" ++
  quote ++ ">" ++ htmlEscape line ++ "</span>" ++ NL.

Definition renderSpecHTML (doc : string) : string :=
  Join (imap (fun i line => spec_line (S i) line) (document_lines doc)) "".

Definition CLIHeader : string := ESC ++ "[1;36m".
Definition CLISuccess : string := ESC ++ "[1;32m".
Definition CLIWarning : string := ESC ++ "[1;33m".
Definition CLIDim : string := ESC ++ "[2m".
Definition CLILineNum : string := ESC ++ "[90m".
Definition CLIReset : string := ESC ++ "[0m".

Fixpoint spaces (n : nat) : string := match n with O => "" | S n => " " ++ spaces n end.

(** [%4d]. *)
Definition pad4 (n : Z) : string := let s := FormatInt n in spaces (4 - String.length s) ++ s.

Definition text_line (n : nat) (line : string) : string :=
  CLILineNum ++ pad4 (Z.of_nat n) ++ " │ " ++ CLIReset ++ line ++ NL.

Definition text_report (a : analysis) (doc : string) : string :=
  CLIHeader ++ "─── API DESIGN FEEDBACK ───" ++ CLIReset ++ NL ++ NL ++
  CLISuccess ++ "✓ Analyzed Request:" ++ CLIReset ++ " " ++ an_Method a ++ " " ++ an_Path a ++ NL ++
  (match an_Lints a with
   | [] => ""
   | lints => NL ++ CLIWarning ++ "Warnings / Insights:" ++ CLIReset ++ NL ++
              Join ((fun l => "  • " ++ l ++ NL) <$> lints) ""
   end) ++
  NL ++ CLIDim ++ "Generated OpenAPI Spec (Fragment):" ++ CLIReset ++ NL ++
  Join (imap (fun i line => text_line (S i) line) (document_lines doc)) "".

(** A report by format: text, the members of the JSON object with its spec
    ([lints] is left out when there are none), or the parts of the HTML page:
    the method, the path, the lints and the spec. *)
Inductive report :=
| TextReport (body : string)
| JSONReport (method path : string) (lints : option (list string)) (doc : string)
| HTMLReport (method path lints spec : string).

(** [doc] renders the one-off document of a function. *)
Definition InspectHandler (doc : fn_spec -> string) (id format : string) (c : analysis_cache) : option report :=
  a ← GetAnalysis id c;
  let d := match an_Function a with Some fn => doc fn | None => "" end in
  Some (if String.eqb format "text" then TextReport (text_report a d)
        else if String.eqb format "json"
        then JSONReport (an_Method a) (an_Path a) (match an_Lints a with [] => None | l => Some l end) d
        else HTMLReport (an_Method a) (an_Path a) (generateLintHTML (an_Lints a)) (renderSpecHTML d)).
