(* ===== verification/FeedbackSpec.v ===== *)
(** What the sniffer touches: generated functions only, the routes of the
    request only; and where its guards fall short. It runs for those who may
    create functions only, a caller who may not is told so, and the report
    escapes what it quotes. *)
From S2P Require Import Prelude GoStr Deps Claims Clients Roles Url SubjectKind Denial Proxy ProxySpec OpenApi OpenApiSpec Sniffer Languages Response ResponseSpec Feedback.
From Stdlib Require Import Ascii.

#[local] Open Scope string_scope.

(** * The sniffer *)

Section Sniffer.
Context `{!ParseSchemaRef} `{!BodyReader} `{!PathRules}.

Implicit Types (r : sniffed_request) (fn : fn_spec).

Lemma matchExisting_spec order items name basePath routePath method operationId fn exact :
  matchExisting order items name basePath routePath method operationId = Some (fn, exact) ->
  fn ∈ items /\ api_BasePath (sp_API fn) = basePath.
Proof.
  induction items as [|f items IH]; cbn [matchExisting]; [done|].
  destruct (String.eqb basePath (api_BasePath (sp_API f))) eqn:Hb; cbn [negb].
  2:{ intros Hm. destruct (IH Hm). split; [by right|done]. }
  apply String.eqb_eq in Hb. case_bool_decide.
  { intros [= <- _]. split; [left|done]. }
  destruct (match_routes _ _ _ _ _ _) as [e|].
  - intros [= <- _]. split; [left|done].
  - intros Hm. destruct (IH Hm). split; [by right|done].
Qed.

Lemma matchExisting_none order items name basePath routePath method operationId :
  matchExisting order items name basePath routePath method operationId = None ->
  forall fn, fn ∈ items -> api_BasePath (sp_API fn) = basePath -> api_Paths (sp_API fn) <> ∅.
Proof.
  induction items as [|f items IH]; cbn [matchExisting]; intros Hm fn Hin Hb; [by apply elem_of_nil in Hin|].
  destruct (String.eqb basePath (api_BasePath (sp_API f))) eqn:He; cbn [negb] in Hm.
  - case_bool_decide; [done|]. destruct (match_routes _ _ _ _ _ _); [done|].
    apply elem_of_cons in Hin as [->|Hin]; [done|by apply IH].
  - apply elem_of_cons in Hin as [->|Hin]; [|by apply IH]. apply String.eqb_neq in He. congruence.
Qed.

(** The routes a request may add: its own and, in the comprehensive mode, the
    collection's and the resource's. *)
Definition request_routes (routePath : string) : list string :=
  [routePath; (suite_paths routePath).1; (suite_paths routePath).2].

Lemma parsed_routes schemes r functionName routePath operationId items schemas :
  parseRequestIntoAPI schemes r functionName routePath operationId = Ok (items, schemas) ->
  is_Some (items !! routePath) /\ forall p, is_Some (items !! p) -> p ∈ request_routes routePath.
Proof.
  unfold parseRequestIntoAPI. destruct (sniffed_body r) as [x|]; [|done]. cbn [mbind result_bind].
  destruct (sniffed_response r) as [y|]; [|done]. cbn [mbind result_bind]. cbn zeta. intros [= <- _].
  unfold request_routes. destruct (String.eqb (ToLower _) TRUE).
  - unfold comprehensive. destruct (suite_paths routePath) as [col res] eqn:Hs. cbn zeta. split.
    + destruct (decide (routePath = res)) as [->|Hr]; [by rewrite lookup_insert_eq|].
      rewrite lookup_insert_ne by done.
      destruct (decide (routePath = col)) as [->|Hc]; [by rewrite lookup_insert_eq|].
      rewrite lookup_insert_ne by done. by rewrite lookup_singleton_eq.
    + intros p. cbn [fst snd]. destruct (decide (p = res)) as [->|Hr]; [intros _; right; right; left|].
      rewrite lookup_insert_ne by done.
      destruct (decide (p = col)) as [->|Hc]; [intros _; right; left|].
      rewrite lookup_insert_ne by done. intros [it Hit]. apply lookup_singleton_Some in Hit as [<- _]. left.
  - split; [by rewrite lookup_singleton_eq|]. intros p [it Hit]. apply lookup_singleton_Some in Hit as [<- _]. left.
Qed.

Lemma merged_paths suffix fn items schemas overwrite keep p :
  api_Paths (sp_API (mergeAPIIntoFunction suffix fn items schemas overwrite keep)) !! p =
  match items !! p with
  | Some i => Some (merge_sniffed overwrite (api_Paths (sp_API fn) !! p) i)
  | None => api_Paths (sp_API fn) !! p
  end.
Proof.
  unfold mergeAPIIntoFunction. cbn [sp_API api_Paths]. rewrite lookup_merge. unfold diag_None.
  by destruct (items !! p), (api_Paths (sp_API fn) !! p).
Qed.

Lemma claimed_false functions patternPath basePath fn :
  claimed functions patternPath basePath = false -> fn ∈ functions ->
  api_Paths (sp_API fn) !! patternPath = None /\
  (patternPath <> basePath -> api_Paths (sp_API fn) !! basePath = None).
Proof.
  unfold claimed. intros Hc Hin. rewrite <- not_true_iff_false, existsb_exists in Hc.
  assert (forall b : bool, (b = true -> False) -> b = false) as Hb by (by intros []; auto).
  assert ((found (api_Paths (sp_API fn) !! patternPath) ||
           negb (String.eqb patternPath basePath) && found (api_Paths (sp_API fn) !! basePath))%bool = false) as Hf.
  { apply Hb. intros Ht. apply Hc. exists fn. split; [by apply list_elem_of_In|done]. }
  apply orb_false_iff in Hf as [Hf Hg]. split.
  - by destruct (api_Paths (sp_API fn) !! patternPath).
  - intros Hne. apply String.eqb_neq in Hne. rewrite Hne in Hg. cbn in Hg.
    by destruct (api_Paths (sp_API fn) !! basePath).
Qed.

(** The sniffer answers outside the host's own paths only, and writes a
    generated function only: one of the request's base path that is already
    there and was generated, under its own name, or a new one whose route and
    base path no function declares. Of a function that is there, every route
    that is not one of the request's is untouched, and on those every
    operation of another method is kept. *)
Theorem sniff_touches_generated order functions schemes suffix r fn' :
  sniff order functions schemes suffix r = Ok (Some fn') ->
  HasPrefix (sr_Path r) "/-/" = false /\ sp_AutoGenerated fn' = true /\
  exists basePath patternPath items schemas,
    calculatePaths r (sr_Header r "X-KDex-Function-Pattern-Path") = Ok (basePath, patternPath) /\
    api_BasePath (sp_API fn') = basePath /\ is_Some (items !! patternPath) /\
    (forall p, is_Some (items !! p) -> p ∈ request_routes patternPath) /\
    (exists id, parseRequestIntoAPI schemes r (sp_Name fn') patternPath id = Ok (items, schemas)) /\
    ((exists fn, fn ∈ functions /\ sp_AutoGenerated fn = true /\ api_BasePath (sp_API fn) = basePath /\
        sp_Name fn' = sp_Name fn /\
        (forall p, items !! p = None -> api_Paths (sp_API fn') !! p = api_Paths (sp_API fn) !! p) /\
        (forall p it i meth, api_Paths (sp_API fn) !! p = Some it -> items !! p = Some i ->
           it_Ops i !! meth = None ->
           exists it', api_Paths (sp_API fn') !! p = Some it' /\ it_Ops it' !! meth = it_Ops it !! meth)) \/
     (forall fn, fn ∈ functions -> api_Paths (sp_API fn) !! patternPath = None /\
        (patternPath <> basePath -> api_Paths (sp_API fn) !! basePath = None)) /\
     forall p, is_Some (api_Paths (sp_API fn') !! p) -> is_Some (items !! p)).
Proof.
  unfold sniff. destruct (HasPrefix (sr_Path r) "/-/"); [done|].
  destruct (calculatePaths r _) as [[basePath patternPath]|] eqn:Hpaths; [|done]. cbn [mbind result_bind]. cbn zeta.
  destruct (matchExisting _ _ _ _ _ _ _) as [[existing exact]|] eqn:Hm.
  - destruct (negb (sp_AutoGenerated existing)) eqn:Ha; [done|].
    apply negb_false_iff in Ha. destruct (exact && _)%bool; [done|].
    destruct (parseRequestIntoAPI _ _ _ _ _) as [[items schemas]|] eqn:Hp; [|done]. cbn [mbind result_bind].
    intros [= <-]. destruct (matchExisting_spec _ _ _ _ _ _ _ _ _ Hm) as [Hin Hb].
    destruct (parsed_routes _ _ _ _ _ _ _ Hp) as [His Hroutes].
    split_and!; [done|done|]. exists basePath, patternPath, items, schemas.
    split_and!; [done|done|done|done|by eexists|]. left. exists existing. split_and!; try done.
    + intros p Hn. by rewrite merged_paths, Hn.
    + intros p it i meth Hit Hi Hn. rewrite merged_paths, Hi. eexists. split; [done|].
      unfold merge_sniffed. cbn zeta. cbn [it_Ops]. change (api_Paths (sp_API (add_name_tag existing))) with
        (api_Paths (sp_API existing)). rewrite Hit. cbn [default].
      rewrite lookup_union_r; [done|]. by rewrite lookup_fmap, Hn.
  - destruct (claimed functions patternPath basePath) eqn:Hc; [done|].
    destruct (parseRequestIntoAPI _ _ _ _ _) as [[items schemas]|] eqn:Hp; [|done]. cbn [mbind result_bind].
    intros [= <-]. destruct (parsed_routes _ _ _ _ _ _ _ Hp) as [His Hroutes].
    split_and!; [done|done|]. exists basePath, patternPath, items, schemas.
    split_and!; [done|done|done|done|by eexists|]. right. split; [intros fn Hin; by apply (claimed_false functions)|].
    intros p. rewrite merged_paths. cbn. destruct (items !! p); [done|]. by rewrite lookup_empty; intros [].
Qed.

(** In the comprehensive mode a request describes a whole collection: its
    routes have the listing and the creation on the collection, the four
    operations on the resource, and all of them require what the request's own
    operation requires. *)
Theorem comprehensive_suite routePath reqRef respRef op items collectionPath resourcePath :
  suite_paths routePath = (collectionPath, resourcePath) -> collectionPath <> resourcePath ->
  let items' := comprehensive routePath reqRef respRef op items in
  exists col res, items' !! collectionPath = Some col /\ items' !! resourcePath = Some res /\
    (forall meth, meth ∈ ["GET"; "POST"] -> exists o, it_Ops col !! meth = Some o /\
       oo_Security o = oo_Security op /\ oo_Tags o = oo_Tags op) /\
    (forall meth, meth ∈ ["GET"; "PUT"; "PATCH"; "DELETE"] -> exists o, it_Ops res !! meth = Some o /\
       oo_Security o = oo_Security op /\ oo_Tags o = oo_Tags op).
Proof.
  intros Hs Hne. cbn zeta. unfold comprehensive. rewrite Hs. cbn zeta. do 2 eexists.
  split_and!; [by rewrite lookup_insert_ne, lookup_insert_eq|by rewrite lookup_insert_eq|..]; intros meth Hm;
    rewrite !elem_of_cons, elem_of_nil in Hm;
    (repeat destruct Hm as [->|Hm]; [..|done]); unfold generateCollectionOperations, generateResourceOperations, set_op;
    cbn [it_Ops]; (eexists; split; [repeat (rewrite lookup_insert_eq || rewrite lookup_insert_ne by done); reflexivity|by split]).
Qed.

(** * Findings *)

(** The overwrite flag is passed on inverted: without the header that asks for
    it, a parameter that is there is overwritten, and appended again besides. *)
Lemma overwrite_duplicates_parameter p :
  merge_param true [p] p = [p; p] /\ merge_param false [p] p = [p].
Proof.
  unfold merge_param. cbn. unfold same_param. rewrite !String.eqb_refl. done.
Qed.
End Sniffer.


(** * Witnesses *)

#[local] Instance anyRef : ParseSchemaRef := {| ParseRef s := Some (mkRefURL "" "" (TrimPrefix s "#")) |}.
#[local] Instance plainBodies : BodyReader := {|
  Detect _ := Some "text/plain";
  Parts _ _ := None;
  UnmarshalValue _ := Some (VObj [("name", VStr "x")]);
|}.
#[local] Instance anyPath : PathRules := {|
  BasePathRegex _ := true; ItemPathRegex _ := true; pattern_base p := "/" ++ List.hd "" (drop 1 (Split "/"%char p));
  ValidatePattern _ _ := true;
|}.

Definition sniffing (method path : string) (h : list (string * string)) : sniffed_request :=
  mkSniffed method path "" [] (fun k => match list_find (fun x => x.1 = k) h with Some (_, (_, v)) => v | None => "" end) 0 "".

Definition in_order (m : gmap string PathItem) : list (string * PathItem) := map_to_list m.

Definition usersOp (id : string) : operation := mkOp [] "" "" id [] None ∅ None false.

Definition usersFn : fn_spec :=
  mkSpec "users" (mkAPI "/users" {[ "/users" := mkItem "" "" [] {[ "GET" := usersOp "mine" ]} ]} ∅) true [].

Definition sniffed_users : result sniff_error (option fn_spec) :=
  sniff in_order [usersFn] [] "c0de" (sniffing "POST" "/users" [("X-KDex-Function-Name", "users"); ("Content-Type", "application/json")]).

(** The operations of a sniffed function's route. *)
Definition op_ids (o : result sniff_error (option fn_spec)) (p : string) : list (string * string) :=
  match o with
  | Ok (Some fn) => match api_Paths (sp_API fn) !! p with
                    | Some it => (fun x => (x.1, oo_OperationID x.2)) <$> map_to_list (it_Ops it)
                    | None => []
                    end
  | _ => []
  end.

Lemma sniff_touches_generated_witness :
  exists fn', sniffed_users = Ok (Some fn') /\ sp_AutoGenerated fn' = true /\
    it_Ops <$> (api_Paths (sp_API fn') !! "/users") <> None.
Proof.
  destruct sniffed_users as [[fn'|]|] eqn:Hs.
  2:{ exfalso. assert (length (op_ids sniffed_users "/users") = 2%nat) as Hl by (vm_compute; reflexivity).
      rewrite Hs in Hl. discriminate Hl. }
  2:{ exfalso. assert (length (op_ids sniffed_users "/users") = 2%nat) as Hl by (vm_compute; reflexivity).
      rewrite Hs in Hl. discriminate Hl. }
  exists fn'. split; [reflexivity|].
  destruct (sniff_touches_generated in_order [usersFn] [] "c0de"
    (sniffing "POST" "/users" [("X-KDex-Function-Name", "users"); ("Content-Type", "application/json")]) fn' Hs)
    as (_ & Ha & basePath & patternPath & items & schemas & _). split; [exact Ha|].
  intros Hn. assert (length (op_ids sniffed_users "/users") = 2%nat) as Hl by (vm_compute; reflexivity).
  rewrite Hs in Hl. cbn [op_ids] in Hl. destruct (api_Paths (sp_API fn') !! "/users"); [discriminate Hn|discriminate Hl].
Defined.

Lemma comprehensive_suite_witness :
  suite_paths "/users/{id}" = ("/users", "/users/{id}") /\
  exists col, comprehensive "/users/{id}" "" "" (usersOp "x") ∅ !! "/users" = Some col.
Proof.
  assert (suite_paths "/users/{id}" = ("/users", "/users/{id}")) as Hs by (vm_compute; reflexivity).
  split; [exact Hs|].
  destruct (comprehensive_suite "/users/{id}" "" "" (usersOp "x") ∅ _ _ Hs ltac:(discriminate)) as (col & _ & Hc & _).
  exists col. exact Hc.
Defined.

(** A method net/http has no constant for is taken for GET when the operation
    is stored, and for itself when an existing one is looked for: the GET
    operation is replaced, with no header that asks for it. *)
Lemma unknown_method_replaces_get :
  op_ids (sniff in_order [usersFn] [] "c0de" (sniffing "PROPFIND" "/users" [("X-KDex-Function-Name", "users")])) "/users" =
    [("GET", "gen-users-propfind")].
Proof. vm_compute. reflexivity. Qed.

(** A function of the request's name with two routes: whether the operation
    counts as an exact match, which is refused, depends on the order in which
    the map of routes is ranged over. *)
Definition twoRoutes : fn_spec :=
  mkSpec "users" (mkAPI "/users" {[ "/users" := mkItem "" "" [] {[ "GET" := usersOp "id" ]}; "/users/x" := mkItem "" "" [] ∅ ]} ∅)
    true [].

Lemma exact_match_depends_on_order :
  (matchExisting map_to_list [twoRoutes] "users" "/users" "/users" "GET" "id" = Some (twoRoutes, true) /\
   matchExisting (fun m => reverse (map_to_list m)) [twoRoutes] "users" "/users" "/users" "GET" "id" = Some (twoRoutes, false)) \/
  (matchExisting map_to_list [twoRoutes] "users" "/users" "/users" "GET" "id" = Some (twoRoutes, false) /\
   matchExisting (fun m => reverse (map_to_list m)) [twoRoutes] "users" "/users" "/users" "GET" "id" = Some (twoRoutes, true)).
Proof. vm_compute. first [left; split; reflexivity|right; split; reflexivity]. Qed.

(** The guard on routes other functions declare looks at the request's route
    and base path: the resource the comprehensive mode adds is not checked. *)
Definition itemFn : fn_spec :=
  mkSpec "item" (mkAPI "/other" {[ "/users/{id}" := mkItem "" "" [] {[ "GET" := usersOp "theirs" ]} ]} ∅) false [].

Lemma suite_route_not_guarded :
  length (op_ids (sniff in_order [itemFn] [] "c0de"
    (sniffing "GET" "/users" [("X-KDex-Function-Comprehensive-Mode", "true")])) "/users/{id}") = 4%nat.
Proof. vm_compute. reflexivity. Qed.

(** * Analyses *)

Lemma stored_then_got id now a c : GetAnalysis id (StoreAnalysis id now a c) = Some a.
Proof. unfold GetAnalysis, StoreAnalysis. by rewrite lookup_insert_eq. Qed.

(** A tick keeps exactly the analyses of the last ten minutes. *)
Lemma reap_keeps now c id a t :
  reap now c !! id = Some (a, t) <-> c !! id = Some (a, t) /\ (time_sub now t <= analysisTTL)%Z.
Proof. unfold reap. by rewrite map_lookup_filter_Some. Qed.

(** * Who reaches the sniffer *)

Section Sniffed.
Context `{!JwtClaims} `{!Entitlements} `{!LanguageTags}.

(** Whom the sniffer works for: everyone on a host without a checker, else a
    caller with a subject who holds the entitlement to create functions. *)
Definition may_generate (checker scopeBuckets : bool) (ctx : option AuthContext) : Prop :=
  checker = false \/
  exists ac, ctx = Some ac /\ subject_of ac <> "" /\
    CheckAccess scopeBuckets ac "functions" "*" [sniffer_requirement] ["create"] = Ok true.

Lemma canGenerateSniffer_spec checker scopeBuckets ctx :
  canGenerateSniffer checker scopeBuckets ctx = true <-> may_generate checker scopeBuckets ctx.
Proof.
  unfold canGenerateSniffer, may_generate. destruct checker; simpl; [|tauto].
  destruct ctx as [ac|]; simpl; [|naive_solver]. destruct (String.eqb (subject_of ac) "") eqn:Hs; simpl.
  - apply String.eqb_eq in Hs. split; [done|]. intros [?|(ac' & [= <-] & Hne & _)]; done.
  - apply String.eqb_neq in Hs. destruct (CheckAccess _ _ _ _ _ _) as [b|] eqn:Hc; split.
    + intros ->. right. by exists ac.
    + intros [?|(ac' & [= <-] & _ & Hc')]; [done|]. congruence.
    + done.
    + intros [?|(ac' & [= <-] & _ & Hc')]; [done|]. congruence.
Qed.

(** A report is stored, and the client sent to it, only when nothing
    answered the request or a function still being generated did, and only for
    a caller who may create functions. For anyone else the request is served
    as if there were no sniffer: the next handler's response, behind the error
    capture, with at most the notice of what was missing. *)
Theorem sniffer_for_creators env r ctx m next w cache :
  (may_generate (fe_checker env) (fe_scopeBuckets env) ctx \/
   exists notice, notice ∈ [[]; suppression_notice ctx m] /\
     serveMatched env r ctx m next w cache = (Some (captured (fe_view env) (fr_page r) w (notice ++ next)%list), cache)) /\
  ((serveMatched env r ctx m next w cache).2 = cache \/
   exists a, fe_sniffer env = Some (Ok (Some a)) /\ is_Some (an_Function a) /\
     may_generate (fe_checker env) (fe_scopeBuckets env) ctx /\
     (m = None \/ exists o, m = Some (FunctionRoute o) /\ isMutable o = true) /\
     GetAnalysis (fe_id env) (serveMatched env r ctx m next w cache).2 = Some a).
Proof.
  unfold serveMatched. cbv zeta. destruct (fe_sniffer env) as [answer|].
  2:{ split; [|by left]. right. exists []. split; [by left|done]. }
  destruct (HasPrefix (fr_Path r) "/-/" && found m)%bool.
  { split; [|by left]. right. exists []. split; [by left|done]. }
  destruct (wants_sniffer r m) eqn:Hw; simpl.
  2:{ split; [|by left]. right. exists []. split; [by left|done]. }
  destruct (canGenerateSniffer _ _ _) eqn:Hc; simpl.
  2:{ split; [|by left]. right. exists (suppression_notice ctx m). split; [right; by left|done]. }
  apply canGenerateSniffer_spec in Hc. split; [by left|].
  destruct answer as [[a|]|msg]; simpl; [|destruct (found m); by left|destruct (found m); by left].
  destruct (an_Function a) as [fn|] eqn:Hf; [|destruct (found m); by left]. right. exists a.
  split_and!; [done|by rewrite Hf; eexists|done| |apply stored_then_got].
  destruct m as [[o| |]|]; simpl in Hw; [|done|done|by left]. right. exists o. split; [done|].
  by apply andb_prop in Hw as [Hm _].
Qed.

(** * A suppressed sniffer *)

Lemma ew_run_app w ops ops' : ew_run w (ops ++ ops')%list = foldl ew_step (ew_run w ops) ops'.
Proof. unfold ew_run. by rewrite foldl_app. Qed.

(** A header looked up, by name, through the edits of a response. *)
Ltac header_lookup :=
  repeat first [rewrite lookup_HeaderSet | rewrite lookup_HeaderDel | rewrite decide_True by reflexivity
               | rewrite decide_False by (vm_compute; discriminate)].

(** What the mux writes when nothing matches. *)
Definition not_found : list write_op := http_Error "404 page not found" 404.

Definition notice : list write_op :=
  [PreserveHeader "X-KDex-Sniffer-Suppressed" "functions:create"; PreserveHeader "Cache-Control" "no-store"].

Lemma notice_not_found w :
  let ew := ew_run w (notice ++ not_found)%list in
  ew_statusCode ew = 404%Z /\ w_Sent (ew_Writer ew) = w_Sent w /\
  ew_preserved ew = <["Cache-Control" := "no-store"]> (<["X-Kdex-Sniffer-Suppressed" := "functions:create"]> ∅) /\
  w_Header (ew_Writer ew) !! "X-Kdex-Sniffer-Suppressed" = Some ["functions:create"] /\
  w_Header (ew_Writer ew) !! "Cache-Control" = Some ["no-store"].
Proof.
  cbv zeta. split_and!; try reflexivity; cbn -[HeaderSet HeaderDel]; by header_lookup.
Qed.

(** What a captured error answers with, but for the headers the answer sets
    itself: what was recorded, behind the error page; what the handler left,
    otherwise. *)
Lemma unwrap_error hv r ew :
  w_Sent (ew_Writer ew) = None -> (400 <= ew_statusCode ew)%Z ->
  exists h, w_Sent (unwrap hv r ew) = Some (ew_statusCode ew, h) /\
    forall k, k ∉ own_headers -> k <> "Content-Length" ->
      h !! k = (if acceptsHTML (pr_Header r) then restored (ew_preserved ew) else w_Header (ew_Writer ew)) !! k.
Proof.
  intros Hs Hc. unfold unwrap. cbv zeta.
  replace (400 <=? ew_statusCode ew)%Z with true by (symmetry; by apply Z.leb_le).
  change (negb true) with false. cbv iota. destruct (acceptsHTML (pr_Header r)).
  - destruct (serveError_response hv r (ew_statusCode ew) (ew_statusMsg ew)
      (edit_header (fun _ => wiped ew) (ew_Writer ew)) Hc Hs) as (h & Hr & _ & _ & Hh).
    exists h. split; [exact Hr|]. intros k Hk Hcl. rewrite (Hh k Hk Hcl). cbn [w_Header edit_header].
    unfold wiped. cbv zeta. case_match; [|done]. rewrite addVary_other; [done|].
    intros ->. apply Hk. by apply contains_elem_spec.
  - set (text := fun h : headers => if String.eqb (HeaderGet h "Content-Type") ""
      then HeaderSet "Content-Type" "text/plain; charset=utf-8" h else h).
    destruct (send_error text (ew_statusCode ew) (ew_statusMsg ew) (ew_Writer ew) Hc Hs) as [Hr _].
    exists (text (w_Header (ew_Writer ew))). split; [exact Hr|]. intros k Hk _. unfold text.
    case_match; [|done]. rewrite lookup_HeaderSet. rewrite decide_False; [done|].
    intros ->. apply Hk. by apply contains_elem_spec.
Qed.

Lemma suppressed_own : "X-Kdex-Sniffer-Suppressed" ∉ own_headers /\ "Cache-Control" ∉ own_headers.
Proof. split; intros Hc%contains_elem_spec; vm_compute in Hc; discriminate Hc. Qed.

(** A caller who is signed in but may not create functions, and asks for
    a path that does not exist, gets the 404 it would get anyway, with the
    entitlement it lacks named in a header no cache may keep; and the header
    survives the error page put in the 404's place. A caller whose subject was
    never evaluated is told nothing. *)
Theorem suppression_explained env r ctx w cache answer :
  w_Sent w = None -> fe_sniffer env = Some answer -> ~ may_generate (fe_checker env) (fe_scopeBuckets env) ctx ->
  exists h w', serveMatched env r ctx None not_found w cache = (Some w', cache) /\ w_Sent w' = Some (404%Z, h) /\
    (hasEvaluatedSubject ctx = true ->
       h !! "X-Kdex-Sniffer-Suppressed" = Some ["functions:create"] /\ h !! "Cache-Control" = Some ["no-store"]) /\
    (hasEvaluatedSubject ctx = false -> w_Header w !! "X-Kdex-Sniffer-Suppressed" = None ->
       h !! "X-Kdex-Sniffer-Suppressed" = None).
Proof.
  intros Hs Hsn Hno. unfold serveMatched. cbv zeta. rewrite Hsn.
  replace (HasPrefix (fr_Path r) "/-/" && found (@None route))%bool with false by (by rewrite andb_false_r).
  cbn [wants_sniffer negb]. destruct (canGenerateSniffer _ _ _) eqn:Hc.
  { exfalso. apply Hno. by apply canGenerateSniffer_spec. }
  cbn [negb]. unfold captured, suppression_notice. cbn [found negb andb]. destruct suppressed_own as [Hx Hcc].
  destruct (hasEvaluatedSubject ctx) eqn:He.
  - destruct (notice_not_found w) as (Hst & Hsent & Hp & Hhx & Hhc). fold notice.
    destruct (unwrap_error (fe_view env) (fr_page r) (ew_run w (notice ++ not_found)%list))
      as (h & Hr & Hh); [by rewrite Hsent|rewrite Hst; lia|].
    exists h. eexists. split; [reflexivity|]. split; [by rewrite Hr, Hst|]. split; [|done]. intros _.
    rewrite !Hh by done. destruct (acceptsHTML _); [|by rewrite Hhx, Hhc]. rewrite Hp. split; reflexivity.
  - cbn [app].
    destruct (unwrap_error (fe_view env) (fr_page r) (ew_run w not_found)) as (h & Hr & Hh);
      [done|vm_compute; congruence|].
    exists h. eexists. split; [reflexivity|]. split; [exact Hr|]. split; [done|]. intros _ Hw.
    rewrite Hh by done. destruct (acceptsHTML _); [reflexivity|].
    cbn -[HeaderSet HeaderDel]. by header_lookup.
Qed.

(** An existing function is never handed to the sniffer: a request's header
    names are in canonical form, and the prefix looked for is not. *)
Lemma kdex_header_never_seen r :
  (forall k, is_Some (fr_Header r !! k) -> all_bytes token_byte k = true /\ CanonicalHeaderKey k = k) ->
  hasKDexHeader r = false.
Proof.
  intros Hk. unfold hasKDexHeader. apply not_true_iff_false. intros Hex. apply existsb_exists in Hex as (k & Hin & Hp).
  apply list_elem_of_In, list_elem_of_fmap in Hin as ([k' v'] & -> & Hin%elem_of_map_to_list). cbn [fst] in *.
  destruct (Hk k' ltac:(by eexists)) as [Ht Hc]. apply HasPrefix_spec in Hp as [t ->].
  unfold CanonicalHeaderKey in Hc. rewrite Ht in Hc. apply (f_equal (String.get 3)) in Hc. vm_compute in Hc. discriminate Hc.
Qed.
End Sniffed.

(** * The report *)

Lemma replace_from_clean c new s : has_byte c new = false ->
  forall skip, has_byte c (replace_from skip s (String c "") new) = false.
Proof.
  intros Hnew. induction s as [|x s IH]; intros skip; [done|]. cbn [replace_from].
  destruct skip as [|skip]; [|apply IH]. destruct (HasPrefix (String x s) (String c "")) eqn:Hp.
  - rewrite has_byte_append, Hnew. apply IH.
  - cbn [has_byte]. rewrite IH. rewrite orb_false_r. apply not_true_iff_false.
    intros Heq%Ascii.eqb_eq. subst x. change (String c s) with (String c "" ++ s) in Hp.
    rewrite HasPrefix_append in Hp. discriminate Hp.
Qed.

(** What is quoted in the report opens no tag. *)
Lemma htmlEscape_no_tag s : has_byte "<" (htmlEscape s) = false.
Proof. unfold htmlEscape, ReplaceAll. by apply replace_from_clean. Qed.

(** The middleware's example: a signed-in caller without the entitlement. *)

#[local] Existing Instance jwtExample.
#[local] Existing Instance bearerEntitlements.
#[local] Existing Instance languagesExample.

Definition feedbackCaller : AuthContext := {[ "sub" := VStr "ann"; "entitlements" := VStrs ["pages::read"] ]}.
Definition feedbackEnv : feedback_env := mkFeedbackEnv responseView (Some (Ok None)) true true "id" 0.
Definition feedbackRequest : feedback_request := mkFeedback "/nowhere" true "h.test" browserRequest.

Lemma feedbackCaller_refused : ~ may_generate true true (Some feedbackCaller).
Proof. rewrite <- canGenerateSniffer_spec. vm_compute. discriminate. Qed.

Lemma suppression_explained_witness :
  hasEvaluatedSubject (Some feedbackCaller) = true /\
  exists h w', serveMatched feedbackEnv feedbackRequest (Some feedbackCaller) None not_found fresh ∅ = (Some w', ∅) /\
    w_Sent w' = Some (404%Z, h) /\ h !! "X-Kdex-Sniffer-Suppressed" = Some ["functions:create"].
Proof.
  split; [reflexivity|].
  destruct (suppression_explained feedbackEnv feedbackRequest (Some feedbackCaller) fresh ∅ (Ok None))
    as (h & w' & Hserve & Hsent & Hev & _); [reflexivity|reflexivity|exact feedbackCaller_refused|].
  exists h, w'. split; [exact Hserve|]. split; [exact Hsent|]. apply Hev. reflexivity.
Defined.
