(* ===== verification/Pages.v ===== *)
(** Pages (src/internal/page; page.go, navigation.go and textpage.go of
    src/internal/host): the store of pages, the gate in front of one and where
    a refused caller is sent, the page tree a caller is shown, and how a page
    is answered. *)
From S2P Require Import Prelude GoStr Deps Claims Clients Url SubjectKind Denial Rewrite Proxy OpenApi Languages Response.
From Stdlib Require Import Ascii QArith.

#[local] Open Scope string_scope.

(** * Pages *)

Inductive page_type := HTMLPage | TextPage | RewritePage.
#[export] Instance page_type_eq : EqDecision page_type.
Proof. solve_decision. Defined.

(** spec.rewrite: what an alias names, and its path. *)
Record alias_spec := mkAlias { al_Kind : string; al_Name : string; al_Rewrite : RewriteSpec }.

(** spec.navigationHints: an icon, and a weight (a Kubernetes quantity). *)
Record navigation_hints := mkHints { nh_Icon : string; nh_Weight : option Q }.

Record page_spec := mkPageSpec {
  ps_BasePath : string;
  ps_PatternPath : string;
  ps_Label : string;
  ps_ParentPageRef : option string;
  ps_Localized : option bool;
  ps_MimeType : string;
  ps_Body : string;
  ps_Rewrite : option alias_spec;
  ps_Security : option (list (gmap string (list string)));
  ps_NavigationHints : option navigation_hints;
  ps_Tags : list OpenApi.Tag;
}.

Definition isLocalized (b : option bool) : bool := default true b.

(** [spec] is not nil. *)
Definition pageModeOf (spec : page_spec) : page_type :=
  match ps_Rewrite spec with
  | Some _ => RewritePage
  | None => if String.eqb (ps_MimeType spec) "" then HTMLPage else TextPage
  end.

Definition contentTypeFor (mime : string) : string :=
  if String.eqb mime "txt" then "text/plain; charset=utf-8"
  else if String.eqb mime "json" then "application/json"
  else if String.eqb mime "yaml" then "application/yaml"
  else if String.eqb mime "markdown" then "text/markdown; charset=utf-8"
  else if String.eqb mime "xml" then "application/xml"
  else "text/plain; charset=utf-8".

(** The observed status of an object: its generation and attributes. *)
Record object_status := mkStatus { st_ObservedGeneration : Z; st_Attributes : gmap string string }.

(** The hash over a status both a page and a host are keyed by; "" for none. *)
Definition status_checksum `{!Sha256} (s : option object_status) : string :=
  match s with
  | None => ""
  | Some s =>
      sha256hex (FormatInt (st_ObservedGeneration s) ++
        Join ((fun k => k ++ default "" (st_Attributes s !! k)) <$> sort_strings (map_to_list (st_Attributes s)).*1) "")
  end.

Section Pages.
Context `{!JwtClaims} `{!Entitlements} `{!LanguageTags} `{!Sha256}.

Record PageHandler := mkPage {
  ph_Name : string;
  ph_Page : page_spec;
  ph_ParsedRequirements : option ParsedRequirements;
  ph_Status : option object_status;
  ph_Navigations : gmap string string;
}.

Definition ph_BasePath (ph : PageHandler) : string := ps_BasePath (ph_Page ph).

Definition page_checksum (ph : PageHandler) : string := status_checksum (ph_Status ph).

Definition CacheKey (ph : PageHandler) (l : Tag) : string := ph_Name ph ++ ":" ++ page_checksum ph ++ ":" ++ TagString l.

(** * The store (page_store.go) *)

Abbreviation page_store := (gmap string PageHandler).

(** The store after an operation, and whether it calls back [onUpdate]. *)
Definition store_Set (ph : PageHandler) (s : page_store) : page_store * bool := (<[ph_Name ph := ph]> s, true).

Definition store_Delete (name : string) (s : page_store) : page_store * bool := (delete name s, found (s !! name)).

Definition UpdateParsedRequirements (name : string) (parsed : ParsedRequirements) (s : page_store) : page_store :=
  match s !! name with
  | Some ph =>
      <[name := mkPage (ph_Name ph) (ph_Page ph) (Some parsed) (ph_Status ph) (ph_Navigations ph)]> s
  | None => s
  end.

(** * The index of a rebuild (host.go) *)

Definition name_le (a b : PageHandler) : Prop := string_le (ph_Name a) (ph_Name b).
#[export] Instance name_le_dec : RelDecision name_le.
Proof. intros a b. unfold name_le. apply _. Defined.

Definition sort_pages (pages : list PageHandler) : list PageHandler := merge_sort name_le pages.

Record pageIndex := mkIndex {
  ix_pages : list PageHandler;
  ix_byName : gmap string PageHandler;
  ix_byBasePath : gmap string PageHandler;
}.

Definition newPageIndex (pages : list PageHandler) : pageIndex :=
  let sorted := sort_pages pages in
  mkIndex sorted (foldl (fun m ph => <[ph_Name ph := ph]> m) ∅ sorted)
    (foldl (fun m ph => <[ph_BasePath ph := ph]> m) ∅ sorted).

(** A function, as the pages refer to one. *)
Record function_ref := mkFunctionRef { fr_Name : string; fr_BasePath : string; fr_Internal : bool; fr_Ready : bool }.

Definition resolveRewriteTarget (al : alias_spec) (pagesByName : gmap string PageHandler) (functions : list function_ref)
    : option rewriteTarget :=
  if String.eqb (al_Kind al) "KDexPage" then
    match pagesByName !! al_Name al with
    | Some ph =>
        match pageModeOf (ph_Page ph) with
        | RewritePage => None
        | _ => let bp := ph_BasePath ph in Some (mkRewriteTarget bp bp (isLocalized (ps_Localized (ph_Page ph))))
        end
    | None => None
    end
  else if String.eqb (al_Kind al) "KDexFunction" then
    (fun x => mkRewriteTarget (fr_BasePath x.2) (fr_BasePath x.2) false) <$>
      list_find (fun f => (String.eqb (fr_Name f) (al_Name al) && negb (fr_Internal f) && fr_Ready f)%bool = true) functions
  else None.

(** * What a host knows of its pages and callers *)

Record page_host := mkPageHost {
  hp_authEnabled : bool;
  hp_checker : bool;
  hp_scopeBuckets : bool;
  hp_tree : pageIndex;
  hp_functions : list function_ref;
  hp_defaultLanguage : string;
  hp_landingPaths : list string;
  hp_hasLoginPage : bool;
  hp_forbid : bool;
  hp_issuer : string;
}.

(** * The tree (navigation.go) *)

Definition treeEntitlements (h : page_host) (ctx : option AuthContext) : option ParsedEntitlements :=
  if hp_checker h then Some (GetParsedEntitlements (hp_scopeBuckets h) (default ∅ ctx)) else None.

Definition visibleInTree (h : page_host) (ph : PageHandler) (held : option ParsedEntitlements) : bool :=
  match held with
  | Some held =>
      if (negb (hp_authEnabled h) || negb (hp_checker h))%bool then true else
      match ph_ParsedRequirements ph with
      | None => false
      | Some reqs =>
          match VerifyResourceParsedEntitlements "pages" (ph_BasePath ph) held reqs [] with
          | Ok access => access
          | Err _ => false
          end
      end
  | None => true
  end.

(** The bucket of [visibleChildren] for a parent, "" for the top level. *)
Definition visibleChildren (h : page_host) (held : option ParsedEntitlements) (parent : string) : list PageHandler :=
  filter (fun ph => (visibleInTree h ph held &&
    match ps_ParentPageRef (ph_Page ph) with
    | None => String.eqb parent ""
    | Some name => negb (String.eqb name "") && String.eqb name parent
    end)%bool = true) (ix_pages (hp_tree h)).

Definition navigationWeight (spec : page_spec) : Q :=
  default 0%Q (hints ← ps_NavigationHints spec; nh_Weight hints).

(** Lighter, then by base path. *)
Definition lighter (a b : PageHandler) : bool :=
  match Qcompare (navigationWeight (ph_Page a)) (navigationWeight (ph_Page b)) with
  | Lt => true
  | Gt => false
  | Eq => bool_decide (string_le (ph_BasePath a) (ph_BasePath b)) && negb (String.eqb (ph_BasePath a) (ph_BasePath b))
  end%bool.

(** [slices.MinFunc]: the first of the least. *)
Definition MinFunc (l : list PageHandler) : option PageHandler :=
  match l with
  | [] => None
  | x :: l => Some (foldl (fun best y => if lighter y best then y else best) x l)
  end.

Definition firstAuthorizedPage (h : page_host) (held : option ParsedEntitlements) : string :=
  match MinFunc (filter (fun ph => bool_decide (pageModeOf (ph_Page ph) <> TextPage) = true) (visibleChildren h held "")) with
  | None => ""
  | Some best => ph_BasePath best
  end.

Definition discoverLandingPage (h : page_host) (held : option ParsedEntitlements) : string :=
  match list_find (fun candidate =>
    match ix_byBasePath (hp_tree h) !! candidate with
    | Some ph => visibleInTree h ph held
    | None => false
    end = true) (hp_landingPaths h) with
  | Some (_, candidate) => candidate
  | None => firstAuthorizedPage h held
  end.

(** ** Entries *)

Record page_rewrite := mkPageRewrite { pw_Canonical : bool; pw_Kind : string; pw_Name : string; pw_Href : string }.

Definition rewriteEntry (h : page_host) (alias : PageHandler) (al : alias_spec) (l : Tag)
    (held : option ParsedEntitlements) : page_rewrite :=
  let entry := mkPageRewrite (rs_Canonical (al_Rewrite al)) (al_Kind al) (al_Name al) in
  let hidden :=
    if String.eqb (al_Kind al) "KDexPage"
    then match ix_byName (hp_tree h) !! al_Name al with
         | Some target => negb (visibleInTree h target held)
         | None => true
         end
    else false in
  if hidden then entry "" else
  match resolveRewriteTarget al (ix_byName (hp_tree h)) (hp_functions h) with
  | None => entry ""
  | Some resolved =>
      let lang := if isLocalized (ps_Localized (ph_Page alias)) then TagString l
                  else TagString (MakeTag (hp_defaultLanguage h)) in
      match rewriteTargetPath resolved (al_Rewrite al) (ps_PatternPath (ph_Page alias)) (fun _ => "") lang
              (hp_defaultLanguage h) with
      | Err _ => entry ""
      | Ok href =>
          entry (if (HasSuffix href "/" && negb (String.eqb href (rt_basePath resolved)) && negb (String.eqb href "/"))%bool
                 then TrimSuffix href "/" else href)
      end
  end.

Record entry_info := mkEntry {
  en_BasePath : string;
  en_Href : string;
  en_Label : string;
  en_Name : string;
  en_Type : page_type;
  en_Weight : Q;
  en_Rewrite : option page_rewrite;
  en_MimeType : string;
  en_Icon : string;
  en_Tags : list OpenApi.Tag;
}.

(** An entry and its children, by label. *)
Inductive page_entry := PageEntry (info : entry_info) (children : list (string * page_entry)).

Definition entry_of (h : page_host) (l : Tag) (isDefaultLanguage : bool) (held : option ParsedEntitlements)
    (ph : PageHandler) : entry_info :=
  let spec := ph_Page ph in
  mkEntry (ps_BasePath spec)
    (if (negb isDefaultLanguage && isLocalized (ps_Localized spec))%bool then "/" ++ TagString l ++ ps_BasePath spec
     else ps_BasePath spec)
    (ps_Label spec) (ph_Name ph) (pageModeOf spec) (navigationWeight spec)
    ((fun al => rewriteEntry h ph al l held) <$> ps_Rewrite spec)
    (match pageModeOf spec with TextPage => ps_MimeType spec | _ => "" end)
    (match ps_NavigationHints spec with Some hints => nh_Icon hints | None => "" end)
    (ps_Tags spec).

(** A label taken keeps its first entry. *)
Definition add_entry (acc : list (string * page_entry)) (x : string * page_entry) : list (string * page_entry) :=
  if contains_elem acc.*1 x.1 then acc else (acc ++ [x])%list.

(** [fuel] bounds the depth. *)
Fixpoint buildMenuEntries (h : page_host) (l : Tag) (isDefaultLanguage : bool) (held : option ParsedEntitlements)
    (fuel : nat) (parent : string) : list (string * page_entry) :=
  match fuel with
  | O => []
  | S fuel =>
      foldl add_entry []
        ((fun ph => (ps_Label (ph_Page ph),
            PageEntry (entry_of h l isDefaultLanguage held ph)
              (buildMenuEntries h l isDefaultLanguage held fuel (ph_Name ph)))) <$> visibleChildren h held parent)
  end.

(** A tree is no deeper than there are pages. *)
Definition tree_fuel (h : page_host) : nat := S (length (ix_pages (hp_tree h))).

Definition pageMap (h : page_host) (ctx : option AuthContext) (l : Tag) : list (string * page_entry) :=
  buildMenuEntries h l (String.eqb (TagString l) (hp_defaultLanguage h)) (treeEntitlements h ctx) (tree_fuel h) "".

(** * The gate (page.go) *)

(** How a request is let through or turned away. *)
Inductive page_gate :=
| GatePassed
| GateFault
| LoginRedirect (location : string)
| DiscoveryRedirect (location : string)
| GateDenied (o : Opts).

Record gated_request := mkGated {
  gr_clientPath : string;
  gr_clientRequestURI : string;
  gr_Query : values;
  gr_Header : headers;
}.

Definition pageGate (h : page_host) (r : gated_request) (ctx : option AuthContext) (ph : PageHandler) (l : Tag)
    : page_gate :=
  match ph_ParsedRequirements ph with
  | Some reqs =>
      if negb (hp_authEnabled h && hp_checker h) then GatePassed else
      let held := GetParsedEntitlements (hp_scopeBuckets h) (default ∅ ctx) in
      match VerifyResourceParsedEntitlements "pages" (ph_BasePath ph) held reqs [] with
      | Err _ => GateFault
      | Ok true => GatePassed
      | Ok false =>
          let outcome := Classify (hp_checker h) ctx held "pages" (ph_BasePath ph) [] in
          let denied := GateDenied (mkOpts outcome (hp_issuer h) "" []) in
          match outcome with
          | Unauthenticated =>
              if (negb (found ctx) && hp_hasLoginPage h && acceptsHTML (gr_Header r))%bool
              then LoginRedirect ("/-/login?return=" ++ QueryEscape (gr_clientRequestURI r))
              else denied
          | _ =>
              if (negb (hp_forbid h) && acceptsHTML (gr_Header r) && negb (found (gr_Query r !! "denied")))%bool then
                let first := discoverLandingPage h (Some held) in
                if String.eqb first "" then denied else
                let first := if String.eqb (TagString l) (hp_defaultLanguage h) then first
                             else "/" ++ TagString l ++ first in
                DiscoveryRedirect (first ++ "?denied=" ++ QueryEscape (gr_clientPath r))
              else denied
          end
      end%bool
  | None => GatePassed
  end.

(** * Answering a page *)

Definition renderFormatVersion : string := "3".
Definition pageCacheClass : string := "page.v" ++ renderFormatVersion.

Definition readsPageTree (ph : PageHandler) : bool :=
  match pageModeOf (ph_Page ph) with TextPage => Contains (ps_Body (ph_Page ph)) "PageMap" | _ => false end.

Definition treeSeed (digest pageChecksum : string) : string := pageChecksum ++ ":" ++ digest.

Definition page_seed (digest : string) (ph : PageHandler) : string :=
  if readsPageTree ph then treeSeed digest (page_checksum ph) else page_checksum ph.

Definition page_key (digest : string) (ph : PageHandler) (l : Tag) : string :=
  if readsPageTree ph then CacheKey ph l ++ ":" ++ digest else CacheKey ph l.

(** The renders cached: the text, and whether its generation is current. *)
Abbreviation render_cache := (gmap string (string * bool)).

Inductive page_answer :=
| PageGate (g : page_gate)
| PageNotModified
| PageServed (contentType : string) (lang : string) (body : string)
| PageFailed.

(** [notModified] is what the caching headers of the page's seed decide;
    [render] renders a page in a language, given the tree an anonymous caller
    sees when its body reads it. A stale hit is rendered again, after the
    answer. *)
Definition pageHandlerFunc (h : page_host) (digest : string)
    (notModified : string -> bool) (render : PageHandler -> Tag -> option (list (string * page_entry)) -> option string)
    (ph : PageHandler) (l : Tag) (r : gated_request) (ctx : option AuthContext) (cache : render_cache)
    : page_answer * render_cache :=
  match pageGate h r ctx ph l with
  | GatePassed =>
      if notModified (page_seed digest ph) then (PageNotModified, cache) else
      let key := page_key digest ph l in
      let tree := if readsPageTree ph then Some (pageMap h None l) else None in
      let served := PageServed (match pageModeOf (ph_Page ph) with
                                | TextPage => contentTypeFor (ps_MimeType (ph_Page ph))
                                | _ => "text/html" end) (TagString l) in
      match cache !! key with
      | Some (body, true) => (served body, cache)
      | Some (body, false) =>
          (served body, match render ph l tree with Some fresh => <[key := (fresh, true)]> cache | None => cache end)
      | None =>
          match render ph l tree with
          | Some fresh => (served fresh, <[key := (fresh, true)]> cache)
          | None => (PageFailed, cache)
          end
      end
  | g => (PageGate g, cache)
  end.
End Pages.
