(* ===== verification/PagesSpec.v ===== *)
(** A page tree lists exactly the pages its caller can open, to its full depth;
    a caller who is turned away is sent only where it can go. *)
From S2P Require Import Prelude GoStr Deps Claims Clients Url SubjectKind Denial Rewrite Proxy OpenApi Languages Response Pages.
From Stdlib Require Import Ascii QArith.

#[local] Open Scope string_scope.

Section PagesSpec.
Context `{!JwtClaims} `{!Entitlements} `{!LanguageTags} `{!Sha256}.

Implicit Types (h : page_host) (ph : PageHandler).

(** * The index *)

Lemma sort_pages_perm pages : sort_pages pages ≡ₚ pages.
Proof. unfold sort_pages. apply merge_sort_Permutation. Qed.

Lemma foldl_insert_lookup (f : PageHandler -> string) (l : list PageHandler) : forall acc k ph,
  foldl (fun (m : gmap string PageHandler) ph => <[f ph := ph]> m) acc l !! k = Some ph ->
  acc !! k = Some ph \/ (ph ∈ l /\ f ph = k).
Proof.
  induction l as [|x l IH]; intros acc k ph; simpl; [by left|]. intros Hl. apply IH in Hl as [Hl|[Hin Hf]].
  - apply lookup_insert_Some in Hl as [[<- <-]|[_ Hl]]; [right; split; [by left|done]|by left].
  - right. split; [by right|done].
Qed.

Lemma byBasePath_spec pages bp ph :
  ix_byBasePath (newPageIndex pages) !! bp = Some ph -> ph ∈ pages /\ ph_BasePath ph = bp.
Proof.
  intros Hl. apply foldl_insert_lookup in Hl as [Hl|[Hin Hf]]; [by rewrite lookup_empty in Hl|].
  split; [|done]. by rewrite <- (sort_pages_perm pages).
Qed.

Lemma byName_spec pages name ph :
  ix_byName (newPageIndex pages) !! name = Some ph -> ph ∈ pages /\ ph_Name ph = name.
Proof.
  intros Hl. apply foldl_insert_lookup in Hl as [Hl|[Hin Hf]]; [by rewrite lookup_empty in Hl|].
  split; [|done]. by rewrite <- (sort_pages_perm pages).
Qed.

(** * What a caller sees it can open *)

Lemma visible_passes h ctx ph :
  visibleInTree h ph (treeEntitlements h ctx) = true -> forall r l, pageGate h r ctx ph l = GatePassed.
Proof.
  unfold visibleInTree, treeEntitlements. intros Hv rr l. unfold pageGate.
  destruct (ph_ParsedRequirements ph) as [reqs|]; [|done].
  destruct (hp_checker h); simpl in *; [|by rewrite andb_false_r].
  destruct (hp_authEnabled h); simpl in *; [|done]. by destruct (VerifyResourceParsedEntitlements _ _ _ _ _) as [[]|].
Qed.

Definition parent_name (ph : PageHandler) : string := default "" (ps_ParentPageRef (ph_Page ph)).

Lemma elem_of_visibleChildren h held parent ph :
  ph ∈ visibleChildren h held parent <->
  ph ∈ ix_pages (hp_tree h) /\ visibleInTree h ph held = true /\ parent_name ph = parent /\
  ps_ParentPageRef (ph_Page ph) <> Some "".
Proof.
  unfold visibleChildren, parent_name. rewrite list_elem_of_filter, andb_true_iff.
  destruct (ps_ParentPageRef (ph_Page ph)) as [name|]; simpl.
  - rewrite andb_true_iff, negb_true_iff, String.eqb_neq, String.eqb_eq.
    split; [intros ((? & ? & ?) & ?); split_and!; try done; congruence|].
    intros (? & ? & <- & Hne). split_and!; try done. congruence.
  - rewrite String.eqb_eq. split; [intros ((? & ->) & ?)|intros (? & ? & <- & _)]; split_and!; done.
Qed.

(** ** Labels *)

Lemma elem_of_add_entries (l : list (string * page_entry)) : forall acc k x,
  (k, x) ∈ foldl add_entry acc l <->
  (k, x) ∈ acc \/ (k ∉ acc.*1 /\ exists l1 l2, l = (l1 ++ (k, x) :: l2)%list /\ k ∉ l1.*1).
Proof.
  induction l as [|[k0 x0] l IH]; intros acc k x; simpl.
  { split; [by left|]. intros [?|(_ & l1 & l2 & Hnil & _)]; [done|]. by destruct l1. }
  rewrite IH. unfold add_entry at 1 2. simpl. destruct (contains_elem acc.*1 k0) eqn:Hc.
  - apply contains_elem_spec in Hc. split; (intros [?|(Hn & l1 & l2 & Heq & Hl1)]; [by left|right; split; [done|]]).
    + exists ((k0, x0) :: l1), l2. split; [by rewrite Heq|]. simpl. intros [->|?]%elem_of_cons; done.
    + destruct l1 as [|y l1]; simpl in Heq; injection Heq as ? ?; simplify_eq/=; [done|].
      exists l1, l2. split; [done|]. intros Hin. apply Hl1. by right.
  - assert (Hnc : k0 ∉ acc.*1) by (intros Hin%contains_elem_spec; congruence).
    rewrite elem_of_app, list_elem_of_singleton, fmap_app, elem_of_app. simpl. rewrite list_elem_of_singleton. split.
    + intros [[?|[= -> ->]]|(Hn & l1 & l2 & Heq & Hl1)].
      * by left.
      * right. split; [done|]. exists [], l. split; [done|]. by intros ?%elem_of_nil.
      * right. split; [tauto|]. exists ((k0, x0) :: l1), l2. split; [by rewrite Heq|]. simpl.
        intros [->|?]%elem_of_cons; tauto.
    + intros [?|(Hn & l1 & l2 & Heq & Hl1)]; [by left; left|].
      destruct l1 as [|y l1]; simpl in Heq; injection Heq as ? ?; simplify_eq/=; [left; by right|].
      right. split.
      { intros [?| ->]; [done|]. apply Hl1. by left. }
      exists l1, l2. split; [done|]. intros Hin. apply Hl1. by right.
Qed.

(** ** The pages a tree shows *)

(** A visible child of [parent] whose label no earlier sibling took. *)
Definition shown_child h held (parent : string) ph : Prop :=
  exists l1 l2, visibleChildren h held parent = (l1 ++ ph :: l2)%list /\
    ps_Label (ph_Page ph) ∉ (fun q => ps_Label (ph_Page q)) <$> l1.

Inductive shown h held : string -> PageHandler -> Prop :=
| shown_here parent ph : shown_child h held parent ph -> shown h held parent ph
| shown_below parent ph ph' :
    shown_child h held parent ph -> shown h held (ph_Name ph) ph' -> shown h held parent ph'.

(** The entries of a tree, at every depth. *)
Inductive listed : list (string * page_entry) -> entry_info -> Prop :=
| listed_here l label info children : (label, PageEntry info children) ∈ l -> listed l info
| listed_below l label info children info' :
    (label, PageEntry info children) ∈ l -> listed children info' -> listed l info'.

Lemma shown_child_visible h held parent ph : shown_child h held parent ph -> ph ∈ visibleChildren h held parent.
Proof. intros (l1 & l2 & -> & _). apply elem_of_app. right. by left. Qed.

Lemma elem_of_entries h l d held fuel parent label info children :
  (label, PageEntry info children) ∈ buildMenuEntries h l d held (S fuel) parent <->
  exists ph, shown_child h held parent ph /\ label = ps_Label (ph_Page ph) /\ info = entry_of h l d held ph /\
    children = buildMenuEntries h l d held fuel (ph_Name ph).
Proof.
  cbn [buildMenuEntries]. rewrite elem_of_add_entries. split.
  - intros [Hn|(_ & l1 & l2 & Heq & Hl1)]; [by apply elem_of_nil in Hn|].
    apply fmap_app_inv in Heq as (v1 & v2 & -> & Hv2 & Hv). symmetry in Hv2.
    apply fmap_cons_inv in Hv2 as (ph & v3 & [= -> -> ->] & -> & ->). exists ph. split; [|done].
    exists v1, v3. split; [done|]. intros Hin. apply Hl1. rewrite <- list_fmap_compose. exact Hin.
  - intros (ph & (v1 & v2 & Hv & Hl) & -> & -> & ->). right. split; [by intros ?%elem_of_nil|].
    rewrite Hv, fmap_app. simpl. do 2 eexists. split; [reflexivity|]. rewrite <- list_fmap_compose. exact Hl.
Qed.

Lemma listed_shown h l d held fuel : forall parent info,
  listed (buildMenuEntries h l d held fuel parent) info ->
  exists ph, shown h held parent ph /\ info = entry_of h l d held ph.
Proof.
  induction fuel as [|fuel IH]; intros parent info Hl.
  { inversion Hl as [? ? ? ? Hin|? ? ? ? ? Hin _]; subst; by apply elem_of_nil in Hin. }
  inversion Hl as [? label ? children Hin|? label i children ? Hin Hb]; subst.
  - apply elem_of_entries in Hin as (ph & Hs & _ & -> & _). exists ph. split; [by apply shown_here|done].
  - apply elem_of_entries in Hin as (ph & Hs & _ & _ & ->). apply IH in Hb as (ph' & Hs' & ->).
    exists ph'. split; [by eapply shown_below|done].
Qed.

(** ** Depth *)

(** The ancestors of a name, itself first: the page, its parent, and so on up
    to the top level. *)
Inductive ancestry (pages : list PageHandler) : string -> list string -> Prop :=
| ancestry_top : ancestry pages "" []
| ancestry_page ph path :
    ph ∈ pages -> ancestry pages (parent_name ph) path -> ancestry pages (ph_Name ph) (ph_Name ph :: path).

(** Distinct names, none empty, as Kubernetes names are. *)
Definition well_named (pages : list PageHandler) : Prop := NoDup (ph_Name <$> pages) /\ "" ∉ ph_Name <$> pages.

Lemma NoDup_fmap_inj {A B} (f : A -> B) (l : list A) x y :
  NoDup (f <$> l) -> x ∈ l -> y ∈ l -> f x = f y -> x = y.
Proof.
  induction l as [|z l IH]; simpl; [by intros _ ?%elem_of_nil|].
  rewrite NoDup_cons, !elem_of_cons. intros [Hz Hl] [->|Hx] [->|Hy] Hf; [done|..|by apply IH];
    exfalso; apply Hz; [rewrite Hf|rewrite <- Hf]; by apply list_elem_of_fmap_2.
Qed.

Lemma ancestry_unique pages : well_named pages ->
  forall name path, ancestry pages name path -> forall path', ancestry pages name path' -> path = path'.
Proof.
  intros [Hnd Hne] name path Ha. induction Ha as [|ph path Hin Ha IH]; intros path' Ha'.
  - inversion Ha' as [|ph path Hin _ Heq]; [done|]. exfalso. apply Hne. rewrite <- Heq. by apply list_elem_of_fmap_2.
  - inversion Ha' as [Heq|ph' path0 Hin' Ha0 Heq]; subst.
    + exfalso. apply Hne. rewrite Heq. by apply list_elem_of_fmap_2.
    + assert (ph' = ph) as -> by (by eapply (NoDup_fmap_inj ph_Name)). f_equal. by apply IH.
Qed.

Lemma ancestry_names pages name path : ancestry pages name path -> forall n, n ∈ path -> n ∈ ph_Name <$> pages.
Proof.
  intros Ha. induction Ha as [|ph path Hin _ IH]; intros n; [by intros ?%elem_of_nil|].
  intros [->|Hn]%elem_of_cons; [by apply list_elem_of_fmap_2|by apply IH].
Qed.

(** A name among a page's ancestors has a shorter ancestry of its own. *)
Lemma ancestry_suffix pages name path : ancestry pages name path ->
  forall n, n ∈ path -> exists path', ancestry pages n path' /\ (length path' <= length path)%nat.
Proof.
  intros Ha. induction Ha as [|ph path Hin Ha IH]; intros n; [by intros ?%elem_of_nil|].
  intros [->|Hn]%elem_of_cons; [eexists; split; [by apply ancestry_page|done]|].
  destruct (IH n Hn) as (path' & Ha' & Hle). exists path'. split; [done|]. simpl. lia.
Qed.

Lemma ancestry_NoDup pages : well_named pages -> forall name path, ancestry pages name path -> NoDup path.
Proof.
  intros Hw name path Ha. induction Ha as [|ph path Hin Ha IH]; [apply NoDup_nil_2|].
  apply NoDup_cons. split; [|done]. intros Hn.
  destruct (ancestry_suffix pages _ _ Ha _ Hn) as (path' & Ha' & Hle).
  assert (path' = ph_Name ph :: path) as -> by (eapply (ancestry_unique pages Hw); [done|by apply ancestry_page]).
  simpl in Hle. lia.
Qed.

Lemma ancestry_length pages name path :
  well_named pages -> ancestry pages name path -> (length path <= length pages)%nat.
Proof.
  intros Hw Ha. rewrite <- (length_fmap ph_Name pages). apply submseteq_length, NoDup_submseteq.
  - by eapply ancestry_NoDup.
  - intros n Hn. by eapply ancestry_names.
Qed.

Lemma child_ancestry h held parent ph path :
  ancestry (ix_pages (hp_tree h)) parent path -> ph ∈ visibleChildren h held parent ->
  ancestry (ix_pages (hp_tree h)) (ph_Name ph) (ph_Name ph :: path).
Proof.
  intros Ha (Hin & _ & <- & _)%elem_of_visibleChildren. by apply ancestry_page.
Qed.

Lemma shown_listed h l d held : well_named (ix_pages (hp_tree h)) ->
  forall parent ph, shown h held parent ph ->
  forall path fuel, ancestry (ix_pages (hp_tree h)) parent path ->
    (length (ix_pages (hp_tree h)) < length path + fuel)%nat ->
    listed (buildMenuEntries h l d held fuel parent) (entry_of h l d held ph).
Proof.
  intros Hw parent ph Hs. induction Hs as [parent ph Hs|parent ph ph' Hs Hsub IH]; intros path fuel Ha Hf.
  - destruct fuel as [|fuel]; [pose proof (ancestry_length _ _ _ Hw Ha); lia|].
    eapply listed_here, elem_of_entries. by exists ph.
  - destruct fuel as [|fuel]; [pose proof (ancestry_length _ _ _ Hw Ha); lia|].
    pose proof (child_ancestry _ _ _ _ _ Ha (shown_child_visible _ _ _ _ Hs)) as Ha'.
    eapply listed_below.
    + apply elem_of_entries. by exists ph.
    + apply (IH _ fuel Ha'). simpl. lia.
Qed.

Lemma shown_visible h held parent ph : shown h held parent ph ->
  ph ∈ ix_pages (hp_tree h) /\ visibleInTree h ph held = true.
Proof.
  induction 1 as [parent ph Hs|]; [|done]. apply shown_child_visible, elem_of_visibleChildren in Hs. tauto.
Qed.

(** C24: The page tree a caller is shown lists, at every depth and however the
    pages name their parents (cycles and missing parents included), exactly
    the entries of the pages that hang from the top level through pages the
    caller can see, the first of a label among its siblings; and the gate lets
    that caller through to every page listed. *)
Theorem tree_exact h ctx l :
  well_named (ix_pages (hp_tree h)) ->
  (forall info, listed (pageMap h ctx l) info <->
     exists ph, shown h (treeEntitlements h ctx) "" ph /\
       info = entry_of h l (String.eqb (TagString l) (hp_defaultLanguage h)) (treeEntitlements h ctx) ph) /\
  (forall ph, shown h (treeEntitlements h ctx) "" ph -> forall r l', pageGate h r ctx ph l' = GatePassed).
Proof.
  intros Hw. split.
  - intros info. split; [apply listed_shown|]. intros (ph & Hs & ->). unfold pageMap.
    apply (shown_listed h l _ _ Hw "" ph Hs [] _ (ancestry_top _)). unfold tree_fuel. simpl. lia.
  - intros ph Hs. apply visible_passes. by apply shown_visible in Hs as [_ Hv].
Qed.

(** More fuel lists nothing more: the recursion of the code ends. *)
Lemma tree_fuel_enough h l d held fuel info :
  well_named (ix_pages (hp_tree h)) -> (tree_fuel h <= fuel)%nat ->
  listed (buildMenuEntries h l d held fuel "") info <-> listed (buildMenuEntries h l d held (tree_fuel h) "") info.
Proof.
  intros Hw Hf. unfold tree_fuel in *. split; intros (ph & Hs & ->)%listed_shown;
    apply (shown_listed h l _ _ Hw "" ph Hs [] _ (ancestry_top _)); simpl; lia.
Qed.

(** * Where a refused caller lands *)

Lemma lighter_irrefl ph : lighter ph ph = false.
Proof.
  unfold lighter. replace (Qcompare _ _) with Eq; [by rewrite String.eqb_refl, andb_false_r|].
  symmetry. apply Qeq_alt. reflexivity.
Qed.

Lemma lighter_spec a b : lighter a b = true <->
  (navigationWeight (ph_Page a) < navigationWeight (ph_Page b))%Q \/
  (navigationWeight (ph_Page a) == navigationWeight (ph_Page b))%Q /\
    string_le (ph_BasePath a) (ph_BasePath b) /\ ph_BasePath a <> ph_BasePath b.
Proof.
  unfold lighter. destruct (Qcompare _ _) eqn:Hc.
  - apply Qeq_alt in Hc. rewrite andb_true_iff, bool_decide_eq_true, negb_true_iff, String.eqb_neq.
    split; [tauto|]. intros [Hlt|?]; [|tauto]. rewrite Hc in Hlt. by apply Qlt_irrefl in Hlt.
  - apply Qlt_alt in Hc. tauto.
  - apply Qgt_alt in Hc. split; [done|]. intros [Hlt|[Heq _]].
    + exfalso. eapply Qlt_irrefl, Qlt_trans; eassumption.
    + rewrite Heq in Hc. by apply Qlt_irrefl in Hc.
Qed.

Lemma lighter_trans a b c : lighter a b = true -> lighter b c = true -> lighter a c = true.
Proof.
  rewrite !lighter_spec. intros [Hab|(Hab & Hl & Hn)] [Hbc|(Hbc & Hl' & Hn')].
  - left. by eapply Qlt_trans.
  - left. by rewrite <- Hbc.
  - left. by rewrite Hab.
  - right. split; [by rewrite Hab|]. split; [by etransitivity|].
    intros Heq. apply Hn. apply String.leb_antisym; [done|]. unfold string_le in *. by rewrite Heq.
Qed.

Lemma MinFunc_spec l best : MinFunc l = Some best -> best ∈ l /\ forall ph, ph ∈ l -> lighter ph best = false.
Proof.
  destruct l as [|x l]; [done|]. cbn [MinFunc]. intros [= <-].
  assert (Hgen : forall l seen best, best ∈ seen -> (forall ph, ph ∈ seen -> lighter ph best = false) ->
    let best' := foldl (fun best y => if lighter y best then y else best) best l in
    best' ∈ (seen ++ l)%list /\ forall ph, ph ∈ (seen ++ l)%list -> lighter ph best' = false).
  { clear. induction l as [|y l IH]; intros seen best Hin Hmin; cbv zeta.
    - rewrite app_nil_r. done.
    - replace (seen ++ y :: l)%list with ((seen ++ [y]) ++ l)%list by by rewrite <- app_assoc.
      cbn [foldl]. apply IH.
      + rewrite elem_of_app, list_elem_of_singleton. destruct (lighter y best); tauto.
      + intros ph [Hp|Hp]%elem_of_app; [|apply list_elem_of_singleton in Hp as ->].
        * destruct (lighter y best) eqn:Hy; [|by apply Hmin]. apply not_true_iff_false. intros Hpy.
          pose proof (lighter_trans _ _ _ Hpy Hy) as Ht. by rewrite (Hmin _ Hp) in Ht.
        * destruct (lighter y best) eqn:Hy; [apply lighter_irrefl|done]. }
  apply (Hgen l [x] x); [by left|]. intros ph Hp. apply list_elem_of_singleton in Hp as ->. apply lighter_irrefl.
Qed.

(** The landing page is one the caller can see, with no lighter one among the
    candidates, or "" when the caller can see none. *)
Lemma firstAuthorizedPage_spec h held bp : firstAuthorizedPage h held = bp -> bp <> "" ->
  exists ph, ph ∈ visibleChildren h held "" /\ pageModeOf (ph_Page ph) <> TextPage /\ ph_BasePath ph = bp /\
    forall ph', ph' ∈ visibleChildren h held "" -> pageModeOf (ph_Page ph') <> TextPage -> lighter ph' ph = false.
Proof.
  unfold firstAuthorizedPage. destruct (MinFunc _) as [best|] eqn:Hm; [|by intros <-]. intros <- _.
  apply MinFunc_spec in Hm as [Hin Hmin]. apply list_elem_of_filter in Hin as [Ht Hin]. apply bool_decide_eq_true in Ht.
  exists best. split_and!; try done. intros ph' Hin' Ht'. apply Hmin. apply list_elem_of_filter.
  split; [by apply bool_decide_eq_true|done].
Qed.

Lemma discoverLandingPage_spec h held bp pages :
  hp_tree h = newPageIndex pages -> discoverLandingPage h held = bp -> bp <> "" ->
  exists ph, ph ∈ pages /\ ph_BasePath ph = bp /\ visibleInTree h ph held = true.
Proof.
  intros Htree. unfold discoverLandingPage. destruct (list_find _ _) as [[i c]|] eqn:Hf.
  - intros <- _. apply list_find_Some in Hf as (_ & Hv & _). rewrite Htree in Hv.
    destruct (ix_byBasePath (newPageIndex pages) !! c) as [ph|] eqn:Hl; [|done].
    apply byBasePath_spec in Hl as [Hin Hb]. by exists ph.
  - intros Hb Hne. destruct (firstAuthorizedPage_spec _ _ _ Hb Hne) as (ph & Hin & _ & Hbp & _).
    apply elem_of_visibleChildren in Hin as (Hin & Hv & _). exists ph. split_and!; [|done|done].
    rewrite Htree in Hin. by rewrite <- (sort_pages_perm pages).
Qed.

Lemma Classify_identity checker ctx held resource name verbs :
  Classify checker ctx held resource name verbs <> Unauthenticated ->
  exists ac, ctx = Some ac /\ subject_of ac <> "".
Proof.
  unfold Classify. destruct ctx as [ac|]; [|done]. destruct (String.eqb (subject_of ac) "") eqn:Hs; [done|].
  intros _. exists ac. split; [done|]. by apply String.eqb_neq.
Qed.

(** The discovery redirect, or a refusal of someone. *)
Lemma discovery_lands h pages r ctx l outcome issuer resource name verbs :
  hp_tree h = newPageIndex pages -> hp_authEnabled h = true -> hp_checker h = true ->
  let held := GetParsedEntitlements (hp_scopeBuckets h) (default ∅ ctx) in
  outcome = Classify true ctx held resource name verbs -> outcome <> Unauthenticated ->
  match (if (negb (hp_forbid h) && acceptsHTML (gr_Header r) && negb (found (gr_Query r !! "denied")))%bool then
           let first := discoverLandingPage h (Some held) in
           if String.eqb first "" then GateDenied (mkOpts outcome issuer "" []) else
           let first := if String.eqb (TagString l) (hp_defaultLanguage h) then first else "/" ++ TagString l ++ first in
           DiscoveryRedirect (first ++ "?denied=" ++ QueryEscape (gr_clientPath r))
         else GateDenied (mkOpts outcome issuer "" [])) with
  | DiscoveryRedirect location =>
      (exists ac, ctx = Some ac /\ subject_of ac <> "") /\ acceptsHTML (gr_Header r) = true /\
      gr_Query r !! "denied" = None /\
      exists landing prefix, landing ∈ pages /\
        location = prefix ++ ph_BasePath landing ++ "?denied=" ++ QueryEscape (gr_clientPath r) /\
        prefix ∈ [""; "/" ++ TagString l] /\
        forall r' l', pageGate h r' ctx landing l' = GatePassed
  | GateDenied o => op_Outcome o = Unauthenticated <-> (ctx = None \/ exists ac, ctx = Some ac /\ subject_of ac = "")
  | _ => False
  end.
Proof.
  intros Htree Hae Hck held Hout Hne.
  assert (Hid : exists ac, ctx = Some ac /\ subject_of ac <> "") by (rewrite Hout in Hne; by eapply Classify_identity).
  assert (Hden : outcome = Unauthenticated <-> (ctx = None \/ exists ac, ctx = Some ac /\ subject_of ac = "")).
  { split; [done|]. destruct Hid as (ac & -> & Hs). intros [?|(ac' & [= <-] & Hs')]; done. }
  destruct (_ && _ && _)%bool eqn:Hd; [|exact Hden]. apply andb_prop in Hd as [[_ Ha]%andb_prop Hq].
  cbv zeta. destruct (String.eqb (discoverLandingPage h (Some held)) "") eqn:He; [exact Hden|].
  apply String.eqb_neq in He.
  destruct (discoverLandingPage_spec h (Some held) _ pages Htree eq_refl He) as (ph & Hin & Hb & Hv).
  split; [done|]. split; [done|]. split; [by destruct (gr_Query r !! "denied")|].
  exists ph, (if String.eqb (TagString l) (hp_defaultLanguage h) then "" else "/" ++ TagString l).
  split; [done|]. split; [|split].
  - rewrite Hb. case_match; [done|]. by rewrite !append_assoc.
  - case_match; [by left|right; by left].
  - apply visible_passes. unfold treeEntitlements. by rewrite Hck.
Qed.

(** A caller the gate turns away from a page is sent somewhere only when it
    can follow: to the login form when it presented no credential at all and
    can render one, so that logging in is what changes the answer; or, when it
    is someone, once, to a page whose own gate lets this very caller through,
    so that the redirect is not followed by another. Any other refusal is a
    status. *)
Theorem refused_sent_where_it_can_go h pages r ctx ph l :
  hp_tree h = newPageIndex pages ->
  match pageGate h r ctx ph l with
  | LoginRedirect location =>
      ctx = None /\ acceptsHTML (gr_Header r) = true /\ hp_hasLoginPage h = true /\
      location = "/-/login?return=" ++ QueryEscape (gr_clientRequestURI r)
  | DiscoveryRedirect location =>
      (exists ac, ctx = Some ac /\ subject_of ac <> "") /\ acceptsHTML (gr_Header r) = true /\
      gr_Query r !! "denied" = None /\
      exists landing prefix, landing ∈ pages /\
        location = prefix ++ ph_BasePath landing ++ "?denied=" ++ QueryEscape (gr_clientPath r) /\
        prefix ∈ [""; "/" ++ TagString l] /\
        forall r' l', pageGate h r' ctx landing l' = GatePassed
  | GateDenied o => op_Outcome o = Unauthenticated <-> (ctx = None \/ exists ac, ctx = Some ac /\ subject_of ac = "")
  | GatePassed | GateFault => True
  end.
Proof.
  intros Htree. unfold pageGate at 1. destruct (ph_ParsedRequirements ph) as [reqs|]; [|done].
  destruct (hp_authEnabled h && hp_checker h)%bool eqn:Hon; simpl; [|done]. apply andb_prop in Hon as [Hae Hck].
  destruct (VerifyResourceParsedEntitlements _ _ _ _ _) as [[]|]; [done| |done]. rewrite Hck.
  set (held := GetParsedEntitlements (hp_scopeBuckets h) (default ∅ ctx)).
  destruct (Classify true ctx held "pages" (ph_BasePath ph) []) eqn:Ho.
  - assert (Hu : ctx = None \/ exists ac, ctx = Some ac /\ subject_of ac = "").
    { unfold Classify in Ho. destruct ctx as [ac|]; [|by left]. right. exists ac. split; [done|].
      destruct (String.eqb (subject_of ac) "") eqn:Hs; [by apply String.eqb_eq|]. simpl in Ho. by repeat case_match. }
    destruct (negb (found ctx) && _ && _)%bool eqn:Hlogin; simpl; [|tauto]. apply andb_prop in Hlogin as [[Hc Hp]%andb_prop Ha].
    apply negb_true_iff in Hc. by destruct ctx.
  - pose proof (discovery_lands h pages r ctx l NoIdentity (hp_issuer h) "pages" (ph_BasePath ph) [] Htree Hae Hck
      (eq_sym Ho) ltac:(done)) as Hd. subst held. cbv zeta in Hd |- *.
    destruct (negb (hp_forbid h) && _ && _)%bool; [|exact Hd]. by destruct (String.eqb (discoverLandingPage _ _) "").
  - pose proof (discovery_lands h pages r ctx l InsufficientScope (hp_issuer h) "pages" (ph_BasePath ph) [] Htree Hae Hck
      (eq_sym Ho) ltac:(done)) as Hd. subst held. cbv zeta in Hd |- *.
    destruct (negb (hp_forbid h) && _ && _)%bool; [|exact Hd]. by destruct (String.eqb (discoverLandingPage _ _) "").
Qed.

(** An alias's entry gives the URL of a page it serves only to a caller who can
    see that page. *)
Lemma alias_href_visible h alias al l held :
  rewriteEntry h alias al l held = mkPageRewrite (rs_Canonical (al_Rewrite al)) (al_Kind al) (al_Name al) "" \/
  (al_Kind al = "KDexPage" ->
   exists target, ix_byName (hp_tree h) !! al_Name al = Some target /\ visibleInTree h target held = true).
Proof.
  unfold rewriteEntry. cbv zeta. destruct (String.eqb_spec (al_Kind al) "KDexPage") as [Hk|Hk]; [|by right].
  destruct (ix_byName (hp_tree h) !! al_Name al) as [target|]; [|by left].
  destruct (visibleInTree h target held) eqn:Hv; simpl; [|by left]. right. intros _. by exists target.
Qed.

(** A page is rendered, served or declared unchanged only past its gate;
    and what one caller past the gate is answered, and leaves in the cache,
    any other caller past it would be: the cache, shared by all, holds nothing
    of one caller's. *)
Theorem page_answered_past_gate h digest notModified render ph l r ctx cache :
  let '(a, cache') := pageHandlerFunc h digest notModified render ph l r ctx cache in
  ((exists g, a = PageGate g /\ g = pageGate h r ctx ph l /\ g <> GatePassed /\ cache' = cache) \/
   (pageGate h r ctx ph l = GatePassed /\
    forall r' ctx', pageGate h r' ctx' ph l = GatePassed ->
      pageHandlerFunc h digest notModified render ph l r' ctx' cache = (a, cache'))) /\
  (cache' = cache \/ exists fresh, cache' = <[page_key digest ph l := (fresh, true)]> cache /\
     render ph l (if readsPageTree ph then Some (pageMap h None l) else None) = Some fresh).
Proof.
  destruct (pageHandlerFunc h digest notModified render ph l r ctx cache) as [a cache'] eqn:Heq.
  assert (Hdec : pageGate h r ctx ph l = GatePassed \/ (a, cache') = (PageGate (pageGate h r ctx ph l), cache)).
  { rewrite <- Heq. unfold pageHandlerFunc. destruct (pageGate h r ctx ph l); [by left|by right..]. }
  split.
  - destruct (pageGate h r ctx ph l) eqn:Hg; [right; split; [done|]|..];
      try (left; destruct Hdec as [?|[= -> ->]]; [done|]; eexists; split_and!; done).
    intros r' ctx' Hg'. rewrite <- Heq. unfold pageHandlerFunc. by rewrite Hg, Hg'.
  - unfold pageHandlerFunc in Heq.
    destruct (pageGate h r ctx ph l); try (injection Heq as <- <-; by left).
    cbv zeta in Heq. destruct (notModified _); [injection Heq as <- <-; by left|].
    destruct (cache !! page_key digest ph l) as [[body []]|]; [injection Heq as <- <-; by left|..];
      destruct (render _ _ _) as [fresh|] eqn:Hr; injection Heq as <- <-; first [by left|right; by eexists].
Qed.
End PagesSpec.

(** * A small site *)

#[local] Existing Instance jwtExample.
#[local] Existing Instance languagesExample.
#[local] Existing Instance sha256Example.

(** A checker that wants one of the requirements' bearer lists held in full. *)
Definition siteEntitlements : Entitlements := {|
  ParsedEntitlements := list string;
  ParsedRequirements := list (gmap string (list string));
  ParseEntitlements u := default [] (u !! "bearer");
  ParseRequirements l := l;
  VerifyParsedEntitlements ents reqs := true;
  VerifyResource resource name ents reqs verbs :=
    Ok (match reqs with
        | [] => true
        | _ => existsb (fun req => forallb (contains_elem ents) (default [] (req !! "bearer"))) reqs
        end);
|}.
#[local] Existing Instance siteEntitlements.

Definition sitePage (name parent : string) (reqs : option ParsedRequirements) : PageHandler :=
  mkPage name (mkPageSpec ("/" ++ name) "" name (if String.eqb parent "" then None else Some parent) None "" "" None None
    None []) reqs None ∅.

(** "docs" hangs from "home"; "a" and "b" name each other; "admin" is closed. *)
Definition sitePages : list PageHandler :=
  [sitePage "home" "" (Some (ParseRequirements [])); sitePage "docs" "home" (Some (ParseRequirements []));
   sitePage "a" "b" (Some (ParseRequirements [])); sitePage "b" "a" (Some (ParseRequirements []));
   sitePage "admin" "" (Some (ParseRequirements [{[ "bearer" := ["pages:/admin:read"] ]}]))].

Definition siteHost : page_host :=
  mkPageHost true true false (newPageIndex sitePages) [] "en" [] true false "https://h.test".

Definition siteVisitor : option AuthContext := Some {[ "sub" := VStr "ann"; "entitlements" := VStrs ["pages::read"] ]}.

Lemma site_well_named : well_named (ix_pages (hp_tree siteHost)).
Proof.
  split.
  - apply (bool_decide_eq_true_1 (NoDup _)). vm_compute. reflexivity.
  - intros Hin. apply (contains_elem_spec (ph_Name <$> ix_pages (hp_tree siteHost))) in Hin. vm_compute in Hin.
    discriminate Hin.
Qed.

Example site_tree : (fun x => x.1) <$> pageMap siteHost None "en" = ["home"].
Proof. vm_compute. reflexivity. Qed.

Lemma tree_exact_witness :
  well_named (ix_pages (hp_tree siteHost)) /\
  exists ph, shown siteHost (treeEntitlements siteHost None) "" ph /\ ph_Name ph = "docs" /\
    forall r l, pageGate siteHost r None ph l = GatePassed.
Proof.
  split; [exact site_well_named|].
  exists (sitePage "docs" "home" (Some (ParseRequirements []))).
  assert (Hs : shown siteHost (treeEntitlements siteHost None) "" (sitePage "docs" "home" (Some (ParseRequirements [])))).
  { apply (shown_below _ _ _ (sitePage "home" "" (Some (ParseRequirements [])))).
    - exists [], []. split; [vm_compute; reflexivity|by intros ?%elem_of_nil].
    - apply shown_here. exists [], []. split; [vm_compute; reflexivity|by intros ?%elem_of_nil]. }
  split; [exact Hs|]. split; [reflexivity|].
  apply (@tree_exact _ _ languagesExample siteHost None "en" site_well_named). exact Hs.
Defined.

(** The visitor refused at "/admin" is sent home. *)
Definition adminRequest : gated_request := mkGated "/admin" "/admin" ∅ {[ "Accept" := ["text/html"] ]}.

Lemma refused_sent_where_it_can_go_witness :
  exists location, pageGate siteHost adminRequest siteVisitor
    (sitePage "admin" "" (Some (ParseRequirements [{[ "bearer" := ["pages:/admin:read"] ]}]))) "en" =
    DiscoveryRedirect location /\
  exists landing prefix, landing ∈ sitePages /\
    location = prefix ++ ph_BasePath landing ++ "?denied=" ++ QueryEscape "/admin" /\ prefix ∈ [""; "/en"] /\
    forall r' l', pageGate siteHost r' siteVisitor landing l' = GatePassed.
Proof.
  pose proof (@refused_sent_where_it_can_go _ _ languagesExample siteHost sitePages adminRequest siteVisitor
    (sitePage "admin" "" (Some (ParseRequirements [{[ "bearer" := ["pages:/admin:read"] ]}]))) "en" eq_refl) as Hr.
  assert (Hg : pageGate siteHost adminRequest siteVisitor
    (sitePage "admin" "" (Some (ParseRequirements [{[ "bearer" := ["pages:/admin:read"] ]}]))) "en" =
    DiscoveryRedirect "/home?denied=%2Fadmin") by (vm_compute; reflexivity).
  rewrite Hg in Hr. exists "/home?denied=%2Fadmin". split; [exact Hg|]. apply Hr.
Defined.
