(* ===== verification/ServeMux.v ===== *)
(** net/http's [ServeMux] (Go's standard library) as a registry: which
    patterns it accepts, which two it calls a conflict, and the pattern it
    reports for a method and a path. [Mux] holds the lookup of a path among
    patterns without methods, on which this builds. *)
From S2P Require Import Prelude GoStr Url Binding Mux Rewrite Proxy.
From Stdlib Require Import Ascii.

#[local] Open Scope string_scope.

(** * Patterns *)

Record pattern := mkPattern { pt_str : string; pt_method : string; pt_host : string; pt_segments : list segment }.

Definition isValidWildcardName (name : string) : bool :=
  match name with "" => false | String c rest => (name_start c && all_bytes name_byte rest)%bool end.

(** The segments of a path split at its slashes; [seen] are the wildcards
    named so far. *)
Fixpoint parse_segments (segs seen : list string) : option (list segment) :=
  match segs with
  | [] => Some []
  | seg :: rest =>
      if (String.eqb seg "" && (length rest =? 0)%nat)%bool then Some [Multi ""]
      else if negb (has_byte "{" seg) then cons (Literal (unescaped seg)) <$> parse_segments rest seen
      else if (negb (HasPrefix seg "{") || negb (HasSuffix seg "}"))%bool then None
      else
        let name := TrimSuffix (TrimPrefix seg "{") "}" in
        if String.eqb name "$" then if (length rest =? 0)%nat then Some [Literal "/"] else None
        else
          let multi := HasSuffix name "..." in
          let name := TrimSuffix name "..." in
          if ((multi && negb (length rest =? 0)%nat) || negb (isValidWildcardName name) || contains_elem seen name)%bool
          then None
          else cons (if multi then Multi name else Single name) <$> parse_segments rest (name :: seen)
  end.

(** A text cut at its first blank: what precedes, and what follows the blanks. *)
Fixpoint cut_blank (s : string) : option (string * string) :=
  match s with
  | "" => None
  | String c s =>
      if (Ascii.eqb c " " || Ascii.eqb c (ascii_of_nat 9))%bool
      then Some ("", trim_left (fun c => (Ascii.eqb c " " || Ascii.eqb c (ascii_of_nat 9))%bool) s)
      else (fun x => (String c x.1, x.2)) <$> cut_blank s
  end.

(** A text cut before its first slash. *)
Fixpoint cut_slash (s : string) : option (string * string) :=
  match s with
  | "" => None
  | String c s' => if Ascii.eqb c "/" then Some ("", s) else (fun x => (String c x.1, x.2)) <$> cut_slash s'
  end.

Definition parsePattern (s : string) : option pattern :=
  let '(method, rest) := default ("", s) (cut_blank s) in
  if (negb (String.eqb method "") && negb (all_bytes token_byte method))%bool then None else
  '(host, path) ← cut_slash rest;
  if has_byte "{" host then None
  else if (negb (String.eqb method "") && negb (String.eqb method "CONNECT") && negb (String.eqb path (cleanPath path)))%bool
  then None
  else segs ← parse_segments (Split "/"%char (TrimPrefix path "/")) []; Some (mkPattern s method host segs).

(** * Conflicts *)

Inductive relationship := equivalent | moreGeneral | moreSpecific | disjoint | overlaps.

#[global] Instance relationship_eq_dec : EqDecision relationship.
Proof. solve_decision. Defined.

Definition inverse (r : relationship) : relationship :=
  match r with moreGeneral => moreSpecific | moreSpecific => moreGeneral | r => r end.

Definition combine (r1 r2 : relationship) : relationship :=
  match r1, r2 with
  | equivalent, _ => r2
  | disjoint, _ => disjoint
  | overlaps, disjoint => disjoint
  | overlaps, _ => overlaps
  | _, equivalent => r1
  | _, _ => if decide (r2 = inverse r1) then overlaps else r2
  end.

Definition compareMethods (m1 m2 : string) : relationship :=
  if String.eqb m1 m2 then equivalent
  else if String.eqb m1 "" then moreGeneral
  else if String.eqb m2 "" then moreSpecific
  else if (String.eqb m1 "GET" && String.eqb m2 "HEAD")%bool then moreGeneral
  else if (String.eqb m2 "GET" && String.eqb m1 "HEAD")%bool then moreSpecific
  else disjoint.

(** A single wildcard does not match a trailing slash. *)
Definition compareSegments (s1 s2 : segment) : relationship :=
  match s1, s2 with
  | Multi _, Multi _ => equivalent
  | Multi _, _ => moreGeneral
  | _, Multi _ => moreSpecific
  | Single _, Single _ => equivalent
  | Single _, Literal t => if String.eqb t "/" then disjoint else moreGeneral
  | Literal s, Single _ => if String.eqb s "/" then disjoint else moreSpecific
  | Literal s, Literal t => if String.eqb s t then equivalent else disjoint
  end.

Definition ends_multi (l : list segment) : bool := match last l with Some (Multi _) => true | _ => false end.

(** The segments both patterns have, then what the longer one has left. *)
Fixpoint compare_from (multi1 multi2 : bool) (rel : relationship) (l1 l2 : list segment) : relationship :=
  match l1, l2 with
  | [], [] => rel
  | [], _ :: _ => if multi1 then combine rel moreGeneral else disjoint
  | _ :: _, [] => if multi2 then combine rel moreSpecific else disjoint
  | s1 :: l1, s2 :: l2 =>
      let rel := combine rel (compareSegments s1 s2) in
      if decide (rel = disjoint) then disjoint else compare_from multi1 multi2 rel l1 l2
  end.

Definition comparePaths (l1 l2 : list segment) : relationship :=
  if (negb (length l1 =? length l2)%nat && negb (ends_multi l1) && negb (ends_multi l2))%bool then disjoint
  else compare_from (ends_multi l1) (ends_multi l2) equivalent l1 l2.

Definition comparePathsAndMethods (p1 p2 : pattern) : relationship :=
  let mrel := compareMethods (pt_method p1) (pt_method p2) in
  if decide (mrel = disjoint) then disjoint else combine mrel (comparePaths (pt_segments p1) (pt_segments p2)).

Definition conflictsWith (p1 p2 : pattern) : bool :=
  if negb (String.eqb (pt_host p1) (pt_host p2)) then false else
  match comparePathsAndMethods p1 p2 with equivalent | overlaps => true | _ => false end.

(** [mux.Handle] on a mux holding [ps]; [None]: it panics, before it changes
    anything. *)
Definition mux_register (ps : list pattern) (s : string) : option pattern :=
  p ← parsePattern s; if existsb (conflictsWith p) ps then None else Some p.

(** * Lookup *)

(** The patterns of a method, without a host, as the tree holds them. *)
Definition of_method (method : string) (ps : list pattern) : node :=
  omap (fun p => if (String.eqb (pt_method p) method && String.eqb (pt_host p) "")%bool
                 then Some (pt_str p, pt_segments p) else None) ps.

Definition or_else {A} (a b : option A) : option A := match a with Some _ => a | None => b end.

Definition matchMethodAndPath (ps : list pattern) (method path : string) : option string :=
  let segs := path_segments path in
  or_else (matchPath (of_method method ps) segs)
    (or_else (if String.eqb method "HEAD" then matchPath (of_method "GET" ps) segs else None)
      (matchPath (of_method "" ps) segs)).

Definition exact_match (ps : list pattern) (found_ : option string) (path : string) : bool :=
  match found_ ≫= (fun s => list_find (fun p => pt_str p = s) ps) with
  | None => false
  | Some (_, p) =>
      if negb (ends_multi (pt_segments p)) then true
      else if ((0 <? String.length path)%nat && negb (HasSuffix path "/"))%bool then false
      else (length (pt_segments p) =? length (path_segments path))%nat
  end.

(** The pattern [mux.Handler] reports, "" for none: see [mux_pattern]. *)
Definition mux_matched (ps : list pattern) (method escapedPath : string) : string :=
  let path := cleanPath escapedPath in
  let n := matchMethodAndPath ps method path in
  let slashed := path ++ "/" in
  if (negb (exact_match ps n path) && exact_match ps (matchMethodAndPath ps method slashed) slashed)%bool
  then Clean (unescaped path) ++ "/"
  else default "" n.

(** * Laws *)

Lemma combine_self r : r <> disjoint -> combine equivalent r = r.
Proof. done. Qed.

Lemma compareSegments_refl s : compareSegments s s = equivalent.
Proof. destruct s; simpl; [by rewrite String.eqb_refl|done|done]. Qed.

Lemma compare_from_refl b l : compare_from b b equivalent l l = equivalent.
Proof. induction l as [|s l IH]; [done|]. simpl. rewrite compareSegments_refl. by rewrite decide_False. Qed.

Lemma conflicts_refl p : conflictsWith p p = true.
Proof.
  unfold conflictsWith, comparePathsAndMethods, compareMethods. rewrite !String.eqb_refl. simpl.
  unfold comparePaths. rewrite Nat.eqb_refl. simpl. by rewrite compare_from_refl.
Qed.

Lemma parsePattern_str s p : parsePattern s = Some p -> pt_str p = s.
Proof.
  unfold parsePattern. destruct (default ("", s) (cut_blank s)) as [method rest].
  destruct (_ && _)%bool; [done|]. destruct (cut_slash rest) as [[host path]|]; [|done]. simpl.
  repeat (case_match; try done). all: simpl; intros; simplify_option_eq; done.
Qed.

(** A pattern is registered once: registered again, or after another it
    conflicts with, it is refused. *)
Lemma mux_register_spec ps s p :
  mux_register ps s = Some p -> parsePattern s = Some p /\ forall q, q ∈ ps -> conflictsWith p q = false.
Proof.
  unfold mux_register. destruct (parsePattern s) as [p'|]; simpl; [|done].
  destruct (existsb _ ps) eqn:Hex; [done|]. intros [= ->]. split; [done|]. intros q Hq.
  apply not_true_iff_false. intros Hc. apply not_true_iff_false in Hex. apply Hex, existsb_exists.
  exists q. split; [by apply list_elem_of_In|done].
Qed.

Lemma mux_register_again ps s p : p ∈ ps -> parsePattern s = Some p -> mux_register ps s = None.
Proof.
  intros Hin Hp. unfold mux_register. rewrite Hp. simpl.
  replace (existsb (conflictsWith p) ps) with true; [done|]. symmetry. apply existsb_exists. exists p.
  split; [by apply list_elem_of_In|apply conflicts_refl].
Qed.

(** The function's subtree and a page's wildcard: neither is the narrower. *)
Example overlapping_patterns :
  mux_register (omap parsePattern ["GET /x/{path...}"]) "/x/v1/" = None /\
  mux_register (omap parsePattern ["GET /x/{path...}"]) "GET /x/v1/" <> None.
Proof. split; [reflexivity|vm_compute; discriminate]. Qed.

Example head_is_get : mux_matched (omap parsePattern ["GET /a/{x}"; "/a/"]) "HEAD" "/a/b" = "GET /a/{x}".
Proof. reflexivity. Qed.
