(* ===== verification/Routes.v ===== *)
(** The host's routes (host.go, handlers.go and types.go of src/internal/host):
    the routes a page and a function register, who owns a pattern, what is
    recorded of one refused, and how a rebuild assembles the mux, the page
    index and the OpenAPI paths. *)
From S2P Require Import Prelude GoStr Deps Claims Clients Url SubjectKind Denial Rewrite Functions Mux Proxy OpenApi ServeMux Languages Response Pages.
From Stdlib Require Import Ascii.

#[local] Open Scope string_scope.

(** * Requirements *)

Section Requirements.
Context `{!Entitlements} `{!Binder}.

Definition unbindablePageDenyScheme : string := "__kdex_unbindable_placeholder_deny__".

Definition unbindablePageDenyRequirements : list SecurityRequirement :=
  [{[ unbindablePageDenyScheme := [unbindablePageDenyScheme ++ ":deny:deny"] ]}].

(** A page's own security replaces the host's. *)
Definition pageRequirements (host page : option (list SecurityRequirement)) : list SecurityRequirement :=
  match page with Some reqs => reqs | None => default [] host end.

Definition parsePageRequirementsFailClosed (reqs : list SecurityRequirement) : ParsedRequirements :=
  let parsed := ParseRequirements reqs in
  match BindRequirements parsed ∅ with
  | Err _ => ParseRequirements unbindablePageDenyRequirements
  | Ok _ => parsed
  end.
End Requirements.

(** * Patterns *)

(** The pattern of a base path: one that ends in a slash would otherwise
    answer everything under it. *)
Definition toFinalPath (path : string) : string := if HasSuffix path "/" then path ++ "{$}" else path.

(** [wildcardSegmentRe]'s matches replaced: a brace, one byte or more that do
    not close it, and its close. [cur] is what has been read since a brace. *)
Fixpoint probe_from (cur : option string) (s : string) : string :=
  match s with
  | "" => match cur with Some text => "{" ++ text | None => "" end
  | String c s =>
      match cur with
      | None => if Ascii.eqb c "{" then probe_from (Some "") s else String c (probe_from None s)
      | Some "" => if Ascii.eqb c "}" then "{}" ++ probe_from None s else probe_from (Some (String c "")) s
      | Some text => if Ascii.eqb c "}" then "__kdex_probe__" ++ probe_from None s
                     else probe_from (Some (text ++ String c "")) s
      end
  end.

Definition probe_path (path : string) : string :=
  let probe := probe_from None (TrimSuffix path "{$}") in
  if HasPrefix probe "/" then probe else "/" ++ probe.

(** [http.NewRequest]: the escaped path of the URL, if it parses. *)
Class RequestURLs := { EscapedPathOf : string -> option string }.

Definition patternRegistered `{RequestURLs} (mux : list pattern) (pattern : string) : bool :=
  match Cut " " pattern with
  | (method, Some path) =>
      match EscapedPathOf (probe_path path) with
      | Some escaped => String.eqb (mux_matched mux method escaped) pattern
      | None => false
      end
  | (_, None) => false
  end.

(** * Owners (routeRegistry) *)

Record routeOwner := mkOwner { ow_name : string; ow_basePath : string }.

#[global] Instance routeOwner_eq_dec : EqDecision routeOwner.
Proof. solve_decision. Defined.

Record RouteCollision := mkCollision {
  rc_Pattern : string;
  rc_ConflictingPattern : string;
  rc_Winner : routeOwner;
  rc_Loser : routeOwner;
}.

Definition FunctionRouteOwnerPrefix : string := "KDexFunction/".

Definition no_owner : routeOwner := mkOwner "" "".

Record routeRegistry := mkRegistry { rr_owners : gmap string routeOwner; rr_collisions : list RouteCollision }.

Definition newRouteRegistry : routeRegistry := mkRegistry ∅ [].

Definition claim (pattern : string) (owner : routeOwner) (rr : routeRegistry) : routeRegistry :=
  mkRegistry (<[pattern := owner]> (rr_owners rr)) (rr_collisions rr).

Definition record (c : RouteCollision) (rr : routeRegistry) : routeRegistry :=
  mkRegistry (rr_owners rr) (rr_collisions rr ++ [c])%list.

(** A pattern the mux cannot register at all conflicts with nothing. *)
Definition muxPatternsConflict (a b : string) : bool :=
  match mux_register [] a with
  | None => false
  | Some p => negb (found (mux_register [p] b))
  end.

Definition conflictWith (pattern : string) (rr : routeRegistry) : option (string * routeOwner) :=
  match list_find (fun candidate => muxPatternsConflict candidate pattern = true)
          (sort_strings (map_to_list (rr_owners rr)).*1) with
  | Some (_, candidate) => Some (candidate, default no_owner (rr_owners rr !! candidate))
  | None => None
  end.

(** * Registration *)

Inductive route_handler :=
| SystemRoute (name : string)
| Announcement (lang : string)
| PageRoute (page lang : string)
| AliasRoute (page lang : string) (resolved : option rewriteTarget)
| DefaultLangRedirect (prefix : string)
| LegacySlashRedirect (canonical : string)
| FunctionHandler (function : string).

(** Where a redirect sends a path. *)
Definition redirectPath (h : route_handler) (path : string) : option string :=
  match h with
  | DefaultLangRedirect prefix => Some (TrimPrefix path prefix)
  | LegacySlashRedirect canonical => Some canonical
  | _ => None
  end.

(** [permanentRedirect]'s location. *)
Definition redirectLocation (h : route_handler) (path rawQuery : string) : option string :=
  (fun p => if String.eqb rawQuery "" then p else p ++ "?" ++ rawQuery) <$> redirectPath h path.

(** A mux, the paths documented, and who owns its routes. *)
Record build := mkBuild {
  bd_mux : list (pattern * route_handler);
  bd_paths : gmap string PathInfo;
  bd_routes : routeRegistry;
}.

Definition bd_patterns (b : build) : list pattern := (bd_mux b).*1.

(** [mux.Handle]; [None]: it panics. *)
Definition handle (pat : string) (h : route_handler) (mux : list (pattern * route_handler))
    : option (list (pattern * route_handler)) :=
  p ← mux_register mux.*1 pat; Some (mux ++ [(p, h)])%list.

Definition registerPath (path : string) (info : PathInfo) (m : gmap string PathInfo) : gmap string PathInfo :=
  let with_base (i : PathInfo) :=
    if String.eqb (api_BasePath (in_API i)) ""
    then mkInfo (mkAPI path (api_Paths (in_API i)) (api_Schemas (in_API i))) (in_AutoGenerated i) (in_Tags i) (in_Type i)
    else i in
  match m !! path with
  | None => <[path := with_base info]> m
  | Some current =>
      <[path := with_base (mkInfo (MergeOperations (in_API current) (in_API info)) (in_AutoGenerated current)
                             (in_Tags current) (in_Type current))]> m
  end.

(** A route a page wants, and the path its document describes, if any. *)
Record attempt := mkAttempt { at_pattern : string; at_handler : route_handler; at_doc : option (string * PathInfo) }.

Section Registration.
Context `{!RequestURLs}.

(** [registerIfNew], with the document of a route registered. [None]: the
    registration panics. *)
Definition registerIfNew (owner : routeOwner) (a : attempt) (b : build) : option build :=
  if negb (patternRegistered (bd_patterns b) (at_pattern a)) then
    mux ← handle (at_pattern a) (at_handler a) (bd_mux b);
    Some (mkBuild mux
      (match at_doc a with Some (p, info) => registerPath p info (bd_paths b) | None => bd_paths b end)
      (claim (at_pattern a) owner (bd_routes b)))
  else
    match rr_owners (bd_routes b) !! at_pattern a with
    | Some existing =>
        if decide (existing = owner) then Some b
        else Some (mkBuild (bd_mux b) (bd_paths b)
               (record (mkCollision (at_pattern a) "" existing owner) (bd_routes b)))
    | None => Some b
    end.

(** A page's routes, in order, until one panics: the rest are not
    registered. *)
Fixpoint register_attempts (owner : routeOwner) (l : list attempt) (b : build) : build * bool :=
  match l with
  | [] => (b, true)
  | a :: l =>
      match registerIfNew owner a b with
      | Some b => register_attempts owner l b
      | None => (b, false)
      end
  end.
End Registration.

(** * Pages *)

Section Pages.
Context `{!Entitlements}.

(** What a page's handler is: an alias's carries its target as resolved. *)
Definition page_route (ph : PageHandler) (resolved : option rewriteTarget) (lang : string) : route_handler :=
  match pageModeOf (ph_Page ph) with
  | RewritePage => AliasRoute (ph_Name ph) lang resolved
  | _ => PageRoute (ph_Name ph) lang
  end.

Definition response (description : string) : Response := mkResponseDoc "" description ∅.
Definition responseRef (name : string) : Response := mkResponseDoc ("#/components/responses/" ++ name) "" ∅.
Definition html_schema : schema := Schema "string" "html" "" false [] None None None.

(** The document of one route of a page; [lang] is "" for the bare route. *)
Definition page_doc (ph : PageHandler) (p : string) (pattern : bool) (lang : string) : PathInfo :=
  let label := ps_Label (ph_Page ph) in
  let langSuffix := if String.eqb lang "" then "" else " (" ++ lang ++ ")" in
  let suffix := (if pattern then " (pattern)" else "") ++ langSuffix in
  let ok := match ps_Rewrite (ph_Page ph) with
    | Some al => response ("Response of the target " ++ al_Kind al ++ "/" ++ al_Name al)
    | None => mkResponseDoc "" ("HTML for " ++ label ++ suffix) {[ "text/html" := mkMedia (Some html_schema) ∅ ]}
    end in
  let alias := (fun al => "Alias of " ++ al_Kind al ++ "/" ++ al_Name al ++ langSuffix) <$> ps_Rewrite (ph_Page ph) in
  let op := mkOp [ph_Name ph; "page"]
    (default ("Get " ++ label ++ suffix) alias)
    (default ("Get HTML for " ++ label ++ suffix) alias)
    (ph_Name ph ++ (if pattern then "-pattern" else "") ++ (if String.eqb lang "" then "" else "-" ++ lang) ++ "-get")
    (Param <$> ExtractParameters p "" []) None
    (<["200" := ok]> (<["303" := responseRef "SeeOther"]> (<["400" := responseRef "BadRequest"]>
      (<["404" := responseRef "NotFound"]> {[ "500" := responseRef "InternalServerError" ]}))))
    (ps_Security (ph_Page ph)) false in
  mkInfo
    (mkAPI p {[ p := mkItem (default ("HTML page " ++ label ++ suffix) alias) ("Page " ++ label ++ suffix) []
                       {[ "GET" := op ]} ]} ∅)
    false [] PagePathType.

(** The routes of a page in one language: bare for the default language, and
    its own prefix redirects to them; under its prefix in another. *)
Definition language_attempts (defaultLanguage : string) (ph : PageHandler) (resolved : option rewriteTarget)
    (lang : string) : list attempt :=
  let spec := ph_Page ph in
  let regPath := toFinalPath (ps_BasePath spec) in
  let patternPath := ps_PatternPath spec in
  let legacySlash := (negb (HasSuffix (ps_BasePath spec) "/") &&
                      negb (bool_decide (pageModeOf spec = TextPage)))%bool in
  let localized := isLocalized (ps_Localized spec) in
  let handler := page_route ph resolved lang in
  let get p h doc := mkAttempt ("GET " ++ p) h ((fun d => (p, d)) <$> doc) in
  let slash p canonical := if legacySlash then [get (p ++ "/{$}") (LegacySlashRedirect canonical) None] else [] in
  let patterned p h l := if String.eqb patternPath "" then [] else [get p h (Some (page_doc ph p true l))] in
  let prefix := "/" ++ lang in
  if String.eqb lang defaultLanguage then
    get regPath handler (Some (page_doc ph regPath false "")) :: slash regPath regPath ++ patterned patternPath handler "" ++
    (if negb localized then [] else
     let redirect := DefaultLangRedirect prefix in
     get (prefix ++ regPath) redirect (Some (page_doc ph (prefix ++ regPath) false lang)) ::
     slash (prefix ++ regPath) regPath ++ patterned (prefix ++ patternPath) redirect lang)
  else if negb localized then []
  else
    get (prefix ++ regPath) handler (Some (page_doc ph (prefix ++ regPath) false lang)) ::
    slash (prefix ++ regPath) (prefix ++ regPath) ++ patterned (prefix ++ patternPath) handler lang.

Definition page_attempts (defaultLanguage : string) (languages : list string) (ph : PageHandler)
    (resolved : option rewriteTarget) : list attempt :=
  mjoin (language_attempts defaultLanguage ph resolved <$> languages).

Definition page_owner (ph : PageHandler) : routeOwner := mkOwner (ph_Name ph) (ph_BasePath ph).

Definition addHandlerAndRegister `{!RequestURLs} (defaultLanguage : string) (languages : list string)
    (pr : PageHandler * option rewriteTarget) (b : build) : build * bool :=
  if String.eqb (ph_BasePath pr.1) "" then (b, true)
  else register_attempts (page_owner pr.1) (page_attempts defaultLanguage languages pr.1 pr.2) b.
End Pages.

(** * Functions *)

(** A function of the host: [fnr_Builds] says whether its proxy handler could
    be built. *)
Record function_route := mkFunctionRoute { fnr_ref : function_ref; fnr_Builds : bool }.

Definition function_owner (f : function_ref) : routeOwner := mkOwner (FunctionRouteOwnerPrefix ++ fr_Name f) (fr_BasePath f).

Definition register_function (f : function_ref) (b : build) (pat : string) : build :=
  match handle pat (FunctionHandler (fr_Name f)) (bd_mux b) with
  | Some mux => mkBuild mux (bd_paths b) (claim pat (function_owner f) (bd_routes b))
  | None =>
      let '(conflicting, winner) := default ("", no_owner) (conflictWith pat (bd_routes b)) in
      mkBuild (bd_mux b) (bd_paths b) (record (mkCollision pat conflicting winner (function_owner f)) (bd_routes b))
  end.

Definition function_patterns (f : function_ref) : list string :=
  fr_BasePath f :: (if HasSuffix (fr_BasePath f) "/" then [] else [fr_BasePath f ++ "/"]).

Definition registerFunctionRoutes (b : build) (f : function_ref) : build :=
  foldl (register_function f) b (function_patterns f).

(** * The rebuild *)

Section Rebuild.
Context `{!Entitlements} `{!Binder} `{!RequestURLs}.

(** What a rebuild reads of the host: [rb_system] and [rb_paths] are the
    system routes and the paths they and the reconcile documented. *)
Record rebuild_input := mkRebuild {
  rb_system : list (pattern * route_handler);
  rb_paths : gmap string PathInfo;
  rb_defaultLanguage : string;
  rb_languages : list string;
  rb_checker : bool;
  rb_security : option (list SecurityRequirement);
  rb_functions : list function_route;
  rb_signs : bool;
}.

Record rebuildSnapshot := mkSnapshot {
  sn_mux : list (pattern * route_handler);
  sn_paths : gmap string PathInfo;
  sn_functions : option (list string);
  sn_collisions : list RouteCollision;
  sn_tree : pageIndex;
}.

Definition parsed_page (i : rebuild_input) (ph : PageHandler) : PageHandler :=
  if rb_checker i
  then mkPage (ph_Name ph) (ph_Page ph)
         (Some (parsePageRequirementsFailClosed (pageRequirements (rb_security i) (ps_Security (ph_Page ph)))))
         (ph_Status ph) (ph_Navigations ph)
  else ph.

(** The pages kept, by base path and in name order: of two that share a base
    path, the first by name. *)
Definition keep_page (i : rebuild_input) (acc : gmap string PageHandler * list PageHandler) (ph : PageHandler)
    : gmap string PageHandler * list PageHandler :=
  if (String.eqb (ph_BasePath ph) "" || found (acc.1 !! ph_BasePath ph))%bool then acc
  else (<[ph_BasePath ph := parsed_page i ph]> acc.1, (acc.2 ++ [parsed_page i ph])%list).

Definition kept_pages (i : rebuild_input) (pages : list PageHandler) : gmap string PageHandler * list PageHandler :=
  foldl (keep_page i) (∅, []) (sort_pages pages).

(** The functions that get a route. *)
Definition routed_functions (i : rebuild_input) : list function_ref :=
  if rb_signs i
  then fnr_ref <$> filter (fun f => (fr_Ready (fnr_ref f) && negb (fr_Internal (fnr_ref f)) && fnr_Builds f)%bool = true)
         (rb_functions i)
  else [].

Definition resolve_page (i : rebuild_input) (tree : pageIndex) (ph : PageHandler) : PageHandler * option rewriteTarget :=
  (ph, al ← ps_Rewrite (ph_Page ph); resolveRewriteTarget al (ix_byName tree) (fnr_ref <$> rb_functions i)).

Definition announce (i : rebuild_input) (mux : list (pattern * route_handler)) (lang : string)
    : option (list (pattern * route_handler)) :=
  handle (if String.eqb lang (rb_defaultLanguage i) then "GET /{$}" else "GET /" ++ lang ++ "/{$}") (Announcement lang) mux.

Fixpoint announce_all (i : rebuild_input) (langs : list string) (mux : list (pattern * route_handler))
    : option (list (pattern * route_handler)) :=
  match langs with
  | [] => Some mux
  | lang :: langs => mux ← announce i mux lang; announce_all i langs mux
  end.

Definition register_page (i : rebuild_input) (tree : pageIndex) (rendered : gmap string PageHandler) (b : build)
    (basePath : string) : build :=
  match rendered !! basePath with
  | Some ph => (addHandlerAndRegister (rb_defaultLanguage i) (rb_languages i) (resolve_page i tree ph) b).1
  | None => b
  end.

(** The build once the pages are registered, in the order of their base
    paths; and once the functions are. *)
Definition built_pages (i : rebuild_input) (pages : list PageHandler) : build :=
  let '(rendered, treePages) := kept_pages i pages in
  foldl (register_page i (newPageIndex treePages) rendered) (mkBuild (rb_system i) (rb_paths i) newRouteRegistry)
    (sort_strings (map_to_list rendered).*1).

Definition built (i : rebuild_input) (pages : list PageHandler) : build :=
  foldl registerFunctionRoutes (built_pages i pages) (routed_functions i).

(** [pages] is the store's content in some order. [None]: a registration of
    the announcement panics, and the rebuild with it. *)
Definition rebuildMuxSnapshot (i : rebuild_input) (pages : list PageHandler) : option rebuildSnapshot :=
  match pages, rb_functions i with
  | [], [] =>
      mux ← announce_all i (rb_languages i) (rb_system i);
      Some (mkSnapshot mux (rb_paths i) None [] (mkIndex [] ∅ ∅))
  | _, _ =>
      let b := built i pages in
      Some (mkSnapshot (bd_mux b) (bd_paths b) (Some (fr_BasePath <$> routed_functions i))
              (rr_collisions (bd_routes b)) (newPageIndex (kept_pages i pages).2))
  end.
End Rebuild.
