(* ===== verification/RoutesSpec.v ===== *)
(** A rebuild does not depend on the order the pages are listed in; functions
    yield to pages; and every route wanted is registered or accounted for. *)
From S2P Require Import Prelude GoStr Deps Claims Clients Url SubjectKind Denial Rewrite Functions Mux Proxy OpenApi ServeMux Languages Response Pages PagesSpec Routes.
From Stdlib Require Import Ascii.

#[local] Open Scope string_scope.

(** The keys of a map, in order. *)
Lemma elem_of_sorted_keys {A} (m : gmap string A) k : k ∈ sort_strings (map_to_list m).*1 <-> is_Some (m !! k).
Proof.
  rewrite sort_strings_perm, list_elem_of_fmap. split.
  - intros ([k' v'] & -> & Hin%elem_of_map_to_list). by eexists.
  - intros [v' Hv]. exists (k, v'). split; [done|]. by apply elem_of_map_to_list.
Qed.

(** * A build grows *)

(** The mux and the collisions of one build, continued by another. *)
Definition grows (b b' : build) : Prop :=
  bd_mux b `prefix_of` bd_mux b' /\ rr_collisions (bd_routes b) `prefix_of` rr_collisions (bd_routes b') /\
  rr_owners (bd_routes b) ⊆ rr_owners (bd_routes b').

#[export] Instance grows_refl : Reflexive grows.
Proof. intros b. split_and!; done. Qed.

#[export] Instance grows_trans : Transitive grows.
Proof. intros b1 b2 b3 (? & ? & ?) (? & ? & ?). split_and!; by etransitivity. Qed.

(** Whose handler a route is. *)
Definition serves (o : routeOwner) (h : route_handler) : Prop :=
  match h with
  | PageRoute page _ | AliasRoute page _ _ => ow_name o = page
  | FunctionHandler f => ow_name o = FunctionRouteOwnerPrefix ++ f
  | DefaultLangRedirect _ | LegacySlashRedirect _ => True
  | SystemRoute _ | Announcement _ => False
  end.

(** No two patterns conflict; an owner's pattern is in the mux, and serves it;
    a pattern in the mux that no owner has is the system's. *)
Record well_built (system : list (pattern * route_handler)) (b : build) : Prop := {
  wb_system : system `prefix_of` bd_mux b;
  wb_parsed : forall p, p ∈ bd_patterns b -> parsePattern (pt_str p) = Some p;
  wb_conflicts : StronglySorted (fun q p => conflictsWith p q = false) (bd_patterns b);
  wb_owners : forall pat o, rr_owners (bd_routes b) !! pat = Some o ->
    exists p h, (p, h) ∈ bd_mux b /\ pt_str p = pat /\ serves o h;
}.

Lemma handle_spec pat h mux mux' : handle pat h mux = Some mux' ->
  exists p, mux' = (mux ++ [(p, h)])%list /\ parsePattern pat = Some p /\ pt_str p = pat /\
    forall q, q ∈ mux.*1 -> conflictsWith p q = false.
Proof.
  unfold handle. destruct (mux_register mux.*1 pat) as [p|] eqn:Hm; simpl; [|done]. intros [= <-].
  apply mux_register_spec in Hm as [Hp Hq]. exists p. split; [done|]. split; [done|].
  split; [by apply parsePattern_str|done].
Qed.

Lemma StronglySorted_snoc {A} (R : A -> A -> Prop) l x :
  StronglySorted R l -> (forall y, y ∈ l -> R y x) -> StronglySorted R (l ++ [x])%list.
Proof.
  induction 1 as [|y l Hl IH Hy]; intros Hx; simpl; [repeat constructor|].
  constructor; [apply IH; intros z Hz; apply Hx; by right|].
  apply Forall_app. split; [done|]. apply Forall_singleton. apply Hx. by left.
Qed.

(** A handler added for an owner it serves. *)
Lemma well_built_handle system b pat h mux paths o :
  well_built system b -> handle pat h (bd_mux b) = Some mux -> serves o h ->
  well_built system (mkBuild mux paths (claim pat o (bd_routes b))).
Proof.
  intros [Hs Hpa Hc Ho] Hh Hsv. apply handle_spec in Hh as (p & -> & Hpp & Hp & Hq). split; simpl.
  - etransitivity; [exact Hs|]. by apply prefix_app_r.
  - intros q. unfold bd_patterns in *. simpl. rewrite fmap_app, elem_of_app. simpl. rewrite list_elem_of_singleton.
    intros [Hin| ->]; [by apply Hpa|by rewrite Hp].
  - unfold bd_patterns in *. simpl. rewrite fmap_app. simpl. by apply StronglySorted_snoc.
  - intros pat' o'. intros [[<- <-]|[_ Hl]]%lookup_insert_Some.
    + exists p, h. split; [|done]. apply elem_of_app. right. by apply list_elem_of_singleton.
    + destruct (Ho _ _ Hl) as (p' & h' & Hin & ?). exists p', h'. split; [|done]. apply elem_of_app. by left.
Qed.

Lemma well_built_record system b paths c :
  well_built system b -> well_built system (mkBuild (bd_mux b) paths (record c (bd_routes b))).
Proof. intros []. by split. Qed.

(** A claim made is kept: a pattern is claimed only once it is registered, and
    it cannot be again. *)
Lemma claim_fresh system b pat h mux :
  well_built system b -> handle pat h (bd_mux b) = Some mux -> rr_owners (bd_routes b) !! pat = None.
Proof.
  intros Hb Hh. apply handle_spec in Hh as (p & _ & Hpp & Hp & Hq). apply eq_None_not_Some. intros [o Ho].
  destruct (wb_owners _ _ Hb _ _ Ho) as (q & h' & Hin & Hqs & _).
  assert (Hqin : q ∈ (bd_mux b).*1) by (by apply (list_elem_of_fmap_2 fst) in Hin).
  pose proof (wb_parsed _ _ Hb q Hqin) as Hqp. rewrite Hqs, Hpp in Hqp. injection Hqp as <-.
  specialize (Hq p Hqin). by rewrite conflicts_refl in Hq.
Qed.

Lemma grows_handle system b pat h mux paths o :
  well_built system b -> handle pat h (bd_mux b) = Some mux ->
  grows b (mkBuild mux paths (claim pat o (bd_routes b))).
Proof.
  intros Hb Hh. pose proof (claim_fresh _ _ _ _ _ Hb Hh) as Hf.
  apply handle_spec in Hh as (p & -> & _). split_and!; simpl; [by apply prefix_app_r|done|by apply insert_subseteq].
Qed.

Lemma grows_record b paths c : grows b (mkBuild (bd_mux b) paths (record c (bd_routes b))).
Proof. split_and!; simpl; [done|by apply prefix_app_r|done]. Qed.

(** * A page's routes *)

Section Pages.
Context `{!RequestURLs}.

(** What has become of a route wanted: it is registered; the page holds the
    pattern already; another page does, and the collision is recorded; or the
    pattern was the system's before. *)
Definition accounted (owner : routeOwner) (a : attempt) (b' : build) : Prop :=
  (exists p, (p, at_handler a) ∈ bd_mux b' /\ pt_str p = at_pattern a) \/
  rr_owners (bd_routes b') !! at_pattern a = Some owner \/
  (exists existing, existing <> owner /\ rr_owners (bd_routes b') !! at_pattern a = Some existing /\
     mkCollision (at_pattern a) "" existing owner ∈ rr_collisions (bd_routes b')) \/
  (exists b, grows b b' /\ patternRegistered (bd_patterns b) (at_pattern a) = true /\
     rr_owners (bd_routes b) !! at_pattern a = None).

Lemma elem_of_prefix {A} (l l' : list A) x : l `prefix_of` l' -> x ∈ l -> x ∈ l'.
Proof. intros [k ->] Hx. apply elem_of_app. by left. Qed.

Lemma accounted_grows owner a b b' : grows b b' -> accounted owner a b -> accounted owner a b'.
Proof.
  intros Hg Ha. assert (Hg' := Hg). destruct Hg' as (Hm & Hc & Ho).
  destruct Ha as [(p & Hin & Hp)|[Hown|[(ex & Hne & Hl & Hin)|(b0 & Hb0 & Hr)]]].
  - left. exists p. split; [by eapply elem_of_prefix|done].
  - right; left. by eapply lookup_weaken.
  - right; right; left. exists ex. split; [done|]. split; [by eapply lookup_weaken|by eapply elem_of_prefix].
  - right; right; right. exists b0. split; [by etransitivity|done].
Qed.

Lemma registerIfNew_spec system owner a b b' :
  well_built system b -> serves owner (at_handler a) -> registerIfNew owner a b = Some b' ->
  well_built system b' /\ grows b b' /\ accounted owner a b'.
Proof.
  intros Hb Hsv. unfold registerIfNew. destruct (patternRegistered (bd_patterns b) (at_pattern a)) eqn:Hr; simpl.
  - destruct (rr_owners (bd_routes b) !! at_pattern a) as [ex|] eqn:Hl.
    + case_decide as Hd; intros [= <-].
      * split_and!; [done|done|]. right; left. by rewrite Hl, Hd.
      * split_and!; [by apply well_built_record|apply grows_record|]. right; right; left. exists ex.
        split; [done|]. split; [done|]. simpl. apply elem_of_app. right. by apply list_elem_of_singleton.
    + intros [= <-]. split_and!; [done|done|]. right; right; right. by exists b.
  - destruct (handle (at_pattern a) (at_handler a) (bd_mux b)) as [mux|] eqn:Hh; simpl; [|done]. intros [= <-].
    split_and!; [by eapply well_built_handle|by eapply grows_handle|]. left.
    apply handle_spec in Hh as (p & -> & _ & Hp & _). exists p. split; [|done]. simpl. apply elem_of_app. right.
    by apply list_elem_of_singleton.
Qed.

Lemma register_attempts_spec system owner l : forall b b' done_,
  well_built system b -> (forall a, a ∈ l -> serves owner (at_handler a)) ->
  register_attempts owner l b = (b', done_) ->
  well_built system b' /\ grows b b' /\ (done_ = true -> forall a, a ∈ l -> accounted owner a b').
Proof.
  induction l as [|a l IH]; intros b b' done_ Hb Hsv; cbn [register_attempts].
  { intros [= <- <-]. split_and!; [done|done|]. by intros _ a ?%elem_of_nil. }
  destruct (registerIfNew owner a b) as [b1|] eqn:Hr.
  2:{ intros [= <- <-]. split_and!; done. }
  intros Hrest. destruct (registerIfNew_spec system owner a b b1 Hb (Hsv a (proj2 (elem_of_cons _ _ _) (or_introl eq_refl))) Hr) as (Hb1 & Hg1 & Ha).
  destruct (IH b1 b' done_ Hb1 (fun a' Hin => Hsv a' (proj2 (elem_of_cons _ _ _) (or_intror Hin))) Hrest) as (Hb' & Hg' & Hall).
  split_and!; [done|by etransitivity|]. intros Hd a' [->|Hin]%elem_of_cons; [by eapply accounted_grows|by apply Hall].
Qed.

Context `{!Entitlements}.

Lemma attempts_serve d langs (ph : PageHandler) resolved a :
  a ∈ page_attempts d langs ph resolved -> serves (page_owner ph) (at_handler a).
Proof.
  unfold page_attempts. intros (l & Hin & (lang & -> & _)%list_elem_of_fmap)%list_elem_of_join.
  unfold language_attempts in Hin. cbv zeta in Hin.
  assert (Hpr : serves (page_owner ph) (page_route ph resolved lang)) by (unfold page_route; destruct (pageModeOf (ph_Page ph)); reflexivity).
  repeat (case_match; simpl in Hin);
    repeat (apply elem_of_cons in Hin as [->|Hin]; [done|]); by apply elem_of_nil in Hin.
Qed.

Lemma addHandlerAndRegister_spec system d langs pr b b' done_ :
  well_built system b -> addHandlerAndRegister d langs pr b = (b', done_) ->
  well_built system b' /\ grows b b' /\
  (done_ = true -> ph_BasePath pr.1 <> "" ->
   forall a, a ∈ page_attempts d langs pr.1 pr.2 -> accounted (page_owner pr.1) a b').
Proof.
  intros Hb. unfold addHandlerAndRegister. destruct (String.eqb_spec (ph_BasePath pr.1) "") as [He|He].
  - intros [= <- <-]. split_and!; done.
  - intros Hr. destruct (register_attempts_spec system _ _ _ _ _ Hb (fun a => attempts_serve d langs pr.1 pr.2 a) Hr)
      as (? & ? & ?). split_and!; auto.
Qed.
End Pages.

(** * A function's routes *)

Lemma conflictWith_spec pat rr cand w : conflictWith pat rr = Some (cand, w) ->
  rr_owners rr !! cand = Some w /\ muxPatternsConflict cand pat = true.
Proof.
  unfold conflictWith. destruct (list_find _ _) as [[n c]|] eqn:Hf; [|done]. intros [= <- <-].
  apply list_find_Some in Hf as (Hl & Hc & _). split; [|done]. apply list_elem_of_lookup_2 in Hl.
  apply elem_of_sorted_keys in Hl as [o Ho]. by rewrite Ho.
Qed.

(** A function's pattern, registered or refused: the refusal names the owner
    in the way, if it is not the system. *)
Definition function_accounted (f : function_ref) (pat : string) (b' : build) : Prop :=
  (exists p, (p, FunctionHandler (fr_Name f)) ∈ bd_mux b' /\ pt_str p = pat) \/
  exists c, c ∈ rr_collisions (bd_routes b') /\ rc_Pattern c = pat /\ rc_Loser c = function_owner f /\
    (rc_Winner c = no_owner \/ rr_owners (bd_routes b') !! rc_ConflictingPattern c = Some (rc_Winner c)).

Lemma function_accounted_grows f pat b b' : grows b b' -> function_accounted f pat b -> function_accounted f pat b'.
Proof.
  intros (Hm & Hc & Ho) [(p & Hin & Hp)|(c & Hin & Hp & Hl & Hw)].
  - left. exists p. split; [by eapply elem_of_prefix|done].
  - right. exists c. split; [by eapply elem_of_prefix|]. split_and!; [done|done|].
    destruct Hw as [?|Hw]; [by left|right; by eapply lookup_weaken].
Qed.

Lemma register_function_spec system f b pat :
  well_built system b ->
  let b' := register_function f b pat in well_built system b' /\ grows b b' /\ function_accounted f pat b'.
Proof.
  intros Hb. cbv zeta. unfold register_function.
  destruct (handle pat (FunctionHandler (fr_Name f)) (bd_mux b)) as [mux|] eqn:Hh.
  - split_and!; [by eapply well_built_handle|by eapply grows_handle|]. left.
    apply handle_spec in Hh as (p & -> & _ & Hp & _). exists p. split; [|done]. simpl. apply elem_of_app. right.
    by apply list_elem_of_singleton.
  - destruct (conflictWith pat (bd_routes b)) as [[cand w]|] eqn:Hc; cbn [default from_option id];
      (split_and!; [by apply well_built_record|apply grows_record|]; right; eexists; split;
       [simpl; apply elem_of_app; right; by apply list_elem_of_singleton|]; split_and!; [done|done|]).
    + right. by apply conflictWith_spec in Hc as [Ho _].
    + by left.
Qed.

Lemma register_patterns_spec system f pats : forall b,
  well_built system b ->
  let b' := foldl (register_function f) b pats in
  well_built system b' /\ grows b b' /\ forall pat, pat ∈ pats -> function_accounted f pat b'.
Proof.
  induction pats as [|pat pats IH]; intros b Hb; cbv zeta; cbn [foldl].
  { split_and!; [done|done|]. by intros ? ?%elem_of_nil. }
  destruct (register_function_spec system f b pat Hb) as (Hb1 & Hg1 & Ha).
  destruct (IH _ Hb1) as (Hb' & Hg' & Hall). split_and!; [done|by etransitivity|].
  intros pat' [->|Hin]%elem_of_cons; [by eapply function_accounted_grows|by apply Hall].
Qed.

Lemma register_functions_spec system fs : forall b,
  well_built system b ->
  let b' := foldl registerFunctionRoutes b fs in
  well_built system b' /\ grows b b' /\
  forall f pat, f ∈ fs -> pat ∈ function_patterns f -> function_accounted f pat b'.
Proof.
  induction fs as [|f fs IH]; intros b Hb; cbv zeta; cbn [foldl].
  { split_and!; [done|done|]. by intros ? ? ?%elem_of_nil. }
  destruct (register_patterns_spec system f (function_patterns f) b Hb) as (Hb1 & Hg1 & Ha).
  destruct (IH _ Hb1) as (Hb' & Hg' & Hall). split_and!; [done|by etransitivity|].
  intros f' pat [->|Hin]%elem_of_cons Hp; [eapply function_accounted_grows; [exact Hg'|by apply Ha]|by apply Hall].
Qed.

(** * The rebuild *)

Section Rebuild.
Context `{!Entitlements} `{!Binder} `{!RequestURLs}.

Implicit Type i : rebuild_input.

Lemma register_pages_spec i tree rendered bps : forall b,
  well_built (rb_system i) b ->
  let b' := foldl (register_page i tree rendered) b bps in
  well_built (rb_system i) b' /\ grows b b' /\
  forall bp ph, bp ∈ bps -> rendered !! bp = Some ph -> ph_BasePath ph <> "" ->
    let pr := resolve_page i tree ph in
    (forall a, a ∈ page_attempts (rb_defaultLanguage i) (rb_languages i) ph pr.2 -> accounted (page_owner ph) a b') \/
    exists b0, grows b0 b' /\ (addHandlerAndRegister (rb_defaultLanguage i) (rb_languages i) pr b0).2 = false.
Proof.
  induction bps as [|bp bps IH]; intros b Hb; cbv zeta; cbn [foldl].
  { split_and!; [done|done|]. by intros ? ? ?%elem_of_nil. }
  assert (Hstep : well_built (rb_system i) (register_page i tree rendered b bp) /\
    grows b (register_page i tree rendered b bp) /\
    forall ph, rendered !! bp = Some ph -> ph_BasePath ph <> "" ->
      (forall a, a ∈ page_attempts (rb_defaultLanguage i) (rb_languages i) ph (resolve_page i tree ph).2 ->
         accounted (page_owner ph) a (register_page i tree rendered b bp)) \/
      (addHandlerAndRegister (rb_defaultLanguage i) (rb_languages i) (resolve_page i tree ph) b).2 = false).
  { unfold register_page. destruct (rendered !! bp) as [ph|]; [|done].
    destruct (addHandlerAndRegister _ _ (resolve_page i tree ph) b) as [b1 fin] eqn:Hr.
    destruct (addHandlerAndRegister_spec _ _ _ _ _ _ _ Hb Hr) as (Hb1 & Hg1 & Ha). split_and!; [done|done|].
    intros ph' [= <-] Hne. rewrite Hr. destruct fin; [left|by right]. intros a Hin. by apply Ha. }
  destruct Hstep as (Hb1 & Hg1 & Ha). destruct (IH _ Hb1) as (Hb' & Hg' & Hall).
  split_and!; [done|by etransitivity|].
  intros bp' ph [->|Hin]%elem_of_cons Hl Hne; [|by eapply Hall].
  destruct (Ha ph Hl Hne) as [Hall'|Hstop].
  - left. intros a Hin. by eapply accounted_grows, Hall'.
  - right. exists b. split; [by etransitivity|done].
Qed.

Definition system_ok (system : list (pattern * route_handler)) : Prop :=
  (forall p, p ∈ system.*1 -> parsePattern (pt_str p) = Some p) /\
  StronglySorted (fun q p => conflictsWith p q = false) system.*1.

Lemma built_start i : system_ok (rb_system i) ->
  well_built (rb_system i) (mkBuild (rb_system i) (rb_paths i) newRouteRegistry).
Proof. intros [Hp Hc]. split; simpl; done. Qed.

Lemma built_pages_eq i pages :
  built_pages i pages = foldl (register_page i (newPageIndex (kept_pages i pages).2) (kept_pages i pages).1)
    (mkBuild (rb_system i) (rb_paths i) newRouteRegistry) (sort_strings (map_to_list (kept_pages i pages).1).*1).
Proof. unfold built_pages. by destruct (kept_pages i pages). Qed.

Lemma kept_pages_key i pages bp ph : (kept_pages i pages).1 !! bp = Some ph -> ph_BasePath ph = bp /\ bp <> "".
Proof.
  unfold kept_pages. assert (Hgen : forall l acc,
    (forall bp ph, acc.1 !! bp = Some ph -> ph_BasePath ph = bp /\ bp <> "") ->
    forall bp ph, (foldl (keep_page i) acc l).1 !! bp = Some ph -> ph_BasePath ph = bp /\ bp <> "").
  { clear. induction l as [|x l IH]; intros acc Hacc; [done|]. cbn [foldl]. apply IH. unfold keep_page.
    destruct (String.eqb_spec (ph_BasePath x) "") as [He|He]; simpl; [done|].
    destruct (found (acc.1 !! ph_BasePath x)); simpl; [done|].
    intros bp ph [[<- <-]|[_ Hl]]%lookup_insert_Some; [|by apply Hacc].
    split; [|done]. unfold parsed_page. by destruct (rb_checker i). }
  apply Hgen. intros ? ? Hl. simpl in Hl. by rewrite lookup_empty in Hl.
Qed.


(** ** Order *)

Lemma name_le_eq (ph ph' : PageHandler) : name_le ph ph' -> name_le ph' ph -> ph_Name ph = ph_Name ph'.
Proof. unfold name_le, string_le. apply String.leb_antisym. Qed.

Lemma sort_pages_unique (pages pages' : list PageHandler) :
  pages ≡ₚ pages' -> NoDup (ph_Name <$> pages) -> sort_pages pages = sort_pages pages'.
Proof.
  intros Hp Hnd. unfold sort_pages.
  apply (StronglySorted_unique_strong name_le).
  - intros x y Hx Hy Hxy Hyx. rewrite merge_sort_Permutation in Hx, Hy. rewrite <- Hp in Hy.
    by eapply (NoDup_fmap_inj ph_Name), name_le_eq.
  - apply StronglySorted_merge_sort.
    + intros x y z. unfold name_le. apply string_le_trans.
    + intros x y. unfold name_le. apply string_le_total.
  - apply StronglySorted_merge_sort.
    + intros x y z. unfold name_le. apply string_le_trans.
    + intros x y. unfold name_le. apply string_le_total.
  - by rewrite !merge_sort_Permutation.
Qed.

(** Which page and which function answers which route, the collisions
    recorded and the page index do not depend on the order the store lists its
    pages in: every rebuild, and every replica, comes to the same. *)
Theorem rebuild_order_independent i (pages pages' : list PageHandler) :
  pages ≡ₚ pages' -> NoDup (ph_Name <$> pages) -> rebuildMuxSnapshot i pages = rebuildMuxSnapshot i pages'.
Proof.
  intros Hp Hnd. assert (Hk : kept_pages i pages = kept_pages i pages').
  { unfold kept_pages. by rewrite (sort_pages_unique pages pages'). }
  assert (Hb : built i pages = built i pages') by (unfold built, built_pages; by rewrite Hk).
  unfold rebuildMuxSnapshot. rewrite Hb, Hk.
  destruct pages as [|ph pages], pages' as [|ph' pages']; [done|..|done].
  - by apply Permutation_nil_cons in Hp.
  - symmetry in Hp. by apply Permutation_nil_cons in Hp.
Qed.

(** A page whose requirements hold a placeholder is closed to everyone. *)
Lemma unbindable_denied reqs e :
  BindRequirements (ParseRequirements reqs) ∅ = Err e ->
  parsePageRequirementsFailClosed reqs = ParseRequirements unbindablePageDenyRequirements.
Proof. intros He. unfold parsePageRequirementsFailClosed. by rewrite He. Qed.
End Rebuild.

(** * Two pages and a function *)

#[local] Existing Instance siteEntitlements.

Definition noPlaceholders : Binder := {| BindRequirements reqs _ := Ok reqs |}.
#[local] Existing Instance noPlaceholders.
Definition plainURLs : RequestURLs := {| EscapedPathOf s := Some s |}.
#[local] Existing Instance plainURLs.

Definition routePage (name patternPath : string) : PageHandler :=
  mkPage name (mkPageSpec ("/" ++ name) patternPath name None None "" "" None None None []) None None ∅.

Definition routesInput : rebuild_input :=
  mkRebuild [] ∅ "en" ["en"; "fr"] true None
    [mkFunctionRoute (mkFunctionRef "f" "/a/x" false true) true; mkFunctionRoute (mkFunctionRef "g" "/v1" false true) true] true.

Definition routesPages : list PageHandler := [routePage "b" "/c/{y}"; routePage "a" "/{x}/b"].

Lemma rebuild_order_independent_witness :
  rebuildMuxSnapshot routesInput routesPages = rebuildMuxSnapshot routesInput (rev routesPages).
Proof.
  apply rebuild_order_independent.
  - apply Permutation_rev.
  - apply (bool_decide_eq_true_1 (NoDup _)). vm_compute. reflexivity.
Defined.


(** A pattern of one page that overlaps another's, neither the narrower, is
    refused and no collision recorded; and the routes after it, of every other
    language, are gone. *)
Lemma overlapping_page_route_unrecorded :
  let b := built_pages routesInput routesPages in
  rr_collisions (bd_routes b) = [] /\
  contains_elem (pt_str <$> bd_patterns b) "GET /fr/a" = true /\
  contains_elem (pt_str <$> bd_patterns b) "GET /b" = true /\
  contains_elem (pt_str <$> bd_patterns b) "GET /c/{y}" = false /\
  contains_elem (pt_str <$> bd_patterns b) "GET /fr/b" = false.
Proof. vm_compute. split_and!; reflexivity. Qed.
