(* ===== verification/Host.v ===== *)
(** The host handler (src/internal/host/host.go): its status, which request it
    serves and how, the order it takes its lock in, a page's head, its utility
    pages, and the digest its caches key a page tree by. *)
From S2P Require Import Prelude GoStr Deps Claims Clients Url SubjectKind Denial Rewrite Functions Mux Proxy OpenApi ServeMux Languages Response Pages Routes.
From Stdlib Require Import Ascii QArith.

#[local] Open Scope string_scope.

(** * Status *)

Inductive HostStatus := HostStatusInitializing | HostStatusReady | HostStatusDegraded | HostStatusProgressing.

(** The conditions of the status by type ([None]: a nil slice), true ones set. *)
Record host_status := mkHostStatus { hs_status : object_status; hs_Conditions : option (gmap string bool) }.

Definition IsStatusConditionTrue (conditions : gmap string bool) (ty : string) : bool :=
  default false (conditions !! ty).

Definition GetStatus (s : option host_status) : HostStatus :=
  match s with
  | None => HostStatusInitializing
  | Some s =>
      match hs_Conditions s with
      | None => HostStatusDegraded
      | Some cs =>
          if IsStatusConditionTrue cs "Ready" then HostStatusReady
          else if IsStatusConditionTrue cs "Progressing" then HostStatusProgressing
          else if IsStatusConditionTrue cs "Degraded" then HostStatusDegraded
          else HostStatusInitializing
      end
  end.

(** * Serving *)

(** What becomes of a request: the announcement in a language, an error, or
    the mux behind authentication and the middleware. *)
Inductive host_answer := NotReady (lang : string) | BadLanguage | NotFound | Dispatched.

Definition ServeHTTP `{LanguageTags} (status : HostStatus) (hasMux : bool) (path : string) (r : param_request)
    (defaultLanguage : string) (languages : list Tag) : host_answer :=
  match status with
  | HostStatusInitializing =>
      if negb (isSystemPath path) then
        match GetLang r defaultLanguage languages with
        | Ok l => NotReady (TagString l)
        | Err _ => BadLanguage
        end
      else if hasMux then Dispatched else NotFound
  | _ => if hasMux then Dispatched else NotFound
  end.

(** * The lock *)

(** hh.mu, as one goroutine takes and releases it: a Go RWMutex may not be
    taken again by its holder, in either mode. *)
Inductive lock_op := Lock | Unlock | RLock | RUnlock.
Inductive lock_state := Free | Held | RHeld.

(** [None]: the goroutine blocks on itself, or releases what it does not hold. *)
Definition lock_step (s : lock_state) (op : lock_op) : option lock_state :=
  match s, op with
  | Free, Lock => Some Held
  | Free, RLock => Some RHeld
  | Held, Unlock => Some Free
  | RHeld, RUnlock => Some Free
  | _, _ => None
  end.

Fixpoint lock_run (s : lock_state) (ops : list lock_op) : option lock_state :=
  match ops with [] => Some s | op :: ops => s ← lock_step s op; lock_run s ops end.

(** [RebuildMux]: the snapshot under the read lock, then, if there is one, the
    commit under the write lock. *)
Definition RebuildMux_locks (snapshot : bool) : list lock_op :=
  [RLock; RUnlock] ++ (if snapshot then [Lock; Unlock] else []).

(** The operations that change the host and rebuild once they have let go. *)
Definition update_locks (snapshot : bool) : list lock_op := [Lock; Unlock] ++ RebuildMux_locks snapshot.

(** The store of pages calls [RebuildMux] back, after it has released its own
    lock, when a page that is there is deleted. *)
Definition RemovePage_locks (snapshot present : bool) : list lock_op :=
  [Lock] ++ (if present then RebuildMux_locks snapshot else []) ++ [Unlock] ++ RebuildMux_locks snapshot.

(** * A page's head *)

(** A package a page imports, and its import statement. *)
Record package_ref := mkPackageRef { pk_Name : string; pk_Import : string }.

Definition NL : string := String (ascii_of_nat 10) "".

(** The packages by name: a page's own win over the host's. *)
Definition packages_by_name (host page : list package_ref) : gmap string package_ref :=
  foldl (fun m p => <[pk_Name p := p]> m) ∅ (host ++ page)%list.

Definition import_statements (host page : list package_ref) : list string :=
  let byName := packages_by_name host page in
  omap (fun name => pk_Import <$> byName !! name) (sort_strings (map_to_list byName).*1).

(** [importmap] is "" for none; [scripts] are the head tags of the host's and
    the page's scripts. *)
Definition headScriptToHTML (host page : list package_ref) (importmap : string) (scripts : list string) : string :=
  let statements := import_statements host page in
  Join ((if String.eqb importmap "" then [] else
           ["<script type=" ++ quote ++ "importmap" ++ quote ++ ">" ++ NL ++ importmap ++ NL ++ "</script>"]) ++
        (match statements with
         | [] => []
         | _ => ["<script type=" ++ quote ++ "module" ++ quote ++ ">" ++ NL ++ Join statements NL ++ NL ++ "</script>"]
         end) ++ scripts) NL.

Definition FootScriptToHTML (hostScripts pageScripts : list string) : string := Join (hostScripts ++ pageScripts)%list NL.

(** The paths the page's metadata carries, under the language's prefix. *)
Definition meta_paths (defaultLanguage lang basePath patternPath : string) : string * string :=
  if String.eqb lang defaultLanguage then (basePath, patternPath)
  else ("/" ++ lang ++ basePath, "/" ++ lang ++ patternPath).

(** * Utility pages *)

(** The page of a type; [render] renders it with extra data or without. A
    plain render is cached, and a stale one rendered again after it is served. *)
Definition renderUtilityPage {P} (pages : gmap string P) (ty : string) (cacheKey : P -> string)
    (render : P -> option string) (cacheable : bool) (cache : gmap string (string * bool))
    : string * gmap string (string * bool) :=
  match pages !! ty with
  | None => ("", cache)
  | Some ph =>
      let fresh_into (c : gmap string (string * bool)) :=
        match render ph with
        | Some r => (r, if cacheable then <[cacheKey ph := (r, true)]> c else c)
        | None => ("", c)
        end in
      if cacheable then
        match cache !! cacheKey ph with
        | Some (r, true) => (r, cache)
        | Some (r, false) => (r, match render ph with Some r' => <[cacheKey ph := (r', true)]> cache | None => cache end)
        | None => fresh_into cache
        end
      else fresh_into cache
  end.

(** * The digest of a page tree *)

Section Digest.
Context `{!Entitlements} `{!Sha256}.

(** What is hashed of a page. *)
Record treeFields := mkTreeFields {
  tf_Name : string;
  tf_BasePath : string;
  tf_PatternPath : string;
  tf_Label : string;
  tf_ParentPageRef : option string;
  tf_Tags : list OpenApi.Tag;
  tf_NavigationHints : option navigation_hints;
  tf_Localized : option bool;
  tf_MimeType : string;
  tf_Rewrite : option alias_spec;
  tf_Security : option (list SecurityRequirement);
  tf_Parsed : bool;
}.

Definition tree_fields (ph : PageHandler) : treeFields :=
  let spec := ph_Page ph in
  mkTreeFields (ph_Name ph) (ps_BasePath spec) (ps_PatternPath spec) (ps_Label spec) (ps_ParentPageRef spec)
    (ps_Tags spec) (ps_NavigationHints spec) (ps_Localized spec) (ps_MimeType spec) (ps_Rewrite spec)
    (ps_Security spec) (found (ph_ParsedRequirements ph)).

(** A function, with its state. *)
Record function_state := mkFunctionState {
  fs_Name : string; fs_BasePath : string; fs_Internal : bool; fs_State : string
}.

Definition function_ref_of (f : function_state) : function_ref :=
  mkFunctionRef (fs_Name f) (fs_BasePath f) (fs_Internal f) (String.eqb (fs_State f) "Ready").

Definition fs_le (a b : function_state) : Prop := string_le (fs_Name a) (fs_Name b).
#[export] Instance fs_le_dec : RelDecision fs_le.
Proof. intros a b. unfold fs_le. apply _. Defined.

Definition targeted (pages : list PageHandler) (name : string) : bool :=
  existsb (fun ph => match ps_Rewrite (ph_Page ph) with
                     | Some al => (String.eqb (al_Kind al) "KDexFunction" && String.eqb (al_Name al) name)%bool
                     | None => false
                     end) pages.

Record digest_inputs := mkDigest {
  dg_Pages : list treeFields;
  dg_HostSecurity : option (list SecurityRequirement);
  dg_AuthEnabled : bool;
  dg_Anonymous : list string;
  dg_DefaultLang : string;
  dg_Functions : list function_state;
}.

Definition pageSetInputs (tree : pageIndex) (security : option (list SecurityRequirement)) (authEnabled : bool)
    (anonymous : list string) (defaultLanguage : string) (functions : list function_state) : digest_inputs :=
  mkDigest (tree_fields <$> ix_pages tree) security authEnabled anonymous defaultLanguage
    (merge_sort fs_le (filter (fun f => targeted (ix_pages tree) (fs_Name f) = true) functions)).

(** [marshal] is the JSON of the inputs, which keeps them apart. *)
Definition computePageSetDigest (marshal : digest_inputs -> string) (d : digest_inputs) : string :=
  String.substring 0 16 (sha256hex (marshal d)).

(** [logLabelCollisions]: the pages left out of every tree, with the sibling
    that took their label. *)
Fixpoint label_collisions (first : list (string * string * string)) (pages : list PageHandler) : list (string * string) :=
  match pages with
  | [] => []
  | ph :: pages =>
      let slot := (default "" (ps_ParentPageRef (ph_Page ph)), ps_Label (ph_Page ph)) in
      match list_find (fun x => x.1 = slot) first with
      | Some (_, (_, kept)) => (kept, ph_Name ph) :: label_collisions first pages
      | None => label_collisions ((slot, ph_Name ph) :: first) pages
      end
  end.
End Digest.

(** * Setting the host *)

(** [SetHost]'s language: canonical, English when none is given. *)
Definition canonicalLanguage `{LanguageTags} (defaultLang : string) : string :=
  TagString (MakeTag (if String.eqb defaultLang "" then "en" else defaultLang)).

Definition issuerAddress (scheme : string) (domains : option (list string)) : string :=
  match domains with
  | Some (d :: _) => scheme ++ "://" ++ d
  | _ => ""
  end.

(** An authentication configuration replaces the one before; none keeps it. *)
Definition set_auth {A} (next previous : option A) : option A := match next with Some a => Some a | None => previous end.
