(* ===== verification/HostSpec.v ===== *)
(** The digest of a page set moves whenever some caller's page tree could; the
    host's lock is not taken twice, but for one operation; a page imports each
    package once. *)
From S2P Require Import Prelude GoStr Deps Claims Clients Url SubjectKind Denial Rewrite Functions Mux Proxy OpenApi ServeMux Languages Response Pages PagesSpec Routes RoutesSpec Host.
From Stdlib Require Import Ascii QArith.

#[local] Open Scope string_scope.

(** * The lock *)

Lemma lock_run_app s ops ops' : lock_run s (ops ++ ops')%list = s' ← lock_run s ops; lock_run s' ops'.
Proof.
  revert s. induction ops as [|op ops IH]; intros s; [done|]. cbn [app lock_run].
  destruct (lock_step s op) as [s'|]; [apply IH|done].
Qed.

(** Every update, and the rebuild after it, ends with the lock free. *)
Lemma update_releases snapshot : lock_run Free (update_locks snapshot) = Some Free.
Proof. by destruct snapshot. Qed.

(** Removing a page that is there blocks on its own lock: the store calls the
    rebuild back while the host's lock is held. *)
Lemma remove_page_blocks snapshot present :
  lock_run Free (RemovePage_locks snapshot present) = if present then None else Some Free.
Proof. by destruct snapshot, present. Qed.

(** * Serving while the host starts *)

(** The endpoints a host is started through are never the announcement. *)
Lemma system_paths_served `{LanguageTags} status path r d languages lang :
  ServeHTTP status true path r d languages = NotReady lang -> isSystemPath path = false.
Proof. unfold ServeHTTP. destruct status; [|done..]. destruct (isSystemPath path); [done|]. done. Qed.

(** * The head *)

Lemma packages_by_name_spec host page name :
  packages_by_name host page !! name = last (filter (fun p => pk_Name p = name) (host ++ page)%list).
Proof.
  unfold packages_by_name. generalize (host ++ page)%list. intros l.
  induction l as [|p l IH] using rev_ind; [done|].
  rewrite foldl_app, filter_app, last_app. simpl. rewrite filter_cons, filter_nil.
  case_decide as Hd; simpl; [subst; by rewrite lookup_insert_eq|]. by rewrite lookup_insert_ne.
Qed.

(** A package either declares is imported, once, with the page's statement
    where the page declares it. *)
Lemma page_imports_win host page p :
  last (filter (fun q => pk_Name q = pk_Name p) page) = Some p -> pk_Import p ∈ import_statements host page.
Proof.
  intros Hp. unfold import_statements. cbv zeta. apply list_elem_of_omap. exists (pk_Name p).
  assert (Hl : packages_by_name host page !! pk_Name p = Some p).
  { rewrite packages_by_name_spec, filter_app, last_app. by rewrite Hp. }
  split; [apply elem_of_sorted_keys; by eexists|by rewrite Hl].
Qed.


(** * The digest *)

Section Digest.
Context `{!JwtClaims} `{!Entitlements} `{!LanguageTags} `{!Binder}.

Implicit Type h : page_host.

(** All a tree reads of a page. *)
Definition same_tree (a b : PageHandler) : Prop :=
  tree_fields a = tree_fields b /\ ph_ParsedRequirements a = ph_ParsedRequirements b.

(** A page set as a rebuild publishes it: its requirements are parsed when
    there is a checker, from the page's security or the host's. *)
Record published (security : option (list SecurityRequirement)) (functions : list function_state) (h : page_host) : Prop := {
  pu_index : exists pages, hp_tree h = newPageIndex pages;
  pu_parsed : forall ph, ph ∈ ix_pages (hp_tree h) ->
    ph_ParsedRequirements ph =
      if hp_checker h then Some (parsePageRequirementsFailClosed (pageRequirements security (ps_Security (ph_Page ph))))
      else None;
  pu_functions : hp_functions h = function_ref_of <$> functions;
  pu_names : NoDup (fs_Name <$> functions);
}.

Lemma same_tree_of security functions1 functions2 h1 h2 a b :
  published security functions1 h1 -> published security functions2 h2 ->
  a ∈ ix_pages (hp_tree h1) -> b ∈ ix_pages (hp_tree h2) -> tree_fields a = tree_fields b ->
  same_tree a b /\ hp_checker h1 = hp_checker h2.
Proof.
  intros Hp1 Hp2 Ha Hb Hf. pose proof (pu_parsed _ _ _ Hp1 a Ha) as H1'. pose proof (pu_parsed _ _ _ Hp2 b Hb) as H2'.
  assert (Hsec : ps_Security (ph_Page a) = ps_Security (ph_Page b)) by (by injection Hf).
  assert (Hfound : found (ph_ParsedRequirements a) = found (ph_ParsedRequirements b)) by (by injection Hf).
  rewrite H1', H2' in Hfound. assert (Hck : hp_checker h1 = hp_checker h2).
  { destruct (hp_checker h1), (hp_checker h2); done. }
  split; [|done]. split; [done|]. rewrite H1', H2', Hck, Hsec. done.
Qed.

Lemma same_tree_elem l1 l2 : Forall2 same_tree l1 l2 -> tree_fields <$> l1 = tree_fields <$> l2.
Proof. induction 1 as [|a b l1 l2 [Hf _] _ IH]; [done|]. by rewrite !fmap_cons, Hf, IH. Qed.

(** ** What is read of a page *)

Lemma same_tree_fields a b : same_tree a b ->
  ph_Name a = ph_Name b /\ ph_BasePath a = ph_BasePath b /\ ps_Label (ph_Page a) = ps_Label (ph_Page b) /\
  ps_ParentPageRef (ph_Page a) = ps_ParentPageRef (ph_Page b) /\ ps_Rewrite (ph_Page a) = ps_Rewrite (ph_Page b) /\
  pageModeOf (ph_Page a) = pageModeOf (ph_Page b) /\ ps_Localized (ph_Page a) = ps_Localized (ph_Page b) /\
  ps_PatternPath (ph_Page a) = ps_PatternPath (ph_Page b).
Proof.
  intros [Hf _]. unfold tree_fields in Hf. injection Hf as Hn Hb Hpp Hl Hpr Ht Hh Hlo Hm Hr Hs Hp.
  split_and!; try done. unfold pageModeOf. by rewrite Hr, Hm.
Qed.

Lemma visible_same h1 h2 a b held :
  hp_authEnabled h1 = hp_authEnabled h2 -> hp_checker h1 = hp_checker h2 -> same_tree a b ->
  visibleInTree h1 a held = visibleInTree h2 b held.
Proof.
  intros Hae Hck Hs. destruct (same_tree_fields a b Hs) as (_ & Hbp & _). destruct Hs as [_ Hp].
  unfold visibleInTree. by rewrite Hae, Hck, Hp, Hbp.
Qed.

Lemma Forall2_filter_same {A B} (R : A -> B -> Prop) (P : A -> bool) (Q : B -> bool) l1 l2 :
  Forall2 R l1 l2 -> (forall a b, R a b -> P a = Q b) ->
  Forall2 R (filter (fun a => P a = true) l1) (filter (fun b => Q b = true) l2).
Proof.
  intros Hl Hpq. induction Hl as [|a b l1 l2 Hab _ IH]; [constructor|].
  rewrite !filter_cons, (Hpq a b Hab). case_decide; [by constructor|done].
Qed.

Lemma children_same h1 h2 held parent :
  hp_authEnabled h1 = hp_authEnabled h2 -> hp_checker h1 = hp_checker h2 ->
  Forall2 same_tree (ix_pages (hp_tree h1)) (ix_pages (hp_tree h2)) ->
  Forall2 same_tree (visibleChildren h1 held parent) (visibleChildren h2 held parent).
Proof.
  intros Hae Hck Hl. unfold visibleChildren. apply Forall2_filter_same; [done|]. intros a b Hab.
  rewrite (visible_same h1 h2 a b held Hae Hck Hab). by destruct (same_tree_fields a b Hab) as (_ & _ & _ & -> & _).
Qed.

(** ** Aliases *)

Lemma byName_same l1 l2 : Forall2 same_tree l1 l2 -> forall (m1 m2 : gmap string PageHandler) k,
  (forall k, option_Forall2 same_tree (m1 !! k) (m2 !! k)) ->
  option_Forall2 same_tree (foldl (fun m ph => <[ph_Name ph := ph]> m) m1 l1 !! k)
    (foldl (fun m ph => <[ph_Name ph := ph]> m) m2 l2 !! k).
Proof.
  induction 1 as [|a b l1 l2 Hab _ IH]; intros m1 m2 k Hm; [done|]. cbn [foldl]. apply IH. intros k'.
  destruct (same_tree_fields a b Hab) as (Hn & _). rewrite Hn. destruct (decide (k' = ph_Name b)) as [->|Hne].
  - rewrite !lookup_insert_eq. by constructor.
  - by rewrite !lookup_insert_ne.
Qed.

(** The function an alias names. *)
Definition find_ref (n : string) (l : list function_ref) : option (nat * function_ref) :=
  list_find (fun f => (String.eqb (fr_Name f) n && negb (fr_Internal f) && fr_Ready f)%bool = true) l.

Lemma find_ref_found n fns fns' i r :
  (forall f, fs_Name f = n -> f ∈ fns <-> f ∈ fns') -> NoDup (fs_Name <$> fns') ->
  find_ref n (function_ref_of <$> fns) = Some (i, r) -> snd <$> find_ref n (function_ref_of <$> fns') = Some r.
Proof.
  intros Hin Hnd Hf. apply list_find_Some in Hf as (Hl & Hp & _).
  assert (Hr : r ∈ function_ref_of <$> fns) by by eapply list_elem_of_lookup_2.
  apply list_elem_of_fmap in Hr as (f & -> & Hf). assert (Hname : fs_Name f = n).
  { apply andb_prop in Hp as [[Hp _]%andb_prop _]. by apply String.eqb_eq. }
  assert (Hf' : f ∈ fns') by (by apply Hin).
  destruct (find_ref n (function_ref_of <$> fns')) as [[j r']|] eqn:Hf2; cbn [fmap option_fmap option_map snd].
  - apply list_find_Some in Hf2 as (Hl' & Hp' & _).
    assert (Hr' : r' ∈ function_ref_of <$> fns') by by eapply list_elem_of_lookup_2.
    apply list_elem_of_fmap in Hr' as (f' & -> & Hin'). apply andb_prop in Hp' as [[Hp' _]%andb_prop _].
    apply String.eqb_eq in Hp'. simpl in Hp'. do 2 f_equal. eapply (NoDup_fmap_inj fs_Name); [done..|]. congruence.
  - exfalso. apply list_find_None in Hf2. rewrite Forall_forall in Hf2. apply (Hf2 (function_ref_of f)); [|done].
    by apply list_elem_of_fmap_2.
Qed.

Lemma find_function_same n fns1 fns2 :
  NoDup (fs_Name <$> fns1) -> NoDup (fs_Name <$> fns2) ->
  (forall f, fs_Name f = n -> f ∈ fns1 <-> f ∈ fns2) ->
  snd <$> find_ref n (function_ref_of <$> fns1) = snd <$> find_ref n (function_ref_of <$> fns2).
Proof.
  intros Hn1 Hn2 Hin. destruct (find_ref n (function_ref_of <$> fns1)) as [[i r]|] eqn:Hr1.
  - symmetry. by eapply find_ref_found.
  - destruct (find_ref n (function_ref_of <$> fns2)) as [[j r]|] eqn:Hr2; [|done].
    assert (Hc := find_ref_found n fns2 fns1 j r (fun f Hf => iff_sym (Hin f Hf)) Hn1 Hr2). by rewrite Hr1 in Hc.
Qed.

(** ** The trees *)

Section Same.
Context (security : option (list SecurityRequirement)) (anonymous : list string) (fns1 fns2 : list function_state) (h1 h2 : page_host).
Hypothesis published1 : published security fns1 h1.
Hypothesis published2 : published security fns2 h2.
Hypothesis buckets : hp_scopeBuckets h1 = hp_scopeBuckets h2.
Hypothesis inputs :
  pageSetInputs (hp_tree h1) security (hp_authEnabled h1) anonymous (hp_defaultLanguage h1) fns1 =
  pageSetInputs (hp_tree h2) security (hp_authEnabled h2) anonymous (hp_defaultLanguage h2) fns2.

Lemma inputs_pages : tree_fields <$> ix_pages (hp_tree h1) = tree_fields <$> ix_pages (hp_tree h2).
Proof. exact (f_equal dg_Pages inputs). Qed.

Lemma inputs_plain : hp_authEnabled h1 = hp_authEnabled h2 /\ hp_defaultLanguage h1 = hp_defaultLanguage h2.
Proof. split; [exact (f_equal dg_AuthEnabled inputs)|exact (f_equal dg_DefaultLang inputs)]. Qed.

Lemma pages_same : Forall2 same_tree (ix_pages (hp_tree h1)) (ix_pages (hp_tree h2)).
Proof.
  pose proof inputs_pages as Hp. apply Forall2_same_length_lookup_2.
  { apply (f_equal length) in Hp. by rewrite !length_fmap in Hp. }
  intros i a b Ha Hb. assert (Hf : tree_fields a = tree_fields b).
  { assert (Hl : (tree_fields <$> ix_pages (hp_tree h1)) !! i = (tree_fields <$> ix_pages (hp_tree h2)) !! i) by by rewrite Hp.
    rewrite !list_lookup_fmap, Ha, Hb in Hl. exact (inj Some _ _ Hl). }
  by destruct (same_tree_of _ _ _ _ _ a b published1 published2 (list_elem_of_lookup_2 _ _ _ Ha)
    (list_elem_of_lookup_2 _ _ _ Hb) Hf).
Qed.

Lemma checker_same : ix_pages (hp_tree h1) <> [] -> hp_checker h1 = hp_checker h2.
Proof.
  intros Hne. pose proof pages_same as Hs. destruct (ix_pages (hp_tree h1)) as [|a l1] eqn:E1; [done|].
  destruct (ix_pages (hp_tree h2)) as [|b l2] eqn:E2; [by apply Forall2_cons_nil_inv in Hs|].
  apply Forall2_cons in Hs as [[Hf _] _].
  apply (same_tree_of _ _ _ _ _ a b published1 published2); [rewrite E1|rewrite E2|done]; by constructor.
Qed.

Lemma names_same k : option_Forall2 same_tree (ix_byName (hp_tree h1) !! k) (ix_byName (hp_tree h2) !! k).
Proof.
  pose proof pages_same as Hs. destruct (pu_index _ _ _ published1) as [p1 E1], (pu_index _ _ _ published2) as [p2 E2].
  rewrite E1, E2 in *. apply byName_same; [exact Hs|]. intros k'. rewrite !lookup_empty. constructor.
Qed.

(** The functions an alias of either tree names. *)
Lemma targeted_same n f : targeted (ix_pages (hp_tree h1)) n = true -> fs_Name f = n -> f ∈ fns1 <-> f ∈ fns2.
Proof.
  intros Ht Hn. assert (Ht2 : targeted (ix_pages (hp_tree h2)) n = true).
  { revert Ht. generalize pages_same. generalize (ix_pages (hp_tree h1)), (ix_pages (hp_tree h2)). clear.
    intros l1 l2 Hl. unfold targeted. rewrite !existsb_exists. intros (a & Ha & Hal).
    apply list_elem_of_In, list_elem_of_lookup in Ha as [i Ha].
    destruct (Forall2_lookup_l _ _ _ _ _ Hl Ha) as (b & Hb & Hab). exists b.
    split; [by apply list_elem_of_In, list_elem_of_lookup; exists i|].
    destruct (same_tree_fields a b Hab) as (_ & _ & _ & _ & Hr & _). by rewrite <- Hr. }
  assert (Hm : forall l tree, targeted (ix_pages tree) n = true ->
    f ∈ merge_sort fs_le (filter (fun f => targeted (ix_pages tree) (fs_Name f) = true) l) <-> f ∈ l).
  { intros l tree Htr. rewrite (merge_sort_Permutation fs_le), list_elem_of_filter, Hn. naive_solver. }
  rewrite <- (Hm fns1 (hp_tree h1) Ht), <- (Hm fns2 (hp_tree h2) Ht2).
  assert (Hd := f_equal dg_Functions inputs).
  cbn [dg_Functions pageSetInputs] in Hd. by rewrite Hd.
Qed.

Lemma resolve_same a al :
  a ∈ ix_pages (hp_tree h1) -> ps_Rewrite (ph_Page a) = Some al ->
  resolveRewriteTarget al (ix_byName (hp_tree h1)) (hp_functions h1) =
  resolveRewriteTarget al (ix_byName (hp_tree h2)) (hp_functions h2).
Proof.
  intros Ha Hal. unfold resolveRewriteTarget. destruct (String.eqb (al_Kind al) "KDexPage").
  { destruct (names_same (al_Name al)) as [x y Hxy|]; [|done].
    destruct (same_tree_fields x y Hxy) as (_ & -> & _ & _ & _ & -> & -> & _). done. }
  destruct (String.eqb (al_Kind al) "KDexFunction") eqn:Hk; [|done].
  rewrite (pu_functions _ _ _ published1), (pu_functions _ _ _ published2).
  assert (Hf := find_function_same (al_Name al) fns1 fns2 (pu_names _ _ _ published1) (pu_names _ _ _ published2)).
  assert (Ht : targeted (ix_pages (hp_tree h1)) (al_Name al) = true).
  { apply existsb_exists. exists a. rewrite Hal, Hk, String.eqb_refl. split; [by apply list_elem_of_In|done]. }
  specialize (Hf (fun f => targeted_same (al_Name al) f Ht)). unfold find_ref in Hf.
  repeat match goal with |- context [list_find ?P ?l] => destruct (list_find P l) as [[? ?]|] eqn:? end; simplify_eq/=; done.
Qed.

Lemma rewriteEntry_same a b al l held :
  a ∈ ix_pages (hp_tree h1) -> same_tree a b -> ps_Rewrite (ph_Page a) = Some al ->
  hp_checker h1 = hp_checker h2 -> rewriteEntry h1 a al l held = rewriteEntry h2 b al l held.
Proof.
  intros Ha Hab Hal Hck. destruct inputs_plain as [Hae Hdl].
  destruct (same_tree_fields a b Hab) as (_ & _ & _ & _ & _ & _ & Hlo & Hpp).
  unfold rewriteEntry. rewrite (resolve_same a al Ha Hal), Hlo, Hpp, Hdl. cbv zeta.
  replace (match ix_byName (hp_tree h1) !! al_Name al with Some target => negb (visibleInTree h1 target held) | None => true end)
    with (match ix_byName (hp_tree h2) !! al_Name al with Some target => negb (visibleInTree h2 target held) | None => true end);
    [done|].
  destruct (names_same (al_Name al)) as [x y Hxy|]; [|done]. by rewrite (visible_same h1 h2 x y held Hae Hck Hxy).
Qed.

Lemma entry_same a b l d held :
  a ∈ ix_pages (hp_tree h1) -> same_tree a b -> hp_checker h1 = hp_checker h2 ->
  entry_of h1 l d held a = entry_of h2 l d held b.
Proof.
  intros Ha Hab Hck. pose proof (same_tree_fields a b Hab) as (Hn & Hbp & Hl & _ & Hr & Hm & Hlo & _).
  assert (Hh : ps_NavigationHints (ph_Page a) = ps_NavigationHints (ph_Page b) /\ ps_Tags (ph_Page a) = ps_Tags (ph_Page b) /\ ps_MimeType (ph_Page a) = ps_MimeType (ph_Page b)) by (destruct Hab as [Hf _]; by injection Hf).
  destruct Hh as (Hh & Ht & Hmt). unfold ph_BasePath in Hbp. unfold entry_of, navigationWeight.
  rewrite Hn, Hbp, Hl, Hm, Hlo, Hh, Ht, Hmt, <- Hr.
  destruct (ps_Rewrite (ph_Page a)) as [al|] eqn:Hal; [|done]. cbn [fmap option_fmap option_map].
  by rewrite (rewriteEntry_same a b al l held Ha Hab Hal Hck).
Qed.

Lemma menu_same l d held fuel parent :
  hp_checker h1 = hp_checker h2 ->
  buildMenuEntries h1 l d held fuel parent = buildMenuEntries h2 l d held fuel parent.
Proof.
  intros Hck. revert parent. induction fuel as [|fuel IH]; intros parent; [done|]. cbn [buildMenuEntries]. f_equal.
  assert (Hc := children_same h1 h2 held parent (proj1 inputs_plain) Hck pages_same).
  assert (Hsub : Forall (fun a => a ∈ ix_pages (hp_tree h1)) (visibleChildren h1 held parent)).
  { apply Forall_forall. intros a Ha. by apply list_elem_of_filter in Ha as [_ Ha]. }
  induction Hc as [|a b l1 l2 Hab _ IHc]; [done|]. apply Forall_cons in Hsub as [Ha Hsub].
  rewrite !fmap_cons, (IHc Hsub), (entry_same a b l d held Ha Hab Hck), IH.
  by destruct (same_tree_fields a b Hab) as (-> & _ & -> & _).
Qed.

Lemma pageMap_same ctx l : pageMap h1 ctx l = pageMap h2 ctx l.
Proof.
  pose proof pages_same as Hs. destruct (decide (ix_pages (hp_tree h1) = [])) as [He|Hne].
  { assert (He2 : ix_pages (hp_tree h2) = []) by (rewrite He in Hs; by apply Forall2_nil_inv_l in Hs).
    unfold pageMap, tree_fuel. cbn [buildMenuEntries]. unfold visibleChildren. by rewrite He, He2. }
  pose proof (checker_same Hne) as Hck. unfold pageMap, tree_fuel, treeEntitlements.
  rewrite (proj2 inputs_plain), Hck, buckets, (Forall2_length _ _ _ Hs). by apply menu_same.
Qed.
End Same.

(** C38: Two page sets a rebuild published with the same digest inputs give
    every caller, in every language, the same page tree: labels, links,
    weights, aliases and all. So a render a text page keyed by the digest is
    never served over a tree that has changed since. *)
Theorem digest_sound security anonymous fns1 fns2 h1 h2 ctx l :
  published security fns1 h1 -> published security fns2 h2 -> hp_scopeBuckets h1 = hp_scopeBuckets h2 ->
  pageSetInputs (hp_tree h1) security (hp_authEnabled h1) anonymous (hp_defaultLanguage h1) fns1 =
  pageSetInputs (hp_tree h2) security (hp_authEnabled h2) anonymous (hp_defaultLanguage h2) fns2 ->
  pageMap h1 ctx l = pageMap h2 ctx l.
Proof. intros Hp1 Hp2 Hb Hi. by eapply pageMap_same. Qed.
End Digest.

(** * A site before and after a function no page names *)

#[local] Existing Instance siteEntitlements.
#[local] Existing Instance noPlaceholders.
#[local] Existing Instance languagesExample.
#[local] Existing Instance jwtExample.

Definition digestSecurity : option (list SecurityRequirement) := Some [{[ "bearer" := ["pages:/home:read"] ]}].

(** A page of [body], and one that stands for the function "f". *)
Definition digestPages (body : string) : list PageHandler :=
  let parsed := Some (parsePageRequirementsFailClosed (pageRequirements digestSecurity None)) in
  [mkPage "home" (mkPageSpec "/home" "" "Home" None None "" body None None None []) parsed None ∅;
   mkPage "api" (mkPageSpec "/api" "" "Api" (Some "home") None "" "" (Some (mkAlias "KDexFunction" "f" (mkRewriteSpec "" true))) None None [])
     parsed None ∅].

Definition digestFunctions : list function_state := [mkFunctionState "f" "/v1/f" false "Ready"].
Definition digestFunctions' : list function_state :=
  [mkFunctionState "g" "/v1/g" false "Ready"; mkFunctionState "f" "/v1/f" false "Ready"].

Definition digestHost (body : string) (functions : list function_state) : page_host :=
  mkPageHost true true false (newPageIndex (digestPages body)) (function_ref_of <$> functions) "en" [] true false "https://h.test".

Lemma digestHost_published body functions :
  NoDup (fs_Name <$> functions) -> published digestSecurity functions (digestHost body functions).
Proof.
  intros Hnd. split; [by eexists| |reflexivity|done]. intros ph Hin. cbn [hp_checker digestHost].
  assert (Hp : ph ∈ digestPages body).
  { cbn [hp_tree digestHost newPageIndex ix_pages] in Hin. unfold sort_pages in Hin.
    by rewrite (merge_sort_Permutation name_le) in Hin. }
  repeat (apply elem_of_cons in Hp as [->|Hp]; [reflexivity|]). by apply elem_of_nil in Hp.
Qed.

Lemma digest_sound_witness :
  pageMap (digestHost "one" digestFunctions) None "fr" = pageMap (digestHost "two" digestFunctions') None "fr".
Proof.
  apply (@digest_sound siteEntitlements languagesExample noPlaceholders digestSecurity [] digestFunctions digestFunctions').
  - apply digestHost_published, (bool_decide_eq_true_1 (NoDup _)). vm_compute. reflexivity.
  - apply digestHost_published, (bool_decide_eq_true_1 (NoDup _)). vm_compute. reflexivity.
  - reflexivity.
  - vm_compute. reflexivity.
Defined.
