(* ===== verification/Cluster.v ===== *)
(** What the controllers share (src/internal/controller/resolver_common.go and
    reference_namespaces.go, src/internal/job/job.go, src/internal/types.go):
    how a pass ends, the conditions of a status, the answers of the API
    server, references between objects, and the jobs of a function with the
    pods that ran them. Then the builder a function's image is built with and
    the kpack Image that builds it (kdexfunction_controller.go, from
    parseBuilderGenerator to builderForBuild and inspectKPackImageStatus, and
    src/internal/build/build.go): a kpack Image is unstructured, the tree of
    its JSON. *)
From S2P Require Import Prelude GoStr.
From Stdlib Require Import Ascii.

#[local] Open Scope string_scope.

(** * A pass *)

(** How a reconcile ends: called again after a while, left alone until
    something changes, an error (called again with a back-off), or a panic,
    which controller-runtime turns into an error. *)
Inductive outcome := Requeue (after : Z) | Settled | Failed (err : string) | Panics.

(** The API server's answer to a read. *)
Inductive answer (A : Type) := Found (a : A) | NotFound (msg : string) | Unavailable (msg : string).
Arguments Found {A} a.
Arguments NotFound {A} msg.
Arguments Unavailable {A} msg.

(** * Conditions *)

Inductive cond_status := CTrue | CFalse | CUnknown.
#[export] Instance cond_status_eq_dec : EqDecision cond_status.
Proof. solve_decision. Defined.

(** A condition without its transition time, which [functionStatusEqual] and
    the writes of a status leave out of account. *)
Record condition := mkCondition { c_Status : cond_status; c_Reason : string; c_Message : string }.
Record cond_statuses := mkStatuses { cs_Degraded : cond_status; cs_Progressing : cond_status; cs_Ready : cond_status }.

#[export] Instance condition_eq_dec : EqDecision condition.
Proof. solve_decision. Defined.

Notation conditions := (gmap string condition).

Definition status_of (cs : conditions) (ty : string) : option cond_status := c_Status <$> cs !! ty.

(** [kdexv1alpha1.SetConditions] of kdex.dev/crds sets the three conditions;
    [SetStatusCondition] and [RemoveStatusCondition] are
    k8s.io/apimachinery's, on one condition. *)
Class Conditions := {
  SetConditions : cond_statuses -> string -> string -> conditions -> conditions;
  SetConditions_Degraded s reason msg cs : status_of (SetConditions s reason msg cs) "Degraded" = Some (cs_Degraded s);
  SetConditions_Progressing s reason msg cs : status_of (SetConditions s reason msg cs) "Progressing" = Some (cs_Progressing s);
  SetConditions_Ready s reason msg cs : status_of (SetConditions s reason msg cs) "Ready" = Some (cs_Ready s);
  SetConditions_again s reason msg s' reason' msg' cs :
    SetConditions s reason msg (SetConditions s' reason' msg' cs) = SetConditions s reason msg cs;
}.

Definition SetStatusCondition (ty : string) (c : condition) (cs : conditions) : conditions := <[ty := c]> cs.
Definition RemoveStatusCondition (ty : string) (cs : conditions) : conditions := delete ty cs.
Definition ConditionTrue (cs : conditions) (ty : string) : bool := bool_decide (status_of cs ty = Some CTrue).

Program Definition conditionsExample : Conditions := {|
  SetConditions s reason msg cs :=
    <["Degraded" := mkCondition (cs_Degraded s) reason msg]>
      (<["Progressing" := mkCondition (cs_Progressing s) reason msg]>
         (<["Ready" := mkCondition (cs_Ready s) reason msg]> cs));
|}.
Next Obligation. intros. unfold status_of; cbn beta. by rewrite lookup_insert_eq. Qed.
Next Obligation.
  intros. unfold status_of; cbn beta. rewrite lookup_insert_ne by done.
  by rewrite lookup_insert_eq.
Qed.
Next Obligation.
  intros. unfold status_of; cbn beta. rewrite !lookup_insert_ne by done.
  by rewrite lookup_insert_eq.
Qed.
Next Obligation.
  intros. cbn beta. apply map_eq. intros k.
  destruct (decide (k = "Degraded")) as [->|]; [by rewrite !lookup_insert_eq|].
  destruct (decide (k = "Progressing")) as [->|]; [by rewrite !(lookup_insert_ne _ "Degraded"), !lookup_insert_eq by done|].
  destruct (decide (k = "Ready")) as [->|].
  { by rewrite !(lookup_insert_ne _ "Degraded"), !(lookup_insert_ne _ "Progressing"), !lookup_insert_eq by done. }
  by rewrite !lookup_insert_ne by done.
Qed.

(** The triples the controllers set. *)
Definition degraded : cond_statuses := mkStatuses CTrue CFalse CFalse.
Definition progressing : cond_statuses := mkStatuses CFalse CTrue CFalse.
Definition reconciling : cond_statuses := mkStatuses CFalse CTrue CUnknown.
Definition ready : cond_statuses := mkStatuses CFalse CFalse CTrue.

(** The reasons, constants of kdex.dev/crds. *)
Class Reasons := { Reconciling : string; ReconcileSuccess : string; ReconcileError : string }.

(** controllerutil.CreateOrUpdate: what is there, mutated, is created when
    nothing was and written when it changed. What is written is answered with
    what the server keeps beside it. *)
Definition CreateOrUpdate {A B E X} `{EqDecision A} (failed : string -> X) (there : answer (A * B)) (mutate : option A -> result X A)
    (put : A -> result string B) (ask : A -> E) : list E * result X (A * B) :=
  let written o := ([ask o], match put o with Ok b => Ok (o, b) | Err e => Err (failed e) end) in
  match there with
  | Unavailable e => ([], Err (failed e))
  | NotFound _ => match mutate None with Err e => ([], Err e) | Ok o => written o end
  | Found (old, b) =>
      match mutate (Some old) with
      | Err e => ([], Err e)
      | Ok o => if bool_decide (o = old) then ([], Ok (old, b)) else written o
      end
  end.

(** An object the server keeps nothing beside. *)
Definition unit_answer {A} (a : answer A) : answer (A * unit) :=
  match a with Found x => Found (x, tt) | NotFound e => NotFound e | Unavailable e => Unavailable e end.
Definition unit_put {A} (put : A -> option string) (o : A) : result string unit :=
  match put o with Some e => Err e | None => Ok tt end.

(** The answer to the write of a status. *)
Inductive write_answer := Written | Conflict (msg : string) | WriteFailed (msg : string).

(** The deferred write of a status that changed, which a panic does not skip:
    the status stored and the outcome. *)
Definition write_status {A} `{EqDecision A} (w : write_answer) (stored st : A) (o : outcome) : A * outcome :=
  if bool_decide (st = stored) then (stored, o)
  else
    match w, o with
    | Written, _ => (st, o)
    | _, Panics => (stored, Panics)
    | Conflict _, _ => (stored, Requeue (50 * millisecond))
    | WriteFailed e, _ => (stored, Failed e)
    end.

(** * Reference namespaces *)

Definition ParseReferenceNamespaces (csv : string) : list string :=
  keep_distinct (fun ns => negb (String.eqb ns "")) [] (map TrimSpace (Split "," csv)).

Definition CacheNamespaces (controllerNamespace : string) (namespaces : list string) : list string :=
  (controllerNamespace :: keep_distinct (fun _ => true) [controllerNamespace] namespaces)%list.

(** [refs] is [None] until [SetReferenceNamespaces] has run. *)
Definition isReferenceNamespace (refs : option (list string)) (ns : string) : bool :=
  match refs with None => false | Some l => bool_decide (ns ∈ l) end.

(** [%q] of a string that needs no escaping, as a resource's name does not. *)
Definition quoted (s : string) : string := String (ascii_of_nat 34) (s ++ String (ascii_of_nat 34) "").

Definition checkReferenceNamespace (refs : option (list string)) (referrerNamespace namespace : string) : option string :=
  if String.eqb namespace "" || String.eqb namespace referrerNamespace || isReferenceNamespace refs namespace then None
  else Some ("namespace " ++ quoted namespace ++ " is not referenceable: add it to the KDexHost's spec.referenceNamespaces").

(** * References *)

Record KDexObjectReference := mkRef { or_Kind : string; or_Name : string; or_Namespace : string }.
#[export] Instance ref_eq_dec : EqDecision KDexObjectReference.
Proof. solve_decision. Defined.

Definition no_ref : KDexObjectReference := mkRef "" "" "".

(** An object a reference may name: its kind's payload and its conditions. *)
Record referred (A : Type) := mkReferred { rf_object : A; rf_conditions : conditions }.
Arguments mkReferred {A} _ _.
Arguments rf_object {A} _.
Arguments rf_conditions {A} _.

(** What a resolver hands back: nothing to resolve, the caller's result, or
    the object. *)
Inductive resolution (A : Type) := NoReference | Stop (o : outcome) | Resolved (a : A).
Arguments NoReference {A}.
Arguments Stop {A} o.
Arguments Resolved {A} a.

Definition isClusterKind (kind : string) : bool := Contains kind "Cluster".

(** The namespace an object is read from: none for a cluster-scoped one. *)
Definition reference_namespace (referrerKind referrerNamespace : string) (ref : KDexObjectReference) : string :=
  if negb (isClusterKind referrerKind) && negb (isClusterKind (or_Kind ref)) then
    if String.eqb (or_Namespace ref) "" then referrerNamespace else or_Namespace ref
  else "".

(** [get] is the API server's read of a kind in a namespace, [knownKind] the
    scheme's. [isReady] marks the conditions of the copy it was handed, so
    those of the referrer are left as they are. *)
Definition ResolveKDexObjectReference `{Conditions, Reasons} {A} (refs : option (list string)) (knownKind : string -> bool)
    (get : string -> string -> string -> answer (referred A)) (requeueDelay : Z)
    (referrerKind referrerNamespace : string) (objectRef : option KDexObjectReference) (cs : conditions)
    : conditions * resolution A :=
  match objectRef with
  | None => (cs, NoReference)
  | Some ref =>
      if isClusterKind referrerKind && negb (isClusterKind (or_Kind ref)) then
        (cs, Stop (Failed ("referrer " ++ referrerKind ++ " is cluster scoped so " ++ or_Kind ref ++ " must also be cluster scoped")))
      else if negb (knownKind (or_Kind ref)) then (cs, Stop (Failed ("unknown kind " ++ or_Kind ref)))
      else
        let ns := reference_namespace referrerKind referrerNamespace ref in
        let failed msg := (SetConditions degraded ReconcileError msg cs, Stop (Failed msg)) in
        match checkReferenceNamespace refs referrerNamespace ns with
        | Some msg => failed msg
        | None =>
            match get (or_Kind ref) ns (or_Name ref) with
            | NotFound msg | Unavailable msg => failed msg
            | Found o =>
                if ConditionTrue (rf_conditions o) "Ready" then (cs, Resolved (rf_object o))
                else (cs, Stop (Requeue requeueDelay))
            end
        end
  end.

(** The host a function names, in the function's namespace; its readiness is
    asked for only when [checkReady]. *)
Definition ResolveHost `{Conditions, Reasons} {A} (got : answer (referred A)) (requeueDelay : Z) (checkReady : bool)
    (cs : conditions) : conditions * resolution A :=
  match got with
  | NotFound msg => (SetConditions degraded ReconcileError msg cs, Stop (Requeue requeueDelay))
  | Unavailable msg => (cs, Stop (Failed msg))
  | Found o =>
      if checkReady && negb (ConditionTrue (rf_conditions o) "Ready") then (cs, Stop (Requeue requeueDelay))
      else (cs, Resolved (rf_object o))
  end.

(** The oldest of a list by creation time, the first of several as old:
    [slices.SortFunc] keeps no order among equals, so a list with distinct
    times determines it. *)
Fixpoint oldest {A} (created : A -> Z) (l : list A) : option A :=
  match l with
  | [] => None
  | a :: l =>
      match oldest created l with
      | None => Some a
      | Some b => if (created b <? created a)%Z then Some b else Some a
      end
  end.

(** The object a reference names, else the oldest default of the cluster. *)
Definition ResolveOrDefault `{Conditions, Reasons} {A} (resolved : conditions * resolution A)
    (defaults : string + list A) (created : A -> Z) : conditions * resolution A :=
  match resolved with
  | (cs, NoReference) =>
      match defaults with
      | inl msg => (SetConditions degraded ReconcileError msg cs, Stop (Failed msg))
      | inr l => (cs, match oldest created l with Some a => Resolved a | None => NoReference end)
      end
  | r => r
  end.

(** * Jobs and their pods *)

Definition ANNOTATION_GENERATION : string := "kdex.dev/generation".
Definition LABEL_APP : string := "app".
Definition LABEL_FUNCTION : string := "function".
Definition APP_BUILDER : string := "builder".
Definition APP_CODEGEN : string := "codegen".
Definition APP_DEPLOYER : string := "deployer".
Definition APP_OBSERVER : string := "observer".
Definition APP_PACKAGES : string := "packages".
Definition LABEL_PACKAGES : string := "packages".

Record job_condition := mkJobCondition { jc_Type : string; jc_Status : string; jc_Reason : string; jc_Message : string }.

(** [jb_controlled]: the function is its controlling owner. *)
Record job := mkJob {
  jb_Namespace : string; jb_Name : string;
  jb_Labels : gmap string string; jb_Annotations : gmap string string; jb_controlled : bool;
  jb_Succeeded : Z; jb_Failed : Z; jb_Conditions : list job_condition }.

(** A pod: its annotations, and the termination message of each container and
    of each that runs before them, [None] while it has not terminated. *)
Record pod := mkPod {
  pd_Annotations : gmap string string;
  pd_Containers : list (string * option string); pd_InitContainers : list (string * option string) }.

Definition value_at (l : gmap string string) (k : string) : string := default "" (l !! k).

Definition GetPodForJob (pods : string + list pod) (j : job) : result string pod :=
  match pods with
  | inl e => Err e
  | inr l =>
      match List.find (fun p => String.eqb (value_at (pd_Annotations p) ANNOTATION_GENERATION)
                                  (value_at (jb_Annotations j) ANNOTATION_GENERATION)) l with
      | Some p => Ok p
      | None => Err ("no pods found for job " ++ jb_Name j)
      end
  end.

(** The message of the first terminated container of a name, else "". *)
Fixpoint terminationMessage (name : string) (l : list (string * option string)) : string :=
  match l with
  | [] => ""
  | (n, Some msg) :: l => if String.eqb n name then msg else terminationMessage name l
  | (_, None) :: l => terminationMessage name l
  end.

Definition isCodegenJobTerminal (j : job) : option string :=
  match List.find (fun c => String.eqb (jc_Type c) "Failed" && String.eqb (jc_Status c) "True") (jb_Conditions j) with
  | Some c => Some (jc_Reason c ++ ": " ++ jc_Message c)
  | None => None
  end.

Definition unfinished (j : job) : bool := (jb_Succeeded j =? 0)%Z && (jb_Failed j =? 0)%Z.
Definition finished (j : job) : bool := (0 <? jb_Succeeded j)%Z || (0 <? jb_Failed j)%Z.

(** A job of a kind the function may delete: controlled by it, finished, and
    of another generation or not the one to keep. *)
Definition obsolete (generation : Z) (keep : string) (j : job) : bool :=
  negb (String.eqb (value_at (jb_Labels j) ANNOTATION_GENERATION) (FormatInt generation)) ||
  (negb (String.eqb keep "") && negb (String.eqb (jb_Name j) keep)).

Definition deletable (generation : Z) (keep : string) (j : job) : bool :=
  jb_controlled j && finished j && obsolete generation keep j.

(** The names it asks to delete, and the error that stopped it. *)
Fixpoint delete_each (del : string -> answer unit) (l : list job) : list string * option string :=
  match l with
  | [] => ([], None)
  | j :: l =>
      match del (jb_Name j) with
      | Unavailable e => ([jb_Name j], Some e)
      | _ => let '(names, e) := delete_each del l in (jb_Name j :: names, e)
      end
  end.

Definition cleanupJobs (jobs : string + list job) (del : string -> answer unit) (generation : Z) (keep : string)
    : list string * option string :=
  match jobs with
  | inl e => ([], Some e)
  | inr l => delete_each del (filter (fun j => deletable generation keep j = true) l)
  end.

(** * Kubernetes values *)

(** A toleration. [tl_Seconds] is a pointer in Go. *)
Record Toleration := mkToleration {
  tl_Key : string; tl_Operator : string; tl_Value : string; tl_Effect : string; tl_Seconds : option Z }.

(** An environment variable, and what else it may read its value from. *)
Inductive env_source := SecretKeyRef (secret key : string) | OtherSource (text : string).
#[export] Instance env_source_eq_dec : EqDecision env_source.
Proof. solve_decision. Defined.

Record EnvVar := mkEnvVar { ev_Name : string; ev_Value : string; ev_From : option env_source }.

Definition env_var (name value : string) : EnvVar := mkEnvVar name value None.

(** Quantities by resource name, as their text; a nil map is the empty one. *)
Record Resources := mkResources { rs_Requests : gmap string string; rs_Limits : gmap string string; rs_Claims : list string }.

#[export] Instance toleration_eq_dec : EqDecision Toleration.
Proof. solve_decision. Defined.
#[export] Instance resources_eq_dec : EqDecision Resources.
Proof. solve_decision. Defined.
#[export] Instance env_var_eq_dec : EqDecision EnvVar.
Proof. solve_decision. Defined.

Record Builder := mkBuilder {
  bd_Name : string;
  bd_BuilderRef : KDexObjectReference;
  bd_Languages : list string;
  bd_ServiceAccountName : string;
  bd_Cache : option string; (* the volume's size *)
  bd_Tolerations : list Toleration;
  bd_NodeSelector : gmap string string;
  bd_Env : list EnvVar;
  bd_Resources : option Resources }.

(** * Choosing a builder *)

(** The part before the first slash and the part after it. *)
Fixpoint Cut (sep : ascii) (s : string) : option (string * string) :=
  match s with
  | "" => None
  | String c s =>
      if Ascii.eqb c sep then Some ("", s)
      else match Cut sep s with Some (a, b) => Some (String c a, b) | None => None end
  end.

Definition parseBuilderGenerator (s : string) : result string (string * string) :=
  match Cut "/" s with
  | Some p => Ok p
  | None => Err ("invalid defaultBuilderGenerator " ++ quoted s ++ ": expected '<builder>/<language>'")
  end.

Definition resolveDefaultBuilder (defaultBuilderGenerator : string) (builders : list Builder) : result string Builder :=
  match parseBuilderGenerator defaultBuilderGenerator with
  | Err e => Err e
  | Ok (name, language) =>
      match List.find (fun b => String.eqb (bd_Name b) name && contains_elem (bd_Languages b) language) builders with
      | Some b => Ok b
      | None => Err ("no Builder named " ++ quoted name ++ " supporting language " ++ quoted language ++
                     " found in FaaSAdaptor.spec.builders (defaultBuilderGenerator=" ++ quoted defaultBuilderGenerator ++ ")")
      end
  end.

Definition resolveBuilderByName (builders : list Builder) (name : string) : option Builder :=
  if String.eqb name "" then None else List.find (fun b => String.eqb (bd_Name b) name) builders.

(** * Merging *)

(** Go's [==] on two tolerations. The seconds are compared as pointers, and
    two elements never share one: equal only when neither is set. *)
Definition same_toleration (a b : Toleration) : bool :=
  String.eqb (tl_Key a) (tl_Key b) && String.eqb (tl_Operator a) (tl_Operator b) &&
  String.eqb (tl_Value a) (tl_Value b) && String.eqb (tl_Effect a) (tl_Effect b) &&
  match tl_Seconds a, tl_Seconds b with None, None => true | _, _ => false end.

Definition add_toleration (l : list Toleration) (t : Toleration) : list Toleration :=
  if existsb (fun e => same_toleration e t) l then l else (l ++ [t])%list.

(** The variable put in the place of the first of its name, else at the end. *)
Fixpoint put_env (l : list EnvVar) (e : EnvVar) : list EnvVar :=
  match l with
  | [] => [e]
  | x :: l => if String.eqb (ev_Name x) (ev_Name e) then e :: l else x :: put_env l e
  end.

Definition or_else (inline base : string) : string := if String.eqb inline "" then base else inline.

(** [maps.Copy]: the inline quantities over those of the base. *)
Definition mergeResourceList (base inline : gmap string string) : gmap string string := inline ∪ base.

Definition merge_resources (base inline : option Resources) : option Resources :=
  match inline with
  | None => base
  | Some i =>
      let b := default (mkResources ∅ ∅ []) base in
      Some (mkResources (mergeResourceList (rs_Requests b) (rs_Requests i)) (mergeResourceList (rs_Limits b) (rs_Limits i))
              (match rs_Claims i with [] => rs_Claims b | l => l end))
  end.

(** Both given: inline wins, the base fills what it leaves unset. *)
Definition merged (b inline : Builder) : Builder :=
  mkBuilder (or_else (bd_Name inline) (bd_Name b))
    (if decide (bd_BuilderRef inline = no_ref) then bd_BuilderRef b else bd_BuilderRef inline)
    (match bd_Languages inline with [] => bd_Languages b | l => l end)
    (or_else (bd_ServiceAccountName inline) (bd_ServiceAccountName b))
    (match bd_Cache inline with None => bd_Cache b | c => c end)
    (foldl add_toleration (bd_Tolerations b) (bd_Tolerations inline))
    (bd_NodeSelector inline ∪ bd_NodeSelector b)
    (foldl put_env (bd_Env b) (bd_Env inline))
    (merge_resources (bd_Resources b) (bd_Resources inline)).

Definition mergeBuilder (base inline : option Builder) : option Builder :=
  match base, inline with
  | None, i => i
  | b, None => b
  | Some b, Some i => Some (merged b i)
  end.

Definition builderForBuild (defaultBuilderGenerator : string) (builders : list Builder) (inline : option Builder)
    : result string (option Builder) :=
  match inline with
  | None => b ← resolveDefaultBuilder defaultBuilderGenerator builders; Ok (Some b)
  | Some i => Ok (mergeBuilder (resolveBuilderByName builders (bd_Name i)) inline)
  end.

(** * Unstructured objects *)

Inductive tree :=
  | TNull | TBool (b : bool) | TNum (z : Z) | TStr (s : string)
  | TArr (l : list tree) | TMap (fields : list (string * tree)).

Fixpoint field (l : list (string * tree)) (k : string) : option tree :=
  match l with
  | [] => None
  | (k', t) :: l => if String.eqb k' k then Some t else field l k
  end.

Fixpoint set_field (l : list (string * tree)) (k : string) (t : tree) : list (string * tree) :=
  match l with
  | [] => [(k, t)]
  | (k', t') :: l => if String.eqb k' k then (k, t) :: l else (k', t') :: set_field l k t
  end.

Fixpoint NestedField (t : tree) (path : list string) : option tree :=
  match path with
  | [] => Some t
  | k :: path => match t with TMap l => u ← field l k; NestedField u path | _ => None end
  end.

(** [SetNestedField]: maps are made on the way; what is there and is no map is
    an error. *)
Fixpoint SetNested (t : tree) (path : list string) (v : tree) : option tree :=
  match path with
  | [] => Some v
  | k :: path =>
      match t with
      | TMap l => u ← SetNested (default (TMap []) (field l k)) path v; Some (TMap (set_field l k u))
      | _ => None
      end
  end.

Definition NestedString (t : tree) (path : list string) : option string :=
  match NestedField t path with Some (TStr s) => Some s | _ => None end.
Definition NestedInt64 (t : tree) (path : list string) : option Z :=
  match NestedField t path with Some (TNum z) => Some z | _ => None end.

(** * The kpack Image *)

(** runtime.DefaultUnstructuredConverter and ctrl.SetControllerReference. *)
Class Unstructured := {
  toleration_tree : Toleration -> result string tree;
  resources_tree : Resources -> result string tree;
  SetControllerReference : tree -> result string tree;
  SetControllerReference_keeps o o' path : SetControllerReference o = Ok o' -> hd "" path <> "metadata" -> path <> [] ->
    NestedField o' path = NestedField o path;
}.

(** What an image is built from: the builder resolved, the source pinned. *)
Record build := mkBuild {
  bl_ImageRegistry : string; bl_ImagePrefix : string; bl_ServiceAccount : string;
  bl_Repository : string; bl_Revision : string; bl_Path : string; bl_Builder : Builder }.

Definition imageRef (registry prefix name tag : string) : string := registry ++ "/" ++ prefix ++ name ++ ":" ++ tag.

Definition convert (env : list EnvVar) : tree :=
  TArr (map (fun e => TMap [("name", TStr (ev_Name e)); ("value", TStr (ev_Value e))]) env).

Definition image_spec (b : build) (function : string) (generation : Z) : tree :=
  let ref := imageRef (bl_ImageRegistry b) (bl_ImagePrefix b) function in
  TMap
    [("builder", TMap [("name", TStr (or_Name (bd_BuilderRef (bl_Builder b)))); ("kind", TStr (or_Kind (bd_BuilderRef (bl_Builder b))))]);
     ("imageTaggingStrategy", TStr "BuildNumber");
     ("serviceAccountName", TStr (bl_ServiceAccount b));
     ("source", TMap [("git", TMap [("url", TStr (bl_Repository b)); ("revision", TStr (bl_Revision b))]);
                      ("subPath", TStr (bl_Path b))]);
     ("tag", TStr (ref "latest"));
     ("additionalTags", TArr [TStr (ref (FormatInt generation))]);
     ("successBuildHistoryLimit", TNum 3);
     ("failedBuildHistoryLimit", TNum 3)].

Definition nested (t : tree) (path : list string) (v : tree) : result string tree :=
  match SetNested t path v with Some u => Ok u | None => Err "value cannot be set because the parent is not a map" end.

Fixpoint convert_tolerations `{Unstructured} (i : nat) (l : list Toleration) : result string (list tree) :=
  match l with
  | [] => Ok []
  | t :: l =>
      match toleration_tree t with
      | Err e => Err ("convert builder.tolerations[" ++ FormatInt (Z.of_nat i) ++ "]: " ++ e)
      | Ok m => ms ← convert_tolerations (S i) l; Ok (m :: ms)
      end
  end.

(** The scheduling of the build's pod, each part left out when it is empty. *)
Definition put_tolerations `{Unstructured} (builder : Builder) (image : tree) : result string tree :=
  match bd_Tolerations builder with
  | [] => Ok image
  | l => tols ← convert_tolerations 0 l; nested image ["spec"; "build"; "tolerations"] (TArr tols)
  end.

Definition put_node_selector (builder : Builder) (image : tree) : result string tree :=
  if decide (bd_NodeSelector builder = ∅) then Ok image
  else nested image ["spec"; "build"; "nodeSelector"]
         (TMap ((fun kv => (kv.1, TStr kv.2)) <$> map_to_list (bd_NodeSelector builder))).

Definition put_resources `{Unstructured} (builder : Builder) (image : tree) : result string tree :=
  match bd_Resources builder with
  | None => Ok image
  | Some res =>
      match resources_tree res with
      | Err e => Err ("convert builder.resources: " ++ e)
      | Ok t => nested image ["spec"; "build"; "resources"] t
      end
  end.

(** The function CreateOrPatch runs on the image there is, or on the bare one. *)
Definition mutate_image `{Unstructured} (b : build) (host function : string) (generation : Z) (image : tree) : result string tree :=
  let builder := bl_Builder b in
  image ← nested image ["spec"] (image_spec b function generation);
  image ← nested image ["spec"; "build"; "env"] (convert (bd_Env builder));
  image ← nested image ["spec"; "cache"] (TMap [("volume", TMap [("size", TStr (default "10Gi" (bd_Cache builder)))])]);
  image ← put_tolerations builder image;
  image ← put_node_selector builder image;
  image ← put_resources builder image;
  image ← nested image ["metadata"; "labels"]
            (TMap [(LABEL_APP, TStr APP_BUILDER); (LABEL_FUNCTION, TStr function); ("kdex.dev/host", TStr host)]);
  SetControllerReference image.

Definition image_name (host function : string) : string := host ++ "-" ++ function.

Definition bare_image (namespace name : string) : tree :=
  TMap [("apiVersion", TStr "kpack.io/v1alpha2"); ("kind", TStr "Image");
        ("metadata", TMap [("namespace", TStr namespace); ("name", TStr name)])].

(** [GetOrCreateKPackImage]: what is sent, given the image there is ([None]:
    none), before the API server's answer. *)
Definition desired_image `{Unstructured} (b : build) (host namespace function : string) (generation : Z) (there : option tree)
    : result string tree :=
  mutate_image b host function generation (default (bare_image namespace (image_name host function)) there).

(** * What a kpack Image reports *)

Definition fields_of (t : tree) : option (list (string * tree)) := match t with TMap l => Some l | _ => None end.

Definition condition_is (ty : string) (c : tree) : bool :=
  match c with
  | TMap l =>
      match field l "type", field l "status" with
      | Some (TStr t), Some (TStr s) => String.eqb t ty && String.eqb s "True"
      | _, _ => false
      end
  | _ => false
  end.

Definition failure_message (c : tree) : string :=
  match NestedString c ["message"] with
  | None | Some "" => "kpack reports Failed=True"
  | Some msg => msg
  end.

(** Whether the build of the current generation succeeded, and the message of
    a failure of any. *)
Definition inspectKPackImageStatus (generation : Z) (image : tree) : bool * option string :=
  match NestedField image ["status"] with
  | Some (TMap status) =>
      match field status "conditions" with
      | Some (TArr conditions) =>
          match List.find (condition_is "Failed") conditions with
          | Some c => (false, Some (failure_message c))
          | None =>
              match NestedInt64 image ["status"; "observedGeneration"] with
              | Some observed =>
                  if (observed <? generation)%Z then (false, None)
                  else (existsb (condition_is "Ready") conditions, None)
              | None => (false, None)
              end
          end
      | _ => (false, None)
      end
  | _ => (false, None)
  end.
