(* ===== verification/Deploy.v ===== *)
(** The function resource as its controller reads it, and the workloads that
    work on it in the cluster: the deployer Job and the host's observer CronJob
    (src/internal/deploy/deploy.go), and the job that generates its source
    (src/internal/generate/generate.go). The workloads themselves, and what
    they do in a cluster, are the adaptor's; the resources of the codegen steps
    and the volumes are left out. *)
From S2P Require Import Prelude GoStr Deps Cluster.
From Stdlib Require Import Ascii.

#[local] Open Scope string_scope.

(** * The function *)

Record Source := mkSource {
  src_Repository : string; src_Revision : string; src_Path : string;
  src_Builder : option Builder; src_Regenerate : option bool }.

Record Executable := mkExecutable { ex_Image : string }.

Record GitConfig := mkGit {
  gc_Image : string; gc_CommitterEmail : string; gc_CommitterName : string; gc_FunctionSubDirectory : string }.

Record Generator := mkGenerator {
  gn_Language : string; gn_Image : string; gn_Entrypoint : string;
  gn_Args : list string; gn_Command : list string; gn_Git : GitConfig }.

(** [spec.origin]; an absent one reads as the empty one ([GetOrigin]). *)
Record Origin := mkOrigin {
  og_Executable : option Executable; og_Source : option Source; og_Generator : option Generator }.

(** A number or a name. *)
Inductive port := PortNumber (n : Z) | PortName (name : string).

Record BackendService := mkBackend {
  be_Name : string; be_Namespace : string; be_Port : port; be_Scheme : string; be_Path : string }.

(** [spec.scaling]; durations are in nanoseconds. *)
Record Scaling := mkScaling {
  sc_ActivationScale : option Z; sc_InitialScale : option Z; sc_MaxScale : option Z;
  sc_Metric : option string; sc_MinScale : option Z;
  sc_PanicThresholdPercentage : option Z; sc_PanicWindowPercentage : option Z;
  sc_ScaleDownDelay : option Z; sc_ScaleToZeroPodRetentionPeriod : option Z; sc_StableWindow : option Z;
  sc_Target : option Z; sc_TargetUtilizationPercentage : option Z }.

(** [spec.api] is opaque but for its base path. [fs_Backend]: absent, or
    present with its service, absent or not. Volumes and their mounts are
    opaque. *)
Record function_spec (API : Type) := mkFunctionSpec {
  fs_Host : string; fs_API : API; fs_BasePath : string;
  fs_Backend : option (option BackendService); fs_Origin : option Origin;
  fs_ServiceAccountName : string; fs_Tolerations : list Toleration; fs_NodeSelector : gmap string string;
  fs_Volumes : list string; fs_VolumeMounts : list string; fs_Internal : bool;
  fs_Env : list EnvVar; fs_Scaling : option Scaling }.
Arguments mkFunctionSpec {API} _ _ _ _ _ _ _ _ _ _ _ _ _.
Arguments fs_Host {API} _.
Arguments fs_API {API} _.
Arguments fs_BasePath {API} _.
Arguments fs_Backend {API} _.
Arguments fs_Origin {API} _.
Arguments fs_ServiceAccountName {API} _.
Arguments fs_Tolerations {API} _.
Arguments fs_NodeSelector {API} _.
Arguments fs_Volumes {API} _.
Arguments fs_VolumeMounts {API} _.
Arguments fs_Internal {API} _.
Arguments fs_Env {API} _.
Arguments fs_Scaling {API} _.

Record function (API : Type) := mkFunctionObject {
  fo_Namespace : string; fo_Name : string; fo_Generation : Z; fo_Labels : gmap string string;
  fo_Spec : function_spec API }.
Arguments mkFunctionObject {API} _ _ _ _ _.
Arguments fo_Namespace {API} _.
Arguments fo_Name {API} _.
Arguments fo_Generation {API} _.
Arguments fo_Labels {API} _.
Arguments fo_Spec {API} _.

Definition GetOrigin {API} (f : function API) : Origin := default (mkOrigin None None None) (fs_Origin (fo_Spec f)).

(** [status.state]; [StOther]: none, or one the controller does not know. *)
Inductive fn_state :=
  | StOther | StPending | StOpenAPIValid | StBuildValid | StSourceAvailable
  | StExecutableAvailable | StFunctionDeployed | StReady.
#[export] Instance fn_state_eq_dec : EqDecision fn_state.
Proof. solve_decision. Defined.

(** Their texts, constants of kdex.dev/crds. *)
Class StateText := { state_text : fn_state -> string }.

Record fn_status := mkStatus {
  st_State : fn_state; st_Attributes : gmap string string; st_Conditions : conditions;
  st_Detail : string; st_OpenAPISchemaURL : string; st_URL : string;
  st_Executable : option Executable; st_Generator : option Generator; st_Source : option Source;
  st_ObservedGeneration : Z }.

#[export] Instance executable_eq_dec : EqDecision Executable.
Proof. solve_decision. Defined.
#[export] Instance git_eq_dec : EqDecision GitConfig.
Proof. solve_decision. Defined.
#[export] Instance generator_eq_dec : EqDecision Generator.
Proof. solve_decision. Defined.
#[export] Instance builder_eq_dec : EqDecision Builder.
Proof. solve_decision. Defined.
#[export] Instance source_eq_dec : EqDecision Source.
Proof. solve_decision. Defined.
#[export] Instance status_eq_dec : EqDecision fn_status.
Proof. solve_decision. Defined.

(** * The adaptor and the host *)

Record DeployerSpec := mkDeployerSpec {
  dp_Image : string; dp_Args : list string; dp_Command : list string; dp_Env : list EnvVar;
  dp_Tolerations : list Toleration; dp_NodeSelector : gmap string string;
  dp_JobTolerations : list Toleration; dp_JobNodeSelector : gmap string string }.

Record ObserverSpec := mkObserverSpec {
  ob_Image : string; ob_Args : list string; ob_Command : list string; ob_Env : list EnvVar;
  ob_Tolerations : list Toleration; ob_NodeSelector : gmap string string; ob_Schedule : string;
  ob_MaxBuildRetries : option Z; ob_RetryCooldown : option Z }.

Record FaaSAdaptor := mkAdaptor {
  fa_DefaultBuilderGenerator : string; fa_Builders : list Builder; fa_Generators : list Generator;
  fa_Deployer : DeployerSpec; fa_Observer : option ObserverSpec }.

Record InternalHost := mkInternalHost {
  ih_Name : string; ih_Namespace : string; ih_Generation : Z;
  ih_Scheme : string; ih_Domains : list string; ih_ImageRegistry : string; ih_NpmRegistry : string;
  ih_TokenPrefix : option string; (* spec.auth.apiToken.tokenPrefix *)
  ih_FaaSAdaptorRef : option KDexObjectReference }.

Definition resolveAPITokenPrefix (host : option string) (framework : string) : string :=
  match host with Some p => if String.eqb p "" then framework else p | None => framework end.

(** * Go's durations *)

Fixpoint trim_zeros (s : string) : string :=
  match s with
  | "" => ""
  | String c s =>
      match trim_zeros s with
      | "" => if Ascii.eqb c "0" then "" else String c ""
      | t => String c t
      end
  end.

Fixpoint zeros (n : nat) : string := match n with O => "" | S n => String "0" (zeros n) end.

(** The fraction of [v] over [10^prec], no trailing zeros and no lone point. *)
Definition fraction (prec : nat) (v : Z) : string :=
  let digits := FormatInt (v mod 10 ^ Z.of_nat prec) in
  match trim_zeros (zeros (prec - String.length digits) ++ digits) with "" => "" | t => "." ++ t end.

(** [time.Duration.String]. *)
Definition DurationString (d : Z) : string :=
  let u := Z.abs d in
  let text :=
    if (u =? 0)%Z then "0s"
    else if (u <? 1000)%Z then FormatInt u ++ "ns"
    else if (u <? millisecond)%Z then FormatInt (u / 1000) ++ fraction 3 u ++ "µs"
    else if (u <? second)%Z then FormatInt (u / millisecond) ++ fraction 6 u ++ "ms"
    else
      let s := (u / second)%Z in
      (if (s <? 60)%Z then "" else
         (if (s <? 3600)%Z then "" else FormatInt (s / 3600) ++ "h") ++ FormatInt (s / 60 mod 60) ++ "m") ++
      FormatInt (s mod 60) ++ fraction 9 u ++ "s" in
  if (d <? 0)%Z then "-" ++ text else text.

(** * Jobs to create *)

Record container := mkContainer {
  ct_Name : string; ct_Image : string; ct_Command : list string; ct_Args : list string; ct_Env : list EnvVar }.

Record job_request := mkJobRequest {
  jq_Namespace : string; jq_Name : string; jq_Labels : gmap string string; jq_Annotations : gmap string string;
  jq_ActiveDeadlineSeconds : Z; jq_BackoffLimit : Z; jq_AutomountToken : bool;
  jq_InitContainers : list container; jq_Containers : list container; jq_ImagePullSecrets : list string;
  jq_NodeSelector : gmap string string; jq_Tolerations : list Toleration;
  jq_ServiceAccountName : string; jq_RestartPolicy : string }.

(** The job the API server hands back once it has created it. *)
Definition created_job (q : job_request) : job :=
  mkJob (jq_Namespace q) (jq_Name q) (jq_Labels q) (jq_Annotations q) true 0 0 [].

Record cron_spec := mkCronSpec {
  cr_Container : container; cr_ImagePullSecrets : list string;
  cr_NodeSelector : gmap string string; cr_Tolerations : list Toleration;
  cr_ServiceAccountName : string; cr_Schedule : string }.
#[export] Instance container_eq_dec : EqDecision container.
Proof. solve_decision. Defined.
#[export] Instance cron_spec_eq_dec : EqDecision cron_spec.
Proof. solve_decision. Defined.

Record cron_job := mkCronJob { cj_Name : string; cj_Labels : gmap string string; cj_Spec : cron_spec }.

(** What a pass asks of the API server, in order. *)
Inductive effect :=
  | CreateJob (q : job_request) | DeleteJob (name : string)
  | LabelFunction (value : string)
  | CreateCron (c : cron_job) | UpdateCron (c : cron_job) | DeleteCron (name : string)
  | PatchImage (image : tree) | DeleteImage (name : string).

(** The answer to the creation of a CronJob. *)
Inductive creation := Created | AlreadyExists | CreationFailed (err : string).

(** What the API server answers a function's pass about its workloads. *)
Record workloads := mkWorkloads {
  wl_job : string -> answer job;
  wl_create_job : job_request -> option string;
  wl_jobs : string -> string + list job; (* by their app label *)
  wl_pods : string -> string + list pod; (* of a job *)
  wl_delete_job : string -> answer unit;
  wl_label : option string;
  wl_cron : string -> answer cron_job;
  wl_create_cron : creation; wl_update_cron : option string;
  wl_delete_cron : answer unit }.

(** encoding/json of the Kubernetes types a deployer is handed. *)
Class KubernetesJSON := {
  MarshalTolerations : list Toleration -> result string string;
  MarshalSelector : gmap string string -> result string string;
  MarshalList : list string -> result string string;
  MarshalEnv : list EnvVar -> result string string;
}.

Section Deploying.
Context {API : Type} `{!Sha256} `{!KubernetesJSON}.

Definition resolveTolerations (f : function API) (faas : FaaSAdaptor) : list Toleration :=
  match fs_Tolerations (fo_Spec f) with [] => dp_Tolerations (fa_Deployer faas) | l => l end.

Definition resolveNodeSelector (f : function API) (faas : FaaSAdaptor) : gmap string string :=
  if decide (fs_NodeSelector (fo_Spec f) = ∅) then dp_NodeSelector (fa_Deployer faas) else fs_NodeSelector (fo_Spec f).

(** [deploy.Deployer], but for its client and scheme. *)
Record Deployer := mkDeployer {
  de_FaaSAdaptor : FaaSAdaptor; de_Host : InternalHost;
  de_ImagePullSecrets : list string; de_ServiceAccount : string; de_TokenPrefix : string }.

Definition marshalled (name what : string) (r : result string string) : result string (list EnvVar) :=
  match r with Ok body => Ok [env_var name body] | Err e => Err ("marshal function " ++ what ++ ": " ++ e) end.

Definition functionFileAndExposureEnv (f : function API) : result string (list EnvVar) :=
  let s := fo_Spec f in
  volumes ← match fs_Volumes s with [] => Ok [] | l => marshalled "FUNCTION_VOLUMES" "volumes" (MarshalList l) end;
  mounts ← match fs_VolumeMounts s with [] => Ok [] | l => marshalled "FUNCTION_VOLUME_MOUNTS" "volumeMounts" (MarshalList l) end;
  Ok (volumes ++ mounts ++ (if fs_Internal s then [env_var "FUNCTION_INTERNAL" "true"] else []))%list.

(** [faasAdaptor.generation] of the status, and the image of its executable,
    "" for none. *)
Definition JobName (f : function API) (image adaptorGeneration : string) : string :=
  fo_Name f ++ "-deployer-" ++ FormatInt (fo_Generation f) ++ "-" ++ String.substring 0 8 (sha256hex (image ++ adaptorGeneration)).

(** The variables every function is deployed with. *)
Definition common_env (d : Deployer) (f : function API) (image domain : string) : list EnvVar :=
  let h := de_Host d in
  let internalHost := "http://" ++ ih_Name h ++ "." ++ ih_Namespace h ++ ".svc.cluster.local:8090" in
  [env_var "AUDIENCE" ("http://" ++ fo_Name f ++ "." ++ fo_Namespace f ++ ".svc.cluster.local");
   env_var "FUNCTION_BASEPATH" (fs_BasePath (fo_Spec f));
   env_var "FUNCTION_GENERATION" (FormatInt (fo_Generation f));
   env_var "FUNCTION_HOST" (fs_Host (fo_Spec f));
   env_var "FUNCTION_IMAGE" image;
   env_var "FUNCTION_NAME" (fo_Name f);
   env_var "FUNCTION_NAMESPACE" (fo_Namespace f);
   env_var "ISSUER" (ih_Scheme h ++ "://" ++ domain);
   env_var "JWKS_URL" (internalHost ++ "/.well-known/jwks.json");
   env_var "PASETO_TOKEN_PREFIX" (de_TokenPrefix d);
   env_var "PKS_URL" (internalHost ++ "/.well-known/pks.json")].

(** Those the function is handed: the names in FORWARDED_ENV_VARS. *)
Definition forwarded_env (d : Deployer) (f : function API) (image domain : string) : result string (list EnvVar) :=
  let sa := fs_ServiceAccountName (fo_Spec f) in
  tolerations ← match resolveTolerations f (de_FaaSAdaptor d) with
                | [] => Ok []
                | l => marshalled "FUNCTION_TOLERATIONS" "tolerations" (MarshalTolerations l)
                end;
  selector ← (let ns := resolveNodeSelector f (de_FaaSAdaptor d) in
              if decide (ns = ∅) then Ok [] else marshalled "FUNCTION_NODE_SELECTOR" "nodeSelector" (MarshalSelector ns));
  Ok (common_env d f image domain ++ (if String.eqb sa "" then [] else [env_var "FUNCTION_SERVICE_ACCOUNT_NAME" sa]) ++
      tolerations ++ selector)%list.

Definition optional {A} (name : string) (render : A -> string) (o : option A) : list EnvVar :=
  match o with Some a => [env_var name (render a)] | None => [] end.

Definition scaling_env (s : Scaling) : list EnvVar :=
  (optional "SCALING_ACTIVATION_SCALE" FormatInt (sc_ActivationScale s) ++
   optional "SCALING_INITIAL_SCALE" FormatInt (sc_InitialScale s) ++
   optional "SCALING_MAX_SCALE" FormatInt (sc_MaxScale s) ++
   optional "SCALING_METRIC" id (sc_Metric s) ++
   optional "SCALING_MIN_SCALE" FormatInt (sc_MinScale s) ++
   optional "SCALING_PANIC_THRESHOLD_PERCENTAGE" FormatInt (sc_PanicThresholdPercentage s) ++
   optional "SCALING_PANIC_WINDOW_PERCENTAGE" FormatInt (sc_PanicWindowPercentage s) ++
   optional "SCALING_SCALE_DOWN_DELAY" DurationString (sc_ScaleDownDelay s) ++
   optional "SCALING_SCALE_TO_ZERO_POD_RETENTION_PERIOD" DurationString (sc_ScaleToZeroPodRetentionPeriod s) ++
   optional "SCALING_STABLE_WINDOW" DurationString (sc_StableWindow s) ++
   optional "SCALING_TARGET" FormatInt (sc_Target s) ++
   optional "SCALING_TARGET_UTILIZATION_PERCENTAGE" FormatInt (sc_TargetUtilizationPercentage s))%list.

Definition deployer_env (d : Deployer) (f : function API) (image domain : string) : result string (list EnvVar) :=
  env ← forwarded_env d f image domain;
  files ← functionFileAndExposureEnv f;
  user ← match fs_Env (fo_Spec f) with [] => Ok [] | l => marshalled "FUNCTION_USER_ENV" "user env" (MarshalEnv l) end;
  Ok (env ++ [env_var "FORWARDED_ENV_VARS" (Join (map ev_Name env) ",")] ++ files ++ user ++
      dp_Env (fa_Deployer (de_FaaSAdaptor d)) ++
      match fs_Scaling (fo_Spec f) with Some s => scaling_env s | None => [] end)%list.

Definition function_labels (app : string) (f : function API) : gmap string string :=
  <[LABEL_APP := app]> (<[LABEL_FUNCTION := fo_Name f]> {[ANNOTATION_GENERATION := FormatInt (fo_Generation f)]}).

Definition generation_annotation (f : function API) : gmap string string :=
  {[ANNOTATION_GENERATION := FormatInt (fo_Generation f)]}.

Definition deployer_job (d : Deployer) (f : function API) (name : string) (env : list EnvVar) : job_request :=
  let dp := fa_Deployer (de_FaaSAdaptor d) in
  mkJobRequest (fo_Namespace f) name (function_labels APP_DEPLOYER f) (generation_annotation f) 1800 3 true []
    [mkContainer "deployer" (dp_Image dp) (dp_Command dp) (dp_Args dp) env]
    (de_ImagePullSecrets d) (dp_JobNodeSelector dp) (dp_JobTolerations dp) (de_ServiceAccount d) "Never".

(** How [Deploy] ends: with the job, an error or a panic. *)
Inductive deployed := DeployJob (j : job) | DeployFailed (err : string) | DeployPanics.

Definition Deploy (d : Deployer) (w : workloads) (f : function API) (executable : option Executable) (adaptorGeneration : string)
    : list effect * deployed :=
  match executable with
  | None => ([], DeployFailed ("function " ++ fo_Namespace f ++ "/" ++ fo_Name f ++ " has no executable"))
  | Some ex =>
      let name := JobName f (ex_Image ex) adaptorGeneration in
      match wl_job w name with
      | Found j => ([], DeployJob j)
      | Unavailable e => ([], DeployFailed e)
      | NotFound _ =>
          match ih_Domains (de_Host d) with
          | [] => ([], DeployPanics)
          | domain :: _ =>
              match deployer_env d f (ex_Image ex) domain with
              | Err e => ([], DeployFailed e)
              | Ok env =>
                  let q := deployer_job d f name env in
                  match wl_create_job w q with
                  | Some e => ([CreateJob q], DeployFailed ("failed to create deployment job: " ++ e))
                  | None => ([CreateJob q], DeployJob (created_job q))
                  end
              end
          end
      end
  end.

(** * The observer *)

Definition ObservedByLabel : string := "kdex.dev/observed-by".
Definition HostObserverName (host : string) : string := host ++ "-observer".

Definition observerEnv (d : Deployer) (ob : ObserverSpec) : list EnvVar :=
  ([env_var "FUNCTION_HOST" (ih_Name (de_Host d)); env_var "FUNCTION_NAMESPACE" (ih_Namespace (de_Host d))] ++
   optional "MAX_BUILD_RETRIES" FormatInt (ob_MaxBuildRetries ob) ++
   optional "RETRY_COOLDOWN" DurationString (ob_RetryCooldown ob) ++ ob_Env ob)%list.

Definition observerCronJobSpec (d : Deployer) (ob : ObserverSpec) : cron_spec :=
  mkCronSpec (mkContainer "observer" (ob_Image ob) (ob_Command ob) (ob_Args ob) (observerEnv d ob))
    (de_ImagePullSecrets d) (ob_NodeSelector ob) (ob_Tolerations ob) (de_ServiceAccount d) (ob_Schedule ob).

Definition labelsMatch (have desired : gmap string string) : bool :=
  forallb (fun kv => String.eqb (value_at have kv.1) kv.2) (map_to_list desired).

(** The writes of a step, and the error that ends the observation. *)
Definition step_result : Type := list effect * option string.

Definition markObserved (d : Deployer) (w : workloads) (f : function API) : step_result :=
  let host := ih_Name (de_Host d) in
  if String.eqb (value_at (fo_Labels f) ObservedByLabel) host then ([], None)
  else ([LabelFunction host], e ← wl_label w; Some ("failed to label function for observation: " ++ e)).

Definition observer_labels (d : Deployer) : gmap string string :=
  <[LABEL_APP := APP_OBSERVER]> {["host" := ih_Name (de_Host d)]}.

Definition reconcileHostObserver (d : Deployer) (w : workloads) (ob : ObserverSpec) : step_result :=
  let name := HostObserverName (ih_Name (de_Host d)) in
  let desired := observerCronJobSpec d ob in
  match wl_cron w name with
  | Found c =>
      if bool_decide (cj_Spec c = desired) && labelsMatch (cj_Labels c) (observer_labels d) then ([], None)
      else ([UpdateCron (mkCronJob (cj_Name c) (observer_labels d ∪ cj_Labels c) desired)],
            e ← wl_update_cron w; Some ("failed to update observation cronjob: " ++ e))
  | Unavailable e => ([], Some e)
  | NotFound _ =>
      ([CreateCron (mkCronJob name (observer_labels d) desired)],
       match wl_create_cron w with
       | Created | AlreadyExists => None
       | CreationFailed e => Some ("failed to create observation cronjob: " ++ e)
       end)
  end.

Definition retireLegacyObserver (d : Deployer) (w : workloads) (f : function API) : step_result :=
  let legacy := fo_Name f ++ "-observer" in
  if String.eqb legacy (HostObserverName (ih_Name (de_Host d))) then ([], None)
  else ([DeleteCron legacy],
        match wl_delete_cron w with Unavailable e => Some ("failed to retire legacy observer cronjob: " ++ e) | _ => None end).

(** One step after the other, until one fails. *)
Definition and_then (a b : step_result) : step_result :=
  match a with (es, Some e) => (es, Some e) | (es, None) => ((es ++ b.1)%list, b.2) end.

Definition Observe (d : Deployer) (w : workloads) (f : function API) : step_result :=
  match fa_Observer (de_FaaSAdaptor d) with
  | None => ([], None)
  | Some ob => and_then (markObserved d w f) (and_then (reconcileHostObserver d w ob) (retireLegacyObserver d w f))
  end.
End Deploying.

(** * Generating the source *)

Definition WORKDIR : string := "/shared".

(** github.com/oasdiff/yaml of a function: its spec with the fields of the
    status folded into the origin. *)
Class FunctionYAML (API : Type) := { MarshalYAML : function API -> result string string }.

Definition if_unset {A} (a b : option A) : option A := match a with None => b | _ => a end.

(** The origin the generator is shown: what the status knows fills what the
    spec leaves out, and an origin appears only for something to put in it. *)
Definition folded_origin (o : option Origin) (st : fn_status) : option Origin :=
  match o, st_Generator st, st_Source st, st_Executable st with
  | None, None, None, None => None
  | _, _, _, _ =>
      let o := default (mkOrigin None None None) o in
      Some (mkOrigin (if_unset (og_Executable o) (st_Executable st)) (if_unset (og_Source o) (st_Source st))
              (if_unset (og_Generator o) (st_Generator st)))
  end.

Definition with_origin {API} (s : function_spec API) (o : option Origin) : function_spec API :=
  mkFunctionSpec (fs_Host s) (fs_API s) (fs_BasePath s) (fs_Backend s) o (fs_ServiceAccountName s) (fs_Tolerations s)
    (fs_NodeSelector s) (fs_Volumes s) (fs_VolumeMounts s) (fs_Internal s) (fs_Env s) (fs_Scaling s).

Section Generating.
Context {API : Type} `{!FunctionYAML API}.

Definition marshall (f : function API) (st : fn_status) : result string string :=
  match MarshalYAML (mkFunctionObject (fo_Namespace f) (fo_Name f) 0 (fo_Labels f)
                       (with_origin (fo_Spec f) (folded_origin (fs_Origin (fo_Spec f)) st))) with
  | Err e => Err ("failed to marshal function spec: " ++ e)
  | r => r
  end.

(** [generate.Generator]; [ge_OneOff] renders the function's own OpenAPI
    document for a server (BuildOneOff, then MarshalIndent). *)
Record generator := mkGeneratorRun {
  ge_Config : Generator; ge_GitSecret : string; ge_ImagePullSecrets : list string;
  ge_OneOff : string -> result string string; ge_ServerUrl : string }.

Definition secret_var (secret name key : string) : EnvVar := mkEnvVar name "" (Some (SecretKeyRef secret key)).

Definition source_path (f : function API) : list EnvVar :=
  match og_Source (GetOrigin f) with
  | Some s => if String.eqb (src_Path s) "" then [] else [env_var "SOURCE_PATH" (src_Path s)]
  | None => []
  end.

Definition codegen_env (g : generator) (f : function API) (functionSpec apiSpec : string) : list EnvVar :=
  let git := gn_Git (ge_Config g) in
  let secret := secret_var (ge_GitSecret g) in
  ([env_var "FUNCTION_HOST" (fs_Host (fo_Spec f));
    env_var "FUNCTION_GENERATION" (FormatInt (fo_Generation f));
    env_var "FUNCTION_NAME" (fo_Name f);
    env_var "FUNCTION_ENTRYPOINT" (gn_Entrypoint (ge_Config g));
    env_var "FUNCTION_NAMESPACE" (fo_Namespace f);
    env_var "FUNCTION_BASEPATH" (fs_BasePath (fo_Spec f));
    env_var "FUNCTION_SPEC" functionSpec;
    env_var "FUNCTION_API_SPEC" apiSpec;
    env_var "COMMITTER_EMAIL" (gc_CommitterEmail git);
    env_var "COMMITTER_NAME" (gc_CommitterName git);
    env_var "COMMIT_SUB_DIRECTORY" (gc_FunctionSubDirectory git);
    secret "GIT_HOST" "host"; secret "GIT_ORG" "org"; secret "GIT_PASSWORD" "password";
    secret "GIT_REPO" "repo"; secret "GIT_USERNAME" "username";
    env_var "WORKDIR" WORKDIR] ++ source_path f)%list.

Definition codegen_name (f : function API) : string := fo_Name f ++ "-codegen-" ++ FormatInt (fo_Generation f).

Definition codegen_job (g : generator) (f : function API) (env : list EnvVar) : job_request :=
  let c := ge_Config g in
  let git name command := mkContainer name (gc_Image (gn_Git c)) [command] [] env in
  mkJobRequest (fo_Namespace f) (codegen_name f) (function_labels APP_CODEGEN f) (generation_annotation f) 1800 3 false
    [git "git-checkout" "git_checkout";
     mkContainer "generate-code" (gn_Image c) (gn_Command c) (gn_Args c) env;
     git "git-push" "git_push"]
    [git "results" "patch_source_status"]
    (ge_ImagePullSecrets g) ∅ [] "" "Never".

Definition GetOrCreateGenerateJob (g : generator) (w : workloads) (f : function API) (st : fn_status)
    : list effect * result string job :=
  match wl_job w (codegen_name f) with
  | Found j => ([], Ok j)
  | Unavailable e => ([], Err e)
  | NotFound _ =>
      match ge_OneOff g (ge_ServerUrl g) with
      | Err e => ([], Err e)
      | Ok apiSpec =>
          match marshall f st with
          | Err e => ([], Err ("failed to marshal function spec for codegen Job: " ++ e))
          | Ok functionSpec =>
              let q := codegen_job g f (codegen_env g f functionSpec apiSpec) in
              match wl_create_job w q with
              | Some e => ([CreateJob q], Err ("failed to create code generation job: " ++ e))
              | None => ([CreateJob q], Ok (created_job q))
              end
          end
      end
  end.
End Generating.
