(* ===== verification/DeploySpec.v ===== *)
(** What merging a builder with the adaptor's keeps of each, what a kpack
    Image is made to say whatever it said before, and when its build counts as
    done or failed. Then what a deployer Job is told of its function, what an
    observation writes and that it writes nothing the second time. *)
From S2P Require Import Prelude GoStr Deps Cluster Deploy.
From Stdlib Require Import Ascii.

#[local] Open Scope string_scope.

(** * Merging *)

Fixpoint find_env (n : string) (l : list EnvVar) : option EnvVar :=
  match l with [] => None | e :: l => if String.eqb (ev_Name e) n then Some e else find_env n l end.

Fixpoint last_env (n : string) (l : list EnvVar) : option EnvVar :=
  match l with
  | [] => None
  | e :: l => match last_env n l with Some x => Some x | None => if String.eqb (ev_Name e) n then Some e else None end
  end.

Lemma find_put_env n l e : find_env n (put_env l e) = if String.eqb (ev_Name e) n then Some e else find_env n l.
Proof.
  induction l as [|x l IH]; cbn; [done|].
  destruct (String.eqb_spec (ev_Name x) (ev_Name e)) as [Heq|Hne]; cbn.
  - rewrite Heq. by destruct (String.eqb (ev_Name e) n).
  - destruct (String.eqb_spec (ev_Name x) n) as [<-|]; [|exact IH].
    destruct (String.eqb_spec (ev_Name e) (ev_Name x)); congruence.
Qed.

Lemma find_merged_env n inline : forall base,
  find_env n (foldl put_env base inline) = match last_env n inline with Some e => Some e | None => find_env n base end.
Proof.
  induction inline as [|e l IH]; intros base; cbn; [done|].
  rewrite IH, find_put_env. destruct (last_env n l); [done|]. by destruct (String.eqb (ev_Name e) n).
Qed.

Lemma put_env_names l e : map ev_Name (put_env l e) =
  if bool_decide (ev_Name e ∈ map ev_Name l) then map ev_Name l else (map ev_Name l ++ [ev_Name e])%list.
Proof.
  induction l as [|x l IH]; cbn; [done|].
  destruct (String.eqb_spec (ev_Name x) (ev_Name e)) as [Heq|Hne]; cbn.
  - rewrite bool_decide_eq_true_2; [by rewrite Heq|]. rewrite Heq. by left.
  - rewrite IH. rewrite (bool_decide_ext (ev_Name e ∈ ev_Name x :: map ev_Name l) (ev_Name e ∈ map ev_Name l)).
    + by case_bool_decide.
    + rewrite elem_of_cons. split; [by intros [?|?]|by right].
Qed.

Lemma same_toleration_eq a b : same_toleration a b = true -> a = b.
Proof.
  unfold same_toleration. destruct a as [ka oa va ea [sa|]], b as [kb ob vb eb [sb|]]; cbn; intros Hs;
    rewrite ?andb_false_r in Hs; try done.
  rewrite andb_true_r in Hs. apply andb_prop in Hs as [Hs Hs4]. apply andb_prop in Hs as [Hs Hs3].
  apply andb_prop in Hs as [Hs1 Hs2]. apply String.eqb_eq in Hs1, Hs2, Hs3, Hs4. congruence.
Qed.

Lemma add_toleration_elem l t x : x ∈ add_toleration l t <-> x ∈ l \/ x = t.
Proof.
  unfold add_toleration. destruct (existsb _ l) eqn:He.
  - apply existsb_exists in He as (e & Hin & He%same_toleration_eq). subst e. apply list_elem_of_In in Hin.
    split; [by left|]. by intros [?| ->].
  - rewrite elem_of_app, list_elem_of_singleton. done.
Qed.

Lemma merged_tolerations_elem inline : forall base x,
  x ∈ foldl add_toleration base inline <-> x ∈ base \/ x ∈ inline.
Proof.
  induction inline as [|t l IH]; intros base x; cbn; [split; [by left|intros [?|Hn]; [done|inversion Hn]]|].
  rewrite IH, add_toleration_elem, elem_of_cons. tauto.
Qed.

(** What a merged resource list says of a quantity. *)
Lemma mergeResourceList_lookup base inline k :
  mergeResourceList base inline !! k = match inline !! k with Some q => Some q | None => base !! k end.
Proof. unfold mergeResourceList. rewrite lookup_union. by destruct (inline !! k), (base !! k). Qed.

Definition requests_of (b : Builder) (k : string) : option string := r ← bd_Resources b; rs_Requests r !! k.
Definition limits_of (b : Builder) (k : string) : option string := r ← bd_Resources b; rs_Limits r !! k.

Definition first_of {A} (a b : option A) : option A := match a with Some x => Some x | None => b end.

Lemma merged_requests base inline k : requests_of (merged base inline) k = first_of (requests_of inline k) (requests_of base k).
Proof.
  unfold requests_of. cbn. destruct (bd_Resources inline) as [i|]; cbn; [|done].
  rewrite mergeResourceList_lookup. by destruct (bd_Resources base).
Qed.

Lemma merged_limits base inline k : limits_of (merged base inline) k = first_of (limits_of inline k) (limits_of base k).
Proof.
  unfold limits_of. cbn. destruct (bd_Resources inline) as [i|]; cbn; [|done].
  rewrite mergeResourceList_lookup. by destruct (bd_Resources base).
Qed.

(** The builder a function's image is built with is its own, and whatever it
    leaves unset is the adaptor's entry of its name: quantity by quantity,
    variable by variable, node label by node label; the tolerations of both
    hold. Without one of that name, or without a name, it is its own alone. *)
Lemma builder_layers dflt builders inline :
  exists b, builderForBuild dflt builders (Some inline) = Ok (Some b) /\
  match resolveBuilderByName builders (bd_Name inline) with
  | None => b = inline
  | Some base =>
      base ∈ builders /\ bd_Name base = bd_Name inline /\ bd_Name b = bd_Name inline /\
      (bd_BuilderRef inline <> no_ref -> bd_BuilderRef b = bd_BuilderRef inline) /\
      bd_ServiceAccountName b = or_else (bd_ServiceAccountName inline) (bd_ServiceAccountName base) /\
      bd_Cache b = first_of (bd_Cache inline) (bd_Cache base) /\
      (forall k, bd_NodeSelector b !! k = first_of (bd_NodeSelector inline !! k) (bd_NodeSelector base !! k)) /\
      (forall k, requests_of b k = first_of (requests_of inline k) (requests_of base k)) /\
      (forall k, limits_of b k = first_of (limits_of inline k) (limits_of base k)) /\
      (forall n, find_env n (bd_Env b) = first_of (last_env n (bd_Env inline)) (find_env n (bd_Env base))) /\
      (forall t, t ∈ bd_Tolerations b <-> t ∈ bd_Tolerations base \/ t ∈ bd_Tolerations inline)
  end.
Proof.
  unfold builderForBuild, mergeBuilder. destruct (resolveBuilderByName builders (bd_Name inline)) as [base|] eqn:Hr; [|eauto].
  exists (merged base inline). split; [done|]. unfold resolveBuilderByName in Hr.
  destruct (String.eqb_spec (bd_Name inline) "") as [|Hn]; [done|].
  apply List.find_some in Hr as [Hin Hname%String.eqb_eq].
  repeat split; intros; cbn.
  - by apply list_elem_of_In.
  - done.
  - unfold or_else. by destruct (String.eqb_spec (bd_Name inline) "").
  - by rewrite decide_False.
  - apply mergeResourceList_lookup.
  - apply merged_requests.
  - apply merged_limits.
  - apply find_merged_env.
  - by apply merged_tolerations_elem.
  - by apply merged_tolerations_elem.
Qed.

(** * Trees *)

Lemma field_set_field l k k' t : field (set_field l k t) k' = if String.eqb k k' then Some t else field l k'.
Proof.
  induction l as [|[k1 t1] l IH]; cbn; [done|].
  destruct (String.eqb_spec k1 k) as [->|Hne]; cbn; [by destruct (String.eqb k k')|].
  rewrite IH. destruct (String.eqb_spec k1 k') as [->|]; [|done].
  destruct (String.eqb_spec k k'); congruence.
Qed.

(** Paths that part at some key: neither is a prefix of the other. *)
Fixpoint parted (p q : list string) : bool :=
  match p, q with
  | k :: p, k' :: q => if String.eqb k k' then parted p q else true
  | _, _ => false
  end.

Lemma SetNested_here p : forall t v u, SetNested t p v = Some u -> NestedField u p = Some v.
Proof.
  induction p as [|k p IH]; intros t v u; [by intros [= ->]|].
  cbn. destruct t; try done. destruct (SetNested _ p v) as [w|] eqn:Hw; [|done]. intros [= <-].
  rewrite field_set_field, String.eqb_refl. by eapply IH.
Qed.

Lemma SetNested_elsewhere p : forall q t v u, parted p q = true -> SetNested t p v = Some u -> NestedField u q = NestedField t q.
Proof.
  induction p as [|k p IH]; intros [|k' q] t v u Hp; try done.
  cbn in Hp |- *. destruct t; try done. destruct (SetNested _ p v) as [w|] eqn:Hw; [|done]. intros [= <-].
  rewrite field_set_field. destruct (String.eqb_spec k k') as [<-|]; [|done].
  cbn. rewrite (IH _ _ _ _ Hp Hw). destruct (field fields k) as [t|]; [done|]. by destruct p, q.
Qed.

(** A path that starts at a key is set in what the key holds. *)
Lemma SetNested_under k p t v u : SetNested t (k :: p) v = Some u ->
  exists w, NestedField u [k] = Some w /\ SetNested (default (TMap []) (NestedField t [k])) p v = Some w.
Proof.
  cbn. destruct t; try done. destruct (SetNested _ p v) as [w|] eqn:Hw; [|done]. intros [= <-].
  exists w. cbn. rewrite field_set_field, String.eqb_refl. cbn. split; [done|].
  by destruct (field fields k).
Qed.

(** * The image *)

Section Image.
Context `{Unstructured}.

Lemma nested_keeps o p v o' q : nested o p v = Ok o' -> parted p q = true -> NestedField o' q = NestedField o q.
Proof. unfold nested. destruct (SetNested o p v) eqn:Hs; [|done]. intros [= <-] ?. by eapply SetNested_elsewhere. Qed.

Lemma nested_here o p v o' : nested o p v = Ok o' -> NestedField o' p = Some v.
Proof. unfold nested. destruct (SetNested o p v) eqn:Hs; [|done]. intros [= <-]. by eapply SetNested_here. Qed.

(** Two images that agree on their spec agree after the same write to it. *)
Definition same_spec (o1 o2 : tree) : Prop := NestedField o1 ["spec"] = NestedField o2 ["spec"].

Lemma nested_same_spec p v o1 o2 o1' o2' : same_spec o1 o2 ->
  nested o1 ("spec" :: p) v = Ok o1' -> nested o2 ("spec" :: p) v = Ok o2' -> same_spec o1' o2'.
Proof.
  unfold nested. intros Hs.
  destruct (SetNested o1 _ v) eqn:H1; [|done]. intros [= <-].
  destruct (SetNested o2 _ v) eqn:H2; [|done]. intros [= <-].
  apply SetNested_under in H1 as (w1 & Hw1 & H1), H2 as (w2 & Hw2 & H2).
  unfold same_spec in *. rewrite Hs in H1. rewrite Hw1, Hw2. congruence.
Qed.

(** A step of the build's part of the spec. *)
Definition build_step (f : tree -> result string tree) : Prop :=
  (forall o o' q, f o = Ok o' -> parted ["spec"; "build"] q = true -> NestedField o' q = NestedField o q) /\
  (forall o1 o2 o1' o2', same_spec o1 o2 -> f o1 = Ok o1' -> f o2 = Ok o2' -> same_spec o1' o2').

Lemma parted_longer p q r : parted p q = true -> parted (p ++ r) q = true.
Proof.
  revert q. induction p as [|k p IH]; intros [|k' q]; try done. cbn.
  destruct (String.eqb k k'); [apply IH|done].
Qed.

Lemma nested_build_step k v : build_step (fun o => nested o ["spec"; "build"; k] v).
Proof.
  split; intros *.
  - intros Hn Hp. eapply nested_keeps; [exact Hn|]. by apply (parted_longer ["spec"; "build"] q [k]).
  - by apply nested_same_spec.
Qed.

Lemma id_build_step : build_step (fun o => Ok o).
Proof. split; [by intros * [= ->]|]. by intros * ? [= <-] [= <-]. Qed.

Lemma err_build_step e : build_step (fun o => Err e).
Proof. by split. Qed.

Lemma put_tolerations_step builder : build_step (put_tolerations builder).
Proof.
  unfold put_tolerations. destruct (bd_Tolerations builder) as [|t l]; [apply id_build_step|].
  destruct (convert_tolerations 0 (t :: l)) as [tols|e]; [apply nested_build_step|apply (err_build_step e)].
Qed.

Lemma put_node_selector_step builder : build_step (put_node_selector builder).
Proof. unfold put_node_selector. case_decide; [apply id_build_step|apply nested_build_step]. Qed.

Lemma put_resources_step builder : build_step (put_resources builder).
Proof.
  unfold put_resources. destruct (bd_Resources builder) as [res|]; [|apply id_build_step].
  destruct (resources_tree res); [apply nested_build_step|apply err_build_step].
Qed.

Definition image_labels (host function : string) : tree :=
  TMap [(LABEL_APP, TStr APP_BUILDER); (LABEL_FUNCTION, TStr function); ("kdex.dev/host", TStr host)].

Lemma mutate_image_inv b host fn gen o img : mutate_image b host fn gen o = Ok img ->
  exists o1 o2 o3 o4 o5 o6 o7,
    nested o ["spec"] (image_spec b fn gen) = Ok o1 /\
    nested o1 ["spec"; "build"; "env"] (convert (bd_Env (bl_Builder b))) = Ok o2 /\
    nested o2 ["spec"; "cache"] (TMap [("volume", TMap [("size", TStr (default "10Gi" (bd_Cache (bl_Builder b))))])]) = Ok o3 /\
    put_tolerations (bl_Builder b) o3 = Ok o4 /\ put_node_selector (bl_Builder b) o4 = Ok o5 /\
    put_resources (bl_Builder b) o5 = Ok o6 /\
    nested o6 ["metadata"; "labels"] (image_labels host fn) = Ok o7 /\ SetControllerReference o7 = Ok img.
Proof.
  unfold mutate_image, mbind, result_bind. intros Hm.
  repeat (match type of Hm with context [match ?x with Ok _ => _ | Err _ => _ end] => destruct x eqn:? end; [|done]).
  by do 7 eexists; repeat split.
Qed.

Lemma mutate_image_keeps b host fn gen o img q : mutate_image b host fn gen o = Ok img ->
  parted ["spec"] q = true -> parted ["metadata"] q = true -> NestedField img q = NestedField o q.
Proof.
  intros (o1 & o2 & o3 & o4 & o5 & o6 & o7 & H1 & H2 & H3 & H4 & H5 & H6 & H7 & H8)%mutate_image_inv Hs Hm.
  rewrite (SetControllerReference_keeps _ _ q H8); [|destruct q; [done|cbn; intros ->; done]|by intros ->].
  pose proof (fun r => parted_longer ["spec"] q r Hs) as Hl.
  rewrite (nested_keeps _ _ _ _ _ H7 (parted_longer ["metadata"] q ["labels"] Hm)).
  rewrite (proj1 (put_resources_step _) _ _ _ H6 (Hl ["build"])), (proj1 (put_node_selector_step _) _ _ _ H5 (Hl ["build"])),
    (proj1 (put_tolerations_step _) _ _ _ H4 (Hl ["build"])).
  by rewrite (nested_keeps _ _ _ _ _ H3 (Hl ["cache"])), (nested_keeps _ _ _ _ _ H2 (Hl ["build"; "env"])), (nested_keeps _ _ _ _ _ H1 Hs).
Qed.

(** A field of the spec the build's part does not reach. *)
Lemma mutate_image_spec b host fn gen o img q : mutate_image b host fn gen o = Ok img ->
  parted ["build"] q = true -> parted ["cache"] q = true ->
  NestedField img ("spec" :: q) = NestedField (image_spec b fn gen) q.
Proof.
  intros (o1 & o2 & o3 & o4 & o5 & o6 & o7 & H1 & H2 & H3 & H4 & H5 & H6 & H7 & H8)%mutate_image_inv Hb Hc.
  rewrite (SetControllerReference_keeps _ _ ("spec" :: q) H8) by done.
  pose proof (Hb : parted ["spec"; "build"] ("spec" :: q) = true) as Hq.
  rewrite (nested_keeps _ _ _ _ ("spec" :: q) H7 eq_refl), (proj1 (put_resources_step _) _ _ _ H6 Hq),
    (proj1 (put_node_selector_step _) _ _ _ H5 Hq), (proj1 (put_tolerations_step _) _ _ _ H4 Hq).
  rewrite (nested_keeps _ _ _ _ ("spec" :: q) H3 Hc), (nested_keeps _ _ _ _ _ H2 (parted_longer ["spec"; "build"] _ ["env"] Hq)).
  apply nested_here in H1. cbn in H1 |- *. destruct o1; try done. cbn in H1 |- *.
  destruct (field fields "spec"); [|done]. by injection H1 as ->.
Qed.

Lemma mutate_image_same_spec b host fn gen o1 o2 i1 i2 :
  mutate_image b host fn gen o1 = Ok i1 -> mutate_image b host fn gen o2 = Ok i2 -> same_spec i1 i2.
Proof.
  intros (a1 & a2 & a3 & a4 & a5 & a6 & a7 & A1 & A2 & A3 & A4 & A5 & A6 & A7 & A8)%mutate_image_inv
         (b1 & b2 & b3 & b4 & b5 & b6 & b7 & B1 & B2 & B3 & B4 & B5 & B6 & B7 & B8)%mutate_image_inv.
  unfold same_spec.
  rewrite (SetControllerReference_keeps _ _ ["spec"] A8), (SetControllerReference_keeps _ _ ["spec"] B8) by done.
  rewrite (nested_keeps _ _ _ _ ["spec"] A7 eq_refl), (nested_keeps _ _ _ _ ["spec"] B7 eq_refl).
  eapply (proj2 (put_resources_step _)); [|done..]. eapply (proj2 (put_node_selector_step _)); [|done..].
  eapply (proj2 (put_tolerations_step _)); [|done..]. eapply nested_same_spec; [|done..]. eapply nested_same_spec; [|done..].
  unfold same_spec. by rewrite (nested_here _ _ _ _ A1), (nested_here _ _ _ _ B1).
Qed.
End Image.

(** What is asked of kpack is the build that was decided, whatever the image
    said before: its repository, revision and path, its tags, its account and
    the size of its cache are the build's, nothing else of an earlier spec is
    left, and what kpack reported is not touched. *)
Lemma image_is_the_build `{Unstructured} b host ns fn gen there img : desired_image b host ns fn gen there = Ok img ->
  NestedString img ["spec"; "source"; "git"; "url"] = Some (bl_Repository b) /\
  NestedString img ["spec"; "source"; "git"; "revision"] = Some (bl_Revision b) /\
  NestedString img ["spec"; "source"; "subPath"] = Some (bl_Path b) /\
  NestedString img ["spec"; "serviceAccountName"] = Some (bl_ServiceAccount b) /\
  NestedString img ["spec"; "tag"] = Some (imageRef (bl_ImageRegistry b) (bl_ImagePrefix b) fn "latest") /\
  (forall there' img', desired_image b host ns fn gen there' = Ok img' -> NestedField img' ["spec"] = NestedField img ["spec"]) /\
  NestedField img ["status"] = match there with Some o => NestedField o ["status"] | None => None end.
Proof.
  unfold desired_image. intros Hd. unfold NestedString.
  rewrite (mutate_image_spec _ _ _ _ _ _ ["source"; "git"; "url"] Hd), (mutate_image_spec _ _ _ _ _ _ ["source"; "git"; "revision"] Hd),
    (mutate_image_spec _ _ _ _ _ _ ["source"; "subPath"] Hd), (mutate_image_spec _ _ _ _ _ _ ["serviceAccountName"] Hd),
    (mutate_image_spec _ _ _ _ _ _ ["tag"] Hd) by done.
  repeat split.
  - intros there' img' Hd'. by apply (mutate_image_same_spec _ _ _ _ _ _ _ _ Hd' Hd).
  - rewrite (mutate_image_keeps _ _ _ _ _ _ ["status"] Hd) by done. by destruct there.
Qed.

(** * What kpack reports *)

Definition image_conditions (image : tree) : list tree :=
  match NestedField image ["status"; "conditions"] with Some (TArr l) => l | _ => [] end.

(** A failure is reported whatever generation it is of; success only when no
    failure is reported, and only of the generation asked for or a later one. *)
Theorem kpack_verdict gen image :
  match inspectKPackImageStatus gen image with
  | (success, Some msg) => success = false /\ msg <> "" /\ exists c, c ∈ image_conditions image /\ condition_is "Failed" c = true /\ msg = failure_message c
  | (success, None) =>
      (forall c, c ∈ image_conditions image -> condition_is "Failed" c = false) /\
      (success = true <-> exists c observed, c ∈ image_conditions image /\ condition_is "Ready" c = true /\
         NestedInt64 image ["status"; "observedGeneration"] = Some observed /\ gen <= observed)
  end%Z.
Proof.
  unfold inspectKPackImageStatus, image_conditions.
  destruct image as [| | | | |fs]; try (split; [intros c Hc; inversion Hc|split; [done|intros (c & ? & Hc & _); inversion Hc]]).
  cbn [NestedField mbind option_bind]. unfold option_bind.
  destruct (field fs "status") as [[| | | | |st]|] eqn:Hst; cbn [NestedField];
    try (split; [intros c Hc; inversion Hc|split; [done|intros (c & ? & Hc & _); inversion Hc]]).
  unfold NestedInt64. cbn. rewrite Hst. cbn.
  destruct (field st "conditions") as [[| | | |l|]|]; cbn;
    try (split; [intros c Hc; inversion Hc|split; [done|intros (c & ? & Hc & _); inversion Hc]]).
  destruct (List.find (condition_is "Failed") l) as [c|] eqn:Hf.
  - apply List.find_some in Hf as [Hin Hc]. split; [done|]. split.
    + unfold failure_message. by destruct (NestedString c ["message"]) as [[]|].
    + exists c. split; [by apply list_elem_of_In|]. done.
  - assert (forall c, c ∈ l -> condition_is "Failed" c = false) as Hno.
    { intros c Hc%list_elem_of_In. by eapply List.find_none. }
    destruct (field st "observedGeneration") as [[| |z| | |]|]; cbn;
      try (split; [exact Hno|split; [done|by intros (? & ? & _ & _ & ? & _)]]).
    destruct (Z.ltb_spec z gen); (split; [exact Hno|]).
    + split; [done|]. intros (? & ? & _ & _ & [= <-] & ?). lia.
    + rewrite existsb_exists. split.
      * intros (c & Hin & Hc). exists c, z. split; [by apply list_elem_of_In|]. done.
      * intros (c & ? & Hin & Hc & _). exists c. split; [by apply list_elem_of_In|done].
Qed.

(** * The default *)

(** The builder a generated function falls back to is the catalog's, of the
    name and for the language the adaptor says. *)
Lemma default_builder dflt builders b : resolveDefaultBuilder dflt builders = Ok b ->
  b ∈ builders /\ exists language, dflt = bd_Name b ++ String "/" language /\ language ∈ bd_Languages b.
Proof.
  unfold resolveDefaultBuilder, parseBuilderGenerator.
  destruct (Cut "/" dflt) as [[name language]|] eqn:Hc; [|done].
  destruct (List.find _ builders) as [b'|] eqn:Hf; [|done]. intros [= ->].
  apply List.find_some in Hf as [Hin [Hn%String.eqb_eq Hl]%andb_prop].
  split; [by apply list_elem_of_In|]. exists language. split; [|by apply contains_elem_spec].
  rewrite Hn. clear -Hc. revert name Hc. induction dflt as [|c s IH]; intros name Hc; [done|].
  cbn in Hc. destruct (Ascii.eqb_spec c "/"); [by injection Hc as <- <-; subst|].
  destruct (Cut "/" s) as [[a d]|]; [|done]. injection Hc as <- <-. cbn. f_equal. by apply IH.
Qed.

(** * Concrete values *)

Program Definition unstructuredExample : Unstructured := {|
  toleration_tree t := Ok (TMap [("key", TStr (tl_Key t)); ("effect", TStr (tl_Effect t))]);
  resources_tree r := Ok (TMap []);
  SetControllerReference o := nested o ["metadata"; "owner"] (TStr "function");
|}.
Next Obligation.
  intros o o' path Hs Hh Hp. cbn beta in Hs. destruct path as [|k q]; [done|]. cbn in Hh.
  eapply nested_keeps; [exact Hs|]. cbn [parted].
  destruct (String.eqb_spec "metadata" k); [congruence|done].
Qed.

Definition small_builder : Builder :=
  mkBuilder "tiny" (mkRef "ClusterBuilder" "tiny" "") ["go"] "" None [mkToleration "spot" "Exists" "" "" None] ∅ [] None.
Definition small_build : build := mkBuild "registry" "shop/" "builder" "https://git/shop" "4f2a" "fn" small_builder.

Lemma image_is_the_build_witness :
  exists img, @desired_image unstructuredExample small_build "shop" "web" "cart" 3 None = Ok img /\
  NestedString img ["spec"; "source"; "git"; "revision"] = Some "4f2a".
Proof.
  eexists. split; [vm_compute; reflexivity|].
  apply (@image_is_the_build unstructuredExample small_build "shop" "web" "cart" 3 None). vm_compute. reflexivity.
Defined.

(** A toleration with seconds set is never found equal to another: merging one
    the adaptor has already lists it twice. *)
Example toleration_listed_twice :
  let t := mkToleration "spot" "Exists" "" "NoExecute" (Some 60%Z) in
  foldl add_toleration [t] [t] = [t; t].
Proof. reflexivity. Qed.

Section DeployFacts.
Context {API : Type} `{!Sha256} `{!KubernetesJSON}.
Implicit Types (f : function API) (d : Deployer) (w : workloads).

(** * The variables of a deployer Job *)

Definition plain (names : list string) (l : list EnvVar) : Prop :=
  Forall (fun e => ev_From e = None /\ ev_Name e ∈ names) l.

Lemma env_plain_app n1 n2 l1 l2 : plain n1 l1 -> plain n2 l2 -> plain (n1 ++ n2) (l1 ++ l2).
Proof.
  intros H1 H2. apply Forall_app. split; [eapply Forall_impl; [exact H1|]|eapply Forall_impl; [exact H2|]];
    intros e [? ?]; (split; [done|]); apply elem_of_app; tauto.
Qed.

Lemma plain_cons n ns l1 l2 : plain [n] l1 -> plain ns l2 -> plain (n :: ns) (l1 ++ l2).
Proof. apply (env_plain_app [n]). Qed.

Lemma env_plain_one n e : ev_Name e = n -> ev_From e = None -> plain [n] [e].
Proof. intros <- ?. constructor; [|done]. split; [done|]. by apply list_elem_of_singleton. Qed.

Lemma plain_weaken n1 n2 l : n1 ⊆ n2 -> plain n1 l -> plain n2 l.
Proof. intros Hs Hp. eapply Forall_impl; [exact Hp|]. intros e [? ?]. split; [done|]. by apply Hs. Qed.

Lemma plain_nil n : plain n [].
Proof. constructor. Qed.

Lemma marshalled_plain n what r l : marshalled n what r = Ok l -> plain [n] l.
Proof. unfold marshalled. destruct r; [intros [= <-]; by apply env_plain_one|done]. Qed.

Lemma optional_plain {A} n (render : A -> string) o : plain [n] (optional n render o).
Proof. destruct o; [by apply env_plain_one|constructor]. Qed.

Definition forwarded_names : list string :=
  ["AUDIENCE"; "FUNCTION_BASEPATH"; "FUNCTION_GENERATION"; "FUNCTION_HOST"; "FUNCTION_IMAGE"; "FUNCTION_NAME"; "FUNCTION_NAMESPACE";
   "ISSUER"; "JWKS_URL"; "PASETO_TOKEN_PREFIX"; "PKS_URL"; "FUNCTION_SERVICE_ACCOUNT_NAME"; "FUNCTION_TOLERATIONS"; "FUNCTION_NODE_SELECTOR"].

Lemma forwarded_shape d f image domain env : forwarded_env d f image domain = Ok env ->
  exists tols sel, env = (common_env d f image domain ++
      (if String.eqb (fs_ServiceAccountName (fo_Spec f)) "" then [] else
         [env_var "FUNCTION_SERVICE_ACCOUNT_NAME" (fs_ServiceAccountName (fo_Spec f))]) ++ tols ++ sel)%list /\
    (tols = [] \/ exists v, tols = [env_var "FUNCTION_TOLERATIONS" v]) /\
    (sel = [] \/ exists v, sel = [env_var "FUNCTION_NODE_SELECTOR" v]).
Proof.
  unfold forwarded_env, mbind, result_bind. intros Hf.
  assert (forall n what r l, marshalled n what r = Ok l -> l = [] \/ exists v, l = [env_var n v]) as Hm.
  { unfold marshalled. intros ? ? [v|] l; [intros [= <-]; right; by exists v|done]. }
  destruct (resolveTolerations f _) as [|t l] eqn:Ht.
  - destruct (decide (resolveNodeSelector f _ = ∅)).
    + injection Hf as <-. exists [], []. split; [done|]. by split; left.
    + destruct (marshalled "FUNCTION_NODE_SELECTOR" _ _) as [sel|] eqn:Hs; [|done]. injection Hf as <-.
      exists [], sel. split; [done|]. split; [by left|by eapply Hm].
  - destruct (marshalled "FUNCTION_TOLERATIONS" _ _) as [tols|] eqn:Hs; [|done].
    destruct (decide (resolveNodeSelector f _ = ∅)).
    + injection Hf as <-. exists tols, []. split; [done|]. split; [by eapply Hm|by left].
    + destruct (marshalled "FUNCTION_NODE_SELECTOR" _ _) as [sel|] eqn:Hs2; [|done]. injection Hf as <-.
      exists tols, sel. split; [done|]. split; by eapply Hm.
Qed.

Lemma forwarded_sublist d f image domain env : forwarded_env d f image domain = Ok env ->
  sublist (map ev_Name env) forwarded_names /\ Forall (fun e => ev_From e = None) env /\
  forall e, e ∈ env -> ev_Name e = "FUNCTION_SERVICE_ACCOUNT_NAME" -> ev_Value e = fs_ServiceAccountName (fo_Spec f).
Proof.
  intros (tols & sel & -> & Ht & Hs)%forwarded_shape.
  split_and!.
  - unfold common_env. cbn. repeat apply sublist_skip.
    destruct (String.eqb _ ""), Ht as [->|[v ->]], Hs as [->|[v' ->]]; cbn;
      repeat first [apply sublist_nil_l | apply sublist_skip | apply sublist_cons].
  - unfold common_env. destruct (String.eqb _ ""), Ht as [->|[v ->]], Hs as [->|[v' ->]]; cbn; repeat constructor.
  - intros e. rewrite !elem_of_app. intros [He|[He|[He|He]]] Hn.
    + exfalso. unfold common_env in He. rewrite !elem_of_cons, elem_of_nil in He.
      repeat destruct He as [->|He]; try done.
    + destruct (String.eqb _ ""); [by apply elem_of_nil in He|]. apply list_elem_of_singleton in He. by subst.
    + destruct Ht as [->|[v ->]]; [by apply elem_of_nil in He|]. apply list_elem_of_singleton in He. by subst.
    + destruct Hs as [->|[v ->]]; [by apply elem_of_nil in He|]. apply list_elem_of_singleton in He. by subst.
Qed.

Definition scaling_names : list string :=
  ["SCALING_ACTIVATION_SCALE"; "SCALING_INITIAL_SCALE"; "SCALING_MAX_SCALE"; "SCALING_METRIC"; "SCALING_MIN_SCALE";
   "SCALING_PANIC_THRESHOLD_PERCENTAGE"; "SCALING_PANIC_WINDOW_PERCENTAGE"; "SCALING_SCALE_DOWN_DELAY";
   "SCALING_SCALE_TO_ZERO_POD_RETENTION_PERIOD"; "SCALING_STABLE_WINDOW"; "SCALING_TARGET"; "SCALING_TARGET_UTILIZATION_PERCENTAGE"].

Lemma scaling_plain s : plain scaling_names (scaling_env s).
Proof.
  unfold scaling_env, scaling_names. do 11 (apply plain_cons; [apply optional_plain|]). apply optional_plain.
Qed.

Definition other_names : list string :=
  (["FORWARDED_ENV_VARS"; "FUNCTION_VOLUMES"; "FUNCTION_VOLUME_MOUNTS"; "FUNCTION_INTERNAL"; "FUNCTION_USER_ENV"] ++ scaling_names)%list.

(** A list marshalled into a variable unless it is empty. *)
Lemma marshalled_or_nil_plain {A} n what (marshal : list A -> result string string) r l :
  match r with [] => Ok [] | x :: r => marshalled n what (marshal (x :: r)) end = Ok l -> plain [n] l.
Proof. destruct r; [intros [= <-]; apply plain_nil|apply marshalled_plain]. Qed.

Lemma files_plain f l : functionFileAndExposureEnv f = Ok l -> plain ["FUNCTION_VOLUMES"; "FUNCTION_VOLUME_MOUNTS"; "FUNCTION_INTERNAL"] l.
Proof.
  unfold functionFileAndExposureEnv, mbind, result_bind. intros Hf.
  destruct (match fs_Volumes _ with [] => _ | _ => _ end) as [volumes|] eqn:Hv; [|done].
  destruct (match fs_VolumeMounts _ with [] => _ | _ => _ end) as [mounts|] eqn:Hmt; [|done].
  injection Hf as <-. apply plain_cons; [exact (marshalled_or_nil_plain _ _ MarshalList _ _ Hv)|].
  apply plain_cons; [exact (marshalled_or_nil_plain _ _ MarshalList _ _ Hmt)|].
  destruct (fs_Internal _); [by apply env_plain_one|apply plain_nil].
Qed.

Lemma deployer_env_shape d f image domain env : deployer_env d f image domain = Ok env ->
  exists fwd rest1 rest2, forwarded_env d f image domain = Ok fwd /\
    env = (fwd ++ env_var "FORWARDED_ENV_VARS" (Join (map ev_Name fwd) ",") :: rest1 ++
           dp_Env (fa_Deployer (de_FaaSAdaptor d)) ++ rest2)%list /\
    plain other_names rest1 /\ plain other_names rest2.
Proof.
  unfold deployer_env, mbind, result_bind. intros Hd.
  destruct (forwarded_env d f image domain) as [fwd|]; [|done].
  destruct (functionFileAndExposureEnv f) as [files|] eqn:Hf; [|done]. apply files_plain in Hf.
  destruct (match fs_Env _ with [] => _ | _ => _ end) as [user|] eqn:Hu; [|done]. injection Hd as <-.
  exists fwd, (files ++ user)%list, (match fs_Scaling (fo_Spec f) with Some s => scaling_env s | None => [] end).
  split; [done|]. split; [by rewrite <- !app_assoc|]. split.
  - apply (plain_weaken (["FUNCTION_VOLUMES"; "FUNCTION_VOLUME_MOUNTS"; "FUNCTION_INTERNAL"] ++ ["FUNCTION_USER_ENV"])).
    { intros x Hx. unfold other_names. cbn in Hx. rewrite !elem_of_cons, elem_of_nil in Hx.
      apply elem_of_app. left. rewrite !elem_of_cons. tauto. }
    apply env_plain_app; [done|]. exact (marshalled_or_nil_plain _ _ MarshalEnv _ _ Hu).
  - destruct (fs_Scaling _); [|apply plain_nil]. eapply plain_weaken; [|apply scaling_plain].
    intros x Hx. unfold other_names. apply elem_of_app. by right.
Qed.
End DeployFacts.

Lemma forwarded_names_NoDup : NoDup forwarded_names.
Proof. apply (bool_decide_unpack _). vm_compute. exact I. Qed.

(** A deployer Job is told only what is its own to read: no variable of it
    takes its value from a Secret but those the adaptor sets, those handed on
    to the function are each named once and are the names listed, and the
    account the function is to run as is the one its spec names. *)
Theorem deployer_told {API} `{!Sha256, !KubernetesJSON} d (f : function API) image domain env :
  deployer_env d f image domain = Ok env ->
  (forall e, e ∈ env -> e ∈ dp_Env (fa_Deployer (de_FaaSAdaptor d)) \/
     ev_From e = None /\ (ev_Name e = "FUNCTION_SERVICE_ACCOUNT_NAME" -> ev_Value e = fs_ServiceAccountName (fo_Spec f))) /\
  exists forwarded, NoDup forwarded /\ env_var "FORWARDED_ENV_VARS" (Join forwarded ",") ∈ env /\
    forall n, n ∈ forwarded -> exists e, e ∈ env /\ ev_Name e = n.
Proof.
  intros (fwd & rest1 & rest2 & Hf & -> & H1 & H2)%deployer_env_shape.
  apply forwarded_sublist in Hf as (Hsub & Hplain & Hsa).
  assert (forall e rest, plain other_names rest -> e ∈ rest ->
    ev_From e = None /\ (ev_Name e = "FUNCTION_SERVICE_ACCOUNT_NAME" -> ev_Value e = fs_ServiceAccountName (fo_Spec f))) as Hother.
  { intros e rest Hp He. apply (proj1 (Forall_forall _ _) Hp) in He as [? Hin]. split; [done|].
    intros Hn. rewrite Hn in Hin. by apply (bool_decide_pack (_ ∈ other_names)) in Hin. }
  split.
  - intros e. rewrite elem_of_app, elem_of_cons, !elem_of_app. intros [He|[->|[He|[He|He]]]].
    + right. rewrite Forall_forall in Hplain. split; [by apply Hplain|by apply Hsa].
    + by right.
    + right. by apply (Hother e rest1).
    + by left.
    + right. by apply (Hother e rest2).
  - exists (map ev_Name fwd). split; [by eapply sublist_NoDup; [exact forwarded_names_NoDup|]|]. split.
    + rewrite elem_of_app, elem_of_cons. tauto.
    + intros n (e & -> & He)%list_elem_of_fmap. exists e. rewrite elem_of_app. tauto.
Qed.

(** * Deleting Jobs *)

Lemma delete_each_elem del l n : n ∈ (delete_each del l).1 -> exists j, j ∈ l /\ jb_Name j = n.
Proof.
  induction l as [|j l IH]; cbn; [by intros ?%elem_of_nil|].
  destruct (delete_each del l) as [names err]. cbn in IH.
  assert (n ∈ jb_Name j :: names -> exists j', j' ∈ j :: l /\ jb_Name j' = n) as Hn.
  { intros [->|Hn]%elem_of_cons; [exists j; by split; [left|]|]. destruct (IH Hn) as (j' & ? & ?). exists j'. by split; [right|]. }
  destruct (del (jb_Name j)); [exact Hn..|]. cbn. intros ->%list_elem_of_singleton. exists j. by split; [left|].
Qed.

(** * The deployer Job's name *)

Lemma all_bytes_substring p s : forall n, all_bytes p s = true -> all_bytes p (String.substring 0 n s) = true.
Proof.
  induction s as [|c s IH]; intros [|n] Hs; try done.
  cbn in Hs |- *. apply andb_prop in Hs as [-> Hs]. by apply IH.
Qed.

Lemma hex_no_dash s : all_bytes is_hex s = true -> has_byte "-" s = false.
Proof.
  induction s as [|c s IH]; [done|]. cbn [has_byte all_bytes]. intros [Hc Hs]%andb_prop. rewrite (IH Hs), orb_false_r.
  apply not_true_is_false. by intros <-%Ascii.eqb_eq.
Qed.

Lemma FormatInt_inj a b : FormatInt a = FormatInt b -> a = b.
Proof.
  intros Heq. pose proof (int_of_FormatInt a) as Ha. rewrite Heq, int_of_FormatInt in Ha. injection Ha as Ha.
  apply DecimalZ.to_int_inj. done.
Qed.

(** A generation of a function is deployed by a Job of its own, whatever its
    image: no Job of an earlier one is taken for it. *)
Theorem job_of_its_generation {API} `{!Sha256} (f f' : function API) image image' adaptor adaptor' :
  fo_Name f = fo_Name f' -> JobName f image adaptor = JobName f' image' adaptor' -> fo_Generation f = fo_Generation f'.
Proof.
  unfold JobName. intros <- Heq.
  set (h := String.substring 0 8 _) in Heq. set (h' := String.substring 0 8 (sha256hex (image' ++ adaptor'))) in Heq.
  assert (forall x, has_byte "-" (String.substring 0 8 (sha256hex x)) = false) as Hh.
  { intros x. apply hex_no_dash, all_bytes_substring, sha256hex_is_hex. }
  assert ((fo_Name f ++ "-deployer-" ++ FormatInt (fo_Generation f)) ++ "-" ++ h =
          (fo_Name f ++ "-deployer-" ++ FormatInt (fo_Generation f')) ++ "-" ++ h') as Heq'.
  { rewrite !append_assoc. exact Heq. }
  apply append_sep_inj in Heq' as [Hg _]; [|apply Hh..].
  rewrite <- !append_assoc in Hg.
  assert (forall p a b : string, p ++ a = p ++ b -> a = b) as Hinj.
  { induction p as [|c p IH]; intros a b; [done|]. intros [= ?]. by apply IH. }
  apply Hinj in Hg. by apply FormatInt_inj.
Qed.

(** * Observing twice *)

Lemma labelsMatch_spec have desired :
  labelsMatch have desired = true <-> forall k v, desired !! k = Some v -> value_at have k = v.
Proof.
  unfold labelsMatch. rewrite forallb_forall. split.
  - intros Ha k v Hk. apply String.eqb_eq, (Ha (k, v)). by apply list_elem_of_In, elem_of_map_to_list.
  - intros Ha [k v] Hin%list_elem_of_In%elem_of_map_to_list. cbn. apply String.eqb_eq. by apply Ha.
Qed.

Lemma labelsMatch_union l l' : labelsMatch (l ∪ l') l = true.
Proof.
  apply labelsMatch_spec. intros k v Hk. unfold value_at.
  by rewrite (lookup_union_Some_l _ _ _ _ Hk).
Qed.

Lemma labelsMatch_refl l : labelsMatch l l = true.
Proof. apply labelsMatch_spec. intros k v Hk. unfold value_at. by rewrite Hk. Qed.

Section Observing.
Context {API : Type} `{!Sha256} `{!KubernetesJSON}.

(** The observer there is once what a pass asked for has been done. *)
Definition observer_after (there : answer cron_job) (es : list effect) : answer cron_job :=
  foldl (fun c e => match e with CreateCron c' | UpdateCron c' => Found c' | _ => c end) there es.

(** And the function's label. *)
Definition label_after (f : function API) (es : list effect) : string :=
  foldl (fun l e => match e with LabelFunction v => v | _ => l end) (value_at (fo_Labels f) ObservedByLabel) es.

Lemma reconcileHostObserver_after d w ob : (reconcileHostObserver d w ob).2 = None ->
  exists c, observer_after (wl_cron w (HostObserverName (ih_Name (de_Host d)))) (reconcileHostObserver d w ob).1 = Found c /\
    cj_Spec c = observerCronJobSpec d ob /\ labelsMatch (cj_Labels c) (observer_labels d) = true.
Proof.
  unfold reconcileHostObserver. destruct (wl_cron w _) as [c|msg|e]; cbn [fst snd]; [| |discriminate].
  - destruct (bool_decide_reflect (cj_Spec c = observerCronJobSpec d ob)) as [Hspec|Hspec].
    + destruct (labelsMatch (cj_Labels c) (observer_labels d)) eqn:Hl; cbn [andb fst snd]; intros _.
      * exists c. split; [reflexivity|]. by split.
      * eexists. split; [reflexivity|]. split; [reflexivity|]. apply labelsMatch_union.
    + cbn [andb fst snd]. intros _. eexists. split; [reflexivity|]. split; [reflexivity|]. apply labelsMatch_union.
  - intros _. eexists. split; [reflexivity|]. split; [reflexivity|]. apply labelsMatch_refl.
Qed.

Lemma observer_after_app there es es' : observer_after there (es ++ es') = observer_after (observer_after there es) es'.
Proof. apply foldl_app. Qed.

Lemma markObserved_after d w (f : function API) there : observer_after there (markObserved d w f).1 = there /\
  label_after f (markObserved d w f).1 = ih_Name (de_Host d).
Proof.
  unfold markObserved, label_after. destruct (String.eqb_spec (value_at (fo_Labels f) ObservedByLabel) (ih_Name (de_Host d))); done.
Qed.

Lemma retire_after d w (f : function API) there l : observer_after there (retireLegacyObserver d w f).1 = there /\
  foldl (fun l e => match e with LabelFunction v => v | _ => l end) l (retireLegacyObserver d w f).1 = l.
Proof. unfold retireLegacyObserver. by destruct (String.eqb _ _). Qed.

Lemma reconcileHostObserver_label d w ob l :
  foldl (fun l e => match e with LabelFunction v => v | _ => l end) l (reconcileHostObserver d w ob).1 = l.
Proof. unfold reconcileHostObserver. destruct (wl_cron w _); [by destruct (_ && _)|done..]. Qed.
End Observing.

(** An observation that succeeds leaves an observer that is exactly what the
    adaptor asks for, and the next one, which finds it and the label, writes
    neither again. *)
Theorem observer_settles {API} (d : Deployer) (f f' : function API) w w' ob :
  fa_Observer (de_FaaSAdaptor d) = Some ob -> (Observe d w f).2 = None ->
  let name := HostObserverName (ih_Name (de_Host d)) in
  wl_cron w' name = observer_after (wl_cron w name) (Observe d w f).1 ->
  value_at (fo_Labels f') ObservedByLabel = label_after f (Observe d w f).1 ->
  (exists c, wl_cron w' name = Found c /\ cj_Spec c = observerCronJobSpec d ob) /\
  (Observe d w' f').1 = (retireLegacyObserver d w' f').1.
Proof.
  intros Hob Hok name Hcron Hlabel. unfold Observe in *. rewrite Hob in *. unfold and_then in *.
  pose proof (markObserved_after d w f (wl_cron w name)) as [Hm1 Hm2].
  destruct (markObserved d w f) as [es1 [e|]]; [done|].
  pose proof (reconcileHostObserver_after d w ob) as Hr. pose proof (reconcileHostObserver_label d w ob) as Hrl.
  destruct (reconcileHostObserver d w ob) as [es2 [e|]]; [done|].
  pose proof (retire_after d w f) as Ht. destruct (retireLegacyObserver d w f) as [es3 e3]. cbn [fst snd] in *.
  destruct (Hr eq_refl) as (c & Hc & Hspec & Hl).
  fold name in Hc. rewrite !observer_after_app, Hm1, Hc, (proj1 (Ht (Found c) "")) in Hcron.
  unfold label_after in Hlabel, Hm2. rewrite !foldl_app, Hm2, Hrl, (proj2 (Ht (Found c) _)) in Hlabel.
  split; [exists c; split; [exact Hcron|exact Hspec]|].
  unfold markObserved. rewrite Hlabel, String.eqb_refl. unfold reconcileHostObserver. fold name.
  rewrite Hcron, Hl, bool_decide_eq_true_2 by exact Hspec. reflexivity.
Qed.

(** * A concrete deployer *)

#[local] Existing Instance sha256Example.
#[local] Instance plainJSON : KubernetesJSON :=
  {| MarshalTolerations _ := Ok "tolerations"; MarshalSelector _ := Ok "selector"; MarshalList l := Ok (Join l ","); MarshalEnv _ := Ok "env" |}.

Definition till : function unit :=
  mkFunctionObject "web" "till" 4 ∅
    (mkFunctionSpec "shop" tt "/till" None None "runner" [] ∅ [] [] false [mkEnvVar "DB" "" (Some (SecretKeyRef "db" "password"))] None).
Definition till_deployer : Deployer :=
  mkDeployer
    (mkAdaptor "tiny/go" [] [] (mkDeployerSpec "deployer" [] [] [] [] ∅ [] ∅)
       (Some (mkObserverSpec "observer" [] [] [] [] ∅ "* * * * *" None (Some (90 * second)%Z))))
    (mkInternalHost "shop" "web" 1 "https" ["shop.example"] "registry" "" None None) [] "host-manager" "".
Definition till_workloads : workloads :=
  mkWorkloads (fun _ => NotFound "") (fun _ => None) (fun _ => inr []) (fun _ => inr []) (fun _ => Found ()) None
    (fun _ => NotFound "") Created None (NotFound "").

Example ninety_seconds : DurationString (90 * second) = "1m30s" /\ DurationString (1500 * millisecond) = "1.5s" /\
  DurationString 0 = "0s" /\ DurationString (2 * hour) = "2h0m0s" /\ DurationString 1500 = "1.5µs".
Proof. by vm_compute. Qed.

Lemma deployer_told_witness : exists env, deployer_env till_deployer till "registry/till:4" "shop.example" = Ok env /\
  forall e, e ∈ env -> ev_From e = None.
Proof.
  assert (exists env, deployer_env till_deployer till "registry/till:4" "shop.example" = Ok env) as [env Henv].
  { eexists. vm_compute. reflexivity. }
  exists env. split; [exact Henv|]. intros e He.
  destruct (deployer_told till_deployer till "registry/till:4" "shop.example" env Henv) as [Ha _].
  destruct (Ha e He) as [Hin|[Hf _]]; [|exact Hf]. by apply elem_of_nil in Hin.
Defined.

Lemma job_of_its_generation_witness : JobName till "a" "1" = JobName till "a" "1" /\ fo_Generation till = fo_Generation till.
Proof.
  split; [reflexivity|]. apply (job_of_its_generation till till "a" "a" "1" "1"); reflexivity.
Defined.

(** The cluster once the first observation's writes are there. *)
Definition till_after : workloads :=
  mkWorkloads (fun _ => NotFound "") (fun _ => None) (fun _ => inr []) (fun _ => inr []) (fun _ => Found ()) None
    (fun name => observer_after (wl_cron till_workloads name) (Observe till_deployer till_workloads till).1) Created None (NotFound "").
Definition labelled_till : function unit := mkFunctionObject "web" "till" 4 {[ObservedByLabel := "shop"]} (fo_Spec till).

Lemma observer_settles_witness :
  (Observe till_deployer till_after labelled_till).1 = (retireLegacyObserver till_deployer till_after labelled_till).1.
Proof.
  refine (proj2 (observer_settles till_deployer till labelled_till till_workloads till_after _ eq_refl _ eq_refl _)).
  - vm_compute. reflexivity.
  - vm_compute. reflexivity.
Defined.
