(* ===== verification/Pipeline.v ===== *)
(** The controller of a function (src/internal/controller/kdexfunction_controller.go):
    one pass of its reconcile, from the function and its status and what the
    API server answers to what is asked of it, the status left behind and how
    the pass ends. A write that is answered is taken to leave the function as
    it is in memory. Set-up of watches is left out but for the Service index. *)
From S2P Require Import Prelude GoStr Deps Cluster Deploy.

#[local] Open Scope string_scope.

(** * Reading and writing a status *)

Definition set_state (s : fn_state) (st : fn_status) : fn_status :=
  mkStatus s (st_Attributes st) (st_Conditions st) (st_Detail st) (st_OpenAPISchemaURL st) (st_URL st)
    (st_Executable st) (st_Generator st) (st_Source st) (st_ObservedGeneration st).
Definition set_attribute (k v : string) (st : fn_status) : fn_status :=
  mkStatus (st_State st) (<[k := v]> (st_Attributes st)) (st_Conditions st) (st_Detail st) (st_OpenAPISchemaURL st) (st_URL st)
    (st_Executable st) (st_Generator st) (st_Source st) (st_ObservedGeneration st).
Definition set_conditions (cs : conditions) (st : fn_status) : fn_status :=
  mkStatus (st_State st) (st_Attributes st) cs (st_Detail st) (st_OpenAPISchemaURL st) (st_URL st)
    (st_Executable st) (st_Generator st) (st_Source st) (st_ObservedGeneration st).
Definition set_detail (d : string) (st : fn_status) : fn_status :=
  mkStatus (st_State st) (st_Attributes st) (st_Conditions st) d (st_OpenAPISchemaURL st) (st_URL st)
    (st_Executable st) (st_Generator st) (st_Source st) (st_ObservedGeneration st).
Definition set_schema_url (u : string) (st : fn_status) : fn_status :=
  mkStatus (st_State st) (st_Attributes st) (st_Conditions st) (st_Detail st) u (st_URL st)
    (st_Executable st) (st_Generator st) (st_Source st) (st_ObservedGeneration st).
Definition set_url (u : string) (st : fn_status) : fn_status :=
  mkStatus (st_State st) (st_Attributes st) (st_Conditions st) (st_Detail st) (st_OpenAPISchemaURL st) u
    (st_Executable st) (st_Generator st) (st_Source st) (st_ObservedGeneration st).
Definition set_executable (x : option Executable) (st : fn_status) : fn_status :=
  mkStatus (st_State st) (st_Attributes st) (st_Conditions st) (st_Detail st) (st_OpenAPISchemaURL st) (st_URL st)
    x (st_Generator st) (st_Source st) (st_ObservedGeneration st).
Definition set_generator (g : option Generator) (st : fn_status) : fn_status :=
  mkStatus (st_State st) (st_Attributes st) (st_Conditions st) (st_Detail st) (st_OpenAPISchemaURL st) (st_URL st)
    (st_Executable st) g (st_Source st) (st_ObservedGeneration st).
Definition set_source (s : option Source) (st : fn_status) : fn_status :=
  mkStatus (st_State st) (st_Attributes st) (st_Conditions st) (st_Detail st) (st_OpenAPISchemaURL st) (st_URL st)
    (st_Executable st) (st_Generator st) s (st_ObservedGeneration st).
Definition set_observed (n : Z) (st : fn_status) : fn_status :=
  mkStatus (st_State st) (st_Attributes st) (st_Conditions st) (st_Detail st) (st_OpenAPISchemaURL st) (st_URL st)
    (st_Executable st) (st_Generator st) (st_Source st) n.

Definition attribute (st : fn_status) (k : string) : string := value_at (st_Attributes st) k.

(** * What a pass is answered *)

Record secret := mkSecret {
  se_Namespace : string; se_Name : string; se_Generation : Z; se_Type : string;
  se_Annotations : gmap string string; se_Labels : gmap string string; se_Data : gmap string string }.

(** kdex.dev/crds' helpers on a list of Secrets. *)
Class SecretList := {
  FindSecret : (secret -> bool) -> list secret -> option secret;
  FilterSecrets : (secret -> bool) -> list secret -> list secret;
}.

Record adaptor_object := mkAdaptorObject { ao_Generation : Z; ao_Created : Z; ao_Spec : FaaSAdaptor }.

Record environment := mkEnvironment {
  en_host : answer (referred InternalHost);
  en_knownKind : string -> bool;
  en_adaptor : string -> string -> string -> answer (referred adaptor_object); (* kind, namespace, name *)
  en_defaults : string + list adaptor_object;
  en_secrets : option (string + list secret); (* None: the host selects none *)
  en_image : answer tree; (* the function's kpack Image; a missing CRD is NotFound *)
  en_put_image : tree -> result string tree;
  en_delete_image : option string;
  en_account : string -> answer (gmap string string); (* a ServiceAccount's labels *)
  en_service : string -> string -> answer (list (string * Z)); (* a Service's ports, by namespace and name *)
  en_endpoints : string -> string -> string + list (list (option bool)); (* readiness, by slice *)
  en_oneOff : string -> result string string;
  en_workloads : workloads;
  en_write : write_answer }.

(** What the process is started with. *)
Record reconciler := mkReconciler {
  rc_ControllerNamespace : string; rc_FocalHost : string; rc_FunctionImagePrefix : option string;
  rc_RequeueDelay : Z; rc_ServiceAccount : string; rc_TokenPrefix : string;
  rc_referenceNamespaces : option (list string) }.

(** What the codegen job and the deployer job report. *)
Record codegen_results := mkResults { cg_repository : string; cg_revision : string; cg_path : string }.

(** encoding/json, with the text of its error. *)
Class Decoding (A : Type) := { Decode : string -> result string A }.

(** encoding/json of spec.api ([None]: it fails). *)
Class APIJSON (API : Type) := { MarshalAPI : API -> option string }.

Section Pipeline.
Context {API : Type} `{!Sha256} `{!KubernetesJSON} `{!FunctionYAML API} `{!APIJSON API}.
Context `{!Conditions} `{!Reasons} `{!StateText} `{!SecretList} `{!Unstructured}.
Context `{!Decoding codegen_results} `{!Decoding string}.
Context (R : reconciler).

Notation delay := (rc_RequeueDelay R).

(** What a pass asks for, the status it leaves, how it ends. *)
Definition pass : Type := list effect * fn_status * outcome.

Definition mark (s : cond_statuses) (reason msg : string) (st : fn_status) : fn_status :=
  set_conditions (SetConditions s reason msg (st_Conditions st)) st.

(** Marked degraded, with the error returned. *)
Definition fail_with (es : list effect) (st : fn_status) (msg : string) : pass :=
  (es, mark degraded ReconcileError msg st, Failed msg).

(** * Codegen inputs *)

Definition sourceRegenerate (s : option Source) : bool :=
  match s with Some s => default false (src_Regenerate s) | None => false end.

Definition AttrCodegenInputAPIHash : string := "kdex.dev/codegen-input-api-hash".
Definition AttrCodegenInputGenerator : string := "kdex.dev/codegen-input-generator".

Definition codegenInputAPIHash (api : API) : string :=
  match MarshalAPI api with Some b => sha256hex b | None => "" end.

Definition codegenInputsChanged (f : function API) (st : fn_status) : bool * bool :=
  let currentAPIHash := codegenInputAPIHash (fs_API (fo_Spec f)) in
  let currentGenerator := match st_Generator st with Some g => gn_Image g | None => "" end in
  let observedAPIHash := attribute st AttrCodegenInputAPIHash in
  let observedGenerator := attribute st AttrCodegenInputGenerator in
  (negb (String.eqb observedAPIHash ""),
   negb (String.eqb currentAPIHash observedAPIHash) || negb (String.eqb currentGenerator observedGenerator)).

Definition shouldSkipCodegen (f : function API) (st : fn_status) : bool :=
  match og_Source (GetOrigin f) with
  | None => false
  | Some s =>
      if sourceRegenerate (Some s) then false
      else let '(edgeMode, changed) := codegenInputsChanged f st in negb edgeMode || negb changed
  end.

Definition recordCodegenInputs (f : function API) (st : fn_status) : fn_status :=
  let st := set_attribute AttrCodegenInputAPIHash (codegenInputAPIHash (fs_API (fo_Spec f))) st in
  match st_Generator st with
  | Some g => set_attribute AttrCodegenInputGenerator (gn_Image g) st
  | None => st
  end.

(** * One state after another *)

(** What a handler is given beside the status. *)
Record handlerContext := mkHC {
  hc_adaptor : FaaSAdaptor; hc_gitSecret : option secret; hc_host : InternalHost; hc_pullSecrets : list string }.

Definition handlePending (hc : handlerContext) (f : function API) (st : fn_status) : pass :=
  match ih_Domains (hc_host hc) with
  | [] => ([], st, Panics)
  | domain :: _ =>
      let url := ih_Scheme (hc_host hc) ++ "://" ++ domain ++ "/-/openapi?type=function&tag=" ++ fo_Name f in
      let detail := state_text StOpenAPIValid ++ ": " ++ url in
      ([], mark progressing Reconciling detail (set_detail detail (set_state StOpenAPIValid (set_schema_url url st))), Requeue delay)
  end.

(** The generator resolved: the function goes on to be built. *)
Definition build_valid (g : Generator) (st : fn_status) : pass :=
  let detail := state_text StBuildValid ++ ": " ++ gn_Language g ++ "/" ++ gn_Image g in
  ([], mark progressing Reconciling detail (set_detail detail (set_state StBuildValid (set_generator (Some g) st))), Requeue delay).

Definition handleOpenAPIValid (hc : handlerContext) (f : function API) (st : fn_status) : pass :=
  let origin := GetOrigin f in
  match og_Executable origin with
  | Some x => ([], set_state StExecutableAvailable (set_executable (Some x) st), Requeue delay)
  | None =>
      if found (og_Source origin) && negb (sourceRegenerate (og_Source origin)) then
        ([], set_state StSourceAvailable st, Requeue delay)
      else
        match og_Generator origin with
        | Some g => build_valid g st
        | None =>
            match parseBuilderGenerator (fa_DefaultBuilderGenerator (hc_adaptor hc)) with
            | Err e => fail_with [] st e
            | Ok (_, defaultLanguage) =>
                match List.find (fun g => String.eqb (gn_Language g) defaultLanguage) (fa_Generators (hc_adaptor hc)) with
                | None => fail_with [] st ("generator " ++ defaultLanguage ++ " not found for function " ++ fo_Namespace f ++ "/" ++ fo_Name f)
                | Some g => build_valid g st
                end
            end
        end
  end.

(** The job is deleted and the pass comes again; a deletion refused is the
    error returned. *)
Definition delete_and_requeue (w : workloads) (es : list effect) (j : job) (st : fn_status) (msg : string) : pass :=
  let st := mark degraded ReconcileError msg st in
  match wl_delete_job w (jb_Name j) with
  | Found _ => ((es ++ [DeleteJob (jb_Name j)])%list, st, Requeue delay)
  | NotFound e | Unavailable e => ((es ++ [DeleteJob (jb_Name j)])%list, st, Failed e)
  end.

Definition cleanup (w : workloads) (f : function API) (app keep : string) : list effect * option string :=
  let '(names, e) := cleanupJobs (wl_jobs w app) (wl_delete_job w) (fo_Generation f) keep in (map DeleteJob names, e).

Definition markCodegenJobTerminallyFailed (es : list effect) (j : job) (msg : string) (st : fn_status) : pass :=
  (es, mark degraded ReconcileError
         ("code generation job " ++ jb_Namespace j ++ "/" ++ jb_Name j ++ " exhausted retries: " ++ msg ++
          " — inspect pods for details (Job is NOT auto-deleted)") st, Settled).

(** The reason of a terminal failure, with what the pod said. *)
Definition with_results (msg terminationMessage : string) : string :=
  if String.eqb terminationMessage "" then msg else msg ++ "; results: " ++ terminationMessage.

(** The builder of the generated source: the default's when the language is
    the default's, else the last that knows the language. *)
Definition source_builder (faas : FaaSAdaptor) (defaultBuilder defaultLanguage language : string) : option Builder :=
  let named := foldl (fun n b => if contains_elem (bd_Languages b) language then bd_Name b else n) "" (fa_Builders faas) in
  let name := if String.eqb language defaultLanguage then defaultBuilder else named in
  foldl (fun r b => if String.eqb (bd_Name b) name then Some b else r) None (fa_Builders faas).

(** The source is known: the function goes on to its image. *)
Definition source_available (es : list effect) (st : fn_status) : pass :=
  match st_Source st with
  | None => (es, set_state StSourceAvailable st, Panics)
  | Some s =>
      let detail := state_text StSourceAvailable ++ ": " ++ src_Repository s ++ "@" ++ src_Revision s in
      (es, mark progressing Reconciling detail (set_detail detail (set_state StSourceAvailable st)), Requeue delay)
  end.

(** The codegen job has a pod to read: its results, or its failure. *)
Definition codegen_finished (hc : handlerContext) (w : workloads) (f : function API) (es : list effect) (j : job) (p : pod)
    (language : string) (st : fn_status) : pass :=
  let message := terminationMessage "results" (pd_Containers p) in
  match isCodegenJobTerminal j with
  | Some msg => markCodegenJobTerminallyFailed es j (with_results msg message) st
  | None =>
      match Decode (A := codegen_results) message with
      | Err e => delete_and_requeue w es j st e
      | Ok r =>
          let st := recordCodegenInputs f (set_source (Some (mkSource (cg_repository r) (cg_revision r) (cg_path r) None None)) st) in
          match parseBuilderGenerator (fa_DefaultBuilderGenerator (hc_adaptor hc)) with
          | Err e => delete_and_requeue w es j st e
          | Ok (defaultBuilder, defaultLanguage) =>
              source_available es
                (set_source (Some (mkSource (cg_repository r) (cg_revision r) (cg_path r)
                                     (source_builder (hc_adaptor hc) defaultBuilder defaultLanguage language) None)) st)
          end
      end
  end.

Definition handleBuildValid (hc : handlerContext) (E : environment) (f : function API) (st : fn_status) : pass :=
  let w := en_workloads E in
  match og_Executable (GetOrigin f) with
  | Some x => ([], set_state StExecutableAvailable (set_executable (Some x) st), Requeue delay)
  | None =>
      if shouldSkipCodegen f st then
        source_available []
          (match st_Source st with
           | Some s => if String.eqb (src_Revision s) "" then set_source (og_Source (GetOrigin f)) st else st
           | None => set_source (og_Source (GetOrigin f)) st
           end)
      else
        match hc_gitSecret hc with
        | None => fail_with [] st ("git secret not found for host " ++ ih_Namespace (hc_host hc) ++ "/" ++ ih_Name (hc_host hc))
        | Some git =>
            match st_Generator st, ih_Domains (hc_host hc) with
            | Some config, domain :: _ =>
                let g := mkGeneratorRun config (se_Name git) (hc_pullSecrets hc) (en_oneOff E)
                           (ih_Scheme (hc_host hc) ++ "://" ++ domain) in
                let '(es, r) := GetOrCreateGenerateJob g w f st in
                match r with
                | Err e => fail_with es st e
                | Ok j =>
                    if unfinished j then
                      let st := mark progressing Reconciling
                                  ("Waiting on code generation job " ++ jb_Namespace j ++ "/" ++ jb_Name j ++ " to complete") st in
                      let '(ds, e) := cleanup w f APP_CODEGEN "" in
                      ((es ++ ds)%list, st, match e with Some e => Failed e | None => Requeue delay end)
                    else
                      match GetPodForJob (wl_pods w (jb_Name j)) j with
                      | Err e => delete_and_requeue w es j st e
                      | Ok p => codegen_finished hc w f es j p (gn_Language config) st
                      end
                end
            | _, _ => ([], st, Panics)
            end
        end
  end.

(** * The image *)

Definition isHostManagerServiceAccount (labels : gmap string string) : bool :=
  String.eqb (value_at labels "app.kubernetes.io/name") "host-manager" ||
  HasPrefix (value_at labels "helm.sh/chart") "host-manager-".

(** The message of the refusal of a host-manager ServiceAccount. *)
Definition refuseHostManagerServiceAccount (E : environment) (field sa : string) : option string :=
  let hostManager := String.eqb sa (rc_ServiceAccount R) ||
                     match en_account E sa with Found labels => isHostManagerServiceAccount labels | _ => false end in
  if hostManager then Some (field ++ " " ++ quoted sa ++ " is a host-manager ServiceAccount; a function must run as its own")
  else None.

(** The source to build: the spec's, with the revision the status pins. *)
Definition build_source (f : function API) (st : fn_status) : option Source :=
  let pinned := match st_Source st with Some s => if String.eqb (src_Revision s) "" then None else Some s | None => None end in
  match og_Source (GetOrigin f), pinned with
  | None, None => None
  | Some s, None => Some s
  | spec, Some p =>
      let s := default (mkSource "" "" "" None None) spec in
      Some (mkSource (src_Repository p) (src_Revision p) (src_Path p) (src_Builder s) (src_Regenerate s))
  end.

(** The executable is known: the function goes on to be deployed. *)
Definition executable_available (es : list effect) (x : Executable) (st : fn_status) : pass :=
  let detail := state_text StExecutableAvailable ++ ": " ++ ex_Image x in
  (es, mark progressing Reconciling detail
         (set_detail detail (set_state StExecutableAvailable (set_executable (Some x) st))), Settled).

(** [t.(string)] of each: [None] when one is no string. *)
Fixpoint strings_of (l : list tree) : option (list string) :=
  match l with
  | [] => Some []
  | TStr s :: l => r ← strings_of l; Some (s :: r)
  | _ :: _ => None
  end.

Definition additional_tags (image : tree) : option (list string) :=
  match NestedField image ["spec"; "additionalTags"] with Some (TArr l) => strings_of l | _ => Some [] end.

Definition image_generation (image : tree) : Z := default 0%Z (NestedInt64 image ["metadata"; "generation"]).

(** The tags of a built image, comma-separated. *)
Definition image_tags (image : tree) : option string :=
  l ← additional_tags image;
  Some (Join (match NestedString image ["spec"; "tag"] with Some t => [t] | None => [] end ++ l)%list ",").

Definition image_built (es : list effect) (name : string) (f : function API) (image : tree) (st : fn_status) : pass :=
  let at_name := fo_Namespace f ++ "/" ++ name in
  match inspectKPackImageStatus (image_generation image) image with
  | (_, Some e) => fail_with es st ("image builder job " ++ at_name ++ " failed: " ++ e)
  | (false, None) =>
      (es, mark progressing Reconciling ("Waiting on image builder job " ++ at_name ++ " to complete") st, Requeue delay)
  | (true, None) =>
      match NestedString image ["status"; "latestImage"] with
      | None => (es, st, Panics)
      | Some latest =>
          match image_tags image with
          | None => (es, set_executable (Some (mkExecutable latest)) st, Panics)
          | Some tags => executable_available es (mkExecutable latest) (set_attribute "image.tags" tags st)
          end
      end
  end.

(** CreateOrPatch of the kpack Image, and the API server's answer. *)
Definition GetOrCreateKPackImage (E : environment) (f : function API) (b : build) : list effect * result string tree :=
  let there := match en_image E with Found o => Ok (Some o) | NotFound _ => Ok None | Unavailable e => Err e end in
  match there with
  | Err e => ([], Err ("failed to create image builder: " ++ e))
  | Ok there =>
      match desired_image b (fs_Host (fo_Spec f)) (fo_Namespace f) (fo_Name f) (fo_Generation f) there with
      | Err e => ([], Err ("failed to create image builder: " ++ e))
      | Ok o =>
          match en_put_image E o with
          | Err e => ([PatchImage o], Err ("failed to create image builder: " ++ e))
          | Ok o' => ([PatchImage o], Ok o')
          end
      end
  end.

Definition image_prefix (f : function API) : string :=
  match rc_FunctionImagePrefix R with Some p => p | None => fs_Host (fo_Spec f) ++ "/" end.

(** The image of a source, built as [sa]. *)
Definition build_image (hc : handlerContext) (E : environment) (f : function API) (s : Source) (b : Builder) (sa : string)
    (st : fn_status) : pass :=
  let name := image_name (fs_Host (fo_Spec f)) (fo_Name f) in
  let bl := mkBuild (ih_ImageRegistry (hc_host hc)) (image_prefix f) sa (src_Repository s) (src_Revision s) (src_Path s) b in
  let '(es, r) := GetOrCreateKPackImage E f bl in
  match r with
  | Ok image => image_built es name f image st
  | Err e =>
      if Contains e "Immutable field changed" then
        ((es ++ [DeleteImage name])%list, st, match en_delete_image E with Some e => Failed e | None => Requeue second end)
      else fail_with es st e
  end.

Definition handleSourceAvailable (hc : handlerContext) (E : environment) (f : function API) (st : fn_status) : pass :=
  match og_Executable (GetOrigin f) with
  | Some x => executable_available [] x st
  | None =>
      match build_source f st with
      | None => fail_with [] st ("spec.origin.source and status.source are nil for " ++ fo_Namespace f ++ "/" ++ fo_Name f)
      | Some s =>
          match builderForBuild (fa_DefaultBuilderGenerator (hc_adaptor hc)) (fa_Builders (hc_adaptor hc)) (src_Builder s) with
          | Err e => fail_with [] st e
          | Ok None => ([], st, Panics)
          | Ok (Some b) =>
              let sa := bd_ServiceAccountName b in
              if String.eqb sa "" then build_image hc E f s b (rc_ServiceAccount R) st
              else
                match refuseHostManagerServiceAccount E "spec.origin.source.builder.serviceAccountName" sa with
                | Some msg => ([], mark degraded ReconcileError msg st, Settled)
                | None => build_image hc E f s b sa st
                end
          end
      end
  end.

(** * The deployment *)

Definition deployer (hc : handlerContext) : Deployer :=
  mkDeployer (hc_adaptor hc) (hc_host hc) (hc_pullSecrets hc) (rc_ServiceAccount R)
    (resolveAPITokenPrefix (ih_TokenPrefix (hc_host hc)) (rc_TokenPrefix R)).

Definition adaptor_generation (st : fn_status) : string := attribute st "faasAdaptor.generation".

Definition decodeDeployerURL (message : string) : result string string :=
  match Decode (A := string) message with
  | Err e => Err ("failed to parse deployer results: " ++ e)
  | Ok "" => Err "deployer returned empty URL; backend not admitted yet"
  | Ok url => Ok url
  end.

Definition deployment_finished (w : workloads) (f : function API) (es : list effect) (j : job) (p : pod) (st : fn_status) : pass :=
  let message := terminationMessage "deployer" (pd_Containers p) in
  match isCodegenJobTerminal j with
  | Some msg =>
      markCodegenJobTerminallyFailed (es ++ (cleanup w f APP_DEPLOYER (jb_Name j)).1)%list j (with_results msg message) st
  | None =>
      match decodeDeployerURL message with
      | Err e => delete_and_requeue w es j st e
      | Ok url =>
          let detail := state_text StFunctionDeployed ++ ": " ++ url in
          (es, mark progressing Reconciling detail (set_detail detail (set_state StFunctionDeployed (set_url url st))), Settled)
      end
  end.

Definition deploy_function (hc : handlerContext) (E : environment) (f : function API) (st : fn_status) : pass :=
  let w := en_workloads E in
  let '(es, r) := Deploy (deployer hc) w f (st_Executable st) (adaptor_generation st) in
  match r with
  | DeployPanics => (es, st, Panics)
  | DeployFailed e => fail_with es st e
  | DeployJob j =>
      if unfinished j then
        let st := mark progressing Reconciling
                    ("Waiting on function deployer job " ++ jb_Namespace j ++ "/" ++ jb_Name j ++ " to complete") st in
        let '(ds, e) := cleanup w f APP_DEPLOYER (jb_Name j) in
        ((es ++ ds)%list, st, match e with Some e => Failed e | None => Requeue delay end)
      else
        match GetPodForJob (wl_pods w (jb_Name j)) j with
        | Err e => delete_and_requeue w es j st e
        | Ok p => deployment_finished w f es j p st
        end
  end.

Definition handleExecutableAvailable (hc : handlerContext) (E : environment) (f : function API) (st : fn_status) : pass :=
  match st_Executable st with
  | None =>
      match og_Executable (GetOrigin f) with
      | Some x => ([], set_executable (Some x) st, Requeue delay)
      | None => ([], set_state StOpenAPIValid st, Requeue delay)
      end
  | Some _ =>
      let sa := fs_ServiceAccountName (fo_Spec f) in
      if String.eqb sa "" then deploy_function hc E f st
      else
        match refuseHostManagerServiceAccount E "spec.serviceAccountName" sa with
        | Some msg => ([], mark degraded ReconcileError msg st, Settled)
        | None => deploy_function hc E f st
        end
  end.

Definition ready_detail (f : function API) (st : fn_status) : string :=
  state_text StReady ++ ": " ++ st_URL st ++ fs_BasePath (fo_Spec f).

Definition handleFunctionDeployed (hc : handlerContext) (E : environment) (f : function API) (st : fn_status) : pass :=
  let '(es, e) := Observe (deployer hc) (en_workloads E) f in
  match e with
  | Some e => fail_with es st e
  | None =>
      let detail := ready_detail f st in
      (es, mark ready ReconcileSuccess detail (set_detail detail (set_state StReady st)), Requeue delay)
  end.

Definition handleReady (hc : handlerContext) (E : environment) (f : function API) (st : fn_status) : pass :=
  match st_Executable st with
  | None => ([], set_state StSourceAvailable st, Requeue delay)
  | Some x =>
      if found (og_Source (GetOrigin f)) && negb (found (st_Source st)) then
        ([], set_source (og_Source (GetOrigin f)) st, Requeue delay)
      else
        let '(es, e) := Observe (deployer hc) (en_workloads E) f in
        match e with
        | Some e => fail_with es st e
        | None =>
            let '(ds, _) := cleanup (en_workloads E) f APP_DEPLOYER (JobName f (ex_Image x) (adaptor_generation st)) in
            ((es ++ ds)%list,
             mark ready ReconcileSuccess "Function is ready" (set_detail (ready_detail f st) (set_state StReady st)), Settled)
        end
  end.

(** * A function built from its origin *)

(** A generation not yet seen starts again. *)
Definition begin (f : function API) (st : fn_status) : fn_status :=
  let st := if (st_ObservedGeneration st <? fo_Generation f)%Z then set_state StPending st else st in
  mark reconciling Reconciling (state_text (st_State st)) st.

Definition resolve_adaptor (E : environment) (host : InternalHost) (ns : string) (cs : conditions)
    : conditions * resolution adaptor_object :=
  ResolveOrDefault
    (ResolveKDexObjectReference (rc_referenceNamespaces R) (en_knownKind E) (en_adaptor E) delay "KDexFunction" ns
       (ih_FaaSAdaptorRef host) cs)
    (en_defaults E) ao_Created.

(** An adaptor of another generation has the function checked again. *)
Definition note_adaptor (generation : Z) (st : fn_status) : fn_status :=
  let currentGen := FormatInt generation in
  let seen := adaptor_generation st in
  let st := if negb (String.eqb seen "") && negb (String.eqb seen currentGen) then set_state StOpenAPIValid st else st in
  set_attribute "faasAdaptor.generation" currentGen st.

Definition ResolveSecrets (E : environment) (st : fn_status) : fn_status * result string (list secret) :=
  match en_secrets E with
  | None => (st, Ok [])
  | Some (inl e) => (st, Err e)
  | Some (inr l) => (foldl (fun st s => set_attribute (se_Name s ++ ".secret.generation") (FormatInt (se_Generation s)) st) st l, Ok l)
  end.

Definition context_of (spec : FaaSAdaptor) (host : InternalHost) (secrets : list secret) : handlerContext :=
  mkHC spec (FindSecret (fun s => String.eqb (value_at (se_Annotations s) "kdex.dev/secret-type") "git") secrets) host
    (map se_Name (FilterSecrets (fun s => String.eqb (se_Type s) "kubernetes.io/dockerconfigjson") secrets)).

Definition latest_image (image : tree) : option string :=
  match NestedString image ["status"; "latestImage"] with
  | Some s => if String.eqb s "" then None else Some s
  | None => None
  end.

(** A Ready function whose image kpack has built anew goes back to it; one
    whose codegen inputs changed goes back to codegen. *)
Definition drift (E : environment) (f : function API) (st : fn_status) : fn_status * option string :=
  match og_Executable (GetOrigin f), st_Source st with
  | None, Some _ =>
      match en_image E with
      | Found image =>
          (match latest_image image, st_State st, st_Executable st with
           | Some latest, StReady, Some x => if String.eqb (ex_Image x) latest then st else set_state StSourceAvailable st
           | _, _, _ => st
           end, None)
      | NotFound _ => (st, None)
      | Unavailable e => (st, Some e)
      end
  | _, _ => (st, None)
  end.

Definition recheck_codegen (f : function API) (st : fn_status) : fn_status :=
  if bool_decide (st_State st = StReady) && found (og_Source (GetOrigin f)) && negb (shouldSkipCodegen f st) then
    set_state StBuildValid st
  else st.

Definition handle (hc : handlerContext) (E : environment) (f : function API) (st : fn_status) : pass :=
  match st_State st with
  | StPending => handlePending hc f st
  | StOpenAPIValid => handleOpenAPIValid hc f st
  | StBuildValid => handleBuildValid hc E f st
  | StSourceAvailable => handleSourceAvailable hc E f st
  | StExecutableAvailable => handleExecutableAvailable hc E f st
  | StFunctionDeployed => handleFunctionDeployed hc E f st
  | StReady => handleReady hc E f st
  | StOther => ([], mark ready ReconcileSuccess "Reconciliation successful" st, Settled)
  end.

(** With the host, the adaptor and the secrets at hand. *)
Definition advance (E : environment) (f : function API) (host : InternalHost) (adaptor : adaptor_object) (st : fn_status) : pass :=
  let st := note_adaptor (ao_Generation adaptor) st in
  let '(st, secrets) := ResolveSecrets E st in
  match secrets with
  | Err e => fail_with [] st e
  | Ok secrets =>
      match drift E f st with
      | (st, Some e) => ([], st, Failed e)
      | (st, None) => handle (context_of (ao_Spec adaptor) host secrets) E f (recheck_codegen f st)
      end
  end.

(** The pass up to the deferred write of the status. *)
Definition reconcile_origin (E : environment) (f : function API) (st : fn_status) : pass :=
  let st := begin f st in
  match ResolveHost (en_host E) delay false (st_Conditions st) with
  | (cs, Stop o) => ([], set_conditions cs st, o)
  | (cs, NoReference) => ([], set_conditions cs st, Panics)
  | (cs, Resolved host) =>
      let st := set_attribute "host.generation" (FormatInt (ih_Generation host)) (set_conditions cs st) in
      match resolve_adaptor E host (fo_Namespace f) (st_Conditions st) with
      | (cs, Stop o) => ([], set_conditions cs st, o)
      | (cs, NoReference) =>
          let msg := "no KDexFaaSAdaptors were found to handle function " ++ fo_Namespace f ++ "/" ++ fo_Name f in
          ([], mark degraded ReconcileSuccess msg (set_conditions cs st), Failed msg)
      | (cs, Resolved adaptor) => advance E f host adaptor (set_conditions cs st)
      end
  end.

(** The deferred write of the status. *)
Definition write_back (E : environment) (stored st : fn_status) (o : outcome) : fn_status * outcome :=
  write_status (en_write E) stored st o.

(** * A function in front of a Service *)

Definition backendService_namespace (f : function API) (svc : BackendService) : string :=
  if String.eqb (be_Namespace svc) "" then fo_Namespace f else be_Namespace svc.

(** The index a change of a Service finds its functions by. *)
Definition backendServiceIndexer (f : function API) : list string :=
  match fs_Backend (fo_Spec f) with
  | Some (Some svc) => [backendService_namespace f svc ++ "/" ++ be_Name svc]
  | _ => []
  end.

Definition int32 (n : Z) : Z := ((n + 2 ^ 31) mod 2 ^ 32 - 2 ^ 31)%Z.

Definition resolveServicePort (ports : list (string * Z)) (ref : port) : option Z :=
  match ref with
  | PortNumber n => Some (int32 n)
  | PortName name => snd <$> List.find (fun p => String.eqb (fst p) name) ports
  end.

Definition hasReadyEndpoint (slices : string + list (list (option bool))) : result string bool :=
  match slices with
  | inl e => Err e
  | inr l => Ok (existsb (existsb (fun r => match r with Some b => b | None => false end)) l)
  end.

(** A status written there and then, when it changed. *)
Definition write_now (E : environment) (stored st : fn_status) (o : outcome) : fn_status * outcome :=
  if bool_decide (st = stored) then (stored, o)
  else match en_write E with Written => (st, o) | Conflict e | WriteFailed e => (stored, Failed e) end.

Definition markBackendUnready (E : environment) (f : function API) (reason msg : string) (retainURL : bool) (stored : fn_status)
    : fn_status * outcome :=
  let st := set_conditions (SetStatusCondition "Ready" (mkCondition CFalse reason msg) (st_Conditions stored)) stored in
  let st :=
    if retainURL then set_conditions (SetStatusCondition "Progressing" (mkCondition CTrue reason msg) (st_Conditions st)) st
    else
      let st := set_state StOpenAPIValid (set_url "" st) in
      set_conditions (SetStatusCondition "Degraded" (mkCondition CTrue reason msg) (st_Conditions st)) st in
  write_now E stored (set_observed (fo_Generation f) st) (Requeue delay).

Definition service_url (svc : BackendService) (ns : string) (p : Z) : string :=
  (if String.eqb (be_Scheme svc) "" then "http" else be_Scheme svc) ++ "://" ++ be_Name svc ++ "." ++ ns ++
  ".svc.cluster.local:" ++ FormatInt p ++ (if String.eqb (be_Path svc) "" then "/" else be_Path svc).

Definition backend_ready (E : environment) (f : function API) (at_name url : string) (stored : fn_status) : fn_status * outcome :=
  let st := set_url url (set_source None (set_generator None (set_executable None stored))) in
  let st := set_observed (fo_Generation f) (set_state StReady st) in
  let cs := SetStatusCondition "Ready"
              (mkCondition CTrue "BackendResolved" ("Backend Service " ++ at_name ++ " resolved to " ++ url)) (st_Conditions st) in
  write_now E stored (set_conditions (RemoveStatusCondition "Degraded" cs) st) Settled.

Definition port_text (p : port) : string := match p with PortNumber n => FormatInt n | PortName s => s end.

Definition reconcileServiceBacked (E : environment) (f : function API) (backend : option BackendService) (stored : fn_status)
    : fn_status * outcome :=
  match backend with
  | None => (stored, Settled)
  | Some svc =>
      let ns := backendService_namespace f svc in
      let at_name := ns ++ "/" ++ be_Name svc in
      match checkReferenceNamespace (rc_referenceNamespaces R) (fo_Namespace f) ns with
      | Some msg => markBackendUnready E f "NamespaceNotReferenceable" msg false stored
      | None =>
          match en_service E ns (be_Name svc) with
          | NotFound _ => markBackendUnready E f "ServiceNotFound" ("Service " ++ at_name ++ " not found") false stored
          | Unavailable e => (stored, Failed e)
          | Found ports =>
              match resolveServicePort ports (be_Port svc) with
              | None => markBackendUnready E f "InvalidPort"
                          ("port " ++ port_text (be_Port svc) ++ " not found in Service " ++ at_name) false stored
              | Some p =>
                  match hasReadyEndpoint (en_endpoints E ns (be_Name svc)) with
                  | Err e => (stored, Failed e)
                  | Ok false => markBackendUnready E f "NoEndpoints" ("Service " ++ at_name ++ " has no ready endpoints") true stored
                  | Ok true => backend_ready E f at_name (service_url svc ns p) stored
                  end
              end
          end
      end
  end.

(** * A pass *)

(** What is asked of the API server, the status stored, the outcome. *)
Definition Reconcile (E : environment) (f : function API) (stored : fn_status) : pass :=
  if negb (String.eqb (fo_Namespace f) (rc_ControllerNamespace R)) then ([], stored, Settled)
  else if negb (String.eqb (fs_Host (fo_Spec f)) (rc_FocalHost R)) then ([], stored, Settled)
  else
    match fs_Backend (fo_Spec f) with
    | Some backend => let '(st, o) := reconcileServiceBacked E f backend stored in ([], st, o)
    | None =>
        let '(es, st, o) := reconcile_origin E f stored in
        let '(st, o) := write_back E stored (set_observed (fo_Generation f) st) o in
        (es, st, o)
    end.
End Pipeline.
