(* ===== verification/PipelineSpec.v ===== *)
(** What a function's status says at each step of its way, whose rights its
    image is built and its workload run with, which jobs a pass may delete,
    and that a function whose workloads succeed gets ready and stays so. *)
From S2P Require Import Prelude GoStr Deps Cluster Deploy DeploySpec Pipeline.

#[local] Open Scope string_scope.

Section PipelineFacts.
Context {API : Type} `{!Sha256} `{!KubernetesJSON} `{!FunctionYAML API} `{!APIJSON API}.
Context `{!Conditions} `{!Reasons} `{!StateText} `{!SecretList} `{!Unstructured}.
Context `{!Decoding codegen_results} `{!Decoding string}.
Context (R : reconciler).

Implicit Types (f : function API) (st : fn_status) (E : environment) (es : list effect).

(** * What a status says *)

(** The executable is there from the moment it is said to be, and the URL
    from the moment the function is said to be deployed. *)
Definition sound st : Prop :=
  match st_State st with
  | StExecutableAvailable => st_Executable st <> None
  | StFunctionDeployed | StReady => st_Executable st <> None /\ st_URL st <> ""
  | _ => True
  end.

Definition status_of_pass (p : pass) : fn_status := p.1.2.
Definition effects_of (p : pass) : list effect := p.1.1.
Definition outcome_of (p : pass) : outcome := p.2.

Ltac walk := repeat (case_match; simplify_eq/=); try done.

Lemma handlePending_sound hc f st : sound st -> sound (status_of_pass (handlePending R hc f st)).
Proof. unfold handlePending. intros Hs. walk. Qed.

Lemma sound_state s st : sound (set_state s st) <->
  match s with
  | StExecutableAvailable => st_Executable st <> None
  | StFunctionDeployed | StReady => st_Executable st <> None /\ st_URL st <> ""
  | _ => True
  end.
Proof. done. Qed.

Lemma sound_mark s reason msg st : sound (mark s reason msg st) <-> sound st.
Proof. done. Qed.

(** A status of a state that promises nothing. *)
Definition early (s : fn_state) : Prop :=
  match s with StExecutableAvailable | StFunctionDeployed | StReady => False | _ => True end.

Lemma early_sound st : early (st_State st) -> sound st.
Proof. unfold sound. by destruct (st_State st). Qed.

Lemma handleOpenAPIValid_sound hc f st : st_State st = StOpenAPIValid -> sound (status_of_pass (handleOpenAPIValid R hc f st)).
Proof.
  unfold handleOpenAPIValid, build_valid, fail_with. intros Hs.
  walk; apply early_sound; cbn; by rewrite ?Hs.
Qed.

Lemma delete_and_requeue_status w es j st msg :
  status_of_pass (delete_and_requeue R w es j st msg) = mark degraded ReconcileError msg st.
Proof. unfold delete_and_requeue. by case_match. Qed.

Lemma source_available_early es st : early (st_State (status_of_pass (source_available R es st))).
Proof. unfold source_available. by case_match. Qed.

Lemma codegen_finished_early hc w f es j p l st : early (st_State st) ->
  early (st_State (status_of_pass (codegen_finished R hc w f es j p l st))).
Proof.
  intros He. unfold codegen_finished, markCodegenJobTerminallyFailed.
  repeat (case_match; simplify_eq/=); try done.
  all: try (rewrite delete_and_requeue_status; unfold recordCodegenInputs; cbn; try case_match; done).
  all: apply source_available_early.
Qed.

Lemma handleBuildValid_sound hc E f st : st_State st = StBuildValid -> sound (status_of_pass (handleBuildValid R hc E f st)).
Proof.
  intros Hs. unfold handleBuildValid.
  destruct (og_Executable (GetOrigin f)) as [x|]; [done|].
  destruct (shouldSkipCodegen f st); [apply early_sound, source_available_early|].
  apply early_sound.
  destruct (hc_gitSecret hc) as [git|]; [|cbn; by rewrite Hs].
  destruct (st_Generator st) as [config|]; [|cbn; by rewrite Hs].
  destruct (ih_Domains (hc_host hc)) as [|domain ds]; [cbn; by rewrite Hs|].
  destruct (GetOrCreateGenerateJob _ _ f st) as [es [j|e]]; [|cbn; by rewrite Hs].
  destruct (unfinished j).
  - destruct (cleanup _ f APP_CODEGEN "") as [ds' e]. cbn. by rewrite Hs.
  - destruct (GetPodForJob _ j) as [p|e]; [|rewrite delete_and_requeue_status; cbn; by rewrite Hs].
    apply codegen_finished_early. by rewrite Hs.
Qed.

Lemma executable_available_sound es x st : sound (status_of_pass (executable_available es x st)).
Proof. done. Qed.

Lemma image_built_sound es name f image st : st_State st = StSourceAvailable -> sound (status_of_pass (image_built R es name f image st)).
Proof.
  intros Hs. unfold image_built, fail_with.
  walk; apply early_sound; cbn; by rewrite ?Hs.
Qed.

Lemma build_image_sound hc E f s b sa st : st_State st = StSourceAvailable -> sound (status_of_pass (build_image R hc E f s b sa st)).
Proof.
  intros Hs. unfold build_image. destruct (GetOrCreateKPackImage E f _) as [es [image|e]]; [by apply image_built_sound|].
  destruct (Contains e _); apply early_sound; cbn; by rewrite Hs.
Qed.

Lemma handleSourceAvailable_sound hc E f st : st_State st = StSourceAvailable -> sound (status_of_pass (handleSourceAvailable R hc E f st)).
Proof.
  intros Hs. assert (sound st) as Hst by (apply early_sound; by rewrite Hs). unfold handleSourceAvailable.
  destruct (og_Executable (GetOrigin f)) as [x|]; [done|].
  destruct (build_source f st) as [s|]; [|done]. destruct (builderForBuild _ _ _) as [[b|]|e]; [|done|done].
  destruct (String.eqb _ ""); [by apply build_image_sound|].
  destruct (refuseHostManagerServiceAccount _ _ _ _); [done|by apply build_image_sound].
Qed.

Lemma decodeDeployerURL_nonempty message url : decodeDeployerURL message = Ok url -> url <> "".
Proof. unfold decodeDeployerURL. destruct (Decode message) as [[|c s]|e]; [done| |done]. by intros [= <-]. Qed.

Lemma deployment_finished_sound w f es j p st : sound st -> st_Executable st <> None ->
  sound (status_of_pass (deployment_finished R w f es j p st)).
Proof.
  intros Hs Hx. unfold deployment_finished, markCodegenJobTerminallyFailed.
  destruct (isCodegenJobTerminal j); [done|].
  destruct (decodeDeployerURL _) as [url|e] eqn:Hd; [|by rewrite delete_and_requeue_status].
  split; [done|]. by eapply decodeDeployerURL_nonempty.
Qed.

Lemma deploy_function_sound hc E f st : sound st -> st_Executable st <> None -> sound (status_of_pass (deploy_function R hc E f st)).
Proof.
  intros Hs Hx. unfold deploy_function. destruct (Deploy _ _ _ _ _) as [es [j|e|]]; [|done|done].
  destruct (unfinished j); [by destruct (cleanup _ f _ _)|].
  destruct (GetPodForJob _ j); [by apply deployment_finished_sound|by rewrite delete_and_requeue_status].
Qed.

Lemma handleExecutableAvailable_sound hc E f st : st_State st = StExecutableAvailable ->
  sound (status_of_pass (handleExecutableAvailable R hc E f st)).
Proof.
  intros Hs. unfold handleExecutableAvailable. destruct (st_Executable st) as [x|] eqn:Hx.
  - assert (sound st) as Hst by (unfold sound; by rewrite Hs, Hx). assert (st_Executable st <> None) by (by rewrite Hx).
    destruct (String.eqb _ ""); [by apply deploy_function_sound|].
    destruct (refuseHostManagerServiceAccount _ _ _ _); [done|by apply deploy_function_sound].
  - destruct (og_Executable (GetOrigin f)); [|done]. unfold sound. cbn. by rewrite Hs.
Qed.

Lemma handleFunctionDeployed_sound hc E f st : st_State st = StFunctionDeployed -> sound st ->
  sound (status_of_pass (handleFunctionDeployed R hc E f st)).
Proof.
  intros Hs Hst. unfold handleFunctionDeployed. destruct (Observe _ _ f) as [es [e|]]; [done|].
  unfold sound in Hst. by rewrite Hs in Hst.
Qed.

Lemma handleReady_sound hc E f st : st_State st = StReady -> sound st -> sound (status_of_pass (handleReady R hc E f st)).
Proof.
  intros Hs Hst. unfold handleReady. destruct (st_Executable st) as [x|] eqn:Hx; [|done].
  destruct (found _ && _); [done|]. destruct (Observe _ _ f) as [es [e|]]; [done|].
  destruct (cleanup _ f _ _). unfold sound in Hst. by rewrite Hs in Hst.
Qed.

Lemma handle_sound hc E f st : sound st -> sound (status_of_pass (handle R hc E f st)).
Proof.
  intros Hs. unfold handle. destruct (st_State st) eqn:Hst; [done|..].
  - by apply handlePending_sound.
  - by apply handleOpenAPIValid_sound.
  - by apply handleBuildValid_sound.
  - by apply handleSourceAvailable_sound.
  - by apply handleExecutableAvailable_sound.
  - by apply handleFunctionDeployed_sound.
  - by apply handleReady_sound.
Qed.

(** Attributes say nothing of the state. *)
Lemma set_attributes_state l : forall st,
  let st' := foldl (fun st s => set_attribute (se_Name s ++ ".secret.generation") (FormatInt (se_Generation s)) st) st l in
  st_State st' = st_State st /\ st_Executable st' = st_Executable st /\ st_URL st' = st_URL st /\ st_Source st' = st_Source st /\
  st_Generator st' = st_Generator st /\ st_Conditions st' = st_Conditions st.
Proof. induction l as [|s l IH]; intros st; [done|]. cbn. by destruct (IH (set_attribute (se_Name s ++ ".secret.generation") (FormatInt (se_Generation s)) st)). Qed.

Lemma sound_ext st st' : st_State st' = st_State st -> st_Executable st' = st_Executable st -> st_URL st' = st_URL st ->
  sound st -> sound st'.
Proof. unfold sound. by intros -> -> ->. Qed.

Lemma ResolveSecrets_sound E st : sound st -> sound (ResolveSecrets E st).1.
Proof.
  unfold ResolveSecrets. destruct (en_secrets E) as [[e|l]|]; [done| |done]. cbn. intros Hs.
  destruct (set_attributes_state l st) as (? & ? & ? & _). by eapply sound_ext.
Qed.

Lemma note_adaptor_sound g st : sound st -> sound (note_adaptor g st).
Proof. unfold note_adaptor. intros Hs. by destruct (_ && _). Qed.

Lemma drift_sound E f st : sound st -> sound (drift E f st).1.
Proof.
  intros Hs. unfold drift. destruct (og_Executable _), (st_Source st); try done.
  destruct (en_image E) as [image| |]; try done. cbn.
  destruct (latest_image image), (st_State st) eqn:Hst, (st_Executable st); try done. by destruct (String.eqb _ _).
Qed.

Lemma recheck_codegen_sound f st : sound st -> sound (recheck_codegen f st).
Proof. unfold recheck_codegen. intros Hs. by destruct (_ && _). Qed.

Lemma advance_sound E f host adaptor st : sound st -> sound (status_of_pass (advance R E f host adaptor st)).
Proof.
  intros Hs. unfold advance. apply (note_adaptor_sound (ao_Generation adaptor)) in Hs. apply (ResolveSecrets_sound E) in Hs.
  destruct (ResolveSecrets E _) as [st1 [secrets|e]]; [|done]. cbn in Hs. apply (drift_sound E f) in Hs.
  destruct (drift E f st1) as [st2 [e|]]; [done|]. by apply handle_sound, recheck_codegen_sound.
Qed.

Lemma reconcile_origin_sound E f st : sound (begin f st) -> sound (status_of_pass (reconcile_origin R E f st)).
Proof.
  intros Hs. unfold reconcile_origin. destruct (ResolveHost _ _ _ _) as [cs [|o|host]]; [done|done|].
  destruct (resolve_adaptor _ _ _ _ _) as [cs' [|o|adaptor]]; [done|done|]. by apply advance_sound.
Qed.

(** * Over time *)

Definition routed st : Prop := match st_State st with StFunctionDeployed | StReady => st_URL st <> "" | _ => True end.

(** A function and its status: what holds once its generation is observed. *)
Definition tracked (c : function API * fn_status) : Prop :=
  let '(f, st) := c in
  st_ObservedGeneration st <= fo_Generation f /\ routed st /\
  (fs_Backend (fo_Spec f) = None -> st_ObservedGeneration st = fo_Generation f -> sound st).

(** An author edits the spec, anyone labels the function, the controller
    makes a pass with whatever answers it gets. *)
Inductive lifecycle : function API * fn_status -> function API * fn_status -> Prop :=
  | edited f st labels spec :
      lifecycle (f, st) (mkFunctionObject (fo_Namespace f) (fo_Name f) (fo_Generation f + 1) labels spec, st)
  | labelled f st labels :
      lifecycle (f, st) (mkFunctionObject (fo_Namespace f) (fo_Name f) (fo_Generation f) labels (fo_Spec f), st)
  | reconciled E f st : lifecycle (f, st) (f, status_of_pass (Reconcile R E f st)).

Lemma sound_routed st : sound st -> routed st.
Proof. unfold sound, routed. destruct (st_State st); naive_solver. Qed.

Lemma begin_sound f st : tracked (f, st) -> fs_Backend (fo_Spec f) = None -> sound (begin f st).
Proof.
  intros (Hle & _ & Hs) Hb. unfold begin. rewrite sound_mark.
  destruct (Z.ltb_spec (st_ObservedGeneration st) (fo_Generation f)); [done|]. apply Hs; [done|lia].
Qed.

Lemma origin_tracked E f st : tracked (f, st) -> fs_Backend (fo_Spec f) = None ->
  tracked (f, (write_back E st (set_observed (fo_Generation f) (status_of_pass (reconcile_origin R E f st))) (outcome_of (reconcile_origin R E f st))).1).
Proof.
  intros Ht Hb. pose proof (reconcile_origin_sound E f st (begin_sound _ _ Ht Hb)) as Hs.
  set (st' := set_observed _ _). assert (tracked (f, st')) as Ht'.
  { split; [cbn; lia|]. split; [by apply (sound_routed st')|done]. }
  unfold write_back, write_status. case_bool_decide; [done|]. by destruct (en_write E), (outcome_of _).
Qed.

Lemma service_url_nonempty svc ns p : service_url svc ns p <> "".
Proof. unfold service_url. destruct (be_Scheme svc); done. Qed.

Lemma write_now_status (P : fn_status -> Prop) E stored st o : P stored -> P st -> P (write_now E stored st o).1.
Proof. unfold write_now. case_bool_decide; [done|]. by destruct (en_write E). Qed.

Lemma service_backed_routed E f b st : st_ObservedGeneration st <= fo_Generation f -> routed st ->
  let st' := (reconcileServiceBacked R E f b st).1 in st_ObservedGeneration st' <= fo_Generation f /\ routed st'.
Proof.
  intros Hle Hr. unfold reconcileServiceBacked. destruct b as [svc|]; [|done].
  assert (forall reason msg retain,
    let st' := (markBackendUnready R E f reason msg retain st).1 in st_ObservedGeneration st' <= fo_Generation f /\ routed st') as Hun.
  { intros. apply (write_now_status (fun st' => st_ObservedGeneration st' <= fo_Generation f /\ routed st')); [done|].
    split; [cbn; lia|]. by destruct retain. }
  destruct (checkReferenceNamespace _ _ _); [apply Hun|]. destruct (en_service E _ _) as [ports| |]; [|apply Hun|done].
  destruct (resolveServicePort _ _); [|apply Hun]. destruct (hasReadyEndpoint _) as [[|]|]; [|apply Hun|done].
  apply (write_now_status (fun st' => st_ObservedGeneration st' <= fo_Generation f /\ routed st')); [done|].
  split; [cbn; lia|]. apply service_url_nonempty.
Qed.

Lemma reconciled_tracked E f st : tracked (f, st) -> tracked (f, status_of_pass (Reconcile R E f st)).
Proof.
  intros Ht. unfold Reconcile. destruct (negb _); [done|]. destruct (negb _); [done|].
  destruct (fs_Backend (fo_Spec f)) as [b|] eqn:Hb.
  - destruct Ht as (Hle & Hr & _). pose proof (service_backed_routed E f b st Hle Hr) as [Hle' Hr'].
    destruct (reconcileServiceBacked R E f b st) as [st' o]. split; [done|]. split; [done|]. by rewrite Hb.
  - pose proof (origin_tracked E f st Ht Hb) as Ht'.
    destruct (reconcile_origin R E f st) as [[es st'] o]. cbn in Ht'. by destruct (write_back _ _ _ _).
Qed.

Lemma lifecycle_tracked c c' : lifecycle c c' -> tracked c -> tracked c'.
Proof.
  intros [f st labels spec|f st labels|E f st] Ht; [| |by apply reconciled_tracked].
  - destruct Ht as (Hle & Hr & _). split; [cbn; lia|]. split; [done|]. cbn. lia.
  - done.
Qed.

Definition blank : fn_status := mkStatus StOther ∅ ∅ "" "" "" None None None 0.

(** * What is asked of the cluster *)

Lemma begin_source f st : st_Source (begin f st) = st_Source st.
Proof. unfold begin. by destruct (_ <? _)%Z. Qed.

Lemma ResolveSecrets_source E st : st_Source (ResolveSecrets E st).1 = st_Source st.
Proof.
  unfold ResolveSecrets. destruct (en_secrets E) as [[e|l]|]; try done.
  cbn. by destruct (set_attributes_state l st) as (_ & _ & _ & ? & _).
Qed.

Lemma drift_source E f st : st_Source (drift E f st).1 = st_Source st.
Proof.
  unfold drift. destruct (og_Executable _), (st_Source st) eqn:Hs; try done.
  destruct (en_image E) as [image| |]; try done. cbn.
  destruct (latest_image image), (st_State st), (st_Executable st); try done. by destruct (String.eqb _ _).
Qed.

Lemma recheck_codegen_source f st : st_Source (recheck_codegen f st) = st_Source st.
Proof. unfold recheck_codegen. by destruct (_ && _). Qed.

(** Whatever a pass asks for, the handler of the state it is in asks for,
    and the source of the status is the one stored. *)
Lemma Reconcile_effect E f st e : e ∈ effects_of (Reconcile R E f st) ->
  fs_Backend (fo_Spec f) = None /\ exists hc st1, e ∈ effects_of (handle R hc E f st1) /\ st_Source st1 = st_Source st.
Proof.
  unfold Reconcile. destruct (negb _); [by intros ?%elem_of_nil|]. destruct (negb _); [by intros ?%elem_of_nil|].
  destruct (fs_Backend (fo_Spec f)) as [b|]; [destruct (reconcileServiceBacked R E f b st); by intros ?%elem_of_nil|].
  intros He. split; [done|].
  assert (e ∈ effects_of (reconcile_origin R E f st)) as He'.
  { destruct (reconcile_origin R E f st) as [[es st'] o]. by destruct (write_back _ _ _ _). }
  clear He. revert He'. unfold reconcile_origin.
  destruct (ResolveHost _ _ _ _) as [cs [|o|host]]; [by intros ?%elem_of_nil..|].
  destruct (resolve_adaptor _ _ _ _ _) as [cs' [|o|adaptor]]; [by intros ?%elem_of_nil..|].
  unfold advance. set (st0 := note_adaptor _ _).
  assert (st_Source st0 = st_Source st) as Hs0.
  { unfold st0, note_adaptor. destruct (_ && _); apply begin_source. }
  pose proof (ResolveSecrets_source E st0) as Hs1. destruct (ResolveSecrets E st0) as [st1 [secrets|err]]; [|by intros ?%elem_of_nil].
  pose proof (drift_source E f st1) as Hs2. destruct (drift E f st1) as [st2 [err|]]; [by intros ?%elem_of_nil|].
  intros He'. eexists _, _. split; [exact He'|]. rewrite recheck_codegen_source. cbn [fst] in Hs1, Hs2. congruence.
Qed.

Definition not_host_manager E (sa : string) : Prop :=
  sa <> rc_ServiceAccount R /\ forall labels, en_account E sa = Found labels -> isHostManagerServiceAccount labels = false.

Lemma refused_not E field sa : refuseHostManagerServiceAccount R E field sa = None -> not_host_manager E sa.
Proof.
  unfold refuseHostManagerServiceAccount. destruct (String.eqb_spec sa (rc_ServiceAccount R)); [done|].
  cbn. intros Hr. split; [done|]. intros labels Ha. rewrite Ha in Hr. by destruct (isHostManagerServiceAccount labels).
Qed.

(** What each step may ask for. *)
(** A finished Job of the function's that another has taken the place of;
    a codegen Job only for being of another generation. *)
Definition swept w f (n : string) : Prop := exists app l j,
  wl_jobs w app = inr l /\ j ∈ l /\ jb_Name j = n /\ jb_controlled j = true /\ finished j = true /\
  (app = APP_CODEGEN -> value_at (jb_Labels j) ANNOTATION_GENERATION <> FormatInt (fo_Generation f)).

(** A Job that has run and left nothing to read: it has no pod, or it did
    not end as failed for good. *)
Definition given_up w (n : string) : Prop := exists name j,
  wl_job w name = Found j /\ jb_Name j = n /\ unfinished j = false /\
  forall p, GetPodForJob (wl_pods w n) j = Ok p -> isCodegenJobTerminal j = None.

Definition deletion w f (e : effect) : Prop :=
  match e with DeleteJob n => swept w f n \/ given_up w n | DeleteImage _ => True | _ => False end.

Lemma cleanup_deletes w f app keep e : (app = APP_CODEGEN -> keep = "") -> e ∈ (cleanup w f app keep).1 -> deletion w f e.
Proof.
  intros Hkeep. unfold cleanup, cleanupJobs. destruct (wl_jobs w app) as [err|l] eqn:Hl; [by intros ?%elem_of_nil|].
  set (l' := filter _ l). pose proof (delete_each_elem (wl_delete_job w) l') as Hd. destruct (delete_each _ l') as [names err].
  cbn in Hd |- *. intros (n & -> & Hn)%list_elem_of_fmap. left. destruct (Hd n Hn) as (j & Hj & <-).
  apply list_elem_of_filter in Hj as [Hdel Hj]. unfold deletable in Hdel. apply andb_prop in Hdel as [Hdel Ho]. apply andb_prop in Hdel as [Hc Hf].
  exists app, l, j. split_and!; try done. intros Happ. rewrite (Hkeep Happ) in Ho. unfold obsolete in Ho. cbn in Ho.
  rewrite orb_false_r in Ho. by destruct (String.eqb_spec (value_at (jb_Labels j) ANNOTATION_GENERATION) (FormatInt (fo_Generation f))).
Qed.

Lemma cleanup_deployers w f keep e : e ∈ (cleanup w f APP_DEPLOYER keep).1 -> deletion w f e.
Proof. by apply cleanup_deletes. Qed.

Lemma delete_and_requeue_effects w es j st msg :
  effects_of (delete_and_requeue R w es j st msg) = (es ++ [DeleteJob (jb_Name j)])%list.
Proof. unfold delete_and_requeue. by case_match. Qed.

Lemma source_available_effects es st : effects_of (source_available R es st) = es.
Proof. unfold source_available. by case_match. Qed.

(** A Job found, finished, and given up with the pod it has. *)
Lemma given_up_pod w f name j p : wl_job w name = Found j -> unfinished j = false -> GetPodForJob (wl_pods w (jb_Name j)) j = Ok p ->
  isCodegenJobTerminal j = None -> deletion w f (DeleteJob (jb_Name j)).
Proof. intros Hj Hu Hp Ht. right. exists name, j. by split_and!. Qed.

Lemma given_up_no_pod w f name j err : wl_job w name = Found j -> unfinished j = false -> GetPodForJob (wl_pods w (jb_Name j)) j = Err err ->
  deletion w f (DeleteJob (jb_Name j)).
Proof. intros Hj Hu Hp. right. exists name, j. split_and!; try done. intros p. by rewrite Hp. Qed.

Lemma codegen_finished_effects hc w f es j p l st e : (isCodegenJobTerminal j = None -> deletion w f (DeleteJob (jb_Name j))) ->
  e ∈ effects_of (codegen_finished R hc w f es j p l st) -> e ∈ es \/ deletion w f e.
Proof.
  intros Hgive. unfold codegen_finished, markCodegenJobTerminallyFailed.
  destruct (isCodegenJobTerminal j); [by left|]. specialize (Hgive eq_refl).
  repeat (case_match; simplify_eq/=); rewrite ?delete_and_requeue_effects, ?source_available_effects, ?elem_of_app; try tauto.
  all: intros [?|Hd]; [by left|right]; apply list_elem_of_singleton in Hd; by subst.
Qed.

Lemma generate_found g w f st j : (GetOrCreateGenerateJob g w f st).2 = Ok j -> unfinished j = false -> wl_job w (codegen_name f) = Found j.
Proof.
  unfold GetOrCreateGenerateJob. repeat (case_match; simplify_eq/=); try done; intros [= <-]; done.
Qed.

Lemma generate_effects g w f st e : e ∈ (GetOrCreateGenerateJob g w f st).1 -> exists env, e = CreateJob (codegen_job g f env).
Proof.
  unfold GetOrCreateGenerateJob. repeat (case_match; simplify_eq/=).
  all: rewrite ?elem_of_nil, ?list_elem_of_singleton; try done; intros ->; by eexists.
Qed.

Lemma handleBuildValid_effects hc E f st e : e ∈ effects_of (handleBuildValid R hc E f st) ->
  (exists g env, e = CreateJob (codegen_job g f env)) \/ deletion (en_workloads E) f e.
Proof.
  unfold handleBuildValid. destruct (og_Executable (GetOrigin f)); [by intros ?%elem_of_nil|].
  destruct (shouldSkipCodegen f st); [rewrite source_available_effects; by intros ?%elem_of_nil|].
  destruct (hc_gitSecret hc) as [git|]; [|by intros ?%elem_of_nil].
  destruct (st_Generator st) as [config|]; [|by intros ?%elem_of_nil].
  destruct (ih_Domains (hc_host hc)) as [|domain ds]; [by intros ?%elem_of_nil|].
  set (g := mkGeneratorRun _ _ _ _ _). pose proof (generate_effects g (en_workloads E) f st) as Hg.
  pose proof (generate_found g (en_workloads E) f st) as Hfound.
  destruct (GetOrCreateGenerateJob g _ f st) as [es [j|err]]; cbn [fst snd] in Hg, Hfound;
    [|intros He; left; destruct (Hg e He) as [env ->]; by eexists _, _].
  assert (e ∈ es \/ deletion (en_workloads E) f e -> (exists g env, e = CreateJob (codegen_job g f env)) \/ deletion (en_workloads E) f e) as Hout.
  { intros [He|?]; [left; destruct (Hg e He) as [env ->]; by eexists _, _|by right]. }
  destruct (unfinished j) eqn:Hu.
  - pose proof (fun e => cleanup_deletes (en_workloads E) f APP_CODEGEN "" e (fun _ => eq_refl)) as Hc. destruct (cleanup _ f _ _) as [ds' err].
    intros [?|?%Hc]%elem_of_app; apply Hout; tauto.
  - specialize (Hfound j eq_refl Hu). destruct (GetPodForJob _ j) as [p|err] eqn:Hp.
    + intros Hx%codegen_finished_effects; [by apply Hout|]. intros Ht. by eapply given_up_pod.
    + rewrite delete_and_requeue_effects. intros [?|Hd%list_elem_of_singleton]%elem_of_app; apply Hout; [by left|right].
      subst. by eapply given_up_no_pod.
Qed.

Lemma image_built_effects es name f image st : effects_of (image_built R es name f image st) = es.
Proof. unfold image_built, fail_with, executable_available. by repeat (case_match; simplify_eq/=). Qed.

Lemma kpack_effects E f b e : e ∈ (GetOrCreateKPackImage E f b).1 ->
  exists o there, e = PatchImage o /\
    desired_image b (fs_Host (fo_Spec f)) (fo_Namespace f) (fo_Name f) (fo_Generation f) there = Ok o.
Proof.
  unfold GetOrCreateKPackImage. repeat (case_match; simplify_eq/=).
  all: rewrite ?elem_of_nil, ?list_elem_of_singleton; try done; intros ->; by eexists _, _.
Qed.

Lemma build_image_effects hc E f s b sa st e : e ∈ effects_of (build_image R hc E f s b sa st) ->
  (exists o there, e = PatchImage o /\
    desired_image (mkBuild (ih_ImageRegistry (hc_host hc)) (image_prefix R f) sa (src_Repository s) (src_Revision s) (src_Path s) b)
      (fs_Host (fo_Spec f)) (fo_Namespace f) (fo_Name f) (fo_Generation f) there = Ok o) \/ deletion (en_workloads E) f e.
Proof.
  unfold build_image. set (bl := mkBuild _ _ _ _ _ _ _). pose proof (kpack_effects E f bl) as Hk.
  destruct (GetOrCreateKPackImage E f bl) as [es [image|err]]; cbn [fst] in Hk.
  - rewrite image_built_effects. intros He. left. by apply Hk.
  - destruct (Contains err _); [|intros He; left; by apply Hk].
    intros [He|Hd%list_elem_of_singleton]%elem_of_app; [left; by apply Hk|right; by subst].
Qed.

Lemma handleSourceAvailable_effects hc E f st e : e ∈ effects_of (handleSourceAvailable R hc E f st) ->
  (exists s b sa o there, build_source f st = Some s /\
    builderForBuild (fa_DefaultBuilderGenerator (hc_adaptor hc)) (fa_Builders (hc_adaptor hc)) (src_Builder s) = Ok (Some b) /\
    (bd_ServiceAccountName b = "" /\ sa = rc_ServiceAccount R \/ sa = bd_ServiceAccountName b /\ not_host_manager E sa) /\
    e = PatchImage o /\
    desired_image (mkBuild (ih_ImageRegistry (hc_host hc)) (image_prefix R f) sa (src_Repository s) (src_Revision s) (src_Path s) b)
      (fs_Host (fo_Spec f)) (fo_Namespace f) (fo_Name f) (fo_Generation f) there = Ok o) \/ deletion (en_workloads E) f e.
Proof.
  unfold handleSourceAvailable. destruct (og_Executable (GetOrigin f)); [by intros ?%elem_of_nil|].
  destruct (build_source f st) as [s|]; [|by intros ?%elem_of_nil].
  destruct (builderForBuild _ _ _) as [[b|]|err] eqn:Hb; [|by intros ?%elem_of_nil..].
  destruct (String.eqb_spec (bd_ServiceAccountName b) "") as [Hsa|Hsa].
  - intros [(o & there & He & Hd)|?]%build_image_effects; [left|by right].
    exists s, b, (rc_ServiceAccount R), o, there. split_and!; [done|done|by left|done|done].
  - destruct (refuseHostManagerServiceAccount _ _ _ _) as [msg|] eqn:Hr; [by intros ?%elem_of_nil|].
    apply refused_not in Hr. intros [(o & there & He & Hd)|?]%build_image_effects; [left|by right].
    exists s, b, (bd_ServiceAccountName b), o, there. split_and!; [done|done|by right|done|done].
Qed.

Lemma Deploy_effects d w f x g e : e ∈ (Deploy d w f x g).1 -> exists name env image domain, e = CreateJob (deployer_job d f name env) /\
  deployer_env d f image domain = Ok env.
Proof.
  unfold Deploy. repeat (case_match; simplify_eq/=).
  all: rewrite ?elem_of_nil, ?list_elem_of_singleton; try done; intros ->; by eexists _, _, _, _.
Qed.

Lemma Deploy_found d w f x g j : (Deploy d w f x g).2 = DeployJob j -> unfinished j = false -> exists name, wl_job w name = Found j.
Proof. unfold Deploy. repeat (case_match; simplify_eq/=); try done; intros [= <-]; by eauto. Qed.

Lemma deployment_finished_effects w f es j p st e : (isCodegenJobTerminal j = None -> deletion w f (DeleteJob (jb_Name j))) ->
  e ∈ effects_of (deployment_finished R w f es j p st) -> e ∈ es \/ deletion w f e.
Proof.
  intros Hgive. unfold deployment_finished, markCodegenJobTerminallyFailed. destruct (isCodegenJobTerminal j).
  - intros [?|?%cleanup_deployers]%elem_of_app; tauto.
  - specialize (Hgive eq_refl). destruct (decodeDeployerURL _); [by left|]. rewrite delete_and_requeue_effects.
    intros [?|Hd%list_elem_of_singleton]%elem_of_app; [by left|right; by subst].
Qed.

Lemma deploy_function_effects hc E f st e : e ∈ effects_of (deploy_function R hc E f st) ->
  (exists name env image domain, e = CreateJob (deployer_job (deployer R hc) f name env) /\
     deployer_env (deployer R hc) f image domain = Ok env) \/ deletion (en_workloads E) f e.
Proof.
  unfold deploy_function. pose proof (Deploy_found (deployer R hc) (en_workloads E) f (st_Executable st) (adaptor_generation st)) as Hfound.
  pose proof (Deploy_effects (deployer R hc) (en_workloads E) f (st_Executable st) (adaptor_generation st)) as Hd.
  destruct (Deploy _ _ _ _ _) as [es [j|err|]]; cbn [fst snd] in Hd, Hfound; [|intros ?; left; by apply Hd..].
  destruct (unfinished j) eqn:Hu.
  - pose proof (cleanup_deployers (en_workloads E) f (jb_Name j)) as Hc. destruct (cleanup _ f _ _) as [ds err].
    intros [?|?%Hc]%elem_of_app; [left; by apply Hd|by right].
  - destruct (Hfound j eq_refl Hu) as [name Hj]. destruct (GetPodForJob _ j) as [p|err] eqn:Hp.
    + intros Hx%deployment_finished_effects; [destruct Hx; [left; by apply Hd|by right]|]. intros Ht. by eapply given_up_pod.
    + rewrite delete_and_requeue_effects. intros [?|Hx%list_elem_of_singleton]%elem_of_app; [left; by apply Hd|right].
      subst. by eapply given_up_no_pod.
Qed.

(** Neither makes a job or an image. *)
Definition observing (e : effect) : Prop :=
  match e with LabelFunction _ | CreateCron _ | UpdateCron _ | DeleteCron _ => True | _ => False end.

Lemma and_then_elem a b e : e ∈ (and_then a b).1 -> e ∈ a.1 \/ e ∈ b.1.
Proof. destruct a as [es [err|]]; cbn; [by left|]. by intros ?%elem_of_app. Qed.

Lemma Observe_effects d w f e : e ∈ (Observe d w f).1 -> observing e.
Proof.
  unfold Observe. destruct (fa_Observer _) as [ob|]; [|by intros ?%elem_of_nil].
  intros [He|[He|He]%and_then_elem]%and_then_elem; revert He;
    unfold markObserved, reconcileHostObserver, retireLegacyObserver; repeat (case_match; simplify_eq/=);
    rewrite ?elem_of_nil, ?list_elem_of_singleton; try done; by intros ->.
Qed.

Lemma handle_effects hc E f st e : e ∈ effects_of (handle R hc E f st) ->
  match e with
  | CreateJob q =>
      (exists g env, q = codegen_job g f env) \/
      (exists name env image domain, q = deployer_job (deployer R hc) f name env /\
         deployer_env (deployer R hc) f image domain = Ok env /\
         (fs_ServiceAccountName (fo_Spec f) = "" \/ not_host_manager E (fs_ServiceAccountName (fo_Spec f))))
  | PatchImage o =>
      exists s b sa there, build_source f st = Some s /\
        builderForBuild (fa_DefaultBuilderGenerator (hc_adaptor hc)) (fa_Builders (hc_adaptor hc)) (src_Builder s) = Ok (Some b) /\
        (bd_ServiceAccountName b = "" /\ sa = rc_ServiceAccount R \/ sa = bd_ServiceAccountName b /\ not_host_manager E sa) /\
        desired_image (mkBuild (ih_ImageRegistry (hc_host hc)) (image_prefix R f) sa (src_Repository s) (src_Revision s) (src_Path s) b)
          (fs_Host (fo_Spec f)) (fo_Namespace f) (fo_Name f) (fo_Generation f) there = Ok o
  | DeleteJob n => swept (en_workloads E) f n \/ given_up (en_workloads E) n
  | _ => True
  end.
Proof.
  assert (deletion (en_workloads E) f e \/ observing e ->
    match e with
    | CreateJob _ | PatchImage _ => False
    | DeleteJob n => swept (en_workloads E) f n \/ given_up (en_workloads E) n
    | _ => True
    end) as Hn by (by destruct e; intros [|]).
  unfold handle. destruct (st_State st); cbn [effects_of fst snd].
  - by intros ?%elem_of_nil.
  - unfold handlePending. destruct (ih_Domains _); by intros ?%elem_of_nil.
  - unfold handleOpenAPIValid, build_valid, fail_with. repeat (case_match; simplify_eq/=); by intros ?%elem_of_nil.
  - intros [(g & env & ->)|?]%handleBuildValid_effects; [left; by eexists _, _|]. destruct e; try done; tauto.
  - intros [(s & b & sa & o & there & ? & ? & ? & -> & ?)|?]%handleSourceAvailable_effects; [by exists s, b, sa, there|]. destruct e; try done; tauto.
  - unfold handleExecutableAvailable. destruct (st_Executable st) as [x|]; [|destruct (og_Executable _); by intros ?%elem_of_nil].
    destruct (String.eqb_spec (fs_ServiceAccountName (fo_Spec f)) "") as [Hsa|Hsa].
    + intros [(name & env & image & domain & -> & Hd)|?]%deploy_function_effects; [right; exists name, env, image, domain; tauto|].
      destruct e; try done; tauto.
    + destruct (refuseHostManagerServiceAccount _ _ _ _) eqn:Hr; [by intros ?%elem_of_nil|]. apply refused_not in Hr.
      intros [(name & env & image & domain & -> & Hd)|?]%deploy_function_effects; [right; exists name, env, image, domain; tauto|].
      destruct e; try done; tauto.
  - unfold handleFunctionDeployed. pose proof (Observe_effects (deployer R hc) (en_workloads E) f) as Ho.
    destruct (Observe _ _ f) as [es [err|]]; intros ?%Ho; destruct e; try done; tauto.
  - unfold handleReady. destruct (st_Executable st) as [x|]; [|by intros ?%elem_of_nil].
    destruct (found _ && _); [by intros ?%elem_of_nil|]. pose proof (Observe_effects (deployer R hc) (en_workloads E) f) as Ho.
    destruct (Observe _ _ f) as [es [err|]]; [intros ?%Ho; destruct e; try done; tauto|].
    pose proof (cleanup_deployers (en_workloads E) f (JobName f (ex_Image x) (adaptor_generation st))) as Hc.
    destruct (cleanup _ f _ _) as [ds err]. intros [?%Ho|?%Hc]%elem_of_app; destruct e; try done; tauto.
Qed.
End PipelineFacts.

(** C16: Whatever its author edits and whatever each pass is answered, a function
    that is said to be deployed or ready has a URL; and once its controller has
    observed the generation it is at, one built from its origin and said to
    have an executable has it. *)
Theorem status_says_so {API} `{!Sha256, !KubernetesJSON, !FunctionYAML API, !APIJSON API, !Conditions, !Reasons, !StateText, !SecretList,
    !Unstructured, !Decoding codegen_results, !Decoding string} R (f : function API) f' st' :
  0 < fo_Generation f -> rtc (lifecycle R) (f, blank) (f', st') ->
  (match st_State st' with StFunctionDeployed | StReady => st_URL st' <> "" | _ => True end) /\
  (fs_Backend (fo_Spec f') = None -> st_ObservedGeneration st' = fo_Generation f' ->
   match st_State st' with StExecutableAvailable | StFunctionDeployed | StReady => st_Executable st' <> None | _ => True end).
Proof.
  intros Hg Hsteps. assert (tracked (f', st')) as (_ & Hr & Hs).
  { assert (tracked (f, blank)) as Ht by (split; [cbn; lia|split; [done|cbn; lia]]).
    revert Ht. generalize (f, blank), (f', st'), Hsteps. clear.
    induction 1 as [|c1 c2 c3 Hstep _ IH]; [done|]. intros Ht. apply IH. by eapply lifecycle_tracked. }
  split; [exact Hr|]. intros Hb Ho. specialize (Hs Hb Ho). unfold sound in Hs. destruct (st_State st'); naive_solver.
Qed.

(** * Whose rights *)

Section Rights.
Context {API : Type} `{!Sha256} `{!KubernetesJSON} `{!FunctionYAML API} `{!APIJSON API}.
Context `{!Conditions} `{!Reasons} `{!StateText} `{!SecretList} `{!Unstructured}.
Context `{!Decoding codegen_results} `{!Decoding string}.

Lemma codegen_token g (f : function API) env :
  jq_AutomountToken (codegen_job g f env) = false /\ jq_ServiceAccountName (codegen_job g f env) = "".
Proof. done. Qed.
End Rights.


(** * What is built *)

(** An image is built from the revision the status pins whenever it pins one,
    whatever branch the spec names and whatever the image was built from
    before; else from what the spec says. *)
Theorem build_is_pinned {API} `{!Sha256, !KubernetesJSON, !FunctionYAML API, !APIJSON API, !Conditions, !Reasons, !StateText, !SecretList,
    !Unstructured, !Decoding codegen_results, !Decoding string} R E (f : function API) st o :
  PatchImage o ∈ effects_of (Reconcile R E f st) ->
  exists s, (match st_Source st with
             | Some p => if String.eqb (src_Revision p) "" then og_Source (GetOrigin f) = Some s else s = p
             | None => og_Source (GetOrigin f) = Some s
             end) /\
    NestedString o ["spec"; "source"; "git"; "url"] = Some (src_Repository s) /\
    NestedString o ["spec"; "source"; "git"; "revision"] = Some (src_Revision s) /\
    NestedString o ["spec"; "source"; "subPath"] = Some (src_Path s).
Proof.
  intros (Hb & hc & st1 & He & Hsrc)%Reconcile_effect. apply handle_effects in He as (s & b & sa & there & Hs & _ & _ & Hd).
  apply image_is_the_build in Hd as (Hu & Hr & Hp & _). cbn in Hu, Hr, Hp.
  unfold build_source in Hs. rewrite Hsrc in Hs. destruct (st_Source st) as [p|].
  - destruct (String.eqb (src_Revision p) "").
    + exists s. destruct (og_Source (GetOrigin f)); [|done]. by injection Hs as ->.
    + exists p. destruct (og_Source (GetOrigin f)); injection Hs as <-; done.
  - exists s. destruct (og_Source (GetOrigin f)); [|done]. by injection Hs as ->.
Qed.

(** * What is deleted *)

(** A pass deletes a Job of the function's only when it has finished and
    another has taken its place (a codegen Job only when it is of another
    generation), or when it has run and left nothing to read. A Job that failed
    for good and whose pod is there is kept to be inspected. *)
Theorem deletions_justified {API} `{!Sha256, !KubernetesJSON, !FunctionYAML API, !APIJSON API, !Conditions, !Reasons, !StateText, !SecretList,
    !Unstructured, !Decoding codegen_results, !Decoding string} R E (f : function API) st n :
  DeleteJob n ∈ effects_of (Reconcile R E f st) ->
  (exists app l j, wl_jobs (en_workloads E) app = inr l /\ j ∈ l /\ jb_Name j = n /\ jb_controlled j = true /\ finished j = true /\
     (app = APP_CODEGEN -> value_at (jb_Labels j) ANNOTATION_GENERATION <> FormatInt (fo_Generation f))) \/
  (exists name j, wl_job (en_workloads E) name = Found j /\ jb_Name j = n /\ unfinished j = false /\
     forall p, GetPodForJob (wl_pods (en_workloads E) n) j = Ok p -> isCodegenJobTerminal j = None).
Proof. intros (_ & hc & st1 & He & _)%Reconcile_effect. by apply handle_effects in He. Qed.

(** * Getting ready *)

Section Progress.
Context {API : Type} `{!Sha256} `{!KubernetesJSON} `{!FunctionYAML API} `{!APIJSON API}.
Context `{!Conditions} `{!Reasons} `{!StateText} `{!SecretList} `{!Unstructured}.
Context `{!Decoding codegen_results} `{!Decoding string}.
Context (R : reconciler) (f : function API) (host : InternalHost) (adaptor : adaptor_object) (secs : list secret) (latest : string).

Notation generation := (FormatInt (ao_Generation adaptor)).
Notation hc := (context_of (ao_Spec adaptor) host secs).

(** The image the function ends up running: the one it names, or the one
    kpack has built. *)
Definition target : string := match og_Executable (GetOrigin f) with Some x => ex_Image x | None => latest end.

(** A Job that has run, and the message its pod left. *)
Definition left_message (w : workloads) (container name message : string) : Prop := exists j p,
  wl_job w name = Found j /\ unfinished j = false /\ GetPodForJob (wl_pods w (jb_Name j)) j = Ok p /\
  isCodegenJobTerminal j = None /\ terminationMessage container (pd_Containers p) = message.

(** The generator that [handleOpenAPIValid] finds. *)
Definition generator_known : Prop :=
  og_Generator (GetOrigin f) <> None \/
  exists b l, parseBuilderGenerator (fa_DefaultBuilderGenerator (ao_Spec adaptor)) = Ok (b, l) /\
    List.find (fun g => String.eqb (gn_Language g) l) (fa_Generators (ao_Spec adaptor)) <> None.

(** Every image asked of a builder has been built. *)
Definition image_done (E : environment) (b : Builder) : Prop := forall bl, bl_Builder bl = b -> exists o image tags,
  GetOrCreateKPackImage E f bl = ([PatchImage o], Ok image) /\
  inspectKPackImageStatus (image_generation image) image = (true, None) /\
  NestedString image ["status"; "latestImage"] = Some latest /\ image_tags image = Some tags.

(** The cluster a pass works in is one where everything asked for has been
    done: the host, the adaptor and the Secrets can be read, the source is
    generated, the image built and the function deployed, the observer can
    be set up, and the status is stored. *)
Record helpful (E : environment) : Prop := {
  hp_host : exists cs, en_host E = Found (mkReferred host cs);
  hp_domains : ih_Domains host <> [];
  hp_adaptor : forall cs, resolve_adaptor R E host (fo_Namespace f) cs = (cs, Resolved adaptor);
  hp_secrets : en_secrets E = Some (inr secs);
  hp_write : en_write E = Written;
  hp_latest : match en_image E with
              | Found image => forall l, latest_image image = Some l -> l = latest
              | NotFound _ => True
              | Unavailable _ => False
              end;
  hp_generated : og_Source (GetOrigin f) = None -> og_Executable (GetOrigin f) = None ->
    hc_gitSecret hc <> None /\ generator_known /\
    (exists b l, parseBuilderGenerator (fa_DefaultBuilderGenerator (ao_Spec adaptor)) = Ok (b, l)) /\
    exists m r, left_message (en_workloads E) "results" (codegen_name f) m /\ Decode (A := codegen_results) m = Ok r /\ cg_revision r <> "";
  hp_built : og_Executable (GetOrigin f) = None ->
    exists b, builderForBuild (fa_DefaultBuilderGenerator (ao_Spec adaptor)) (fa_Builders (ao_Spec adaptor))
                (s ← og_Source (GetOrigin f); src_Builder s) = Ok (Some b) /\
      (bd_ServiceAccountName b = "" \/
       refuseHostManagerServiceAccount R E "spec.origin.source.builder.serviceAccountName" (bd_ServiceAccountName b) = None) /\
      image_done E b;
  hp_account : fs_ServiceAccountName (fo_Spec f) = "" \/
    refuseHostManagerServiceAccount R E "spec.serviceAccountName" (fs_ServiceAccountName (fo_Spec f)) = None;
  hp_deployed : exists m url, left_message (en_workloads E) "deployer" (JobName f target generation) m /\ decodeDeployerURL m = Ok url;
  hp_observed : (Observe (deployer R hc) (en_workloads E) f).2 = None;
}.

(** What the controller is for, and what the author asked. *)
Definition ours : Prop :=
  fo_Namespace f = rc_ControllerNamespace R /\ fs_Host (fo_Spec f) = rc_FocalHost R /\
  fs_Backend (fo_Spec f) = None /\ sourceRegenerate (og_Source (GetOrigin f)) = false.

(** The status as it is handed to a handler. *)
Definition noted (st : fn_status) : fn_status :=
  note_adaptor (ao_Generation adaptor) (set_attribute "host.generation" (FormatInt (ih_Generation host)) (begin f st)).
Definition prepared (E : environment) (st : fn_status) : fn_status :=
  recheck_codegen f (drift E f (ResolveSecrets E (noted st)).1).1.

Lemma pass_status E st : ours -> helpful E ->
  status_of_pass (Reconcile R E f st) = set_observed (fo_Generation f) (status_of_pass (handle R hc E f (prepared E st))) /\
  outcome_of (Reconcile R E f st) = outcome_of (handle R hc E f (prepared E st)).
Proof.
  intros (Hns & Hfocal & Hb & _) Hp. unfold Reconcile. rewrite Hns, Hfocal, !String.eqb_refl, Hb. cbn [negb].
  assert (reconcile_origin R E f st = handle R hc E f (prepared E st)) as ->.
  { unfold reconcile_origin. destruct (hp_host E Hp) as [cs ->]. cbn [ResolveHost andb rf_object].
    rewrite (hp_adaptor E Hp). unfold advance, prepared, noted, ResolveSecrets. cbn zeta. rewrite (hp_secrets E Hp). cbn [fst snd].
    set (st2 := foldl _ _ _). unfold drift. pose proof (hp_latest E Hp) as Hl.
    destruct (og_Executable (GetOrigin f)), (st_Source st2); try reflexivity. by destruct (en_image E). }
  destruct (handle R hc E f (prepared E st)) as [[es st'] o]. unfold write_back, write_status. rewrite (hp_write E Hp).
  case_bool_decide as Heq; cbn; [|done]. by rewrite <- Heq.
Qed.

(** * What a handler is handed *)

Lemma HasSuffix_append a t : HasSuffix (a ++ t) t = true.
Proof.
  induction a as [|c a IH].
  - destruct t; [done|]. cbn [String.append HasSuffix]. by rewrite String.eqb_refl.
  - cbn [String.append HasSuffix]. rewrite IH. apply orb_true_r.
Qed.

Lemma secret_attributes k : HasSuffix k ".secret.generation" = false -> forall l st,
  attribute (foldl (fun st s => set_attribute (se_Name s ++ ".secret.generation") (FormatInt (se_Generation s)) st) st l) k = attribute st k.
Proof.
  intros Hk l. induction l as [|s l IH]; intros st; [done|]. cbn [foldl]. rewrite IH. unfold attribute, value_at, set_attribute. cbn [st_Attributes].
  rewrite lookup_insert_ne; [done|]. intros Heq. rewrite <- Heq, HasSuffix_append in Hk. done.
Qed.

Lemma set_attribute_ne k k' v st : k <> k' -> attribute (set_attribute k v st) k' = attribute st k'.
Proof. intros Hne. unfold attribute, value_at, set_attribute. cbn [st_Attributes]. by rewrite lookup_insert_ne. Qed.

Lemma set_attribute_eq k v st : attribute (set_attribute k v st) k = v.
Proof. unfold attribute, value_at, set_attribute. cbn [st_Attributes]. by rewrite lookup_insert_eq. Qed.

Lemma set_state_attribute s st k : attribute (set_state s st) k = attribute st k.
Proof. done. Qed.

Lemma begin_attribute st k : attribute (begin f st) k = attribute st k.
Proof. unfold begin. by destruct (_ <? _)%Z. Qed.

Lemma noted_attribute k st : k <> "host.generation" -> k <> "faasAdaptor.generation" -> attribute (noted st) k = attribute st k.
Proof.
  intros Hk1 Hk2. unfold noted, note_adaptor. rewrite set_attribute_ne by done.
  destruct (_ && _); rewrite ?set_state_attribute, set_attribute_ne, begin_attribute; done.
Qed.

Lemma noted_adaptor st : adaptor_generation (noted st) = generation.
Proof. apply set_attribute_eq. Qed.

Lemma drift_same E st : let st' := (drift E f st).1 in
  st_Executable st' = st_Executable st /\ st_Source st' = st_Source st /\ st_Generator st' = st_Generator st /\
  st_Attributes st' = st_Attributes st /\ (st_State st' = st_State st \/ st_State st = StReady).
Proof.
  cbn zeta. unfold drift. destruct (og_Executable _); [by split_and!; try left|].
  destruct (st_Source st) eqn:Hs; [|by split_and!; try left].
  destruct (en_image E) as [image| |]; try by split_and!; try left. cbn.
  destruct (latest_image image); [|by split_and!; try left].
  destruct (st_State st) eqn:Hst; try by split_and!; try left.
  destruct (st_Executable st) eqn:Hx; [|by split_and!; try left].
  destruct (String.eqb _ _); split_and!; try done; by right.
Qed.

Lemma recheck_same st : let st' := recheck_codegen f st in
  st_Executable st' = st_Executable st /\ st_Source st' = st_Source st /\ st_Generator st' = st_Generator st /\
  st_Attributes st' = st_Attributes st /\ (st_State st' = st_State st \/ st_State st = StReady).
Proof.
  cbn zeta. unfold recheck_codegen. case_bool_decide; cbn [andb]; [|by split_and!; try left].
  destruct (_ && _); split_and!; try done; [by right|by left].
Qed.

Lemma noted_same st : st_Executable (noted st) = st_Executable st /\ st_Source (noted st) = st_Source st /\
  st_Generator (noted st) = st_Generator st.
Proof. unfold noted, note_adaptor, begin. by destruct (_ <? _)%Z, (_ && _). Qed.

(** The state a pass starts from: that of a function not seen at this
    generation is Pending, and OpenAPIValid when the adaptor has changed. *)
Definition entered (st : fn_status) : fn_state :=
  if negb (String.eqb (adaptor_generation st) "") && negb (String.eqb (adaptor_generation st) generation) then StOpenAPIValid
  else if (st_ObservedGeneration st <? fo_Generation f)%Z then StPending else st_State st.

Lemma noted_state st : st_State (noted st) = entered st.
Proof.
  unfold noted, note_adaptor, entered. unfold adaptor_generation at 1 2. rewrite set_attribute_ne by done. rewrite begin_attribute.
  fold (adaptor_generation st). destruct (_ && _); [done|]. unfold begin. by destruct (_ <? _)%Z.
Qed.

Lemma prepared_same E st : en_secrets E = Some (inr secs) -> let st' := prepared E st in
  st_Executable st' = st_Executable st /\ st_Source st' = st_Source st /\ st_Generator st' = st_Generator st /\
  adaptor_generation st' = generation /\ attribute st' AttrCodegenInputAPIHash = attribute st AttrCodegenInputAPIHash /\
  (st_State st' = entered st \/ entered st = StReady).
Proof.
  intros Hs. cbn zeta. unfold prepared.
  destruct (noted_same st) as (N1 & N2 & N3).
  set (st2 := (ResolveSecrets E (noted st)).1).
  assert (st_State st2 = st_State (noted st) /\ st_Executable st2 = st_Executable (noted st) /\ st_Source st2 = st_Source (noted st) /\
          st_Generator st2 = st_Generator (noted st)) as (S0 & S1 & S2 & S3).
  { unfold st2, ResolveSecrets. rewrite Hs. cbn [fst]. destruct (set_attributes_state secs (noted st)) as (? & ? & ? & ? & ? & ?). done. }
  assert (forall k, HasSuffix k ".secret.generation" = false -> attribute st2 k = attribute (noted st) k) as S4.
  { intros k Hk. unfold st2, ResolveSecrets. rewrite Hs. cbn [fst]. by apply secret_attributes. }
  destruct (drift_same E st2) as (D1 & D2 & D3 & D4 & D5). set (st3 := (drift E f st2).1) in *.
  destruct (recheck_same st3) as (C1 & C2 & C3 & C4 & C5).
  split_and!; [congruence..| | |].
  - unfold adaptor_generation, attribute. rewrite C4, D4. fold (attribute st2 "faasAdaptor.generation"). rewrite S4 by done. apply noted_adaptor.
  - unfold attribute. rewrite C4, D4. fold (attribute st2 AttrCodegenInputAPIHash). rewrite S4 by done. by apply noted_attribute.
  - rewrite <- noted_state. destruct D5, C5; (try (left; congruence)); right; congruence.
Qed.

(** * One state to the next *)

Definition rank (s : fn_state) : nat :=
  match s with
  | StOther | StPending => 6 | StOpenAPIValid => 5 | StBuildValid => 4 | StSourceAvailable => 3
  | StExecutableAvailable => 2 | StFunctionDeployed => 1 | StReady => 0
  end.

(** What a status on its way holds, so that the next handler can go on. *)
Definition on_course (st : fn_status) : Prop :=
  adaptor_generation st = generation /\
  (og_Source (GetOrigin f) = None \/ attribute st AttrCodegenInputAPIHash = "") /\
  match st_State st with
  | StOther => False
  | StPending | StOpenAPIValid => True
  | StBuildValid => og_Executable (GetOrigin f) = None /\ og_Source (GetOrigin f) = None /\ st_Generator st <> None
  | StSourceAvailable => og_Executable (GetOrigin f) = None /\
      (og_Source (GetOrigin f) <> None \/ exists s, st_Source st = Some s /\ src_Revision s <> "")
  | StExecutableAvailable | StFunctionDeployed | StReady => exists x, st_Executable st = Some x /\ ex_Image x = target
  end.

(** A pass that leaves the status on its way and further along. *)
Definition further (s : fn_state) (p : pass) : Prop :=
  on_course (status_of_pass p) /\ (rank (st_State (status_of_pass p)) < rank s)%nat.

Lemma handlePending_further E st : helpful E -> on_course st -> further StPending (handlePending R hc f st).
Proof.
  intros Hp (Ha & Hh & _). unfold handlePending. cbn [hc_host context_of]. pose proof (hp_domains E Hp).
  destruct (ih_Domains host); [done|]. split; [by split_and!|]. cbn. lia.
Qed.

Lemma build_valid_further g st : og_Executable (GetOrigin f) = None -> og_Source (GetOrigin f) = None -> on_course st ->
  further StOpenAPIValid (build_valid R g st).
Proof. intros Hx Hs (Ha & Hh & _). split; [by split_and!|]. cbn. lia. Qed.

Lemma handleOpenAPIValid_further E st : ours -> helpful E -> on_course st -> further StOpenAPIValid (handleOpenAPIValid R hc f st).
Proof.
  intros (_ & _ & _ & Hregen) Hp Hc. pose proof Hc as (Ha & Hh & _). unfold handleOpenAPIValid.
  destruct (og_Executable (GetOrigin f)) as [x|] eqn:Hx.
  { split; [|cbn; lia]. split_and!; [done..|]. cbn. exists x. split; [done|]. unfold target. by rewrite Hx. }
  rewrite Hregen. destruct (og_Source (GetOrigin f)) as [src|] eqn:Hs; cbn [found negb andb].
  { split; [|cbn; lia]. split_and!; [done|right; by destruct Hh|]. cbn. split; [done|]. left. by rewrite Hs. }
  destruct (hp_generated E Hp Hs Hx) as (_ & Hg & _).
  destruct (og_Generator (GetOrigin f)) as [g|] eqn:Hog; [by apply build_valid_further|].
  destruct Hg as [?|(b & l & Hparse & Hfind)]; [congruence|]. cbn [hc_adaptor context_of]. rewrite Hparse.
  destruct (List.find _ _) as [g|]; [by apply build_valid_further|done].
Qed.

Lemma recordCodegenInputs_adaptor st : adaptor_generation (recordCodegenInputs f st) = adaptor_generation st.
Proof.
  unfold recordCodegenInputs, adaptor_generation. destruct (st_Generator _); rewrite ?set_attribute_ne; done.
Qed.

Lemma source_available_further es s st : og_Executable (GetOrigin f) = None -> og_Source (GetOrigin f) = None ->
  st_Source st = Some s -> src_Revision s <> "" -> adaptor_generation st = generation ->
  further StBuildValid (source_available R es st).
Proof.
  intros Hx Hs Hsrc Hr Ha. unfold source_available. rewrite Hsrc. split; [|cbn; lia].
  split_and!; [done|by left|]. cbn. split; [done|]. right. by exists s.
Qed.

Lemma handleBuildValid_further E st : ours -> helpful E -> st_State st = StBuildValid -> on_course st ->
  further StBuildValid (handleBuildValid R hc E f st).
Proof.
  intros Hours Hp Hst (Ha & Hh & Hc). rewrite Hst in Hc. destruct Hc as (Hx & Hs & Hg).
  destruct (hp_generated E Hp Hs Hx) as (Hgit & _ & (db & dl & Hparse) & m & r & (j & p & Hj & Hu & Hpod & Hterm & Hm) & Hdec & Hrev).
  unfold handleBuildValid. rewrite Hx. unfold shouldSkipCodegen. rewrite Hs.
  destruct (hc_gitSecret hc) as [git|]; [|done]. destruct (st_Generator st) as [config|]; [|done].
  pose proof (hp_domains E Hp) as Hd. cbn [hc_host context_of]. destruct (ih_Domains host) as [|domain ds]; [done|].
  unfold GetOrCreateGenerateJob. rewrite Hj, Hu, Hpod. unfold codegen_finished. rewrite Hterm, Hm, Hdec.
  cbn [hc_adaptor context_of]. rewrite Hparse.
  eapply source_available_further; [exact Hx|exact Hs|reflexivity|exact Hrev|].
  rewrite <- Ha. exact (recordCodegenInputs_adaptor (set_source (Some (mkSource (cg_repository r) (cg_revision r) (cg_path r) None None)) st)).
Qed.

Lemma build_image_further E s b sa st : image_done E b -> og_Executable (GetOrigin f) = None -> on_course st ->
  further StSourceAvailable (build_image R hc E f s b sa st).
Proof.
  intros Hk Hx (Ha & Hh & _). unfold build_image. set (bl := mkBuild _ _ _ _ _ _ b).
  destruct (Hk bl eq_refl) as (o & image & tags & -> & Hi & Hl & Ht).
  unfold image_built. rewrite Hi, Hl, Ht. split; [|cbn; lia]. split_and!.
  - unfold adaptor_generation. change (attribute (set_attribute "image.tags" tags st) "faasAdaptor.generation" = generation).
    by rewrite set_attribute_ne.
  - destruct Hh as [?|Hh]; [by left|right].
    change (attribute (set_attribute "image.tags" tags st) AttrCodegenInputAPIHash = ""). by rewrite set_attribute_ne.
  - cbn. eexists. split; [done|]. unfold target. by rewrite Hx.
Qed.

Lemma handleSourceAvailable_further E st : ours -> helpful E -> st_State st = StSourceAvailable -> on_course st ->
  further StSourceAvailable (handleSourceAvailable R hc E f st).
Proof.
  intros Hours Hp Hst Hc. pose proof Hc as (_ & _ & Hc'). rewrite Hst in Hc'. destruct Hc' as (Hx & Hsrc).
  unfold handleSourceAvailable. rewrite Hx. destruct (hp_built E Hp Hx) as (b & Hb & Hsa & Hdone).
  assert (exists s, build_source f st = Some s /\ src_Builder s = (s ← og_Source (GetOrigin f); src_Builder s)) as (s & Hs & Hbuilder).
  { unfold build_source. destruct (og_Source (GetOrigin f)) as [spec|]; cbn.
    - destruct (st_Source st) as [p|]; [destruct (String.eqb (src_Revision p) "")|]; by eexists.
    - destruct Hsrc as [?|(p & -> & Hr)]; [done|]. destruct (String.eqb_spec (src_Revision p) ""); [done|]. by eexists. }
  rewrite Hs, Hbuilder. cbn [hc_adaptor context_of]. rewrite Hb.
  destruct (String.eqb_spec (bd_ServiceAccountName b) ""); [by apply build_image_further|].
  destruct Hsa as [?|Hsa]; [done|]. rewrite Hsa. by apply build_image_further.
Qed.

Lemma deploy_function_further E st : helpful E -> st_State st = StExecutableAvailable -> on_course st ->
  further StExecutableAvailable (deploy_function R hc E f st).
Proof.
  intros Hp Hst (Ha & Hh & Hx). rewrite Hst in Hx. destruct Hx as (x & Hx & Ht).
  destruct (hp_deployed E Hp) as (m & url & (j & p & Hj & Hu & Hpod & Hterm & Hm) & Hurl).
  unfold deploy_function, Deploy. rewrite Hx, Ht, Ha, Hj, Hu, Hpod. unfold deployment_finished. rewrite Hterm, Hm, Hurl.
  split; [|cbn; lia]. split_and!; [done..|]. cbn. by exists x.
Qed.

Lemma handleExecutableAvailable_further E st : helpful E -> st_State st = StExecutableAvailable -> on_course st ->
  further StExecutableAvailable (handleExecutableAvailable R hc E f st).
Proof.
  intros Hp Hst Hc. pose proof Hc as (_ & _ & Hx). rewrite Hst in Hx. destruct Hx as (x & Hx & Ht).
  unfold handleExecutableAvailable. rewrite Hx.
  destruct (String.eqb_spec (fs_ServiceAccountName (fo_Spec f)) ""); [by apply deploy_function_further|].
  destruct (hp_account E Hp) as [?|Hr]; [done|]. rewrite Hr. by apply deploy_function_further.
Qed.

Lemma handleFunctionDeployed_further E st : helpful E -> st_State st = StFunctionDeployed -> on_course st ->
  further StFunctionDeployed (handleFunctionDeployed R hc E f st).
Proof.
  intros Hp Hst (Ha & Hh & Hx). rewrite Hst in Hx. unfold handleFunctionDeployed. pose proof (hp_observed E Hp) as Ho.
  destruct (Observe _ _ f) as [es [e|]]; [done|]. split; [|cbn; lia]. by split_and!.
Qed.

Lemma handleReady_stays E st : helpful E -> st_State st = StReady -> on_course st ->
  let p := handleReady R hc E f st in on_course (status_of_pass p) /\ st_State (status_of_pass p) = StReady.
Proof.
  intros Hp Hst (Ha & Hh & Hx). rewrite Hst in Hx. destruct Hx as (x & Hx & Ht). cbn zeta. unfold handleReady. rewrite Hx.
  destruct (found _ && _).
  - split; [|done]. split_and!; [done..|]. cbn. rewrite Hst. by exists x.
  - pose proof (hp_observed E Hp) as Ho. destruct (Observe _ _ f) as [es [e|]]; [done|]. destruct (cleanup _ f _ _).
    split; [|done]. split_and!; [done..|]. cbn. by exists x.
Qed.

Lemma handle_further E st : ours -> helpful E -> on_course st ->
  let st' := status_of_pass (handle R hc E f st) in
  on_course st' /\ ((rank (st_State st') < rank (st_State st))%nat \/ st_State st = StReady /\ st_State st' = StReady).
Proof.
  intros Hours Hp Hc. cbn zeta. unfold handle. destruct (st_State st) eqn:Hst.
  - destruct Hc as (_ & _ & Hc). by rewrite Hst in Hc.
  - destruct (handlePending_further E st Hp Hc). by split; [|left].
  - destruct (handleOpenAPIValid_further E st Hours Hp Hc). by split; [|left].
  - destruct (handleBuildValid_further E st Hours Hp Hst Hc). by split; [|left].
  - destruct (handleSourceAvailable_further E st Hours Hp Hst Hc). by split; [|left].
  - destruct (handleExecutableAvailable_further E st Hp Hst Hc). by split; [|left].
  - destruct (handleFunctionDeployed_further E st Hp Hst Hc). by split; [|left].
  - destruct (handleReady_stays E st Hp Hst Hc). by split; [|right].
Qed.

Lemma not_recorded_skips st : sourceRegenerate (og_Source (GetOrigin f)) = false ->
  og_Source (GetOrigin f) = None \/ attribute st AttrCodegenInputAPIHash = "" ->
  found (og_Source (GetOrigin f)) && negb (shouldSkipCodegen f st) = false.
Proof.
  intros Hregen Hh. unfold shouldSkipCodegen, codegenInputsChanged.
  destruct (og_Source (GetOrigin f)) as [src|]; [|done]. destruct Hh as [?|Hh]; [done|]. by rewrite Hregen, Hh.
Qed.

(** A Ready function is not sent back: its image is the latest built, and
    its codegen inputs were not recorded. *)
Lemma drift_ready E st x : helpful E -> st_Executable st = Some x -> ex_Image x = target -> drift E f st = (st, None).
Proof.
  intros Hp Hx Ht. unfold drift. pose proof (hp_latest E Hp) as Hl. unfold target in Ht.
  destruct (og_Executable (GetOrigin f)); [done|]. destruct (st_Source st); [|done].
  destruct (en_image E) as [image| |]; [|done|done]. destruct (latest_image image) as [l|]; [|done].
  rewrite (Hl l eq_refl), <- Ht, Hx. destruct (st_State st); try done. by rewrite String.eqb_refl.
Qed.

Lemma prepared_on_course E st : ours -> helpful E -> on_course st -> st_ObservedGeneration st = fo_Generation f ->
  on_course (prepared E st) /\ st_State (prepared E st) = st_State st.
Proof.
  intros (_ & _ & _ & Hregen) Hp (Ha & Hh & Hc) Ho.
  destruct (prepared_same E st (hp_secrets E Hp)) as (P1 & P2 & P3 & P4 & P5 & P6).
  assert (entered st = st_State st) as He.
  { unfold entered. rewrite Ha, String.eqb_refl, andb_false_r, Ho, Z.ltb_irrefl. done. }
  assert (st_State (prepared E st) = st_State st) as Hst.
  { rewrite He in P6. destruct P6 as [?|Hready]; [done|]. rewrite Hready in Hc |- *. destruct Hc as (x & Hx & Ht).
    unfold prepared, ResolveSecrets. rewrite (hp_secrets E Hp). cbn [fst].
    set (st2 := foldl _ _ _). destruct (set_attributes_state secs (noted st)) as (S1 & S2 & _). fold st2 in S1, S2.
    destruct (noted_same st) as (N1 & _).
    rewrite (drift_ready E st2 x Hp) by congruence. cbn [fst]. unfold recheck_codegen.
    rewrite <- andb_assoc, not_recorded_skips, andb_false_r; [rewrite S1, noted_state; congruence|done|].
    destruct Hh as [?|Hh]; [by left|right]. unfold st2. rewrite secret_attributes, noted_attribute by done. done. }
  split; [|done]. split_and!; [done|rewrite P5; done|]. rewrite Hst, P1, P2, P3. exact Hc.
Qed.

Lemma pass_further E st : ours -> helpful E -> on_course st -> st_ObservedGeneration st = fo_Generation f ->
  let st' := status_of_pass (Reconcile R E f st) in
  on_course st' /\ st_ObservedGeneration st' = fo_Generation f /\
  ((rank (st_State st') < rank (st_State st))%nat \/ st_State st = StReady /\ st_State st' = StReady).
Proof.
  intros Hours Hp Hc Ho. cbn zeta. rewrite (proj1 (pass_status E st Hours Hp)).
  destruct (prepared_on_course E st Hours Hp Hc Ho) as [Hc' Hst].
  destruct (handle_further E (prepared E st) Hours Hp Hc') as [Hc2 Hr]. rewrite Hst in Hr.
  split; [exact Hc2|]. split; [done|exact Hr].
Qed.

(** The first pass after the function was made or edited. *)
Lemma first_pass E st : ours -> helpful E -> st_ObservedGeneration st < fo_Generation f ->
  og_Source (GetOrigin f) = None \/ attribute st AttrCodegenInputAPIHash = "" ->
  let st' := status_of_pass (Reconcile R E f st) in
  on_course st' /\ st_ObservedGeneration st' = fo_Generation f /\ (rank (st_State st') <= 5)%nat.
Proof.
  intros Hours Hp Ho Hh. cbn zeta. rewrite (proj1 (pass_status E st Hours Hp)).
  destruct (prepared_same E st (hp_secrets E Hp)) as (P1 & P2 & P3 & P4 & P5 & P6).
  assert (st_State (prepared E st) = StPending \/ st_State (prepared E st) = StOpenAPIValid) as Hst.
  { unfold entered in P6. rewrite (proj2 (Z.ltb_lt _ _) Ho) in P6. destruct (_ && _), P6; try done; tauto. }
  assert (on_course (prepared E st)) as Hc.
  { split_and!; [done|rewrite P5; done|]. by destruct Hst as [-> | ->]. }
  destruct (handle_further E (prepared E st) Hours Hp Hc) as [Hc2 Hr].
  split; [exact Hc2|]. split; [done|]. destruct Hst as [Hst|Hst]; rewrite Hst in Hr; destruct Hr as [Hr|[? _]]; try done; cbn in Hr |- *; lia.
Qed.

Definition run (st : fn_status) (Es : list environment) : fn_status :=
  foldl (fun st E => status_of_pass (Reconcile R E f st)) st Es.

Lemma run_lifecycle Es : forall st, rtc (lifecycle R) (f, st) (f, run st Es).
Proof. induction Es as [|E Es IH]; intros st; [apply rtc_refl|]. eapply rtc_l; [apply (reconciled R E)|apply IH]. Qed.

Lemma run_ready Es : forall st, ours -> Forall helpful Es -> on_course st -> st_ObservedGeneration st = fo_Generation f ->
  (rank (st_State st) <= length Es)%nat -> let st' := run st Es in on_course st' /\ st_State st' = StReady.
Proof.
  induction Es as [|E Es IH]; intros st Hours HEs Hc Ho Hlen; cbn [run foldl].
  - split; [done|]. destruct (st_State st) eqn:Hst; cbn in Hlen; try lia. done.
  - apply Forall_cons in HEs as [Hp HEs]. destruct (pass_further E st Hours Hp Hc Ho) as (Hc' & Ho' & Hr).
    apply IH; [done..|]. cbn in Hlen. destruct Hr as [Hr|[_ ->]]; [lia|cbn; lia].
Qed.
End Progress.


(** * Settling *)

Section Settling.
Context {API : Type} `{!Sha256} `{!KubernetesJSON} `{!FunctionYAML API} `{!APIJSON API}.
Context `{!Conditions} `{!Reasons} `{!StateText} `{!SecretList} `{!Unstructured}.
Context `{!Decoding codegen_results} `{!Decoding string}.
Context (R : reconciler) (f : function API) (E : environment).

(** The attributes a pass notes are the same the next time. *)
Definition note_secrets (l : list secret) (a : gmap string string) : gmap string string :=
  foldl (fun a s => <[se_Name s ++ ".secret.generation" := FormatInt (se_Generation s)]> a) a l.

Definition noted_attributes (host adaptor : Z) (l : list secret) (a : gmap string string) : gmap string string :=
  note_secrets l (<["faasAdaptor.generation" := FormatInt adaptor]> (<["host.generation" := FormatInt host]> a)).

Lemma note_secrets_union l : forall u a, note_secrets l (u ∪ a) = note_secrets l u ∪ a.
Proof. induction l as [|s l IH]; intros u a; [done|]. unfold note_secrets in *. cbn [foldl]. rewrite insert_union_l. apply IH. Qed.

Lemma noted_attributes_union h g l a : noted_attributes h g l a = noted_attributes h g l ∅ ∪ a.
Proof.
  unfold noted_attributes. rewrite <- note_secrets_union. f_equal. by rewrite <- !insert_union_l, (left_id_L ∅ (∪)).
Qed.

Lemma noted_attributes_again h g l a : noted_attributes h g l (noted_attributes h g l a) = noted_attributes h g l a.
Proof.
  rewrite (noted_attributes_union h g l a) at 1. rewrite noted_attributes_union, (assoc_L (∪)), (idemp_L (∪)).
  by rewrite <- noted_attributes_union.
Qed.

(** Two statuses that differ in what a pass at Ready writes over: the
    conditions and the detail. *)
Definition alike (st st' : fn_status) : Prop :=
  st_State st = st_State st' /\ st_Attributes st = st_Attributes st' /\ st_OpenAPISchemaURL st = st_OpenAPISchemaURL st' /\
  st_URL st = st_URL st' /\ st_Executable st = st_Executable st' /\ st_Generator st = st_Generator st' /\ st_Source st = st_Source st'.

Lemma resolve_adaptor_any host ns cs cs' a : resolve_adaptor R E host ns cs = (cs', Resolved a) ->
  cs' = cs /\ forall cs2, resolve_adaptor R E host ns cs2 = (cs2, Resolved a).
Proof.
  unfold resolve_adaptor, ResolveOrDefault, ResolveKDexObjectReference.
  destruct (ih_FaaSAdaptorRef host) as [ref|].
  - destruct (_ && negb (isClusterKind _)); [done|]. destruct (negb _); [done|]. destruct (checkReferenceNamespace _ _ _); [done|].
    destruct (en_adaptor E _ _ _) as [o| |]; [|done|done]. destruct (ConditionTrue _ _); [|done]. by intros [= <- <-].
  - destruct (en_defaults E) as [msg|l]; [done|]. destruct (oldest ao_Created l); [|done]. by intros [= <- <-].
Qed.

Lemma ResolveSecrets_ok l st secrets : ResolveSecrets E st = (l, Ok secrets) ->
  exists l', secrets = l' /\ l = foldl (fun st s => set_attribute (se_Name s ++ ".secret.generation") (FormatInt (se_Generation s)) st) st l' /\
    forall st2, ResolveSecrets E st2 = (foldl (fun st s => set_attribute (se_Name s ++ ".secret.generation") (FormatInt (se_Generation s)) st) st2 l', Ok l').
Proof.
  unfold ResolveSecrets. destruct (en_secrets E) as [[e|l']|]; [done| |]; intros [= <- <-]; by eexists.
Qed.

Lemma note_secrets_status l : forall st,
  foldl (fun st s => set_attribute (se_Name s ++ ".secret.generation") (FormatInt (se_Generation s)) st) st l =
  mkStatus (st_State st) (note_secrets l (st_Attributes st)) (st_Conditions st) (st_Detail st) (st_OpenAPISchemaURL st) (st_URL st)
    (st_Executable st) (st_Generator st) (st_Source st) (st_ObservedGeneration st).
Proof. induction l as [|s l IH]; intros st; [by destruct st|]. cbn [foldl]. rewrite IH. done. Qed.

Lemma drift_ready_stays st st' : drift E f st = (st', None) -> st_State st' = StReady -> st' = st /\ st_State st = StReady.
Proof.
  unfold drift. destruct (og_Executable _); [by intros [= <-]|]. destruct (st_Source st); [|by intros [= <-]].
  destruct (en_image E) as [image| |]; [|by intros [= <-]|done].
  destruct (latest_image image); [|by intros [= <-]]. destruct (st_State st) eqn:Hs; try (intros [= <-] Hst; congruence).
  destruct (st_Executable st); [|by intros [= <-]]. destruct (String.eqb _ _); [by intros [= <-]|]. by intros [= <-].
Qed.

Lemma drift_alike st st' : alike st st' -> drift E f st = (st, None) -> drift E f st' = (st', None).
Proof.
  intros (Hs & _ & _ & _ & Hx & _ & Hsrc). unfold drift. rewrite <- Hs, <- Hx, <- Hsrc.
  destruct (og_Executable _); [done|]. destruct (st_Source st) as [s|] eqn:Hs1; [|done]. destruct (en_image E) as [image| |]; [|done|done].
  destruct (latest_image image); [|done]. destruct (st_State st) eqn:Hst; try done. destruct (st_Executable st); [|done].
  destruct (String.eqb _ _); [done|]. intros [= Heq]. apply (f_equal st_State) in Heq. cbn in Heq. congruence.
Qed.

Lemma recheck_ready st : st_State (recheck_codegen f st) = StReady -> recheck_codegen f st = st.
Proof. unfold recheck_codegen. by destruct (_ && _). Qed.

Lemma recheck_alike st st' : alike st st' -> recheck_codegen f st = st -> recheck_codegen f st' = st'.
Proof.
  intros (Hs & Ha & _ & _ & _ & Hg & _). unfold recheck_codegen.
  assert (shouldSkipCodegen f st' = shouldSkipCodegen f st) as ->.
  { unfold shouldSkipCodegen, codegenInputsChanged, attribute. by rewrite Ha, Hg. }
  rewrite <- Hs. case_bool_decide as Hst; cbn [andb]; [|done].
  destruct (found _ && _); [|done]. intros Heq. apply (f_equal st_State) in Heq. cbn in Heq. congruence.
Qed.

(** What a pass at Ready that settles has done. *)
Lemma handleReady_settled hc st es st1 : handleReady R hc E f st = (es, st1, Settled) ->
  st1 = mark ready ReconcileSuccess "Function is ready" (set_detail (ready_detail f st) (set_state StReady st)) /\
  forall st', alike st st' -> handleReady R hc E f st' =
    (es, mark ready ReconcileSuccess "Function is ready" (set_detail (ready_detail f st') (set_state StReady st')), Settled).
Proof.
  unfold handleReady. destruct (st_Executable st) as [x|] eqn:Hx; [|done].
  destruct (found (og_Source (GetOrigin f)) && negb (found (st_Source st))) eqn:Hsrc; [done|].
  destruct (Observe _ _ f) as [es0 [e|]] eqn:Ho; [done|].
  destruct (cleanup _ f _ _) as [ds e] eqn:Hc. intros [= <- <-]. split; [done|].
  intros st' (_ & Ha & _ & _ & Hx' & _ & Hs'). rewrite <- Hx', Hx, <- Hs', Hsrc.
  unfold adaptor_generation, attribute in Hc |- *. rewrite <- Ha. by rewrite Hc.
Qed.

(** No other state's handler leaves a function Ready and settled. *)
Definition unsettled (p : pass) : Prop := st_State (status_of_pass p) <> StReady \/ outcome_of p <> Settled.

Lemma delete_and_requeue_unsettled w es j st msg : unsettled (delete_and_requeue R w es j st msg).
Proof. right. unfold delete_and_requeue. by case_match. Qed.

Lemma source_available_unsettled es st : unsettled (source_available R es st).
Proof. right. unfold source_available. by case_match. Qed.

Lemma codegen_finished_unsettled hc w es j p l st : st_State st <> StReady -> unsettled (codegen_finished R hc w f es j p l st).
Proof.
  intros Hs. unfold codegen_finished. destruct (isCodegenJobTerminal j); [by left|].
  destruct (Decode _); [|apply delete_and_requeue_unsettled].
  destruct (parseBuilderGenerator _) as [[]|]; [apply source_available_unsettled|apply delete_and_requeue_unsettled].
Qed.

Lemma handleBuildValid_unsettled hc st : st_State st = StBuildValid -> unsettled (handleBuildValid R hc E f st).
Proof.
  intros Hs. unfold handleBuildValid. destruct (og_Executable _); [by right|].
  destruct (shouldSkipCodegen f st); [apply source_available_unsettled|].
  destruct (hc_gitSecret hc), (st_Generator st), (ih_Domains (hc_host hc)); try (by right).
  destruct (GetOrCreateGenerateJob _ _ _ _) as [es [j|e]]; [|by right].
  destruct (unfinished j); [destruct (cleanup _ f _ _) as [ds [e|]]; by right|].
  destruct (GetPodForJob _ j); [apply codegen_finished_unsettled; by rewrite Hs|apply delete_and_requeue_unsettled].
Qed.

Lemma build_image_unsettled hc s b sa st : st_State st = StSourceAvailable -> unsettled (build_image R hc E f s b sa st).
Proof.
  intros Hs. unfold build_image. destruct (GetOrCreateKPackImage E f _) as [es [image|e]].
  - left. unfold image_built. destruct (inspectKPackImageStatus _ _) as [[|] [e|]]; try (cbn; by rewrite Hs).
    destruct (NestedString _ _); [|cbn; by rewrite Hs]. destruct (image_tags image); [done|]. cbn. by rewrite Hs.
  - destruct (Contains e _); [|by right]. left. cbn. by rewrite Hs.
Qed.

Lemma handleSourceAvailable_unsettled hc st : st_State st = StSourceAvailable -> unsettled (handleSourceAvailable R hc E f st).
Proof.
  intros Hs. unfold handleSourceAvailable. destruct (og_Executable _); [by left|]. destruct (build_source f st); [|by right].
  destruct (builderForBuild _ _ _) as [[b|]|e]; [|by right..]. destruct (String.eqb _ ""); [by apply build_image_unsettled|].
  destruct (refuseHostManagerServiceAccount _ _ _ _); [left; cbn; by rewrite Hs|by apply build_image_unsettled].
Qed.

Lemma deploy_function_unsettled hc st : st_State st = StExecutableAvailable -> unsettled (deploy_function R hc E f st).
Proof.
  intros Hs. unfold deploy_function. destruct (Deploy _ _ _ _ _) as [es [j|e|]]; [|by right..].
  destruct (unfinished j); [destruct (cleanup _ f _ _) as [ds [e|]]; by right|].
  destruct (GetPodForJob _ j); [|apply delete_and_requeue_unsettled]. unfold deployment_finished.
  destruct (isCodegenJobTerminal j); [left; cbn; by rewrite Hs|]. destruct (decodeDeployerURL _); [by left|apply delete_and_requeue_unsettled].
Qed.

Lemma handleExecutableAvailable_unsettled hc st : st_State st = StExecutableAvailable -> unsettled (handleExecutableAvailable R hc E f st).
Proof.
  intros Hs. unfold handleExecutableAvailable. destruct (st_Executable st); [|destruct (og_Executable _); by right].
  destruct (String.eqb _ ""); [by apply deploy_function_unsettled|].
  destruct (refuseHostManagerServiceAccount _ _ _ _); [left; cbn; by rewrite Hs|by apply deploy_function_unsettled].
Qed.

Lemma handle_settled_ready hc st es st1 : handle R hc E f st = (es, st1, Settled) -> st_State st1 = StReady -> st_State st = StReady.
Proof.
  intros Hh Hr. assert (~ unsettled (handle R hc E f st)) as Hn.
  { rewrite Hh. by intros [Hx|Hx]; apply Hx. }
  unfold handle in Hn. destruct (st_State st) eqn:Hst; try done; exfalso; apply Hn; clear Hn.
  - left. cbn. by rewrite Hst.
  - right. unfold handlePending. by case_match.
  - right. unfold handleOpenAPIValid, build_valid, fail_with. by repeat case_match.
  - by apply handleBuildValid_unsettled.
  - by apply handleSourceAvailable_unsettled.
  - by apply handleExecutableAvailable_unsettled.
  - right. unfold handleFunctionDeployed. by destruct (Observe _ _ f) as [? [|]].
Qed.

Definition with_secrets (l : list secret) (st : fn_status) : fn_status :=
  foldl (fun st s => set_attribute (se_Name s ++ ".secret.generation") (FormatInt (se_Generation s)) st) st l.

(** The answers a pass gets, and the status it hands to [handleReady]. *)
Definition answers host adaptor l : Prop :=
  (exists cs, en_host E = Found (mkReferred host cs)) /\
  (forall cs, resolve_adaptor R E host (fo_Namespace f) cs = (cs, Resolved adaptor)) /\
  (forall st, ResolveSecrets E st = (with_secrets l st, Ok l)).

Lemma reconcile_origin_ready st es st' : reconcile_origin R E f st = (es, st', Settled) -> st_State st' = StReady ->
  exists host adaptor l, answers host adaptor l /\
    let st0 := with_secrets l (noted f host adaptor st) in
    st_State st0 = StReady /\ drift E f st0 = (st0, None) /\ recheck_codegen f st0 = st0 /\
    handleReady R (context_of (ao_Spec adaptor) host l) E f st0 = (es, st', Settled).
Proof.
  unfold reconcile_origin. intros Hr Hst.
  destruct (en_host E) as [[host hcs]|msg|msg] eqn:Hh; cbn [ResolveHost andb rf_object] in Hr; [|done|done].
  set (st1 := set_attribute _ _ _) in Hr.
  destruct (resolve_adaptor R E host (fo_Namespace f) (st_Conditions st1)) as [cs [|o|adaptor]] eqn:Ha; [done| |].
  { exfalso. injection Hr as _ <- ->. revert Ha. unfold resolve_adaptor, ResolveOrDefault, ResolveKDexObjectReference.
    repeat (case_match; simplify_eq/=); done. }
  destruct (resolve_adaptor_any _ _ _ _ _ Ha) as [-> Hany].
  exists host, adaptor. revert Hr. unfold advance.
  destruct (ResolveSecrets E _) as [st2 [l|e]] eqn:Hs; [|done].
  destruct (ResolveSecrets_ok _ _ _ Hs) as (l' & <- & -> & Hall).
  destruct (drift E f _) as [st3 [e|]] eqn:Hd; [done|]. intros Hr.
  pose proof (handle_settled_ready _ _ _ _ Hr Hst) as Hready.
  pose proof (recheck_ready _ Hready) as Hc. rewrite Hc in Hr, Hready.
  destruct (drift_ready_stays _ _ Hd Hready) as [-> Hst2].
  exists l. split; [by split_and!; [eexists| |]|]. cbn zeta.
  unfold handle in Hr. rewrite Hst2 in Hr. by split_and!.
Qed.

Lemma with_secrets_status l st : with_secrets l st =
  mkStatus (st_State st) (note_secrets l (st_Attributes st)) (st_Conditions st) (st_Detail st) (st_OpenAPISchemaURL st) (st_URL st)
    (st_Executable st) (st_Generator st) (st_Source st) (st_ObservedGeneration st).
Proof. apply note_secrets_status. Qed.

(** The status handed over when the generation and the adaptor are as they
    were. *)
Definition unchanged (host : InternalHost) (adaptor : adaptor_object) (l : list secret) (st : fn_status) : fn_status :=
  mkStatus (st_State st) (noted_attributes (ih_Generation host) (ao_Generation adaptor) l (st_Attributes st))
    (SetConditions reconciling Reconciling (state_text (st_State st)) (st_Conditions st)) (st_Detail st) (st_OpenAPISchemaURL st) (st_URL st)
    (st_Executable st) (st_Generator st) (st_Source st) (st_ObservedGeneration st).

Lemma noted_unchanged host adaptor l st : fo_Generation f <= st_ObservedGeneration st ->
  adaptor_generation st = FormatInt (ao_Generation adaptor) -> with_secrets l (noted f host adaptor st) = unchanged host adaptor l st.
Proof.
  intros Ho Ha. rewrite with_secrets_status. unfold noted, note_adaptor, begin, adaptor_generation.
  rewrite (proj2 (Z.ltb_ge _ _) Ho). rewrite set_attribute_ne by done.
  change (attribute (mark reconciling Reconciling (state_text (st_State st)) st) "faasAdaptor.generation") with (adaptor_generation st).
  rewrite Ha, String.eqb_refl, andb_false_r. done.
Qed.

Lemma origin_again st es st' : reconcile_origin R E f st = (es, st', Settled) -> st_State st' = StReady ->
  let st1 := set_observed (fo_Generation f) st' in reconcile_origin R E f st1 = (es, st1, Settled).
Proof.
  intros Hr Hst. destruct (reconcile_origin_ready _ _ _ Hr Hst) as (host & adaptor & l & Hans & Hst0 & Hd & Hc & Hh).
  set (st0 := with_secrets l (noted f host adaptor st)) in *.
  destruct (handleReady_settled _ _ _ _ Hh) as [-> Hagain]. cbn zeta.
  set (st1 := set_observed _ _).
  assert (st_Attributes st1 = noted_attributes (ih_Generation host) (ao_Generation adaptor) l (st_Attributes st)) as Hattrs.
  { unfold st1, st0. rewrite with_secrets_status. unfold noted, note_adaptor, begin, noted_attributes. by destruct (_ && _), (_ <? _)%Z. }
  assert (adaptor_generation st1 = FormatInt (ao_Generation adaptor)) as Hag.
  { change (adaptor_generation st1) with (attribute st0 "faasAdaptor.generation"). unfold st0, with_secrets.
    rewrite secret_attributes by done. apply set_attribute_eq. }
  assert (with_secrets l (noted f host adaptor st1) = unchanged host adaptor l st1) as Hun.
  { apply noted_unchanged; [cbn; lia|done]. }
  assert (alike st0 (unchanged host adaptor l st1)) as Halike.
  { split_and!; try done. cbn [st_Attributes unchanged]. rewrite Hattrs, noted_attributes_again.
    change (st_Attributes st0) with (st_Attributes st1). done. }
  destruct Hans as ((hcs & Hhost) & Hadaptor & Hsecrets).
  unfold reconcile_origin. rewrite Hhost. cbn [ResolveHost andb rf_object]. rewrite Hadaptor. unfold advance. rewrite Hsecrets.
  change (with_secrets l (noted f host adaptor st1)) with (with_secrets l (note_adaptor (ao_Generation adaptor) (set_attribute "host.generation" (FormatInt (ih_Generation host)) (begin f st1)))) in Hun.
  cbn [set_conditions] in *. 
  match goal with |- context [drift E f ?x] => replace x with (unchanged host adaptor l st1) by (symmetry; exact Hun) end.
  rewrite (drift_alike _ _ Halike Hd), (recheck_alike _ _ Halike Hc). unfold handle.
  change (st_State (unchanged host adaptor l st1)) with StReady. cbn iota. rewrite (Hagain _ Halike). f_equal. f_equal.
  unfold mark, set_conditions, set_detail, set_state, unchanged. cbn [st_State st_Attributes st_Conditions st_Detail st_OpenAPISchemaURL st_URL st_Executable st_Generator st_Source st_ObservedGeneration].
  rewrite Hattrs, noted_attributes_again, <- Hattrs. unfold st1. cbn. by rewrite !SetConditions_again.
Qed.

(** A function in front of a Service: once written, the same again. *)
Definition resolved_status at_name url (st : fn_status) : fn_status :=
  let st := set_observed (fo_Generation f) (set_state StReady (set_url url (set_source None (set_generator None (set_executable None st))))) in
  set_conditions (RemoveStatusCondition "Degraded" (SetStatusCondition "Ready"
    (mkCondition CTrue "BackendResolved" ("Backend Service " ++ at_name ++ " resolved to " ++ url)) (st_Conditions st))) st.

Lemma resolved_status_again at_name url st : resolved_status at_name url (resolved_status at_name url st) = resolved_status at_name url st.
Proof.
  unfold resolved_status, set_conditions. cbn. f_equal. unfold RemoveStatusCondition, SetStatusCondition.
  rewrite <- delete_insert_ne, insert_insert_eq, delete_delete_eq by done. done.
Qed.

Lemma backend_ready_again at_name url st st1 : backend_ready E f at_name url st = (st1, Settled) ->
  backend_ready E f at_name url st1 = (st1, Settled).
Proof.
  change (write_now E st (resolved_status at_name url st) Settled = (st1, Settled) ->
          write_now E st1 (resolved_status at_name url st1) Settled = (st1, Settled)).
  unfold write_now. case_bool_decide as Heq.
  - intros [= <-]. by rewrite bool_decide_eq_true_2.
  - destruct (en_write E); [|done|done]. intros [= <-]. by rewrite resolved_status_again, bool_decide_eq_true_2.
Qed.

Lemma markBackendUnready_unsettled reason msg retain st : (markBackendUnready R E f reason msg retain st).2 <> Settled.
Proof. unfold markBackendUnready, write_now. case_bool_decide; [done|]. by destruct (en_write E). Qed.

Lemma service_backed_again b st st1 : reconcileServiceBacked R E f b st = (st1, Settled) ->
  reconcileServiceBacked R E f b st1 = (st1, Settled).
Proof.
  unfold reconcileServiceBacked. destruct b as [svc|]; [|by intros [= <-]].
  assert (forall reason msg retain, markBackendUnready R E f reason msg retain st = (st1, Settled) -> False) as Hun.
  { intros reason msg retain Hm. by apply (markBackendUnready_unsettled reason msg retain st); rewrite Hm. }
  destruct (checkReferenceNamespace _ _ _); [by intros ?%Hun|]. destruct (en_service E _ _); [|by intros ?%Hun|done].
  destruct (resolveServicePort _ _); [|by intros ?%Hun]. destruct (hasReadyEndpoint _) as [[|]|]; [|by intros ?%Hun|done].
  apply backend_ready_again.
Qed.
End Settling.

(** C36: A function that a pass leaves Ready and settled stays so: the same pass
    again asks for the same and writes no status, whatever conditions it pulses
    in between, so that its own write does not call it again. *)
Theorem settled_is_quiet {API} `{!Sha256, !KubernetesJSON, !FunctionYAML API, !APIJSON API, !Conditions, !Reasons, !StateText, !SecretList,
    !Unstructured, !Decoding codegen_results, !Decoding string} R E (f : function API) st es st1 :
  Reconcile R E f st = (es, st1, Settled) -> st_State st1 = StReady -> Reconcile R E f st1 = (es, st1, Settled).
Proof.
  intros Hr Hst. destruct (decide (st1 = st)) as [->|Hne]; [done|]. revert Hr. unfold Reconcile.
  destruct (negb _); [by intros [= <- <-]|]. destruct (negb _); [by intros [= <- <-]|].
  destruct (fs_Backend (fo_Spec f)) as [b|].
  - destruct (reconcileServiceBacked R E f b st) as [st' o] eqn:Hb. intros [= <- -> ->].
    by rewrite (service_backed_again R f E b st st1 Hb).
  - destruct (reconcile_origin R E f st) as [[es' st'] o] eqn:Ho. unfold write_back at 1, write_status at 1.
    case_bool_decide as Heq; [intros [= <- <- ->]; done|].
    destruct (en_write E), o; try done; intros [= <- <-].
    rewrite (origin_again R f E st es' st' Ho Hst). cbn. unfold write_back, write_status. by rewrite bool_decide_eq_true_2.
Qed.

(** * A concrete cluster *)

#[local] Existing Instance sha256Example.
#[local] Existing Instance conditionsExample.
#[local] Existing Instance unstructuredExample.
#[local] Instance kubernetesJSONExample : KubernetesJSON :=
  {| MarshalTolerations _ := Ok "tolerations"; MarshalSelector _ := Ok "selector"; MarshalList l := Ok (Join l ","); MarshalEnv _ := Ok "env" |}.
#[local] Instance yamlExample : FunctionYAML string := {| MarshalYAML f := Ok (fo_Name f) |}.
#[local] Instance apiExample : APIJSON string := {| MarshalAPI a := Some a |}.
#[local] Instance reasonsExample : Reasons := {| Reconciling := "Reconciling"; ReconcileSuccess := "Success"; ReconcileError := "Error" |}.
#[local] Instance stateTextExample : StateText := {| state_text s := FormatInt (Z.of_nat (rank s)) |}.
#[local] Instance secretListExample : SecretList := {| FindSecret := @List.find secret; FilterSecrets := @List.filter secret |}.
#[local] Instance resultsExample : Decoding codegen_results :=
  {| Decode s := if String.eqb s "" then Err "unexpected end of JSON input" else Ok (mkResults "https://git/shop" s "fn") |}.
#[local] Instance urlExample : Decoding string := {| Decode s := if String.eqb s "" then Err "unexpected end of JSON input" else Ok s |}.

Definition cart_builder : Builder := mkBuilder "tiny" (mkRef "ClusterBuilder" "tiny" "") ["go"] "builder" None [] ∅ [] None.
Definition cart_source : Source := mkSource "https://git/shop" "main" "cart" (Some cart_builder) None.

Definition cart : function string :=
  mkFunctionObject "web" "cart" 1 ∅
    (mkFunctionSpec "shop" "{}" "/cart" None (Some (mkOrigin None (Some cart_source) None)) "runner" [] ∅ [] [] false [] None).

Definition shop : InternalHost := mkInternalHost "shop" "web" 1 "https" ["shop.example"] "registry" "" None None.
Definition knative : adaptor_object :=
  mkAdaptorObject 1 0 (mkAdaptor "tiny/go" [cart_builder] [] (mkDeployerSpec "deployer" [] [] [] [] ∅ [] ∅) None).

Definition cart_image : tree :=
  TMap [("metadata", TMap [("generation", TNum 1)]); ("spec", TMap [("tag", TStr "registry/shop/cart:latest")]);
        ("status", TMap [("latestImage", TStr "registry/shop/cart@sha256:1"); ("observedGeneration", TNum 1);
                         ("conditions", TArr [TMap [("type", TStr "Ready"); ("status", TStr "True")]])])].

Definition done_job (name : string) : job := mkJob "web" name {[ANNOTATION_GENERATION := "1"]} {[ANNOTATION_GENERATION := "1"]} true 1 0 [].
Definition stale_job : job := mkJob "web" "cart-deployer-0-00000000" {[ANNOTATION_GENERATION := "0"]} ∅ true 1 0 [].

Definition done_workloads : workloads :=
  mkWorkloads (fun name => Found (done_job name)) (fun _ => None) (fun _ => inr [stale_job])
    (fun _ => inr [mkPod {[ANNOTATION_GENERATION := "1"]} [("deployer", Some "http://cart.web")] []]) (fun _ => Found ()) None
    (fun _ => NotFound "") Created None (Found ()).

Definition done_cluster : environment :=
  mkEnvironment (Found (mkReferred shop ∅)) (fun _ => true) (fun _ _ _ => NotFound "") (inr [knative]) (Some (inr [])) (NotFound "")
    (fun _ => Ok cart_image) None (fun _ => NotFound "") (fun _ _ => NotFound "") (fun _ _ => inr []) (fun _ => Err "") done_workloads Written.

Definition web_reconciler : reconciler := mkReconciler "web" "shop" None (5 * second) "host-manager" "" None.

Definition cart_run (n : nat) : fn_status := run web_reconciler cart blank (replicate n done_cluster).

Lemma done_cluster_helpful : helpful web_reconciler cart shop knative [] "registry/shop/cart@sha256:1" done_cluster.
Proof.
  split; try (by intros; reflexivity || discriminate).
  - by exists ∅.
  - intros _. exists cart_builder. split; [reflexivity|]. split; [right; reflexivity|].
    intros [registry prefix sa repository revision path b] Hb. cbn in Hb. subst b. do 3 eexists.
    split; [reflexivity|]. split; [reflexivity|]. split; reflexivity.
  - by right.
  - do 2 eexists. split; [do 2 eexists; split; [reflexivity|split_and!; reflexivity]|reflexivity].
Qed.

Lemma cart_ours : ours web_reconciler cart.
Proof. by split_and!. Qed.


Lemma settled_is_quiet_witness : exists es st1, Reconcile web_reconciler done_cluster cart (cart_run 6) = (es, st1, Settled) /\
  Reconcile web_reconciler done_cluster cart st1 = (es, st1, Settled).
Proof.
  eexists _, _. split; [vm_compute; reflexivity|].
  eapply (settled_is_quiet web_reconciler done_cluster cart (cart_run 6)); vm_compute; reflexivity.
Defined.

Lemma status_says_so_witness : st_State (cart_run 4) = StFunctionDeployed /\ st_URL (cart_run 4) <> "".
Proof.
  assert (st_State (cart_run 4) = StFunctionDeployed) as Hst by (vm_compute; reflexivity). split; [exact Hst|].
  destruct (status_says_so web_reconciler cart cart (cart_run 4) eq_refl
              (run_lifecycle web_reconciler cart (replicate 4 done_cluster) blank)) as [Hu _].
  rewrite Hst in Hu. exact Hu.
Defined.


Lemma build_is_pinned_witness : exists o, PatchImage o ∈ effects_of (Reconcile web_reconciler done_cluster cart (cart_run 2)) /\
  NestedString o ["spec"; "source"; "git"; "revision"] = Some "main".
Proof.
  eexists. split; [vm_compute; left|].
  edestruct (build_is_pinned web_reconciler done_cluster cart (cart_run 2)) as (s & Hs & _ & Hr & _); [vm_compute; left|].
  rewrite Hr. vm_compute in Hs. by injection Hs as <-.
Defined.

Lemma deletions_justified_witness : exists n, DeleteJob n ∈ effects_of (Reconcile web_reconciler done_cluster cart (cart_run 6)) /\
  ((exists app l j, wl_jobs done_workloads app = inr l /\ j ∈ l /\ jb_Name j = n /\ jb_controlled j = true /\ finished j = true /\
     (app = APP_CODEGEN -> value_at (jb_Labels j) ANNOTATION_GENERATION <> FormatInt 1)) \/
   (exists name j, wl_job done_workloads name = Found j /\ jb_Name j = n /\ unfinished j = false /\
     forall p, GetPodForJob (wl_pods done_workloads n) j = Ok p -> isCodegenJobTerminal j = None)).
Proof.
  exists "cart-deployer-0-00000000". split; [vm_compute; left|].
  apply (deletions_justified web_reconciler done_cluster cart (cart_run 6)). vm_compute. left.
Defined.

(** * What the model shows *)

(** A function whose codegen inputs were recorded, and whose generator was
    forgotten while it fronted a Service, panics at every pass once it is sent
    back to codegen: the state is written, the generator is not there. *)
Lemma no_generator_panics {API} `{!Sha256, !KubernetesJSON, !FunctionYAML API, !APIJSON API, !Conditions, !Reasons, !Decoding codegen_results,
    !StateText, !SecretList} R hc E (f : function API) st :
  og_Executable (GetOrigin f) = None -> shouldSkipCodegen f st = false -> hc_gitSecret hc <> None -> st_Generator st = None ->
  handleBuildValid R hc E f st = ([], st, Panics).
Proof.
  intros Hx Hskip Hg Hn. unfold handleBuildValid. rewrite Hx, Hskip, Hn. by destruct (hc_gitSecret hc).
Qed.

(** With [regenerate] a Ready function is sent back to codegen at every pass. *)
Lemma regenerate_never_settles {API} `{!Sha256, !APIJSON API} (f : function API) st s :
  og_Source (GetOrigin f) = Some s -> src_Regenerate s = Some true -> st_State st = StReady ->
  st_State (recheck_codegen f st) = StBuildValid.
Proof.
  intros Hs Hr Hst. unfold recheck_codegen, shouldSkipCodegen, sourceRegenerate. by rewrite Hst, Hs, Hr.
Qed.
