(* ===== verification/Packages.v ===== *)
(** The controller of package references
    (src/internal/controller/kdexinternalpackagereferences_controller.go): the
    Job that installs the packages a host's pages import and packs them into
    an image (src/internal/packref/packref.go), the import map and the versions
    read back from the layers of that image (importmap_select.go,
    packages_verify.go, oci_layers.go), and one pass of the reconcile. A blob
    is what compress/gzip and archive/tar read it as; the registry is a class.
    Set-up of watches is left out but for the Secrets they answer to. *)
From S2P Require Import Prelude GoStr Deps Clients Mux Cluster Deploy Pipeline.
From Stdlib Require Import Ascii.

#[local] Open Scope string_scope.

(** * Layers *)

Definition tarGzMediaType : string := "application/vnd.oci.image.layer.v1.tar+gzip".

Record ImportmapLayer := mkLayer { ly_MediaType : string; ly_Digest : string; ly_Size : Z }.
#[export] Instance layer_eq_dec : EqDecision ImportmapLayer.
Proof. solve_decision. Defined.

(** An entry of an archive; its body is read on demand. *)
Record tar_entry := mkEntry { te_Regular : bool; te_Name : string; te_Body : result string string }.

(** The entries up to the end of the archive, or to the error in their place. *)
Record archive := mkArchive { ar_Entries : list tar_entry; ar_Error : option string }.

(** A blob read as it is, and as the archive gzip and tar make of it. *)
Record blob := mkBlob { bl_Bytes : result string string; bl_Archive : result string archive }.

Definition LayerFetcher : Type := ImportmapLayer -> result string blob.

(** [sort.SliceStable] by [before x y], "x may stay before y". *)
Fixpoint insert_by (before : ImportmapLayer -> ImportmapLayer -> bool) (x : ImportmapLayer) (l : list ImportmapLayer)
    : list ImportmapLayer :=
  match l with
  | [] => [x]
  | y :: l' => if before x y then x :: l else y :: insert_by before x l'
  end.

Definition sort_by (before : ImportmapLayer -> ImportmapLayer -> bool) (l : list ImportmapLayer) : list ImportmapLayer :=
  foldr (insert_by before) [] l.

Definition is_tar (l : ImportmapLayer) : bool := String.eqb (ly_MediaType l) tarGzMediaType.
Definition largest_first (x y : ImportmapLayer) : bool := (ly_Size y <=? ly_Size x)%Z.
Definition smallest_first (x y : ImportmapLayer) : bool := (ly_Size x <=? ly_Size y)%Z.

(** * Paths *)

(** [path.Clean]: the walk over a path that is not rooted keeps the ".." that
    have nothing to go back from. *)
Definition clean_relative (out : list string) (seg : string) : list string :=
  if String.eqb seg "" || String.eqb seg "." then out
  else if String.eqb seg ".." then
    match last out with
    | None => [".."]
    | Some s => if String.eqb s ".." then (out ++ [".."])%list else take (length out - 1) out
    end
  else (out ++ [seg])%list.

Definition path_Clean (p : string) : string :=
  if String.eqb p "" then "."
  else if HasPrefix p "/" then Clean p
  else match foldl clean_relative [] (Split "/"%char p) with [] => "." | l => Join l "/" end.

(** What follows the first [sub] in [s]. *)
Fixpoint after_first (sub s : string) : option string :=
  match CutPrefix s sub with
  | Some t => Some t
  | None => match s with "" => None | String _ s => after_first sub s end
  end.

Definition topLevelPackageName (entry : string) : string :=
  let clean := path_Clean (TrimPrefix entry "./") in
  if negb (HasSuffix clean "/package.json") then ""
  else
    match after_first "node_modules/" clean with
    | None => ""
    | Some rest =>
        if Contains rest "node_modules/" then ""
        else
          let name := TrimSuffix rest "/package.json" in
          if String.eqb name "" || String.eqb name "package.json" then ""
          else
            let segments := length (Split "/"%char name) in
            if HasPrefix name "@" then (if (segments =? 2)%nat then name else "")
            else if (segments =? 1)%nat then name else ""
    end.

(** * Versions *)

Definition is_digit (c : ascii) : bool := let n := N_of_ascii c in ((48 <=? n) && (n <=? 57))%N.

(** [[0-9A-Za-z.-]]. *)
Definition is_suffix_byte (c : ascii) : bool :=
  let n := N_of_ascii c in
  is_digit c || ((65 <=? n) && (n <=? 90))%N || ((97 <=? n) && (n <=? 122))%N || Ascii.eqb c "." || Ascii.eqb c "-".

(** A number and what follows it. *)
Fixpoint take_digits (some : bool) (s : string) : option string :=
  match s with
  | String c s' => if is_digit c then take_digits true s' else if some then Some s else None
  | "" => if some then Some "" else None
  end.

(** Suffixes to the end: after a sign one byte at least ([need]); a "-" is
    also a byte of a suffix. *)
Fixpoint suffixes (need : bool) (s : string) : bool :=
  match s with
  | "" => negb need
  | String c s => if is_suffix_byte c then suffixes false s else if Ascii.eqb c "+" && negb need then suffixes true s else false
  end.

(** [exactVersionRe]. *)
Definition exactVersion (s : string) : bool :=
  match take_digits false s with
  | Some (String "." s) =>
      match take_digits false s with
      | Some (String "." s) =>
          match take_digits false s with
          | Some "" => true
          | Some (String c s) => if Ascii.eqb c "-" || Ascii.eqb c "+" then suffixes true s else false
          | None => false
          end
      | _ => false
      end
  | _ => false
  end.

Definition isExactVersion (version : string) : bool := exactVersion (TrimSpace version).

(** [vm_Got] is "" for a package the image does not hold. *)
Record VersionMismatch := mkMismatch { vm_Package : string; vm_Want : string; vm_Got : string }.
#[export] Instance mismatch_eq_dec : EqDecision VersionMismatch.
Proof. solve_decision. Defined.

Definition VersionMismatch_String (m : VersionMismatch) : string :=
  if String.eqb (vm_Got m) "" then vm_Package m ++ "@" ++ vm_Want m ++ " (absent from image)"
  else vm_Package m ++ " pinned " ++ vm_Want m ++ " but image has " ++ vm_Got m.

Definition package_le (a b : VersionMismatch) : Prop := string_le (vm_Package a) (vm_Package b).
#[export] Instance package_le_dec : RelDecision package_le.
Proof. intros a b. unfold package_le. apply _. Defined.
#[export] Instance package_le_trans : Transitive package_le.
Proof. intros a b c. unfold package_le. apply string_le_trans. Qed.
#[export] Instance package_le_total : Total package_le.
Proof. intros a b. apply string_le_total. Qed.

(** encoding/json: the version of a package.json, and the importmap's
    package.json of some dependencies. *)
Class PackageJSON := {
  UnmarshalVersion : string -> option string;
  MarshalPackage : gmap string string -> string;
}.

Section Verify.
Context `{!PackageJSON}.

(** An entry's package and version, where it is one of the wanted and none
    is found yet. *)
Definition collect_entry (digest : string) (wanted into : gmap string string) (e : tar_entry) : result string (gmap string string) :=
  if negb (te_Regular e) then Ok into
  else
    let name := topLevelPackageName (te_Name e) in
    if String.eqb name "" || negb (found (wanted !! name)) || found (into !! name) then Ok into
    else
      match te_Body e with
      | Err err => Err ("read " ++ te_Name e ++ " from " ++ digest ++ ": " ++ err)
      | Ok data =>
          match UnmarshalVersion data with
          | None => Ok into
          | Some version => if String.eqb version "" then Ok into else Ok (<[name := version]> into)
          end
      end.

Fixpoint collect_entries (digest : string) (wanted into : gmap string string) (l : list tar_entry)
    : result string (gmap string string) :=
  match l with
  | [] => Ok into
  | e :: l =>
      match collect_entry digest wanted into e with
      | Err err => Err err
      | Ok into => collect_entries digest wanted into l
      end
  end.

Definition collectInstalledVersions (layer : ImportmapLayer) (wanted into : gmap string string) (fetch : LayerFetcher)
    : result string (gmap string string) :=
  match fetch layer with
  | Err e => Err ("fetch layer " ++ ly_Digest layer ++ ": " ++ e)
  | Ok b =>
      match bl_Archive b with
      | Err _ => Ok into
      | Ok a =>
          match collect_entries (ly_Digest layer) wanted into (ar_Entries a), ar_Error a with
          | Ok _, Some e => Err ("read tar entry in " ++ ly_Digest layer ++ ": " ++ e)
          | r, _ => r
          end
      end
  end.

(** Layer after layer until every wanted package is found. *)
Fixpoint collect_layers (exact found : gmap string string) (fetch : LayerFetcher) (l : list ImportmapLayer)
    : result string (gmap string string) :=
  match l with
  | [] => Ok found
  | layer :: l =>
      match collectInstalledVersions layer exact found fetch with
      | Err e => Err e
      | Ok found => if (size found =? size exact)%nat then Ok found else collect_layers exact found fetch l
      end
  end.

Definition mismatch (found : gmap string string) (pin : string * string) : option VersionMismatch :=
  match found !! fst pin with
  | None => Some (mkMismatch (fst pin) (snd pin) "")
  | Some got => if String.eqb got (snd pin) then None else Some (mkMismatch (fst pin) (snd pin) got)
  end.

Definition exact_pins (pins : gmap string string) : gmap string string :=
  filter (fun p => isExactVersion (snd p) = true) pins.

Definition VerifyPinnedVersions (layers : list ImportmapLayer) (pins : gmap string string) (fetch : LayerFetcher)
    : result string (list VersionMismatch) :=
  let exact := exact_pins pins in
  if (size exact =? 0)%nat then Ok []
  else
    match collect_layers exact ∅ fetch (sort_by largest_first (filter (fun l => is_tar l = true) layers)) with
    | Err e => Err e
    | Ok found =>
        if (size found =? 0)%nat then Err "no node_modules package.json found in any layer; cannot verify pinned versions"
        else Ok (merge_sort package_le (omap (mismatch found) (map_to_list exact)))
    end.

(** * The import map *)

Definition is_importmap (e : tar_entry) : bool :=
  let clean := path_Clean (te_Name e) in
  String.eqb clean "importmap.json" || HasSuffix clean "/importmap.json".

Definition readImportmap (layer : ImportmapLayer) (fetch : LayerFetcher) : result string string :=
  let digest := ly_Digest layer in
  match fetch layer with
  | Err e => Err ("fetch layer " ++ digest ++ ": " ++ e)
  | Ok b =>
      if negb (Contains (ly_MediaType layer) "tar") then
        match bl_Bytes b with Err e => Err ("read blob " ++ digest ++ ": " ++ e) | Ok data => Ok data end
      else
        match bl_Archive b with
        | Err e => Err ("gunzip layer " ++ digest ++ ": " ++ e)
        | Ok a =>
            match List.find is_importmap (ar_Entries a), ar_Error a with
            | Some e, _ =>
                match te_Body e with
                | Err err => Err ("read importmap.json from tar in " ++ digest ++ ": " ++ err)
                | Ok data => Ok data
                end
            | None, Some e => Err ("read tar entry in " ++ digest ++ ": " ++ e)
            | None, None => Err ("importmap.json not present in layer " ++ digest)
            end
        end
  end.

(** The first that can be read; the error of the last otherwise. *)
Fixpoint first_importmap (fetch : LayerFetcher) (lastErr : option string) (l : list ImportmapLayer) : result string string :=
  match l with
  | [] =>
      match lastErr with
      | Some e => Err ("no tar+gzip layer contained importmap.json (last error: " ++ e ++ ")")
      | None => Err "no candidate importmap layer found"
      end
  | layer :: l =>
      match readImportmap layer fetch with
      | Ok body => Ok body
      | Err e => first_importmap fetch (Some e) l
      end
  end.

Definition of_type (ty : string) (layers : list ImportmapLayer) : option ImportmapLayer :=
  List.find (fun l => String.eqb (ly_MediaType l) ty) layers.

Definition FindImportmapInLayers (layers : list ImportmapLayer) (fetch : LayerFetcher) : result string string :=
  match of_type "application/vnd.kdex.importmap+json" layers with
  | Some l => readImportmap l fetch
  | None =>
      match of_type "application/json" layers with
      | Some l => readImportmap l fetch
      | None => first_importmap fetch None (sort_by smallest_first (filter (fun l => is_tar l = true) layers))
      end
  end.
End Verify.

(** * The registry *)

Record docker_auth := mkDockerAuth { da_Username : string; da_Password : string; da_Auth : string }.

(** oras.land/oras-go and net/url: the registry an image's reference names,
    and the name of its host; encoding/json of a docker config ([None]: it
    fails) and of a manifest; encoding/base64's standard encoding. *)
Class OCI := {
  NewRepository : string -> result string string;
  Hostname : string -> result string string;
  UnmarshalDockerConfig : string -> option (gmap string docker_auth);
  UnmarshalManifest : string -> result string (list ImportmapLayer);
  StdDecode : string -> option string;
}.

(** A user and a password; empty when no Secret covers the registry. *)
Record Credential := mkCredential { cd_Username : string; cd_Password : string }.
Definition EmptyCredential : Credential := mkCredential "" "".

(** The reference, whether over plain HTTP, and as whom. *)
Record connection := mkConnection { cn_Image : string; cn_PlainHTTP : bool; cn_Credential : option Credential }.

(** What a registry answers to the resolution of a reference. *)
Inductive manifest_answer := NotResolved (err : string) | NotFetched (err : string) | NotRead (err : string) | Manifest (data : string).

Section Registry.
Context `{!OCI} `{!SecretList}.

Definition is_docker (s : secret) : bool := String.eqb (se_Type s) "kubernetes.io/dockerconfigjson".

(** What follows the first ":". *)
Definition split_colon (s : string) : option (string * string) :=
  match Split ":"%char s with
  | user :: (_ :: _) as rest => Some (user, Join (tl rest) ":")
  | _ => None
  end.

(** The credential of one Secret, [None] when it has none to give. *)
Definition credential_of (registry : string) (s : secret) : option Credential :=
  auths ← UnmarshalDockerConfig (value_at (se_Data s) ".dockerconfigjson");
  a ← auths !! registry;
  if String.eqb (da_Username a) "" && String.eqb (da_Password a) "" && negb (String.eqb (da_Auth a) "") then
    decoded ← StdDecode (da_Auth a);
    p ← split_colon decoded;
    Some (mkCredential (fst p) (snd p))
  else Some (mkCredential (da_Username a) (da_Password a)).

Fixpoint first_credential (registry : string) (l : list secret) : Credential :=
  match l with
  | [] => EmptyCredential
  | s :: l => match credential_of registry s with Some c => c | None => first_credential registry l end
  end.

Definition registryCredential (registry : string) (secrets : list secret) : Credential :=
  first_credential registry (FilterSecrets is_docker secrets).

Definition openImageLayers (manifest : connection -> manifest_answer) (fetch : connection -> LayerFetcher)
    (imageRef : string) (secrets : list secret) : result string (list ImportmapLayer * LayerFetcher) :=
  match NewRepository imageRef with
  | Err e => Err ("failed to create repository client: " ++ e)
  | Ok registry =>
      match Hostname registry with
      | Err e => Err ("failed to parse registry URL: " ++ e)
      | Ok host =>
          let cred := registryCredential registry secrets in
          let c := mkConnection imageRef (HasSuffix host ".local")
                     (if String.eqb (cd_Username cred) "" then None else Some cred) in
          match manifest c with
          | NotResolved e => Err ("failed to resolve image: " ++ e)
          | NotFetched e => Err ("failed to fetch manifest: " ++ e)
          | NotRead e => Err ("failed to read manifest: " ++ e)
          | Manifest data =>
              match UnmarshalManifest data with
              | Err e => Err ("failed to parse manifest: " ++ e)
              | Ok layers => Ok (layers, fetch c)
              end
          end
      end
  end.
End Registry.

(** * Package references *)

Record PackageReference := mkPackage {
  pk_Name : string; pk_Version : string; pk_Registry : string;
  pk_SecretRef : option (string * string) (* namespace, name *) }.

Record package_references := mkPackageReferences {
  ip_Namespace : string; ip_Name : string; ip_Generation : Z;
  ip_Labels : gmap string string; ip_Annotations : gmap string string;
  ip_Host : string; ip_Packages : list PackageReference }.

Record pk_status := mkPkStatus {
  ps_Attributes : gmap string string; ps_Conditions : conditions; ps_ObservedGeneration : Z }.
#[export] Instance pk_status_eq_dec : EqDecision pk_status.
Proof. solve_decision. Defined.

Definition pk_attribute (st : pk_status) (k : string) : string := value_at (ps_Attributes st) k.
Definition pk_set (k v : string) (st : pk_status) : pk_status :=
  mkPkStatus (<[k := v]> (ps_Attributes st)) (ps_Conditions st) (ps_ObservedGeneration st).

(** The packages of the configuration; placement, pull policies and resources
    are opaque. *)
Record Packages := mkPackages {
  pc_CacheClaim : string; pc_Installer : string; pc_Runtime : string;
  pc_PackagerImage : string; pc_ToolsImage : string;
  pc_NodeSelector : gmap string string; pc_Tolerations : list Toleration }.

(** A ConfigMap or a Secret. [so_Data] is what is stored, [so_StringData] what
    is to be written over it; [so_Taken] what SetControllerReference answers
    when the object has another controller. *)
Record stored_object := mkStored {
  so_Labels : gmap string string; so_Annotations : gmap string string;
  so_Data : gmap string string; so_StringData : gmap string string;
  so_Owned : bool; so_Taken : option string }.
#[export] Instance stored_object_eq_dec : EqDecision stored_object.
Proof. solve_decision. Defined.

Inductive volume_source := EmptyDir | ConfigMapVolume (name : string) | SecretVolume (name : string) | ClaimVolume (name : string).
Record volume := mkVolume { vl_Name : string; vl_Source : volume_source }.
Record mount := mkMount { mt_Name : string; mt_Path : string; mt_SubPath : string; mt_ReadOnly : bool }.

Record packages_job := mkPackagesJob {
  pj_Request : job_request; pj_Volumes : list volume; pj_Mounts : list mount; pj_FSGroup : option Z }.

(** What a pass asks of the API server, in order. *)
Inductive packages_effect :=
  | PutConfigMap (o : stored_object) | PutSecret (o : stored_object)
  | CreatePackagesJob (j : packages_job) | DeletePackagesJob (name : string).

(** What a pass is answered. *)
Record packages_environment := mkPackagesEnvironment {
  pe_host : answer (referred InternalHost);
  pe_secrets : option (string + list secret); (* None: the host selects none *)
  pe_secret : string -> string -> answer secret; (* by namespace and name *)
  pe_config : answer stored_object; pe_npmrc : answer stored_object;
  pe_put_config : stored_object -> option string; pe_put_npmrc : stored_object -> option string;
  pe_job : string -> answer job; pe_create_job : packages_job -> option string;
  pe_jobs : string + list job; pe_pods : string + list pod; pe_delete_job : string -> answer unit;
  pe_manifest : connection -> manifest_answer; pe_blob : connection -> LayerFetcher;
  pe_write : write_answer }.

Definition isNPMSecret (s : secret) : bool := String.eqb (value_at (se_Annotations s) "kdex.dev/secret-type") "npm".

(** The namespace and name of the Secret a package names, if it names one. *)
Definition secretRefKey (ipr : package_references) (p : PackageReference) : result string (option (string * string)) :=
  match pk_SecretRef p with
  | None => Ok None
  | Some (ns, name) =>
      if negb (String.eqb ns "") && negb (String.eqb ns (ip_Namespace ipr)) then
        Err ("package " ++ pk_Name p ++ ": secretRef.namespace " ++ quoted ns ++
             " is not supported: the Secret must be in the host's namespace " ++ quoted (ip_Namespace ipr))
      else Ok (Some (ip_Namespace ipr, name))
  end.

Definition referencesSecret (ipr : package_references) (s : secret) : bool :=
  existsb (fun p => match secretRefKey ipr p with
                    | Ok (Some key) => bool_decide (key = (se_Namespace s, se_Name s))
                    | _ => false
                    end) (ip_Packages ipr).

(** [selector] is the focal host's, read from the cluster: [None] when it
    cannot be read or selects nothing. *)
Definition focalHostSelectsSecret (namespace : string) (selector : option (gmap string string -> bool)) (s : secret) : bool :=
  if negb (String.eqb (se_Namespace s) namespace) then false
  else match selector with Some matches => matches (se_Labels s) | None => false end.

(** The namespace and name of each that is to be reconciled. *)
Definition secretToRequests (R : reconciler) (iprs : string + list package_references)
    (selector : option (gmap string string -> bool)) (s : secret) : list (string * string) :=
  match iprs with
  | inl _ => []
  | inr l =>
      let selected := isNPMSecret s && focalHostSelectsSecret (rc_ControllerNamespace R) selector s in
      omap (fun ipr => if negb (String.eqb (ip_Host ipr) (rc_FocalHost R)) then None
                       else if selected || referencesSecret ipr s then Some (ip_Namespace ipr, ip_Name ipr) else None) l
  end.

Definition npmSecretChanged (old new : secret) : bool :=
  negb (bool_decide (se_Data old = se_Data new)) || negb (bool_decide (se_Labels old = se_Labels new)) ||
  negb (Bool.eqb (isNPMSecret old) (isNPMSecret new)).

Definition alreadyVerified (st : pk_status) (builtImage : string) : bool :=
  String.eqb (pk_attribute st "image") builtImage && String.eqb (pk_attribute st "verified") "pins".

Definition superseded (generation : Z) (j : job) : bool :=
  match ParseInt (value_at (jb_Labels j) ANNOTATION_GENERATION) with
  | Some g => (g <? generation)%Z
  | None => false
  end.

(** Jobs of earlier generations, running or not. *)
Definition cleanupJobs (jobs : string + list job) (del : string -> answer unit) (generation : Z) : list string * option string :=
  match jobs with
  | inl e => ([], Some e)
  | inr l => delete_each del (filter (fun j => superseded generation j = true) l)
  end.

Inductive packRefJobState := InProgress | Succeeded | TerminalFailed (msg : string).

Definition classifyPackRefJob (j : job) : packRefJobState :=
  match isCodegenJobTerminal j with
  | Some msg => TerminalFailed msg
  | None => if (0 <? jb_Succeeded j)%Z then Succeeded else InProgress
  end.

Section Controller.
Context `{!PackageJSON} `{!OCI} `{!SecretList} `{!Conditions} `{!Reasons}.
Context (R : reconciler) (packages : Packages) (DefaultNpmRegistry : string).

Notation delay := (rc_RequeueDelay R).

(** * What the Job is given *)

(** One of the two objects of a Job, made or brought up to date. *)
Definition put_stored (there : answer stored_object) (mutate : option stored_object -> result string stored_object)
    (put : stored_object -> option string) (ask : stored_object -> packages_effect)
    : list packages_effect * option string :=
  let '(es, r) := CreateOrUpdate id (unit_answer there) mutate (unit_put put) ask in
  (es, match r with Ok _ => None | Err e => Some e end).

(** A new object carries the labels and annotations of the references. *)
Definition started (ipr : package_references) (there : option stored_object) : stored_object :=
  match there with
  | Some o => o
  | None => mkStored (<["kdex.dev/packages" := ip_Name ipr]> (ip_Labels ipr)) (ip_Annotations ipr) ∅ ∅ false None
  end.

Definition SetControllerReference (o : stored_object) : result string stored_object :=
  match so_Taken o with
  | Some e => Err e
  | None => Ok (mkStored (so_Labels o) (so_Annotations o) (so_Data o) (so_StringData o) true None)
  end.

Definition dependencies (ipr : package_references) : gmap string string :=
  foldl (fun m p => <[pk_Name p := pk_Version p]> m) ∅ (ip_Packages ipr).

Definition createOrUpdateJobConfigMap (E : packages_environment) (ipr : package_references)
    : list packages_effect * option string :=
  put_stored (pe_config E)
    (fun there =>
       let o := started ipr there in
       SetControllerReference
         (mkStored (so_Labels o) (so_Annotations o) {["package.json" := MarshalPackage (dependencies ipr)]}
            (so_StringData o) (so_Owned o) (so_Taken o)))
    (pe_put_config E) PutConfigMap.

Definition newline : string := String (ascii_of_nat 10) "".

(** The registry of a package's scope, once. *)
Definition put_registry (p : PackageReference) (content : string) : string :=
  if String.eqb (pk_Registry p) "" then content
  else
    let namespace := hd "" (Split "/"%char (pk_Name p)) in
    let registry := if HasSuffix (pk_Registry p) "/" then pk_Registry p else pk_Registry p ++ "/" in
    let regEntry := namespace ++ ":registry=" ++ registry ++ newline in
    if Contains content regEntry then content else content ++ regEntry.

(** The lines of the Secret a package names. *)
Definition put_secret_ref (E : packages_environment) (ipr : package_references) (p : PackageReference) (content : string)
    : result string string :=
  match secretRefKey ipr p with
  | Err e => Err e
  | Ok None => Ok content
  | Ok (Some (ns, name)) =>
      match pe_secret E ns name with
      | Found s => Ok (content ++ value_at (se_Data s) ".npmrc" ++ newline)
      | NotFound e | Unavailable e => Err e
      end
  end.

Fixpoint render_packages (E : packages_environment) (ipr : package_references) (content : string) (l : list PackageReference)
    : result string string :=
  match l with
  | [] => Ok content
  | p :: l =>
      match put_secret_ref E ipr p content with
      | Err e => Err e
      | Ok content => render_packages E ipr (put_registry p content) l
      end
  end.

Definition npmrc (E : packages_environment) (ipr : package_references) (npmRegistry : string) (secrets : list secret)
    : result string string :=
  let registry := if Contains npmRegistry "://" then npmRegistry else "https://" ++ npmRegistry in
  let content := foldl (fun c s => c ++ value_at (se_Data s) ".npmrc" ++ newline)
                   ("registry=" ++ registry ++ newline) (FilterSecrets isNPMSecret secrets) in
  render_packages E ipr content (ip_Packages ipr).

Definition createOrUpdateJobSecret (E : packages_environment) (ipr : package_references) (npmRegistry : string)
    (secrets : list secret) : list packages_effect * option string :=
  put_stored (pe_npmrc E)
    (fun there =>
       match npmrc E ipr npmRegistry secrets with
       | Err e => Err e
       | Ok text =>
           let o := started ipr there in
           SetControllerReference
             (mkStored (so_Labels o) (so_Annotations o) (so_Data o) {[".npmrc" := text]} (so_Owned o) (so_Taken o))
       end)
    (pe_put_npmrc E) PutSecret.

(** * The Job *)

Definition SHARED_VOLUME : string := "shared-volume".
Definition CACHE_VOLUME : string := "package-cache".
Definition CACHE_DIR : string := "/cache".
Definition MODULE_PATH : string := "/-/modules".

Definition packages_tag (name : string) (generation : Z) : string := "/" ++ name ++ "/packages:" ++ FormatInt generation.

Definition imageBuiltForCurrentGeneration (ipr : package_references) (st : pk_status) : bool :=
  let image := pk_attribute st "image" in
  if String.eqb image "" || String.eqb (pk_attribute st "importmap") "" then false
  else Contains image (packages_tag (ip_Name ipr) (ip_Generation ipr) ++ "@").

Definition warm : bool := negb (String.eqb (pc_CacheClaim packages) "").

Definition packages_volumes (ipr : package_references) (push : option secret) : list volume :=
  ([mkVolume SHARED_VOLUME EmptyDir; mkVolume "build-scripts" (ConfigMapVolume (ip_Name ipr ++ "-packages"));
    mkVolume "npmrc" (SecretVolume (ip_Name ipr ++ "-secret"))] ++
   (if warm then [mkVolume CACHE_VOLUME (ClaimVolume (pc_CacheClaim packages))] else []) ++
   match push with Some s => [mkVolume "image-push-secret" (SecretVolume (se_Name s))] | None => [] end)%list.

Definition packages_mounts (push : option secret) : list mount :=
  ([mkMount SHARED_VOLUME WORKDIR "" false; mkMount "build-scripts" "/scripts" "" true;
    mkMount "npmrc" (WORKDIR ++ "/.npmrc") ".npmrc" true] ++
   (if warm then [mkMount CACHE_VOLUME CACHE_DIR "" false] else []) ++
   match push with Some _ => [mkMount "image-push-secret" (WORKDIR ++ "/config.json") ".dockerconfigjson" true] | None => [] end)%list.

Definition given (name value : string) : list EnvVar := if String.eqb value "" then [] else [env_var name value].

Definition packages_env (host : InternalHost) (ipr : package_references) (push : option secret) : list EnvVar :=
  let registry := ih_ImageRegistry host in
  ([env_var "IMAGE_REGISTRY" registry; env_var "IMAGE_URL" (registry ++ packages_tag (ip_Name ipr) (ih_Generation host));
    env_var "MODULE_PATH" MODULE_PATH; env_var "PACKAGING_DIR" (WORKDIR ++ "/node_modules");
    env_var "WORKDIR" WORKDIR; env_var "HOME" WORKDIR] ++
   given "INSTALLER" (pc_Installer packages) ++ given "RUNTIME" (pc_Runtime packages) ++
   (if warm then [env_var "NPM_CONFIG_CACHE" (CACHE_DIR ++ "/npm"); env_var "BUN_INSTALL_CACHE_DIR" (CACHE_DIR ++ "/bun")] else []) ++
   match push with
   | Some _ => [env_var "IMAGE_PUSH_SECRET_PATH" (WORKDIR ++ "/config.json"); env_var "DOCKER_CONFIG" WORKDIR]
   | None => []
   end)%list.

Definition packages_job_name (ipr : package_references) : string := ip_Name ipr ++ "-packages-" ++ FormatInt (ip_Generation ipr).

Definition requested_job (host : InternalHost) (ipr : package_references) (push : option secret) (pullSecrets : list string)
    : packages_job :=
  let env := packages_env host ipr push in
  let generation := FormatInt (ip_Generation ipr) in
  let step name image command := mkContainer name image [command] [] env in
  mkPackagesJob
    (mkJobRequest (ip_Namespace ipr) (packages_job_name ipr)
       {[LABEL_APP := APP_PACKAGES; LABEL_PACKAGES := ip_Name ipr; ANNOTATION_GENERATION := generation]}
       {[ANNOTATION_GENERATION := generation]} 1800 3 false
       [step "npm-build" (pc_ToolsImage packages) "get_modules"; step "importmap-generator" (pc_ToolsImage packages) "importmap_generator"]
       [step "packager" (pc_PackagerImage packages) "package_image"]
       pullSecrets (pc_NodeSelector packages) (pc_Tolerations packages) "" "Never")
    (packages_volumes ipr push) (packages_mounts push) (if warm then Some 65532%Z else None).

(** [Ok None]: there is no Job and none is needed. *)
Definition GetOrCreatePackRefJob (E : packages_environment) (host : InternalHost) (ipr : package_references)
    (push : option secret) (pullSecrets : list string) (st : pk_status)
    : list packages_effect * result string (option job) :=
  match pe_job E (packages_job_name ipr) with
  | Found j => ([], Ok (Some j))
  | Unavailable e => ([], Err e)
  | NotFound _ =>
      if imageBuiltForCurrentGeneration ipr st then ([], Ok None)
      else
        let q := requested_job host ipr push pullSecrets in
        match pe_create_job E q with
        | Some e => ([CreatePackagesJob q], Err ("failed to create packages job: " ++ e))
        | None => ([CreatePackagesJob q], Ok (Some (created_job (pj_Request q))))
        end
  end.

(** * A pass *)

Definition packages_pass : Type := list packages_effect * pk_status * outcome.

Definition pk_mark (s : cond_statuses) (reason msg : string) (st : pk_status) : pk_status :=
  mkPkStatus (ps_Attributes st) (SetConditions s reason msg (ps_Conditions st)) (ps_ObservedGeneration st).

Definition pk_fail (es : list packages_effect) (st : pk_status) (msg : string) : packages_pass :=
  (es, pk_mark degraded ReconcileError msg st, Failed msg).

(** [IgnoreNotFound] of the answer to a deletion. *)
Definition refused_deletion (a : answer unit) : option string := match a with Unavailable e => Some e | _ => None end.

(** Superseded Jobs deleted, then [next], or the error that stopped it. *)
Definition after_cleanup (E : packages_environment) (ipr : package_references) (es : list packages_effect) (st : pk_status)
    (next : pk_status * outcome) : packages_pass :=
  let '(names, e) := cleanupJobs (pe_jobs E) (pe_delete_job E) (ip_Generation ipr) in
  let es := (es ++ map DeletePackagesJob names)%list in
  match e with
  | Some e => (es, st, Failed e)
  | None => (es, fst next, snd next)
  end.

Definition image_ready (E : packages_environment) (ipr : package_references) (es : list packages_effect) (msg : string)
    (st : pk_status) : packages_pass :=
  after_cleanup E ipr es st (pk_mark ready ReconcileSuccess msg st, Settled).

Definition verifyBuiltImage (E : packages_environment) (ipr : package_references) (imageRef : string) (secrets : list secret)
    : result string (list VersionMismatch) :=
  let pins := dependencies ipr in
  if (size pins =? 0)%nat then Ok []
  else
    match openImageLayers (pe_manifest E) (pe_blob E) imageRef secrets with
    | Err e => Err ("open packages image " ++ imageRef ++ ": " ++ e)
    | Ok (layers, fetch) => VerifyPinnedVersions layers pins fetch
    end.

Definition built_image (host : InternalHost) (ipr : package_references) (digest : string) : string :=
  ih_ImageRegistry host ++ packages_tag (ip_Name ipr) (ip_Generation ipr) ++ "@" ++ digest.

(** The image recorded, with what its verification said of it. *)
Definition publish (E : packages_environment) (ipr : package_references) (es : list packages_effect)
    (image importmap : string) (st : pk_status) : packages_pass :=
  image_ready E ipr es "Reconciliation successful, package image ready" (pk_set "importmap" importmap (pk_set "image" image st)).

(** An image that does not hold what was pinned: its Job goes, so that it is
    built again; the status keeps the image it has. *)
Definition reject (E : packages_environment) (es : list packages_effect) (j : job) (image : string)
    (mismatches : list VersionMismatch) (st : pk_status) : packages_pass :=
  let msg := "packages image " ++ image ++ " does not match its pins: " ++ Join (map VersionMismatch_String mismatches) "; " ++
             " — refusing to publish (likely an npm propagation-window aggregation; the next reconcile rebuilds)" in
  let st := pk_mark degraded ReconcileError msg st in
  let es := (es ++ [DeletePackagesJob (jb_Name j)])%list in
  match refused_deletion (pe_delete_job E (jb_Name j)) with
  | Some e => (es, st, Failed e)
  | None => (es, st, Requeue delay)
  end.

Definition harvest (E : packages_environment) (host : InternalHost) (ipr : package_references) (secrets : list secret)
    (es : list packages_effect) (j : job) (p : pod) (st : pk_status) : packages_pass :=
  let imageDigest := TrimSpace (terminationMessage "packager" (pd_Containers p)) in
  let importmap := terminationMessage "importmap-generator" (pd_InitContainers p) in
  if String.eqb imageDigest "" || String.eqb importmap "" then (es, st, Requeue delay)
  else
    let image := built_image host ipr imageDigest in
    if alreadyVerified st image then publish E ipr es image importmap st
    else
      match verifyBuiltImage E ipr image secrets with
      | Err _ => publish E ipr es image importmap (pk_set "verified" "unknown" st)
      | Ok [] => publish E ipr es image importmap (pk_set "verified" "pins" st)
      | Ok mismatches => reject E es j image mismatches st
      end.

Definition job_found (E : packages_environment) (host : InternalHost) (ipr : package_references) (secrets : list secret)
    (es : list packages_effect) (j : job) (st : pk_status) : packages_pass :=
  let at_name := jb_Namespace j ++ "/" ++ jb_Name j in
  match classifyPackRefJob j with
  | TerminalFailed msg =>
      (es, pk_mark degraded ReconcileError
             ("packages job " ++ at_name ++ " exhausted retries: " ++ msg ++ " — inspect pods for details (Job is NOT auto-deleted)") st,
       Settled)
  | InProgress =>
      let message := "Waiting on packages job " ++ at_name ++ " to complete (Succeeded=" ++ FormatInt (jb_Succeeded j) ++
                     ", Failed=" ++ FormatInt (jb_Failed j) ++ ")" in
      let st := pk_mark progressing Reconciling message st in
      after_cleanup E ipr es st (st, Requeue delay)
  | Succeeded =>
      match GetPodForJob (pe_pods E) j with
      | Ok p => harvest E host ipr secrets es j p st
      | Err e =>
          let st := pk_mark degraded ReconcileError e st in
          let es := (es ++ [DeletePackagesJob (jb_Name j)])%list in
          match pe_delete_job E (jb_Name j) with
          | NotFound e | Unavailable e => (es, st, Failed e)
          | Found _ => (es, st, Requeue delay)
          end
      end
  end.

(** With the Secrets at hand. *)
Definition build_packages (E : packages_environment) (host : InternalHost) (ipr : package_references) (secrets : list secret)
    (st : pk_status) : packages_pass :=
  let pullSecrets := map se_Name (FilterSecrets is_docker secrets) in
  let push := FindSecret (fun s => is_docker s && String.eqb (value_at (se_Annotations s) "kdex.dev/secret-type") "docker-push") secrets in
  let '(es1, e) := createOrUpdateJobConfigMap E ipr in
  match e with
  | Some e => pk_fail es1 st e
  | None =>
      let npmRegistry := if String.eqb (ih_NpmRegistry host) "" then DefaultNpmRegistry else ih_NpmRegistry host in
      let '(es2, e) := createOrUpdateJobSecret E ipr npmRegistry secrets in
      let es := (es1 ++ es2)%list in
      match e with
      | Some e => pk_fail es st e
      | None =>
          let '(es3, r) := GetOrCreatePackRefJob E host ipr push pullSecrets st in
          let es := (es ++ es3)%list in
          match r with
          | Err e => pk_fail es st e
          | Ok None => image_ready E ipr es "Reconciliation successful, package image already built for current generation" st
          | Ok (Some j) => job_found E host ipr secrets es j st
          end
      end
  end.

Definition note_secrets (l : list secret) (st : pk_status) : pk_status :=
  foldl (fun st s => pk_set (se_Name s ++ ".secret.generation") (FormatInt (se_Generation s)) st) st l.

(** The pass up to the deferred write of the status. *)
Definition reconcile_packages (E : packages_environment) (ipr : package_references) (st : pk_status) : packages_pass :=
  let st := pk_mark reconciling Reconciling "Reconciling" st in
  match ResolveHost (pe_host E) delay false (ps_Conditions st) with
  | (cs, Stop o) => ([], mkPkStatus (ps_Attributes st) cs (ps_ObservedGeneration st), o)
  | (_, NoReference) => ([], st, Panics)
  | (_, Resolved host) =>
      match pe_secrets E with
      | None => build_packages E host ipr [] st
      | Some (inl e) => pk_fail [] st e
      | Some (inr l) => build_packages E host ipr l (note_secrets l st)
      end
  end.

Definition Reconcile (E : packages_environment) (ipr : package_references) (stored : pk_status) : packages_pass :=
  if negb (String.eqb (ip_Namespace ipr) (rc_ControllerNamespace R)) then ([], stored, Settled)
  else if negb (String.eqb (ip_Host ipr) (rc_FocalHost R)) then ([], stored, Settled)
  else
    let '(es, st, o) := reconcile_packages E ipr stored in
    let '(st, o) := write_status (pe_write E) stored (mkPkStatus (ps_Attributes st) (ps_Conditions st) (ip_Generation ipr)) o in
    (es, st, o).
End Controller.
