(* ===== verification/PackagesSpec.v ===== *)
(** The controller of package references: what a verification reports is
    exactly what the image does not hold, an image recorded as verified holds
    what is pinned, a generation is built once, and Jobs are deleted for a
    reason. *)
From S2P Require Import Prelude GoStr Deps Clients Mux Cluster Deploy DeploySpec Pipeline Packages.
From Stdlib Require Import Ascii.

#[local] Open Scope string_scope.

(** * What an image holds *)

Section Held.
Context `{!PackageJSON}.

(** The version an entry declares for a package: its package.json at the top
    of node_modules, read and well-formed, with a version. *)
Definition declared_by (name : string) (e : tar_entry) : option string :=
  if te_Regular e && negb (String.eqb name "") && String.eqb (topLevelPackageName (te_Name e)) name then
    match te_Body e with
    | Ok data => match UnmarshalVersion data with Some v => if String.eqb v "" then None else Some v | None => None end
    | Err _ => None
    end
  else None.

Fixpoint declared_in (name : string) (l : list tar_entry) : option string :=
  match l with
  | [] => None
  | e :: l => match declared_by name e with Some v => Some v | None => declared_in name l end
  end.

Definition declares (fetch : LayerFetcher) (name : string) (l : ImportmapLayer) : option string :=
  match fetch l with
  | Ok b => match bl_Archive b with Ok a => declared_in name (ar_Entries a) | Err _ => None end
  | Err _ => None
  end.

(** The version of a package in an image: the largest tar layer that declares
    one, the first of several as large. *)
Definition held (layers : list ImportmapLayer) (fetch : LayerFetcher) (name version : string) : Prop :=
  exists i l, layers !! i = Some l /\ is_tar l = true /\ declares fetch name l = Some version /\
    forall j l', layers !! j = Some l' -> is_tar l' = true -> declares fetch name l' <> None ->
      (ly_Size l' < ly_Size l)%Z \/ ly_Size l' = ly_Size l /\ (i <= j)%nat.

(** ** Reading one layer after another *)

Definition extends (wanted into into' : gmap string string) (d : string -> option string) : Prop :=
  forall name, into' !! name =
    match into !! name with Some v => Some v | None => if found (wanted !! name) then d name else None end.

Lemma collect_entry_extends digest wanted into e into' :
  collect_entry digest wanted into e = Ok into' -> extends wanted into into' (fun name => declared_by name e).
Proof.
  unfold collect_entry, declared_by. intros Hc name.
  destruct (te_Regular e); cbn [negb andb] in Hc |- *.
  2: { injection Hc as <-. by destruct (into !! name), (found (wanted !! name)). }
  set (pkg := topLevelPackageName (te_Name e)) in *.
  destruct (decide (name = pkg)) as [->|Hne].
  - rewrite String.eqb_refl, andb_true_r. destruct (String.eqb pkg "") eqn:Hemp; cbn [negb orb] in Hc |- *.
    { injection Hc as <-. by destruct (into !! pkg), (found (wanted !! pkg)). }
    destruct (wanted !! pkg) eqn:Hw; cbn [found negb orb] in Hc |- *; [|injection Hc as <-; by destruct (into !! pkg)].
    destruct (into !! pkg) eqn:Hi; cbn [found] in Hc; [by injection Hc as <-; rewrite Hi|].
    destruct (te_Body e) as [data|]; [|done]. destruct (UnmarshalVersion data) as [v|]; [|by injection Hc as <-].
    destruct (String.eqb v ""); injection Hc as <-; [done|by rewrite lookup_insert_eq].
  - assert (into' !! name = into !! name) as ->.
    { repeat (case_match; try congruence); injection Hc as <-; by rewrite ?lookup_insert_ne by done. }
    assert (String.eqb pkg name = false) as -> by (apply String.eqb_neq; congruence).
    rewrite andb_false_r. by destruct (into !! name), (found (wanted !! name)).
Qed.

Lemma extends_trans wanted into into1 into2 d1 d2 d :
  extends wanted into into1 d1 -> extends wanted into1 into2 d2 ->
  (forall name, d name = match d1 name with Some v => Some v | None => d2 name end) -> extends wanted into into2 d.
Proof.
  intros H1 H2 Hd name. rewrite H2, H1, Hd. destruct (into !! name); [done|]. destruct (found (wanted !! name)); [|done]. by destruct (d1 name).
Qed.

Lemma extends_none wanted into d : (forall name, d name = None) -> extends wanted into into d.
Proof. intros Hd name. rewrite Hd. by destruct (into !! name), (found (wanted !! name)). Qed.

Lemma collect_entries_extends digest wanted l : forall into into',
  collect_entries digest wanted into l = Ok into' -> extends wanted into into' (fun name => declared_in name l).
Proof.
  induction l as [|e l IH]; intros into into' Hc; cbn in Hc.
  - injection Hc as <-. by apply extends_none.
  - destruct (collect_entry digest wanted into e) as [into1|] eqn:He; [|done].
    eapply extends_trans; [by eapply collect_entry_extends|by apply IH|done].
Qed.

Lemma collectInstalledVersions_extends layer wanted into fetch into' :
  collectInstalledVersions layer wanted into fetch = Ok into' ->
  extends wanted into into' (fun name => declares fetch name layer).
Proof.
  unfold collectInstalledVersions, declares. intros Hc.
  destruct (fetch layer) as [b|]; [|done]. destruct (bl_Archive b) as [a|]; [|injection Hc as <-; by apply extends_none].
  destruct (collect_entries _ _ _ _) as [m|] eqn:He, (ar_Error a); try done; injection Hc as <-; by eapply collect_entries_extends.
Qed.

Fixpoint first_declared (fetch : LayerFetcher) (name : string) (l : list ImportmapLayer) : option string :=
  match l with
  | [] => None
  | x :: l => match declares fetch name x with Some v => Some v | None => first_declared fetch name l end
  end.

Lemma extends_dom wanted into into' d : dom into ⊆ dom wanted -> extends wanted into into' d -> dom into' ⊆ dom wanted.
Proof.
  intros Hd He name. rewrite !elem_of_dom, He. destruct (into !! name) eqn:Hi.
  - intros _. apply elem_of_dom, Hd, elem_of_dom. eauto.
  - destruct (wanted !! name); [eauto|]. by intros [? ?].
Qed.

(** All that is wanted is found: nothing that follows matters. *)
Lemma extends_full wanted into d : dom into ⊆ dom wanted -> size into = size wanted -> extends wanted into into d.
Proof.
  intros Hd Hs name. destruct (into !! name) eqn:Hi; [done|]. destruct (wanted !! name) eqn:Hw; [|done].
  assert (dom into = dom wanted) as Heq.
  { apply set_subseteq_size_eq; [done|]. by rewrite !size_dom, Hs. }
  assert (name ∈ dom into) as Hin by (rewrite Heq; apply elem_of_dom; eauto).
  apply elem_of_dom in Hin as [? Hin]. congruence.
Qed.

(** Stopping early finds what reading every layer would. *)
Lemma collect_layers_extends exact fetch l : forall into into',
  dom into ⊆ dom exact -> collect_layers exact into fetch l = Ok into' ->
  extends exact into into' (fun name => first_declared fetch name l).
Proof.
  induction l as [|x l IH]; intros into into' Hd Hc; cbn in Hc.
  - injection Hc as <-. by apply extends_none.
  - destruct (collectInstalledVersions x exact into fetch) as [m|] eqn:Hx; [|done].
    apply collectInstalledVersions_extends in Hx. pose proof (extends_dom _ _ _ _ Hd Hx) as Hdm.
    destruct (Nat.eqb_spec (size m) (size exact)) as [Hs|_].
    + injection Hc as <-. eapply extends_trans; [exact Hx|by eapply extends_full|done].
    + eapply extends_trans; [exact Hx|by apply IH|done].
Qed.

(** ** Choosing a layer *)

Definition heavier (x y : ImportmapLayer) : Prop := (ly_Size y <= ly_Size x)%Z.

Lemma insert_by_sorted x l : StronglySorted heavier l -> StronglySorted heavier (insert_by largest_first x l).
Proof.
  intros Hs. induction Hs as [|y l Hs IH Hall]; cbn; [by repeat constructor|].
  unfold largest_first. destruct (Z.leb_spec (ly_Size y) (ly_Size x)) as [Hle|Hlt].
  - constructor; [by constructor|]. constructor; [exact Hle|].
    eapply Forall_impl; [exact Hall|]. unfold heavier. lia.
  - constructor; [exact IH|]. clear IH Hs. induction l as [|z l IH]; cbn; [constructor; [unfold heavier; lia|done]|].
    inversion Hall; subst. case_match; constructor; [unfold heavier; lia|done|done|by apply IH].
Qed.

Lemma sort_by_sorted l : StronglySorted heavier (sort_by largest_first l).
Proof. induction l as [|x l IH]; cbn; [constructor|by apply insert_by_sorted]. Qed.

Lemma find_insert_by P x l : StronglySorted heavier l ->
  List.find P (insert_by largest_first x l) =
    if P x then match List.find P l with
                | Some y => if (ly_Size y <=? ly_Size x)%Z then Some x else Some y
                | None => Some x
                end
    else List.find P l.
Proof.
  intros Hs. induction Hs as [|y l Hs IH Hall]; cbn; [done|].
  unfold largest_first at 1. destruct (Z.leb_spec (ly_Size y) (ly_Size x)) as [Hle|Hlt]; cbn.
  - destruct (P x); [|done]. destruct (P y); [by rewrite (proj2 (Z.leb_le _ _) Hle)|].
    destruct (List.find P l) as [z|] eqn:Hf; [|done]. apply List.find_some in Hf as [Hz%list_elem_of_In _].
    rewrite Forall_forall in Hall. specialize (Hall z Hz). unfold heavier in Hall.
    assert ((ly_Size z <=? ly_Size x)%Z = true) as -> by lia. done.
  - rewrite IH. destruct (P y), (P x); try done. assert ((ly_Size y <=? ly_Size x)%Z = false) as -> by lia. done.
Qed.

(** The layer chosen: of those that fit the largest, and the first of
    several as large. *)
Definition chosen (P : ImportmapLayer -> bool) (layers : list ImportmapLayer) (i : nat) (l : ImportmapLayer) : Prop :=
  layers !! i = Some l /\ is_tar l = true /\ P l = true /\
  forall j l', layers !! j = Some l' -> is_tar l' = true -> P l' = true ->
    (ly_Size l' < ly_Size l)%Z \/ ly_Size l' = ly_Size l /\ (i <= j)%nat.

Lemma chosen_later P x layers i l :
  chosen P layers i l -> (is_tar x = true -> P x = true -> (ly_Size x < ly_Size l)%Z) -> chosen P (x :: layers) (S i) l.
Proof.
  intros (Hi & Ht & HP & Hmax) Hx. repeat split; [done..|]. intros [|j] l' Hj Ht' HP'; cbn in Hj.
  - injection Hj as ->. left. by apply Hx.
  - destruct (Hmax j l' Hj Ht' HP') as [?|[? ?]]; [by left|right; split; [done|lia]].
Qed.

Lemma chosen_first P x layers :
  is_tar x = true -> P x = true ->
  (forall j l, layers !! j = Some l -> is_tar l = true -> P l = true -> (ly_Size l <= ly_Size x)%Z) -> chosen P (x :: layers) 0 x.
Proof.
  intros Ht HP Hmax. repeat split; [done..|]. intros [|j] l' Hj Ht' HP'; cbn in Hj; [right; split; [congruence|lia]|].
  specialize (Hmax j l' Hj Ht' HP'). destruct (Z.eq_dec (ly_Size l') (ly_Size x)); [right; split; lia|left; lia].
Qed.

Lemma find_sorted P layers :
  match List.find P (sort_by largest_first (filter (fun l => is_tar l = true) layers)) with
  | Some l => exists i, chosen P layers i l
  | None => forall j l, layers !! j = Some l -> is_tar l = true -> P l = false
  end.
Proof.
  induction layers as [|x layers IH]; [by intros j l Hl|].
  destruct (is_tar x && P x) eqn:Hx.
  - apply andb_true_iff in Hx as [Ht HPx]. rewrite filter_cons_True by done. cbn [sort_by foldr].
    fold (sort_by largest_first (filter (fun l => is_tar l = true) layers)).
    rewrite find_insert_by, HPx by apply sort_by_sorted. destruct (List.find _ _) as [y|].
    + destruct IH as [i Hch]. destruct (Z.leb_spec (ly_Size y) (ly_Size x)) as [Hle|Hlt].
      * exists O. apply chosen_first; [done..|]. intros j l Hj Htl HPl. destruct Hch as (_ & _ & _ & Hmax).
        destruct (Hmax j l Hj Htl HPl) as [?|[? ?]]; lia.
      * exists (S i). by apply chosen_later.
    + exists O. apply chosen_first; [done..|]. intros j l Hj Htl HPl. specialize (IH j l Hj Htl). congruence.
  - assert (List.find P (sort_by largest_first (filter (fun l => is_tar l = true) (x :: layers))) =
            List.find P (sort_by largest_first (filter (fun l => is_tar l = true) layers))) as ->.
    { destruct (is_tar x) eqn:Ht; [|by rewrite filter_cons_False by congruence].
      rewrite filter_cons_True by done. cbn [sort_by foldr]. rewrite find_insert_by by apply sort_by_sorted.
      cbn in Hx. by rewrite Hx. }
    destruct (List.find _ _) as [l|].
    + destruct IH as [i Hch]. exists (S i). apply chosen_later; [done|]. intros Ht HP. by rewrite Ht, HP in Hx.
    + intros [|j] l Hj Ht; cbn in Hj; [injection Hj as ->; by rewrite Ht in Hx|by apply (IH j)].
Qed.

Lemma first_declared_find fetch name l :
  first_declared fetch name l =
    match List.find (fun x => found (declares fetch name x)) l with Some x => declares fetch name x | None => None end.
Proof. induction l as [|x l IH]; cbn; [done|]. destruct (declares fetch name x) eqn:Hx; cbn; [by rewrite Hx|done]. Qed.

Lemma first_declared_held fetch name layers v :
  first_declared fetch name (sort_by largest_first (filter (fun l => is_tar l = true) layers)) = Some v <->
  held layers fetch name v.
Proof.
  rewrite first_declared_find. pose proof (find_sorted (fun x => found (declares fetch name x)) layers) as Hf.
  destruct (List.find _ _) as [l|].
  - destruct Hf as (i & Hi & Ht & HP & Hmax). split.
    + intros Hv. exists i, l. repeat split; [done..|]. intros j l' Hj Ht' Hd. apply (Hmax j l' Hj Ht').
      by destruct (declares fetch name l').
    + intros (i' & l' & Hi' & Ht' & Hv & Hmax').
      destruct (Hmax i' l' Hi' Ht') as [?|[? ?]]; [by rewrite Hv|..];
        destruct (Hmax' i l Hi Ht) as [?|[? ?]]; try lia; try (by destruct (declares fetch name l)).
      assert (i = i') as <- by lia. rewrite Hi in Hi'. by injection Hi' as ->.
  - split; [done|]. intros (i & l & Hi & Ht & Hv & _). specialize (Hf i l Hi Ht). by rewrite Hv in Hf.
Qed.

Lemma exact_pins_lookup pins name want :
  exact_pins pins !! name = Some want <-> pins !! name = Some want /\ isExactVersion want = true.
Proof. unfold exact_pins. rewrite map_lookup_filter_Some. done. Qed.

Lemma found_held layers fetch exact m name v :
  collect_layers exact ∅ fetch (sort_by largest_first (filter (fun l => is_tar l = true) layers)) = Ok m ->
  m !! name = Some v <-> held layers fetch name v /\ is_Some (exact !! name).
Proof.
  intros Hc. apply collect_layers_extends in Hc; [|set_solver]. rewrite (Hc name), lookup_empty, <- first_declared_held.
  destruct (exact !! name) eqn:He; cbn [found].
  - split; [intros ->; split; [done|eauto]|by intros [-> _]].
  - split; [done|]. by intros [_ [? ?]].
Qed.

Lemma verification_found layers pins fetch ms :
  VerifyPinnedVersions layers pins fetch = Ok ms ->
  exact_pins pins = ∅ /\ ms = [] \/
  exists m, ms = merge_sort package_le (omap (mismatch m) (map_to_list (exact_pins pins))) /\
    forall name v, m !! name = Some v <-> held layers fetch name v /\ is_Some (exact_pins pins !! name).
Proof.
  unfold VerifyPinnedVersions. intros Hv. destruct (Nat.eqb_spec (size (exact_pins pins)) 0) as [Hz|_].
  { injection Hv as <-. left. split; [by apply map_size_empty_inv|done]. }
  destruct (collect_layers _ _ _ _) as [m|] eqn:Hc; [|done]. destruct (size m =? 0)%nat; [done|].
  injection Hv as <-. right. exists m. split; [done|]. intros name v. by eapply found_held.
Qed.

(** C37: What a verification reports is exactly what the image does not hold, in
    the order of the packages' names: of the pins that name one version,
    those the image holds another version of, that of its largest layer that
    declares one, and those it holds none of. That it reads no further than
    it must changes nothing. *)
Theorem mismatches_exact layers pins fetch ms :
  VerifyPinnedVersions layers pins fetch = Ok ms ->
  StronglySorted package_le ms /\
  forall m, m ∈ ms <->
    pins !! vm_Package m = Some (vm_Want m) /\ isExactVersion (vm_Want m) = true /\ vm_Got m <> vm_Want m /\
    (held layers fetch (vm_Package m) (vm_Got m) \/ vm_Got m = "" /\ forall v, ~ held layers fetch (vm_Package m) v).
Proof.
  intros [[Hz ->]|(inst & -> & Hheld)]%verification_found.
  { split; [constructor|]. intros m. split; [set_solver|]. intros (Hp & He & _).
    assert (exact_pins pins !! vm_Package m = Some (vm_Want m)) as Hl by by apply exact_pins_lookup. by rewrite Hz in Hl. }
  split; [apply StronglySorted_merge_sort; apply _|].
  intros m. rewrite merge_sort_Permutation, list_elem_of_omap. split.
  - intros ([name want] & Hin & Hm). apply elem_of_map_to_list in Hin. pose proof Hin as [Hp He]%exact_pins_lookup.
    unfold mismatch in Hm; cbn [fst snd] in Hm. destruct (inst !! name) as [got|] eqn:Hf.
    + destruct (String.eqb_spec got want); [done|]. injection Hm as <-. cbn [vm_Package vm_Want vm_Got].
      repeat (split; [done|]). left. by apply Hheld in Hf as [? _].
    + injection Hm as <-. cbn [vm_Package vm_Want vm_Got]. repeat (split; [done|]). split; [by intros <-|].
      right. split; [done|]. intros v Hh. assert (inst !! name = Some v) by (apply Hheld; split; [done|eauto]). congruence.
  - intros (Hp & He & Hne & Hgot). exists (vm_Package m, vm_Want m).
    assert (exact_pins pins !! vm_Package m = Some (vm_Want m)) as Hl by by apply exact_pins_lookup.
    split; [by apply elem_of_map_to_list|]. unfold mismatch; cbn [fst snd]. destruct m as [p want got]; cbn [vm_Package vm_Want vm_Got] in *.
    destruct Hgot as [Hh|[-> Hn]].
    + assert (inst !! p = Some got) as -> by (apply Hheld; eauto). by rewrite (proj2 (String.eqb_neq _ _) Hne).
    + destruct (inst !! p) as [v|] eqn:Hf; [|done]. apply Hheld in Hf as [Hh _]. by destruct (Hn v).
Qed.

Lemma verified_holds layers pins fetch name want :
  VerifyPinnedVersions layers pins fetch = Ok [] -> pins !! name = Some want -> isExactVersion want = true ->
  held layers fetch name want.
Proof.
  intros Hv Hp He. assert (exact_pins pins !! name = Some want) as Hl by by apply exact_pins_lookup.
  apply verification_found in Hv as [[Hz _]|(inst & Hms & Hheld)]; [by rewrite Hz in Hl|].
  assert (inst !! name = Some want) as [? _]%Hheld; [|done].
  assert (mismatch inst (name, want) = None) as Hm.
  { destruct (mismatch inst (name, want)) as [m|] eqn:Hm; [|done].
    assert (m ∈ merge_sort package_le (omap (mismatch inst) (map_to_list (exact_pins pins)))) as Hin; [|rewrite <- Hms in Hin; set_solver].
    rewrite merge_sort_Permutation, list_elem_of_omap. exists (name, want). by rewrite elem_of_map_to_list. }
  unfold mismatch in Hm; cbn [fst snd] in Hm. destruct (inst !! name) as [got|]; [|done].
  destruct (String.eqb got want) eqn:Hg; [apply String.eqb_eq in Hg; congruence|done].
Qed.

(** A verification depends on the blobs it read only. *)
Lemma collect_layers_mono exact fetch fetch' l : (forall x b, fetch x = Ok b -> fetch' x = Ok b) -> forall into m,
  collect_layers exact into fetch l = Ok m -> collect_layers exact into fetch' l = Ok m.
Proof.
  intros Hf. induction l as [|x l IH]; intros into m Hc; cbn in Hc |- *; [done|].
  destruct (collectInstalledVersions x exact into fetch) as [m1|] eqn:Hx; [|done].
  assert (collectInstalledVersions x exact into fetch' = Ok m1) as ->.
  { unfold collectInstalledVersions in Hx |- *. destruct (fetch x) as [b|] eqn:Hb; [|done]. by rewrite (Hf _ _ Hb). }
  destruct (size m1 =? size exact)%nat; [done|by apply IH].
Qed.

Lemma verification_mono layers pins fetch fetch' ms : (forall x b, fetch x = Ok b -> fetch' x = Ok b) ->
  VerifyPinnedVersions layers pins fetch = Ok ms -> VerifyPinnedVersions layers pins fetch' = Ok ms.
Proof.
  intros Hf. unfold VerifyPinnedVersions. destruct (size (exact_pins pins) =? 0)%nat; [done|].
  destruct (collect_layers _ _ fetch _) as [m|] eqn:Hc; [|done]. by rewrite (collect_layers_mono _ _ _ _ Hf _ _ Hc).
Qed.
End Held.

(** * Exact versions *)

(** One suffix: its sign, then one byte at least. *)
Definition suffix (g : string) : Prop :=
  exists c t, g = String c t /\ (c = "-" \/ c = "+")%char /\ t <> "" /\ all_bytes is_suffix_byte t = true.

Definition number (d : string) : Prop := d <> "" /\ all_bytes is_digit d = true.

Lemma take_digits_spec s : forall some r,
  take_digits some s = Some r -> exists d, s = d ++ r /\ all_bytes is_digit d = true /\ (some = false -> d <> "").
Proof.
  induction s as [|c s IH]; intros some r Ht; cbn in Ht.
  - destruct some; [|done]. injection Ht as <-. by exists "".
  - destruct (is_digit c) eqn:Hc.
    + apply IH in Ht as (d & -> & Hd & _). exists (String c d). cbn. by rewrite Hc.
    + destruct some; [|done]. injection Ht as <-. by exists "".
Qed.

Lemma take_digits_number d r : number d -> match r with "" => True | String c _ => is_digit c = false end -> take_digits false (d ++ r) = Some r.
Proof.
  intros [Hne Hd] Hr. assert (forall d, all_bytes is_digit d = true -> take_digits true (d ++ r) = Some r) as Ht.
  { clear d Hne Hd. induction d as [|c d IH]; intros Hd; cbn in Hd |- *.
    - destruct r as [|c r]; [done|]. cbn. by rewrite Hr.
    - apply andb_true_iff in Hd as [-> Hd]. by apply IH. }
  destruct d as [|c d]; [done|]. cbn in Hd |- *. apply andb_true_iff in Hd as [-> Hd]. by apply Ht.
Qed.

Definition joined (gs : list string) : string := foldr String.append "" gs.

Lemma suffixes_sound s : forall need, suffixes need s = true ->
  exists t gs, s = t ++ joined gs /\ all_bytes is_suffix_byte t = true /\ Forall suffix gs /\ (need = true -> t <> "").
Proof.
  induction s as [|c s IH]; intros need Hs; cbn in Hs.
  - exists "", []. repeat split; [constructor|]. by intros ->.
  - destruct (is_suffix_byte c) eqn:Hc.
    + apply IH in Hs as (t & gs & -> & Ht & Hgs & _). exists (String c t), gs. cbn. by rewrite Hc.
    + destruct (Ascii.eqb_spec c "+") as [->|]; [|done]. destruct need; [done|]. cbn in Hs.
      apply IH in Hs as (t & gs & -> & Ht & Hgs & Hne). exists "", (String "+" t :: gs).
      repeat split; [|done]. constructor; [|done]. exists "+"%char, t. repeat split; auto.
Qed.

Lemma suffixes_append t rest need :
  all_bytes is_suffix_byte t = true -> (need = true -> t <> "") -> suffixes false rest = true -> suffixes need (t ++ rest) = true.
Proof.
  revert need. induction t as [|c t IH]; intros need Ht Hne Hr; cbn in Ht |- *.
  - destruct need; [by destruct (Hne eq_refl)|done].
  - apply andb_true_iff in Ht as [-> Ht]. by apply IH.
Qed.

Lemma suffixes_joined gs : Forall suffix gs -> suffixes false (joined gs) = true.
Proof.
  induction 1 as [|g gs (c & t & -> & Hc & Hne & Ht) _ IH]; [done|]. cbn.
  destruct Hc as [->| ->]; cbn; by apply suffixes_append.
Qed.

(** A pin names one version exactly when it has all three numbers and, after
    them, any suffixes, each of a sign and one byte at least. *)
Theorem exact_version_spec s :
  exactVersion s = true <->
  exists a b c gs, number a /\ number b /\ number c /\ Forall suffix gs /\ s = a ++ "." ++ b ++ "." ++ c ++ joined gs.
Proof.
  unfold exactVersion. split.
  - destruct (take_digits false s) as [[|d r]|] eqn:Ha; [done| |done].
    destruct (decide (d = "."%char)) as [->|Hd]; [|intros Hs; exfalso; by destruct d as [[] [] [] [] [] [] [] []]].
    destruct (take_digits false r) as [[|d r']|] eqn:Hb; [done| |done].
    destruct (decide (d = "."%char)) as [->|Hd]; [|intros Hs; exfalso; by destruct d as [[] [] [] [] [] [] [] []]].
    destruct (take_digits false r') as [r''|] eqn:Hc; [|done]. intros Hs.
    apply take_digits_spec in Ha as (a & -> & Ha & Ha'), Hb as (b & -> & Hb & Hb'), Hc as (c & -> & Hc & Hc').
    destruct r'' as [|sign rest].
    + exists a, b, c, []. repeat split; auto.
    + destruct (Ascii.eqb sign "-" || Ascii.eqb sign "+") eqn:Hsign; [|done].
      apply suffixes_sound in Hs as (t & gs & -> & Ht & Hgs & Hne). exists a, b, c, (String sign t :: gs).
      repeat split; auto. constructor; [|done]. exists sign, t. repeat split; auto.
      apply orb_true_iff in Hsign as [->%Ascii.eqb_eq| ->%Ascii.eqb_eq]; auto.
  - intros (a & b & c & gs & Ha & Hb & Hc & Hgs & ->). cbn [String.append].
    rewrite take_digits_number, take_digits_number by done.
    rewrite take_digits_number; [|done|].
    + destruct Hgs as [|g gs (sign & t & -> & Hs & Hne & Ht) Hgs]; [done|]. cbn.
      assert (Ascii.eqb sign "-" || Ascii.eqb sign "+" = true) as -> by (destruct Hs as [->| ->]; done).
      apply suffixes_append; [done|done|by apply suffixes_joined].
    + by destruct Hgs as [|g gs (sign & t & -> & [->| ->] & _) _].
Qed.

(** * One pass *)

Definition asked (p : packages_pass) : list packages_effect := fst (fst p).
Definition left_status (p : packages_pass) : pk_status := snd (fst p).

Section Controller.
Context `{!PackageJSON} `{!OCI} `{!SecretList} `{!Conditions} `{!Reasons}.
Context (R : reconciler) (packages : Packages) (registry : string).

Notation Reconcile := (Packages.Reconcile R packages registry).
Notation build_packages := (Packages.build_packages R packages registry).

Lemma after_cleanup_asked E ipr es st next e : e ∈ asked (after_cleanup E ipr es st next) ->
  e ∈ es \/ exists l j, pe_jobs E = inr l /\ j ∈ l /\ superseded (ip_Generation ipr) j = true /\ e = DeletePackagesJob (jb_Name j).
Proof.
  unfold after_cleanup, cleanupJobs, asked. destruct (pe_jobs E) as [|l]; cbn; [rewrite app_nil_r; auto|].
  pose proof (delete_each_elem (pe_delete_job E) (filter (fun j => superseded (ip_Generation ipr) j = true) l)) as Hn.
  destruct (delete_each _ _) as [names err]. assert (e ∈ (es ++ map DeletePackagesJob names)%list -> e ∈ es \/
    exists l' j, @inr string _ l = inr l' /\ j ∈ l' /\ superseded (ip_Generation ipr) j = true /\ e = DeletePackagesJob (jb_Name j)) as Hgoal.
  { rewrite elem_of_app. intros [?|(n & -> & Hin)%list_elem_of_fmap]; [by left|right].
    destruct (Hn n Hin) as (j & Hj & <-). apply list_elem_of_filter in Hj as [Hs Hj]. eauto 10. }
  by destruct err.
Qed.

Lemma after_cleanup_attributes E ipr es st next :
  ps_Attributes (fst next) = ps_Attributes st -> ps_Attributes (left_status (after_cleanup E ipr es st next)) = ps_Attributes st.
Proof. intros Hn. unfold after_cleanup. by destruct (cleanupJobs _ _ _) as [names [e|]]. Qed.

(** What a pass that records an image has seen. *)
Definition published E host ipr secrets (st st' : pk_status) : Prop :=
  exists j p, pe_job E (packages_job_name ipr) = Found j /\ classifyPackRefJob j = Succeeded /\ GetPodForJob (pe_pods E) j = Ok p /\
    let digest := TrimSpace (terminationMessage "packager" (pd_Containers p)) in
    let image := built_image host ipr digest in
    digest <> "" /\ pk_attribute st' "image" = image /\ pk_attribute st' "importmap" <> "" /\
    (alreadyVerified st image = true /\ pk_attribute st' "verified" = "pins" \/
     verifyBuiltImage E ipr image secrets = Ok [] /\ pk_attribute st' "verified" = "pins" \/
     pk_attribute st' "verified" = "unknown").

Lemma attribute_insert k v st k' : pk_attribute (pk_set k v st) k' = if String.eqb k k' then v else pk_attribute st k'.
Proof.
  unfold pk_attribute, pk_set, value_at; cbn. destruct (String.eqb_spec k k') as [->|Hne]; [by rewrite lookup_insert_eq|].
  by rewrite lookup_insert_ne.
Qed.

Lemma pk_attribute_ext st st' k : ps_Attributes st' = ps_Attributes st -> pk_attribute st' k = pk_attribute st k.
Proof. unfold pk_attribute. by intros ->. Qed.

Lemma publish_attributes E ipr es image importmap st :
  ps_Attributes (left_status (publish E ipr es image importmap st)) =
  ps_Attributes (pk_set "importmap" importmap (pk_set "image" image st)).
Proof. by apply after_cleanup_attributes. Qed.

Lemma harvest_status E host ipr secrets es j p st :
  pe_job E (packages_job_name ipr) = Found j -> classifyPackRefJob j = Succeeded -> GetPodForJob (pe_pods E) j = Ok p ->
  let st' := left_status (harvest R E host ipr secrets es j p st) in
  ps_Attributes st' = ps_Attributes st \/ published E host ipr secrets st st'.
Proof.
  intros Hj Hs Hp st'. subst st'. unfold harvest.
  destruct (String.eqb (TrimSpace (terminationMessage "packager" (pd_Containers p))) "") eqn:Hd; [by left|].
  destruct (String.eqb (terminationMessage "importmap-generator" (pd_InitContainers p)) "") eqn:Hi; [by left|]. cbn [orb].
  apply String.eqb_neq in Hd, Hi. set (image := built_image _ _ _).
  assert (forall st1, (alreadyVerified st image = true /\ pk_attribute st1 "verified" = "pins" \/
            verifyBuiltImage E ipr image secrets = Ok [] /\ pk_attribute st1 "verified" = "pins" \/
            pk_attribute st1 "verified" = "unknown") ->
            published E host ipr secrets st (left_status (publish E ipr es image (terminationMessage "importmap-generator" (pd_InitContainers p)) st1)))
    as Hpub.
  { intros st1 Hv. exists j, p. repeat (split; [done|]). cbv zeta. fold image.
    rewrite !(pk_attribute_ext _ _ _ (publish_attributes _ _ _ _ _ _)), !attribute_insert. cbn. tauto. }
  destruct (alreadyVerified st image) eqn:Hal.
  { right. apply Hpub. left. split; [done|]. unfold alreadyVerified in Hal. by apply andb_true_iff in Hal as [_ ->%String.eqb_eq]. }
  destruct (verifyBuiltImage E ipr image secrets) as [[|m ms]|err] eqn:Hv.
  - right. apply Hpub. right. left. by rewrite attribute_insert.
  - left. unfold reject. by case_match.
  - right. apply Hpub. right. right. by rewrite attribute_insert.
Qed.

Lemma job_found_status E host ipr secrets es j st :
  pe_job E (packages_job_name ipr) = Found j \/ classifyPackRefJob j = InProgress ->
  let st' := left_status (job_found R E host ipr secrets es j st) in
  ps_Attributes st' = ps_Attributes st \/ published E host ipr secrets st st'.
Proof.
  intros Hj st'. subst st'. unfold job_found. destruct (classifyPackRefJob j) eqn:Hc.
  - left. by rewrite after_cleanup_attributes.
  - destruct Hj as [Hj|]; [|done]. destruct (GetPodForJob (pe_pods E) j) as [p|e] eqn:Hp; [by apply harvest_status|].
    left. by case_match.
  - by left.
Qed.

Lemma build_packages_status E host ipr secrets st :
  let st' := left_status (build_packages E host ipr secrets st) in
  ps_Attributes st' = ps_Attributes st \/ published E host ipr secrets st st'.
Proof.
  intros st'. subst st'. unfold Packages.build_packages.
  destruct (createOrUpdateJobConfigMap E ipr) as [es1 [e|]]; [by left|].
  destruct (createOrUpdateJobSecret _ ipr _ secrets) as [es2 [e|]]; [by left|].
  unfold GetOrCreatePackRefJob. destruct (pe_job E (packages_job_name ipr)) as [j| |] eqn:Hj.
  - apply job_found_status. by left.
  - destruct (imageBuiltForCurrentGeneration ipr st); [left; by apply after_cleanup_attributes|].
    destruct (pe_create_job E _); [by left|]. apply job_found_status. by right.
  - by left.
Qed.

Definition short (k : string) : Prop := (String.length k < 18)%nat.

Lemma note_secrets_attribute l k : short k -> forall st, pk_attribute (note_secrets l st) k = pk_attribute st k.
Proof.
  intros Hk. unfold note_secrets. induction l as [|s l IH]; intros st; [done|]. cbn [foldl].
  rewrite IH, attribute_insert. destruct (String.eqb_spec (se_Name s ++ ".secret.generation") k) as [<-|]; [|done].
  unfold short in Hk. rewrite length_append in Hk. cbn in Hk. lia.
Qed.

Lemma published_ext E host ipr secrets st st1 st' st1' :
  (forall k, short k -> pk_attribute st1 k = pk_attribute st k) -> (forall k, pk_attribute st1' k = pk_attribute st' k) ->
  published E host ipr secrets st1 st' -> published E host ipr secrets st st1'.
Proof.
  intros Hst Hst' (j & p & Hj & Hs & Hp & Hpub). exists j, p. repeat (split; [done|]). cbv zeta in Hpub |- *.
  unfold alreadyVerified in Hpub |- *. by rewrite !Hst', <- !Hst by (cbn; unfold short; cbn; lia).
Qed.

Lemma reconcile_packages_status E ipr st :
  let st' := left_status (reconcile_packages R packages registry E ipr st) in
  (forall k, short k -> pk_attribute st' k = pk_attribute st k) \/
  exists host secrets, published E host ipr secrets st st'.
Proof.
  intros st'. subst st'. unfold reconcile_packages.
  destruct (ResolveHost _ _ _ _) as [cs [|o|host]]; [by left|by left|].
  assert (forall secrets st1, (forall k, short k -> pk_attribute st1 k = pk_attribute st k) ->
    (forall k, short k -> pk_attribute (left_status (build_packages E host ipr secrets st1)) k = pk_attribute st k) \/
    exists host' secrets', published E host' ipr secrets' st (left_status (build_packages E host ipr secrets st1))) as Hb.
  { intros secrets st1 Hst1. destruct (build_packages_status E host ipr secrets st1) as [Heq|Hpub].
    - left. intros k Hk. by rewrite (pk_attribute_ext _ _ _ Heq), Hst1.
    - right. exists host, secrets. by eapply published_ext. }
  destruct (pe_secrets E) as [[e|l]|]; [by left| |by apply Hb].
  apply Hb. intros k Hk. by rewrite note_secrets_attribute.
Qed.

Lemma Reconcile_status E ipr st :
  let st' := left_status (Reconcile E ipr st) in
  (forall k, short k -> pk_attribute st' k = pk_attribute st k) \/
  exists host secrets, published E host ipr secrets st st'.
Proof.
  intros st'. subst st'. unfold Packages.Reconcile. do 2 (destruct (negb _); [by left|]).
  pose proof (reconcile_packages_status E ipr st) as Hs.
  destruct (reconcile_packages R packages registry E ipr st) as [[es st1] o]. cbn in Hs.
  destruct (write_status (pe_write E) st _ o) as [st2 o2] eqn:Hw. cbn [left_status fst snd].
  assert (st2 = st \/ ps_Attributes st2 = ps_Attributes st1) as [->|Heq]; [|by left|].
  { unfold write_status in Hw. repeat (case_match; try (injection Hw as <- <-; auto; fail)). }
  destruct Hs as [Hs|(host & secrets & Hpub)].
  - left. intros k Hk. by rewrite (pk_attribute_ext _ _ _ Heq), Hs.
  - right. exists host, secrets. eapply published_ext; [done| |exact Hpub]. intros k. by apply pk_attribute_ext.
Qed.

(** ** What is asked for *)

Lemma put_stored_asked there mutate put ask e : e ∈ (put_stored there mutate put ask).1 -> exists o, e = ask o.
Proof.
  unfold put_stored, CreateOrUpdate. intros He. repeat (case_match; simplify_eq/=; try by apply elem_of_nil in He).
  all: apply list_elem_of_singleton in He; eauto.
Qed.

(** What an effect is for. *)
Definition justified E ipr (st : pk_status) (e : packages_effect) : Prop :=
  match e with
  | PutConfigMap _ | PutSecret _ => True
  | CreatePackagesJob q =>
      (exists msg, pe_job E (packages_job_name ipr) = NotFound msg) /\ imageBuiltForCurrentGeneration ipr st = false /\
      jq_Name (pj_Request q) = packages_job_name ipr /\ jq_AutomountToken (pj_Request q) = false
  | DeletePackagesJob n =>
      (exists l j, pe_jobs E = inr l /\ j ∈ l /\ jb_Name j = n /\ superseded (ip_Generation ipr) j = true) \/
      (exists j, pe_job E (packages_job_name ipr) = Found j /\ jb_Name j = n /\ classifyPackRefJob j = Succeeded /\
         forall p, GetPodForJob (pe_pods E) j = Ok p ->
           exists host secrets m ms, pe_host E = Found host /\
             let image := built_image (rf_object host) ipr (TrimSpace (terminationMessage "packager" (pd_Containers p))) in
             verifyBuiltImage E ipr image secrets = Ok (m :: ms))
  end.

Lemma after_cleanup_justified E ipr es st0 st next :
  (forall e, e ∈ es -> justified E ipr st0 e) -> forall e, e ∈ asked (after_cleanup E ipr es st next) -> justified E ipr st0 e.
Proof. intros Hes e [?|(l & j & Hl & Hj & Hs & ->)]%after_cleanup_asked; [by apply Hes|]. left. eauto 10. Qed.

Lemma job_found_justified E host ipr secrets es j st0 st :
  (exists h, pe_host E = Found h /\ host = rf_object h) ->
  pe_job E (packages_job_name ipr) = Found j \/ classifyPackRefJob j = InProgress ->
  (forall e, e ∈ es -> justified E ipr st0 e) ->
  forall e, e ∈ asked (job_found R E host ipr secrets es j st) -> justified E ipr st0 e.
Proof.
  intros (h & Hh & ->) Hj Hes e. unfold job_found. destruct (classifyPackRefJob j) eqn:Hc.
  - by apply after_cleanup_justified.
  - destruct Hj as [Hj|]; [|done].
    assert ((forall p, GetPodForJob (pe_pods E) j = Ok p -> exists host secrets m ms, pe_host E = Found host /\
               let image := built_image (rf_object host) ipr (TrimSpace (terminationMessage "packager" (pd_Containers p))) in
               verifyBuiltImage E ipr image secrets = Ok (m :: ms)) ->
            e ∈ (es ++ [DeletePackagesJob (jb_Name j)])%list -> justified E ipr st0 e) as Hdel.
    { intros Hp. rewrite elem_of_app, list_elem_of_singleton. intros [?| ->]; [by apply Hes|]. right. by exists j. }
    destruct (GetPodForJob (pe_pods E) j) as [p|err] eqn:Hp.
    + unfold harvest. destruct (_ || _); [apply Hes|].
      destruct (alreadyVerified _ _); [by apply after_cleanup_justified|].
      destruct (verifyBuiltImage _ _ _ _) as [[|m ms]|] eqn:Hv; [by apply after_cleanup_justified| |by apply after_cleanup_justified].
      intros He. apply Hdel.
      * intros p' [= <-]. exists h, secrets, m, ms. split; [done|exact Hv].
      * revert He. unfold reject. by case_match.
    + intros He. apply Hdel; [done|]. revert He. by case_match.
  - apply Hes.
Qed.

Lemma build_packages_justified E host ipr secrets st :
  (exists h, pe_host E = Found h /\ host = rf_object h) ->
  forall e, e ∈ asked (build_packages E host ipr secrets st) -> justified E ipr st e.
Proof.
  intros Hh e. unfold Packages.build_packages.
  destruct (createOrUpdateJobConfigMap E ipr) as [es1 e1] eqn:Hcm.
  assert (forall e, e ∈ es1 -> justified E ipr st e) as Hes1.
  { intros x Hx. assert (x ∈ (createOrUpdateJobConfigMap E ipr).1) as [o ->]%put_stored_asked by by rewrite Hcm. done. }
  destruct e1; [apply Hes1|].
  destruct (createOrUpdateJobSecret E ipr _ secrets) as [es2 e2] eqn:Hsec.
  assert (forall e, e ∈ (es1 ++ es2)%list -> justified E ipr st e) as Hes2.
  { intros x [Hx|Hx]%elem_of_app; [by apply Hes1|].
    match type of Hsec with ?t = _ => assert (x ∈ t.1) as [o ->]%put_stored_asked by by rewrite Hsec end. done. }
  destruct e2; [apply Hes2|]. unfold GetOrCreatePackRefJob.
  destruct (pe_job E (packages_job_name ipr)) as [j|msg|msg] eqn:Hj.
  - rewrite app_nil_r. apply job_found_justified; [done|by left|done].
  - destruct (imageBuiltForCurrentGeneration ipr st) eqn:Hb; [rewrite app_nil_r; by apply after_cleanup_justified|].
    assert (forall q, q = requested_job packages host ipr (FindSecret (fun s => is_docker s && String.eqb (value_at (se_Annotations s) "kdex.dev/secret-type") "docker-push") secrets)
                            (map se_Name (FilterSecrets is_docker secrets)) ->
            forall e, e ∈ ((es1 ++ es2) ++ [CreatePackagesJob q])%list -> justified E ipr st e) as Hes3.
    { intros q -> x. rewrite elem_of_app, list_elem_of_singleton. intros [?| ->]; [by apply Hes2|]. cbn. eauto. }
    destruct (pe_create_job E _); [by apply Hes3|]. apply job_found_justified; [done|by right|by apply Hes3].
  - rewrite app_nil_r. apply Hes2.
Qed.

Lemma imageBuilt_ext ipr st st' : (forall k, short k -> pk_attribute st' k = pk_attribute st k) ->
  imageBuiltForCurrentGeneration ipr st' = imageBuiltForCurrentGeneration ipr st.
Proof. intros Hk. unfold imageBuiltForCurrentGeneration. by rewrite !Hk by (unfold short; cbn; lia). Qed.

Lemma Reconcile_justified E ipr st e : e ∈ asked (Reconcile E ipr st) -> justified E ipr st e.
Proof.
  unfold Packages.Reconcile. do 2 (destruct (negb _); [by intros ?%elem_of_nil|]).
  intros He. assert (e ∈ asked (reconcile_packages R packages registry E ipr st)) as Hr.
  { destruct (reconcile_packages R packages registry E ipr st) as [[es st1] o]. by destruct (write_status _ _ _ _). }
  clear He. revert Hr. unfold reconcile_packages, ResolveHost.
  destruct (pe_host E) as [h| |] eqn:Hh; [|by intros ?%elem_of_nil..].
  cbn [andb]. set (st1 := pk_mark _ _ _ _).
  assert (forall secrets st2, (forall k, short k -> pk_attribute st2 k = pk_attribute st k) ->
    e ∈ asked (build_packages E (rf_object h) ipr secrets st2) -> justified E ipr st e) as Hb.
  { intros secrets st2 Hst2 He. apply build_packages_justified in He; [|eauto].
    destruct e; [done..| |done]. cbn in He |- *. by rewrite <- (imageBuilt_ext ipr st st2 Hst2). }
  destruct (pe_secrets E) as [[err|l]|]; [by intros ?%elem_of_nil| |by apply Hb].
  apply Hb. intros k Hk. by rewrite note_secrets_attribute.
Qed.
End Controller.

(** * The life of the references *)

(** A registry's images by digest: what an image holds is what it is. *)
Definition contents : Type := string -> list ImportmapLayer * LayerFetcher.

Lemma FormatInt_no_colon z : has_byte ":" (FormatInt z) = false.
Proof.
  unfold FormatInt, DecimalString.NilZero.string_of_int, DecimalString.NilZero.string_of_uint.
  assert (forall d, has_byte ":" (DecimalString.NilEmpty.string_of_uint d) = false) as Hd by (intros d; induction d; done).
  assert (forall d, has_byte ":" match d with Decimal.Nil => "0" | _ => DecimalString.NilEmpty.string_of_uint d end = false)
    as Hd' by (intros []; [done|apply (Hd (_ _))..]).
  destruct (Z.to_int z) as [d|d]; [apply Hd'|]. cbn. apply Hd'.
Qed.

(** An image is of one generation. *)
Lemma packages_tag_inj registry registry' name g g' digest digest' :
  has_byte "@" digest = false -> has_byte "@" digest' = false ->
  registry ++ packages_tag name g ++ "@" ++ digest = registry' ++ packages_tag name g' ++ "@" ++ digest' -> g = g'.
Proof.
  intros Hd Hd' Heq. rewrite <- !(append_assoc _ (packages_tag _ _)) in Heq. apply append_sep_inj in Heq as [Heq _]; [|done..].
  assert (forall r n, r ++ packages_tag name n = (r ++ "/" ++ name ++ "/packages") ++ ":" ++ FormatInt n) as Htag.
  { intros r n. unfold packages_tag. by rewrite !append_assoc. }
  rewrite !Htag in Heq. apply append_sep_inj in Heq as [_ Heq]; [by apply FormatInt_inj|apply FormatInt_no_colon..].
Qed.

Section Life.
Context `{!PackageJSON} `{!OCI} `{!SecretList} `{!Conditions} `{!Reasons}.
Context (R : reconciler) (packages : Packages) (registry : string) (C : contents).

(** Whatever else fails, the registry answers with what the image holds, and
    the packager reports digests. *)
Definition truthful (E : packages_environment) : Prop :=
  (forall image secrets layers fetch, openImageLayers (pe_manifest E) (pe_blob E) image secrets = Ok (layers, fetch) ->
     layers = fst (C image) /\ forall l b, fetch l = Ok b -> snd (C image) l = Ok b) /\
  (forall l p, pe_pods E = inr l -> p ∈ l -> has_byte "@" (TrimSpace (terminationMessage "packager" (pd_Containers p))) = false).

(** An edit, which makes another generation or leaves the packages as they
    are, and a pass. *)
Inductive packages_step : package_references * pk_status -> package_references * pk_status -> Prop :=
  | packages_edited ipr ipr' st :
      ip_Name ipr' = ip_Name ipr ->
      (ip_Generation ipr < ip_Generation ipr')%Z \/ ip_Generation ipr' = ip_Generation ipr /\ ip_Packages ipr' = ip_Packages ipr ->
      packages_step (ipr, st) (ipr', st)
  | packages_reconciled E ipr st :
      truthful E -> packages_step (ipr, st) (ipr, left_status (Packages.Reconcile R packages registry E ipr st)).

Definition holds_pins (image : string) (pins : gmap string string) : Prop :=
  forall name want, pins !! name = Some want -> isExactVersion want = true -> held (fst (C image)) (snd (C image)) name want.

(** An image recorded as verified was made for a generation, and holds what
    that one pinned. *)
Definition verified_for (s : package_references * pk_status) : Prop :=
  pk_attribute (snd s) "verified" = "pins" ->
  exists reg g digest pins,
    pk_attribute (snd s) "image" = reg ++ packages_tag (ip_Name (fst s)) g ++ "@" ++ digest /\ has_byte "@" digest = false /\
    (g <= ip_Generation (fst s))%Z /\ holds_pins (pk_attribute (snd s) "image") pins /\
    (g = ip_Generation (fst s) -> pins = dependencies (fst s)).

Lemma verifyBuiltImage_holds E ipr image secrets : truthful E ->
  verifyBuiltImage E ipr image secrets = Ok [] -> holds_pins image (dependencies ipr).
Proof.
  intros [Ht _]. unfold verifyBuiltImage. destruct (Nat.eqb_spec (size (dependencies ipr)) 0) as [Hz|_].
  { apply map_size_empty_inv in Hz. intros _ name want. by rewrite Hz. }
  destruct (openImageLayers _ _ image secrets) as [[layers fetch]|] eqn:Ho; [|done].
  apply Ht in Ho as [-> Hf]. intros Hv name want. apply verified_holds. by eapply verification_mono.
Qed.

Lemma verified_for_step s s' : packages_step s s' -> verified_for s -> verified_for s'.
Proof.
  intros [ipr ipr' st Hname Hgen|E ipr st Ht] Hinv Hv; cbn [fst snd] in *.
  - destruct (Hinv Hv) as (reg & g & digest & pins & Himg & Hd & Hg & Hh & Hp). exists reg, g, digest, pins.
    cbn [fst snd] in *. rewrite Hname. repeat (split; [done|]). split; [lia|]. split; [done|]. intros ->.
    destruct Hgen as [?|[Hg' Hpk]]; [lia|]. rewrite Hp by done. unfold dependencies. by rewrite Hpk.
  - pose proof (Reconcile_status R packages registry E ipr st) as [Hsame|(host & secrets & Hpub)].
    + unfold verified_for; cbn [fst snd]. rewrite !Hsame in * by (unfold short; cbn; lia). by apply Hinv.
    + destruct Hpub as (j & p & Hj & _ & Hp & _ & Himg & _ & Hver). cbv zeta in Himg, Hver.
      assert (has_byte "@" (TrimSpace (terminationMessage "packager" (pd_Containers p))) = false) as Hd.
      { destruct Ht as [_ Ht]. unfold GetPodForJob in Hp. destruct (pe_pods E) as [|l] eqn:Hl; [done|].
        destruct (List.find _ l) eqn:Hf; [|done]. injection Hp as ->. apply (Ht l); [done|]. by apply List.find_some in Hf as [?%list_elem_of_In _]. }
      rewrite Himg in *. set (digest := TrimSpace _) in *.
      exists (ih_ImageRegistry host), (ip_Generation ipr), digest, (dependencies ipr). cbn [fst snd].
      unfold built_image. repeat (split; [done|]). split; [|done].
      destruct Hver as [[Hal _]|[[Hok _]|Hu]]; [|by eapply verifyBuiltImage_holds|by rewrite Hu in Hv].
      unfold alreadyVerified in Hal. apply andb_true_iff in Hal as [Hold%String.eqb_eq Hpins%String.eqb_eq].
      destruct (Hinv Hpins) as (reg & g & digest' & pins & Himg' & Hd' & _ & Hh & Hpins'). cbn [fst snd] in *.
      rewrite Hold in Himg', Hh. unfold built_image in Himg', Hh.
      pose proof (packages_tag_inj _ _ _ _ _ _ _ Hd Hd' Himg') as <-. rewrite <- Hpins' by done. exact Hh.
Qed.
End Life.

(** C23: An image recorded as verified holds what its generation pins: whatever was
    edited, and whatever passes failed at or published unverified in between,
    the image that is recorded for the generation the references are at, and
    recorded as verified against its pins, holds of each package pinned to one
    version that very version. *)
Theorem pinned_is_verified `{!PackageJSON, !OCI, !SecretList, !Conditions, !Reasons} R packages npm C ipr0 st0 ipr st reg digest :
  ps_Attributes st0 = ∅ -> rtc (packages_step R packages npm C) (ipr0, st0) (ipr, st) ->
  pk_attribute st "image" = reg ++ packages_tag (ip_Name ipr) (ip_Generation ipr) ++ "@" ++ digest -> has_byte "@" digest = false ->
  pk_attribute st "verified" = "pins" ->
  forall name want, dependencies ipr !! name = Some want -> isExactVersion want = true ->
    held (fst (C (pk_attribute st "image"))) (snd (C (pk_attribute st "image"))) name want.
Proof.
  intros Hst0 Hrtc Himg Hd Hv. assert (verified_for C (ipr0, st0)) as Hinv.
  { unfold verified_for, pk_attribute; cbn [snd]. by rewrite Hst0. }
  assert (forall s s', rtc (packages_step R packages npm C) s s' -> verified_for C s -> verified_for C s') as Hstep.
  { induction 1 as [|s1 s2 s3 H12 _ IH]; [done|]. intros Hs1. eapply IH, verified_for_step; eauto. }
  destruct (Hstep _ _ Hrtc Hinv Hv) as (reg' & g & digest' & pins & Himg' & Hd' & _ & Hh & Hp). cbn [fst snd] in *.
  assert (ip_Generation ipr = g) as <-.
  { rewrite Himg in Himg'. by eapply packages_tag_inj; [| |exact Himg']. }
  rewrite Hp in Hh by done. exact Hh.
Qed.

(** What each of a sequence of passes asks for, and the status they leave. *)
Fixpoint passes `{!PackageJSON, !OCI, !SecretList, !Conditions, !Reasons} R packages npm (ipr : package_references)
    (st : pk_status) (Es : list packages_environment) : list (list packages_effect) * pk_status :=
  match Es with
  | [] => ([], st)
  | E :: Es =>
      let p := Packages.Reconcile R packages npm E ipr st in
      let '(asks, st') := passes R packages npm ipr (left_status p) Es in
      (asked p :: asks, st')
  end.

Lemma imageBuilt_spec ipr st :
  imageBuiltForCurrentGeneration ipr st = true <->
  pk_attribute st "importmap" <> "" /\
  Contains (pk_attribute st "image") (packages_tag (ip_Name ipr) (ip_Generation ipr) ++ "@") = true.
Proof.
  unfold imageBuiltForCurrentGeneration. destruct (String.eqb_spec (pk_attribute st "image") "") as [Hi|Hi]; cbn [orb].
  - split; [done|]. rewrite Hi. by intros [_ ?].
  - destruct (String.eqb_spec (pk_attribute st "importmap") ""); cbn; naive_solver.
Qed.

Lemma imageBuilt_kept `{!PackageJSON, !OCI, !SecretList, !Conditions, !Reasons} R packages npm E ipr st :
  imageBuiltForCurrentGeneration ipr st = true ->
  imageBuiltForCurrentGeneration ipr (left_status (Packages.Reconcile R packages npm E ipr st)) = true.
Proof.
  intros Hb. destruct (Reconcile_status R packages npm E ipr st) as [Hs|(host & secrets & Hp)]; [by rewrite (imageBuilt_ext _ st)|].
  destruct Hp as (j & p & _ & _ & _ & _ & Himg & Him & _). apply imageBuilt_spec. split; [done|]. rewrite Himg.
  apply Contains_spec. exists (ih_ImageRegistry host), (TrimSpace (terminationMessage "packager" (pd_Containers p))).
  unfold built_image. by rewrite append_assoc.
Qed.

(** A generation is built once: when its image is recorded no pass that
    follows builds another, whether the Job is there or not, and its image
    stays recorded. *)
Theorem built_once `{!PackageJSON, !OCI, !SecretList, !Conditions, !Reasons} R packages npm ipr st Es :
  imageBuiltForCurrentGeneration ipr st = true ->
  let '(asks, st') := passes R packages npm ipr st Es in
  imageBuiltForCurrentGeneration ipr st' = true /\ Forall (fun es => forall q, ~ CreatePackagesJob q ∈ es) asks.
Proof.
  revert st. induction Es as [|E Es IH]; intros st Hb; cbn [passes]; [by split|].
  pose proof (imageBuilt_kept R packages npm E ipr st Hb) as Hb'.
  specialize (IH _ Hb'). destruct (passes _ _ _ _ _ _) as [asks st']. destruct IH as [Hst' Hall]. split; [done|].
  constructor; [|done]. intros q (_ & Hn & _)%Reconcile_justified. by rewrite Hb in Hn.
Qed.

(** A pass deletes a Job only when it is of an earlier generation, or when it
    is this generation's, has succeeded, and left no pod to read or an image
    that was found not to hold its pins. *)
Theorem package_jobs_deleted `{!PackageJSON, !OCI, !SecretList, !Conditions, !Reasons} R packages npm E ipr st n :
  DeletePackagesJob n ∈ asked (Packages.Reconcile R packages npm E ipr st) ->
  (exists l j, pe_jobs E = inr l /\ j ∈ l /\ jb_Name j = n /\ superseded (ip_Generation ipr) j = true) \/
  (exists j, pe_job E (packages_job_name ipr) = Found j /\ jb_Name j = n /\ classifyPackRefJob j = Succeeded /\
     forall p, GetPodForJob (pe_pods E) j = Ok p ->
       exists host secrets m ms, pe_host E = Found host /\
         let image := built_image (rf_object host) ipr (TrimSpace (terminationMessage "packager" (pd_Containers p))) in
         verifyBuiltImage E ipr image secrets = Ok (m :: ms)).
Proof. intros Hn. exact (Reconcile_justified R packages npm E ipr st _ Hn). Qed.

(** * On concrete references *)

#[local] Instance json : PackageJSON := {| UnmarshalVersion s := Some s; MarshalPackage _ := "{}" |}.
#[local] Instance oci : OCI := {|
  NewRepository _ := Ok "registry"; Hostname := Ok; UnmarshalDockerConfig _ := None;
  UnmarshalManifest _ := Ok [mkLayer tarGzMediaType "sha256:small" 10; mkLayer tarGzMediaType "sha256:large" 900]; StdDecode := Some |}.
#[local] Instance secret_list : SecretList := {| FindSecret := @List.find secret; FilterSecrets := @List.filter secret |}.
#[local] Instance conds : Conditions := conditionsExample.
#[local] Instance reasons : Reasons := {| Reconciling := "Reconciling"; ReconcileSuccess := "Success"; ReconcileError := "Error" |}.

Definition modules (version : string) : LayerFetcher := fun l =>
  Ok (mkBlob (Ok "") (Ok (mkArchive
    (if String.eqb (ly_Digest l) "sha256:large" then
       [mkEntry true "./node_modules/lit/package.json" (Ok version);
        mkEntry true "./node_modules/lit/node_modules/lit/package.json" (Ok "1.0.0")]
     else [mkEntry true "importmap.json" (Ok "{}")]) None))).

Definition layers : list ImportmapLayer := [mkLayer tarGzMediaType "sha256:small" 10; mkLayer tarGzMediaType "sha256:large" 900].

Definition shop_host : InternalHost := mkInternalHost "shop" "web" 7 "https" ["shop.example"] "registry" "" None None.
Definition shop_packages : package_references :=
  mkPackageReferences "web" "shop" 2 ∅ ∅ "shop" [mkPackage "lit" "3.1.0" "" None; mkPackage "@kdex/ui" "^2.0.0" "npm.example" None].
Definition shop_reconciler : reconciler := mkReconciler "web" "shop" None (5 * second) "host-manager" "" None.
Definition warm_packages : Packages := mkPackages "npm-cache" "" "" "packager" "tools" ∅ [].
Definition no_status : pk_status := mkPkStatus ∅ ∅ 0.

Definition done_job : job := mkJob "web" "shop-packages-2" ∅ {[ANNOTATION_GENERATION := "2"]} true 1 0 [].
Definition done_pod : pod :=
  mkPod {[ANNOTATION_GENERATION := "2"]} [("packager", Some "sha256:1")] [("importmap-generator", Some "{}")].

Definition cluster (j : answer job) (m : manifest_answer) (version : string) : packages_environment :=
  mkPackagesEnvironment (Found (mkReferred shop_host ∅)) None (fun _ _ => NotFound "") (NotFound "") (NotFound "")
    (fun _ => None) (fun _ => None) (fun _ => j) (fun _ => None) (inr []) (inr [done_pod]) (fun _ => Found ())
    (fun _ => m) (fun _ => modules version) Written.

#[local] Notation reconcile := (Packages.Reconcile shop_reconciler warm_packages "registry.npmjs.org").
#[local] Notation run := (passes shop_reconciler warm_packages "registry.npmjs.org" shop_packages no_status).

Definition after_build : pk_status := left_status (reconcile (cluster (Found done_job) (Manifest "") "3.1.0") shop_packages no_status).

Example built : pk_attribute after_build "image" = "registry/shop/packages:2@sha256:1" /\ pk_attribute after_build "verified" = "pins" /\
  status_of (ps_Conditions after_build) "Ready" = Some CTrue.
Proof. by vm_compute. Qed.

(** An image the registry could not be asked about is published; once it is
    found not to hold its pins its Job is deleted, and nothing builds it
    again: the pass after that reports it ready. *)
Example stale_stays :
  let '(asks, st) := run [cluster (Found done_job) (NotResolved "timeout") "3.0.0"; cluster (Found done_job) (Manifest "") "3.0.0";
                          cluster (NotFound "") (Manifest "") "3.0.0"] in
  existsb (fun e => match e with DeletePackagesJob _ => true | _ => false end) (mjoin asks) = true /\
  existsb (fun e => match e with CreatePackagesJob _ => true | _ => false end) (mjoin asks) = false /\
  pk_attribute st "image" = "registry/shop/packages:2@sha256:1" /\ pk_attribute st "verified" = "unknown" /\
  status_of (ps_Conditions st) "Ready" = Some CTrue.
Proof. by vm_compute. Qed.

(** The version is compared as it is written, and recognised with its spaces
    trimmed. *)
Example spaced_pin : isExactVersion " 3.1.0" = true /\
  VerifyPinnedVersions layers {["lit" := " 3.1.0"]} (modules "3.1.0") = Ok [mkMismatch "lit" " 3.1.0" "3.1.0"].
Proof. by vm_compute. Qed.

(** Any directory whose name ends in node_modules is taken for node_modules. *)
Example other_directory : topLevelPackageName "my_node_modules/lit/package.json" = "lit".
Proof. reflexivity. Qed.

Lemma mismatches_exact_witness :
  VerifyPinnedVersions layers {["lit" := "3.1.0"; "preact" := "10.0.0"]} (modules "3.0.0") =
    Ok [mkMismatch "lit" "3.1.0" "3.0.0"; mkMismatch "preact" "10.0.0" ""] /\
  StronglySorted package_le [mkMismatch "lit" "3.1.0" "3.0.0"; mkMismatch "preact" "10.0.0" ""].
Proof. split; [by vm_compute|]. apply (mismatches_exact layers {["lit" := "3.1.0"; "preact" := "10.0.0"]} (modules "3.0.0")). by vm_compute. Defined.

Lemma truthful_cluster j m : truthful (fun _ => (layers, modules "3.1.0")) (cluster j m "3.1.0").
Proof.
  split.
  - intros image secrets ls fetch. unfold openImageLayers; cbn. destruct m; [done..|]. intros [= <- <-]. done.
  - intros l p [= <-] ->%list_elem_of_singleton. reflexivity.
Qed.

Lemma pinned_is_verified_witness :
  pk_attribute after_build "image" = "registry/shop/packages:2@sha256:1" /\ held layers (modules "3.1.0") "lit" "3.1.0".
Proof.
  split; [by vm_compute|].
  apply (pinned_is_verified shop_reconciler warm_packages "registry.npmjs.org" (fun _ => (layers, modules "3.1.0"))
           shop_packages no_status shop_packages after_build "registry" "sha256:1" eq_refl).
  - apply rtc_once. exact (packages_reconciled _ _ _ _ (cluster (Found done_job) (Manifest "") "3.1.0") _ _ (truthful_cluster _ _)).
  - by vm_compute.
  - reflexivity.
  - by vm_compute.
  - reflexivity.
  - reflexivity.
Defined.

Lemma built_once_witness :
  let asks := fst (passes shop_reconciler warm_packages "registry.npmjs.org" shop_packages after_build
                     [cluster (NotFound "") (Manifest "") "3.1.0"]) in
  length asks = 1%nat /\ Forall (fun es => forall q, ~ CreatePackagesJob q ∈ es) asks.
Proof.
  split; [by vm_compute|].
  exact (proj2 (built_once shop_reconciler warm_packages "registry.npmjs.org" shop_packages after_build
                 [cluster (NotFound "") (Manifest "") "3.1.0"] ltac:(by vm_compute))).
Defined.
