(* ===== verification/InternalHost.v ===== *)
(** The controller of the host itself
    (src/internal/controller/kdexinternalhost_controller.go, with what it
    collects by from utils.go): a pass resolves what the host refers to,
    collects the packages, scripts and backends it needs, claims their paths,
    has the packages built, deploys the backends and routes traffic to them,
    and hands the whole to the host handler. Reads of the API server and of
    the handler are a record of answers; a pass is written in a monad of its
    own. Building the authentication is an answer too: its parts are modelled
    elsewhere. The sniffer of a host in development mode and the watches but
    for their predicates are left out. *)
From S2P Require Import Prelude GoStr Deps Clients Cluster Deploy Pipeline Packages PatHandlers Routes.
From Stdlib Require Import Ascii.

#[local] Open Scope string_scope.

(** * Data *)

Record Backend := mkHostBackend {
  bk_IngressPath : string; bk_StaticImage : string; bk_StaticImagePullPolicy : string;
  bk_ServerImage : string; bk_ServerImagePullPolicy : string;
  bk_Env : list EnvVar; bk_Replicas : option Z; bk_Resources : option string }.

Definition no_backend : Backend := mkHostBackend "" "" "" "" "" [] None None.

Record ScriptDef := mkScript { sd_Text : string }.

Inductive utility_type := Announcement | Consent | ErrorPage | LoginPage.
#[export] Instance utility_type_eq_dec : EqDecision utility_type.
Proof. solve_decision. Defined.

(** kdex.dev/crds: whether a backend has anything to serve, given the default
    image, the tag of a script, and the text of a type of utility page. *)
Class HostCRDs := {
  IsConfigured : Backend -> string -> bool; ToTag : ScriptDef -> string; utility_text : utility_type -> string }.

(** The defaults of a page: its template and what surrounds its contents. *)
Record archetype := mkArchetype {
  ar_Content : string; ar_ScriptLibraryRef : option KDexObjectReference;
  ar_DefaultFooterRef : option KDexObjectReference; ar_DefaultHeaderRef : option KDexObjectReference;
  ar_DefaultNavigationRefs : gmap string (option KDexObjectReference) }.

(** What a reference may resolve to, namespaced or of the cluster: the kinds
    that bring a backend, those pages are made of, what a page may stand for,
    and any other. *)
Inductive payload :=
  | Theme (b : Backend) (assets : list string) (scriptLibraryRef : option KDexObjectReference)
  | ScriptLibrary (b : Backend) (package : option PackageReference) (scripts : list ScriptDef)
  | App (b : Backend) (package : PackageReference) (scripts : list ScriptDef)
  | Archetype (a : archetype)
  | Footer (content : string) (scriptLibraryRef : option KDexObjectReference)
  | Header (content : string) (scriptLibraryRef : option KDexObjectReference)
  | Navigation (content : string) (scriptLibraryRef : option KDexObjectReference)
  | PageTarget (host : string) (rewrites : bool)
  | FunctionTarget (host : string) (internal : bool)
  | OtherKind.

Record ref_object := mkRefObject {
  ro_Kind : string; ro_Name : string; ro_Namespace : string; ro_Generation : Z; ro_Payload : payload }.

Definition payload_backend (p : payload) : option Backend :=
  match p with Theme b _ _ | ScriptLibrary b _ _ | App b _ _ => Some b | _ => None end.

Record resolvedBackend := mkResolved { rb_Backend : Backend; rb_Kind : string; rb_Name : string; rb_Namespace : string }.

Record utility_page := mkUtilityPage { up_Name : string; up_Type : utility_type; up_Generation : Z }.

(** The handler registered for a type of utility page; no name: none is. *)
Record utility_handler := mkUtilityHandler {
  uh_Name : string; uh_Packages : list PackageReference; uh_Backends : list KDexObjectReference }.

(** What the controller reads of a registered page. *)
Record page_refs := mkPageRefs {
  pr_Name : string; pr_BasePath : string; pr_PatternPath : string;
  pr_Packages : list PackageReference; pr_Backends : list KDexObjectReference }.

(** A function; [hf_Paths] are the keys of a map, in the order it is walked. *)
Record host_function := mkHostFunction {
  hf_Name : string; hf_Namespace : string; hf_Created : Z; hf_BasePath : string; hf_Paths : list string; hf_Internal : bool }.

Inductive routing_strategy := IngressStrategy | HTTPRouteStrategy.

(** The internal host as its controller reads it. *)
Record host_object := mkHostObject {
  ho_Name : string; ho_Namespace : string; ho_Generation : Z;
  ho_Labels : gmap string string; ho_Annotations : gmap string string;
  ho_ThemeRef : option KDexObjectReference; ho_ScriptLibraryRef : option KDexObjectReference;
  ho_Backend : Backend; ho_PackagesImage : string; ho_Env : list EnvVar;
  ho_Strategy : routing_strategy; ho_Scheme : string; ho_Domains : list string;
  ho_IngressClassName : option string; ho_ParentRefs : list string;
  ho_TokenPrefix : option string; ho_MaxTTL : option string (* spec.auth.apiToken *);
  ho_Translations : list string }.

(** ** Workloads *)

Record pod_container := mkPodContainer {
  pt_Name : string; pt_Image : string; pt_PullPolicy : string; pt_Env : list EnvVar;
  pt_Mounts : list mount; pt_Resources : option string }.
#[export] Instance env_var_eq_dec : EqDecision EnvVar.
Proof. solve_decision. Defined.
#[export] Instance mount_eq_dec : EqDecision mount.
Proof. solve_decision. Defined.
#[export] Instance pod_container_eq_dec : EqDecision pod_container.
Proof. solve_decision. Defined.

Inductive host_volume := TemplateVolume (text : string) | ImageVolume (name reference pullPolicy : string).
#[export] Instance host_volume_eq_dec : EqDecision host_volume.
Proof. solve_decision. Defined.

Record deployment_spec := mkDeploymentSpec {
  dy_Selector : option (gmap string string); dy_Replicas : option Z; dy_TemplateLabels : gmap string string;
  dy_Containers : list pod_container; dy_ImagePullSecrets : list string; dy_Volumes : list host_volume }.
#[export] Instance deployment_spec_eq_dec : EqDecision deployment_spec.
Proof. solve_decision. Defined.

(** An object of the cluster around a spec: [ob_Taken] is what
    SetControllerReference answers when it has another controller. *)
Record owned (A : Type) := mkOwned {
  ob_Name : string; ob_Labels : gmap string string; ob_Annotations : gmap string string;
  ob_Spec : A; ob_Owned : bool; ob_Taken : option string }.
Arguments mkOwned {A} _ _ _ _ _ _.
Arguments ob_Name {A} _.
Arguments ob_Labels {A} _.
Arguments ob_Annotations {A} _.
Arguments ob_Spec {A} _.
Arguments ob_Owned {A} _.
Arguments ob_Taken {A} _.
#[export] Instance owned_eq_dec {A} `{EqDecision A} : EqDecision (owned A).
Proof. solve_decision. Defined.

(** A Service: its ports by name and its selector. *)
Record service_spec := mkServiceSpec { sv_Ports : list (string * Z); sv_Selector : gmap string string }.
#[export] Instance service_spec_eq_dec : EqDecision service_spec.
Proof. solve_decision. Defined.

(** An ingress rule: a host and, by prefix, the Service behind it (at its port
    "server"). *)
Record ingress_rule := mkIngressRule { ir_Host : string; ir_Paths : list (string * string) }.
#[export] Instance ingress_rule_eq_dec : EqDecision ingress_rule.
Proof. solve_decision. Defined.

Record ingress_spec := mkIngressSpec {
  ig_DefaultBackend : option string; ig_Class : option string;
  ig_Rules : list ingress_rule; ig_TLS : list (list string * string) (* hosts, secret *) }.
#[export] Instance ingress_spec_eq_dec : EqDecision ingress_spec.
Proof. solve_decision. Defined.

(** A rule of an HTTPRoute: a prefix, a Service and its port. *)
Record http_rule := mkHTTPRule { hr_Prefix : string; hr_Service : string; hr_Port : Z }.
#[export] Instance http_rule_eq_dec : EqDecision http_rule.
Proof. solve_decision. Defined.

Record httproute_spec := mkHTTPRouteSpec {
  rt_Hostnames : list string; rt_ParentRefs : list string; rt_Rules : list http_rule }.
#[export] Instance httproute_spec_eq_dec : EqDecision httproute_spec.
Proof. solve_decision. Defined.

(** The package references the host owns, with what their controller reports. *)
Record ipr_spec := mkIprSpec { is_Host : string; is_Packages : list PackageReference }.
#[export] Instance package_reference_eq_dec : EqDecision PackageReference.
Proof. solve_decision. Defined.
#[export] Instance ipr_spec_eq_dec : EqDecision ipr_spec.
Proof. solve_decision. Defined.

Record ipr_status := mkIprStatus { ix_Ready : option cond_status; ix_Image : string }.

(** ** What the handler is set to *)

(** A path of the host's documents: a backend's, with its wildcard and words,
    or a function's. *)
Inductive path_info :=
  | BackendPaths (wildcard summary description operation : string)
  | FunctionPaths (namespace name : string).
#[export] Instance path_info_eq_dec : EqDecision path_info.
Proof. solve_decision. Defined.

Record host_settings := mkSettings {
  hs_Packages : list PackageReference; hs_Assets : list string; hs_Scripts : list ScriptDef; hs_ImportMap : string;
  hs_InitialPaths : gmap string path_info; hs_Functions : list host_function; hs_Scheme : string;
  hs_Translations : list string }.

(** ** Answers and requests *)

Inductive host_effect :=
  | PutReferences (o : owned ipr_spec) | DeleteReferences
  | PutDeployment (o : owned deployment_spec) | PutService (o : owned service_spec)
  | PutIngress (o : owned ingress_spec) | PutHTTPRoute (o : owned httproute_spec)
  | DeleteDeployment (name : string) | DeleteService (name : string)
  | SetHost (s : host_settings).

(** The API server's answers, what the handler knows, and the outcome of
    building the authentication from an issuer, a prefix, a maximum lifetime
    and the Secrets. A write is answered with the status of what was written. *)
Record host_environment := mkHostEnvironment {
  he_secrets : option (string + list secret);
  he_knownKind : string -> bool;
  he_get : string -> string -> string -> answer (referred ref_object);
  he_utilityPages : string + list utility_page; he_utilityHandler : utility_type -> utility_handler;
  he_bindings : string + nat; he_pages : list page_refs;
  he_functions : string + list host_function;
  he_references : answer (owned ipr_spec * ipr_status); he_put_references : owned ipr_spec -> result string ipr_status;
  he_delete_references : answer unit;
  he_manifest : connection -> manifest_answer; he_blob : connection -> LayerFetcher;
  he_deployment : string -> answer (owned deployment_spec * bool (* available *));
  he_put_deployment : owned deployment_spec -> result string bool;
  he_service : string -> answer (owned service_spec); he_put_service : owned service_spec -> option string;
  he_deployments : string + list string; he_services : string + list string; (* the host's backends, by name *)
  he_delete_deployment : string -> option string; he_delete_service : string -> option string;
  he_ingress : answer (owned ingress_spec * list (string * string)); (* addresses: an IP or a hostname *)
  he_put_ingress : owned ingress_spec -> result string (list (string * string));
  he_httproute : answer (owned httproute_spec * list (option string * string)); (* status.parents *)
  he_put_httproute : owned httproute_spec -> result string (list (option string * string));
  he_auth : string -> string -> Z -> list secret -> option string; (* the error it ends in *)
  he_collisions : list RouteCollision;
  he_write : write_answer }.

(** What the process is configured with. *)
Record host_configuration := mkHostConfiguration {
  cf_ServerImage : string; cf_ServerImagePullPolicy : string;
  cf_Deployment : deployment_spec; cf_Service : service_spec; cf_Ingress : ingress_spec; cf_HttpRoute : httproute_spec;
  cf_ServiceName : string; cf_Port : Z }.

(** * A pass as a program *)

(** What was asked so far and the status as it stands. *)
Record run (F : Type) := mkRun { ru_Asked : list F; ru_Status : pk_status }.
Arguments mkRun {F} _ _.
Arguments ru_Asked {F} _.
Arguments ru_Status {F} _.

(** A part of a pass that may ask for [F]s: it may end the pass. *)
Definition passing (F A : Type) : Type := run F -> run F * (outcome + A).

#[export] Instance passing_ret {F} : MRet (passing F) := fun A a r => (r, inr a).
#[export] Instance passing_bind {F} : MBind (passing F) := fun A B f m r =>
  match m r with (r, inr a) => f a r | (r, inl o) => (r, inl o) end.

Section Passing.
Context {F : Type}.

Definition stop {A} (o : outcome) : passing F A := fun r => (r, inl o).
Definition ask (e : F) : passing F unit := fun r => (mkRun (ru_Asked r ++ [e])%list (ru_Status r), inr tt).
Definition modify (f : pk_status -> pk_status) : passing F unit := fun r => (mkRun (ru_Asked r) (f (ru_Status r)), inr tt).
Definition attribute_of (k : string) : passing F string := fun r => (r, inr (pk_attribute (ru_Status r) k)).
Definition set_attr (k v : string) : passing F unit := modify (pk_set k v).
Definition drop_attr (k : string) : passing F unit :=
  modify (fun st => mkPkStatus (delete k (ps_Attributes st)) (ps_Conditions st) (ps_ObservedGeneration st)).

(** One after another, the results in order. *)
Fixpoint each {A B} (f : A -> passing F B) (l : list A) : passing F (list B) :=
  match l with
  | [] => mret []
  | a :: l => b ← f a; bs ← each f l; mret (b :: bs)
  end.

(** A reference of an object of kind [referrer] in [ns], resolved. *)
Definition resolve_in `{!Conditions, !Reasons} {A} (R : reconciler) (knownKind : string -> bool)
    (get : string -> string -> string -> answer (referred A)) (referrer ns : string) (ref : option KDexObjectReference)
    : passing F (option A) := fun r =>
  let st := ru_Status r in
  let '(cs, res) := ResolveKDexObjectReference (rc_referenceNamespaces R) knownKind get (rc_RequeueDelay R) referrer ns ref (ps_Conditions st) in
  let r' := mkRun (ru_Asked r) (mkPkStatus (ps_Attributes st) cs (ps_ObservedGeneration st)) in
  match res with
  | NoReference => (r', inr None)
  | Stop o => (r', inl o)
  | Resolved a => (r', inr (Some a))
  end.

Definition mark_as `{!Conditions} (s : cond_statuses) (reason msg : string) : passing F unit := modify (pk_mark s reason msg).
End Passing.

#[local] Notation M := (passing host_effect).
Notation host_run := (run host_effect).

(** * Collecting references (utils.go) *)

Section Collect.
Context `{!HostCRDs} `{!Sha256}.

Definition CollectBackend (defaultServerImage : string) (refs : list KDexObjectReference) (o : ref_object) : list KDexObjectReference :=
  match payload_backend (ro_Payload o) with
  | None => refs
  | Some b =>
      if IsConfigured b defaultServerImage then
        let ref := mkRef (ro_Kind o) (ro_Name o) (ro_Namespace o) in
        if bool_decide (ref ∈ refs) then refs else (refs ++ [ref])%list
      else refs
  end.

Definition HashScriptDef (s : ScriptDef) : string := sha256hex (ToTag s).

Fixpoint unique_by {A} (key : A -> string) (seen : list string) (l : list A) : list A :=
  match l with
  | [] => []
  | a :: l => if bool_decide (key a ∈ seen) then unique_by key seen l else a :: unique_by key (key a :: seen) l
  end.

Definition UniqueScriptDefs (l : list ScriptDef) : list ScriptDef := unique_by HashScriptDef [] l.
End Collect.

Definition ref_le (a b : KDexObjectReference) : Prop := string_le (or_Name a) (or_Name b).
#[export] Instance ref_le_dec : RelDecision ref_le.
Proof. intros a b. unfold ref_le. apply _. Defined.

(** The first of each name, in the order of names. *)
Definition UniqueBackendRefs (l : list KDexObjectReference) : list KDexObjectReference :=
  merge_sort ref_le (unique_by or_Name [] l).

Definition package_ref_le (a b : PackageReference) : Prop :=
  if String.eqb (pk_Name a) (pk_Name b) then string_le (pk_Version a) (pk_Version b) else string_le (pk_Name a) (pk_Name b).
#[export] Instance package_ref_le_dec : RelDecision package_ref_le.
Proof. intros a b. unfold package_ref_le. case_match; apply _. Defined.

Definition package_key (p : PackageReference) : string := pk_Name p ++ "@" ++ pk_Version p.

(** The last of each name and version, in the order of both. *)
Definition UniquePackageRefs (l : list PackageReference) : list PackageReference :=
  merge_sort package_ref_le (map snd (map_to_list (foldl (fun (m : gmap string PackageReference) p => <[package_key p := p]> m) ∅ l))).

Fixpoint packageRefsForIPR (hostNamespace : string) (versions : gmap string string) (l : list PackageReference)
    : result string (list PackageReference) :=
  match l with
  | [] => Ok []
  | p :: l =>
      let cleared := mkPackage (pk_Name p) (pk_Version p) (pk_Registry p) ((fun r => ("", snd r)) <$> pk_SecretRef p) in
      let foreign := match pk_SecretRef p with
                     | Some (ns, _) => negb (String.eqb ns "") && negb (String.eqb ns hostNamespace)
                     | None => false
                     end in
      if foreign then
        Err ("package " ++ pk_Name p ++ ": secretRef.namespace " ++ quoted (match pk_SecretRef p with Some r => fst r | None => "" end) ++
             " is not supported; put the Secret in the host's namespace " ++ quoted hostNamespace)
      else
        match versions !! pk_Name p with
        | Some v =>
            if String.eqb v (pk_Version p) then
              match packageRefsForIPR hostNamespace versions l with Err e => Err e | Ok out => Ok (cleared :: out) end
            else Err ("package " ++ pk_Name p ++ " is referenced at two versions, " ++ v ++ " and " ++ pk_Version p ++ "; reference one")
        | None =>
            match packageRefsForIPR hostNamespace (<[pk_Name p := pk_Version p]> versions) l with
            | Err e => Err e
            | Ok out => Ok (cleared :: out)
            end
        end
  end.

(** The listed page of a type: the one of this name, else the first. *)
Definition listedUtilityPage (items : list utility_page) (t : utility_type) (name : string) : option utility_page :=
  let of_type := filter (fun p => up_Type p = t) items in
  match List.find (fun p => negb (String.eqb name "") && String.eqb (up_Name p) name) of_type with
  | Some p => Some p
  | None => head of_type
  end.

(** [time.ParseDuration]'s errors. *)
Class DurationErrors := { DurationError : string -> string }.

Definition resolveAPITokenMaxTTL `{!Durations, !DurationErrors} (spec : option string) : result string Z :=
  match spec with
  | None | Some "" => Ok 0%Z
  | Some text =>
      match ParseDuration text with
      | None => Err ("spec.auth.apiToken.maxTTL: " ++ DurationError text)
      | Some d => if (d <=? 0)%Z then Err ("spec.auth.apiToken.maxTTL: " ++ text ++ " is not a positive duration") else Ok d
      end
  end.

(** * Routes and their collisions *)

Definition routeOwnerLabel (name basePath : string) : string :=
  match CutPrefix name FunctionRouteOwnerPrefix with
  | Some fn => "function " ++ quoted fn ++ " (basePath " ++ quoted basePath ++ ")"
  | None => "page " ++ quoted name ++ " (basePath " ++ quoted basePath ++ ")"
  end.

Definition collision_text (c : RouteCollision) : string :=
  let winner := routeOwnerLabel (ow_name (rc_Winner c)) (ow_basePath (rc_Winner c)) in
  (if String.eqb (ow_name (rc_Winner c)) "" then rc_Pattern c ++ " conflicts with an existing route"
   else if negb (String.eqb (rc_ConflictingPattern c) "") then
     rc_Pattern c ++ " conflicts with " ++ rc_ConflictingPattern c ++ " claimed by " ++ winner
   else rc_Pattern c ++ " claimed by " ++ winner) ++
  ", refused for " ++ routeOwnerLabel (ow_name (rc_Loser c)) (ow_basePath (rc_Loser c)).

Definition formatRouteCollisions (l : list RouteCollision) : string :=
  FormatInt (Z.of_nat (length l)) ++ " route collision(s) detected; each refused route is unreachable for its loser: " ++
  Join (map collision_text l) "; ".

Section Host.
Context `{!HostCRDs} `{!Sha256} `{!OCI} `{!SecretList} `{!Conditions} `{!Reasons} `{!Durations} `{!DurationErrors}.
Context (R : reconciler) (cf : host_configuration).

Notation delay := (rc_RequeueDelay R).

(** [returnDegraged]: marked degraded, with the error returned. *)
Definition degrade {A} (msg : string) : M A := _ ← mark_as degraded ReconcileError msg; stop (Failed msg).

Definition answered {A} (r : result string A) : M A := match r with Ok a => mret a | Err e => degrade e end.
Definition listed {A} (what : string) (l : string + A) : M A :=
  match l with inr a => mret a | inl e => degrade ("failed to list " ++ what ++ ": " ++ e) end.

Definition resolve (E : host_environment) (h : host_object) (ref : option KDexObjectReference) : M (option ref_object) :=
  resolve_in R (he_knownKind E) (he_get E) "KDexInternalHost" (ho_Namespace h) ref.

(** What a pass has collected. *)
Record collected := mkCollected {
  cl_Backends : list KDexObjectReference; cl_Packages : list PackageReference; cl_Scripts : list ScriptDef; cl_Assets : list string }.

Definition library_packages (o : ref_object) : list PackageReference :=
  match ro_Payload o with ScriptLibrary _ (Some p) _ => [p] | _ => [] end.
Definition library_scripts (o : ref_object) : list ScriptDef :=
  match ro_Payload o with ScriptLibrary _ _ scripts => scripts | _ => [] end.

(** A script library the host or its theme names. *)
Definition collect_library (E : host_environment) (h : host_object) (key : string) (ref : option KDexObjectReference)
    (backends : ref_object -> list KDexObjectReference) (c : collected) : M collected :=
  o ← resolve E h ref;
  match o with
  | None => mret c
  | Some o =>
      _ ← set_attr key (FormatInt (ro_Generation o));
      mret (mkCollected (backends o) (cl_Packages c ++ library_packages o) (cl_Scripts c ++ library_scripts o) (cl_Assets c))%list
  end.

(** The theme and its library; the backend of the theme's library is not
    collected. *)
Definition collect_theme (E : host_environment) (h : host_object) : M collected :=
  o ← resolve E h (ho_ThemeRef h);
  match o with
  | None => mret (mkCollected [] [] [] [])
  | Some theme =>
      let backends := CollectBackend (cf_ServerImage cf) [] theme in
      _ ← set_attr "theme.generation" (FormatInt (ro_Generation theme));
      match ro_Payload theme with
      | Theme _ assets lib => collect_library E h "theme.scriptLibrary.generation" lib (fun _ => backends) (mkCollected backends [] [] assets)
      | _ => stop Panics
      end
  end.

Definition collect_scope (E : host_environment) (h : host_object) : M collected :=
  c ← collect_theme E h;
  collect_library E h "scriptLibrary.generation" (ho_ScriptLibraryRef h) (CollectBackend (cf_ServerImage cf) (cl_Backends c)) c.

(** The packages and backends of one type of utility page. *)
Definition collect_utility (E : host_environment) (items : list utility_page) (t : utility_type)
    : M (list PackageReference * list KDexObjectReference) :=
  let key := "utilityPage." ++ utility_text t ++ ".generation" in
  let handler := he_utilityHandler E t in
  let page := listedUtilityPage items t (uh_Name handler) in
  if String.eqb (uh_Name handler) "" && found page then
    if bool_decide (t = Consent) then _ ← drop_attr key; mret ([], []) else stop (Requeue delay)
  else
    _ ← set_attr key (FormatInt (match page with Some p => up_Generation p | None => 0%Z end));
    mret (uh_Packages handler, uh_Backends handler).

Definition duplicated {A} (path ns name kind : string) : M A :=
  degrade ("duplicated path " ++ path ++ ", paths must be unique across backends and pages, obj: " ++ ns ++ "/" ++ name ++ ", kind: " ++ kind).

(** Paths seen so far: the keys of [seenPaths]. *)
Definition claim (seen : gset string) (path ns name kind : string) : M (gset string) :=
  if bool_decide (path ∈ seen) then duplicated path ns name kind else mret ({[path]} ∪ seen).

Definition claim_page (seen : gset string) (p : page_refs) : M (gset string) :=
  seen ← claim seen (pr_BasePath p) (rc_ControllerNamespace R) (pr_Name p) "KDexPage";
  if String.eqb (pr_PatternPath p) "" then mret seen
  else claim seen (pr_PatternPath p) (rc_ControllerNamespace R) (pr_Name p) "KDexPage".

Fixpoint claim_pages (seen : gset string) (l : list page_refs) : M (gset string) :=
  match l with
  | [] => mret seen
  | p :: l => seen ← claim_page seen p; claim_pages seen l
  end.

(** The host's own backend, whose path is the first claimed. *)
Definition own_backend (h : host_object) : list resolvedBackend :=
  if IsConfigured (ho_Backend h) (cf_ServerImage cf) then [mkResolved (ho_Backend h) "KDexHost" (ho_Name h) (ho_Namespace h)] else [].

(** Each reference resolved to its backend, whose path is claimed. *)
Fixpoint claim_backends (E : host_environment) (h : host_object) (seen : gset string) (l : list KDexObjectReference)
    : M (gset string * list resolvedBackend) :=
  match l with
  | [] => mret (seen, [])
  | ref :: l =>
      o ← resolve E h (Some ref);
      match o ≫= fun o => payload_backend (ro_Payload o) with
      | None => claim_backends E h seen l
      | Some b =>
          seen ← claim seen (bk_IngressPath b) (or_Namespace ref) (or_Name ref) (or_Kind ref);
          rest ← claim_backends E h seen l;
          mret (fst rest, mkResolved b (or_Kind ref) (or_Name ref) (or_Namespace ref) :: snd rest)
      end
  end.

(** [slices.SortStableFunc] by creation time. *)
Fixpoint insert_created (f : host_function) (l : list host_function) : list host_function :=
  match l with
  | [] => [f]
  | g :: l' => if (hf_Created f <=? hf_Created g)%Z then f :: l else g :: insert_created f l'
  end.
Definition sort_created (l : list host_function) : list host_function := foldr insert_created [] l.

(** The functions one of whose paths is taken, with the first such path met;
    the others' paths are seen from then on. *)
Fixpoint claim_functions (seen : gset string) (l : list host_function) : list (host_function * string) :=
  match l with
  | [] => []
  | f :: l =>
      let conflicted := default "" (List.find (fun p => bool_decide (p ∈ seen)) (hf_Paths f)) in
      if String.eqb conflicted "" then claim_functions (list_to_set (hf_Paths f) ∪ seen) l
      else (f, conflicted) :: claim_functions seen l
  end.

Definition note_duplicates (l : list (host_function * string)) : M unit :=
  match l with
  | [] => drop_attr "duplicatedFunctions"
  | _ => set_attr "duplicatedFunctions"
           (Join (map (fun d => hf_Namespace (fst d) ++ "/" ++ hf_Name (fst d) ++ " (path " ++ snd d ++ ")") l) ", ")
  end.

(** * The packages *)

(** CreateOrUpdate, in a pass. [Err None] from a mutation is a panic. *)
Definition put_object {A B} `{EqDecision A} (there : answer (A * B)) (mutate : option A -> result (option string) A)
    (put : A -> result string B) (request : A -> host_effect) : M (A * B) := fun r =>
  let '(es, res) := CreateOrUpdate Some there mutate put request in
  let r := mkRun (ru_Asked r ++ es)%list (ru_Status r) in
  match res with
  | Ok x => (r, inr x)
  | Err None => (r, inl Panics)
  | Err (Some e) => degrade e r
  end.

(** SetControllerReference. *)
Definition own {A} (o : owned A) : result (option string) (owned A) :=
  match ob_Taken o with
  | Some e => Err (Some e)
  | None => Ok (mkOwned (ob_Name o) (ob_Labels o) (ob_Annotations o) (ob_Spec o) true None)
  end.

Definition with_spec {A} (s : A) (o : owned A) : owned A :=
  mkOwned (ob_Name o) (ob_Labels o) (ob_Annotations o) s (ob_Owned o) (ob_Taken o).

Definition mutate_references (h : host_object) (l : list PackageReference) (there : option (owned ipr_spec))
    : result (option string) (owned ipr_spec) :=
  let o := match there with
           | Some o => o
           | None => mkOwned (ho_Name h) (<["kdex.dev/packages" := ho_Name h]> (ho_Labels h)) (ho_Annotations h)
                       (mkIprSpec (ho_Name h) []) false None
           end in
  own (with_spec (mkIprSpec (is_Host (ob_Spec o)) l) o).

Definition createIPRBackend (h : host_object) (image : string) : resolvedBackend :=
  mkResolved (mkHostBackend MODULE_PATH image "IfNotPresent" "" "" (ho_Env h) None None) "KDexInternalPackageReferences" "packages" "".

Definition packages_ready (s : cond_status) (reason msg : string) : M unit :=
  modify (fun st => mkPkStatus (ps_Attributes st)
    (SetStatusCondition "PackagesReady" (mkCondition s reason msg) (ps_Conditions st)) (ps_ObservedGeneration st)).

Definition PullImportMap (E : host_environment) (image : string) (secrets : list secret) : result string string :=
  match openImageLayers (he_manifest E) (he_blob E) image secrets with
  | Err e => Err e
  | Ok (layers, fetch) =>
      match FindImportmapInLayers layers fetch with
      | Ok body => Ok body
      | Err e => Err ("find importmap in " ++ image ++ ": " ++ e)
      end
  end.

(** The packages' backend if there is one, the import map, and whether the
    image is still to come. *)
Definition packages_outcome : Type := option resolvedBackend * string * bool.

(** An image to be served: its import map read, both recorded. *)
Definition serve_packages (E : host_environment) (h : host_object) (secrets : list secret) (image msg : string) (recorded_first : bool)
    : M packages_outcome :=
  _ ← (if recorded_first then set_attr "packages.image" image else mret tt);
  importMap ← match PullImportMap E image secrets with
              | Ok m => mret m
              | Err e => degrade ("failed to pull importmap from " ++ image ++ ": " ++ e)
              end;
  _ ← set_attr "packages.image" image;
  _ ← set_attr "packages.importmap" importMap;
  _ ← packages_ready CTrue "Available" msg;
  mret (Some (createIPRBackend h image), importMap, false).

Definition packagesPendingOutcome (h : host_object) (reason msg : string) : M packages_outcome :=
  _ ← packages_ready CFalse reason msg;
  lastImage ← attribute_of "packages.image";
  lastImportMap ← attribute_of "packages.importmap";
  mret (if String.eqb lastImage "" then None else Some (createIPRBackend h lastImage), lastImportMap, true).

Definition handleInternalPackageReferences (E : host_environment) (h : host_object) (refs : list PackageReference) (secrets : list secret)
    : M packages_outcome :=
  if negb (String.eqb (ho_PackagesImage h) "") then
    serve_packages E h secrets (ho_PackagesImage h) "packages image pinned via spec.packagesImage" false
  else
    match refs with
    | [] =>
        _ ← ask DeleteReferences;
        _ ← match he_delete_references E with Unavailable e => degrade e | _ => mret tt end;
        _ ← drop_attr "packages.image";
        _ ← drop_attr "packages.importmap";
        _ ← packages_ready CTrue "NoPackages" "host declares no package references";
        mret (None, "", false)
    | _ =>
        o ← put_object (he_references E) (mutate_references h refs) (he_put_references E) PutReferences;
        if bool_decide (ix_Ready (snd o) = Some CFalse) then packagesPendingOutcome h "Building" "packages image not available yet"
        else serve_packages E h secrets (ix_Image (snd o)) "packages image built and available" true
    end.

(** * The backends *)

Definition backend_name (h : host_object) (rb : resolvedBackend) : string := ho_Name h ++ "-" ++ rb_Name rb.

Definition backend_labels (h : host_object) (rb : resolvedBackend) : gmap string string :=
  {["kdex.dev/type" := "backend"; "kdex.dev/backend" := rb_Name rb; "kdex.dev/host" := ho_Name h; "kdex.dev/kind" := rb_Kind rb]}.

Definition if_given (s default : string) : string := if String.eqb s "" then default else s.

(** The container of a backend, from the template's. *)
Definition backend_container (b : Backend) (c : pod_container) : pod_container :=
  mkPodContainer "backend" (if_given (bk_ServerImage b) (cf_ServerImage cf))
    (if_given (bk_ServerImagePullPolicy b) (cf_ServerImagePullPolicy cf))
    (pt_Env c ++ bk_Env b ++ [env_var "PATH_PREFIX" (bk_IngressPath b)])
    (pt_Mounts c ++ (if String.eqb (bk_StaticImage b) "" then [] else [mkMount "oci-image" "/public" "" true]))
    (match bk_Resources b with Some r => Some r | None => pt_Resources c end).

(** The spec, rebuilt from the template but for the selector there is. *)
Definition backend_spec (h : host_object) (rb : resolvedBackend) (pullSecrets : list string) (selector : option (gmap string string))
    : option deployment_spec :=
  let t := cf_Deployment cf in
  let b := rb_Backend rb in
  match dy_Containers t with
  | [] => None
  | c :: cs =>
      Some (mkDeploymentSpec
        (Some (match selector with Some s => s | None => backend_labels h rb ∪ default ∅ (dy_Selector t) end))
        (match bk_Replicas b with Some n => Some n | None => dy_Replicas t end)
        (backend_labels h rb ∪ dy_TemplateLabels t)
        (backend_container b c :: cs) pullSecrets
        (dy_Volumes t ++ (if String.eqb (bk_StaticImage b) "" then []
                          else [ImageVolume "oci-image" (bk_StaticImage b) (bk_StaticImagePullPolicy b)])))
  end.

Definition mutate_deployment (h : host_object) (rb : resolvedBackend) (pullSecrets : list string)
    (there : option (owned deployment_spec)) : result (option string) (owned deployment_spec) :=
  match backend_spec h rb pullSecrets (there ≫= fun o => dy_Selector (ob_Spec o)) with
  | None => Err None
  | Some s =>
      own (match there with
           | Some o => with_spec s o
           | None => mkOwned (backend_name h rb) (backend_labels h rb ∪ ho_Labels h) (ho_Annotations h) s false None
           end)
  end.

Definition mutate_service (h : host_object) (rb : resolvedBackend) (there : option (owned service_spec))
    : result (option string) (owned service_spec) :=
  own (match there with
       | Some o => o
       | None => mkOwned (backend_name h rb) (backend_labels h rb ∪ ho_Labels h) (ho_Annotations h)
                   (mkServiceSpec (sv_Ports (cf_Service cf)) (backend_labels h rb)) false None
       end).

(** A backend's Deployment and Service: its name and whether it is available. *)
Definition deploy_backend (E : host_environment) (h : host_object) (secrets : list secret) (rb : resolvedBackend) : M (string * bool) :=
  let name := backend_name h rb in
  let pullSecrets := map se_Name (FilterSecrets is_docker secrets) in
  d ← put_object (he_deployment E name) (mutate_deployment h rb pullSecrets) (he_put_deployment E) PutDeployment;
  _ ← put_object (unit_answer (he_service E name)) (mutate_service h rb) (unit_put (he_put_service E)) PutService;
  mret (name, snd d).

(** Those of a list that no backend is named by, deleted. *)
Fixpoint sweep (del : string -> option string) (request : string -> host_effect) (forget : string -> M unit) (names l : list string) : M unit :=
  match l with
  | [] => mret tt
  | n :: l =>
      if bool_decide (n ∈ names) then sweep del request forget names l
      else
        _ ← ask (request n);
        _ ← match del n with Some _ => stop (Requeue delay) | None => forget n end;
        sweep del request forget names l
  end.

Definition cleanupObsoleteBackends (E : host_environment) (names : list string) : M unit :=
  deployments ← match he_deployments E with inr l => mret l | inl _ => stop (Requeue delay) end;
  _ ← sweep (he_delete_deployment E) DeleteDeployment (fun n => drop_attr (n ++ ".deployment")) names deployments;
  services ← match he_services E with inr l => mret l | inl _ => stop (Requeue delay) end;
  sweep (he_delete_service E) DeleteService (fun _ => mret tt) names services.

(** * Traffic *)

Definition host_rule (h : host_object) (backends : list resolvedBackend) (domain : string) : ingress_rule :=
  mkIngressRule domain (("/", cf_ServiceName cf) :: map (fun rb => (bk_IngressPath (rb_Backend rb), backend_name h rb)) backends).

(** The certificate of the host's domains: a Secret, else what cert-manager is
    asked for. *)
Definition host_tls (h : host_object) (secrets : list secret) : list (list string * string) :=
  let annotated k := negb (String.eqb (value_at (ho_Annotations h) k) "") in
  if negb (String.eqb (ho_Scheme h) "https") then []
  else
    match FilterSecrets (fun s => String.eqb (se_Type s) "kubernetes.io/tls") secrets with
    | s :: _ => [(ho_Domains h, se_Name s)]
    | [] =>
        if annotated "cert-manager.io/cluster-issuer" || annotated "cert-manager.io/issuer" then [(ho_Domains h, ho_Name h ++ "-tls")]
        else []
    end.

(** The host's labels and annotations over what is there, with a label of its
    own when it is new. *)
Definition routed {A} (h : host_object) (label : string) (fresh : A) (there : option (owned A)) : owned A :=
  match there with
  | Some o => mkOwned (ob_Name o) (ho_Labels h ∪ ob_Labels o) (ho_Annotations h ∪ ob_Annotations o) (ob_Spec o) (ob_Owned o) (ob_Taken o)
  | None => mkOwned (ho_Name h) (<[label := ho_Name h]> (ho_Labels h)) (ho_Annotations h) fresh false None
  end.

Definition mutate_ingress (h : host_object) (backends : list resolvedBackend) (secrets : list secret) (there : option (owned ingress_spec))
    : result (option string) (owned ingress_spec) :=
  let t := cf_Ingress cf in
  let o := routed h "kdex.dev/ingress" (mkIngressSpec (Some (cf_ServiceName cf)) (ho_IngressClassName h) [] []) there in
  own (with_spec (mkIngressSpec (ig_DefaultBackend (ob_Spec o)) (ig_Class (ob_Spec o))
                    (ig_Rules t ++ map (host_rule h backends) (ho_Domains h)) (ig_TLS t ++ host_tls h secrets)) o).

Definition backendServicePort : Z :=
  let ports := sv_Ports (cf_Service cf) in
  match List.find (fun p => String.eqb (fst p) "server") ports with
  | Some p => snd p
  | None => match ports with p :: _ => snd p | [] => 80%Z end
  end.

Definition host_rules (h : host_object) (backends : list resolvedBackend) : list http_rule :=
  (map (fun rb => mkHTTPRule (bk_IngressPath (rb_Backend rb)) (backend_name h rb) backendServicePort) backends ++
   [mkHTTPRule "/" (cf_ServiceName cf) (cf_Port cf)])%list.

Definition mutate_httproute (h : host_object) (backends : list resolvedBackend) (there : option (owned httproute_spec))
    : result (option string) (owned httproute_spec) :=
  let t := cf_HttpRoute cf in
  let o := routed h "kdex.dev/httproute" t there in
  own (with_spec (mkHTTPRouteSpec (ho_Domains h) (match ho_ParentRefs h with [] => rt_ParentRefs t | l => l end)
                    (rt_Rules t ++ host_rules h backends)) o).

Definition addresses (l : list (string * string)) : string :=
  Join (omap (fun a => if negb (String.eqb (fst a) "") then Some (fst a)
                       else if negb (String.eqb (snd a) "") then Some (snd a) else None) l) ",".

Definition parents (l : list (option string * string)) : string :=
  Join (map (fun p => match fst p with Some ns => ns ++ "/" ++ snd p | None => snd p end) l) ",".

Definition route_traffic (E : host_environment) (h : host_object) (backends : list resolvedBackend) (secrets : list secret) : M unit :=
  match ho_Strategy h with
  | HTTPRouteStrategy =>
      o ← put_object (he_httproute E) (mutate_httproute h backends) (he_put_httproute E) PutHTTPRoute;
      match snd o with [] => mret tt | l => set_attr "httproute" (parents l) end
  | IngressStrategy =>
      o ← put_object (he_ingress E) (mutate_ingress h backends secrets) (he_put_ingress E) PutIngress;
      match snd o with [] => mret tt | l => set_attr "ingress" (addresses l) end
  end.

(** * Setting the host *)

(** The words a backend's path is documented with, by kind. *)
Definition backend_words (rb : resolvedBackend) : string * string :=
  let n := rb_Name rb in
  let kind_is k := String.eqb (rb_Kind rb) k in
  if kind_is "KDexApp" || kind_is "KDexClusterApp" then ("Application: " ++ n, "Backend service for KDex application " ++ n)
  else if kind_is "KDexFunction" then ("Function: " ++ n, "Backend service for KDex function " ++ n)
  else if kind_is "KDexTheme" || kind_is "KDexClusterTheme" then ("Theme Assets: " ++ n, "Backend service for KDex theme " ++ n ++ " assets")
  else if kind_is "KDexScriptLibrary" || kind_is "KDexClusterScriptLibrary" then
    ("Script Library: " ++ n, "Backend service for KDex script library " ++ n)
  else if kind_is "KDexInternalPackageReferences" then ("Package Modules", "Backend service for serving npm package modules")
  else ("Backend: " ++ n, "Backend service for " ++ n).

Definition slashed (p : string) : string := if HasSuffix p "/" then p else p ++ "/".

Definition add_backend_path (m : gmap string path_info) (rb : resolvedBackend) : gmap string path_info :=
  let p := bk_IngressPath (rb_Backend rb) in
  if String.eqb p "" then m
  else <[slashed p := BackendPaths (slashed p ++ "{path...}") (fst (backend_words rb)) (snd (backend_words rb)) (rb_Name rb ++ "-get")]> m.

Definition add_function_path (m : gmap string path_info) (f : host_function) : gmap string path_info :=
  if hf_Internal f then m else <[hf_BasePath f := FunctionPaths (hf_Namespace f) (hf_Name f)]> m.

Definition collectInitialPaths (backends : list resolvedBackend) (functions : list host_function) : gmap string path_info :=
  foldl add_function_path (foldl add_backend_path ∅ backends) functions.

(** The first Deployment that is not available ends the pass. *)
Fixpoint await_deployments (l : list (string * bool)) : M unit :=
  match l with
  | [] => mret tt
  | (name, available) :: l =>
      if available then _ ← set_attr (name ++ ".deployment") "ready"; await_deployments l
      else _ ← mark_as progressing Reconciling ("Waiting for deployment/" ++ name ++ " to be ready."); stop (Requeue delay)
  end.

(** SetConditions of Degraded alone leaves the other conditions. *)
Definition setRouteCollisionCondition (l : list RouteCollision) : M unit :=
  let c := match l with
           | [] => mkCondition CFalse ReconcileSuccess "no route collisions"
           | _ => mkCondition CTrue "RouteCollision" (formatRouteCollisions l)
           end in
  modify (fun st => mkPkStatus (ps_Attributes st) (SetStatusCondition "Degraded" c (ps_Conditions st)) (ps_ObservedGeneration st)).

(** What the host handler is authenticated by, or the error it ends in. *)
Definition build_auth (E : host_environment) (h : host_object) (secrets : list secret) : M unit :=
  match ho_Domains h with
  | [] => stop Panics
  | domain :: _ =>
      maxTTL ← answered (resolveAPITokenMaxTTL (ho_MaxTTL h));
      match he_auth E (ho_Scheme h ++ "://" ++ domain) (resolveAPITokenPrefix (ho_TokenPrefix h) (rc_TokenPrefix R)) maxTTL secrets with
      | Some e => degrade e
      | None => mret tt
      end
  end.

(** * A pass *)

Record gathered := mkGathered {
  ga_Scope : collected; ga_Packages : list PackageReference; ga_Backends : list resolvedBackend; ga_Functions : list host_function }.

(** What the host needs: its scope, its utility pages and its pages, their
    paths claimed. *)
Definition gather (E : host_environment) (h : host_object) : M gathered :=
  c ← collect_scope E h;
  utilityPages ← listed "utility pages" (he_utilityPages E);
  us ← each (collect_utility E utilityPages) [Announcement; Consent; ErrorPage; LoginPage];
  let own := own_backend h in
  let seen : gset string := list_to_set (map (fun rb => bk_IngressPath (rb_Backend rb)) own) in
  bindings ← listed "page bindings" (he_bindings E);
  let pages := he_pages E in
  _ ← (if (bindings =? length pages)%nat then mret tt else stop (Requeue delay));
  seen ← claim_pages seen pages;
  let packageRefs := (cl_Packages c ++ mjoin (map fst us) ++ mjoin (map pr_Packages pages))%list in
  let backendRefs := (cl_Backends c ++ mjoin (map snd us) ++ mjoin (map pr_Backends pages))%list in
  packages ← answered (packageRefsForIPR (ho_Namespace h) ∅ (UniquePackageRefs packageRefs));
  claimed ← claim_backends E h seen (UniqueBackendRefs backendRefs);
  functions ← listed "functions" (he_functions E);
  let functions := sort_created functions in
  _ ← note_duplicates (claim_functions (fst claimed) functions);
  mret (mkGathered c packages (own ++ snd claimed)%list functions).

(** The backends deployed and the traffic routed to them. *)
Definition deploy_backends (E : host_environment) (h : host_object) (secrets : list secret) (backends : list resolvedBackend)
    : M (list (string * bool)) :=
  deployments ← each (deploy_backend E h secrets) backends;
  _ ← cleanupObsoleteBackends E (map (backend_name h) backends);
  _ ← route_traffic E h backends secrets;
  mret deployments.

Definition settings_of (h : host_object) (g : gathered) (backends : list resolvedBackend) (importMap : string) : host_settings :=
  mkSettings (UniquePackageRefs (cl_Packages (ga_Scope g))) (cl_Assets (ga_Scope g)) (UniqueScriptDefs (cl_Scripts (ga_Scope g)))
    importMap (collectInitialPaths backends (ga_Functions g)) (ga_Functions g) (ho_Scheme h) (ho_Translations h).

Definition set_host (h : host_object) (g : gathered) (backends : list resolvedBackend) (importMap : string) : M unit :=
  ask (SetHost (settings_of h g backends importMap)).

(** ResolveSecrets. *)
Definition select_secrets (E : host_environment) : M (list secret) :=
  match he_secrets E with
  | None => mret []
  | Some (inl e) => degrade e
  | Some (inr l) => _ ← modify (note_secrets l); mret l
  end.

(** The pass up to the handler: what was gathered, the backends that serve it,
    the import map, and whether the packages are still to come. *)
Definition prepare (E : host_environment) (h : host_object) : M (gathered * list resolvedBackend * string * bool) :=
  _ ← mark_as reconciling Reconciling "Reconciling";
  secrets ← select_secrets E;
  g ← gather E h;
  p ← handleInternalPackageReferences E h (ga_Packages g) secrets;
  let backends := (ga_Backends g ++ match p.1.1 with Some rb => [rb] | None => [] end)%list in
  deployments ← deploy_backends E h secrets backends;
  _ ← build_auth E h secrets;
  _ ← await_deployments deployments;
  mret (g, backends, p.1.2, p.2).

Definition finish (E : host_environment) (pending : bool) : M unit :=
  if pending then
    _ ← mark_as progressing ReconcileSuccess "functions registered; waiting for packages image";
    _ ← setRouteCollisionCondition (he_collisions E);
    stop (Requeue delay)
  else
    _ ← mark_as ready ReconcileSuccess "Reconciliation successful";
    setRouteCollisionCondition (he_collisions E).

Definition reconcile_host (E : host_environment) (h : host_object) : M unit :=
  x ← prepare E h;
  let '(g, backends, importMap, pending) := x in
  _ ← set_host h g backends importMap;
  finish E pending.

(** The requests made, the status stored, the outcome. *)
Definition Reconcile (E : host_environment) (h : host_object) (stored : pk_status) : list host_effect * pk_status * outcome :=
  if negb (String.eqb (ho_Namespace h) (rc_ControllerNamespace R)) then ([], stored, Settled)
  else if negb (String.eqb (ho_Name h) (rc_FocalHost R)) then ([], stored, Settled)
  else
    let '(r, res) := reconcile_host E h (mkRun [] stored) in
    let o := match res with inl o => o | inr _ => Settled end in
    let st := ru_Status r in
    let '(st, o) := write_status (he_write E) stored (mkPkStatus (ps_Attributes st) (ps_Conditions st) (ho_Generation h)) o in
    (ru_Asked r, st, o).
End Host.

(** * What calls a pass *)

(** Whether a change of a function is one the routes depend on: the
    generation, whether it is ready, its URL. *)
Definition functionHostWatch (old new : Z * bool * string) : bool :=
  let '(g, ready, url) := old in let '(g', ready', url') := new in
  negb (g =? g')%Z || negb (Bool.eqb ready ready') || negb (String.eqb url url').

Inductive watched := WatchedHost (name : string) | WatchedReferences (name host : string) | WatchedPage (host : string) | WatchedOther.

Definition hasFocalHost (focalHost : string) (o : watched) : bool :=
  match o with
  | WatchedHost name => String.eqb name focalHost
  | WatchedReferences name host => String.eqb name focalHost || String.eqb host focalHost
  | WatchedPage host => String.eqb host focalHost
  | WatchedOther => true
  end.
