(* ===== verification/InternalHostSpec.v ===== *)
(** What a pass over the host promises: no two pages and backends share a
    path, a host handed to the handler is served by backends that are up, Ready
    says so, an Ingress and an HTTPRoute send the same requests to the same
    Services, and a pass repeated over what it wrote writes nothing; and where
    collecting by name falls short. *)
From S2P Require Import Prelude GoStr Deps Clients Cluster Deploy Pipeline Packages PatHandlers Routes InternalHost.
From Stdlib Require Import Ascii.
From stdpp Require Import sorting.

#[local] Open Scope string_scope.

#[local] Notation M := (passing host_effect).

(** * Reasoning about passes *)

Lemma pass_bind_inv {F A B} (m : passing F A) (f : A -> passing F B) r r' res :
  (m ≫= f) r = (r', res) ->
  (exists o, m r = (r', inl o) /\ res = inl o) \/ (exists a r1, m r = (r1, inr a) /\ f a r1 = (r', res)).
Proof.
  unfold mbind, passing_bind. destruct (m r) as [r1 [o|a]] eqn:Hm; intros H.
  - injection H as -> <-. left. by exists o.
  - right. by exists a, r1.
Qed.

Lemma pass_bind_ok {F A B} (m : passing F A) (f : A -> passing F B) r r' b :
  (m ≫= f) r = (r', inr b) -> exists a r1, m r = (r1, inr a) /\ f a r1 = (r', inr b).
Proof. intros [(o & _ & [=])|H]%pass_bind_inv. exact H. Qed.

(** A part of a pass takes the run along a relation, however it ends. *)
Definition along (P : host_run -> host_run -> Prop) {A} (m : M A) : Prop := forall r r' res, m r = (r', res) -> P r r'.

Section Along.
Context (P : host_run -> host_run -> Prop) `{!PreOrder P}.

Lemma along_ret {A} (a : A) : along P (mret a).
Proof. intros r r' res [= <- _]. reflexivity. Qed.

Lemma along_stop {A} o : along P (stop (A := A) o).
Proof. intros r r' res [= <- _]. reflexivity. Qed.

Lemma along_attribute k : along P (attribute_of k).
Proof. intros r r' res [= <- _]. reflexivity. Qed.

Lemma along_bind {A B} (m : M A) (f : A -> M B) : along P m -> (forall a, along P (f a)) -> along P (m ≫= f).
Proof.
  intros Hm Hf r r' res [(o & Hr & ->)|(a & r1 & Hr & Hf')]%pass_bind_inv; [by eapply Hm|].
  etransitivity; [by eapply Hm|by eapply Hf].
Qed.

Lemma along_each {A B} (f : A -> M B) l : (forall a, along P (f a)) -> along P (each f l).
Proof.
  intros Hf. induction l as [|a l IH]; cbn [each]; [apply along_ret|].
  apply along_bind; [apply Hf|]. intros b. apply along_bind; [apply IH|]. intros bs. apply along_ret.
Qed.
End Along.

Create HintDb along.
#[export] Hint Resolve along_ret along_stop along_attribute along_bind along_each : along.

(** Walks a part of a pass, leaving the requests and the changes of status. *)
Ltac walk_along :=
  repeat first
    [ done
    | progress intros
    | apply along_ret; [typeclasses eauto] | apply along_stop; [typeclasses eauto] | apply along_attribute; [typeclasses eauto]
    | apply along_each; [typeclasses eauto|]
    | match goal with
      | |- along _ (match ?x with _ => _ end) => destruct x
      | |- along _ (let '(_, _) := ?x in _) => destruct x
      end
    | solve [eauto with along nocore]
    | apply along_bind; [typeclasses eauto| |] ].

(** What each part of a pass keeps: the requests made are kept, those added
    pass a test, and the status stays within an invariant. *)
Definition adds (ok : host_effect -> Prop) (I : pk_status -> Prop) (r r' : host_run) : Prop :=
  (exists es, ru_Asked r' = (ru_Asked r ++ es)%list /\ Forall ok es) /\ (I (ru_Status r) -> I (ru_Status r')).

#[export] Instance adds_preorder ok I : PreOrder (adds ok I).
Proof.
  split.
  - intros r. split; [|done]. exists []. by rewrite app_nil_r.
  - intros a b c [(es & He & Hes) Hab] [(es' & He' & Hes') Hbc]. split; [|auto].
    exists (es ++ es')%list. rewrite He', He, <- app_assoc. by split; [|apply Forall_app].
Qed.

Lemma along_ask ok I e : ok e -> along (adds ok I) (ask e).
Proof. intros He r r' res [= <- _]. split; [|done]. exists [e]. by split; [|constructor]. Qed.

Lemma along_modify ok (I : pk_status -> Prop) f : (forall st, I st -> I (f st)) -> along (adds ok I) (modify f).
Proof. intros Hf r r' res [= <- _]. split; [|apply Hf]. exists []. by rewrite app_nil_r. Qed.

(** ** The parts of a pass before the host is set *)

Section Parts.
Context `{!HostCRDs} `{!Sha256} `{!OCI} `{!SecretList} `{!Conditions} `{!Reasons} `{!Durations} `{!DurationErrors}.
Context (R : reconciler) (cf : host_configuration).

Definition unset (e : host_effect) : Prop := forall s, e <> SetHost s.
Definition not_ready (st : pk_status) : Prop := status_of (ps_Conditions st) "Ready" <> Some CTrue.

Notation working := (along (adds unset not_ready)).

Lemma working_set_attr k v : working (set_attr k v).
Proof. by apply along_modify. Qed.

Lemma working_drop_attr k : working (drop_attr k).
Proof. by apply along_modify. Qed.

Lemma working_note_secrets l : working (modify (note_secrets l)).
Proof.
  apply along_modify. unfold note_secrets. intros st Hst. revert st Hst. induction l as [|s l IH]; intros st Hst; cbn; [done|].
  by apply IH.
Qed.

Lemma working_mark s reason msg : cs_Ready s <> CTrue -> working (mark_as s reason msg).
Proof. intros Hs. apply along_modify. intros st _. unfold not_ready, pk_mark; cbn [ps_Conditions]. rewrite SetConditions_Ready. congruence. Qed.

Lemma working_degrade {A} msg : working (degrade (A := A) msg).
Proof. apply along_bind; [apply _|by apply working_mark|intros; apply along_stop, _]. Qed.

Lemma working_packages_ready s reason msg : working (packages_ready s reason msg).
Proof.
  apply along_modify. intros st Hst. unfold not_ready, SetStatusCondition, status_of in *; cbn [ps_Conditions].
  by rewrite lookup_insert_ne.
Qed.

Lemma working_resolve E h ref : working (resolve R E h ref).
Proof.
  intros r r' res. unfold resolve, resolve_in.
  destruct (ResolveKDexObjectReference _ _ (he_get E) _ _ _ _ _) as [cs x] eqn:Hx.
  assert (Hcs : not_ready (ru_Status r) -> status_of cs "Ready" <> Some CTrue).
  { intros Hr. revert Hx. unfold ResolveKDexObjectReference. cbn zeta.
    repeat case_match; intros [= <- _]; try exact Hr; rewrite SetConditions_Ready; done. }
  intros Hres. assert (r' = mkRun (ru_Asked r) (mkPkStatus (ps_Attributes (ru_Status r)) cs (ps_ObservedGeneration (ru_Status r)))) as ->
    by (destruct x; by injection Hres).
  split; [|exact Hcs]. exists []. by rewrite app_nil_r.
Qed.

Lemma working_put_object {A B} `{EqDecision A} (there : answer (A * B)) mutate put request :
  (forall o, unset (request o)) -> working (put_object there mutate put request).
Proof.
  intros Hreq r r' res. unfold put_object.
  destruct (CreateOrUpdate _ _ _ _ _) as [es x] eqn:Hc.
  assert (Hes : Forall unset es).
  { revert Hc. unfold CreateOrUpdate. cbn zeta. repeat case_match; intros [= <- _]; by repeat constructor. }
  set (r1 := mkRun (ru_Asked r ++ es)%list (ru_Status r)).
  assert (Hr1 : adds unset not_ready r r1) by (split; [by exists es|done]).
  destruct x as [a|[e|]]; cbn zeta; fold r1.
  - intros [= <- _]. exact Hr1.
  - intros Hd. etransitivity; [exact Hr1|]. by eapply working_degrade.
  - intros [= <- _]. exact Hr1.
Qed.

#[local] Hint Resolve working_set_attr working_drop_attr working_note_secrets working_degrade working_packages_ready
  working_resolve working_put_object : along.
#[local] Hint Extern 1 (along _ (mark_as _ _ _)) => apply working_mark; done : along.
#[local] Hint Extern 1 (along _ (ask _)) => apply along_ask; done : along.
#[local] Hint Extern 1 (along _ (put_object _ _ _ _)) => apply working_put_object; done : along.
#[local] Hint Extern 2 (unset _) => done : along.

Ltac walk := unfold answered, listed, duplicated; cbn zeta; walk_along.

Lemma working_collect_library E h key ref backends c : working (collect_library R E h key ref backends c).
Proof. unfold collect_library. walk. Qed.
#[local] Hint Resolve working_collect_library : along.

Lemma working_collect_scope E h : working (collect_scope R cf E h).
Proof. unfold collect_scope, collect_theme. walk. Qed.
#[local] Hint Resolve working_collect_scope : along.

Lemma working_collect_utility E items t : working (collect_utility R E items t).
Proof. unfold collect_utility. walk. Qed.
#[local] Hint Resolve working_collect_utility : along.

Lemma working_claim seen path ns name kind : working (claim seen path ns name kind).
Proof. unfold claim. walk. Qed.
#[local] Hint Resolve working_claim : along.

Lemma working_claim_pages l : forall seen, working (claim_pages R seen l).
Proof. induction l as [|p l IH]; intros seen; cbn [claim_pages]; unfold claim_page; walk. Qed.
#[local] Hint Resolve working_claim_pages : along.

Lemma working_claim_backends E h l : forall seen, working (claim_backends R E h seen l).
Proof. induction l as [|p l IH]; intros seen; cbn [claim_backends]; walk. Qed.
#[local] Hint Resolve working_claim_backends : along.

Lemma working_note_duplicates l : working (note_duplicates l).
Proof. unfold note_duplicates. walk. Qed.
#[local] Hint Resolve working_note_duplicates : along.

Lemma working_gather E h : working (gather R cf E h).
Proof. unfold gather. walk. Qed.
#[local] Hint Resolve working_gather : along.

Lemma working_packages E h refs secrets : working (handleInternalPackageReferences E h refs secrets).
Proof. unfold handleInternalPackageReferences, serve_packages, packagesPendingOutcome. walk. Qed.
#[local] Hint Resolve working_packages : along.

Lemma working_deploy_backend E h secrets rb : working (deploy_backend cf E h secrets rb).
Proof. unfold deploy_backend. walk. Qed.
#[local] Hint Resolve working_deploy_backend : along.

Lemma working_sweep del request forget names l :
  (forall n, unset (request n)) -> (forall n, working (forget n)) -> working (sweep R del request forget names l).
Proof. intros Hr Hf. induction l as [|n l IH]; cbn [sweep]; walk. Qed.

Lemma working_cleanup E names : working (cleanupObsoleteBackends R E names).
Proof. unfold cleanupObsoleteBackends. walk; apply working_sweep; try done; walk. Qed.
#[local] Hint Resolve working_cleanup : along.

Lemma working_route_traffic E h backends secrets : working (route_traffic cf E h backends secrets).
Proof. unfold route_traffic. walk. Qed.
#[local] Hint Resolve working_route_traffic : along.

Lemma working_deploy_backends E h secrets backends : working (deploy_backends R cf E h secrets backends).
Proof. unfold deploy_backends. walk. Qed.
#[local] Hint Resolve working_deploy_backends : along.

Lemma working_build_auth E h secrets : working (build_auth R E h secrets).
Proof. unfold build_auth. walk. Qed.
#[local] Hint Resolve working_build_auth : along.

Lemma working_await l : working (await_deployments R l).
Proof. induction l as [|[n b] l IH]; cbn [await_deployments]; walk. Qed.
#[local] Hint Resolve working_await : along.

(** ** Objects in place *)

(** An object is in place when it was there as wanted, or was written so; [b]
    is what the server says of it. *)
Definition observed {A B} (there : answer (A * B)) : option A := match there with Found (o, _) => Some o | _ => None end.

Definition in_place {A B} (there : answer (A * B)) (mutate : option A -> result (option string) A) (put : A -> result string B)
    (request : A -> host_effect) (es : list host_effect) (b : B) : Prop :=
  (exists o, there = Found (o, b) /\ mutate (Some o) = Ok o) \/
  (exists o, mutate (observed there) = Ok o /\ put o = Ok b /\ request o ∈ es).

Lemma in_place_weaken {A B} there mutate put request es es' (b : B) :
  in_place (A := A) there mutate put request es b -> (forall e, e ∈ es -> e ∈ es') -> in_place there mutate put request es' b.
Proof. intros [?|(o & ? & ? & ?)] Hsub; [by left|right; exists o; auto]. Qed.

Lemma put_object_in_place {A B} `{EqDecision A} (there : answer (A * B)) mutate put request r r' o b :
  put_object there mutate put request r = (r', inr (o, b)) ->
  exists es, ru_Asked r' = (ru_Asked r ++ es)%list /\ in_place there mutate put request es b.
Proof.
  unfold put_object, in_place, CreateOrUpdate. cbn zeta. intros Hp.
  destruct there as [[old b0]|e|e]; cbn [observed].
  - destruct (mutate (Some old)) as [o'|x] eqn:Hm; [|destruct x; discriminate]. case_bool_decide as Ho.
    + injection Hp as <- <- <-. subst o'. exists []. split; [done|]. left. eauto.
    + destruct (put o') as [b'|x] eqn:Hput; [|discriminate]. injection Hp as <- <- <-.
      exists [request o']. split; [done|]. right. exists o'. split_and!; [done..|by left].
  - destruct (mutate None) as [o'|x] eqn:Hm; [|destruct x; discriminate].
    destruct (put o') as [b'|x] eqn:Hput; [|discriminate]. injection Hp as <- <- <-.
    exists [request o']. split; [done|]. right. exists o'. split_and!; [done..|by left].
  - discriminate.
Qed.

Definition selected_secrets (E : host_environment) : list secret :=
  match he_secrets E with Some (inr l) => l | _ => [] end.

(** A backend runs: its Deployment and its Service are in place. *)
Definition backend_runs (E : host_environment) (h : host_object) (es : list host_effect) (rb : resolvedBackend) (up : bool) : Prop :=
  in_place (he_deployment E (backend_name h rb)) (mutate_deployment cf h rb (map se_Name (FilterSecrets is_docker (selected_secrets E))))
    (he_put_deployment E) PutDeployment es up /\
  in_place (unit_answer (he_service E (backend_name h rb))) (mutate_service cf h rb) (unit_put (he_put_service E)) PutService es tt.

Lemma backend_runs_weaken E h es es' rb up :
  backend_runs E h es rb up -> (forall e, e ∈ es -> e ∈ es') -> backend_runs E h es' rb up.
Proof. intros [Hd Hs] Hsub. split; by eapply in_place_weaken. Qed.

Lemma deploy_backend_runs E h rb r r' n up :
  deploy_backend cf E h (selected_secrets E) rb r = (r', inr (n, up)) ->
  n = backend_name h rb /\ exists es, ru_Asked r' = (ru_Asked r ++ es)%list /\ backend_runs E h es rb up.
Proof.
  unfold deploy_backend. intros ([d b] & r1 & Hd & ([s []] & r2 & Hs & [= <- <- <-])%pass_bind_ok)%pass_bind_ok. split; [done|].
  apply put_object_in_place in Hd as (es1 & He1 & Hd). apply put_object_in_place in Hs as (es2 & He2 & Hs).
  exists (es1 ++ es2)%list. rewrite He2, He1, app_assoc. split; [done|].
  split; eapply in_place_weaken; try done; intros e He; apply elem_of_app; auto.
Qed.

Lemma each_backend_runs E h rbs : forall r r' l,
  each (deploy_backend cf E h (selected_secrets E)) rbs r = (r', inr l) ->
  exists es, ru_Asked r' = (ru_Asked r ++ es)%list /\
    Forall2 (fun rb d => fst d = backend_name h rb /\ backend_runs E h es rb (snd d)) rbs l.
Proof.
  induction rbs as [|rb rbs IH]; intros r r' l; cbn [each].
  - intros [= <- <-]. exists []. by rewrite app_nil_r.
  - intros ([n up] & r1 & Hd & (l' & r2 & Hl & [= <- <-])%pass_bind_ok)%pass_bind_ok.
    apply deploy_backend_runs in Hd as (-> & es1 & He1 & Hd). apply IH in Hl as (es2 & He2 & Hl).
    exists (es1 ++ es2)%list. rewrite He2, He1, app_assoc. split; [done|]. constructor.
    + split; [done|]. eapply backend_runs_weaken; [exact Hd|]. intros e He. apply elem_of_app; auto.
    + eapply Forall2_impl; [exact Hl|]. intros rb' d [? Hr]. split; [done|].
      eapply backend_runs_weaken; [exact Hr|]. intros e He. apply elem_of_app; auto.
Qed.

Lemma await_available l : forall r r', await_deployments R l r = (r', inr tt) -> Forall (fun d => snd d = true) l.
Proof.
  induction l as [|[n b] l IH]; intros r r'; cbn [await_deployments]; [constructor|]. destruct b.
  - intros (? & r1 & _ & Hl)%pass_bind_ok. constructor; [done|by eapply IH].
  - intros (? & r1 & _ & [=])%pass_bind_ok.
Qed.

(** ** A pass that reaches the handler *)

Lemma working_asked {A} (m : M A) r r' res : working m -> m r = (r', res) ->
  exists es, ru_Asked r' = (ru_Asked r ++ es)%list /\ Forall unset es.
Proof. intros Hw Hm. by destruct (Hw _ _ _ Hm) as [? _]. Qed.

Lemma working_not_ready {A} (m : M A) r r' res : working m -> m r = (r', res) -> not_ready (ru_Status r) -> not_ready (ru_Status r').
Proof. intros Hw Hm. by destruct (Hw _ _ _ Hm) as [_ ?]. Qed.

Lemma working_kept {A} (m : M A) r r' res e : working m -> m r = (r', res) -> e ∈ ru_Asked r -> e ∈ ru_Asked r'.
Proof. intros Hw Hm He. destruct (working_asked _ _ _ _ Hw Hm) as (es & -> & _). apply elem_of_app. by left. Qed.

Lemma working_select_secrets E : working (select_secrets E).
Proof. unfold select_secrets. walk. Qed.
#[local] Hint Resolve working_select_secrets : along.

Lemma working_prepare E h : working (prepare R cf E h).
Proof.
  unfold prepare. apply along_bind; [apply _|by apply working_mark|]. walk.
Qed.
#[local] Hint Resolve working_prepare : along.

Lemma secrets_selected E r r' l : select_secrets E r = (r', inr l) -> l = selected_secrets E.
Proof.
  unfold select_secrets, selected_secrets. destruct (he_secrets E) as [[e|l']|].
  - by intros (? & ? & _ & [=])%pass_bind_ok.
  - by intros (? & ? & _ & [= _ <-])%pass_bind_ok.
  - by intros [= _ <-].
Qed.

(** What is prepared runs. *)
Lemma prepare_runs E h r r' g backends importMap pending :
  prepare R cf E h r = (r', inr (g, backends, importMap, pending)) ->
  Forall (fun rb => backend_runs E h (ru_Asked r') rb true) backends.
Proof.
  unfold prepare. intros (? & r1 & _ & (secrets & r2 & Hsec & (g' & r3 & _ & ([[pk im] pend] & r4 & _ & Hrest)%pass_bind_ok)%pass_bind_ok)%pass_bind_ok)%pass_bind_ok.
  apply secrets_selected in Hsec as ->. cbn zeta in Hrest.
  apply pass_bind_ok in Hrest as (deployments & r5 & Hdep & (? & r6 & Hauth & ([] & r7 & Hawait & [= <- <- <- <- <-])%pass_bind_ok)%pass_bind_ok).
  unfold deploy_backends in Hdep. apply pass_bind_ok in Hdep as (ds & r51 & Heach & (? & r52 & Hclean & (? & r53 & Hroute & [= <- <-])%pass_bind_ok)%pass_bind_ok).
  apply each_backend_runs in Heach as (es & He & Hruns). pose proof (await_available _ _ _ Hawait) as Hup.
  assert (Hsub : forall e, e ∈ es -> e ∈ ru_Asked r7).
  { intros e Hin. eapply working_kept; [apply working_await|exact Hawait|]. eapply working_kept; [apply working_build_auth|exact Hauth|].
    eapply working_kept; [apply working_route_traffic|exact Hroute|]. eapply working_kept; [apply working_cleanup|exact Hclean|].
    rewrite He. apply elem_of_app. by right. }
  clear -Hruns Hup Hsub. cbn [fst snd] in *. match goal with |- Forall _ ?l => generalize dependent l end. intros rbs Hruns.
  induction Hruns as [|rb d rbs ds [_ Hr] _ IH]; [constructor|].
  apply Forall_cons in Hup as [Hd Hup]. constructor; [|by apply IH]. rewrite <- Hd. by eapply backend_runs_weaken.
Qed.

Lemma prepare_not_ready E h r r' res : prepare R cf E h r = (r', res) -> not_ready (ru_Status r').
Proof.
  intros [(o & Hm & _)|(? & r1 & Hm & Hrest)]%pass_bind_inv; [discriminate|]. injection Hm as <- _.
  eapply working_not_ready; [|exact Hrest|].
  - walk.
  - unfold not_ready, pk_mark; cbn [ru_Status ps_Conditions]. by rewrite SetConditions_Ready.
Qed.

(** A pass that ends well set the host and marked it as it stands. *)
Lemma finish_marks E pending r r' res :
  finish R E pending r = (r', res) ->
  ru_Asked r' = ru_Asked r /\
  status_of (ps_Conditions (ru_Status r')) "Ready" = Some (if pending then CFalse else CTrue) /\
  status_of (ps_Conditions (ru_Status r')) "Degraded" = Some (match he_collisions E with [] => CFalse | _ => CTrue end) /\
  res = (if pending then inl (Requeue (rc_RequeueDelay R)) else inr tt).
Proof.
  unfold finish. destruct pending; intros Hf; cbn in Hf; injection Hf as <- <-; cbn; (split; [done|]);
    unfold status_of, SetStatusCondition; rewrite lookup_insert_ne, lookup_insert_eq by done; cbn;
    rewrite ?SetConditions_Ready; (split; [|split; [|done]]);
    solve [apply SetConditions_Ready | by destruct (he_collisions E)].
Qed.

Lemma reconcile_host_inv E h r r' res :
  reconcile_host R cf E h r = (r', res) ->
  (exists es, ru_Asked r' = (ru_Asked r ++ es)%list /\ Forall unset es /\ not_ready (ru_Status r') /\ exists o, res = inl o) \/
  (exists g backends importMap pending r1 es,
    prepare R cf E h r = (r1, inr (g, backends, importMap, pending)) /\
    ru_Asked r1 = (ru_Asked r ++ es)%list /\ Forall unset es /\
    finish R E pending (mkRun (ru_Asked r1 ++ [SetHost (settings_of h g backends importMap)]) (ru_Status r1)) = (r', res)).
Proof.
  unfold reconcile_host.
  intros [(o & Hp & ->)|([[[g backends] importMap] pending] & r1 & Hp & Hrest)]%pass_bind_inv.
  - left. destruct (working_asked _ _ _ _ (working_prepare E h) Hp) as (es & Hes & Hu). exists es. split_and!; try done.
    + by eapply prepare_not_ready. + by exists o.
  - right. destruct (working_asked _ _ _ _ (working_prepare E h) Hp) as (es & Hes & Hu).
    destruct (pass_bind_inv _ _ _ _ _ Hrest) as [(o & Hs & _)|(? & r2 & Hs & Hf)]; [discriminate|].
    injection Hs as <- _. by exists g, backends, importMap, pending, r1, es.
Qed.

(** The requests of a pass and how it left the status, before it is written. *)
Lemma Reconcile_inv E h stored es st o :
  Reconcile R cf E h stored = (es, st, o) ->
  (es = [] /\ st = stored /\ o = Settled /\
    ~ (ho_Namespace h = rc_ControllerNamespace R /\ ho_Name h = rc_FocalHost R)) \/
  exists r res, reconcile_host R cf E h (mkRun [] stored) = (r, res) /\ es = ru_Asked r /\
    (st, o) = write_status (he_write E) stored (mkPkStatus (ps_Attributes (ru_Status r)) (ps_Conditions (ru_Status r)) (ho_Generation h))
                (match res with inl o => o | inr _ => Settled end).
Proof.
  unfold Reconcile.
  destruct (String.eqb_spec (ho_Namespace h) (rc_ControllerNamespace R)) as [Hns|Hns]; cbn [negb].
  2:{ intros [= <- <- <-]. left. naive_solver. }
  destruct (String.eqb_spec (ho_Name h) (rc_FocalHost R)) as [Hn|Hn]; cbn [negb].
  2:{ intros [= <- <- <-]. left. naive_solver. }
  destruct (reconcile_host R cf E h _) as [r res]. destruct (write_status _ _ _ _) as [st' o'] eqn:Hw.
  intros [= <- <- <-]. right. by exists r, res.
Qed.

(** * What the documents say of a backend *)

Lemma initial_functions functions : forall m p w su d op,
  foldl add_function_path m functions !! p = Some (BackendPaths w su d op) -> m !! p = Some (BackendPaths w su d op).
Proof.
  induction functions as [|f functions IH]; intros m p w su d op; cbn [foldl]; [done|].
  intros Hm%IH. unfold add_function_path in Hm. destruct (hf_Internal f); [done|]. by apply lookup_insert_Some in Hm as [[_ [=]]|[_ ?]].
Qed.

Lemma initial_backends backends : forall m p w su d op,
  foldl add_backend_path m backends !! p = Some (BackendPaths w su d op) ->
  m !! p = Some (BackendPaths w su d op) \/
  exists rb, rb ∈ backends /\ slashed (bk_IngressPath (rb_Backend rb)) = p /\ op = rb_Name rb ++ "-get".
Proof.
  induction backends as [|rb backends IH]; intros m p w su d op; cbn [foldl]; [by left|].
  intros [Hm|(rb' & Hin & Hp)]%IH; [|right; exists rb'; split; [by right|done]].
  unfold add_backend_path in Hm. cbn zeta in Hm. destruct (String.eqb (bk_IngressPath (rb_Backend rb)) ""); [by left|].
  apply lookup_insert_Some in Hm as [[Hp Heq]|[_ ?]]; [|by left]. injection Heq as <- <- <- <-.
  right. exists rb. split; [by left|done].
Qed.

Lemma documented_backend backends functions p w su d op :
  collectInitialPaths backends functions !! p = Some (BackendPaths w su d op) ->
  exists rb, rb ∈ backends /\ slashed (bk_IngressPath (rb_Backend rb)) = p /\ op = rb_Name rb ++ "-get".
Proof.
  unfold collectInitialPaths. intros [Hm|?]%initial_functions%initial_backends; [|done]. by rewrite lookup_empty in Hm.
Qed.

(** * The host is set last, over backends that run *)


(** A pass over the host the process serves leaves it Ready only when it set
    the host, with no package image to wait for: it then settles, at the host's
    generation, and Degraded says whether the handler refused a route. *)
Theorem host_ready_means_served E h stored es st o :
  ho_Namespace h = rc_ControllerNamespace R -> ho_Name h = rc_FocalHost R -> he_write E = Written ->
  Reconcile R cf E h stored = (es, st, o) -> status_of (ps_Conditions st) "Ready" = Some CTrue ->
  o = Settled /\ ps_ObservedGeneration st = ho_Generation h /\ (exists s, SetHost s ∈ es) /\
  status_of (ps_Conditions st) "Degraded" = Some (match he_collisions E with [] => CFalse | _ => CTrue end).
Proof.
  intros Hns Hn Hw [(_ & _ & _ & Hno)|(r & res & Hr & -> & Hst)]%Reconcile_inv Hready; [by destruct Hno|].
  unfold write_status in Hst. rewrite Hw in Hst.
  set (st' := mkPkStatus _ _ (ho_Generation h)) in Hst.
  assert (st = st' /\ o = match res with inl o => o | inr _ => Settled end) as [-> ->].
  { case_bool_decide as Hb; injection Hst as -> ->; [by rewrite <- Hb|]. by destruct res as [[]|]. }
  cbn [ps_Conditions st'] in Hready |- *.
  apply reconcile_host_inv in Hr as [(es & _ & _ & Hnot & _)|(g & backends & im & pending & r1 & es & Hp & He & Hu & Hf)]; [by destruct Hnot|].
  apply finish_marks in Hf as (Hasked & Hf & Hdeg & ->). destruct pending; [congruence|]. split_and!; try done.
  rewrite Hasked. eexists. apply elem_of_app. right. by left.
Qed.

(** * Paths are claimed once *)

Definition page_paths (p : page_refs) : list string :=
  pr_BasePath p :: (if String.eqb (pr_PatternPath p) "" then [] else [pr_PatternPath p]).

Lemma claim_ok seen path ns name kind r r' seen' :
  claim seen path ns name kind r = (r', inr seen') -> path ∉ seen /\ seen' = {[path]} ∪ seen.
Proof.
  unfold claim. case_bool_decide as Hin.
  - unfold duplicated, degrade. by intros (? & ? & _ & [=])%pass_bind_ok.
  - by intros [= _ <-].
Qed.

(** A list of paths, none seen before or twice, added to what was seen. *)
Definition claims (seen : gset string) (paths : list string) (seen' : gset string) : Prop :=
  NoDup paths /\ (forall p, p ∈ paths -> p ∉ seen) /\ seen' = list_to_set paths ∪ seen.

Lemma claims_nil seen : claims seen [] seen.
Proof. split_and!; [constructor|by intros p ?%elem_of_nil|set_solver]. Qed.

Lemma claims_app seen l1 seen1 l2 seen2 : claims seen l1 seen1 -> claims seen1 l2 seen2 -> claims seen (l1 ++ l2) seen2.
Proof.
  intros (Hn1 & Hf1 & ->) (Hn2 & Hf2 & ->). split_and!.
  - apply NoDup_app. split_and!; [done| |done]. intros p Hp Hp2. apply (Hf2 p Hp2). set_solver.
  - intros p [Hp|Hp]%elem_of_app; [by apply Hf1|]. specialize (Hf2 p Hp). set_solver.
  - rewrite list_to_set_app_L. set_solver.
Qed.

Lemma claims_one seen path : path ∉ seen -> claims seen [path] ({[path]} ∪ seen).
Proof.
  intros Hp. split_and!; [by apply NoDup_singleton| |set_solver]. by intros p ->%list_elem_of_singleton.
Qed.

Lemma claim_pages_ok l : forall seen r r' seen',
  claim_pages R seen l r = (r', inr seen') -> claims seen (mjoin (map page_paths l)) seen'.
Proof.
  induction l as [|p l IH]; intros seen r r' seen'; cbn [claim_pages map mjoin list_join].
  - intros [= _ <-]. apply claims_nil.
  - intros (seen1 & r1 & Hp & Hl%IH)%pass_bind_ok. eapply claims_app; [|exact Hl]. unfold claim_page, page_paths in *.
    apply pass_bind_ok in Hp as (seen2 & r2 & [Hb ->]%claim_ok & Hp).
    change (pr_BasePath p :: _) with ([pr_BasePath p] ++ if String.eqb (pr_PatternPath p) "" then [] else [pr_PatternPath p])%list.
    eapply claims_app; [by apply claims_one|]. destruct (String.eqb (pr_PatternPath p) "").
    + injection Hp as _ <-. apply claims_nil.
    + apply claim_ok in Hp as [Hp ->]. by apply claims_one.
Qed.

Definition backend_path (rb : resolvedBackend) : string := bk_IngressPath (rb_Backend rb).

Lemma claim_backends_ok E h l : forall seen r r' seen' rbs,
  claim_backends R E h seen l r = (r', inr (seen', rbs)) -> claims seen (map backend_path rbs) seen'.
Proof.
  induction l as [|ref l IH]; intros seen r r' seen' rbs; cbn [claim_backends].
  - intros [= _ <- <-]. apply claims_nil.
  - intros (o & r1 & _ & Hrest)%pass_bind_ok. destruct (o ≫= _) as [b|]; [|by apply IH in Hrest].
    apply pass_bind_ok in Hrest as (seen1 & r2 & [Hb ->]%claim_ok & ([seen2 rest] & r3 & Hl%IH & [= _ <- <-])%pass_bind_ok).
    cbn [map fst snd]. eapply (claims_app _ [_]); [by apply claims_one|exact Hl].
Qed.

(** C18: No two of the host's pages and backends (its own, its theme's, script
    libraries' and apps') share a path, once a pass has gathered them: a
    shared path ends the pass instead. *)
Theorem gathered_paths_distinct E h r r' g :
  gather R cf E h r = (r', inr g) ->
  NoDup (mjoin (map page_paths (he_pages E)) ++ map backend_path (ga_Backends g)).
Proof.
  unfold gather. intros (c & r1 & _ & (ups & r2 & _ & (us & r3 & _ & (bs & r4 & _ & Hrest)%pass_bind_ok)%pass_bind_ok)%pass_bind_ok)%pass_bind_ok.
  apply pass_bind_ok in Hrest as (? & r5 & _ & (seen & r6 & Hpages%claim_pages_ok & Hrest)%pass_bind_ok).
  apply pass_bind_ok in Hrest as (packages & r7 & _ & ([seen' rbs] & r8 & Hbackends%claim_backends_ok & Hrest)%pass_bind_ok).
  apply pass_bind_ok in Hrest as (functions & r9 & _ & (? & r10 & _ & [= _ <-])%pass_bind_ok). cbn [ga_Backends snd].
  destruct (claims_app _ _ _ _ _ Hpages Hbackends) as (Hnd & Hfresh & _).
  rewrite map_app. unfold backend_path at 1.
  assert (Hown : NoDup (map (fun rb => bk_IngressPath (rb_Backend rb)) (own_backend cf h))).
  { unfold own_backend. destruct (IsConfigured _ _); [apply NoDup_singleton|constructor]. }
  rewrite (Permutation_app_comm (map _ (own_backend cf h))), app_assoc. apply NoDup_app. split_and!; [done| |done].
  intros p Hp Hp'. apply (Hfresh p Hp). by apply elem_of_list_to_set.
Qed.
End Parts.

(** * Functions: the earliest created keeps a path *)

Lemma sort_created_perm l : sort_created l ≡ₚ l.
Proof.
  induction l as [|f l IH]; [done|]. unfold sort_created in *. cbn [foldr]. rewrite <- IH at 2. clear IH.
  generalize (foldr insert_created [] l). intros l'. induction l' as [|g l' IH]; cbn [insert_created]; [done|].
  destruct (hf_Created f <=? hf_Created g)%Z; [done|]. rewrite IH. by constructor.
Qed.

Definition no_later (f g : host_function) : Prop := (hf_Created f <= hf_Created g)%Z.

Lemma sort_created_sorted l : StronglySorted no_later (sort_created l).
Proof.
  induction l as [|f l IH]; [constructor|]. unfold sort_created in *. cbn [foldr].
  induction IH as [|g l' Hl IH Hg]; cbn [insert_created]; [by repeat constructor|].
  unfold no_later in *. destruct (Z.leb_spec (hf_Created f) (hf_Created g)).
  - constructor; [by constructor|]. constructor; [done|]. eapply Forall_impl; [exact Hg|]. cbn. intros; lia.
  - constructor; [done|]. clear -Hg H. revert Hg. generalize l' at 1 2. intros l. induction l as [|x l IHl]; cbn [insert_created]; intros Hg.
    + constructor; [lia|constructor].
    + apply Forall_cons in Hg as [Hx Hg]. destruct (hf_Created f <=? hf_Created x)%Z; constructor; auto with lia.
Qed.

(** What [claim_functions] leaves unreported, out of those it walks. *)
Record keeps_paths (seen : gset string) (l kept : list host_function) (dups : list (host_function * string)) : Prop := {
  kp_all : (kept ++ map fst dups)%list ≡ₚ l;
  kp_order : kept `sublist_of` l;
  kp_fresh : forall f p, f ∈ kept -> p ∈ hf_Paths f -> p ∉ seen;
  kp_apart : StronglySorted (fun f g => forall p, p ∈ hf_Paths f -> p ∉ hf_Paths g) kept;
  kp_taken : forall f p, (f, p) ∈ dups -> f ∈ l /\ p ∈ hf_Paths f /\
    (p ∈ seen \/ exists g, g ∈ kept /\ p ∈ hf_Paths g /\ no_later g f) }.

Lemma find_taken (seen : gset string) l :
  "" ∉ l ->
  match List.find (fun p => bool_decide (p ∈ seen)) l with
  | Some p => p ∈ l /\ p ∈ seen /\ p <> ""
  | None => forall p, p ∈ l -> p ∉ seen
  end.
Proof.
  intros Hl. destruct (List.find _ l) as [p|] eqn:Hf.
  - apply List.find_some in Hf as [Hin%list_elem_of_In Hp%bool_decide_eq_true]. split_and!; [done..|]. congruence.
  - intros p Hp Hseen. eapply List.find_none in Hf; [|by apply list_elem_of_In].
    by apply bool_decide_eq_false in Hf.
Qed.

Lemma claim_functions_keep l : forall seen,
  StronglySorted no_later l -> (forall f, f ∈ l -> "" ∉ hf_Paths f) ->
  exists kept, keeps_paths seen l kept (claim_functions seen l).
Proof.
  induction l as [|f l IH]; intros seen Hsort Hne; cbn [claim_functions].
  { exists []. split; solve [done | constructor | by intros ? ? ?%elem_of_nil]. }
  apply StronglySorted_inv in Hsort as [Hsort Hf]. rewrite Forall_forall in Hf.
  assert (Hne' : forall g, g ∈ l -> "" ∉ hf_Paths g) by (intros g Hg; apply Hne; by right).
  pose proof (find_taken seen (hf_Paths f) (Hne f ltac:(left))) as Hfind. cbn zeta.
  destruct (List.find _ _) as [p|]; cbn [from_option id].
  - destruct Hfind as (Hp & Hseen & Hp0). rewrite (proj2 (String.eqb_neq p "") Hp0). destruct (IH seen Hsort Hne') as [kept Hk].
    exists kept. destruct Hk as [Hall Hord Hfresh Hapart Htaken]. split; try done.
    + cbn [map fst]. by rewrite <- Permutation_middle, Hall.
    + by constructor.
    + intros g q [[= -> ->]|Hin]%elem_of_cons; [split_and!; [left|done|by left]|].
      destruct (Htaken _ _ Hin) as (? & ?). split; [by right|done].
  - rewrite String.eqb_refl. destruct (IH (list_to_set (hf_Paths f) ∪ seen) Hsort Hne') as [kept Hk].
    destruct Hk as [Hall Hord Hfresh Hapart Htaken]. exists (f :: kept). split.
    + cbn [app]. by rewrite Hall.
    + by constructor.
    + intros g q [->|Hg]%elem_of_cons Hq; [by apply Hfind|]. specialize (Hfresh g q Hg Hq). set_solver.
    + constructor; [done|]. apply Forall_forall. intros g Hg q Hq Hq'. specialize (Hfresh g q Hg Hq'). set_solver.
    + intros g q Hin. destruct (Htaken _ _ Hin) as (Hg & Hq & Hseen). split; [by right|]. split; [done|].
      destruct Hseen as [[Hf'%elem_of_list_to_set|Hs]%elem_of_union|(g' & ? & ? & ?)]; [|by left|].
      * right. exists f. split_and!; [by left|done|by apply Hf].
      * right. exists g'. split_and!; [by right|done|done].
Qed.

(** Of the functions of a host, in the order of their creation, those not
    reported as duplicates share no path with each other nor with the host's
    pages and backends; and each one reported has a path that a page or a
    backend claims, or a function kept and created no later. *)
Theorem duplicates_reported seen l :
  (forall f, f ∈ l -> "" ∉ hf_Paths f) ->
  exists kept, (kept ++ map fst (claim_functions seen (sort_created l)))%list ≡ₚ l /\
    (forall i j f g p, kept !! i = Some f -> kept !! j = Some g -> i <> j -> p ∈ hf_Paths f -> p ∉ hf_Paths g) /\
    (forall f p, f ∈ kept -> p ∈ hf_Paths f -> p ∉ seen) /\
    forall f p, (f, p) ∈ claim_functions seen (sort_created l) ->
      p ∈ hf_Paths f /\ (p ∈ seen \/ exists g, g ∈ kept /\ p ∈ hf_Paths g /\ (hf_Created g <= hf_Created f)%Z).
Proof.
  intros Hne. destruct (claim_functions_keep (sort_created l) seen (sort_created_sorted l)) as [kept Hk].
  { intros f Hf. apply Hne. by rewrite <- (sort_created_perm l). }
  destruct Hk as [Hall _ Hfresh Hapart Htaken]. exists kept. split_and!.
  - rewrite Hall. apply sort_created_perm.
  - assert (Hlt : forall i j f g p, kept !! i = Some f -> kept !! j = Some g -> (i < j)%nat -> p ∈ hf_Paths f -> p ∉ hf_Paths g).
    { clear -Hapart. induction Hapart as [|x kept _ IH Hx]; intros [|i] [|j] f g p; cbn [lookup list_lookup]; try done; try lia.
      - intros [= ->] Hj _ Hp. rewrite Forall_forall in Hx. exact (Hx g (list_elem_of_lookup_2 _ _ _ Hj) p Hp).
      - intros Hi Hj Hij. eapply IH; [done..|lia]. }
    intros i j f g p Hi Hj Hij Hp Hq. destruct (Nat.lt_total i j) as [Hlij|[?|Hlij]]; [|done|].
    + exact (Hlt i j f g p Hi Hj Hlij Hp Hq). + exact (Hlt j i g f p Hj Hi Hlij Hq Hp).
  - done.
  - intros f p Hin. destruct (Htaken f p Hin) as (_ & Hp & Hs). by split.
Qed.

(** The host's documents, though, are the latest created's: a base path that
    two functions share is documented for the last of them. *)
Lemma documented_function_is_last backends functions f rest :
  hf_Internal f = false -> Forall (fun g => hf_Internal g = true \/ hf_BasePath g <> hf_BasePath f) rest ->
  collectInitialPaths backends (functions ++ f :: rest) !! hf_BasePath f = Some (FunctionPaths (hf_Namespace f) (hf_Name f)).
Proof.
  intros Hf Hrest. unfold collectInitialPaths. rewrite foldl_app. cbn [foldl]. unfold add_function_path at 2. rewrite Hf.
  generalize (foldl add_function_path (foldl add_backend_path ∅ backends) functions). intros m.
  assert (H : <[hf_BasePath f := FunctionPaths (hf_Namespace f) (hf_Name f)]> m !! hf_BasePath f = Some (FunctionPaths (hf_Namespace f) (hf_Name f)))
    by apply lookup_insert_eq.
  revert H. generalize (<[hf_BasePath f := FunctionPaths (hf_Namespace f) (hf_Name f)]> m). clear m.
  induction Hrest as [|g rest Hg _ IH]; intros m Hm; cbn [foldl]; [done|]. apply IH. unfold add_function_path.
  destruct (hf_Internal g) eqn:Hi; [done|]. destruct Hg as [?|Hg]; [congruence|]. by rewrite lookup_insert_ne.
Qed.

(** * Package references *)

Lemma keyed_packages l : forall (m : gmap string PackageReference) k p,
  foldl (fun m p => <[package_key p := p]> m) m l !! k = Some p -> m !! k = Some p \/ (p ∈ l /\ package_key p = k).
Proof.
  induction l as [|x l IH]; intros m k p; cbn [foldl]; [by left|].
  intros [Hm|[? ?]]%IH; [|right; split; [by right|done]]. apply lookup_insert_Some in Hm as [[<- <-]|[_ ?]]; [|by left].
  right. split; [by left|done].
Qed.

Lemma packages_kept l : forall (m : gmap string PackageReference) k,
  (is_Some (m !! k) \/ exists p, p ∈ l /\ package_key p = k) ->
  is_Some (foldl (fun m p => <[package_key p := p]> m) m l !! k).
Proof.
  induction l as [|x l IH]; intros m k Hk; cbn [foldl].
  - destruct Hk as [?|(p & ?%elem_of_nil & _)]; done.
  - apply IH. destruct (decide (package_key x = k)) as [Hx|Hx].
    + left. rewrite Hx, lookup_insert_eq. by eexists.
    + destruct Hk as [Hm|(p & [->|Hp]%elem_of_cons & Hk)]; [left; by rewrite lookup_insert_ne|done|right; by exists p].
Qed.

Lemma UniquePackageRefs_spec l :
  NoDup (map package_key (UniquePackageRefs l)) /\
  (forall p, p ∈ UniquePackageRefs l -> p ∈ l) /\
  (forall p, p ∈ l -> exists q, q ∈ UniquePackageRefs l /\ package_key q = package_key p).
Proof.
  unfold UniquePackageRefs. set (m := foldl _ ∅ l).
  assert (Hm : forall k p, m !! k = Some p -> p ∈ l /\ package_key p = k).
  { intros k p [Hk|?]%keyed_packages; [by rewrite lookup_empty in Hk|done]. }
  assert (Hin : forall p, p ∈ merge_sort package_ref_le (map snd (map_to_list m)) <-> exists k, m !! k = Some p).
  { intros p. rewrite merge_sort_Permutation, list_elem_of_fmap. split.
    - intros ([k q] & -> & Hq). apply elem_of_map_to_list in Hq. by exists k.
    - intros [k Hk]. exists (k, p). split; [done|]. by apply elem_of_map_to_list. }
  split_and!.
  - rewrite merge_sort_Permutation, map_map.
    replace (map _ (map_to_list m)) with ((map_to_list m).*1); [apply NoDup_fst_map_to_list|].
    apply list_fmap_ext. intros i [k p] Hkp. cbn. apply list_elem_of_lookup_2, elem_of_map_to_list in Hkp. by destruct (Hm k p Hkp).
  - intros p [k Hk]%Hin. by apply (Hm k).
  - intros p Hp. destruct (packages_kept l ∅ (package_key p)) as [q Hq]; [right; by exists p|].
    exists q. split; [apply Hin; by exists (package_key p)|]. by apply Hm.
Qed.

(** What the API server would refuse. *)
Definition foreign_secret (ns : string) (p : PackageReference) : Prop :=
  exists ns' key, pk_SecretRef p = Some (ns', key) /\ ns' <> "" /\ ns' <> ns.

Lemma packageRefsForIPR_spec ns l : forall versions,
  match packageRefsForIPR ns versions l with
  | Ok out =>
      Forall2 (fun p q => pk_Name q = pk_Name p /\ pk_Version q = pk_Version p /\ pk_Registry q = pk_Registry p /\
                 pk_SecretRef q = (fun r => ("", snd r)) <$> pk_SecretRef p) l out /\
      Forall (fun p => ~ foreign_secret ns p /\ forall v, versions !! pk_Name p = Some v -> v = pk_Version p) l /\
      forall p q, p ∈ l -> q ∈ l -> pk_Name p = pk_Name q -> pk_Version p = pk_Version q
  | Err _ =>
      (exists p, p ∈ l /\ foreign_secret ns p) \/
      (exists p v, p ∈ l /\ versions !! pk_Name p = Some v /\ v <> pk_Version p) \/
      (exists p q, p ∈ l /\ q ∈ l /\ pk_Name p = pk_Name q /\ pk_Version p <> pk_Version q)
  end.
Proof.
  induction l as [|p l IH]; intros versions; cbn [packageRefsForIPR].
  { split_and!; [constructor|constructor|by intros ? ? ?%elem_of_nil]. }
  cbn zeta. set (foreign := match pk_SecretRef p with Some (ns', _) => _ | None => _ end).
  assert (Hforeign : foreign = true <-> foreign_secret ns p).
  { unfold foreign, foreign_secret. destruct (pk_SecretRef p) as [[ns' key]|]; [|naive_solver].
    rewrite andb_true_iff, !negb_true_iff, !String.eqb_neq. naive_solver. }
  destruct foreign.
  { left. exists p. split; [by left|]. by apply Hforeign. }
  assert (Hnot : ~ foreign_secret ns p) by (rewrite <- Hforeign; done). clear Hforeign.
  assert (Hcleared : forall q, pk_Name q = pk_Name p -> True) by done. clear Hcleared.
  destruct (versions !! pk_Name p) as [v|] eqn:Hv; [destruct (String.eqb_spec v (pk_Version p)) as [->|Hne]|].
  2:{ right. left. exists p, v. split_and!; [by left|done|done]. }
  - specialize (IH versions). destruct (packageRefsForIPR ns versions l) as [out|e].
    + destruct IH as (Hout & Hall & Hsame). rewrite Forall_forall in Hall. split_and!.
      * by constructor.
      * constructor; [split; [done|congruence]|by apply Forall_forall].
      * intros a b [->|Ha]%elem_of_cons [->|Hb]%elem_of_cons Hab; [done| | |by apply Hsame].
        -- apply (proj2 (Hall b Hb)). by rewrite <- Hab.
        -- symmetry. apply (proj2 (Hall a Ha)). by rewrite Hab.
    + destruct IH as [(a & Ha & ?)|[(a & v & Ha & ?)|(a & b & Ha & Hb & ?)]].
      * left. exists a. split; [by right|done].
      * right. left. exists a, v. split; [by right|done].
      * right. right. exists a, b. split_and!; [by right|by right|apply H|apply H].
  - specialize (IH (<[pk_Name p := pk_Version p]> versions)). destruct (packageRefsForIPR ns _ l) as [out|e].
    + destruct IH as (Hout & Hall & Hsame). rewrite Forall_forall in Hall.
      assert (Hp : forall b, b ∈ l -> pk_Name p = pk_Name b -> pk_Version p = pk_Version b).
      { intros b Hb Hab. apply (proj2 (Hall b Hb)). by rewrite <- Hab, lookup_insert_eq. }
      split_and!.
      * by constructor.
      * constructor; [split; [done|congruence]|]. apply Forall_forall. intros a Ha. split; [by apply Hall|]. intros v Hav.
        destruct (decide (pk_Name p = pk_Name a)) as [Hn|Hn]; [congruence|]. apply (proj2 (Hall a Ha)). by rewrite lookup_insert_ne.
      * intros a b [->|Ha]%elem_of_cons [->|Hb]%elem_of_cons Hab; [done|by apply Hp|symmetry; by apply Hp|by apply Hsame].
    + destruct IH as [(a & Ha & ?)|[(a & v & Ha & Hav & Hne)|(a & b & Ha & Hb & ?)]].
      * left. exists a. split; [by right|done].
      * destruct (decide (pk_Name p = pk_Name a)) as [Hn|Hn].
        -- rewrite Hn, lookup_insert_eq in Hav. injection Hav as <-. right. right. exists p, a. split_and!; [by left|by right|done|done].
        -- rewrite lookup_insert_ne in Hav by done. right. left. exists a, v. split; [by right|done].
      * right. right. exists a, b. split_and!; [by right|by right|apply H|apply H].
Qed.

Lemma package_key_inj p q : pk_Name p = pk_Name q -> pk_Version p = pk_Version q -> package_key p = package_key q.
Proof. unfold package_key. by intros -> ->. Qed.

Lemma NoDup_map_through {A B C} (f : A -> B) (g : A -> C) l :
  NoDup (map f l) -> (forall x y, x ∈ l -> y ∈ l -> g x = g y -> f x = f y) -> NoDup (map g l).
Proof.
  induction l as [|x l IH]; cbn [map]; intros Hf Hfg; [constructor|]. apply NoDup_cons in Hf as [Hx Hf]. constructor.
  - intros (y & Hy & Hin)%list_elem_of_fmap. apply Hx, list_elem_of_fmap. exists y. split; [|done].
    apply Hfg; [by left|by right|done].
  - apply IH; [done|]. intros a b Ha Hb. apply Hfg; by right.
Qed.

(** C26: The references the host writes are ones the API server takes: each package
    once, no Secret of another namespace, and every package some theme,
    library, page or utility page asked for among them; they are refused only
    when a package's Secret lies elsewhere or a package is asked for at two
    versions. *)
Theorem package_references_exact ns l :
  match packageRefsForIPR ns ∅ (UniquePackageRefs l) with
  | Ok out =>
      NoDup (map pk_Name out) /\
      (forall q ns' key, q ∈ out -> pk_SecretRef q = Some (ns', key) -> ns' = "") /\
      (forall p, p ∈ l -> exists q, q ∈ out /\ package_key q = package_key p) /\
      (forall q, q ∈ out -> exists p, p ∈ l /\ pk_Name q = pk_Name p /\ pk_Version q = pk_Version p /\ pk_Registry q = pk_Registry p)
  | Err _ =>
      (exists p, p ∈ l /\ foreign_secret ns p) \/
      (exists p q, p ∈ l /\ q ∈ l /\ pk_Name p = pk_Name q /\ pk_Version p <> pk_Version q)
  end.
Proof.
  destruct (UniquePackageRefs_spec l) as (Hkeys & Hsub & Hsup).
  pose proof (packageRefsForIPR_spec ns (UniquePackageRefs l) ∅) as Hspec.
  destruct (packageRefsForIPR _ _ _) as [out|e].
  - destruct Hspec as (Hout & _ & Hsame).
    assert (Hnames : NoDup (map pk_Name (UniquePackageRefs l))).
    { eapply NoDup_map_through; [exact Hkeys|]. intros p q Hp Hq Hn. apply package_key_inj; [done|by apply Hsame]. }
    split_and!.
    + replace (map pk_Name out) with (map pk_Name (UniquePackageRefs l)); [done|].
      clear -Hout. induction Hout as [|p q ? ? (Hn & _) _ IH]; cbn; [done|]. by rewrite Hn, IH.
    + intros q ns' key Hq Hs. apply list_elem_of_lookup in Hq as [i Hi].
      destruct (Forall2_lookup_r _ _ _ _ _ Hout Hi) as (p & _ & _ & _ & _ & Hsec). rewrite Hs in Hsec.
      destruct (pk_SecretRef p) as [r|]; cbn in Hsec; congruence.
    + intros p Hp. destruct (Hsup p Hp) as (q & Hq & Hk). apply list_elem_of_lookup in Hq as [i Hi].
      destruct (Forall2_lookup_l _ _ _ _ _ Hout Hi) as (q' & Hi' & Hn & Hv & _). exists q'.
      split; [by eapply list_elem_of_lookup_2|]. rewrite <- Hk. by apply package_key_inj.
    + intros q Hq. apply list_elem_of_lookup in Hq as [i Hi].
      destruct (Forall2_lookup_r _ _ _ _ _ Hout Hi) as (p & Hi' & Hn & Hv & Hr & _). exists p.
      split_and!; [|done..]. by apply Hsub; eapply list_elem_of_lookup_2.
  - destruct Hspec as [(p & Hp & ?)|[(p & v & _ & Hv & _)|(p & q & Hp & Hq & ?)]].
    + left. exists p. split; [by apply Hsub|done].
    + by rewrite lookup_empty in Hv.
    + right. exists p, q. split_and!; [by apply Hsub|by apply Hsub|apply H|apply H].
Qed.

(** * Traffic *)

Section Traffic.
Context `{!SecretList} (cf : host_configuration).
Implicit Types (h : host_object).

(** The path prefixes of a domain and the Service behind each, by an Ingress
    and by an HTTPRoute. *)
Definition ingress_routes (s : ingress_spec) (domain prefix service : string) : Prop :=
  exists r, r ∈ ig_Rules s /\ ir_Host r = domain /\ (prefix, service) ∈ ir_Paths r.
Definition httproute_routes (s : httproute_spec) (domain prefix service : string) : Prop :=
  domain ∈ rt_Hostnames s /\ exists r, r ∈ rt_Rules s /\ hr_Prefix r = prefix /\ hr_Service r = service.

Lemma own_ok {A} (o o' : owned A) : own o = Ok o' -> ob_Spec o' = ob_Spec o /\ ob_Labels o' = ob_Labels o /\ ob_Annotations o' = ob_Annotations o.
Proof. unfold own. destruct (ob_Taken o); [done|]. by intros [= <-]. Qed.

End Traffic.

(** * A pass repeated *)

Section Settles.
Context `{!SecretList} `{!Conditions} `{!Reasons} (cf : host_configuration).

(** A mutation that leaves what it made as it made it. *)
Definition settles {A} (mutate : option A -> result (option string) A) : Prop :=
  forall there o, mutate there = Ok o -> mutate (Some o) = Ok o.

Lemma put_settled {A B} `{EqDecision A} mutate put request there (o : A) (b : B) r :
  settles mutate -> mutate there = Ok o -> put_object (Found (o, b)) mutate put request r = (r, inr (o, b)).
Proof.
  intros Hm Ho. unfold put_object, CreateOrUpdate. rewrite (Hm _ _ Ho). rewrite bool_decide_eq_true_2 by done.
  cbn. rewrite app_nil_r. by destruct r.
Qed.

Lemma own_inv {A} (o o' : owned A) : own o = Ok o' ->
  o' = mkOwned (ob_Name o) (ob_Labels o) (ob_Annotations o) (ob_Spec o) true None.
Proof. unfold own. destruct (ob_Taken o); [done|]. by intros [= <-]. Qed.

Lemma references_settle h l : settles (mutate_references h l).
Proof. intros there o Ho. unfold mutate_references in *. by apply own_inv in Ho as ->. Qed.

Lemma service_settles h rb : settles (mutate_service cf h rb).
Proof. intros there o Ho. unfold mutate_service in *. by apply own_inv in Ho as ->. Qed.

Lemma backend_spec_again h rb pullSecrets selector s :
  backend_spec cf h rb pullSecrets selector = Some s -> backend_spec cf h rb pullSecrets (dy_Selector s) = Some s.
Proof. unfold backend_spec. cbn zeta. destruct (dy_Containers (cf_Deployment cf)); [done|]. by intros [= <-]. Qed.

Lemma deployment_settles h rb pullSecrets : settles (mutate_deployment cf h rb pullSecrets).
Proof.
  intros there o. unfold mutate_deployment. destruct (backend_spec _ _ _ _ _) as [s|] eqn:Hs; [|done].
  intros Ho. assert (Hspec : ob_Spec o = s) by (apply own_inv in Ho as ->; by destruct there).
  cbn [mbind option_bind]. rewrite Hspec, (backend_spec_again _ _ _ _ _ Hs). apply own_inv in Ho as ->. by destruct there.
Qed.

(** Labels and annotations laid over what is there once more. *)
Lemma routed_again {A} h label (fresh : A) there s :
  ho_Labels h !! label = None ->
  routed h label fresh (Some (mkOwned (ob_Name (routed h label fresh there)) (ob_Labels (routed h label fresh there))
    (ob_Annotations (routed h label fresh there)) s true None)) =
  mkOwned (ob_Name (routed h label fresh there)) (ob_Labels (routed h label fresh there))
    (ob_Annotations (routed h label fresh there)) s true None.
Proof.
  intros Hl. destruct there as [o|]; cbn [routed ob_Name ob_Labels ob_Annotations ob_Spec ob_Owned ob_Taken]; f_equal.
  - by rewrite (assoc_L (∪)), (idemp_L (∪)).
  - by rewrite (assoc_L (∪)), (idemp_L (∪)).
  - apply map_eq. intros k. rewrite lookup_union. destruct (decide (label = k)) as [<-|Hk].
    + by rewrite lookup_insert_eq, Hl, (left_id_L None _).
    + rewrite lookup_insert_ne by done. by destruct (ho_Labels h !! k).
  - by rewrite (idemp_L (∪)).
Qed.

Lemma ingress_settles h backends secrets :
  ho_Labels h !! "kdex.dev/ingress" = None -> settles (mutate_ingress cf h backends secrets).
Proof.
  intros Hl there o. unfold mutate_ingress. cbn zeta. intros ->%own_inv.
  cbn [with_spec ob_Name ob_Labels ob_Annotations ob_Spec]. by rewrite routed_again.
Qed.

Lemma httproute_settles h backends : ho_Labels h !! "kdex.dev/httproute" = None -> settles (mutate_httproute cf h backends).
Proof.
  intros Hl there o. unfold mutate_httproute. cbn zeta. intros ->%own_inv.
  cbn [with_spec ob_Name ob_Labels ob_Annotations ob_Spec]. by rewrite routed_again.
Qed.

(** The cluster as a pass leaves it: each backend's Deployment and Service as
    some pass wrote them, no others of the host's, and its traffic routed. *)
Record as_written (E : host_environment) (h : host_object) (secrets : list secret) (backends : list resolvedBackend) : Prop := {
  aw_backends : forall rb, rb ∈ backends -> exists there d up there' s,
    he_deployment E (backend_name h rb) = Found (d, up) /\
    mutate_deployment cf h rb (map se_Name (FilterSecrets is_docker secrets)) there = Ok d /\
    he_service E (backend_name h rb) = Found s /\ mutate_service cf h rb there' = Ok s;
  aw_no_others : exists ds ss, he_deployments E = inr ds /\ he_services E = inr ss /\
    Forall (fun n => n ∈ map (backend_name h) backends) ds /\ Forall (fun n => n ∈ map (backend_name h) backends) ss;
  aw_routed :
    match ho_Strategy h with
    | HTTPRouteStrategy => ho_Labels h !! "kdex.dev/httproute" = None /\
        exists there o x, he_httproute E = Found (o, x) /\ mutate_httproute cf h backends there = Ok o
    | IngressStrategy => ho_Labels h !! "kdex.dev/ingress" = None /\
        exists there o x, he_ingress E = Found (o, x) /\ mutate_ingress cf h backends secrets there = Ok o
    end }.

Lemma redeploy_quiet E h secrets rb r there d up there' s :
  he_deployment E (backend_name h rb) = Found (d, up) ->
  mutate_deployment cf h rb (map se_Name (FilterSecrets is_docker secrets)) there = Ok d ->
  he_service E (backend_name h rb) = Found s -> mutate_service cf h rb there' = Ok s ->
  deploy_backend cf E h secrets rb r = (r, inr (backend_name h rb, up)).
Proof.
  intros Hd Hmd Hs Hms. unfold deploy_backend. cbn zeta. unfold mbind, passing_bind. rewrite Hd, Hs.
  rewrite (put_settled _ _ _ _ _ _ _ (deployment_settles h rb _) Hmd). cbn [unit_answer].
  by rewrite (put_settled _ _ _ _ _ _ _ (service_settles h rb) Hms).
Qed.

Lemma each_quiet E h secrets backends r :
  (forall rb, rb ∈ backends -> exists up, deploy_backend cf E h secrets rb r = (r, inr (backend_name h rb, up))) ->
  exists ds, each (deploy_backend cf E h secrets) backends r = (r, inr ds).
Proof.
  induction backends as [|rb backends IH]; cbn [each]; intros Hq; [by exists []|].
  destruct (Hq rb ltac:(left)) as [up Hup]. destruct IH as [ds Hds]; [intros rb' Hin; apply Hq; by right|].
  exists ((backend_name h rb, up) :: ds). unfold mbind, passing_bind. by rewrite Hup, Hds.
Qed.

Lemma sweep_quiet R del request forget names l r :
  Forall (fun n => n ∈ names) l -> sweep R del request forget names l r = (r, inr tt).
Proof.
  induction 1 as [|n l Hn _ IH]; cbn [sweep]; [done|]. by rewrite bool_decide_eq_true_2.
Qed.

(** Over a cluster that holds what a pass wrote, as it wrote it, the next pass
    deploys the backends and routes the traffic by asking for nothing. *)
Theorem written_cluster_left_alone R E h secrets backends r r' res :
  as_written E h secrets backends -> deploy_backends R cf E h secrets backends r = (r', res) ->
  ru_Asked r' = ru_Asked r /\ ps_Conditions (ru_Status r') = ps_Conditions (ru_Status r) /\ exists ds, res = inr ds.
Proof.
  intros [Hb (ds & ss & Hds & Hss & Hdn & Hsn) Hr] Hrun. unfold deploy_backends in Hrun.
  destruct (each_quiet E h secrets backends r) as [l Hl].
  { intros rb (there & d & up & there' & s & ? & ? & ? & ?)%Hb. exists up. by eapply redeploy_quiet. }
  unfold mbind, passing_bind in Hrun. rewrite Hl in Hrun.
  assert (Hc : cleanupObsoleteBackends R E (map (backend_name h) backends) r = (r, inr tt)).
  { unfold cleanupObsoleteBackends, mbind, passing_bind. rewrite Hds. cbn. rewrite sweep_quiet by done. rewrite Hss. cbn. by apply sweep_quiet. }
  rewrite Hc in Hrun. clear Hc.
  assert (Ht : exists r1, route_traffic cf E h backends secrets r = (r1, inr tt) /\ ru_Asked r1 = ru_Asked r /\
    ps_Conditions (ru_Status r1) = ps_Conditions (ru_Status r)).
  { unfold route_traffic. unfold mbind, passing_bind. destruct (ho_Strategy h), Hr as (Hlab & there & o & x & Ho & Hm); rewrite Ho.
    - rewrite (put_settled _ _ _ _ _ _ _ (ingress_settles h backends secrets Hlab) Hm). cbn. destruct x; eexists; by split_and!.
    - rewrite (put_settled _ _ _ _ _ _ _ (httproute_settles h backends Hlab) Hm). cbn. destruct x; eexists; by split_and!. }
  destruct Ht as (r1 & Hrt & Hask & Hcond). rewrite Hrt in Hrun. injection Hrun as <- <-. split_and!; [done..|by eexists].
Qed.
End Settles.

(** * On a concrete host *)

#[local] Instance crds : HostCRDs := {|
  IsConfigured b _ := negb (String.eqb (bk_StaticImage b) ""); ToTag := sd_Text;
  utility_text t := match t with Announcement => "Announcement" | Consent => "Consent" | ErrorPage => "Error" | LoginPage => "Login" end |}.
#[local] Existing Instance sha256Example.
#[local] Existing Instance conditionsExample.
#[local] Instance host_oci : OCI := {|
  NewRepository s := if String.eqb s "" then Err "invalid reference" else Ok "registry"; Hostname := Ok; UnmarshalDockerConfig _ := None;
  UnmarshalManifest _ := Ok [mkLayer "application/json" "sha256:map" 10]; StdDecode := Some |}.
#[local] Instance host_secrets : SecretList := {| FindSecret := @List.find secret; FilterSecrets := @List.filter secret |}.
#[local] Instance host_reasons : Reasons := {| Reconciling := "Reconciling"; ReconcileSuccess := "Success"; ReconcileError := "Error" |}.
#[local] Instance host_durations : Durations := {| ParseDuration s := if String.eqb s "1h" then Some (3600 * second)%Z else None |}.
#[local] Instance host_duration_errors : DurationErrors := {| DurationError s := "time: invalid duration " ++ s |}.

Definition host_reconciler : reconciler := mkReconciler "web" "shop" None (5 * second) "host-manager" "" None.
Definition host_cf : host_configuration :=
  mkHostConfiguration "backend-server" "IfNotPresent"
    (mkDeploymentSpec None (Some 1%Z) ∅ [mkPodContainer "server" "" "" [] [] None] [] [])
    (mkServiceSpec [("server", 8080%Z)] ∅) (mkIngressSpec None None [] []) (mkHTTPRouteSpec [] [] []) "host-manager" 80.

Definition static (path image : string) : Backend := mkHostBackend path image "IfNotPresent" "" "" [] None None.
Definition theme_ref : KDexObjectReference := mkRef "KDexTheme" "plain" "".
Definition app_ref : KDexObjectReference := mkRef "KDexApp" "cart" "".
Definition theme_object : ref_object := mkRefObject "KDexTheme" "plain" "web" 3 (Theme (static "/-/theme" "theme:1") ["style.css"] None).
Definition app_object : ref_object := mkRefObject "KDexApp" "cart" "web" 2 (App (static "/-/cart" "cart:1") (mkPackage "cart" "1.0.0" "" None) []).
Definition ready_conditions : conditions := {["Ready" := mkCondition CTrue "Success" ""]}.

Definition shop : host_object :=
  mkHostObject "shop" "web" 4 ∅ ∅ (Some theme_ref) None no_backend "" [] IngressStrategy "https" ["shop.example"] None [] None None ["en"].
Definition shop_function (name : string) (created : Z) : host_function :=
  mkHostFunction name "web" created "/v1/orders" ["/v1/orders"] false.
Definition shop_page : page_refs := mkPageRefs "home" "/" "" [mkPackage "lit" "3.1.0" "" None] [app_ref].

Definition host_world (refs : answer (owned ipr_spec * ipr_status)) (reported : ipr_status) (deployments : string -> answer (owned deployment_spec * bool))
    (services : string -> answer (owned service_spec)) (ingress : answer (owned ingress_spec * list (string * string)))
    : host_environment :=
  mkHostEnvironment None (fun _ => true)
    (fun kind _ _ => Found (mkReferred (if String.eqb kind "KDexTheme" then theme_object else app_object) ready_conditions))
    (inr []) (fun _ => mkUtilityHandler "" [] []) (inr 1%nat) [shop_page]
    (inr [shop_function "orders-copy" 9; shop_function "orders" 5])
    refs (fun _ => Ok reported) (Found tt) (fun _ => Manifest "")
    (fun _ _ => Ok (mkBlob (Ok "{}") (Err ""))) deployments (fun _ => Ok true) services (fun _ => None)
    (inr ["shop-old"]) (inr []) (fun _ => None) (fun _ => None) ingress (fun _ => Ok []) (NotFound "") (fun _ => Ok [])
    (fun _ _ _ _ => None) [] Written.

Definition built : ipr_status := mkIprStatus (Some CTrue) "registry/p:1".
Definition old_references : answer (owned ipr_spec * ipr_status) :=
  Found (mkOwned "shop" {["kdex.dev/packages" := "shop"]} ∅ (mkIprSpec "shop" []) false None, built).
Definition first_world : host_environment := host_world old_references built (fun _ => NotFound "") (fun _ => NotFound "") (NotFound "").
Definition blank : pk_status := mkPkStatus ∅ ∅ 0.

#[local] Notation pass := (InternalHost.Reconcile host_reconciler host_cf).

Definition set_by (es : list host_effect) : option host_settings :=
  match last es with Some (SetHost s) => Some s | _ => None end.

Lemma set_by_asked es s : set_by es = Some s -> SetHost s ∈ es.
Proof.
  unfold set_by. destruct (last es) as [e|] eqn:He; [|done]. destruct e; try done. intros [= ->].
  apply last_Some in He as [es' ->]. apply elem_of_app. right. by left.
Qed.

Definition first_requests : list host_effect := fst (fst (pass first_world shop blank)).
Definition first_status : pk_status := snd (fst (pass first_world shop blank)).
Definition documented (p : string) : option path_info := set_by first_requests ≫= fun s => hs_InitialPaths s !! p.

(** The function created first keeps its path, and the status names the other;
    the other is the one the host documents there. *)
Example later_function_documented :
  status_of (ps_Conditions first_status) "Ready" = Some CTrue /\
  pk_attribute first_status "duplicatedFunctions" = "web/orders-copy (path /v1/orders)" /\
  documented "/v1/orders" = Some (FunctionPaths "web" "orders-copy").
Proof. by vm_compute. Qed.

(** References just created are not False yet: the pass takes an image that is
    not there for one that is built, fails to read it and leaves the host
    Degraded before it sets it, where it means to go on without packages. *)
Example fresh_references_degrade :
  let '(es, st, o) := pass (host_world (NotFound "") (mkIprStatus None "") (fun _ => NotFound "") (fun _ => NotFound "") (NotFound "")) shop blank in
  o = Failed "failed to pull importmap from : failed to create repository client: invalid reference" /\ length es = 1%nat /\
  set_by es = None /\ status_of (ps_Conditions st) "Degraded" = Some CTrue.
Proof. by vm_compute. Qed.

(** Reported False, they are waited for with the host set. *)
Example building_references_wait :
  let '(es, st, o) := pass (host_world (NotFound "") (mkIprStatus (Some CFalse) "") (fun _ => NotFound "") (fun _ => NotFound "") (NotFound "")) shop blank in
  o = Requeue (5 * second) /\ is_Some (set_by es) /\ status_of (ps_Conditions st) "PackagesReady" = Some CFalse.
Proof. vm_compute. split; [done|]. split; [by eexists|done]. Qed.

(** Two backends of one name are taken for one, whatever their kinds. *)
Example same_name_one_backend :
  UniqueBackendRefs [mkRef "KDexApp" "ui" ""; mkRef "KDexTheme" "ui" ""] = [mkRef "KDexApp" "ui" ""].
Proof. by vm_compute. Qed.

(** Paths that differ by a final slash are both claimed, and documented as
    one. *)
Example slashed_paths_collide :
  let rb name path := mkResolved (static path "image:1") "KDexApp" name "" in
  map_to_list (collectInitialPaths [rb "a" "/-/ui"; rb "b" "/-/ui/"] []) =
    [("/-/ui/", BackendPaths "/-/ui/{path...}" "Application: b" "Backend service for KDex application b" "b-get")].
Proof. by vm_compute. Qed.

(** The backend of the library a theme names is not deployed: only the
    theme's own is collected. *)
Example theme_library_not_collected :
  let E := host_world old_references built (fun _ => NotFound "") (fun _ => NotFound "") (NotFound "") in
  let library := mkRefObject "KDexScriptLibrary" "lib" "web" 1 (ScriptLibrary (static "/-/lib" "lib:1") None []) in
  let theme := mkRefObject "KDexTheme" "plain" "web" 3 (Theme no_backend [] (Some (mkRef "KDexScriptLibrary" "lib" ""))) in
  let get kind _ _ := Found (mkReferred (if String.eqb kind "KDexTheme" then theme else library) ready_conditions) in
  let E := mkHostEnvironment (he_secrets E) (he_knownKind E) get (he_utilityPages E) (he_utilityHandler E) (he_bindings E) (he_pages E)
    (he_functions E) (he_references E) (he_put_references E) (he_delete_references E) (he_manifest E) (he_blob E) (he_deployment E)
    (he_put_deployment E) (he_service E) (he_put_service E) (he_deployments E) (he_services E) (he_delete_deployment E) (he_delete_service E)
    (he_ingress E) (he_put_ingress E) (he_httproute E) (he_put_httproute E) (he_auth E) (he_collisions E) (he_write E) in
  match snd (collect_scope host_reconciler host_cf E shop (mkRun [] blank)) with
  | inr c => cl_Backends c = []
  | inl _ => False
  end.
Proof. by vm_compute. Qed.

Lemma first_pass_run : pass first_world shop blank = (first_requests, first_status, Settled).
Proof.
  assert (Ho : snd (pass first_world shop blank) = Settled) by (by vm_compute).
  unfold first_requests, first_status. destruct (pass first_world shop blank) as [[es st] o]. cbn [snd fst] in *. by rewrite Ho.
Qed.

Lemma first_ready : status_of (ps_Conditions first_status) "Ready" = Some CTrue.
Proof. by vm_compute. Qed.

Lemma first_cart : exists s w su d, set_by first_requests = Some s /\ hs_InitialPaths s !! "/-/cart/" = Some (BackendPaths w su d "cart-get").
Proof.
  destruct (set_by first_requests) as [s|] eqn:Hs.
  - exists s. assert (Hp : documented "/-/cart/" = Some (BackendPaths "/-/cart/{path...}" "Application: cart" "Backend service for KDex application cart" "cart-get"))
      by (by vm_compute).
    unfold documented in Hp. rewrite Hs in Hp. do 3 eexists. split; [reflexivity|exact Hp].
  - exfalso. assert (Hb : match set_by first_requests with Some _ => true | None => false end = true) by (by vm_compute). by rewrite Hs in Hb.
Qed.


Lemma host_ready_means_served_witness :
  status_of (ps_Conditions first_status) "Ready" = Some CTrue /\ exists s, SetHost s ∈ first_requests.
Proof.
  destruct (host_ready_means_served host_reconciler host_cf first_world shop blank first_requests first_status Settled) as (_ & _ & Hset & _).
  - reflexivity.
  - reflexivity.
  - reflexivity.
  - exact first_pass_run.
  - exact first_ready.
  - exact (conj first_ready Hset).
Defined.

Definition gathered_run : host_run * (outcome + gathered) := gather host_reconciler host_cf first_world shop (mkRun [] blank).

Lemma gathered_paths_distinct_witness : exists g, snd gathered_run = inr g /\ map backend_path (ga_Backends g) = ["/-/cart"; "/-/theme"] /\
  NoDup (["/"] ++ map backend_path (ga_Backends g))%list.
Proof.
  assert (Hg : exists r g, gathered_run = (r, inr g) /\ map backend_path (ga_Backends g) = ["/-/cart"; "/-/theme"]).
  { do 2 eexists. split; by vm_compute. }
  destruct Hg as (r & g & Hg & Hp). exists g. split; [by rewrite Hg|]. split; [done|].
  exact (gathered_paths_distinct host_reconciler host_cf first_world shop (mkRun [] blank) r g Hg).
Defined.

Lemma duplicates_reported_witness :
  let l := [shop_function "orders-copy" 9; shop_function "orders" 5] in
  (exists f, f ∈ l) /\ exists kept, (kept ++ map fst (claim_functions ∅ (sort_created l)))%list ≡ₚ l.
Proof.
  split; [eexists; by left|]. destruct (duplicates_reported ∅ [shop_function "orders-copy" 9; shop_function "orders" 5]) as (kept & Hk & _).
  - intros f [->|[->|Hf]%elem_of_cons]%elem_of_cons; [by intros [=]%list_elem_of_singleton..|by apply elem_of_nil in Hf].
  - by exists kept.
Defined.

Definition cart_backend : resolvedBackend := mkResolved (static "/-/cart" "cart:1") "KDexApp" "cart" "".
Definition shop_ingress : result (option string) (owned ingress_spec) := mutate_ingress host_cf shop [cart_backend] [] None.
Definition shop_httproute : result (option string) (owned httproute_spec) := mutate_httproute host_cf shop [cart_backend] None.


(** The world a pass over one backend left. *)
Definition of_ok {A} (r : result (option string) A) : answer A := match r with Ok a => Found a | Err _ => NotFound "" end.
Definition left_world : host_environment :=
  let E := host_world old_references built
    (fun n => if String.eqb n "shop-cart" then
                match mutate_deployment host_cf shop cart_backend [] None with Ok d => Found (d, true) | Err _ => NotFound "" end
              else NotFound "")
    (fun n => if String.eqb n "shop-cart" then of_ok (mutate_service host_cf shop cart_backend None) else NotFound "")
    (match shop_ingress with Ok i => Found (i, [("10.0.0.1", "")]) | Err _ => NotFound "" end) in
  mkHostEnvironment (he_secrets E) (he_knownKind E) (he_get E) (he_utilityPages E) (he_utilityHandler E) (he_bindings E) (he_pages E)
    (he_functions E) (he_references E) (he_put_references E) (he_delete_references E) (he_manifest E) (he_blob E) (he_deployment E)
    (he_put_deployment E) (he_service E) (he_put_service E) (inr ["shop-cart"]) (inr ["shop-cart"]) (he_delete_deployment E) (he_delete_service E)
    (he_ingress E) (he_put_ingress E) (he_httproute E) (he_put_httproute E) (he_auth E) (he_collisions E) (he_write E).

Lemma written_cluster_left_alone_witness :
  as_written host_cf left_world shop [] [cart_backend] /\
  ru_Asked (fst (deploy_backends host_reconciler host_cf left_world shop [] [cart_backend] (mkRun [] blank))) = [].
Proof.
  assert (Hw : as_written host_cf left_world shop [] [cart_backend]).
  { split.
    - intros rb ->%list_elem_of_singleton. exists None. do 2 eexists. exists None. eexists. split_and!; reflexivity.
    - do 2 eexists. split_and!; [reflexivity..| |]; repeat constructor.
    - split; [reflexivity|]. exists None. do 2 eexists. split; reflexivity. }
  split; [exact Hw|].
  destruct (deploy_backends host_reconciler host_cf left_world shop [] [cart_backend] (mkRun [] blank)) as [r' res] eqn:Hrun.
  exact (proj1 (written_cluster_left_alone host_cf host_reconciler left_world shop [] [cart_backend] _ r' res Hw Hrun)).
Defined.
