(* ===== verification/Publish.v ===== *)
(** The controllers of what the host serves: pages, rewrite pages, utility
    pages and translations (src/internal/controller/kdexpage_controller.go,
    kdexpage_rewrite.go, kdexinternalutilitypage_controller.go,
    kdexinternaltranslation_controller.go, and the resolvers of
    resolver_common.go they call). A pass is a program of the monad of
    InternalHost; what it hands to the host handler are its requests. Go walks
    maps in an order of its own: [order] gives it. *)
From S2P Require Import Prelude GoStr Deps Clients Cluster Pipeline Packages Rewrite InternalHost.
From Stdlib Require Import Ascii.

#[local] Open Scope string_scope.

(** * Data *)

Record content_entry := mkEntryOf {
  ce_Slot : string; ce_AppRef : option KDexObjectReference; ce_RawHTML : string;
  ce_CustomElementName : string; ce_Attributes : gmap string string }.

Record packed_content := mkPacked {
  pc_AppName : string; pc_AppGeneration : string; pc_Attributes : gmap string string;
  pc_Content : string; pc_CustomElementName : string; pc_Slot : string }.
#[export] Instance packed_content_eq_dec : EqDecision packed_content.
Proof. solve_decision. Defined.

Record rewrite_of := mkRewriteOf { rw_Path : string; rw_TargetKind : string; rw_TargetName : string }.

(** What the three kinds share: their name, host and life. *)
Record managed := mkManaged {
  mg_Name : string; mg_Namespace : string; mg_Host : string; mg_Generation : Z; mg_Deleting : bool; mg_Finalizer : bool }.

(** A page or a utility page; the latter has no parent, pattern or rewrite. *)
Record page_object := mkPageObject {
  po_Meta : managed; po_ArchetypeRef : option KDexObjectReference; po_ContentEntries : list content_entry;
  po_FooterRef : option KDexObjectReference; po_HeaderRef : option KDexObjectReference;
  po_NavigationRefs : gmap string (option KDexObjectReference);
  po_ScriptLibraryRef : option KDexObjectReference; po_ParentPageRef : option string;
  po_PatternPath : string; po_Rewrite : option rewrite_of }.

(** page.PageHandler as the controllers fill it: the object stands for the
    spec and the status the handler points to. *)
Record handler := mkHandler {
  ph_Object : page_object; ph_Content : gmap string packed_content; ph_Footer : string; ph_Header : string;
  ph_MainTemplate : string; ph_Navigations : gmap string string;
  ph_PackageReferences : list PackageReference; ph_RequiredBackends : list KDexObjectReference; ph_Scripts : list ScriptDef }.

Definition bare_handler (p : page_object) : handler := mkHandler p ∅ "" "" "" ∅ [] [] [].

Definition handler_name (h : handler) : string := mg_Name (po_Meta h.(ph_Object)).

(** Requests to the host handler and updates of the object itself. *)
Inductive publish_effect :=
  | SetPage (h : handler) | DeletePage (name : string)
  | SetUtilityPage (t : utility_type) (h : handler) | RemoveUtilityPage (name : string)
  | SetTranslation (name : string) | RemoveTranslation (name : string)
  | AddFinalizer | RemoveFinalizer.

(** The answers of the API server; [pu_archetypes] are the default archetypes
    of the cluster, [pu_page] a page of the object's namespace. *)
Record publish_environment := mkPublishEnvironment {
  pu_knownKind : string -> bool; pu_get : string -> string -> string -> answer (referred ref_object);
  pu_archetypes : string + list (Z * ref_object); pu_page : string -> answer (referred Z);
  pu_update : option string }.

(** * What the host handler keeps *)

(** PageStore, and the utility pages by type. *)
Definition page_request (e : publish_effect) (s : gmap string handler) : gmap string handler :=
  match e with SetPage h => <[handler_name h := h]> s | DeletePage n => delete n s | _ => s end.

(** RemoveUtilityPage deletes the first entry of that name the walk meets. *)
Definition remove_utility (walk : list utility_type) (name : string) (s : utility_type -> option handler) : utility_type -> option handler :=
  match List.find (fun t => match s t with Some h => String.eqb (handler_name h) name | None => false end) walk with
  | Some t => fun t' => if bool_decide (t' = t) then None else s t'
  | None => s
  end.

Definition utility_request (walk : list utility_type) (e : publish_effect) (s : utility_type -> option handler) : utility_type -> option handler :=
  match e with
  | SetUtilityPage t h => fun t' => if bool_decide (t' = t) then Some h else s t'
  | RemoveUtilityPage n => remove_utility walk n s
  | _ => s
  end.

(** * Collecting a page *)

Notation P := (passing publish_effect).

Section Publish.
Context `{!HostCRDs} `{!Sha256} `{!Conditions} `{!Reasons}.
Context (R : reconciler) (serverImage kind : string) (order : list string -> list string).

Notation delay := (rc_RequeueDelay R).

Definition resolve_ref (E : publish_environment) (m : managed) (ref : option KDexObjectReference) : P (option ref_object) :=
  resolve_in R (pu_knownKind E) (pu_get E) kind (mg_Namespace m) ref.

(** The default is the oldest of the cluster's default archetypes. *)
Definition ResolveOrDefaultPageArchetype (E : publish_environment) (m : managed) (ref : option KDexObjectReference) : P (option ref_object) :=
  o ← resolve_ref E m ref;
  match o with
  | Some o => mret (Some o)
  | None =>
      match pu_archetypes E with
      | inl e => _ ← mark_as degraded ReconcileError e; stop (Failed e)
      | inr l => mret (snd <$> oldest fst l)
      end
  end.

Definition contents_type : Type := gmap string (packed_content * option ref_object).

Fixpoint ResolveContents (E : publish_environment) (m : managed) (l : list content_entry) (acc : contents_type) : P contents_type :=
  match l with
  | [] => mret acc
  | e :: l =>
      match ce_AppRef e with
      | None => ResolveContents E m l (<[ce_Slot e := (mkPacked "" "" ∅ (ce_RawHTML e) "" (ce_Slot e), None)]> acc)
      | Some ref =>
          app ← resolve_ref E m (Some ref);
          match app with
          | None => stop Panics
          | Some app =>
              ResolveContents E m l
                (<[ce_Slot e := (mkPacked (ro_Name app) (FormatInt (ro_Generation app)) (ce_Attributes e) (ce_RawHTML e)
                                   (ce_CustomElementName e) (ce_Slot e), Some app)]> acc)
          end
      end
  end.

(** What a page has collected so far. *)
Record scope := mkScope { sc_Backends : list KDexObjectReference; sc_Packages : list PackageReference; sc_Scripts : list ScriptDef }.
Definition no_scope : scope := mkScope [] [] [].

Definition with_library (o : ref_object) (s : scope) : scope :=
  mkScope (CollectBackend serverImage (sc_Backends s) o) (sc_Packages s ++ library_packages o) (sc_Scripts s ++ library_scripts o)%list.

Definition add_library (E : publish_environment) (m : managed) (key : string) (ref : option KDexObjectReference) (s : scope) : P scope :=
  o ← resolve_ref E m ref;
  match o with
  | None => mret s
  | Some o => _ ← set_attr key (FormatInt (ro_Generation o)); mret (with_library o s)
  end.

(** The entries of a map in the order it is walked. *)
Definition walked {A} (m : gmap string A) : list (string * A) :=
  omap (fun k => (fun a => (k, a)) <$> m !! k) (order (map fst (map_to_list m))).

Fixpoint add_contents (l : list (string * (packed_content * option ref_object))) (s : scope) : P scope :=
  match l with
  | [] => mret s
  | (slot, (c, app)) :: l =>
      match app ≫= fun o => match ro_Payload o with App _ p scripts => Some (o, p, scripts) | _ => None end with
      | None => add_contents l s
      | Some (o, p, scripts) =>
          _ ← set_attr (slot ++ ".content.generation") (pc_AppGeneration c);
          add_contents l (mkScope (CollectBackend serverImage (sc_Backends s) o) (sc_Packages s ++ [p]) (sc_Scripts s ++ scripts))%list
      end
  end.

Definition footer_parts (o : ref_object) : string * option KDexObjectReference :=
  match ro_Payload o with Footer c lib => (c, lib) | _ => ("", None) end.
Definition header_parts (o : ref_object) : string * option KDexObjectReference :=
  match ro_Payload o with Header c lib => (c, lib) | _ => ("", None) end.

(** The footer or the header, with its library. *)
Definition add_fragment (E : publish_environment) (m : managed) (key : string) (parts : ref_object -> string * option KDexObjectReference)
    (ref : option KDexObjectReference) (s : scope) : P (string * scope) :=
  o ← resolve_ref E m ref;
  match o with
  | None => mret ("", s)
  | Some o =>
      _ ← set_attr (key ++ ".generation") (FormatInt (ro_Generation o));
      s ← add_library E m (key ++ ".scriptLibrary.generation") (snd (parts o)) s;
      mret (fst (parts o), s)
  end.

Fixpoint ResolvePageNavigations (E : publish_environment) (m : managed) (l : list (string * option KDexObjectReference))
    (acc : gmap string ref_object) : P (gmap string ref_object) :=
  match l with
  | [] => mret acc
  | (name, ref) :: l =>
      o ← resolve_ref E m ref;
      ResolvePageNavigations E m l (match o with Some o => <[name := o]> acc | None => acc end)
  end.

Fixpoint add_navigations (E : publish_environment) (m : managed) (l : list (string * ref_object)) (acc : gmap string string) (s : scope)
    : P (gmap string string * scope) :=
  match l with
  | [] => mret (acc, s)
  | (slot, o) :: l =>
      match ro_Payload o with
      | Navigation content lib =>
          _ ← set_attr (slot ++ ".navigation.generation") (FormatInt (ro_Generation o));
          s ← add_library E m (slot ++ ".navigation.scriptLibrary.generation") lib s;
          add_navigations E m l (<[slot := content]> acc) s
      | _ => stop Panics
      end
  end.

(** The parent page, in the page's own namespace. *)
Definition ResolvePage (E : publish_environment) (ref : option string) : P (option Z) := fun r =>
  match ref with
  | None => (r, inr None)
  | Some name =>
      let st := ru_Status r in
      let with_conditions cs := mkRun (ru_Asked r) (mkPkStatus (ps_Attributes st) cs (ps_ObservedGeneration st)) in
      match pu_page E name with
      | NotFound msg => (with_conditions (SetConditions degraded ReconcileError msg (ps_Conditions st)), inl (Requeue delay))
      | Unavailable msg => (r, inl (Failed msg))
      | Found p => if ConditionTrue (rf_conditions p) "Ready" then (r, inr (Some (rf_object p))) else (r, inl (Requeue delay))
      end
  end.

Definition note_parent (E : publish_environment) (p : page_object) : P unit :=
  parent ← ResolvePage E (po_ParentPageRef p);
  match parent with
  | None => mret tt
  | Some generation => set_attr "parent.page.generation" (FormatInt generation)
  end.

Definition archetype_spec (o : ref_object) : archetype :=
  match ro_Payload o with Archetype a => a | _ => mkArchetype "" None None None ∅ end.

Definition or_else (a b : option KDexObjectReference) : option KDexObjectReference := match a with Some r => Some r | None => b end.

(** The page put together: [with_parent] is what a page does, and a utility
    page does not, before its own library. *)
Definition assemble (E : publish_environment) (p : page_object) (with_parent : P unit) : P handler :=
  let m := po_Meta p in
  o ← ResolveOrDefaultPageArchetype E m (po_ArchetypeRef p);
  match o with
  | None => stop Panics
  | Some o =>
      let a := archetype_spec o in
      _ ← set_attr "archetype.generation" (FormatInt (ro_Generation o));
      s ← add_library E m "archetype.scriptLibrary.generation" (ar_ScriptLibraryRef a) no_scope;
      contents ← ResolveContents E m (po_ContentEntries p) ∅;
      s ← add_contents (walked contents) s;
      footer ← add_fragment E m "footer" footer_parts (or_else (po_FooterRef p) (ar_DefaultFooterRef a)) s;
      header ← add_fragment E m "header" header_parts (or_else (po_HeaderRef p) (ar_DefaultHeaderRef a)) (snd footer);
      navigations ← ResolvePageNavigations E m (walked (po_NavigationRefs p ∪ ar_DefaultNavigationRefs a)) ∅;
      navigated ← add_navigations E m (walked navigations) ∅ (snd header);
      _ ← with_parent;
      s ← add_library E m "scriptLibrary.generation" (po_ScriptLibraryRef p) (snd navigated);
      mret (mkHandler p (fst <$> contents) (fst footer) (fst header) (ar_Content a) (fst navigated)
              (UniquePackageRefs (sc_Packages s)) (UniqueBackendRefs (sc_Backends s)) (UniqueScriptDefs (sc_Scripts s)))
  end.

(** * A rewrite page *)

Definition setRewriteDegraded (reason msg : string) : P unit := mark_as degraded reason msg.

(** Why a target can never be rewritten to. *)
Definition rewriteTargetProblem (p : page_object) (o : ref_object) : option (string * string) :=
  let host := mg_Host (po_Meta p) in
  let other what h := ("RewriteTargetOtherHost", "rewrite target " ++ what ++ " " ++ ro_Name o ++ " belongs to host " ++ quoted h ++ ", not " ++ quoted host) in
  match ro_Payload o with
  | PageTarget h rewrites =>
      if negb (String.eqb h host) then Some (other "KDexPage" h)
      else if rewrites then
        Some ("RewriteTargetIsRewrite", "rewrite target KDexPage " ++ ro_Name o ++ " is itself a rewrite page; only one hop is allowed")
      else None
  | FunctionTarget h internal =>
      if negb (String.eqb h host) then Some (other "KDexFunction" h)
      else if internal then
        Some ("RewriteTargetInternal", "rewrite target KDexFunction " ++ ro_Name o ++ " is internal and is not served by the host")
      else None
  | _ => None
  end.

(** The target that is there, ready or not. *)
Definition target_seen (E : publish_environment) (m : managed) (ref : KDexObjectReference) : option ref_object :=
  if pu_knownKind E (or_Kind ref) then
    match pu_get E (or_Kind ref) (reference_namespace kind (mg_Namespace m) ref) (or_Name ref) with
    | Found o => Some (rf_object o)
    | _ => None
    end
  else None.

Definition resolve_target (E : publish_environment) (p : page_object) (ref : KDexObjectReference) : P ref_object := fun r =>
  let '(r, res) := resolve_ref E (po_Meta p) (Some ref) r in
  match target_seen E (po_Meta p) ref ≫= rewriteTargetProblem p with
  | Some (reason, msg) => (_ ← setRewriteDegraded reason msg; stop Settled) r
  | None =>
      match res with
      | inl o => (r, inl o)
      | inr (Some o) => (r, inr o)
      | inr None => (r, inl Panics)
      end
  end.

Definition reconcileRewrite (E : publish_environment) (p : page_object) (rw : rewrite_of) : P unit :=
  let unknown := UnknownPlaceholders (rw_Path rw) (po_PatternPath p) in
  match unknown with
  | _ :: _ =>
      _ ← setRewriteDegraded "RewriteUnknownPlaceholder"
            ("rewrite.path placeholders [" ++ Join unknown " " ++ "] are not wildcards of patternPath " ++ quoted (po_PatternPath p));
      stop Settled
  | [] =>
      target ← resolve_target E p (mkRef (rw_TargetKind rw) (rw_TargetName rw) "");
      _ ← set_attr "rewrite.target.generation" (FormatInt (ro_Generation target));
      _ ← note_parent E p;
      _ ← ask (SetPage (bare_handler p));
      mark_as ready ReconcileSuccess "Reconciliation successful"
  end.

(** * A pass *)

(** The life of an object the handler knows: a finalizer before anything is
    registered, and withdrawn from the handler before it goes. *)
Definition live (E : publish_environment) (m : managed) (withdraw : publish_effect) (register : P unit) : P unit :=
  let updated := match pu_update E with Some e => stop (Failed e) | None => mret tt end in
  if negb (mg_Deleting m) then
    if negb (mg_Finalizer m) then _ ← ask AddFinalizer; _ ← updated; stop (Requeue second)
    else _ ← mark_as reconciling Reconciling "Reconciling"; register
  else if mg_Finalizer m then _ ← ask withdraw; _ ← ask RemoveFinalizer; _ ← updated; stop Settled
  else stop Settled.

Definition register_page (E : publish_environment) (p : page_object) : P unit :=
  match po_Rewrite p with
  | Some rw => reconcileRewrite E p rw
  | None =>
      h ← assemble E p (note_parent E p);
      _ ← ask (SetPage h);
      mark_as ready ReconcileSuccess "Reconciliation successful"
  end.

Definition register_utility (E : publish_environment) (p : page_object) (t : utility_type) : P unit :=
  h ← assemble E p (mret tt);
  _ ← ask (SetUtilityPage t h);
  mark_as ready ReconcileSuccess "Reconciliation successful".

Definition register_translation (name : string) : P unit :=
  _ ← ask (SetTranslation name);
  mark_as ready ReconcileSuccess "Reconciliation successful".

(** What every pass ends with: the requests, the status it came to, and what
    is stored of it, the write answered [w]; [last] is asked for by that status. *)
Definition concluded (w : write_answer) (m : managed) (body : P unit) (last : pk_status -> list publish_effect) (stored : pk_status)
    : list publish_effect * pk_status * outcome :=
  if negb (String.eqb (mg_Namespace m) (rc_ControllerNamespace R)) then ([], stored, Settled)
  else if negb (String.eqb (mg_Host m) (rc_FocalHost R)) then ([], stored, Settled)
  else
    let '(r, res) := body (mkRun [] stored) in
    let o := match res with inl o => o | inr _ => Settled end in
    let st := mkPkStatus (ps_Attributes (ru_Status r)) (ps_Conditions (ru_Status r)) (mg_Generation m) in
    let '(st', o) := write_status w stored st o in
    ((ru_Asked r ++ last st)%list, st', o).

(** A page that is not Ready is not served. *)
Definition withdrawn (name : string) (st : pk_status) : list publish_effect :=
  if bool_decide (status_of (ps_Conditions st) "Ready" = Some CFalse) then [DeletePage name] else [].

Definition ReconcilePage (E : publish_environment) (w : write_answer) (p : page_object) : pk_status -> list publish_effect * pk_status * outcome :=
  let m := po_Meta p in
  concluded w m (live E m (DeletePage (mg_Name m)) (register_page E p)) (withdrawn (mg_Name m)).

Definition ReconcileUtilityPage (E : publish_environment) (w : write_answer) (p : page_object) (t : utility_type)
    : pk_status -> list publish_effect * pk_status * outcome :=
  let m := po_Meta p in concluded w m (live E m (RemoveUtilityPage (mg_Name m)) (register_utility E p t)) (fun _ => []).

Definition ReconcileTranslation (E : publish_environment) (w : write_answer) (m : managed) : pk_status -> list publish_effect * pk_status * outcome :=
  concluded w m (live E m (RemoveTranslation (mg_Name m)) (register_translation (mg_Name m))) (fun _ => []).
End Publish.
