(* ===== verification/PublishSpec.v ===== *)
(** What the controllers of pages promise: a pass depends on what is stored of
    its object not at all, so that over an unchanged world it settles; a page
    is served exactly as its status says; a rewrite page only for a target the
    host serves itself; nothing goes before the handler forgot it; and the
    order maps are walked in decides nothing but the order of scripts. *)
From S2P Require Import Prelude GoStr Deps Clients Cluster Deploy Pipeline Packages Rewrite InternalHost InternalHostSpec Publish.
From Stdlib Require Import Ascii.

#[local] Open Scope string_scope.

Section Passes.
Context `{!HostCRDs} `{!Sha256} `{!Conditions} `{!Reasons}.
Context (R : reconciler) (serverImage kind : string) (order : list string -> list string).

(** * What a pass does to a status *)

(** Attributes over those there, and the last conditions set. *)
Record change := mkChange { cg_Attributes : gmap string string; cg_Marked : option (cond_statuses * string * string) }.

Definition apply_change (d : change) (st : pk_status) : pk_status :=
  mkPkStatus (cg_Attributes d ∪ ps_Attributes st)
    (match cg_Marked d with Some (s, reason, msg) => SetConditions s reason msg (ps_Conditions st) | None => ps_Conditions st end)
    (ps_ObservedGeneration st).

Definition no_change : change := mkChange ∅ None.
Definition then_change (d1 d2 : change) : change :=
  mkChange (cg_Attributes d2 ∪ cg_Attributes d1) (match cg_Marked d2 with Some m => Some m | None => cg_Marked d1 end).

Lemma apply_no_change st : apply_change no_change st = st.
Proof. destruct st. unfold apply_change; cbn. by rewrite (left_id_L ∅ (∪)). Qed.

Lemma apply_then d1 d2 st : apply_change d2 (apply_change d1 st) = apply_change (then_change d1 d2) st.
Proof.
  unfold apply_change, then_change; cbn. rewrite (assoc_L (∪)). f_equal.
  destruct (cg_Marked d2) as [[[s2 r2] m2]|]; [|done]. destruct (cg_Marked d1) as [[[s1 r1] m1]|]; [|done]. apply SetConditions_again.
Qed.

Lemma apply_again d st : apply_change d (apply_change d st) = apply_change d st.
Proof.
  rewrite apply_then. unfold apply_change, then_change; cbn. rewrite (idemp_L (∪)). by destruct (cg_Marked d) as [[[s r] m]|].
Qed.

(** A part of a pass that reads nothing of its run: what it asks for, how it
    changes the status and how it ends are one and the same for all, and [Q]
    holds of them. *)
Definition blind {A} (Q : list publish_effect -> change -> outcome + A -> Prop) (m : P A) : Prop :=
  exists es d res, Q es d res /\ forall r, m r = (mkRun (ru_Asked r ++ es)%list (apply_change d (ru_Status r)), res).

(** Nothing asked for, and no Ready but False. *)
Definition never_ready (d : change) : Prop :=
  match cg_Marked d with Some (s, _, _) => cs_Ready s = CFalse | None => True end.
Definition silent {A} (es : list publish_effect) (d : change) (_ : outcome + A) : Prop := es = [] /\ never_ready d.
Notation quiet := (blind silent).

Lemma blind_weaken {A} (Q Q' : list publish_effect -> change -> outcome + A -> Prop) m :
  blind Q m -> (forall es d res, Q es d res -> Q' es d res) -> blind Q' m.
Proof. intros (es & d & res & HQ & Hm) Hw. exists es, d, res. auto. Qed.

Lemma blind_bind {A B} (m : P A) (f : A -> P B) QA QB (Q : list publish_effect -> change -> outcome + B -> Prop) :
  blind QA m -> (forall a, blind QB (f a)) ->
  (forall es d o, QA es d (inl o) -> Q es d (inl o)) ->
  (forall es1 d1 a es2 d2 res, QA es1 d1 (inr a) -> QB es2 d2 res -> Q (es1 ++ es2)%list (then_change d1 d2) res) ->
  blind Q (m ≫= f).
Proof.
  intros (es1 & d1 & res1 & HQ1 & Hm) Hf Hstop Hgo. destruct res1 as [o|a].
  - exists es1, d1, (inl o). split; [by apply Hstop|]. intros r. unfold mbind, passing_bind. by rewrite Hm.
  - destruct (Hf a) as (es2 & d2 & res2 & HQ2 & Hf'). exists (es1 ++ es2)%list, (then_change d1 d2), res2.
    split; [by eapply Hgo|]. intros r. unfold mbind, passing_bind. rewrite Hm, Hf'. cbn. by rewrite <- app_assoc, apply_then.
Qed.

Lemma never_ready_then d1 d2 : never_ready d1 -> never_ready d2 -> never_ready (then_change d1 d2).
Proof. unfold never_ready, then_change; cbn. by destruct (cg_Marked d2) as [[[]]|]. Qed.

Lemma quiet_ret {A} (a : A) : quiet (mret a : P A).
Proof. exists [], no_change, (inr a). split; [done|]. intros []. by rewrite apply_no_change, app_nil_r. Qed.

Lemma quiet_stop {A} o : quiet (stop o : P A).
Proof. exists [], no_change, (inl o). split; [done|]. intros []. by rewrite apply_no_change, app_nil_r. Qed.

Lemma quiet_bind {A B} (m : P A) (f : A -> P B) : quiet m -> (forall a, quiet (f a)) -> quiet (m ≫= f).
Proof.
  intros Hm Hf. eapply blind_bind; [exact Hm|exact Hf|done|].
  intros es1 d1 a es2 d2 res [-> Hd1] [-> Hd2]. split; [done|by apply never_ready_then].
Qed.

Lemma quiet_set_attr k v : quiet (set_attr k v : P unit).
Proof.
  exists [], (mkChange {[k := v]} None), (inr tt). split; [done|]. intros []. unfold apply_change, set_attr, modify, pk_set; cbn.
  by rewrite app_nil_r, <- insert_union_singleton_l.
Qed.

Lemma quiet_mark s reason msg : cs_Ready s = CFalse -> quiet (mark_as s reason msg : P unit).
Proof.
  intros Hs. exists [], (mkChange ∅ (Some (s, reason, msg))), (inr tt). split; [done|]. intros [].
  unfold apply_change, mark_as, modify, pk_mark; cbn. by rewrite app_nil_r, (left_id_L ∅ (∪)).
Qed.

Lemma quiet_resolve E m ref : quiet (resolve_ref R kind E m ref).
Proof.
  unfold resolve_ref, resolve_in, ResolveKDexObjectReference. cbn zeta.
  assert (Hsame : forall res : outcome + option ref_object,
    quiet (fun r => (mkRun (ru_Asked r) (mkPkStatus (ps_Attributes (ru_Status r)) (ps_Conditions (ru_Status r)) (ps_ObservedGeneration (ru_Status r))), res))).
  { intros res. exists [], no_change, res. split; [done|]. intros [? []]; cbn. by rewrite app_nil_r, apply_no_change. }
  assert (Hbad : forall msg, quiet (fun r => (mkRun (ru_Asked r)
    (mkPkStatus (ps_Attributes (ru_Status r)) (SetConditions degraded ReconcileError msg (ps_Conditions (ru_Status r))) (ps_ObservedGeneration (ru_Status r))),
    inl (Failed msg) : outcome + option ref_object))).
  { intros msg. exists [], (mkChange ∅ (Some (degraded, ReconcileError, msg))), (inl (Failed msg)). split; [done|]. intros [? []]; cbn.
    unfold apply_change; cbn. by rewrite app_nil_r, (left_id_L ∅ (∪)). }
  repeat case_match; first [apply Hsame|apply Hbad].
Qed.

Create HintDb quiet.
#[local] Hint Resolve quiet_ret quiet_stop quiet_set_attr quiet_resolve : quiet.
#[local] Hint Extern 1 (blind silent (mark_as _ _ _)) => apply quiet_mark; done : quiet.

Ltac hush :=
  repeat first
    [ done
    | progress intros
    | match goal with
      | |- blind _ (match ?x with _ => _ end) => destruct x
      | |- blind _ (let '(_, _) := ?x in _) => destruct x
      end
    | solve [eauto with quiet nocore]
    | apply quiet_bind ].

Lemma quiet_archetype E m ref : quiet (ResolveOrDefaultPageArchetype R kind E m ref).
Proof. unfold ResolveOrDefaultPageArchetype. hush. Qed.

Lemma quiet_contents E m l : forall acc, quiet (ResolveContents R kind E m l acc).
Proof. induction l as [|e l IH]; intros acc; cbn [ResolveContents]; hush. Qed.

Lemma quiet_library E m key ref s : quiet (add_library R serverImage kind E m key ref s).
Proof. unfold add_library. hush. Qed.
#[local] Hint Resolve quiet_archetype quiet_contents quiet_library : quiet.

Lemma quiet_add_contents l : forall s, quiet (add_contents serverImage l s).
Proof. induction l as [|[slot [c app]] l IH]; intros s; cbn [add_contents]; hush. Qed.

Lemma quiet_fragment E m key parts ref s : quiet (add_fragment R serverImage kind E m key parts ref s).
Proof. unfold add_fragment. hush. Qed.

Lemma quiet_resolve_navigations E m l : forall acc, quiet (ResolvePageNavigations R kind E m l acc).
Proof. induction l as [|[name ref] l IH]; intros acc; cbn [ResolvePageNavigations]; hush. Qed.

Lemma quiet_navigations E m l : forall acc s, quiet (add_navigations R serverImage kind E m l acc s).
Proof. induction l as [|[slot o] l IH]; intros acc s; cbn [add_navigations]; hush. Qed.

Lemma quiet_parent_page E ref : quiet (ResolvePage R E ref).
Proof.
  unfold ResolvePage. cbn zeta. destruct ref as [name|]; [|apply quiet_ret].
  destruct (pu_page E name) as [p|msg|msg]; [destruct (ConditionTrue _ _); [apply (quiet_ret (Some (rf_object p)))|apply quiet_stop]| |apply quiet_stop].
  exists [], (mkChange ∅ (Some (degraded, ReconcileError, msg))), (inl (Requeue (rc_RequeueDelay R))). split; [done|]. intros [? []]; cbn.
  unfold apply_change; cbn. by rewrite app_nil_r, (left_id_L ∅ (∪)).
Qed.
#[local] Hint Resolve quiet_add_contents quiet_fragment quiet_resolve_navigations quiet_navigations quiet_parent_page : quiet.

Lemma quiet_note_parent E p : quiet (note_parent R E p).
Proof. unfold note_parent. hush. Qed.
#[local] Hint Resolve quiet_note_parent : quiet.

Lemma quiet_assemble E p with_parent : quiet with_parent -> quiet (assemble R serverImage kind order E p with_parent).
Proof. intros Hp. unfold assemble. hush. Qed.
#[local] Hint Resolve quiet_assemble : quiet.

Lemma quiet_target E p ref : quiet (resolve_target R kind E p ref).
Proof.
  unfold resolve_target. destruct (target_seen kind E (po_Meta p) ref ≫= rewriteTargetProblem p) as [[reason msg]|].
  - destruct (quiet_resolve E (po_Meta p) (Some ref)) as (es & d & res & [-> Hd] & Hm).
    assert (Hq : quiet (_ ← setRewriteDegraded reason msg; stop Settled : P ref_object)) by (unfold setRewriteDegraded; hush).
    destruct Hq as (es' & d' & res' & [-> Hd'] & Hm'). exists [], (then_change d d'), res'.
    split; [split; [done|by apply never_ready_then]|]. intros r. rewrite Hm, Hm'. cbn. by rewrite !app_nil_r, apply_then.
  - destruct (quiet_resolve E (po_Meta p) (Some ref)) as (es & d & res & [-> Hd] & Hm).
    exists [], d, (match res with inl o => inl o | inr (Some o) => inr o | inr None => inl Panics end).
    split; [done|]. intros r. rewrite Hm. by destruct res as [|[]].
Qed.
#[local] Hint Resolve quiet_target : quiet.

(** ** What a registration comes to *)

(** Nothing asked for and no Ready, or one request, marked Ready. *)
Definition registers (request : publish_effect -> Prop) {A} (es : list publish_effect) (d : change) (res : outcome + A) : Prop :=
  (es = [] /\ never_ready d /\ exists o, res = inl o) \/
  (exists e a reason msg, request e /\ es = [e] /\ cg_Marked d = Some (ready, reason, msg) /\ res = inr a).

Lemma registers_bind {A B} request (m : P A) (f : A -> P B) :
  quiet m -> (forall a, blind (registers request) (f a)) -> blind (registers request) (m ≫= f).
Proof.
  intros Hm Hf. eapply blind_bind; [exact Hm|exact Hf| |].
  - intros es d o [-> Hd]. left. eauto.
  - intros es1 d1 a es2 d2 res [-> Hd1] [(-> & Hd2 & Hres)|(e & b & reason & msg & He & -> & Hd2 & ->)].
    + left. split_and!; [done|by apply never_ready_then|done].
    + right. exists e, b, reason, msg. unfold then_change; cbn. by rewrite Hd2.
Qed.

Lemma registers_quiet_stop {A} request (m : P A) o : quiet m -> blind (registers request) (_ ← m; stop o : P unit).
Proof. intros Hm. apply registers_bind; [exact Hm|]. intros _. exists [], no_change, (inl o). split.
  - left. split_and!; [done|done|by exists o].
  - intros []; cbn. by rewrite apply_no_change, app_nil_r.
Qed.

Lemma registers_request (request : publish_effect -> Prop) e reason msg :
  request e -> blind (registers request) (_ ← ask e; mark_as ready reason msg : P unit).
Proof.
  intros He. exists [e], (mkChange ∅ (Some (ready, reason, msg))), (inr tt). split.
  - right. by exists e, tt, reason, msg.
  - intros []. unfold mbind, passing_bind, ask, mark_as, modify, pk_mark, apply_change; cbn. by rewrite (left_id_L ∅ (∪)).
Qed.

Lemma registers_handler (m : P handler) (f : handler -> publish_effect) (ok : handler -> Prop) reason msg :
  quiet m -> (forall r r' h, m r = (r', inr h) -> ok h) ->
  blind (registers (fun e => exists h, e = f h /\ ok h)) (h ← m; _ ← ask (f h); mark_as ready reason msg : P unit).
Proof.
  intros (es & d & res & [-> Hd] & Hm) Hok. destruct res as [o|h].
  - exists [], d, (inl o). split; [left; split_and!; [done|done|by exists o]|]. intros r. unfold mbind at 1, passing_bind at 1. by rewrite Hm.
  - destruct (registers_request (fun e => exists h, e = f h /\ ok h) (f h) reason msg) as (es' & d' & res' & Hr & Hm').
    { exists h. split; [done|]. destruct (Hm (mkRun [] (mkPkStatus ∅ ∅ 0))). by eapply (Hok (mkRun [] (mkPkStatus ∅ ∅ 0))). }
    exists es', (then_change d d'), res'. split.
    + destruct Hr as [(-> & Hd' & Hres)|(e & a & reason' & msg' & He & -> & Hd' & ->)].
      * left. split_and!; [done|by apply never_ready_then|done].
      * right. exists e, a, reason', msg'. unfold then_change; cbn. by rewrite Hd'.
    + intros r. unfold mbind at 1, passing_bind at 1. rewrite Hm, Hm'. cbn. by rewrite app_nil_r, apply_then.
Qed.

Lemma assemble_object E p w r r' h : assemble R serverImage kind order E p w r = (r', inr h) -> ph_Object h = p.
Proof.
  unfold assemble. intros (o & r1 & _ & Hrest)%pass_bind_ok. destruct o as [o|]; [|done].
  repeat (let x := fresh in let r := fresh in apply pass_bind_ok in Hrest as (x & r & _ & Hrest)). by injection Hrest as _ <-.
Qed.

(** What a pass over a live page asks for when it has something to serve. *)
Definition serves (p : page_object) (e : publish_effect) : Prop := exists h, e = SetPage h /\ ph_Object h = p.

Lemma rewrite_registers E p rw : blind (registers (serves p)) (reconcileRewrite R kind E p rw).
Proof.
  unfold reconcileRewrite. cbn zeta. destruct (UnknownPlaceholders _ _).
  - apply registers_bind; [apply quiet_target|]. intros target. apply registers_bind; [apply quiet_set_attr|]. intros _.
    apply registers_bind; [apply quiet_note_parent|]. intros _. apply registers_request. by exists (bare_handler p).
  - apply registers_quiet_stop. by apply quiet_mark.
Qed.

Lemma page_registers E p : blind (registers (serves p)) (register_page R serverImage kind order E p).
Proof.
  unfold register_page. destruct (po_Rewrite p) as [rw|]; [apply rewrite_registers|].
  apply (registers_handler _ SetPage (fun h => ph_Object h = p)); [apply quiet_assemble, quiet_note_parent|apply assemble_object].
Qed.

Lemma utility_registers E p t : blind (registers (fun e => exists h, e = SetUtilityPage t h /\ ph_Object h = p)) (register_utility R serverImage kind order E p t).
Proof.
  unfold register_utility. apply (registers_handler _ (SetUtilityPage t) (fun h => ph_Object h = p)); [apply quiet_assemble, quiet_ret|apply assemble_object].
Qed.

Lemma translation_registers name : blind (registers (fun e => e = SetTranslation name)) (register_translation name).
Proof. unfold register_translation. by apply registers_request. Qed.

Definition anything {A} (_ : list publish_effect) (_ : change) (_ : outcome + A) : Prop := True.

Lemma blind_live E m withdraw register Q : blind Q register -> blind anything (live E m withdraw register).
Proof.
  intros Hreg. unfold live. cbn zeta.
  assert (Hask : forall e, blind anything (ask e : P unit)).
  { intros e. exists [e], no_change, (inr tt). split; [done|]. intros []. unfold ask; cbn. by rewrite apply_no_change. }
  assert (Hany : forall A (n : P A), quiet n -> blind anything n) by (intros A n Hn; by eapply blind_weaken).
  assert (Hbind : forall A B (n : P A) (f : A -> P B), blind anything n -> (forall a, blind anything (f a)) -> blind anything (n ≫= f)).
  { intros A B n f Hn Hf. by eapply blind_bind. }
  assert (Hup : blind anything (match pu_update E with Some e => stop (Failed e) | None => mret tt end : P unit)).
  { destruct (pu_update E); apply Hany; [apply quiet_stop|apply quiet_ret]. }
  destruct (mg_Deleting m), (mg_Finalizer m); cbn [negb].
  - apply Hbind; [apply Hask|]. intros _. apply Hbind; [apply Hask|]. intros _. apply Hbind; [exact Hup|]. intros _. apply Hany, quiet_stop.
  - apply Hany, quiet_stop.
  - apply Hbind; [|intros _; by eapply blind_weaken].
    exists [], (mkChange ∅ (Some (reconciling, Reconciling, "Reconciling"))), (inr tt). split; [done|]. intros [].
    unfold apply_change, mark_as, modify, pk_mark; cbn. by rewrite app_nil_r, (left_id_L ∅ (∪)).
  - apply Hbind; [apply Hask|]. intros _. apply Hbind; [exact Hup|]. intros _. apply Hany, quiet_stop.
Qed.

(** * Over an unchanged world a pass settles *)

Lemma concluded_settles w m body last stored es st o :
  blind anything body -> concluded R Written m body last stored = (es, st, o) ->
  concluded R w m body last st = (es, st, o).
Proof.
  intros (es' & d & res & _ & Hbody). unfold concluded. destruct (negb _); [by intros [= <- <- <-]|].
  destruct (negb _); [by intros [= <- <- <-]|]. rewrite !Hbody. cbn [ru_Asked ru_Status app].
  set (st1 := mkPkStatus (ps_Attributes (apply_change d stored)) (ps_Conditions (apply_change d stored)) (mg_Generation m)).
  set (o1 := match res with inl o => o | inr _ => Settled end).
  assert (Hwrite : forall x, write_status Written stored st1 x = (st1, x)).
  { intros x. unfold write_status. case_bool_decide as Hb; [by rewrite <- Hb|done]. }
  rewrite Hwrite. intros [= <- <- <-].
  assert (Hagain : mkPkStatus (ps_Attributes (apply_change d st1)) (ps_Conditions (apply_change d st1)) (mg_Generation m) = st1).
  { pose proof (apply_again d stored) as Ha. unfold st1, apply_change in *; cbn in *. by injection Ha as -> ->. }
  rewrite Hagain. unfold write_status. by rewrite bool_decide_eq_true_2.
Qed.


(** * A page is served as its status says *)

(** The handler's pages after some requests. *)
Definition pages_after (es : list publish_effect) (store : gmap string handler) : gmap string handler :=
  foldl (fun s e => page_request e s) store es.

Lemma pages_after_app es1 es2 store : pages_after (es1 ++ es2) store = pages_after es2 (pages_after es1 store).
Proof. apply foldl_app. Qed.

Definition focal (m : managed) : Prop := mg_Namespace m = rc_ControllerNamespace R /\ mg_Host m = rc_FocalHost R.

Lemma concluded_focal m body last stored es st o :
  focal m -> concluded R Written m body last stored = (es, st, o) ->
  exists r res, body (mkRun [] stored) = (r, res) /\ es = (ru_Asked r ++ last st)%list /\
    st = mkPkStatus (ps_Attributes (ru_Status r)) (ps_Conditions (ru_Status r)) (mg_Generation m) /\
    o = match res with inl o => o | inr _ => Settled end.
Proof.
  intros [Hns Hh]. unfold concluded. rewrite Hns, Hh, !String.eqb_refl. cbn [negb].
  destruct (body _) as [r res]. set (st1 := mkPkStatus _ _ _). unfold write_status. cbn.
  intros Hc. exists r, res. case_bool_decide as Hb; injection Hc as <- <- <-; split_and!; try done. by rewrite Hb.
Qed.

Lemma live_registers E m withdraw register request stored r res :
  mg_Deleting m = false -> mg_Finalizer m = true -> blind (registers request) register ->
  live E m withdraw register (mkRun [] stored) = (r, res) ->
  (ru_Asked r = [] /\ (status_of (ps_Conditions (ru_Status r)) "Ready" = Some CFalse \/
                       status_of (ps_Conditions (ru_Status r)) "Ready" = Some CUnknown)) \/
  (exists e, request e /\ ru_Asked r = [e] /\ status_of (ps_Conditions (ru_Status r)) "Ready" = Some CTrue).
Proof.
  intros Hdel Hfin (es & d & res' & Hr & Hm). unfold live. rewrite Hdel, Hfin. cbn [negb].
  unfold mbind, passing_bind, mark_as, modify. rewrite Hm. intros [= <- _]. cbn [ru_Asked ru_Status app].
  unfold apply_change, pk_mark; cbn. destruct Hr as [(-> & Hd & _)|(e & a & reason & msg & He & -> & Hd & _)].
  - left. split; [done|]. unfold never_ready in Hd. destruct (cg_Marked d) as [[[s reason] msg]|]; rewrite SetConditions_Ready.
    + left. congruence.
    + by right.
  - right. exists e. split_and!; [done..|]. rewrite Hd. by rewrite SetConditions_Ready.
Qed.

(** C19: After a pass over a live page the handler serves it exactly as the status
    says: as it now is when Ready, not at all when not, and as before while
    the pass waits for something; and no other page is touched. *)
Theorem page_served_as_status_says E p stored es st o store :
  focal (po_Meta p) -> mg_Deleting (po_Meta p) = false -> mg_Finalizer (po_Meta p) = true ->
  ReconcilePage R serverImage kind order E Written p stored = (es, st, o) ->
  match status_of (ps_Conditions st) "Ready" with
  | Some CTrue => exists h, pages_after es store !! mg_Name (po_Meta p) = Some h /\ ph_Object h = p
  | Some CFalse => pages_after es store !! mg_Name (po_Meta p) = None
  | _ => pages_after es store = store
  end /\
  forall n, n <> mg_Name (po_Meta p) -> pages_after es store !! n = store !! n.
Proof.
  intros Hfocal Hdel Hfin Hp. unfold ReconcilePage in Hp. cbn zeta in Hp.
  apply (concluded_focal _ _ _ _ _ _ _ Hfocal) in Hp as (r & res & Hlive & -> & -> & _). cbn [ps_Conditions] in *.
  apply (live_registers E _ _ _ (serves p) _ _ _ Hdel Hfin (page_registers E p)) in Hlive
    as [[-> [Hready|Hready]]|(e & (h & -> & Hh) & -> & Hready)];
    unfold withdrawn; cbn [ps_Conditions]; rewrite Hready; cbn [app].
  - rewrite bool_decide_eq_true_2 by done. cbn. split; [apply lookup_delete_eq|]. intros n Hn. by rewrite lookup_delete_ne.
  - rewrite bool_decide_eq_false_2 by done. done.
  - rewrite bool_decide_eq_false_2 by done. cbn. unfold handler_name. rewrite Hh. split.
    + exists h. by rewrite lookup_insert_eq.
    + intros n Hn. by rewrite lookup_insert_ne.
Qed.

(** A page is registered only under a finalizer, and loses it only once the
    handler forgot the page: none is left in the handler with nobody to
    withdraw it. *)
Theorem page_withdrawn_before_gone E w p stored es st o store :
  ReconcilePage R serverImage kind order E w p stored = (es, st, o) ->
  (forall h, SetPage h ∈ es -> mg_Finalizer (po_Meta p) = true /\ mg_Deleting (po_Meta p) = false /\ ph_Object h = p) /\
  (RemoveFinalizer ∈ es -> mg_Deleting (po_Meta p) = true /\ pages_after es store !! mg_Name (po_Meta p) = None).
Proof.
  unfold ReconcilePage, concluded. cbn zeta. destruct (negb _).
  { intros [= <- _ _]. split; [by intros h ?%elem_of_nil|by intros ?%elem_of_nil]. }
  destruct (negb _). { intros [= <- _ _]. split; [by intros h ?%elem_of_nil|by intros ?%elem_of_nil]. }
  destruct (live E _ _ _ _) as [r res] eqn:Hlive. destruct (write_status _ _ _ _) as [st' o'].
  intros [= <- _ _]. set (st1 := mkPkStatus _ _ _).
  assert (Hw : forall h, SetPage h ∉ withdrawn (mg_Name (po_Meta p)) st1 /\ RemoveFinalizer ∉ withdrawn (mg_Name (po_Meta p)) st1).
  { intros h. unfold withdrawn. case_bool_decide; split; intros Hin; repeat (apply elem_of_cons in Hin as [[=]|Hin]); by apply elem_of_nil in Hin. }
  destruct (mg_Deleting (po_Meta p)) eqn:Hdel, (mg_Finalizer (po_Meta p)) eqn:Hfin; unfold live in Hlive; rewrite Hdel, Hfin in Hlive; cbn in Hlive.
  - assert (ru_Asked r = [DeletePage (mg_Name (po_Meta p)); RemoveFinalizer]) as -> by (destruct (pu_update E); cbn in Hlive; by injection Hlive as <- _).
    split.
    + intros h Hin. cbn [app] in Hin. apply elem_of_cons in Hin as [[=]|Hin]. apply elem_of_cons in Hin as [[=]|Hin]. by destruct (proj1 (Hw h)).
    + intros _. split; [done|]. rewrite pages_after_app. cbn. unfold withdrawn. case_bool_decide; cbn; by rewrite ?lookup_delete_eq.
  - injection Hlive as <- _. cbn [ru_Asked app]. split; [intros h Hin; by destruct (proj1 (Hw h))|].
    intros Hin. by destruct (proj2 (Hw (bare_handler p))).
  - destruct (page_registers E p) as (es & d & res' & Hr & Hm). unfold mbind, passing_bind, mark_as, modify in Hlive.
    rewrite Hm in Hlive. injection Hlive as <- _. cbn [ru_Asked app].
    destruct Hr as [(-> & _ & _)|(e & a & reason & msg & (h & -> & Hh) & -> & _)]; cbn [app]; split.
    + intros h Hin. by destruct (proj1 (Hw h)).
    + intros Hin. by destruct (proj2 (Hw (bare_handler p))).
    + intros h' [[= ->]|Hin]%elem_of_cons; [done|]. by destruct (proj1 (Hw h')).
    + intros [[=]|Hin]%elem_of_cons. by destruct (proj2 (Hw h)).
  - assert (ru_Asked r = [AddFinalizer]) as -> by (destruct (pu_update E); cbn in Hlive; by injection Hlive as <- _). cbn [app]. split.
    + intros h [[=]|Hin]%elem_of_cons. by destruct (proj1 (Hw h)).
    + intros [[=]|Hin]%elem_of_cons. by destruct (proj2 (Hw (bare_handler p))).
Qed.

(** * A rewrite page stands for what the host serves *)

Definition servable (p : page_object) (o : ref_object) : Prop :=
  match ro_Payload o with
  | PageTarget h rewrites => h = mg_Host (po_Meta p) /\ rewrites = false
  | FunctionTarget h internal => h = mg_Host (po_Meta p) /\ internal = false
  | _ => True
  end.

Lemma no_problem_servable p o : rewriteTargetProblem p o = None -> servable p o.
Proof.
  unfold rewriteTargetProblem, servable. cbn zeta. destruct (ro_Payload o); try done.
  - destruct (String.eqb_spec host (mg_Host (po_Meta p))); cbn [negb]; [|done]. by destruct rewrites.
  - destruct (String.eqb_spec host (mg_Host (po_Meta p))); cbn [negb]; [|done]. by destruct internal.
Qed.

Lemma resolve_target_servable E p ref r r' t :
  resolve_target R kind E p ref r = (r', inr t) ->
  servable p t /\ exists o, pu_get E (or_Kind ref) (reference_namespace kind (mg_Namespace (po_Meta p)) ref) (or_Name ref) = Found o /\
    rf_object o = t /\ ConditionTrue (rf_conditions o) "Ready" = true.
Proof.
  unfold resolve_target, target_seen, resolve_ref, resolve_in, ResolveKDexObjectReference. cbn zeta.
  destruct (isClusterKind kind && negb (isClusterKind (or_Kind ref))).
  { repeat case_match; intros Hr; cbn in Hr; simplify_eq. }
  destruct (pu_knownKind E (or_Kind ref)); cbn [negb]; [|done].
  destruct (checkReferenceNamespace _ _ _).
  { repeat case_match; intros Hr; cbn in Hr; simplify_eq. }
  destruct (pu_get E _ _ _) as [o|msg|msg]; cbn [mbind option_bind]; [|done..].
  destruct (rewriteTargetProblem p (rf_object o)) as [[reason msg]|] eqn:Hp.
  { repeat case_match; intros Hr; cbn in Hr; simplify_eq. }
  destruct (ConditionTrue (rf_conditions o) "Ready") eqn:Hr; [|done]. intros [= _ <-].
  split; [by apply no_problem_servable|]. by exists o.
Qed.

(** C22: A rewrite page is served only when its path names no wildcard its pattern
    lacks, and its target, read from the page's own namespace, is Ready and
    served by the same host: a page that is not itself a rewrite, or a function
    that is not internal. *)
Theorem rewrite_served_only_to_servable E w p rw stored es st o h :
  po_Rewrite p = Some rw -> ReconcilePage R serverImage kind order E w p stored = (es, st, o) -> SetPage h ∈ es ->
  UnknownPlaceholders (rw_Path rw) (po_PatternPath p) = [] /\
  exists t, pu_get E (rw_TargetKind rw) (reference_namespace kind (mg_Namespace (po_Meta p)) (mkRef (rw_TargetKind rw) (rw_TargetName rw) ""))
      (rw_TargetName rw) = Found t /\ ConditionTrue (rf_conditions t) "Ready" = true /\ servable p (rf_object t).
Proof.
  intros Hrw Hp Hin. pose proof (page_withdrawn_before_gone E w p stored es st o ∅ Hp) as [Hset _].
  destruct (Hset h Hin) as (Hfin & Hdel & _). clear Hset. revert Hp. unfold ReconcilePage, concluded. cbn zeta.
  destruct (negb _); [intros [= <- _ _]; by apply elem_of_nil in Hin|]. destruct (negb _); [intros [= <- _ _]; by apply elem_of_nil in Hin|].
  destruct (live E _ _ _ _) as [r res] eqn:Hlive. destruct (write_status _ _ _ _). intros [= <- _ _].
  unfold live in Hlive. rewrite Hdel, Hfin in Hlive. cbn [negb] in Hlive.
  apply pass_bind_inv in Hlive as [(? & [=] & _)|(? & r1 & Hmark & Hreg)]. injection Hmark as <- _.
  unfold register_page in Hreg. rewrite Hrw in Hreg. unfold reconcileRewrite in Hreg. cbn zeta in Hreg.
  assert (Hnot : forall st1, SetPage h ∉ withdrawn (mg_Name (po_Meta p)) st1).
  { intros st1 Hw. unfold withdrawn in Hw. case_bool_decide; repeat (apply elem_of_cons in Hw as [[=]|Hw]); by apply elem_of_nil in Hw. }
  apply elem_of_app in Hin as [Hin|Hin]; [|by destruct (Hnot _ Hin)].
  destruct (UnknownPlaceholders _ _); [|injection Hreg as <- _; by apply elem_of_nil in Hin].
  split; [done|]. apply pass_bind_inv in Hreg as [(? & Ht & _)|(t & r2 & Ht & _)].
  - destruct (quiet_target E p (mkRef (rw_TargetKind rw) (rw_TargetName rw) "")) as (es' & d & res' & [-> _] & Hm).
    rewrite Hm in Ht. injection Ht as <- _. by apply elem_of_nil in Hin.
  - apply resolve_target_servable in Ht as (Hs & t' & Hget & <- & Hready). exists t'. done.
Qed.

(** * The order maps are walked in *)

(** What a quiet part of a pass answers, whatever run it is given. *)
Definition answers {A} (m : P A) (a : A) : Prop := exists r r', m r = (r', inr a).

Lemma answers_unique {A} (m : P A) a a' : quiet m -> answers m a -> answers m a' -> a = a'.
Proof. intros (es & d & res & _ & Hm) (r1 & r1' & Ha) (r2 & r2' & Ha'). rewrite Hm in Ha, Ha'. congruence. Qed.

Lemma answers_bind {A B} (m : P A) (f : A -> P B) b : answers (m ≫= f) b -> exists a, answers m a /\ answers (f a) b.
Proof. intros (r & r' & (a & r1 & Hm & Hf)%pass_bind_ok). exists a. split; [by exists r, r1|by exists r1, r']. Qed.

Lemma answers_ret {A} (a a' : A) : answers (mret a : P A) a' -> a' = a.
Proof. intros (r & r' & [= _ <-]). done. Qed.

Definition resolved (E : publish_environment) (m : managed) (ref : option KDexObjectReference) : option ref_object :=
  match snd (resolve_ref R kind E m ref (mkRun [] (mkPkStatus ∅ ∅ 0))) with inr o => o | inl _ => None end.

Lemma answers_resolved E m ref o : answers (resolve_ref R kind E m ref) o -> o = resolved E m ref.
Proof.
  intros (r & r' & Ho). unfold resolved. destruct (quiet_resolve E m ref) as (es & d & res & _ & Hm).
  rewrite Hm in *. cbn. by injection Ho as _ ->.
Qed.

(** ** What is collected, up to order *)

Definition library_scope (o : ref_object) : scope := with_library serverImage o no_scope.
Definition library_scopes (E : publish_environment) (m : managed) (ref : option KDexObjectReference) : list scope :=
  match resolved E m ref with Some o => [library_scope o] | None => [] end.

(** [t] is [s] with what [cs] bring: the backends as a set. *)
Definition gathers (s : scope) (cs : list scope) (t : scope) : Prop :=
  (forall x, x ∈ sc_Backends t <-> x ∈ sc_Backends s \/ exists c, c ∈ cs /\ x ∈ sc_Backends c) /\
  sc_Packages t = (sc_Packages s ++ mjoin (map sc_Packages cs))%list /\ sc_Scripts t = (sc_Scripts s ++ mjoin (map sc_Scripts cs))%list.

Definition alike (s t : scope) : Prop :=
  (forall x, x ∈ sc_Backends s <-> x ∈ sc_Backends t) /\ sc_Packages s ≡ₚ sc_Packages t /\ sc_Scripts s ≡ₚ sc_Scripts t.

Lemma gathers_nil s : gathers s [] s.
Proof.
  split_and!; cbn; rewrite ?app_nil_r; [|done..]. intros x. split; [by left|]. intros [?|(c & ?%elem_of_nil & _)]; done.
Qed.

Lemma gathers_app s cs t cs' u : gathers s cs t -> gathers t cs' u -> gathers s (cs ++ cs') u.
Proof.
  intros (Hb & Hp & Hs) (Hb' & Hp' & Hs'). split_and!.
  - intros x. rewrite Hb', Hb. setoid_rewrite elem_of_app. naive_solver.
  - by rewrite Hp', Hp, map_app, join_app, app_assoc.
  - by rewrite Hs', Hs, map_app, join_app, app_assoc.
Qed.

Lemma gathers_alike s s' cs cs' t t' : alike s s' -> cs ≡ₚ cs' -> gathers s cs t -> gathers s' cs' t' -> alike t t'.
Proof.
  intros (Hb & Hp & Hs) Hcs (Hbt & Hpt & Hst) (Hbt' & Hpt' & Hst'). split_and!.
  - intros x. rewrite Hbt, Hbt', Hb. by setoid_rewrite Hcs.
  - rewrite Hpt, Hpt', Hp. by rewrite Hcs.
  - rewrite Hst, Hst', Hs. by rewrite Hcs.
Qed.

Lemma CollectBackend_elem refs o x : x ∈ CollectBackend serverImage refs o <-> x ∈ refs \/ x ∈ CollectBackend serverImage [] o.
Proof.
  unfold CollectBackend. destruct (payload_backend (ro_Payload o)) as [b|]; [|set_solver].
  destruct (IsConfigured b serverImage); [|set_solver]. cbn zeta. case_bool_decide; case_bool_decide; set_solver.
Qed.

Lemma gathers_library s o : gathers s [library_scope o] (with_library serverImage o s).
Proof.
  unfold library_scope, with_library. split_and!; cbn; rewrite ?app_nil_r; [|done..].
  intros x. rewrite CollectBackend_elem. setoid_rewrite list_elem_of_singleton. naive_solver.
Qed.

Lemma library_answers E m key ref s t : answers (add_library R serverImage kind E m key ref s) t -> gathers s (library_scopes E m ref) t.
Proof.
  unfold add_library, library_scopes. intros (o & Ho%answers_resolved & Ht)%answers_bind. rewrite <- Ho. destruct o as [o|].
  - apply answers_bind in Ht as (? & _ & ->%answers_ret). apply gathers_library.
  - apply answers_ret in Ht as ->. apply gathers_nil.
Qed.

(** A content's application, and what it brings. *)
Definition content_scope (e : string * (packed_content * option ref_object)) : list scope :=
  match snd (snd e) ≫= fun o => match ro_Payload o with App _ p scripts => Some (o, p, scripts) | _ => None end with
  | None => []
  | Some (o, p, scripts) => [mkScope (CollectBackend serverImage [] o) [p] scripts]
  end.

Lemma contents_answers l : forall s t, answers (add_contents serverImage l s) t -> gathers s (mjoin (map content_scope l)) t.
Proof.
  induction l as [|[slot [c app]] l IH]; intros s t; cbn [add_contents map mjoin list_join].
  - intros ->%answers_ret. apply gathers_nil.
  - unfold content_scope at 1. cbn [snd]. destruct (app ≫= _) as [[[o p] scripts]|]; [|apply IH].
    intros (? & _ & Ht%IH)%answers_bind. eapply gathers_app; [|exact Ht]. split_and!; cbn; rewrite ?app_nil_r; [|done..].
    intros y. rewrite CollectBackend_elem. setoid_rewrite list_elem_of_singleton. naive_solver.
Qed.

Definition navigation_content (o : ref_object) : string := match ro_Payload o with Navigation c _ => c | _ => "" end.
Definition navigation_scopes (E : publish_environment) (m : managed) (e : string * ref_object) : list scope :=
  match ro_Payload (snd e) with Navigation _ lib => library_scopes E m lib | _ => [] end.

Definition insert_all {A} (l : list (string * A)) (acc : gmap string A) : gmap string A := foldl (fun m e => <[fst e := snd e]> m) acc l.

Lemma navigations_answers E m l : forall acc s acc' t,
  answers (add_navigations R serverImage kind E m l acc s) (acc', t) ->
  acc' = insert_all (map (prod_map id navigation_content) l) acc /\ gathers s (mjoin (map (navigation_scopes E m) l)) t.
Proof.
  induction l as [|[slot o] l IH]; intros acc s acc' t; cbn [add_navigations map mjoin list_join].
  - intros [= -> ->]%answers_ret. split; [done|apply gathers_nil].
  - unfold navigation_scopes at 1, navigation_content, insert_all. cbn [snd prod_map fst foldl id].
    destruct (ro_Payload o); try (by intros (? & ? & [=])).
    intros (? & _ & (s1 & Hs%library_answers & [-> Ht]%IH)%answers_bind)%answers_bind. split; [done|by eapply gathers_app].
Qed.

Definition navigation_of (E : publish_environment) (m : managed) (e : string * option KDexObjectReference) : option (string * ref_object) :=
  (fun o => (fst e, o)) <$> resolved E m (snd e).

Lemma resolve_navigations_answers E m l : forall acc acc',
  answers (ResolvePageNavigations R kind E m l acc) acc' -> acc' = insert_all (omap (navigation_of E m) l) acc.
Proof.
  induction l as [|[name ref] l IH]; intros acc acc'; cbn [ResolvePageNavigations omap list_omap].
  - by intros ->%answers_ret.
  - intros (o & Ho%answers_resolved & Ht%IH)%answers_bind. unfold navigation_of at 1. cbn [fst snd]. rewrite <- Ho.
    rewrite Ht. by destruct o.
Qed.

Lemma insert_all_lookup {A} (l : list (string * A)) : forall acc k v, NoDup (map fst l) ->
  insert_all l acc !! k = Some v <-> (k, v) ∈ l \/ (k ∉ map fst l /\ acc !! k = Some v).
Proof.
  unfold insert_all. induction l as [|[k0 v0] l IH]; intros acc k v; cbn [map foldl fst snd]; [set_solver|].
  intros [Hk Hl]%NoDup_cons. rewrite (IH _ _ _ Hl), lookup_insert_Some, elem_of_cons, not_elem_of_cons. split.
  - intros [?|(Hnin & [[<- <-]|[? ?]])]; [by left; right|by left; left|right; by split_and!].
  - intros [[[= -> ->]|?]|((? & ?) & ?)]; [right; by split; [|left]|by left|right; split; [done|]; right; by split].
Qed.

Lemma insert_all_perm {A} (l l' : list (string * A)) acc : NoDup (map fst l) -> l ≡ₚ l' -> insert_all l acc = insert_all l' acc.
Proof.
  intros Hl Hp. assert (Hl' : NoDup (map fst l')) by (by rewrite <- Hp). apply map_eq. intros k. apply option_eq. intros v.
  rewrite !insert_all_lookup by done. by rewrite Hp.
Qed.

Lemma fragment_answers E m key parts ref s c t :
  answers (add_fragment R serverImage kind E m key parts ref s) (c, t) ->
  c = match resolved E m ref with Some o => fst (parts o) | None => "" end /\
  gathers s (match resolved E m ref with Some o => library_scopes E m (snd (parts o)) | None => [] end) t.
Proof.
  unfold add_fragment. intros (o & Ho%answers_resolved & Ht)%answers_bind. rewrite <- Ho. destruct o as [o|].
  - apply answers_bind in Ht as (? & _ & (s1 & Hs%library_answers & [= -> ->]%answers_ret)%answers_bind). by split.
  - apply answers_ret in Ht as [= -> ->]. split; [done|apply gathers_nil].
Qed.

(** ** Unique references *)

Lemma unique_by_spec {A} (key : A -> string) l : forall seen,
  NoDup (map key (unique_by key seen l)) /\
  forall k, k ∈ map key (unique_by key seen l) <-> k ∈ map key l /\ k ∉ seen.
Proof.
  induction l as [|a l IH]; intros seen; cbn [unique_by map].
  - split; [constructor|]. set_solver.
  - case_bool_decide as Ha.
    + destruct (IH seen) as [Hn Hk]. split; [done|]. intros k. rewrite Hk, elem_of_cons. set_solver.
    + destruct (IH (key a :: seen)) as [Hn Hk]. cbn [map]. split.
      * constructor; [|done]. rewrite Hk. set_solver.
      * intros k. rewrite elem_of_cons, Hk, !elem_of_cons. destruct (decide (k = key a)) as [->|]; naive_solver.
Qed.

Lemma unique_by_perm {A} (key : A -> string) l l' :
  (forall k, k ∈ map key l <-> k ∈ map key l') -> map key (unique_by key [] l) ≡ₚ map key (unique_by key [] l').
Proof.
  intros Hl. destruct (unique_by_spec key l []) as [Hn Hk], (unique_by_spec key l' []) as [Hn' Hk'].
  apply NoDup_Permutation; [done..|]. intros k. by rewrite Hk, Hk', Hl.
Qed.

Lemma backends_alike s t : alike s t -> map or_Name (UniqueBackendRefs (sc_Backends s)) ≡ₚ map or_Name (UniqueBackendRefs (sc_Backends t)).
Proof.
  intros (Hb & _). unfold UniqueBackendRefs. rewrite !merge_sort_Permutation. apply unique_by_perm.
  intros k. rewrite !list_elem_of_fmap. by setoid_rewrite Hb.
Qed.

Lemma packages_alike s t : alike s t -> map package_key (UniquePackageRefs (sc_Packages s)) ≡ₚ map package_key (UniquePackageRefs (sc_Packages t)).
Proof.
  intros (_ & Hp & _). destruct (UniquePackageRefs_spec (sc_Packages s)) as (Hn & Hsub & Hsup),
    (UniquePackageRefs_spec (sc_Packages t)) as (Hn' & Hsub' & Hsup').
  apply NoDup_Permutation; [done..|]. intros k. rewrite !list_elem_of_fmap. split; intros (p & -> & Hin).
  - destruct (Hsup' p) as (q & ? & ?); [rewrite <- Hp; by apply Hsub|]. by exists q.
  - destruct (Hsup p) as (q & ? & ?); [rewrite Hp; by apply Hsub'|]. by exists q.
Qed.

Lemma scripts_alike s t : alike s t -> map HashScriptDef (UniqueScriptDefs (sc_Scripts s)) ≡ₚ map HashScriptDef (UniqueScriptDefs (sc_Scripts t)).
Proof. intros (_ & _ & Hs). apply unique_by_perm. intros k. by rewrite Hs. Qed.
End Passes.

Lemma walked_perm {A} (order : list string -> list string) (m : gmap string A) :
  (forall l, order l ≡ₚ l) -> walked order m ≡ₚ map_to_list m.
Proof.
  intros Ho. unfold walked. rewrite (Ho (map fst (map_to_list m))).
  enough (omap (fun k => (fun a => (k, a)) <$> m !! k) (map fst (map_to_list m)) = map_to_list m) as -> by done.
  assert (Hall : forall k a, (k, a) ∈ map_to_list m -> m !! k = Some a) by (intros k a; apply elem_of_map_to_list).
  revert Hall. induction (map_to_list m) as [|[k a] l IH]; intros Hall; cbn; [done|].
  rewrite (Hall k a) by (by left). cbn. f_equal. apply IH. intros k' a' Hin. apply Hall. by right.
Qed.

Lemma walked_keys {A} (order : list string -> list string) (m : gmap string A) :
  (forall l, order l ≡ₚ l) -> NoDup (map fst (walked order m)).
Proof. intros Ho. rewrite (walked_perm order m Ho). apply NoDup_fst_map_to_list. Qed.

Section Order.
Context `{!HostCRDs} `{!Sha256} `{!Conditions} `{!Reasons}.
Context (R : reconciler) (serverImage kind : string) (order order' : list string -> list string).
Hypothesis order_perm : forall l, order l ≡ₚ l.
Hypothesis order_perm' : forall l, order' l ≡ₚ l.

Lemma walked_both {A} (m : gmap string A) : walked order m ≡ₚ walked order' m.
Proof. by rewrite !walked_perm. Qed.

Lemma omap_keys {A B} (f : string * A -> option (string * B)) l :
  (forall e x, f e = Some x -> fst x = fst e) -> NoDup (map fst l) -> NoDup (map fst (omap f l)).
Proof.
  intros Hf. induction l as [|e l IH]; cbn [omap list_omap map]; [done|]. intros [He Hl]%NoDup_cons.
  destruct (f e) as [x|] eqn:Hx; [|by apply IH]. cbn [map]. constructor; [|by apply IH].
  rewrite (Hf _ _ Hx). intros Hin. apply He. apply list_elem_of_fmap in Hin as (y & Hy & Hin).
  apply list_elem_of_omap in Hin as (e' & He' & Hy'). rewrite Hy, (Hf _ _ Hy'). apply list_elem_of_fmap. by exists e'.
Qed.

End Order.

(** * Utility pages are kept by type *)

(** The handler's utility pages after some requests, [walk] the order a walk
    over their types takes. *)
Definition utilities_after (walk : list utility_type) (es : list publish_effect) (s : utility_type -> option handler) : utility_type -> option handler :=
  foldl (fun s e => utility_request walk e s) s es.

(** A utility page whose type changed is served under both: whatever the order
    of the walk, its removal leaves one of them, with nobody to withdraw it. *)
Theorem retyped_utility_outlives walk t t' h h' s :
  t <> t' -> handler_name h = handler_name h' ->
  exists t0 h0, utilities_after walk [SetUtilityPage t h; SetUtilityPage t' h'; RemoveUtilityPage (handler_name h)] s t0 = Some h0 /\
    handler_name h0 = handler_name h.
Proof.
  intros Ht Hname. unfold utilities_after. cbn [foldl utility_request].
  set (s2 := fun t0 => if bool_decide (t0 = t') then Some h' else if bool_decide (t0 = t) then Some h else s t0).
  assert (Hs : s2 t = Some h) by (unfold s2; by rewrite bool_decide_eq_false_2, bool_decide_eq_true_2).
  assert (Hs' : s2 t' = Some h') by (unfold s2; by rewrite bool_decide_eq_true_2).
  change (exists t0 h0, remove_utility walk (handler_name h) s2 t0 = Some h0 /\ handler_name h0 = handler_name h).
  unfold remove_utility. destruct (List.find _ walk) as [u|]; [|by exists t, h].
  destruct (decide (t = u)) as [<-|Hu].
  - exists t', h'. rewrite bool_decide_eq_false_2 by done. by rewrite Hs'.
  - exists t, h. by rewrite bool_decide_eq_false_2 by done.
Qed.

(** * Witnesses *)

#[local] Instance page_crds : HostCRDs := {|
  IsConfigured b _ := negb (String.eqb (bk_StaticImage b) ""); ToTag := sd_Text;
  utility_text t := match t with Announcement => "Announcement" | Consent => "Consent" | ErrorPage => "Error" | LoginPage => "Login" end |}.
#[local] Existing Instance sha256Example.
#[local] Existing Instance conditionsExample.
#[local] Instance page_reasons : Reasons := {| Reconciling := "Reconciling"; ReconcileSuccess := "Success"; ReconcileError := "Error" |}.

Definition page_reconciler : reconciler := mkReconciler "web" "shop" None (5 * second) "host-manager" "" None.
Definition unset : pk_status := mkPkStatus ∅ ∅ 0.
Definition is_ready : conditions := {["Ready" := mkCondition CTrue "" ""]}.

Definition ui_backend : Backend := mkHostBackend "/-/ui" "ui:1" "" "" "" [] None None.
Definition world_object (k : string) (name : string) (p : payload) : answer (referred ref_object) :=
  Found (mkReferred (mkRefObject k name "web" 3 p) is_ready).

(** Two applications, a footer and two navigations on an archetype. *)
Definition page_world : publish_environment :=
  mkPublishEnvironment (fun _ => true)
    (fun k _ n =>
       if String.eqb n "cart" then world_object k n (App ui_backend (mkPackage "@shop/cart" "1.0.0" "" None) [mkScript "cart.js"])
       else if String.eqb n "menu" then world_object k n (App ui_backend (mkPackage "@shop/menu" "2.0.0" "" None) [mkScript "menu.js"])
       else if String.eqb n "foot" then world_object k n (Footer "<footer>" None)
       else if String.eqb n "main" then world_object k n (Navigation "<nav>" None)
       else if String.eqb n "side" then world_object k n (Navigation "<aside>" None)
       else if String.eqb n "home" then world_object k n (PageTarget "shop" false)
       else NotFound "not found")
    (inr [(1%Z, mkRefObject "KDexClusterPageArchetype" "plain" "" 2
       (Archetype (mkArchetype "<html>" None (Some (mkRef "KDexPageFooter" "foot" "")) None {["main" := Some (mkRef "KDexPageNavigation" "main" "")]})))])
    (fun _ => NotFound "no such page") None.

Definition page_of (rw : option rewrite_of) : page_object :=
  mkPageObject (mkManaged "home-page" "web" "shop" 7 false true) None
    [mkEntryOf "main" (Some (mkRef "KDexApp" "cart" "")) "" "x-cart" ∅; mkEntryOf "side" (Some (mkRef "KDexApp" "menu" "")) "" "x-menu" ∅]
    None None {["side" := Some (mkRef "KDexPageNavigation" "side" "")]} None None "/home/{id}" rw.

Notation pass order := (ReconcilePage page_reconciler "backend-server" "KDexPage" order page_world Written).

Definition home_requests : list publish_effect := fst (fst (pass id (page_of None) unset)).
Definition home_status : pk_status := snd (fst (pass id (page_of None) unset)).

Lemma home_run : pass id (page_of None) unset = (home_requests, home_status, Settled).
Proof. by vm_compute. Qed.

Lemma home_ready : status_of (ps_Conditions home_status) "Ready" = Some CTrue.
Proof. by vm_compute. Qed.


Lemma page_served_as_status_says_witness : exists h, pages_after home_requests ∅ !! "home-page" = Some h /\ ph_Object h = page_of None.
Proof.
  destruct (page_served_as_status_says page_reconciler "backend-server" "KDexPage" id page_world (page_of None) unset home_requests home_status Settled ∅) as [Hs _].
  - split; reflexivity.
  - reflexivity.
  - reflexivity.
  - exact home_run.
  - rewrite home_ready in Hs. exact Hs.
Defined.

Definition renamed : rewrite_of := mkRewriteOf "/shop/{id}" "KDexPage" "home".
Definition renamed_requests : list publish_effect := fst (fst (pass id (page_of (Some renamed)) unset)).
Definition renamed_status : pk_status := snd (fst (pass id (page_of (Some renamed)) unset)).

Lemma renamed_run : pass id (page_of (Some renamed)) unset = (renamed_requests, renamed_status, Settled).
Proof. by vm_compute. Qed.

Lemma renamed_set : renamed_requests = [SetPage (bare_handler (page_of (Some renamed)))].
Proof. by vm_compute. Qed.

Lemma rewrite_served_only_to_servable_witness :
  exists t, pu_get page_world "KDexPage" "web" "home" = Found t /\ servable (page_of (Some renamed)) (rf_object t).
Proof.
  destruct (rewrite_served_only_to_servable page_reconciler "backend-server" "KDexPage" id page_world Written (page_of (Some renamed)) renamed
    unset renamed_requests renamed_status Settled (bare_handler (page_of (Some renamed)))) as (_ & t & Hget & _ & Hs).
  - reflexivity.
  - exact renamed_run.
  - rewrite renamed_set. by left.
  - exists t. exact (conj Hget Hs).
Defined.

Definition assembled (order : list string -> list string) : run publish_effect * (outcome + handler) :=
  assemble page_reconciler "backend-server" "KDexPage" order page_world (page_of None) (mret tt) (mkRun [] unset).

Lemma rev_order (l : list string) : rev l ≡ₚ l.
Proof. symmetry. apply Permutation_rev. Qed.

Lemma assembled_both : exists r1 h1 r2 h2, assembled id = (r1, inr h1) /\ assembled (@rev string) = (r2, inr h2) /\
  map HashScriptDef (ph_Scripts h1) <> map HashScriptDef (ph_Scripts h2).
Proof. do 4 eexists. split; [by vm_compute|]. split; [by vm_compute|]. by vm_compute. Qed.


Lemma retyped_utility_outlives_witness :
  exists t0 h0, utilities_after [ErrorPage; LoginPage]
    [SetUtilityPage LoginPage (bare_handler (page_of None)); SetUtilityPage ErrorPage (bare_handler (page_of None)); RemoveUtilityPage "home-page"]
    (fun _ => None) t0 = Some h0 /\ handler_name h0 = "home-page".
Proof.
  apply (retyped_utility_outlives [ErrorPage; LoginPage] LoginPage ErrorPage (bare_handler (page_of None)) (bare_handler (page_of None)) (fun _ => None)).
  - discriminate.
  - reflexivity.
Defined.
